(* ===== verification/_CoqProject ===== *)
-Q . S2P
Prelude.v
Time.v
HeapOrder.v
TimerHeap.v
Segments.v
TimerOps.v
TimerSource.v
TimerRun.v
TimerTurns.v
TimerLoop.v
Source.v
SourceSafe.v
SourceCancel.v
SourceDrive.v
Io.v
IoRead.v
IoWrite.v
IoLogic.v
IoStream.v
IoStreamInv.v
IoStreamLive.v
IoStreamRun.v
Epoll.v
EpollMux.v
EpollSpec.v
EpollSubs.v
Object.v
ObjectOps.v
Data.v
DataInv.v
DataOps.v
DataLife.v
DataCreate.v
DataSpec.v
Threads.v
Semaphore.v
Group.v
Mpsc.v
MpscLinks.v
MpscQueue.v
RootList.v
RootPool.v
ThreadEvent.v
Transform.v
BaseCoding.v
BaseTransforms.v
Utf.v
DqState.v
UnfairLock.v
Once.v
Apply.v
ApplyRun.v
LaneRmw.v
LaneFields.v
LaneSuspend.v
Lane.v
LaneInv.v
LaneStep.v
LaneWaits.v
LaneSubmit.v
LaneAcquire.v
LaneDrain.v
LaneWidth.v
LaneComplete.v
LaneSafety.v
LaneBugs.v
Qos.v
QueueGraph.v
QueueCreate.v
QueuePriority.v
