(* ===== verification/Prelude.v ===== *)
(** * Verification of libdispatch: root file and shared prelude

    libdispatch runs work items ("blocks" or functions with a context) on queues.
    A queue of its own ("lane", [src/queue.c]) orders items and forwards itself to a
    target queue, in the end to a root queue served by a pool of threads.  Everything
    is a reference-counted object ([src/object.c]); semaphores and groups
    ([src/semaphore.c]) synchronise threads with items; data objects ([src/data.c],
    [src/transform.c]) are immutable byte sequences; sources ([src/source.c]) call handlers
    on queues when the event loop ([src/event/event.c], [src/event/event_epoll.c]) reports
    timers, descriptors or signals; [dispatch_io] ([src/io.c]) reads and writes descriptors
    with their help; deadlines are [dispatch_time_t] values ([src/time.c]).  The
    configuration modelled is the one of the Linux build: futex locks, no kernel workloops,
    no priority overrides by the kernel.

    ** Layout

    - [Prelude]: machine integers with their wrap-around ([wrap], [swrap], the scope
      [word_scope]), bit lemmas, crashes as values ([outcome]), the hint database
      [dispatch] and the tactics the other files share.
    - [Time]: the kernel clocks are an argument; [dispatch_time], [dispatch_walltime],
      the conversions and the clock cache.  [dispatch_time_refines] relates the 64-bit
      encoding to instants of three clocks.
    - [HeapOrder], [TimerHeap], [Segments], [TimerOps]: the timer heap.  [TimerHeap]
      is written against a class of slot storages; [Segments] is the storage of the
      code (segments of doubling size with a pointer array in the last one) and an
      instance of it; [TimerOps] has insertion, removal and update and the
      refinement of a finite map.  The sift loops take fuel; [sift_terminates] shows that
      the depth of the tree is enough, and the definitions pass the number of slots.
    - [TimerSource], [TimerRun], [TimerTurns], [TimerLoop]: timers above the heap.  The flags
      and configurations of timer sources and the count of missed intervals; arming,
      disarming, configuration and the drain of the heaps by the event loop with its timerfd.
    - [Epoll], [EpollMux], [EpollSpec], [EpollSubs]: the descriptors and signals that unotes
      share in the epoll back end, with the interest list of the kernel, and one-shot
      subscriptions as their specification.
    - [Source], [SourceSafe], [SourceCancel], [SourceDrive]: the state machine of sources,
      [_dispatch_source_invoke2] and [_dispatch_source_wakeup]; the points of an invocation at
      which other threads and handlers interfere are arguments of it.
    - [Io], [IoRead], [IoWrite]: an operation of [dispatch_io], its buffer, its system calls
      and the calls of its handler.  [IoLogic]: what streams rely on, as a class that reads
      and writes implement.  [IoStream], [IoStreamInv], [IoStreamLive], [IoStreamRun]: the
      queue of a stream with the blocks that wait on it.
    - [Object], [ObjectOps]: the two reference counts under interleaving, their
      overflow and over-release crashes, and the generic operations by type.
    - [Data], [DataInv], [DataOps], [DataLife], [DataCreate], [DataSpec]: data objects over
      an explicit store of objects, blocks and destructors; specification by byte
      sequences, and balance of references and destructor calls.  [DataCreate] has the
      constructors with every destructor and with failing allocation.
    - [Transform], [BaseCoding], [BaseTransforms], [Utf]: the transforms, over the
      regions that [dispatch_data_apply] yields; RFC 4648, with its alphabets written
      out, as the reference for base 32 and base 64; UTF-8 and UTF-16 in both byte orders.
    - [Threads]: pools of threads and the counting ([tally]) of their program points.
    - [Semaphore], [Group]: every atomic access and every kernel call is a step; the
      invariants hold for any number of threads and any interleaving.
    - [UnfairLock], [ThreadEvent], [Once]: the unfair lock in its forms with and without
      futexes, the event of one waiter and [dispatch_once], at the same grain.
    - [Mpsc], [MpscLinks], [MpscQueue]: the lock-free list of the queues, with the heap of its
      links; it refines a FIFO.  [RootList], [RootPool]: the list of a root queue with its
      mediator, and its thread pool.
    - [Apply], [ApplyRun]: [dispatch_apply], the division of its work and its threads.
    - [DqState]: the 64-bit state word of a lane and its accessors, and the view of the
      word as a record of fields.  [LaneRmw]: the body of every atomic update of the
      word.  [LaneFields]: the same on fields.  [LaneSuspend]: suspension, resumption
      and activation as whole calls.
    - [Lane]: lanes under concurrency.  A configuration has the word, the queue, the
      number of times the lane and redirected items are on the target queue, and one
      program counter per thread; one definition per step of [dispatch_async],
      [dispatch_sync], their barrier forms, the wakeup, the drain, the completion of
      items, the transfer of the lock to a waiter, suspend and resume.  [LaneInv] is
      the invariant; [LaneStep], [LaneWaits] carry it over a step; [LaneSubmit],
      [LaneAcquire], [LaneDrain], [LaneWidth], [LaneComplete] prove it for each step;
      [LaneSafety] concludes; [LaneBugs] has two executions it excludes.
    - [Qos]: the classes, the priority words of queues and threads ([src/shims/priority.h])
      and the attributes of queues ([src/init.c]).  [QueueGraph]: a store of queues with the
      root queues, the creation of lanes, the setters of classes, activation, retargeting
      and [_dispatch_queue_compute_priority_and_wlh] ([src/queue.c]).  [QueueCreate]: what a
      created lane is.  [QueuePriority]: the invariant of the graph of targets, and the
      priority of a queue in it.

    ** What the theorems show

    - Lanes: a barrier runs alone; asynchronous items stay within the width; the drain
      lock has the owner the word names; the lane is on its target at most once; items
      leave in order; no wakeup is lost and no configuration deadlocks; the width field
      accounts exactly for the work.  These are proved for every execution
      ([lane_exec]) by any number of threads below [2^30 - 1] (thread ids have 30
      bits), widths from 1 to 0xffe ([DISPATCH_QUEUE_WIDTH_MAX]), under two explicit
      conditions on the execution: [few_in_flight], at most 0xfff non-barrier items in
      flight at any time, and [no_pending_race], no suspension that interrupts a drain which
      left PENDING_BARRIER behind (the same conditions on a single step are [step_covered]).
      [LaneBugs] shows what goes wrong without them.  A serial lane used by fewer than 1364
      threads needs neither ([serial_lane_alone]).  In a suspended lane the callers of
      [dispatch_sync] that sleep do wait for the resumption.
    - Suspension refines a counter, across the inline count of 6 bits and the side count,
      with the references kept while suspended.
    - Timers: every sequence of operations implements a map from timers to keys; the
      published minima are right and changes of them request reprogramming; slots are
      never accessed outside their segment; the sift loops end.  A drain of the event loop ends
      with every timer that was due fired once and the timerfd programmed for the next one;
      references held by armed timers balance.
    - Descriptors: the epoll back end calls each waiting unote once per event of its
      direction and the kernel watches what the waiting unotes asked for, unless a reader
      is registered while a writer of its descriptor is armed and no reader is
      ([never_crossed]); such a reader is not called ([crossed_reader_deaf]).
    - Sources: a source is finalized once, its cancellation handler runs at most once and
      last, a cancelled source calls no other handler, and cancellation completes after at
      most four invocations.  Handlers may change at any time.  Two uses are excluded by
      name: [dispatch_source_cancel_and_wait] that takes the lock of a source which is not
      installed ([waits_installed]), and a handler set after the cancellation handler has run
      ([no_late_handler]); [registered_after_finalized] and [cancel_handler_again] show why.
    - I/O: a read hands over every byte once and in order within the water marks; after each
      event of a write its handler gets exactly what is not written then; [done] is given
      once; the stream of one
      channel forgets no operation, and its operations are performed one after the other.
    - Objects: no interleaving of retains and releases disposes of an object twice or
      early; misuse crashes.
    - Data: every operation, with any destructor, returns the object, pointer and offset it
      promises, or NULL when memory is short; an object is alive exactly while the client or
      a rope the client holds refers to it; the transforms agree with RFC 4648 and round
      trip.
    - Semaphores and groups: no overcommit, no lost wakeup, notifications exactly once.
    - [dispatch_once], [dispatch_apply]: one run of the initializer, each iteration once,
      nobody waits forever.  Unfair locks: mutual exclusion in the form without futexes; the
      futex forms fail, as [tryunlock_pi_crashes] and [futex_unlock_leaks] show.
    - Queues: attributes mean what the calls that built them say; a created lane has the
      class, target, width and state asked for; creation followed by activation is creation;
      the priority of a queue is the highest that it or a target on the way asks for.
    - The lists of queues are FIFO under any number of producers; the pool of a root queue
      accounts for its threads and, but for one race, loses no work.
    - Findings, each with the execution or the input that shows it: see the theorems
      named in the comments of [LaneBugs], [Semaphore], [Group], [Time], [DataSpec],
      [BaseTransforms], [Utf], [UnfairLock], [RootPool], [TimerSource], [EpollSubs],
      [SourceCancel], [IoWrite], [IoStream], [Qos] and [QueueCreate].

    Interleavings are sequentially consistent: the memory orders of the atomic accesses
    are not modelled.  Each compare-and-swap loop is one step where it succeeds, since a
    failed attempt changes nothing.

    ** Not modelled

    Of lanes under concurrency: inner queues (targets that are lanes), retargeting, changes
    of the width ([_dispatch_lane_set_width]), [dispatch_async_and_wait], quality-of-service
    overrides, vouchers, thread-bound queues, and the early ends of a drain on the kernel's
    request or for narrowing.  Of the graph of queues: the disposal of queues, workloops,
    and targets that lead back to the queue.  Of sources: registrations that the back end
    ends late (kevent).  Of I/O: the creation of channels
    and descriptor entries, barriers, and disks with their list of advised operations; a
    [size_t] that counts the bytes of an operation is a mathematical integer, since it is bounded
    by the length, and only [SIZE_MAX] stands for no bound.  The other parts of the program:
    the manager thread, workloops, the kevent and Windows back ends, mach channels, vouchers and activities, firehose logging,
    introspection, the allocator of continuations, the Swift and Objective-C overlays and the
    Blocks runtime: they are specific to other platforms, glue to services of the operating
    system, or have no state of their own. *)

From stdpp Require Export base numbers list gmap.
From Stdlib Require Export ZArith Lia.
From Stdlib Require Import Btauto.

#[global] Open Scope Z_scope.

(** ** Machine integers

    An unsigned [w]-bit C value is a [Z] in [0, 2^w); the definitions write
    the reduction out wherever the C arithmetic can wrap. *)

Declare Scope word_scope.
Delimit Scope word_scope with word.

Definition wrap (w z : Z) : Z := z mod 2 ^ w.

(** The two's complement reading of a [w]-bit value. *)
Definition swrap (w z : Z) : Z :=
  let u := wrap w z in if decide (u < 2 ^ (w - 1)) then u else u - 2 ^ w.

Abbreviation u8 := (wrap 8).
Abbreviation u16 := (wrap 16).
Abbreviation u32 := (wrap 32).
Abbreviation u64 := (wrap 64).
Abbreviation i64 := (swrap 64).

Definition in_u (w z : Z) : Prop := 0 <= z < 2 ^ w.

Definition UINT64_MAX : Z := 2 ^ 64 - 1.
Definition INT64_MAX : Z := 2 ^ 63 - 1.
Definition INT64_MIN : Z := - 2 ^ 63.
Definition SIZE_MAX : Z := 2 ^ 64 - 1.

Notation "a .& b" := (Z.land a b) (at level 45, left associativity) : word_scope.
Notation "a .| b" := (Z.lor a b) (at level 46, left associativity) : word_scope.
Notation "a .>> n" := (Z.shiftr a n) (at level 44, left associativity) : word_scope.
Notation "a .<< n" := (Z.shiftl a n) (at level 44, left associativity) : word_scope.

(** [lnotw w z]: the C operator [~] on a [w]-bit unsigned value. *)
Definition lnotw (w z : Z) : Z := 2 ^ w - 1 - wrap w z.

(** ** Automation *)

Create HintDb dispatch.

(** Rewriting of [testbit] through the bit operators; side conditions by lia. *)
Create Rewrite HintDb bits.
#[export] Hint Rewrite Z.land_spec Z.lor_spec Z.lxor_spec Z.ldiff_spec Z.bits_0
  : bits.
#[export] Hint Rewrite Z.shiftr_spec Z.shiftl_spec Z.lnot_spec Z.ones_spec_low
  Z.ones_spec_high Z.testbit_neg_r using lia : bits.

(** Evaluate closed powers of two so that [lia] sees literals. *)
Ltac eval_pow2 :=
  repeat match goal with
  | |- context [2 ^ (Zpos ?p - 1)] =>
      let v := eval vm_compute in (2 ^ (Zpos p - 1)) in
      change (2 ^ (Zpos p - 1)) with v
  | H : context [2 ^ (Zpos ?p - 1)] |- _ =>
      let v := eval vm_compute in (2 ^ (Zpos p - 1)) in
      change (2 ^ (Zpos p - 1)) with v in H
  | |- context [2 ^ Zpos ?p] =>
      let v := eval vm_compute in (2 ^ Zpos p) in
      change (2 ^ Zpos p) with v
  | H : context [2 ^ Zpos ?p] |- _ =>
      let v := eval vm_compute in (2 ^ Zpos p) in
      change (2 ^ Zpos p) with v in H
  end.

Ltac word_unfold :=
  unfold in_u, swrap, lnotw, wrap, UINT64_MAX, INT64_MAX, INT64_MIN, SIZE_MAX in *.

(** [word_lia]: decide linear goals about machine words: unfolds the wraps,
    splits the [decide]s and lets [lia] treat the constant moduli. *)
Ltac word_lia :=
  word_unfold; eval_pow2;
  repeat case_decide; Z.div_mod_to_equations; lia.

(** Split every [if]/[match] of the goal on a [decide] or boolean test. *)
Ltac split_ifs :=
  repeat match goal with
  | |- context [if decide ?P then _ else _] => destruct (decide P)
  | |- context [if ?b then _ else _] => let E := fresh "E" in destruct b eqn:E
  end.

(** Reduce the option monad only. *)
Ltac opt_simpl := cbn [mbind option_bind mret option_ret].

(** Boolean comparisons to propositions. *)
Ltac reflect_bools :=
  repeat match goal with
  | H : (_ =? _) = true |- _ => apply Z.eqb_eq in H
  | H : (_ =? _) = false |- _ => apply Z.eqb_neq in H
  | H : (_ <? _) = true |- _ => apply Z.ltb_lt in H
  | H : (_ <? _) = false |- _ => apply Z.ltb_ge in H
  | H : (_ <=? _) = true |- _ => apply Z.leb_le in H
  | H : (_ <=? _) = false |- _ => apply Z.leb_gt in H
  | H : bool_decide _ = true |- _ => apply bool_decide_eq_true in H
  | H : bool_decide _ = false |- _ => apply bool_decide_eq_false in H
  end.

(** ** Facts on machine words *)

Lemma wrap_range (w z : Z) : 0 <= w -> 0 <= wrap w z < 2 ^ w.
Proof. intros. unfold wrap. apply Z.mod_pos_bound. lia. Qed.

Lemma wrap_small (w z : Z) : 0 <= z < 2 ^ w -> wrap w z = z.
Proof. intros. by apply Z.mod_small. Qed.

Lemma wrap_wrap (w z : Z) : 0 <= w -> wrap w (wrap w z) = wrap w z.
Proof. intros. apply wrap_small, wrap_range. lia. Qed.

(** Only the last wrap of a sum of products matters. *)
Lemma wrap_mul_add (w a b c : Z) : wrap w (wrap w a * b + c) = wrap w (a * b + c).
Proof. unfold wrap. by rewrite <- Zplus_mod_idemp_l, Zmult_mod_idemp_l, Zplus_mod_idemp_l. Qed.

Lemma swrap_small (w z : Z) : 0 < w -> - 2 ^ (w - 1) <= z < 2 ^ (w - 1) -> swrap w z = z.
Proof.
  intros Hw Hz. unfold swrap, wrap.
  assert (2 ^ w = 2 * 2 ^ (w - 1)) as E
    by (rewrite <- Z.pow_succ_r by lia; f_equal; lia).
  rewrite E. destruct (decide (0 <= z)).
  - rewrite Z.mod_small by lia. case_decide; lia.
  - replace z with (z + 2 * 2 ^ (w - 1) + (-1) * (2 * 2 ^ (w - 1))) by lia.
    rewrite Z.mod_add by lia. rewrite Z.mod_small by lia. case_decide; lia.
Qed.

Lemma lnotw_range (w z : Z) : 0 <= w -> 0 <= lnotw w z < 2 ^ w.
Proof. intros. unfold lnotw. pose proof (wrap_range w z). lia. Qed.

#[export] Hint Resolve wrap_range lnotw_range : dispatch.

(** A word below [2^w] has no bit at or above [w]. *)
Lemma testbit_above (w z i : Z) : 0 <= z < 2 ^ w -> w <= i -> Z.testbit z i = false.
Proof.
  intros Hz Hi. destruct (decide (0 <= w)).
  - rewrite <- (Z.mod_small z (2 ^ w)) by lia. apply Z.mod_pow2_bits_high. lia.
  - rewrite Z.pow_neg_r in Hz by lia. lia.
Qed.

Lemma testbit_wrap (w z i : Z) :
  0 <= w -> Z.testbit (wrap w z) i = bool_decide (i < w) && Z.testbit z i.
Proof.
  intros. unfold wrap. case_bool_decide.
  - by rewrite Z.mod_pow2_bits_low by lia.
  - by rewrite Z.mod_pow2_bits_high by lia.
Qed.

(** Complement at width [w], bit by bit. *)
Lemma testbit_lnotw (w z i : Z) :
  0 <= w -> 0 <= i -> Z.testbit (lnotw w z) i = bool_decide (i < w) && negb (Z.testbit z i).
Proof.
  intros Hw Hi. unfold lnotw.
  replace (2 ^ w - 1 - wrap w z) with (wrap w (Z.lnot z)).
  - rewrite testbit_wrap by lia. by rewrite Z.lnot_spec.
  - unfold Z.lnot, wrap. rewrite <- Z.sub_1_r.
    pose proof (Z.mod_pos_bound z (2 ^ w)).
    symmetry. apply Zmod_unique with (q := - (z / 2 ^ w) - 1); [lia|].
    pose proof (Z.div_mod z (2 ^ w)). lia.
Qed.

Lemma land_range_r (a b w : Z) : 0 <= b < 2 ^ w -> 0 <= Z.land a b < 2 ^ w.
Proof.
  intros Hb. assert (0 <= Z.land a b) by (apply Z.land_nonneg; lia).
  split; [done|]. destruct (decide (0 <= w)); [|rewrite Z.pow_neg_r in Hb; lia].
  destruct (decide (Z.land a b = 0)) as [->|]; [lia|].
  apply Z.log2_lt_pow2; [lia|].
  destruct (decide (b = 0)) as [->|]; [rewrite Z.land_0_r in *; lia|].
  apply Z.nle_gt. intros Hle.
  assert (Z.testbit (Z.land a b) (Z.log2 (Z.land a b)) = true) as Hbit
    by (apply Z.bit_log2; lia).
  rewrite Z.land_spec, (testbit_above w b) in Hbit by lia.
  by rewrite andb_false_r in Hbit.
Qed.

Lemma lor_range (a b w : Z) :
  0 <= a < 2 ^ w -> 0 <= b < 2 ^ w -> 0 <= Z.lor a b < 2 ^ w.
Proof.
  intros Ha Hb. assert (0 <= Z.lor a b) by (apply Z.lor_nonneg; lia).
  split; [done|]. destruct (decide (0 <= w)); [|rewrite Z.pow_neg_r in Hb; lia].
  destruct (decide (Z.lor a b = 0)) as [->|]; [lia|].
  apply Z.log2_lt_pow2; [lia|]. rewrite Z.log2_lor by lia.
  destruct (decide (w = 0)) as [->|]; [simpl in *; assert (a = 0) by lia; assert (b = 0) by lia; subst; done|].
  assert (forall x, 0 <= x < 2 ^ w -> Z.log2 x < w) as Hlog.
  { intros x Hx. destruct (decide (x = 0)) as [->|]; [simpl; lia|].
    apply Z.log2_lt_pow2; lia. }
  pose proof (Hlog a Ha). pose proof (Hlog b Hb). lia.
Qed.

(** Disjoint words add without carries. *)
Lemma lor_add_disjoint (a b : Z) : Z.land a b = 0 -> Z.lor a b = a + b.
Proof. intros H. rewrite <- Z.lxor_lor by done. symmetry. by apply Z.add_nocarry_lxor. Qed.

(** Masking with a single bit. *)
Lemma land_pow2 (z k : Z) :
  0 <= k -> Z.land z (2 ^ k) = if Z.testbit z k then 2 ^ k else 0.
Proof.
  intros Hk. apply Z.bits_inj'. intros i Hi. rewrite Z.land_spec.
  destruct (decide (i = k)) as [->|].
  - rewrite Z.pow2_bits_true by lia. destruct (Z.testbit z k); simpl.
    + by rewrite Z.pow2_bits_true by lia.
    + by rewrite Z.bits_0.
  - rewrite Z.pow2_bits_false by lia. rewrite andb_false_r.
    destruct (Z.testbit z k); [by rewrite Z.pow2_bits_false by lia|by rewrite Z.bits_0].
Qed.

(** The top bits of a word read off by comparison. *)
Lemma testbit_div (z k : Z) : 0 <= k -> Z.testbit z k = bool_decide ((z / 2 ^ k) mod 2 = 1).
Proof.
  intros Hk. pose proof (Z.testbit_spec' z k Hk) as H.
  destruct (Z.testbit z k); simpl in H; symmetry;
    [apply bool_decide_eq_true|apply bool_decide_eq_false]; lia.
Qed.

(** ** Fallible code

    [Crash why] is a run that stops in [DISPATCH_CLIENT_CRASH],
    [DISPATCH_INTERNAL_CRASH], a failed assertion or an invalid access. *)

Inductive crash :=
| ClientCrash
| InternalCrash
| InvalidAccess.

Inductive outcome (A : Type) :=
| Done (a : A)
| Crash (why : crash).
Arguments Done {A} a.
Arguments Crash {A} why.

#[export] Instance outcome_ret : MRet outcome := fun A a => Done a.
#[export] Instance outcome_bind : MBind outcome := fun A B f m =>
  match m with Done a => f a | Crash c => Crash c end.

(** The run does not crash. *)
Definition is_done {A} (m : outcome A) : bool := match m with Done _ => true | Crash _ => false end.

Lemma bind_Done {A B} (f : A -> outcome B) (m : outcome A) (b : B) :
  (m ≫= f) = Done b -> exists a, m = Done a /\ f a = Done b.
Proof. destruct m as [a|]; simpl; [by exists a|done]. Qed.

Abbreviation i32 := (swrap 32).
Definition INT_MAX : Z := 2 ^ 31 - 1.

(** ** Bit fields as arithmetic *)

(** Extracting the field of [n] bits at [lo]. *)
Lemma land_field (x lo n : Z) : 0 <= lo -> 0 <= n ->
  Z.land x (Z.shiftl (Z.ones n) lo) = ((x / 2 ^ lo) mod 2 ^ n) * 2 ^ lo.
Proof.
  intros Hlo Hn. rewrite <- Z.shiftl_mul_pow2 by lia. rewrite <- (Z.land_ones _ n) by lia.
  rewrite <- Z.shiftr_div_pow2 by lia. apply Z.bits_inj'. intros i Hi.
  rewrite Z.land_spec. destruct (decide (i < lo)).
  - by rewrite !Z.shiftl_spec_low, andb_false_r by lia.
  - rewrite !Z.shiftl_spec by lia. rewrite Z.land_spec, Z.shiftr_spec by lia. do 2 f_equal. lia.
Qed.

(** Setting one bit. *)
Lemma lor_bit (x k : Z) : 0 <= k -> Z.lor x (2 ^ k) = x + (1 - (x / 2 ^ k) mod 2) * 2 ^ k.
Proof.
  intros Hk. pose proof (Z.testbit_spec' x k Hk) as Hb. destruct (Z.testbit x k) eqn:E; simpl in Hb.
  - rewrite <- Hb. replace ((1 - 1) * 2 ^ k) with 0 by lia. rewrite Z.add_0_r. apply Z.bits_inj'. intros i Hi.
    rewrite Z.lor_spec. destruct (decide (i = k)) as [->|]; [rewrite E; done|].
    rewrite Z.pow2_bits_false by lia. by rewrite orb_false_r.
  - rewrite <- Hb, Z.sub_0_r, Z.mul_1_l. apply lor_add_disjoint. rewrite land_pow2 by lia. by rewrite E.
Qed.

(** Clearing one bit of a [w]-bit word. *)
Lemma land_clear_bit (w x k : Z) : 0 <= k < w -> 0 <= x < 2 ^ w ->
  Z.land x (lnotw w (2 ^ k)) = x - ((x / 2 ^ k) mod 2) * 2 ^ k.
Proof.
  intros Hk Hx. pose proof (Z.testbit_spec' x k ltac:(lia)) as Hb. rewrite <- Hb.
  assert (Z.land x (lnotw w (2 ^ k)) = x - Z.land x (2 ^ k)) as ->.
  { assert (Z.land (Z.land x (lnotw w (2 ^ k))) (Z.land x (2 ^ k)) = 0) as Hd.
    { apply Z.bits_inj'. intros i Hi. rewrite !Z.land_spec, testbit_lnotw, Z.bits_0 by lia.
      destruct (Z.testbit (2 ^ k) i), (Z.testbit x i), (bool_decide (i < w)); done. }
    enough (x = Z.land x (lnotw w (2 ^ k)) + Z.land x (2 ^ k)) by lia.
    rewrite <- lor_add_disjoint by done. apply Z.bits_inj'. intros i Hi.
    rewrite Z.lor_spec, !Z.land_spec, testbit_lnotw by lia. destruct (decide (i < w)).
    - rewrite bool_decide_eq_true_2 by lia. by destruct (Z.testbit (2 ^ k) i), (Z.testbit x i).
    - rewrite (testbit_above w x i) by lia. done. }
  rewrite land_pow2 by lia. destruct (Z.testbit x k); simpl; lia.
Qed.

(** ** Lists *)

Lemma filter_all {A} (P : A -> Prop) `{forall x, Decision (P x)} l : Forall P l -> filter P l = l.
Proof. induction 1; [done|]. rewrite filter_cons_True by done. congruence. Qed.

Lemma filter_none {A} (P : A -> Prop) `{forall x, Decision (P x)} l : Forall (fun x => ~ P x) l -> filter P l = [].
Proof. induction 1; [done|]. by rewrite filter_cons_False by done. Qed.
