(* ===== verification/Time.v ===== *)
(** * Clocks and [dispatch_time_t]

    Models [src/time.c] and [src/shims/time.h] as built on Linux, where the
    time unit is the nanosecond ([DISPATCH_TIME_UNIT_USES_NANOSECONDS]).

    A [dispatch_time_t] is a 64-bit word that encodes a clock and a value on
    that clock.  What the kernel clocks read is an argument ([clocks]) of the
    operations that consult them.  The abstract specification is [abs_time]:
    either "forever" or an instant of one clock, with a saturating addition. *)

From S2P Require Import Prelude.

Definition NSEC_PER_SEC : Z := 1000000000.
Definition DISPATCH_TIME_NOW : Z := 0.
Definition DISPATCH_TIME_FOREVER : Z := 2 ^ 64 - 1.
Definition DISPATCH_WALLTIME_NOW : Z := 2 ^ 64 - 2.

Inductive dispatch_clock_t :=
| DISPATCH_CLOCK_UPTIME
| DISPATCH_CLOCK_MONOTONIC
| DISPATCH_CLOCK_WALL.

#[export] Instance dispatch_clock_t_eq_dec : EqDecision dispatch_clock_t.
Proof. solve_decision. Defined.

(** [struct timespec], both fields signed 64-bit. *)
Record timespec := { tv_sec : Z; tv_nsec : Z }.

Definition _dispatch_timespec_to_nano (ts : timespec) : Z :=
  u64 (u64 (u64 (tv_sec ts) * NSEC_PER_SEC) + u64 (tv_nsec ts)).

(** What [clock_gettime] stores for the three clocks the library reads. *)
Record clocks := {
  clock_monotonic : timespec;   (* CLOCK_MONOTONIC *)
  clock_boottime : timespec;    (* CLOCK_BOOTTIME *)
  clock_realtime : timespec;    (* CLOCK_REALTIME *)
}.

Definition _dispatch_uptime (c : clocks) : Z := _dispatch_timespec_to_nano (clock_monotonic c).
Definition _dispatch_monotonic_time (c : clocks) : Z :=
  _dispatch_timespec_to_nano (clock_boottime c).
Definition _dispatch_get_nanoseconds (c : clocks) : Z :=
  _dispatch_timespec_to_nano (clock_realtime c).

Definition _dispatch_time_now (c : clocks) (clock : dispatch_clock_t) : Z :=
  match clock with
  | DISPATCH_CLOCK_UPTIME => _dispatch_uptime c
  | DISPATCH_CLOCK_MONOTONIC => _dispatch_monotonic_time c
  | DISPATCH_CLOCK_WALL => _dispatch_get_nanoseconds c
  end.

(** The identity conversions of the nanosecond configuration. *)
Definition _dispatch_time_mach2nano (machtime : Z) : Z := machtime.
Definition _dispatch_time_nano2mach (nsec : Z) : Z := nsec.

(** [dispatch_clock_now_cache_s]: one slot per clock, 0 when not read yet. *)
Definition dispatch_clock_now_cache_s : Type := dispatch_clock_t -> Z.
Definition empty_now_cache : dispatch_clock_now_cache_s := fun _ => 0.

Definition _dispatch_time_now_cached (c : clocks) (clock : dispatch_clock_t)
    (cache : dispatch_clock_now_cache_s) : Z * dispatch_clock_now_cache_s :=
  if decide (cache clock <> 0) then (cache clock, cache)
  else
    let cache' := fun k => if decide (k = clock) then _dispatch_time_now c clock else cache k in
    (cache' clock, cache').

Definition DISPATCH_UP_OR_MONOTONIC_TIME_MASK : Z := 2 ^ 63.
Definition DISPATCH_WALLTIME_MASK : Z := 2 ^ 62.
Definition DISPATCH_TIME_MAX_VALUE : Z := DISPATCH_WALLTIME_MASK - 1.

Definition _dispatch_time_to_clock_and_value (c : clocks) (time : Z) : dispatch_clock_t * Z :=
  let '(clock, actual_value) :=
    if decide (i64 time < 0) then
      if decide (Z.land time DISPATCH_WALLTIME_MASK <> 0) then
        (DISPATCH_CLOCK_WALL,
         if decide (time = DISPATCH_WALLTIME_NOW) then _dispatch_get_nanoseconds c
         else u64 (- time))
      else
        (DISPATCH_CLOCK_MONOTONIC,
         Z.land time (lnotw 64 DISPATCH_UP_OR_MONOTONIC_TIME_MASK))
    else (DISPATCH_CLOCK_UPTIME, time) in
  (clock,
   if decide (actual_value > DISPATCH_TIME_MAX_VALUE) then DISPATCH_TIME_FOREVER
   else actual_value).

Definition _dispatch_clock_and_value_to_time (clock : dispatch_clock_t) (value : Z) : Z :=
  if decide (value >= DISPATCH_TIME_MAX_VALUE) then DISPATCH_TIME_FOREVER
  else match clock with
       | DISPATCH_CLOCK_WALL => u64 (- value)
       | DISPATCH_CLOCK_UPTIME => value
       | DISPATCH_CLOCK_MONOTONIC => Z.lor value DISPATCH_UP_OR_MONOTONIC_TIME_MASK
       end.

(** [dispatch_time(inval, delta)], [delta] a signed 64-bit value. *)
Definition dispatch_time (c : clocks) (inval delta : Z) : Z :=
  if decide (inval = DISPATCH_TIME_FOREVER) then DISPATCH_TIME_FOREVER
  else
    let '(clock, value) := _dispatch_time_to_clock_and_value c inval in
    if decide (value = DISPATCH_TIME_FOREVER) then value
    else if decide (clock = DISPATCH_CLOCK_WALL) then
      let offset := u64 delta in
      if decide (delta >= 0) then
        let value := u64 (value + offset) in
        if decide (i64 value <= 0) then DISPATCH_TIME_FOREVER
        else _dispatch_clock_and_value_to_time DISPATCH_CLOCK_WALL value
      else
        let value := u64 (value + offset) in
        let value := if decide (i64 value < 1) then 2 else value in
        _dispatch_clock_and_value_to_time DISPATCH_CLOCK_WALL value
    else
      let value :=
        if decide (value = DISPATCH_TIME_NOW) then
          if decide (clock = DISPATCH_CLOCK_UPTIME) then _dispatch_uptime c
          else _dispatch_monotonic_time c
        else value in
      if decide (delta >= 0) then
        let offset := _dispatch_time_nano2mach (u64 delta) in
        let value := u64 (value + offset) in
        if decide (i64 value <= 0) then DISPATCH_TIME_FOREVER
        else _dispatch_clock_and_value_to_time clock value
      else
        let offset := _dispatch_time_nano2mach (u64 (- delta)) in
        let value := u64 (value - offset) in
        if decide (i64 value < 1) then _dispatch_clock_and_value_to_time clock 1
        else _dispatch_clock_and_value_to_time clock value.

(** [dispatch_walltime(inval, delta)]; the signed addition is taken modulo
    2^64, which is what its overflow test relies on. *)
Definition dispatch_walltime (c : clocks) (inval : option timespec) (delta : Z) : Z :=
  let nsec := match inval with
              | Some ts => i64 (_dispatch_timespec_to_nano ts)
              | None => i64 (_dispatch_get_nanoseconds c)
              end in
  let nsec := i64 (nsec + delta) in
  if decide (nsec <= 1) then
    if decide (delta >= 0) then DISPATCH_TIME_FOREVER else u64 (-2)
  else u64 (- nsec).

Definition _dispatch_timeout (c : clocks) (when : Z) : Z :=
  if decide (when = DISPATCH_TIME_FOREVER) then DISPATCH_TIME_FOREVER
  else if decide (when = DISPATCH_TIME_NOW) then 0
  else
    let '(clock, value) := _dispatch_time_to_clock_and_value c when in
    if decide (clock = DISPATCH_CLOCK_WALL) then
      let now := _dispatch_get_nanoseconds c in
      if decide (now >= value) then 0 else u64 (value - now)
    else
      let now := if decide (clock = DISPATCH_CLOCK_UPTIME) then _dispatch_uptime c
                 else _dispatch_monotonic_time c in
      if decide (now >= value) then 0 else _dispatch_time_mach2nano (u64 (value - now)).

Definition _dispatch_time_nanoseconds_since_epoch (c : clocks) (when : Z) : Z :=
  if decide (when = DISPATCH_TIME_FOREVER) then DISPATCH_TIME_FOREVER
  else if decide (i64 when < 0) then u64 (- i64 when)
  else u64 (_dispatch_get_nanoseconds c + _dispatch_timeout c when).

(** ** Abstract specification *)

Inductive abs_time :=
| Forever
| At (k : dispatch_clock_t) (v : Z).

(** The instant a word denotes when the clocks read [c]; the three "now"
    encodings resolve to the current reading of their clock. *)
Definition denote (c : clocks) (t : Z) : abs_time :=
  if decide (t = DISPATCH_TIME_FOREVER) then Forever
  else
    let '(k, v) := _dispatch_time_to_clock_and_value c t in
    if decide (v = DISPATCH_TIME_FOREVER) then Forever
    else if decide (k <> DISPATCH_CLOCK_WALL /\ v = DISPATCH_TIME_NOW)
         then At k (_dispatch_time_now c k)
         else At k v.

(** Saturating addition: too late is forever, too early is the first instant
    of the clock.  On the wall clock the first two nanoseconds of the epoch are
    encoded as the words for "forever" and "now". *)
Definition abs_add (c : clocks) (a : abs_time) (delta : Z) : abs_time :=
  match a with
  | Forever => Forever
  | At k v =>
      let s := v + delta in
      if decide (s >= DISPATCH_TIME_MAX_VALUE) then Forever
      else match k with
           | DISPATCH_CLOCK_WALL =>
               if decide (s = 1) then Forever
               else if decide (s <= 2) then At k (_dispatch_get_nanoseconds c)
               else At k s
           | _ => At k (Z.max s 1)
           end
  end.

(** Clock readings after the epoch, before year 2116. *)
Definition wf_clocks (c : clocks) : Prop :=
  forall k, 3 <= _dispatch_time_now c k < DISPATCH_TIME_MAX_VALUE.

Ltac time_unfold :=
  unfold DISPATCH_TIME_MAX_VALUE, DISPATCH_TIME_FOREVER, DISPATCH_TIME_NOW,
    DISPATCH_WALLTIME_NOW, DISPATCH_WALLTIME_MASK, DISPATCH_UP_OR_MONOTONIC_TIME_MASK,
    _dispatch_time_nano2mach, _dispatch_time_mach2nano in *.

(** ** Encoding lemmas *)

Lemma i64_neg (t : Z) : in_u 64 t -> i64 t < 0 <-> 2 ^ 63 <= t.
Proof. intros. word_lia. Qed.

Lemma land_walltime_mask (t : Z) :
  2 ^ 63 <= t < 2 ^ 64 -> Z.land t DISPATCH_WALLTIME_MASK <> 0 <-> 2 ^ 63 + 2 ^ 62 <= t.
Proof.
  intros Ht. unfold DISPATCH_WALLTIME_MASK. rewrite land_pow2, testbit_div by lia.
  case_bool_decide; word_lia.
Qed.

Lemma land_clear_top (t : Z) : 2 ^ 63 <= t < 2 ^ 64 ->
  Z.land t (lnotw 64 DISPATCH_UP_OR_MONOTONIC_TIME_MASK) = t - 2 ^ 63.
Proof.
  intros Ht. change (lnotw 64 DISPATCH_UP_OR_MONOTONIC_TIME_MASK) with (Z.ones 63).
  rewrite Z.land_ones by lia. word_lia.
Qed.

Lemma lor_top (v : Z) : 0 <= v < 2 ^ 63 -> Z.lor v DISPATCH_UP_OR_MONOTONIC_TIME_MASK = v + 2 ^ 63.
Proof.
  intros Hv. apply lor_add_disjoint. unfold DISPATCH_UP_OR_MONOTONIC_TIME_MASK.
  rewrite land_pow2 by lia. by rewrite (testbit_above 63) by lia.
Qed.

(** The decoder by ranges of the word. *)
Lemma decode_uptime c t : 0 <= t < 2 ^ 62 ->
  _dispatch_time_to_clock_and_value c t = (DISPATCH_CLOCK_UPTIME, t).
Proof.
  intros Ht. unfold _dispatch_time_to_clock_and_value.
  rewrite decide_False by (rewrite i64_neg; word_lia).
  rewrite decide_False by (time_unfold; lia). done.
Qed.

Lemma decode_uptime_overflow c t : 2 ^ 62 <= t < 2 ^ 63 ->
  _dispatch_time_to_clock_and_value c t = (DISPATCH_CLOCK_UPTIME, DISPATCH_TIME_FOREVER).
Proof.
  intros Ht. unfold _dispatch_time_to_clock_and_value.
  rewrite decide_False by (rewrite i64_neg; word_lia).
  rewrite decide_True by (time_unfold; lia). done.
Qed.

Lemma decode_monotonic c t : 2 ^ 63 <= t < 2 ^ 63 + 2 ^ 62 ->
  _dispatch_time_to_clock_and_value c t = (DISPATCH_CLOCK_MONOTONIC, t - 2 ^ 63).
Proof.
  intros Ht. unfold _dispatch_time_to_clock_and_value.
  rewrite decide_True by (rewrite i64_neg; word_lia).
  rewrite decide_False by (rewrite land_walltime_mask; lia).
  rewrite land_clear_top by lia.
  rewrite decide_False by (time_unfold; lia). done.
Qed.

Lemma decode_wall c t : 2 ^ 63 + 2 ^ 62 < t < 2 ^ 64 -> t <> DISPATCH_WALLTIME_NOW ->
  _dispatch_time_to_clock_and_value c t = (DISPATCH_CLOCK_WALL, 2 ^ 64 - t).
Proof.
  intros Ht Hn. unfold _dispatch_time_to_clock_and_value.
  rewrite decide_True by (rewrite i64_neg; word_lia).
  rewrite decide_True by (rewrite land_walltime_mask; lia).
  rewrite !(decide_False (P := t = DISPATCH_WALLTIME_NOW)) by done.
  replace (u64 (- t)) with (2 ^ 64 - t) by word_lia.
  rewrite decide_False by (time_unfold; lia). done.
Qed.

Lemma decode_wall_overflow c :
  _dispatch_time_to_clock_and_value c (2 ^ 63 + 2 ^ 62)
  = (DISPATCH_CLOCK_WALL, DISPATCH_TIME_FOREVER).
Proof. reflexivity. Qed.

Lemma decode_wall_now c : wf_clocks c ->
  _dispatch_time_to_clock_and_value c DISPATCH_WALLTIME_NOW
  = (DISPATCH_CLOCK_WALL, _dispatch_get_nanoseconds c).
Proof.
  intros Hc. pose proof (Hc DISPATCH_CLOCK_WALL) as H. simpl in H.
  change (_dispatch_time_to_clock_and_value c DISPATCH_WALLTIME_NOW) with
    (DISPATCH_CLOCK_WALL,
     if decide (_dispatch_get_nanoseconds c > DISPATCH_TIME_MAX_VALUE)
     then DISPATCH_TIME_FOREVER else _dispatch_get_nanoseconds c).
  rewrite decide_False by lia. done.
Qed.

(** Where a word lies decides what it decodes to. *)
Inductive decoded (c : clocks) : Z -> abs_time -> Prop :=
| dec_forever t : t = DISPATCH_TIME_FOREVER \/ 2 ^ 62 <= t < 2 ^ 63 \/ t = 2 ^ 63 + 2 ^ 62 ->
    decoded c t Forever
| dec_now k t : (k, t) = (DISPATCH_CLOCK_UPTIME, 0) \/ (k, t) = (DISPATCH_CLOCK_MONOTONIC, 2 ^ 63)
    \/ (k, t) = (DISPATCH_CLOCK_WALL, DISPATCH_WALLTIME_NOW) ->
    decoded c t (At k (_dispatch_time_now c k))
| dec_uptime v : 1 <= v < 2 ^ 62 -> decoded c v (At DISPATCH_CLOCK_UPTIME v)
| dec_monotonic v : 1 <= v < 2 ^ 62 -> decoded c (v + 2 ^ 63) (At DISPATCH_CLOCK_MONOTONIC v)
| dec_wall v : 3 <= v < 2 ^ 62 -> decoded c (2 ^ 64 - v) (At DISPATCH_CLOCK_WALL v).

Lemma decoded_total c t : in_u 64 t -> exists a, decoded c t a.
Proof.
  unfold in_u. intros Ht.
  destruct (decide (t = DISPATCH_TIME_FOREVER \/ 2 ^ 62 <= t < 2 ^ 63 \/ t = 2 ^ 63 + 2 ^ 62)).
  { eexists; by constructor. }
  destruct (decide (t = 0)) as [->|]. { eexists. eapply dec_now. eauto. }
  destruct (decide (t = 2 ^ 63)) as [->|]. { eexists. eapply dec_now. eauto. }
  destruct (decide (t = DISPATCH_WALLTIME_NOW)) as [->|]. { eexists. eapply dec_now. eauto. }
  time_unfold. destruct (decide (t < 2 ^ 62)). { eexists. apply dec_uptime. lia. }
  destruct (decide (t < 2 ^ 63 + 2 ^ 62)).
  { exists (At DISPATCH_CLOCK_MONOTONIC (t - 2 ^ 63)).
    replace t with (t - 2 ^ 63 + 2 ^ 63) at 1 by lia. apply dec_monotonic. lia. }
  exists (At DISPATCH_CLOCK_WALL (2 ^ 64 - t)).
  replace t with (2 ^ 64 - (2 ^ 64 - t)) at 1 by lia. apply dec_wall. lia.
Qed.

(** Every case of the decoder, with its raw clock and value. *)
Lemma decoded_raw c t a : wf_clocks c -> decoded c t a ->
  (a = Forever /\ (t = DISPATCH_TIME_FOREVER \/
     (t <> DISPATCH_TIME_FOREVER /\
      exists k, _dispatch_time_to_clock_and_value c t = (k, DISPATCH_TIME_FOREVER)))) \/
  (exists k v, a = At k v /\ t <> DISPATCH_TIME_FOREVER /\ 1 <= v < 2 ^ 62 /\
     (k = DISPATCH_CLOCK_WALL -> 3 <= v) /\
     (_dispatch_time_to_clock_and_value c t = (k, v) \/
      (k <> DISPATCH_CLOCK_WALL /\ v = _dispatch_time_now c k /\
       _dispatch_time_to_clock_and_value c t = (k, DISPATCH_TIME_NOW)))).
Proof.
  intros Hc [t' H|k t' H|v H|v H|v H].
  - left. split; [done|]. destruct H as [->|[H| ->]]; [by left|right..].
    + split; [time_unfold; lia|]. eexists. by apply decode_uptime_overflow.
    + split; [done|]. eexists. apply decode_wall_overflow.
  - right. pose proof (Hc k) as Hk. time_unfold.
    exists k, (_dispatch_time_now c k). destruct H as [[= -> ->]|[[= -> ->]|[= -> ->]]].
    + repeat split; try done; try lia. right. split; [done|]. split; [done|]. by apply decode_uptime.
    + repeat split; try done; try lia. right. split; [done|]. split; [done|]. by apply decode_monotonic.
    + repeat split; try done; try lia. left. by apply decode_wall_now.
  - right. exists DISPATCH_CLOCK_UPTIME, v.
    repeat split; try done; try (time_unfold; lia). left. by apply decode_uptime; lia.
  - right. exists DISPATCH_CLOCK_MONOTONIC, v.
    repeat split; try done; try (time_unfold; lia). left.
    rewrite decode_monotonic by lia. f_equal; lia.
  - right. exists DISPATCH_CLOCK_WALL, v.
    repeat split; try done; try (time_unfold; lia). left.
    rewrite decode_wall by (time_unfold; lia). f_equal; lia.
Qed.

Lemma denote_decoded c t a : wf_clocks c -> decoded c t a -> denote c t = a.
Proof.
  intros Hc Hd. unfold denote.
  destruct (decoded_raw c t a Hc Hd) as [[-> [->|[Hne [k ->]]]]|(k & v & -> & Hne & Hv & Hw & Hraw)].
  - done.
  - by rewrite decide_False by done.
  - rewrite decide_False by done. destruct Hraw as [->|(Hk & -> & ->)].
    + rewrite decide_False by (time_unfold; lia).
      rewrite decide_False by (time_unfold; lia). done.
    + rewrite decide_False by done. by rewrite decide_True.
Qed.

(** The encoder denotes what it is given, saturating at the maximum. *)
Lemma denote_encode c k v : wf_clocks c -> 1 <= v -> (k = DISPATCH_CLOCK_WALL -> 3 <= v) ->
  denote c (_dispatch_clock_and_value_to_time k v)
  = if decide (v >= DISPATCH_TIME_MAX_VALUE) then Forever else At k v.
Proof.
  intros Hc Hv Hw. apply denote_decoded; [done|]. unfold _dispatch_clock_and_value_to_time.
  case_decide as Hm; [constructor; by left|]. unfold DISPATCH_TIME_MAX_VALUE, DISPATCH_WALLTIME_MASK in Hm.
  destruct k.
  - constructor. lia.
  - rewrite lor_top by lia. constructor. lia.
  - specialize (Hw eq_refl). replace (u64 (- v)) with (2 ^ 64 - v) by word_lia. constructor. lia.
Qed.

(** ** Arithmetic on instants *)

Definition in_delta (delta : Z) : Prop := INT64_MIN < delta <= INT64_MAX.

Lemma denote_forever c : denote c DISPATCH_TIME_FOREVER = Forever.
Proof. reflexivity. Qed.

Lemma denote_wall_now c : wf_clocks c ->
  denote c DISPATCH_WALLTIME_NOW = At DISPATCH_CLOCK_WALL (_dispatch_get_nanoseconds c).
Proof.
  intros Hc. apply denote_decoded; [done|].
  apply (dec_now c DISPATCH_CLOCK_WALL). eauto.
Qed.

(** Once the instant is known, [dispatch_time] is a saturated encoding. *)
Lemma dispatch_time_wall c t v delta : t <> DISPATCH_TIME_FOREVER -> in_delta delta ->
  _dispatch_time_to_clock_and_value c t = (DISPATCH_CLOCK_WALL, v) -> 3 <= v < 2 ^ 62 ->
  dispatch_time c t delta =
    if decide (v + delta >= 2 ^ 63) then DISPATCH_TIME_FOREVER
    else _dispatch_clock_and_value_to_time DISPATCH_CLOCK_WALL
           (if decide (v + delta < 1) then 2 else v + delta).
Proof.
  unfold in_delta. intros Ht Hd Hraw Hv. unfold dispatch_time. rewrite decide_False by done. rewrite Hraw.
  rewrite decide_False by (time_unfold; lia). rewrite decide_True by done.
  destruct (decide (delta >= 0)).
  - replace (u64 (v + u64 delta)) with (v + delta) by word_lia.
    destruct (decide (v + delta >= 2 ^ 63)); [by rewrite decide_True by word_lia|].
    rewrite decide_False by word_lia. by rewrite decide_False by lia.
  - rewrite (decide_False (P := v + delta >= 2 ^ 63)) by lia. f_equal.
    destruct (decide (v + delta < 1)); [by rewrite decide_True by word_lia|].
    replace (u64 (v + u64 delta)) with (v + delta) by word_lia.
    rewrite decide_False by word_lia. done.
Qed.

Lemma dispatch_time_other c t k raw v delta : t <> DISPATCH_TIME_FOREVER -> in_delta delta ->
  k <> DISPATCH_CLOCK_WALL -> wf_clocks c ->
  _dispatch_time_to_clock_and_value c t = (k, raw) ->
  1 <= v < 2 ^ 62 -> raw = v \/ raw = DISPATCH_TIME_NOW /\ v = _dispatch_time_now c k ->
  dispatch_time c t delta =
    if decide (v + delta >= 2 ^ 63) then DISPATCH_TIME_FOREVER
    else _dispatch_clock_and_value_to_time k (if decide (v + delta < 1) then 1 else v + delta).
Proof.
  unfold in_delta. intros Ht Hd Hk Hc Hraw Hv Hrv. unfold dispatch_time.
  rewrite decide_False by done. rewrite Hraw.
  rewrite decide_False by (destruct Hrv as [->|[-> _]]; time_unfold; lia).
  rewrite (decide_False (P := k = DISPATCH_CLOCK_WALL)) by done.
  assert ((if decide (raw = DISPATCH_TIME_NOW)
           then if decide (k = DISPATCH_CLOCK_UPTIME) then _dispatch_uptime c
                else _dispatch_monotonic_time c else raw) = v) as ->.
  { destruct Hrv as [->|[-> ->]]; [by rewrite decide_False by (time_unfold; lia)|].
    rewrite decide_True by done. by destruct k. }
  time_unfold. destruct (decide (delta >= 0)).
  - replace (u64 (v + u64 delta)) with (v + delta) by word_lia.
    destruct (decide (v + delta >= 2 ^ 63)); [by rewrite decide_True by word_lia|].
    rewrite decide_False by word_lia. by rewrite decide_False by lia.
  - rewrite (decide_False (P := v + delta >= 2 ^ 63)) by lia.
    destruct (decide (v + delta < 1)); [by rewrite decide_True by word_lia|].
    replace (u64 (v - u64 (- delta))) with (v + delta) by word_lia.
    by rewrite decide_False by word_lia.
Qed.

(** [dispatch_time] refines saturating addition of instants: for every
    64-bit time and every delta, the instant denoted by the result is the
    abstract sum of the instant denoted by the argument and the delta. *)
Theorem dispatch_time_refines c t delta :
  wf_clocks c -> in_u 64 t -> in_delta delta ->
  denote c (dispatch_time c t delta) = abs_add c (denote c t) delta.
Proof.
  intros Hc Ht Hd. destruct (decoded_total c t Ht) as [a Ha].
  rewrite (denote_decoded c t a Hc Ha).
  destruct (decoded_raw c t a Hc Ha) as [[-> [->|[Hne [k Hk]]]]|(k & v & -> & Hne & Hv & Hw & Hraw)].
  - done.
  - unfold dispatch_time. rewrite decide_False by done. rewrite Hk.
    rewrite decide_True by done. apply denote_forever.
  - unfold abs_add. destruct (decide (k = DISPATCH_CLOCK_WALL)) as [->|Hk].
    + destruct Hraw as [Hraw|[[] _]]; [|done]. specialize (Hw eq_refl).
      rewrite (dispatch_time_wall c t v delta) by (done || lia).
      destruct (decide (v + delta >= 2 ^ 63)).
      { rewrite decide_True by (time_unfold; lia). apply denote_forever. }
      destruct (decide (3 <= v + delta)).
      { rewrite (decide_False (P := v + delta < 1)) by lia. rewrite denote_encode by (done || lia).
        case_decide; [done|]. rewrite !decide_False by lia. done. }
      rewrite (decide_False (P := v + delta >= DISPATCH_TIME_MAX_VALUE)) by (time_unfold; lia).
      destruct (decide (v + delta = 1)) as [->|]; [apply denote_forever|].
      rewrite (decide_True (P := v + delta <= 2)) by lia. rewrite <- denote_wall_now by done.
      replace (if decide (v + delta < 1) then 2 else v + delta) with 2
        by (case_decide; lia). done.
    + rewrite (dispatch_time_other c t k (if decide (_dispatch_time_to_clock_and_value c t = (k, v))
        then v else DISPATCH_TIME_NOW) v delta); try done.
      * destruct (decide (v + delta >= 2 ^ 63)).
        { rewrite decide_True by (time_unfold; lia). apply denote_forever. }
        rewrite denote_encode by (done || case_decide; lia).
        destruct (decide (v + delta < 1)).
        -- rewrite !decide_False by (time_unfold; lia). destruct k; [..|done]; f_equal; lia.
        -- case_decide; [done|]. destruct k; [..|done]; f_equal; lia.
      * destruct Hraw as [Hraw|(_ & -> & Hraw)]; [by rewrite decide_True by done|].
        case_decide; [done|done].
      * case_decide as E; [by left|]. destruct Hraw as [Hraw|(_ & -> & Hraw)]; [done|]. by right.
Qed.

(** A concrete instance: three seconds after "now" on the uptime clock. *)
Definition sample_clocks : clocks := {|
  clock_monotonic := {| tv_sec := 1000; tv_nsec := 5 |};
  clock_boottime := {| tv_sec := 2000; tv_nsec := 6 |};
  clock_realtime := {| tv_sec := 1700000000; tv_nsec := 7 |};
|}.

Lemma sample_clocks_wf : wf_clocks sample_clocks.
Proof. intros []; vm_compute; split; congruence. Qed.

Lemma dispatch_time_refines_witness :
  denote sample_clocks (dispatch_time sample_clocks DISPATCH_TIME_NOW 3000000000)
  = At DISPATCH_CLOCK_UPTIME 1003000000005.
Proof.
  rewrite (dispatch_time_refines sample_clocks DISPATCH_TIME_NOW 3000000000).
  - vm_compute. reflexivity.
  - exact sample_clocks_wf.
  - vm_compute. split; congruence.
  - vm_compute. split; congruence.
Defined.

(** ** Timeouts and epoch conversion *)

(** The remaining time is the distance to the denoted instant, 0 when past. *)
Lemma timeout_denote c w k v : wf_clocks c -> in_u 64 w -> denote c w = At k v ->
  _dispatch_timeout c w = Z.max 0 (v - _dispatch_time_now c k).
Proof.
  intros Hc Hw Hden. destruct (decoded_total c w Hw) as [a Ha].
  rewrite (denote_decoded c w a Hc Ha) in Hden. subst a.
  destruct (decoded_raw c w _ Hc Ha) as [[? _]|(k' & v' & [= <- <-] & Hne & Hv & Hwall & Hraw)]; [done|].
  pose proof (Hc k) as Hk. unfold _dispatch_timeout. rewrite decide_False by done.
  case_decide as H0.
  { subst w. destruct Hraw as [Hraw|(_ & -> & _)]; [|lia].
    rewrite decode_uptime in Hraw by (time_unfold; lia). injection Hraw as <- <-. time_unfold; lia. }
  unfold DISPATCH_TIME_MAX_VALUE, DISPATCH_WALLTIME_MASK in Hk.
  destruct Hraw as [->|(Hkw & -> & ->)].
  - destruct k; simpl in *; repeat case_decide; time_unfold; word_lia.
  - destruct k; [..|done]; simpl in *; repeat case_decide; time_unfold; word_lia.
Qed.

(** A deadline computed from "now" times out after exactly the requested
    delay: for a non-negative delay that does not run past the largest
    representable instant, [_dispatch_timeout] of [dispatch_time(NOW, delta)],
    with the clocks unchanged, is [delta]. *)
Theorem timeout_of_deadline c delta :
  wf_clocks c -> 0 <= delta -> _dispatch_uptime c + delta < DISPATCH_TIME_MAX_VALUE ->
  _dispatch_timeout c (dispatch_time c DISPATCH_TIME_NOW delta) = delta.
Proof.
  intros Hc Hd Hmax. pose proof (Hc DISPATCH_CLOCK_UPTIME) as Hu. simpl in Hu.
  rewrite (dispatch_time_other c DISPATCH_TIME_NOW DISPATCH_CLOCK_UPTIME DISPATCH_TIME_NOW (_dispatch_uptime c) delta);
    try done; try (time_unfold; unfold in_delta; word_lia); [..|by right].
  rewrite !decide_False by (time_unfold; lia).
  unfold _dispatch_clock_and_value_to_time. rewrite decide_False by lia.
  rewrite (timeout_denote c _ DISPATCH_CLOCK_UPTIME (_dispatch_uptime c + delta)).
  - simpl. lia.
  - done.
  - time_unfold; word_lia.
  - apply denote_decoded; [done|]. constructor. time_unfold; lia.
Qed.

Lemma timeout_of_deadline_witness :
  _dispatch_timeout sample_clocks (dispatch_time sample_clocks DISPATCH_TIME_NOW 250) = 250.
Proof.
  apply (timeout_of_deadline sample_clocks 250).
  - exact sample_clocks_wf.
  - lia.
  - vm_compute. reflexivity.
Defined.

(** [dispatch_walltime] inside the representable range. *)
Lemma walltime_denote c ts delta :
  wf_clocks c ->
  let nsec := i64 (_dispatch_timespec_to_nano ts) + delta in
  3 <= nsec < 2 ^ 62 ->
  denote c (dispatch_walltime c (Some ts) delta) = At DISPATCH_CLOCK_WALL nsec.
Proof.
  intros Hc nsec Hn. unfold dispatch_walltime. fold nsec.
  rewrite (swrap_small 64) by lia. rewrite decide_False by lia.
  replace (u64 (- nsec)) with (2 ^ 64 - nsec) by word_lia.
  apply denote_decoded; [done|]. by constructor.
Qed.

(** What [dispatch_walltime] yields over the whole range of its result: a
    wall instant up to 2^62 nanoseconds, but an instant of the {e monotonic}
    clock past it (no range check turns it into "forever"), and "forever" for a
    sum that overflows upwards. *)
Theorem walltime_ranges c ts delta :
  wf_clocks c -> in_delta delta -> 0 <= i64 (_dispatch_timespec_to_nano ts) ->
  let nsec := i64 (_dispatch_timespec_to_nano ts) + delta in
  (3 <= nsec < 2 ^ 62 ->
   denote c (dispatch_walltime c (Some ts) delta) = At DISPATCH_CLOCK_WALL nsec) /\
  (2 ^ 62 < nsec < 2 ^ 63 ->
   denote c (dispatch_walltime c (Some ts) delta) = At DISPATCH_CLOCK_MONOTONIC (2 ^ 63 - nsec)) /\
  (2 ^ 63 <= nsec -> denote c (dispatch_walltime c (Some ts) delta) = Forever) /\
  (nsec <= 1 -> delta < 0 ->
   denote c (dispatch_walltime c (Some ts) delta) = denote c DISPATCH_WALLTIME_NOW).
Proof.
  intros Hc Hd H0 nsec. unfold in_delta in Hd.
  assert (i64 (_dispatch_timespec_to_nano ts) < 2 ^ 63) as H1 by word_lia.
  split; [by apply walltime_denote|].
  split; [|split]; intros Hn; unfold dispatch_walltime; fold nsec.
  - rewrite (swrap_small 64) by lia. rewrite decide_False by lia.
    replace (u64 (- nsec)) with ((2 ^ 63 - nsec) + 2 ^ 63) by word_lia.
    apply denote_decoded; [done|]. constructor. lia.
  - rewrite !decide_True by (unfold nsec in *; word_lia). apply denote_forever.
  - intros Hneg. rewrite decide_True by (unfold nsec in *; word_lia).
    rewrite decide_False by lia. done.
Qed.

Lemma walltime_ranges_witness :
  denote sample_clocks
    (dispatch_walltime sample_clocks (Some {| tv_sec := 5000000000; tv_nsec := 0 |}) 1)
  = At DISPATCH_CLOCK_MONOTONIC (2 ^ 63 - 5000000000000000001).
Proof.
  apply (walltime_ranges sample_clocks {| tv_sec := 5000000000; tv_nsec := 0 |} 1).
  - exact sample_clocks_wf.
  - vm_compute. split; congruence.
  - vm_compute. congruence.
  - vm_compute. split; congruence.
Defined.

(** Conversion to nanoseconds since the epoch is the wall value for wall
    times and "wall now plus remaining time" for uptime instants; instants of
    the monotonic clock take the wall branch, and their (negative) encoding is
    negated as if it were a wall time. *)
Theorem since_epoch_by_clock c v :
  wf_clocks c -> 3 <= v < DISPATCH_TIME_MAX_VALUE ->
  _dispatch_time_nanoseconds_since_epoch c
    (_dispatch_clock_and_value_to_time DISPATCH_CLOCK_WALL v) = v /\
  _dispatch_time_nanoseconds_since_epoch c
    (_dispatch_clock_and_value_to_time DISPATCH_CLOCK_UPTIME v)
  = _dispatch_get_nanoseconds c + Z.max 0 (v - _dispatch_uptime c) /\
  _dispatch_time_nanoseconds_since_epoch c
    (_dispatch_clock_and_value_to_time DISPATCH_CLOCK_MONOTONIC v) = 2 ^ 63 - v.
Proof.
  intros Hc Hv. pose proof (Hc DISPATCH_CLOCK_WALL) as Hw. pose proof (Hc DISPATCH_CLOCK_UPTIME) as Hu.
  simpl in Hw, Hu. unfold _dispatch_clock_and_value_to_time.
  rewrite !decide_False by lia. unfold DISPATCH_TIME_MAX_VALUE, DISPATCH_WALLTIME_MASK in *.
  split; [|split].
  - unfold _dispatch_time_nanoseconds_since_epoch. rewrite decide_False by (time_unfold; word_lia).
    rewrite decide_True by word_lia. word_lia.
  - unfold _dispatch_time_nanoseconds_since_epoch. rewrite decide_False by (time_unfold; word_lia).
    rewrite decide_False by word_lia.
    rewrite (timeout_denote c v DISPATCH_CLOCK_UPTIME v); try done.
    + simpl. word_lia.
    + word_lia.
    + apply denote_decoded; [done|]. constructor. lia.
  - rewrite lor_top by lia. unfold _dispatch_time_nanoseconds_since_epoch.
    rewrite decide_False by (time_unfold; word_lia). rewrite decide_True by word_lia. word_lia.
Qed.

Lemma since_epoch_by_clock_witness :
  _dispatch_time_nanoseconds_since_epoch sample_clocks
    (_dispatch_clock_and_value_to_time DISPATCH_CLOCK_MONOTONIC 2500000000000)
  = 2 ^ 63 - 2500000000000.
Proof.
  apply (since_epoch_by_clock sample_clocks 2500000000000).
  - exact sample_clocks_wf.
  - vm_compute. split; congruence.
Defined.

(** The per-drain clock cache is stable: once a clock has been read (and
    read non-zero), later reads return the same value whatever the clocks show
    then, and reading one clock leaves the cached values of the others alone. *)
Theorem now_cache_stable c c' k (cache : dispatch_clock_now_cache_s) :
  _dispatch_time_now c k <> 0 ->
  let '(now, cache') := _dispatch_time_now_cached c k cache in
  _dispatch_time_now_cached c' k cache' = (now, cache') /\
  (forall k', k' <> k -> cache' k' = cache k').
Proof.
  intros Hn. unfold _dispatch_time_now_cached. destruct (decide (cache k <> 0)) as [H|H].
  - by rewrite decide_True by done.
  - rewrite !(decide_True (P := k = k)) by done. rewrite decide_True by done.
    split; [done|]. intros k' Hk. by rewrite decide_False by done.
Qed.

Lemma now_cache_stable_witness :
  fst (_dispatch_time_now_cached sample_clocks DISPATCH_CLOCK_WALL empty_now_cache)
  = 1700000000000000007 /\
  (let '(now, cache') := _dispatch_time_now_cached sample_clocks DISPATCH_CLOCK_WALL empty_now_cache in
   _dispatch_time_now_cached
     {| clock_monotonic := {| tv_sec := 1; tv_nsec := 0 |};
        clock_boottime := {| tv_sec := 1; tv_nsec := 0 |};
        clock_realtime := {| tv_sec := 1; tv_nsec := 0 |} |} DISPATCH_CLOCK_WALL cache'
   = (now, cache') /\ (forall k', k' <> DISPATCH_CLOCK_WALL -> cache' k' = empty_now_cache k')).
Proof.
  split; [vm_compute; reflexivity|].
  apply (now_cache_stable sample_clocks _ DISPATCH_CLOCK_WALL empty_now_cache).
  vm_compute. congruence.
Defined.
