(* ===== verification/HeapOrder.v ===== *)
(** * Order theory of array-shaped binary heaps

    Nodes are numbered 0, 1, 2, ... with [hparent k = (k - 1) / 2].  A key
    function [K] over the first [n] nodes is a heap when no node is smaller than
    its parent.  The sift loops of the timer heap exchange a node with its
    parent or its smaller child; the lemmas say what each exchange preserves. *)

From S2P Require Import Prelude.

Definition hparent (k : Z) : Z := (k - 1) / 2.

Definition swapf {A} (f : Z -> A) (i j k : Z) : A :=
  if decide (k = i) then f j else if decide (k = j) then f i else f k.

Definition updf {A} (f : Z -> A) (i : Z) (x : A) (k : Z) : A :=
  if decide (k = i) then x else f k.

Lemma hparent_lt k : 0 < k -> 0 <= hparent k < k.
Proof. intros. unfold hparent. Z.div_mod_to_equations. lia. Qed.

Lemma hparent_child i k : 0 <= i -> 0 < k -> hparent k = i <-> k = 2 * i + 1 \/ k = 2 * i + 2.
Proof. intros. unfold hparent. Z.div_mod_to_equations. lia. Qed.

Lemma swapf_l {A} (f : Z -> A) i j : swapf f i j i = f j.
Proof. unfold swapf. by rewrite decide_True. Qed.

Lemma swapf_r {A} (f : Z -> A) i j : swapf f i j j = f i.
Proof. unfold swapf. case_decide; [by subst|]. by rewrite decide_True. Qed.

Lemma swapf_ne {A} (f : Z -> A) i j k : k <> i -> k <> j -> swapf f i j k = f k.
Proof. intros. unfold swapf. by rewrite !decide_False. Qed.

Lemma updf_eq {A} (f : Z -> A) i x : updf f i x i = x.
Proof. unfold updf. by rewrite decide_True. Qed.

Lemma updf_ne {A} (f : Z -> A) i x k : k <> i -> updf f i x k = f k.
Proof. intros. unfold updf. by rewrite decide_False. Qed.

(** Moving the hole: writing the neighbour into the hole and placing the
    carried element at the neighbour is an exchange. *)
Lemma updf_updf_swap {A} (f : Z -> A) i j x k :
  i <> j -> updf (updf f i (f j)) j x k = swapf (updf f i x) i j k.
Proof. intros. unfold updf, swapf. repeat case_decide; subst; done. Qed.

Section order.
Context (n : Z) (K : Z -> Z).

Definition heap : Prop := forall k, 0 < k < n -> K (hparent k) <= K k.

(** Ordered but for the edges at node [i]; through [i] the order holds. *)
Definition heap_but (i : Z) : Prop :=
  (forall k, 0 < k < n -> k <> i -> hparent k <> i -> K (hparent k) <= K k) /\
  (forall c, 0 < c < n -> hparent c = i -> 0 < i -> K (hparent i) <= K c).

(** Ordered but for the edge from [i] to its parent. *)
Definition heap_but_up (i : Z) : Prop :=
  (forall k, 0 < k < n -> k <> i -> K (hparent k) <= K k) /\
  (forall c, 0 < c < n -> hparent c = i -> 0 < i -> K (hparent i) <= K c).

(** Ordered but for the edges from [i] to its children. *)
Definition heap_but_down (i : Z) : Prop :=
  (forall k, 0 < k < n -> hparent k <> i -> K (hparent k) <= K k) /\
  (forall c, 0 < c < n -> hparent c = i -> 0 < i -> K (hparent i) <= K c).

Lemma heap_min k : heap -> 0 <= k < n -> K 0 <= K k.
Proof.
  intros H Hk. assert (0 <= k) as H0 by lia. revert k H0 Hk.
  apply (Zlt_0_ind (fun k => 0 <= k < n -> K 0 <= K k)).
  intros x IH Hx Hn. destruct (decide (x = 0)) as [->|]; [lia|].
  pose proof (hparent_lt x ltac:(lia)). specialize (IH (hparent x) ltac:(lia) ltac:(lia)).
  specialize (H x ltac:(lia)). lia.
Qed.

Lemma heap_but_of_heap i : heap -> 0 <= i < n -> heap_but i.
Proof.
  intros H Hi. split; [intros; by apply H|]. intros c Hc <- Hp.
  pose proof (hparent_lt c ltac:(lia)).
  pose proof (H c ltac:(lia)). pose proof (H (hparent c) ltac:(lia)). lia.
Qed.

(** How the sift-up loop starts, and how it may stop at once. *)
Lemma heap_but_go_up i : heap_but i -> 0 < i -> K i < K (hparent i) -> heap_but_up i.
Proof.
  intros [H1 H2] Hi Hlt. split; [|done]. intros k Hk Hne.
  destruct (decide (hparent k = i)) as [<-|]; [|by apply H1].
  specialize (H2 k Hk eq_refl Hi). lia.
Qed.

Lemma heap_but_go_down i : heap_but i -> i = 0 \/ K (hparent i) <= K i -> heap_but_down i.
Proof.
  intros [H1 H2] Hi. split; [|done]. intros k Hk Hne.
  destruct (decide (k = i)) as [->|]; [|by apply H1]. lia.
Qed.

Lemma heap_up_done i : heap_but_up i -> i = 0 \/ K (hparent i) <= K i -> heap.
Proof. intros [H1 _] Hi k Hk. destruct (decide (k = i)) as [->|]; [lia|by apply H1]. Qed.

Lemma heap_down_done i : heap_but_down i -> 0 <= i ->
  (forall c, 0 < c < n -> hparent c = i -> K i <= K c) -> heap.
Proof.
  intros [H1 _] Hi Hc k Hk. destruct (decide (hparent k = i)) as [<-|]; [by apply Hc|by apply H1].
Qed.
End order.

(** One exchange of the sift-up loop. *)
Lemma heap_up_step n K i : heap_but_up n K i -> 0 < i < n -> K i < K (hparent i) ->
  heap_but_up n (swapf K i (hparent i)) (hparent i).
Proof.
  intros [H1 H2] Hi Hlt. pose proof (hparent_lt i ltac:(lia)) as Hp.
  assert (forall k, 0 < k < n -> k <> hparent i ->
            swapf K i (hparent i) (hparent k) <= swapf K i (hparent i) k) as Ho.
  { intros k Hk Hne. destruct (decide (k = i)) as [->|Hki].
    { rewrite swapf_r, swapf_l. lia. }
    rewrite (swapf_ne _ i (hparent i) k) by done. destruct (decide (hparent k = i)) as [E|].
    { rewrite E, swapf_l. apply H2; [done|done|lia]. }
    destruct (decide (hparent k = hparent i)) as [E|].
    { rewrite E, swapf_r. specialize (H1 k Hk Hki). rewrite E in H1. lia. }
    rewrite swapf_ne by done. by apply H1. }
  split; [done|]. intros c Hc Hpc Hpos. pose proof (hparent_lt (hparent i) Hpos).
  rewrite (swapf_ne _ _ _ (hparent (hparent i))) by lia.
  destruct (decide (c = i)) as [->|Hci].
  - rewrite swapf_l. apply H1; lia.
  - rewrite swapf_ne by (try done; intros ->; pose proof (hparent_lt (hparent i)); lia).
    pose proof (H1 (hparent i) ltac:(lia) ltac:(lia)).
    pose proof (H1 c Hc Hci) as H3. rewrite Hpc in H3. lia.
Qed.

(** One exchange of the sift-down loop, with the smaller child [m]. *)
Lemma heap_down_step n K i m : heap_but_down n K i -> 0 <= i -> 0 < m < n -> hparent m = i ->
  K m < K i -> (forall c, 0 < c < n -> hparent c = i -> K m <= K c) ->
  heap_but_down n (swapf K i m) m.
Proof.
  intros [H1 H2] Hi Hm Hpm Hlt Hmin. pose proof (hparent_lt m ltac:(lia)) as Hp.
  split.
  - intros k Hk Hne. destruct (decide (hparent k = i)) as [E|].
    { rewrite E, swapf_l. destruct (decide (k = m)) as [->|].
      { rewrite swapf_r. lia. }
      rewrite swapf_ne by (try done; intros ->; pose proof (hparent_lt i); lia). by apply Hmin. }
    rewrite (swapf_ne _ _ _ (hparent k)) by done.
    destruct (decide (k = i)) as [->|].
    { rewrite swapf_l. apply H2; lia. }
    rewrite swapf_ne by (try done; intros ->; done). by apply H1.
  - intros c Hc Hpc Hpos. rewrite Hpm, swapf_l.
    pose proof (hparent_lt c ltac:(lia)).
    rewrite swapf_ne by lia. specialize (H1 c Hc). rewrite Hpc in H1. apply H1. lia.
Qed.

(** The order predicates only look at the first [n] nodes. *)
Section ext.
Context (n : Z) (K K' : Z -> Z) (HK : forall j, 0 <= j < n -> K' j = K j).

Lemma heap_ext : heap n K -> heap n K'.
Proof.
  intros H k Hk. pose proof (hparent_lt k ltac:(lia)). rewrite !HK by lia. by apply H.
Qed.

Lemma heap_but_ext i : heap_but n K i -> heap_but n K' i.
Proof.
  intros [H1 H2]. split.
  - intros k Hk ??. pose proof (hparent_lt k ltac:(lia)). rewrite !HK by lia. by apply H1.
  - intros c Hc <- Hp. pose proof (hparent_lt c ltac:(lia)). pose proof (hparent_lt _ Hp).
    rewrite !HK by lia. by apply H2.
Qed.

Lemma heap_but_up_ext i : heap_but_up n K i -> heap_but_up n K' i.
Proof.
  intros [H1 H2]. split.
  - intros k Hk ?. pose proof (hparent_lt k ltac:(lia)). rewrite !HK by lia. by apply H1.
  - intros c Hc <- Hp. pose proof (hparent_lt c ltac:(lia)). pose proof (hparent_lt _ Hp).
    rewrite !HK by lia. by apply H2.
Qed.

Lemma heap_but_down_ext i : heap_but_down n K i -> heap_but_down n K' i.
Proof.
  intros [H1 H2]. split.
  - intros k Hk ?. pose proof (hparent_lt k ltac:(lia)). rewrite !HK by lia. by apply H1.
  - intros c Hc <- Hp. pose proof (hparent_lt c ltac:(lia)). pose proof (hparent_lt _ Hp).
    rewrite !HK by lia. by apply H2.
Qed.
End ext.

Lemma swapf_map {A B} (g : A -> B) (f : Z -> A) i j k :
  g (swapf f i j k) = swapf (fun x => g (f x)) i j k.
Proof. unfold swapf. by repeat case_decide. Qed.

(** The key at the hole does not matter to [heap_but]. *)
Lemma heap_but_hole n K K' i : (forall j, 0 <= j < n -> j <> i -> K' j = K j) ->
  heap_but n K i -> heap_but n K' i.
Proof.
  intros HK [H1 H2]. split.
  - intros k Hk ??. pose proof (hparent_lt k ltac:(lia)). rewrite !HK by (done || lia). by apply H1.
  - intros c Hc <- Hp. pose proof (hparent_lt c ltac:(lia)). pose proof (hparent_lt _ Hp).
    rewrite !HK by lia. by apply H2.
Qed.

(** A new last node has no children. *)
Lemma heap_but_snoc n K : 0 <= n -> heap n K -> heap_but (n + 1) K n.
Proof.
  intros Hn H. split.
  - intros k Hk ??. apply H. lia.
  - intros c Hc Hpc _. pose proof (hparent_lt c ltac:(lia)). lia.
Qed.

Lemma heap_prefix n m K : m <= n -> heap n K -> heap m K.
Proof. intros Hm H k Hk. apply H. lia. Qed.
