(* ===== verification/TimerHeap.v ===== *)
(** * The double timer heap

    Models the timer heap of [src/event/event.c]: two binary min-heaps (by
    target in the even slots, by deadline in the odd ones) interleaved in one
    array, whose first two slots are inline ([dth_min]) and whose other slots
    live in segments.

    The sift loops are written against the class [SlotStorage], which states
    what the array promises; [Segments.v] implements it with the segmented
    storage of the C code.  A timer is named by a number; its two heap keys are
    an argument ([heap_key]) and its [dt_heap_entry] fields are part of the
    state. *)

From S2P Require Import Prelude HeapOrder.

Definition timer : Type := nat.

Definition DTH_INVALID_ID : Z := 2 ^ 32 - 1.
Definition DTH_TARGET_ID : Z := 0.
Definition DTH_DEADLINE_ID : Z := 1.
Definition DTH_ID_COUNT : Z := 2.
Definition DTH_HEAP_ID_MASK : Z := DTH_ID_COUNT - 1.
Definition DTH_HEAP_ID (idx : Z) : Z := Z.land idx DTH_HEAP_ID_MASK.
Definition DTH_IDX_FOR_HEAP_ID (idx heap_id : Z) : Z :=
  Z.lor (Z.land idx (lnotw 32 DTH_HEAP_ID_MASK)) heap_id.

Definition _dispatch_timer_heap_parent (idx : Z) : Z :=
  let heap_id := DTH_HEAP_ID idx in
  let idx := u32 (idx - DTH_ID_COUNT) / 2 in
  DTH_IDX_FOR_HEAP_ID idx heap_id.

Definition _dispatch_timer_heap_left_child (idx : Z) : Z :=
  let heap_id := DTH_HEAP_ID idx in
  u32 (2 * idx + DTH_ID_COUNT - heap_id).

(** ** The storage interface *)

(** What the heap asks of its slots: [ss_get] computes the address of a slot,
    [ss_load] and [ss_store] read and write through it ([None] is a memory
    error on a write, and an unusable pointer on a read). *)
Class SlotStorage (S : Type) := {
  ss_slot : Type;
  ss_get : S -> Z -> option ss_slot;
  ss_load : S -> ss_slot -> option timer;
  ss_store : S -> ss_slot -> option timer -> option S;
  ss_cap : S -> Z;
  ss_ok : S -> Prop;
}.

(** The value of the slot of index [idx]. *)
Definition slotval {S} `{SlotStorage S} (s : S) (idx : Z) : option timer :=
  sl ← ss_get s idx; ss_load s sl.

Class SlotStorageLaws (S : Type) `{SlotStorage S} := {
  ss_store_law (s : S) (idx : Z) (x : option timer) :
    ss_ok s -> 0 <= idx < ss_cap s ->
    exists sl s', ss_get s idx = Some sl /\ ss_store s sl x = Some s' /\
      ss_ok s' /\ ss_cap s' = ss_cap s /\
      (forall j, 0 <= j < ss_cap s -> ss_get s' j = ss_get s j) /\
      (forall j, 0 <= j < ss_cap s -> slotval s' j = updf (slotval s) idx x j);
}.

(** ** Heap state and sift loops *)

Record dispatch_timer_heap_s (S : Type) := mkHeap {
  dth_count : Z;
  dth_max_qos : Z;
  dth_needs_program : bool;
  dth_slots : S;                       (* dth_min, dth_heap, dth_segments *)
  dt_heap_entry : timer -> Z -> Z;     (* the field of every timer, by heap id *)
}.
Arguments mkHeap {S}. Arguments dth_count {S}. Arguments dth_max_qos {S}.
Arguments dth_needs_program {S}. Arguments dth_slots {S}. Arguments dt_heap_entry {S}.

Definition upd_entry (e : timer -> Z -> Z) (dt : timer) (h v : Z) : timer -> Z -> Z :=
  fun t k => if decide (t = dt /\ k = h) then v else e t k.

Section loops.
Context {S : Type} `{SlotStorage S}.
Context (heap_key : timer -> Z -> Z).
Implicit Types d : dispatch_timer_heap_s S.

Definition _dispatch_timer_heap_set d (slot : ss_slot) (dt : timer) (idx : Z)
    : option (dispatch_timer_heap_s S) :=
  s ← ss_store (dth_slots d) slot (Some dt);
  Some {| dth_count := dth_count d;
          dth_max_qos := dth_max_qos d;
          dth_needs_program := bool_decide (idx < DTH_ID_COUNT) || dth_needs_program d;
          dth_slots := s;
          dt_heap_entry := upd_entry (dt_heap_entry d) dt (DTH_HEAP_ID idx) idx |}.

(** The "try to sift up" loop; the result says whether it moved. *)
Fixpoint sift_up (fuel : nat) d (heap_id : Z) (dt : timer) (slot : ss_slot) (idx : Z)
    (sifted_up : bool) : option (dispatch_timer_heap_s S * ss_slot * Z * bool) :=
  match fuel with
  | O => None
  | Datatypes.S fuel =>
      if decide (idx >= DTH_ID_COUNT) then
        let pidx := _dispatch_timer_heap_parent idx in
        pslot ← ss_get (dth_slots d) pidx;
        pdt ← ss_load (dth_slots d) pslot;
        if decide (heap_key pdt heap_id <= heap_key dt heap_id)
        then Some (d, slot, idx, sifted_up)
        else
          d ← _dispatch_timer_heap_set d slot pdt idx;
          sift_up fuel d heap_id dt pslot pidx true
      else Some (d, slot, idx, sifted_up)
  end.

(** The "try to sift down" loop. *)
Fixpoint sift_down (fuel : nat) d (heap_id : Z) (dt : timer) (slot : ss_slot) (idx : Z)
    : option (dispatch_timer_heap_s S * ss_slot * Z) :=
  match fuel with
  | O => None
  | Datatypes.S fuel =>
      let cidx := _dispatch_timer_heap_left_child idx in
      if decide (cidx < dth_count d) then
        let ridx := u32 (cidx + DTH_ID_COUNT) in
        cslot ← ss_get (dth_slots d) cidx;
        cdt ← ss_load (dth_slots d) cslot;
        '(cidx, cdt, cslot) ←
          (if decide (ridx < dth_count d) then
             rslot ← ss_get (dth_slots d) ridx;
             rdt ← ss_load (dth_slots d) rslot;
             Some (if decide (heap_key cdt heap_id > heap_key rdt heap_id)
                   then (ridx, rdt, rslot) else (cidx, cdt, cslot))
           else Some (cidx, cdt, cslot));
        if decide (heap_key dt heap_id <= heap_key cdt heap_id)
        then Some (d, slot, idx)
        else
          d ← _dispatch_timer_heap_set d slot cdt idx;
          sift_down fuel d heap_id dt cslot cidx
      else Some (d, slot, idx)
  end.

(** One more than the number of slots bounds the length of either walk. *)
Definition sift_fuel d : nat := Datatypes.S (Z.to_nat (dth_count d)).

Definition _dispatch_timer_heap_resift d (dt : timer) (idx : Z)
    : option (dispatch_timer_heap_s S) :=
  let heap_id := DTH_HEAP_ID idx in
  slot ← ss_get (dth_slots d) idx;
  '(d, slot, idx, sifted_up) ← sift_up (sift_fuel d) d heap_id dt slot idx false;
  if (sifted_up : bool) then _dispatch_timer_heap_set d slot dt idx
  else
    '(d, slot, idx) ← sift_down (sift_fuel d) d heap_id dt slot idx;
    _dispatch_timer_heap_set d slot dt idx.
End loops.

Arguments sift_fuel : simpl never.

(** ** Index arithmetic: slot [2 k + h] is node [k] of heap [h] *)

Lemma heap_id_node k h : 0 <= k -> 0 <= h < 2 -> DTH_HEAP_ID (2 * k + h) = h.
Proof.
  intros. unfold DTH_HEAP_ID. change DTH_HEAP_ID_MASK with (Z.ones 1).
  rewrite Z.land_ones by lia. Z.div_mod_to_equations. lia.
Qed.

Lemma idx_for_heap_id i h : 0 <= i < 2 ^ 32 -> 0 <= h < 2 ->
  DTH_IDX_FOR_HEAP_ID i h = 2 * (i / 2) + h.
Proof.
  intros Hi Hh. unfold DTH_IDX_FOR_HEAP_ID.
  assert (Z.land i (lnotw 32 DTH_HEAP_ID_MASK) = 2 * (i / 2)) as ->.
  { change DTH_HEAP_ID_MASK with 1. apply Z.bits_inj'. intros b Hb. rewrite Z.land_spec, testbit_lnotw by lia.
    replace (2 * (i / 2)) with (Z.shiftl (Z.shiftr i 1) 1)
      by (rewrite Z.shiftl_mul_pow2, Z.shiftr_div_pow2 by lia; change (2 ^ 1) with 2; lia).
    rewrite Z.shiftl_spec by lia. destruct (decide (b = 0)) as [->|].
    - simpl. by rewrite andb_false_r.
    - rewrite Z.shiftr_spec by lia. replace (b - 1 + 1) with b by lia.
      replace (Z.testbit 1 b) with false by (symmetry; apply (testbit_above 1); lia).
      destruct (decide (b < 32)).
      + rewrite bool_decide_true by done. simpl. by rewrite andb_true_r.
      + by rewrite (testbit_above 32) by lia. }
  apply lor_add_disjoint. destruct (decide (h = 0)) as [->|]; [apply Z.land_0_r|].
  replace h with (Z.ones 1) by (change (Z.ones 1) with 1; lia). rewrite Z.land_ones by lia.
  change (2 ^ 1) with 2. Z.div_mod_to_equations. lia.
Qed.

Lemma parent_node k h : 0 < k < 2 ^ 30 -> 0 <= h < 2 ->
  _dispatch_timer_heap_parent (2 * k + h) = 2 * hparent k + h.
Proof.
  intros Hk Hh. unfold _dispatch_timer_heap_parent, hparent. rewrite heap_id_node by lia.
  unfold DTH_ID_COUNT. rewrite (wrap_small 32) by lia.
  rewrite idx_for_heap_id by (Z.div_mod_to_equations; lia). Z.div_mod_to_equations; lia.
Qed.

Lemma left_child_node k h : 0 <= k < 2 ^ 29 -> 0 <= h < 2 ->
  _dispatch_timer_heap_left_child (2 * k + h) = 2 * (2 * k + 1) + h.
Proof.
  intros Hk Hh. unfold _dispatch_timer_heap_left_child. rewrite heap_id_node by lia.
  unfold DTH_ID_COUNT. rewrite (wrap_small 32); lia.
Qed.

(** ** Correctness of the sift loops, against the storage laws *)

Section sift.
Context {S : Type} `{SlotStorage S} `{!SlotStorageLaws S}.
Context (heap_key : timer -> Z -> Z).
Context (h : Z) (Hh : 0 <= h < 2) (dt : timer).
Implicit Types d : dispatch_timer_heap_s S.

(** Node [k] of heap [g]. *)
Definition node d (g k : Z) : option timer := slotval (dth_slots d) (2 * k + g).

Definition nodes d : Z := dth_count d / 2.

(** The view in which the carried timer sits in the hole. *)
Definition placed d (k : Z) : Z -> option timer := updf (node d h) k (Some dt).

Definition okey (g : Z) (o : option timer) : Z :=
  match o with Some t => heap_key t g | None => 0 end.

Definition others d (k : Z) (t : timer) : Prop :=
  exists j, 0 <= j < nodes d /\ j <> k /\ node d h j = Some t.

(** What every state of the loops satisfies when the hole is at [k]. *)
Record hole d (k : Z) : Prop := {
  hole_ok : ss_ok (dth_slots d);
  hole_count : 0 <= dth_count d <= 2 ^ 30;
  hole_even : dth_count d = 2 * nodes d;
  hole_cap : dth_count d <= ss_cap (dth_slots d);
  hole_in : 0 <= k < nodes d;
  hole_full : forall j, 0 <= j < nodes d -> j <> k -> is_Some (node d h j);
}.

(** What the loops leave alone. *)
Record frame d (k : Z) d' (k' : Z) : Prop := {
  fr_cap : ss_cap (dth_slots d') = ss_cap (dth_slots d);
  fr_count : dth_count d' = dth_count d;
  fr_qos : dth_max_qos d' = dth_max_qos d;
  fr_other : forall j, 0 <= 2 * j + (1 - h) < ss_cap (dth_slots d) ->
    node d' (1 - h) j = node d (1 - h) j;
  fr_entry_other : forall t, dt_heap_entry d' t (1 - h) = dt_heap_entry d t (1 - h);
  fr_others : forall t, others d' k' t <-> others d k t;
  fr_entry : (forall j t, 0 <= j < nodes d -> j <> k -> node d h j = Some t ->
      dt_heap_entry d t h = 2 * j + h) ->
    forall j t, 0 <= j < nodes d -> j <> k' -> node d' h j = Some t ->
      dt_heap_entry d' t h = 2 * j + h;
  fr_entry_out : forall t, ~ others d k t -> dt_heap_entry d' t h = dt_heap_entry d t h;
  fr_prog : dth_needs_program d = true -> dth_needs_program d' = true;
  fr_prog_min : node d' h 0 <> node d h 0 -> dth_needs_program d' = true;
}.

Lemma frame_refl d k : frame d k d k.
Proof. by constructor. Qed.

Lemma frame_trans d k d1 k1 d2 k2 : frame d k d1 k1 -> frame d1 k1 d2 k2 -> frame d k d2 k2.
Proof.
  intros F1 F2. assert (nodes d1 = nodes d) as En by (unfold nodes; by rewrite (fr_count _ _ _ _ F1)).
  constructor.
  - etrans; [apply F2|apply F1].
  - etrans; [apply F2|apply F1].
  - etrans; [apply F2|apply F1].
  - intros j Hj. rewrite (fr_other _ _ _ _ F2), (fr_other _ _ _ _ F1); try done.
    by rewrite (fr_cap _ _ _ _ F1).
  - intros t. by rewrite (fr_entry_other _ _ _ _ F2), (fr_entry_other _ _ _ _ F1).
  - intros t. by rewrite (fr_others _ _ _ _ F2), (fr_others _ _ _ _ F1).
  - intros He. rewrite <- En. apply (fr_entry _ _ _ _ F2). rewrite En. by apply (fr_entry _ _ _ _ F1).
  - intros t Ht. rewrite (fr_entry_out _ _ _ _ F2), (fr_entry_out _ _ _ _ F1); try done.
    by rewrite (fr_others _ _ _ _ F1).
  - intros Hp. by apply (fr_prog _ _ _ _ F2), (fr_prog _ _ _ _ F1).
  - intros Hp. destruct (decide (node d1 h 0 = node d h 0)) as [E|E].
    + apply (fr_prog_min _ _ _ _ F2). by rewrite E.
    + apply (fr_prog _ _ _ _ F2). by apply (fr_prog_min _ _ _ _ F1).
Qed.

Lemma upd_entry_eq e t g v : upd_entry e t g v t g = v.
Proof. unfold upd_entry. by rewrite decide_True. Qed.

Lemma upd_entry_ne e t g v t' g' : t' <> t \/ g' <> g -> upd_entry e t g v t' g' = e t' g'.
Proof. intros Hne. unfold upd_entry. case_decide as E; [destruct E, Hne; done|done]. Qed.

(** Writing a timer through the slot of node [k]: the state after it. *)
Lemma heap_set_node d k x : hole d k ->
  exists sl d', ss_get (dth_slots d) (2 * k + h) = Some sl /\
    _dispatch_timer_heap_set d sl x (2 * k + h) = Some d' /\
    ss_ok (dth_slots d') /\ ss_cap (dth_slots d') = ss_cap (dth_slots d) /\
    (forall j, 0 <= j < ss_cap (dth_slots d) ->
       ss_get (dth_slots d') j = ss_get (dth_slots d) j) /\
    dth_count d' = dth_count d /\ dth_max_qos d' = dth_max_qos d /\
    (forall j, 0 <= j < nodes d -> node d' h j = updf (node d h) k (Some x) j) /\
    (forall j, 0 <= 2 * j + (1 - h) < ss_cap (dth_slots d) -> node d' (1 - h) j = node d (1 - h) j) /\
    dt_heap_entry d' = upd_entry (dt_heap_entry d) x h (2 * k + h) /\
    dth_needs_program d' = (bool_decide (k = 0) || dth_needs_program d)%bool.
Proof.
  intros Hd. pose proof (hole_in _ _ Hd) as Hin. pose proof (hole_even _ _ Hd) as Hev.
  pose proof (hole_cap _ _ Hd) as Hcap.
  destruct (ss_store_law (dth_slots d) (2 * k + h) (Some x)) as
    (sl & s' & Hget & Hst & Hok & Hc & Hg & Hv); [apply Hd|lia|].
  exists sl. eexists. split; [done|]. unfold _dispatch_timer_heap_set. rewrite Hst. simpl.
  split; [reflexivity|]. simpl. repeat split; try done.
  - intros j Hj. unfold node. simpl. rewrite Hv by lia. unfold updf.
    repeat case_decide; try done; lia.
  - intros j Hj. unfold node. simpl. rewrite Hv by lia. unfold updf.
    rewrite decide_False by lia. done.
  - by rewrite heap_id_node by lia.
  - f_equal. apply bool_decide_ext. unfold DTH_ID_COUNT. lia.
Qed.

(** Moving the hole from [k] to [k']. *)
Lemma hole_step d k k' x : hole d k -> 0 <= k' < nodes d -> k' <> k -> node d h k' = Some x ->
  exists sl sl' d', ss_get (dth_slots d) (2 * k + h) = Some sl /\
    ss_get (dth_slots d') (2 * k' + h) = Some sl' /\
    ss_get (dth_slots d) (2 * k' + h) = Some sl' /\
    ss_load (dth_slots d) sl' = Some x /\
    _dispatch_timer_heap_set d sl x (2 * k + h) = Some d' /\
    hole d' k' /\ frame d k d' k' /\
    (forall j, 0 <= j < nodes d -> placed d' k' j = swapf (placed d k) k k' j).
Proof.
  intros Hd Hk' Hne Hx. pose proof (hole_in _ _ Hd) as Hin.
  pose proof (hole_cap _ _ Hd) as Hcap0. pose proof (hole_even _ _ Hd) as Hev0.
  destruct (heap_set_node d k x Hd) as
    (sl & d' & Hget & Hset & Hok & Hcap & Hg & Hct & Hq & Hn & Ho & He & Hp).
  assert (nodes d' = nodes d) as En by (unfold nodes; by rewrite Hct).
  assert (exists sl', ss_get (dth_slots d) (2 * k' + h) = Some sl' /\
            ss_load (dth_slots d) sl' = Some x) as (sl' & Hg' & Hl').
  { unfold node, slotval in Hx. destruct (ss_get _ _) as [sl'|]; [|done]. by exists sl'. }
  exists sl, sl', d'. do 2 (split; [by rewrite ?Hg by lia|]). do 3 (split; [done|]).
  assert (forall t, others d' k' t <-> others d k t) as Hoth.
  { intros t. unfold others. rewrite En. split.
    - intros (j & Hj & Hjk & Hnj). rewrite Hn in Hnj by done.
      destruct (decide (j = k)) as [->|].
      + rewrite updf_eq in Hnj. exists k'. split; [done|]. split; [done|congruence].
      + rewrite updf_ne in Hnj by done. by exists j.
    - intros (j & Hj & Hjk & Hnj). destruct (decide (j = k')) as [->|].
      + exists k. split; [done|]. split; [done|]. rewrite Hn, updf_eq by done. congruence.
      + exists j. split; [done|]. split; [done|]. by rewrite Hn, updf_ne by done. }
  split; [|split].
  - constructor; rewrite ?Hct, ?Hcap, ?En; try apply Hd; try done.
    intros j Hj Hjk. rewrite Hn by done. destruct (decide (j = k)) as [->|].
    + by rewrite updf_eq.
    + rewrite updf_ne by done. by apply Hd.
  - constructor; try done.
    + intros t. rewrite He, upd_entry_ne; [done|right; lia].
    + intros Hent j t Hj Hjk Hnj. rewrite Hn in Hnj by done. rewrite He.
      destruct (decide (j = k)) as [->|].
      * rewrite updf_eq in Hnj. injection Hnj as ->. by rewrite upd_entry_eq.
      * rewrite updf_ne in Hnj by done. rewrite upd_entry_ne; [by apply Hent|].
        left. intros ->. pose proof (Hent j x Hj n Hnj). pose proof (Hent k' x Hk' Hne Hx). lia.
    + intros t Ht. rewrite He, upd_entry_ne; [done|]. left. intros ->. apply Ht. by exists k'.
    + intros Hnp. rewrite Hp, Hnp. by rewrite orb_true_r.
    + intros Hmin. rewrite Hp. destruct (decide (k = 0)) as [->|]; [done|].
      rewrite Hn, updf_ne in Hmin by (done || lia). done.
  - intros j Hj. unfold placed. rewrite <- updf_updf_swap by done.
    destruct (decide (j = k')) as [->|]; [by rewrite !updf_eq|].
    rewrite !(updf_ne _ k') by done. by rewrite Hn, Hx by done.
Qed.

(** Keys of the placed view, node by node. *)
Definition pkey d (k j : Z) : Z := okey h (placed d k j).

Lemma pkey_hole d k : pkey d k k = heap_key dt h.
Proof. unfold pkey, placed. by rewrite updf_eq. Qed.

Lemma pkey_other d k j t : j <> k -> node d h j = Some t -> pkey d k j = heap_key t h.
Proof. intros Hj Ht. unfold pkey, placed. rewrite updf_ne by done. by rewrite Ht. Qed.

Lemma pkey_swap d k d' k' : nodes d' = nodes d ->
  (forall j, 0 <= j < nodes d -> placed d' k' j = swapf (placed d k) k k' j) ->
  forall j, 0 <= j < nodes d -> pkey d' k' j = swapf (pkey d k) k k' j.
Proof. intros _ Hsw j Hj. unfold pkey. rewrite Hsw by done. apply (swapf_map (okey h)). Qed.

Lemma frame_nodes d k d' k' : frame d k d' k' -> nodes d' = nodes d.
Proof. intros F. unfold nodes. by rewrite (fr_count _ _ _ _ F). Qed.

Lemma hole_nodes_bound d k : hole d k -> nodes d <= 2 ^ 29.
Proof. intros Hd. pose proof (hole_even _ _ Hd). pose proof (hole_count _ _ Hd). lia. Qed.

Lemma sift_up_correct fuel : forall d k sl b,
  hole d k -> ss_get (dth_slots d) (2 * k + h) = Some sl -> k + 1 < 2 ^ Z.of_nat fuel ->
  exists d' sl' k' b', sift_up heap_key fuel d h dt sl (2 * k + h) b = Some (d', sl', 2 * k' + h, b') /\
    ss_get (dth_slots d') (2 * k' + h) = Some sl' /\ hole d' k' /\ frame d k d' k' /\
    (b' = false -> b = false /\ d' = d /\ k' = k /\
       (k = 0 \/ pkey d k (hparent k) <= pkey d k k)) /\
    (heap_but_up (nodes d) (pkey d k) k -> heap (nodes d) (pkey d' k')) /\
    (b = false -> b' = true -> heap_but (nodes d) (pkey d k) k -> heap (nodes d) (pkey d' k')).
Proof.
  induction fuel as [|fuel IH]; intros d k sl b Hd Hsl Hf; [pose proof (hole_in _ _ Hd); simpl in Hf; lia|].
  rewrite Nat2Z.inj_succ, Z.pow_succ_r in Hf by lia.
  pose proof (hole_in _ _ Hd) as Hin. pose proof (hole_nodes_bound _ _ Hd) as Hbd. simpl.
  assert ((k = 0 \/ pkey d k (hparent k) <= pkey d k k) ->
    exists d' sl' k' b', Some (d, sl, 2 * k + h, b) = Some (d', sl', 2 * k' + h, b') /\
    ss_get (dth_slots d') (2 * k' + h) = Some sl' /\ hole d' k' /\ frame d k d' k' /\
    (b' = false -> b = false /\ d' = d /\ k' = k /\
       (k = 0 \/ pkey d k (hparent k) <= pkey d k k)) /\
    (heap_but_up (nodes d) (pkey d k) k -> heap (nodes d) (pkey d' k')) /\
    (b = false -> b' = true -> heap_but (nodes d) (pkey d k) k -> heap (nodes d) (pkey d' k')))
    as Hstop.
  { intros Hk. exists d, sl, k, b. do 3 (split; [done|]). split; [apply frame_refl|].
    split; [done|]. split; [|congruence]. intros Hup. by apply (heap_up_done _ _ k). }
  case_decide as Hidx; unfold DTH_ID_COUNT in Hidx; [|apply Hstop; left; lia].
  pose proof (hparent_lt k ltac:(lia)) as Hpar.
  rewrite parent_node by lia.
  destruct (hole_full _ _ Hd (hparent k) ltac:(lia) ltac:(lia)) as [pdt Hpdt].
  destruct (hole_step d k (hparent k) pdt) as
    (sl0 & sl' & d' & Hg & Hg' & Hgd & Hl & Hset & Hd' & F & Hsw); try done; try lia.
  rewrite Hgd. simpl. rewrite Hl. simpl. assert (sl0 = sl) as -> by congruence.
  pose proof (pkey_hole d k) as Hk1.
  pose proof (pkey_other d k (hparent k) pdt ltac:(lia) Hpdt) as Hk2.
  case_decide as Hcmp; [apply Hstop; right; lia|].
  rewrite Hset. simpl. pose proof (frame_nodes _ _ _ _ F) as En.
  destruct (IH d' (hparent k) sl' true) as
    (d2 & sl2 & k2 & b2 & -> & Hg2 & Hd2 & F2 & Hb2 & Hup2 & _); try done.
  { unfold hparent. Z.div_mod_to_equations. lia. }
  exists d2, sl2, k2, b2. do 3 (split; [done|]).
  split; [by eapply frame_trans|].
  assert (heap_but_up (nodes d) (pkey d k) k -> heap (nodes d) (pkey d2 k2)) as HA.
  { intros Hup. rewrite <- En. apply Hup2. rewrite En.
    apply (heap_but_up_ext _ (swapf (pkey d k) k (hparent k))).
    - intros j Hj. by apply (pkey_swap d k d').
    - apply heap_up_step; [done|lia|lia]. }
  split; [intros ->; by destruct (Hb2 eq_refl)|]. split; [done|].
  intros _ _ Hbut. apply HA. apply heap_but_go_up; [done|lia|lia].
Qed.

(** The child selection of the sift-down loop finds a smallest child. *)
Lemma smaller_child d k : hole d k -> 0 <= k < nodes d -> nodes d <= 2 ^ 29 ->
  dth_count d = 2 * nodes d -> 2 * k + 1 < nodes d ->
  exists m t slm, 0 < m < nodes d /\ hparent m = k /\ node d h m = Some t /\
    ss_get (dth_slots d) (2 * m + h) = Some slm /\
    (forall c, 0 < c < nodes d -> hparent c = k -> heap_key t h <= pkey d k c) /\
    (cslot ← ss_get (dth_slots d) (2 * (2 * k + 1) + h); cdt ← ss_load (dth_slots d) cslot;
     if decide (u32 (2 * (2 * k + 1) + h + 2) < dth_count d) then
       rslot ← ss_get (dth_slots d) (u32 (2 * (2 * k + 1) + h + 2));
       rdt ← ss_load (dth_slots d) rslot;
       Some (if decide (heap_key cdt h > heap_key rdt h)
             then (u32 (2 * (2 * k + 1) + h + 2), rdt, rslot)
             else (2 * (2 * k + 1) + h, cdt, cslot))
     else Some (2 * (2 * k + 1) + h, cdt, cslot)) = Some (2 * m + h, t, slm).
Proof.
  intros Hd Hk Hb Hev Hc. rewrite (wrap_small 32) by lia.
  assert (forall j, 0 <= j < nodes d -> j <> k -> exists sl t, node d h j = Some t /\
    ss_get (dth_slots d) (2 * j + h) = Some sl /\ ss_load (dth_slots d) sl = Some t) as Hnode.
  { intros j Hj Hjk. destruct (hole_full _ _ Hd j Hj Hjk) as [t Ht].
    pose proof Ht as Ht'. unfold node, slotval in Ht'.
    destruct (ss_get _ _) as [sl|]; [|done]. by exists sl, t. }
  destruct (Hnode (2 * k + 1)) as (lsl & lt & Hlt & Hlg & Hll); [lia..|].
  rewrite Hlg. simpl. rewrite Hll. simpl.
  pose proof (pkey_other d k (2 * k + 1) lt ltac:(lia) Hlt) as Hlk.
  replace (2 * (2 * k + 1) + h + 2) with (2 * (2 * k + 2) + h) by lia.
  case_decide as Hr.
  - destruct (Hnode (2 * k + 2)) as (rsl & rt & Hrt & Hrg & Hrl); [lia..|].
    rewrite Hrg. simpl. rewrite Hrl. simpl.
    pose proof (pkey_other d k (2 * k + 2) rt ltac:(lia) Hrt) as Hrk.
    case_decide as Hcmp.
    + exists (2 * k + 2), rt, rsl. split; [lia|]. split; [apply hparent_child; lia|].
      repeat (split; [done|]). split; [|done].
      intros c Hcn Hcp. apply hparent_child in Hcp as [->| ->]; lia.
    + exists (2 * k + 1), lt, lsl. split; [lia|]. split; [apply hparent_child; lia|].
      repeat (split; [done|]). split; [|done].
      intros c Hcn Hcp. apply hparent_child in Hcp as [->| ->]; lia.
  - exists (2 * k + 1), lt, lsl. split; [lia|]. split; [apply hparent_child; lia|].
    repeat (split; [done|]). split; [|done].
    intros c Hcn Hcp. apply hparent_child in Hcp as [->| ->]; lia.
Qed.

Lemma sift_down_correct fuel : forall d k sl,
  hole d k -> ss_get (dth_slots d) (2 * k + h) = Some sl -> nodes d < (k + 1) * 2 ^ Z.of_nat fuel ->
  exists d' sl' k', sift_down heap_key fuel d h dt sl (2 * k + h) = Some (d', sl', 2 * k' + h) /\
    ss_get (dth_slots d') (2 * k' + h) = Some sl' /\ hole d' k' /\ frame d k d' k' /\
    (heap_but_down (nodes d) (pkey d k) k -> heap (nodes d) (pkey d' k')).
Proof.
  induction fuel as [|fuel IH]; intros d k sl Hd Hsl Hf; [pose proof (hole_in _ _ Hd); simpl in Hf; lia|].
  rewrite Nat2Z.inj_succ, Z.pow_succ_r in Hf by lia.
  pose proof (hole_in _ _ Hd) as Hin. pose proof (hole_nodes_bound _ _ Hd) as Hbd.
  pose proof (hole_even _ _ Hd) as Hev. simpl.
  rewrite left_child_node by lia. unfold DTH_ID_COUNT.
  assert ((forall c, 0 < c < nodes d -> hparent c = k -> pkey d k k <= pkey d k c) ->
    exists d' sl' k', Some (d, sl, 2 * k + h) = Some (d', sl', 2 * k' + h) /\
    ss_get (dth_slots d') (2 * k' + h) = Some sl' /\ hole d' k' /\ frame d k d' k' /\
    (heap_but_down (nodes d) (pkey d k) k -> heap (nodes d) (pkey d' k'))) as Hstop.
  { intros Hc. exists d, sl, k. do 3 (split; [done|]). split; [apply frame_refl|].
    intros Hdn. apply (heap_down_done _ _ k); [done|lia|done]. }
  case_decide as Hc; [|apply Hstop; intros c Hcn Hcp; apply hparent_child in Hcp; lia].
  destruct (smaller_child d k) as (m & t & slm & Hm & Hpm & Ht & Hgm & Hmin & Hcode);
    try done; try lia.
  destruct (hole_step d k m t) as
    (sl0 & sl' & d' & Hg & Hg' & Hgd & Hl & Hset & Hd' & F & Hsw); try done; try lia.
  { pose proof (hparent_lt m); lia. }
  destruct (ss_get (dth_slots d) (2 * (2 * k + 1) + h)) as [cslot|]; [|done]. simpl in *.
  destruct (ss_load (dth_slots d) cslot) as [cdt|]; [|done]. simpl in *.
  rewrite Hcode. simpl. assert (sl0 = sl) as -> by congruence. assert (sl' = slm) as -> by congruence.
  pose proof (pkey_hole d k) as Hk1.
  destruct (decide (heap_key dt h <= heap_key t h)) as [Hcmp|Hcmp];
    [apply Hstop; intros c Hcn Hcp; rewrite Hk1; specialize (Hmin c Hcn Hcp); lia|].
  rewrite Hset. simpl. pose proof (frame_nodes _ _ _ _ F) as En. pose proof (hparent_lt m ltac:(lia)).
  destruct (IH d' m slm) as (d2 & sl2 & k2 & -> & Hg2 & Hd2 & F2 & Hdn2); try done.
  { rewrite En. apply hparent_child in Hpm; [|lia..]. nia. }
  exists d2, sl2, k2. do 3 (split; [done|]). split; [by eapply frame_trans|].
  intros Hdn. rewrite <- En. apply Hdn2. rewrite En.
  pose proof (pkey_other d k m t ltac:(lia) Ht) as Hkm.
  apply (heap_but_down_ext _ (swapf (pkey d k) k m)).
  - intros j Hj. by apply (pkey_swap d k d').
  - apply heap_down_step; try done; try lia. intros c Hcn Hcp. rewrite Hkm. by apply Hmin.
Qed.

(** What [_dispatch_timer_heap_resift] establishes when it puts [dt] into the
    hole at node [k] of an otherwise ordered heap. *)
Record resifted d (k : Z) d' : Prop := {
  rs_ok : ss_ok (dth_slots d');
  rs_cap : ss_cap (dth_slots d') = ss_cap (dth_slots d);
  rs_count : dth_count d' = dth_count d;
  rs_qos : dth_max_qos d' = dth_max_qos d;
  rs_other : forall j, 0 <= 2 * j + (1 - h) < ss_cap (dth_slots d) ->
    node d' (1 - h) j = node d (1 - h) j;
  rs_entry_other : forall t, dt_heap_entry d' t (1 - h) = dt_heap_entry d t (1 - h);
  rs_full : forall j, 0 <= j < nodes d -> is_Some (node d' h j);
  rs_entry : forall j t, 0 <= j < nodes d -> node d' h j = Some t ->
    dt_heap_entry d' t h = 2 * j + h;
  rs_mem : forall t, (exists j, 0 <= j < nodes d /\ node d' h j = Some t) <->
    t = dt \/ others d k t;
  rs_heap : heap (nodes d) (fun j => okey h (node d' h j));
  rs_entry_out : forall t, t <> dt -> ~ others d k t -> dt_heap_entry d' t h = dt_heap_entry d t h;
  rs_prog : dth_needs_program d = true -> dth_needs_program d' = true;
  rs_prog_min : node d' h 0 <> node d h 0 \/ node d' h 0 = Some dt ->
    dth_needs_program d' = true;
}.

(** The last write of the carried timer ends the sift. *)
Lemma resift_finish d k d1 k1 : hole d1 k1 -> frame d k d1 k1 ->
  (forall j t, 0 <= j < nodes d -> j <> k -> node d h j = Some t ->
     dt_heap_entry d t h = 2 * j + h) ->
  ~ others d k dt -> heap (nodes d) (pkey d1 k1) ->
  exists sl d', ss_get (dth_slots d1) (2 * k1 + h) = Some sl /\
    _dispatch_timer_heap_set d1 sl dt (2 * k1 + h) = Some d' /\ resifted d k d'.
Proof.
  intros Hd1 F Hent Hnot Hheap. pose proof (frame_nodes _ _ _ _ F) as En.
  destruct (heap_set_node d1 k1 dt Hd1) as
    (sl & d' & Hget & Hset & Hok & Hcap & Hg & Hct & Hq & Hn & Ho & He & Hp).
  rewrite En in Hn. pose proof (hole_in _ _ Hd1) as Hin. rewrite En in Hin.
  exists sl, d'. do 2 (split; [done|]). constructor.
  - done.
  - rewrite Hcap. apply F.
  - rewrite Hct. apply F.
  - rewrite Hq. apply F.
  - intros j Hj. rewrite Ho by (by rewrite (fr_cap _ _ _ _ F)). by apply F.
  - intros t. rewrite He, upd_entry_ne by (right; lia). apply F.
  - intros j Hj. rewrite Hn by done. unfold updf. destruct (decide (j = k1)); [by eexists|].
    apply (hole_full _ _ Hd1); [by rewrite En|done].
  - intros j t Hj Hjt. rewrite Hn in Hjt by done. rewrite He. unfold updf in Hjt.
    destruct (decide (j = k1)) as [->|Hjk]; [injection Hjt as <-; apply upd_entry_eq|].
    rewrite upd_entry_ne; [by apply (fr_entry _ _ _ _ F)|].
    left. intros ->. apply Hnot, (fr_others _ _ _ _ F). exists j. by rewrite En.
  - intros t. rewrite <- (fr_others _ _ _ _ F). unfold others. rewrite En. split.
    + intros (j & Hj & Hjt). rewrite Hn in Hjt by done. unfold updf in Hjt.
      destruct (decide (j = k1)); [left; congruence|right; by exists j].
    + intros [->|(j & Hj & Hjk & Hjt)].
      * exists k1. split; [done|]. by rewrite Hn, updf_eq by done.
      * exists j. split; [done|]. by rewrite Hn, updf_ne by done.
  - apply (heap_ext _ (pkey d1 k1)); [|done]. intros j Hj. unfold pkey, placed. by rewrite Hn.
  - intros t Hne Hno. rewrite He, upd_entry_ne by (by left). by apply F.
  - intros Hnp. rewrite Hp, (fr_prog _ _ _ _ F Hnp). by rewrite orb_true_r.
  - rewrite Hp. destruct (decide (k1 = 0)) as [->|Hk1]; [done|].
    rewrite (bool_decide_eq_false_2 _ Hk1). simpl.
    rewrite !Hn, !updf_ne by lia. intros [Hm|Hm]; [by apply (fr_prog_min _ _ _ _ F)|].
    destruct Hnot. apply (fr_others _ _ _ _ F). exists 0. rewrite En. split; [lia|].
    split; [lia|done].
Qed.

Lemma sift_fuel_enough d : dth_count d + 1 < 2 ^ Z.of_nat (sift_fuel d) \/ dth_count d < 0.
Proof.
  destruct (decide (dth_count d < 0)) as [|Hc]; [by right|left]. unfold sift_fuel.
  pose proof (Z.pow_gt_lin_r 2 (Z.of_nat (Datatypes.S (Z.to_nat (dth_count d)))) ltac:(lia) ltac:(lia)). lia.
Qed.

Lemma resift_correct d k : hole d k -> heap_but (nodes d) (pkey d k) k ->
  (forall j t, 0 <= j < nodes d -> j <> k -> node d h j = Some t ->
     dt_heap_entry d t h = 2 * j + h) ->
  ~ others d k dt ->
  exists d', _dispatch_timer_heap_resift heap_key d dt (2 * k + h) = Some d' /\ resifted d k d'.
Proof.
  intros Hd Hbut Hent Hnot. pose proof (hole_in _ _ Hd) as Hin. pose proof (hole_even _ _ Hd) as Hev.
  destruct (heap_set_node d k dt Hd) as (sl & _ & Hsl & _).
  unfold _dispatch_timer_heap_resift. rewrite Hsl, heap_id_node by lia. opt_simpl.
  destruct (sift_up_correct (sift_fuel d) d k sl false) as
    (d1 & sl1 & k1 & b1 & -> & Hg1 & Hd1 & F1 & Hb & _ & Hup); try done.
  { pose proof (sift_fuel_enough d). lia. }
  opt_simpl. destruct b1.
  - destruct (resift_finish d k d1 k1) as (sl' & d' & Hs' & Hset & Hr); try done; [by apply Hup|].
    assert (sl' = sl1) as -> by congruence. by exists d'.
  - destruct (Hb eq_refl) as (_ & -> & -> & Hstop).
    destruct (sift_down_correct (sift_fuel d) d k sl1) as
      (d2 & sl2 & k2 & -> & Hg2 & Hd2 & F2 & Hdn); try done.
    { pose proof (sift_fuel_enough d). nia. }
    opt_simpl. destruct (resift_finish d k d2 k2) as (sl' & d' & Hs' & Hset & Hr); try done.
    { apply Hdn. by apply heap_but_go_down. }
    assert (sl' = sl2) as -> by congruence. by exists d'.
Qed.
End sift.
