(* ===== verification/Segments.v ===== *)
(** * Segmented storage of the timer heap

    Models [_dispatch_timer_heap_capacity], [_dispatch_timer_heap_grow],
    [_dispatch_timer_heap_shrink] and [_dispatch_timer_heap_get_slot] of
    [src/event/event.c].  Segments are arrays of pointers in a store indexed by
    address; the last segment keeps the addresses of the others in its final
    entries.  An access outside an array is a memory error ([None]).

    The instance at the end of the file discharges the storage laws the heap
    algorithms rely on: distinct indices below the capacity have distinct slots,
    all inside their segment and outside the address table. *)

From S2P Require Import Prelude HeapOrder TimerHeap.

Inductive word :=
| WNull
| WTimer (t : timer)
| WSegment (p : nat).

Definition word_of_timer (x : option timer) : word :=
  match x with Some t => WTimer t | None => WNull end.

Record segs := {
  dth_min0 : option timer;           (* dth_min[DTH_TARGET_ID] *)
  dth_min1 : option timer;           (* dth_min[DTH_DEADLINE_ID] *)
  dth_segments : Z;
  dth_heap : option nat;             (* address of the last segment, if any *)
  seg_mem : gmap nat (list word);    (* the allocated segments *)
}.

Inductive slot :=
| SMin (i : Z)
| SSeg (p : nat) (i : Z).

Definition DISPATCH_HEAP_INIT_SEGMENT_CAPACITY : Z := 8.
Local Abbreviation C := DISPATCH_HEAP_INIT_SEGMENT_CAPACITY.

(** [__builtin_clz] on a non-zero 32-bit value. *)
Definition builtin_clz (x : Z) : Z := 31 - Z.log2 x.

Definition _dispatch_timer_heap_capacity (segments : Z) : Z :=
  if decide (segments = 0) then 2
  else let seg_no := segments - 1 in
       2 + Z.shiftl C seg_no - seg_no.

(** [a[i]] of an allocated segment. *)
Definition seg_read (m : gmap nat (list word)) (p : nat) (i : Z) : option word :=
  l ← m !! p; if decide (0 <= i) then l !! Z.to_nat i else None.

Definition seg_write (m : gmap nat (list word)) (p : nat) (i : Z) (w : word)
    : option (gmap nat (list word)) :=
  l ← m !! p;
  if decide (0 <= i < Z.of_nat (length l)) then Some (<[p := <[Z.to_nat i := w]> l]> m) else None.

(** [memcpy(&p[doff], &q[soff], n * sizeof (void * ))]. *)
Definition seg_memcpy (m : gmap nat (list word)) (p : nat) (doff : Z) (q : nat) (soff n : Z)
    : option (gmap nat (list word)) :=
  dst ← m !! p; src ← m !! q;
  if decide (0 <= doff /\ 0 <= soff /\ 0 <= n /\ soff + n <= Z.of_nat (length src) /\
             doff + n <= Z.of_nat (length dst))
  then Some (<[p := list_inserts (Z.to_nat doff)
                      (take (Z.to_nat n) (drop (Z.to_nat soff) src)) dst]> m)
  else None.

Definition _dispatch_timer_heap_grow (s : segs) : option segs :=
  let seg_no := dth_segments s in
  let seg_capacity := if decide (seg_no > 0) then Z.shiftl C (seg_no - 1) else C in
  let heap := fresh (dom (seg_mem s)) in
  let m := <[heap := replicate (Z.to_nat seg_capacity) WNull]> (seg_mem s) in
  m ← (if decide (seg_no > 1) then
         let prev_seg_no := seg_no - 1 in
         let prev_seg_capacity := Z.shiftr seg_capacity 1 in
         heap_prev ← dth_heap s;
         seg_memcpy m heap (seg_capacity - prev_seg_no)
           heap_prev (prev_seg_capacity - prev_seg_no) prev_seg_no
       else Some m);
  m ← (if decide (seg_no > 0) then
         heap_prev ← dth_heap s;
         seg_write m heap (seg_capacity - seg_no) (WSegment heap_prev)
       else Some m);
  Some {| dth_min0 := dth_min0 s; dth_min1 := dth_min1 s; dth_segments := seg_no + 1;
          dth_heap := Some heap; seg_mem := m |}.

Definition _dispatch_timer_heap_shrink (s : segs) : option segs :=
  let seg_no := dth_segments s - 1 in
  heap ← dth_heap s;
  if decide (seg_no > 0) then
    let seg_capacity := Z.shiftl C (seg_no - 1) in
    w ← seg_read (seg_mem s) heap (seg_capacity - seg_no);
    heap_prev ← (match w with WSegment p => Some p | _ => None end);
    m ← (if decide (seg_no > 1) then
           let prev_seg_no := seg_no - 1 in
           let prev_seg_capacity := Z.shiftr seg_capacity 1 in
           seg_memcpy (seg_mem s) heap_prev (prev_seg_capacity - prev_seg_no)
             heap (seg_capacity - prev_seg_no) prev_seg_no
         else Some (seg_mem s));
    Some {| dth_min0 := dth_min0 s; dth_min1 := dth_min1 s; dth_segments := seg_no;
            dth_heap := Some heap_prev; seg_mem := delete heap m |}
  else
    Some {| dth_min0 := dth_min0 s; dth_min1 := dth_min1 s; dth_segments := seg_no;
            dth_heap := None; seg_mem := delete heap (seg_mem s) |}.

Definition _dispatch_timer_heap_get_slot (s : segs) (idx : Z) : option slot :=
  if decide (idx < DTH_ID_COUNT) then Some (SMin idx)
  else
    let idx := idx - DTH_ID_COUNT in
    let seg_no := builtin_clz (C - 1) - builtin_clz (Z.lor idx (C - 1)) in
    segment ← (if decide (seg_no + 1 = dth_segments s) then dth_heap s
               else
                 let seg_capacity := Z.shiftl C (dth_segments s - 2) in
                 heap ← dth_heap s;
                 w ← seg_read (seg_mem s) heap (seg_capacity - seg_no - 1);
                 match w with WSegment p => Some p | _ => None end);
    let idx := if decide (seg_no <> 0) then idx - Z.shiftl C (seg_no - 1) else idx in
    Some (SSeg segment idx).

Definition slot_load (s : segs) (sl : slot) : option timer :=
  match sl with
  | SMin i => if decide (i = 0) then dth_min0 s else dth_min1 s
  | SSeg p i => w ← seg_read (seg_mem s) p i;
                match w with WTimer t => Some t | _ => None end
  end.

Definition slot_store (s : segs) (sl : slot) (x : option timer) : option segs :=
  match sl with
  | SMin i =>
      Some (if decide (i = 0)
            then {| dth_min0 := x; dth_min1 := dth_min1 s; dth_segments := dth_segments s;
                    dth_heap := dth_heap s; seg_mem := seg_mem s |}
            else {| dth_min0 := dth_min0 s; dth_min1 := x; dth_segments := dth_segments s;
                    dth_heap := dth_heap s; seg_mem := seg_mem s |})
  | SSeg p i =>
      m ← seg_write (seg_mem s) p i (word_of_timer x);
      Some {| dth_min0 := dth_min0 s; dth_min1 := dth_min1 s; dth_segments := dth_segments s;
              dth_heap := dth_heap s; seg_mem := m |}
  end.

(** ** Well-formed segment chains *)

(** Number of entries of segment [k] and first index it holds. *)
Definition segcap (k : Z) : Z := if decide (k = 0) then C else Z.shiftl C (k - 1).
Definition segbase (k : Z) : Z := if decide (k = 0) then 0 else Z.shiftl C (k - 1).

(** [ps] lists the segments' addresses, first to last. *)
Record segs_inv (ps : list nat) (s : segs) : Prop := {
  si_len : dth_segments s = Z.of_nat (length ps);
  si_nodup : NoDup ps;
  si_alloc : forall k p, ps !! k = Some p ->
    exists l, seg_mem s !! p = Some l /\ Z.of_nat (length l) = segcap (Z.of_nat k);
  si_heap : dth_heap s = last ps;
  si_table : forall k p, ps !! k = Some p -> Z.of_nat k < dth_segments s - 1 ->
    exists lastp, dth_heap s = Some lastp /\
      seg_read (seg_mem s) lastp (segcap (dth_segments s - 1) - Z.of_nat k - 1) = Some (WSegment p);
}.

#[export] Instance segs_storage : SlotStorage segs := {
  ss_slot := slot;
  ss_get := _dispatch_timer_heap_get_slot;
  ss_load := slot_load;
  ss_store := slot_store;
  ss_cap s := _dispatch_timer_heap_capacity (dth_segments s);
  ss_ok s := exists ps, segs_inv ps s;
}.

(** ** Locating an index *)

Definition seg_no_of (j : Z) : Z := builtin_clz (C - 1) - builtin_clz (Z.lor j (C - 1)).

Lemma shiftl_C k : 0 <= k -> Z.shiftl C k = 8 * 2 ^ k.
Proof. intros. by rewrite Z.shiftl_mul_pow2. Qed.

Lemma segbase_end k : 0 <= k -> segbase k + segcap k = 8 * 2 ^ k.
Proof.
  intros. unfold segbase, segcap. case_decide as E; [by subst|]. rewrite shiftl_C by lia.
  replace k with (Z.succ (k - 1)) at 3 by lia. rewrite Z.pow_succ_r by lia. lia.
Qed.

Lemma segbase_pos k : 0 < k -> segbase k = 8 * 2 ^ (k - 1).
Proof. intros. unfold segbase. rewrite decide_False by lia. apply shiftl_C. lia. Qed.

Lemma segcap_gt k : 0 <= k -> k < segcap k.
Proof.
  intros. unfold segcap. case_decide; [subst; done|]. rewrite shiftl_C by lia.
  pose proof (Z.pow_gt_lin_r 2 (k - 1)). lia.
Qed.

Lemma seg_no_of_spec j : 0 <= j ->
  0 <= seg_no_of j /\ segbase (seg_no_of j) <= j < segbase (seg_no_of j) + segcap (seg_no_of j).
Proof.
  intros Hj. unfold seg_no_of, builtin_clz. change (C - 1) with 7.
  rewrite Z.log2_lor by lia. change (Z.log2 7) with 2.
  replace (31 - 2 - (31 - Z.max (Z.log2 j) 2)) with (Z.max (Z.log2 j) 2 - 2) by lia.
  destruct (decide (j < 8)) as [Hs|Hs].
  - assert (Z.log2 j <= 2).
    { destruct (decide (j = 0)) as [->|]; [done|].
      pose proof (Z.log2_lt_pow2 j 3 ltac:(lia)) as [E _]. specialize (E ltac:(lia)). lia. }
    replace (Z.max (Z.log2 j) 2 - 2) with 0 by lia. unfold segbase, segcap. simpl. unfold C. lia.
  - assert (3 <= Z.log2 j) by (change 3 with (Z.log2 8); apply Z.log2_le_mono; lia).
    rewrite Z.max_l by lia. rewrite segbase_end, segbase_pos by lia.
    pose proof (Z.log2_spec j ltac:(lia)) as [Hlo Hhi]. split; [lia|].
    replace (Z.log2 j) with (3 + (Z.log2 j - 2 - 1)) in Hlo by lia.
    rewrite Z.pow_add_r in Hlo by lia.
    replace (Z.succ (Z.log2 j)) with (3 + (Z.log2 j - 2)) in Hhi by lia.
    rewrite Z.pow_add_r in Hhi by lia. lia.
Qed.

Lemma seg_no_of_le j n : 0 <= j < 8 * 2 ^ n -> 0 <= n -> seg_no_of j <= n.
Proof.
  intros Hj Hn. pose proof (seg_no_of_spec j ltac:(lia)) as (H0 & Hlo & _).
  apply Z.nlt_ge. intros Hlt. rewrite segbase_pos in Hlo by lia.
  pose proof (Z.pow_le_mono_r 2 n (seg_no_of j - 1)). lia.
Qed.

Lemma capacity_pos n : 0 <= n -> _dispatch_timer_heap_capacity (n + 1) = 2 + 8 * 2 ^ n - n.
Proof.
  intros. unfold _dispatch_timer_heap_capacity. rewrite decide_False by lia.
  replace (n + 1 - 1) with n by lia. by rewrite shiftl_C by lia.
Qed.

Lemma capacity_mono n : 0 <= n ->
  _dispatch_timer_heap_capacity n + 4 <= _dispatch_timer_heap_capacity (n + 1).
Proof.
  intros. destruct (decide (n = 0)) as [->|]; [done|].
  replace (_dispatch_timer_heap_capacity n) with (_dispatch_timer_heap_capacity (n - 1 + 1)) by (f_equal; lia).
  rewrite !capacity_pos by lia. replace n with (Z.succ (n - 1)) at 3 by lia.
  rewrite Z.pow_succ_r by lia. pose proof (Z.pow_pos_nonneg 2 (n - 1)). lia.
Qed.

(** ** Reads and writes of segments *)

Lemma seg_read_Some m p i l w : m !! p = Some l ->
  seg_read m p i = Some w <-> 0 <= i /\ l !! Z.to_nat i = Some w.
Proof.
  intros Hp. unfold seg_read. rewrite Hp. opt_simpl. case_decide; [tauto|].
  split; [done|lia].
Qed.

Lemma seg_write_spec m p l i w : m !! p = Some l -> 0 <= i < Z.of_nat (length l) ->
  exists m', seg_write m p i w = Some m' /\
    m' !! p = Some (<[Z.to_nat i := w]> l) /\ (forall q, q <> p -> m' !! q = m !! q) /\
    (forall q k, seg_read m' q k = if decide (q = p /\ k = i) then Some w else seg_read m q k).
Proof.
  intros Hp Hi. unfold seg_write. rewrite Hp. opt_simpl. rewrite decide_True by done.
  eexists. split; [done|]. split; [apply lookup_insert_eq|].
  split; [intros; by apply lookup_insert_ne|]. intros q k. unfold seg_read.
  destruct (decide (q = p)) as [->|Hq].
  - rewrite lookup_insert_eq, Hp. opt_simpl. destruct (decide (k = i)) as [->|Hk].
    + rewrite !decide_True by (done || lia). apply list_lookup_insert_eq. lia.
    + rewrite (decide_False (P := p = p /\ k = i)) by tauto. case_decide; [|done].
      apply list_lookup_insert_ne. lia.
  - rewrite lookup_insert_ne by done. by rewrite (decide_False (P := q = p /\ k = i)) by tauto.
Qed.

Lemma seg_memcpy_spec m p q dst src doff soff n :
  m !! p = Some dst -> m !! q = Some src -> 0 <= doff -> 0 <= soff -> 0 <= n ->
  soff + n <= Z.of_nat (length src) -> doff + n <= Z.of_nat (length dst) ->
  exists m' dst', seg_memcpy m p doff q soff n = Some m' /\
    m' !! p = Some dst' /\ length dst' = length dst /\ (forall r, r <> p -> m' !! r = m !! r) /\
    (forall r k, seg_read m' r k =
       if decide (r = p /\ doff <= k < doff + n) then seg_read m q (k - doff + soff)
       else seg_read m r k).
Proof.
  intros Hp Hq H1 H2 H3 H4 H5. unfold seg_memcpy. rewrite Hp, Hq. opt_simpl.
  rewrite decide_True by done. eexists _, _. split; [done|]. split; [apply lookup_insert_eq|].
  split; [apply length_inserts|]. split; [intros; by apply lookup_insert_ne|].
  intros r k. unfold seg_read. rewrite Hq. opt_simpl. destruct (decide (r = p)) as [->|Hr].
  - rewrite lookup_insert_eq, Hp. opt_simpl. destruct (decide (doff <= k < doff + n)) as [Hk|Hk].
    + rewrite !decide_True by (done || lia).
      rewrite list_lookup_inserts by (rewrite ?length_take, ?length_drop; lia).
      rewrite lookup_take_lt by lia. rewrite lookup_drop. f_equal. lia.
    + rewrite (decide_False (P := p = p /\ doff <= k < doff + n)) by tauto. case_decide; [|done].
      destruct (decide (k < doff)).
      * apply list_lookup_inserts_lt. lia.
      * apply list_lookup_inserts_ge. rewrite length_take, length_drop. lia.
  - rewrite lookup_insert_ne by done.
    by rewrite (decide_False (P := r = p /\ doff <= k < doff + n)) by tauto.
Qed.

(** ** The address computation is right *)

(** Index [idx >= 2] lies in segment [seg_no_of (idx - 2)], inside the array,
    and outside the address table when that segment is the last. *)
Lemma get_slot_inv ps s idx : segs_inv ps s ->
  2 <= idx < _dispatch_timer_heap_capacity (dth_segments s) ->
  let k := seg_no_of (idx - 2) in
  exists p l, ps !! Z.to_nat k = Some p /\ seg_mem s !! p = Some l /\
    Z.of_nat (length l) = segcap k /\ 0 <= k <= dth_segments s - 1 /\
    0 <= idx - 2 - segbase k < segcap k /\
    (k = dth_segments s - 1 -> idx - 2 - segbase k < segcap k - k) /\
    _dispatch_timer_heap_get_slot s idx = Some (SSeg p (idx - 2 - segbase k)).
Proof.
  intros Hs Hidx k. pose proof (si_len _ _ Hs) as Hlen.
  assert (1 <= dth_segments s) as Hn.
  { destruct (decide (dth_segments s = 0)) as [E|]; [|lia]. rewrite E in Hidx.
    unfold _dispatch_timer_heap_capacity in Hidx. simpl in Hidx. lia. }
  set (n := dth_segments s - 1) in *.
  replace (dth_segments s) with (n + 1) in Hidx by lia. rewrite capacity_pos in Hidx by lia.
  pose proof (seg_no_of_spec (idx - 2) ltac:(lia)) as (Hk0 & Hlo & Hhi). fold k in Hk0, Hlo, Hhi.
  assert (k <= n) as Hkn by (apply seg_no_of_le; lia).
  assert (exists p, ps !! Z.to_nat k = Some p) as [p Hp].
  { apply lookup_lt_is_Some_2. lia. }
  destruct (si_alloc _ _ Hs _ _ Hp) as (l & Hl & Hll). rewrite Z2Nat.id in Hll by lia.
  exists p, l. repeat (split; [done || lia|]). split.
  { intros Hk. pose proof (segbase_end k Hk0). rewrite <- Hk in Hidx. lia. }
  unfold _dispatch_timer_heap_get_slot, DTH_ID_COUNT. rewrite decide_False by lia.
  change (builtin_clz (C - 1) - builtin_clz (Z.lor (idx - 2) (C - 1))) with k.
  assert ((if decide (k <> 0) then idx - 2 - Z.shiftl C (k - 1) else idx - 2) = idx - 2 - segbase k) as ->.
  { unfold segbase. repeat case_decide; try done; lia. }
  destruct (decide (k + 1 = dth_segments s)) as [E|E].
  - rewrite (si_heap _ _ Hs), last_lookup. replace (pred (length ps)) with (Z.to_nat k) by lia.
    by rewrite Hp.
  - destruct (si_table _ _ Hs _ _ Hp ltac:(lia)) as (lp & Hlp & Hrd). rewrite Z2Nat.id in Hrd by lia.
    rewrite Hlp. opt_simpl. fold n in Hrd. unfold segcap in Hrd. rewrite decide_False in Hrd by lia.
    replace (dth_segments s - 2) with (n - 1) by lia. rewrite Hrd. done.
Qed.

(** Different indices, different places. *)
Lemma locate_inj i j : 0 <= i -> 0 <= j -> seg_no_of i = seg_no_of j ->
  i - segbase (seg_no_of i) = j - segbase (seg_no_of j) -> i = j.
Proof. intros ?? ->. lia. Qed.

Lemma slotval_seg ps s idx : segs_inv ps s ->
  2 <= idx < _dispatch_timer_heap_capacity (dth_segments s) ->
  exists p, ps !! Z.to_nat (seg_no_of (idx - 2)) = Some p /\
    slotval s idx = slot_load s (SSeg p (idx - 2 - segbase (seg_no_of (idx - 2)))).
Proof.
  intros Hs Hidx. destruct (get_slot_inv ps s idx Hs Hidx) as (p & l & Hp & _ & _ & _ & _ & _ & Hg).
  exists p. split; [done|]. unfold slotval. simpl. by rewrite Hg.
Qed.

Lemma slotval_min s idx : 0 <= idx < 2 ->
  slotval s idx = if decide (idx = 0) then dth_min0 s else dth_min1 s.
Proof.
  intros. unfold slotval. simpl. unfold _dispatch_timer_heap_get_slot, DTH_ID_COUNT.
  by rewrite decide_True by lia.
Qed.

(** A write into a segment, outside the address table, keeps the chain. *)
Lemma segs_inv_write ps s p k i w : segs_inv ps s -> ps !! k = Some p ->
  0 <= i < segcap (Z.of_nat k) ->
  (Z.of_nat k = dth_segments s - 1 -> i < segcap (Z.of_nat k) - Z.of_nat k) ->
  exists m, seg_write (seg_mem s) p i w = Some m /\
    segs_inv ps {| dth_min0 := dth_min0 s; dth_min1 := dth_min1 s; dth_segments := dth_segments s;
                   dth_heap := dth_heap s; seg_mem := m |} /\
    (forall q j, seg_read m q j = if decide (q = p /\ j = i) then Some w else seg_read (seg_mem s) q j).
Proof.
  intros Hs Hp Hi Htab. destruct (si_alloc _ _ Hs _ _ Hp) as (l & Hl & Hll).
  destruct (seg_write_spec (seg_mem s) p l i w Hl ltac:(lia)) as (m & Hw & Hmp & Hmo & Hrd).
  exists m. split; [done|]. split; [|done]. constructor; simpl; try apply Hs.
  - intros k' p' Hp'. destruct (decide (p' = p)) as [->|].
    + assert (k' = k) as -> by (eapply NoDup_lookup; [apply Hs|done|done]).
      eexists. split; [done|]. by rewrite length_insert.
    + rewrite Hmo by done. by apply Hs.
  - intros k' p' Hp' Hk'. destruct (si_table _ _ Hs _ _ Hp' Hk') as (lp & Hlp & Hr).
    exists lp. split; [done|]. rewrite Hrd. rewrite decide_False; [done|]. intros [-> Heq].
    pose proof Hlp as Hlast. rewrite (si_heap _ _ Hs), last_lookup in Hlast.
    assert (k = pred (length ps)) as Hk by (eapply NoDup_lookup; [apply Hs|done|done]).
    pose proof (si_len _ _ Hs). pose proof (lookup_lt_Some _ _ _ Hp).
    assert (Z.of_nat k = dth_segments s - 1) as E by lia. rewrite <- E in *. specialize (Htab eq_refl). lia.
Qed.

#[export] Instance segs_laws : SlotStorageLaws segs.
Proof.
  constructor. simpl. intros s idx x [ps Hs] Hidx. destruct (decide (idx < 2)) as [Hlt|Hge].
  - exists (SMin idx). eexists. unfold _dispatch_timer_heap_get_slot at 1, DTH_ID_COUNT.
    rewrite decide_True by done. split; [done|]. split; [reflexivity|].
    split; [exists ps; case_decide; constructor; apply Hs|].
    split; [by case_decide|]. split; [intros j _; by case_decide|].
    intros j Hj. destruct (decide (j < 2)).
    + unfold updf. rewrite !slotval_min by lia. repeat case_decide; simpl; try done; try lia.
    + rewrite updf_ne by lia. destruct (decide (idx = 0)); unfold slotval; simpl;
        change (_dispatch_timer_heap_get_slot {| dth_min0 := _; dth_min1 := _;
          dth_segments := dth_segments s; dth_heap := dth_heap s; seg_mem := seg_mem s |} j)
        with (_dispatch_timer_heap_get_slot s j);
        destruct (slotval_seg ps s j Hs ltac:(lia)) as (p & _ & Hv);
        destruct (get_slot_inv ps s j Hs ltac:(lia)) as (p' & l & _ & _ & _ & _ & _ & _ & Hg);
        rewrite Hg; done.
  - destruct (get_slot_inv ps s idx Hs ltac:(lia)) as (p & l & Hp & Hl & Hll & Hk & Ho & Ht & Hg).
    destruct (segs_inv_write ps s p _ (idx - 2 - segbase (seg_no_of (idx - 2))) (word_of_timer x) Hs Hp)
      as (m & Hw & Hs' & Hrd); try (rewrite Z2Nat.id by lia; done).
    exists (SSeg p (idx - 2 - segbase (seg_no_of (idx - 2)))). eexists.
    split; [done|]. simpl. rewrite Hw. split; [reflexivity|]. simpl. split; [by exists ps|].
    split; [done|]. split.
    + intros j Hj. destruct (decide (j < 2)).
      { unfold _dispatch_timer_heap_get_slot, DTH_ID_COUNT. by rewrite !decide_True by lia. }
      destruct (get_slot_inv ps s j Hs ltac:(lia)) as (p1 & ? & Hp1 & _ & _ & _ & _ & _ & ->).
      destruct (get_slot_inv ps _ j Hs' ltac:(simpl; lia)) as (p2 & ? & Hp2 & _ & _ & _ & _ & _ & ->).
      congruence.
    + intros j Hj. destruct (decide (j < 2)); [rewrite updf_ne, !slotval_min by lia; done|].
      destruct (slotval_seg ps _ j Hs' ltac:(simpl; lia)) as (p1 & Hp1 & ->).
      destruct (slotval_seg ps s j Hs ltac:(lia)) as (p2 & Hp2 & Hv). assert (p2 = p1) as -> by congruence.
      simpl. rewrite Hrd. unfold updf. destruct (decide (j = idx)) as [->|Hne].
      * rewrite decide_True by (split; [congruence|done]). by destruct x.
      * rewrite decide_False; [by rewrite Hv|]. intros [-> Heq]. apply Hne.
        pose proof (seg_no_of_spec (j - 2) ltac:(lia)). pose proof (seg_no_of_spec (idx - 2) ltac:(lia)).
        assert (Z.to_nat (seg_no_of (j - 2)) = Z.to_nat (seg_no_of (idx - 2)))
          by (eapply NoDup_lookup; [apply Hs|done|done]).
        pose proof (locate_inj (j - 2) (idx - 2) ltac:(lia) ltac:(lia)). lia.
Qed.

(** ** Growing and shrinking keep every live slot *)

Lemma segcap_half n : 1 < n -> Z.shiftr (Z.shiftl C (n - 1)) 1 = segcap (n - 1).
Proof.
  intros. unfold segcap. rewrite decide_False by lia. rewrite !shiftl_C by lia.
  rewrite Z.shiftr_div_pow2 by lia. replace (n - 1) with (Z.succ (n - 1 - 1)) at 1 by lia.
  rewrite Z.pow_succ_r by lia. change (2 ^ 1) with 2.
  replace (8 * (2 * 2 ^ (n - 1 - 1))) with (8 * 2 ^ (n - 1 - 1) * 2) by lia. by rewrite Z.div_mul.
Qed.

Lemma segcap_grow n : 0 <= n ->
  (if decide (n > 0) then Z.shiftl C (n - 1) else C) = segcap n.
Proof. intros. unfold segcap. repeat case_decide; try done; lia. Qed.

(** Two chains that agree on the segments below the shorter one's capacity
    store the same values there. *)
Lemma slotval_agree ps ps' s s' : segs_inv ps s -> segs_inv ps' s' ->
  dth_min0 s' = dth_min0 s -> dth_min1 s' = dth_min1 s ->
  dth_segments s <= dth_segments s' ->
  (forall k p i, ps !! k = Some p -> 0 <= i < segcap (Z.of_nat k) ->
     (Z.of_nat k = dth_segments s - 1 -> i < segcap (Z.of_nat k) - Z.of_nat k) ->
     ps' !! k = Some p /\ seg_read (seg_mem s') p i = seg_read (seg_mem s) p i) ->
  forall idx, 0 <= idx < _dispatch_timer_heap_capacity (dth_segments s) ->
    idx < _dispatch_timer_heap_capacity (dth_segments s') ->
    slotval s' idx = slotval s idx.
Proof.
  intros Hs Hs' H0 H1 Hle Hag idx Hidx Hidx'. destruct (decide (idx < 2)).
  { rewrite !slotval_min by lia. by rewrite H0, H1. }
  destruct (get_slot_inv ps s idx Hs ltac:(lia)) as (p & l & Hp & _ & _ & Hk & Ho & Ht & _).
  destruct (slotval_seg ps s idx Hs ltac:(lia)) as (p1 & Hp1 & ->).
  destruct (slotval_seg ps' s' idx Hs' ltac:(lia)) as (p2 & Hp2 & ->).
  assert (p1 = p) as -> by congruence.
  destruct (Hag _ _ (idx - 2 - segbase (seg_no_of (idx - 2))) Hp) as [Hp' Hrd];
    try (rewrite Z2Nat.id by lia; done).
  assert (p2 = p) as -> by congruence. simpl. by rewrite Hrd.
Qed.

Lemma capacity_le a b : 0 <= a <= b ->
  _dispatch_timer_heap_capacity a <= _dispatch_timer_heap_capacity b.
Proof.
  intros [Ha Hab]. revert b Hab. apply (Zlt_lower_bound_ind _ a). intros b IH Hb.
  destruct (decide (a = b)) as [->|]; [done|]. specialize (IH (b - 1) ltac:(lia)).
  pose proof (capacity_mono (b - 1) ltac:(lia)). replace (b - 1 + 1) with b in * by lia. lia.
Qed.

(** The new last segment after the table copy and the added entry. *)
Lemma grow_table ps s (hp : nat) m : segs_inv ps s -> hp ∉ ps ->
  m !! hp = Some (replicate (Z.to_nat (segcap (Z.of_nat (length ps)))) WNull) ->
  (forall p, p <> hp -> m !! p = seg_mem s !! p) ->
  let n := Z.of_nat (length ps) in
  exists m1 m2 l,
    (if decide (n > 1) then
       heap_prev ← dth_heap s;
       seg_memcpy m hp (segcap n - (n - 1)) heap_prev (segcap (n - 1) - (n - 1)) (n - 1)
     else Some m) = Some m1 /\
    (if decide (n > 0) then
       heap_prev ← dth_heap s; seg_write m1 hp (segcap n - n) (WSegment heap_prev)
     else Some m1) = Some m2 /\
    m2 !! hp = Some l /\ Z.of_nat (length l) = segcap n /\
    (forall p, p <> hp -> m2 !! p = seg_mem s !! p) /\
    (forall k p, ps !! k = Some p -> seg_read m2 hp (segcap n - Z.of_nat k - 1) = Some (WSegment p)).
Proof.
  intros Hs Hhp Hm Hmo n. pose proof (si_len _ _ Hs) as Hlen. fold n in Hlen.
  pose proof (segcap_gt n ltac:(lia)) as Hgt.
  set (l0 := replicate (Z.to_nat (segcap n)) WNull) in *.
  assert (Z.of_nat (length l0) = segcap n) as Hl0 by (unfold l0; rewrite length_replicate; lia).
  destruct (decide (n > 0)) as [Hn|Hn].
  2:{ rewrite decide_False by lia. exists m, m, l0. do 5 (split; [done|]).
      intros k p Hk. apply lookup_lt_Some in Hk. lia. }
  assert (exists q, ps !! Z.to_nat (n - 1) = Some q) as [q Hq] by (apply lookup_lt_is_Some_2; lia).
  assert (dth_heap s = Some q) as Hheap.
  { rewrite (si_heap _ _ Hs), last_lookup. by replace (pred (length ps)) with (Z.to_nat (n - 1)) by lia. }
  rewrite Hheap. opt_simpl. destruct (si_alloc _ _ Hs _ _ Hq) as (lq & Hlq & Hllq).
  rewrite Z2Nat.id in Hllq by lia. pose proof (segcap_gt (n - 1) ltac:(lia)).
  assert (q <> hp) as Hqhp by (intros ->; by eapply Hhp, list_elem_of_lookup_2).
  assert (exists m1 l1, (if decide (n > 1) then
       seg_memcpy m hp (segcap n - (n - 1)) q (segcap (n - 1) - (n - 1)) (n - 1) else Some m) = Some m1 /\
     m1 !! hp = Some l1 /\ Z.of_nat (length l1) = segcap n /\
     (forall p, p <> hp -> m1 !! p = seg_mem s !! p) /\
     (forall k p, ps !! k = Some p -> Z.of_nat k < n - 1 ->
        seg_read m1 hp (segcap n - Z.of_nat k - 1) = Some (WSegment p)))
    as (m1 & l1 & -> & Hl1 & Hll1 & Ho1 & Ht1).
  { case_decide as Hn1.
    - destruct (seg_memcpy_spec m hp q l0 lq (segcap n - (n - 1)) (segcap (n - 1) - (n - 1)) (n - 1))
        as (m1 & l1 & Hc & Hl1 & Hll1 & Ho1 & Hr1); try done; try lia; [by rewrite Hmo|].
      exists m1, l1. do 2 (split; [done|]). split; [lia|].
      split; [intros p Hp; rewrite Ho1, Hmo; done|].
      intros k p Hp Hk. rewrite Hr1, decide_True by lia.
      destruct (si_table _ _ Hs _ _ Hp ltac:(lia)) as (lp & Hlp & Hrd).
      assert (lp = q) as -> by congruence. unfold seg_read in *. rewrite Hmo by done.
      replace (segcap n - Z.of_nat k - 1 - (segcap n - (n - 1)) + (segcap (n - 1) - (n - 1)))
        with (segcap (dth_segments s - 1) - Z.of_nat k - 1) by (rewrite Hlen; lia). done.
    - exists m, l0. do 4 (split; [done|]). intros k p _ Hk. lia. }
  destruct (seg_write_spec m1 hp l1 (segcap n - n) (WSegment q) Hl1 ltac:(lia))
    as (m2 & Hw & Hl2 & Ho2 & Hr2).
  exists m1, m2, (<[Z.to_nat (segcap n - n):=WSegment q]> l1). do 3 (split; [done|]).
  split; [by rewrite length_insert|]. split; [intros p Hp; by rewrite Ho2, Ho1|].
  intros k p Hk. rewrite Hr2. pose proof (lookup_lt_Some _ _ _ Hk).
  destruct (decide (Z.of_nat k = n - 1)) as [E|E].
  - rewrite decide_True by lia. replace k with (Z.to_nat (n - 1)) in Hk by lia. congruence.
  - rewrite decide_False by lia. apply Ht1; [done|lia].
Qed.

Lemma grow_correct ps s : segs_inv ps s ->
  exists s' p, _dispatch_timer_heap_grow s = Some s' /\ segs_inv (ps ++ [p]) s' /\
    dth_segments s' = dth_segments s + 1 /\
    (forall idx, 0 <= idx < _dispatch_timer_heap_capacity (dth_segments s) ->
       slotval s' idx = slotval s idx).
Proof.
  intros Hs. pose proof (si_len _ _ Hs) as Hlen. set (n := Z.of_nat (length ps)) in *.
  set (hp := fresh (dom (seg_mem s))).
  assert (hp ∉ dom (seg_mem s)) as Hfresh by apply is_fresh.
  assert (hp ∉ ps) as Hhp.
  { intros Hin. apply list_elem_of_lookup_1 in Hin as [k Hk].
    destruct (si_alloc _ _ Hs _ _ Hk) as (l & Hl & _). apply Hfresh, elem_of_dom. by exists l. }
  destruct (grow_table ps s hp (<[hp := replicate (Z.to_nat (segcap n)) WNull]> (seg_mem s)) Hs Hhp)
    as (m1 & m2 & l & H1 & H2 & Hl & Hll & Ho & Ht).
  { apply lookup_insert_eq. }
  { intros. by apply lookup_insert_ne. }
  fold n in H1, H2, Ht, Hll. unfold _dispatch_timer_heap_grow. fold hp. rewrite Hlen.
  rewrite segcap_grow by lia.
  assert ((if decide (n > 1) then heap_prev ← dth_heap s;
     seg_memcpy (<[hp:=replicate (Z.to_nat (segcap n)) WNull]> (seg_mem s)) hp (segcap n - (n - 1))
       heap_prev (Z.shiftr (segcap n) 1 - (n - 1)) (n - 1)
     else Some (<[hp:=replicate (Z.to_nat (segcap n)) WNull]> (seg_mem s))) = Some m1) as ->.
  { rewrite <- H1. destruct (decide (n > 1)); [|done]. rewrite <- (segcap_half n) by lia.
    unfold segcap. by rewrite (decide_False (P := n = 0)) by lia. }
  opt_simpl. rewrite H2. opt_simpl. eexists _, hp. split; [reflexivity|].
  assert (segs_inv (ps ++ [hp]) {| dth_min0 := dth_min0 s; dth_min1 := dth_min1 s;
    dth_segments := n + 1; dth_heap := Some hp; seg_mem := m2 |}) as Hs'.
  { constructor; simpl.
    - rewrite length_app. simpl. lia.
    - apply NoDup_app. split; [apply Hs|]. split; [|apply NoDup_singleton].
      intros x Hx Hx'. apply list_elem_of_singleton in Hx' as ->. done.
    - intros k p Hk. apply lookup_snoc_Some in Hk as [[Hlt Hk]|[-> <-]].
      + assert (p <> hp) by (intros ->; by eapply Hhp, list_elem_of_lookup_2).
        rewrite Ho by done. by apply Hs.
      + by exists l.
    - by rewrite last_snoc.
    - intros k p Hk Hlt. exists hp. split; [done|].
      rewrite lookup_app_l in Hk by lia. replace (n + 1 - 1) with n by lia. by apply Ht. }
  split; [done|]. split; [done|]. intros idx Hidx.
  apply (slotval_agree ps (ps ++ [hp])); simpl; try done; try lia.
  - intros k p i Hk Hi _. split; [by apply lookup_app_l_Some|].
    unfold seg_read. rewrite Ho; [done|]. intros ->. by eapply Hhp, list_elem_of_lookup_2.
  - by rewrite Hlen.
  - pose proof (capacity_mono n ltac:(lia)). lia.
Qed.

Lemma shrink_correct ps p s : segs_inv (ps ++ [p]) s ->
  exists s', _dispatch_timer_heap_shrink s = Some s' /\ segs_inv ps s' /\
    dth_segments s' = dth_segments s - 1 /\
    (forall idx, 0 <= idx < _dispatch_timer_heap_capacity (dth_segments s - 1) ->
       slotval s' idx = slotval s idx).
Proof.
  intros Hs. pose proof (si_len _ _ Hs) as Hlen. rewrite length_app in Hlen. simpl in Hlen.
  pose proof (si_nodup _ _ Hs) as Hnd. apply NoDup_app in Hnd as (Hnd & Hpn & _).
  assert (p ∉ ps) as Hp by (intros Hin; apply (Hpn p Hin), list_elem_of_singleton; done).
  pose proof (si_heap _ _ Hs) as Hheap. rewrite last_snoc in Hheap.
  set (n := Z.of_nat (length ps)) in *.
  destruct (si_alloc _ _ Hs (length ps) p) as (l & Hl & Hll).
  { by rewrite lookup_app_r, Nat.sub_diag by lia. }
  fold n in Hll. pose proof (segcap_gt n ltac:(lia)) as Hgt.
  assert (forall k q, ps !! k = Some q ->
    q <> p /\ seg_read (seg_mem s) p (segcap n - Z.of_nat k - 1) = Some (WSegment q)) as Htab.
  { intros k q Hk. split; [intros ->; by eapply Hp, list_elem_of_lookup_2|].
    pose proof (lookup_lt_Some _ _ _ Hk).
    destruct (si_table _ _ Hs k q) as (lp & Hlp & Hrd); [by apply lookup_app_l_Some|lia|].
    assert (lp = p) as -> by congruence. by replace (dth_segments s - 1) with n in Hrd by lia. }
  unfold _dispatch_timer_heap_shrink. rewrite Hheap. opt_simpl.
  replace (dth_segments s - 1) with n by lia. destruct (decide (n > 0)) as [Hn|Hn].
  2:{ assert (ps = []) as -> by (destruct ps; [done|simpl in *; lia]).
      eexists. split; [reflexivity|]. split; [|split; [done|]].
      - constructor; simpl; try done; try lia.
      - intros idx Hidx. replace n with 0 in Hidx by lia.
        unfold _dispatch_timer_heap_capacity in Hidx. simpl in Hidx. by rewrite !slotval_min by lia. }
  assert (exists q, ps !! Z.to_nat (n - 1) = Some q) as [q Hq] by (apply lookup_lt_is_Some_2; lia).
  destruct (Htab _ _ Hq) as [Hqp Hrq]. rewrite Z2Nat.id in Hrq by lia.
  destruct (si_alloc _ _ Hs (Z.to_nat (n - 1)) q) as (lq & Hlq & Hllq); [by apply lookup_app_l_Some|].
  rewrite Z2Nat.id in Hllq by lia. pose proof (segcap_gt (n - 1) ltac:(lia)) as Hgt'.
  replace (Z.shiftl C (n - 1)) with (segcap n) by (unfold segcap; by rewrite decide_False by lia).
  replace (segcap n - n) with (segcap n - (n - 1) - 1) by lia. rewrite Hrq. opt_simpl.
  assert (exists m lq', (if decide (n > 1) then
      seg_memcpy (seg_mem s) q (Z.shiftr (segcap n) 1 - (n - 1)) p (segcap n - (n - 1)) (n - 1)
      else Some (seg_mem s)) = Some m /\ m !! q = Some lq' /\ Z.of_nat (length lq') = segcap (n - 1) /\
      (forall r, r <> q -> m !! r = seg_mem s !! r) /\
      (forall i, i < segcap (n - 1) - (n - 1) -> seg_read m q i = seg_read (seg_mem s) q i) /\
      (forall k r, ps !! k = Some r -> Z.of_nat k < n - 1 ->
         seg_read m q (segcap (n - 1) - Z.of_nat k - 1) = Some (WSegment r)))
    as (m & lq' & -> & Hmq & Hmql & Hmo & Hmr & Hmt).
  { destruct (decide (n > 1)) as [Hn1|Hn1].
    - replace (Z.shiftr (segcap n) 1) with (segcap (n - 1))
        by (rewrite <- (segcap_half n) by lia; unfold segcap; by rewrite (decide_False (P := n = 0)) by lia).
      destruct (seg_memcpy_spec (seg_mem s) q p lq l (segcap (n - 1) - (n - 1)) (segcap n - (n - 1)) (n - 1))
        as (m & lq' & Hc & Hm1 & Hm2 & Hm3 & Hm4); try done; try lia.
      exists m, lq'. do 2 (split; [done|]). split; [lia|]. split; [done|]. split.
      + intros i Hi. rewrite Hm4. by rewrite decide_False by lia.
      + intros k r Hk Hlt. rewrite Hm4, decide_True by lia.
        replace (segcap (n - 1) - Z.of_nat k - 1 - (segcap (n - 1) - (n - 1)) + (segcap n - (n - 1)))
          with (segcap n - Z.of_nat k - 1) by lia. by apply Htab.
    - exists (seg_mem s), lq. do 5 (split; [done|]). intros k r _ Hlt. lia. }
  opt_simpl. eexists. split; [reflexivity|]. simpl.
  assert (forall r, r <> p -> delete p m !! r = m !! r) as Hdel by (intros; by apply lookup_delete_ne).
  assert (segs_inv ps {| dth_min0 := dth_min0 s; dth_min1 := dth_min1 s; dth_segments := n;
    dth_heap := Some q; seg_mem := delete p m |}) as Hs'.
  { constructor; simpl; try done.
    - intros k r Hk. destruct (Htab _ _ Hk) as [Hr _]. rewrite Hdel by done.
      destruct (decide (r = q)) as [->|].
      + assert (k = Z.to_nat (n - 1)) as -> by (by eapply NoDup_lookup).
        exists lq'. rewrite Z2Nat.id by lia. done.
      + rewrite Hmo by done. apply Hs. by apply lookup_app_l_Some.
    - rewrite last_lookup. by replace (pred (length ps)) with (Z.to_nat (n - 1)) by lia.
    - intros k r Hk Hlt. exists q. split; [done|]. unfold seg_read. rewrite Hdel by done.
      by apply Hmt. }
  split; [done|]. split; [done|]. intros idx Hidx.
  symmetry. apply (slotval_agree ps (ps ++ [p]) _ s); simpl; try done; try lia.
  - intros k r i Hk Hi Htail. split; [by apply lookup_app_l_Some|].
    destruct (Htab _ _ Hk) as [Hr _]. unfold seg_read. rewrite Hdel by done.
    destruct (decide (r = q)) as [->|]; [|by rewrite Hmo].
    assert (k = Z.to_nat (n - 1)) as -> by (by eapply NoDup_lookup).
    rewrite Z2Nat.id in Htail by lia. symmetry. apply Hmr, Htail. lia.
  - pose proof (capacity_mono n ltac:(lia)). replace (dth_segments s) with (n + 1) by lia. lia.
Qed.

(** ** Properties of the storage *)

(** Every index below the capacity of a well-formed segment chain has a
    slot; a slot inside a segment lies within that segment's array and, in the
    last segment, below the entries that hold the addresses of the other
    segments; and two distinct indices never share a slot. *)
Theorem get_slot_safe (ps : list nat) (s : segs) :
  segs_inv ps s ->
  (forall idx, 0 <= idx < _dispatch_timer_heap_capacity (dth_segments s) ->
     match _dispatch_timer_heap_get_slot s idx with
     | Some (SMin i) => i = idx /\ idx < 2
     | Some (SSeg p i) => exists l, seg_mem s !! p = Some l /\ 0 <= i < Z.of_nat (length l) /\
         (dth_heap s = Some p -> i < Z.of_nat (length l) - (dth_segments s - 1))
     | None => False
     end) /\
  (forall i j, 0 <= i < _dispatch_timer_heap_capacity (dth_segments s) ->
     0 <= j < _dispatch_timer_heap_capacity (dth_segments s) ->
     _dispatch_timer_heap_get_slot s i = _dispatch_timer_heap_get_slot s j -> i = j).
Proof.
  intros Hs.
  assert (forall i, 0 <= i < 2 -> _dispatch_timer_heap_get_slot s i = Some (SMin i)) as Hmin.
  { intros i Hi. unfold _dispatch_timer_heap_get_slot, DTH_ID_COUNT. by rewrite decide_True by lia. }
  split.
  - intros idx Hidx. destruct (decide (idx < 2)); [rewrite Hmin by lia; lia|].
    destruct (get_slot_inv ps s idx Hs ltac:(lia)) as (p & l & Hp & Hl & Hlen & Hk & Hb & Ht & ->).
    exists l. rewrite Hlen. do 2 (split; [done|]). intros Hlast.
    rewrite (si_heap _ _ Hs), last_lookup in Hlast. pose proof (si_len _ _ Hs).
    pose proof (NoDup_lookup _ _ _ _ (si_nodup _ _ Hs) Hp Hlast).
    assert (seg_no_of (idx - 2) = dth_segments s - 1) as E by lia. rewrite <- E. by apply Ht.
  - intros i j Hi Hj He. destruct (decide (i < 2)) as [Hi2|Hi2], (decide (j < 2)) as [Hj2|Hj2].
    + rewrite !Hmin in He by lia. congruence.
    + destruct (get_slot_inv ps s j Hs ltac:(lia)) as (p & l & _ & _ & _ & _ & _ & _ & E).
      rewrite Hmin, E in He by lia. done.
    + destruct (get_slot_inv ps s i Hs ltac:(lia)) as (p & l & _ & _ & _ & _ & _ & _ & E).
      rewrite (Hmin j), E in He by lia. done.
    + destruct (get_slot_inv ps s i Hs ltac:(lia)) as (p & l & Hp & _ & _ & Hk & _ & _ & E).
      destruct (get_slot_inv ps s j Hs ltac:(lia)) as (q & l' & Hq & _ & _ & Hk' & _ & _ & E').
      rewrite E, E' in He. simplify_eq.
      pose proof (NoDup_lookup _ _ _ _ (si_nodup _ _ Hs) Hp Hq).
      enough (i - 2 = j - 2) by lia. apply locate_inj; lia.
Qed.

(** Growing a well-formed segment chain succeeds, adds one segment and
    keeps every slot's contents; shrinking it again succeeds, gives back the
    same number of segments and the same contents, and leaves no segment
    allocated that was not allocated before. *)
Theorem grow_shrink_roundtrip (ps : list nat) (s : segs) :
  segs_inv ps s ->
  exists s1 s2, _dispatch_timer_heap_grow s = Some s1 /\ _dispatch_timer_heap_shrink s1 = Some s2 /\
    segs_inv ps s2 /\ dth_segments s1 = dth_segments s + 1 /\ dth_segments s2 = dth_segments s /\
    _dispatch_timer_heap_capacity (dth_segments s) + 2 <= _dispatch_timer_heap_capacity (dth_segments s1) /\
    (forall idx, 0 <= idx < _dispatch_timer_heap_capacity (dth_segments s) ->
       slotval s1 idx = slotval s idx /\ slotval s2 idx = slotval s idx).
Proof.
  intros Hs. pose proof (si_len _ _ Hs).
  destruct (grow_correct ps s Hs) as (s1 & p & Hg & Hs1 & Hn1 & Hv1).
  destruct (shrink_correct ps p s1 Hs1) as (s2 & Hsh & Hs2 & Hn2 & Hv2).
  exists s1, s2. do 3 (split; [done|]). split; [done|]. split; [lia|]. split.
  - rewrite Hn1. pose proof (capacity_mono (dth_segments s) ltac:(lia)). lia.
  - intros idx Hidx. split; [by apply Hv1|]. rewrite Hv2; [by apply Hv1|].
    by rewrite Hn1, Z.add_simpl_r.
Qed.

(** A chain of one segment of eight pointers, the seventh holding a timer. *)
Definition one_segment : segs :=
  {| dth_min0 := Some 1%nat; dth_min1 := Some 2%nat; dth_segments := 1; dth_heap := Some 7%nat;
     seg_mem := {[ 7%nat := [WNull; WNull; WNull; WNull; WNull; WNull; WTimer 3%nat; WNull] ]} |}.

Lemma one_segment_inv : segs_inv [7%nat] one_segment.
Proof.
  constructor; try done.
  - apply NoDup_singleton.
  - intros [|k] p Hp; simplify_eq/=. by eexists.
  - intros [|k] p Hp Hk; simplify_eq/=. lia.
Qed.

Lemma get_slot_safe_witness :
  segs_inv [7%nat] one_segment /\ _dispatch_timer_heap_get_slot one_segment 8 = Some (SSeg 7%nat 6) /\
  (_dispatch_timer_heap_get_slot one_segment 8 = _dispatch_timer_heap_get_slot one_segment 9 -> 8 = 9).
Proof.
  split; [apply one_segment_inv|]. split; [reflexivity|].
  apply (proj2 (get_slot_safe [7%nat] one_segment one_segment_inv)); vm_compute; split; congruence.
Defined.

Lemma grow_shrink_roundtrip_witness :
  exists s1 s2, _dispatch_timer_heap_grow one_segment = Some s1 /\
    _dispatch_timer_heap_shrink s1 = Some s2 /\ slotval s1 8 = Some 3%nat /\ slotval s2 8 = Some 3%nat.
Proof.
  destruct (grow_shrink_roundtrip [7%nat] one_segment one_segment_inv)
    as (s1 & s2 & H1 & H2 & _ & _ & _ & _ & H).
  exists s1, s2. do 2 (split; [done|]). apply (H 8). vm_compute; split; congruence.
Defined.
