(* ===== verification/TimerOps.v ===== *)
(** * Insertion, removal and update of timers

    Models [_dispatch_timer_heap_insert], [_dispatch_timer_heap_remove] and
    [_dispatch_timer_heap_update] of [src/event/event.c] over the segmented
    storage, with the invariant of the double heap: both heaps hold the same
    timers, each timer knows its two positions, and both are ordered.  The
    assertions of the C code are guards: a state in which one fails is [None]. *)

From S2P Require Import Prelude HeapOrder TimerHeap Segments.

Local Abbreviation heap_s := (dispatch_timer_heap_s segs).

Definition with_slots (d : heap_s) (s : segs) : heap_s :=
  {| dth_count := dth_count d; dth_max_qos := dth_max_qos d;
     dth_needs_program := dth_needs_program d; dth_slots := s; dt_heap_entry := dt_heap_entry d |}.

(** [dth->dth_min[0] = dth->dth_min[1] = x]. *)
Definition set_min (s : segs) (x : option timer) : segs :=
  {| dth_min0 := x; dth_min1 := x; dth_segments := dth_segments s;
     dth_heap := dth_heap s; seg_mem := seg_mem s |}.

Section ops.
Context (heap_key : timer -> Z -> Z).

(** [qos] is [MAX(_dispatch_priority_qos(dt->du_priority),
    _dispatch_priority_fallback_qos(dt->du_priority))]. *)
Definition _dispatch_timer_heap_insert (d : heap_s) (dt : timer) (qos : Z) : option heap_s :=
  let idx := dth_count d in
  if decide (dt_heap_entry d dt DTH_TARGET_ID = DTH_INVALID_ID /\
             dt_heap_entry d dt DTH_DEADLINE_ID = DTH_INVALID_ID) then
    let d := {| dth_count := dth_count d + DTH_ID_COUNT;
                dth_max_qos := if decide (dth_max_qos d < qos) then u8 qos else dth_max_qos d;
                dth_needs_program := bool_decide (dth_max_qos d < qos) || dth_needs_program d;
                dth_slots := dth_slots d; dt_heap_entry := dt_heap_entry d |} in
    if decide (idx = 0) then
      Some {| dth_count := dth_count d; dth_max_qos := dth_max_qos d; dth_needs_program := true;
              dth_slots := set_min (dth_slots d) (Some dt);
              dt_heap_entry := upd_entry (upd_entry (dt_heap_entry d) dt DTH_TARGET_ID DTH_TARGET_ID)
                                 dt DTH_DEADLINE_ID DTH_DEADLINE_ID |}
    else
      s ← (if decide (idx + DTH_ID_COUNT > _dispatch_timer_heap_capacity (dth_segments (dth_slots d)))
           then _dispatch_timer_heap_grow (dth_slots d) else Some (dth_slots d));
      d ← _dispatch_timer_heap_resift heap_key (with_slots d s) dt (idx + DTH_TARGET_ID);
      _dispatch_timer_heap_resift heap_key d dt (idx + DTH_DEADLINE_ID)
  else None.

(** One turn of the loop of [_dispatch_timer_heap_remove] over the heap ids. *)
Definition heap_remove_one (d : heap_s) (dt : timer) (idx heap_id : Z) : option heap_s :=
  slot ← ss_get (dth_slots d) (idx + heap_id);
  last_dt ← ss_load (dth_slots d) slot;
  s ← ss_store (dth_slots d) slot None;
  if decide (last_dt <> dt) then
    let removed_idx := dt_heap_entry d dt heap_id in
    _dispatch_timer_heap_resift heap_key (with_slots d s) last_dt removed_idx
  else Some (with_slots d s).

Definition clear_entry (d : heap_s) (dt : timer) : heap_s :=
  {| dth_count := dth_count d; dth_max_qos := dth_max_qos d;
     dth_needs_program := dth_needs_program d; dth_slots := dth_slots d;
     dt_heap_entry := upd_entry (upd_entry (dt_heap_entry d) dt DTH_TARGET_ID DTH_INVALID_ID)
                        dt DTH_DEADLINE_ID DTH_INVALID_ID |}.

Definition _dispatch_timer_heap_remove (d : heap_s) (dt : timer) : option heap_s :=
  let idx := dth_count d - DTH_ID_COUNT in
  if decide (dt_heap_entry d dt DTH_TARGET_ID <> DTH_INVALID_ID /\
             dt_heap_entry d dt DTH_DEADLINE_ID <> DTH_INVALID_ID) then
    let d := {| dth_count := idx; dth_max_qos := dth_max_qos d;
                dth_needs_program := dth_needs_program d; dth_slots := dth_slots d;
                dt_heap_entry := dt_heap_entry d |} in
    if decide (idx = 0) then
      if decide (dth_min0 (dth_slots d) = Some dt /\ dth_min1 (dth_slots d) = Some dt) then
        Some (clear_entry {| dth_count := dth_count d; dth_max_qos := dth_max_qos d;
                dth_needs_program := true; dth_slots := set_min (dth_slots d) None;
                dt_heap_entry := dt_heap_entry d |} dt)
      else None
    else
      d ← heap_remove_one d dt idx DTH_TARGET_ID;
      d ← heap_remove_one d dt idx DTH_DEADLINE_ID;
      s ← (if decide (idx <= _dispatch_timer_heap_capacity (dth_segments (dth_slots d) - 1))
           then _dispatch_timer_heap_shrink (dth_slots d) else Some (dth_slots d));
      Some (clear_entry (with_slots d s) dt)
  else None.

Definition _dispatch_timer_heap_update (d : heap_s) (dt : timer) : option heap_s :=
  if decide (dt_heap_entry d dt DTH_TARGET_ID <> DTH_INVALID_ID /\
             dt_heap_entry d dt DTH_DEADLINE_ID <> DTH_INVALID_ID) then
    d ← _dispatch_timer_heap_resift heap_key d dt (dt_heap_entry d dt DTH_TARGET_ID);
    _dispatch_timer_heap_resift heap_key d dt (dt_heap_entry d dt DTH_DEADLINE_ID)
  else None.
End ops.

(** ** The invariant *)

Definition member (d : heap_s) (g : Z) (t : timer) : Prop :=
  exists j, 0 <= j < nodes d /\ node d g j = Some t.

(** The store holds the counted slots. *)
Record wf_store (d : heap_s) : Prop := {
  ws_ok : ss_ok (dth_slots d);
  ws_count : 0 <= dth_count d <= 2 ^ 30;
  ws_even : dth_count d = 2 * nodes d;
  ws_cap : dth_count d <= ss_cap (dth_slots d);
}.

(** The first [n] nodes of heap [g] are full, consistent with the timers'
    entries, and ordered. *)
Record half (key : timer -> Z -> Z) (d : heap_s) (g n : Z) : Prop := {
  wh_full : forall j, 0 <= j < n -> is_Some (node d g j);
  wh_entry : forall j t, 0 <= j < n -> node d g j = Some t -> dt_heap_entry d t g = 2 * j + g;
  wh_heap : heap n (fun j => okey key g (node d g j));
}.
Abbreviation wf_half key d g := (half key d g (nodes d)).

Record wf_heap (key : timer -> Z -> Z) (d : heap_s) : Prop := {
  wf_st : wf_store d;
  wf_h : forall g, 0 <= g < 2 -> wf_half key d g;
  wf_same : forall t, member d 0 t <-> member d 1 t;
  wf_out : forall t g, 0 <= g < 2 -> ~ member d 0 t -> dt_heap_entry d t g = DTH_INVALID_ID;
  wf_empty : dth_count d = 0 -> dth_min0 (dth_slots d) = None /\ dth_min1 (dth_slots d) = None;
}.

(** ** Consequences of the invariant *)

Lemma half_other (g : Z) : 0 <= g < 2 -> g = 0 /\ 1 - g = 1 \/ g = 1 /\ 1 - g = 0.
Proof. lia. Qed.

Lemma member_entry key d g t : wf_half key d g -> member d g t ->
  exists k, 0 <= k < nodes d /\ node d g k = Some t /\ dt_heap_entry d t g = 2 * k + g.
Proof. intros W (j & Hj & Hn). exists j. repeat split; try done; try lia. by apply (wh_entry _ _ _ _ W). Qed.

Lemma member_node_inj key d g n t i j : half key d g n -> 0 <= i < n -> 0 <= j < n ->
  node d g i = Some t -> node d g j = Some t -> i = j.
Proof.
  intros W Hi Hj Hni Hnj. pose proof (wh_entry _ _ _ _ W i t Hi Hni).
  pose proof (wh_entry _ _ _ _ W j t Hj Hnj). lia.
Qed.

Lemma member_ext d d' g : nodes d' = nodes d ->
  (forall j, 0 <= j < nodes d -> node d' g j = node d g j) ->
  forall t, member d' g t <-> member d g t.
Proof.
  intros En Hn t. unfold member. rewrite En. split; intros (j & Hj & Hnj); exists j;
    (split; [done|]); [by rewrite <- Hn|by rewrite Hn].
Qed.

(** The root of heap [g] has the least key. *)
Lemma root_min key d g t u : wf_half key d g -> member d g u -> node d g 0 = Some t ->
  key t g <= key u g.
Proof.
  intros W (j & Hj & Hu) Ht. pose proof (heap_min _ _ j (wh_heap _ _ _ _ W) Hj) as Hm. simpl in Hm.
  by rewrite Ht, Hu in Hm.
Qed.

Lemma node0_min d : node d 0 0 = dth_min0 (dth_slots d) /\ node d 1 0 = dth_min1 (dth_slots d).
Proof. unfold node. split; by rewrite slotval_min. Qed.

(** A resift on one heap restores it and keeps the other. *)
Lemma resift_half key d g dt k :
  wf_store d -> 0 <= g < 2 -> 0 <= k < nodes d ->
  (forall j, 0 <= j < nodes d -> j <> k -> is_Some (node d g j)) ->
  (forall j t, 0 <= j < nodes d -> j <> k -> node d g j = Some t -> dt_heap_entry d t g = 2 * j + g) ->
  heap_but (nodes d) (pkey key g dt d k) k -> ~ others g d k dt ->
  exists d', _dispatch_timer_heap_resift key d dt (2 * k + g) = Some d' /\
    resifted key g dt d k d' /\ wf_store d' /\ nodes d' = nodes d /\ wf_half key d' g /\
    (forall j, 0 <= j < nodes d -> node d' (1 - g) j = node d (1 - g) j) /\
    (forall t, member d' g t <-> t = dt \/ others g d k t).
Proof.
  intros W Hg Hk Hfull Hent Hbut Hnot.
  assert (hole g d k) as Hhole by (constructor; try apply W; done).
  destruct (resift_correct key g Hg dt d k Hhole Hbut Hent Hnot) as (d' & Hr & R).
  assert (nodes d' = nodes d) as En by (unfold nodes; by rewrite (rs_count _ _ _ _ _ _ R)).
  exists d'. do 2 (split; [done|]). split; [|split; [done|split; [|split]]].
  - constructor; rewrite ?En, ?(rs_count _ _ _ _ _ _ R), ?(rs_cap _ _ _ _ _ _ R); try apply W. apply R.
  - constructor; rewrite En; apply R.
  - intros j Hj. apply (rs_other _ _ _ _ _ _ R). pose proof (ws_cap _ W). pose proof (ws_even _ W). lia.
  - intros t. unfold member. rewrite En. apply R.
Qed.

(** Heap [1 - g] rides along. *)
Lemma resift_keeps_other key key' d g dt k d' : wf_store d -> 0 <= g < 2 ->
  resifted key' g dt d k d' -> wf_half key d (1 - g) -> wf_half key d' (1 - g).
Proof.
  intros W Hg R W1.
  assert (nodes d' = nodes d) as En by (unfold nodes; by rewrite (rs_count _ _ _ _ _ _ R)).
  assert (forall j, 0 <= j < nodes d -> node d' (1 - g) j = node d (1 - g) j) as Hn.
  { intros j Hj. apply (rs_other _ _ _ _ _ _ R). pose proof (ws_cap _ W). pose proof (ws_even _ W). lia. }
  constructor; rewrite En.
  - intros j Hj. rewrite Hn by done. by apply W1.
  - intros j t Hj. rewrite Hn by done. rewrite (rs_entry_other _ _ _ _ _ _ R). by apply W1.
  - apply (heap_ext _ (fun j => okey key (1 - g) (node d (1 - g) j))); [|apply W1].
    intros j Hj. by rewrite Hn.
Qed.

(** ** Update *)

(** Resifting a timer in place after its keys changed. *)
Lemma resift_in_place key key' d g dt k :
  wf_store d -> 0 <= g < 2 -> wf_half key d g -> 0 <= k < nodes d -> node d g k = Some dt ->
  (forall t h, t <> dt -> key' t h = key t h) ->
  exists d', _dispatch_timer_heap_resift key' d dt (2 * k + g) = Some d' /\
    resifted key' g dt d k d' /\ wf_store d' /\ nodes d' = nodes d /\ wf_half key' d' g /\
    (forall j, 0 <= j < nodes d -> node d' (1 - g) j = node d (1 - g) j) /\
    (forall t, member d' g t <-> member d g t).
Proof.
  intros Ws Hg W Hk Hn Hkey.
  assert (~ others g d k dt) as Hnot.
  { intros (j & Hj & Hjk & Hnj). apply Hjk. by eapply member_node_inj. }
  destruct (resift_half key' d g dt k) as (d' & Hr & R & Ws' & En & W' & Ho & Hm); try done.
  - intros j Hj _. by apply W.
  - intros j t Hj _. by apply W.
  - apply (heap_but_hole _ (fun j => okey key g (node d g j))).
    + intros j Hj Hjk. destruct (wh_full _ _ _ _ W j Hj) as [t Ht]. rewrite Ht.
      rewrite (pkey_other key' g dt d k j t) by done. simpl. apply Hkey.
      intros ->. apply Hjk. by eapply member_node_inj.
    + apply heap_but_of_heap; [apply W|done].
  - exists d'. do 6 (split; [done|]). intros t. rewrite Hm. split.
    + intros [->|(j & Hj & _ & Hnj)]; [by exists k|by exists j].
    + intros (j & Hj & Hnj). destruct (decide (j = k)) as [->|]; [left; congruence|right; by exists j].
Qed.

(** changing the keys of one armed timer and calling
    [_dispatch_timer_heap_update] restores the double-heap invariant for the
    new keys, keeps the set of timers, and requests reprogramming whenever a
    minimum changed or the updated timer is a minimum. *)
Lemma heap_update_ok key key' d dt :
  wf_heap key d -> member d 0 dt -> (forall t g, t <> dt -> key' t g = key t g) ->
  exists d', _dispatch_timer_heap_update key' d dt = Some d' /\ wf_heap key' d' /\
    dth_count d' = dth_count d /\ (forall t, member d' 0 t <-> member d 0 t) /\
    (forall g, 0 <= g < 2 -> node d' g 0 <> node d g 0 \/ node d' g 0 = Some dt ->
       dth_needs_program d' = true).
Proof.
  intros W Hmem Hkey. pose proof (wf_st _ _ W) as Ws.
  pose proof (proj1 (wf_same _ _ W dt) Hmem) as Hmem1.
  destruct (member_entry key d 0 dt (wf_h _ _ W 0 ltac:(lia)) Hmem) as (k0 & Hk0 & Hn0 & He0).
  destruct (member_entry key d 1 dt (wf_h _ _ W 1 ltac:(lia)) Hmem1) as (k1 & Hk1 & Hn1 & He1).
  pose proof (ws_count _ Ws) as Hct. pose proof (ws_even _ Ws) as Hev.
  destruct (resift_in_place key key' d 0 dt k0) as (d1 & H1 & R1 & Ws1 & En1 & W10 & Ho1 & Hm1);
    try done; try lia; [apply W; lia|].
  pose proof (resift_keeps_other key key' d 0 dt k0 d1 Ws ltac:(lia) R1 (wf_h _ _ W 1 ltac:(lia))) as W11.
  pose proof (rs_entry_other _ _ _ _ _ _ R1) as Heo1. change (1 - 0) with 1 in *.
  assert (dt_heap_entry d1 dt 1 = 2 * k1 + 1) as He1' by (by rewrite Heo1).
  destruct (resift_in_place key key' d1 1 dt k1) as (d2 & H2 & R2 & Ws2 & En2 & W21 & Ho2 & Hm2);
    try done; try lia; [by rewrite Ho1 by done|].
  pose proof (resift_keeps_other key' key' d1 1 dt k1 d2 Ws1 ltac:(lia) R2 W10) as W20.
  pose proof (rs_entry_other _ _ _ _ _ _ R2) as Heo2. change (1 - 1) with 0 in *.
  pose proof (member_ext d d1 1 En1 Ho1) as Hm11. pose proof (member_ext d1 d2 0 En2 Ho2) as Hm20.
  assert (forall t, member d2 0 t <-> member d 0 t) as Hm by (intros t; by rewrite Hm20, Hm1).
  assert (dth_count d2 = dth_count d) as Hc2
    by (rewrite (rs_count _ _ _ _ _ _ R2); apply (rs_count _ _ _ _ _ _ R1)).
  exists d2. split; [|split; [constructor; try done|split; [done|split; [done|]]]].
  - unfold _dispatch_timer_heap_update, DTH_TARGET_ID, DTH_DEADLINE_ID, DTH_INVALID_ID.
    rewrite decide_True by lia. rewrite He0, H1. opt_simpl. by rewrite He1', H2.
  - intros g Hg. by destruct (half_other g Hg) as [[-> _]|[-> _]].
  - intros t. by rewrite Hm, Hm2, Hm11, (wf_same _ _ W).
  - intros t g Hg. rewrite Hm. intros Hno. rewrite <- (wf_out _ _ W t g Hg Hno).
    assert (t <> dt) by (intros ->; done).
    destruct (half_other g Hg) as [[-> _]|[-> _]].
    + rewrite Heo2. apply (rs_entry_out _ _ _ _ _ _ R1); [done|].
      intros (j & Hj & _ & Hnj). apply Hno. by exists j.
    + rewrite <- Heo1. apply (rs_entry_out _ _ _ _ _ _ R2); [done|].
      intros (j & Hj & _ & Hnj). apply Hno. rewrite (wf_same _ _ W), <- Hm11. by exists j.
  - intros Hz. pose proof (rs_count _ _ _ _ _ _ R1). pose proof (rs_count _ _ _ _ _ _ R2). lia.
  - intros g Hg Hmin. destruct (half_other g Hg) as [[-> _]|[-> _]].
    + apply (rs_prog _ _ _ _ _ _ R2), (rs_prog_min _ _ _ _ _ _ R1). by rewrite <- Ho2 by lia.
    + apply (rs_prog_min _ _ _ _ _ _ R2). by rewrite Ho1 by lia.
Qed.

(** ** Insertion *)

(** Resifting a new timer into the next free node. *)
Lemma resift_append key d g dt n :
  wf_store d -> 0 <= g < 2 -> 0 <= n -> nodes d = n + 1 -> half key d g n ->
  (forall j, 0 <= j < n -> node d g j <> Some dt) ->
  exists d', _dispatch_timer_heap_resift key d dt (2 * n + g) = Some d' /\
    resifted key g dt d n d' /\ wf_store d' /\ nodes d' = n + 1 /\ wf_half key d' g /\
    (forall j, 0 <= j < n + 1 -> node d' (1 - g) j = node d (1 - g) j) /\
    (forall t, member d' g t <-> t = dt \/ exists j, 0 <= j < n /\ node d g j = Some t).
Proof.
  intros Ws Hg Hn En W Hnew.
  assert (forall t, others g d n t <-> exists j, 0 <= j < n /\ node d g j = Some t) as Hoth.
  { intros t. unfold others. rewrite En. split.
    - intros (j & ? & ? & ?). exists j. split; [lia|done].
    - intros (j & ? & ?). exists j. split; [lia|]. split; [lia|done]. }
  destruct (resift_half key d g dt n) as (d' & Hr & R & Ws' & En' & W' & Ho & Hm); try done; try lia.
  - intros j Hj Hjn. apply W. lia.
  - intros j t Hj Hjn. apply W. lia.
  - rewrite En. apply heap_but_snoc; [done|]. apply (heap_ext _ (fun j => okey key g (node d g j))); [|apply W].
    intros j Hj. unfold pkey, placed. by rewrite updf_ne by lia.
  - rewrite Hoth. intros (j & Hj & Hnj). by eapply Hnew.
  - exists d'. rewrite En in *. do 6 (split; [done|]). intros t. by rewrite Hm, Hoth.
Qed.

(** After the capacity check there is room for two more slots. *)
Lemma ensure_room s count : ss_ok s -> 0 <= count <= ss_cap s ->
  exists s', (if decide (count + DTH_ID_COUNT > _dispatch_timer_heap_capacity (dth_segments s))
              then _dispatch_timer_heap_grow s else Some s) = Some s' /\
    ss_ok s' /\ count + 2 <= ss_cap s' /\
    (forall idx, 0 <= idx < count -> slotval s' idx = slotval s idx).
Proof.
  simpl. intros [ps Hs] Hc. unfold DTH_ID_COUNT. case_decide as H.
  - destruct (grow_correct ps s Hs) as (s' & p & -> & Hs' & Hseg & Hv).
    exists s'. split; [done|]. split; [by eexists|].
    pose proof (si_len _ _ Hs). pose proof (capacity_mono (dth_segments s) ltac:(lia)).
    rewrite Hseg. split; [lia|]. intros idx Hidx. apply Hv. lia.
  - exists s. split; [done|]. split; [by exists ps|]. split; [lia|done].
Qed.

(** The state between the bookkeeping and the two resifts. *)
Lemma half_transfer key d d' g n : half key d g n -> (forall t, dt_heap_entry d' t g = dt_heap_entry d t g) ->
  (forall j, 0 <= j < n -> node d' g j = node d g j) -> half key d' g n.
Proof.
  intros W He Hn. constructor.
  - intros j Hj. rewrite Hn by done. by apply W.
  - intros j t Hj. rewrite Hn, He by done. by apply W.
  - apply (heap_ext _ (fun j => okey key g (node d g j))); [|apply W]. intros j Hj. by rewrite Hn.
Qed.

(** What insertion promises. *)
Record inserted (key : timer -> Z -> Z) (d : heap_s) (dt : timer) (d' : heap_s) : Prop := {
  ins_wf : wf_heap key d';
  ins_count : dth_count d' = dth_count d + 2;
  ins_mem : forall t, member d' 0 t <-> t = dt \/ member d 0 t;
  ins_prog : forall g, 0 <= g < 2 -> node d' g 0 <> node d g 0 -> dth_needs_program d' = true;
}.

(** The first timer goes to both inline slots. *)
Lemma insert_first key d dt q : wf_heap key d -> dth_count d = 0 ->
  inserted key d dt
    {| dth_count := dth_count d + DTH_ID_COUNT; dth_max_qos := q; dth_needs_program := true;
       dth_slots := set_min (dth_slots d) (Some dt);
       dt_heap_entry := upd_entry (upd_entry (dt_heap_entry d) dt DTH_TARGET_ID DTH_TARGET_ID)
                          dt DTH_DEADLINE_ID DTH_DEADLINE_ID |}.
Proof.
  intros W Hz. set (d' := {| dth_count := _ |}).
  assert (nodes d' = 1) as En by (unfold nodes; simpl; by rewrite Hz).
  assert (nodes d = 0) as En0 by (unfold nodes; by rewrite Hz).
  destruct (node0_min d') as [Hn0 Hn1]. simpl in Hn0, Hn1.
  assert (forall g t, 0 <= g < 2 -> member d' g t <-> t = dt) as Hm.
  { intros g t Hg. unfold member. rewrite En. split.
    - intros (j & Hj & Hnj). replace j with 0 in Hnj by lia.
      destruct (half_other g Hg) as [[-> _]|[-> _]]; congruence.
    - intros ->. exists 0. split; [lia|]. by destruct (half_other g Hg) as [[-> _]|[-> _]]. }
  assert (forall t, ~ member d 0 t) as Hm0 by (intros t (j & Hj & _); lia).
  destruct (wf_st _ _ W) as [[ps Hs] ?? Hcap].
  constructor; [constructor|done| |done].
  - assert (dth_count d' = 2) as Hc2 by (unfold d'; simpl; by rewrite Hz).
    constructor; rewrite ?Hc2, ?En; try lia.
    + exists ps. constructor; apply Hs.
    + pose proof (si_len _ _ Hs). pose proof (capacity_le 0 (dth_segments (dth_slots d)) ltac:(lia)) as Hc.
      change (_dispatch_timer_heap_capacity 0) with 2 in Hc. done.
  - intros g Hg. constructor; rewrite En.
    + intros j Hj. replace j with 0 by lia. destruct (half_other g Hg) as [[-> _]|[-> _]]; by eexists.
    + intros j t Hj Hnj. assert (t = dt) as -> by (apply (Hm g t Hg); exists j; by rewrite En).
      replace j with 0 by lia. simpl. unfold upd_entry, DTH_TARGET_ID, DTH_DEADLINE_ID.
      destruct (half_other g Hg) as [[-> _]|[-> _]]; simpl.
      * rewrite decide_False by lia. by rewrite decide_True.
      * by rewrite decide_True.
    + intros k Hk. lia.
  - intros t. rewrite !Hm by lia. done.
  - intros t g Hg Hno. rewrite Hm in Hno by lia. simpl. rewrite !upd_entry_ne by (by left).
    apply (wf_out _ _ W); [done|apply Hm0].
  - simpl. unfold DTH_ID_COUNT. lia.
  - intros t. rewrite Hm by lia. split; [by left|]. intros [->|Ht]; [done|by destruct (Hm0 t)].
Qed.

(** Later timers are sifted into both heaps from the end. *)
Lemma insert_general key d dt d0 : wf_heap key d -> ~ member d 0 dt -> dth_count d <> 0 ->
  wf_store d0 -> dth_count d0 = dth_count d + 2 -> dt_heap_entry d0 = dt_heap_entry d ->
  (forall idx, 0 <= idx < dth_count d -> slotval (dth_slots d0) idx = slotval (dth_slots d) idx) ->
  exists d1 d2, _dispatch_timer_heap_resift key d0 dt (dth_count d + DTH_TARGET_ID) = Some d1 /\
    _dispatch_timer_heap_resift key d1 dt (dth_count d + DTH_DEADLINE_ID) = Some d2 /\
    inserted key d dt d2.
Proof.
  intros W Hno Hz Ws0 Hc0 He0 Hv. pose proof (wf_st _ _ W) as Ws. pose proof (ws_even _ Ws) as Hev.
  pose proof (ws_count _ Ws) as Hct. pose proof (ws_even _ Ws0) as Hev0.
  assert (nodes d0 = nodes d + 1) as En0 by lia.
  assert (forall g j, 0 <= g < 2 -> 0 <= j < nodes d -> node d0 g j = node d g j) as Hn0
    by (intros; unfold node; apply Hv; lia).
  assert (forall g, 0 <= g < 2 -> half key d0 g (nodes d)) as Wh0.
  { intros g Hg. apply (half_transfer key d); [by apply W|by rewrite He0|]. intros j Hj. by apply Hn0. }
  rewrite Hev. unfold DTH_TARGET_ID, DTH_DEADLINE_ID.
  destruct (resift_append key d0 0 dt (nodes d)) as (d1 & H1 & R1 & Ws1 & En1 & W10 & Ho1 & Hm1);
    try done; try lia; [apply Wh0; lia| |].
  { intros j Hj Hnj. apply Hno. exists j. by rewrite <- Hn0 by lia. }
  pose proof (rs_entry_other _ _ _ _ _ _ R1) as Heo1. change (1 - 0) with 1 in *.
  destruct (resift_append key d1 1 dt (nodes d)) as (d2 & H2 & R2 & Ws2 & En2 & W21 & Ho2 & Hm2);
    try done; try lia.
  { apply (half_transfer key d0); [apply Wh0; lia|done|]. intros j Hj. apply Ho1. lia. }
  { intros j Hj Hnj. apply Hno, (wf_same _ _ W). exists j. rewrite Ho1, Hn0 in Hnj by lia. done. }
  pose proof (resift_keeps_other key key d1 1 dt (nodes d) d2 Ws1 ltac:(lia) R2 W10) as W20.
  pose proof (rs_entry_other _ _ _ _ _ _ R2) as Heo2. change (1 - 1) with 0 in *.
  rewrite <- En1 in Ho2. pose proof (member_ext d1 d2 0 ltac:(lia) Ho2) as Hm20.
  assert (forall g t, 0 <= g < 2 -> (exists j, 0 <= j < nodes d /\ node d0 g j = Some t) <-> member d g t) as Hm0.
  { intros g t Hg. unfold member. split; intros (j & Hj & Hnj); exists j; (split; [done|]);
      [by rewrite <- Hn0|by rewrite Hn0]. }
  assert (forall t, member d2 0 t <-> t = dt \/ member d 0 t) as HM0
    by (intros t; rewrite Hm20, Hm1, Hm0; [done|lia]).
  assert (forall t, member d2 1 t <-> t = dt \/ member d 1 t) as HM1.
  { intros t. rewrite Hm2, <- Hm0 by lia. split; (intros [->|(j & Hj & Hnj)]; [by left|right; exists j]);
      (split; [done|]); [by rewrite <- Ho1 by lia|by rewrite Ho1 by lia]. }
  exists d1, d2. split; [by rewrite ?Z.add_0_r in *|]. split; [done|].
  constructor; [constructor; try done| |done|].
  - intros g Hg. by destruct (half_other g Hg) as [[-> _]|[-> _]].
  - intros t. by rewrite HM0, HM1, (wf_same _ _ W).
  - intros t g Hg. rewrite HM0. intros Hnt. rewrite <- (wf_out _ _ W t g Hg) by tauto.
    rewrite <- He0. destruct (half_other g Hg) as [[-> _]|[-> _]].
    + rewrite Heo2. apply (rs_entry_out _ _ _ _ _ _ R1); [tauto|].
      intros (j & Hj & Hjn & Hnj). apply Hnt. right. apply Hm0; [lia|]. exists j. split; [lia|done].
    + rewrite <- Heo1. apply (rs_entry_out _ _ _ _ _ _ R2); [tauto|].
      intros (j & Hj & Hjn & Hnj). apply Hnt. right. apply (wf_same _ _ W), Hm0; [lia|].
      exists j. split; [lia|]. by rewrite <- Ho1 by lia.
  - intros Hz2. pose proof (rs_count _ _ _ _ _ _ R1). pose proof (rs_count _ _ _ _ _ _ R2). lia.
  - rewrite (rs_count _ _ _ _ _ _ R2), (rs_count _ _ _ _ _ _ R1). done.
  - intros g Hg Hmin. destruct (half_other g Hg) as [[-> _]|[-> _]].
    + apply (rs_prog _ _ _ _ _ _ R2), (rs_prog_min _ _ _ _ _ _ R1). left.
      by rewrite <- Ho2, Hn0 by lia.
    + apply (rs_prog_min _ _ _ _ _ _ R2). left. by rewrite Ho1, Hn0 by lia.
Qed.

(** inserting a timer that is not in the heap succeeds (no memory error, no
    assertion failure, the sift loops terminate), preserves the double-heap
    invariant, adds exactly that timer, and requests reprogramming whenever a
    minimum changed. *)
Lemma heap_insert_ok key d dt qos :
  wf_heap key d -> ~ member d 0 dt -> dth_count d + 2 <= 2 ^ 30 ->
  exists d', _dispatch_timer_heap_insert key d dt qos = Some d' /\ inserted key d dt d'.
Proof.
  intros W Hno Hmax. pose proof (wf_st _ _ W) as Ws.
  pose proof (ws_count _ Ws) as Hct. pose proof (ws_even _ Ws) as Hev. pose proof (ws_cap _ Ws) as Hcap.
  unfold _dispatch_timer_heap_insert.
  rewrite decide_True by (split; apply (wf_out _ _ W); (done || lia)).
  destruct (decide (dth_count d = 0)) as [Hz|Hz].
  { eexists. split; [reflexivity|]. exact (insert_first key d dt _ W Hz). }
  cbn [dth_slots]. destruct (ensure_room (dth_slots d) (dth_count d)) as (s & -> & Hok & Hroom & Hv);
    [apply Ws|lia|]. opt_simpl. set (d0 := with_slots _ s).
  destruct (insert_general key d dt d0) as (d1 & d2 & -> & H2 & Hins); try done.
  - constructor; simpl; try done; unfold DTH_ID_COUNT; try lia.
    unfold nodes. simpl. unfold DTH_ID_COUNT. rewrite Hev. Z.div_mod_to_equations. lia.
  - opt_simpl. by exists d2.
Qed.

(** ** Removal *)

(** One turn of the removal loop, on a heap of [m + 1] nodes counted as [m]. *)
Record removed_one (key : timer -> Z -> Z) (g m : Z) (d : heap_s) (dt : timer) (d' : heap_s) : Prop := {
  ro_store : wf_store d';
  ro_count : dth_count d' = dth_count d;
  ro_cap : ss_cap (dth_slots d') = ss_cap (dth_slots d);
  ro_half : half key d' g m;
  ro_mem : forall t, (exists j, 0 <= j < m /\ node d' g j = Some t) <->
    t <> dt /\ exists j, 0 <= j < m + 1 /\ node d g j = Some t;
  ro_other : forall j, 0 <= j < m + 1 -> node d' (1 - g) j = node d (1 - g) j;
  ro_entry_other : forall t, dt_heap_entry d' t (1 - g) = dt_heap_entry d t (1 - g);
  ro_entry_out : forall t, ~ (exists j, 0 <= j < m + 1 /\ node d g j = Some t) ->
    dt_heap_entry d' t g = dt_heap_entry d t g;
  ro_prog : dth_needs_program d = true -> dth_needs_program d' = true;
  ro_prog_min : node d' g 0 <> node d g 0 -> dth_needs_program d' = true;
}.

Lemma half_prefix key d g n m : m <= n -> half key d g n -> half key d g m.
Proof.
  intros Hm W. constructor.
  - intros j Hj. apply W. lia.
  - intros j t Hj. apply W. lia.
  - eapply heap_prefix; [done|apply W].
Qed.

(** The order of the nodes up to [n] does not depend on the key of a timer that is not
    among them. *)
Lemma half_key_ext key0 key d g n : half key0 d g n ->
  (forall j t, 0 <= j < n -> node d g j = Some t -> key t g = key0 t g) -> half key d g n.
Proof.
  intros W Hk. constructor; [apply W|apply W|]. apply (heap_ext _ (fun j => okey key0 g (node d g j))); [|apply W].
  intros j Hj. destruct (wh_full _ _ _ _ W j Hj) as [t Ht]. rewrite Ht. by apply (Hk j).
Qed.

(** The keys after the removed timer was given new ones: the heap is ordered by [key0]. *)
Definition stale_key (key0 key : timer -> Z -> Z) (dt : timer) : Prop := forall t g, t <> dt -> key t g = key0 t g.

(** The last timer fills the place of the removed one. *)
Lemma remove_one_resift key0 key e d g dt m r lt : stale_key key0 key dt ->
  wf_store e -> 0 <= g < 2 -> nodes e = m -> 0 <= r < m -> half key0 d g (m + 1) ->
  node d g r = Some dt -> node d g m = Some lt -> lt <> dt ->
  dth_count e = dth_count d -> ss_cap (dth_slots e) = ss_cap (dth_slots d) -> 2 * m + 2 <= ss_cap (dth_slots d) ->
  dt_heap_entry e = dt_heap_entry d -> dth_needs_program e = dth_needs_program d ->
  (forall j, 0 <= j < m -> node e g j = node d g j) ->
  (forall j, 0 <= j < m + 1 -> node e (1 - g) j = node d (1 - g) j) ->
  exists d', _dispatch_timer_heap_resift key e lt (2 * r + g) = Some d' /\ removed_one key g m d dt d'.
Proof.
  intros Hkey Ws Hg En Hr W Hdt Hlt Hne Hc Hcap Hroom He Hp Hn Ho.
  assert (forall t, others g e r t <-> t <> dt /\ t <> lt /\ exists j, 0 <= j < m + 1 /\ node d g j = Some t) as Hoth.
  { intros t. unfold others. rewrite En. split.
    - intros (j & Hj & Hjr & Hnj). rewrite Hn in Hnj by done.
      split; [intros ->; apply Hjr; by eapply (member_node_inj key0 d g (m + 1)); try done; lia|].
      split; [intros ->; assert (j = m) by (by eapply (member_node_inj key0 d g (m + 1)); try done; lia); lia|].
      exists j. split; [lia|done].
    - intros (Htd & Htl & j & Hj & Hnj). assert (j <> m) by congruence. exists j.
      split; [lia|]. split; [congruence|]. by rewrite Hn by lia. }
  destruct (resift_half key e g lt r) as (d' & Hres & R & Ws' & En' & W' & Ho' & Hm'); try done; try lia.
  - intros j Hj _. rewrite Hn by lia. apply W. lia.
  - intros j t Hj _. rewrite Hn, He by lia. apply W. lia.
  - rewrite En. apply (heap_but_hole _ (fun j => okey key0 g (node d g j))).
    + intros j Hj Hjr. unfold pkey, placed. rewrite updf_ne, Hn by done.
      destruct (wh_full _ _ _ _ W j ltac:(lia)) as [t Ht]. rewrite Ht. apply Hkey. intros ->.
      apply Hjr. eapply (member_node_inj key0 d g (m + 1)); try done; lia.
    + apply heap_but_of_heap; [|done]. eapply heap_prefix; [|apply W]. lia.
  - rewrite Hoth. tauto.
  - rewrite En in *. exists d'. split; [done|]. constructor; try done.
    + by rewrite (rs_count _ _ _ _ _ _ R).
    + by rewrite (rs_cap _ _ _ _ _ _ R).
    + by rewrite En' in W'.
    + intros t. pose proof (Hm' t) as Hmt. unfold member in Hmt. rewrite En' in Hmt. rewrite Hmt, Hoth.
      split; [|destruct (decide (t = lt)); [by left|tauto]].
      intros [->|?]; [split; [done|]; exists m; split; [lia|done]|tauto].
    + intros j Hj. rewrite (rs_other _ _ _ _ _ _ R); [by apply Ho|]. rewrite Hcap. lia.
    + intros t. rewrite (rs_entry_other _ _ _ _ _ _ R). by rewrite He.
    + intros t Ht. rewrite <- He. apply (rs_entry_out _ _ _ _ _ _ R); [|rewrite Hoth; tauto].
      intros ->. apply Ht. exists m. split; [lia|done].
    + rewrite <- Hp. apply R.
    + intros Hmin. apply (rs_prog_min _ _ _ _ _ _ R). left. by rewrite Hn by lia.
Qed.

Lemma remove_one_correct key0 key d g dt m r : stale_key key0 key dt ->
  wf_store d -> 0 <= g < 2 -> nodes d = m -> 1 <= m -> 2 * m + 2 <= ss_cap (dth_slots d) ->
  half key0 d g (m + 1) -> 0 <= r <= m -> node d g r = Some dt ->
  exists d', heap_remove_one key d dt (2 * m) g = Some d' /\ removed_one key g m d dt d'.
Proof.
  intros Hkey Ws Hg En Hm Hroom W Hr Hdt. destruct (wh_full _ _ _ _ W m ltac:(lia)) as [lt Hlt].
  pose proof (wh_entry _ _ _ _ W r dt ltac:(lia) Hdt) as Hent.
  destruct (ss_store_law (dth_slots d) (2 * m + g) None) as
    (sl & s & Hget & Hst & Hok & Hcap & _ & Hv); [apply Ws|lia|].
  assert (ss_load (dth_slots d) sl = Some lt) as Hload.
  { unfold node, slotval in Hlt. rewrite Hget in Hlt. done. }
  unfold heap_remove_one. rewrite Hget. opt_simpl. rewrite Hload. opt_simpl. rewrite Hst. opt_simpl.
  set (e := with_slots d s).
  assert (forall j, 0 <= j < m -> node e g j = node d g j) as Hn.
  { intros j Hj. unfold node. simpl. rewrite Hv by lia. by rewrite updf_ne by lia. }
  assert (forall j, 0 <= j < m + 1 -> node e (1 - g) j = node d (1 - g) j) as Ho.
  { intros j Hj. unfold node. simpl. rewrite Hv by lia. by rewrite updf_ne by lia. }
  assert (wf_store e) as We.
  { destruct Ws. constructor; try done.
    change (dth_count d <= ss_cap s). by rewrite Hcap. }
  destruct (decide (lt <> dt)) as [Hne|Heq].
  - rewrite Hent. apply (remove_one_resift key0 key e d g dt m r lt); try done.
    assert (r <> m) by congruence. lia.
  - assert (lt = dt) as -> by (destruct (decide (lt = dt)); tauto).
    exists e. split; [done|]. constructor; try done.
    + apply (half_transfer key d); [|done|done]. apply (half_key_ext key0).
      * eapply half_prefix; [|done]. lia.
      * intros j t Hj Hnj. apply Hkey. intros ->.
        assert (j = m); [|lia]. eapply (member_node_inj key0 d g (m + 1)); try done; lia.
    + intros t. split.
      * intros (j & Hj & Hnj). rewrite Hn in Hnj by done. split; [|exists j; split; [lia|done]].
        intros ->. assert (j = m); [|lia]. eapply (member_node_inj key0 d g (m + 1)); try done; lia.
      * intros (Htd & j & Hj & Hnj). assert (j <> m) by congruence.
        exists j. split; [lia|]. by rewrite Hn by lia.
    + rewrite Hn by lia. done.
Qed.

(** What removal promises. *)
Record removed (key : timer -> Z -> Z) (d : heap_s) (dt : timer) (d' : heap_s) : Prop := {
  rem_wf : wf_heap key d';
  rem_count : dth_count d' = dth_count d - 2;
  rem_mem : forall t, member d' 0 t <-> t <> dt /\ member d 0 t;
  rem_prog : forall g, 0 <= g < 2 -> node d' g 0 <> node d g 0 -> dth_needs_program d' = true;
}.

Lemma clear_entry_at d dt t g : 0 <= g < 2 ->
  dt_heap_entry (clear_entry d dt) t g = if decide (t = dt) then DTH_INVALID_ID else dt_heap_entry d t g.
Proof.
  intros Hg. simpl. unfold upd_entry, DTH_TARGET_ID, DTH_DEADLINE_ID.
  repeat case_decide; try done; exfalso; intuition lia.
Qed.

(** Giving back the last segment when the slots left fit in the others. *)
Lemma release_room s count : ss_ok s -> 2 <= count -> count + 2 <= ss_cap s ->
  exists s', (if decide (count <= _dispatch_timer_heap_capacity (dth_segments s - 1))
              then _dispatch_timer_heap_shrink s else Some s) = Some s' /\
    ss_ok s' /\ count <= ss_cap s' /\ (forall idx, 0 <= idx < count -> slotval s' idx = slotval s idx).
Proof.
  simpl. intros [ps Hs] Hc Hcap. case_decide as H.
  - destruct ps as [|p ps _] using rev_ind.
    { pose proof (si_len _ _ Hs) as Hl. simpl in Hl. rewrite Hl in Hcap.
      unfold _dispatch_timer_heap_capacity in Hcap. simpl in Hcap. lia. }
    destruct (shrink_correct ps p s Hs) as (s' & -> & Hs' & Hseg & Hv).
    exists s'. rewrite Hseg. split; [done|]. split; [by exists ps|]. split; [done|].
    intros idx Hidx. apply Hv. lia.
  - exists s. split; [done|]. split; [by exists ps|]. split; [lia|done].
Qed.

(** Removing the only timer. *)
Lemma remove_last key0 key d dt : wf_heap key0 d -> member d 0 dt -> dth_count d = 2 ->
  dth_min0 (dth_slots d) = Some dt /\ dth_min1 (dth_slots d) = Some dt /\
  removed key d dt (clear_entry {| dth_count := dth_count d - DTH_ID_COUNT; dth_max_qos := dth_max_qos d;
     dth_needs_program := true; dth_slots := set_min (dth_slots d) None;
     dt_heap_entry := dt_heap_entry d |} dt).
Proof.
  intros W Hmem Hc. set (d' := clear_entry _ dt).
  assert (nodes d' = 0) as En by (unfold nodes; simpl; by rewrite Hc).
  assert (nodes d = 1) as En1 by (unfold nodes; by rewrite Hc).
  assert (forall g t, member d g t -> node d g 0 = Some t) as H0.
  { intros g t (j & Hj & Hn). by replace j with 0 in Hn by lia. }
  pose proof (H0 0 dt Hmem) as Hm0. pose proof (H0 1 dt (proj1 (wf_same _ _ W dt) Hmem)) as Hm1.
  destruct (node0_min d) as [E0 E1]. rewrite E0 in Hm0. rewrite E1 in Hm1. do 2 (split; [done|]).
  assert (forall g t, ~ member d' g t) as Hno by (intros g t (j & Hj & _); lia).
  destruct (wf_st _ _ W) as [[ps Hs] ?? Hcap].
  assert (dth_count d' = 0) as Hc0 by (unfold d'; simpl; by rewrite Hc).
  constructor; [constructor|unfold d'; simpl; by rewrite Hc| |done].
  - constructor; rewrite ?Hc0, ?En; try lia.
    + exists ps. constructor; apply Hs.
    + pose proof (si_len _ _ Hs). pose proof (capacity_le 0 (dth_segments (dth_slots d)) ltac:(lia)) as Hcp.
      change (_dispatch_timer_heap_capacity 0) with 2 in Hcp. change (0 <= _dispatch_timer_heap_capacity (dth_segments (dth_slots d))). lia.
  - intros g Hg. constructor; rewrite En; intros j **; lia.
  - intros t. split; intros Ht; by destruct (Hno _ _ Ht).
  - intros t g Hg _. unfold d'. rewrite clear_entry_at by done. case_decide; [done|].
    apply (wf_out _ _ W); [done|]. intros Ht. apply H0 in Ht. congruence.
  - done.
  - intros t. split; [intros Ht; by destruct (Hno _ _ Ht)|].
    intros [Ht Hmt]. apply H0 in Hmt. congruence.
Qed.

(** Removing one of several timers. *)
Lemma remove_general key0 key d dt d0 m r0 r1 : stale_key key0 key dt ->
  wf_heap key0 d -> wf_store d0 -> 1 <= m -> nodes d = m + 1 -> nodes d0 = m ->
  dth_slots d0 = dth_slots d -> dt_heap_entry d0 = dt_heap_entry d ->
  0 <= r0 <= m -> 0 <= r1 <= m -> node d 0 r0 = Some dt -> node d 1 r1 = Some dt ->
  exists d1 d2 s, heap_remove_one key d0 dt (2 * m) DTH_TARGET_ID = Some d1 /\
    heap_remove_one key d1 dt (2 * m) DTH_DEADLINE_ID = Some d2 /\
    (if decide (2 * m <= _dispatch_timer_heap_capacity (dth_segments (dth_slots d2) - 1))
     then _dispatch_timer_heap_shrink (dth_slots d2) else Some (dth_slots d2)) = Some s /\
    removed key d dt (clear_entry (with_slots d2 s) dt).
Proof.
  intros Hkey W Ws0 Hm En En0 Hsl He Hr0 Hr1 Hn0 Hn1. pose proof (wf_st _ _ W) as Ws.
  pose proof (ws_even _ Ws) as Hev. pose proof (ws_even _ Ws0) as Hev0. pose proof (ws_cap _ Ws) as Hcap.
  pose proof (ws_count _ Ws) as Hct.
  assert (forall g j, node d0 g j = node d g j) as Hnd by (intros; unfold node; by rewrite Hsl).
  assert (forall g, 0 <= g < 2 -> half key0 d0 g (m + 1)) as Wh.
  { intros g Hg. rewrite <- En. apply (half_transfer key0 d); [by apply W|by rewrite He|done]. }
  unfold DTH_TARGET_ID, DTH_DEADLINE_ID.
  destruct (remove_one_correct key0 key d0 0 dt m r0) as (d1 & H1 & R1); try done; try lia.
  { rewrite Hsl. lia. }
  { apply Wh. lia. }
  { by rewrite Hnd. }
  pose proof (ro_other _ _ _ _ _ _ R1) as Ho1. pose proof (ro_entry_other _ _ _ _ _ _ R1) as Heo1.
  change (1 - 0) with 1 in *.
  assert (nodes d1 = m) as En1 by (unfold nodes; rewrite (ro_count _ _ _ _ _ _ R1); done).
  destruct (remove_one_correct key0 key d1 1 dt m r1) as (d2 & H2 & R2); try done; try lia.
  { apply R1. }
  { rewrite (ro_cap _ _ _ _ _ _ R1), Hsl. lia. }
  { apply (half_transfer key0 d0); [apply Wh; lia|done|done]. }
  { rewrite Ho1, Hnd by lia. done. }
  pose proof (ro_other _ _ _ _ _ _ R2) as Ho2. pose proof (ro_entry_other _ _ _ _ _ _ R2) as Heo2.
  change (1 - 1) with 0 in *.
  assert (nodes d2 = m) as En2 by (unfold nodes; rewrite (ro_count _ _ _ _ _ _ R2); done).
  pose proof (ro_store _ _ _ _ _ _ R2) as Ws2. pose proof (ws_even _ Ws2) as Hev2.
  destruct (release_room (dth_slots d2) (2 * m)) as (s & Hs & Hok & Hcap' & Hv);
    [apply Ws2|lia|rewrite (ro_cap _ _ _ _ _ _ R2), (ro_cap _ _ _ _ _ _ R1), Hsl; lia|].
  exists d1, d2, s. do 3 (split; [done|]). set (d' := clear_entry (with_slots d2 s) dt).
  assert (nodes d' = m) as En' by done.
  assert (forall g j, 0 <= g < 2 -> 0 <= j < m -> node d' g j = node d2 g j) as Hn'
    by (intros; unfold node; simpl; apply Hv; lia).
  assert (forall t, member d' 0 t <-> t <> dt /\ member d 0 t) as HM0.
  { intros t. unfold member. rewrite En', En. setoid_rewrite <- Hnd.
    rewrite <- (ro_mem _ _ _ _ _ _ R1 t). split; intros (j & Hj & Hnj); exists j; (split; [done|]);
      [rewrite Hn', Ho2 in Hnj by lia|rewrite Hn', Ho2 by lia]; done. }
  assert (forall t, member d' 1 t <-> t <> dt /\ member d 1 t) as HM1.
  { intros t. unfold member. rewrite En', En.
    transitivity (t <> dt /\ exists j, 0 <= j < m + 1 /\ node d1 1 j = Some t).
    - rewrite <- (ro_mem _ _ _ _ _ _ R2 t). split; intros (j & Hj & Hnj); exists j; (split; [done|]);
        [rewrite Hn' in Hnj by lia|rewrite Hn' by lia]; done.
    - split; intros (Htd & j & Hj & Hnj); (split; [done|]); exists j; (split; [done|]);
        [rewrite Ho1, Hnd in Hnj by lia|rewrite Ho1, Hnd by lia]; done. }
  assert (forall g, 0 <= g < 2 -> half key d2 g m) as Wh2.
  { intros g Hg. destruct (half_other g Hg) as [[-> _]|[-> _]]; [|apply R2].
    apply (half_transfer key d1); [apply R1|done|]. intros j Hj. apply Ho2. lia. }
  constructor; [constructor|..].
  - constructor; [done|apply Ws2|done|]. change (dth_count d2 <= ss_cap s). by rewrite Hev2, En2.
  - intros g Hg. rewrite En'. destruct (Wh2 g Hg) as [Wf We Wo]. constructor.
    + intros j Hj. rewrite Hn' by done. by apply Wf.
    + intros j t Hj Hnj. pose proof Hnj as Hnj2. rewrite Hn' in Hnj2 by done.
      unfold d'. rewrite clear_entry_at by done. rewrite decide_False; [by apply We|]. intros ->.
      assert (member d' g dt) as Hmd by (exists j; by rewrite En').
      destruct (half_other g Hg) as [[-> _]|[-> _]]; [apply HM0 in Hmd|apply HM1 in Hmd]; tauto.
    + apply (heap_ext _ (fun j => okey key g (node d2 g j))); [|done]. intros j Hj. by rewrite Hn'.
  - intros t. by rewrite HM0, HM1, (wf_same _ _ W).
  - intros t g Hg Hno. unfold d'. rewrite clear_entry_at by done.
    destruct (decide (t = dt)) as [|Htd]; [done|].
    rewrite HM0 in Hno. assert (~ member d 0 t) as Hnt by tauto.
    rewrite <- (wf_out _ _ W t g Hg Hnt), <- He. simpl. destruct (half_other g Hg) as [[-> _]|[-> _]].
    + rewrite Heo2. apply (ro_entry_out _ _ _ _ _ _ R1). intros (j & Hj & Hnj). apply Hnt.
      exists j. rewrite En, <- Hnd. done.
    + rewrite <- Heo1. apply (ro_entry_out _ _ _ _ _ _ R2). intros (j & Hj & Hnj). apply Hnt.
      apply (wf_same _ _ W). exists j. rewrite En, <- Hnd, <- Ho1 by lia. done.
  - intros Hz. simpl in Hz. lia.
  - simpl. lia.
  - done.
  - intros g Hg Hmin. simpl. rewrite Hn' in Hmin by lia. destruct (half_other g Hg) as [[-> _]|[-> _]].
    + apply (ro_prog _ _ _ _ _ _ R2), (ro_prog_min _ _ _ _ _ _ R1). rewrite <- Ho2, Hnd by lia. done.
    + apply (ro_prog_min _ _ _ _ _ _ R2). rewrite Ho1, Hnd by lia. done.
Qed.

(** removing an armed timer succeeds, whatever its own keys are by then, preserves the double-heap invariant,
    removes exactly that timer (and marks its entries invalid), and requests
    reprogramming whenever a minimum changed. *)
Lemma heap_remove_stale key0 key d dt :
  wf_heap key0 d -> stale_key key0 key dt -> member d 0 dt ->
  exists d', _dispatch_timer_heap_remove key d dt = Some d' /\ removed key d dt d'.
Proof.
  intros W Hkey Hmem. pose proof (wf_st _ _ W) as Ws.
  pose proof (ws_count _ Ws) as Hct. pose proof (ws_even _ Ws) as Hev. pose proof (ws_cap _ Ws) as Hcap.
  destruct (member_entry key0 d 0 dt (wf_h _ _ W 0 ltac:(lia)) Hmem) as (r0 & Hr0 & Hn0 & He0).
  destruct (member_entry key0 d 1 dt (wf_h _ _ W 1 ltac:(lia)) (proj1 (wf_same _ _ W dt) Hmem))
    as (r1 & Hr1 & Hn1 & He1).
  unfold _dispatch_timer_heap_remove. rewrite decide_True
    by (unfold DTH_TARGET_ID, DTH_DEADLINE_ID, DTH_INVALID_ID; lia).
  destruct (decide (dth_count d - DTH_ID_COUNT = 0)) as [Hz|Hz]; unfold DTH_ID_COUNT in Hz.
  { destruct (remove_last key0 key d dt W Hmem ltac:(lia)) as (Hm0 & Hm1 & R). cbn [dth_slots].
    rewrite decide_True by done. eexists. split; [reflexivity|]. exact R. }
  set (m := nodes d - 1). set (d0 := {| dth_count := dth_count d - DTH_ID_COUNT |}).
  assert (nodes d0 = m) as En0
    by (unfold nodes, d0; simpl; unfold DTH_ID_COUNT, m, nodes; Z.div_mod_to_equations; lia).
  assert (dth_count d0 = 2 * m) as Hc0 by (unfold d0, m; simpl; unfold DTH_ID_COUNT; lia).
  change (dth_count d - DTH_ID_COUNT) with (dth_count d0). rewrite Hc0.
  destruct (remove_general key0 key d dt d0 m r0 r1) as (d1 & d2 & s & -> & H2 & Hs & R); try done; try lia.
  - constructor; [apply Ws|lia|lia|change (dth_slots d0) with (dth_slots d); lia].
  - opt_simpl. rewrite H2. opt_simpl. rewrite Hs. opt_simpl. by eexists.
Qed.

Lemma heap_remove_ok key d dt :
  wf_heap key d -> member d 0 dt ->
  exists d', _dispatch_timer_heap_remove key d dt = Some d' /\ removed key d dt d'.
Proof. intros W. by apply (heap_remove_stale key key). Qed.

(** ** Refinement of a finite map from armed timers to their keys *)

Abbreviation keymap := (gmap timer (Z * Z)).

Definition keyof (m : keymap) (t : timer) (g : Z) : Z :=
  match m !! t with
  | Some (target, deadline) => if decide (g = DTH_TARGET_ID) then target else deadline
  | None => UINT64_MAX
  end.

Inductive heap_op :=
| OpInsert (t : timer) (target deadline qos : Z)
| OpRemove (t : timer)
| OpUpdate (t : timer) (target deadline : Z).

(** What the client does: insert timers that are not armed, remove or update
    those that are; at most 2^29 timers are armed at once. *)
Definition op_valid (m : keymap) (o : heap_op) : Prop :=
  match o with
  | OpInsert t _ _ _ => m !! t = None /\ 2 * Z.of_nat (size m) + 2 <= 2 ^ 30
  | OpRemove t => is_Some (m !! t)
  | OpUpdate t _ _ => is_Some (m !! t)
  end.

#[export] Instance op_valid_dec m o : Decision (op_valid m o).
Proof. destruct o; simpl; apply _. Defined.

Definition abs_op (m : keymap) (o : heap_op) : keymap :=
  match o with
  | OpInsert t a b _ => <[t := (a, b)]> m
  | OpRemove t => delete t m
  | OpUpdate t a b => <[t := (a, b)]> m
  end.

Definition exec_op (d : heap_s) (m : keymap) (o : heap_op) : option heap_s :=
  match o with
  | OpInsert t _ _ qos => _dispatch_timer_heap_insert (keyof (abs_op m o)) d t qos
  | OpRemove t => _dispatch_timer_heap_remove (keyof m) d t
  | OpUpdate t _ _ => _dispatch_timer_heap_update (keyof (abs_op m o)) d t
  end.

Fixpoint exec_ops (d : heap_s) (m : keymap) (os : list heap_op) : option (heap_s * keymap) :=
  match os with
  | [] => Some (d, m)
  | o :: os => d ← exec_op d m o; exec_ops d (abs_op m o) os
  end.

Fixpoint ops_valid (m : keymap) (os : list heap_op) : Prop :=
  match os with
  | [] => True
  | o :: os => op_valid m o /\ ops_valid (abs_op m o) os
  end.

(** The zero-initialised heap. *)
Definition empty_segs : segs :=
  {| dth_min0 := None; dth_min1 := None; dth_segments := 0; dth_heap := None; seg_mem := ∅ |}.
Definition empty_heap : heap_s :=
  {| dth_count := 0; dth_max_qos := 0; dth_needs_program := false; dth_slots := empty_segs;
     dt_heap_entry := fun _ _ => DTH_INVALID_ID |}.

(** The heap holds exactly the map's timers. *)
Record implements (d : heap_s) (m : keymap) : Prop := {
  im_wf : wf_heap (keyof m) d;
  im_dom : forall t, member d 0 t <-> is_Some (m !! t);
  im_count : dth_count d = 2 * Z.of_nat (size m);
}.

Lemma wf_heap_key_ext key key' d : (forall t g, member d 0 t -> key' t g = key t g) ->
  wf_heap key d -> wf_heap key' d.
Proof.
  intros Hk W. constructor; try apply W. intros g Hg. destruct (wf_h _ _ W g Hg) as [Wf We Wo].
  constructor; [done|done|]. apply (heap_ext _ (fun j => okey key g (node d g j))); [|done].
  intros j Hj. destruct (Wf j Hj) as [t Ht]. rewrite Ht. simpl. apply Hk.
  destruct (half_other g Hg) as [[-> _]|[-> _]]; [|apply (wf_same _ _ W)]; by exists j.
Qed.

Lemma keyof_insert_ne m t u p g : u <> t -> keyof (<[t := p]> m) u g = keyof m u g.
Proof. intros. unfold keyof. by rewrite lookup_insert_ne. Qed.

Lemma keyof_delete_ne m t u g : u <> t -> keyof (delete t m) u g = keyof m u g.
Proof. intros. unfold keyof. by rewrite lookup_delete_ne. Qed.

Lemma empty_implements : implements empty_heap ∅.
Proof.
  assert (forall g t, ~ member empty_heap g t) as Hno by (intros g t (j & Hj & _); change (nodes empty_heap) with 0 in Hj; lia).
  constructor; [constructor|..]; try done.
  - constructor; try done. exists []. constructor; try done. apply NoDup_nil_2.
  - intros g Hg. change (nodes empty_heap) with 0. constructor; [intros; lia..|]. intros k Hk. lia.
  - intros t. split; intros Ht; by destruct (Hno _ _ Ht).
  - intros t. split; [intros Ht; by destruct (Hno _ _ Ht)|]. intros [? Ht]. by rewrite lookup_empty in Ht.
Qed.

(** One operation. *)
Record op_post (d : heap_s) (d' : heap_s) (m' : keymap) (o : heap_op) : Prop := {
  op_impl : implements d' m';
  op_prog : forall g, 0 <= g < 2 -> node d' g 0 <> node d g 0 -> dth_needs_program d' = true;
  op_prog_upd : forall t a b g, o = OpUpdate t a b -> 0 <= g < 2 -> node d' g 0 = Some t ->
    dth_needs_program d' = true;
}.

Lemma exec_op_ok d m o : implements d m -> op_valid m o ->
  exists d', exec_op d m o = Some d' /\ op_post d d' (abs_op m o) o.
Proof.
  intros [W Hdom Hct] Hv. destruct o as [t a b q|t|t a b]; unfold exec_op; cbn [abs_op]; simpl in Hv.
  - destruct Hv as [Hnone Hsz].
    assert (~ member d 0 t) as Hno by (rewrite Hdom, Hnone; by intros [? ?]).
    destruct (heap_insert_ok (keyof (<[t := (a, b)]> m)) d t q) as (d' & -> & R); [|done|lia|].
    { eapply wf_heap_key_ext; [|done]. intros u g Hu. apply keyof_insert_ne. congruence. }
    exists d'. split; [done|]. constructor; [|apply R|done]. constructor.
    + apply R.
    + intros u. rewrite (ins_mem _ _ _ _ R), Hdom, lookup_insert_is_Some'. split; intros [->|?]; auto.
    + rewrite (ins_count _ _ _ _ R), map_size_insert_None by done. lia.
  - destruct (heap_remove_ok (keyof m) d t W) as (d' & -> & R); [by apply Hdom|].
    exists d'. split; [done|]. constructor; [|apply R|done]. constructor.
    + eapply wf_heap_key_ext; [|apply R]. intros u g Hu. apply keyof_delete_ne.
      by apply (rem_mem _ _ _ _ R) in Hu as [? _].
    + intros u. rewrite (rem_mem _ _ _ _ R), Hdom, lookup_delete_is_Some. split; intros [? ?]; auto.
    + rewrite (rem_count _ _ _ _ R). destruct Hv as [p Hp].
      rewrite (map_size_delete_Some t m) by (by eexists). pose proof (map_size_ne_0_lookup_2 m t ltac:(by eexists)). lia.
  - destruct (heap_update_ok (keyof m) (keyof (<[t := (a, b)]> m)) d t W) as (d' & -> & W' & Hc & Hm & Hp);
      [by apply Hdom|intros; by apply keyof_insert_ne|].
    exists d'. split; [done|]. destruct Hv as [p Hpt]. constructor.
    + constructor; [done| |].
      * intros u. rewrite Hm, Hdom, lookup_insert_is_Some'. split; [auto|]. intros [->|?]; [by exists p|done].
      * rewrite (map_size_insert_Some t (a, b) m) by (by eexists). by rewrite <- Hct.
    + intros g Hg Hn. eapply Hp; [done|by left].
    + intros t' a' b' g [= -> _ _] Hg Hn. eapply Hp; [done|by right].
Qed.

(** The two published minima agree with the map. *)
Definition min_agrees (m : keymap) (g : Z) (x : option timer) : Prop :=
  match x with
  | None => m = ∅
  | Some t => is_Some (m !! t) /\ forall u, is_Some (m !! u) -> keyof m t g <= keyof m u g
  end.

Lemma implements_min d m : implements d m ->
  min_agrees m DTH_TARGET_ID (dth_min0 (dth_slots d)) /\
  min_agrees m DTH_DEADLINE_ID (dth_min1 (dth_slots d)).
Proof.
  intros [W Hdom Hct]. destruct (node0_min d) as [<- <-]. pose proof (wf_st _ _ W) as Ws.
  assert (forall g, 0 <= g < 2 -> min_agrees m g (node d g 0)) as H; [|by split; apply H].
  assert (forall g u, 0 <= g < 2 -> member d g u <-> is_Some (m !! u)) as Hdom'.
  { intros g u Hg. destruct (half_other g Hg) as [[-> _]|[-> _]]; [apply Hdom|].
    by rewrite <- (wf_same _ _ W). }
  intros g Hg. unfold min_agrees. destruct (decide (dth_count d = 0)) as [Hz|Hz].
  - destruct (wf_empty _ _ W Hz) as [E0 E1]. assert (node d g 0 = None) as ->.
    { destruct (node0_min d). destruct (half_other g Hg) as [[-> _]|[-> _]]; congruence. }
    apply map_size_empty_inv. lia.
  - pose proof (ws_even _ Ws). pose proof (ws_count _ Ws).
    destruct (wh_full _ _ _ _ (wf_h _ _ W g Hg) 0 ltac:(lia)) as [t Ht]. rewrite Ht. split.
    + apply (Hdom' g); [done|]. exists 0. split; [lia|done].
    + intros u Hu. eapply root_min; [by apply W| |done]. by apply Hdom'.
Qed.

Lemma exec_ops_ok os : forall d m, implements d m -> ops_valid m os ->
  exists d' m', exec_ops d m os = Some (d', m') /\ implements d' m'.
Proof.
  induction os as [|o os IH]; intros d m Hi Hv; simpl.
  - by exists d, m.
  - destruct Hv as [Hv Hvs]. destruct (exec_op_ok d m o Hi Hv) as (d' & -> & R). opt_simpl.
    apply IH; [apply R|done].
Qed.

(** C9: for every sequence of insertions, removals and updates in which only
    armed timers are removed or updated, starting from the zero-initialised
    heap, every operation succeeds (no assertion fails, no slot is accessed
    outside its segment), the heap holds exactly the armed timers with a
    correct position for each, and [dth_min] points to a timer with the least
    target and to one with the least deadline, or is NULL when none is armed. *)
Theorem timer_heap_refines_map (os : list heap_op) :
  ops_valid ∅ os ->
  exists d m, exec_ops empty_heap ∅ os = Some (d, m) /\ implements d m /\
    min_agrees m DTH_TARGET_ID (dth_min0 (dth_slots d)) /\
    min_agrees m DTH_DEADLINE_ID (dth_min1 (dth_slots d)).
Proof.
  intros Hv. destruct (exec_ops_ok os _ _ empty_implements Hv) as (d & m & He & Hi).
  exists d, m. do 2 (split; [done|]). by apply implements_min.
Qed.

(** From any heap that implements a map, an operation that changes one of
    the two minima, and an update after which the updated timer is one of them,
    leaves [dth_needs_program] set, so the event loop reprograms the timer. *)
Theorem timer_heap_reprograms (d : heap_s) (m : keymap) (o : heap_op) :
  implements d m -> op_valid m o ->
  exists d', exec_op d m o = Some d' /\
    (dth_min0 (dth_slots d') <> dth_min0 (dth_slots d) \/
     dth_min1 (dth_slots d') <> dth_min1 (dth_slots d) \/
     (exists t a b, o = OpUpdate t a b /\
        (dth_min0 (dth_slots d') = Some t \/ dth_min1 (dth_slots d') = Some t)) ->
     dth_needs_program d' = true).
Proof.
  intros Hi Hv. destruct (exec_op_ok d m o Hi Hv) as (d' & He & R). exists d'. split; [done|].
  destruct (node0_min d) as [<- <-], (node0_min d') as [<- <-].
  intros [H|[H|(t & a & b & -> & [H|H])]];
    [eapply (op_prog _ _ _ _ R 0)|eapply (op_prog _ _ _ _ R 1)
    |eapply (op_prog_upd _ _ _ _ R _ _ _ 0)|eapply (op_prog_upd _ _ _ _ R _ _ _ 1)]; done || lia.
Qed.

(** The sift loops terminate, after at most as many iterations as the tree has
    levels: in a heap of [size m] armed timers, for any new keys of a timer, both walks
    from its position end within [fuel] iterations as soon as [size m < 2 ^ fuel]. *)
Theorem sift_terminates (d : heap_s) (m : keymap) (key : timer -> Z -> Z) (g : Z) (t : timer) (fuel : nat) :
  implements d m -> is_Some (m !! t) -> 0 <= g < 2 -> Z.of_nat (size m) < 2 ^ Z.of_nat fuel ->
  let idx := dt_heap_entry d t g in
  exists slot, ss_get (dth_slots d) idx = Some slot /\
    is_Some (sift_up key fuel d g t slot idx false) /\ is_Some (sift_down key fuel d g t slot idx).
Proof.
  intros Hi Ht Hg Hfuel idx. pose proof (wf_st _ _ (im_wf _ _ Hi)) as Ws. pose proof (wf_h _ _ (im_wf _ _ Hi) g Hg) as Wh.
  assert (member d g t) as Hm.
  { apply (im_dom _ _ Hi) in Ht. destruct (half_other g Hg) as [[-> _]|[-> _]]; [done|]. by apply (wf_same _ _ (im_wf _ _ Hi)). }
  destruct (member_entry _ _ _ _ Wh Hm) as (k & Hk & _ & He). unfold idx. rewrite He.
  assert (hole g d k) as Hhole by (constructor; try apply Ws; [done|intros j Hj _; by apply (wh_full _ _ _ _ Wh)]).
  pose proof (im_count _ _ Hi). pose proof (ws_even _ Ws).
  destruct (heap_set_node g Hg d k t Hhole) as (slot & _ & Hs & _). exists slot. split; [done|]. split.
  - destruct (sift_up_correct key g Hg t fuel d k slot false Hhole Hs) as (d' & sl' & k' & b' & -> & _); [lia|by eexists].
  - destruct (sift_down_correct key g Hg t fuel d k slot Hhole Hs) as (d' & sl' & k' & -> & _); [nia|by eexists].
Qed.

(** Twelve timers with decreasing targets and increasing deadlines grow the heap
    past its first two segments; one is moved to the end and one is removed. *)
Definition sample_ops : list heap_op :=
  ((fun i => OpInsert i (100 - Z.of_nat i) (200 + Z.of_nat i) 4) <$> seq 1 12) ++
  [OpUpdate 12%nat 300 150; OpRemove 11%nat].

Lemma timer_heap_refines_map_witness :
  exists d m, exec_ops empty_heap ∅ sample_ops = Some (d, m) /\ implements d m /\
    min_agrees m DTH_TARGET_ID (dth_min0 (dth_slots d)) /\
    min_agrees m DTH_DEADLINE_ID (dth_min1 (dth_slots d)).
Proof. apply (timer_heap_refines_map sample_ops). vm_compute. intuition (congruence || eauto). Defined.

Example sample_minima :
  (fun r => (dth_min0 (dth_slots r.1), dth_min1 (dth_slots r.1), dth_segments (dth_slots r.1)))
    <$> exec_ops empty_heap ∅ sample_ops = Some (Some 10%nat, Some 12%nat, 3).
Proof. vm_compute. reflexivity. Qed.

Lemma timer_heap_reprograms_witness :
  exists d', exec_op empty_heap ∅ (OpInsert 1%nat 5 6 0) = Some d' /\ dth_needs_program d' = true.
Proof.
  destruct (timer_heap_reprograms empty_heap ∅ (OpInsert 1%nat 5 6 0) empty_implements) as (d' & He & H);
    [split; [reflexivity|vm_compute; congruence]|].
  exists d'. split; [exact He|]. apply H. left. vm_compute in He. by simplify_eq.
Defined.

(** Ten timers left: four iterations are enough. *)
Lemma sift_terminates_witness :
  exists d m, exec_ops empty_heap ∅ sample_ops = Some (d, m) /\
    exists slot, ss_get (dth_slots d) (dt_heap_entry d 10%nat DTH_TARGET_ID) = Some slot /\
      is_Some (sift_down (fun _ _ => 1000) 4 d DTH_TARGET_ID 10%nat slot (dt_heap_entry d 10%nat DTH_TARGET_ID)).
Proof.
  destruct (exec_ops_ok sample_ops _ _ empty_implements) as (d & m & He & Hi); [vm_compute; intuition (congruence || eauto)|].
  exists d, m. split; [exact He|].
  assert (is_Some (m !! 10%nat) /\ size m = 11%nat) as [Ht Hs] by (vm_compute in He; simplify_eq; split; [by eexists|reflexivity]).
  destruct (sift_terminates d m (fun _ _ => 1000) DTH_TARGET_ID 10%nat 4 Hi Ht) as (slot & H1 & _ & H2);
    [vm_compute; split; congruence|rewrite Hs; reflexivity|]. exists slot. split; [exact H1|exact H2].
Defined.
