(* ===== verification/TimerSource.v ===== *)
(** * Timer sources: flags, configuration and missed intervals

    Models the values of a timer ([struct dispatch_timer_source_s]), the normalisation of
    the flags of a timer source ([_dispatch_source_timer_create] of [src/event/event.c]),
    the configurations that [dispatch_source_set_timer] and [dispatch_after] compute
    ([src/source.c]) and the count of missed intervals
    ([_dispatch_timer_unote_compute_missed] of [src/event/event_internal.h]).  The build is
    the one without timer classes: one heap per clock. *)

From S2P Require Import Prelude Time.

Local Open Scope word_scope.

(** [struct dispatch_timer_source_s]. *)
Record dispatch_timer_source_s := mkTimer { target : Z; deadline : Z; interval : Z }.

Record dispatch_timer_config_s := { dtc_timer : dispatch_timer_source_s; dtc_clock : dispatch_clock_t }.

#[export] Instance dispatch_timer_source_eq_dec : EqDecision dispatch_timer_source_s.
Proof. solve_decision. Defined.
#[export] Instance dispatch_timer_config_eq_dec : EqDecision dispatch_timer_config_s.
Proof. solve_decision. Defined.

Definition DISPATCH_TIMER_DISARMED_MARKER : Z := 1.
Definition LONG_MAX : Z := 2 ^ 63 - 1.
Definition NSEC_PER_MSEC : Z := 1000000.

(** ** Flags *)

Definition DISPATCH_TIMER_STRICT : Z := 0x1.
Definition DISPATCH_TIMER_BACKGROUND : Z := 0x2.
Definition _DISPATCH_TIMER_CLOCK_MASK : Z := 0x3 .<< 2.
Definition DISPATCH_TIMER_INTERVAL : Z := 0x10.
Definition DISPATCH_INTERVAL_UI_ANIMATION : Z := 0x20.
Definition DISPATCH_TIMER_AFTER : Z := 0x40.
Definition DISPATCH_TIMER_IDENT_CANCELED : Z := 2 ^ 32 - 1.

(** The values of the enumeration [dispatch_clock_t]; there is no value 3. *)
Definition clock_value (k : dispatch_clock_t) : Z :=
  match k with DISPATCH_CLOCK_UPTIME => 0 | DISPATCH_CLOCK_MONOTONIC => 1 | DISPATCH_CLOCK_WALL => 2 end.
Definition clock_of_value (z : Z) : dispatch_clock_t :=
  if z =? 0 then DISPATCH_CLOCK_UPTIME else if z =? 1 then DISPATCH_CLOCK_MONOTONIC else DISPATCH_CLOCK_WALL.
Definition DISPATCH_CLOCK_COUNT : Z := 3.

Definition _dispatch_timer_flags_to_clock (flags : Z) : dispatch_clock_t :=
  clock_of_value ((flags .& _DISPATCH_TIMER_CLOCK_MASK) .>> 2).
Definition _dispatch_timer_flags_from_clock (clock : dispatch_clock_t) : Z := clock_value clock .<< 2.

(** One class of timers: the index of a heap is the value of its clock. *)
Definition DISPATCH_TIMER_QOS_COUNT : Z := 1.
Definition DISPATCH_TIMER_INDEX (clock qos : Z) : Z := clock * DISPATCH_TIMER_QOS_COUNT + qos.
Definition DISPATCH_TIMER_CLOCK (tidx : Z) : dispatch_clock_t := clock_of_value (tidx / DISPATCH_TIMER_QOS_COUNT).
Definition DISPATCH_TIMER_COUNT : Z := DISPATCH_TIMER_INDEX DISPATCH_CLOCK_COUNT 0.

Definition _dispatch_timer_unote_idx (du_timer_flags : Z) : Z :=
  DISPATCH_TIMER_INDEX (clock_value (_dispatch_timer_flags_to_clock du_timer_flags)) 0.

(** The four types of timer sources. *)
Inductive timer_type :=
| TypeTimer                 (* _dispatch_source_type_timer *)
| TypeTimerWithClock        (* _dispatch_source_type_timer_with_clock *)
| TypeAfter                 (* _dispatch_source_type_after *)
| TypeInterval.             (* _dispatch_source_type_interval *)

#[export] Instance timer_type_eq_dec : EqDecision timer_type.
Proof. solve_decision. Defined.

(** Whether [dst_filter] is DISPATCH_EVFILT_TIMER_WITH_CLOCK. *)
Definition type_with_clock (dst : timer_type) : bool := match dst with TypeTimer => false | _ => true end.
Definition dst_mask (dst : timer_type) : Z :=
  match dst with
  | TypeTimer | TypeTimerWithClock => DISPATCH_TIMER_STRICT .| DISPATCH_TIMER_BACKGROUND
  | TypeAfter => 0
  | TypeInterval => DISPATCH_TIMER_STRICT .| DISPATCH_TIMER_BACKGROUND .| DISPATCH_INTERVAL_UI_ANIMATION
  end.
Definition dst_timer_flags (dst : timer_type) : Z :=
  match dst with
  | TypeAfter => DISPATCH_TIMER_AFTER
  | TypeInterval => DISPATCH_TIMER_INTERVAL .| _dispatch_timer_flags_from_clock DISPATCH_CLOCK_UPTIME
  | _ => 0
  end.

Definition DISPATCH_CLOCKID_UPTIME : Z := 1.
Definition DISPATCH_CLOCKID_MONOTONIC : Z := 2.
Definition DISPATCH_CLOCKID_WALLTIME : Z := 3.

(** The type, the flags and the heap of a new timer; [None] is DISPATCH_UNOTE_NULL. *)
Definition _dispatch_source_timer_create (dst : timer_type) (handle mask : Z) : option (timer_type * Z * Z) :=
  let mask := if decide (mask .& DISPATCH_TIMER_STRICT <> 0) then Z.ldiff mask DISPATCH_TIMER_BACKGROUND else mask in
  if decide (Z.ldiff mask (dst_mask dst) <> 0) then None
  else
    let make dst mask :=
      let flags := u8 (mask .| dst_timer_flags dst) in
      Some (dst, flags, _dispatch_timer_unote_idx flags) in
    if decide (dst_timer_flags dst .& DISPATCH_TIMER_INTERVAL <> 0) then
      if decide (handle = 0) then None else make dst mask
    else if type_with_clock dst then if decide (handle <> 0) then None else make dst mask
    else if decide (handle = 0) then make dst mask
    else if decide (handle = DISPATCH_CLOCKID_UPTIME) then
      make TypeTimerWithClock (mask .| _dispatch_timer_flags_from_clock DISPATCH_CLOCK_UPTIME)
    else if decide (handle = DISPATCH_CLOCKID_MONOTONIC) then
      make TypeTimerWithClock (mask .| _dispatch_timer_flags_from_clock DISPATCH_CLOCK_MONOTONIC)
    else if decide (handle = DISPATCH_CLOCKID_WALLTIME) then
      make TypeTimerWithClock (mask .| _dispatch_timer_flags_from_clock DISPATCH_CLOCK_WALL)
    else None.

(** ** Configuration *)

Definition _dispatch_timer_config_create (c : clocks) (start interval leeway du_timer_flags : Z)
    : dispatch_timer_config_s :=
  let interval :=
    if decide (interval = 0) then 1 else if decide (i64 interval < 0) then INT64_MAX else interval in
  let leeway := if decide (i64 leeway < 0) then INT64_MAX else leeway in
  let '(clock, target) :=
    if decide (start = DISPATCH_TIME_FOREVER) then (_dispatch_timer_flags_to_clock du_timer_flags, INT64_MAX)
    else
      let '(clock, target) := _dispatch_time_to_clock_and_value c start in
      if decide (target = DISPATCH_TIME_NOW) then
        (clock, if decide (clock = DISPATCH_CLOCK_UPTIME) then _dispatch_uptime c else _dispatch_monotonic_time c)
      else (clock, target) in
  let '(interval, leeway) :=
    if decide (clock <> DISPATCH_CLOCK_WALL) then
      let interval := _dispatch_time_nano2mach interval in
      (if decide (interval < 1) then 1 else interval, _dispatch_time_nano2mach leeway)
    else (interval, leeway) in
  let leeway := if decide (interval < INT64_MAX /\ leeway > interval / 2) then interval / 2 else leeway in
  {| dtc_timer := {| target := target;
       deadline := if decide (u64 (target + leeway) < INT64_MAX) then u64 (target + leeway) else INT64_MAX;
       interval := interval |};
     dtc_clock := clock |}.

Definition NSEC_PER_FRAME : Z := NSEC_PER_SEC / 60.
Definition FOREVER_NSEC : Z := 31536000000000000.

Definition _dispatch_interval_config_create (c : clocks) (start interval leeway du_timer_flags : Z)
    : outcome dispatch_timer_config_s :=
  let animation := bool_decide (du_timer_flags .& DISPATCH_INTERVAL_UI_ANIMATION <> 0) in
  if decide (start = DISPATCH_TIME_FOREVER) then
    Done {| dtc_timer := {| target := INT64_MAX; deadline := INT64_MAX; interval := INT64_MAX |};
            dtc_clock := DISPATCH_CLOCK_UPTIME |}
  else if decide (start <> DISPATCH_TIME_NOW) then Crash ClientCrash
  else if decide (interval = 0) then Crash ClientCrash
  else
    let unit := if animation then NSEC_PER_FRAME else NSEC_PER_MSEC in
    let interval := if decide (interval <= FOREVER_NSEC / unit) then u64 (interval * unit) else FOREVER_NSEC in
    let interval := _dispatch_time_nano2mach interval in
    let start := u64 (_dispatch_uptime c + interval) in
    let start := u64 (start - start mod interval) in
    let finish leeway :=
      Done {| dtc_timer := {| target := start; deadline := u64 (start + leeway); interval := interval |};
              dtc_clock := DISPATCH_CLOCK_UPTIME |} in
    if decide (leeway <= 1000) then finish (u64 (interval * leeway) / 1000)
    else if decide (leeway <> UINT64_MAX) then Crash ClientCrash
    else finish (if animation then _dispatch_time_nano2mach NSEC_PER_FRAME else interval / 2).

(** What [dispatch_source_set_timer] stores in [dt_pending_config]. *)
Definition set_timer_config (c : clocks) (dst : timer_type) (du_timer_flags start interval leeway : Z)
    : outcome dispatch_timer_config_s :=
  let dtc :=
    if decide (du_timer_flags .& DISPATCH_TIMER_INTERVAL <> 0)
    then _dispatch_interval_config_create c start interval leeway du_timer_flags
    else Done (_dispatch_timer_config_create c start interval leeway du_timer_flags) in
  match dtc with
  | Done dtc =>
      if decide (_dispatch_timer_flags_to_clock du_timer_flags <> dtc_clock dtc /\ type_with_clock dst = true)
      then Crash ClientCrash else Done dtc
  | Crash e => Crash e
  end.

(** [_dispatch_after]: nothing for DISPATCH_TIME_FOREVER, [dispatch_async] when the time is
    past, else a one-shot timer with its flags. *)
Inductive after_result := AfterNothing | AfterAsync | AfterTimer (du_timer_flags : Z) (dt_timer : dispatch_timer_source_s).

Definition _dispatch_after (c : clocks) (when : Z) : after_result :=
  if decide (when = DISPATCH_TIME_FOREVER) then AfterNothing
  else
    let delta := _dispatch_timeout c when in
    if decide (delta = 0) then AfterAsync
    else
      let leeway := delta / 10 in
      let leeway := if decide (leeway < NSEC_PER_MSEC) then NSEC_PER_MSEC else leeway in
      let leeway := if decide (leeway > 60 * NSEC_PER_SEC) then 60 * NSEC_PER_SEC else leeway in
      let '(clock, target) := _dispatch_time_to_clock_and_value c when in
      let leeway := if decide (clock <> DISPATCH_CLOCK_WALL) then _dispatch_time_nano2mach leeway else leeway in
      AfterTimer (dst_timer_flags TypeAfter .| _dispatch_timer_flags_from_clock clock)
        {| target := target; deadline := u64 (target + leeway); interval := UINT64_MAX |}.

(** ** Missed intervals *)

(** The new count and the timer moved past [now]. *)
Definition _dispatch_timer_unote_compute_missed (dt : dispatch_timer_source_s) (now prev : Z)
    : Z * dispatch_timer_source_s :=
  let missed := u64 (now - target dt) / interval dt in
  let missed := u64 (missed + 1) in
  let missed := if decide (u64 (missed + prev) > LONG_MAX) then u64 (LONG_MAX - prev) else missed in
  let dt :=
    if decide (interval dt < INT64_MAX) then
      let push_by := u64 (missed * interval dt) in
      {| target := u64 (target dt + push_by); deadline := u64 (deadline dt + push_by); interval := interval dt |}
    else {| target := UINT64_MAX; deadline := UINT64_MAX; interval := interval dt |} in
  (u64 (prev + missed), dt).

(** The data of a disarmed timer: what was pending, and what was missed since. *)
Definition _dispatch_source_timer_data (dt : dispatch_timer_source_s) (now prev : Z) : Z * dispatch_timer_source_s :=
  let data := prev .>> 1 in
  if decide (target dt < INT64_MAX) then
    if decide (now >= target dt) then _dispatch_timer_unote_compute_missed dt now data else (data, dt)
  else (data, dt).

(** ** Lemmas *)

Lemma clock_of_clock_value k : clock_of_value (clock_value k) = k.
Proof. by destruct k. Qed.

Lemma clock_value_range k : 0 <= clock_value k < DISPATCH_TIMER_COUNT.
Proof. by destruct k. Qed.

Lemma flags_clock_roundtrip k : _dispatch_timer_flags_to_clock (_dispatch_timer_flags_from_clock k) = k.
Proof. by destruct k. Qed.

Lemma timer_idx_range flags : 0 <= _dispatch_timer_unote_idx flags < DISPATCH_TIMER_COUNT.
Proof.
  unfold _dispatch_timer_unote_idx. destruct (_dispatch_timer_flags_to_clock flags); by vm_compute.
Qed.

Lemma timer_idx_clock flags : DISPATCH_TIMER_CLOCK (_dispatch_timer_unote_idx flags) = _dispatch_timer_flags_to_clock flags.
Proof. unfold _dispatch_timer_unote_idx. by destruct (_dispatch_timer_flags_to_clock flags). Qed.

Ltac timer_unfold := unfold LONG_MAX, NSEC_PER_MSEC, NSEC_PER_FRAME, FOREVER_NSEC, NSEC_PER_SEC in *; time_unfold.

(** *** The grid of a repeating timer *)

(** The number of points [first + i * step], [i >= 0], up to [now]. *)
Definition points (first step now : Z) : Z := if decide (now < first) then 0 else (now - first) / step + 1.

Definition shift (dt : dispatch_timer_source_s) (n : Z) : dispatch_timer_source_s :=
  {| target := target dt + n * interval dt; deadline := deadline dt + n * interval dt; interval := interval dt |}.

(** A repeating timer at [now], away from the end of the 64-bit range. *)
Record repeating (dt : dispatch_timer_source_s) (now : Z) : Prop := {
  rep_target : 0 <= target dt;
  rep_deadline : target dt <= deadline dt;
  rep_interval : 1 <= interval dt < INT64_MAX;
  rep_now : 0 <= now < 2 ^ 62;
  rep_room : now + interval dt + (deadline dt - target dt) < 2 ^ 64;
}.

Lemma points_range first step now : 1 <= step -> 0 <= points first step now.
Proof. intros. unfold points. case_decide; [lia|]. pose proof (Z.div_pos (now - first) step). lia. Qed.

Lemma points_next first step now : 1 <= step -> first <= now ->
  now < first + points first step now * step <= now + step.
Proof.
  intros Hs Hn. unfold points. rewrite decide_False by lia.
  pose proof (Z.div_mod (now - first) step). pose proof (Z.mod_pos_bound (now - first) step). lia.
Qed.

(** Counting up to [now] and then from the shifted timer up to [now'] counts up to [now']. *)
Lemma points_split first step now now' : 1 <= step -> now <= now' ->
  points first step now + points (first + points first step now * step) step now' = points first step now'.
Proof.
  intros Hs Hn. unfold points. destruct (decide (now < first)) as [H1|H1].
  - by rewrite Z.mul_0_l, Z.add_0_r.
  - rewrite (decide_False (P := now' < first)) by lia. set (q := (now - first) / step).
    replace (now' - (first + (q + 1) * step)) with ((now' - first) + (-(q + 1)) * step) by lia.
    rewrite Z.div_add by lia. pose proof (Z.div_le_mono (now - first) (now' - first) step).
    pose proof (Z.div_mod (now' - first) step). pose proof (Z.mod_pos_bound (now' - first) step).
    destruct (decide (now' < first + (q + 1) * step)); [|lia]. assert ((now' - first) / step < q + 1) by (apply Z.div_lt_upper_bound; lia). lia.
Qed.

Lemma compute_missed_shift dt now prev : repeating dt now -> target dt <= now -> 0 <= prev ->
  prev + points (target dt) (interval dt) now <= LONG_MAX ->
  _dispatch_timer_unote_compute_missed dt now prev =
    (prev + points (target dt) (interval dt) now, shift dt (points (target dt) (interval dt) now)).
Proof.
  intros [H1 H2 H3 H4 H5] Hn Hp Hb. pose proof (points_next (target dt) (interval dt) now ltac:(lia) Hn) as Hx.
  pose proof (points_range (target dt) (interval dt) now ltac:(lia)) as Hr.
  unfold _dispatch_timer_unote_compute_missed, shift. timer_unfold.
  assert (u64 (u64 (now - target dt) / interval dt + 1) = points (target dt) (interval dt) now) as ->.
  { unfold points in *. rewrite decide_False in * by lia.
    pose proof (Z.div_le_upper_bound (now - target dt) (interval dt) (now - target dt)).
    pose proof (Z.div_pos (now - target dt) (interval dt)).
    rewrite (wrap_small 64 (now - target dt)) by lia. by apply wrap_small; nia. }
  set (n := points (target dt) (interval dt) now) in *. clearbody n.
  rewrite (wrap_small 64 (n + prev)) by lia. rewrite decide_False by lia.
  unfold INT64_MAX in *. rewrite decide_True by lia. rewrite (wrap_small 64 (prev + n)) by lia.
  rewrite (wrap_small 64 (n * interval dt)) by lia. rewrite !wrap_small by lia. done.
Qed.

Lemma shift_repeating dt now now' n : repeating dt now -> 0 <= n -> 0 <= now' <= now -> repeating (shift dt n) now'.
Proof. intros [H1 H2 H3 H4 H5] Hn Hl. constructor; simpl; nia. Qed.

Lemma shift_shift dt n m : shift (shift dt n) m = shift dt (n + m).
Proof. unfold shift. simpl. f_equal; lia. Qed.

Lemma shift_0 dt : shift dt 0 = dt.
Proof. destruct dt. unfold shift. simpl. by rewrite !Z.add_0_r. Qed.

Lemma points_le first step now : 1 <= step -> 0 <= first -> 0 <= now -> points first step now <= now + 1.
Proof.
  intros. unfold points. case_decide; [lia|]. pose proof (Z.div_le_upper_bound (now - first) step now). nia.
Qed.

(** The event loop looks at the timer at the reading [now], the handler takes the count. *)
Definition fire (st : Z * dispatch_timer_source_s) (now : Z) : Z * dispatch_timer_source_s :=
  let '(n, dt) := st in
  if decide (target dt <= now) then let '(m, dt) := _dispatch_timer_unote_compute_missed dt now 0 in (n + m, dt)
  else (n, dt).

Lemma fire_points dt last now m x : repeating dt now -> 0 <= x <= now -> last <= now ->
  m = points (target dt) (interval dt) last -> fire (m, shift dt m) x =
    (points (target dt) (interval dt) (Z.max last x), shift dt (points (target dt) (interval dt) (Z.max last x))).
Proof.
  intros H Hx Hl ->. pose proof H as [H1 H2 H3 H4 H5]. set (n := points (target dt) (interval dt) last).
  assert (0 <= n) as Hn by (apply points_range; lia). unfold fire.
  pose proof (shift_repeating dt now x n H Hn Hx) as Hr.
  assert (last < target (shift dt n)) as Hafter.
  { simpl. unfold n. destruct (decide (last < target dt)).
    - unfold points. rewrite decide_True by lia. lia.
    - apply points_next; lia. }
  destruct (decide (target (shift dt n) <= x)) as [Ht|Ht].
  - assert (Z.max last x = x) as -> by lia.
    pose proof (points_le (target (shift dt n)) (interval dt) x ltac:(lia) ltac:(destruct Hr; lia) ltac:(lia)).
    rewrite compute_missed_shift; [|done|done|lia|timer_unfold; simpl in *; lia].
    rewrite shift_shift. simpl. rewrite Z.add_0_l.
    pose proof (points_split (target dt) (interval dt) last x ltac:(lia) ltac:(lia)) as Hs.
    fold n in Hs. by rewrite Hs.
  - assert (points (target dt) (interval dt) (Z.max last x) = n) as ->; [|done].
    destruct (Z.max_spec last x) as [[Hc ->]|[Hc ->]]; [|done].
    pose proof (points_split (target dt) (interval dt) last x ltac:(lia) ltac:(lia)) as Hs. fold n in Hs.
    rewrite <- Hs. simpl in Ht. unfold points at 1. rewrite decide_True by lia. lia.
Qed.

(** C29: a repeating timer counts every interval exactly once.  However the readings of the
    clock fall at which the event loop looks at the timer, the counts it hands to the handler
    add up to the number of points [target + i * interval] up to the latest reading, and the
    timer has been moved by whole intervals to the first point after it, with its leeway. *)
Theorem repeating_timer_counts dt now (readings : list Z) :
  repeating dt now -> Forall (fun x => 0 <= x <= now) readings ->
  let n := points (target dt) (interval dt) (foldl Z.max (-1) readings) in
  foldl fire (0, dt) readings = (n, shift dt n).
Proof.
  intros H Hr. cbv zeta.
  assert (forall last, last <= now -> foldl fire (points (target dt) (interval dt) last, shift dt (points (target dt) (interval dt) last)) readings =
    (points (target dt) (interval dt) (foldl Z.max last readings), shift dt (points (target dt) (interval dt) (foldl Z.max last readings)))) as Hgen.
  { induction Hr as [|x l Hx Hl IH]; intros last Hlast; [done|]. cbn [foldl].
    rewrite (fire_points dt last now) by done. apply IH. lia. }
  pose proof H as [H1 H2 H3 H4 H5]. specialize (Hgen (-1) ltac:(lia)).
  assert (points (target dt) (interval dt) (-1) = 0) as E by (unfold points; by rewrite decide_True by lia).
  by rewrite E, shift_0 in Hgen.
Qed.

Lemma repeating_timer_counts_witness :
  foldl fire (0, {| target := 100; deadline := 105; interval := 10 |}) [50; 100; 104; 131; 120; 139]
    = (4, {| target := 140; deadline := 145; interval := 10 |}).
Proof.
  apply (repeating_timer_counts {| target := 100; deadline := 105; interval := 10 |} 1000).
  - constructor; vm_compute; try split; discriminate || reflexivity.
  - repeat constructor; lia.
Defined.

(** ** Configurations *)

(** The interval a client asks for. *)
Definition client_interval (interval : Z) : Z := Z.max 1 (Z.min interval INT64_MAX).
(** Its leeway, at most half the interval of a repeating timer. *)
Definition client_leeway (interval leeway : Z) : Z :=
  let leeway := Z.min leeway INT64_MAX in
  if decide (client_interval interval < INT64_MAX) then Z.min leeway (client_interval interval / 2) else leeway.

Lemma i64_neg_clamp z : in_u 64 z -> (if decide (i64 z < 0) then INT64_MAX else z) = Z.min z INT64_MAX.
Proof.
  intros Hz. unfold in_u in Hz. destruct (decide (i64 z < 0)) as [H|H]; rewrite (i64_neg z Hz) in H; unfold INT64_MAX; lia.
Qed.

Lemma config_create_eq c start itv lw flags : in_u 64 itv -> in_u 64 lw ->
  exists clock tgt,
    (clock, tgt) = (if decide (start = DISPATCH_TIME_FOREVER) then (_dispatch_timer_flags_to_clock flags, INT64_MAX)
      else let '(clock, target) := _dispatch_time_to_clock_and_value c start in
        if decide (target = DISPATCH_TIME_NOW) then
          (clock, if decide (clock = DISPATCH_CLOCK_UPTIME) then _dispatch_uptime c else _dispatch_monotonic_time c)
        else (clock, target)) /\
    _dispatch_timer_config_create c start itv lw flags =
      {| dtc_timer := {| target := tgt;
           deadline := (let e := u64 (tgt + client_leeway itv lw) in if decide (e < INT64_MAX) then e else INT64_MAX);
           interval := client_interval itv |}; dtc_clock := clock |}.
Proof.
  intros Hi Hl. unfold _dispatch_timer_config_create.
  destruct (if decide (start = DISPATCH_TIME_FOREVER) then _ else _) as [clock tgt]. exists clock, tgt. split; [done|].
  rewrite (i64_neg_clamp itv Hi), (i64_neg_clamp lw Hl). timer_unfold.
  assert ((if decide (itv = 0) then 1 else Z.min itv INT64_MAX) = client_interval itv) as ->.
  { unfold client_interval, in_u, INT64_MAX in *. case_decide; lia. }
  assert (1 <= client_interval itv) as Hci by (unfold client_interval; lia).
  assert ((if decide (client_interval itv < INT64_MAX /\ Z.min lw INT64_MAX > client_interval itv / 2)
    then client_interval itv / 2 else Z.min lw INT64_MAX) = client_leeway itv lw) as El.
  { unfold client_leeway. repeat case_decide; lia. }
  destruct (decide (clock <> DISPATCH_CLOCK_WALL)).
  - rewrite (decide_False (P := client_interval itv < 1)) by lia. by rewrite El.
  - by rewrite El.
Qed.

Lemma client_leeway_range itv lw : in_u 64 itv -> in_u 64 lw -> 0 <= client_leeway itv lw <= INT64_MAX.
Proof.
  unfold in_u. intros Hi Hl. unfold client_leeway. pose proof (Z.div_pos (client_interval itv) 2).
  case_decide; unfold client_interval, INT64_MAX in *; lia.
Qed.

(** What [dispatch_source_set_timer] asks for.  The interval is clamped to the positive
    64-bit range.  A start that denotes an instant of a clock gives a timer on that clock
    with that target, and a deadline that adds the leeway, cut to half the interval and to
    the end of the range; a start that denotes no instant gives a target that is never
    armed. *)
Theorem timer_config_denotes c start itv lw flags :
  wf_clocks c -> in_u 64 start -> in_u 64 itv -> in_u 64 lw ->
  let cfg := _dispatch_timer_config_create c start itv lw flags in
  interval (dtc_timer cfg) = client_interval itv /\
  match denote c start with
  | Forever => INT64_MAX <= target (dtc_timer cfg)
  | At k v => dtc_clock cfg = k /\ target (dtc_timer cfg) = v /\ 0 < v < INT64_MAX /\
      deadline (dtc_timer cfg) = Z.min (v + client_leeway itv lw) INT64_MAX /\
      target (dtc_timer cfg) <= deadline (dtc_timer cfg)
  end.
Proof.
  intros Hc Hs Hi Hl. cbv zeta. destruct (config_create_eq c start itv lw flags Hi Hl) as (clock & tgt & E & ->).
  split; [done|]. pose proof (client_leeway_range itv lw Hi Hl) as Hr.
  destruct (decoded_total c start Hs) as [a Ha]. rewrite (denote_decoded c start a Hc Ha).
  destruct (decoded_raw c start a Hc Ha) as [[-> [->|[Hne [k Hk]]]]|(k & v & -> & Hne & Hv & Hw & Hk)].
  - rewrite decide_True in E by done. injection E as -> ->. done.
  - rewrite decide_False, Hk in E by done. simpl in E. injection E as -> ->. simpl. timer_unfold. unfold INT64_MAX. lia.
  - rewrite decide_False in E by done.
    assert (clock = k /\ tgt = v) as [-> ->].
    { destruct Hk as [Hk|(Hkw & -> & Hk)]; rewrite Hk in E.
      - rewrite decide_False in E by (timer_unfold; lia). by injection E.
      - rewrite decide_True in E by done. injection E as -> ->. split; [done|]. destruct k; try done. }
    simpl. unfold INT64_MAX in *. rewrite wrap_small by lia. split_and!; try done; try lia; case_decide; lia.
Qed.

Lemma timer_config_denotes_witness :
  _dispatch_timer_config_create sample_clocks 5000 1000 (2 ^ 64 - 1) 0 =
    {| dtc_timer := {| target := 5000; deadline := 5500; interval := 1000 |}; dtc_clock := DISPATCH_CLOCK_UPTIME |} /\
  dtc_clock (_dispatch_timer_config_create sample_clocks 5000 1000 (2 ^ 64 - 1) 0) = DISPATCH_CLOCK_UPTIME.
Proof.
  split; [vm_compute; reflexivity|].
  destruct (timer_config_denotes sample_clocks 5000 1000 (2 ^ 64 - 1) 0 sample_clocks_wf) as [_ H];
    [unfold in_u; lia..|]. replace (denote sample_clocks 5000) with (At DISPATCH_CLOCK_UPTIME 5000) in H by (vm_compute; reflexivity).
  apply H.
Defined.

(** The length in nanoseconds of [n] units, at most a year. *)
Definition interval_length (flags n : Z) : Z :=
  let unit := if bool_decide (flags .& DISPATCH_INTERVAL_UI_ANIMATION <> 0) then NSEC_PER_FRAME else NSEC_PER_MSEC in
  if decide (n <= FOREVER_NSEC / unit) then n * unit else FOREVER_NSEC.

Lemma interval_length_range flags n : 0 < n -> 1 <= interval_length flags n <= FOREVER_NSEC.
Proof.
  intros Hn. unfold interval_length. cbv zeta. timer_unfold.
  destruct (bool_decide (flags .& DISPATCH_INTERVAL_UI_ANIMATION <> 0)); case_decide; try lia.
  - change (1000000000 / 60) with 16666666 in *. change (31536000000000000 / 16666666) with 1892160075 in *. lia.
  - change (31536000000000000 / 1000000) with 31536000000 in *. lia.
Qed.

(** The round-up of [now] to the grid of the multiples of [len]. *)
Lemma grid_next now len : 0 <= now < 2 ^ 62 -> 1 <= len <= FOREVER_NSEC ->
  let start := u64 (now + len) in let start := u64 (start - start mod len) in
  start mod len = 0 /\ now < start <= now + len.
Proof.
  timer_unfold. intros Hn Hl. cbv zeta. rewrite (wrap_small 64 (now + len)) by lia.
  pose proof (Z.mod_pos_bound (now + len) len). pose proof (Z.div_mod (now + len) len).
  rewrite wrap_small by lia.
  replace (now + len - (now + len) mod len) with ((now + len) / len * len) by lia.
  split; [apply Z.mod_mul; lia|]. lia.
Qed.

Lemma interval_config_eq c itv lw flags : 0 < itv < 2 ^ 64 -> 0 <= lw <= 1000 ->
  let len := interval_length flags itv in
  let start := u64 (_dispatch_uptime c + len) in let start := u64 (start - start mod len) in
  _dispatch_interval_config_create c DISPATCH_TIME_NOW itv lw flags =
    Done {| dtc_timer := {| target := start; deadline := u64 (start + u64 (len * lw) / 1000); interval := len |};
            dtc_clock := DISPATCH_CLOCK_UPTIME |}.
Proof.
  intros Hi Hl. cbv zeta. unfold _dispatch_interval_config_create. cbv zeta.
  assert ((if decide (itv <= FOREVER_NSEC / (if bool_decide (flags .& DISPATCH_INTERVAL_UI_ANIMATION <> 0) then NSEC_PER_FRAME else NSEC_PER_MSEC))
     then u64 (itv * (if bool_decide (flags .& DISPATCH_INTERVAL_UI_ANIMATION <> 0) then NSEC_PER_FRAME else NSEC_PER_MSEC)) else FOREVER_NSEC)
    = interval_length flags itv) as ->.
  { pose proof (interval_length_range flags itv ltac:(lia)) as Hr. unfold interval_length in *. cbv zeta in *.
    case_decide; [|done]. apply wrap_small. timer_unfold. lia. }
  rewrite decide_False by done. rewrite decide_False by (by intros H; apply H). rewrite decide_False by lia.
  rewrite decide_True by lia. done.
Qed.

(** Interval timers.  A start other than now or never, an interval of 0 and a leeway
    beyond the whole interval crash; otherwise the first target is the next multiple of the
    interval after the present uptime, so that equal intervals fire together, and the
    deadline adds the asked fraction of the interval, provided that their product fits into 64 bits. *)
Theorem interval_config_grid c itv lw flags :
  wf_clocks c -> in_u 64 itv -> in_u 64 lw ->
  (forall start, start <> DISPATCH_TIME_NOW -> start <> DISPATCH_TIME_FOREVER ->
    _dispatch_interval_config_create c start itv lw flags = Crash ClientCrash) /\
  (itv = 0 \/ 1000 < lw < UINT64_MAX ->
    _dispatch_interval_config_create c DISPATCH_TIME_NOW itv lw flags = Crash ClientCrash) /\
  (0 < itv -> lw <= 1000 -> interval_length flags itv * lw < 2 ^ 64 ->
    exists cfg, _dispatch_interval_config_create c DISPATCH_TIME_NOW itv lw flags = Done cfg /\
      let t := dtc_timer cfg in
      interval t = interval_length flags itv /\ target t mod interval t = 0 /\
      _dispatch_uptime c < target t <= _dispatch_uptime c + interval t /\
      deadline t = target t + interval t * lw / 1000).
Proof.
  intros Hc Hi Hl. pose proof (Hc DISPATCH_CLOCK_UPTIME) as Hu. simpl in Hu. unfold in_u in *.
  split_and!.
  - intros start H1 H2. unfold _dispatch_interval_config_create. rewrite decide_False by done. by rewrite decide_True.
  - intros H. unfold _dispatch_interval_config_create. cbv zeta. rewrite decide_False by done. rewrite decide_False by (intros H'; by apply H').
    destruct (decide (itv = 0)); [done|]. destruct H as [|H]; [done|]. unfold UINT64_MAX in H.
    rewrite decide_False by lia. rewrite decide_True by (unfold UINT64_MAX; lia). done.
  - intros H1 H2 H3. rewrite (interval_config_eq c itv lw flags) by lia. eexists. split; [done|]. simpl.
    pose proof (interval_length_range flags itv ltac:(lia)) as Hr. set (len := interval_length flags itv) in *. clearbody len.
    destruct (grid_next (_dispatch_uptime c) len ltac:(timer_unfold; lia) Hr) as [G1 G2]. cbv zeta in *.
    split_and!; try done; try lia. assert (0 <= len * lw) by nia.
    rewrite (wrap_small 64 (len * lw)) by lia. pose proof (Z.div_le_upper_bound (len * lw) 1000 len). pose proof (Z.div_pos (len * lw) 1000).
    assert (len * lw <= 1000 * len) by nia. clear Hc. apply wrap_small. timer_unfold. lia.
Qed.

(** Half a second, within 100 per mille. *)
Lemma interval_config_grid_witness :
  (exists cfg, _dispatch_interval_config_create sample_clocks 0 500 100 0 = Done cfg) /\ interval_length 0 500 = 500000000.
Proof.
  split; [|vm_compute; reflexivity].
  destruct (interval_config_grid sample_clocks 500 100 0 sample_clocks_wf) as (_ & _ & H); [unfold in_u; lia..|].
  destruct H as (cfg & E & _); [lia|lia|vm_compute; reflexivity|]. exists cfg. exact E.
Defined.

(** The product is not checked: a year with the leeway of a whole interval gets less than
    half of it. *)
Theorem interval_leeway_wraps c : wf_clocks c ->
  exists cfg, _dispatch_interval_config_create c DISPATCH_TIME_NOW (FOREVER_NSEC / NSEC_PER_MSEC) 1000 0 = Done cfg /\
    interval (dtc_timer cfg) = FOREVER_NSEC /\ deadline (dtc_timer cfg) - target (dtc_timer cfg) < FOREVER_NSEC / 2.
Proof.
  intros Hc. pose proof (Hc DISPATCH_CLOCK_UPTIME) as Hu. simpl in Hu.
  rewrite interval_config_eq by (timer_unfold; vm_compute; split; congruence). eexists. split; [done|].
  change (interval_length 0 (FOREVER_NSEC / NSEC_PER_MSEC)) with FOREVER_NSEC. simpl. split; [done|].
  destruct (grid_next (_dispatch_uptime c) FOREVER_NSEC ltac:(timer_unfold; lia) ltac:(timer_unfold; lia)) as [_ G].
  cbv zeta in G. timer_unfold.
  change (u64 (31536000000000000 * 1000) / 1000) with 13089255926290448. change (31536000000000000 / 2) with 15768000000000000.
  rewrite (wrap_small 64 (_ + 13089255926290448)) by lia. lia.
Qed.

(** ** dispatch_after *)

(** A tenth of the delay, between a millisecond and a minute. *)
Definition after_leeway (delta : Z) : Z := Z.min (Z.max (delta / 10) NSEC_PER_MSEC) (60 * NSEC_PER_SEC).

(** [dispatch_after] for an instant that has come is [dispatch_async]; for a later one it
    arms a one-shot timer on the clock of the instant, with the instant as its target and a
    leeway of a tenth of the delay; a time that denotes no instant gives nothing, or a timer
    that is never armed. *)
Theorem after_fires_at c when :
  wf_clocks c -> in_u 64 when ->
  match denote c when with
  | Forever => _dispatch_after c when = AfterNothing \/
      exists flags t, _dispatch_after c when = AfterTimer flags t /\ INT64_MAX <= target t
  | At k v =>
      if decide (v <= _dispatch_time_now c k) then _dispatch_after c when = AfterAsync
      else exists flags, _dispatch_after c when =
        AfterTimer flags {| target := v; deadline := v + after_leeway (v - _dispatch_time_now c k); interval := UINT64_MAX |} /\
        _dispatch_timer_flags_to_clock flags = k /\ flags .& DISPATCH_TIMER_AFTER <> 0 /\
        v + after_leeway (v - _dispatch_time_now c k) < INT64_MAX
  end.
Proof.
  intros Hc Hw. destruct (decoded_total c when Hw) as [a Ha]. pose proof (denote_decoded c when a Hc Ha) as Hd. rewrite Hd.
  destruct (decoded_raw c when a Hc Ha) as [[-> [->|[Hne [k Hk]]]]|(k & v & -> & Hne & Hv & _ & Hk)].
  - left. unfold _dispatch_after. by rewrite decide_True.
  - unfold _dispatch_after. rewrite decide_False by done. right.
    assert (_dispatch_timeout c when <> 0) as Ht.
    { unfold _dispatch_timeout. rewrite decide_False by done.
      rewrite decide_False by (intros ->; rewrite decode_uptime in Hk by (time_unfold; lia); by injection Hk).
      rewrite Hk. pose proof (Hc k) as Hn. destruct k; simpl in Hn |- *; timer_unfold; rewrite decide_False by lia; word_lia. }
    rewrite decide_False by done. rewrite Hk. simpl. eexists _, _. split; [done|]. simpl. timer_unfold. unfold INT64_MAX. lia.
  - pose proof (timeout_denote c when k v Hc Hw Hd) as Ht. pose proof (Hc k) as Hn. unfold _dispatch_after. rewrite (decide_False (P := when = DISPATCH_TIME_FOREVER)) by done.
    destruct (decide (v <= _dispatch_time_now c k)) as [Hvn|Hvn].
    + rewrite decide_True by lia. done.
    + rewrite decide_False by lia. rewrite Ht.
      assert (_dispatch_time_to_clock_and_value c when = (k, v)) as ->.
      { destruct Hk as [Hk|(_ & -> & _)]; [done|lia]. }
      assert (Z.max 0 (v - _dispatch_time_now c k) = v - _dispatch_time_now c k) as -> by lia.
      set (delta := v - _dispatch_time_now c k) in *.
      assert ((let l := if decide (delta / 10 < NSEC_PER_MSEC) then NSEC_PER_MSEC else delta / 10 in
        if decide (l > 60 * NSEC_PER_SEC) then 60 * NSEC_PER_SEC else l) = after_leeway delta) as Hl.
      { unfold after_leeway. cbv zeta. timer_unfold. repeat case_decide; lia. }
      cbv zeta in Hl. rewrite Hl. assert (0 < after_leeway delta <= 60 * NSEC_PER_SEC) by (unfold after_leeway; timer_unfold; lia).
      exists (dst_timer_flags TypeAfter .| _dispatch_timer_flags_from_clock k). split_and!; [|by destruct k|by destruct k|timer_unfold; unfold INT64_MAX; lia].
      assert (u64 (v + after_leeway delta) = v + after_leeway delta) as E by (apply wrap_small; timer_unfold; lia).
      unfold _dispatch_time_nano2mach. destruct (decide (k <> DISPATCH_CLOCK_WALL)); by rewrite E.
Qed.

Lemma after_fires_at_witness :
  exists flags t, _dispatch_after sample_clocks (dispatch_time sample_clocks 0 (10 * NSEC_PER_SEC)) = AfterTimer flags t /\
    deadline t - target t = NSEC_PER_SEC.
Proof.
  pose proof (after_fires_at sample_clocks (dispatch_time sample_clocks 0 (10 * NSEC_PER_SEC)) sample_clocks_wf) as H.
  set (w := dispatch_time sample_clocks 0 (10 * NSEC_PER_SEC)) in *. vm_compute in w. subst w.
  match type of H with _ -> match ?x with _ => _ end => let v := eval vm_compute in x in change x with v in H end.
  cbv beta iota in H. rewrite decide_False in H by (vm_compute; congruence). destruct H as (flags & -> & _); [unfold in_u; lia|].
  eexists _, _. split; [reflexivity|]. vm_compute. reflexivity.
Defined.
