(* ===== verification/TimerRun.v ===== *)
(** * The event loop's timers

    Models the timer half of [src/event/event.c] above the heap: arming, configuration,
    resumption and unregistration of timers, [_dispatch_timers_run],
    [_dispatch_timers_program] and [_dispatch_event_loop_drain_timers], and the timer part
    of [src/event/event_epoll.c].  There is one heap per clock ([TimerOps]); the fields of
    the timers are shared by the heaps, a timer is in the heap [du_ident] names while it is
    armed.  A drain reads each clock once ([Time.now_cache_stable]): [now] is what it read.
    What other threads write (a new configuration, the count taken by a handler, a
    suspension) is constant during a drain.  References are counted in pairs: the heap owns
    one per armed timer, [dux_merge_evt] consumes one. *)

From S2P Require Import Prelude Time HeapOrder TimerHeap Segments TimerOps TimerSource.

Local Open Scope word_scope.

#[local] Abbreviation heap_s := (dispatch_timer_heap_s segs).

(** [struct dispatch_timer_source_refs_s] with what the loop reads of its source. *)
Record timer_unote := {
  du_timer_flags : Z;
  du_ident : Z;
  du_qos : Z;                   (* of du_priority *)
  du_armed : bool;              (* DU_STATE_ARMED *)
  du_registered : bool;         (* du_state is not DU_STATE_UNREGISTERED *)
  dt_timer : dispatch_timer_source_s;
  dt_pending_config : option dispatch_timer_config_s;
  ds_pending_data : Z;
  ds_suspended : bool;          (* DISPATCH_QUEUE_IS_SUSPENDED(ds) *)
}.

#[export] Instance timer_unote_eq_dec : EqDecision timer_unote.
Proof. solve_decision. Defined.

(** [struct dispatch_epoll_timeout_s] and the expiration its timer descriptor is set to. *)
Record dispatch_epoll_timeout_s := { det_registered : bool; det_armed : bool; it_value : Z }.

Inductive timer_effect :=
| Retain (t : timer)                    (* _dispatch_retain_unote_owner *)
| Release (t : timer)
| MergeEvt (t : timer) (pending : Z).   (* dux_merge_evt, with what was stored *)

Record event_loop := {
  el_unotes : gmap timer timer_unote;
  el_heap : Z -> heap_s;                          (* _dispatch_timers_heap *)
  dth_dirty_bits : Z;
  dth_armed : Z -> bool;
  _dispatch_epoll_timeout : dispatch_clock_t -> dispatch_epoll_timeout_s;
  el_log : list timer_effect;
}.

Definition with_unotes (st : event_loop) U : event_loop :=
  {| el_unotes := U; el_heap := el_heap st; dth_dirty_bits := dth_dirty_bits st; dth_armed := dth_armed st;
     _dispatch_epoll_timeout := _dispatch_epoll_timeout st; el_log := el_log st |}.
Definition with_heap (st : event_loop) (tidx : Z) (d : heap_s) : event_loop :=
  {| el_unotes := el_unotes st; el_heap := updf (el_heap st) tidx d; dth_dirty_bits := dth_dirty_bits st;
     dth_armed := dth_armed st; _dispatch_epoll_timeout := _dispatch_epoll_timeout st; el_log := el_log st |}.
Definition with_dirty (st : event_loop) (v : Z) : event_loop :=
  {| el_unotes := el_unotes st; el_heap := el_heap st; dth_dirty_bits := v; dth_armed := dth_armed st;
     _dispatch_epoll_timeout := _dispatch_epoll_timeout st; el_log := el_log st |}.
Definition with_armed (st : event_loop) (tidx : Z) (b : bool) : event_loop :=
  {| el_unotes := el_unotes st; el_heap := el_heap st; dth_dirty_bits := dth_dirty_bits st;
     dth_armed := updf (dth_armed st) tidx b; _dispatch_epoll_timeout := _dispatch_epoll_timeout st; el_log := el_log st |}.
Definition with_timeout (st : event_loop) (k : dispatch_clock_t) (e : dispatch_epoll_timeout_s) : event_loop :=
  {| el_unotes := el_unotes st; el_heap := el_heap st; dth_dirty_bits := dth_dirty_bits st; dth_armed := dth_armed st;
     _dispatch_epoll_timeout := fun k' => if decide (k' = k) then e else _dispatch_epoll_timeout st k';
     el_log := el_log st |}.
Definition effect (st : event_loop) (e : timer_effect) : event_loop :=
  {| el_unotes := el_unotes st; el_heap := el_heap st; dth_dirty_bits := dth_dirty_bits st; dth_armed := dth_armed st;
     _dispatch_epoll_timeout := _dispatch_epoll_timeout st; el_log := el_log st ++ [e] |}.

Definition set_armed (u : timer_unote) (b : bool) : timer_unote :=
  {| du_timer_flags := du_timer_flags u; du_ident := du_ident u; du_qos := du_qos u; du_armed := b;
     du_registered := du_registered u; dt_timer := dt_timer u; dt_pending_config := dt_pending_config u;
     ds_pending_data := ds_pending_data u; ds_suspended := ds_suspended u |}.
Definition set_ident (u : timer_unote) (v : Z) : timer_unote :=
  {| du_timer_flags := du_timer_flags u; du_ident := v; du_qos := du_qos u; du_armed := du_armed u;
     du_registered := du_registered u; dt_timer := dt_timer u; dt_pending_config := dt_pending_config u;
     ds_pending_data := ds_pending_data u; ds_suspended := ds_suspended u |}.
Definition set_unregistered (u : timer_unote) : timer_unote :=
  {| du_timer_flags := du_timer_flags u; du_ident := du_ident u; du_qos := du_qos u; du_armed := false;
     du_registered := false; dt_timer := dt_timer u; dt_pending_config := dt_pending_config u;
     ds_pending_data := ds_pending_data u; ds_suspended := ds_suspended u |}.
Definition set_timer (u : timer_unote) (dt : dispatch_timer_source_s) : timer_unote :=
  {| du_timer_flags := du_timer_flags u; du_ident := du_ident u; du_qos := du_qos u; du_armed := du_armed u;
     du_registered := du_registered u; dt_timer := dt; dt_pending_config := dt_pending_config u;
     ds_pending_data := ds_pending_data u; ds_suspended := ds_suspended u |}.
Definition set_data (u : timer_unote) (v : Z) : timer_unote :=
  {| du_timer_flags := du_timer_flags u; du_ident := du_ident u; du_qos := du_qos u; du_armed := du_armed u;
     du_registered := du_registered u; dt_timer := dt_timer u; dt_pending_config := dt_pending_config u;
     ds_pending_data := v; ds_suspended := ds_suspended u |}.

(** The key of a timer in heap [g], read from the timer. *)
Definition unote_key (U : gmap timer timer_unote) (t : timer) (g : Z) : Z :=
  match U !! t with
  | Some u => if decide (g = DTH_TARGET_ID) then target (dt_timer u) else deadline (dt_timer u)
  | None => UINT64_MAX
  end.

Definition DTH_DIRTY_GLOBAL : Z := 0x80.
Definition _dispatch_timers_heap_dirty (st : event_loop) (tidx : Z) : event_loop :=
  with_dirty st (dth_dirty_bits st .| ((1 .<< (tidx mod DISPATCH_TIMER_QOS_COUNT)) .| DTH_DIRTY_GLOBAL)).

(** ** Timer unotes; [None] is a crash of the heap. *)

Definition _dispatch_timer_unote_disarm (st : event_loop) (t : timer) : option event_loop :=
  u ← el_unotes st !! t;
  let tidx := du_ident u in
  d ← _dispatch_timer_heap_remove (unote_key (el_unotes st)) (el_heap st tidx) t;
  let st := _dispatch_timers_heap_dirty (with_heap st tidx d) tidx in
  Some (with_unotes st (<[t := set_armed u false]> (el_unotes st))).

Definition _dispatch_timer_unote_arm (st : event_loop) (t : timer) (tidx : Z) : option event_loop :=
  u ← el_unotes st !! t;
  st ← (if du_armed u then
          d ← _dispatch_timer_heap_update (unote_key (el_unotes st)) (el_heap st tidx) t;
          Some (with_heap st tidx d)
        else
          let u := set_ident u tidx in
          d ← _dispatch_timer_heap_insert (unote_key (el_unotes st)) (el_heap st tidx) t (du_qos u);
          Some (with_unotes (with_heap st tidx d) (<[t := set_armed u true]> (el_unotes st))));
  Some (_dispatch_timers_heap_dirty st tidx).

Definition _dispatch_timer_unote_needs_rearm (u : timer_unote) : bool :=
  if ds_suspended u then false
  else negb (du_ident u =? DISPATCH_TIMER_IDENT_CANCELED) && (target (dt_timer u) <? INT64_MAX).

Definition _dispatch_timer_unote_resume (st : event_loop) (t : timer) : option event_loop :=
  u ← el_unotes st !! t;
  let will_arm := _dispatch_timer_unote_needs_rearm u in
  let was_armed := du_armed u in
  let tidx := _dispatch_timer_unote_idx (du_timer_flags u) in
  st ← (if was_armed && (negb will_arm || negb (du_ident u =? tidx))
        then _dispatch_timer_unote_disarm st t else Some st);
  if will_arm then
    let st := if negb was_armed then effect st (Retain t) else st in
    _dispatch_timer_unote_arm st t tidx
  else if was_armed then Some (effect st (Release t)) else Some st.

(** The fields that a configuration changes. *)
Definition configured_fields (u : timer_unote) (dtc : dispatch_timer_config_s) : timer_unote :=
  {| du_timer_flags :=
       if decide (dtc_clock dtc <> _dispatch_timer_flags_to_clock (du_timer_flags u))
       then Z.ldiff (du_timer_flags u) _DISPATCH_TIMER_CLOCK_MASK .| _dispatch_timer_flags_from_clock (dtc_clock dtc)
       else du_timer_flags u;
     du_ident := du_ident u; du_qos := du_qos u; du_armed := du_armed u; du_registered := du_registered u;
     dt_timer := dtc_timer dtc; dt_pending_config := None; ds_pending_data := 0; ds_suspended := ds_suspended u |}.

Definition _dispatch_timer_unote_configure (st : event_loop) (t : timer) : option event_loop :=
  u ← el_unotes st !! t;
  dtc ← dt_pending_config u;
  let u := configured_fields u dtc in
  let st := with_unotes st (<[t := u]> (el_unotes st)) in
  if du_armed u then _dispatch_timer_unote_resume st t else Some st.

(** [background]: the queue's quality of service is background or maintenance. *)
Definition _dispatch_timer_unote_register (st : event_loop) (t : timer) (background : bool) : option event_loop :=
  u ← el_unotes st !! t;
  let flags :=
    if background && bool_decide (du_timer_flags u .& DISPATCH_TIMER_STRICT = 0)
    then du_timer_flags u .| DISPATCH_TIMER_BACKGROUND else du_timer_flags u in
  let ident :=
    if background && bool_decide (du_timer_flags u .& DISPATCH_TIMER_STRICT = 0)
    then _dispatch_timer_unote_idx flags else du_ident u in
  let u := {| du_timer_flags := flags; du_ident := ident; du_qos := du_qos u; du_armed := du_armed u;
              du_registered := true; dt_timer := dt_timer u; dt_pending_config := dt_pending_config u;
              ds_pending_data := ds_pending_data u; ds_suspended := ds_suspended u |} in
  let st := with_unotes st (<[t := u]> (el_unotes st)) in
  match dt_pending_config u with Some _ => _dispatch_timer_unote_configure st t | None => Some st end.

Definition _dispatch_timer_unote_unregister (st : event_loop) (t : timer) : option event_loop :=
  u ← el_unotes st !! t;
  st ← (if du_armed u then st ← _dispatch_timer_unote_disarm st t; Some (effect st (Release t)) else Some st);
  u ← el_unotes st !! t;
  Some (with_unotes st (<[t := set_ident (set_unregistered u) DISPATCH_TIMER_IDENT_CANCELED]> (el_unotes st))).

(** ** Draining *)


(** What one turn of the loop of [_dispatch_timers_run] does. *)
Inductive run_turn := RunCrash | RunDone | RunAgain (st : event_loop).

Definition again (o : option event_loop) : run_turn := match o with Some st => RunAgain st | None => RunCrash end.

Definition timers_run_turn (now : dispatch_clock_t -> Z) (tidx : Z) (st : event_loop) : run_turn :=
  match dth_min0 (dth_slots (el_heap st tidx)) with
  | None => RunDone
  | Some dr =>
      match el_unotes st !! dr with
      | None => RunCrash
      | Some u =>
          let now := now (DISPATCH_TIMER_CLOCK tidx) in
          if decide (target (dt_timer u) > now) then RunDone
          else if decide (du_timer_flags u .& DISPATCH_TIMER_AFTER <> 0) then again (
            st ← _dispatch_timer_unote_disarm st dr;
            u ← el_unotes st !! dr;
            let st := with_unotes st (<[dr := set_data (set_unregistered u) 2]> (el_unotes st)) in
            Some (effect st (MergeEvt dr 2)))
          else if decide (is_Some (dt_pending_config u)) then again (_dispatch_timer_unote_configure st dr)
          else if decide (ds_pending_data u <> 0) then again (
            st ← _dispatch_timer_unote_disarm st dr;
            u ← el_unotes st !! dr;
            let pending := ds_pending_data u in
            let st := with_unotes st (<[dr := set_data u (pending .| DISPATCH_TIMER_DISARMED_MARKER)]> (el_unotes st)) in
            Some (effect st (MergeEvt dr pending)))
          else
            let '(missed, dt) := _dispatch_timer_unote_compute_missed (dt_timer u) now 0 in
            let pending := u64 (missed .<< 1) in
            let u := set_timer u dt in
            let st := with_unotes st (<[dr := u]> (el_unotes st)) in
            again (
              if _dispatch_timer_unote_needs_rearm u then
                let st := effect st (Retain dr) in
                st ← _dispatch_timer_unote_arm st dr tidx;
                u ← el_unotes st !! dr;
                let st := with_unotes st (<[dr := set_data u pending]> (el_unotes st)) in
                Some (effect st (MergeEvt dr pending))
              else
                st ← _dispatch_timer_unote_disarm st dr;
                u ← el_unotes st !! dr;
                let pending := pending .| DISPATCH_TIMER_DISARMED_MARKER in
                let st := with_unotes st (<[dr := set_data u pending]> (el_unotes st)) in
                Some (effect st (MergeEvt dr pending)))
      end
  end.

Fixpoint timers_run (fuel : nat) (now : dispatch_clock_t -> Z) (tidx : Z) (st : event_loop) : option event_loop :=
  match fuel with
  | O => None
  | S fuel =>
      match timers_run_turn now tidx st with
      | RunCrash => None
      | RunDone => Some st
      | RunAgain st => timers_run fuel now tidx st
      end
  end.

(** Each timer fires at most once, after taking at most one configuration. *)
Definition run_fuel (st : event_loop) : nat := S (2 * size (el_unotes st)).
Definition _dispatch_timers_run (now : dispatch_clock_t -> Z) (tidx : Z) (st : event_loop) : option event_loop :=
  timers_run (run_fuel st) now tidx st.

(** The delay and the leeway until the next timer of a heap. *)
Definition _dispatch_timers_get_delay (now : dispatch_clock_t -> Z) (tidx : Z) (st : event_loop) : option (Z * Z) :=
  match dth_min0 (dth_slots (el_heap st tidx)), dth_min1 (dth_slots (el_heap st tidx)) with
  | None, _ => Some (INT64_MAX, INT64_MAX)
  | Some a, Some b =>
      ua ← el_unotes st !! a; ub ← el_unotes st !! b;
      let target := target (dt_timer ua) in
      let deadline := deadline (dt_timer ub) in
      let now := now (DISPATCH_TIMER_CLOCK tidx) in
      if decide (target <= now) then Some (0, 0)
      else Some (Z.min (u64 (target - now)) INT64_MAX, Z.min (u64 (deadline - target)) INT64_MAX)
  | Some _, None => None
  end.

(** [_dispatch_timeout_program] of the epoll back end, when the system calls succeed. *)
Definition _dispatch_timeout_program (st : event_loop) (tidx target : Z) : event_loop :=
  let clock := DISPATCH_TIMER_CLOCK tidx in
  let timer := _dispatch_epoll_timeout st clock in
  if decide (target >= INT64_MAX /\ det_registered timer = false) then st
  else if decide (target < INT64_MAX) then
    with_timeout st clock {| det_registered := true; det_armed := true; it_value := target |}
  else with_timeout st clock {| det_registered := false; det_armed := false; it_value := it_value timer |}.

Definition _dispatch_event_loop_timer_arm (now : dispatch_clock_t -> Z) (st : event_loop) (tidx delay : Z) : event_loop :=
  _dispatch_timeout_program st tidx (u64 (delay + now (DISPATCH_TIMER_CLOCK tidx))).
Definition _dispatch_event_loop_timer_delete (st : event_loop) (tidx : Z) : event_loop :=
  _dispatch_timeout_program st tidx UINT64_MAX.

Definition clear_needs_program (d : heap_s) : heap_s :=
  {| dth_count := dth_count d; dth_max_qos := dth_max_qos d; dth_needs_program := false; dth_slots := dth_slots d;
     dt_heap_entry := dt_heap_entry d |}.

Definition _dispatch_timers_program (now : dispatch_clock_t -> Z) (tidx : Z) (st : event_loop) : option event_loop :=
  '(delay, leeway) ← _dispatch_timers_get_delay now tidx st;
  let st := if decide (delay = 0) then _dispatch_timers_heap_dirty st tidx else st in
  if decide (delay = 0 \/ delay >= INT64_MAX) then
    let st := if dth_armed st tidx then _dispatch_event_loop_timer_delete st tidx else st in
    Some (with_heap (with_armed st tidx false) tidx (clear_needs_program (el_heap st tidx)))
  else
    let st := _dispatch_event_loop_timer_arm now st tidx delay in
    Some (with_heap (with_armed st tidx true) tidx (clear_needs_program (el_heap st tidx))).

(** The heaps of [_dispatch_timers_heap]. *)
Definition tidxs : list Z := [0; 1; 2].

Fixpoint run_all (now : dispatch_clock_t -> Z) (l : list Z) (st : event_loop) : option event_loop :=
  match l with [] => Some st | tidx :: l => st ← _dispatch_timers_run now tidx st; run_all now l st end.
Fixpoint program_all (now : dispatch_clock_t -> Z) (l : list Z) (st : event_loop) : option event_loop :=
  match l with
  | [] => Some st
  | tidx :: l =>
      st ← (if dth_needs_program (el_heap st tidx) then _dispatch_timers_program now tidx st else Some st);
      program_all now l st
  end.

Fixpoint drain_timers (fuel : nat) (now : dispatch_clock_t -> Z) (st : event_loop) : option event_loop :=
  match fuel with
  | O => None
  | S fuel =>
      st ← run_all now tidxs st;
      st ← program_all now tidxs (with_dirty st 0);
      if decide (dth_dirty_bits st <> 0) then drain_timers fuel now st else Some st
  end.

(** A round is repeated only when a configuration moved a timer to an earlier heap. *)
Definition drain_fuel (st : event_loop) : nat := 2 + size (el_unotes st).
Definition _dispatch_event_loop_drain_timers (now : dispatch_clock_t -> Z) (st : event_loop) : option event_loop :=
  drain_timers (drain_fuel st) now st.

(** The timer descriptor of [clock] became readable. *)
Definition _dispatch_event_merge_timer (st : event_loop) (clock : dispatch_clock_t) : event_loop :=
  let tidx := DISPATCH_TIMER_INDEX (clock_value clock) 0 in
  let e := _dispatch_epoll_timeout st clock in
  let st := with_timeout st clock {| det_registered := det_registered e; det_armed := false; it_value := it_value e |} in
  let st := _dispatch_timers_heap_dirty st tidx in
  let d := el_heap st tidx in
  with_armed (with_heap st tidx {| dth_count := dth_count d; dth_max_qos := dth_max_qos d; dth_needs_program := true;
    dth_slots := dth_slots d; dt_heap_entry := dt_heap_entry d |}) tidx false.

(** ** The heap keeps a request to reprogram *)

Section mono.
Context (key : timer -> Z -> Z).

Lemma heap_set_mono (d d' : heap_s) sl t i : _dispatch_timer_heap_set d sl t i = Some d' ->
  dth_needs_program d = true -> dth_needs_program d' = true.
Proof.
  unfold _dispatch_timer_heap_set. destruct (ss_store _ _ _); [|done]. intros [= <-] H. simpl. rewrite H. by rewrite orb_true_r.
Qed.

(** Invert one bind of the option monad in [H]. *)
Ltac bind_inv H x := match type of H with (?o ≫= _) = Some _ => destruct o as [x|]; [cbn [mbind option_bind] in H|done] end.

Lemma sift_up_mono fuel : forall (d d' : heap_s) h t sl i b sl' i' b', sift_up key fuel d h t sl i b = Some (d', sl', i', b') ->
  dth_needs_program d = true -> dth_needs_program d' = true.
Proof.
  induction fuel as [|fuel IH]; intros d d' h t sl i b sl' i' b' E Hd; [done|]. cbn [sift_up] in E.
  destruct (decide (i >= DTH_ID_COUNT)); [|by injection E as <- _ _ _].
  bind_inv E psl. bind_inv E pdt. destruct (decide (key pdt h <= key t h)); [by injection E as <- _ _ _|].
  destruct (_dispatch_timer_heap_set d sl pdt i) as [d1|] eqn:Es; [|done]. cbn [mbind option_bind] in E.
  eapply IH; [exact E|]. by eapply heap_set_mono.
Qed.

Lemma sift_down_mono fuel : forall (d d' : heap_s) h t sl i sl' i', sift_down key fuel d h t sl i = Some (d', sl', i') ->
  dth_needs_program d = true -> dth_needs_program d' = true.
Proof.
  induction fuel as [|fuel IH]; intros d d' h t sl i sl' i' E Hd; [done|]. cbn [sift_down] in E. cbv zeta in E.
  destruct (decide (_dispatch_timer_heap_left_child i < dth_count d)); [|by injection E as <- _ _].
  bind_inv E csl. bind_inv E cdt.
  match type of E with (?o ≫= _) = _ => destruct o as [[[cidx cdt'] csl']|]; [cbn [mbind option_bind] in E|done] end.
  destruct (decide (key t h <= key cdt' h)); [by injection E as <- _ _|].
  destruct (_dispatch_timer_heap_set d sl cdt' i) as [d1|] eqn:Es; [|done]. cbn [mbind option_bind] in E.
  eapply IH; [exact E|]. by eapply heap_set_mono.
Qed.

Lemma resift_mono (d d' : heap_s) t i : _dispatch_timer_heap_resift key d t i = Some d' ->
  dth_needs_program d = true -> dth_needs_program d' = true.
Proof.
  unfold _dispatch_timer_heap_resift. intros E Hd. bind_inv E sl.
  destruct (sift_up key _ _ _ _ _ _ _) as [[[[d1 sl1] i1] b]|] eqn:Eu; [|done]. cbn [mbind option_bind] in E.
  pose proof (sift_up_mono _ _ _ _ _ _ _ _ _ _ _ Eu Hd) as H1. destruct b; [by eapply heap_set_mono|].
  destruct (sift_down key _ _ _ _ _ _) as [[[d2 sl2] i2]|] eqn:Ed; [|done]. cbn [mbind option_bind] in E.
  eapply heap_set_mono; [exact E|]. by eapply sift_down_mono.
Qed.

Lemma heap_insert_mono d d' t q : _dispatch_timer_heap_insert key d t q = Some d' ->
  dth_needs_program d = true -> dth_needs_program d' = true.
Proof.
  unfold _dispatch_timer_heap_insert. intros E Hd. case_decide; [|done]. destruct (decide (dth_count d = 0)).
  - by injection E as <-.
  - cbv zeta in E. bind_inv E s.
    destruct (_dispatch_timer_heap_resift key _ t (dth_count d + DTH_TARGET_ID)) as [d1|] eqn:E1; [|done].
    cbn [mbind option_bind] in E. eapply resift_mono; [exact E|]. eapply resift_mono; [exact E1|]. simpl. rewrite Hd. by rewrite orb_true_r.
Qed.

Lemma heap_update_mono d d' t : _dispatch_timer_heap_update key d t = Some d' ->
  dth_needs_program d = true -> dth_needs_program d' = true.
Proof.
  unfold _dispatch_timer_heap_update. intros E Hd. case_decide; [|done].
  destruct (_dispatch_timer_heap_resift key d t _) as [d1|] eqn:E1; [|done]. cbn [mbind option_bind] in E.
  eapply resift_mono; [exact E|]. by eapply resift_mono.
Qed.

Lemma remove_one_mono d d' t i h : heap_remove_one key d t i h = Some d' ->
  dth_needs_program d = true -> dth_needs_program d' = true.
Proof.
  unfold heap_remove_one. intros E Hd. bind_inv E sl. bind_inv E ldt. bind_inv E s. case_decide.
  - by eapply resift_mono.
  - by injection E as <-.
Qed.

Lemma heap_remove_mono d d' t : _dispatch_timer_heap_remove key d t = Some d' ->
  dth_needs_program d = true -> dth_needs_program d' = true.
Proof.
  unfold _dispatch_timer_heap_remove. intros E Hd. case_decide; [|done]. destruct (decide (dth_count d - DTH_ID_COUNT = 0)).
  - case_decide; [|done]. by injection E as <-.
  - cbv zeta in E. destruct (heap_remove_one key _ t _ DTH_TARGET_ID) as [d1|] eqn:E1; [|done]. cbn [mbind option_bind] in E.
    destruct (heap_remove_one key d1 t _ DTH_DEADLINE_ID) as [d2|] eqn:E2; [|done]. cbn [mbind option_bind] in E.
    bind_inv E s. injection E as <-. change (dth_needs_program d2 = true). eapply remove_one_mono; [exact E2|]. by eapply remove_one_mono.
Qed.
End mono.

(** ** The invariant *)

(** What makes a timer that can be armed sound: see [TimerSource.repeating]. *)
Definition timer_ok (dt : dispatch_timer_source_s) : Prop :=
  target dt < INT64_MAX -> 1 <= interval dt /\ 0 <= target dt <= deadline dt /\
    (interval dt < INT64_MAX -> 2 ^ 62 + interval dt + (deadline dt - target dt) <= 2 ^ 64).

Definition now_ok (now : dispatch_clock_t -> Z) : Prop := forall k, 0 <= now k < 2 ^ 62.

Record unote_ok (u : timer_unote) : Prop := {
  uo_armed : du_armed u = true -> du_ident u = _dispatch_timer_unote_idx (du_timer_flags u) /\ target (dt_timer u) < INT64_MAX;
  uo_timer : timer_ok (dt_timer u);
  uo_config : forall dtc, dt_pending_config u = Some dtc -> timer_ok (dtc_timer dtc);
}.

Definition in_heap (i : Z) (u : timer_unote) : bool := du_armed u && (du_ident u =? i).

(** How many timers satisfy [Q]. *)
Definition count (Q : timer_unote -> bool) (U : gmap timer timer_unote) : nat := size (filter (fun p => Q p.2 = true) U).

Record loop_inv (st : event_loop) : Prop := {
  li_wf : forall i, i ∈ tidxs -> wf_heap (unote_key (el_unotes st)) (el_heap st i);
  li_mem : forall i t, i ∈ tidxs -> member (el_heap st i) 0 t <-> exists u, el_unotes st !! t = Some u /\ in_heap i u = true;
  li_count : forall i, i ∈ tidxs -> dth_count (el_heap st i) = 2 * Z.of_nat (count (in_heap i) (el_unotes st));
  li_unote : forall t u, el_unotes st !! t = Some u -> unote_ok u;
  li_size : 2 * Z.of_nat (size (el_unotes st)) + 2 <= 2 ^ 30;
}.

Lemma unotes_count_insert Q (U : gmap timer timer_unote) t u :
  count Q (<[t := u]> U) = (count Q (delete t U) + Nat.b2n (Q u))%nat.
Proof.
  unfold count. rewrite map_filter_insert. simpl. destruct (Q u) eqn:E; simpl.
  - rewrite <- insert_delete_eq, map_size_insert_None; [|by rewrite lookup_delete_eq].
    rewrite map_filter_delete. lia.
  - lia.
Qed.

Lemma count_update Q (U : gmap timer timer_unote) t u u' : U !! t = Some u ->
  (count Q (<[t := u']> U) + Nat.b2n (Q u) = count Q U + Nat.b2n (Q u'))%nat.
Proof.
  intros Hu. pose proof (unotes_count_insert Q U t u') as H1. pose proof (unotes_count_insert Q U t u) as H2.
  rewrite insert_id in H2 by done. lia.
Qed.

Lemma count_le Q (U : gmap timer timer_unote) : (count Q U <= size U)%nat.
Proof. apply map_size_filter. Qed.

(** What one timer's move does to one heap: [b] and [b'] tell whether it was and is in it. *)
Record heap_moved (key : timer -> Z -> Z) (t : timer) (d d' : heap_s) (b b' : bool) : Prop := {
  mv_wf : wf_heap key d';
  mv_mem : forall s, member d' 0 s <-> (s <> t /\ member d 0 s) \/ (s = t /\ b' = true);
  mv_count : dth_count d' = dth_count d - 2 * Z.b2z b + 2 * Z.b2z b';
  mv_mono : dth_needs_program d = true -> dth_needs_program d' = true;
  mv_root : node d' 0 0 <> node d 0 0 \/ node d' 0 0 = Some t -> dth_needs_program d' = true;
}.

Lemma root_member key d t : wf_heap key d -> node d 0 0 = Some t -> member d 0 t.
Proof.
  intros W Hn. destruct (decide (dth_count d = 0)) as [Hz|Hz].
  - destruct (wf_empty _ _ W Hz) as [E _]. destruct (node0_min d) as [E0 _]. congruence.
  - pose proof (ws_even _ (wf_st _ _ W)). pose proof (ws_count _ (wf_st _ _ W)). exists 0. split; [lia|done].
Qed.

Lemma moved_other key0 key t d : wf_heap key0 d -> stale_key key0 key t -> ~ member d 0 t -> heap_moved key t d d false false.
Proof.
  intros W Hk Hno. constructor; try done; try (simpl; lia).
  - eapply wf_heap_key_ext; [|done]. intros s g Hs. apply Hk. by intros ->.
  - intros s. split; [|by intros [[_ ?]|[_ ?]]]. intros Hs. left. split; [|done]. by intros ->.
  - intros [?|Hr]; [done|]. by apply (root_member key0 d) in Hr.
Qed.

Lemma moved_removed key0 key t d d' : wf_heap key0 d -> _dispatch_timer_heap_remove key d t = Some d' -> removed key d t d' ->
  heap_moved key t d d' true false.
Proof.
  intros W E R. constructor; [apply R| | | |].
  - intros s. rewrite (rem_mem _ _ _ _ R). split; [by left|]. by intros [?|[_ ?]].
  - rewrite (rem_count _ _ _ _ R). simpl. lia.
  - by eapply heap_remove_mono.
  - intros [H|H]; [by apply (rem_prog _ _ _ _ R 0)|].
    apply (root_member key d') in H; [|apply R]. by apply (rem_mem _ _ _ _ R) in H as [? _].
Qed.

Lemma moved_inserted key t d d' q : wf_heap key d -> ~ member d 0 t -> _dispatch_timer_heap_insert key d t q = Some d' ->
  inserted key d t d' -> heap_moved key t d d' false true.
Proof.
  intros W Hno E R. constructor; [apply R| | | |].
  - intros s. rewrite (ins_mem _ _ _ _ R). split.
    + intros [->|Hs]; [by right|]. destruct (decide (s = t)) as [->|Hst]; [done|]. by left.
    + intros [[_ Hs]|[-> _]]; [by right|by left].
  - rewrite (ins_count _ _ _ _ R). simpl. lia.
  - by eapply heap_insert_mono.
  - intros [H|H]; [by apply (ins_prog _ _ _ _ R 0)|]. apply (ins_prog _ _ _ _ R 0); [lia|]. rewrite H. intros Heq.
    apply Hno. by eapply root_member.
Qed.

Lemma moved_updated key0 key t d : wf_heap key0 d -> stale_key key0 key t -> member d 0 t ->
  exists d', _dispatch_timer_heap_update key d t = Some d' /\ heap_moved key t d d' true true.
Proof.
  intros W Hk Hm. destruct (heap_update_ok key0 key d t W Hm) as (d' & E & W' & Hc & Hmem & Hp); [intros; by apply Hk|].
  exists d'. split; [done|]. constructor; [done| | | |].
  - intros s. rewrite Hmem. split; [|by intros [[_ ?]|[-> _]]].
    intros Hs. destruct (decide (s = t)) as [->|]; [by right|by left].
  - rewrite Hc. simpl. lia.
  - by eapply heap_update_mono.
  - intros H. by apply (Hp 0).
Qed.

Lemma moved_trans key1 key t d d1 d2 b b1 b2 : heap_moved key1 t d d1 b b1 -> heap_moved key t d1 d2 b1 b2 ->
  heap_moved key t d d2 b b2.
Proof.
  intros M1 M2. constructor; [apply M2| | | |].
  - intros s. rewrite (mv_mem _ _ _ _ _ _ M2), (mv_mem _ _ _ _ _ _ M1). split.
    + intros [[Hs [[_ ?]|[? _]]]|[? ?]]; [by left|done|by right].
    + intros [[? ?]|[? ?]]; [left; split; [done|by left]|by right].
  - rewrite (mv_count _ _ _ _ _ _ M2), (mv_count _ _ _ _ _ _ M1). lia.
  - intros H. by apply (mv_mono _ _ _ _ _ _ M2), (mv_mono _ _ _ _ _ _ M1).
  - intros [H|H]; [|apply (mv_root _ _ _ _ _ _ M2); by right].
    destruct (decide (node d2 0 0 = node d1 0 0)) as [E|E]; [|apply (mv_root _ _ _ _ _ _ M2); by left].
    apply (mv_mono _ _ _ _ _ _ M2), (mv_root _ _ _ _ _ _ M1). left. congruence.
Qed.
