(* ===== verification/TimerTurns.v ===== *)
(** * The event loop's timers: steps and turns

    Every operation of [TimerRun] on a timer moves that timer alone: it leaves, enters or
    changes its place in the heaps, and no other timer is touched.  From this follow what a
    turn of [_dispatch_timers_run] does and what a run of it does to every timer. *)

From S2P Require Import Prelude Time HeapOrder TimerHeap Segments TimerOps TimerSource TimerRun.

Local Open Scope word_scope.

Record stepped (st : event_loop) (t : timer) (u u' : timer_unote) (st' : event_loop) : Prop := {
  sp_unotes : el_unotes st' = <[t := u']> (el_unotes st);
  sp_moved : forall i, i ∈ tidxs ->
    heap_moved (unote_key (el_unotes st')) t (el_heap st i) (el_heap st' i) (in_heap i u) (in_heap i u');
  sp_armed : dth_armed st' = dth_armed st;
  sp_timeout : _dispatch_epoll_timeout st' = _dispatch_epoll_timeout st;
}.

(** The heaps of [st] with the fields of [t] changed to [v]. *)
Record base (st : event_loop) (t : timer) (v : timer_unote) (st1 : event_loop) : Prop := {
  ba_unotes : el_unotes st1 = <[t := v]> (el_unotes st);
  ba_heap : el_heap st1 = el_heap st;
  ba_armed : dth_armed st1 = dth_armed st;
  ba_timeout : _dispatch_epoll_timeout st1 = _dispatch_epoll_timeout st;
}.

Lemma unote_key_stale U t v : stale_key (unote_key U) (unote_key (<[t := v]> U)) t.
Proof. intros s g Hs. unfold unote_key. by rewrite lookup_insert_ne. Qed.

Lemma unote_key_same (U : gmap timer timer_unote) t v w s g : U !! t = Some v -> dt_timer w = dt_timer v ->
  unote_key (<[t := w]> U) s g = unote_key U s g.
Proof.
  intros Hv E. unfold unote_key. destruct (decide (t = s)) as [<-|Hs]; [|by rewrite lookup_insert_ne].
  by rewrite lookup_insert_eq, Hv, E.
Qed.

Lemma moved_key_ext key key' t d d' b b' : (forall s g, key' s g = key s g) -> heap_moved key t d d' b b' ->
  heap_moved key' t d d' b b'.
Proof. intros Hk M. constructor; try apply M. eapply wf_heap_key_ext; [|apply M]. intros. apply Hk. Qed.

Lemma stepped_inv st t u u' st' : loop_inv st -> el_unotes st !! t = Some u -> unote_ok u' -> stepped st t u u' st' ->
  loop_inv st'.
Proof.
  intros [I1 I2 I3 I4 I5] Hu Hok [S1 S2 S3 S4]. constructor.
  - intros i Hi. apply (S2 i Hi).
  - intros i s Hi. rewrite (mv_mem _ _ _ _ _ _ (S2 i Hi)), S1. destruct (decide (s = t)) as [->|Hs].
    + rewrite lookup_insert_eq. split; [intros [[? _]|[_ ?]]; [done|by eexists]|]. intros (v & [= <-] & Hv). by right.
    + rewrite lookup_insert_ne by done. rewrite <- I2 by done. split; [by intros [[_ ?]|[? _]]|by left].
  - intros i Hi. rewrite (mv_count _ _ _ _ _ _ (S2 i Hi)), (I3 i Hi), S1.
    pose proof (count_update (in_heap i) (el_unotes st) t u u' Hu). destruct (in_heap i u), (in_heap i u'); simpl in *; lia.
  - intros s v. rewrite S1. destruct (decide (s = t)) as [->|Hs].
    + rewrite lookup_insert_eq. by intros [= <-].
    + rewrite lookup_insert_ne by done. apply I4.
  - rewrite S1, (map_size_insert_Some t u' (el_unotes st)); [done|by eexists].
Qed.

Lemma stepped_trans st t u u1 u2 st1 st2 : stepped st t u u1 st1 -> stepped st1 t u1 u2 st2 -> stepped st t u u2 st2.
Proof.
  intros [S1 S2 S3 S4] [T1 T2 T3 T4]. constructor; try congruence.
  - by rewrite T1, S1, insert_insert_eq.
  - intros i Hi. by eapply moved_trans; [apply S2|apply T2].
Qed.

(** A change of the fields that the heaps do not read. *)
Lemma stepped_tweak st t u v w st' st'' : stepped st t u v st' -> el_unotes st'' = <[t := w]> (el_unotes st') ->
  el_heap st'' = el_heap st' -> dth_armed st'' = dth_armed st' -> _dispatch_epoll_timeout st'' = _dispatch_epoll_timeout st' ->
  dt_timer w = dt_timer v -> du_armed w = du_armed v -> du_ident w = du_ident v -> stepped st t u w st''.
Proof.
  intros [S1 S2 S3 S4] E1 E2 E3 E4 Ht Ha Hd. constructor; try congruence.
  - by rewrite E1, S1, insert_insert_eq.
  - intros i Hi. rewrite E1, E2. assert (in_heap i w = in_heap i v) as -> by (unfold in_heap; by rewrite Ha, Hd).
    eapply moved_key_ext; [|by apply S2]. intros s g. apply (unote_key_same _ _ v); [|done]. by rewrite S1, lookup_insert_eq.
Qed.

Section steps.
Context (st : event_loop) (Hinv : loop_inv st) (t : timer) (u : timer_unote) (Hu : el_unotes st !! t = Some u).

Lemma in_heap_armed i : in_heap i u = true <-> du_armed u = true /\ du_ident u = i.
Proof. unfold in_heap. rewrite andb_true_iff, Z.eqb_eq. done. Qed.

Lemma in_heap_other i j : in_heap i u = true -> i <> j -> in_heap j u = false.
Proof. unfold in_heap. intros [-> ->%Z.eqb_eq]%andb_true_iff Hij. simpl. by apply Z.eqb_neq. Qed.

Lemma in_heap_member i : i ∈ tidxs -> in_heap i u = true -> member (el_heap st i) 0 t.
Proof using Hinv Hu. intros Hi Hin. apply (li_mem _ Hinv i t Hi). by exists u. Qed.

Lemma not_in_heap_member i : i ∈ tidxs -> in_heap i u = false -> ~ member (el_heap st i) 0 t.
Proof using Hinv Hu. intros Hi Hin Hm. apply (li_mem _ Hinv i t Hi) in Hm as (v & Hv & Hin'). congruence. Qed.

Lemma disarm_step i v st1 : i ∈ tidxs -> in_heap i u = true -> base st t v st1 -> du_ident v = i ->
  exists st2, _dispatch_timer_unote_disarm st1 t = Some st2 /\ stepped st t u (set_armed v false) st2 /\
    el_log st2 = el_log st1.
Proof using Hinv Hu.
  intros Hi Hin [B1 B2 B3 B4] Hid. unfold _dispatch_timer_unote_disarm. rewrite B1, lookup_insert_eq. opt_simpl. rewrite Hid, B2.
  destruct (heap_remove_stale (unote_key (el_unotes st)) (unote_key (<[t := v]> (el_unotes st))) (el_heap st i) t) as (d & E & R);
    [by apply Hinv|apply unote_key_stale|by apply in_heap_member|].
  rewrite E. opt_simpl. eexists. split; [done|]. split; [|done].
  assert (forall s g, unote_key (<[t := set_armed v false]> (<[t := v]> (el_unotes st))) s g = unote_key (<[t := v]> (el_unotes st)) s g) as Hk.
  { intros s g. apply (unote_key_same _ _ v); [by rewrite lookup_insert_eq|done]. }
  constructor; simpl; rewrite ?B1, ?B2; try done.
  - by rewrite insert_insert_eq.
  - intros j Hj. eapply moved_key_ext; [exact Hk|]. unfold updf. destruct (decide (j = i)) as [->|Hji].
    + rewrite Hin. by eapply moved_removed; [by apply Hinv| |].
    + rewrite (in_heap_other i j Hin) by congruence. eapply moved_other; [by apply Hinv|apply unote_key_stale|].
      apply not_in_heap_member; [done|]. apply (in_heap_other i); [done|congruence].
Qed.

Lemma arm_update_step i v st1 : i ∈ tidxs -> in_heap i u = true -> base st t v st1 -> du_armed v = true -> du_ident v = i ->
  exists st2, _dispatch_timer_unote_arm st1 t i = Some st2 /\ stepped st t u v st2 /\ el_log st2 = el_log st1.
Proof using Hinv Hu.
  intros Hi Hin [B1 B2 B3 B4] Ha Hid. unfold _dispatch_timer_unote_arm. rewrite B1, lookup_insert_eq. opt_simpl. rewrite Ha, B2.
  destruct (moved_updated (unote_key (el_unotes st)) (unote_key (<[t := v]> (el_unotes st))) t (el_heap st i)) as (d & E & M);
    [by apply Hinv|apply unote_key_stale|by apply in_heap_member|].
  rewrite E. opt_simpl. eexists. split; [done|]. split; [|done]. constructor; simpl; rewrite ?B1, ?B2; try done.
  intros j Hj. unfold updf. destruct (decide (j = i)) as [->|Hji].
  - rewrite Hin. unfold in_heap. rewrite Ha, Hid, Z.eqb_refl. done.
  - rewrite (in_heap_other i j Hin) by congruence.
    assert (in_heap j v = false) as -> by (unfold in_heap; rewrite Hid; apply andb_false_intro2, Z.eqb_neq; congruence).
    eapply moved_other; [by apply Hinv|apply unote_key_stale|].
    apply not_in_heap_member; [done|]. apply (in_heap_other i); [done|congruence].
Qed.

Lemma arm_insert_step i v st1 : i ∈ tidxs -> du_armed u = false -> base st t v st1 -> du_armed v = false ->
  exists st2, _dispatch_timer_unote_arm st1 t i = Some st2 /\ stepped st t u (set_armed (set_ident v i) true) st2 /\
    el_log st2 = el_log st1.
Proof using Hinv Hu.
  intros Hi Hin [B1 B2 B3 B4] Ha. unfold _dispatch_timer_unote_arm. rewrite B1, lookup_insert_eq. opt_simpl. rewrite Ha, B2.
  assert (forall j, in_heap j u = false) as Hno by (intros j; unfold in_heap; by rewrite Hin).
  assert (wf_heap (unote_key (<[t := v]> (el_unotes st))) (el_heap st i)) as W.
  { eapply wf_heap_key_ext; [|by apply Hinv]. intros s g Hs. apply unote_key_stale. intros ->. by apply (not_in_heap_member i). }
  destruct (heap_insert_ok (unote_key (<[t := v]> (el_unotes st))) (el_heap st i) t (du_qos (set_ident v i)) W) as (d & E & R);
    [by apply not_in_heap_member| |].
  { rewrite (li_count _ Hinv i Hi). pose proof (count_le (in_heap i) (el_unotes st)). pose proof (li_size _ Hinv). lia. }
  rewrite E. opt_simpl. eexists. split; [done|]. split; [|done].
  assert (forall s g, unote_key (<[t := set_armed (set_ident v i) true]> (<[t := v]> (el_unotes st))) s g = unote_key (<[t := v]> (el_unotes st)) s g) as Hk.
  { intros s g. apply (unote_key_same _ _ v); [by rewrite lookup_insert_eq|done]. }
  constructor; simpl; rewrite ?B1, ?B2; try done.
  - by rewrite insert_insert_eq.
  - intros j Hj. eapply moved_key_ext; [exact Hk|]. rewrite (Hno j). unfold updf, in_heap. simpl. destruct (decide (j = i)) as [->|Hji].
    + rewrite Z.eqb_refl. by eapply moved_inserted; [|by apply not_in_heap_member|..].
    + rewrite (proj2 (Z.eqb_neq i j)) by congruence. eapply moved_other; [by apply Hinv|apply unote_key_stale|].
      by apply not_in_heap_member.
Qed.
End steps.

(** ** Resumption and configuration *)

(** What [_dispatch_timer_unote_resume] makes of the unote. *)
Definition resumed (v : timer_unote) : timer_unote :=
  if _dispatch_timer_unote_needs_rearm v
  then set_armed (set_ident v (_dispatch_timer_unote_idx (du_timer_flags v))) true else set_armed v false.

Lemma timer_idx_tidxs flags : _dispatch_timer_unote_idx flags ∈ tidxs.
Proof.
  unfold _dispatch_timer_unote_idx, tidxs. destruct (_dispatch_timer_flags_to_clock flags); simpl; repeat constructor.
Qed.

Lemma base_refl st t u : el_unotes st !! t = Some u -> base st t u st.
Proof. intros Hu. constructor; try done. by rewrite insert_id. Qed.

Lemma set_armed_ident v : du_armed v = true -> set_armed (set_ident v (du_ident v)) true = v.
Proof. destruct v; simpl. by intros ->. Qed.

Section resume.
Context (st : event_loop) (Hinv : loop_inv st) (t : timer) (u : timer_unote) (Hu : el_unotes st !! t = Some u).

(** A timer that is in a heap. *)
Lemma resume_step i v st1 : i ∈ tidxs -> in_heap i u = true -> base st t v st1 -> du_armed v = true -> du_ident v = i ->
  unote_ok (set_armed v false) ->
  exists st2, _dispatch_timer_unote_resume st1 t = Some st2 /\ stepped st t u (resumed v) st2 /\
    el_log st2 = el_log st1 ++ (if _dispatch_timer_unote_needs_rearm v then [] else [Release t]).
Proof using Hinv Hu.
  intros Hi Hin HB Ha Hid Hok. unfold _dispatch_timer_unote_resume. rewrite (ba_unotes _ _ _ _ HB), lookup_insert_eq. opt_simpl.
  rewrite Ha. cbn [andb]. unfold resumed. destruct (_dispatch_timer_unote_needs_rearm v) eqn:En; simpl.
  - rewrite app_nil_r. destruct (du_ident v =? _dispatch_timer_unote_idx (du_timer_flags v)) eqn:Ei; simpl.
    + apply Z.eqb_eq in Ei. rewrite <- Ei, set_armed_ident by done. rewrite Hid. by apply (arm_update_step st Hinv t u Hu).
    + destruct (disarm_step st Hinv t u Hu i v st1) as (st2 & -> & S2 & L2); try done. opt_simpl.
      pose proof (stepped_inv _ _ _ _ _ Hinv Hu Hok S2) as Hinv2.
      assert (el_unotes st2 !! t = Some (set_armed v false)) as Hu2 by (by rewrite (sp_unotes _ _ _ _ _ S2), lookup_insert_eq).
      destruct (arm_insert_step st2 Hinv2 t _ Hu2 (_dispatch_timer_unote_idx (du_timer_flags v)) (set_armed v false) st2)
        as (st3 & -> & S3 & L3); [apply timer_idx_tidxs|done|by apply base_refl|done|].
      exists st3. split; [done|]. split; [|congruence]. by eapply stepped_trans.
  - destruct (disarm_step st Hinv t u Hu i v st1) as (st2 & -> & S2 & L2); try done. opt_simpl.
    eexists. split; [done|]. simpl. rewrite L2. split; [|done]. destruct S2. by constructor.
Qed.

(** A registered timer that is not. *)
Lemma resume_disarmed : du_armed u = false ->
  exists st2, _dispatch_timer_unote_resume st t = Some st2 /\ stepped st t u (resumed u) st2 /\
    el_log st2 = el_log st ++ (if _dispatch_timer_unote_needs_rearm u then [Retain t] else []).
Proof using Hinv Hu.
  intros Ha. unfold _dispatch_timer_unote_resume. rewrite Hu. opt_simpl. rewrite Ha. cbn [andb]. opt_simpl. unfold resumed.
  destruct (_dispatch_timer_unote_needs_rearm u) eqn:En; simpl.
  - apply (arm_insert_step st Hinv t u Hu); [apply timer_idx_tidxs|done| |done]. constructor; try done. simpl. by rewrite insert_id.
  - exists st. split; [done|]. rewrite app_nil_r. split; [|done].
    assert (set_armed u false = u) as -> by (destruct u; simpl in *; by subst).
    constructor; try done; [by rewrite insert_id|]. intros i Hi.
    assert (in_heap i u = false) as E by (unfold in_heap; by rewrite Ha). rewrite E.
    eapply (moved_other (unote_key (el_unotes st))); [by apply Hinv|done|by apply (not_in_heap_member st Hinv t u Hu)].
Qed.

Lemma configured_ok dtc : dt_pending_config u = Some dtc -> unote_ok (set_armed (configured_fields u dtc) false).
Proof using Hinv Hu.
  intros E. pose proof (li_unote _ Hinv t u Hu) as [_ _ H]. constructor; simpl; try done. by apply H.
Qed.

Lemma configure_step i dtc : i ∈ tidxs -> in_heap i u = true -> dt_pending_config u = Some dtc ->
  exists st2, _dispatch_timer_unote_configure st t = Some st2 /\ stepped st t u (resumed (configured_fields u dtc)) st2 /\
    el_log st2 = el_log st ++ (if _dispatch_timer_unote_needs_rearm (configured_fields u dtc) then [] else [Release t]).
Proof using Hinv Hu.
  intros Hi Hin E. unfold _dispatch_timer_unote_configure. rewrite Hu. opt_simpl. rewrite E. opt_simpl.
  pose proof Hin as [Ha Hid]%in_heap_armed. cbn [configured_fields du_armed]. rewrite Ha.
  apply (resume_step i (configured_fields u dtc) (with_unotes st (<[t := configured_fields u dtc]> (el_unotes st)))); try done.
  by apply configured_ok.
Qed.
End resume.

(** The marks of a rearmed unote are right. *)
Lemma resumed_ok v : unote_ok (set_armed v false) -> unote_ok (resumed v).
Proof.
  intros [H1 H2 H3]. unfold resumed. destruct (_dispatch_timer_unote_needs_rearm v) eqn:E; [|by constructor].
  constructor; simpl in *; try done. intros _. split; [done|].
  unfold _dispatch_timer_unote_needs_rearm in E. destruct (ds_suspended v); [done|].
  apply andb_true_iff in E as [_ E%Z.ltb_lt]. done.
Qed.

(** ** One turn of the drain *)

(** The pending data of a timer that fired [missed] times. *)
Definition fired_data (missed : Z) : Z := u64 (missed .<< 1).

Definition turned (now : Z) (u : timer_unote) : timer_unote :=
  if decide (du_timer_flags u .& DISPATCH_TIMER_AFTER <> 0) then set_data (set_unregistered u) 2
  else match dt_pending_config u with
  | Some dtc => resumed (configured_fields u dtc)
  | None =>
      if decide (ds_pending_data u <> 0)
      then set_data (set_armed u false) (ds_pending_data u .| DISPATCH_TIMER_DISARMED_MARKER)
      else
        let '(missed, dt) := _dispatch_timer_unote_compute_missed (dt_timer u) now 0 in
        if _dispatch_timer_unote_needs_rearm (set_timer u dt) then set_data (set_timer u dt) (fired_data missed)
        else set_data (set_armed (set_timer u dt) false) (fired_data missed .| DISPATCH_TIMER_DISARMED_MARKER)
  end.

Definition turn_log (now : Z) (t : timer) (u : timer_unote) : list timer_effect :=
  if decide (du_timer_flags u .& DISPATCH_TIMER_AFTER <> 0) then [MergeEvt t 2]
  else match dt_pending_config u with
  | Some dtc => if _dispatch_timer_unote_needs_rearm (configured_fields u dtc) then [] else [Release t]
  | None =>
      if decide (ds_pending_data u <> 0) then [MergeEvt t (ds_pending_data u)]
      else
        let '(missed, dt) := _dispatch_timer_unote_compute_missed (dt_timer u) now 0 in
        if _dispatch_timer_unote_needs_rearm (set_timer u dt) then [Retain t; MergeEvt t (fired_data missed)]
        else [MergeEvt t (fired_data missed .| DISPATCH_TIMER_DISARMED_MARKER)]
  end.

Section turn.
Context (st : event_loop) (Hinv : loop_inv st) (now : dispatch_clock_t -> Z) (i : Z) (Hi : i ∈ tidxs).

(** The root of a heap is the armed timer with the least target. *)
Lemma root_least t : dth_min0 (dth_slots (el_heap st i)) = Some t ->
  exists u, el_unotes st !! t = Some u /\ in_heap i u = true /\
    forall s v, el_unotes st !! s = Some v -> in_heap i v = true -> target (dt_timer u) <= target (dt_timer v).
Proof using Hinv Hi.
  intros E. destruct (node0_min (el_heap st i)) as [E0 _]. rewrite <- E0 in E. pose proof (li_wf _ Hinv i Hi) as W.
  pose proof (root_member _ _ _ W E) as Hm. apply (li_mem _ Hinv i t Hi) in Hm as (u & Hu & Hin).
  exists u. split; [done|]. split; [done|]. intros s v Hv Hiv.
  pose proof (root_min _ _ 0 t s (wf_h _ _ W 0 ltac:(lia)) (in_heap_member st Hinv s v Hv i Hi Hiv) E) as H.
  unfold unote_key in H. by rewrite Hu, Hv in H.
Qed.

Lemma root_none : dth_min0 (dth_slots (el_heap st i)) = None -> forall s v, el_unotes st !! s = Some v -> in_heap i v = false.
Proof using Hinv Hi.
  intros E s v Hv. destruct (in_heap i v) eqn:Hin; [|done]. exfalso.
  pose proof (in_heap_member st Hinv s v Hv i Hi Hin) as (j & Hj & _). pose proof (li_wf _ Hinv i Hi) as W.
  destruct (node0_min (el_heap st i)) as [E0 _]. destruct (wh_full _ _ _ _ (wf_h _ _ W 0 ltac:(lia)) 0 ltac:(lia)) as [x Hx]. congruence.
Qed.

Lemma turn_step t u : dth_min0 (dth_slots (el_heap st i)) = Some t -> el_unotes st !! t = Some u -> in_heap i u = true ->
  target (dt_timer u) <= now (DISPATCH_TIMER_CLOCK i) ->
  exists st2, timers_run_turn now i st = RunAgain st2 /\
    stepped st t u (turned (now (DISPATCH_TIMER_CLOCK i)) u) st2 /\
    el_log st2 = el_log st ++ turn_log (now (DISPATCH_TIMER_CLOCK i)) t u.
Proof using Hinv Hi.
  intros E Hu Hin Hdue. unfold timers_run_turn, turned, turn_log. rewrite E, Hu. rewrite decide_False by lia.
  pose proof Hin as [Ha Hid]%in_heap_armed.
  assert (exists st2, _dispatch_timer_unote_disarm st t = Some st2 /\ stepped st t u (set_armed u false) st2 /\ el_log st2 = el_log st)
    as (st2 & D & SD & LD) by (apply (disarm_step st Hinv t u Hu i u st); try done; by apply base_refl).
  assert (el_unotes st2 !! t = Some (set_armed u false)) as Hu2 by (by rewrite (sp_unotes _ _ _ _ _ SD), lookup_insert_eq).
  destruct (decide (du_timer_flags u .& DISPATCH_TIMER_AFTER <> 0)) as [Haf|Haf].
  { rewrite D. opt_simpl. rewrite Hu2. eexists. split; [done|]. simpl. rewrite LD. split; [|done].
    by eapply (stepped_tweak st t u (set_armed u false)). }
  destruct (dt_pending_config u) as [dtc|] eqn:Ec.
  { rewrite decide_True by done. destruct (configure_step st Hinv t u Hu i dtc Hi Hin Ec) as (st3 & -> & S3 & L3). by eexists. }
  rewrite decide_False by (by intros [? ?]). destruct (decide (ds_pending_data u <> 0)) as [Hd|Hd].
  { rewrite D. opt_simpl. rewrite Hu2. eexists. split; [done|]. simpl. rewrite LD. split; [|done].
    by eapply (stepped_tweak st t u (set_armed u false)). }
  destruct (_dispatch_timer_unote_compute_missed (dt_timer u) (now (DISPATCH_TIMER_CLOCK i)) 0) as [missed dt].
  set (v := set_timer u dt). fold (fired_data missed).
  assert (base st t v (with_unotes st (<[t := v]> (el_unotes st)))) as HB by (by constructor).
  destruct (_dispatch_timer_unote_needs_rearm v) eqn:En.
  - destruct (arm_update_step st Hinv t u Hu i v (effect (with_unotes st (<[t := v]> (el_unotes st))) (Retain t))) as (st3 & -> & S3 & L3);
      try done. opt_simpl. rewrite (sp_unotes _ _ _ _ _ S3), lookup_insert_eq. eexists. split; [done|]. simpl. rewrite L3. simpl.
    rewrite <- app_assoc. split; [|done]. eapply (stepped_tweak st t u v); try done. simpl. by rewrite (sp_unotes _ _ _ _ _ S3).
  - destruct (disarm_step st Hinv t u Hu i v (with_unotes st (<[t := v]> (el_unotes st)))) as (st3 & -> & S3 & L3); try done.
    opt_simpl. rewrite (sp_unotes _ _ _ _ _ S3), lookup_insert_eq. eexists. split; [done|]. simpl. rewrite L3. split; [|done].
    eapply (stepped_tweak st t u (set_armed v false)); try done. simpl. by rewrite (sp_unotes _ _ _ _ _ S3).
Qed.
End turn.

(** ** Running a heap *)

Definition due (i now : Z) (u : timer_unote) : bool := in_heap i u && (target (dt_timer u) <=? now).
Definition has_config (u : timer_unote) : bool := bool_decide (is_Some (dt_pending_config u)).

Lemma due_true i now u : due i now u = true <-> in_heap i u = true /\ target (dt_timer u) <= now.
Proof. unfold due. by rewrite andb_true_iff, Z.leb_le. Qed.
Lemma due_disarmed i now u : du_armed u = false -> due i now u = false.
Proof. unfold due, in_heap. by intros ->. Qed.
Lemma due_not_in i now u : in_heap i u = false -> due i now u = false.
Proof. unfold due. by intros ->. Qed.

(** The count and the new place of a timer that fires. *)
Lemma missed_cases u now : unote_ok u -> du_armed u = true -> 0 <= now < 2 ^ 62 -> target (dt_timer u) <= now ->
  let '(missed, dt) := _dispatch_timer_unote_compute_missed (dt_timer u) now 0 in
  timer_ok dt /\
  ((interval (dt_timer u) < INT64_MAX /\ missed = points (target (dt_timer u)) (interval (dt_timer u)) now /\
      dt = shift (dt_timer u) missed /\ now < target dt) \/
   (INT64_MAX <= interval (dt_timer u) /\ missed = 1 /\ INT64_MAX <= target dt)).
Proof.
  intros [H1 H2 _] Ha Hn Ht. destruct (H1 Ha) as [_ Hlt]. destruct (H2 Hlt) as (Hi & Htg & Hroom).
  destruct (decide (interval (dt_timer u) < INT64_MAX)) as [Hr|Hr].
  - specialize (Hroom Hr). assert (repeating (dt_timer u) now) as R by (constructor; lia).
    pose proof (points_le (target (dt_timer u)) (interval (dt_timer u)) now ltac:(lia) ltac:(lia) ltac:(lia)).
    pose proof (points_range (target (dt_timer u)) (interval (dt_timer u)) now ltac:(lia)).
    pose proof (points_next (target (dt_timer u)) (interval (dt_timer u)) now ltac:(lia) Ht).
    rewrite compute_missed_shift; [|done|done|lia|unfold LONG_MAX; lia]. rewrite Z.add_0_l. split.
    + intros _. simpl. split; [lia|]. split; [nia|]. intros _. lia.
    + left. split_and!; try done. simpl. lia.
  - unfold _dispatch_timer_unote_compute_missed. rewrite (decide_False (P := interval (dt_timer u) < INT64_MAX)) by lia.
    unfold INT64_MAX, LONG_MAX, UINT64_MAX in *. rewrite (wrap_small 64 (now - _)) by lia.
    rewrite (Z.div_small (now - _)) by lia. change (u64 (0 + 1)) with 1. change (u64 (1 + 0)) with 1.
    rewrite decide_False by lia. split; [intros Hx; simpl in Hx; unfold INT64_MAX in Hx; lia|]. right.
    split_and!; try done; simpl; lia.
Qed.

Lemma turned_ok u now : unote_ok u -> du_armed u = true -> 0 <= now < 2 ^ 62 -> target (dt_timer u) <= now -> unote_ok (turned now u).
Proof.
  intros Hok Ha Hn Ht. pose proof Hok as [H1 H2 H3]. unfold turned. case_decide; [by constructor|].
  destruct (dt_pending_config u) as [dtc|] eqn:Ec.
  - apply resumed_ok. constructor; simpl; try done. by apply H3.
  - case_decide; [constructor; simpl; try done; congruence|]. pose proof (missed_cases u now Hok Ha Hn Ht) as Hm.
    destruct (_dispatch_timer_unote_compute_missed (dt_timer u) now 0) as [missed dt]. destruct Hm as [Hd _].
    destruct (_dispatch_timer_unote_needs_rearm (set_timer u dt)) eqn:En; constructor; simpl; try done; try congruence.
    intros _. split; [by apply H1|]. unfold _dispatch_timer_unote_needs_rearm in En. simpl in En. destruct (ds_suspended u); [done|].
    by apply andb_true_iff in En as [_ En%Z.ltb_lt].
Qed.

(** A turn uses up a configuration or settles the timer. *)
Lemma turned_measure i u now : unote_ok u -> 0 <= now < 2 ^ 62 -> due i now u = true ->
  (Nat.b2n (due i now (turned now u)) + Nat.b2n (has_config (turned now u)) < Nat.b2n (due i now u) + Nat.b2n (has_config u))%nat.
Proof.
  intros Hok Hn Hd. rewrite Hd. apply due_true in Hd as [[Ha Hid]%in_heap_armed Ht]. unfold turned, has_config.
  destruct (decide (du_timer_flags u .& DISPATCH_TIMER_AFTER <> 0)); [rewrite due_disarmed by done; simpl; lia|].
  destruct (dt_pending_config u) as [dtc|] eqn:Ec.
  - rewrite (bool_decide_eq_true_2 (is_Some (Some dtc))) by done. rewrite bool_decide_eq_false_2.
    + destruct (due i now _); simpl; lia.
    + unfold resumed. by destruct (_dispatch_timer_unote_needs_rearm _); intros [? ?].
  - rewrite (bool_decide_eq_false_2 (is_Some None)) by (by intros [? ?]).
    destruct (decide (ds_pending_data u <> 0)); [rewrite due_disarmed by done; simpl; rewrite Ec; simpl; lia|].
    pose proof (missed_cases u now Hok Ha Hn Ht) as Hm.
    destruct (_dispatch_timer_unote_compute_missed (dt_timer u) now 0) as [missed dt]. destruct Hm as [_ Hm].
    destruct (_dispatch_timer_unote_needs_rearm (set_timer u dt)) eqn:En; [|rewrite due_disarmed by done; simpl; rewrite Ec; simpl; lia].
    assert (due i now (set_data (set_timer u dt) (fired_data missed)) = false) as ->; [|simpl; rewrite Ec; simpl; lia].
    unfold due. apply andb_false_intro2, Z.leb_gt. simpl. unfold _dispatch_timer_unote_needs_rearm in En. simpl in En.
    destruct (ds_suspended u); [done|]. apply andb_true_iff in En as [_ En%Z.ltb_lt]. destruct Hm as [(_ & _ & _ & ?)|(_ & _ & ?)]; lia.
Qed.

(** What a run of heap [i] makes of a timer. *)
Definition settle (i now : Z) (u : timer_unote) : timer_unote :=
  if due i now u then let w := turned now u in if due i now w then turned now w else w else u.
Definition settle_log (i now : Z) (t : timer) (u : timer_unote) : list timer_effect :=
  if due i now u
  then turn_log now t u ++ (if due i now (turned now u) then turn_log now t (turned now u) else []) else [].

Definition about (t : timer) (e : timer_effect) : Prop :=
  match e with Retain s | Release s | MergeEvt s _ => s = t end.
#[export] Instance about_dec t e : Decision (about t e).
Proof. destruct e; simpl; apply _. Defined.

Lemma turn_log_about now t u : Forall (about t) (turn_log now t u).
Proof.
  unfold turn_log. case_decide; [by repeat constructor|]. destruct (dt_pending_config u).
  - destruct (_dispatch_timer_unote_needs_rearm _); by repeat constructor.
  - case_decide; [by repeat constructor|].
    destruct (_dispatch_timer_unote_compute_missed _ _ _). destruct (_dispatch_timer_unote_needs_rearm _); by repeat constructor.
Qed.

Lemma settle_turned i now u : unote_ok u -> 0 <= now < 2 ^ 62 -> due i now u = true ->
  settle i now (turned now u) = settle i now u /\
  forall t, settle_log i now t u = turn_log now t u ++ settle_log i now t (turned now u).
Proof.
  intros Hok Hn Hd. pose proof (turned_measure i u now Hok Hn Hd) as H1. apply due_true in Hd as Hx. destruct Hx as [[Ha _]%in_heap_armed Ht].
  pose proof (turned_ok u now Hok Ha Hn Ht) as Hok1. unfold settle, settle_log. rewrite Hd.
  destruct (due i now (turned now u)) eqn:Hd1; [|done].
  pose proof (turned_measure i (turned now u) now Hok1 Hn Hd1) as H2. rewrite Hd, Hd1 in *.
  destruct (due i now (turned now (turned now u))); [|by split; [|intros; rewrite app_nil_r]].
  destruct (has_config u), (has_config (turned now u)); simpl in *; lia.
Qed.

Lemma settle_not_due i now u : unote_ok u -> 0 <= now < 2 ^ 62 -> due i now (settle i now u) = false.
Proof.
  intros Hok Hn. unfold settle. destruct (due i now u) eqn:Hd; [|done]. cbv zeta.
  pose proof (turned_measure i u now Hok Hn Hd) as H1. destruct (due i now (turned now u)) eqn:Hd1; [|done].
  apply due_true in Hd as Hx. destruct Hx as [[Ha _]%in_heap_armed Ht].
  pose proof (turned_measure i (turned now u) now (turned_ok u now Hok Ha Hn Ht) Hn Hd1) as H2. rewrite Hd, Hd1 in *.
  destruct (due i now (turned now (turned now u))); [|done].
  destruct (has_config u), (has_config (turned now u)); simpl in *; lia.
Qed.

(** The turns of a run of heap [i]. *)
Inductive turns (i now : Z) : event_loop -> event_loop -> Prop :=
| turns_refl st : turns i now st st
| turns_step st t u st1 st2 : el_unotes st !! t = Some u -> due i now u = true -> stepped st t u (turned now u) st1 ->
    el_log st1 = el_log st ++ turn_log now t u -> turns i now st1 st2 -> turns i now st st2.

Definition quiescent (i now : Z) (st : event_loop) : Prop :=
  forall t u, el_unotes st !! t = Some u -> due i now u = false.

Definition measure (i now : Z) (U : gmap timer timer_unote) : nat := (count (due i now) U + count has_config U)%nat.

Section run.
Context (now : dispatch_clock_t -> Z) (Hnow : now_ok now) (i : Z) (Hi : i ∈ tidxs).
Let nowi := now (DISPATCH_TIMER_CLOCK i).

Lemma turn_inv st t u st1 : loop_inv st -> el_unotes st !! t = Some u -> due i nowi u = true ->
  stepped st t u (turned nowi u) st1 -> loop_inv st1.
Proof using Hnow.
  intros Hinv Hu Hd S. apply due_true in Hd as [[Ha _]%in_heap_armed Ht]. eapply (stepped_inv st t u); try done.
  apply turned_ok; try done; [by apply (li_unote _ Hinv t)|apply Hnow].
Qed.

Lemma turn_measure st t u st1 : loop_inv st -> el_unotes st !! t = Some u -> due i nowi u = true ->
  stepped st t u (turned nowi u) st1 -> (measure i nowi (el_unotes st1) < measure i nowi (el_unotes st))%nat.
Proof using Hnow.
  intros Hinv Hu Hd S. unfold measure. rewrite (sp_unotes _ _ _ _ _ S).
  pose proof (count_update (due i nowi) _ _ _ (turned nowi u) Hu). pose proof (count_update has_config _ _ _ (turned nowi u) Hu).
  pose proof (turned_measure i u nowi (li_unote _ Hinv t u Hu) (Hnow _) Hd). lia.
Qed.

Lemma run_turns fuel : forall st, loop_inv st -> (measure i nowi (el_unotes st) < fuel)%nat ->
  exists st', timers_run fuel now i st = Some st' /\ turns i nowi st st' /\ quiescent i nowi st'.
Proof using Hi Hnow.
  induction fuel as [|fuel IH]; intros st Hinv Hf; [lia|]. cbn [timers_run].
  destruct (dth_min0 (dth_slots (el_heap st i))) as [t|] eqn:E.
  - destruct (root_least st Hinv i Hi t E) as (u & Hu & Hin & Hleast).
    destruct (decide (target (dt_timer u) <= nowi)) as [Ht|Ht].
    + assert (due i nowi u = true) as Hd by (by apply due_true).
      destruct (turn_step st Hinv now i Hi t u E Hu Hin Ht) as (st2 & -> & S & L). fold nowi in S, L.
      pose proof (turn_inv st t u st2 Hinv Hu Hd S) as Hinv2. pose proof (turn_measure st t u st2 Hinv Hu Hd S).
      destruct (IH st2 Hinv2 ltac:(lia)) as (st' & -> & T & Q). exists st'. split; [done|]. split; [|done]. by econstructor.
    + unfold timers_run_turn. rewrite E, Hu. fold nowi. rewrite decide_True by lia. exists st. split; [done|]. split; [constructor|].
      intros s v Hv. destruct (due i nowi v) eqn:Hd; [|done]. apply due_true in Hd as [Hiv Htv].
      specialize (Hleast s v Hv Hiv). lia.
  - unfold timers_run_turn. rewrite E. exists st. split; [done|]. split; [constructor|].
    intros s v Hv. apply due_not_in. by apply (root_none st Hinv i Hi E s).
Qed.

Lemma turns_inv st st' : turns i nowi st st' -> loop_inv st -> loop_inv st'.
Proof using Hnow. induction 1 as [|st t u st1 st2 Hu Hd S L T IH]; [done|]. intros Hinv. apply IH. by eapply turn_inv. Qed.

Lemma turns_settle st st' : turns i nowi st st' -> loop_inv st -> quiescent i nowi st' ->
  el_unotes st' = settle i nowi <$> el_unotes st.
Proof using Hnow.
  induction 1 as [st|st t u st1 st2 Hu Hd S L T IH]; intros Hinv Hq.
  - apply map_eq. intros t. rewrite lookup_fmap. destruct (el_unotes st !! t) as [u|] eqn:Hu; [|done].
    simpl. unfold settle. by rewrite (Hq t u Hu).
  - rewrite IH; [|by eapply turn_inv|done]. rewrite (sp_unotes _ _ _ _ _ S), fmap_insert.
    destruct (settle_turned i nowi u (li_unote _ Hinv t u Hu) (Hnow _) Hd) as [-> _].
    rewrite insert_id; [done|]. by rewrite lookup_fmap, Hu.
Qed.

Lemma turns_log st st' : turns i nowi st st' -> loop_inv st -> quiescent i nowi st' ->
  exists L, el_log st' = el_log st ++ L /\
    forall t u, el_unotes st !! t = Some u -> filter (about t) L = settle_log i nowi t u.
Proof using Hnow.
  induction 1 as [st|st t u st1 st2 Hu Hd S L T IH]; intros Hinv Hq.
  - exists []. rewrite app_nil_r. split; [done|]. intros t u Hu. unfold settle_log. by rewrite (Hq t u Hu).
  - destruct (IH (turn_inv _ _ _ _ Hinv Hu Hd S) Hq) as (L' & E & HL). exists (turn_log nowi t u ++ L').
    split; [by rewrite E, L, app_assoc|]. intros s v Hv. rewrite filter_app. destruct (decide (s = t)) as [->|Hst].
    + rewrite Hu in Hv. injection Hv as <-. rewrite (HL t (turned nowi u)) by (by rewrite (sp_unotes _ _ _ _ _ S), lookup_insert_eq).
      destruct (settle_turned i nowi u (li_unote _ Hinv t u Hu) (Hnow _) Hd) as [_ ->]. f_equal. apply filter_all, turn_log_about.
    + rewrite (HL s v) by (by rewrite (sp_unotes _ _ _ _ _ S), lookup_insert_ne).
      rewrite filter_none; [done|]. eapply Forall_impl; [apply turn_log_about|]. intros e He Hs. destruct e; simpl in *; congruence.
Qed.

End run.
