(* ===== verification/TimerLoop.v ===== *)
(** * The event loop's timers: the drain

    The timer descriptors of the kernel against the heaps, the drain of
    [_dispatch_event_loop_drain_timers], and the references the loop holds.  The theorems say
    that a run settles every timer, that a drain ends with the descriptors set to the
    earliest targets, and that references balance. *)

From S2P Require Import Prelude Time HeapOrder TimerHeap Segments TimerOps TimerSource TimerRun TimerTurns.

Local Open Scope word_scope.

(** ** The kernel's timers *)

(** Heap [j] asks to be programmed or holds nothing due. *)
Definition quiet (j now : Z) (st : event_loop) : Prop := dth_needs_program (el_heap st j) = true \/ quiescent j now st.

(** A heap that does not ask to be programmed has its kernel timer set to its least target. *)
Definition synced (j : Z) (st : event_loop) : Prop :=
  let e := _dispatch_epoll_timeout st (DISPATCH_TIMER_CLOCK j) in
  (det_armed e = dth_armed st j /\ (det_armed e = true -> det_registered e = true)) /\
  (dth_needs_program (el_heap st j) = false ->
   match dth_min0 (dth_slots (el_heap st j)) with
   | None => det_armed e = false
   | Some t => det_armed e = true /\ exists u, el_unotes st !! t = Some u /\ it_value e = target (dt_timer u)
   end).

(** The same, or its root is due. *)
Definition presynced (j now : Z) (st : event_loop) : Prop :=
  synced j st \/
  ((let e := _dispatch_epoll_timeout st (DISPATCH_TIMER_CLOCK j) in
    det_armed e = dth_armed st j /\ (det_armed e = true -> det_registered e = true)) /\
   exists t u, dth_min0 (dth_slots (el_heap st j)) = Some t /\ el_unotes st !! t = Some u /\ due j now u = true).

Section keep.
Context (st : event_loop) (Hinv : loop_inv st) (st' : event_loop) (Hinv' : loop_inv st') (t : timer) (u u' : timer_unote)
  (S : stepped st t u u' st') (j : Z) (Hj : j ∈ tidxs).

(** While no programming is asked for the root and its unote stay. *)
Lemma stepped_root : dth_needs_program (el_heap st' j) = false ->
  dth_needs_program (el_heap st j) = false /\
  dth_min0 (dth_slots (el_heap st' j)) = dth_min0 (dth_slots (el_heap st j)) /\
  forall r, dth_min0 (dth_slots (el_heap st' j)) = Some r -> el_unotes st' !! r = el_unotes st !! r.
Proof using S Hj.
  intros Hn. pose proof (sp_moved _ _ _ _ _ S j Hj) as M.
  destruct (node0_min (el_heap st j)) as [E _]. destruct (node0_min (el_heap st' j)) as [E' _]. rewrite <- E, <- E'.
  split; [destruct (dth_needs_program (el_heap st j)) eqn:Hx; [|done]; by rewrite (mv_mono _ _ _ _ _ _ M) in Hn|].
  split.
  - destruct (decide (node (el_heap st' j) 0 0 = node (el_heap st j) 0 0)); [done|]. rewrite (mv_root _ _ _ _ _ _ M) in Hn by (by left). done.
  - intros r Hr. rewrite (sp_unotes _ _ _ _ _ S). apply lookup_insert_ne. intros ->.
    rewrite (mv_root _ _ _ _ _ _ M) in Hn by (by right). done.
Qed.

Lemma stepped_quiet now : quiet j now st -> quiet j now st'.
Proof using S Hj Hinv Hinv'.
  intros Hq. destruct (dth_needs_program (el_heap st' j)) eqn:Hn; [by left|]. right.
  destruct (stepped_root Hn) as (Hn0 & Hr & Hu). destruct Hq as [?|Hq]; [congruence|]. intros s v Hv.
  destruct (due j now v) eqn:Hd; [|done]. exfalso. apply due_true in Hd as [Hin Ht].
  destruct (dth_min0 (dth_slots (el_heap st' j))) as [r|] eqn:E.
  - destruct (root_least st' Hinv' j Hj r E) as (w & Hw & Hiw & Hl). specialize (Hl s v Hv Hin).
    rewrite (Hu r) in Hw by done. specialize (Hq r w Hw). assert (due j now w = true); [|congruence]. apply due_true. split; [done|lia].
  - by rewrite (root_none st' Hinv' j Hj E s v Hv) in Hin.
Qed.

Lemma stepped_synced : synced j st -> synced j st'.
Proof using S Hj.
  intros [Ha Hs]. unfold synced. rewrite (sp_armed _ _ _ _ _ S), (sp_timeout _ _ _ _ _ S). split; [done|]. intros Hn.
  destruct (stepped_root Hn) as (Hn0 & Hr & Hu). specialize (Hs Hn0). rewrite <- Hr in Hs.
  destruct (dth_min0 (dth_slots (el_heap st' j))) as [r|]; [|done]. by rewrite (Hu r).
Qed.
Lemma stepped_presynced now : presynced j now st -> presynced j now st'.
Proof using S Hj.
  intros [Hs|[Ha (r & w & Hr & Hw & Hd)]]; [left; by apply stepped_synced|].
  destruct (dth_needs_program (el_heap st' j)) eqn:Hn.
  - left. split; [by rewrite (sp_armed _ _ _ _ _ S), (sp_timeout _ _ _ _ _ S)|]. by rewrite Hn.
  - right. destruct (stepped_root Hn) as (Hn0 & E & Hu). rewrite (sp_armed _ _ _ _ _ S), (sp_timeout _ _ _ _ _ S). split; [done|].
    exists r, w. rewrite Hr in E. split; [done|]. split; [by rewrite (Hu r)|done].
Qed.
End keep.

(** What a run leaves as it was. *)
Record kept (st st' : event_loop) : Prop := {
  kp_quiet : forall j now, j ∈ tidxs -> quiet j now st -> quiet j now st';
  kp_synced : forall j, j ∈ tidxs -> synced j st -> synced j st';
  kp_presynced : forall j now, j ∈ tidxs -> presynced j now st -> presynced j now st';
}.

Lemma turns_kept now i st st' : now_ok now -> turns i (now (DISPATCH_TIMER_CLOCK i)) st st' -> loop_inv st -> kept st st'.
Proof.
  intros Hnow. induction 1 as [st|st t u st1 st2 Hu Hd S L T IH]; intros Hinv; [done|].
  pose proof (turn_inv now Hnow i st t u st1 Hinv Hu Hd S) as Hinv1. destruct (IH Hinv1) as [H1 H2 H3]. constructor; intros.
  - apply H1; [done|]. by eapply (stepped_quiet st Hinv st1 Hinv1).
  - apply H2; [done|]. by eapply (stepped_synced st).
  - apply H3; [done|]. by eapply (stepped_presynced st).
Qed.

(** ** A run of one heap *)

Lemma timers_run_ok now i st :
  loop_inv st -> now_ok now -> i ∈ tidxs ->
  let nowi := now (DISPATCH_TIMER_CLOCK i) in
  exists st' L, _dispatch_timers_run now i st = Some st' /\ loop_inv st' /\
    el_unotes st' = settle i nowi <$> el_unotes st /\ quiescent i nowi st' /\
    el_log st' = el_log st ++ L /\
    (forall t u, el_unotes st !! t = Some u -> filter (about t) L = settle_log i nowi t u) /\ kept st st'.
Proof.
  intros Hinv Hnow Hi. cbv zeta. unfold _dispatch_timers_run.
  destruct (run_turns now Hnow i Hi (run_fuel st) st Hinv) as (st' & E & T & Q).
  { unfold run_fuel, measure. pose proof (count_le (due i (now (DISPATCH_TIMER_CLOCK i))) (el_unotes st)).
    pose proof (count_le has_config (el_unotes st)). lia. }
  destruct (turns_log now Hnow i st st' T Hinv Q) as (L & EL & HL). exists st', L. split_and!; try done.
  - by eapply turns_inv.
  - by apply turns_settle.
  - by eapply turns_kept.
Qed.

(** ** Programming *)

Lemma clear_needs_wf key d : wf_heap key d -> wf_heap key (clear_needs_program d).
Proof.
  intros [[W1 W2 W3 W4] H S O E]. constructor; try done.
  intros g Hg. destruct (H g Hg). by constructor.
Qed.

Lemma tidxs_clock j k : j ∈ tidxs -> k ∈ tidxs -> j <> k -> DISPATCH_TIMER_CLOCK j <> DISPATCH_TIMER_CLOCK k.
Proof.
  unfold tidxs. rewrite !elem_of_cons, !elem_of_nil. intros Hj Hk Hne E.
  destruct Hj as [->|[->|[->|[]]]], Hk as [->|[->|[->|[]]]]; done.
Qed.

Record programmed (nowj j : Z) (st st' : event_loop) : Prop := {
  pg_unotes : el_unotes st' = el_unotes st;
  pg_log : el_log st' = el_log st;
  pg_heap : forall k, k <> j -> el_heap st' k = el_heap st k;
  pg_heap_j : el_heap st' j = clear_needs_program (el_heap st j);
  pg_armed : forall k, k <> j -> dth_armed st' k = dth_armed st k;
  pg_timeout : forall k, k ∈ tidxs -> k <> j ->
    _dispatch_epoll_timeout st' (DISPATCH_TIMER_CLOCK k) = _dispatch_epoll_timeout st (DISPATCH_TIMER_CLOCK k);
  pg_done : (dth_dirty_bits st' = dth_dirty_bits st /\ quiescent j nowj st' /\ synced j st') \/
    (dth_dirty_bits st' <> 0 /\ presynced j nowj st' /\ ~ quiescent j nowj st);
}.

Lemma programmed_inv nowj j st st' : loop_inv st -> programmed nowj j st st' -> loop_inv st'.
Proof.
  intros [I1 I2 I3 I4 I5] P. rewrite <- (pg_unotes _ _ _ _ P) in *.
  assert (forall k, k ∈ tidxs -> el_heap st' k = el_heap st k \/ el_heap st' k = clear_needs_program (el_heap st k)) as Hh.
  { intros k Hk. destruct (decide (k = j)) as [->|]; [right; apply P|left; by apply P]. }
  constructor; try done.
  - intros k Hk. destruct (Hh k Hk) as [->| ->]; [by apply I1|]. by apply clear_needs_wf, I1.
  - intros k s Hk. rewrite <- I2 by done. by destruct (Hh k Hk) as [->| ->].
  - intros k Hk. rewrite <- I3 by done. by destruct (Hh k Hk) as [->| ->].
Qed.

Lemma programmed_other nowj j k st st' : programmed nowj j st st' -> k ∈ tidxs -> k <> j ->
  (synced k st -> synced k st') /\ (forall nowk, presynced k nowk st -> presynced k nowk st') /\
  (forall nowk, quiescent k nowk st -> quiescent k nowk st').
Proof.
  intros P Hk Hkj. unfold presynced, synced, quiescent. rewrite (pg_unotes _ _ _ _ P), (pg_heap _ _ _ _ P k Hkj), (pg_armed _ _ _ _ P k Hkj),
    (pg_timeout _ _ _ _ P k Hk Hkj). done.
Qed.

Lemma dirty_nonzero st j : dth_dirty_bits (_dispatch_timers_heap_dirty st j) <> 0.
Proof.
  simpl. intros H. apply Z.lor_eq_0_iff in H as [_ H]. apply Z.lor_eq_0_iff in H as [_ H]. done.
Qed.

(** The two minima of a heap are both there or neither. *)
Lemma min_both st j a : loop_inv st -> j ∈ tidxs -> dth_min0 (dth_slots (el_heap st j)) = Some a ->
  exists b ub, dth_min1 (dth_slots (el_heap st j)) = Some b /\ el_unotes st !! b = Some ub.
Proof.
  intros Hinv Hj E. pose proof (li_wf _ Hinv j Hj) as W. destruct (node0_min (el_heap st j)) as [E0 E1].
  rewrite <- E0 in E. pose proof (root_member _ _ _ W E) as (n & Hn & _).
  destruct (wh_full _ _ _ _ (wf_h _ _ W 1 ltac:(lia)) 0 ltac:(lia)) as [b Hb]. rewrite Hb in E1.
  assert (member (el_heap st j) 0 b) as Hm by (apply (wf_same _ _ W); exists 0; split; [lia|done]).
  apply (li_mem _ Hinv j b Hj) in Hm as (ub & Hub & _). by exists b, ub.
Qed.

(** The kernel timer of a heap with nothing to wait for is removed. *)
Definition switched_off (st : event_loop) (j : Z) : event_loop :=
  let st := if dth_armed st j then _dispatch_event_loop_timer_delete st j else st in
  with_heap (with_armed st j false) j (clear_needs_program (el_heap st j)).

Lemma switched_off_facts st j :
  det_armed (_dispatch_epoll_timeout st (DISPATCH_TIMER_CLOCK j)) = dth_armed st j ->
  (det_armed (_dispatch_epoll_timeout st (DISPATCH_TIMER_CLOCK j)) = true -> det_registered (_dispatch_epoll_timeout st (DISPATCH_TIMER_CLOCK j)) = true) ->
  let st1 := switched_off st j in
  el_unotes st1 = el_unotes st /\ el_log st1 = el_log st /\ dth_dirty_bits st1 = dth_dirty_bits st /\
  el_heap st1 = updf (el_heap st) j (clear_needs_program (el_heap st j)) /\ dth_armed st1 = updf (dth_armed st) j false /\
  det_armed (_dispatch_epoll_timeout st1 (DISPATCH_TIMER_CLOCK j)) = false /\
  forall k, k <> DISPATCH_TIMER_CLOCK j -> _dispatch_epoll_timeout st1 k = _dispatch_epoll_timeout st k.
Proof.
  intros Ha Har. cbv zeta. unfold switched_off, _dispatch_event_loop_timer_delete, _dispatch_timeout_program.
  destruct (dth_armed st j) eqn:Earm; [|by split_and!].
  rewrite (Har Ha). rewrite decide_False by (by intros [_ ?]). rewrite decide_False by (by vm_compute). simpl. split_and!; try done.
  - by rewrite decide_True.
  - intros k Hk. by rewrite decide_False.
Qed.

Lemma programmed_off nowj st0 st j : j ∈ tidxs -> synced j st0 -> (exists v, st = with_dirty st0 v) ->
  (dth_dirty_bits st = dth_dirty_bits st0 /\ dth_min0 (dth_slots (el_heap st0 j)) = None /\ quiescent j nowj st0) \/
  (dth_dirty_bits st <> 0 /\ exists a u, dth_min0 (dth_slots (el_heap st0 j)) = Some a /\ el_unotes st0 !! a = Some u /\ due j nowj u = true) ->
  programmed nowj j st0 (switched_off st j).
Proof.
  intros Hj [[Ha Har] _] [v ->] Hd.
  destruct (switched_off_facts (with_dirty st0 v) j Ha Har) as (F1 & F2 & F3 & F4 & F5 & F6 & F7).
  constructor; rewrite ?F1, ?F2, ?F4, ?F5; try done.
  - intros k Hk. unfold updf. by rewrite decide_False.
  - unfold updf. by rewrite decide_True.
  - intros k Hk. unfold updf. by rewrite decide_False.
  - intros k Hk Hkj. apply F7. by apply tidxs_clock.
  - rewrite F3. destruct Hd as [(Hd & E0 & Hq)|(Hd & a & u & E0 & Hu & Hdue)]; [left|right]; (split; [done|]).
    + split; [intros s w; rewrite F1; apply Hq|]. unfold synced. cbv zeta. rewrite F4, F5, F6. unfold updf. rewrite !decide_True by done.
      split; [done|]. intros _. simpl. by rewrite E0.
    + split; [|intros Hq; by rewrite (Hq a u Hu) in Hdue]. right. cbv zeta. rewrite F1, F4, F5, F6. unfold updf. rewrite !decide_True by done.
      split; [done|]. exists a, u. by split_and!.
Qed.

Lemma programmed_on nowj st j a u : j ∈ tidxs -> loop_inv st -> dth_min0 (dth_slots (el_heap st j)) = Some a -> el_unotes st !! a = Some u ->
  nowj < target (dt_timer u) < INT64_MAX ->
  programmed nowj j st (with_heap (with_armed (_dispatch_timeout_program st j (target (dt_timer u))) j true) j (clear_needs_program (el_heap st j))).
Proof.
  intros Hj Hinv E0 Hu Ht. destruct (root_least st Hinv j Hj a E0) as (u' & Hu' & Hin & Hl).
  rewrite Hu in Hu'. injection Hu' as <-. unfold _dispatch_timeout_program. rewrite decide_False by lia. rewrite decide_True by lia.
  constructor; simpl; try done.
  - intros k Hk. unfold updf. by rewrite decide_False.
  - unfold updf. by rewrite decide_True.
  - intros k Hk. unfold updf. by rewrite decide_False.
  - intros k Hk Hkj. rewrite decide_False; [done|]. by apply tidxs_clock.
  - left. split; [done|]. split.
    + intros s v Hv. destruct (due j nowj v) eqn:Hd; [|done]. apply due_true in Hd as [Hiv Htv]. specialize (Hl s v Hv Hiv). lia.
    + unfold synced. simpl. unfold updf. rewrite !decide_True by done. simpl. split; [done|]. intros _. rewrite E0. split; [done|]. by exists u.
Qed.

Lemma program_ok now j st : loop_inv st -> now_ok now -> j ∈ tidxs -> synced j st ->
  exists st', _dispatch_timers_program now j st = Some st' /\ programmed (now (DISPATCH_TIMER_CLOCK j)) j st st'.
Proof.
  intros Hinv Hnow Hj Hs. pose proof (Hnow (DISPATCH_TIMER_CLOCK j)) as Hn. set (nowj := now (DISPATCH_TIMER_CLOCK j)) in *.
  unfold _dispatch_timers_program, _dispatch_timers_get_delay. fold nowj.
  destruct (dth_min0 (dth_slots (el_heap st j))) as [a|] eqn:E0.
  - destruct (root_least st Hinv j Hj a E0) as (u & Hu & Hin & Hl). destruct (min_both st j a Hinv Hj E0) as (b & ub & -> & Hub).
    rewrite Hu, Hub. cbn [mbind option_bind]. cbv zeta.
    pose proof (li_unote _ Hinv a u Hu) as [Hoa Hot _]. pose proof Hin as [Haa _]%in_heap_armed. destruct (Hoa Haa) as [_ Hlt]. destruct (Hot Hlt) as (_ & Htg & _).
    destruct (decide (target (dt_timer u) <= nowj)) as [Ht|Ht]; cbn [mbind option_bind]; cbv zeta.
    + rewrite (decide_True (P := 0 = 0)) by done. rewrite decide_True by (by left). eexists. split; [done|].
      apply (programmed_off nowj st (_dispatch_timers_heap_dirty st j)); try done; [by eexists|]. right. split; [apply dirty_nonzero|].
      exists a, u. split_and!; try done. by apply due_true.
    + assert (u64 (target (dt_timer u) - nowj) = target (dt_timer u) - nowj) as -> by (apply wrap_small; unfold INT64_MAX in *; lia).
      rewrite (Z.min_l (target (dt_timer u) - nowj)) by lia. rewrite (decide_False (P := target (dt_timer u) - nowj = 0)) by lia.
      rewrite decide_False by lia. eexists. split; [done|]. unfold _dispatch_event_loop_timer_arm. fold nowj.
      rewrite wrap_small by (unfold INT64_MAX in *; lia). replace (target (dt_timer u) - nowj + nowj) with (target (dt_timer u)) by lia.
      assert (el_heap (_dispatch_timeout_program st j (target (dt_timer u))) = el_heap st) as Eh.
      { unfold _dispatch_timeout_program. by repeat case_decide. }
      rewrite Eh. apply (programmed_on nowj st j a u); try done. lia.
  - cbn [mbind option_bind]. cbv zeta. rewrite (decide_False (P := INT64_MAX = 0)) by done. rewrite decide_True by (right; done).
    eexists. split; [done|]. apply (programmed_off nowj st st); try done; [exists (dth_dirty_bits st); by destruct st|].
    left. split_and!; try done. intros s v Hv. apply due_not_in. by apply (root_none st Hinv j Hj E0 s).
Qed.

(** ** Draining *)

Lemma turned_no_config now u : dt_pending_config u = None -> dt_pending_config (turned now u) = None /\ du_ident (turned now u) = du_ident u.
Proof.
  intros E. unfold turned. rewrite E. case_decide; [done|]. case_decide; [done|].
  destruct (_dispatch_timer_unote_compute_missed (dt_timer u) now 0) as [missed dt]. by destruct (_dispatch_timer_unote_needs_rearm (set_timer u dt)).
Qed.

(** Without a configuration a timer stays in its heap or leaves it. *)
Lemma turned_other i j now u : in_heap i u = true -> i <> j -> dt_pending_config u = None \/ du_timer_flags u .& DISPATCH_TIMER_AFTER <> 0 ->
  in_heap j (turned now u) = false.
Proof.
  intros [_ Hid]%in_heap_armed Hij Hc. unfold in_heap. destruct (decide (du_timer_flags u .& DISPATCH_TIMER_AFTER <> 0)) as [Ha|Ha].
  - unfold turned. by rewrite decide_True.
  - destruct Hc as [Hc|]; [|done]. destruct (turned_no_config now u Hc) as [_ ->]. apply andb_false_intro2, Z.eqb_neq. congruence.
Qed.

Lemma turned_has_config now u : has_config (turned now u) = true -> has_config u = true /\ du_timer_flags u .& DISPATCH_TIMER_AFTER <> 0.
Proof.
  unfold has_config. rewrite !bool_decide_eq_true. unfold turned. case_decide; [done|].
  destruct (dt_pending_config u) as [dtc|] eqn:E.
  - unfold resumed. destruct (_dispatch_timer_unote_needs_rearm _); by intros [? ?].
  - case_decide; [simpl; rewrite E; by intros [? ?]|].
    destruct (_dispatch_timer_unote_compute_missed (dt_timer u) now 0) as [missed dt]. destruct (_dispatch_timer_unote_needs_rearm (set_timer u dt)); simpl; rewrite E; by intros [? ?].
Qed.

(** What a drain makes of a timer without a pending configuration. *)
Definition fin (now : dispatch_clock_t -> Z) (u : timer_unote) : timer_unote :=
  if du_armed u then settle (du_ident u) (now (DISPATCH_TIMER_CLOCK (du_ident u))) u else u.

Section drain.
Context (now : dispatch_clock_t -> Z) (Hnow : now_ok now).
Abbreviation at_ j := (now (DISPATCH_TIMER_CLOCK j)).

Lemma turns_configs i st st' : turns i (at_ i) st st' -> loop_inv st ->
  (count has_config (el_unotes st') <= count has_config (el_unotes st))%nat /\ size (el_unotes st') = size (el_unotes st) /\
  ((count has_config (el_unotes st') < count has_config (el_unotes st))%nat \/
   forall j, j <> i -> quiescent j (at_ j) st -> quiescent j (at_ j) st').
Proof using Hnow.
  induction 1 as [st|st t u st1 st2 Hu Hd S L T IH]; intros Hinv; [split; [lia|]; split; [done|by right]|].
  destruct (IH (turn_inv now Hnow i st t u st1 Hinv Hu Hd S)) as (H1 & Hsz & H2).
  pose proof (count_update has_config _ _ _ (turned (at_ i) u) Hu) as Hc. rewrite <- (sp_unotes _ _ _ _ _ S) in Hc.
  pose proof (turned_has_config (at_ i) u) as Ht. apply due_true in Hd as [Hin _].
  assert (size (el_unotes st1) = size (el_unotes st)) as Hsz1
    by (rewrite (sp_unotes _ _ _ _ _ S); apply map_size_insert_Some; by eexists).
  destruct (has_config (turned (at_ i) u)) eqn:E1; [|destruct (has_config u) eqn:E2].
  - destruct (Ht eq_refl) as [E2 Ha]. rewrite E2 in Hc. simpl in Hc. split; [lia|]. split; [congruence|].
    destruct H2 as [H2|H2]; [left; lia|right]. intros j Hj Hq. apply H2; [done|]. intros s v. rewrite (sp_unotes _ _ _ _ _ S).
    intros [[<- <-]|[_ Hv]]%lookup_insert_Some; [|by apply (Hq s)]. apply due_not_in, (turned_other i); [done..|by right].
  - simpl in Hc. split; [lia|]. split; [congruence|]. left. lia.
  - simpl in Hc. split; [lia|]. split; [congruence|]. destruct H2 as [H2|H2]; [left; lia|right]. intros j Hj Hq. apply H2; [done|]. intros s v.
    rewrite (sp_unotes _ _ _ _ _ S). intros [[<- <-]|[_ Hv]]%lookup_insert_Some; [|by apply (Hq s)].
    apply due_not_in, (turned_other i); [done..|left]. unfold has_config in E2. apply bool_decide_eq_false in E2.
    by apply eq_None_not_Some.
Qed.

Lemma turned_fin i u : unote_ok u -> due i (at_ i) u = true -> dt_pending_config u = None -> fin now (turned (at_ i) u) = fin now u.
Proof using Hnow.
  intros Hok Hd Hc. pose proof Hd as [[Ha Hid]%in_heap_armed _]%due_true. destruct (turned_no_config (at_ i) u Hc) as [_ Hid'].
  unfold fin. rewrite Ha, Hid', Hid. destruct (settle_turned i (at_ i) u Hok (Hnow _) Hd) as [E _].
  destruct (du_armed (turned (at_ i) u)) eqn:Ea; [done|]. rewrite <- E. unfold settle. by rewrite due_disarmed.
Qed.

Lemma turns_fin i st st' : turns i (at_ i) st st' -> loop_inv st ->
  forall t u, el_unotes st !! t = Some u -> dt_pending_config u = None ->
  exists u', el_unotes st' !! t = Some u' /\ dt_pending_config u' = None /\ fin now u' = fin now u.
Proof using Hnow.
  induction 1 as [st|st t u st1 st2 Hu Hd S L T IH]; intros Hinv s v Hv Hc; [by exists v|].
  destruct (decide (s = t)) as [->|Hst].
  - rewrite Hu in Hv. injection Hv as <-. destruct (turned_no_config (at_ i) u Hc) as [Hc' _].
    destruct (IH (turn_inv now Hnow i st t u st1 Hinv Hu Hd S) t (turned (at_ i) u)) as (u' & H1 & H2 & H3); [|done|].
    + by rewrite (sp_unotes _ _ _ _ _ S), lookup_insert_eq.
    + exists u'. split_and!; try done. rewrite H3. apply turned_fin; try done. by apply (li_unote _ Hinv t).
  - apply (IH (turn_inv now Hnow i st t u st1 Hinv Hu Hd S) s v); [|done]. by rewrite (sp_unotes _ _ _ _ _ S), lookup_insert_ne.
Qed.

(** One pass over the heaps of [l]. *)
Record passed (l : list Z) (st st' : event_loop) : Prop := {
  ps_inv : loop_inv st';
  ps_pre : forall j, j ∈ tidxs -> presynced j (at_ j) st -> presynced j (at_ j) st';
  ps_done : forall j, j ∈ tidxs -> presynced j (at_ j) st -> j ∈ l \/ (synced j st /\ quiet j (at_ j) st) ->
    synced j st' /\ quiet j (at_ j) st';
  ps_count : (count has_config (el_unotes st') <= count has_config (el_unotes st))%nat;
  ps_size : size (el_unotes st') = size (el_unotes st);
  ps_progress : (count has_config (el_unotes st') < count has_config (el_unotes st))%nat \/
    forall j, j ∈ l \/ quiescent j (at_ j) st -> quiescent j (at_ j) st';
  ps_fin : forall t u, el_unotes st !! t = Some u -> dt_pending_config u = None ->
    exists u', el_unotes st' !! t = Some u' /\ dt_pending_config u' = None /\ fin now u' = fin now u;
}.

(** In a heap with nothing due the root is not due. *)
Lemma quiescent_synced j st : quiescent j (at_ j) st -> presynced j (at_ j) st -> synced j st.
Proof using. intros Hq [Hs|(_ & t & u & _ & Hu & Hd)]; [done|]. by rewrite (Hq t u Hu) in Hd. Qed.

Lemma run_all_ok l : forall st, loop_inv st -> (forall j, j ∈ l -> j ∈ tidxs) ->
  exists st', run_all now l st = Some st' /\ passed l st st'.
Proof using Hnow.
  induction l as [|i l IH]; intros st Hinv Hl.
  - exists st. split; [done|]. constructor; try done.
    + intros j _ _ [Hn|?]; [by apply elem_of_nil in Hn|done].
    + right. intros j [Hn|?]; [by apply elem_of_nil in Hn|done].
    + intros t u Hu Hc. by exists u.
  - assert (i ∈ tidxs) as Hi by (apply Hl; left). cbn [run_all]. unfold _dispatch_timers_run.
    destruct (run_turns now Hnow i Hi (run_fuel st) st Hinv) as (st1 & -> & T & Q).
    { unfold run_fuel, measure. pose proof (count_le (due i (at_ i)) (el_unotes st)). pose proof (count_le has_config (el_unotes st)). lia. }
    opt_simpl. pose proof (turns_inv now Hnow i st st1 T Hinv) as Hinv1. pose proof (turns_kept now i st st1 Hnow T Hinv) as [K1 K2 K3].
    destruct (turns_configs i st st1 T Hinv) as (C1 & C2 & C3). pose proof (turns_fin i st st1 T Hinv) as F.
    destruct (IH st1 Hinv1) as (st' & -> & [P1 P2 P3 P4 P5 P6 P7]); [intros; apply Hl; by right|].
    exists st'. split; [done|]. constructor; try done.
    + intros j Hj Hp. apply P2; [done|]. by apply K3.
    + intros j Hj Hp Hor. pose proof (K3 j (at_ j) Hj Hp) as Hp1. apply P3; [done|done|].
      destruct Hor as [[->|Hjl]%elem_of_cons|[Hs Hqq]].
      * right. split; [by apply quiescent_synced|by right].
      * by left.
      * right. split; [by apply K2|by apply K1].
    + lia.
    + congruence.
    + destruct C3 as [C3|C3]; [left; lia|]. destruct P6 as [P6|P6]; [left; lia|]. right. intros j Hor. apply P6.
      destruct (decide (j = i)) as [->|Hji]; [by right|]. destruct Hor as [[?|?]%elem_of_cons|?]; [done|by left|right; by apply C3].
    + intros t u Hu Hc. destruct (F t u Hu Hc) as (u1 & H1 & H2 & H3). destruct (P7 t u1 H1 H2) as (u' & ? & ? & ?).
      exists u'. split_and!; try done. congruence.
Qed.

(** Heap [j] is settled: programmed and with nothing due. *)
Definition settled (j : Z) (st : event_loop) : Prop :=
  dth_needs_program (el_heap st j) = false /\ synced j st /\ quiescent j (at_ j) st.

Record programs (l : list Z) (st st' : event_loop) : Prop := {
  pr_inv : loop_inv st';
  pr_unotes : el_unotes st' = el_unotes st;
  pr_log : el_log st' = el_log st;
  pr_pre : forall j, j ∈ tidxs -> presynced j (at_ j) st -> presynced j (at_ j) st';
  pr_other : forall j, j ∈ tidxs -> j ∉ l -> settled j st -> settled j st';
  pr_dirty : dth_dirty_bits st <> 0 -> dth_dirty_bits st' <> 0;
  pr_settled : dth_dirty_bits st' = 0 -> forall j, j ∈ l -> settled j st';
  pr_quiescent : (forall j, j ∈ l -> quiescent j (at_ j) st) -> dth_dirty_bits st' = dth_dirty_bits st;
}.

Lemma program_all_ok l : forall st, loop_inv st -> NoDup l -> (forall j, j ∈ l -> j ∈ tidxs) ->
  (forall j, j ∈ l -> synced j st /\ quiet j (at_ j) st) ->
  exists st', program_all now l st = Some st' /\ programs l st st'.
Proof using Hnow.
  induction l as [|i l IH]; intros st Hinv Hnd Hl Hs.
  { exists st. split; [done|]. constructor; try done. intros _ j Hj. by apply elem_of_nil in Hj. }
  assert (i ∈ tidxs) as Hi by (apply Hl; left). destruct (Hs i ltac:(left)) as [Hsi Hqi]. apply NoDup_cons in Hnd as [Hni Hnd].
  assert (forall j, j ∈ l -> j <> i) as Hne by (by intros j Hj ->). cbn [program_all].
  destruct (dth_needs_program (el_heap st i)) eqn:En.
  - destruct (program_ok now i st Hinv Hnow Hi Hsi) as (st1 & -> & P). opt_simpl.
    pose proof (programmed_inv _ _ _ _ Hinv P) as Hinv1. pose proof (pg_unotes _ _ _ _ P) as Hu1.
    assert (forall j, j ∈ tidxs -> j <> i -> (synced j st -> synced j st1) /\ (presynced j (at_ j) st -> presynced j (at_ j) st1) /\
      (quiescent j (at_ j) st -> quiescent j (at_ j) st1) /\ el_heap st1 j = el_heap st j) as Hoth.
    { intros j Hj Hji. destruct (programmed_other _ _ j _ _ P Hj Hji) as (A & B & C). split_and!; auto. by apply P. }
    destruct (IH st1 Hinv1 Hnd) as (st' & -> & [R1 R2 R3 R4 R5 R6 R7 R8]).
    { intros; apply Hl; by right. }
    { intros j Hj. destruct (Hs j ltac:(by right)) as [A B]. destruct (Hoth j (Hl j ltac:(by right)) (Hne j Hj)) as (C1 & _ & C3 & C4).
      split; [by apply C1|]. unfold quiet. rewrite C4. destruct B as [B|B]; [by left|right; by apply C3]. }
    exists st'. split; [done|].
    assert (dth_dirty_bits st1 = 0 -> settled i st1) as Hi1.
    { intros Hz. destruct (pg_done _ _ _ _ P) as [(_ & A & B)|(A & _)]; [|done]. split_and!; try done. by rewrite (pg_heap_j _ _ _ _ P). }
    assert (dth_dirty_bits st' = 0 -> dth_dirty_bits st1 = 0) as Hz1 by (intros Hz; destruct (decide (dth_dirty_bits st1 = 0)); [done|by apply R6 in Hz]).
    constructor; try done.
    + congruence.
    + rewrite R3. apply P.
    + intros j Hj Hp. apply R4; [done|]. destruct (decide (j = i)) as [->|Hji]; [|by apply (Hoth j Hj Hji)].
      destruct (pg_done _ _ _ _ P) as [(_ & _ & A)|(_ & A & _)]; [by left|done].
    + intros j Hj [Hji Hjl]%not_elem_of_cons (A & B & C). apply R5; [done|done|]. destruct (Hoth j Hj Hji) as (C1 & _ & C3 & C4).
      split_and!; [by rewrite C4|by apply C1|by apply C3].
    + intros Hz. apply R6. destruct (pg_done _ _ _ _ P) as [(-> & _)|(A & _)]; done.
    + intros Hz j [->|Hj]%elem_of_cons; [|by apply R7]. apply R5; [done|done|]. by apply Hi1, Hz1.
    + intros Hq. rewrite R8.
      * destruct (pg_done _ _ _ _ P) as [(A & _)|(_ & _ & A)]; [done|]. destruct A. apply Hq. left.
      * intros j Hj. apply (Hoth j (Hl j ltac:(by right)) (Hne j Hj)), Hq. by right.
  - opt_simpl. destruct (IH st Hinv Hnd) as (st' & -> & [R1 R2 R3 R4 R5 R6 R7 R8]).
    { intros; apply Hl; by right. }
    { intros; apply Hs; by right. }
    exists st'. split; [done|]. constructor; try done.
    + intros j Hj [Hji Hjl]%not_elem_of_cons. by apply R5.
    + intros Hz j [->|Hj]%elem_of_cons; [|by apply R7]. apply R5; [done|done|]. split_and!; try done. destruct Hqi; [congruence|done].
    + intros Hq. apply R8. intros j Hj. apply Hq. by right.
Qed.

Lemma fin_quiescent u st t : loop_inv st -> (forall j, j ∈ tidxs -> quiescent j (at_ j) st) -> el_unotes st !! t = Some u -> fin now u = u.
Proof using.
  intros Hinv Hq Hu. unfold fin. destruct (du_armed u) eqn:Ha; [|done]. unfold settle.
  destruct (uo_armed _ (li_unote _ Hinv t u Hu) Ha) as [Hid _]. by rewrite (Hq (du_ident u) ltac:(rewrite Hid; apply timer_idx_tidxs) t u Hu).
Qed.

Lemma with_dirty_inv st v : loop_inv st -> loop_inv (with_dirty st v).
Proof using. intros [? ? ? ? ?]. by constructor. Qed.

Lemma drain_ok fuel : forall st, loop_inv st -> (forall j, j ∈ tidxs -> presynced j (at_ j) st) ->
  (count has_config (el_unotes st) < fuel)%nat ->
  exists st', drain_timers fuel now st = Some st' /\ loop_inv st' /\ dth_dirty_bits st' = 0 /\
    (forall j, j ∈ tidxs -> settled j st') /\
    (forall t u, el_unotes st !! t = Some u -> dt_pending_config u = None -> el_unotes st' !! t = Some (fin now u)).
Proof using Hnow.
  induction fuel as [|fuel IH]; intros st Hinv Hpre Hf; [lia|]. cbn [drain_timers].
  destruct (run_all_ok tidxs st Hinv) as (st1 & -> & [P1 P2 P3 P4 P5 P6 P7]); [done|]. opt_simpl.
  destruct (program_all_ok tidxs (with_dirty st1 0)) as (st2 & -> & [R1 R2 R3 R4 R5 R6 R7 R8]).
  { by apply with_dirty_inv. }
  { unfold tidxs. rewrite !NoDup_cons. split_and!; try (rewrite !elem_of_cons, elem_of_nil; lia); try apply NoDup_nil_2. apply not_elem_of_nil. }
  { done. }
  { intros j Hj. destruct (P3 j Hj (Hpre j Hj)) as [A B]; [by left|]. done. }
  opt_simpl. simpl in *. destruct (decide (dth_dirty_bits st2 <> 0)) as [Hd|Hd].
  - destruct (IH st2 R1) as (st' & -> & H1 & H2 & H3 & H4).
    { intros j Hj. apply R4; [done|]. exact (P2 j Hj (Hpre j Hj)). }
    { rewrite R2. destruct P6 as [P6|P6]; [lia|]. destruct Hd. apply R8. intros j Hj. apply P6. by left. }
    exists st'. split_and!; try done. intros t u Hu Hc. destruct (P7 t u Hu Hc) as (u1 & A & B & C).
    rewrite <- C. apply H4; [by rewrite R2|done].
  - assert (dth_dirty_bits st2 = 0) as Hz by (destruct (decide (dth_dirty_bits st2 = 0)); tauto).
    exists st2. split_and!; try done; [by apply R7|]. intros t u Hu Hc. destruct (P7 t u Hu Hc) as (u1 & A & B & C).
    rewrite R2, A. f_equal. rewrite <- C. symmetry. apply (fin_quiescent u1 st2 t R1); [intros j Hj; by apply R7|by rewrite R2].
Qed.
End drain.

(** ** References *)

Definition weight (t : timer) (e : timer_effect) : Z :=
  match e with
  | Retain s => if decide (s = t) then 1 else 0
  | Release s | MergeEvt s _ => if decide (s = t) then -1 else 0
  end.
(** The references (in pairs) that the loop took for [t], less those it gave away. *)
Fixpoint owned (t : timer) (L : list timer_effect) : Z :=
  match L with [] => 0 | e :: L => weight t e + owned t L end.

Lemma owned_app t L1 L2 : owned t (L1 ++ L2) = owned t L1 + owned t L2.
Proof. induction L1 as [|e L1 IH]; simpl; [done|]. lia. Qed.

Lemma owned_other t s L : Forall (about s) L -> t <> s -> owned t L = 0.
Proof.
  intros H Hts. induction H as [|e L He _ IH]; [done|]. simpl. rewrite IH.
  destruct e; simpl in *; subst; by rewrite decide_False by congruence.
Qed.

Definition balanced (st st' : event_loop) : Prop :=
  forall t u, el_unotes st !! t = Some u -> exists u', el_unotes st' !! t = Some u' /\
    owned t (el_log st') - owned t (el_log st) = Z.b2z (du_armed u') - Z.b2z (du_armed u).

Lemma balanced_refl st : balanced st st.
Proof. intros t u Hu. exists u. split; [done|lia]. Qed.

Lemma balanced_trans st st1 st2 : balanced st st1 -> balanced st1 st2 -> balanced st st2.
Proof.
  intros H1 H2 t u Hu. destruct (H1 t u Hu) as (u1 & Hu1 & E1). destruct (H2 t u1 Hu1) as (u2 & Hu2 & E2).
  exists u2. split; [done|lia].
Qed.

Lemma stepped_balanced st t u u' st' L : stepped st t u u' st' -> el_unotes st !! t = Some u -> el_log st' = el_log st ++ L ->
  Forall (about t) L -> owned t L = Z.b2z (du_armed u') - Z.b2z (du_armed u) -> balanced st st'.
Proof.
  intros S Hu E HL Ho s v Hv. rewrite E, owned_app. destruct (decide (s = t)) as [->|Hst].
  - exists u'. rewrite (sp_unotes _ _ _ _ _ S), lookup_insert_eq. split; [done|]. rewrite Hu in Hv. injection Hv as <-. lia.
  - exists v. rewrite (sp_unotes _ _ _ _ _ S), lookup_insert_ne by done. split; [done|]. rewrite (owned_other s t L) by done. lia.
Qed.

Lemma resumed_armed v : du_armed (resumed v) = _dispatch_timer_unote_needs_rearm v.
Proof. unfold resumed. by destruct (_dispatch_timer_unote_needs_rearm v). Qed.

Lemma turn_log_owned now t u : du_armed u = true -> owned t (turn_log now t u) = Z.b2z (du_armed (turned now u)) - 1.
Proof.
  intros Ha. unfold turn_log, turned. case_decide; [simpl; by rewrite decide_True|]. destruct (dt_pending_config u) as [dtc|].
  - rewrite resumed_armed. destruct (_dispatch_timer_unote_needs_rearm _); simpl; [done|]. by rewrite decide_True.
  - case_decide; [simpl; by rewrite decide_True|]. destruct (_dispatch_timer_unote_compute_missed (dt_timer u) now 0) as [missed dt].
    destruct (_dispatch_timer_unote_needs_rearm (set_timer u dt)); simpl; rewrite ?Ha; by repeat rewrite decide_True by done.
Qed.

Lemma turns_balanced now i st st' : now_ok now -> turns i (now (DISPATCH_TIMER_CLOCK i)) st st' -> loop_inv st -> balanced st st'.
Proof.
  intros Hnow. induction 1 as [st|st t u st1 st2 Hu Hd S L T IH]; intros Hinv; [apply balanced_refl|].
  eapply balanced_trans; [|apply IH; by eapply (turn_inv now Hnow i st t u)].
  apply due_true in Hd as [[Ha _]%in_heap_armed _]. eapply stepped_balanced; try done; [apply turn_log_about|]. rewrite Ha.
  by apply turn_log_owned.
Qed.

(** ** The operations of the loop *)

Inductive loop_op := LResume (t : timer) | LConfigure (t : timer) | LUnregister (t : timer) | LRun (i : Z).

Definition exec_loop (now : dispatch_clock_t -> Z) (st : event_loop) (o : loop_op) : option event_loop :=
  match o with
  | LResume t => _dispatch_timer_unote_resume st t
  | LConfigure t => _dispatch_timer_unote_configure st t
  | LUnregister t => _dispatch_timer_unote_unregister st t
  | LRun i => _dispatch_timers_run now i st
  end.

Definition loop_op_valid (st : event_loop) (o : loop_op) : Prop :=
  match o with
  | LResume t | LUnregister t => is_Some (el_unotes st !! t)
  | LConfigure t => exists u dtc, el_unotes st !! t = Some u /\ dt_pending_config u = Some dtc
  | LRun i => i ∈ tidxs
  end.

Lemma armed_heap st t u : loop_inv st -> el_unotes st !! t = Some u -> du_armed u = true -> du_ident u ∈ tidxs /\ in_heap (du_ident u) u = true.
Proof.
  intros Hinv Hu Ha. destruct (uo_armed _ (li_unote _ Hinv t u Hu) Ha) as [Hid _].
  split; [rewrite Hid; apply timer_idx_tidxs|]. unfold in_heap. by rewrite Ha, Z.eqb_refl.
Qed.

Lemma disarmed_ok u : unote_ok u -> unote_ok (set_armed u false).
Proof. intros [? ? ?]. by constructor. Qed.

(** A change of fields of a timer that is in no heap. *)
Lemma stepped_disarmed st t u v : loop_inv st -> el_unotes st !! t = Some u -> du_armed u = false -> du_armed v = false ->
  stepped st t u v (with_unotes st (<[t := v]> (el_unotes st))).
Proof.
  intros Hinv Hu Ha Hv. constructor; try done. intros i Hi. simpl.
  assert (in_heap i u = false) as E by (unfold in_heap; by rewrite Ha). assert (in_heap i v = false) as -> by (unfold in_heap; by rewrite Hv).
  rewrite E. eapply moved_other; [by apply Hinv|apply unote_key_stale|by apply (not_in_heap_member st Hinv t u Hu)].
Qed.

Lemma exec_resume now st t : loop_inv st -> is_Some (el_unotes st !! t) ->
  exists st', exec_loop now st (LResume t) = Some st' /\ loop_inv st' /\ balanced st st'.
Proof.
  intros Hinv [u Hu]. simpl. pose proof (li_unote _ Hinv t u Hu) as Hok. destruct (du_armed u) eqn:Ha.
  - destruct (armed_heap st t u Hinv Hu Ha) as [Hi Hin].
    destruct (resume_step st Hinv t u Hu (du_ident u) u st Hi Hin) as (st' & E & S & L); try done; [by apply base_refl|by apply disarmed_ok|].
    exists st'. split; [done|]. split; [apply (stepped_inv st t u (resumed u)); try done; by apply resumed_ok, disarmed_ok|].
    eapply stepped_balanced; try done; rewrite ?resumed_armed, ?Ha;
      destruct (_dispatch_timer_unote_needs_rearm u); try done; [by repeat constructor|simpl; by rewrite decide_True].
  - destruct (resume_disarmed st Hinv t u Hu Ha) as (st' & E & S & L).
    exists st'. split; [done|]. split; [apply (stepped_inv st t u (resumed u)); try done; by apply resumed_ok, disarmed_ok|].
    eapply stepped_balanced; try done; rewrite ?resumed_armed, ?Ha;
      destruct (_dispatch_timer_unote_needs_rearm u); try done; [by repeat constructor|simpl; by rewrite decide_True].
Qed.

Lemma exec_configure now st t u dtc : loop_inv st -> el_unotes st !! t = Some u -> dt_pending_config u = Some dtc ->
  exists st', exec_loop now st (LConfigure t) = Some st' /\ loop_inv st' /\ balanced st st'.
Proof.
  intros Hinv Hu Hc. simpl. pose proof (li_unote _ Hinv t u Hu) as Hok. pose proof (configured_ok st Hinv t u Hu dtc Hc) as Hok'.
  destruct (du_armed u) eqn:Ha.
  - destruct (armed_heap st t u Hinv Hu Ha) as [Hi Hin]. destruct (configure_step st Hinv t u Hu (du_ident u) dtc Hi Hin Hc) as (st' & E & S & L).
    exists st'. split; [done|]. split; [apply (stepped_inv st t u (resumed (configured_fields u dtc))); try done; by apply resumed_ok|].
    eapply stepped_balanced; try done; rewrite ?resumed_armed, ?Ha;
      destruct (_dispatch_timer_unote_needs_rearm _); try done; [by repeat constructor|simpl; by rewrite decide_True].
  - unfold _dispatch_timer_unote_configure. rewrite Hu. opt_simpl. rewrite Hc. opt_simpl. cbn [configured_fields du_armed]. rewrite Ha.
    eexists. split; [done|]. pose proof (stepped_disarmed st t u (configured_fields u dtc) Hinv Hu Ha Ha) as S.
    split; [apply (stepped_inv st t u (configured_fields u dtc)); try done|].
    + destruct Hok' as [? ? ?]. constructor; try done. simpl. congruence.
    + eapply (stepped_balanced st t u _ _ []); try done; [by rewrite app_nil_r|]. simpl. lia.
Qed.

Lemma exec_unregister now st t : loop_inv st -> is_Some (el_unotes st !! t) ->
  exists st', exec_loop now st (LUnregister t) = Some st' /\ loop_inv st' /\ balanced st st'.
Proof.
  intros Hinv [u Hu]. simpl. unfold _dispatch_timer_unote_unregister. rewrite Hu. opt_simpl.
  pose proof (li_unote _ Hinv t u Hu) as Hok.
  set (v := set_ident (set_unregistered u) DISPATCH_TIMER_IDENT_CANCELED).
  assert (unote_ok v) as Hokv by (destruct Hok; by constructor).
  destruct (du_armed u) eqn:Ha.
  - destruct (armed_heap st t u Hinv Hu Ha) as [Hi Hin].
    destruct (disarm_step st Hinv t u Hu (du_ident u) u st Hi Hin) as (st1 & -> & S1 & L1); [by apply base_refl|done|]. opt_simpl. simpl.
    rewrite (sp_unotes _ _ _ _ _ S1), lookup_insert_eq. opt_simpl. eexists. split; [done|].
    pose proof (stepped_inv _ _ _ _ _ Hinv Hu (disarmed_ok u Hok) S1) as Hinv1.
    assert (el_unotes st1 !! t = Some (set_armed u false)) as Hu1 by (by rewrite (sp_unotes _ _ _ _ _ S1), lookup_insert_eq).
    pose proof (stepped_disarmed st1 t _ v Hinv1 Hu1 eq_refl eq_refl) as S2. pose proof (stepped_trans _ _ _ _ _ _ _ S1 S2) as [T1 T2 T3 T4].
    assert (stepped st t u v (with_unotes (effect st1 (Release t)) (<[t := v]> (el_unotes st1)))) as S by (by constructor).
    rewrite (sp_unotes _ _ _ _ _ S1) in S. split; [by apply (stepped_inv st t u v)|].
    eapply (stepped_balanced st t u v _ [Release t]); try done; simpl; [by rewrite L1|by repeat constructor|]. rewrite Ha. by rewrite decide_True.
  - opt_simpl. rewrite Hu. opt_simpl. eexists. split; [done|]. pose proof (stepped_disarmed st t u v Hinv Hu Ha eq_refl) as S.
    split; [by apply (stepped_inv st t u v)|]. eapply (stepped_balanced st t u v _ []); try done; [by rewrite app_nil_r|]. simpl. rewrite Ha. done.
Qed.

Lemma exec_run now st i : loop_inv st -> now_ok now -> i ∈ tidxs ->
  exists st', exec_loop now st (LRun i) = Some st' /\ loop_inv st' /\ balanced st st'.
Proof.
  intros Hinv Hnow Hi. simpl. unfold _dispatch_timers_run.
  destruct (run_turns now Hnow i Hi (run_fuel st) st Hinv) as (st' & E & T & Q).
  { unfold run_fuel, measure. pose proof (count_le (due i (now (DISPATCH_TIMER_CLOCK i))) (el_unotes st)).
    pose proof (count_le has_config (el_unotes st)). lia. }
  exists st'. split; [done|]. split; [by eapply turns_inv|by eapply turns_balanced].
Qed.

Lemma exec_loop_ok now st o : loop_inv st -> now_ok now -> loop_op_valid st o ->
  exists st', exec_loop now st o = Some st' /\ loop_inv st' /\ balanced st st'.
Proof.
  intros Hinv Hnow Hv. destruct o as [t|t|t|i].
  - by apply exec_resume.
  - destruct Hv as (u & dtc & Hu & Hc). by eapply exec_configure.
  - by apply exec_unregister.
  - by apply exec_run.
Qed.

(** Every timer that [dispatch_source_set_timer] configures is one the loop can handle. *)
Lemma config_timer_ok c start itv lw flags : wf_clocks c -> in_u 64 start -> in_u 64 itv -> in_u 64 lw ->
  timer_ok (dtc_timer (_dispatch_timer_config_create c start itv lw flags)).
Proof.
  intros Hc Hs Hi Hl Hlt. destruct (config_create_eq c start itv lw flags Hi Hl) as (clock & tgt & E & Heq). rewrite Heq in Hlt |- *. simpl in *.
  pose proof (client_leeway_range itv lw Hi Hl) as Hr. assert (1 <= client_interval itv) by (unfold client_interval; lia). split; [done|].
  assert (0 <= tgt) as Hpos.
  { destruct (decide (start = DISPATCH_TIME_FOREVER)); [injection E as -> ->; done|].
    destruct (decoded_total c start Hs) as [a Ha].
    destruct (decoded_raw c start a Hc Ha) as [[_ [?|[_ [k Hk]]]]|(k & v & _ & _ & Hv & _ & Hk)]; [done| |].
    - rewrite Hk in E. by injection E as -> ->.
    - destruct Hk as [Hk|(Hkw & -> & Hk)]; rewrite Hk in E.
      + rewrite decide_False in E by (unfold DISPATCH_TIME_NOW; lia). injection E as -> ->. lia.
      + rewrite decide_True in E by done. injection E as -> ->. pose proof (Hc DISPATCH_CLOCK_UPTIME). pose proof (Hc DISPATCH_CLOCK_MONOTONIC).
        simpl in *. case_decide; lia. }
  clear Heq E. unfold INT64_MAX in *. rewrite !(wrap_small 64 (tgt + _)) by lia. split; [case_decide; lia|]. intros Hrep.
  assert (client_leeway itv lw <= client_interval itv / 2) as Hhalf by (unfold client_leeway, INT64_MAX; rewrite decide_True by done; lia).
  case_decide; Z.div_mod_to_equations; lia.
Qed.

(** ** Theorems *)

(** C28: running the timers of one clock.  For every set of timers the loop ends, with at most
    two turns per timer, without a crash of the heap; it does to each timer exactly what
    [settle] says and reports nothing else: a timer that is not due is left alone; a due one
    takes its pending configuration, and then, if due, fires once, with the count of its
    missed intervals; it stays armed at its next target, or is disarmed and marked when it
    is suspended, cancelled, one-shot or its handler lags behind.  No armed timer of the
    clock is due afterwards. *)
Theorem timers_run_settles now i st :
  loop_inv st -> now_ok now -> i ∈ tidxs ->
  let nowi := now (DISPATCH_TIMER_CLOCK i) in
  exists st' L, _dispatch_timers_run now i st = Some st' /\ loop_inv st' /\
    el_unotes st' = settle i nowi <$> el_unotes st /\ quiescent i nowi st' /\
    el_log st' = el_log st ++ L /\
    forall t u, el_unotes st !! t = Some u -> filter (about t) L = settle_log i nowi t u.
Proof.
  intros Hinv Hnow Hi. cbv zeta. destruct (timers_run_ok now i st Hinv Hnow Hi) as (st' & L & H1 & H2 & H3 & H4 & H5 & H6 & _).
  by exists st', L.
Qed.

(** C10: draining the timers.  From every state of the heaps in which the kernel's timers were
    set to the least target of each clock, or a root is due, the drain ends and leaves no
    armed timer due on any clock, no clock dirty or waiting to be programmed, and the timer
    descriptor of each clock set to the least target of its armed timers, or off when there
    is none; every timer without a pending configuration fired if and as it was due. *)
Theorem drain_timers_settles now st :
  loop_inv st -> now_ok now -> (forall j, j ∈ tidxs -> presynced j (now (DISPATCH_TIMER_CLOCK j)) st) ->
  exists st', _dispatch_event_loop_drain_timers now st = Some st' /\ loop_inv st' /\ dth_dirty_bits st' = 0 /\
    (forall j, j ∈ tidxs -> dth_needs_program (el_heap st' j) = false /\
      let e := _dispatch_epoll_timeout st' (DISPATCH_TIMER_CLOCK j) in
      ((forall t u, el_unotes st' !! t = Some u -> in_heap j u = false) /\ det_armed e = false) \/
      exists t u, el_unotes st' !! t = Some u /\ in_heap j u = true /\ det_armed e = true /\
        it_value e = target (dt_timer u) /\ now (DISPATCH_TIMER_CLOCK j) < target (dt_timer u) /\
        forall s v, el_unotes st' !! s = Some v -> in_heap j v = true -> it_value e <= target (dt_timer v)) /\
    (forall t u, el_unotes st !! t = Some u -> dt_pending_config u = None -> el_unotes st' !! t = Some (fin now u)).
Proof.
  intros Hinv Hnow Hpre. unfold _dispatch_event_loop_drain_timers.
  destruct (drain_ok now Hnow (drain_fuel st) st Hinv Hpre) as (st' & E & Hinv' & Hd & Hs & Hf).
  { unfold drain_fuel. pose proof (count_le has_config (el_unotes st)). lia. }
  exists st'. split_and!; try done. intros j Hj. destruct (Hs j Hj) as (Hn & [_ Hsync] & Hq). split; [done|]. cbv zeta in *.
  specialize (Hsync Hn). destruct (dth_min0 (dth_slots (el_heap st' j))) as [t|] eqn:E0.
  - right. destruct (root_least st' Hinv' j Hj t E0) as (u & Hu & Hin & Hl). destruct Hsync as (Ha & w & Hw & Hv).
    rewrite Hu in Hw. injection Hw as <-. exists t, u. split_and!; try done.
    + pose proof (Hq t u Hu) as Hnd. unfold due in Hnd. rewrite Hin in Hnd. simpl in Hnd. apply Z.leb_gt in Hnd. lia.
    + intros s v. rewrite Hv. apply Hl.
  - left. split; [|done]. intros t u Hu. by apply (root_none st' Hinv' j Hj E0 t).
Qed.

(** C33: the references of the timers balance.  Each of resumption, configuration,
    unregistration and a run of a heap succeeds, keeps the invariant of the heaps, and
    changes the references that the loop holds for a timer exactly by whether the timer is
    armed: one pair while it is in a heap, and one handed to every event it fires. *)
Theorem timer_references_balanced now st o :
  loop_inv st -> now_ok now -> loop_op_valid st o ->
  exists st', exec_loop now st o = Some st' /\ loop_inv st' /\
    forall t u, el_unotes st !! t = Some u -> exists u', el_unotes st' !! t = Some u' /\
      owned t (el_log st') - owned t (el_log st) = Z.b2z (du_armed u') - Z.b2z (du_armed u).
Proof. apply exec_loop_ok. Qed.

(** ** A loop with three timers *)

(** The loop before any timer is armed. *)
Definition start_loop (U : gmap timer timer_unote) : event_loop :=
  {| el_unotes := U; el_heap := fun _ => empty_heap; dth_dirty_bits := 0; dth_armed := fun _ => false;
     _dispatch_epoll_timeout := fun _ => {| det_registered := false; det_armed := false; it_value := 0 |}; el_log := [] |}.

Lemma start_inv U : map_Forall (fun _ u => unote_ok u /\ du_armed u = false) U -> 2 * Z.of_nat (size U) + 2 <= 2 ^ 30 ->
  loop_inv (start_loop U).
Proof.
  intros HU Hs. assert (forall t, ~ member empty_heap 0 t) as Hno.
  { intros t Ht. apply (im_dom _ _ empty_implements) in Ht as [? Ht]. by rewrite lookup_empty in Ht. }
  assert (forall i t u, U !! t = Some u -> in_heap i u = false) as Hin.
  { intros i t u Hu. unfold in_heap. destruct (HU t u Hu) as [_ ->]. done. }
  constructor; simpl; try done.
  - intros i _. eapply wf_heap_key_ext; [|apply (im_wf _ _ empty_implements)]. intros t g Ht. by destruct (Hno t).
  - intros i t _. split; [by intros ?%Hno|]. intros (u & Hu & H). by rewrite (Hin i t u Hu) in H.
  - intros i _. unfold count. assert (filter (fun p => in_heap i p.2 = true) U = ∅) as ->; [|done].
    apply map_empty. intros t. apply map_lookup_filter_None. right. intros u Hu. simpl. by rewrite (Hin i t u Hu).
  - intros t u Hu. by apply (HU t u).
Qed.

Lemma start_synced U j : synced j (start_loop U).
Proof. split; [|done]. by split. Qed.

(** A repeating timer, a one-shot one whose handler has not run, and one of [dispatch_after]. *)
Definition sample_unote (flags tgt itv pending : Z) (cfg : option dispatch_timer_config_s) : timer_unote :=
  {| du_timer_flags := flags; du_ident := _dispatch_timer_unote_idx flags; du_qos := 0; du_armed := false; du_registered := true;
     dt_timer := {| target := tgt; deadline := tgt + 5; interval := itv |}; dt_pending_config := cfg;
     ds_pending_data := pending; ds_suspended := false |}.

Definition sample_unotes : gmap timer timer_unote :=
  {[ 1%nat := sample_unote DISPATCH_TIMER_INTERVAL 100 10 0 None;
     2%nat := sample_unote 0 130 INT64_MAX 4 None;
     3%nat := sample_unote DISPATCH_TIMER_AFTER 500 INT64_MAX 0 None ]}.

Definition sample_now (k : dispatch_clock_t) : Z := 137.

Lemma sample_now_ok : now_ok sample_now.
Proof. intros k. by vm_compute. Qed.

Lemma sample_start_inv : loop_inv (start_loop sample_unotes).
Proof.
  apply start_inv; [|by vm_compute].
  unfold sample_unotes. repeat apply map_Forall_insert_2; try apply map_Forall_empty; (split; [|done]);
    (constructor; [done| |done]); intros _; vm_compute; intuition congruence.
Qed.

(** The timers resumed in turn. *)
Definition resume_all (st : event_loop) (l : list timer) : option event_loop :=
  foldl (fun o t => st ← o; _dispatch_timer_unote_resume st t) (Some st) l.
Definition sample_loop : event_loop := default (start_loop sample_unotes) (resume_all (start_loop sample_unotes) [1%nat; 2%nat; 3%nat]).

Lemma resume_all_ok l st : loop_inv st -> Forall (fun t => is_Some (el_unotes st !! t)) l ->
  exists st', resume_all st l = Some st' /\ loop_inv st'.
Proof.
  unfold resume_all. revert st. induction l as [|t l IH]; intros st Hinv Hl; [by exists st|]. inversion_clear Hl as [|? ? Ht Hl'].
  destruct (exec_resume sample_now st t Hinv Ht) as (st1 & E & Hinv1 & B). simpl in *. rewrite E. apply IH; [done|].
  eapply Forall_impl; [exact Hl'|]. intros s [u Hu]. destruct (B s u Hu) as (u' & -> & _). done.
Qed.

Lemma sample_loop_inv : loop_inv sample_loop.
Proof.
  destruct (resume_all_ok [1; 2; 3]%nat _ sample_start_inv) as (st & E & H); [repeat constructor; vm_compute; eauto|].
  unfold sample_loop. by rewrite E.
Qed.

Lemma sample_loop_synced j : j ∈ tidxs -> presynced j 137 sample_loop.
Proof.
  intros Hj. left. unfold tidxs in Hj. rewrite !elem_of_cons, elem_of_nil in Hj. destruct Hj as [->|[->|[->|[]]]]; by vm_compute.
Qed.

(** Timer 1 fires with four missed intervals and stays; timer 2 is disarmed with its marker. *)
Lemma timers_run_settles_witness : exists st' L, _dispatch_timers_run sample_now 0 sample_loop = Some st' /\
  el_unotes st' = settle 0 137 <$> el_unotes sample_loop /\ el_log st' = el_log sample_loop ++ L /\
  filter (about 1%nat) L = [Retain 1%nat; MergeEvt 1%nat 8] /\ filter (about 2%nat) L = [MergeEvt 2%nat 4] /\ filter (about 3%nat) L = [].
Proof.
  destruct (timers_run_settles sample_now 0 sample_loop sample_loop_inv sample_now_ok) as (st' & L & E & _ & Hu & _ & HL & Hf);
    [by left|].
  exists st', L. split; [done|]. split; [exact Hu|]. split; [done|].
  split; [|split].
  - rewrite (Hf 1%nat (set_armed (sample_unote DISPATCH_TIMER_INTERVAL 100 10 0 None) true)); vm_compute; reflexivity.
  - rewrite (Hf 2%nat (set_armed (sample_unote 0 130 INT64_MAX 4 None) true)); vm_compute; reflexivity.
  - rewrite (Hf 3%nat (set_armed (sample_unote DISPATCH_TIMER_AFTER 500 INT64_MAX 0 None) true)); vm_compute; reflexivity.
Defined.

(** The descriptor is then set to the next target of timer 1. *)
Lemma drain_timers_settles_witness : exists st', _dispatch_event_loop_drain_timers sample_now sample_loop = Some st' /\
  dth_dirty_bits st' = 0 /\ it_value (_dispatch_epoll_timeout st' DISPATCH_CLOCK_UPTIME) = 140.
Proof.
  destruct (drain_timers_settles sample_now sample_loop sample_loop_inv sample_now_ok sample_loop_synced) as (st' & E & _ & Hd & _).
  exists st'. split; [done|]. split; [done|]. vm_compute in E. injection E as <-. reflexivity.
Defined.

Lemma timer_references_balanced_witness : exists st', exec_loop sample_now sample_loop (LUnregister 1%nat) = Some st' /\
  owned 1%nat (el_log st') = owned 1%nat (el_log sample_loop) - 1.
Proof.
  destruct (timer_references_balanced sample_now sample_loop (LUnregister 1%nat) sample_loop_inv sample_now_ok) as (st' & E & _ & H);
    [vm_compute; eauto|].
  exists st'. split; [exact E|]. destruct (H 1%nat _ eq_refl) as (u & Hu & Ho).
  assert (du_armed u = false) as Hf by (vm_compute in E; injection E as <-; vm_compute in Hu; by injection Hu as <-).
  rewrite Hf in Ho. change (owned 1%nat (el_log st') - owned 1%nat (el_log sample_loop) = 0 - 1) in Ho. lia.
Defined.
