(* ===== verification/Source.v ===== *)
(** * Event sources

    Models the state machine of [src/source.c]: installation, configuration, the
    registration, event and cancellation handlers, unregistration and re-arming, in
    [_dispatch_source_invoke2], and the choice of the queue in [_dispatch_source_wakeup].
    An invocation holds the drain lock of the source; what other threads and the handlers
    do meanwhile (cancel, merge data, report events, set a timer) happens at the points where
    the code reads shared state: [at_ E k] is what they did before the [k]-th of them. *)

From S2P Require Import Prelude Time TimerSource.

Local Open Scope word_scope.

(** [dst_action] *)
Inductive unote_action := ACTION_PASS_DATA | ACTION_PASS_FFLAGS | ACTION_SOURCE_OR_FFLAGS | ACTION_SOURCE_SET_DATA | ACTION_SOURCE_ADD_DATA | ACTION_SOURCE_TIMER.

Inductive handler_kind := DS_EVENT_HANDLER | DS_CANCEL_HANDLER | DS_REGISTN_HANDLER.

#[export] Instance unote_action_eq_dec : EqDecision unote_action.
Proof. solve_decision. Defined.
#[export] Instance handler_kind_eq_dec : EqDecision handler_kind.
Proof. solve_decision. Defined.

(** Queues by number; the manager queue is 0. *)
Definition _dispatch_mgr_q : nat := 0.

(** What does not change of a source. *)
Record source_type := {
  do_targetq : nat;
  targets_overcommit_root : bool;                       (* do_targetq is an overcommit root queue *)
  dst_action : unote_action;
  du_replace : bool;                                    (* DISPATCH_EVFILT_CUSTOM_REPLACE *)
  du_is_direct : bool;
  du_is_timer : bool;
  du_after : bool;                                      (* DISPATCH_TIMER_AFTER *)
  dst_strict : bool;                                    (* DSF_STRICT *)
}.

(** The bits of [dq_atomic_flags] that sources use. *)
Record dsf := { DSF_CANCELED : bool; DQF_RELEASED : bool; DSF_DELETED : bool; DSF_NEEDS_EVENT : bool; DSF_CANCEL_WAITER : bool }.
(** The bits of [du_state]. *)
Record du_state := { du_registered : bool; du_armed : bool; du_needs_delete : bool }.
Record timer_refs := { dt_timer : dispatch_timer_source_s; dt_pending_config : option dispatch_timer_config_s }.
(** Which slots of [ds_handler] hold a continuation. *)
Record handlers := { h_event : bool; h_cancel : bool; h_registn : bool }.

Inductive source_effect :=
| Call (kind : handler_kind) (q : nat) (data : Z)       (* _dispatch_continuation_pop *)
| Dispose (kind : handler_kind)                         (* _dispatch_source_handler_dispose *)
| Registered (ok : bool)                                (* _dispatch_unote_register *)
| Unregistered                                          (* _dispatch_unote_unregister, when it succeeds *)
| Resumed
| Configured
| Finalized                                             (* drops the reference of the event subsystem *)
| WokeWaiters
| ReleasedAfter                                         (* dispatch_release of a dispatch_after source *)
| Merged (val : Z).                                     (* dispatch_source_merge_data *)

Record source := mkSource {
  dq_atomic_flags : dsf;
  ds_is_installed : bool;
  ds_suspended : bool;                                  (* DISPATCH_QUEUE_IS_SUSPENDED *)
  ds_items : bool;                                      (* _dispatch_queue_class_probe *)
  ds_state : du_state;
  ds_timer : timer_refs;
  ds_handler : handlers;
  ds_data : Z;
  ds_pending_data : Z;
  ds_log : list source_effect;
}.

Definition with_flags s f := mkSource f (ds_is_installed s) (ds_suspended s) (ds_items s) (ds_state s) (ds_timer s) (ds_handler s)
  (ds_data s) (ds_pending_data s) (ds_log s).
Definition with_installed s := mkSource (dq_atomic_flags s) true (ds_suspended s) (ds_items s) (ds_state s) (ds_timer s) (ds_handler s)
  (ds_data s) (ds_pending_data s) (ds_log s).
Definition with_queue s suspended items := mkSource (dq_atomic_flags s) (ds_is_installed s) suspended items (ds_state s) (ds_timer s)
  (ds_handler s) (ds_data s) (ds_pending_data s) (ds_log s).
Definition with_state s u := mkSource (dq_atomic_flags s) (ds_is_installed s) (ds_suspended s) (ds_items s) u (ds_timer s) (ds_handler s)
  (ds_data s) (ds_pending_data s) (ds_log s).
Definition with_timer s t := mkSource (dq_atomic_flags s) (ds_is_installed s) (ds_suspended s) (ds_items s) (ds_state s) t (ds_handler s)
  (ds_data s) (ds_pending_data s) (ds_log s).
Definition with_handler s h := mkSource (dq_atomic_flags s) (ds_is_installed s) (ds_suspended s) (ds_items s) (ds_state s) (ds_timer s) h
  (ds_data s) (ds_pending_data s) (ds_log s).
Definition with_data s data pending := mkSource (dq_atomic_flags s) (ds_is_installed s) (ds_suspended s) (ds_items s) (ds_state s)
  (ds_timer s) (ds_handler s) data pending (ds_log s).
Definition effect s e := mkSource (dq_atomic_flags s) (ds_is_installed s) (ds_suspended s) (ds_items s) (ds_state s) (ds_timer s)
  (ds_handler s) (ds_data s) (ds_pending_data s) (ds_log s ++ [e]).

(** The tests that the code makes of the flags. *)
Definition canceled (s : source) : bool := DSF_CANCELED (dq_atomic_flags s) || DQF_RELEASED (dq_atomic_flags s).
Definition deleted (s : source) : bool := DSF_DELETED (dq_atomic_flags s).

Definition get_handler (s : source) (k : handler_kind) : bool :=
  match k with DS_EVENT_HANDLER => h_event (ds_handler s) | DS_CANCEL_HANDLER => h_cancel (ds_handler s) | DS_REGISTN_HANDLER => h_registn (ds_handler s) end.
Definition clear_handler (h : handlers) (k : handler_kind) : handlers :=
  match k with
  | DS_EVENT_HANDLER => {| h_event := false; h_cancel := h_cancel h; h_registn := h_registn h |}
  | DS_CANCEL_HANDLER => {| h_event := h_event h; h_cancel := false; h_registn := h_registn h |}
  | DS_REGISTN_HANDLER => {| h_event := h_event h; h_cancel := h_cancel h; h_registn := false |}
  end.

(** ** Handlers *)

Definition _dispatch_source_handler_take (s : source) (k : handler_kind) : bool * source :=
  (get_handler s k, with_handler s (clear_handler (ds_handler s) k)).

Definition _dispatch_source_handler_free (s : source) (k : handler_kind) : source :=
  let '(dc, s) := _dispatch_source_handler_take s k in if dc then effect s (Dispose k) else s.

(** [func]: a handler is set, not removed. *)
Definition _dispatch_source_handler_replace (s : source) (k : handler_kind) (func : bool) : source :=
  let old := get_handler s k in
  let h := ds_handler s in
  let s := with_handler s match k with
    | DS_EVENT_HANDLER => {| h_event := func; h_cancel := h_cancel h; h_registn := h_registn h |}
    | DS_CANCEL_HANDLER => {| h_event := h_event h; h_cancel := func; h_registn := h_registn h |}
    | DS_REGISTN_HANDLER => {| h_event := h_event h; h_cancel := h_cancel h; h_registn := func |}
    end in
  if old then effect s (Dispose k) else s.

(** What happens besides the invocation: the answers of the back end and of the clock, the
    items of the source's own queue, and the steps of other threads and of the handlers. *)
Record invoke_env := {
  env_register : bool;                          (* _dispatch_unote_register succeeds *)
  env_unregister : bool;                        (* _dispatch_unote_unregister succeeds at once *)
  env_now : Z;                                  (* _dispatch_time_now *)
  at_ : nat -> source -> source;
}.

Section source.
Context (T : source_type) (E : invoke_env).

Definition _dispatch_source_registration_callout (s : source) (cq : nat) : source :=
  let '(dc, s) := _dispatch_source_handler_take s DS_REGISTN_HANDLER in
  if canceled s then effect s (Dispose DS_REGISTN_HANDLER)
  else effect s (Call DS_REGISTN_HANDLER cq 0).

Definition _dispatch_source_cancel_callout (s : source) (cq : nat) : source :=
  let '(dc, s) := _dispatch_source_handler_take s DS_CANCEL_HANDLER in
  let s := with_data s 0 0 in
  let s := _dispatch_source_handler_free s DS_EVENT_HANDLER in
  let s := _dispatch_source_handler_free s DS_REGISTN_HANDLER in
  if negb dc then s
  else if negb (DSF_CANCELED (dq_atomic_flags s)) then effect s (Dispose DS_CANCEL_HANDLER)
  else effect s (Call DS_CANCEL_HANDLER cq 0).

Definition _dispatch_source_refs_needs_configuration (s : source) : bool :=
  du_is_timer T && bool_decide (is_Some (dt_pending_config (ds_timer s))).

(** [_dispatch_unote_needs_rearm] *)
Definition unote_needs_rearm (s : source) : bool :=
  du_registered (ds_state s) && negb (du_armed (ds_state s)) && negb (du_needs_delete (ds_state s)).

Definition _dispatch_source_refs_needs_rearm (s : source) : bool :=
  if negb (du_is_timer T) then unote_needs_rearm s
  else if bool_decide (is_Some (dt_pending_config (ds_timer s))) then true
  else if unote_needs_rearm s then bool_decide (target (dt_timer (ds_timer s)) < INT64_MAX) else false.

(** [_dispatch_unote_resume]: the epoll back end does not touch DU_STATE_ARMED. *)
Definition unote_resume (s : source) : source :=
  let s := effect s Resumed in
  if du_is_timer T then
    with_state s {| du_registered := du_registered (ds_state s);
                    du_armed := negb (ds_suspended s) && bool_decide (target (dt_timer (ds_timer s)) < INT64_MAX);
                    du_needs_delete := du_needs_delete (ds_state s) |}
  else s.

(** [_dispatch_timer_unote_configure] *)
Definition timer_configure (s : source) : source :=
  match dt_pending_config (ds_timer s) with
  | Some dtc =>
      let s := with_timer s {| dt_timer := dtc_timer dtc; dt_pending_config := None |} in
      let s := with_data (effect s Configured) (ds_data s) 0 in
      if du_armed (ds_state s) then unote_resume s else s
  | None => s
  end.

(** The end of [_dispatch_source_latch_and_call], from the test of the handler [dc]. *)
Definition latch_call (dc : bool) (prev : Z) (cq : nat) (s : source) : source :=
  if negb dc then s
  else if decide (prev = 0) then s
  else
    let s := at_ E 10 (effect s (Call DS_EVENT_HANDLER cq (ds_data s))) in
    if du_is_timer T then
      let s := if decide (prev .& DISPATCH_TIMER_DISARMED_MARKER <> 0 /\ _dispatch_source_refs_needs_configuration s = true)
               then timer_configure s else s in
      if du_after T then effect (_dispatch_source_handler_free s DS_EVENT_HANDLER) ReleasedAfter else s
    else s.

Definition _dispatch_source_latch_and_call (s : source) (cq : nat) : source :=
  let dc := get_handler s DS_EVENT_HANDLER in
  let prev := ds_pending_data s in
  let s := with_data s (ds_data s) 0 in
  match dst_action T with
  | ACTION_SOURCE_TIMER =>
      if decide (prev .& DISPATCH_TIMER_DISARMED_MARKER <> 0) then
        let '(data, dt) := _dispatch_source_timer_data (dt_timer (ds_timer s)) (env_now E) prev in
        latch_call dc prev cq (with_data (with_timer s {| dt_timer := dt; dt_pending_config := dt_pending_config (ds_timer s) |}) data 0)
      else latch_call dc prev cq (with_data s (prev .>> 1) 0)
  | ACTION_SOURCE_SET_DATA => latch_call dc prev cq (with_data s (lnotw 64 prev) 0)
  | _ => if decide (prev = 0 /\ du_replace T = true) then s else latch_call dc prev cq (with_data s prev 0)
  end.

(** ** Registration *)

Definition _dispatch_source_refs_finalize_unregistration (s : source) : outcome source :=
  let dqf := dq_atomic_flags s in
  let s := with_flags s {| DSF_CANCELED := DSF_CANCELED dqf; DQF_RELEASED := DQF_RELEASED dqf; DSF_DELETED := true;
                           DSF_NEEDS_EVENT := false; DSF_CANCEL_WAITER := false |} in
  if DSF_DELETED dqf then Crash InternalCrash
  else
    let s := if DSF_CANCEL_WAITER dqf then effect s WokeWaiters else s in
    Done (effect s Finalized).

(** [_dispatch_unote_unregister]: whether it succeeds, and the source. *)
Definition unote_unregister (must_succeed : bool) (s : source) : bool * source :=
  if negb (du_registered (ds_state s)) then (true, s)
  else if must_succeed || env_unregister E
  then (true, effect (with_state s {| du_registered := false; du_armed := false; du_needs_delete := false |}) Unregistered)
  else (false, s).

Definition _dispatch_source_refs_unregister (must_succeed : bool) (s : source) : outcome source :=
  let '(ok, s) := unote_unregister must_succeed s in
  if ok then _dispatch_source_refs_finalize_unregistration s
  else
    let oqf := dq_atomic_flags s in
    if DSF_NEEDS_EVENT oqf || DSF_DELETED oqf then Done s
    else Done (with_flags s {| DSF_CANCELED := DSF_CANCELED oqf; DQF_RELEASED := DQF_RELEASED oqf; DSF_DELETED := DSF_DELETED oqf;
                               DSF_NEEDS_EVENT := true; DSF_CANCEL_WAITER := DSF_CANCEL_WAITER oqf |}).

(** [_dispatch_unote_register]; a timer is armed later, when it has a target. *)
Definition unote_register (s : source) : bool * source :=
  if env_register E || du_is_timer T then
    let s := effect (with_state s {| du_registered := true; du_armed := negb (du_is_timer T); du_needs_delete := false |}) (Registered true) in
    (true, if _dispatch_source_refs_needs_configuration s then timer_configure s else s)
  else (false, effect s (Registered false)).

Definition _dispatch_source_install (s : source) : outcome source :=
  let s := with_installed s in
  let '(ok, s) := unote_register s in
  if ok then Done s else _dispatch_source_refs_finalize_unregistration s.

(** The part of [_dispatch_source_activate] that concerns the source; [inherits]: the
    priority is known, and a timer or a direct source is installed at once. *)
Definition _dispatch_source_activate (inherits : bool) (s : source) : outcome source :=
  if DSF_CANCELED (dq_atomic_flags s) then _dispatch_source_refs_finalize_unregistration (with_installed s)
  else if (du_is_direct T || du_is_timer T) && negb (ds_is_installed s) && inherits then _dispatch_source_install s
  else Done s.

(** ** Invocation *)

Inductive wakeup_target := WAKEUP_NONE | WAKEUP_QUEUE (q : nat) | WAKEUP_WAIT_FOR_EVENT.

(** [dkq]: the queue that deals with the back end. *)
Definition kevent_queue : nat := if du_is_direct T then do_targetq T else _dispatch_mgr_q.

(** From the test of [_dispatch_source_refs_needs_rearm] to the end. *)
Definition invoke_rearm (dq : nat) (retq : wakeup_target) (avoid_starvation : bool) (dqf_canceled : bool) (s : source)
    : outcome (wakeup_target * source) :=
  if negb dqf_canceled && _dispatch_source_refs_needs_rearm s then
    if decide (dq <> kevent_queue) then Done (WAKEUP_QUEUE kevent_queue, s)
    else if ds_suspended s then Done (WAKEUP_QUEUE (do_targetq T), s)
    else if avoid_starvation && du_registered (ds_state s) then Done (WAKEUP_QUEUE (do_targetq T), s)   (* _dispatch_unote_wlh is DISPATCH_WLH_ANON *)
    else Done (retq, unote_resume s)
  else Done (retq, s).

(** From the tests of cancellation. *)
Definition invoke_cancel (dq : nat) (retq : wakeup_target) (avoid_starvation : bool) (dqf : dsf) (s : source)
    : outcome (wakeup_target * source) :=
  let is_canceled (f : dsf) := DSF_CANCELED f || DQF_RELEASED f in
  let finish (dqf : dsf) (s : source) :=
    if is_canceled dqf && DSF_DELETED dqf then
      let s := at_ E 5 s in
      if bool_decide (dq <> do_targetq T) && (get_handler s DS_EVENT_HANDLER || get_handler s DS_CANCEL_HANDLER || get_handler s DS_REGISTN_HANDLER)
      then invoke_rearm dq (WAKEUP_QUEUE (do_targetq T)) false (is_canceled dqf) s
      else
        let s := at_ E 6 (_dispatch_source_cancel_callout s dq) in
        invoke_rearm dq retq false (canceled s) s
    else invoke_rearm dq retq avoid_starvation (is_canceled dqf) (at_ E 6 s) in
  if is_canceled dqf && negb (DSF_DELETED dqf) then
    let s := at_ E 3 s in
    if negb (du_is_timer T && negb (du_armed (ds_state s))) && bool_decide (dq <> kevent_queue) then Done (WAKEUP_QUEUE kevent_queue, s)
    else
      s ← _dispatch_source_refs_unregister false s;
      let s := at_ E 4 s in
      if negb (deleted s)
      then Done (match retq with WAKEUP_NONE => WAKEUP_WAIT_FOR_EVENT | _ => retq end, s)
      else finish (dq_atomic_flags s) s
  else finish dqf s.

(** From the test of pending data. *)
Definition invoke_data (dq : nat) (retq : wakeup_target) (s : source) : outcome (wakeup_target * source) :=
  let dqf := dq_atomic_flags s in
  if negb (canceled s) && bool_decide (ds_pending_data s <> 0) then
    if decide (dq = do_targetq T) then
      let s := at_ E 2 (_dispatch_source_latch_and_call s dq) in
      let dqf := dq_atomic_flags s in
      let avoid_starvation := negb (DSF_CANCELED dqf || DSF_DELETED dqf) && negb (targets_overcommit_root T) in
      let retq := if avoid_starvation && bool_decide (ds_pending_data s <> 0) then WAKEUP_QUEUE (do_targetq T) else retq in
      invoke_cancel dq retq avoid_starvation dqf s
    else Done (WAKEUP_QUEUE (do_targetq T), s)
  else invoke_cancel dq retq false dqf s.

(** [drained]: what [_dispatch_lane_serial_drain] returns, if the source has items. *)
Definition _dispatch_source_invoke2 (dq : nat) (drained : wakeup_target) (s : source) : outcome (wakeup_target * source) :=
  let '(retq, s) := if ds_items s then (drained, at_ E 11 (with_queue s (ds_suspended s) false)) else (WAKEUP_NONE, s) in
  if negb (ds_is_installed s) && bool_decide (dq <> kevent_queue) then Done (WAKEUP_QUEUE kevent_queue, s)
  else
    s ← (if ds_is_installed s then Done s else _dispatch_source_install s);
    let s := at_ E 0 s in
    if ds_suspended s then Done (WAKEUP_QUEUE (do_targetq T), s)
    else if _dispatch_source_refs_needs_configuration s && negb (canceled s) && bool_decide (dq <> kevent_queue)
    then Done (WAKEUP_QUEUE kevent_queue, s)
    else
      let s := if _dispatch_source_refs_needs_configuration s && negb (canceled s) then timer_configure s else s in
      if get_handler s DS_REGISTN_HANDLER && bool_decide (dq <> do_targetq T) then Done (WAKEUP_QUEUE (do_targetq T), s)
      else
        let s := if get_handler s DS_REGISTN_HANDLER then _dispatch_source_registration_callout s dq else s in
        let s := at_ E 1 s in
        s ← (if du_needs_delete (ds_state s) then _dispatch_source_refs_unregister true s else Done s);
        invoke_data dq retq (at_ E 7 s).

(** ** Wakeup *)

(** The queue that [_dispatch_source_wakeup] asks for; [event]: DISPATCH_WAKEUP_EVENT. *)
Definition _dispatch_source_wakeup (event : bool) (s : source) : wakeup_target :=
  let c := canceled s in
  let tq :=
    if negb (ds_is_installed s) then WAKEUP_QUEUE kevent_queue
    else if negb c && _dispatch_source_refs_needs_configuration s then WAKEUP_QUEUE kevent_queue
    else if get_handler s DS_REGISTN_HANDLER then WAKEUP_QUEUE (do_targetq T)
    else if du_needs_delete (ds_state s) then WAKEUP_QUEUE (do_targetq T)
    else if negb c && bool_decide (ds_pending_data s <> 0) then WAKEUP_QUEUE (do_targetq T)
    else if c && negb (deleted s) then
      if du_is_timer T && negb (du_armed (ds_state s)) then WAKEUP_QUEUE (do_targetq T)
      else if DSF_NEEDS_EVENT (dq_atomic_flags s) && negb event then WAKEUP_NONE
      else WAKEUP_QUEUE kevent_queue
    else if c && deleted s && (get_handler s DS_EVENT_HANDLER || get_handler s DS_CANCEL_HANDLER || get_handler s DS_REGISTN_HANDLER)
    then WAKEUP_QUEUE (do_targetq T)
    else if negb c && _dispatch_source_refs_needs_rearm s then WAKEUP_QUEUE kevent_queue
    else WAKEUP_NONE in
  match tq with WAKEUP_NONE => if ds_items s then WAKEUP_QUEUE (do_targetq T) else WAKEUP_NONE | _ => tq end.

End source.

(** ** What others do *)

(** [dispatch_source_merge_data]; [None] is a crash on another type of source. *)
Inductive data_filter := CUSTOM_ADD | CUSTOM_OR | CUSTOM_REPLACE.
Definition dispatch_source_merge_data (f : data_filter) (val : Z) (s : source) : source :=
  if canceled s then s
  else with_data (effect s (Merged val)) (ds_data s) (match f with CUSTOM_ADD => u64 (ds_pending_data s + val) | CUSTOM_OR => ds_pending_data s .| val | CUSTOM_REPLACE => val end).

(** [dispatch_source_cancel]: the new state, and whether the source is to be woken. *)
Definition dispatch_source_cancel (s : source) : source * bool :=
  let f := dq_atomic_flags s in
  (with_flags s {| DSF_CANCELED := true; DQF_RELEASED := DQF_RELEASED f; DSF_DELETED := DSF_DELETED f;
                   DSF_NEEDS_EVENT := DSF_NEEDS_EVENT f; DSF_CANCEL_WAITER := DSF_CANCEL_WAITER f |}, negb (DSF_CANCELED f)).

Definition dispatch_source_testcancel (s : source) : bool := DSF_CANCELED (dq_atomic_flags s).

(** [_dispatch_source_set_handler]; [inactive]: [_dispatch_lane_try_inactive_suspend]
    succeeds. A source that is active and not strict is changed later, by an item of its
    own queue. *)
Definition _dispatch_source_set_handler (T : source_type) (inactive : bool) (k : handler_kind) (func : bool) (s : source) : outcome source :=
  if inactive then Done (_dispatch_source_handler_replace s k func)
  else if dst_strict T then Crash ClientCrash
  else Done (with_queue s (ds_suspended s) true).

(** The item by which an active source is changed; it runs as a barrier of the source. *)
Definition _dispatch_source_set_handler_slow (k : handler_kind) (func : bool) (s : source) : source :=
  _dispatch_source_handler_replace s k func.

(** [_dispatch_source_merge_evt]: [udata_specific] and [vanished] are bits of the flags of
    the event. *)
Definition _dispatch_source_merge_evt (T : source_type) (udata_specific vanished : bool) (s : source) : outcome source :=
  s ← (if negb udata_specific && negb (du_registered (ds_state s)) && negb (du_is_timer T)
       then _dispatch_source_refs_finalize_unregistration s else Done s);
  if vanished then
    if dst_strict T then Crash ClientCrash else Done (with_data s (ds_data s) 0)
  else Done s.

(** What [dispatch_source_cancel_and_wait] finds in [dq_state]. *)
Inductive drain_lock := LockTaken | LockInactive | LockSuspended | LockHeldBySelf | LockHeldByOther.
(** How it goes on: it returns, it activates the source and returns, it waits for the
    deletion, after a wakeup of the source that unlocks it or does not. *)
Inductive cancel_wait := CWReturn | CWActivate | CWWait (unlocks : bool).

Definition dispatch_source_cancel_and_wait (T : source_type) (E : invoke_env) (lock : drain_lock) (s : source) : outcome (cancel_wait * source) :=
  if get_handler s DS_CANCEL_HANDLER then Crash ClientCrash
  else
    let old := dq_atomic_flags s in
    let waiter := DSF_CANCEL_WAITER old
                  || negb (DSF_DELETED old) && (DSF_NEEDS_EVENT old || du_is_timer T || negb (du_is_direct T)) in
    let s := if DSF_CANCEL_WAITER old then s
             else with_flags s {| DSF_CANCELED := true; DQF_RELEASED := DQF_RELEASED old; DSF_DELETED := DSF_DELETED old;
                                  DSF_NEEDS_EVENT := DSF_NEEDS_EVENT old; DSF_CANCEL_WAITER := waiter |} in
    if DQF_RELEASED old then Crash ClientCrash
    else if DSF_DELETED old then Done (CWReturn, s)
    else if waiter then Done (CWWait false, s)
    else match lock with
    | LockSuspended => Crash ClientCrash
    | LockInactive => Done (CWActivate, s)
    | LockTaken =>
        s ← (if negb (deleted s) then _dispatch_source_refs_unregister E false s else Done s);
        Done (CWWait true, if deleted s then _dispatch_source_cancel_callout s _dispatch_mgr_q else s)
    | LockHeldBySelf => Crash ClientCrash
    | LockHeldByOther => Done (CWWait false, s)
    end.

(** [_dispatch_source_xref_dispose]: the last reference of the client is gone. *)
Definition _dispatch_source_xref_dispose (T : source_type) (s : source) : outcome source :=
  if dst_strict T && negb (DSF_CANCELED (dq_atomic_flags s)) && get_handler s DS_CANCEL_HANDLER then Crash ClientCrash
  else
    let f := dq_atomic_flags s in
    Done (with_flags s {| DSF_CANCELED := DSF_CANCELED f; DQF_RELEASED := true; DSF_DELETED := DSF_DELETED f;
                          DSF_NEEDS_EVENT := DSF_NEEDS_EVENT f; DSF_CANCEL_WAITER := DSF_CANCEL_WAITER f |}).

Definition _dispatch_source_dispose (s : source) : source :=
  _dispatch_source_handler_free (_dispatch_source_handler_free (_dispatch_source_handler_free s DS_REGISTN_HANDLER) DS_EVENT_HANDLER) DS_CANCEL_HANDLER.
