(* ===== verification/SourceSafe.v ===== *)
(** * Event sources: the cancellation protocol

    In every interleaving of invocations with what clients, handlers and the event loop do,
    a source is finalized once, its cancellation handler runs at most once and only after
    that, nothing is called after it, and an invocation of a cancelled source calls neither
    the event nor the registration handler. *)

From S2P Require Import Prelude Time TimerSource Source.

Local Open Scope word_scope.

(** ** The protocol *)

(** Before the source is finalized, after it, and after the cancellation handler. *)
Inductive phase := PLive | PFinal | PDone.

Definition mon_step (p : phase) (e : source_effect) : option phase :=
  match p, e with
  | PLive, Finalized => Some PFinal
  | PLive, Call DS_CANCEL_HANDLER _ _ => None
  | PLive, _ => Some PLive
  | PFinal, Call DS_CANCEL_HANDLER _ _ => Some PDone
  | PFinal, (Finalized | Registered _ | Unregistered | Resumed | Configured) => None
  | PFinal, _ => Some PFinal
  | PDone, (Dispose _ | Merged _ | WokeWaiters | ReleasedAfter) => Some PDone
  | PDone, _ => None
  end.

Definition monitor (L : list source_effect) : option phase := foldl (fun o e => p ← o; mon_step p e) (Some PLive) L.

Lemma monitor_snoc L e : monitor (L ++ [e]) = p ← monitor L; mon_step p e.
Proof. unfold monitor. by rewrite foldl_app. Qed.

(** The handlers that a cancelled source does not call. *)
Definition late_call (e : source_effect) : bool :=
  match e with Call DS_EVENT_HANDLER _ _ | Call DS_REGISTN_HANDLER _ _ => true | _ => false end.

(** What others may do to a source: cancel it, release it, merge data, report events (which
    disarm or unregister the unote), set a timer, suspend it, submit items to it. *)
Record others (T : source_type) (s s' : source) : Prop := {
  ot_log : exists vs, ds_log s' = ds_log s ++ (Merged <$> vs);
  ot_handler : ds_handler s' = ds_handler s;
  ot_installed : ds_is_installed s' = ds_is_installed s;
  ot_deleted : deleted s' = deleted s;
  ot_needs_event : DSF_NEEDS_EVENT (dq_atomic_flags s') = DSF_NEEDS_EVENT (dq_atomic_flags s);
  ot_canceled : DSF_CANCELED (dq_atomic_flags s) = true -> DSF_CANCELED (dq_atomic_flags s') = true;
  ot_released : DQF_RELEASED (dq_atomic_flags s) = true -> DQF_RELEASED (dq_atomic_flags s') = true;
  ot_registered : du_registered (ds_state s') = true -> du_registered (ds_state s) = true;
  ot_needs_delete : du_needs_delete (ds_state s') = true -> du_registered (ds_state s') = true /\ du_is_timer T = false;
}.

Definition env_ok (T : source_type) (E : invoke_env) : Prop := forall k s,
  (du_needs_delete (ds_state s) = true -> du_registered (ds_state s) = true /\ du_is_timer T = false) -> others T s (at_ E k s).

Section safe.
Context (T : source_type) (B : list source_effect) (c : bool).

(** [B] is the log when the invocation began, [c] whether the source was cancelled then. *)
Record sinv (p : phase) (s : source) : Prop := {
  si_mon : monitor (ds_log s) = Some p;
  si_live : p = PLive <-> deleted s = false;
  si_done : p = PDone -> canceled s = true /\ forall k, get_handler s k = false;
  si_reg : deleted s = true -> du_registered (ds_state s) = false;
  si_inst : ds_is_installed s = false -> deleted s = false /\ du_registered (ds_state s) = false;
  si_timer : du_is_timer T = true -> deleted s = true -> canceled s = true;
  si_nd : du_needs_delete (ds_state s) = true -> du_registered (ds_state s) = true /\ du_is_timer T = false;
  si_new : exists L, ds_log s = B ++ L /\ (c = true -> Forall (fun e => late_call e = false) L);
  si_canceled : c = true -> canceled s = true;
}.

Lemma others_canceled s s' : others T s s' -> canceled s = true -> canceled s' = true.
Proof.
  intros O. unfold canceled. rewrite !orb_true_iff. intros [H|H]; [left; by apply (ot_canceled _ _ _ O)|right; by apply (ot_released _ _ _ O)].
Qed.

Lemma monitor_merged L vs p : monitor L = Some p -> monitor (L ++ (Merged <$> vs)) = Some p.
Proof.
  revert L. induction vs as [|v vs IH]; intros L HL; [by rewrite app_nil_r|]. rewrite fmap_cons, cons_middle, app_assoc. apply IH.
  rewrite monitor_snoc, HL. by destruct p.
Qed.

Lemma sinv_others p s s' : others T s s' -> sinv p s -> sinv p s'.
Proof.
  intros O [H1 H2 H3 H4 H5 H6 H7 H8 H9]. pose proof (others_canceled s s' O) as Hc. destruct (ot_log _ _ _ O) as [vs El].
  constructor; rewrite ?(ot_deleted _ _ _ O), ?(ot_installed _ _ _ O); auto.
  - rewrite El. by apply monitor_merged.
  - intros Hp. destruct (H3 Hp) as [? Hh]. split; [by apply Hc|]. intros k. unfold get_handler. rewrite (ot_handler _ _ _ O). apply (Hh k).
  - intros Hd. specialize (H4 Hd). destruct (du_registered (ds_state s')) eqn:E; [|done]. apply (ot_registered _ _ _ O) in E. congruence.
  - intros Hi. destruct (H5 Hi) as [? Hr]. split; [done|]. destruct (du_registered (ds_state s')) eqn:E; [|done]. apply (ot_registered _ _ _ O) in E. congruence.
  - by apply (ot_needs_delete _ _ _ O).
  - destruct H8 as (L & EL & HL). exists (L ++ (Merged <$> vs)). rewrite El, EL, app_assoc. split; [done|]. intros Hcc. apply Forall_app. split; [by apply HL|].
    apply Forall_fmap, Forall_true. done.
Qed.

(** A change of nothing that the invariant reads but what is said. *)
Lemma sinv_effect p p' s e : sinv p s -> mon_step p e = Some p' -> (p' = PLive <-> deleted s = false) ->
  (p' = PDone -> canceled s = true /\ forall k, get_handler s k = false) -> (c = true -> late_call e = false) -> sinv p' (effect s e).
Proof.
  intros [H1 H2 H3 H4 H5 H6 H7 H8 H9] Hm Hl Hd Hc. constructor; auto.
  - simpl. by rewrite monitor_snoc, H1.
  - destruct H8 as (L & EL & HL). exists (L ++ [e]). simpl. rewrite EL, app_assoc. split; [done|]. intros Hcc. apply Forall_app. split; [by apply HL|].
    constructor; [by apply Hc|done].
Qed.

(** Effects that leave the phase. *)
Lemma sinv_quiet p s e : sinv p s -> mon_step p e = Some p -> (c = true -> late_call e = false) -> sinv p (effect s e).
Proof. intros H Hm Hc. by apply (sinv_effect p); [| |apply H|apply H|]. Qed.

Lemma sinv_data p s d q : sinv p s -> sinv p (with_data s d q).
Proof. by intros [? ? ? ? ? ? ? ? ?]; constructor. Qed.
Lemma sinv_timer p s t : sinv p s -> sinv p (with_timer s t).
Proof. by intros [? ? ? ? ? ? ? ? ?]; constructor. Qed.
Lemma sinv_queue p s a b : sinv p s -> sinv p (with_queue s a b).
Proof. by intros [? ? ? ? ? ? ? ? ?]; constructor. Qed.
Lemma sinv_clear p s k : sinv p s -> sinv p (with_handler s (clear_handler (ds_handler s) k)).
Proof.
  intros [H1 H2 H3 H4 H5 H6 H7 H8 H9]; constructor; auto. intros Hp. destruct (H3 Hp) as [? Hh]. split; [done|].
  intros k'. specialize (Hh k'). by destruct k, k'.
Qed.

Lemma sinv_free p s k : sinv p s -> sinv p (_dispatch_source_handler_free s k).
Proof.
  intros H. unfold _dispatch_source_handler_free, _dispatch_source_handler_take. apply (sinv_clear p s k) in H.
  destruct (get_handler s k); [|done]. apply sinv_quiet; [done|by destruct p|done].
Qed.

Lemma sinv_registration p s q : sinv p s -> get_handler s DS_REGISTN_HANDLER = true -> sinv p (_dispatch_source_registration_callout s q).
Proof.
  intros H Hh. unfold _dispatch_source_registration_callout, _dispatch_source_handler_take.
  assert (p <> PDone) as Hp by (intros ->; destruct (si_done _ _ H eq_refl) as [_ Hn]; by rewrite Hn in Hh).
  pose proof (sinv_clear p s DS_REGISTN_HANDLER H) as H'. destruct (canceled _) eqn:Ec.
  - apply sinv_quiet; [done|by destruct p|done].
  - apply sinv_quiet; [done|by destruct p|]. intros Hc. apply (si_canceled _ _ H') in Hc. congruence.
Qed.

Lemma free_frame s k : dq_atomic_flags (_dispatch_source_handler_free s k) = dq_atomic_flags s /\
  forall k', get_handler (_dispatch_source_handler_free s k) k' = if decide (k' = k) then false else get_handler s k'.
Proof.
  unfold _dispatch_source_handler_free, _dispatch_source_handler_take.
  destruct (get_handler s k); (split; [done|]); intros k'; by destruct k, k'.
Qed.

Lemma sinv_cancel p s q : sinv p s -> canceled s = true -> deleted s = true ->
  exists p', sinv p' (_dispatch_source_cancel_callout s q) /\ dq_atomic_flags (_dispatch_source_cancel_callout s q) = dq_atomic_flags s.
Proof.
  intros H Hc Hd. unfold _dispatch_source_cancel_callout, _dispatch_source_handler_take.
  set (s1 := with_data _ 0 0). assert (sinv p s1) as H1 by (apply sinv_data, sinv_clear, H).
  pose proof (sinv_free p s1 DS_EVENT_HANDLER H1) as H2. destruct (free_frame s1 DS_EVENT_HANDLER) as [F2 G2].
  set (s2 := _dispatch_source_handler_free s1 DS_EVENT_HANDLER) in *.
  pose proof (sinv_free p s2 DS_REGISTN_HANDLER H2) as H3. destruct (free_frame s2 DS_REGISTN_HANDLER) as [F3 G3].
  set (s3 := _dispatch_source_handler_free s2 DS_REGISTN_HANDLER) in *.
  assert (dq_atomic_flags s3 = dq_atomic_flags s) as F by (by rewrite F3, F2).
  assert (forall k, get_handler s3 k = false) as Hno.
  { intros k. rewrite G3, G2. by destruct k. }
  destruct (get_handler s DS_CANCEL_HANDLER) eqn:Eh; simpl; [|by exists p].
  assert (p = PFinal) as ->.
  { destruct p; [|done|].
    - destruct (si_live _ _ H) as [Hx _]. rewrite Hx in Hd; done.
    - destruct (si_done _ _ H eq_refl) as [_ Hn]. by rewrite Hn in Eh. }
  destruct (DSF_CANCELED (dq_atomic_flags s3)) eqn:Ec; simpl; rewrite F.
  - exists PDone. split; [|done]. apply (sinv_effect PFinal); [done|done| | |done].
    + split; [done|]. unfold deleted in *. simpl. rewrite F. congruence.
    + intros _. split; [|done]. unfold canceled in *. by rewrite F.
  - exists PFinal. split; [|done]. by apply sinv_quiet.
Qed.

Lemma sinv_resume s : sinv PLive s -> sinv PLive (unote_resume T s).
Proof.
  intros H. unfold unote_resume. apply (sinv_quiet PLive s Resumed) in H; try done. destruct (du_is_timer T) eqn:Et; [|done].
  destruct H as [H1 H2 H3 H4 H5 H6 H7 H8 H9]. by constructor.
Qed.

Lemma sinv_configure s : sinv PLive s -> sinv PLive (timer_configure T s).
Proof.
  intros H. unfold timer_configure. destruct (dt_pending_config (ds_timer s)); [|done].
  assert (sinv PLive (with_data (effect (with_timer s {| dt_timer := dtc_timer d; dt_pending_config := None |}) Configured) (ds_data s) 0)) as H'
    by (apply sinv_data, sinv_quiet; [by apply sinv_timer|done|done]).
  simpl. destruct (du_armed _); [by apply sinv_resume|done].
Qed.
(** The invocation, with what others do at its points. *)
Context (E : invoke_env) (HE : env_ok T E).

Lemma sinv_at p s k : sinv p s -> sinv p (at_ E k s).
Proof. intros H. apply (sinv_others p s); [apply HE, H|done]. Qed.
Lemma at_deleted s p k : sinv p s -> deleted (at_ E k s) = deleted s.
Proof. intros H. apply (ot_deleted T), HE, H. Qed.

Definition live_timer (s : source) : Prop := du_is_timer T = true -> deleted s = false.

Lemma live_phase p s : sinv p s -> deleted s = false -> p = PLive.
Proof. intros H. apply (si_live _ _ H). Qed.

Lemma configure_installed s : ds_is_installed (timer_configure T s) = ds_is_installed s.
Proof.
  unfold timer_configure, unote_resume. destruct (dt_pending_config _); [|done]. simpl. destruct (du_armed _); [|done]. by destruct (du_is_timer T).
Qed.

Lemma free_installed s k : ds_is_installed (_dispatch_source_handler_free s k) = ds_is_installed s.
Proof. unfold _dispatch_source_handler_free, _dispatch_source_handler_take. by destruct (get_handler s k). Qed.

Lemma latch_call_installed p s dc prev q : sinv p s -> ds_is_installed (latch_call T E dc prev q s) = ds_is_installed s.
Proof.
  intros H. unfold latch_call. destruct dc; simpl; [|done]. destruct (decide (prev = 0)); [done|].
  assert (ds_is_installed (at_ E 10 (effect s (Call DS_EVENT_HANDLER q (ds_data s)))) = ds_is_installed s) as Hi
    by (apply (ot_installed _ _ _ (HE 10%nat (effect s _) (si_nd _ _ H)))).
  destruct (du_is_timer T); [|done].
  destruct (decide _), (du_after T); simpl; rewrite ?free_installed, ?configure_installed; done.
Qed.

Lemma sinv_latch_call p s dc prev q : sinv p s -> p <> PDone -> c = false -> live_timer s -> sinv p (latch_call T E dc prev q s).
Proof.
  intros H Hp Hcf Ht. unfold latch_call. destruct dc; simpl; [|done]. destruct (decide (prev = 0)); [done|].
  assert (sinv p (effect s (Call DS_EVENT_HANDLER q (ds_data s)))) as H2 by (apply sinv_quiet; [done|by destruct p|congruence]).
  pose proof (at_deleted _ _ 10 H2) as Hd. apply (sinv_at _ _ 10) in H2. set (s2 := at_ E 10 _) in *.
  destruct (du_is_timer T) eqn:Et; [|done]. specialize (Ht Et). assert (p = PLive) as -> by (by apply (live_phase p s)).
  assert (sinv PLive (if decide (prev .& DISPATCH_TIMER_DISARMED_MARKER <> 0 /\ _dispatch_source_refs_needs_configuration T s2 = true)
    then timer_configure T s2 else s2)) as H3 by (destruct (decide _); [by apply sinv_configure|done]).
  destruct (du_after T); [|done]. apply sinv_quiet; [by apply sinv_free|done|done].
Qed.

Lemma sinv_latch p s q : sinv p s -> canceled s = false -> sinv p (_dispatch_source_latch_and_call T E s q).
Proof.
  intros H Hc. unfold _dispatch_source_latch_and_call.
  assert (p <> PDone) as Hp by (intros ->; destruct (si_done _ _ H eq_refl); congruence).
  assert (c = false) as Hcf by (apply not_true_is_false; intros Ec; rewrite (si_canceled _ _ H Ec) in Hc; done).
  assert (live_timer s) as Ht by (intros Et; destruct (deleted s) eqn:Ed; [rewrite (si_timer _ _ H Et Ed) in Hc|]; done).
  assert (forall d, sinv p (with_data (with_data s (ds_data s) 0) d 0)) as Hs by (intros; by do 2 apply sinv_data).
  destruct (dst_action T).
  1, 2, 3: destruct (decide _); [by apply sinv_data|by apply sinv_latch_call].
  - by apply sinv_latch_call.
  - destruct (decide _); [by apply sinv_data|by apply sinv_latch_call].
  - destruct (decide _); [|by apply sinv_latch_call].
    destruct (_dispatch_source_timer_data _ _ _). apply sinv_latch_call; [by apply sinv_data, sinv_timer, sinv_data|done|done|done].
Qed.

Lemma latch_installed p s q : sinv p s -> ds_is_installed (_dispatch_source_latch_and_call T E s q) = ds_is_installed s.
Proof.
  intros H. unfold _dispatch_source_latch_and_call.
  assert (forall d, sinv p (with_data (with_data s (ds_data s) 0) d 0)) as Hs by (intros; by do 2 apply sinv_data).
  destruct (dst_action T); repeat destruct (decide _); try destruct (_dispatch_source_timer_data _ _ _); try done;
    rewrite (latch_call_installed p); try done. by apply sinv_data, sinv_timer, sinv_data.
Qed.

Lemma sinv_finalize s : sinv PLive s -> ds_is_installed s = true -> du_registered (ds_state s) = false ->
  (du_is_timer T = true -> canceled s = true) ->
  exists s', _dispatch_source_refs_finalize_unregistration s = Done s' /\ sinv PFinal s' /\ canceled s' = canceled s /\
    ds_is_installed s' = true.
Proof.
  intros H Hi Hr Ht. assert (deleted s = false) as Hd by (by apply (si_live _ _ H)). unfold _dispatch_source_refs_finalize_unregistration.
  unfold deleted in Hd. rewrite Hd. eexists. split; [done|]. split; [|by destruct (DSF_CANCEL_WAITER _)].
  destruct H as [H1 H2 H3 H4 H5 H6 H7 (L & EL & HL) H9].
  set (W := if DSF_CANCEL_WAITER (dq_atomic_flags s) then [WokeWaiters] else []).
  match goal with |- sinv _ ?x => assert (ds_log x = ds_log s ++ W ++ [Finalized]) as El by (unfold W; destruct (DSF_CANCEL_WAITER _); simpl; by rewrite <-?app_assoc) end.
  constructor.
  - rewrite El, app_assoc, monitor_snoc. unfold W. destruct (DSF_CANCEL_WAITER _); rewrite ?app_nil_r, ?monitor_snoc, H1; done.
  - destruct (DSF_CANCEL_WAITER _); simpl; split; done.
  - done.
  - by destruct (DSF_CANCEL_WAITER _).
  - destruct (DSF_CANCEL_WAITER _); simpl; congruence.
  - intros Et _. specialize (Ht Et). by destruct (DSF_CANCEL_WAITER _).
  - destruct (DSF_CANCEL_WAITER _); exact H7.
  - exists (L ++ W ++ [Finalized]). rewrite El, EL, <-app_assoc. split; [done|]. intros Hc. apply Forall_app. split; [by apply HL|].
    unfold W. destruct (DSF_CANCEL_WAITER _); repeat constructor.
  - intros Hc. specialize (H9 Hc). by destruct (DSF_CANCEL_WAITER _).
Qed.

Lemma sinv_unregister must s : sinv PLive s -> ds_is_installed s = true -> (du_is_timer T = true -> canceled s = true) ->
  exists p' s', _dispatch_source_refs_unregister E must s = Done s' /\ sinv p' s' /\ canceled s' = canceled s /\ ds_is_installed s' = true.
Proof.
  intros H Hi Ht. unfold _dispatch_source_refs_unregister, unote_unregister.
  destruct (du_registered (ds_state s)) eqn:Er; simpl.
  - destruct (must || env_unregister E).
    + set (s1 := effect _ Unregistered). assert (sinv PLive s1) as H1.
      { apply sinv_quiet; [|done|done]. destruct H as [H1 H2 H3 H4 H5 H6 H7 H8 H9]. constructor; try done. simpl. congruence. }
      destruct (sinv_finalize s1) as (s' & -> & ? & Hc & ?); try done. by exists PFinal, s'.
    + exists PLive. destruct (_ || _); [by exists s|]. eexists. split; [done|]. split; [|done].
      destruct H as [H1 H2 H3 H4 H5 H6 H7 H8 H9]. by constructor.
  - destruct (sinv_finalize s) as (s' & -> & ? & ? & ?); try done. by exists PFinal, s'.
Qed.

Lemma sinv_install s : sinv PLive s -> ds_is_installed s = false ->
  exists p' s', _dispatch_source_install T E s = Done s' /\ sinv p' s' /\ ds_is_installed s' = true.
Proof.
  intros H Hi. assert (deleted s = false) as Hd by (by apply (si_inst _ _ H)).
  assert (du_registered (ds_state s) = false) as Hr by (by apply (si_inst _ _ H)).
  unfold _dispatch_source_install, unote_register.
  assert (sinv PLive (with_installed s)) as H1 by (destruct H; by constructor).
  destruct (env_register E || du_is_timer T) eqn:Ee.
  - set (s2 := effect _ (Registered true)). assert (sinv PLive s2) as H2.
    { apply sinv_quiet; [|done|done]. destruct H1 as [K1 K2 K3 K4 K5 K6 K7 K8 K9]. constructor; try done. simpl. intros Hx.
      change (deleted s = true) in Hx. congruence. }
    simpl. exists PLive. eexists. split; [done|]. destruct (_dispatch_source_refs_needs_configuration T s2); [|done].
    split; [by apply sinv_configure|]. unfold timer_configure. destruct (dt_pending_config _); [|done].
    simpl. destruct (negb _); [|done]. unfold unote_resume. by destruct (du_is_timer T).
  - apply orb_false_iff in Ee as [_ Et]. simpl. destruct (sinv_finalize (effect (with_installed s) (Registered false))) as (s' & -> & ? & ? & ?); try done.
    + by apply sinv_quiet.
    + by rewrite Et.
    + by exists PFinal, s'.
Qed.
Lemma sinv_rearm p s dq retq starve cc : sinv p s -> (cc = false -> live_timer s) ->
  exists r s', invoke_rearm T dq retq starve cc s = Done (r, s') /\ sinv p s'.
Proof.
  intros H Ht. unfold invoke_rearm. destruct (negb cc && _) eqn:En; [|by exists retq, s]. apply andb_true_iff in En as [Ec En].
  destruct (decide _); [by eexists _, s|]. destruct (ds_suspended s); [by eexists _, s|]. destruct (_ && _); [by eexists _, s|].
  eexists _, _. split; [done|]. assert (deleted s = false) as Hd.
  { destruct (deleted s) eqn:Ed; [|done]. pose proof (si_reg _ _ H Ed) as Hr. destruct (du_is_timer T) eqn:Et.
    - rewrite Ht in Ed; [done|by destruct cc|done].
    - unfold _dispatch_source_refs_needs_rearm in En. rewrite Et in En. unfold unote_needs_rearm in En. by rewrite Hr in En. }
  assert (p = PLive) as -> by (by apply (live_phase p s)). by apply sinv_resume.
Qed.

Definition flags_canceled (f : dsf) : bool := DSF_CANCELED f || DQF_RELEASED f.

Lemma sinv_finish p s dq retq starve : sinv p s ->
  exists r s', (if canceled s && deleted s then
      let s1 := at_ E 5 s in
      if bool_decide (dq <> do_targetq T) && (get_handler s1 DS_EVENT_HANDLER || get_handler s1 DS_CANCEL_HANDLER || get_handler s1 DS_REGISTN_HANDLER)
      then invoke_rearm T dq (WAKEUP_QUEUE (do_targetq T)) false (canceled s) s1
      else let s2 := at_ E 6 (_dispatch_source_cancel_callout s1 dq) in invoke_rearm T dq retq false (canceled s2) s2
    else invoke_rearm T dq retq starve (canceled s) (at_ E 6 s)) = Done (r, s') /\ exists p', sinv p' s'.
Proof.
  intros H. destruct (canceled s && deleted s) eqn:Ecd.
  - apply andb_true_iff in Ecd as [Ec Ed]. pose proof (sinv_at p s 5 H) as H1. cbv zeta. set (s1 := at_ E 5 s) in *.
    assert (canceled s1 = true) as Ec1 by (apply (others_canceled s); [apply HE, H|done]).
    assert (deleted s1 = true) as Ed1 by (unfold s1; by rewrite (at_deleted _ p)).
    destruct (_ && _); [|].
    + rewrite Ec. destruct (sinv_rearm p s1 dq (WAKEUP_QUEUE (do_targetq T)) false true) as (r & s' & -> & ?); [done|done|]. by eexists _, _; split; [|exists p].
    + destruct (sinv_cancel p s1 dq H1 Ec1 Ed1) as (p2 & H2 & F2). set (s2 := _dispatch_source_cancel_callout s1 dq) in *.
      assert (canceled (at_ E 6 s2) = true) as Ec2.
      { apply (others_canceled s2); [apply HE, H2|]. unfold canceled in *. by rewrite F2. }
      apply (sinv_at p2 s2 6) in H2. rewrite Ec2.
      destruct (sinv_rearm p2 (at_ E 6 s2) dq retq false true) as (r & s' & -> & ?); [done|done|]. by eexists _, _; split; [|exists p2].
  - assert (canceled s = false -> live_timer (at_ E 6 s)) as Hl.
    { intros Ec Et. rewrite (at_deleted _ p) by done. destruct (deleted s) eqn:Ed; [|done]. rewrite (si_timer _ _ H Et Ed) in Ec. done. }
    destruct (sinv_rearm p (at_ E 6 s) dq retq starve (canceled s)) as (r & s' & -> & ?); [by apply sinv_at|done|]. by eexists _, _; split; [|exists p].
Qed.

Lemma sinv_invoke_cancel p s dq retq starve : sinv p s -> ds_is_installed s = true ->
  exists r s', invoke_cancel T E dq retq starve (dq_atomic_flags s) s = Done (r, s') /\ exists p', sinv p' s'.
Proof.
  intros H Hi. unfold invoke_cancel. change (DSF_CANCELED (dq_atomic_flags s) || DQF_RELEASED (dq_atomic_flags s)) with (canceled s).
  change (DSF_DELETED (dq_atomic_flags s)) with (deleted s). destruct (canceled s && negb (deleted s)) eqn:Ecd.
  - apply andb_true_iff in Ecd as [Ec Ed]. apply negb_true_iff in Ed. assert (p = PLive) as -> by (by apply (live_phase p s)).
    pose proof (HE 3%nat s (si_nd _ _ H)) as O. apply (sinv_at _ _ 3) in H. set (s1 := at_ E 3 s) in *.
    destruct (_ && _); [by eexists _, _; split; [|exists PLive]|].
    destruct (sinv_unregister false s1) as (p2 & s2 & -> & H2 & Hc2 & Hi2); [done|by rewrite (ot_installed _ _ _ O)|intros _; by apply (others_canceled s)|].
    simpl. apply (sinv_at _ _ 4) in H2. destruct (deleted (at_ E 4 s2)) eqn:E4; simpl; [|by eexists _, _; split; [|exists p2]].
    pose proof (sinv_finish p2 (at_ E 4 s2) dq retq starve H2) as Hf. exact Hf.
  - pose proof (sinv_finish p s dq retq starve H) as Hf. exact Hf.
Qed.

Lemma sinv_invoke_data p s dq retq : sinv p s -> ds_is_installed s = true ->
  exists r s', invoke_data T E dq retq s = Done (r, s') /\ exists p', sinv p' s'.
Proof.
  intros H Hi. unfold invoke_data. destruct (negb (canceled s) && _) eqn:Ec; [|by apply (sinv_invoke_cancel p)].
  apply andb_true_iff in Ec as [Ec _]. apply negb_true_iff in Ec. destruct (decide _); [|by eexists _, _; split; [|exists p]].
  pose proof (sinv_latch p s dq H Ec) as H1. pose proof (HE 2%nat _ (si_nd _ _ H1)) as O. apply (sinv_at _ _ 2) in H1.
  apply (sinv_invoke_cancel p); [done|]. by rewrite (ot_installed _ _ _ O), (latch_installed p).
Qed.
Local Arguments get_handler : simpl never.

Lemma sinv_invoke2 p s dq drained : sinv p s ->
  exists r s', _dispatch_source_invoke2 T E dq drained s = Done (r, s') /\ exists p', sinv p' s'.
Proof.
  intros H. unfold _dispatch_source_invoke2.
  assert (exists retq s1, (if ds_items s then (drained, at_ E 11 (with_queue s (ds_suspended s) false)) else (WAKEUP_NONE, s)) = (retq, s1) /\
    sinv p s1) as (retq & s1 & -> & H1).
  { destruct (ds_items s); [|by eexists _, _]. eexists _, _. split; [done|]. by apply sinv_at, sinv_queue. }
  destruct (negb _ && _); [by eexists _, _; split; [|exists p]|].
  assert (exists p2 s2, (if ds_is_installed s1 then Done s1 else _dispatch_source_install T E s1) = Done s2 /\ sinv p2 s2 /\ ds_is_installed s2 = true)
    as (p2 & s2 & -> & H2 & Hi2).
  { destruct (ds_is_installed s1) eqn:Ei; [by exists p, s1|]. assert (p = PLive) as -> by (by apply (live_phase p s1), (si_inst _ _ H1)).
    by apply sinv_install. }
  simpl. pose proof (HE 0%nat s2 (si_nd _ _ H2)) as O3. apply (sinv_at _ _ 0) in H2. set (s3 := at_ E 0 s2) in *.
  assert (ds_is_installed s3 = true) as Hi3 by (by rewrite (ot_installed _ _ _ O3)).
  destruct (ds_suspended s3); [by eexists _, _; split; [|exists p2]|]. destruct (_ && _ && _); [by eexists _, _; split; [|exists p2]|].
  set (s4 := if _ && _ then timer_configure T s3 else s3).
  assert (sinv p2 s4 /\ ds_is_installed s4 = true) as [H4 Hi4].
  { unfold s4. destruct (_ && _) eqn:En; [|done]. apply andb_true_iff in En as [En Ec]. apply negb_true_iff in Ec.
    rewrite configure_installed. split; [|done]. assert (deleted s3 = false) as Hd.
    { destruct (deleted s3) eqn:Ed; [|done]. unfold _dispatch_source_refs_needs_configuration in En. apply andb_true_iff in En as [Et _].
      rewrite (si_timer _ _ H2 Et Ed) in Ec. done. }
    assert (p2 = PLive) as -> by (by apply (live_phase p2 s3)). by apply sinv_configure. }
  clearbody s4. destruct (get_handler s4 DS_REGISTN_HANDLER && _); [by eexists _, _; split; [|exists p2]|].
  set (s5 := if get_handler s4 DS_REGISTN_HANDLER then _ else s4).
  assert (sinv p2 s5 /\ ds_is_installed s5 = true) as [H5 Hi5].
  { unfold s5. destruct (get_handler s4 DS_REGISTN_HANDLER) eqn:Eh; [|done]. split; [by apply sinv_registration|].
    unfold _dispatch_source_registration_callout, _dispatch_source_handler_take. by destruct (canceled _). }
  clearbody s5. pose proof (HE 1%nat s5 (si_nd _ _ H5)) as O6. apply (sinv_at _ _ 1) in H5. set (s6 := at_ E 1 s5) in *.
  assert (ds_is_installed s6 = true) as Hi6 by (by rewrite (ot_installed _ _ _ O6)).
  assert (exists p7 s7, (if du_needs_delete (ds_state s6) then _dispatch_source_refs_unregister E true s6 else Done s6) = Done s7 /\ sinv p7 s7 /\
    ds_is_installed s7 = true) as (p7 & s7 & -> & H7 & Hi7).
  { destruct (du_needs_delete (ds_state s6)) eqn:En; [|by exists p2, s6]. destruct (si_nd _ _ H5 En) as [Hr Et].
    assert (deleted s6 = false) as Hd by (destruct (deleted s6) eqn:Ed; [by rewrite (si_reg _ _ H5 Ed) in Hr|done]).
    assert (p2 = PLive) as -> by (by apply (live_phase p2 s6)).
    destruct (sinv_unregister true s6) as (p7 & s7 & ? & ? & ? & ?); [done|done|by rewrite Et|]. by exists p7, s7. }
  simpl. pose proof (HE 7%nat s7 (si_nd _ _ H7)) as O7. apply (sinv_invoke_data p7); [by apply sinv_at|]. by rewrite (ot_installed _ _ _ O7).
Qed.
End safe.
