(* ===== verification/SourceCancel.v ===== *)
(** * Event sources: every run keeps the cancellation protocol

    The runs of a source from its creation: handlers set while it is inactive and after
    that, its activation, invocations, [dispatch_source_cancel_and_wait], and what other
    threads do between them.  Two uses of a source break the protocol, and the theorem
    excludes them by name: [dispatch_source_cancel_and_wait] on a source that is not
    installed yet ([registered_after_finalized]), and a handler set after the cancellation
    handler has run ([cancel_handler_again]). *)

From S2P Require Import Prelude Time TimerSource Source SourceSafe.

Local Open Scope word_scope.

(** A source as [dispatch_source_create] leaves it. *)
Definition created (t : timer_refs) : source :=
  mkSource {| DSF_CANCELED := false; DQF_RELEASED := false; DSF_DELETED := false; DSF_NEEDS_EVENT := false; DSF_CANCEL_WAITER := false |}
    false false false {| du_registered := false; du_armed := false; du_needs_delete := false |} t
    {| h_event := false; h_cancel := false; h_registn := false |} 0 0 [].

(** What happens to a source.  [EvSetHandlerSlow] is the barrier item by which
    [_dispatch_source_set_handler] changes a handler of an active source: it runs with the
    drain lock, before or between invocations. *)
Inductive source_event :=
| EvSetHandler (k : handler_kind) (func : bool)
| EvSetHandlerSlow (k : handler_kind) (func : bool)
| EvOthers
| EvActivate
| EvInvoke
| EvCancelAndWait.

(** [source_history T h activated s]: [s] is reached by the events of [h], each listed with
    the source it found. *)
Inductive source_history (T : source_type) : list (source * source_event) -> bool -> source -> Prop :=
| run_created t : source_history T [] false (created t)
| run_set_handler h s s' k func : source_history T h false s -> _dispatch_source_set_handler T true k func s = Done s' ->
    source_history T (h ++ [(s, EvSetHandler k func)]) false s'
| run_set_handler_slow h s k func : source_history T h true s -> dst_strict T = false ->
    source_history T (h ++ [(s, EvSetHandlerSlow k func)]) true (_dispatch_source_set_handler_slow k func s)
| run_others h b s s' : source_history T h b s -> others T s s' -> source_history T (h ++ [(s, EvOthers)]) b s'
| run_activate h s s' E inherits : source_history T h false s -> _dispatch_source_activate T E inherits s = Done s' ->
    source_history T (h ++ [(s, EvActivate)]) true s'
| run_invoke h s s' E dq drained r : source_history T h true s -> env_ok T E -> _dispatch_source_invoke2 T E dq drained s = Done (r, s') ->
    source_history T (h ++ [(s, EvInvoke)]) true s'
| run_cancel_and_wait h s s' E r : source_history T h true s ->
    dispatch_source_cancel_and_wait T E LockTaken s = Done (r, s') -> source_history T (h ++ [(s, EvCancelAndWait)]) true s'.

(** [dispatch_source_cancel_and_wait] takes the lock of installed sources only ... *)
Definition waits_installed (h : list (source * source_event)) : Prop :=
  Forall (fun '(s, e) => e = EvCancelAndWait -> ds_is_installed s = true) h.
(** ... and no handler is set after the cancellation handler was called. *)
Definition no_late_handler (h : list (source * source_event)) : Prop :=
  Forall (fun '(s, e) => forall k q d, e = EvSetHandlerSlow k true -> Call DS_CANCEL_HANDLER q d ∉ ds_log s) h.

(** The runs with both conditions. *)
Definition source_run (T : source_type) (activated : bool) (s : source) : Prop :=
  exists h, source_history T h activated s /\ waits_installed h /\ no_late_handler h.

(** ** What other threads do *)

Lemma others_refl T s : (du_needs_delete (ds_state s) = true -> du_registered (ds_state s) = true /\ du_is_timer T = false) -> others T s s.
Proof. intros H. constructor; try done. exists []. by rewrite app_nil_r. Qed.

Lemma cancel_others T s : (du_needs_delete (ds_state s) = true -> du_registered (ds_state s) = true /\ du_is_timer T = false) ->
  others T s (dispatch_source_cancel s).1.
Proof. intros H. constructor; try done. exists []. by rewrite app_nil_r. Qed.

Lemma merge_data_others T f val s : (du_needs_delete (ds_state s) = true -> du_registered (ds_state s) = true /\ du_is_timer T = false) ->
  others T s (dispatch_source_merge_data f val s).
Proof.
  intros H. unfold dispatch_source_merge_data. destruct (canceled s); [by apply others_refl|]. constructor; try done. by exists [val].
Qed.

(** A [dispatch_source_cancel_and_wait] that does not take the lock only sets flags. *)
Lemma cancel_and_wait_others T E lock s s' r :
  (du_needs_delete (ds_state s) = true -> du_registered (ds_state s) = true /\ du_is_timer T = false) ->
  lock <> LockTaken -> dispatch_source_cancel_and_wait T E lock s = Done (r, s') -> others T s s'.
Proof.
  intros H Hl. unfold dispatch_source_cancel_and_wait. destruct (get_handler s DS_CANCEL_HANDLER); [done|].
  set (w := _ || _). set (s1 := if DSF_CANCEL_WAITER _ then s else _).
  assert (others T s s1) as O by (unfold s1; destruct (DSF_CANCEL_WAITER _); [by apply others_refl|]; constructor; try done; exists []; by rewrite app_nil_r).
  clearbody s1. cbv zeta. destruct (DQF_RELEASED _); [done|]. destruct (DSF_DELETED _); [by intros ?; simplify_eq|].
  destruct w; [by intros ?; simplify_eq|]. by destruct lock; intros ?; simplify_eq.
Qed.

(** ** The invariant of runs *)

Section run.
Context (T : source_type).

Lemma sinv_set_handler p s k func : sinv T [] false p s -> (func = true -> p <> PDone) -> sinv T [] false p (_dispatch_source_handler_replace s k func).
Proof.
  intros H Hf. unfold _dispatch_source_handler_replace. cbv zeta. set (s1 := with_handler s _).
  assert (sinv T [] false p s1) as H1.
  { destruct H as [K1 K2 K3 K4 K5 K6 K7 K8 K9]. constructor; try done. intros Hp. destruct (K3 Hp) as [Hc Hh]. split; [done|]. intros k'.
    destruct func; [by destruct (Hf eq_refl)|]. specialize (Hh k'). subst s1. by destruct k, k'. }
  destruct (get_handler s k); [|done]. apply sinv_quiet; [done|by destruct p|done].
Qed.

(** The cancellation handler has been called when the protocol is at its end. *)
Lemma monitor_done L : monitor L = Some PDone -> exists q d, Call DS_CANCEL_HANDLER q d ∈ L.
Proof.
  induction L as [|e L IH] using rev_ind; [done|]. rewrite monitor_snoc. intros (p & Hp & Hs)%bind_Some.
  assert (p = PDone \/ exists q d, e = Call DS_CANCEL_HANDLER q d) as [->|(q & d & ->)]
    by (destruct p, e as [[]| | | | | | | | |]; simplify_eq/=; eauto).
  - destruct (IH Hp) as (q & d & Hin). exists q, d. apply elem_of_app. by left.
  - exists q, d. apply elem_of_app. right. by apply list_elem_of_singleton.
Qed.

Lemma sinv_rebase p s : sinv T [] false p s -> sinv T (ds_log s) (canceled s) p s.
Proof. intros [H1 H2 H3 H4 H5 H6 H7 H8 H9]. constructor; auto. exists []. by rewrite app_nil_r. Qed.

Lemma sinv_weaken B c p s : sinv T B c p s -> sinv T [] false p s.
Proof. intros [H1 H2 H3 H4 H5 H6 H7 H8 H9]. constructor; auto; try done. by exists (ds_log s). Qed.

Lemma sinv_created t : sinv T [] false PLive (created t).
Proof. constructor; try done. by exists []. Qed.

Lemma sinv_cancel_flag s w : sinv T [] false PLive s ->
  sinv T [] false PLive (with_flags s {| DSF_CANCELED := true; DQF_RELEASED := DQF_RELEASED (dq_atomic_flags s);
    DSF_DELETED := DSF_DELETED (dq_atomic_flags s); DSF_NEEDS_EVENT := DSF_NEEDS_EVENT (dq_atomic_flags s); DSF_CANCEL_WAITER := w |}).
Proof. intros [H1 H2 H3 H4 H5 H6 H7 H8 H9]. by constructor. Qed.

Lemma sinv_activate E inherits s : sinv T [] false PLive s -> ds_is_installed s = false ->
  exists p s', _dispatch_source_activate T E inherits s = Done s' /\ sinv T [] false p s'.
Proof.
  intros H Hi. unfold _dispatch_source_activate. destruct (si_inst _ _ _ _ _ H Hi) as [Hd Hr]. destruct (DSF_CANCELED _) eqn:Ec.
  - assert (sinv T [] false PLive (with_installed s)) as H1 by (destruct H; by constructor).
    destruct (sinv_finalize T [] false (with_installed s)) as (s' & -> & ? & _); [done|done|done| |by exists PFinal, s'].
    intros _. unfold canceled. simpl. by rewrite Ec.
  - destruct (_ && _ && _); [|by exists PLive, s]. destruct (sinv_install T [] false E s H Hi) as (p & s' & -> & ? & _). by exists p, s'.
Qed.

(** A [dispatch_source_cancel_and_wait] that takes the lock. *)
Lemma sinv_cancel_and_wait E p s s' r : sinv T [] false p s -> ds_is_installed s = true ->
  dispatch_source_cancel_and_wait T E LockTaken s = Done (r, s') -> exists p', sinv T [] false p' s'.
Proof.
  intros H Hi. unfold dispatch_source_cancel_and_wait. destruct (get_handler s DS_CANCEL_HANDLER); [done|].
  set (w := _ || _). set (s1 := if DSF_CANCEL_WAITER _ then s else _).
  assert (forall d, deleted s = d -> d = false -> sinv T [] false PLive s1) as H1.
  { intros d Hd ->. assert (p = PLive) as -> by (by apply (live_phase T [] false p s)). unfold s1.
    destruct (DSF_CANCEL_WAITER _); [done|by apply sinv_cancel_flag]. }
  assert (ds_is_installed s1 = true) as Hi1 by (unfold s1; by destruct (DSF_CANCEL_WAITER _)).
  cbv zeta. destruct (DQF_RELEASED _) eqn:Er; [done|]. destruct (DSF_DELETED _) eqn:Ed.
  - intros [= <- <-]. exists p. unfold s1. destruct (DSF_CANCEL_WAITER _); [done|].
    destruct H as [K1 K2 K3 K4 K5 K6 K7 K8 K9]. constructor; try done; unfold deleted in *; simpl; rewrite ?Ed in *; try done. intros Hp. by destruct (K3 Hp).
  - specialize (H1 false Ed eq_refl). destruct w eqn:Ew; [intros [= <- <-]; by exists PLive|].
    assert (canceled s1 = true) as Hc1.
    { unfold s1. unfold w in Ew. apply orb_false_iff in Ew as [-> _]. done. }
    assert (deleted s1 = false) as Hd1 by (by apply (si_live _ _ _ _ _ H1)). rewrite Hd1. simpl.
    destruct (sinv_unregister T [] false E false s1) as (p2 & s2 & -> & H2 & Hc2 & _); [done|done|done|].
    simpl. intros [= <- <-]. destruct (deleted s2) eqn:Ed2; [|by exists p2].
    destruct (sinv_cancel T [] false p2 s2 _dispatch_mgr_q) as (p3 & H3 & _); [done|by rewrite Hc2|done|]. by exists p3.
Qed.

Lemma history_sinv h b s : source_history T h b s -> waits_installed h -> no_late_handler h ->
  exists p, sinv T [] false p s /\ (b = false -> ds_is_installed s = false).
Proof.
  assert (forall (P : source * source_event -> Prop) h x, Forall P (h ++ [x]) -> Forall P h /\ P x) as Hsnoc.
  { intros P l x [Hl Hx]%Forall_app. split; [done|]. by apply Forall_cons in Hx as [? _]. }
  assert (forall p s, sinv T [] false p s -> ds_is_installed s = false -> p = PLive) as Hlive.
  { intros p s1 H1 Hi1. by apply (live_phase T [] false p s1 H1), (si_inst _ _ _ _ _ H1). }
  induction 1 as [t|h s s' k func _ IH Hs|h s k func _ IH Hst|h b s s' _ IH O|h s s' E inh _ IH Ha|h s s' E dq dr r _ IH HE Hv|h s s' E r _ IH Hw];
    [exists PLive; split; [apply sinv_created|done]|intros [Hw1 Hw2]%Hsnoc [Hn1 Hn2]%Hsnoc; destruct (IH Hw1 Hn1) as (p & H & Hi)..].
  - specialize (Hi eq_refl). assert (p = PLive) as -> by (by apply (Hlive p s)).
    injection Hs as <-. exists PLive. split; [by apply sinv_set_handler|]. unfold _dispatch_source_handler_replace. by destruct (get_handler s k).
  - exists p. split; [|done]. apply sinv_set_handler; [done|]. intros -> ->. destruct (monitor_done _ (si_mon _ _ _ _ _ H)) as (q & d & Hin).
    by apply (Hn2 k q d).
  - exists p. split; [by apply (sinv_others T [] false p s)|]. by rewrite (ot_installed _ _ _ O).
  - specialize (Hi eq_refl). assert (p = PLive) as -> by (by apply (Hlive p s)).
    destruct (sinv_activate E inh s H Hi) as (p' & s2 & E2 & H2). rewrite E2 in Ha. injection Ha as <-. by exists p'.
  - destruct (sinv_invoke2 T [] false E HE p s dq dr H) as (r' & s2 & E2 & p' & H2). rewrite E2 in Hv. injection Hv as <- <-. by exists p'.
  - destruct (sinv_cancel_and_wait E p s s' r H (Hw2 eq_refl) Hw) as [p' H']. by exists p'.
Qed.

Lemma run_sinv b s : source_run T b s -> exists p, sinv T [] false p s /\ (b = false -> ds_is_installed s = false).
Proof. intros (h & R & Hw & Hn). by apply (history_sinv h). Qed.
End run.

(** ** What the monitor means *)

Definition mon_run (p : phase) (L : list source_effect) : option phase := foldl (fun o e => p ← o; mon_step p e) (Some p) L.

#[export] Instance source_effect_eq_dec : EqDecision source_effect.
Proof. solve_decision. Defined.

Lemma mon_run_none L : foldl (fun o e => p ← o; mon_step p e) (None : option phase) L = None.
Proof. by induction L. Qed.

Lemma mon_run_split p L1 e L2 q : mon_run p (L1 ++ e :: L2) = Some q ->
  exists p1 p2, mon_run p L1 = Some p1 /\ mon_step p1 e = Some p2 /\ mon_run p2 L2 = Some q.
Proof.
  unfold mon_run. rewrite foldl_app. simpl. intros H. destruct (foldl _ (Some p) L1) as [p1|]; simpl in H; [|by rewrite mon_run_none in H].
  destruct (mon_step p1 e) as [p2|] eqn:Es; [|by rewrite mon_run_none in H]. by exists p1, p2.
Qed.

(** Effects on the registration of the unote. *)
Definition back_end (e : source_effect) : bool :=
  match e with Finalized | Registered _ | Unregistered | Resumed | Configured => true | _ => false end.
Definition is_call (e : source_effect) : bool := match e with Call _ _ _ => true | _ => false end.

Lemma mon_run_final p L q : p <> PLive -> mon_run p L = Some q -> Forall (fun e => back_end e = false) L.
Proof.
  intros Hp H. apply Forall_forall. intros e He. apply list_elem_of_split in He as (L1 & L2 & ->).
  apply mon_run_split in H as (p1 & p2 & H1 & Hs & _). assert (p1 <> PLive) as Hp1.
  { clear Hs. revert p Hp H1. induction L1 as [|e1 L1 IH]; intros p Hp H1; [by injection H1 as <-|].
    apply (mon_run_split p [] e1 L1) in H1 as (p3 & p4 & H3 & H4 & H5). injection H3 as <-. apply (IH p4); [|done]. intros ->. by destruct p, e1 as [[]| | | | | | | | |]. }
  by destruct p1, e as [[]| | | | | | | | |].
Qed.

Lemma mon_run_done L q : mon_run PDone L = Some q -> Forall (fun e => back_end e = false /\ is_call e = false) L.
Proof.
  intros H. assert (forall L' q', mon_run PDone L' = Some q' -> q' = PDone) as Hd.
  { intros L'. induction L' as [|e L' IH]; intros q' H'; [by injection H' as <-|].
    apply (mon_run_split _ [] e L') in H' as (p3 & p4 & H3 & H4 & H5). injection H3 as <-. apply IH. assert (p4 = PDone) as -> by (destruct e as [[]| | | | | | | | |]; simpl in H4; congruence). done. }
  apply Forall_forall. intros e He. apply list_elem_of_split in He as (L1 & L2 & ->).
  apply mon_run_split in H as (p1 & p2 & H1 & Hs & _). apply Hd in H1 as ->. by destruct e as [[]| | | | | | | | |].
Qed.

Lemma mon_run_finalized L q : mon_run PLive L = Some q -> q <> PLive -> Finalized ∈ L.
Proof.
  intros H Hq. destruct (decide (Finalized ∈ L)) as [|Hn]; [done|]. exfalso. apply Hq. clear Hq. revert q H Hn.
  induction L as [|e L IH]; intros q H Hn; [by injection H as <-|]. apply not_elem_of_cons in Hn as [He Hn].
  apply (mon_run_split _ [] e L) in H as (p3 & p4 & H3 & H4 & H5). injection H3 as <-. apply IH; [|done].
  assert (p4 = PLive) as -> by (destruct e as [[]| | | | | | | | |]; simpl in H4; congruence). done.
Qed.

(** C15: Cancellation of a source, in every run of handlers set while it is inactive, its
    activation, handlers changed after that, invocations at each of whose points other threads
    and the handlers may cancel or release the source, merge data, report events or set its
    timer, and [dispatch_source_cancel_and_wait], under two conditions: the latter takes the
    lock of installed sources only, and no handler is set after the cancellation handler was
    called. A source is finalized once, and after that it is neither registered, resumed,
    configured nor unregistered; its cancellation handler runs only after it was finalized,
    and after it no handler is called at all (so it runs once); neither an activation nor an
    invocation crashes ("Source finalized twice"); and an invocation that begins with the
    source cancelled calls neither the event handler nor the registration handler.  Without
    the first condition a finalized source is registered ([registered_after_finalized]),
    without the second a cancellation handler runs again ([cancel_handler_again]). *)
Theorem source_cancel_protocol (T : source_type) (h : list (source * source_event)) (activated : bool) (s : source) :
  source_history T h activated s -> waits_installed h -> no_late_handler h ->
  (forall L1 L2, ds_log s = L1 ++ Finalized :: L2 -> Forall (fun e => back_end e = false) L2) /\
  (forall L1 q d L2, ds_log s = L1 ++ Call DS_CANCEL_HANDLER q d :: L2 ->
     Finalized ∈ L1 /\ Forall (fun e => back_end e = false /\ is_call e = false) L2) /\
  (activated = false -> forall E inherits, is_done (_dispatch_source_activate T E inherits s) = true) /\
  (activated = true -> forall E dq drained, env_ok T E -> exists r s' L,
     _dispatch_source_invoke2 T E dq drained s = Done (r, s') /\ ds_log s' = ds_log s ++ L /\
     (canceled s = true -> Forall (fun e => late_call e = false) L)).
Proof.
  intros R Hw Hn. destruct (history_sinv T h activated s R Hw Hn) as (p & H & Hi). pose proof (si_mon _ _ _ _ _ H) as Hm. change (monitor (ds_log s)) with (mon_run PLive (ds_log s)) in Hm.
  split; [|split; [|split]].
  - intros L1 L2 EL. rewrite EL in Hm. apply mon_run_split in Hm as (p1 & p2 & _ & Hs & H2). apply (mon_run_final p2 L2 p); [|done]. by intros ->; destruct p1.
  - intros L1 q d L2 EL. rewrite EL in Hm. apply mon_run_split in Hm as (p1 & p2 & H1 & Hs & H2). destruct p1; simplify_eq/=. split.
    + by apply (mon_run_finalized L1 PFinal).
    + by apply (mon_run_done L2 p).
  - intros Ha E inh. specialize (Hi Ha). assert (p = PLive) as -> by (by apply (live_phase T [] false p s H), (si_inst _ _ _ _ _ H)).
    by destruct (sinv_activate T E inh s H Hi) as (? & ? & -> & _).
  - intros _ E dq drained HE. destruct (sinv_invoke2 T (ds_log s) (canceled s) E HE p s dq drained) as (r & s' & Hr & p' & H'); [by apply sinv_rebase|].
    destruct (si_new _ _ _ _ _ H') as (L & EL & HL). by exists r, s', L.
Qed.

(** ** A run of a file descriptor source on queue 1 whose event handler cancels it *)

Definition fd_source : source_type :=
  {| do_targetq := 1; targets_overcommit_root := false; dst_action := ACTION_SOURCE_SET_DATA; du_replace := false; du_is_direct := false;
     du_is_timer := false; du_after := false; dst_strict := false |}.
Definition no_timer : timer_refs := {| dt_timer := {| target := 0; deadline := 0; interval := 0 |}; dt_pending_config := None |}.
Definition quiet_env : invoke_env := {| env_register := true; env_unregister := true; env_now := 0; at_ := fun _ s => s |}.
Definition cancel_in_handler : invoke_env :=
  {| env_register := true; env_unregister := true; env_now := 0;
     at_ := fun k s => if decide (k = 10%nat) then (dispatch_source_cancel s).1 else s |}.

Lemma quiet_env_ok T : env_ok T quiet_env.
Proof. intros k s H. by apply others_refl. Qed.
Lemma cancel_in_handler_ok T : env_ok T cancel_in_handler.
Proof. intros k s H. simpl. destruct (decide _); [by apply cancel_others|by apply others_refl]. Qed.

Definition the_source (m : outcome source) : source := match m with Done s => s | Crash _ => created no_timer end.
Definition the_invoked (m : outcome (wakeup_target * source)) : source := match m with Done (_, s) => s | Crash _ => created no_timer end.

Definition fd_set : source :=
  let set s k := the_source (_dispatch_source_set_handler fd_source true k true s) in
  set (set (set (created no_timer) DS_EVENT_HANDLER) DS_CANCEL_HANDLER) DS_REGISTN_HANDLER.
Definition fd_active : source := the_source (_dispatch_source_activate fd_source quiet_env true fd_set).
Definition fd_invoked (E : invoke_env) (q : nat) (s : source) : source := the_invoked (_dispatch_source_invoke2 fd_source E q WAKEUP_NONE s).
(** [~1] in [ds_pending_data] is one byte to read; the event disarms the unote. *)
Definition fd_event (s : source) : source :=
  with_data (with_state s {| du_registered := true; du_armed := false; du_needs_delete := false |}) 0 (lnotw 64 1).
Definition fd_installed : source := fd_invoked quiet_env 1 (fd_invoked quiet_env 0 fd_active).
Definition fd_canceled : source := fd_invoked cancel_in_handler 1 (fd_event fd_installed).
Definition fd_final : source := fd_invoked quiet_env 1 (fd_invoked quiet_env 0 fd_canceled).

Lemma fd_event_others s : du_registered (ds_state s) = true -> others fd_source s (fd_event s).
Proof. intros H. constructor; try done. exists []. by rewrite app_nil_r. Qed.

(** Events that neither condition restricts. *)
Definition harmless (e : source_event) : bool := match e with EvCancelAndWait | EvSetHandlerSlow _ _ => false | _ => true end.

(** The runs made of such events, for concrete ones. *)
Lemma harmless_run T h b s : source_history T h b s -> Forall (fun x => harmless x.2 = true) h -> source_run T b s.
Proof.
  intros R Hh. exists h. split; [done|]. split; (eapply Forall_impl; [exact Hh|]); intros [s1 e] He; simpl in *; [by intros ->|by intros k q d ->].
Qed.

Definition harmless_history (T : source_type) (b : bool) (s : source) : Prop :=
  exists h, source_history T h b s /\ Forall (fun x => harmless x.2 = true) h.

Lemma harmless_snoc h (s : source) e : Forall (fun x => harmless x.2 = true) h -> harmless e = true -> Forall (fun x : source * source_event => harmless x.2 = true) (h ++ [(s, e)]).
Proof. intros H He. apply Forall_app. split; [done|]. by constructor. Qed.

Lemma run_fd_invoked E q s : harmless_history fd_source true s -> env_ok fd_source E ->
  is_done (_dispatch_source_invoke2 fd_source E q WAKEUP_NONE s) = true -> harmless_history fd_source true (fd_invoked E q s).
Proof.
  intros (h & R & Hh) HE Hd. unfold fd_invoked. destruct (_dispatch_source_invoke2 fd_source E q WAKEUP_NONE s) as [[r s']|] eqn:Ev; [|done].
  eexists. split; [by apply (run_invoke _ h s _ E q WAKEUP_NONE r)|by apply harmless_snoc].
Qed.

Lemma fd_active_history : harmless_history fd_source true fd_active.
Proof.
  eexists. split.
  - eapply (run_activate _ _ fd_set _ quiet_env true); [|vm_compute; reflexivity]. do 3 (eapply run_set_handler; [|reflexivity]). apply run_created.
  - repeat (apply harmless_snoc; [|done]). constructor.
Qed.

Lemma fd_canceled_history : harmless_history fd_source true fd_canceled.
Proof.
  unfold fd_canceled. apply run_fd_invoked; [|apply cancel_in_handler_ok|vm_compute; reflexivity].
  assert (harmless_history fd_source true fd_installed) as (h & R & Hh).
  { unfold fd_installed. apply run_fd_invoked; [|apply quiet_env_ok|vm_compute; reflexivity].
    apply run_fd_invoked; [apply fd_active_history|apply quiet_env_ok|vm_compute; reflexivity]. }
  eexists. split; [eapply (run_others _ h _ fd_installed); [done|by apply fd_event_others; vm_compute]|by apply harmless_snoc].
Qed.

Lemma fd_canceled_run : source_run fd_source true fd_canceled.
Proof. destruct fd_canceled_history as (h & R & Hh). by apply (harmless_run _ h). Qed.

Lemma fd_final_run : source_run fd_source true fd_final.
Proof.
  assert (harmless_history fd_source true fd_final) as (h & R & Hh); [|by apply (harmless_run _ h)].
  unfold fd_final. apply run_fd_invoked; [|apply quiet_env_ok|vm_compute; reflexivity].
  apply run_fd_invoked; [apply fd_canceled_history|apply quiet_env_ok|vm_compute; reflexivity].
Qed.

Definition fd_log : list source_effect :=
  [Registered true; Call DS_REGISTN_HANDLER 1 0; Call DS_EVENT_HANDLER 1 1; Unregistered; Finalized; Dispose DS_EVENT_HANDLER].
Lemma fd_final_log : ds_log fd_final = fd_log ++ [Call DS_CANCEL_HANDLER 1 0].
Proof. vm_compute. reflexivity. Qed.

Lemma source_cancel_protocol_witness :
  ds_log fd_final = fd_log ++ [Call DS_CANCEL_HANDLER 1 0] /\ Finalized ∈ fd_log.
Proof.
  split; [apply fd_final_log|]. destruct fd_final_run as (h & R & Hw & Hn).
  destruct (source_cancel_protocol fd_source h true fd_final R Hw Hn) as (_ & H & _). exact (proj1 (H fd_log 1%nat 0 [] fd_final_log)).
Defined.

(** A data source whose activation left the registration for later (its queue is mutable or
    suspended) and that [dispatch_source_cancel_and_wait] finalizes before its first
    invocation: that invocation registers the unote all the same, after the source was
    finalized, and nothing unregisters it. *)
Definition data_source : source_type :=
  {| do_targetq := 1; targets_overcommit_root := false; dst_action := ACTION_PASS_DATA; du_replace := false; du_is_direct := true;
     du_is_timer := false; du_after := false; dst_strict := false |}.

Lemma registered_after_finalized :
  let s0 := the_source (_dispatch_source_activate data_source quiet_env false (created no_timer)) in
  let s1 := the_invoked (match dispatch_source_cancel_and_wait data_source quiet_env LockTaken s0 with
                         | Done (_, s) => Done (WAKEUP_NONE, s) | Crash c => Crash c end) in
  let s2 := the_invoked (_dispatch_source_invoke2 data_source quiet_env 1 WAKEUP_NONE s1) in
  ds_log s2 = [Finalized; Registered true] /\ du_registered (ds_state s2) = true /\ deleted s2 = true /\
  _dispatch_source_wakeup data_source false s2 = WAKEUP_NONE.
Proof. repeat split; vm_compute; reflexivity. Qed.

(** A cancellation handler that is set after the first one has run is called as well, by the
    next invocation. *)
Lemma cancel_handler_again :
  let s := fd_invoked quiet_env 1 (_dispatch_source_set_handler_slow DS_CANCEL_HANDLER true fd_final) in
  ds_log s = fd_log ++ [Call DS_CANCEL_HANDLER 1 0; Call DS_CANCEL_HANDLER 1 0] /\
  _dispatch_source_wakeup fd_source false (_dispatch_source_set_handler_slow DS_CANCEL_HANDLER true fd_final) = WAKEUP_QUEUE 1.
Proof. by vm_compute. Qed.
