(* ===== verification/SourceDrive.v ===== *)
(** * Event sources: a cancelled source is taken down

    [_dispatch_source_invoke2] and [_dispatch_source_wakeup] make the same tests in the same
    order: an invocation of a cancelled source returns the queue that the wakeup would ask
    for next, and each invocation on that queue completes a stage. *)

From S2P Require Import Prelude Time TimerSource Source SourceSafe SourceCancel.

Local Open Scope word_scope.

(** Nobody else touches the source, and the back end unregisters at once. *)
Record quiet (E : invoke_env) : Prop := { qt_at : forall k s, at_ E k s = s; qt_unregister : env_unregister E = true }.

(** The stages that are left before the cancellation handler. *)
Definition stages (s : source) : nat :=
  (if ds_is_installed s then 0 else 1) + (if get_handler s DS_REGISTN_HANDLER then 1 else 0) + (if deleted s then 0 else 1).

Definition any_handler (s : source) : bool :=
  get_handler s DS_EVENT_HANDLER || get_handler s DS_CANCEL_HANDLER || get_handler s DS_REGISTN_HANDLER.

(** The invocations that a source gets: on the queue that the wakeup asks for, then on
    each queue that the invocation before returned. *)
Fixpoint drive (T : source_type) (E : invoke_env) (fuel : nat) (tq : wakeup_target) (s : source) : outcome (wakeup_target * source) :=
  match fuel, tq with
  | S n, WAKEUP_QUEUE q => '(tq, s) ← _dispatch_source_invoke2 T E q WAKEUP_NONE s; drive T E n tq s
  | _, _ => Done (tq, s)
  end.

Section drive.
Context (T : source_type) (E : invoke_env) (HE : quiet E).

Lemma quiet_ok : env_ok T E.
Proof. intros k s H. rewrite (qt_at _ HE). by apply others_refl. Qed.

(** What an invocation keeps of a cancelled source on its way. *)
Record keeps (s s' : source) : Prop := {
  kp_flags : DSF_CANCELED (dq_atomic_flags s') = DSF_CANCELED (dq_atomic_flags s) /\ DQF_RELEASED (dq_atomic_flags s') = DQF_RELEASED (dq_atomic_flags s);
  kp_suspended : ds_suspended s' = ds_suspended s;
  kp_cancel : get_handler s' DS_CANCEL_HANDLER = get_handler s DS_CANCEL_HANDLER;
  kp_items : ds_items s' = ds_items s;
}.

Lemma keeps_refl s : keeps s s.
Proof. done. Qed.
Lemma keeps_trans s1 s2 s3 : keeps s1 s2 -> keeps s2 s3 -> keeps s1 s3.
Proof. intros [[] ? ? ?] [[] ? ? ?]. constructor; [split|..]; congruence. Qed.
Lemma keeps_canceled s s' : keeps s s' -> canceled s' = canceled s.
Proof. intros [[H1 H2] _ _ _]. unfold canceled. by rewrite H1, H2. Qed.

(** Registration and unregistration also keep the handlers. *)
Definition same_handlers (s s' : source) : Prop := ds_handler s' = ds_handler s.

Lemma keeps_configure s : keeps s (timer_configure T s) /\ same_handlers s (timer_configure T s) /\ deleted (timer_configure T s) = deleted s.
Proof.
  unfold timer_configure, unote_resume. destruct (dt_pending_config _); [|done]. simpl. destruct (du_armed _); [|done]. by destruct (du_is_timer T).
Qed.

Lemma keeps_finalize s s' : _dispatch_source_refs_finalize_unregistration s = Done s' ->
  keeps s s' /\ same_handlers s s' /\ deleted s' = true /\ ds_is_installed s' = ds_is_installed s.
Proof.
  unfold _dispatch_source_refs_finalize_unregistration. destruct (DSF_DELETED _); [done|]. intros [= <-]. by destruct (DSF_CANCEL_WAITER _).
Qed.

Lemma keeps_unregister must s s' : _dispatch_source_refs_unregister E must s = Done s' ->
  keeps s s' /\ same_handlers s s' /\ deleted s' = true /\ ds_is_installed s' = ds_is_installed s.
Proof.
  unfold _dispatch_source_refs_unregister, unote_unregister. rewrite (qt_unregister _ HE), orb_true_r.
  destruct (du_registered _); simpl; [|by apply keeps_finalize].
  intros Hf. apply keeps_finalize in Hf as (K & ? & ? & ?). split; [|done]. by eapply keeps_trans; [|exact K].
Qed.

Lemma keeps_install s s' : _dispatch_source_install T E s = Done s' -> keeps s s' /\ same_handlers s s' /\ ds_is_installed s' = true.
Proof.
  unfold _dispatch_source_install, unote_register. destruct (env_register E || du_is_timer T); simpl.
  - intros [= <-]. set (s1 := effect _ _). assert (keeps s s1 /\ same_handlers s s1 /\ ds_is_installed s1 = true) as (K & Hh & Hi) by done.
    clearbody s1. destruct (_dispatch_source_refs_needs_configuration T s1); [|done].
    destruct (keeps_configure s1) as (K1 & Hh1 & _). rewrite (configure_installed T). split; [by apply (keeps_trans _ s1)|]. split; [|done]. unfold same_handlers in *. congruence.
  - intros Hf. apply keeps_finalize in Hf as (K & ? & _ & Hi). split; [|done]. by eapply keeps_trans; [|exact K].
Qed.

Lemma keeps_registration s q : canceled s = true ->
  keeps s (_dispatch_source_registration_callout s q) /\ get_handler (_dispatch_source_registration_callout s q) DS_REGISTN_HANDLER = false /\
  deleted (_dispatch_source_registration_callout s q) = deleted s /\ ds_is_installed (_dispatch_source_registration_callout s q) = ds_is_installed s /\
  ds_state (_dispatch_source_registration_callout s q) = ds_state s.
Proof.
  intros Hc. unfold _dispatch_source_registration_callout, _dispatch_source_handler_take.
  change (canceled (with_handler _ _)) with (canceled s). rewrite Hc. done.
Qed.
Lemma keeps_any_handler s s' : same_handlers s s' -> any_handler s' = any_handler s /\ get_handler s' DS_REGISTN_HANDLER = get_handler s DS_REGISTN_HANDLER.
Proof. unfold same_handlers, any_handler, get_handler. by intros ->. Qed.

(** The end of an invocation of a cancelled source that is deleted. *)
Lemma finish_canceled s q r starve : canceled s = true -> deleted s = true ->
  invoke_cancel T E q r starve (dq_atomic_flags s) s =
  Done (if bool_decide (q <> do_targetq T) && any_handler s then (WAKEUP_QUEUE (do_targetq T), s) else (r, _dispatch_source_cancel_callout s q)).
Proof.
  intros Hc Hd. unfold invoke_cancel, canceled, deleted in *. rewrite Hd, Hc. cbn [negb andb]. rewrite !(qt_at _ HE). fold (any_handler s).
  destruct (bool_decide (q <> do_targetq T) && any_handler s) eqn:Ea; [done|]. unfold invoke_rearm.
  assert (dq_atomic_flags (_dispatch_source_cancel_callout s q) = dq_atomic_flags s) as Ef.
  { unfold _dispatch_source_cancel_callout, _dispatch_source_handler_take. set (s1 := with_data _ 0 0).
    assert (dq_atomic_flags (_dispatch_source_handler_free (_dispatch_source_handler_free s1 DS_EVENT_HANDLER) DS_REGISTN_HANDLER) = dq_atomic_flags s) as Ef
      by (rewrite !(proj1 (free_frame _ _)); done).
    destruct (negb (get_handler s _)); [done|]. by destruct (negb (DSF_CANCELED _)). }
  unfold canceled. by rewrite Ef, Hc.
Qed.

Lemma cancel_callout_after s q : let s' := _dispatch_source_cancel_callout s q in
  dq_atomic_flags s' = dq_atomic_flags s /\ any_handler s' = false /\ ds_suspended s' = ds_suspended s /\ ds_is_installed s' = ds_is_installed s /\
  ds_items s' = ds_items s /\ ds_state s' = ds_state s /\
  (get_handler s DS_CANCEL_HANDLER = true -> DSF_CANCELED (dq_atomic_flags s) = true -> Call DS_CANCEL_HANDLER q 0 ∈ ds_log s').
Proof.
  unfold _dispatch_source_cancel_callout, _dispatch_source_handler_take, _dispatch_source_handler_free, _dispatch_source_handler_take.
  destruct s as [[cc ? ? ? ?] ? ? ? ? ? [he hc hr] ? ? lg]. destruct hc, he, hr, cc; simpl; repeat split; try done; intros _ _; set_solver.
Qed.

Local Arguments get_handler : simpl never.

(** The part of an invocation after the registration handler. *)
Lemma tail_canceled p s q r : sinv T [] false p s -> ds_is_installed s = true -> canceled s = true -> du_needs_delete (ds_state s) = false ->
  exists s', invoke_data T E q r s = Done s' /\
  ( (s' = (WAKEUP_QUEUE (kevent_queue T), s) /\ deleted s = false /\ du_is_timer T && negb (du_armed (ds_state s)) = false /\ q <> kevent_queue T)
  \/ (exists s1, keeps s s1 /\ same_handlers s s1 /\ deleted s1 = true /\ ds_is_installed s1 = true /\ du_needs_delete (ds_state s1) = false /\
       s' = if bool_decide (q <> do_targetq T) && any_handler s1 then (WAKEUP_QUEUE (do_targetq T), s1) else (r, _dispatch_source_cancel_callout s1 q))).
Proof.
  intros H Hi Hc Hn. unfold invoke_data. rewrite Hc. simpl. destruct (deleted s) eqn:Ed.
  - rewrite finish_canceled by done. eexists. split; [done|]. right. exists s. done.
  - unfold invoke_cancel. rewrite !(qt_at _ HE). unfold canceled, deleted in Hc, Ed. rewrite Hc, Ed. cbn [negb andb].
    destruct (negb (du_is_timer T && _) && bool_decide (q <> kevent_queue T)) eqn:Eq.
    { apply andb_true_iff in Eq as [Et Eq]. apply bool_decide_eq_true in Eq. apply negb_true_iff in Et. eexists. split; [done|]. by left. }
    assert (p = PLive) as -> by (by apply (live_phase T [] false p s)).
    destruct (sinv_unregister T [] false E false s H Hi) as (p2 & s2 & Eu & H2 & Hc2 & Hi2); [by intros|]. rewrite Eu. simpl. rewrite (qt_at _ HE).
    apply keeps_unregister in Eu as (K & Hh & Hd & _). rewrite Hd. simpl.
    assert (canceled s2 = true) as Hcs by (by rewrite Hc2).
    pose proof (finish_canceled s2 q r false Hcs Hd) as Hf. unfold invoke_cancel in Hf. pose proof Hd as Hd'. unfold canceled, deleted in Hcs, Hd'. rewrite Hcs, Hd' in Hf |- *.
    cbn [negb andb] in Hf |- *. rewrite Hf. eexists. split; [done|].
    right. exists s2. do 4 (split; [done|]). split; [|done].
    destruct (du_needs_delete (ds_state s2)) eqn:En2; [|done]. destruct (si_nd _ _ _ _ _ H2 En2) as [Hr2 _]. by rewrite (si_reg _ _ _ _ _ H2 Hd) in Hr2.
Qed.
Lemma wakeup_canceled s : canceled s = true -> ds_is_installed s = true -> _dispatch_source_wakeup T true s =
  if get_handler s DS_REGISTN_HANDLER then WAKEUP_QUEUE (do_targetq T)
  else if du_needs_delete (ds_state s) then WAKEUP_QUEUE (do_targetq T)
  else if negb (deleted s) then WAKEUP_QUEUE (if du_is_timer T && negb (du_armed (ds_state s)) then do_targetq T else kevent_queue T)
  else if any_handler s then WAKEUP_QUEUE (do_targetq T)
  else if ds_items s then WAKEUP_QUEUE (do_targetq T) else WAKEUP_NONE.
Proof.
  intros Hc Hi. unfold _dispatch_source_wakeup. rewrite Hc, Hi. cbn [negb andb]. fold (any_handler s).
  destruct (get_handler s DS_REGISTN_HANDLER); [done|]. destruct (du_needs_delete _); [done|]. destruct (deleted s); cbn [negb andb].
  - by destruct (any_handler s).
  - rewrite andb_false_r. by destruct (du_is_timer T && _).
Qed.

#[export] Instance wakeup_target_eq_dec : EqDecision wakeup_target.
Proof. solve_decision. Defined.

(** What a step of the drive gives. *)
Record stepped (s : source) (q : nat) (r : wakeup_target) (s' : source) : Prop := {
  sp_canceled : canceled s' = true;
  sp_suspended : ds_suspended s' = false;
  sp_flag : DSF_CANCELED (dq_atomic_flags s') = DSF_CANCELED (dq_atomic_flags s);
  sp_next : r = _dispatch_source_wakeup T true s';
  sp_less : _dispatch_source_wakeup T true s = WAKEUP_QUEUE q -> r = WAKEUP_NONE \/ (stages s' < stages s)%nat;
  sp_cancel : get_handler s' DS_CANCEL_HANDLER = get_handler s DS_CANCEL_HANDLER \/
    (r = WAKEUP_NONE /\
     (DSF_CANCELED (dq_atomic_flags s) = true -> get_handler s DS_CANCEL_HANDLER = true -> Call DS_CANCEL_HANDLER (do_targetq T) 0 ∈ ds_log s'));
}.

(** An invocation whose beginning led from [s0] to [s], which is installed and has no
    registration handler, nor a unote to delete. *)
Lemma stepped_tail p s0 s q : sinv T [] false p s -> ds_is_installed s = true -> canceled s = true -> ds_suspended s = false ->
  ds_items s = false -> get_handler s DS_REGISTN_HANDLER = false -> du_needs_delete (ds_state s) = false ->
  DSF_CANCELED (dq_atomic_flags s) = DSF_CANCELED (dq_atomic_flags s0) -> get_handler s DS_CANCEL_HANDLER = get_handler s0 DS_CANCEL_HANDLER ->
  (_dispatch_source_wakeup T true s0 = WAKEUP_QUEUE q -> (stages s < stages s0)%nat \/
     (stages s = stages s0 /\ (deleted s = false -> du_is_timer T && negb (du_armed (ds_state s)) = false -> q = kevent_queue T) /\ (deleted s = true -> q = do_targetq T))) ->
  exists r s', invoke_data T E q WAKEUP_NONE s = Done (r, s') /\ stepped s0 q r s'.
Proof.
  intros H Hi Hc Hs Hit Hr Hn Hf Hh Hst.
  destruct (tail_canceled p s q WAKEUP_NONE H Hi Hc Hn) as (x & -> & [(-> & Hd & Ht & Hq)|(s1 & K & Hh1 & Hd1 & Hi1 & Hn1 & ->)]).
  - eexists _, _. split; [done|]. constructor; try done.
    + by rewrite wakeup_canceled, Hr, Hn, Hd, Ht by done.
    + intros Hw. right. destruct (Hst Hw) as [?|(_ & Hk & _)]; [done|]. by specialize (Hk Hd Ht).
    + by left.
  - destruct (keeps_any_handler _ _ Hh1) as [Ea Er]. pose proof (keeps_canceled _ _ K) as Hc1. rewrite Hc in Hc1. destruct K as [[Kc Kr] Ks Kh Ki].
    assert (stages s1 = 0%nat) as Hz by (unfold stages; by rewrite Hi1, Hd1, Er, Hr).
    assert (_dispatch_source_wakeup T true s0 = WAKEUP_QUEUE q -> q <> do_targetq T -> (0 < stages s0)%nat) as Hpos.
    { intros Hw Hq. destruct (Hst Hw) as [?|(Heq & _ & Hk)]; [lia|]. rewrite <-Heq. unfold stages. destruct (deleted s); [by specialize (Hk eq_refl)|lia]. }
    destruct (bool_decide (q <> do_targetq T) && any_handler s1) eqn:Eb; eexists _, _; (split; [done|]).
    + apply andb_true_iff in Eb as [Eq Ea1]. apply bool_decide_eq_true in Eq. constructor; try congruence.
      * by rewrite wakeup_canceled, Er, Hr, Hn1, Hd1, Ea1 by done.
      * intros Hw. right. rewrite Hz. by apply Hpos.
      * left. congruence.
    + destruct (cancel_callout_after s1 q) as (Cf & Ca & Cs & Ci & Cit & Cst & Cc). set (s2 := _dispatch_source_cancel_callout s1 q) in *.
      assert (canceled s2 = true) as Hc2 by (unfold canceled in *; by rewrite Cf).
      assert (get_handler s2 DS_REGISTN_HANDLER = false /\ get_handler s2 DS_CANCEL_HANDLER = false) as [Hr2 Hcn2]
        by (unfold any_handler in Ca; rewrite !orb_false_iff in Ca; naive_solver).
      assert (deleted s2 = true) as Hd2 by (unfold deleted in *; by rewrite Cf).
      constructor; try congruence.
      * rewrite wakeup_canceled by congruence. by rewrite Hr2, Cst, Hn1, Hd2, Ca, Cit, Ki, Hit.
      * by left.
      * apply andb_false_iff in Eb as [Eq|Ea1].
        -- apply bool_decide_eq_false in Eq. assert (q = do_targetq T) as -> by (by apply dec_stable). right. split; [done|]. intros HF HH. apply Cc; congruence.
        -- left. rewrite Hcn2, <-Hh, <-Kh. unfold any_handler in Ea1. rewrite !orb_false_iff in Ea1. naive_solver.
Qed.
(** From the deferred deletion on; the source was installed and without registration handler
    before the invocation, or a stage is done already. *)
Lemma stepped_delete p s0 s q : sinv T [] false p s -> ds_is_installed s = true -> canceled s = true -> ds_suspended s = false ->
  ds_items s = false -> get_handler s DS_REGISTN_HANDLER = false -> canceled s0 = true ->
  DSF_CANCELED (dq_atomic_flags s) = DSF_CANCELED (dq_atomic_flags s0) -> get_handler s DS_CANCEL_HANDLER = get_handler s0 DS_CANCEL_HANDLER ->
  (stages s < stages s0)%nat \/ (s = with_queue s0 (ds_suspended s0) false /\ ds_is_installed s0 = true) ->
  exists r s', (s ← (if du_needs_delete (ds_state s) then _dispatch_source_refs_unregister E true s else Done s);
    invoke_data T E q WAKEUP_NONE (at_ E 7 s)) = Done (r, s') /\ stepped s0 q r s'.
Proof.
  intros H Hi Hc Hs Hit Hr Hc0 Hf Hh Hst. destruct (du_needs_delete (ds_state s)) eqn:En.
  - destruct (si_nd _ _ _ _ _ H En) as [Hreg Et].
    assert (deleted s = false) as Hd by (destruct (deleted s) eqn:Ed; [by rewrite (si_reg _ _ _ _ _ H Ed) in Hreg|done]).
    assert (p = PLive) as -> by (by apply (live_phase T [] false p s)).
    destruct (sinv_unregister T [] false E true s H Hi) as (p2 & s2 & Eu & H2 & Hc2 & Hi2); [by rewrite Et|]. rewrite Eu. simpl. rewrite (qt_at _ HE).
    apply keeps_unregister in Eu as (K & Hh2 & Hd2 & _). destruct (keeps_any_handler _ _ Hh2) as [_ Er2]. destruct K as [[A1 A2] A3 A4 A5].
    assert (stages s2 < stages s0)%nat as Hl.
    { assert (stages s2 < stages s)%nat by (unfold stages; rewrite Hi2, Hd2, Er2, Hr, Hd; lia). destruct Hst as [?|[-> _]]; [lia|done]. }
    apply (stepped_tail p2); try congruence; [|by intros _; left].
    destruct (du_needs_delete (ds_state s2)) eqn:En2; [|done]. destruct (si_nd _ _ _ _ _ H2 En2) as [Hr2 _]. by rewrite (si_reg _ _ _ _ _ H2 Hd2) in Hr2.
  - simpl. rewrite (qt_at _ HE). apply (stepped_tail p); try done. intros Hw. destruct Hst as [?|[-> Hi0]]; [by left|right]. split; [done|].
    rewrite wakeup_canceled in Hw by done. change (get_handler s0 DS_REGISTN_HANDLER = false) in Hr. change (du_needs_delete (ds_state s0) = false) in En.
    rewrite Hr, En in Hw. change (deleted (with_queue s0 (ds_suspended s0) false)) with (deleted s0). split.
    + intros Hd Ht. change (du_is_timer T && negb (du_armed (ds_state s0)) = false) in Ht. rewrite Hd, Ht in Hw. by injection Hw.
    + intros Hd. rewrite Hd in Hw. cbn [negb] in Hw. destruct (any_handler s0), (ds_items s0); congruence.
Qed.

(** From the registration handler on; the source was installed before the invocation, or a
    stage is done already. *)
Lemma stepped_installed p s0 s q : sinv T [] false p s -> ds_is_installed s = true -> canceled s = true -> ds_suspended s = false ->
  ds_items s = false -> keeps (with_queue s0 (ds_suspended s0) false) s ->
  (stages s < stages s0)%nat \/ (s = with_queue s0 (ds_suspended s0) false /\ ds_is_installed s0 = true) ->
  exists r s', (if get_handler s DS_REGISTN_HANDLER && bool_decide (q <> do_targetq T) then Done (WAKEUP_QUEUE (do_targetq T), s)
    else
      let s5 := if get_handler s DS_REGISTN_HANDLER then _dispatch_source_registration_callout s q else s in
      s ← (if du_needs_delete (ds_state s5) then _dispatch_source_refs_unregister E true s5 else Done s5);
      invoke_data T E q WAKEUP_NONE (at_ E 7 s)) = Done (r, s') /\ stepped s0 q r s'.
Proof.
  intros H Hi Hc Hs Hit K Hst. pose proof (keeps_canceled _ _ K) as Hc0. rewrite Hc in Hc0. change (true = canceled s0) in Hc0.
  assert (forall s7, keeps s s7 -> DSF_CANCELED (dq_atomic_flags s7) = DSF_CANCELED (dq_atomic_flags s0) /\
    get_handler s7 DS_CANCEL_HANDLER = get_handler s0 DS_CANCEL_HANDLER /\ canceled s7 = true /\ ds_suspended s7 = false /\ ds_items s7 = false) as Hk.
  { intros s7 K7. pose proof (keeps_canceled _ _ K7). destruct K as [[A1 A2] A3 A4 A5], K7 as [[B1 B2] B3 B4 B5].
    rewrite B1, B3, B4, B5, A1, A4. repeat split; try done; congruence. }
  destruct (get_handler s DS_REGISTN_HANDLER) eqn:Er; cbn [andb].
  - destruct (bool_decide (q <> do_targetq T)) eqn:Eq.
    + apply bool_decide_eq_true in Eq. eexists _, _. split; [done|]. destruct (Hk s (keeps_refl s)) as (? & ? & _). constructor; try done; [| |by left].
      * by rewrite wakeup_canceled, Er by done.
      * intros Hw. right. destruct Hst as [?|[-> Hi0]]; [done|]. rewrite wakeup_canceled in Hw by done.
        change (get_handler s0 DS_REGISTN_HANDLER = true) in Er. rewrite Er in Hw. congruence.
    + pose proof (sinv_registration T [] false p s q H Er) as H5. destruct (keeps_registration s q Hc) as (K5 & Er5 & Ed5 & Ei5 & Es5).
      set (s5 := _dispatch_source_registration_callout s q) in *. cbv zeta. destruct (Hk s5 K5) as (? & ? & ? & ? & ?).
      apply (stepped_delete p); try congruence. left. assert (stages s5 < stages s)%nat by (unfold stages; rewrite Er5, Ed5, Ei5, Er; lia).
      destruct Hst as [?|[-> _]]; [lia|done].
  - cbv zeta. destruct (Hk s (keeps_refl s)) as (? & ? & _). by apply (stepped_delete p).
Qed.

(** One invocation. *)
Lemma drive_step p s q : sinv T [] false p s -> canceled s = true -> ds_suspended s = false ->
  exists r s', _dispatch_source_invoke2 T E q WAKEUP_NONE s = Done (r, s') /\ stepped s q r s' /\ exists p', sinv T [] false p' s'.
Proof.
  intros H Hc Hs. destruct (sinv_invoke2 T [] false E quiet_ok p s q WAKEUP_NONE H) as (r & s' & Ei & Hp'). exists r, s'. split; [done|]. split; [|done].
  revert Ei. unfold _dispatch_source_invoke2. rewrite !(qt_at _ HE). set (s1 := with_queue s (ds_suspended s) false).
  assert ((if ds_items s then (WAKEUP_NONE, s1) else (WAKEUP_NONE, s)) = (WAKEUP_NONE, s1)) as ->.
  { destruct (ds_items s) eqn:Eit; [done|]. unfold s1. destruct s; simpl in *. by subst. }
  assert (sinv T [] false p s1) as H1 by (by apply sinv_queue). change (ds_is_installed s1) with (ds_is_installed s).
  destruct (ds_is_installed s) eqn:Ein; cbn [negb andb].
  - cbv beta iota zeta delta [mbind outcome_bind]. rewrite ?(qt_at _ HE). change (ds_suspended s1) with (ds_suspended s). rewrite Hs. change (canceled s1) with (canceled s). rewrite Hc.
    rewrite !andb_false_r. cbn [andb].
    destruct (stepped_installed p s s1 q) as (r2 & s2 & E2 & Hst); try done; [by right|].
    intros Ei. assert (Done (r2, s2) = Done (r, s')) as [= <- <-] by exact (eq_trans (eq_sym E2) Ei). done.
  - destruct (bool_decide (q <> kevent_queue T)) eqn:Eq.
    + apply bool_decide_eq_true in Eq. intros [= <- <-]. unfold _dispatch_source_wakeup. constructor; try done; unfold _dispatch_source_wakeup.
      * change (ds_is_installed s1) with (ds_is_installed s). by rewrite Ein.
      * rewrite Ein. intros [= <-]. done.
      * by left.
    + assert (p = PLive) as -> by (by apply (live_phase T [] false p s), (si_inst _ _ _ _ _ H)).
      destruct (sinv_install T [] false E s1 H1 Ein) as (p2 & s2 & E2 & H2 & Hi2). rewrite E2.
      apply keeps_install in E2 as (K & Hh & _). pose proof (keeps_canceled _ _ K) as Hc2. change (canceled s1) with (canceled s) in Hc2. rewrite Hc in Hc2.
      cbv beta iota zeta delta [mbind outcome_bind]. rewrite ?(qt_at _ HE). assert (ds_suspended s2 = false) as Hs2 by (rewrite (kp_suspended _ _ K); done).
      rewrite Hs2, Hc2, !andb_false_r. cbn [andb]. assert (stages s2 < stages s)%nat as Hl.
      { destruct (keeps_any_handler _ _ Hh) as [_ Er]. change (get_handler s1 DS_REGISTN_HANDLER) with (get_handler s DS_REGISTN_HANDLER) in Er.
        destruct (si_inst _ _ _ _ _ H Ein) as [Hd _]. unfold stages. rewrite Hi2, Ein, Er, Hd. destruct (deleted s2); lia. }
      destruct (stepped_installed p2 s s2 q) as (r2 & s3 & E3 & Hst); try done; [by rewrite (kp_items _ _ K)|by left|].
      intros Ei. assert (Done (r2, s3) = Done (r, s')) as [= <- <-] by exact (eq_trans (eq_sym E3) Ei). done.
Qed.

Lemma wakeup_not_wait s : _dispatch_source_wakeup T true s <> WAKEUP_WAIT_FOR_EVENT.
Proof.
  unfold _dispatch_source_wakeup. cbv zeta. match goal with |- match ?x with _ => _ end <> _ => destruct x eqn:Ex end; [by destruct (ds_items s)|done|].
  repeat match type of Ex with (if ?b then _ else _) = _ => destruct b end; done.
Qed.

(** The drive ends, with nothing left to do. *)
Lemma drive_ends n p s : sinv T [] false p s -> canceled s = true -> ds_suspended s = false -> (stages s < n)%nat ->
  exists s', drive T E n (_dispatch_source_wakeup T true s) s = Done (WAKEUP_NONE, s') /\
    (exists p', sinv T [] false p' s') /\ canceled s' = true /\ _dispatch_source_wakeup T true s' = WAKEUP_NONE /\
    (DSF_CANCELED (dq_atomic_flags s) = true -> get_handler s DS_CANCEL_HANDLER = true -> get_handler s' DS_CANCEL_HANDLER = false ->
       Call DS_CANCEL_HANDLER (do_targetq T) 0 ∈ ds_log s').
Proof.
  revert p s. induction n as [|n IH]; intros p s H Hc Hs Hn; [lia|].
  destruct (_dispatch_source_wakeup T true s) as [|q|] eqn:Ew.
  - exists s. split; [done|]. split; [by exists p|]. split; [done|]. split; [done|]. intros. congruence.
  - destruct (drive_step p s q H Hc Hs) as (r & s1 & Ei & [S1 S2 S3 S4 S5 S6] & p1 & H1). cbn [drive]. rewrite Ei.
    cbv beta iota delta [mbind outcome_bind]. destruct (decide (r = WAKEUP_NONE)) as [->|Hr].
    + exists s1. assert (drive T E n WAKEUP_NONE s1 = Done (WAKEUP_NONE, s1)) as -> by (by destruct n).
      split; [done|]. split; [by exists p1|]. split; [done|]. split; [done|]. intros HF HH Hz. destruct S6 as [Hx|[_ Hx]]; [congruence|by apply Hx].
    + destruct (S5 Ew) as [|Hl]; [done|]. subst r. destruct (IH p1 s1) as (s' & E' & Hp' & Hc' & Hw' & Hk); [done|done|done|lia|].
      exists s'. split; [done|]. do 3 (split; [done|]). intros HF HH Hz. destruct S6 as [Hx|[Hx _]]; [|done]. apply Hk; congruence.
  - by apply wakeup_not_wait in Ew.
Qed.
End drive.

(** C16: Cancellation completes: a source of any run that is activated, cancelled (or
    released) and not suspended, driven by invocations on the queue that its wakeup asks for
    and then on the queue that each invocation returns, with nobody else interfering and a
    back end that unregisters at once, is finalized and has disposed of its handlers after
    at most four invocations; its cancellation handler, if [dispatch_source_cancel] was
    called, was called on its target queue, and its wakeup asks for nothing more. *)
Theorem source_cancel_completes (T : source_type) (E : invoke_env) (s : source) : quiet E ->
  source_run T true s -> canceled s = true -> ds_suspended s = false ->
  exists s', drive T E 4 (_dispatch_source_wakeup T true s) s = Done (WAKEUP_NONE, s') /\
    deleted s' = true /\ any_handler s' = false /\ du_registered (ds_state s') = false /\ _dispatch_source_wakeup T true s' = WAKEUP_NONE /\
    (DSF_CANCELED (dq_atomic_flags s) = true -> get_handler s DS_CANCEL_HANDLER = true -> Call DS_CANCEL_HANDLER (do_targetq T) 0 ∈ ds_log s').
Proof.
  intros HE R Hc Hs. destruct (run_sinv T true s R) as (p & H & _).
  destruct (drive_ends T E HE 4 p s H Hc Hs) as (s' & Ed & (p' & H') & Hc' & Hw & Hk).
  { unfold stages. destruct (ds_is_installed s), (get_handler s DS_REGISTN_HANDLER), (deleted s); lia. }
  assert (ds_is_installed s' = true) as Hi by (destruct (ds_is_installed s') eqn:Ei; [done|unfold _dispatch_source_wakeup in Hw; by rewrite Ei in Hw]).
  pose proof Hw as Hw'. rewrite wakeup_canceled in Hw' by done. destruct (get_handler s' DS_REGISTN_HANDLER); [done|].
  destruct (du_needs_delete _); [done|]. destruct (deleted s') eqn:Edl; [|done]. cbn [negb] in Hw'. destruct (any_handler s') eqn:Ea; [done|].
  exists s'. repeat split; try done; [by apply (si_reg _ _ _ _ _ H')|]. intros HF HH. apply Hk; [done|done|]. unfold any_handler in Ea.
  rewrite !orb_false_iff in Ea. naive_solver.
Qed.

Lemma source_cancel_completes_witness : exists s', drive fd_source quiet_env 4 (WAKEUP_QUEUE 0) fd_canceled = Done (WAKEUP_NONE, s') /\
  deleted s' = true /\ Call DS_CANCEL_HANDLER 1 0 ∈ ds_log s'.
Proof.
  destruct (source_cancel_completes fd_source quiet_env fd_canceled) as (s' & Hd & Hdel & _ & _ & _ & Hk).
  - by constructor.
  - apply fd_canceled_run.
  - vm_compute. reflexivity.
  - vm_compute. reflexivity.
  - exists s'. assert (_dispatch_source_wakeup fd_source true fd_canceled = WAKEUP_QUEUE 0) as Ew by (vm_compute; reflexivity). rewrite Ew in Hd.
    split; [exact Hd|]. split; [exact Hdel|]. apply Hk; vm_compute; reflexivity.
Defined.
