(* ===== verification/Io.v ===== *)
(** * I/O operations

    Models the operations of [dispatch_io] ([src/io.c]): the water marks of a channel, the
    buffer and the system call of [_dispatch_operation_perform], the filters and the
    handler calls of [_dispatch_operation_deliver_data], the interval timer and the disposal.
    A data object is the list of its regions, none of them empty; that the functions of
    [src/data.c] compute the concatenations and subranges used here is shown with the data
    objects.  The kernel is a parameter: the answer of [read], [pread], [write] or [pwrite] at
    an offset for a length, once it is not interrupted. *)

From S2P Require Import Prelude.

Local Open Scope word_scope.

(** ** Data objects *)

Abbreviation bytes := (list Z) (only parsing).
Abbreviation regions := (list (list Z)) (only parsing).

Definition len (b : bytes) : Z := Z.of_nat (length b).
Definition data_size (d : regions) : Z := len (concat d).

Fixpoint drop_regions (n : Z) (d : regions) : regions :=
  match d with
  | [] => []
  | r :: d => if decide (len r <= n) then drop_regions (n - len r) d else drop (Z.to_nat n) r :: d
  end.
Fixpoint take_regions (n : Z) (d : regions) : regions :=
  match d with
  | [] => []
  | r :: d => if decide (n <= 0) then [] else if decide (len r <= n) then r :: take_regions (n - len r) d else [take (Z.to_nat n) r]
  end.
Definition subrange (d : regions) (offset length : Z) : regions := take_regions length (drop_regions offset d).

(** ** Channels *)

Inductive io_type := DISPATCH_IO_STREAM | DISPATCH_IO_RANDOM.
Inductive op_direction := DOP_DIR_READ | DOP_DIR_WRITE.

#[export] Instance io_type_eq_dec : EqDecision io_type.
Proof. solve_decision. Defined.
#[export] Instance op_direction_eq_dec : EqDecision op_direction.
Proof. solve_decision. Defined.

Definition SIZE_MAX : Z := 2 ^ 64 - 1.

Record dispatch_io_param_s := { io_kind : io_type; low : Z; high : Z; interval : Z; strict_interval : bool }.

Definition io_create_params (type : io_type) (low_water_chunks chunk_size : Z) : dispatch_io_param_s :=
  {| io_kind := type; low := low_water_chunks * chunk_size; high := SIZE_MAX; interval := 0; strict_interval := false |}.

Definition dispatch_io_set_high_water (p : dispatch_io_param_s) (high_water : Z) : dispatch_io_param_s :=
  {| io_kind := io_kind p; low := if decide (low p > high_water) then high_water else low p;
     high := if decide (high_water = 0) then 1 else high_water; interval := interval p; strict_interval := strict_interval p |}.

Definition dispatch_io_set_low_water (p : dispatch_io_param_s) (low_water : Z) : dispatch_io_param_s :=
  {| io_kind := io_kind p; low := low_water;
     high := if decide (high p < low_water) then (if decide (low_water = 0) then 1 else low_water) else high p;
     interval := interval p; strict_interval := strict_interval p |}.

Definition dispatch_io_set_interval (p : dispatch_io_param_s) (interval : Z) (strict : bool) : dispatch_io_param_s :=
  {| io_kind := io_kind p; low := low p; high := high p; interval := Z.min interval (2 ^ 63 - 1); strict_interval := strict |}.

(** Errors; the numbers do not matter. *)
Definition EBADF : Z := 9.
Definition EAGAIN : Z := 11.
Definition ECANCELED : Z := 125.

Record io_channel := { dio_closed : bool; dio_stopped : bool; ch_err : Z }.

(** [_dispatch_io_get_error]; [fd_err] is the error of the descriptor entry, for an operation. *)
Definition _dispatch_io_get_error (c : io_channel) (fd_err : option Z) (ignore_closed : bool) : Z :=
  if dio_closed c || dio_stopped c then
    if negb ignore_closed || dio_stopped c then ECANCELED else 0
  else match fd_err with Some e => e | None => ch_err c end.

(** ** Operations *)

Record operation := mkOp {
  direction : op_direction;
  params : dispatch_io_param_s;
  offset : Z;
  op_length : Z;
  total : Z;
  undelivered : Z;
  buf : option bytes;               (* for a read, what was read into it; for a write, the mapping of buf_data *)
  buf_siz : Z;
  buf_len : Z;
  op_data : regions;
  op_err : Z;
  op_deliver : bool;                (* DOP_DELIVER of op->flags *)
}.

Definition with_buf op b siz n := mkOp (direction op) (params op) (offset op) (op_length op) (total op) (undelivered op) b siz n
  (op_data op) (op_err op) (op_deliver op).
Definition with_op_data op d := mkOp (direction op) (params op) (offset op) (op_length op) (total op) (undelivered op) (buf op) (buf_siz op) (buf_len op)
  d (op_err op) (op_deliver op).
Definition with_total op t := mkOp (direction op) (params op) (offset op) (op_length op) t (undelivered op) (buf op) (buf_siz op) (buf_len op)
  (op_data op) (op_err op) (op_deliver op).
Definition with_undelivered op u := mkOp (direction op) (params op) (offset op) (op_length op) (total op) u (buf op) (buf_siz op) (buf_len op)
  (op_data op) (op_err op) (op_deliver op).
Definition with_err op e := mkOp (direction op) (params op) (offset op) (op_length op) (total op) (undelivered op) (buf op) (buf_siz op) (buf_len op)
  (op_data op) e (op_deliver op).
Definition with_deliver op f := mkOp (direction op) (params op) (offset op) (op_length op) (total op) (undelivered op) (buf op) (buf_siz op) (buf_len op)
  (op_data op) (op_err op) f.

(** A call of the handler: done, the data object or [NULL], the error. *)
Record handler_call := { hc_done : bool; hc_data : option regions; hc_err : Z }.

(** The operation, or the call of the handler when the channel has an error or there is
    nothing to do; [data] is what to write. *)
Definition _dispatch_operation_create (dir : op_direction) (err : Z) (p : dispatch_io_param_s) (off length : Z) (data : regions)
    : operation + handler_call :=
  if decide (err <> 0 \/ length = 0) then
    inr {| hc_done := true; hc_data := match dir with DOP_DIR_READ => if decide (err <> 0) then None else Some data
                                       | DOP_DIR_WRITE => if decide (err = 0) then None else Some data end; hc_err := err |}
  else inl (mkOp dir p off length 0 0 None 0 0 data 0 false).

(** The end of [_dispatch_operation_should_enqueue]: whether the operation is enqueued. *)
Definition _dispatch_operation_should_enqueue (err : Z) (op : operation) : bool * operation :=
  if decide (err <> 0) then (false, with_err op err) else (true, op).

Inductive op_result :=
| OP_COMPLETE | OP_DELIVER | OP_DELIVER_AND_COMPLETE | OP_COMPLETE_RESUME | OP_RESUME | OP_ERR | OP_FD_ERR.
#[export] Instance op_result_eq_dec : EqDecision op_result.
Proof. solve_decision. Defined.

Inductive io_answer := IoRead (b : bytes) | IoWrote (n : Z) | IoErr (e : Z).

(** What an attempt to perform meets. *)
Record perform_env := {
  pe_error : Z;                                 (* _dispatch_io_get_error *)
  pe_memalign : Z;                              (* posix_memalign *)
  pe_open : Z;                                  (* _dispatch_fd_entry_open, when it is called *)
  pe_disk : bool;
  pe_convenience : bool;                        (* the channel is the convenience channel of the entry *)
  pe_answer : Z -> Z -> io_answer;
}.

Section perform.
Context (chunk_size : Z).

(** The size of the buffer of a read. *)
Definition read_buf_siz (op : operation) : outcome Z :=
  let max_buf_siz := high (params op) in
  let data_siz := data_size (op_data op) in
  if decide (data_siz <> 0 /\ ~ data_siz < max_buf_siz) then Crash InternalCrash
  else
    let max_buf_siz := Z.min (if decide (data_siz <> 0) then max_buf_siz - data_siz else max_buf_siz) chunk_size in
    Done (if decide (op_length op < SIZE_MAX) then Z.min (op_length op - total op) max_buf_siz else max_buf_siz).

(** The applier that accumulates regions up to the size of a chunk. *)
Fixpoint gather (chunk_siz acc : Z) (d : regions) : Z :=
  match d with
  | [] => acc
  | r :: d =>
      let siz := acc + len r in
      let acc := if decide (acc = 0 \/ siz <= chunk_siz) then siz else acc in
      if decide (siz < chunk_siz) then gather chunk_siz acc d else acc
  end.

(** The size of the buffer of a write. *)
Definition write_buf_siz (op : operation) : Z :=
  Z.min (gather (Z.min chunk_size (high (params op))) 0 (op_data op)) (high (params op)).

(** The operation with a buffer, and the error. *)
Definition ensure_buf (E : perform_env) (op : operation) : outcome (operation * Z) :=
  match buf op with
  | Some _ => Done (op, 0)
  | None =>
      match direction op with
      | DOP_DIR_READ =>
          siz ← read_buf_siz op;
          if decide (pe_memalign E <> 0) then Done (with_buf op None siz (buf_len op), pe_memalign E)
          else Done (with_buf op (Some []) siz (buf_len op), 0)
      | DOP_DIR_WRITE =>
          let siz := write_buf_siz op in
          Done (with_buf op (Some (concat (subrange (op_data op) 0 siz))) siz (buf_len op), 0)
      end
  end.

(** From the label [error]. *)
Definition perform_error (E : perform_env) (err : Z) (op : operation) : outcome (op_result * operation) :=
  if decide (err = EAGAIN) then
    if pe_disk E then Crash InternalCrash
    else if decide (direction op = DOP_DIR_READ /\ total op <> 0 /\ pe_convenience E = true) then Done (OP_COMPLETE_RESUME, op)
    else Done (OP_RESUME, op)
  else
    let op := with_err op err in
    Done (if decide (err = ECANCELED) then OP_ERR else if decide (err = EBADF) then OP_FD_ERR else OP_COMPLETE, op).

(** The accounting of the bytes [m] that were moved; [b] is the buffer. *)
Definition perform_moved (op : operation) (b m : bytes) : outcome (op_result * operation * option (Z * bytes)) :=
  if decide (len m = 0) then Done (OP_DELIVER_AND_COMPLETE, op, None)
  else
    let off := offset op + total op in
    let op := with_total (with_buf op (Some b) (buf_siz op) (buf_len op + len m)) (total op + len m) in
    Done (if decide (total op = op_length op) then OP_COMPLETE else OP_DELIVER, op, Some (off, m)).

(** The result, the operation, and the offset and the bytes that were read or written. *)
Definition _dispatch_operation_perform (E : perform_env) (op : operation) : outcome (op_result * operation * option (Z * bytes)) :=
  let error err op := '(r, op) ← perform_error E err op; Done (r, op, None) in
  if decide (pe_error E <> 0) then error (pe_error E) op
  else
    '(op, err) ← ensure_buf E op;
    if decide (err <> 0) then error err op
    else if decide (pe_open E <> 0) then error (pe_open E) op
    else
      let n := buf_siz op - buf_len op in
      let off := offset op + total op in
      match pe_answer E off n with
      | IoErr err => error err op
      | IoRead m => perform_moved op (default [] (buf op) ++ m) m
      | IoWrote k => perform_moved op (default [] (buf op)) (take (Z.to_nat k) (drop (Z.to_nat (buf_len op)) (default [] (buf op))))
      end.
End perform.

(** The calls of the handler that a delivery makes on the queue of the operation. *)
Definition handler_calls (dir : op_direction) (done : bool) (data : regions) (err : Z) : list handler_call :=
  if done then
    match dir with
    | DOP_DIR_READ =>
        if decide (err <> 0) then
          (if decide (data_size data <> 0) then [{| hc_done := false; hc_data := Some data; hc_err := 0 |}] else []) ++
          [{| hc_done := true; hc_data := None; hc_err := err |}]
        else [{| hc_done := true; hc_data := Some data; hc_err := err |}]
    | DOP_DIR_WRITE => [{| hc_done := true; hc_data := if decide (err = 0) then None else Some data; hc_err := err |}]
    end
  else [{| hc_done := false; hc_data := Some data; hc_err := err |}].

Record op_flags := { DOP_DELIVER : bool; DOP_DONE : bool; DOP_NO_EMPTY : bool }.
Definition DOP_DEFAULT : op_flags := {| DOP_DELIVER := false; DOP_DONE := false; DOP_NO_EMPTY := false |}.

(** [stopped]: the channel has DIO_STOPPED. *)
Definition _dispatch_operation_deliver_data (op : operation) (flags : op_flags) (stopped : bool) : operation * list handler_call :=
  let undel := undelivered op + buf_len op in
  let forced := DOP_DELIVER flags || DOP_DONE flags || op_deliver op in
  let op := with_deliver op false in
  if negb forced && bool_decide (undel < low (params op)) && bool_decide (buf_len op < buf_siz op) then (op, [])
  else
    let deliver := forced || bool_decide (low (params op) <= undel) in
    let op := if forced && bool_decide (op_err op = 0) && stopped then with_err op ECANCELED else op in
    let err := if forced then op_err op else 0 in
    let '(data, op) :=
      match direction op with
      | DOP_DIR_READ =>
          let '(data, op) :=
            if decide (buf_len op <> 0) then (op_data op ++ [default [] (buf op)], with_buf op None (buf_siz op) 0) else (op_data op, op) in
          (data, with_op_data op (if deliver then [] else data))
      | DOP_DIR_WRITE =>
          let data := if deliver then subrange (op_data op) (buf_len op) (op_length op) else [] in
          if decide (buf op <> None /\ buf_len op = buf_siz op) then
            let d := if deliver then data else subrange (op_data op) (buf_siz op) (op_length op) in
            (data, with_op_data (with_buf op None (buf_siz op) 0) d)
          else (data, op)
      end in
    if negb deliver || DOP_NO_EMPTY flags && bool_decide (data_size data = 0) then (with_undelivered op undel, [])
    else (with_undelivered op 0, handler_calls (direction op) (DOP_DONE flags) data err).

(** The event handler of the interval timer; [active]: a disk performs the operation. *)
Definition operation_timer (op : operation) (active stopped : bool) : operation * list handler_call :=
  let flags := {| DOP_DELIVER := strict_interval (params op); DOP_DONE := false; DOP_NO_EMPTY := false |} in
  if active && DOP_DELIVER flags then (with_deliver op true, []) else _dispatch_operation_deliver_data op flags stopped.

Definition _dispatch_operation_dispose (op : operation) (stopped : bool) : operation * list handler_call :=
  _dispatch_operation_deliver_data op {| DOP_DELIVER := false; DOP_DONE := true; DOP_NO_EMPTY := false |} stopped.

(** ** One operation *)

(** An operation on its way, the calls of its handler and the transfers of its bytes. *)
Record op_state := mkOpState { st_op : operation; st_calls : list handler_call; st_moved : list (Z * bytes); st_finished : bool }.

(** What happens to it: its queue performs it, the timer fires, [initial_delivery], or its
    channel is cleaned up.  [stopped] is DIO_STOPPED at that time. *)
Inductive op_event :=
| EvPerform (E : perform_env) (stopped : bool)
| EvTimer (active stopped : bool)
| EvInitial (stopped : bool)
| EvCleanup (stopped : bool).

Definition delivered (st : op_state) (x : operation * list handler_call) : op_state :=
  mkOpState x.1 (st_calls st ++ x.2) (st_moved st) (st_finished st).
Definition finish (st : op_state) (stopped : bool) : op_state :=
  let '(op, calls) := _dispatch_operation_dispose (st_op st) stopped in mkOpState op (st_calls st ++ calls) (st_moved st) true.

(** What [_dispatch_stream_handler] does with the result of an operation. *)
Definition op_perform (chunk_size : Z) (E : perform_env) (stopped : bool) (st : op_state) : outcome op_state :=
  '(r, op, m) ← _dispatch_operation_perform chunk_size E (st_op st);
  let st := mkOpState op (st_calls st) (st_moved st ++ match m with Some m => [m] | None => [] end) (st_finished st) in
  Done match r with
  | OP_DELIVER => delivered st (_dispatch_operation_deliver_data op DOP_DEFAULT stopped)
  | OP_DELIVER_AND_COMPLETE =>
      finish (delivered st (_dispatch_operation_deliver_data op {| DOP_DELIVER := true; DOP_DONE := false; DOP_NO_EMPTY := true |} stopped)) stopped
  | OP_COMPLETE | OP_COMPLETE_RESUME | OP_ERR => finish st stopped
  | OP_RESUME | OP_FD_ERR => st
  end.

Definition op_step (chunk_size : Z) (ev : op_event) (st : op_state) : outcome op_state :=
  if st_finished st then Done st
  else match ev with
  | EvPerform E stopped => op_perform chunk_size E stopped st
  | EvTimer active stopped => Done (delivered st (operation_timer (st_op st) active stopped))
  | EvInitial stopped => Done (delivered st (_dispatch_operation_deliver_data (st_op st) {| DOP_DELIVER := true; DOP_DONE := false; DOP_NO_EMPTY := false |} stopped))
  | EvCleanup stopped => Done (finish st stopped)
  end.

Fixpoint op_run (chunk_size : Z) (evs : list op_event) (st : op_state) : outcome op_state :=
  match evs with [] => Done st | ev :: evs => st ← op_step chunk_size ev st; op_run chunk_size evs st end.
