(* ===== verification/IoRead.v ===== *)
(** * I/O operations: reads

    A read operation hands over every byte that the kernel returned, once and in order, in
    pieces that keep to the water marks, and calls its handler with [done] once, at the end. *)

From S2P Require Import Prelude Io.

Local Open Scope word_scope.

(** ** Lengths *)

Lemma len_app a b : len (a ++ b) = len a + len b.
Proof. unfold len. rewrite length_app. lia. Qed.
Lemma len_nonneg a : 0 <= len a.
Proof. unfold len. lia. Qed.
Lemma len_zero a : len a = 0 <-> a = [].
Proof. unfold len. destruct a; simpl; split; intros; [done|done|lia|done]. Qed.
Lemma data_size_app a b : data_size (a ++ b) = data_size a + data_size b.
Proof. unfold data_size. by rewrite concat_app, len_app. Qed.
Lemma data_size_single b : data_size [b] = len b.
Proof. unfold data_size. simpl. by rewrite app_nil_r. Qed.
Lemma data_size_nonneg d : 0 <= data_size d.
Proof. apply len_nonneg. Qed.

(** ** What a handler got *)

Definition call_bytes (c : handler_call) : list Z := concat (default [] (hc_data c)).
Definition calls_bytes (cs : list handler_call) : list Z := concat (call_bytes <$> cs).
Definition moved_bytes (ms : list (Z * list Z)) : list Z := concat (ms.*2).

Lemma calls_bytes_app a b : calls_bytes (a ++ b) = calls_bytes a ++ calls_bytes b.
Proof. unfold calls_bytes. by rewrite fmap_app, concat_app. Qed.
Lemma moved_bytes_app a b : moved_bytes (a ++ b) = moved_bytes a ++ moved_bytes b.
Proof. unfold moved_bytes. by rewrite fmap_app, concat_app. Qed.

(** Transfers at consecutive offsets, none of them empty. *)
Fixpoint contiguous (off : Z) (ms : list (Z * list Z)) : Prop :=
  match ms with [] => True | (o, b) :: ms => o = off /\ b <> [] /\ contiguous (off + len b) ms end.

Lemma contiguous_snoc off ms b : contiguous off ms -> b <> [] -> contiguous off (ms ++ [(off + len (moved_bytes ms), b)]).
Proof.
  revert off. induction ms as [|[o b1] ms IH]; intros off H Hb; simpl.
  - split; [|done]. change (len (moved_bytes [])) with 0. lia.
  - destruct H as (-> & ? & H). split; [done|]. split; [done|]. specialize (IH _ H Hb).
    replace (off + len b1 + len (moved_bytes ms)) with (off + len (moved_bytes ((off, b1) :: ms))) in IH; [done|].
    change (moved_bytes ((off, b1) :: ms)) with (b1 ++ moved_bytes ms). rewrite len_app. lia.
Qed.

(** The end of the calls: one call with [done], the last. *)
Definition ends_done (cs : list handler_call) : Prop :=
  exists cs' c, cs = cs' ++ [c] /\ hc_done c = true /\ Forall (fun c => hc_done c = false) cs'.

Record params_ok (p : dispatch_io_param_s) : Prop := { po_low : 0 <= low p; po_high : 1 <= high p; po_le : low p <= high p }.

Lemma params_ok_create t k c : 0 <= k * c <= SIZE_MAX -> params_ok (io_create_params t k c).
Proof. intros H. constructor; simpl; unfold SIZE_MAX in *; lia. Qed.
Lemma params_ok_set_high p h : params_ok p -> 0 <= h -> params_ok (dispatch_io_set_high_water p h).
Proof. intros [H1 H2 H3] Hh. constructor; simpl; repeat destruct (decide _); lia. Qed.
Lemma params_ok_set_low p l : params_ok p -> 0 <= l -> params_ok (dispatch_io_set_low_water p l).
Proof. intros [H1 H2 H3] Hh. constructor; simpl; repeat destruct (decide _); lia. Qed.
Lemma params_ok_set_interval p i b : params_ok p -> params_ok (dispatch_io_set_interval p i b).
Proof. intros [H1 H2 H3]. by constructor. Qed.

(** ** The invariant of a read operation *)

Definition held (op : operation) : list Z := concat (op_data op) ++ default [] (buf op).

Record rop (op : operation) : Prop := {
  ro_dir : direction op = DOP_DIR_READ;
  ro_params : params_ok (params op);
  ro_undelivered : undelivered op = data_size (op_data op);
  ro_data : data_size (op_data op) = 0 \/ data_size (op_data op) < low (params op);
  ro_none : buf op = None -> buf_len op = 0;
  ro_some : forall b, buf op = Some b -> len b = buf_len op /\ 0 < buf_siz op /\ buf_len op <= buf_siz op /\
    data_size (op_data op) + buf_siz op <= high (params op) /\ (op_length op < SIZE_MAX -> buf_siz op - buf_len op <= op_length op - total op);
}.

(** The buffer is not full. *)
Definition room (op : operation) : Prop := forall b, buf op = Some b -> buf_len op < buf_siz op.

Lemma rop_buf_len op : rop op -> len (default [] (buf op)) = buf_len op.
Proof. intros H. destruct (buf op) as [b|] eqn:Eb; [by apply (ro_some op H)|]. by rewrite (ro_none op H Eb). Qed.

Lemma rop_held op : rop op -> len (held op) = data_size (op_data op) + buf_len op.
Proof. intros H. unfold held. rewrite len_app, rop_buf_len by done. done. Qed.

Lemma rop_held_high op : rop op -> len (held op) <= high (params op).
Proof.
  intros H. rewrite rop_held by done. destruct (ro_params op H) as [P1 P2 P3]. pose proof (ro_data op H). destruct (buf op) as [b|] eqn:Eb.
  - destruct (ro_some op H b Eb) as (? & ? & ? & ? & _). lia.
  - rewrite (ro_none op H Eb). lia.
Qed.

(** The calls of a delivery. *)
Lemma handler_calls_bytes done d err :
  calls_bytes (handler_calls DOP_DIR_READ done d err) = concat d /\ Forall (fun c => len (call_bytes c) <= data_size d) (handler_calls DOP_DIR_READ done d err) /\
  (if done then ends_done (handler_calls DOP_DIR_READ done d err) else Forall (fun c => hc_done c = false) (handler_calls DOP_DIR_READ done d err)).
Proof.
  pose proof (data_size_nonneg d). unfold handler_calls, calls_bytes, call_bytes. destruct done; [destruct (decide (err <> 0)); [destruct (decide (data_size d <> 0))|]|]; simpl.
  - rewrite !app_nil_r. split; [done|]. split; [repeat constructor; done|]. by exists [{| hc_done := false; hc_data := Some d; hc_err := 0 |}], {| hc_done := true; hc_data := None; hc_err := err |}; split; [|split; [|repeat constructor]].
  - assert (data_size d = 0) as Hz by lia. split; [symmetry; by apply len_zero|]. split; [repeat constructor; simpl; done|].
    by exists [], {| hc_done := true; hc_data := None; hc_err := err |}.
  - rewrite app_nil_r. split; [done|]. split; [repeat constructor; done|]. by exists [], {| hc_done := true; hc_data := Some d; hc_err := err |}.
  - rewrite app_nil_r. split; [done|]. split; [repeat constructor; done|]. repeat constructor.
Qed.

(** Taking the buffer of a read. *)
Definition take_buf (op : operation) : list (list Z) * operation :=
  if decide (buf_len op <> 0) then (op_data op ++ [default [] (buf op)], with_buf op None (buf_siz op) 0) else (op_data op, op).

Lemma take_buf_spec op : rop op -> concat (take_buf op).1 = held op /\ default [] (buf (take_buf op).2) = [] /\ room (take_buf op).2 /\
  data_size (take_buf op).1 = undelivered op + buf_len op /\ buf_len (take_buf op).2 = 0.
Proof.
  intros H. pose proof (rop_buf_len op H) as Hl. unfold take_buf, held. destruct (decide (buf_len op <> 0)) as [Hn|Hn]; simpl.
  - rewrite concat_app, data_size_app, data_size_single, Hl, (ro_undelivered op H). simpl. rewrite app_nil_r. split; [done|]. split; [done|]. split; [by intros b|done].
  - assert (buf_len op = 0) as Hz by lia. rewrite Hz in Hl. apply len_zero in Hl. rewrite Hl, app_nil_r, (ro_undelivered op H), Hz. split; [done|]. split; [done|].
    split; [|split; [lia|done]]. intros b Hb. destruct (ro_some op H b Hb). lia.
Qed.

(** The operation after a delivery, or after its buffer was set aside. *)
Lemma rop_taken op d f e u : rop op -> (d = [] /\ u = 0 \/ d = (take_buf op).1 /\ u = undelivered op + buf_len op /\ u < low (params op) /\ ~ buf_len op < buf_siz op) ->
  rop (with_undelivered (with_op_data (with_err (with_deliver (take_buf op).2 f) e) d) u).
Proof.
  intros H Hd. destruct (take_buf_spec op H) as (_ & Hb & _ & Hs & Hl). pose proof (data_size_nonneg (op_data op)).
  assert (data_size d = u) as Hu by (destruct Hd as [[-> ->]|(-> & -> & _)]; done).
  unfold take_buf in *. destruct (decide (buf_len op <> 0)) as [Hn|Hn]; simpl in *; destruct H as [H1 H2 H3 H4 H5 H6]; constructor; simpl; try done; rewrite ?Hu; try lia.
  - intros b Eb. destruct (H6 b Eb) as (? & ? & ? & ? & ?). repeat split; try done. destruct Hd as [[? ->]|(? & ? & ? & ?)]; [lia|]. rewrite H3 in *. lia.
Qed.

(** What a delivery leaves of a read operation. *)
Record read_kept (op op' : operation) : Prop := {
  rk_rop : rop op';
  rk_room : room op';
  rk_total : total op' = total op;
  rk_length : op_length op' = op_length op;
  rk_offset : offset op' = offset op;
  rk_params : params op' = params op;
}.

Lemma read_deliver op flags stopped : rop op ->
  let '(op', cs) := _dispatch_operation_deliver_data op flags stopped in
  read_kept op op' /\ calls_bytes cs ++ held op' = held op /\ Forall (fun c => len (call_bytes c) <= high (params op)) cs /\
  (DOP_DONE flags = false -> Forall (fun c => hc_done c = false) cs) /\
  (DOP_DONE flags = true -> DOP_NO_EMPTY flags = false -> ends_done cs /\ held op' = []).
Proof.
  intros H. unfold _dispatch_operation_deliver_data. cbn [with_deliver params buf_len buf_siz].
  set (undel := undelivered op + buf_len op). set (forced := DOP_DELIVER flags || DOP_DONE flags || op_deliver op).
  destruct (negb forced && bool_decide (undel < low (params op)) && bool_decide (buf_len op < buf_siz op)) eqn:Ecase.
  { apply andb_true_iff in Ecase as [Ec Hlt]. apply bool_decide_eq_true in Hlt. apply andb_true_iff in Ec as [Hf _].
    assert (DOP_DONE flags = false) as -> by (unfold forced in Hf; destruct (DOP_DELIVER flags), (DOP_DONE flags); done).
    split; [|repeat split; try done; constructor]. constructor; try done; [by destruct H|]. by intros b Hb. }
  set (deliver := forced || bool_decide (low (params op) <= undel)).
  set (op1 := if forced && _ && stopped then _ else _).
  assert (exists e, op1 = with_err (with_deliver op false) e) as [e Eop].
  { unfold op1. destruct (forced && _ && stopped); [by eexists|]. exists (op_err op). by destruct op. }
  clearbody op1. subst op1. cbn [direction with_err with_deliver]. rewrite (ro_dir op H). set (err := if forced then _ else 0). clearbody err.
  cbn [buf_len buf op_data buf_siz with_err with_deliver].
  assert ((let '(data, op0) := if decide (buf_len op <> 0) then (op_data op ++ [default [] (buf op)], with_buf (with_err (with_deliver op false) e) None (buf_siz op) 0)
     else (op_data op, with_err (with_deliver op false) e) in (data, with_op_data op0 (if deliver then [] else data)))
    = ((take_buf op).1, with_op_data (with_err (with_deliver (take_buf op).2 false) e) (if deliver then [] else (take_buf op).1))) as ->
    by (unfold take_buf; by destruct (decide (buf_len op <> 0))).
  destruct (take_buf_spec op H) as (Tc & Tb & Tr & Ts & Tl). fold undel in Ts.
  assert (direction (take_buf op).2 = DOP_DIR_READ /\ total (take_buf op).2 = total op /\ op_length (take_buf op).2 = op_length op /\
    offset (take_buf op).2 = offset op /\ params (take_buf op).2 = params op) as (Td & Tt & Tn & To & Tp)
    by (unfold take_buf; rewrite <-(ro_dir op H); by destruct (decide (buf_len op <> 0))).
  assert (forall d u, (d = [] /\ u = 0 \/ d = (take_buf op).1 /\ u = undel /\ u < low (params op) /\ ~ buf_len op < buf_siz op) ->
    read_kept op (with_undelivered (with_op_data (with_err (with_deliver (take_buf op).2 false) e) d) u)) as Hk.
  { intros d u Hd. constructor; try done. by apply rop_taken. }
  assert (forall d u, held (with_undelivered (with_op_data (with_err (with_deliver (take_buf op).2 false) e) d) u) = concat d) as Hh.
  { intros d u. unfold held. simpl. by rewrite Tb, app_nil_r. }
  assert (len (held op) = data_size (take_buf op).1) as Hhl by (unfold data_size; by rewrite Tc). pose proof (rop_held_high op H) as Hhigh.
  destruct deliver eqn:Edel; cbn [negb orb].
  - destruct (DOP_NO_EMPTY flags && bool_decide (data_size (take_buf op).1 = 0)) eqn:Ene.
    + apply andb_true_iff in Ene as [Ene Hz]. apply bool_decide_eq_true in Hz. split; [apply Hk; left; split; [done|lia]|]. rewrite Hh.
      split; [symmetry; apply len_zero; lia|]. split; [constructor|]. split; [constructor|]. congruence.
    + cbn [direction with_op_data with_err with_deliver]. rewrite Td. destruct (handler_calls_bytes (DOP_DONE flags) (take_buf op).1 err) as (C1 & C2 & C3).
      split; [apply Hk; by left|]. rewrite Hh. simpl. rewrite app_nil_r, C1. split; [done|]. split; [|split; [intros Hd; by rewrite Hd in C3 |- *|intros Hd _; by rewrite Hd in C3 |- *]].
      eapply Forall_impl; [exact C2|]. simpl. intros c Hc. lia.
  - unfold deliver in Edel. apply orb_false_iff in Edel as [Ef El]. apply bool_decide_eq_false in El. rewrite Ef in Ecase. cbn [negb andb] in Ecase.
    rewrite bool_decide_true in Ecase by lia. cbn [andb] in Ecase. apply bool_decide_eq_false in Ecase.
    assert (DOP_DONE flags = false) as Hd by (unfold forced in Ef; rewrite !orb_false_iff in Ef; tauto).
    split; [apply Hk; right; repeat split; try done; lia|]. rewrite Hh, Tc. split; [done|]. split; [constructor|]. split; [constructor|]. rewrite Hd. done.
Qed.

(** ** Performing *)

(** The contract of the system calls: they move at most what was asked for, and a disk does
    not answer EAGAIN. *)
Record env_fits (dir : op_direction) (E : perform_env) : Prop := {
  ef_answer : forall off n, 0 < n -> match pe_answer E off n with
    | IoRead m => dir = DOP_DIR_READ /\ len m <= n
    | IoWrote k => dir = DOP_DIR_WRITE /\ 0 <= k <= n
    | IoErr e => pe_disk E = true -> e <> EAGAIN
    end;
  ef_disk : pe_disk E = true -> pe_error E <> EAGAIN /\ pe_memalign E <> EAGAIN /\ pe_open E <> EAGAIN;
}.

(** What an attempt to perform gives. *)
Record performed (op : operation) (r : op_result) (op' : operation) (m : option (Z * list Z)) : Prop := {
  pf_length : op_length op' = op_length op;
  pf_offset : offset op' = offset op;
  pf_params : params op' = params op;
  pf_deliver : op_deliver op' = op_deliver op;
  pf_total : total op' = total op + len (default [] (snd <$> m));
  pf_moved : forall o b, m = Some (o, b) -> o = offset op + total op /\ b <> [];
  pf_bound : op_length op < SIZE_MAX -> total op' <= op_length op;
  pf_more : r = OP_DELIVER -> total op' <> op_length op /\ m <> None;
  pf_wait : r = OP_RESUME \/ r = OP_FD_ERR -> m = None;
}.

Lemma perform_error_spec E err op : (pe_disk E = true -> err <> EAGAIN) ->
  exists r e, perform_error E err op = Done (r, if decide (err = EAGAIN) then op else with_err op e) /\ r <> OP_DELIVER.
Proof.
  intros Hd. unfold perform_error. destruct (decide (err = EAGAIN)).
  - destruct (pe_disk E); [by specialize (Hd eq_refl)|]. destruct (decide _); eexists _, 0; by split.
  - eexists _, err. split; [done|]. by repeat destruct (decide _).
Qed.

Lemma perform_error_performed E err op op0 : (pe_disk E = true -> err <> EAGAIN) -> op_length op0 = op_length op -> offset op0 = offset op ->
  params op0 = params op -> op_deliver op0 = op_deliver op -> total op0 = total op -> (op_length op < SIZE_MAX -> total op <= op_length op) ->
  exists r op', ('(r, op') ← perform_error E err op0; Done (r, op', None : option (Z * list Z))) = Done (r, op', None) /\ performed op r op' None /\
    exists e, op' = with_err op0 e.
Proof.
  intros Hd H1 H2 H3 H6 H4 H5. destruct (perform_error_spec E err op0 Hd) as (r & e & -> & Hr). simpl. eexists _, _. split; [done|].
  assert (exists e', (if decide (err = EAGAIN) then op0 else with_err op0 e) = with_err op0 e') as [e' ->]
    by (destruct (decide _); [exists (op_err op0); by destruct op0|by exists e]).
  split; [|by exists e']. constructor; simpl; try done; [change (len []) with 0; lia|rewrite H4; done].
Qed.

Lemma rop_err op e : rop op -> rop (with_err op e).
Proof. intros [H1 H2 H3 H4 H5 H6]. by constructor. Qed.

(** The buffer of a read. *)
Lemma read_ensure_buf chunk E op : 0 < chunk -> rop op -> room op -> (op_length op < SIZE_MAX -> total op < op_length op) ->
  exists op' err, ensure_buf chunk E op = Done (op', err) /\ rop op' /\ room op' /\ held op' = held op /\ op_length op' = op_length op /\
    offset op' = offset op /\ params op' = params op /\ op_deliver op' = op_deliver op /\ total op' = total op /\ (err = 0 -> exists b, buf op' = Some b) /\ (err = 0 \/ err = pe_memalign E).
Proof.
  intros Hc H Hr Hlt. unfold ensure_buf. destruct (buf op) as [b|] eqn:Eb.
  { exists op, 0. split; [done|]. do 8 (split; [done|]). split; [by exists b|by left]. }
  rewrite (ro_dir op H). destruct (ro_params op H) as [P1 P2 P3]. pose proof (ro_data op H) as Hdd. pose proof (data_size_nonneg (op_data op)) as Hn.
  unfold read_buf_siz. rewrite decide_False by lia. simpl. set (mx := Z.min _ chunk).
  assert (0 < mx /\ data_size (op_data op) + mx <= high (params op)) as [Hm1 Hm2] by (unfold mx; destruct (decide (data_size (op_data op) <> 0)); lia).
  set (siz := if decide (op_length op < SIZE_MAX) then _ else mx).
  assert (0 < siz /\ siz <= mx /\ (op_length op < SIZE_MAX -> siz <= op_length op - total op)) as (Hs1 & Hs2 & Hs3)
    by (unfold siz; destruct (decide (op_length op < SIZE_MAX)) as [Hl|Hl]; [specialize (Hlt Hl)|]; lia).
  clearbody siz mx. pose proof (ro_none op H Eb) as Hz. destruct H as [H1 H2 H3 H4 H5 H6]. destruct (decide (pe_memalign E <> 0)) as [Hme|Hme].
  - eexists _, _. split; [done|]. split; [by constructor|]. split; [by intros b|]. split; [unfold held; by rewrite Eb|]. do 5 (split; [done|]). split; [done|by right].
  - eexists _, _. split; [done|]. split; [constructor; simpl; try done|].
    { intros b [= <-]. rewrite Hz. change (len []) with 0. repeat split; try done; try lia. }
    split; [intros b [= <-]; simpl; lia|]. split; [unfold held; by rewrite Eb|]. do 5 (split; [done|]). split; [by exists []|by left].
Qed.

Lemma read_perform chunk E op : 0 < chunk -> env_fits DOP_DIR_READ E -> rop op -> room op -> (op_length op < SIZE_MAX -> total op < op_length op) ->
  exists r op' m, _dispatch_operation_perform chunk E op = Done (r, op', m) /\ performed op r op' m /\ rop op' /\
    held op' = held op ++ default [] (snd <$> m) /\ (m = None -> room op').
Proof.
  intros Hc [Ha Hdk] H Hr Hlt. unfold _dispatch_operation_perform. destruct (decide (pe_error E <> 0)).
  { destruct (perform_error_performed E (pe_error E) op op) as (r & op' & -> & Hp & e & ->); try done; [by intros ?; destruct Hdk|intros Hl; specialize (Hlt Hl); lia|].
    eexists _, _, _. split; [done|]. split; [done|]. split; [by apply rop_err|]. split; [simpl; by rewrite app_nil_r|done]. }
  destruct (read_ensure_buf chunk E op Hc H Hr Hlt) as (op1 & err & -> & H1 & Hr1 & Hh1 & E1 & E2 & E3 & E5 & E4 & Hb & He).
  cbv beta iota delta [mbind outcome_bind].
  assert (forall err2, (pe_disk E = true -> err2 <> EAGAIN) -> exists r op' m,
    ('(r, op') ← perform_error E err2 op1; Done (r, op', None : option (Z * list Z))) = Done (r, op', m) /\ performed op r op' m /\ rop op' /\
    held op' = held op ++ default [] (snd <$> m) /\ (m = None -> room op')) as Herr.
  { intros err2 Hd2. destruct (perform_error_performed E err2 op op1) as (r & op' & -> & Hp & e & ->); try done; [intros Hl; specialize (Hlt Hl); lia|].
    eexists _, _, _. split; [done|]. split; [done|]. split; [by apply rop_err|]. split; [simpl; by rewrite app_nil_r, <-Hh1|done]. }
  destruct (decide (err <> 0)) as [Hen|Hen]; [apply Herr; destruct He as [-> | ->]; [done|]; by intros ?; destruct Hdk as (? & ? & ?)|].
  destruct (decide (pe_open E <> 0)); [apply Herr; by intros ?; destruct Hdk as (? & ? & ?)|].
  destruct Hb as [b Eb]; [lia|]. destruct (ro_some op1 H1 b Eb) as (B1 & B2 & B3 & B4 & B5). pose proof (Hr1 b Eb) as Hlen. rewrite Eb. simpl.
  specialize (Ha (offset op1 + total op1) (buf_siz op1 - buf_len op1)). destruct (pe_answer E _ _) as [m|k|e2].
  - destruct Ha as [_ Hm]; [lia|]. unfold perform_moved. destruct (decide (len m = 0)) as [Hz|Hz].
    { eexists _, _, _. split; [done|]. split; [|split; [done|split; [simpl; by rewrite app_nil_r|done]]].
      constructor; try done; [simpl; change (len []) with 0; lia|rewrite E4; intros Hl; specialize (Hlt Hl); lia]. }
    pose proof (len_nonneg m). eexists _, _, _. split; [done|]. split; [|split; [|split; [|done]]].
    + constructor; simpl; try done; [lia| | | |].
      * intros o b2 Ho. injection Ho as <- <-. split; [lia|]. by intros ->.
      * intros Hl. rewrite <-E1 in Hl |- *. specialize (B5 Hl). lia.
      * destruct (decide _) as [?|Hx]; [done|]. intros _. simpl in Hx. split; [by rewrite <-E1|done].
      * by destruct (decide _); intros [].
    + destruct H1 as [K1 K2 K3 K4 K5 K6]. constructor; simpl; try done. intros b' [= <-]. rewrite len_app, B1. repeat split; try done; [lia|]. intros Hl. specialize (B5 Hl). lia.
    + rewrite <-Hh1. unfold held. simpl. by rewrite Eb, app_assoc.
  - destruct Ha as [Ha _]; [lia|done].
  - apply Herr. apply Ha. lia.
Qed.

(** ** Runs *)

Section read.
Context (chunk : Z) (p : dispatch_io_param_s) (off n : Z).

(** What holds of a read at all times: nothing that was read is lost. *)
Record rst (st : op_state) : Prop := {
  rs_moved : moved_bytes (st_moved st) = calls_bytes (st_calls st) ++ held (st_op st);
  rs_total : total (st_op st) = len (moved_bytes (st_moved st));
  rs_cont : contiguous off (st_moved st);
  rs_const : offset (st_op st) = off /\ op_length (st_op st) = n /\ params (st_op st) = p;
  rs_high : Forall (fun c => len (call_bytes c) <= high p) (st_calls st);
  rs_bound : n < SIZE_MAX -> total (st_op st) <= n;
}.
Record rlive (st : op_state) : Prop := {
  rl_rst : rst st;
  rl_rop : rop (st_op st);
  rl_finished : st_finished st = false;
  rl_calls : Forall (fun c => hc_done c = false) (st_calls st);
}.
(** A live operation between its steps. *)
Definition rready (st : op_state) : Prop := rlive st /\ room (st_op st) /\ total (st_op st) <> n.
Definition rdone (st : op_state) : Prop := rst st /\ st_finished st = true /\ ends_done (st_calls st) /\ held (st_op st) = [].

Lemma rst_delivered st flags stopped : rlive st ->
  rst (delivered st (_dispatch_operation_deliver_data (st_op st) flags stopped)).
Proof.
  intros [[R1 R2 R3 R4 R5 R6] Ro Rf Rc]. pose proof (read_deliver (st_op st) flags stopped Ro) as Hd.
  destruct (_dispatch_operation_deliver_data _ _ _) as [op' cs]. destruct Hd as ([K1 K2 K3 K4 K5 K6] & Hb & Hh & _ & _). destruct R4 as (? & ? & Ep).
  constructor; simpl; try done; rewrite ?K3; try done.
  - by rewrite R1, calls_bytes_app, <-app_assoc, Hb.
  - repeat split; congruence.
  - apply Forall_app. split; [done|]. by rewrite Ep in Hh.
Qed.

Lemma rlive_delivered st flags stopped : rlive st -> DOP_DONE flags = false ->
  let st' := delivered st (_dispatch_operation_deliver_data (st_op st) flags stopped) in
  rlive st' /\ room (st_op st') /\ total (st_op st') = total (st_op st).
Proof.
  intros L Hf. pose proof (rst_delivered st flags stopped L) as R. destruct L as [_ Ro Rf Rc]. pose proof (read_deliver (st_op st) flags stopped Ro) as Hd.
  destruct (_dispatch_operation_deliver_data _ _ _) as [op' cs]. destruct Hd as ([K1 K2 K3 K4 K5 K6] & _ & _ & Hnd & _).
  split; [|done]. constructor; try done. simpl. apply Forall_app. split; [done|by apply Hnd].
Qed.

Lemma rdone_finish st stopped : rlive st -> rdone (finish st stopped).
Proof.
  intros L. pose proof (rst_delivered st {| DOP_DELIVER := false; DOP_DONE := true; DOP_NO_EMPTY := false |} stopped L) as R. destruct L as [_ Ro Rf Rc].
  pose proof (read_deliver (st_op st) {| DOP_DELIVER := false; DOP_DONE := true; DOP_NO_EMPTY := false |} stopped Ro) as Hd.
  unfold finish, _dispatch_operation_dispose. destruct (_dispatch_operation_deliver_data _ _ _) as [op' cs]. destruct Hd as (_ & _ & _ & _ & Hdn).
  destruct (Hdn eq_refl eq_refl) as [(cs' & c & -> & Hc & Hcs) Hh]. split; [by destruct R|]. split; [done|]. split; [|done].
  exists (st_calls st ++ cs'), c. simpl. rewrite app_assoc. split; [done|]. split; [done|]. by apply Forall_app.
Qed.

Lemma rready_op st : rready st -> op_length (st_op st) < SIZE_MAX -> total (st_op st) < op_length (st_op st).
Proof. intros ([[R1 R2 R3 (R4 & R5 & R6) R7 R8] _ _ _] & _ & Hn). rewrite R5. intros Hl. specialize (R8 Hl). lia. Qed.

(** The events that a read may meet. *)
Definition event_fits (dir : op_direction) (ev : op_event) : Prop := match ev with EvPerform E _ => env_fits dir E | _ => True end.

(** The state of a read after an attempt. *)
Lemma rlive_performed st E : 0 < chunk -> env_fits DOP_DIR_READ E -> rready st ->
  exists r op' m, _dispatch_operation_perform chunk E (st_op st) = Done (r, op', m) /\
    let st1 := mkOpState op' (st_calls st) (st_moved st ++ match m with Some m => [m] | None => [] end) (st_finished st) in
    rlive st1 /\ (r = OP_DELIVER -> total op' <> n) /\ (r = OP_RESUME \/ r = OP_FD_ERR -> rready st1).
Proof.
  intros Hc HE Hr. pose proof (rready_op st Hr) as Hlt. destruct Hr as (L & Hroom & Hn). pose proof L as [R Ro Rf Rc].
  destruct (read_perform chunk E (st_op st) Hc HE Ro Hroom Hlt) as (r & op' & m & Ep & [P1 P2 P3 P9 P4 P5 P6 P7 P8] & Ro' & Hh & Hroom').
  exists r, op', m. split; [done|]. set (ms := match m with Some m0 => [m0] | None => [] end). cbv zeta. set (st1 := mkOpState op' (st_calls st) (st_moved st ++ ms) (st_finished st)).
  assert (moved_bytes ms = default [] (snd <$> m)) as Hms by (unfold ms, moved_bytes; destruct m as [[o b]|]; simpl; by rewrite ?app_nil_r).
  destruct R as [R1 R2 R3 (R4 & R5 & R6) R7 R8]. assert (rlive st1) as L1.
  { constructor; try done. constructor; simpl; try done.
    - by rewrite moved_bytes_app, R1, Hms, Hh, app_assoc.
    - rewrite moved_bytes_app, len_app, P4, R2, Hms. done.
    - unfold ms. destruct m as [[o b]|]; [|by rewrite app_nil_r]. destruct (P5 o b eq_refl) as [-> Hb]. rewrite R4, R2. by apply contiguous_snoc.
    - repeat split; congruence.
    - rewrite R5 in P6. done. }
  split; [done|]. split; [intros Hx; rewrite <-R5; by apply P7|]. intros Hx. specialize (P8 Hx). split; [done|]. split; [by apply Hroom'|].
  simpl. rewrite P4, P8. simpl. change (len []) with 0. by rewrite Z.add_0_r.
Qed.

Lemma rlive_perform st E stopped : 0 < chunk -> env_fits DOP_DIR_READ E -> rready st ->
  exists st', op_perform chunk E stopped st = Done st' /\ (rready st' \/ rdone st').
Proof.
  intros Hc HE Hr. destruct (rlive_performed st E Hc HE Hr) as (r & op' & m & Ep & L1 & Hmore & Hwait).
  unfold op_perform. rewrite Ep. cbv beta iota delta [mbind outcome_bind]. set (st1 := mkOpState op' _ _ _) in *. eexists. split; [done|]. destruct r.
  - right. by apply rdone_finish.
  - left. destruct (rlive_delivered st1 DOP_DEFAULT stopped L1 eq_refl) as (A & B & C). split; [done|]. split; [done|]. simpl in C |- *. rewrite C. by apply Hmore.
  - right. apply rdone_finish. by apply (rlive_delivered st1).
  - right. by apply rdone_finish.
  - left. by apply Hwait; left.
  - right. by apply rdone_finish.
  - left. by apply Hwait; right.
Qed.

Lemma read_step st ev : 0 < chunk -> event_fits DOP_DIR_READ ev -> rready st \/ rdone st ->
  exists st', op_step chunk ev st = Done st' /\ (rready st' \/ rdone st').
Proof.
  intros Hc He [Hr|Hd]; unfold op_step; [|rewrite (proj1 (proj2 Hd)); exists st; by split; [|right]].
  pose proof Hr as (L & Hroom & Hn). rewrite (rl_finished _ L). destruct ev as [E stopped|active stopped|stopped|stopped].
  - by apply rlive_perform.
  - unfold operation_timer. eexists. split; [done|]. left. destruct (active && _) eqn:Ea.
    + split; [|done]. destruct L as [[R1 R2 R3 R4 R5 R6] [O1 O2 O3 O4 O5 O6] Rf Rc]. constructor; simpl; try done; [|by rewrite app_nil_r].
      constructor; simpl; rewrite ?app_nil_r; done.
    + destruct (rlive_delivered st {| DOP_DELIVER := strict_interval (params (st_op st)); DOP_DONE := false; DOP_NO_EMPTY := false |} stopped L eq_refl) as (A & B & C).
      split; [done|]. split; [done|]. by rewrite C.
  - eexists. split; [done|]. left.
    destruct (rlive_delivered st {| DOP_DELIVER := true; DOP_DONE := false; DOP_NO_EMPTY := false |} stopped L eq_refl) as (A & B & C).
    split; [done|]. split; [done|]. by rewrite C.
  - eexists. split; [done|]. right. by apply rdone_finish.
Qed.

Lemma read_run evs st : 0 < chunk -> Forall (event_fits DOP_DIR_READ) evs -> rready st \/ rdone st ->
  exists st', op_run chunk evs st = Done st' /\ (rready st' \/ rdone st').
Proof.
  intros Hc. revert st. induction evs as [|ev evs IH]; intros st He Hst; [by exists st|]. apply Forall_cons in He as [He Hes].
  destruct (read_step st ev Hc He Hst) as (st1 & E1 & H1). simpl. rewrite E1. simpl. by apply IH.
Qed.
End read.

Lemma read_start p off n op : 0 <= n -> params_ok p -> _dispatch_operation_create DOP_DIR_READ 0 p off n [] = inl op ->
  rready p off n (mkOpState op [] [] false).
Proof.
  unfold _dispatch_operation_create. intros Hn Hp. destruct (decide _) as [|Hnz]; [done|]. intros [= <-]. split; [|split; [by intros b|simpl; lia]].
  pose proof (po_low p Hp). constructor; try done; constructor; simpl; try done. by left.
Qed.

(** C13: A read operation, whatever happens to it (attempts to read that succeed in part, meet
    the end of the file, would block or fail, timers, initial delivery, stop of the
    channel, cleanup), with a kernel that returns at most what was asked for: no assertion
    fails; the reads are at consecutive offsets, none is empty and together they do not exceed the
    length; the data objects that the handler got are, in order, the bytes that were read,
    none lost and none twice, up to what is still held, and all of them when the operation
    ends; no data object exceeds the high water mark; and [done] is given to the last call
    and to no other. *)
Theorem io_read_exact (chunk : Z) (p : dispatch_io_param_s) (off n : Z) (op : operation) (evs : list op_event) :
  0 < chunk -> params_ok p -> 0 <= n -> _dispatch_operation_create DOP_DIR_READ 0 p off n [] = inl op -> Forall (event_fits DOP_DIR_READ) evs ->
  exists st, op_run chunk evs (mkOpState op [] [] false) = Done st /\
    contiguous off (st_moved st) /\ (n < SIZE_MAX -> len (moved_bytes (st_moved st)) <= n) /\
    (exists rest, moved_bytes (st_moved st) = calls_bytes (st_calls st) ++ rest /\ (st_finished st = true -> rest = [])) /\
    Forall (fun c => len (call_bytes c) <= high p) (st_calls st) /\
    (if st_finished st then ends_done (st_calls st) else Forall (fun c => hc_done c = false) (st_calls st)).
Proof.
  intros Hc Hp Hn Ho He. pose proof (read_start p off n op Hn Hp Ho) as Hs.
  destruct (read_run chunk p off n evs _ Hc He (or_introl Hs)) as (st & Er & Hst). exists st. split; [done|].
  destruct Hst as [([R Ro Rf Rc] & _)|(R & Rf & Re & Rh)]; destruct R as [R1 R2 R3 R4 R5 R6]; rewrite Rf; rewrite <-R2; (do 2 (split; [done|])).
  - split; [exists (held (st_op st)); by split|]. by split.
  - split; [exists (held (st_op st)); by split|]. by split.
Qed.

(** ** Low water *)

(** Events that do not force a delivery. *)
Definition calm (ev : op_event) : Prop := match ev with EvInitial _ => False | _ => True end.

Lemma read_low op flags stopped : rop op -> DOP_DELIVER flags = false -> DOP_DONE flags = false -> op_deliver op = false ->
  let '(op', cs) := _dispatch_operation_deliver_data op flags stopped in
  op_deliver op' = false /\ Forall (fun c => low (params op) <= len (call_bytes c)) cs.
Proof.
  intros H F1 F2 F3. pose proof (read_deliver op flags stopped H) as Hd.
  unfold _dispatch_operation_deliver_data in *. rewrite F1, F2, F3 in *. cbn [orb negb andb with_deliver params buf_len buf_siz direction op_data buf op_err] in *.
  rewrite (ro_dir op H) in *.
  destruct (bool_decide (undelivered op + buf_len op < low (params op)) && bool_decide (buf_len op < buf_siz op)) eqn:Ec; [split; [done|constructor]|].
  destruct (take_buf_spec op H) as (Tc & _ & _ & Ts & _). unfold take_buf in Tc, Ts.
  destruct (decide (buf_len op <> 0)); cbn [fst snd] in Tc, Ts.
  - destruct (bool_decide (low (params op) <= undelivered op + buf_len op)) eqn:El; cbn [negb orb].
    + apply bool_decide_eq_true in El. destruct (DOP_NO_EMPTY flags && _); [split; [done|constructor]|]. split; [done|]. simpl.
      repeat constructor. unfold call_bytes. simpl. unfold data_size in Ts. lia.
    + split; [done|constructor].
  - destruct (bool_decide (low (params op) <= undelivered op + buf_len op)) eqn:El; cbn [negb orb].
    + apply bool_decide_eq_true in El. destruct (DOP_NO_EMPTY flags && _); [split; [done|constructor]|]. split; [done|]. simpl.
      repeat constructor. unfold call_bytes. simpl. unfold data_size in Ts. lia.
    + split; [done|constructor].
Qed.

(** C31: As long as a read has not ended, and nothing forces a delivery (no strict interval, no
    initial delivery), no handler gets less than the low water mark. *)
Theorem io_read_low_water (chunk : Z) (p : dispatch_io_param_s) (off n : Z) (op : operation) (evs : list op_event) (st : op_state) :
  0 < chunk -> params_ok p -> 0 <= n -> strict_interval p = false -> _dispatch_operation_create DOP_DIR_READ 0 p off n [] = inl op ->
  Forall (event_fits DOP_DIR_READ) evs -> Forall calm evs -> op_run chunk evs (mkOpState op [] [] false) = Done st -> st_finished st = false ->
  Forall (fun c => low p <= len (call_bytes c)) (st_calls st).
Proof.
  intros Hc Hp Hn Hs Ho. pose proof (read_start p off n op Hn Hp Ho) as Hr0.
  assert (op_deliver op = false) as Hd0 by (unfold _dispatch_operation_create in Ho; destruct (decide _); [done|by injection Ho as <-]).
  assert (Forall (fun c => low p <= len (call_bytes c)) (st_calls (mkOpState op [] [] false))) as Hl0 by constructor.
  change (op_deliver (st_op (mkOpState op [] [] false)) = false) in Hd0. clear Ho.
  revert Hr0 Hd0 Hl0. generalize (mkOpState op [] [] false) as s0. clear op. induction evs as [|ev evs IH]; intros s0 Hr0 Hd0 Hl0 He Hca Hrun Hf.
  { injection Hrun as ->. done. }
  apply Forall_cons in He as [He Hes], Hca as [Hca Hcas]. simpl in Hrun. apply bind_Done in Hrun as (s1 & E1 & Hrun).
  destruct (st_finished s1) eqn:Ef1.
  { exfalso. clear -Hrun Hf Ef1. revert Hrun. induction evs as [|e evs IH]; [intros [= ->]; congruence|]. simpl. unfold op_step. rewrite Ef1. done. }
  destruct (read_step chunk p off n s0 ev Hc He (or_introl Hr0)) as (s1' & E1' & Hs1). rewrite E1 in E1'. injection E1' as <-.
  destruct Hs1 as [Hr1|(_ & Hf1 & _)]; [|congruence].
  assert (op_deliver (st_op s1) = false /\ Forall (fun c => low p <= len (call_bytes c)) (st_calls s1)) as [Hd1 Hl1]; [|by apply (IH s1)].
  clear IH Hrun Hes Hcas. pose proof (rready_op p off n s0 Hr0) as Hlt. destruct Hr0 as ([[R1 R2 R3 (R4 & R5 & R6) R7 R8] Ro Rf Rc] & Hroom & Hnn).
  unfold op_step in E1. rewrite Rf in E1. destruct ev as [E stopped|active stopped|stopped|stopped]; [| |done|].
  - destruct (read_perform chunk E (st_op s0) Hc He Ro Hroom Hlt) as (r & op' & m & Ep & [P1 P2 P3 P9 P4 P5 P6 P7 P8] & Ro' & _).
    unfold op_perform in E1. rewrite Ep in E1. injection E1 as <-. destruct r; try (exfalso; revert Ef1; unfold finish; by destruct (_dispatch_operation_dispose _ _)); [|by simpl; rewrite P9..].
    pose proof (read_low op' DOP_DEFAULT stopped Ro' eq_refl eq_refl) as Hlow. rewrite P9 in Hlow. specialize (Hlow Hd0).
    simpl. destruct (_dispatch_operation_deliver_data op' DOP_DEFAULT stopped) as [op2 cs]. destruct Hlow as [? Hlow]. simpl. split; [done|].
    apply Forall_app. split; [done|]. by rewrite P3, R6 in Hlow.
  - injection E1 as <-. unfold operation_timer. rewrite R6, Hs. cbn [DOP_DELIVER]. rewrite andb_false_r.
    pose proof (read_low (st_op s0) {| DOP_DELIVER := false; DOP_DONE := false; DOP_NO_EMPTY := false |} stopped Ro eq_refl eq_refl Hd0) as Hlow.
    simpl. destruct (_dispatch_operation_deliver_data (st_op s0) _ stopped) as [op2 cs]. destruct Hlow as [? Hlow]. simpl. split; [done|].
    apply Forall_app. split; [done|]. by rewrite R6 in Hlow.
  - injection E1 as <-. unfold finish in Ef1. by destruct (_dispatch_operation_dispose _ _).
Qed.

(** ** Progress *)

(** The descriptor is ready: a read returns some bytes, or none at the end of the file. *)
Record readable (E : perform_env) : Prop := {
  rd_error : pe_error E = 0 /\ pe_memalign E = 0 /\ pe_open E = 0;
  rd_answer : forall off n, exists m, pe_answer E off n = IoRead m;
}.

Lemma readable_result chunk E op r op' m : 0 < chunk -> readable E -> rop op -> room op -> (op_length op < SIZE_MAX -> total op < op_length op) ->
  _dispatch_operation_perform chunk E op = Done (r, op', m) -> r = OP_COMPLETE \/ r = OP_DELIVER \/ r = OP_DELIVER_AND_COMPLETE.
Proof.
  intros Hc [(H1 & H2 & H3) Ha] Ro Hr Hlt. unfold _dispatch_operation_perform. rewrite H1, H3. rewrite decide_False by lia.
  destruct (read_ensure_buf chunk E op Hc Ro Hr Hlt) as (op1 & err & -> & _ & _ & _ & _ & _ & _ & _ & _ & _ & He).
  cbv beta iota delta [mbind outcome_bind]. rewrite decide_False by lia. rewrite decide_False by lia.
  destruct (Ha (offset op1 + total op1) (buf_siz op1 - buf_len op1)) as [b ->]. unfold perform_moved.
  destruct (decide (len b = 0)); [intros [= <- _ _]; auto|]. intros [= <- _ _]. destruct (decide _); auto.
Qed.

(** C30: A read of [n] bytes from a descriptor that is ready ends after at most [n] attempts. *)
Theorem io_read_completes (chunk : Z) (p : dispatch_io_param_s) (off n : Z) (op : operation) (Es : list (perform_env * bool)) :
  0 < chunk -> params_ok p -> 0 <= n < SIZE_MAX -> _dispatch_operation_create DOP_DIR_READ 0 p off n [] = inl op ->
  Forall (fun x => env_fits DOP_DIR_READ x.1 /\ readable x.1) Es -> n <= Z.of_nat (length Es) ->
  exists st, op_run chunk ((fun x => EvPerform x.1 x.2) <$> Es) (mkOpState op [] [] false) = Done st /\ st_finished st = true.
Proof.
  intros Hc Hp Hn Ho He Hlen. pose proof (read_start p off n op (proj1 Hn) Hp Ho) as Hr0. clear Ho.
  assert (n - total (st_op (mkOpState op [] [] false)) <= Z.of_nat (length Es)) as Hm.
  { destruct Hr0 as ([[_ R2 _ _ _ _] _ _ _] & _). rewrite R2. change (len (moved_bytes (st_moved (mkOpState op [] [] false)))) with 0. lia. }
  clear Hlen. revert Hr0 Hm. generalize (mkOpState op [] [] false) as s0. clear op. induction Es as [|[E stopped] Es IH]; intros s0 Hr0 Hm.
  - exfalso. pose proof (rready_op p off n s0 Hr0) as Hlt. destruct Hr0 as ([[_ _ _ (_ & R5 & _) _ _] _ _ _] & _). rewrite R5 in Hlt. simpl in Hm. specialize (Hlt (proj2 Hn)). lia.
  - apply Forall_cons in He as [[Hf Hrd] He]. simpl in Hf, Hrd. simpl. unfold op_step at 1. pose proof Hr0 as (L0 & Hroom & Hnn). rewrite (rl_finished p off n s0 L0).
    destruct (rlive_perform chunk p off n s0 E stopped Hc Hf Hr0) as (s1 & E1 & Hs1). rewrite E1. cbv beta iota delta [mbind outcome_bind].
    destruct Hs1 as [Hr1|Hd1].
    + apply IH; [done|done|]. pose proof (rready_op p off n s0 Hr0) as Hlt.
      destruct (read_perform chunk E (st_op s0) Hc Hf (rl_rop p off n s0 L0) Hroom Hlt) as (r & op' & m & Ep & [P1 P2 P3 P9 P4 P5 P6 P7 P8] & Ro' & _).
      unfold op_perform in E1. rewrite Ep in E1. cbv beta iota delta [mbind outcome_bind] in E1. injection E1 as <-.
      destruct (readable_result chunk E (st_op s0) r op' m Hc Hrd (rl_rop p off n s0 L0) Hroom Hlt Ep) as [-> |[-> | ->]].
      * destruct Hr1 as ([_ _ Hfin _] & _). exfalso. revert Hfin. unfold finish. by destruct (_dispatch_operation_dispose _ _).
      * destruct (P7 eq_refl) as [_ Hm']. destruct m as [[o b]|]; [|done]. destruct (P5 o b eq_refl) as [_ Hb].
        pose proof (read_deliver op' DOP_DEFAULT stopped Ro') as Hd. simpl. destruct (_dispatch_operation_deliver_data op' DOP_DEFAULT stopped) as [op2 cs].
        destruct Hd as ([_ _ K3 _ _ _] & _). simpl in *. rewrite K3, P4. assert (0 < len b) by (pose proof (len_nonneg b); destruct (decide (len b = 0)) as [Hz|]; [by apply len_zero in Hz|lia]). lia.
      * destruct Hr1 as ([_ _ Hfin _] & _). exfalso. revert Hfin. unfold finish. by destruct (_dispatch_operation_dispose _ _).
    + exists s1. split; [|apply Hd1]. clear -Hd1. destruct Hd1 as (_ & Hfin & _). induction Es as [|x Es IH]; [done|]. simpl. unfold op_step. by rewrite Hfin.
Qed.

(** ** A read of ten bytes with a low water mark of 2 and a high water mark of 4 *)

Definition small_params : dispatch_io_param_s := {| io_kind := DISPATCH_IO_STREAM; low := 2; high := 4; interval := 0; strict_interval := false |}.
Definition ten_bytes : operation := mkOp DOP_DIR_READ small_params 100 10 0 0 None 0 0 [] 0 false.
(** A kernel that returns [k] bytes, or what was asked for if that is less. *)
Definition give (k : nat) : perform_env :=
  {| pe_error := 0; pe_memalign := 0; pe_open := 0; pe_disk := false; pe_convenience := false; pe_answer := fun off n => IoRead (repeat off (Nat.min k (Z.to_nat n))) |}.

Lemma small_params_ok : params_ok small_params.
Proof. by constructor. Qed.
Lemma give_fits k : env_fits DOP_DIR_READ (give k).
Proof. constructor; [|done]. intros off n Hn. simpl. split; [done|]. unfold len. rewrite repeat_length. lia. Qed.
Lemma give_readable k : readable (give k).
Proof. constructor; [done|]. intros off n. by eexists. Qed.

Definition ten_events : list op_event := [EvPerform (give 1) false; EvTimer false false; EvPerform (give 3) false; EvPerform (give 9) false; EvPerform (give 9) false].

Lemma ten_events_fit : Forall (event_fits DOP_DIR_READ) ten_events.
Proof. repeat (apply Forall_cons; split; [first [exact I|apply give_fits]|]). by apply Forall_nil. Qed.

Lemma io_read_exact_witness : exists st, op_run 4096 ten_events (mkOpState ten_bytes [] [] false) = Done st /\ ends_done (st_calls st) /\
  moved_bytes (st_moved st) = calls_bytes (st_calls st).
Proof.
  destruct (io_read_exact 4096 small_params 100 10 ten_bytes ten_events) as (st & Er & _ & _ & (rest & Em & Hr) & _ & He); [lia|apply small_params_ok|lia|reflexivity|apply ten_events_fit|].
  exists st. split; [exact Er|]. assert (st_finished st = true) as Hf by (vm_compute in Er; injection Er as <-; reflexivity). rewrite Hf in He. split; [exact He|].
  rewrite Em, (Hr Hf), app_nil_r. reflexivity.
Defined.

Lemma io_read_low_water_witness : exists st, op_run 4096 (take 4 ten_events) (mkOpState ten_bytes [] [] false) = Done st /\
  (len ∘ call_bytes) <$> st_calls st = [4; 4] /\ Forall (fun c => 2 <= len (call_bytes c)) (st_calls st).
Proof.
  destruct (io_read_exact 4096 small_params 100 10 ten_bytes (take 4 ten_events)) as (st & Er & _); [lia|apply small_params_ok|lia|reflexivity|apply Forall_take, ten_events_fit|].
  exists st. split; [exact Er|]. split; [vm_compute in Er; injection Er as <-; reflexivity|].
  apply (io_read_low_water 4096 small_params 100 10 ten_bytes (take 4 ten_events) st); [lia|apply small_params_ok|lia|reflexivity|reflexivity|apply Forall_take, ten_events_fit|repeat constructor|exact Er|].
  vm_compute in Er. injection Er as <-. reflexivity.
Defined.

Lemma io_read_completes_witness : exists st,
  op_run 4096 ((fun x => EvPerform x.1 x.2) <$> repeat (give 1, false) 10) (mkOpState ten_bytes [] [] false) = Done st /\ st_finished st = true.
Proof.
  apply (io_read_completes 4096 small_params 100 10 ten_bytes); [lia|apply small_params_ok|split; [lia|reflexivity]|reflexivity| |simpl; lia].
  apply Forall_forall. intros x Hx. apply list_elem_of_In, repeat_spec in Hx as ->. split; [apply give_fits|apply give_readable].
Defined.
