(* ===== verification/IoWrite.v ===== *)
(** * I/O operations: writes

    A write operation writes its data in order, once; each handler call gets exactly the data
    that is not written at the time of the call, except that the last one gets [NULL] when
    there is no error; [done] is given once, at the end. *)

From S2P Require Import Prelude Io IoRead.

Local Open Scope word_scope.

(** ** Regions *)

Definition full (d : list (list Z)) : Prop := Forall (fun r => r <> []) d.

Lemma drop_regions_concat k d : 0 <= k -> concat (drop_regions k d) = drop (Z.to_nat k) (concat d).
Proof.
  revert k. induction d as [|r d IH]; intros k Hk; simpl; [by rewrite drop_nil|]. unfold len. destruct (decide (Z.of_nat (length r) <= k)) as [H|H].
  - rewrite IH by lia. rewrite drop_app_ge by lia. f_equal. lia.
  - simpl. rewrite drop_app_le by lia. done.
Qed.

Lemma take_regions_concat k d : concat (take_regions k d) = take (Z.to_nat k) (concat d).
Proof.
  revert k. induction d as [|r d IH]; intros k; simpl; [by rewrite take_nil|]. destruct (decide (k <= 0)) as [Hk|Hk].
  { replace (Z.to_nat k) with 0%nat by lia. done. }
  unfold len. destruct (decide (Z.of_nat (length r) <= k)) as [H|H]; simpl.
  - rewrite IH. rewrite take_app_ge by lia. do 2 f_equal. lia.
  - rewrite app_nil_r, take_app_le by lia. done.
Qed.

Lemma drop_regions_full k d : 0 <= k -> full d -> full (drop_regions k d).
Proof.
  revert k. induction d as [|r d IH]; intros k Hk Hd; simpl; [constructor|]. apply Forall_cons in Hd as [Hr Hd]. pose proof (len_nonneg r).
  destruct (decide (len r <= k)) as [H1|H1]; [apply IH; [lia|done]|]. constructor; [|done]. intros E. apply (f_equal length) in E. rewrite length_drop in E. unfold len in H1. simpl in E. lia.
Qed.

Lemma take_regions_full k d : full d -> full (take_regions k d).
Proof.
  revert k. induction d as [|r d IH]; intros k Hd; simpl; [constructor|]. apply Forall_cons in Hd as [Hr Hd].
  destruct (decide (k <= 0)); [constructor|]. destruct (decide (len r <= k)) as [H1|H1]; [constructor; [done|by apply IH]|].
  constructor; [|constructor]. intros E. apply (f_equal length) in E. rewrite length_take in E. unfold len in H1. simpl in E. lia.
Qed.

(** The rest of a data object from [k] on. *)
Lemma subrange_rest d k n : 0 <= k -> data_size d <= n + k -> full d -> concat (subrange d k n) = drop (Z.to_nat k) (concat d) /\ full (subrange d k n).
Proof.
  intros Hk Hn Hd. unfold subrange. split; [|by apply take_regions_full, drop_regions_full]. rewrite take_regions_concat, drop_regions_concat by done.
  apply take_ge. rewrite length_drop. unfold data_size, len in Hn. lia.
Qed.

Lemma subrange_prefix d n : full d -> concat (subrange d 0 n) = take (Z.to_nat n) (concat d).
Proof. intros Hd. unfold subrange. by rewrite take_regions_concat, drop_regions_concat by done. Qed.

(** The chunk that a write gathers is not empty and does not exceed the data. *)
Lemma gather_bounds c acc d : 0 <= acc -> full d -> acc <= gather c acc d <= acc + data_size d /\ (0 < c -> (0 < acc \/ d <> []) -> 0 < gather c acc d).
Proof.
  revert acc. induction d as [|r d IH]; intros acc Ha Hd; simpl; [unfold data_size; simpl; change (len []) with 0; split; [lia|]; intros _ [?|?]; [lia|done]|].
  apply Forall_cons in Hd as [Hr Hd]. pose proof (len_nonneg r). assert (0 < len r) by (destruct (decide (len r = 0)) as [Hz|]; [by apply len_zero in Hz|lia]).
  assert (data_size (r :: d) = len r + data_size d) as -> by (unfold data_size; simpl; apply len_app). pose proof (data_size_nonneg d).
  set (acc' := if decide (acc = 0 \/ acc + len r <= c) then acc + len r else acc). assert (acc <= acc' <= acc + len r /\ 0 < acc') as [Ha' Hp] by (unfold acc'; destruct (decide _); lia).
  destruct (decide (acc + len r < c)); [|split; [lia|done]]. destruct (IH acc') as [G1 G2]; [lia|done|]. split; [lia|]. intros Hc _. apply G2; [done|by left].
Qed.

(** ** The invariant of a write operation *)

Section write.
Context (D : list Z).

(** The data that is not written yet. *)
Definition rest_from (k : Z) : list Z := drop (Z.to_nat k) D.

Record wop (op : operation) : Prop := {
  wo_dir : direction op = DOP_DIR_WRITE;
  wo_params : params_ok (params op);
  wo_length : op_length op = len D;
  wo_full : full (op_data op);
  wo_len : 0 <= buf_len op <= total op;
  wo_total : total op <= len D;
  wo_data : concat (op_data op) = rest_from (total op - buf_len op);
  wo_none : buf op = None -> buf_len op = 0;
  wo_some : forall b, buf op = Some b -> b = take (Z.to_nat (buf_siz op)) (concat (op_data op)) /\ 0 < buf_siz op <= data_size (op_data op) /\
    buf_siz op <= high (params op) /\ buf_len op <= buf_siz op;
}.

Lemma rest_from_len k : 0 <= k -> len (rest_from k) = Z.max 0 (len D - k).
Proof. intros H. unfold rest_from, len. rewrite length_drop. lia. Qed.

Lemma rest_from_drop k j : 0 <= k -> 0 <= j -> drop (Z.to_nat j) (rest_from k) = rest_from (k + j).
Proof. intros Hk Hj. unfold rest_from. rewrite drop_drop. f_equal. lia. Qed.

(** A call that a write makes when [k] bytes are written: [NULL] if the operation is done
    without an error, the data from [k] on in every other call. *)
Definition write_call (k : Z) (c : handler_call) : Prop :=
  if hc_done c && bool_decide (hc_err c = 0) then hc_data c = None
  else exists d, hc_data c = Some d /\ concat d = rest_from k.

(** The delivery of a write. *)
Lemma write_deliver op flags stopped : wop op ->
  let '(op', cs) := _dispatch_operation_deliver_data op flags stopped in
  wop op' /\ room op' /\ total op' = total op /\ offset op' = offset op /\ params op' = params op /\ Forall (write_call (total op)) cs /\
  (DOP_DONE flags = false -> Forall (fun c => hc_done c = false) cs) /\ (DOP_DONE flags = true -> DOP_NO_EMPTY flags = false -> ends_done cs) /\
  Forall (fun c => hc_done c = true -> hc_err c = 0 -> op_err op = 0 /\ stopped = false) cs.
Proof.
  intros H. unfold _dispatch_operation_deliver_data. cbn [with_deliver params buf_len buf_siz].
  set (undel := undelivered op + buf_len op). set (forced := DOP_DELIVER flags || DOP_DONE flags || op_deliver op).
  destruct (negb forced && bool_decide (undel < low (params op)) && bool_decide (buf_len op < buf_siz op)) eqn:Ecase.
  { apply andb_true_iff in Ecase as [Ec Hlt]. apply bool_decide_eq_true in Hlt. apply andb_true_iff in Ec as [Hf _].
    assert (DOP_DONE flags = false) as -> by (unfold forced in Hf; destruct (DOP_DELIVER flags), (DOP_DONE flags); done).
    split; [by destruct H|]. split; [by intros b Hb|]. do 3 (split; [done|]). split; [constructor|]. split; [constructor|]. split; [done|constructor]. }
  clear Ecase. set (deliver := forced || bool_decide (low (params op) <= undel)).
  set (op1 := if forced && _ && stopped then _ else _).
  assert (exists e, op1 = with_err (with_deliver op false) e /\ (forced = true -> e = 0 -> op_err op = 0 /\ stopped = false)) as (e & Eop & Hsucc).
  { unfold op1. destruct (forced && bool_decide _ && stopped) eqn:Ef; [by eexists|]. exists (op_err op). split; [by destruct op|].
    intros Hf He. split; [done|]. rewrite Hf in Ef. cbn [andb op_err with_deliver] in Ef. by rewrite bool_decide_eq_true_2 in Ef. }
  clearbody op1. subst op1. cbn [direction with_err with_deliver]. rewrite (wo_dir op H). set (err := if forced then _ else 0).
  assert (DOP_DONE flags = true -> err = 0 -> op_err op = 0 /\ stopped = false) as Herr0.
  { intros Hdn. assert (forced = true) as Hfo by (unfold forced; rewrite Hdn; by rewrite orb_true_r). unfold err. rewrite Hfo. simpl. by apply Hsucc. }
  clearbody err.
  cbn [buf_len buf op_data buf_siz op_length with_err with_deliver]. pose proof H as [H1 H2 H3 H4 H5 H6 H7 H8 H9].
  assert (data_size (op_data op) = len D - (total op - buf_len op)) as Hsz by (unfold data_size; rewrite H7, rest_from_len; lia).
  assert (forall k, 0 <= k -> concat (subrange (op_data op) k (op_length op)) = rest_from (total op - buf_len op + k) /\ full (subrange (op_data op) k (op_length op))) as Hsub.
  { intros k Hk. destruct (subrange_rest (op_data op) k (op_length op)) as [Ec Hf]; [done|lia|done|]. split; [|done]. rewrite Ec, H7, rest_from_drop by lia. done. }
  set (data := if deliver then subrange (op_data op) (buf_len op) (op_length op) else []).
  assert (deliver = true -> concat data = rest_from (total op) /\ full data) as Hdata.
  { unfold data. intros ->. destruct (Hsub (buf_len op)) as [Ec Hf]; [lia|]. split; [|done]. rewrite Ec. f_equal. lia. }
  match goal with |- let '(_, _) := let '(_, _) := ?X in _ in _ => destruct X as [data' op2] eqn:Ex end.
  assert (data' = data /\ (forall u, wop (with_undelivered op2 u)) /\ room op2 /\ total op2 = total op /\ offset op2 = offset op /\ params op2 = params op /\ direction op2 = DOP_DIR_WRITE)
    as (-> & Hw & Hroom & Ht & Ho & Hpp & Hdir).
  { destruct (decide (buf op <> None /\ buf_len op = buf_siz op)) as [[Hb Hl]|Hb]; injection Ex as <- <-; (split; [done|]).
    - split; [|repeat split; try done; by intros b]. intros u.
      set (d := if deliver then data else subrange (op_data op) (buf_siz op) (op_length op)).
      assert (concat d = rest_from (total op) /\ full d) as [Hd1 Hd2].
      { unfold d. destruct deliver; [by apply Hdata|]. destruct (Hsub (buf_siz op)) as [Ec Hf]; [lia|]. split; [|done]. rewrite Ec. f_equal. lia. }
      constructor; simpl; try done; [lia|]. rewrite Hd1. f_equal. lia.
    - split; [intros u; by constructor|]. split; [|done]. intros b Eb. simpl in Eb |- *. destruct (H9 b Eb) as (_ & _ & _ & Hle). rewrite Eb in Hb.
      destruct (decide (buf_len op = buf_siz op)); [|lia]. exfalso. by apply Hb. }
  cbv iota. destruct (negb deliver || DOP_NO_EMPTY flags && bool_decide (data_size data = 0)) eqn:Ene.
  - split; [apply Hw|]. split; [done|]. do 3 (split; [done|]). split; [constructor|]. split; [constructor|]. split; [|constructor]. intros Hdn Hne. exfalso. unfold deliver, forced in Ene.
    rewrite Hdn, Hne, orb_true_r in Ene. done.
  - apply orb_false_iff in Ene as [Edel _]. apply negb_false_iff in Edel. destruct (Hdata Edel) as [Hd1 Hd2]. split; [apply Hw|]. split; [done|]. do 3 (split; [done|]).
    rewrite Hdir. unfold handler_calls. destruct (DOP_DONE flags).
    + split; [|split; [done|split; [intros _ _; by exists [], {| hc_done := true; hc_data := if decide (err = 0) then None else Some data; hc_err := err |}|]]].
      * constructor; [|constructor]. unfold write_call. simpl. destruct (decide (err = 0)); [by rewrite bool_decide_eq_true_2|].
        rewrite bool_decide_eq_false_2 by done. by exists data.
      * constructor; [|constructor]. simpl. intros _. by apply Herr0.
    + split; [|split; [repeat constructor|split; [done|by repeat constructor]]]. constructor; [|constructor]. unfold write_call. simpl. by exists data.
Qed.
(** ** Performing *)

Lemma write_ensure_buf chunk E op : 0 < chunk -> wop op -> total op < len D -> room op ->
  exists op' b, ensure_buf chunk E op = Done (op', 0) /\ wop op' /\ buf op' = Some b /\ room op' /\ offset op' = offset op /\ params op' = params op /\
    op_deliver op' = op_deliver op /\ total op' = total op.
Proof.
  intros Hc H Hlt Hr. unfold ensure_buf. destruct (buf op) as [b|] eqn:Eb; [by exists op, b|]. rewrite (wo_dir op H).
  pose proof H as [H1 H2 H3 H4 H5 H6 H7 H8 H9]. destruct H2 as [P1 P2 P3]. specialize (H8 Eb). rewrite H8 in H7.
  assert (data_size (op_data op) = len D - total op) as Hsz by (unfold data_size; rewrite H7, rest_from_len; lia).
  unfold write_buf_siz. set (cs := Z.min chunk (high (params op))). destruct (gather_bounds cs 0 (op_data op)) as [G1 G2]; [done|done|].
  assert (0 < gather cs 0 (op_data op)) as Gp by (apply G2; [lia|right; intros E0; rewrite E0 in Hsz; unfold data_size in Hsz; simpl in Hsz; change (len []) with 0 in Hsz; lia]).
  set (siz := Z.min (gather cs 0 (op_data op)) (high (params op))). assert (0 < siz <= data_size (op_data op) /\ siz <= high (params op)) as [Hs1 Hs2] by (unfold siz; lia).
  clearbody siz. eexists _, _. split; [done|]. split; [|split; [done|split; [intros b0 [= <-]; simpl; lia|done]]].
  constructor; simpl; try done; [by rewrite H8|]. intros b [= <-]. rewrite subrange_prefix by done. repeat split; try done; lia.
Qed.

Lemma wop_err op e : wop op -> wop (with_err op e).
Proof. intros [H1 H2 H3 H4 H5 H6 H7 H8 H9]. by constructor. Qed.

Lemma write_perform chunk E op : 0 < chunk -> env_fits DOP_DIR_WRITE E -> wop op -> room op -> total op < len D ->
  exists r op' m, _dispatch_operation_perform chunk E op = Done (r, op', m) /\ performed op r op' m /\ wop op' /\
    default [] (snd <$> m) = take (Z.to_nat (total op' - total op)) (rest_from (total op)) /\ (m = None -> room op').
Proof.
  intros Hc [Ha Hdk] H Hr Hlt. unfold _dispatch_operation_perform.
  assert (op_length op < SIZE_MAX -> total op <= op_length op) as Hle by (rewrite (wo_length op H); lia). destruct (decide (pe_error E <> 0)).
  { destruct (perform_error_performed E (pe_error E) op op) as (r & op' & -> & Hp & e & ->); try done; [by intros ?; destruct Hdk|].
    eexists _, _, _. split; [done|]. split; [done|]. split; [by apply wop_err|]. split; [simpl; by rewrite Z.sub_diag|done]. }
  destruct (write_ensure_buf chunk E op Hc H Hlt Hr) as (op1 & b & -> & H1 & Eb & Hr1 & E2 & E3 & E5 & E4).
  cbv beta iota delta [mbind outcome_bind]. rewrite decide_False by lia. assert (op_length op1 = op_length op) as E1 by (by rewrite (wo_length op1 H1), (wo_length op H)).
  assert (forall err2, (pe_disk E = true -> err2 <> EAGAIN) -> exists r op' m,
    ('(r, op') ← perform_error E err2 op1; Done (r, op', None : option (Z * list Z))) = Done (r, op', m) /\ performed op r op' m /\ wop op' /\
    default [] (snd <$> m) = take (Z.to_nat (total op' - total op)) (rest_from (total op)) /\ (m = None -> room op')) as Herr.
  { intros err2 Hd2. destruct (perform_error_performed E err2 op op1) as (r & op' & -> & Hp & e & ->); try done.
    eexists _, _, _. split; [done|]. split; [done|]. split; [by apply wop_err|]. split; [simpl; by rewrite E4, Z.sub_diag|done]. }
  destruct (decide (pe_open E <> 0)); [apply Herr; by intros ?; destruct Hdk as (? & ? & ?)|].
  pose proof H1 as [W1 W2 W3 W4 W5 W6 W7 W8 W9]. destruct (W9 b Eb) as (Hb & Hsz & Hhi & Hbl). pose proof (Hr1 b Eb) as Hlen. rewrite Eb. simpl.
  specialize (Ha (offset op1 + total op1) (buf_siz op1 - buf_len op1)). destruct (pe_answer E _ _) as [m|k|e2].
  - destruct Ha as [Ha _]; [lia|done].
  - destruct Ha as [_ Hk]; [lia|]. assert (data_size (op_data op1) = len D - (total op1 - buf_len op1)) as Hds by (unfold data_size; rewrite W7, rest_from_len; lia).
    assert (take (Z.to_nat k) (drop (Z.to_nat (buf_len op1)) b) = take (Z.to_nat k) (rest_from (total op1))) as Em.
    { rewrite Hb, W7. rewrite skipn_firstn_comm, take_take. rewrite rest_from_drop by lia. f_equal; [lia|f_equal; lia]. }
    rewrite Em. set (m := take (Z.to_nat k) (rest_from (total op1))).
    assert (len m = k) as Hlm by (unfold m, len; rewrite length_take; pose proof (rest_from_len (total op1)) as Hrl; unfold len in Hrl, Hds; lia).
    unfold perform_moved. destruct (decide (len m = 0)) as [Hz|Hz].
    { eexists _, _, _. split; [done|]. split; [|split; [done|split; [simpl; by rewrite E4, Z.sub_diag|done]]].
      constructor; try done; [simpl; change (len []) with 0; lia|]. rewrite E4. done. }
    eexists _, _, _. split; [done|]. split; [|split; [|split; [|done]]].
    + constructor; simpl; try done; [lia| | | |].
      * intros o b2 Ho. injection Ho as <- <-. split; [lia|]. by intros ->.
      * intros Hl. rewrite (wo_length op H). lia.
      * destruct (decide _) as [?|Hx]; [done|]. intros _. simpl in Hx. split; [by rewrite <-E1|done].
      * by destruct (decide _); intros [].
    + constructor; simpl; try done; [lia|lia|rewrite W7; f_equal; lia|]. intros b2 [= <-]. repeat split; try done; lia.
    + simpl. rewrite Hlm. unfold m. rewrite E4. f_equal. lia.
  - apply Herr. apply Ha. lia.
Qed.

(** The kernel took no byte of a write that was not empty (or failed with no error code). *)
Definition took_nothing (E : perform_env) : Prop :=
  exists off n, 0 < n /\ (pe_answer E off n = IoWrote 0 \/ pe_answer E off n = IoErr 0).

(** An attempt that ends the operation has an error, wrote the last byte, or wrote nothing. *)
Lemma perform_error_ends E err op r op' m : direction op = DOP_DIR_WRITE -> err <> 0 ->
  ('(r, op') ← perform_error E err op; Done (r, op', None : option (Z * list Z))) = Done (r, op', m) ->
  r = OP_RESUME \/ (r <> OP_DELIVER_AND_COMPLETE /\ op_err op' <> 0).
Proof.
  intros Hd He. unfold perform_error. destruct (decide (err = EAGAIN)).
  - destruct (pe_disk E); [done|]. rewrite decide_False by (rewrite Hd; by intros [? _]). simpl. intros [= <- <- _]. by left.
  - simpl. intros [= <- <- _]. right. split; [|done]. by repeat destruct (decide _).
Qed.

Lemma write_perform_ends chunk E op r op' m : 0 < chunk -> env_fits DOP_DIR_WRITE E -> wop op -> room op -> total op < len D ->
  _dispatch_operation_perform chunk E op = Done (r, op', m) ->
  r = OP_DELIVER \/ r = OP_RESUME \/ (r <> OP_DELIVER_AND_COMPLETE /\ (op_err op' <> 0 \/ total op' = len D)) \/ took_nothing E.
Proof.
  intros Hc [Ha _] H Hr Hlt. unfold _dispatch_operation_perform. destruct (decide (pe_error E <> 0)).
  { intros Ep. apply perform_error_ends in Ep; [|apply H|done]. tauto. }
  destruct (write_ensure_buf chunk E op Hc H Hlt Hr) as (op1 & b & -> & H1 & Eb & Hr1 & _ & _ & _ & E4).
  cbv beta iota delta [mbind outcome_bind]. rewrite decide_False by lia.
  destruct (decide (pe_open E <> 0)); [intros Ep; apply perform_error_ends in Ep; [tauto|apply H1|done]|].
  pose proof (Hr1 b Eb) as Hlen. destruct (wo_some op1 H1 b Eb) as (Hb & Hsz & _ & _).
  specialize (Ha (offset op1 + total op1) (buf_siz op1 - buf_len op1)). destruct (pe_answer E _ _) as [m'|k|e2] eqn:Ea.
  - destruct Ha as [? _]; [lia|done].
  - rewrite Eb. simpl. destruct Ha as [_ Hk]; [lia|]. unfold perform_moved. destruct (decide (len _ = 0)) as [Hz|Hz].
    + intros [= <- <- <-]. right; right; right. eexists _, _. split; [|left; rewrite Ea; f_equal]; [lia|].
      unfold len in Hz. rewrite length_take, length_drop, Hb, length_take in Hz. unfold data_size, len in Hsz. lia.
    + intros [= <- <- <-]. simpl. destruct (decide _) as [Ht|Ht]; [|by left]. right; right; left. split; [done|]. right. simpl in Ht. rewrite Ht. apply H1.
  - intros Ep. destruct (decide (e2 = 0)) as [->|]; [|apply perform_error_ends in Ep; [tauto|apply H1|done]].
    right; right; right. eexists _, _. split; [|right; exact Ea]. lia.
Qed.

(** ** Runs *)

Context (chunk : Z) (p : dispatch_io_param_s) (off : Z).

Record wst (st : op_state) : Prop := {
  ws_moved : moved_bytes (st_moved st) = take (Z.to_nat (total (st_op st))) D;
  ws_cont : contiguous off (st_moved st);
  ws_const : offset (st_op st) = off /\ params (st_op st) = p;
  ws_wop : wop (st_op st);
  ws_calls : Forall (fun c => exists k, 0 <= k <= total (st_op st) /\ write_call k c) (st_calls st);
}.
Definition wready (st : op_state) : Prop := wst st /\ st_finished st = false /\ room (st_op st) /\ total (st_op st) < len D /\ Forall (fun c => hc_done c = false) (st_calls st).
(** The last call has what is not written. *)
Definition wdone (st : op_state) : Prop := wst st /\ st_finished st = true /\
  exists cs c, st_calls st = cs ++ [c] /\ hc_done c = true /\ Forall (fun c => hc_done c = false) cs /\ write_call (total (st_op st)) c.

Lemma wst_calls_app cs cs' t : Forall (fun c => exists k, 0 <= k <= t /\ write_call k c) cs -> 0 <= t -> Forall (write_call t) cs' ->
  Forall (fun c => exists k, 0 <= k <= t /\ write_call k c) (cs ++ cs').
Proof. intros H Ht H'. apply Forall_app. split; [done|]. eapply Forall_impl; [exact H'|]. intros c Hc. exists t. split; [lia|done]. Qed.

Lemma wst_delivered st flags stopped : wst st ->
  let st' := delivered st (_dispatch_operation_deliver_data (st_op st) flags stopped) in
  wst st' /\ room (st_op st') /\ total (st_op st') = total (st_op st) /\
  (DOP_DONE flags = false -> Forall (fun c => hc_done c = false) (st_calls st) -> Forall (fun c => hc_done c = false) (st_calls st')).
Proof.
  intros [S1 S2 [S3 S4] S5 S6]. pose proof (write_deliver (st_op st) flags stopped S5) as Hd. destruct (_dispatch_operation_deliver_data _ _ _) as [op' cs].
  destruct Hd as (W & Hr & Ht & Ho & Hp & Hc & Hn & _ & _). split; [|split; [done|split; [done|]]].
  - constructor; simpl; try done; rewrite ?Ht; try done; [split; congruence|]. apply wst_calls_app; [done|destruct S5; lia|done].
  - intros Hf Hcs. simpl. apply Forall_app. split; [done|by apply Hn].
Qed.

Lemma wdone_finish st stopped : wst st -> Forall (fun c => hc_done c = false) (st_calls st) -> wdone (finish st stopped).
Proof.
  intros [S1 S2 [S3 S4] S5 S6] Hcs. unfold finish, _dispatch_operation_dispose.
  pose proof (write_deliver (st_op st) {| DOP_DELIVER := false; DOP_DONE := true; DOP_NO_EMPTY := false |} stopped S5) as Hd. destruct (_dispatch_operation_deliver_data _ _ _) as [op' cs].
  destruct Hd as (W & Hr & Ht & Ho & Hp & Hc & _ & Hdn & _). destruct (Hdn eq_refl eq_refl) as (cs' & c & -> & Hc1 & Hc2). split; [|split; [done|]].
  - constructor; simpl; try done; rewrite ?Ht; try done; [split; congruence|]. apply wst_calls_app; [done|destruct S5; lia|done].
  - exists (st_calls st ++ cs'), c. simpl. rewrite app_assoc, Ht. split; [done|]. split; [done|]. split; [by apply Forall_app|].
    apply Forall_app in Hc as [_ Hc]. apply Forall_cons in Hc as [Hc _]. exact Hc.
Qed.
(** A write on its way. *)
Definition wlive (st : op_state) : Prop := wst st /\ st_finished st = false /\ Forall (fun c => hc_done c = false) (st_calls st).

(** The state of a write after an attempt. *)
Lemma write_performed st E : 0 < chunk -> env_fits DOP_DIR_WRITE E -> wready st ->
  exists r op' m, _dispatch_operation_perform chunk E (st_op st) = Done (r, op', m) /\
    let st1 := mkOpState op' (st_calls st) (st_moved st ++ match m with Some m => [m] | None => [] end) (st_finished st) in
    wlive st1 /\ (r = OP_DELIVER -> total op' < len D) /\ (r = OP_RESUME \/ r = OP_FD_ERR -> wready st1).
Proof.
  intros Hc HE ([S1 S2 [S3 S4] S5 S6] & Hf & Hroom & Hlt & Hnd).
  destruct (write_perform chunk E (st_op st) Hc HE S5 Hroom Hlt) as (r & op' & m & Ep & [P1 P2 P3 P9 P4 P5 P6 P7 P8] & W' & Hm & Hroom').
  exists r, op', m. split; [done|]. set (ms := match m with Some m0 => [m0] | None => [] end). cbv zeta. set (st1 := mkOpState op' (st_calls st) (st_moved st ++ ms) (st_finished st)).
  assert (moved_bytes ms = default [] (snd <$> m)) as Hms by (unfold ms, moved_bytes; destruct m as [[o b]|]; simpl; by rewrite ?app_nil_r).
  pose proof (len_nonneg (default [] (snd <$> m))) as Hnn. pose proof (wo_len (st_op st) S5) as Hl5.
  assert (wst st1) as W1.
  { constructor; simpl; try done.
    - rewrite moved_bytes_app, S1, Hms, Hm. unfold rest_from. rewrite <-(firstn_skipn (Z.to_nat (total (st_op st))) (take (Z.to_nat (total op')) D)).
      rewrite take_take, skipn_firstn_comm. f_equal; f_equal; lia.
    - unfold ms. destruct m as [[o b]|]; [|by rewrite app_nil_r]. destruct (P5 o b eq_refl) as [-> Hb]. rewrite S3.
      replace (total (st_op st)) with (len (moved_bytes (st_moved st))); [by apply contiguous_snoc|].
      rewrite S1. unfold len. rewrite length_take. unfold len in Hlt. lia.
    - split; congruence.
    - eapply Forall_impl; [exact S6|]. intros c (k & Hk & Hck). exists k. split; [lia|done]. }
  split; [done|]. split.
  - intros Hx. destruct (P7 Hx) as [Hne _]. rewrite (wo_length _ S5) in Hne. pose proof (wo_total op' W'). lia.
  - intros Hx. specialize (P8 Hx). split; [done|]. split; [done|]. split; [by apply Hroom'|]. simpl. rewrite P4, P8. simpl. change (len []) with 0. split; [lia|done].
Qed.

Lemma wlive_delivered st flags stopped : wlive st -> DOP_DONE flags = false ->
  let st' := delivered st (_dispatch_operation_deliver_data (st_op st) flags stopped) in
  wlive st' /\ room (st_op st') /\ total (st_op st') = total (st_op st).
Proof. intros (W & Hf & Hn) Hfl. destruct (wst_delivered st flags stopped W) as (A & B & C & F). split; [|done]. split; [done|]. split; [done|]. by apply F. Qed.

Lemma write_op_perform st E stopped : 0 < chunk -> env_fits DOP_DIR_WRITE E -> wready st ->
  exists st', op_perform chunk E stopped st = Done st' /\ (wready st' \/ wdone st').
Proof.
  intros Hc HE Hr. destruct (write_performed st E Hc HE Hr) as (r & op' & m & Ep & L1 & Hmore & Hwait).
  unfold op_perform. rewrite Ep. cbv beta iota delta [mbind outcome_bind]. set (st1 := mkOpState op' _ _ _) in *.
  assert (forall s, wlive s -> wdone (finish s stopped)) as Hfin by (intros s (? & ? & ?); by apply wdone_finish).
  eexists. split; [done|]. destruct r.
  - right. by apply Hfin.
  - left. destruct (wlive_delivered st1 DOP_DEFAULT stopped L1 eq_refl) as ((A & A' & A'') & B & C). split; [done|]. split; [done|]. split; [done|].
    simpl in C |- *. rewrite C. split; [by apply Hmore|done].
  - right. apply Hfin. by apply (wlive_delivered st1).
  - right. by apply Hfin.
  - left. by apply Hwait; left.
  - right. by apply Hfin.
  - left. by apply Hwait; right.
Qed.

Lemma write_step st ev : 0 < chunk -> event_fits DOP_DIR_WRITE ev -> wready st \/ wdone st ->
  exists st', op_step chunk ev st = Done st' /\ (wready st' \/ wdone st').
Proof.
  intros Hc He [Hr|Hd]; unfold op_step; [|rewrite (proj1 (proj2 Hd)); exists st; by split; [|right]].
  pose proof Hr as (W & Hf & Hroom & Hlt & Hnd). rewrite Hf.
  assert (forall fl stopped, DOP_DONE fl = false -> wready (delivered st (_dispatch_operation_deliver_data (st_op st) fl stopped))) as Hdel.
  { intros fl stopped Hfl. destruct (wst_delivered st fl stopped W) as (A & B & C & F). split; [done|]. split; [done|]. split; [done|]. rewrite C. split; [done|by apply F]. }
  destruct ev as [E stopped|active stopped|stopped|stopped].
  - by apply write_op_perform.
  - unfold operation_timer. eexists. split; [done|]. left. destruct (active && _); [|by apply Hdel].
    destruct W as [S1 S2 S3 [W1 W2 W3 W4 W5 W6 W7 W8 W9] S6]. split; [|by simpl; rewrite app_nil_r]. constructor; simpl; rewrite ?app_nil_r; done.
  - eexists. split; [done|]. left. by apply Hdel.
  - eexists. split; [done|]. right. by apply wdone_finish.
Qed.

(** The calls that a step adds get the data that is not written after it. *)
Definition calls_added (ok : Prop) (st st' : op_state) : Prop :=
  exists cs, st_calls st' = st_calls st ++ cs /\ Forall (write_call (total (st_op st'))) cs /\
    Forall (fun c => hc_done c = true -> hc_err c = 0 -> ok) cs.

Lemma calls_added_same ok st st' : st_calls st' = st_calls st -> calls_added ok st st'.
Proof. intros E. exists []. by rewrite app_nil_r. Qed.

Lemma calls_added_trans (ok : Prop) st st1 st2 : calls_added ok st st1 -> calls_added ok st1 st2 -> total (st_op st2) = total (st_op st1) -> calls_added ok st st2.
Proof.
  intros (c1 & E1 & H1 & K1) (c2 & E2 & H2 & K2) Et. exists (c1 ++ c2). rewrite E2, E1, app_assoc. split; [done|]. rewrite Et in *.
  split; by apply Forall_app.
Qed.

Lemma calls_added_delivered (ok : Prop) st flags stopped : wop (st_op st) -> DOP_DONE flags = false ->
  calls_added ok st (delivered st (_dispatch_operation_deliver_data (st_op st) flags stopped)).
Proof.
  intros W Hf. pose proof (write_deliver (st_op st) flags stopped W) as Hd. destruct (_dispatch_operation_deliver_data _ _ _) as [op' cs].
  destruct Hd as (_ & _ & Ht & _ & _ & Hc & Hn & _). exists cs. simpl. rewrite Ht. split_and!; try done.
  eapply Forall_impl; [by apply Hn|]. simpl. by intros c ->.
Qed.

Lemma calls_added_finish (ok : Prop) st stopped : wop (st_op st) -> (op_err (st_op st) = 0 -> stopped = false -> ok) ->
  calls_added ok st (finish st stopped) /\ total (st_op (finish st stopped)) = total (st_op st).
Proof.
  intros W Hok. unfold finish, _dispatch_operation_dispose.
  pose proof (write_deliver (st_op st) {| DOP_DELIVER := false; DOP_DONE := true; DOP_NO_EMPTY := false |} stopped W) as Hd.
  destruct (_dispatch_operation_deliver_data _ _ _) as [op' cs]. destruct Hd as (_ & _ & Ht & _ & _ & Hc & _ & _ & Hs). split; [|done].
  exists cs. simpl. rewrite Ht. split_and!; try done. eapply Forall_impl; [exact Hs|]. simpl. intros c H1 H2 H3. destruct (H1 H2 H3). by apply Hok.
Qed.

(** When an operation may end with no error: everything is written, the kernel took nothing,
    or it is cleaned up and its channel is not stopped. *)
Definition short_end (ev : op_event) : Prop :=
  match ev with EvPerform E _ => took_nothing E | EvCleanup stopped => stopped = false | _ => False end.

Lemma write_calls_added st ev st' : 0 < chunk -> event_fits DOP_DIR_WRITE ev -> wready st \/ wdone st -> op_step chunk ev st = Done st' ->
  calls_added (total (st_op st') = len D \/ short_end ev) st st'.
Proof.
  intros Hc He [Hr|Hd]; unfold op_step; [|rewrite (proj1 (proj2 Hd)); intros [= <-]; by apply calls_added_same].
  pose proof Hr as (W & Hf & Hroom & Hlt & Hnd). pose proof (ws_wop _ W) as Wo. rewrite Hf. destruct ev as [E stopped|active stopped|stopped|stopped].
  - unfold op_perform. destruct (write_performed st E Hc He Hr) as (r & op' & m & Ep & L1 & _). rewrite Ep. cbv beta iota delta [mbind outcome_bind].
    pose proof (write_perform_ends chunk E (st_op st) r op' m Hc He Wo Hroom Hlt Ep) as Hend. set (st1 := mkOpState op' _ _ _) in *.
    assert (forall ok, calls_added ok st st1) as H1 by (intros ok; by apply calls_added_same). destruct L1 as (W1 & _). pose proof (ws_wop _ W1) as Wo1.
    assert (forall s, wop (st_op s) -> total (st_op s) = total op' -> (forall ok, calls_added ok st s) -> r <> OP_DELIVER -> r <> OP_RESUME ->
      (r = OP_DELIVER_AND_COMPLETE \/ s = st1) -> calls_added (total (st_op (finish s stopped)) = len D \/ took_nothing E) st (finish s stopped)) as Hfin.
    { intros s Ws Hts Hadd Hn1 Hn2 Hs. assert (op_err (st_op s) = 0 -> stopped = false -> total (st_op s) = len D \/ took_nothing E) as Hok.
      { intros H0 _. rewrite Hts. destruct Hend as [?|[?|[[Hn3 Hend]|?]]]; [done..| |by right]. destruct Hs as [?| ->]; [done|].
        destruct Hend; [done|by left]. }
      destruct (calls_added_finish _ s stopped Ws Hok) as [Ha Ht]. rewrite Ht. by apply (calls_added_trans _ st s). }
    intros [= <-]. destruct r; try (apply Hfin; by auto).
    + eapply calls_added_trans; [apply H1|by apply calls_added_delivered|]. by apply (wst_delivered st1 DOP_DEFAULT stopped W1).
    + set (fl := {| DOP_DELIVER := true; DOP_DONE := false; DOP_NO_EMPTY := true |}). destruct (wst_delivered st1 fl stopped W1) as (W2 & _ & Ht2 & _).
      apply Hfin; try done; [apply (ws_wop _ W2)| |by left].
      intros ok. eapply calls_added_trans; [apply H1|by apply calls_added_delivered|done].
    + apply H1.
    + apply H1.
  - unfold operation_timer. intros [= <-]. destruct (active && _); [by apply calls_added_same; simpl; rewrite app_nil_r|by apply calls_added_delivered].
  - intros [= <-]. by apply calls_added_delivered.
  - intros [= <-]. apply calls_added_finish; [done|]. intros _ Hs. by right.
Qed.

Lemma write_run evs st : 0 < chunk -> Forall (event_fits DOP_DIR_WRITE) evs -> wready st \/ wdone st ->
  exists st', op_run chunk evs st = Done st' /\ (wready st' \/ wdone st').
Proof.
  intros Hc. revert st. induction evs as [|ev evs IH]; intros st He Hst; [by exists st|]. apply Forall_cons in He as [He Hes].
  destruct (write_step st ev Hc He Hst) as (st1 & E1 & H1). simpl. rewrite E1. simpl. by apply IH.
Qed.
End write.

Lemma write_start p off d op : params_ok p -> full d -> _dispatch_operation_create DOP_DIR_WRITE 0 p off (data_size d) d = inl op ->
  wready (concat d) p off (mkOpState op [] [] false).
Proof.
  unfold _dispatch_operation_create. intros Hp Hd. destruct (decide _) as [|Hnz]; [done|]. intros [= <-]. pose proof (data_size_nonneg d). unfold data_size in *.
  split; [|split; [done|split; [by intros b|split; [simpl; lia|constructor]]]].
  constructor; simpl; try done.
Qed.

(** C14: A write operation, whatever happens to it (attempts that write a part, would block or
    fail, timers, initial delivery, stop of the channel, cleanup), with a kernel that writes at
    most what it was given: no assertion fails; the bytes written are a prefix of the data, in
    order, at consecutive offsets; [done] is given in one call, the last, when the operation
    has finished.  Each event of the run adds calls that get exactly the data that is not
    written after that event; only the call with [done] and no error gets [NULL] instead.
    That call means that everything is written, or that the kernel took no byte, or that the
    operation was cleaned up with its channel not stopped. *)
Theorem io_write_exact (chunk : Z) (p : dispatch_io_param_s) (off : Z) (d : list (list Z)) (op : operation) (evs : list op_event) :
  0 < chunk -> params_ok p -> full d -> _dispatch_operation_create DOP_DIR_WRITE 0 p off (data_size d) d = inl op -> Forall (event_fits DOP_DIR_WRITE) evs ->
  let st0 := mkOpState op [] [] false in
  let written st := len (moved_bytes (st_moved st)) in
  (exists st, op_run chunk evs st0 = Done st /\
    moved_bytes (st_moved st) = take (Z.to_nat (written st)) (concat d) /\ contiguous off (st_moved st) /\
    (if st_finished st then exists cs c, st_calls st = cs ++ [c] /\ hc_done c = true /\ Forall (fun c => hc_done c = false) cs
     else Forall (fun c => hc_done c = false) (st_calls st))) /\
  (forall n ev st1 st2, evs !! n = Some ev -> op_run chunk (take n evs) st0 = Done st1 -> op_step chunk ev st1 = Done st2 ->
    exists cs, st_calls st2 = st_calls st1 ++ cs /\ Forall (write_call (concat d) (written st2)) cs /\
      Forall (fun c => hc_done c = true -> hc_err c = 0 -> written st2 = len (concat d) \/ short_end ev) cs).
Proof.
  intros Hc Hp Hd Ho He st0 written. pose proof (write_start p off d op Hp Hd Ho) as Hs.
  assert (forall st, wready (concat d) p off st \/ wdone (concat d) p off st -> wst (concat d) p off st /\ total (st_op st) = written st) as Hw.
  { intros st Hst. assert (wst (concat d) p off st) as W by (destruct Hst as [[W _]|[W _]]; exact W). split; [done|]. pose proof (ws_wop _ _ _ _ W) as S5.
    unfold written. rewrite (ws_moved _ _ _ _ W). unfold len. rewrite length_take. pose proof (wo_total _ _ S5). pose proof (wo_len _ _ S5). unfold len in *. lia. }
  split.
  - destruct (write_run (concat d) chunk p off evs _ Hc He (or_introl Hs)) as (st & Er & Hst). exists st. split; [done|]. destruct (Hw st Hst) as [W Ht].
    split; [rewrite <-Ht; apply W|]. split; [apply W|]. destruct Hst as [(_ & -> & _ & _ & Hn)|(_ & -> & cs & c & ? & ? & ? & _)]; [done|]. by exists cs, c.
  - intros n ev st1 st2 Hn H1 H2. destruct (write_run (concat d) chunk p off (take n evs) _ Hc (Forall_take _ _ _ He) (or_introl Hs)) as (st & Er & Hst).
    fold st0 in Er. rewrite H1 in Er. injection Er as <-. pose proof (Forall_lookup_1 _ _ _ _ He Hn) as Hev.
    destruct (write_step (concat d) chunk p off st1 ev Hc Hev Hst) as (st2' & E2 & Hst2). rewrite H2 in E2. injection E2 as <-.
    destruct (Hw st2 Hst2) as [_ <-]. by apply (write_calls_added (concat d) chunk p off).
Qed.

(** ** A write of two regions *)

(** A kernel that writes [k] bytes, or what it was given if that is less. *)
Definition accept (k : Z) : perform_env :=
  {| pe_error := 0; pe_memalign := 0; pe_open := 0; pe_disk := false; pe_convenience := false; pe_answer := fun _ n => IoWrote (Z.min k n) |}.
Lemma accept_fits k : 0 <= k -> env_fits DOP_DIR_WRITE (accept k).
Proof. intros Hk. constructor; [|done]. intros off n Hn. simpl. split; [done|lia]. Qed.

Definition two_regions : list (list Z) := [[1; 2; 3]; [4; 5; 6; 7]].
Definition two_write : operation := mkOp DOP_DIR_WRITE small_params 0 7 0 0 None 0 0 two_regions 0 false.
Definition two_events : list op_event := [EvPerform (accept 2) false; EvPerform (accept 9) false; EvCleanup true].

(** The second attempt writes the third byte; the cleanup of the stopped channel returns the
    four bytes of the second region. *)
Lemma io_write_exact_witness : exists st1 st2 c, op_run 4096 (take 2 two_events) (mkOpState two_write [] [] false) = Done st1 /\
  op_step 4096 (EvCleanup true) st1 = Done st2 /\ st_calls st2 = st_calls st1 ++ [c] /\
  moved_bytes (st_moved st2) = [1; 2; 3] /\ write_call (concat two_regions) 3 c /\ hc_err c = ECANCELED.
Proof.
  destruct (io_write_exact 4096 small_params 0 two_regions two_write two_events) as [_ H];
    [lia|apply small_params_ok|repeat constructor; done|reflexivity|repeat (apply Forall_cons; split; [first [exact I|apply accept_fits; lia]|]); by apply Forall_nil|].
  destruct (op_run 4096 (take 2 two_events) (mkOpState two_write [] [] false)) as [st1|] eqn:E1; [|by vm_compute in E1].
  destruct (op_step 4096 (EvCleanup true) st1) as [st2|] eqn:E2; [|by vm_compute in E1; injection E1 as <-].
  destruct (H 2%nat (EvCleanup true) st1 st2 eq_refl E1 E2) as (cs & Ec & Hc & _).
  assert (moved_bytes (st_moved st2) = [1; 2; 3] /\ (hc_err <$> cs) = [ECANCELED]) as [Hm He].
  { vm_compute in E1. injection E1 as <-. vm_compute in E2. injection E2 as <-. vm_compute in Ec. injection Ec as <-. by vm_compute. }
  destruct cs as [|c [|? ?]]; try done. injection He as He. apply Forall_cons in Hc as [Hc _]. rewrite Hm in Hc. exists st1, st2, c. by split_and!.
Defined.

(** The bytes of a buffer that is written in part count again for the next delivery: with a
    low water mark of 2, one byte written after a delivery is delivered at once. *)
Definition long_params : dispatch_io_param_s := {| io_kind := DISPATCH_IO_STREAM; low := 2; high := 100; interval := 0; strict_interval := false |}.
Definition long_write : operation := mkOp DOP_DIR_WRITE long_params 0 7 0 0 None 0 0 two_regions 0 false.

Lemma write_low_water_recounted : exists st, op_run 4096 [EvPerform (accept 2) false; EvPerform (accept 1) false] (mkOpState long_write [] [] false) = Done st /\
  hc_data <$> st_calls st = [Some [[3]; [4; 5; 6; 7]]; Some [[4; 5; 6; 7]]].
Proof. eexists. split; vm_compute; reflexivity. Qed.
