(* ===== verification/IoLogic.v ===== *)
(** * I/O operations: what streams rely on

    The interface between the operations and the queue of a stream: the states of an
    operation that can be performed, that is on its way, and that has ended, and what
    performing, delivering and finishing make of them. Reads and writes implement it. *)

From S2P Require Import Prelude Io IoRead IoWrite.

Local Open Scope word_scope.

Definition after_perform (st : op_state) (op : operation) (m : option (Z * list Z)) : op_state :=
  mkOpState op (st_calls st) (st_moved st ++ match m with Some m => [m] | None => [] end) (st_finished st).
Definition with_op_err (st : op_state) (e : Z) : op_state := mkOpState (with_err (st_op st) e) (st_calls st) (st_moved st) (st_finished st).
Definition deliver_st (st : op_state) (fl : op_flags) (stopped : bool) : op_state :=
  delivered st (_dispatch_operation_deliver_data (st_op st) fl stopped).

Class OpLogic (dir : op_direction) (chunk : Z) := {
  o_ready : op_state -> Prop;
  o_live : op_state -> Prop;
  o_done : op_state -> Prop;
  o_ready_live st : o_ready st -> o_live st;
  o_live_unfinished st : o_live st -> st_finished st = false;
  o_done_finished st : o_done st -> st_finished st = true;
  o_finish st stopped : o_live st -> o_done (finish st stopped);
  o_deliver st fl stopped : o_live st -> DOP_DONE fl = false -> o_live (deliver_st st fl stopped);
  o_deliver_ready st fl stopped : o_ready st -> DOP_DONE fl = false -> o_ready (deliver_st st fl stopped);
  o_err st e : o_ready st -> o_ready (with_op_err st e);
  o_perform st E : env_fits dir E -> o_ready st -> exists r op m, _dispatch_operation_perform chunk E (st_op st) = Done (r, op, m) /\
    o_live (after_perform st op m) /\
    (r = OP_DELIVER -> forall fl stopped, DOP_DONE fl = false -> o_ready (deliver_st (after_perform st op m) fl stopped)) /\
    (r = OP_RESUME \/ r = OP_FD_ERR -> o_ready (after_perform st op m));
}.

(** ** Reads *)

Section read.
Context (chunk : Z) (Hc : 0 < chunk).

(** The states of [IoRead], for some parameters. *)
Definition r_ready (st : op_state) : Prop := exists p off n, rready p off n st.
Definition r_live (st : op_state) : Prop := exists p off n, rlive p off n st.
Definition r_done (st : op_state) : Prop := exists p off n, rdone p off n st.

Lemma r_deliver_ready st fl stopped : r_ready st -> DOP_DONE fl = false -> r_ready (deliver_st st fl stopped).
Proof.
  intros (p & off & n & L & _ & Hn) Hf. destruct (rlive_delivered p off n st fl stopped L Hf) as (A & B & C). exists p, off, n. split; [done|]. split; [done|].
  unfold deliver_st. by rewrite C.
Qed.

Lemma r_perform st E : env_fits DOP_DIR_READ E -> r_ready st -> exists r op m, _dispatch_operation_perform chunk E (st_op st) = Done (r, op, m) /\
  r_live (after_perform st op m) /\
  (r = OP_DELIVER -> forall fl stopped, DOP_DONE fl = false -> r_ready (deliver_st (after_perform st op m) fl stopped)) /\
  (r = OP_RESUME \/ r = OP_FD_ERR -> r_ready (after_perform st op m)).
Proof.
  intros HE (p & off & n & Hr). destruct (rlive_performed chunk p off n st E Hc HE Hr) as (r & op' & m & Ep & L1 & Hd & Hw).
  exists r, op', m. split; [done|]. split; [by exists p, off, n|]. split; [|intros Hx; exists p, off, n; by apply Hw].
  intros Hx fl stopped Hf. exists p, off, n. destruct (rlive_delivered p off n _ fl stopped L1 Hf) as (A & B & C). split; [done|]. split; [done|].
  intros Ht. apply (Hd Hx). etransitivity; [symmetry; exact C|exact Ht].
Qed.
#[export, refine] Instance read_logic : OpLogic DOP_DIR_READ chunk := {| o_ready := r_ready; o_live := r_live; o_done := r_done |}.
Proof.
  - intros st (p & off & n & L & _). by exists p, off, n.
  - intros st (p & off & n & L). by destruct L.
  - intros st (p & off & n & _ & Hf & _). done.
  - intros st stopped (p & off & n & L). exists p, off, n. by apply rdone_finish.
  - intros st fl stopped (p & off & n & L) Hf. exists p, off, n. by apply rlive_delivered.
  - apply r_deliver_ready.
  - intros st e (p & off & n & [[R1 R2 R3 R4 R5 R6] Ro Rf Rc] & Hr & Hn). exists p, off, n. split; [|done].
    constructor; simpl; try done. by apply rop_err.
  - apply r_perform.
Defined.
End read.

(** ** Writes *)

Section write.
Context (chunk : Z) (Hc : 0 < chunk).

Definition w_ready (st : op_state) : Prop := exists D p off, wready D p off st.
Definition w_live (st : op_state) : Prop := exists D p off, wlive D p off st.
Definition w_done (st : op_state) : Prop := exists D p off, wdone D p off st.

Lemma w_deliver_ready st fl stopped : w_ready st -> DOP_DONE fl = false -> w_ready (deliver_st st fl stopped).
Proof.
  intros (D & p & off & W & Hfi & _ & Hlt & Hnd) Hf. destruct (wlive_delivered D p off st fl stopped) as ((A & A' & A'') & B & C); [done|done|].
  exists D, p, off. split; [done|]. split; [done|]. split; [done|]. split; [|done]. unfold deliver_st. by rewrite C.
Qed.

Lemma w_perform st E : env_fits DOP_DIR_WRITE E -> w_ready st -> exists r op m, _dispatch_operation_perform chunk E (st_op st) = Done (r, op, m) /\
  w_live (after_perform st op m) /\
  (r = OP_DELIVER -> forall fl stopped, DOP_DONE fl = false -> w_ready (deliver_st (after_perform st op m) fl stopped)) /\
  (r = OP_RESUME \/ r = OP_FD_ERR -> w_ready (after_perform st op m)).
Proof.
  intros HE (D & p & off & Hr). destruct (write_performed D chunk p off st E Hc HE Hr) as (r & op' & m & Ep & L1 & Hd & Hw).
  exists r, op', m. split; [done|]. split; [by exists D, p, off|]. split; [|intros Hx; exists D, p, off; by apply Hw].
  intros Hx fl stopped Hf. exists D, p, off. destruct (wlive_delivered D p off _ fl stopped L1 Hf) as ((A & A' & A'') & B & C). split; [done|]. split; [done|]. split; [done|].
  split; [|done]. eapply Z.le_lt_trans; [|exact (Hd Hx)]. apply Z.eq_le_incl. exact C.
Qed.

#[export, refine] Instance write_logic : OpLogic DOP_DIR_WRITE chunk := {| o_ready := w_ready; o_live := w_live; o_done := w_done |}.
Proof.
  - intros st (D & p & off & W & Hf & _ & _ & Hn). by exists D, p, off.
  - intros st (D & p & off & _ & Hf & _). done.
  - intros st (D & p & off & _ & Hf & _). done.
  - intros st stopped (D & p & off & W & _ & Hn). exists D, p, off. by apply wdone_finish.
  - intros st fl stopped (D & p & off & L) Hf. exists D, p, off. by apply wlive_delivered.
  - apply w_deliver_ready.
  - intros st e (D & p & off & [S1 S2 S3 S5 S6] & Hf & Hr & Hlt & Hn). exists D, p, off. split; [|done].
    constructor; simpl; try done. by apply wop_err.
  - apply w_perform.
Defined.
End write.

(** ** What deliveries and attempts leave alone *)

Lemma deliver_params op fl stopped : params (_dispatch_operation_deliver_data op fl stopped).1 = params op.
Proof.
  unfold _dispatch_operation_deliver_data. destruct (negb _ && _ && _); [done|]. cbv zeta.
  set (op1 := if _ && _ && stopped then _ else _). assert (params op1 = params op) as <- by (unfold op1; by destruct (_ && _ && stopped)). clearbody op1.
  destruct (direction op1).
  - destruct (decide (buf_len op1 <> 0)); cbv iota; by destruct (negb _ || _).
  - destruct (decide (buf op1 <> None /\ _)); cbv iota; by destruct (negb _ || _).
Qed.

Lemma finish_params st stopped : params (st_op (finish st stopped)) = params (st_op st) /\ st_moved (finish st stopped) = st_moved st.
Proof.
  unfold finish, _dispatch_operation_dispose. pose proof (deliver_params (st_op st) {| DOP_DELIVER := false; DOP_DONE := true; DOP_NO_EMPTY := false |} stopped) as H.
  by destruct (_dispatch_operation_deliver_data _ _ _).
Qed.

Lemma perform_error_params E err op r op' : perform_error E err op = Done (r, op') -> params op' = params op.
Proof. unfold perform_error. destruct (decide _); [destruct (pe_disk E); [done|]; destruct (decide _); by intros [= _ <-]|by intros [= _ <-]]. Qed.

Lemma perform_params chunk E op r op' m : _dispatch_operation_perform chunk E op = Done (r, op', m) -> params op' = params op.
Proof.
  unfold _dispatch_operation_perform.
  assert (forall err op1, ('(r0, op0) ← perform_error E err op1; Done (r0, op0, None : option (Z * list Z))) = Done (r, op', m) -> params op' = params op1) as Herr.
  { intros err op1 H. apply bind_Done in H as ([r0 op0] & He & Hr). injection Hr as <- <- <-. by apply perform_error_params in He. }
  destruct (decide (pe_error E <> 0)); [by apply Herr|]. intros H. apply bind_Done in H as ([op1 err] & He & H).
  assert (params op1 = params op) as <-.
  { unfold ensure_buf in He. destruct (buf op); [by injection He as <- <-|]. destruct (direction op); [|by injection He as <- <-].
    apply bind_Done in He as (siz & _ & He). destruct (decide _); by injection He as <- <-. }
  destruct (decide (err <> 0)); [by apply Herr in H|]. destruct (decide (pe_open E <> 0)); [by apply Herr in H|].
  assert (forall b b', perform_moved op1 b b' = Done (r, op', m) -> params op' = params op1) as Hm.
  { intros b b'. unfold perform_moved. destruct (decide _); by intros [= _ <- _]. }
  destruct (pe_answer E _ _); [by apply Hm in H|by apply Hm in H|by apply Herr in H].
Qed.
