(* ===== verification/IoStream.v ===== *)
(** * I/O streams

    Models the queue of a stream of [src/io.c]: [_dispatch_stream_enqueue_operation],
    [_dispatch_stream_pick_next_operation], [_dispatch_stream_complete_operation],
    [_dispatch_stream_cleanup_operations] and the handler [_dispatch_stream_handler], with the
    blocks that wait on the serial queue of the stream, the source of its descriptor and the
    channels that share the descriptor. *)

From S2P Require Import Prelude Io IoRead IoWrite.

Local Open Scope word_scope.

(** The blocks on the queue of a stream. *)
Inductive stream_block :=
| BEnqueue (op : nat)                           (* _dispatch_stream_enqueue_operation *)
| BHandler                                      (* _dispatch_stream_queue_handler *)
| BCleanup (channel : option nat).              (* _dispatch_stream_cleanup_operations *)

#[export] Instance stream_block_eq_dec : EqDecision stream_block.
Proof. solve_decision. Defined.

(** [s_source]: the suspend count of the source, once it is created. *)
Record io_stream := mkStream {
  s_ops : gmap nat (nat * op_state);            (* the channel and the state of each operation *)
  s_random : list nat;
  s_stream : list nat;
  s_op : option nat;
  s_source : option nat;
  source_running : bool;
  s_dq : list stream_block;
  s_channels : gmap nat io_channel;
  s_fd_err : Z;
}.

Definition with_ops s m := mkStream m (s_random s) (s_stream s) (s_op s) (s_source s) (source_running s) (s_dq s) (s_channels s) (s_fd_err s).
Definition with_lists s r t := mkStream (s_ops s) r t (s_op s) (s_source s) (source_running s) (s_dq s) (s_channels s) (s_fd_err s).
Definition with_cur s c := mkStream (s_ops s) (s_random s) (s_stream s) c (s_source s) (source_running s) (s_dq s) (s_channels s) (s_fd_err s).
Definition with_source s c r := mkStream (s_ops s) (s_random s) (s_stream s) (s_op s) c r (s_dq s) (s_channels s) (s_fd_err s).
Definition with_dq s q := mkStream (s_ops s) (s_random s) (s_stream s) (s_op s) (s_source s) (source_running s) q (s_channels s) (s_fd_err s).
Definition with_channels s m := mkStream (s_ops s) (s_random s) (s_stream s) (s_op s) (s_source s) (source_running s) (s_dq s) m (s_fd_err s).
Definition with_fd_err s e := mkStream (s_ops s) (s_random s) (s_stream s) (s_op s) (s_source s) (source_running s) (s_dq s) (s_channels s) e.

Definition open_channel : io_channel := {| dio_closed := false; dio_stopped := false; ch_err := 0 |}.
Definition channel_of (s : io_stream) (c : nat) : io_channel := default open_channel (s_channels s !! c).
Definition op_channel (s : io_stream) (i : nat) : nat := match s_ops s !! i with Some (c, _) => c | None => 0%nat end.
Definition op_type (s : io_stream) (i : nat) : io_type :=
  match s_ops s !! i with Some (_, st) => io_kind (params (st_op st)) | None => DISPATCH_IO_STREAM end.
Definition op_stopped (s : io_stream) (i : nat) : bool := dio_stopped (channel_of s (op_channel s i)).
(** [_dispatch_io_get_error(op, NULL, true)] *)
Definition op_error (s : io_stream) (i : nat) : Z := _dispatch_io_get_error (channel_of s (op_channel s i)) (Some (s_fd_err s)) true.

Definition update_op (s : io_stream) (i : nat) (f : op_state -> op_state) : io_stream :=
  match s_ops s !! i with Some (c, st) => with_ops s (<[i := (c, f st)]> (s_ops s)) | None => s end.
Definition set_op_err (s : io_stream) (i : nat) (err : Z) : io_stream :=
  update_op s i (fun st => mkOpState (with_err (st_op st) err) (st_calls st) (st_moved st) (st_finished st)).

Definition _dispatch_stream_operation_avail (s : io_stream) : bool :=
  negb (bool_decide (s_random s = [])) || negb (bool_decide (s_stream s = [])).

Definition dispatch_async_handler (s : io_stream) : io_stream := with_dq s (s_dq s ++ [BHandler]).

(** The last release of an operation delivers what is left. *)
Definition release_op (s : io_stream) (i : nat) : io_stream := update_op s i (fun st => finish st (op_stopped s i)).

Definition _dispatch_stream_enqueue_operation (s : io_stream) (i : nat) : io_stream :=
  let err := op_error s i in
  if decide (err <> 0) then release_op (set_op_err s i err) i
  else
    let no_ops := negb (_dispatch_stream_operation_avail s) in
    let s := match op_type s i with
             | DISPATCH_IO_RANDOM => with_lists s (s_random s ++ [i]) (s_stream s)
             | DISPATCH_IO_STREAM => with_lists s (s_random s) (s_stream s ++ [i]) end in
    if no_ops then dispatch_async_handler s else s.

Definition remove (i : nat) (l : list nat) : list nat := filter (fun j => j <> i) l.

Definition _dispatch_stream_complete_operation (s : io_stream) (i : nat) : io_stream :=
  let s := match op_type s i with
           | DISPATCH_IO_RANDOM => with_lists s (remove i (s_random s)) (s_stream s)
           | DISPATCH_IO_STREAM => with_lists s (s_random s) (remove i (s_stream s)) end in
  let s := if decide (s_op s = Some i) then with_cur s None else s in
  release_op s i.

(** TAILQ_NEXT *)
Fixpoint next_in (i : nat) (l : list nat) : option nat :=
  match l with [] => None | j :: l => if decide (j = i) then head l else next_in i l end.

Definition _dispatch_stream_pick_next_operation (s : io_stream) (op : option nat) : option nat :=
  match op with
  | None => match head (s_stream s) with Some i => Some i | None => head (s_random s) end
  | Some i =>
      match op_type s i with
      | DISPATCH_IO_STREAM => Some i
      | DISPATCH_IO_RANDOM => match next_in i (s_random s) with Some j => Some j | None => head (s_random s) end
      end
  end.

Definition cleanup_list (channel : option nat) (l : list nat) (s : io_stream) : io_stream :=
  foldl (fun s i => if match channel with None => true | Some c => bool_decide (op_channel s i = c) end
                    then _dispatch_stream_complete_operation s i else s) s l.

Definition _dispatch_stream_cleanup_operations (s : io_stream) (channel : option nat) : io_stream :=
  let s := cleanup_list channel (s_random s) s in
  let s := cleanup_list channel (s_stream s) s in
  if source_running s && negb (_dispatch_stream_operation_avail s)
  then with_source s (match s_source s with Some n => Some (S n) | None => None end) false
  else s.

(** [dispatch_resume] of the source, which is created inactive. *)
Definition resume_source (s : io_stream) : outcome io_stream :=
  match s_source s with
  | None => Done (with_source s (Some 0%nat) true)
  | Some (S n) => Done (with_source s (Some n) true)
  | Some 0%nat => Crash ClientCrash                (* over-resume *)
  end.

Definition stop_flag (s : io_stream) (c : nat) : io_stream :=
  let ch := channel_of s c in
  with_channels s (<[c := {| dio_closed := dio_closed ch; dio_stopped := true; ch_err := ch_err ch |}]> (s_channels s)).

(** What other threads do: submit an operation, stop a channel ([_dispatch_io_stop]), first its
    flag, later the cleanup of its operations. *)
Inductive other_event := OSubmit (i c : nat) (op : operation) | OStop (c : nat) | OCleanup (c : nat).

Definition other_step (s : io_stream) (o : other_event) : io_stream :=
  match o with
  | OSubmit i c op =>
      match s_ops s !! i with
      | Some _ => s
      | None => with_dq (with_ops s (<[i := (c, mkOpState op [] [] false)]> (s_ops s))) (s_dq s ++ [BEnqueue i])
      end
  | OStop c => stop_flag s c
  | OCleanup c => if dio_stopped (channel_of s c) then with_dq s (s_dq s ++ [BCleanup (Some c)]) else s
  end.

(** What one run of the handler meets: other threads before the operation is performed and
    while it is performed, and the system call. *)
Record handler_env := {
  he_before : list other_event;
  he_during : list other_event;
  he_initial : bool;                            (* dispatch_io_defaults.initial_delivery *)
  he_perform : perform_env;
}.

(** The loop from the label [pick]: it completes the operations that have an error. *)
Fixpoint stream_pick (fuel : nat) (s : io_stream) : io_stream * option nat :=
  match fuel with
  | O => (s, None)
  | S n =>
      match _dispatch_stream_pick_next_operation s (s_op s) with
      | None => (s, None)
      | Some i =>
          let err := op_error s i in
          if decide (err <> 0) then stream_pick n (_dispatch_stream_complete_operation (set_op_err s i err) i)
          else (with_cur s (Some i), Some i)
      end
  end.

Section handler.
Context (chunk_size : Z).

(** The switch over the result of the operation [i]. *)
Definition stream_result (s : io_stream) (i : nat) (r : op_result) : outcome io_stream :=
  let deliver flags s := update_op s i (fun st => delivered st (_dispatch_operation_deliver_data (st_op st) flags (op_stopped s i))) in
  let again s := if _dispatch_stream_operation_avail s then dispatch_async_handler s else s in
  let resume s := if _dispatch_stream_operation_avail s then resume_source s else Done s in
  match r with
  | OP_DELIVER => Done (again (deliver DOP_DEFAULT s))
  | OP_DELIVER_AND_COMPLETE =>
      Done (again (_dispatch_stream_complete_operation (deliver {| DOP_DELIVER := true; DOP_DONE := false; DOP_NO_EMPTY := true |} s) i))
  | OP_COMPLETE => Done (again (_dispatch_stream_complete_operation s i))
  | OP_COMPLETE_RESUME => resume (_dispatch_stream_complete_operation s i)
  | OP_RESUME => resume s
  | OP_ERR => Done (_dispatch_stream_cleanup_operations s (Some (op_channel s i)))
  | OP_FD_ERR => Done (with_fd_err (with_dq s (s_dq s ++ [BCleanup None])) (if decide (s_fd_err s = 0) then EBADF else s_fd_err s))
  end.

Definition _dispatch_stream_handler (E : handler_env) (s : io_stream) : outcome io_stream :=
  let '(s, op) := stream_pick (S (length (s_random s) + length (s_stream s))) s in
  match op with
  | None => Done s
  | Some i =>
      let s := foldl other_step s (he_before E) in
      let s := update_op s i (fun st =>
        if he_initial E && bool_decide (total (st_op st) = 0)
        then delivered st (_dispatch_operation_deliver_data (st_op st) {| DOP_DELIVER := true; DOP_DONE := false; DOP_NO_EMPTY := false |} (op_stopped s i))
        else st) in
      match s_ops s !! i with
      | None => Crash InvalidAccess
      | Some (c, st) =>
          let P := {| pe_error := op_error s i; pe_memalign := pe_memalign (he_perform E); pe_open := pe_open (he_perform E);
                      pe_disk := false; pe_convenience := pe_convenience (he_perform E); pe_answer := pe_answer (he_perform E) |} in
          '(r, op, m) ← _dispatch_operation_perform chunk_size P (st_op st);
          let s := with_ops s (<[i := (c, mkOpState op (st_calls st) (st_moved st ++ match m with Some m => [m] | None => [] end) (st_finished st))]> (s_ops s)) in
          stream_result (foldl other_step s (he_during E)) i r
      end
  end.

Definition _dispatch_stream_source_handler (E : handler_env) (s : io_stream) : outcome io_stream :=
  _dispatch_stream_handler E (with_source s (match s_source s with Some n => Some (S n) | None => None end) false).

(** The next block of the queue. *)
Definition run_block (E : handler_env) (s : io_stream) : outcome io_stream :=
  match s_dq s with
  | [] => Done s
  | b :: q =>
      let s := with_dq s q in
      match b with
      | BEnqueue i => Done (_dispatch_stream_enqueue_operation s i)
      | BHandler => _dispatch_stream_handler E s
      | BCleanup c => Done (_dispatch_stream_cleanup_operations s c)
      end
  end.

(** What happens to a stream: a block of its queue runs, its source or the timer of an
    operation fires, or other threads act. *)
Inductive stream_event :=
| SeBlock (E : handler_env)
| SeSource (E : handler_env)
| SeTimer (i : nat)
| SeOther (o : other_event).

Definition stream_step (ev : stream_event) (s : io_stream) : outcome io_stream :=
  match ev with
  | SeBlock E => run_block E s
  | SeSource E => if source_running s then _dispatch_stream_source_handler E s else Done s
  | SeTimer i => Done (update_op s i (fun st => if st_finished st then st else delivered st (operation_timer (st_op st) false (op_stopped s i))))
  | SeOther o => Done (other_step s o)
  end.

Fixpoint stream_run (evs : list stream_event) (s : io_stream) : outcome io_stream :=
  match evs with [] => Done s | ev :: evs => s ← stream_step ev s; stream_run evs s end.
End handler.

Definition stream_init : io_stream := mkStream ∅ [] [] None None false [] ∅ 0.

(** ** Defects *)

Definition sample_params : dispatch_io_param_s := {| io_kind := DISPATCH_IO_STREAM; low := 0; high := SIZE_MAX; interval := 0; strict_interval := false |}.
Definition sample_read : operation := mkOp DOP_DIR_READ sample_params 0 10 0 0 None 0 0 [] 0 false.
Definition sample_write : operation := mkOp DOP_DIR_WRITE sample_params 0 3 0 0 None 0 0 [[1; 2; 3]] 0 false.
Definition sample_env (before during : list other_event) (a : io_answer) : handler_env :=
  {| he_before := before; he_during := during; he_initial := false;
     he_perform := {| pe_error := 0; pe_memalign := 0; pe_open := 0; pe_disk := false; pe_convenience := false; pe_answer := fun _ _ => a |} |}.
Definition idle_env : handler_env := sample_env [] [] (IoErr EAGAIN).

(** Two channels share a descriptor.  While an operation of the first is performed, the first
    channel is stopped and an operation is submitted to the second.  Its enqueueing finds no
    operations and asks for a second run of the handler; when both runs meet a descriptor
    that would block, the source is resumed twice. *)
Definition over_resume_events : list stream_event :=
  [SeOther (OSubmit 0 0 sample_read); SeBlock idle_env;
   SeBlock (sample_env [] [OStop 0; OCleanup 0; OSubmit 1 1 sample_read] (IoRead [7]));
   SeBlock idle_env; SeBlock idle_env; SeBlock idle_env; SeBlock idle_env].

Lemma stream_over_resume : stream_run 4096 over_resume_events stream_init = Crash ClientCrash.
Proof. vm_compute. reflexivity. Qed.

(** A channel is stopped after its operation was picked and before it is performed: its
    operations are cleaned up, and nobody asks for a run of the handler for the operation of
    the other channel, however often it is asked to go on. *)
Definition stall_events : list stream_event :=
  [SeOther (OSubmit 0 0 sample_read); SeOther (OSubmit 1 1 sample_read); SeBlock idle_env; SeBlock idle_env;
   SeBlock (sample_env [OStop 0] [] (IoErr EAGAIN)); SeOther (OSubmit 2 1 sample_read); SeBlock idle_env].

Lemma stream_stalls : exists s, stream_run 4096 stall_events stream_init = Done s /\
  s_stream s = [1%nat; 2%nat] /\ s_dq s = [] /\ source_running s = false.
Proof. eexists. split; [vm_compute; reflexivity|]. by vm_compute. Qed.

(** The descriptor turns out to be bad in the first operation: the write behind it ends with
    no error and no data, as if it had been written. *)
Definition bad_fd_events : list stream_event :=
  [SeOther (OSubmit 0 0 sample_write); SeOther (OSubmit 1 0 sample_write); SeBlock idle_env; SeBlock idle_env;
   SeBlock (sample_env [] [] (IoErr EBADF)); SeBlock idle_env].

Lemma bad_fd_reports_success : exists s st, stream_run 4096 bad_fd_events stream_init = Done s /\ s_ops s !! 1%nat = Some (0%nat, st) /\
  st_moved st = [] /\ st_calls st = [{| hc_done := true; hc_data := None; hc_err := 0 |}].
Proof. eexists _, _. split; [vm_compute; reflexivity|]. split; [vm_compute; reflexivity|]. by vm_compute. Qed.
