(* ===== verification/IoStreamInv.v ===== *)
(** * I/O streams: where the operations are

    Every operation of a stream is in one place: on its way to the stream, in one of its two
    lists, or ended; stream operations are performed one after the other. *)

From S2P Require Import Prelude Io IoRead IoWrite IoLogic IoStream.

Local Open Scope word_scope.

(** The operations that wait to be enqueued. *)
Definition enq (q : list stream_block) : list nat := omap (fun b => match b with BEnqueue i => Some i | _ => None end) q.
Definition places (s : io_stream) : list nat := enq (s_dq s) ++ s_random s ++ s_stream s.
Definition moved_of (s : io_stream) (i : nat) : list (Z * list Z) := match s_ops s !! i with Some (_, st) => st_moved st | None => [] end.

Lemma enq_app a b : enq (a ++ b) = enq a ++ enq b.
Proof. apply omap_app. Qed.

Lemma elem_of_places s i : i ∈ places s <-> i ∈ enq (s_dq s) \/ i ∈ s_random s \/ i ∈ s_stream s.
Proof. unfold places. rewrite !elem_of_app. tauto. Qed.

Lemma elem_of_remove i j l : i ∈ remove j l <-> i <> j /\ i ∈ l.
Proof. unfold remove. by rewrite list_elem_of_filter. Qed.

Lemma tail_sub {A} (l : list A) x : x ∈ tail l -> x ∈ l.
Proof. destruct l; [done|]. simpl. by right. Qed.

Lemma tail_remove i k l : k ∈ tail (remove i l) -> k ∈ tail l.
Proof.
  destruct l as [|j l]; [done|]. unfold remove. rewrite filter_cons. destruct (decide (j <> i)); simpl.
  - rewrite list_elem_of_filter. tauto.
  - intros H. apply tail_sub in H. by apply list_elem_of_filter in H as [_ H].
Qed.

Lemma head_remove i j l : j <> i -> head l = Some j -> head (remove i l) = Some j.
Proof. destruct l as [|k l]; [done|]. simpl. intros Hn [= ->]. unfold remove. by rewrite filter_cons_True. Qed.

(** What does not change when the state of an operation does. *)
Record same_stream (s s' : io_stream) : Prop := {
  sm_source : s_source s' = s_source s;
  sm_running : source_running s' = source_running s;
  sm_dq : s_dq s' = s_dq s;
  sm_channels : s_channels s' = s_channels s;
  sm_fd_err : s_fd_err s' = s_fd_err s;
}.
Lemma same_stream_trans s1 s2 s3 : same_stream s1 s2 -> same_stream s2 s3 -> same_stream s1 s3.
Proof. intros [] []. constructor; congruence. Qed.

Section struct.
Context {dir : op_direction} {chunk : Z} `{OpLogic dir chunk}.

(** The operation [x] may be on its way, every other one is ready. *)
Definition okst (x : option nat) (i : nat) (st : op_state) : Prop := if decide (x = Some i) then o_live st else o_ready st.

Lemma okst_live x i st : okst x i st -> o_live st.
Proof. unfold okst. destruct (decide _); [done|apply o_ready_live]. Qed.

Record struct (x : option nat) (s : io_stream) : Prop := {
  su_nodup : NoDup (places s);
  su_known : forall i, i ∈ places s -> exists st, s_ops s !! i = Some (0%nat, st) /\ okst x i st;
  su_ended : forall i c st, s_ops s !! i = Some (c, st) -> i ∉ places s -> c = 0%nat /\ o_done st;
  su_random : forall i, i ∈ s_random s -> op_type s i = DISPATCH_IO_RANDOM;
  su_stream : forall i, i ∈ s_stream s -> op_type s i = DISPATCH_IO_STREAM;
  su_cur : forall i, s_op s = Some i -> i ∈ s_random s \/ head (s_stream s) = Some i;
  su_serial : forall i, i ∈ enq (s_dq s) \/ i ∈ tail (s_stream s) -> moved_of s i = [];
}.

Lemma su_channel x s i : struct x s -> op_channel s i = 0%nat.
Proof.
  intros S. unfold op_channel. destruct (s_ops s !! i) as [[c st]|] eqn:E; [|done]. destruct (decide (i ∈ places s)) as [Hi|Hi].
  - destruct (su_known _ _ S i Hi) as (st' & E' & _). congruence.
  - by destruct (su_ended _ _ S i c st E Hi).
Qed.

(** Forgetting that an operation was on its way, when it has ended or is ready again. *)
Lemma struct_settle x s : struct x s -> (forall i st, x = Some i -> i ∈ places s -> s_ops s !! i = Some (0%nat, st) -> o_ready st) -> struct None s.
Proof.
  intros [S1 S2 S3 S4 S5 S6 S7] Hx. constructor; try done. intros i Hi. destruct (S2 i Hi) as (st & E & Ho). exists st. split; [done|]. unfold okst in *.
  destruct (decide (x = Some i)) as [->|]; [by apply (Hx i st)|]. by rewrite decide_False by done.
Qed.

(** A change of the state of one operation. *)
Lemma struct_update x x' s i f : struct x s -> i ∈ places s -> (x = None \/ x = Some i) -> (x' = None \/ x' = Some i) ->
  (forall st, s_ops s !! i = Some (0%nat, st) -> okst x i st -> okst x' i (f st) /\ params (st_op (f st)) = params (st_op st) /\
     (i ∈ enq (s_dq s) \/ i ∈ tail (s_stream s) -> st_moved (f st) = st_moved st)) ->
  struct x' (update_op s i f) /\ same_stream s (update_op s i f) /\ s_random (update_op s i f) = s_random s /\ s_stream (update_op s i f) = s_stream s.
Proof.
  intros S Hi Hx Hx' Hf. destruct (su_known _ _ S i Hi) as (st & E & Ho). destruct (Hf st E Ho) as (Ho' & Hp & Hm). unfold update_op. rewrite E.
  split; [|done]. destruct S as [S1 S2 S3 S4 S5 S6 S7].
  assert (forall j, op_type (with_ops s (<[i:=(0%nat, f st)]> (s_ops s))) j = op_type s j) as Ht.
  { intros j. unfold op_type. simpl. destruct (decide (i = j)) as [->|Hn]; [by rewrite lookup_insert_eq, E, Hp|by rewrite lookup_insert_ne]. }
  constructor; try done.
  - intros j Hj. simpl. destruct (decide (i = j)) as [<-|Hn]; [rewrite lookup_insert_eq; by exists (f st)|]. rewrite lookup_insert_ne by done.
    destruct (S2 j Hj) as (st2 & E2 & Ho2). exists st2. split; [done|]. unfold okst in *. rewrite decide_False in Ho2 by (destruct Hx; congruence).
    by rewrite decide_False by (destruct Hx'; congruence).
  - intros j c st2. simpl. destruct (decide (i = j)) as [<-|Hn]; [done|]. rewrite lookup_insert_ne by done. apply S3.
  - intros j Hj. rewrite Ht. by apply S4.
  - intros j Hj. rewrite Ht. by apply S5.
  - intros j Hj. unfold moved_of. simpl. destruct (decide (i = j)) as [<-|Hn]; [|rewrite lookup_insert_ne by done; by apply S7].
    rewrite lookup_insert_eq, Hm by done. specialize (S7 i Hj). unfold moved_of in S7. by rewrite E in S7.
Qed.

(** An operation that leaves its place ends. *)
Lemma struct_release x s0 s i : struct x s0 -> i ∈ places s0 -> s_ops s = s_ops s0 ->
  NoDup (places s) -> (forall j, j ∈ places s <-> j <> i /\ j ∈ places s0) ->
  (forall j, j ∈ s_random s -> j ∈ s_random s0) -> (forall j, j ∈ s_stream s -> j ∈ s_stream s0) ->
  (forall j, s_op s = Some j -> j ∈ s_random s \/ head (s_stream s) = Some j) ->
  (forall j, j ∈ enq (s_dq s) -> j ∈ enq (s_dq s0)) -> (forall j, j ∈ tail (s_stream s) -> j ∈ tail (s_stream s0)) ->
  struct x (release_op s i).
Proof.
  intros [S1 S2 S3 S4 S5 S6 S7] Hi Eo Hnd Hpl Hr Hs Hcur Henq Htl. destruct (S2 i Hi) as (st & E & Ho). unfold release_op, update_op. rewrite Eo, E.
  set (st' := finish st (op_stopped s i)). destruct (finish_params st (op_stopped s i)) as [Hp Hm]. fold st' in Hp, Hm.
  assert (forall j, op_type (with_ops s (<[i:=(0%nat, st')]> (s_ops s0))) j = op_type s0 j) as Ht.
  { intros j. unfold op_type. simpl. destruct (decide (i = j)) as [->|Hn]; [by rewrite lookup_insert_eq, E, Hp|by rewrite lookup_insert_ne]. }
  constructor; try done.
  - intros j Hj. apply Hpl in Hj as [Hn Hj]. simpl. rewrite lookup_insert_ne by done. by apply S2.
  - intros j c st2. simpl. destruct (decide (i = j)) as [<-|Hn].
    + rewrite lookup_insert_eq. intros [= <- <-] _. split; [done|]. apply o_finish. by apply (okst_live x i).
    + rewrite lookup_insert_ne by done. intros E2 Hj. apply (S3 j c st2 E2). intros Hj'. apply Hj. by apply Hpl.
  - intros j Hj. rewrite Ht. by apply S4, Hr.
  - intros j Hj. rewrite Ht. by apply S5, Hs.
  - intros j Hj. assert (moved_of s0 j = []) as Hz by (apply S7; destruct Hj as [Hj|Hj]; [left; by apply Henq|right; by apply Htl]).
    unfold moved_of in *. simpl. destruct (decide (i = j)) as [<-|Hn]; [rewrite lookup_insert_eq, Hm; by rewrite E in Hz|by rewrite lookup_insert_ne].
Qed.
Lemma release_frame s i : same_stream s (release_op s i) /\ s_random (release_op s i) = s_random s /\ s_stream (release_op s i) = s_stream s /\ s_op (release_op s i) = s_op s.
Proof. unfold release_op, update_op. by destruct (s_ops s !! i) as [[]|]. Qed.

Lemma NoDup_enq_split s : NoDup (places s) -> NoDup (s_random s) /\ NoDup (s_stream s) /\ (forall i, i ∈ s_random s -> i ∉ s_stream s) /\
  (forall i, i ∈ enq (s_dq s) -> i ∉ s_random s /\ i ∉ s_stream s) /\ NoDup (enq (s_dq s)).
Proof.
  unfold places. intros Hn. apply NoDup_app in Hn as (N1 & N2 & N3). apply NoDup_app in N3 as (N3 & N4 & N5). do 3 (split; [done|]). split; [|done].
  intros i Hi. specialize (N2 i Hi). rewrite elem_of_app in N2. tauto.
Qed.

Lemma struct_complete x s i : struct x s -> i ∈ s_random s \/ i ∈ s_stream s ->
  struct x (_dispatch_stream_complete_operation s i) /\ same_stream s (_dispatch_stream_complete_operation s i) /\
  s_random (_dispatch_stream_complete_operation s i) = remove i (s_random s) /\ s_stream (_dispatch_stream_complete_operation s i) = remove i (s_stream s).
Proof.
  intros S Hi. unfold _dispatch_stream_complete_operation.
  destruct (NoDup_enq_split s (su_nodup _ _ S)) as (N1 & N2 & N3 & N4 & N5).
  assert (forall l, i ∉ l -> remove i l = l) as Hrm by (intros l Hl; unfold remove; apply filter_all, Forall_forall; intros j Hj ->; done).
  set (s1 := match op_type s i with DISPATCH_IO_RANDOM => _ | _ => _ end).
  assert (s1 = with_lists s (remove i (s_random s)) (remove i (s_stream s))) as ->.
  { unfold s1. destruct Hi as [Hi|Hi].
    - rewrite (su_random _ _ S i Hi). by rewrite (Hrm (s_stream s)) by (by apply N3).
    - rewrite (su_stream _ _ S i Hi). by rewrite (Hrm (s_random s)) by (intros Hr; by apply (N3 i)). }
  set (s2 := if decide _ then _ else _).
  assert (s_ops s2 = s_ops s /\ same_stream s s2 /\ s_random s2 = remove i (s_random s) /\ s_stream s2 = remove i (s_stream s) /\
    (forall j, s_op s2 = Some j -> j <> i /\ s_op s = Some j)) as (Eo & F & Er & Es & Ec).
  { unfold s2. simpl. destruct (decide (s_op s = Some i)) as [E|E]; simpl; repeat split; try done. congruence. }
  clearbody s2. destruct (release_frame s2 i) as (F2 & Er2 & Es2 & _). split; [|split; [by apply (same_stream_trans _ s2)|split; congruence]].
  assert (forall j, j ∈ places s2 <-> j <> i /\ j ∈ places s) as Hpl.
  { intros j. rewrite !elem_of_places, Er, Es, (sm_dq _ _ F), !elem_of_remove. split; [|tauto]. intros [Hj|[?|?]]; [|tauto..]. split; [|tauto]. intros ->.
    destruct (N4 i Hj). tauto. }
  apply (struct_release x s); try done.
  - apply elem_of_places. tauto.
  - unfold places. rewrite Er, Es, (sm_dq _ _ F). apply NoDup_app. split; [done|]. split.
    + intros j Hj. destruct (N4 j Hj). rewrite elem_of_app, !elem_of_remove. tauto.
    + apply NoDup_app. split; [by apply NoDup_filter|]. split; [|by apply NoDup_filter]. intros j. rewrite !elem_of_remove. intros [_ Hj]. specialize (N3 j Hj). tauto.
  - intros j. rewrite Er, elem_of_remove. tauto.
  - intros j. rewrite Es, elem_of_remove. tauto.
  - intros j Hj. apply Ec in Hj as [Hn Hj]. rewrite Er, Es, elem_of_remove. destruct (su_cur _ _ S j Hj) as [?|?]; [by left|right; by apply head_remove].
  - intros j. by rewrite (sm_dq _ _ F).
  - intros j. rewrite Es. apply tail_remove.
Qed.

(** Cleaning up the only channel, or all of them, ends every operation. *)
Lemma struct_cleanup_list x s l ch : struct x s -> (ch = None \/ ch = Some 0%nat) -> NoDup l -> (forall i, i ∈ l -> i ∈ s_random s \/ i ∈ s_stream s) ->
  struct x (cleanup_list ch l s) /\ same_stream s (cleanup_list ch l s) /\ (forall i, i ∈ s_random (cleanup_list ch l s) <-> i ∉ l /\ i ∈ s_random s) /\
  (forall i, i ∈ s_stream (cleanup_list ch l s) <-> i ∉ l /\ i ∈ s_stream s).
Proof.
  intros S Hch. revert s S. induction l as [|j l IH]; intros s S Hn Hl.
  { split; [done|]. split; [done|]. split; intros i; split; try tauto; intros ?; (split; [apply not_elem_of_nil|done]). }
  apply NoDup_cons in Hn as [Hj Hn]. unfold cleanup_list. simpl. fold (cleanup_list ch l).
  assert (match ch with None => true | Some c => bool_decide (op_channel s j = c) end = true) as ->.
  { destruct Hch as [-> | ->]; [done|]. rewrite (su_channel x s j S). done. }
  destruct (struct_complete x s j S) as (S1 & F1 & Er & Es); [apply Hl; by left|]. set (s1 := _dispatch_stream_complete_operation s j) in *.
  destruct (IH s1 S1 Hn) as (S2 & F2 & Hr & Hs).
  { intros i Hi. rewrite Er, Es, !elem_of_remove. assert (i <> j) by (intros ->; done). destruct (Hl i); [by right|tauto..]. }
  split; [done|]. split; [by apply (same_stream_trans _ s1)|]. split; intros i; [rewrite Hr, Er|rewrite Hs, Es]; rewrite elem_of_remove, not_elem_of_cons; tauto.
Qed.

Lemma empty_list {A} (l : list A) : (forall i, i ∉ l) -> l = [].
Proof. destruct l as [|a l]; [done|]. intros Hl. exfalso. apply (Hl a). by left. Qed.

Lemma avail_false s : _dispatch_stream_operation_avail s = false <-> s_random s = [] /\ s_stream s = [].
Proof.
  unfold _dispatch_stream_operation_avail. rewrite orb_false_iff, !negb_false_iff, !bool_decide_eq_true. done.
Qed.

Lemma struct_cleanup x s ch : struct x s -> (ch = None \/ ch = Some 0%nat) -> (forall i, x = Some i -> i ∉ enq (s_dq s)) ->
  let s' := _dispatch_stream_cleanup_operations s ch in
  struct None s' /\ _dispatch_stream_operation_avail s' = false /\ s_dq s' = s_dq s /\ s_channels s' = s_channels s /\ s_fd_err s' = s_fd_err s /\
  source_running s' = false /\
  (s_source s' = if source_running s then match s_source s with Some n => Some (S n) | None => None end else s_source s).
Proof.
  intros S Hch Hx. unfold _dispatch_stream_cleanup_operations. destruct (NoDup_enq_split s (su_nodup _ _ S)) as (N1 & N2 & N3 & N4 & N5).
  destruct (struct_cleanup_list x s (s_random s) ch S Hch N1) as (S1 & F1 & Hr1 & Hs1); [by left|]. set (s1 := cleanup_list ch (s_random s) s) in *.
  destruct (NoDup_enq_split s1 (su_nodup _ _ S1)) as (_ & N2' & _ & _ & _).
  destruct (struct_cleanup_list x s1 (s_stream s1) ch S1 Hch N2') as (S2 & F2 & Hr2 & Hs2); [by right|]. set (s2 := cleanup_list ch (s_stream s1) s1) in *.
  assert (s_random s2 = []) as Er by (apply empty_list; intros i Hi; apply Hr2 in Hi as [_ Hi]; apply Hr1 in Hi as [Hi1 Hi2]; done).
  assert (s_stream s2 = []) as Es by (apply empty_list; intros i Hi; apply Hs2 in Hi as [Hi1 Hi2]; done).
  assert (_dispatch_stream_operation_avail s2 = false) as Ea by (by apply avail_false). cbv zeta. rewrite Ea. rewrite andb_true_r.
  pose proof (same_stream_trans _ _ _ F1 F2) as [G1 G2 G3 G4 G5].
  assert (struct None s2) as S3.
  { apply (struct_settle x); [done|]. intros i st -> Hi E. apply elem_of_places in Hi. rewrite Er, Es in Hi. destruct Hi as [Hi|[Hi|Hi]]; [|by apply not_elem_of_nil in Hi..].
    rewrite G3 in Hi. by specialize (Hx i eq_refl). }
  rewrite G2. destruct (source_running s) eqn:Erun; simpl; [|rewrite G2; done].
  split; [by destruct S3|]. split; [done|]. rewrite G1. done.
Qed.
End struct.
