(* ===== verification/IoStreamLive.v ===== *)
(** * I/O streams: nobody is forgotten

    A descriptor that one channel uses: in every run its operations are each in one place, the
    source is never resumed twice, and as long as there are operations somebody is about to
    work on them. *)

From S2P Require Import Prelude Io IoRead IoWrite IoLogic IoStream IoStreamInv.

Local Open Scope word_scope.

Lemma next_in_elem i l j : next_in i l = Some j -> j ∈ l.
Proof.
  induction l as [|k l IH]; simpl; [done|]. destruct (decide (k = i)); [|right; by apply IH]. destruct l; simpl; [done|]. intros [= ->]. right. by left.
Qed.

Lemma head_elem {A} (l : list A) x : head l = Some x -> x ∈ l.
Proof. destruct l; [done|]. intros [= ->]. by left. Qed.

Lemma length_remove i l : i ∈ l -> (length (remove i l) < length l)%nat.
Proof.
  induction l as [|k l IH]; intros Hi; [by apply not_elem_of_nil in Hi|]. unfold remove. rewrite filter_cons. destruct (decide (k <> i)) as [Hk|Hk]; simpl.
  - apply elem_of_cons in Hi as [->|Hi]; [done|]. specialize (IH Hi). unfold remove in IH. lia.
  - pose proof (length_filter (fun j => j <> i) l). lia.
Qed.

Lemma length_remove_le i l : (length (remove i l) <= length l)%nat.
Proof. apply length_filter. Qed.

Section live.
Context {dir : op_direction} {chunk : Z} `{OpLogic dir chunk}.

Lemma struct_set_err s i e : struct None s -> i ∈ places s ->
  struct None (set_op_err s i e) /\ same_stream s (set_op_err s i e) /\ s_random (set_op_err s i e) = s_random s /\ s_stream (set_op_err s i e) = s_stream s.
Proof.
  intros S Hi. unfold set_op_err. apply (struct_update None None); try tauto. intros st _ Ho. split; [|done]. by apply o_err.
Qed.

Lemma pick_next_spec s : struct None s -> match _dispatch_stream_pick_next_operation s (s_op s) with
  | None => _dispatch_stream_operation_avail s = false
  | Some i => i ∈ s_random s \/ head (s_stream s) = Some i end.
Proof.
  intros S. unfold _dispatch_stream_pick_next_operation. destruct (s_op s) as [i|] eqn:Eo.
  - pose proof (su_cur _ _ S i Eo) as Hi. destruct (op_type s i) eqn:Et.
    + right. destruct Hi as [Hi|Hi]; [rewrite (su_random _ _ S i Hi) in Et; done|done].
    + destruct Hi as [Hi|Hi]; [|apply head_elem in Hi; by rewrite (su_stream _ _ S i Hi) in Et].
      destruct (next_in i (s_random s)) as [j|] eqn:En; [left; by apply next_in_elem in En|].
      destruct (head (s_random s)) as [j|] eqn:Eh; [left; by apply head_elem|]. destruct (s_random s); [by apply not_elem_of_nil in Hi|done].
  - destruct (head (s_stream s)) as [i|] eqn:Es; [by right|]. destruct (head (s_random s)) as [i|] eqn:Er; [left; by apply head_elem|].
    apply avail_false. by destruct (s_random s), (s_stream s).
Qed.

Lemma head_or_elem s i : i ∈ s_random s \/ head (s_stream s) = Some i -> i ∈ s_random s \/ i ∈ s_stream s.
Proof. intros [?|?]; [by left|right; by apply head_elem]. Qed.

Lemma stream_pick_spec fuel s : struct None s -> (length (s_random s) + length (s_stream s) < fuel)%nat ->
  let '(s', o) := stream_pick fuel s in
  struct None s' /\ same_stream s s' /\
  match o with
  | None => _dispatch_stream_operation_avail s' = false
  | Some i => (i ∈ s_random s' \/ head (s_stream s') = Some i) /\ op_error s' i = 0
  end.
Proof.
  revert s. induction fuel as [|n IH]; intros s S Hf; [lia|]. simpl. pose proof (pick_next_spec s S) as Hp.
  destruct (_dispatch_stream_pick_next_operation s (s_op s)) as [i|]; [|done]. pose proof (head_or_elem s i Hp) as Hi.
  destruct (decide (op_error s i <> 0)) as [He|He].
  - destruct (struct_set_err s i (op_error s i) S) as (S1 & F1 & Er1 & Es1); [apply elem_of_places; tauto|]. set (s1 := set_op_err s i (op_error s i)) in *.
    destruct (struct_complete None s1 i S1) as (S2 & F2 & Er2 & Es2); [by rewrite Er1, Es1|]. set (s2 := _dispatch_stream_complete_operation s1 i) in *.
    specialize (IH s2 S2). destruct (stream_pick n s2) as [s' o]. destruct IH as (A & B & C).
    { rewrite Er2, Es2, Er1, Es1. pose proof (length_remove_le i (s_random s)). pose proof (length_remove_le i (s_stream s)).
      destruct Hi as [Hi|Hi]; apply length_remove in Hi; lia. }
    split; [done|]. split; [|done]. by do 2 (eapply same_stream_trans; [done|]).
  - split; [|split; [done|split; [done|]]].
    + destruct S as [S1 S2 S3 S4 S5 S6 S7]. constructor; try done. by intros j [= <-].
    + change (op_error (with_cur s (Some i)) i) with (op_error s i). lia.
Qed.

(** ** What others do *)

Definition other_ok (o : other_event) : Prop :=
  match o with
  | OSubmit i c op => c = 0%nat /\ o_ready (mkOpState op [] [] false)
  | OStop c | OCleanup c => c = 0%nat
  end.

Lemma okst_ready x i st : o_ready st -> okst x i st.
Proof. unfold okst. destruct (decide _); [apply o_ready_live|done]. Qed.

Lemma struct_other x s o : struct x s -> other_ok o -> struct x (other_step s o).
Proof.
  intros S Ho. destruct o as [i c op|c|c]; simpl in *.
  - destruct Ho as [-> Hr]. destruct (s_ops s !! i) as [?|] eqn:E; [done|]. destruct S as [S1 S2 S3 S4 S5 S6 S7].
    assert (i ∉ places s) as Hi by (intros Hi; destruct (S2 i Hi) as (? & ? & _); congruence).
    set (s' := with_dq _ _). assert (forall j, j ∈ places s' <-> j = i \/ j ∈ places s) as Hpl.
    { intros j. rewrite !elem_of_places. unfold s'. simpl. rewrite enq_app, elem_of_app. simpl. rewrite elem_of_cons, elem_of_nil. tauto. }
    assert (forall j, j <> i -> s_ops s' !! j = s_ops s !! j) as Hne by (intros j Hj; unfold s'; simpl; by rewrite lookup_insert_ne).
    assert (s_ops s' !! i = Some (0%nat, mkOpState op [] [] false)) as He by (unfold s'; simpl; by rewrite lookup_insert_eq).
    constructor.
    + unfold places. unfold s'. simpl. rewrite enq_app, <-app_assoc. simpl. rewrite <-Permutation_middle. apply NoDup_cons. done.
    + intros j Hj. apply Hpl in Hj as [->|Hj]; [eexists; split; [done|by apply okst_ready]|]. rewrite Hne by (intros ->; done). by apply S2.
    + intros j c st E2 Hj. rewrite Hpl in Hj. rewrite Hne in E2 by tauto. apply (S3 j c st E2). tauto.
    + intros j Hj. unfold op_type. rewrite Hne by (intros ->; apply Hi, elem_of_places; tauto). by apply S4.
    + intros j Hj. unfold op_type. rewrite Hne by (intros ->; apply Hi, elem_of_places; tauto). by apply S5.
    + done.
    + intros j Hj. unfold moved_of. destruct (decide (j = i)) as [->|Hn]; [by rewrite He|]. rewrite Hne by done. apply S7. destruct Hj as [Hj|Hj]; [|by right]. left.
      unfold s' in Hj. simpl in Hj. rewrite enq_app, elem_of_app in Hj. simpl in Hj. rewrite elem_of_cons, elem_of_nil in Hj. tauto.
  - by destruct S.
  - destruct (dio_stopped _); [|done]. destruct S as [S1 S2 S3 S4 S5 S6 S7].
    set (s' := with_dq _ _). assert (enq (s_dq s') = enq (s_dq s)) as Eq by (unfold s'; simpl; by rewrite enq_app, app_nil_r).
    assert (places s' = places s) as Ep by (unfold places; by rewrite Eq). constructor; rewrite ?Ep, ?Eq; done.
Qed.

Lemma struct_others x s os : struct x s -> Forall other_ok os -> struct x (foldl other_step s os).
Proof. revert s. induction os as [|o os IH]; intros s S Ho; [done|]. apply Forall_cons in Ho as [Ho Hos]. simpl. apply IH; [by apply struct_other|done]. Qed.

(** ** Enqueueing *)

Lemma struct_enqueue s i q : struct None s -> s_dq s = BEnqueue i :: q ->
  let s' := _dispatch_stream_enqueue_operation (with_dq s q) i in
  struct None s' /\ s_source s' = s_source s /\ source_running s' = source_running s /\ s_channels s' = s_channels s /\
  (if decide (op_error s i = 0) then _dispatch_stream_operation_avail s' = true /\ s_dq s' = q ++ (if _dispatch_stream_operation_avail s then [] else [BHandler])
   else s_dq s' = q /\ _dispatch_stream_operation_avail s' = _dispatch_stream_operation_avail s).
Proof.
  intros S Eq. assert (places s = i :: (enq q ++ s_random s ++ s_stream s)) as Ep by (unfold places; rewrite Eq; done).
  pose proof (su_nodup _ _ S) as Hn. rewrite Ep in Hn. apply NoDup_cons in Hn as [Hi Hn].
  assert (i ∈ places s) as Hip by (rewrite Ep; by left).
  unfold _dispatch_stream_enqueue_operation. change (op_error (with_dq s q) i) with (op_error s i).
  change (_dispatch_stream_operation_avail (with_dq s q)) with (_dispatch_stream_operation_avail s). change (op_type (with_dq s q) i) with (op_type s i).
  destruct (decide (op_error s i <> 0)) as [He|He]; cbv zeta.
  - rewrite (decide_False (P := op_error s i = 0)) by done. destruct (struct_set_err s i (op_error s i) S Hip) as (S1 & F1 & Er1 & Es1).
    assert (set_op_err (with_dq s q) i (op_error s i) = with_dq (set_op_err s i (op_error s i)) q) as ->
      by (unfold set_op_err, update_op; simpl; by destruct (s_ops s !! i) as [[]|]).
    set (s1 := set_op_err s i (op_error s i)) in *. destruct F1 as [G1 G2 G3 G4 G5].
    destruct (release_frame (with_dq s1 q) i) as ([K1 K2 K3 K4 K5] & Kr & Ks & _). assert (places s1 = places s) as Ep1 by (unfold places; by rewrite G3, Er1, Es1).
    split; [|rewrite K1, K2, K4, K3; unfold _dispatch_stream_operation_avail; rewrite Kr, Ks; simpl; rewrite G1, G2, G4, Er1, Es1; done].
    assert (forall j, j ∈ places (with_dq s1 q) <-> j <> i /\ j ∈ places s1) as Hpl.
    { intros j. rewrite Ep1, Ep, elem_of_cons, elem_of_places. simpl. rewrite Er1, Es1. rewrite !elem_of_app in Hi |- *. split; [|tauto]. intros Hj. split; [intros ->; tauto|tauto]. }
    apply (struct_release None s1); try done.
    + by rewrite Ep1.
    + unfold places. simpl. by rewrite Er1, Es1.
    + apply S1.
    + intros j Hj. simpl in Hj. rewrite G3, Eq. simpl. right. done.
  - rewrite (decide_True (P := op_error s i = 0)) by lia. destruct S as [S1 S2 S3 S4 S5 S6 S7]. destruct (S2 i Hip) as (st & Est & Ho).
    set (s1 := match op_type s i with DISPATCH_IO_RANDOM => _ | _ => _ end).
    assert (s_ops s1 = s_ops s /\ s_dq s1 = q /\ s_op s1 = s_op s /\ s_source s1 = s_source s /\ source_running s1 = source_running s /\ s_channels s1 = s_channels s) as (Eo & Edq & Ecu & Esr & Eru & Ech)
      by (unfold s1; by destruct (op_type s i)).
    assert (s_random s1 = s_random s ++ match op_type s i with DISPATCH_IO_STREAM => [] | DISPATCH_IO_RANDOM => [i] end /\ s_stream s1 = s_stream s ++ match op_type s i with DISPATCH_IO_STREAM => [i] | DISPATCH_IO_RANDOM => [] end) as [Er Es]
      by (unfold s1; destruct (op_type s i); simpl; rewrite ?app_nil_r; done).
    clearbody s1. assert (forall j, j ∈ places s1 <-> j ∈ places s) as Hpl.
    { intros j. rewrite Ep, elem_of_places, Er, Es, Edq, elem_of_cons, !elem_of_app. destruct (op_type s i); rewrite ?elem_of_cons, ?elem_of_nil; tauto. }
    assert (forall j, op_type s1 j = op_type s j) as Ht by (intros j; unfold op_type; by rewrite Eo).
    assert (struct None s1) as Hs1.
    { constructor.
      - unfold places. rewrite Edq, Er, Es. destruct (op_type s i); rewrite ?app_nil_r.
        + rewrite !app_assoc, (Permutation_app_comm _ [i]). simpl. rewrite <-app_assoc. by apply NoDup_cons.
        + rewrite <-app_assoc. simpl. rewrite app_assoc, <-Permutation_middle, <-app_assoc. by apply NoDup_cons.
      - intros j Hj. apply Hpl in Hj. rewrite Eo. by apply S2.
      - intros j c st2 E2 Hj. rewrite Hpl in Hj. rewrite Eo in E2. by apply (S3 j c st2).
      - intros j. rewrite Ht, Er, elem_of_app. destruct (op_type s i) eqn:Et; rewrite ?elem_of_cons, ?elem_of_nil; intros [Hj|Hj]; try (by apply S4); try done. destruct Hj as [->|[]]. done.
      - intros j. rewrite Ht, Es, elem_of_app. destruct (op_type s i) eqn:Et; rewrite ?elem_of_cons, ?elem_of_nil; intros [Hj|Hj]; try (by apply S5); try done. destruct Hj as [->|[]]. done.
      - intros j. rewrite Ecu, Er, Es. intros Hj. destruct (S6 j Hj) as [?|Hh]; [left; apply elem_of_app; by left|right]. by destruct (s_stream s).
      - intros j Hj. unfold moved_of. rewrite Eo. apply S7. rewrite Edq, Es in Hj. rewrite Eq. destruct Hj as [Hj|Hj]; [left; simpl; by right|].
        destruct (op_type s i); [|right; by rewrite app_nil_r in Hj]. destruct (s_stream s) as [|k l]; simpl in Hj; [by apply not_elem_of_nil in Hj|].
        apply elem_of_app in Hj as [Hj|Hj]; [right; done|left]. apply list_elem_of_singleton in Hj as ->. simpl. by left. }
    assert (_dispatch_stream_operation_avail s1 = true) as Ha.
    { apply not_false_is_true. intros Hf. apply avail_false in Hf as [Hf1 Hf2]. rewrite Er in Hf1. rewrite Es in Hf2. apply app_eq_nil in Hf1 as [_ Hf1]. apply app_eq_nil in Hf2 as [_ Hf2]. by destruct (op_type s i). }
    destruct (_dispatch_stream_operation_avail s) eqn:Eav; simpl.
    + rewrite Esr, Eru, Ech, Edq, app_nil_r. done.
    + split; [|rewrite Esr, Eru, Ech, Edq; done]. destruct Hs1 as [T1 T2 T3 T4 T5 T6 T7]. assert (places (dispatch_async_handler s1) = places s1) as Epp
        by (unfold places, dispatch_async_handler; simpl; by rewrite enq_app, app_nil_r).
      constructor; rewrite ?Epp; try done. intros j Hj. apply T7. simpl in Hj. rewrite enq_app, app_nil_r in Hj. done.
Qed.
End live.
