(* ===== verification/IoStreamRun.v ===== *)
(** * I/O streams: runs

    One request for work is enough: there is at most one run of the handler to come, by the
    queue or by the source, and there is one, or a cleanup, whenever there are operations. *)

From S2P Require Import Prelude Io IoRead IoWrite IoLogic IoStream IoStreamInv IoStreamLive.

Local Open Scope word_scope.

Definition handlers (q : list stream_block) : nat := length (filter (fun b => b = BHandler) q).
Definition nones (q : list stream_block) : nat := length (filter (fun b => b = BCleanup None) q).
(** The runs of the handler to come. *)
Definition tokens (s : io_stream) : nat := handlers (s_dq s) + (if source_running s then 1 else 0).
Definition stopped0 (s : io_stream) : bool := dio_stopped (channel_of s 0).

Lemma handlers_app a b : handlers (a ++ b) = (handlers a + handlers b)%nat.
Proof. unfold handlers. by rewrite filter_app, length_app. Qed.
Lemma nones_app a b : nones (a ++ b) = (nones a + nones b)%nat.
Proof. unfold nones. by rewrite filter_app, length_app. Qed.
Lemma nones_zero q : BCleanup None ∉ q -> nones q = 0%nat.
Proof. intros Hq. unfold nones. rewrite filter_none; [done|]. apply Forall_forall. intros b Hb ->. done. Qed.
Lemma nones_pos q : BCleanup None ∈ q -> (0 < nones q)%nat.
Proof.
  intros Hq. unfold nones. destruct (filter _ q) eqn:E; [|simpl; lia].
  assert (BCleanup None ∈ filter (fun b => b = BCleanup None) q) as Hx by (by apply list_elem_of_filter). rewrite E in Hx. by apply not_elem_of_nil in Hx.
Qed.

(** The source is resumed exactly while it runs. *)
Definition source_ok (s : io_stream) : Prop :=
  if source_running s then s_source s = Some 0%nat else s_source s = None \/ s_source s = Some 1%nat.

Record tok (s : io_stream) : Prop := {
  tk_one : (tokens s <= 1)%nat;
  tk_source : source_ok s;
  tk_live : _dispatch_stream_operation_avail s = true -> tokens s = 1%nat \/ exists c, BCleanup c ∈ s_dq s;
  tk_only : forall c, BCleanup (Some c) ∈ s_dq s -> c = 0%nat;
  tk_open : stopped0 s = false -> (forall c, BCleanup (Some c) ∉ s_dq s) /\ (nones (s_dq s) <= 1)%nat /\
    (tokens s = 1%nat -> _dispatch_stream_operation_avail s = true /\ BCleanup None ∉ s_dq s) /\
    (BCleanup None ∈ s_dq s -> _dispatch_stream_operation_avail s = true);
}.

(** While the handler runs. *)
Record mid (s : io_stream) : Prop := {
  md_zero : tokens s = 0%nat;
  md_source : source_running s = false /\ source_ok s;
  md_only : forall c, BCleanup (Some c) ∈ s_dq s -> c = 0%nat;
  md_open : stopped0 s = false -> forall c, BCleanup c ∉ s_dq s;
}.

Lemma mid_same s s' : same_stream s s' -> mid s -> mid s'.
Proof.
  intros [F1 F2 F3 F4 F5] [M1 M2 M3 M4]. unfold tokens, source_ok, stopped0, channel_of in *. constructor; unfold tokens, source_ok, stopped0, channel_of; rewrite ?F1, ?F2, ?F3, ?F4; done.
Qed.

(** What other threads change. *)
Section tokens.
Context {dir : op_direction} {chunk : Z} `{OpLogic dir chunk}.

Lemma other_frame s o : other_ok o -> let s' := other_step s o in
  (exists q, s_dq s' = s_dq s ++ q /\ handlers q = 0%nat /\ (forall c, BCleanup c ∈ q -> c = Some 0%nat /\ stopped0 s = true)) /\
  s_random s' = s_random s /\ s_stream s' = s_stream s /\ s_source s' = s_source s /\ source_running s' = source_running s /\
  (stopped0 s' = false -> stopped0 s = false) /\ (forall i x, s_ops s !! i = Some x -> s_ops s' !! i = Some x).
Proof.
  intros Ho. destruct o as [i c op|c|c]; simpl in *.
  - destruct (s_ops s !! i) as [x|] eqn:E; simpl.
    + split; [exists []; rewrite app_nil_r; split; [done|]; split; [done|]; intros c' Hc'; by apply not_elem_of_nil in Hc'|done].
    + split; [|repeat split; try done]. { exists [BEnqueue i]. split; [done|]. split; [done|]. intros c' Hc. apply list_elem_of_singleton in Hc. done. }
      intros j x Hj. rewrite lookup_insert_ne; [done|]. intros ->. congruence.
  - split; [exists []; rewrite app_nil_r; split; [done|]; split; [done|]; intros c' Hc'; by apply not_elem_of_nil in Hc'|]. repeat split; try done. rewrite Ho. unfold stopped0, channel_of. simpl.
    by rewrite lookup_insert_eq.
  - subst c. fold (stopped0 s). destruct (stopped0 s) eqn:Es; simpl.
    + split; [|repeat split; try done; intros Hs; by rewrite <-Es]. exists [BCleanup (Some 0%nat)]. split; [done|]. split; [done|]. intros c' Hc. apply list_elem_of_singleton in Hc as [= ->]. done.
    + split; [exists []; rewrite app_nil_r; split; [done|]; split; [done|]; intros c' Hc'; by apply not_elem_of_nil in Hc'|done].
Qed.

Lemma mid_others s os : Forall other_ok os -> mid s -> let s' := foldl other_step s os in
  mid s' /\ s_random s' = s_random s /\ s_stream s' = s_stream s /\ (forall i x, s_ops s !! i = Some x -> s_ops s' !! i = Some x).
Proof.
  revert s. induction os as [|o os IH]; intros s Ho M; [done|]. apply Forall_cons in Ho as [Ho Hos]. simpl.
  destruct (other_frame s o Ho) as ((q & Eq & Hh & Hc) & Er & Es & Esr & Eru & Est & Eop). set (s1 := other_step s o) in *.
  assert (mid s1) as M1.
  { destruct M as [M1 M2 M3 M4]. constructor.
    - unfold tokens in *. rewrite Eq, Eru, handlers_app. lia.
    - unfold source_ok in *. by rewrite Eru, Esr.
    - intros c. rewrite Eq, elem_of_app. intros [Hx|Hx]; [by apply M3|]. destruct (Hc _ Hx) as [[= ->] _]. done.
    - intros Hs c. rewrite Eq, elem_of_app. apply Est in Hs. intros [Hx|Hx]; [by apply (M4 Hs c)|]. destruct (Hc _ Hx) as [_ Hx2]. congruence. }
  destruct (IH s1 Hos M1) as (A & B & C & D). split; [done|]. split; [congruence|]. split; [congruence|]. intros i x Hi. by apply D, Eop.
Qed.

Lemma tok_other s o : other_ok o -> tok s -> tok (other_step s o).
Proof.
  intros Ho [T1 T2 T3 T4 T5]. destruct (other_frame s o Ho) as ((q & Eq & Hh & Hc) & Er & Es & Esr & Eru & Est & Eop). set (s1 := other_step s o) in *.
  assert (tokens s1 = tokens s) as Et by (unfold tokens; rewrite Eq, Eru, handlers_app; lia).
  assert (_dispatch_stream_operation_avail s1 = _dispatch_stream_operation_avail s) as Ea by (unfold _dispatch_stream_operation_avail; by rewrite Er, Es).
  constructor; rewrite ?Et, ?Ea.
  - done.
  - unfold source_ok in *. by rewrite Eru, Esr.
  - intros Hav. destruct (T3 Hav) as [?|[c Hx]]; [by left|right]. exists c. rewrite Eq. apply elem_of_app. by left.
  - intros c. rewrite Eq, elem_of_app. intros [Hx|Hx]; [by apply T4|]. destruct (Hc _ Hx) as [[= ->] _]. done.
  - intros Hs. apply Est in Hs. destruct (T5 Hs) as (A & B & C & D). assert (forall c, BCleanup c ∉ q) as Hq by (intros c Hx; destruct (Hc _ Hx) as [_ Hx2]; congruence).
    assert (BCleanup None ∈ s_dq s1 <-> BCleanup None ∈ s_dq s) as Hnn by (rewrite Eq, elem_of_app; specialize (Hq None); tauto).
    rewrite Hnn, Eq, nones_app, (nones_zero q) by done. split; [|split; [lia|done]]. intros c. rewrite elem_of_app. intros [Hx|Hx]; [by apply (A c)|by apply (Hq (Some c))].
Qed.
(** ** The handler *)

(** Parts of the state that say nothing about the operations. *)
Lemma struct_source x s c r : struct x s -> struct x (with_source s c r).
Proof. by intros [S1 S2 S3 S4 S5 S6 S7]; constructor. Qed.
Lemma struct_fd_err x s e : struct x s -> struct x (with_fd_err s e).
Proof. by intros [S1 S2 S3 S4 S5 S6 S7]; constructor. Qed.
Lemma struct_block x s b : struct x s -> enq [b] = [] -> struct x (with_dq s (s_dq s ++ [b])).
Proof.
  intros [S1 S2 S3 S4 S5 S6 S7] Hb. set (s' := with_dq _ _). assert (enq (s_dq s') = enq (s_dq s)) as Eq by (unfold s'; simpl; rewrite enq_app, Hb; apply app_nil_r).
  assert (places s' = places s) as Ep by (unfold places; by rewrite Eq). constructor; rewrite ?Ep, ?Eq; done.
Qed.

(** The ends of a run of the handler. *)
Lemma tok_quiet s : mid s -> _dispatch_stream_operation_avail s = false -> tok s.
Proof.
  intros [M1 [M2 M2'] M3 M4] Ha. constructor; try done; [lia|congruence|]. intros Hs. specialize (M4 Hs). split; [by intros c|].
  rewrite nones_zero by apply M4. split; [lia|]. split; [lia|]. intros Hx. by apply M4 in Hx.
Qed.

Lemma tok_again s : mid s -> struct None s ->
  tok (if _dispatch_stream_operation_avail s then dispatch_async_handler s else s) /\ struct None (if _dispatch_stream_operation_avail s then dispatch_async_handler s else s).
Proof.
  intros M S. destruct (_dispatch_stream_operation_avail s) eqn:Ea; [|split; [by apply tok_quiet|done]]. split; [|by apply struct_block].
  destruct M as [M1 [M2 M2'] M3 M4]. assert (tokens (dispatch_async_handler s) = 1%nat) as Et by (unfold tokens in *; simpl; rewrite M2 in *; rewrite handlers_app; simpl; change (handlers [BHandler]) with 1%nat; lia).
  assert (forall c, BCleanup c ∈ s_dq (dispatch_async_handler s) <-> BCleanup c ∈ s_dq s) as Hc by (intros c; simpl; rewrite elem_of_app, list_elem_of_singleton; naive_solver).
  constructor; rewrite ?Et; try done; [by left|intros c; rewrite Hc; apply M3|].
  intros Hs. change (stopped0 s = false) in Hs. specialize (M4 Hs). split; [intros c; by rewrite Hc|]. split; [|split].
  - rewrite nones_zero; [lia|]. by rewrite Hc.
  - intros _. split; [done|]. by rewrite Hc.
  - rewrite Hc. intros Hx. by apply M4 in Hx.
Qed.

Lemma tok_resume s : mid s -> struct None s ->
  exists s', (if _dispatch_stream_operation_avail s then resume_source s else Done s) = Done s' /\ tok s' /\ struct None s'.
Proof.
  intros M S. destruct (_dispatch_stream_operation_avail s) eqn:Ea; [|exists s; split; [done|]; split; [by apply tok_quiet|done]].
  destruct M as [M1 [M2 M2'] M3 M4]. unfold source_ok in M2'. rewrite M2 in M2'.
  assert (resume_source s = Done (with_source s (Some 0%nat) true)) as -> by (unfold resume_source; by destruct M2' as [-> | ->]).
  eexists. split; [done|]. split; [|by apply struct_source]. assert (tokens (with_source s (Some 0%nat) true) = 1%nat) as Et by (unfold tokens in *; simpl; rewrite M2 in M1; lia).
  constructor; rewrite ?Et; try done; [by left|]. intros Hs. change (stopped0 s = false) in Hs. specialize (M4 Hs). split; [by intros c|]. split; [rewrite nones_zero; [lia|done]|]. split; [done|]. intros Hx. by apply M4 in Hx.
Qed.

Lemma tok_fd_err s e : mid s -> _dispatch_stream_operation_avail s = true -> tok (with_fd_err (with_dq s (s_dq s ++ [BCleanup None])) e).
Proof.
  intros [M1 [M2 M2'] M3 M4] Ha. set (s' := with_fd_err _ e). assert (tokens s' = 0%nat) as Et by (unfold tokens in *; unfold s'; simpl; rewrite handlers_app; change (handlers [BCleanup None]) with 0%nat; lia).
  constructor; rewrite ?Et; try done; [lia| | |].
  - intros _. right. exists None. unfold s'. simpl. apply elem_of_app. right. by apply list_elem_of_singleton.
  - intros c. unfold s'. simpl. rewrite elem_of_app, list_elem_of_singleton. intros [Hx|Hx]; [by apply M3|done].
  - intros Hs. change (stopped0 s = false) in Hs. specialize (M4 Hs). unfold s'. simpl. rewrite nones_app, (nones_zero (s_dq s)) by done. change (nones [BCleanup None]) with 1%nat.
    split; [|split; [lia|split; [lia|done]]]. intros c. rewrite elem_of_app, list_elem_of_singleton. intros [Hx|Hx]; [by apply (M4 (Some c))|done].
Qed.

Lemma place_avail s i : i ∈ s_random s \/ head (s_stream s) = Some i -> _dispatch_stream_operation_avail s = true.
Proof. intros Hi. apply not_false_is_true. intros Hf. apply avail_false in Hf as [E1 E2]. rewrite E1, E2 in Hi. destruct Hi as [Hi|Hi]; [by apply not_elem_of_nil in Hi|done]. Qed.

(** The operation that is performed is neither waiting nor behind another. *)
Lemma current_moves x s i : struct x s -> i ∈ s_random s \/ head (s_stream s) = Some i -> ~ (i ∈ enq (s_dq s) \/ i ∈ tail (s_stream s)).
Proof.
  intros S Hi. destruct (NoDup_enq_split s (su_nodup _ _ S)) as (N1 & N2 & N3 & N4 & N5). intros [He|Ht].
  - destruct (N4 i He). apply head_or_elem in Hi. tauto.
  - destruct Hi as [Hi|Hi]; [by apply (N3 i Hi), tail_sub|]. destruct (s_stream s); [done|]. injection Hi as ->. apply NoDup_cons in N2. tauto.
Qed.

(** The result of the operation [i], whose state is [st]. *)
Lemma result_ok s i st r : struct (Some i) s -> mid s -> i ∈ s_random s \/ head (s_stream s) = Some i -> s_ops s !! i = Some (0%nat, st) ->
  (r = OP_DELIVER -> forall fl stopped, DOP_DONE fl = false -> o_ready (deliver_st st fl stopped)) -> (r = OP_RESUME \/ r = OP_FD_ERR -> o_ready st) ->
  exists s', stream_result s i r = Done s' /\ struct None s' /\ tok s'.
Proof.
  intros S M Hi Est Hd Hw. pose proof (head_or_elem s i Hi) as Hil. assert (i ∈ places s) as Hip by (apply elem_of_places; tauto).
  pose proof (current_moves _ _ _ S Hi) as Hcm.
  assert (forall s1, struct (Some i) s1 -> same_stream s s1 -> i ∈ s_random s1 \/ i ∈ s_stream s1 -> i ∉ enq (s_dq s1) ->
    struct None (_dispatch_stream_complete_operation s1 i) /\ mid (_dispatch_stream_complete_operation s1 i)) as Hcomp.
  { intros s1 S1 F1 Hi1 He1. destruct (struct_complete (Some i) s1 i S1 Hi1) as (S2 & F2 & Er2 & Es2). split; [|by apply (mid_same s); [eapply same_stream_trans|]].
    apply (struct_settle (Some i)); [done|]. intros j stj [= <-] Hj _. exfalso. apply elem_of_places in Hj. rewrite Er2, Es2, !elem_of_remove, (sm_dq _ _ F2) in Hj. tauto. }
  assert (struct None s -> struct None s) as _ by done. assert ((r = OP_RESUME \/ r = OP_FD_ERR) -> struct None s) as Hset.
  { intros Hr. apply (struct_settle (Some i)); [done|]. intros j stj [= <-] _ E. rewrite Est in E. injection E as <-. by apply Hw. }
  destruct r; unfold stream_result; cbv zeta.
  - destruct (Hcomp s S) as [S2 M2]; [done|done|tauto|]. eexists. split; [done|]. destruct (tok_again _ M2 S2). done.
  - destruct (struct_update (Some i) None s i (fun st => delivered st (_dispatch_operation_deliver_data (st_op st) DOP_DEFAULT (op_stopped s i)))) as (S1 & F1 & _); try tauto.
    { intros st' E' _. rewrite Est in E'. injection E' as <-. split; [unfold okst; rewrite decide_False by done; by apply Hd|]. split; [apply deliver_params|done]. }
    eexists. split; [done|]. destruct (tok_again _ (mid_same _ _ F1 M) S1). done.
  - destruct (struct_update (Some i) (Some i) s i (fun st => delivered st (_dispatch_operation_deliver_data (st_op st) {| DOP_DELIVER := true; DOP_DONE := false; DOP_NO_EMPTY := true |} (op_stopped s i))))
      as (S1 & F1 & Er1 & Es1); try tauto.
    { intros st' E' Ho. split; [unfold okst in *; rewrite decide_True in * by done; by apply o_deliver|]. split; [apply deliver_params|done]. }
    destruct (Hcomp _ S1 F1) as [S2 M2]; [by rewrite Er1, Es1|by rewrite (sm_dq _ _ F1); tauto|]. eexists. split; [done|]. destruct (tok_again _ M2 S2). done.
  - destruct (Hcomp s S) as [S2 M2]; [done|done|tauto|]. destruct (tok_resume _ M2 S2) as (s' & ? & ? & ?). by exists s'.
  - destruct (tok_resume s M (Hset (or_introl eq_refl))) as (s' & ? & ? & ?). by exists s'.
  - rewrite (su_channel _ s i S). destruct (struct_cleanup (Some i) s (Some 0%nat) S) as (S2 & Ha & Edq & Ech & Efd & Eru & Eso); [by right|intros j [= <-]; tauto|].
    set (s2 := _dispatch_stream_cleanup_operations s (Some 0%nat)) in *. eexists. split; [done|]. split; [done|]. apply tok_quiet; [|done].
    destruct M as [M1 [M2 M2'] M3 M4]. rewrite M2 in Eso. constructor; unfold tokens, source_ok, stopped0, channel_of in *; rewrite ?Edq, ?Eru, ?Ech, ?Eso; try done. rewrite M2 in *; done.
    rewrite M2 in M2'. done.
  - eexists. split; [done|]. split; [apply struct_fd_err, struct_block; [by apply Hset; right|done]|]. by apply tok_fd_err, (place_avail s i).
Qed.

Record henv_ok (E : handler_env) : Prop := {
  ho_before : Forall other_ok (he_before E);
  ho_during : Forall other_ok (he_during E);
  ho_perform : env_fits dir (he_perform E);
}.

Lemma handler_ok E s : henv_ok E -> struct None s -> mid s -> exists s', _dispatch_stream_handler chunk E s = Done s' /\ struct None s' /\ tok s'.
Proof.
  intros [Hb Hdu Hp] S M. unfold _dispatch_stream_handler.
  pose proof (stream_pick_spec (Datatypes.S (length (s_random s) + length (s_stream s))) s S ltac:(lia)) as Hpick.
  destruct (stream_pick _ s) as [s1 [i|]]; destruct Hpick as (S1 & F1 & Hpk); [|exists s1; split; [done|]; split; [done|by apply tok_quiet; [apply (mid_same s)|]]].
  destruct Hpk as [Hi _]. pose proof (mid_same _ _ F1 M) as M1.
  pose proof (struct_others None s1 _ S1 Hb) as S2. destruct (mid_others s1 _ Hb M1) as (M2 & Er2 & Es2 & _). set (s2 := foldl other_step s1 (he_before E)) in *.
  assert (i ∈ s_random s2 \/ head (s_stream s2) = Some i) as Hi2 by (by rewrite Er2, Es2). assert (i ∈ places s2) as Hip2 by (apply elem_of_places, or_intror, head_or_elem, Hi2).
  cbv zeta. match goal with |- context [update_op s2 i ?f] => destruct (struct_update None None s2 i f) as (S3 & F3 & Er3 & Es3); [done|done|by left|by left| |set (s3 := update_op s2 i f) in *] end.
  { intros st _ Ho. destruct (he_initial E && _); [|done]. split; [|split; [apply deliver_params|done]]. by apply o_deliver_ready. }
  pose proof (mid_same _ _ F3 M2) as M3. assert (i ∈ s_random s3 \/ head (s_stream s3) = Some i) as Hi3 by (by rewrite Er3, Es3).
  assert (i ∈ places s3) as Hip3 by (apply elem_of_places, or_intror, head_or_elem, Hi3). destruct (su_known _ _ S3 i Hip3) as (st & Est & Ho). rewrite Est.
  set (P := {| pe_error := _; pe_disk := false |}). assert (env_fits dir P) as HP.
  { destruct Hp as [Ha _]. constructor; [|done]. intros off n Hn. simpl. specialize (Ha off n Hn). by destruct (pe_answer (he_perform E) off n). }
  destruct (o_perform st P HP Ho) as (r & op & m & Ep & Hl & Hdel & Hwait). rewrite Ep. cbv beta iota delta [mbind outcome_bind].
  fold (after_perform st op m). assert (with_ops s3 (<[i:=(0%nat, after_perform st op m)]> (s_ops s3)) = update_op s3 i (fun _ => after_perform st op m)) as Eu by (unfold update_op; by rewrite Est).
  rewrite Eu. destruct (struct_update None (Some i) s3 i (fun _ => after_perform st op m)) as (S4 & F4 & Er4 & Es4); [done|done|by left|by right| |].
  { intros st' E' _. rewrite Est in E'. injection E' as <-. split; [unfold okst; by rewrite decide_True|]. split; [simpl; by apply perform_params in Ep|].
    intros Hx. exfalso. by apply (current_moves _ _ _ S3 Hi3). }
  assert (s_ops (update_op s3 i (fun _ => after_perform st op m)) !! i = Some (0%nat, after_perform st op m)) as Est4 by (unfold update_op; rewrite Est; simpl; apply lookup_insert_eq).
  set (s4 := update_op s3 i _) in *. pose proof (mid_same _ _ F4 M3) as M4.
  pose proof (struct_others (Some i) s4 _ S4 Hdu) as S5. destruct (mid_others s4 _ Hdu M4) as (M5 & Er5 & Es5 & Eo5).
  apply (result_ok _ i (after_perform st op m)); try done; [by rewrite Er5, Es5, Er4, Es4|by apply Eo5].
Qed.

(** ** Steps *)

Lemma error_stopped x s i : struct x s -> op_error s i = 0 -> stopped0 s = false.
Proof.
  intros S. unfold op_error, stopped0. rewrite (su_channel x s i S). unfold _dispatch_io_get_error. destruct (dio_stopped (channel_of s 0)); [|done].
  rewrite orb_true_r. simpl. done.
Qed.

Lemma tok_enqueue s i q : struct None s -> tok s -> s_dq s = BEnqueue i :: q -> let s' := _dispatch_stream_enqueue_operation (with_dq s q) i in struct None s' /\ tok s'.
Proof.
  intros S [T1 T2 T3 T4 T5] Eq. destruct (struct_enqueue s i q S Eq) as (S' & Eso & Eru & Ech & Hr). cbv zeta. split; [done|].
  set (s' := _dispatch_stream_enqueue_operation (with_dq s q) i) in *.
  assert (forall c, BCleanup c ∈ s_dq s <-> BCleanup c ∈ q) as Hq by (intros c; rewrite Eq, elem_of_cons; naive_solver).
  assert (handlers (s_dq s) = handlers q /\ nones (s_dq s) = nones q) as [Eh En] by (rewrite Eq; done).
  assert (stopped0 s' = stopped0 s) as Est by (unfold stopped0, channel_of; by rewrite Ech).
  destruct (decide (op_error s i = 0)) as [He|He].
  - destruct Hr as [Ha Edq]. apply (error_stopped None s i S) in He. destruct (T5 He) as (A & B & C & D).
    destruct (_dispatch_stream_operation_avail s) eqn:Eav.
    + rewrite app_nil_r in Edq. assert (tokens s' = tokens s) as Et by (unfold tokens; by rewrite Edq, Eru, Eh).
      constructor; rewrite ?Et, ?Ha, ?Edq; try done.
      * unfold source_ok in *. by rewrite Eru, Eso.
      * intros _. destruct (T3 eq_refl) as [?|[c Hx]]; [by left|right; exists c; by apply Hq].
      * intros c. rewrite <-Hq. apply T4.
      * intros _. split; [intros c; rewrite <-Hq; apply A|]. rewrite <-En, <-Hq. done.
    + assert (tokens s = 0%nat) as Et0 by (destruct (decide (tokens s = 1%nat)) as [E1|]; [by destruct (C E1)|lia]).
      assert (BCleanup None ∉ s_dq s) as Hnn by (intros Hx; by specialize (D Hx)).
      assert (forall c, BCleanup c ∈ q ++ [BHandler] <-> BCleanup c ∈ s_dq s) as Hq' by (intros c; rewrite elem_of_app, list_elem_of_singleton, Hq; naive_solver).
      assert (tokens s' = 1%nat) as Et by (unfold tokens in *; rewrite Edq, Eru, handlers_app; change (handlers [BHandler]) with 1%nat; rewrite <-Eh; lia).
      constructor; rewrite ?Et, ?Ha, ?Edq; try done.
      * unfold source_ok in *. by rewrite Eru, Eso.
      * by left.
      * intros c. rewrite Hq'. apply T4.
      * intros _. split; [intros c; rewrite Hq'; apply A|]. rewrite nones_zero by (by rewrite Hq'). split; [lia|]. by rewrite Hq'.
  - destruct Hr as [Edq Ha]. assert (tokens s' = tokens s) as Et by (unfold tokens; by rewrite Edq, Eru, Eh).
    constructor; rewrite ?Et, ?Ha, ?Edq; try done.
    + unfold source_ok in *. by rewrite Eru, Eso.
    + intros Hav. destruct (T3 Hav) as [?|[c Hx]]; [by left|right; exists c; by apply Hq].
    + intros c. rewrite <-Hq. apply T4.
    + intros Hs. rewrite Est in Hs. destruct (T5 Hs) as (A & B & C & D). split; [intros c; rewrite <-Hq; apply A|]. rewrite <-En, <-Hq. done.
Qed.

Lemma struct_pop x s b q : struct x s -> s_dq s = b :: q -> enq [b] = [] -> struct x (with_dq s q).
Proof.
  intros [S1 S2 S3 S4 S5 S6 S7] Eq Hb. assert (enq q = enq (s_dq s)) as E by (rewrite Eq; change (b :: q) with ([b] ++ q); rewrite enq_app, Hb; done).
  assert (places (with_dq s q) = places s) as Ep by (unfold places; simpl; by rewrite E). constructor; rewrite ?Ep; simpl; rewrite ?E; done.
Qed.

Lemma tok_cleanup s c q : struct None s -> tok s -> s_dq s = BCleanup c :: q ->
  struct None (_dispatch_stream_cleanup_operations (with_dq s q) c) /\ tok (_dispatch_stream_cleanup_operations (with_dq s q) c).
Proof.
  intros S [T1 T2 T3 T4 T5] Eq. assert (c = None \/ c = Some 0%nat) as Hc by (destruct c as [c|]; [right; f_equal; apply T4; rewrite Eq; by left|by left]).
  destruct (struct_cleanup None (with_dq s q) c (struct_pop None s (BCleanup c) q S Eq eq_refl) Hc) as (S' & Ha & Edq & Ech & Efd & Eru & Eso); [done|].
  set (s' := _dispatch_stream_cleanup_operations (with_dq s q) c) in *. split; [done|]. simpl in Edq, Ech, Eso.
  assert (handlers (s_dq s) = handlers q) as Eh by (by rewrite Eq).
  assert (tokens s' <= tokens s)%nat as Et by (unfold tokens; rewrite Edq, Eru, Eh; lia). constructor; rewrite ?Ha, ?Edq; try done; [lia| | |].
  - unfold source_ok in *. rewrite Eru, Eso. destruct (source_running s); [rewrite T2; by right|done].
  - intros k Hk. apply T4. rewrite Eq. by right.
  - intros Hs. assert (stopped0 s = false) as Hs0 by (unfold stopped0, channel_of in *; by rewrite Ech in Hs).
    destruct (T5 Hs0) as (A & B & C & D). destruct Hc as [-> | ->]; [|exfalso; apply (A 0%nat); rewrite Eq; by left].
    assert (BCleanup None ∈ s_dq s) as Hin by (rewrite Eq; by left). assert (nones (s_dq s) = Datatypes.S (nones q)) as En by (by rewrite Eq).
    assert (BCleanup None ∉ q) as Hnq by (intros Hx; apply nones_pos in Hx; lia). split; [intros k Hk; apply (A k); rewrite Eq; by right|].
    split; [lia|]. split; [|done]. intros E1. exfalso. destruct C as [_ C]; [lia|done].
Qed.

Lemma tok_consume s q : struct None s -> tok s -> s_dq s = BHandler :: q -> struct None (with_dq s q) /\ mid (with_dq s q).
Proof.
  intros S [T1 T2 T3 T4 T5] Eq. split; [by apply (struct_pop None s BHandler)|].
  assert (handlers (s_dq s) = Datatypes.S (handlers q)) as Eh by (by rewrite Eq). unfold tokens in *.
  assert (source_running s = false) as Eru by (destruct (source_running s); [lia|done]). rewrite Eru in *.
  assert (forall c, BCleanup c ∈ q -> BCleanup c ∈ s_dq s) as Hq by (intros c Hx; rewrite Eq; by right).
  constructor; unfold tokens; simpl; rewrite ?Eru; [lia|done|intros c Hx; by apply T4, Hq|].
  intros Hs c Hx. change (stopped0 s = false) in Hs. destruct (T5 Hs) as (A & B & C & D). destruct c as [c|]; [by apply (A c), Hq|]. destruct C as [_ C]; [lia|]. by apply C, Hq.
Qed.

Lemma tok_fire s : struct None s -> tok s -> source_running s = true ->
  let s' := with_source s (match s_source s with Some n => Some (Datatypes.S n) | None => None end) false in struct None s' /\ mid s'.
Proof.
  intros S [T1 T2 T3 T4 T5] Eru. split; [by apply struct_source|]. unfold source_ok in T2. rewrite Eru in T2. rewrite T2. unfold tokens in *. rewrite Eru in *.
  constructor; unfold tokens; simpl; [lia|split; [done|by right]|done|]. intros Hs c Hx. change (stopped0 s = false) in Hs. destruct (T5 Hs) as (A & B & C & D).
  destruct c as [c|]; [by apply (A c)|]. destruct C as [_ C]; [lia|done].
Qed.

Definition event_ok (ev : stream_event) : Prop :=
  match ev with SeBlock E | SeSource E => henv_ok E | SeTimer _ => True | SeOther o => other_ok o end.

Lemma tok_same s s' : same_stream s s' -> s_random s' = s_random s -> s_stream s' = s_stream s -> tok s -> tok s'.
Proof.
  intros [F1 F2 F3 F4 F5] Er Es [T1 T2 T3 T4 T5]. unfold tokens, source_ok, stopped0, channel_of, _dispatch_stream_operation_avail in *.
  constructor; unfold tokens, source_ok, stopped0, channel_of, _dispatch_stream_operation_avail; rewrite ?F1, ?F2, ?F3, ?F4, ?Er, ?Es; done.
Qed.

Lemma timer_ok s i : struct None s -> tok s ->
  let s' := update_op s i (fun st => if st_finished st then st else delivered st (operation_timer (st_op st) false (op_stopped s i))) in struct None s' /\ tok s'.
Proof.
  intros S Tk. cbv zeta. destruct (decide (i ∈ places s)) as [Hi|Hi].
  - match goal with |- context [update_op s i ?f] => destruct (struct_update None None s i f) as (S1 & F1 & Er & Es); [done|done|by left|by left| |] end.
    { intros st _ Ho. rewrite (o_live_unfinished st) by (by apply (okst_live None i)). unfold operation_timer. cbn [andb].
      split; [by apply o_deliver_ready|]. split; [apply deliver_params|done]. }
    split; [done|]. by apply (tok_same s).
  - unfold update_op. destruct (s_ops s !! i) as [[c st]|] eqn:E; [|done]. destruct (su_ended _ _ S i c st E Hi) as [-> Hd]. rewrite (o_done_finished st Hd).
    rewrite insert_id by done. by destruct S, Tk; destruct s.
Qed.

Lemma stream_step_ok s ev : event_ok ev -> struct None s -> tok s -> exists s', stream_step chunk ev s = Done s' /\ struct None s' /\ tok s'.
Proof.
  intros He S Tk. destruct ev as [E|E|i|o]; simpl in *.
  - unfold run_block. destruct (s_dq s) as [|b q] eqn:Eq; [by exists s|]. destruct b as [i| |c]; cbv zeta.
    + eexists. split; [done|]. by apply tok_enqueue.
    + destruct (tok_consume s q S Tk Eq) as [S1 M1]. by apply handler_ok.
    + eexists. split; [done|]. by apply tok_cleanup.
  - destruct (source_running s) eqn:Eru; [|by exists s]. destruct (tok_fire s S Tk Eru) as [S1 M1]. by apply handler_ok.
  - eexists. split; [done|]. by apply timer_ok.
  - eexists. split; [done|]. split; [by apply struct_other|by apply tok_other].
Qed.

Lemma stream_run_ok evs s : Forall event_ok evs -> struct None s -> tok s -> exists s', stream_run chunk evs s = Done s' /\ struct None s' /\ tok s'.
Proof.
  revert s. induction evs as [|ev evs IH]; intros s He S Tk; [by exists s|]. apply Forall_cons in He as [He Hes]. simpl.
  destruct (stream_step_ok s ev He S Tk) as (s1 & -> & S1 & T1). cbv beta iota delta [mbind outcome_bind]. by apply IH.
Qed.

Lemma stream_init_ok : struct None stream_init /\ tok stream_init.
Proof.
  split.
  - constructor; try done; [apply NoDup_nil; done|..]; intros i Hi; exfalso; by apply not_elem_of_nil in Hi.
  - constructor; try done; [unfold tokens; simpl; lia|by left|intros c Hx; by apply not_elem_of_nil in Hx|]. intros _. split; [intros c Hx; by apply not_elem_of_nil in Hx|]. split; [unfold nones; simpl; lia|].
    split; [done|]. intros Hx. by apply not_elem_of_nil in Hx.
Qed.
End tokens.

(** C12: The stream of a descriptor that one channel uses, in every run: operations are submitted,
    the blocks of its queue run, its source and the timers of operations fire, the channel is
    stopped at any moment, also while the handler runs, and system calls succeed in part,
    would block or fail.  Nothing crashes: no assertion of an operation fails and the source
    is never resumed twice.  At most one run of the handler is to come, and there is one, or
    a cleanup, whenever an operation is in the stream: none is forgotten.  Each operation that was
    submitted either waits to be enqueued, or is in one of the lists, once, and is ready, or has
    ended as its kind of operation ends.  Of the stream operations only the first has moved
    any bytes: they are performed one after the other, in order. *)
Theorem stream_of_one_channel (dir : op_direction) (chunk : Z) (OL : OpLogic dir chunk) (evs : list stream_event) : Forall event_ok evs ->
  exists s, stream_run chunk evs stream_init = Done s /\
    (tokens s <= 1)%nat /\
    (_dispatch_stream_operation_avail s = true -> tokens s = 1%nat \/ exists c, BCleanup c ∈ s_dq s) /\
    NoDup (places s) /\
    (forall i c st, s_ops s !! i = Some (c, st) -> (i ∈ places s /\ o_ready st) \/ (i ∉ places s /\ o_done st)) /\
    (forall i, i ∈ tail (s_stream s) -> moved_of s i = []).
Proof.
  intros He. destruct stream_init_ok as [S0 T0]. destruct (stream_run_ok evs stream_init He S0 T0) as (s & Er & S & Tk). exists s. split; [done|].
  split; [apply Tk|]. split; [apply Tk|]. split; [apply S|]. split; [|intros i Hi; apply (su_serial _ _ S); by right].
  intros i c st E. destruct (decide (i ∈ places s)) as [Hi|Hi]; [left|right; split; [done|by apply (su_ended _ _ S i c st)]]. split; [done|].
  destruct (su_known _ _ S i Hi) as (st' & E' & Ho). rewrite E in E'. injection E' as -> <-. unfold okst in Ho. by rewrite decide_False in Ho.
Qed.

(** ** A run of a read *)

Definition sample_events : list stream_event :=
  [SeOther (OSubmit 0 0 sample_read); SeOther (OSubmit 1 0 sample_read); SeBlock idle_env; SeBlock idle_env;
   SeBlock (sample_env [] [] (IoRead [1])); SeBlock idle_env;
   SeSource (sample_env [] [OStop 0; OCleanup 0] (IoRead [4])); SeBlock idle_env; SeBlock idle_env].

Lemma chunk_pos : 0 < 4096.
Proof. lia. Qed.
Definition sample_logic : OpLogic DOP_DIR_READ 4096 := read_logic 4096 chunk_pos.

Lemma sample_read_ready : r_ready (mkOpState sample_read [] [] false).
Proof.
  exists sample_params, 0, 10. apply (read_start sample_params 0 10 sample_read); [lia| |reflexivity]. by constructor.
Qed.

Lemma idle_env_ok : henv_ok (H := sample_logic) idle_env.
Proof. constructor; [constructor|constructor|]. constructor; [|done]. intros off n Hn. simpl. done. Qed.

Lemma sample_env_ok (os : list other_event) (b : Z) : Forall (other_ok (H := sample_logic)) os -> henv_ok (H := sample_logic) (sample_env [] os (IoRead [b])).
Proof. intros Ho. constructor; [constructor|done|]. constructor; [|done]. intros off n Hn. simpl. split; [done|]. unfold len. simpl. lia. Qed.

Lemma sample_events_ok : Forall (event_ok (H := sample_logic)) sample_events.
Proof.
  repeat (apply Forall_cons; split); try apply idle_env_ok; try (split; [done|apply sample_read_ready]); try (apply sample_env_ok; repeat constructor). apply Forall_nil. done.
Qed.

Lemma stream_of_one_channel_witness : exists s st, stream_run 4096 sample_events stream_init = Done s /\ (tokens s <= 1)%nat /\
  s_ops s !! 0%nat = Some (0%nat, st) /\ st_calls st = [{| hc_done := false; hc_data := Some [[1]]; hc_err := 0 |}; {| hc_done := false; hc_data := Some [[4]]; hc_err := 0 |};
    {| hc_done := true; hc_data := None; hc_err := ECANCELED |}].
Proof.
  destruct (stream_of_one_channel DOP_DIR_READ 4096 sample_logic sample_events sample_events_ok) as (s & Er & Ht & _).
  assert (exists st, s_ops s !! 0%nat = Some (0%nat, st) /\ st_calls st = [{| hc_done := false; hc_data := Some [[1]]; hc_err := 0 |}; {| hc_done := false; hc_data := Some [[4]]; hc_err := 0 |};
    {| hc_done := true; hc_data := None; hc_err := ECANCELED |}]) as (st & E1 & E2).
  { clear Ht. vm_compute in Er. injection Er as <-. eexists. split; [vm_compute; reflexivity|]. vm_compute. reflexivity. }
  exists s, st. split; [exact Er|]. split; [exact Ht|]. split; [exact E1|exact E2].
Defined.
