(* ===== verification/Epoll.v ===== *)
(** * File descriptors and signals over epoll

    Models the multiplexing of [src/event/event_epoll.c]: all the unotes of one descriptor
    share a muxnote, which is registered once with the kernel for the events that some of
    them still wants.  Reads and writes are one-shot: an event disarms its direction until a
    unote is resumed.  The kernel's interest list is part of the state; results of other
    system calls are arguments ([syscalls], the sizes of [SIOCINQ] and [SIOCOUTQ], whether
    a signal could be read). *)

From S2P Require Import Prelude.

Local Open Scope word_scope.

Definition EPOLLIN : Z := 0x1.
Definition EPOLLOUT : Z := 0x4.
Definition EPOLLERR : Z := 0x8.
Definition EPOLLHUP : Z := 0x10.
Definition EPOLLFREE : Z := 0x4000.
Definition EPOLLONESHOT : Z := 0x40000000.

Definition EVFILT_READ : Z := -1.
Definition EVFILT_WRITE : Z := -2.
Definition EVFILT_SIGNAL : Z := -3.
Definition EVFILT_SYSCOUNT : Z := 4.
Definition DISPATCH_EVFILT_CUSTOM_ADD : Z := - EVFILT_SYSCOUNT - 3.
Definition DISPATCH_EVFILT_CUSTOM_OR : Z := - EVFILT_SYSCOUNT - 4.
Definition DISPATCH_EVFILT_CUSTOM_REPLACE : Z := - EVFILT_SYSCOUNT - 5.

Definition DSL_HASH_SIZE : Z := 256.
Definition DSL_HASH (x : Z) : Z := x .& (DSL_HASH_SIZE - 1).

(** A unote and its linkage. *)
Record unote := mkUnote {
  du_ident : Z;
  du_filter : Z;
  du_rearm : bool;              (* EV_DISPATCH is in dst_flags *)
  du_registered : bool;         (* du_state is not DU_STATE_UNREGISTERED *)
  du_armed : bool;              (* DU_STATE_ARMED *)
  du_muxnote : option nat;
  ds_pending_data : Z;
}.

Record dispatch_muxnote_s := mkMuxnote {
  dmn_readers_head : list nat;
  dmn_writers_head : list nat;
  dmn_fd : Z;
  dmn_ident : Z;
  dmn_events : Z;
  dmn_disarmed_events : Z;
  dmn_filter : Z;
  dmn_skip_outq_ioctl : bool;
  dmn_skip_inq_ioctl : bool;
}.

(** An entry of the kernel's interest list; a one-shot entry is off once it has fired. *)
Record epoll_item := { ei_events : Z; ei_data : nat; ei_enabled : bool }.

Inductive mux_effect :=
| Retain (u : nat)                      (* _dispatch_retain_unote_owner *)
| MergeEvt (u : nat) (data : Z)         (* dux_merge_evt *)
| Close (fd : Z).

Record mux_state := mkMux {
  es_unotes : gmap nat unote;
  es_mux : gmap nat dispatch_muxnote_s;         (* allocated muxnotes by address *)
  es_next : nat;                                (* an address not yet in use *)
  _dispatch_sources : Z -> list nat;
  _dispatch_epfd : gmap Z epoll_item;
  signals_with_unotes : gset Z;
  es_log : list mux_effect;
}.

Definition with_unote (st : mux_state) (u : nat) (n : unote) : mux_state :=
  mkMux (<[u := n]> (es_unotes st)) (es_mux st) (es_next st) (_dispatch_sources st) (_dispatch_epfd st)
    (signals_with_unotes st) (es_log st).
Definition with_mux (st : mux_state) (id : nat) (m : dispatch_muxnote_s) : mux_state :=
  mkMux (es_unotes st) (<[id := m]> (es_mux st)) (es_next st) (_dispatch_sources st) (_dispatch_epfd st)
    (signals_with_unotes st) (es_log st).
Definition with_sources (st : mux_state) (b : Z) (l : list nat) : mux_state :=
  mkMux (es_unotes st) (es_mux st) (es_next st) (fun b' => if decide (b' = b) then l else _dispatch_sources st b')
    (_dispatch_epfd st) (signals_with_unotes st) (es_log st).
Definition with_epfd (st : mux_state) (E : gmap Z epoll_item) : mux_state :=
  mkMux (es_unotes st) (es_mux st) (es_next st) (_dispatch_sources st) E (signals_with_unotes st) (es_log st).
Definition with_signal (st : mux_state) (signo : Z) : mux_state :=
  mkMux (es_unotes st) (es_mux st) (es_next st) (_dispatch_sources st) (_dispatch_epfd st)
    ({[signo]} ∪ signals_with_unotes st) (es_log st).
Definition effect (st : mux_state) (e : mux_effect) : mux_state :=
  mkMux (es_unotes st) (es_mux st) (es_next st) (_dispatch_sources st) (_dispatch_epfd st)
    (signals_with_unotes st) (es_log st ++ [e]).
(** [_dispatch_calloc] and [free] of a muxnote. *)
Definition mux_alloc (st : mux_state) (m : dispatch_muxnote_s) : mux_state :=
  mkMux (es_unotes st) (<[es_next st := m]> (es_mux st)) (S (es_next st)) (_dispatch_sources st) (_dispatch_epfd st)
    (signals_with_unotes st) (es_log st).
Definition mux_free (st : mux_state) (id : nat) : mux_state :=
  mkMux (es_unotes st) (delete id (es_mux st)) (es_next st) (_dispatch_sources st) (_dispatch_epfd st)
    (signals_with_unotes st) (es_log st).

Definition set_lists (m : dispatch_muxnote_s) (r w : list nat) : dispatch_muxnote_s :=
  mkMuxnote r w (dmn_fd m) (dmn_ident m) (dmn_events m) (dmn_disarmed_events m) (dmn_filter m)
    (dmn_skip_outq_ioctl m) (dmn_skip_inq_ioctl m).
Definition set_events (m : dispatch_muxnote_s) (events disarmed : Z) : dispatch_muxnote_s :=
  mkMuxnote (dmn_readers_head m) (dmn_writers_head m) (dmn_fd m) (dmn_ident m) events disarmed (dmn_filter m)
    (dmn_skip_outq_ioctl m) (dmn_skip_inq_ioctl m).
Definition set_skip (m : dispatch_muxnote_s) (writer : bool) : dispatch_muxnote_s :=
  mkMuxnote (dmn_readers_head m) (dmn_writers_head m) (dmn_fd m) (dmn_ident m) (dmn_events m) (dmn_disarmed_events m)
    (dmn_filter m) (if writer then true else dmn_skip_outq_ioctl m) (if writer then dmn_skip_inq_ioctl m else true).

(** ** Muxnotes *)

Definition _dispatch_muxnote_armed_events (dmn : dispatch_muxnote_s) : Z :=
  dmn_events dmn .& lnotw 32 (dmn_disarmed_events dmn).

Fixpoint muxnote_find (M : gmap nat dispatch_muxnote_s) (l : list nat) (ident filter : Z) : option nat :=
  match l with
  | [] => None
  | id :: l =>
      dmn ← M !! id;
      if decide (dmn_ident dmn = ident /\ dmn_filter dmn = filter) then Some id else muxnote_find M l ident filter
  end.
Definition _dispatch_muxnote_find (st : mux_state) (dmb ident filter : Z) : option nat :=
  let filter := if decide (filter = EVFILT_WRITE) then EVFILT_READ else filter in
  muxnote_find (es_mux st) (_dispatch_sources st dmb) ident filter.

Definition _dispatch_muxnote_dispose (st : mux_state) (id : nat) : option mux_state :=
  dmn ← es_mux st !! id;
  let st := if decide (dmn_filter dmn <> EVFILT_READ \/ u32 (dmn_fd dmn) <> dmn_ident dmn)
            then effect st (Close (dmn_fd dmn)) else st in
  Some (mux_free st id).

(** What the kernel answers about a descriptor. *)
Inductive file_status :=
| StatFails
| RegularFile (eventfd : option Z)          (* the dummy descriptor, if it could be made *)
| SocketFile (acceptconn : option bool)     (* getsockopt(SO_ACCEPTCONN) *)
| OtherFile.

Record syscalls := { sy_fstat : file_status; sy_signalfd : option Z; sy_epoll_ctl : bool }.

Definition new_muxnote (n : unote) (filter fd events : Z) (skip_outq_ioctl skip_inq_ioctl : bool) : dispatch_muxnote_s :=
  mkMuxnote [] [] fd (du_ident n) events 0 filter skip_outq_ioctl skip_inq_ioctl.

(** [None] inside is NULL. *)
Definition _dispatch_muxnote_create (sy : syscalls) (st : mux_state) (n : unote) (events : Z)
  : outcome (mux_state * option dispatch_muxnote_s) :=
  let fd := du_ident n in
  if decide (du_filter n = EVFILT_SIGNAL) then
    let signo := du_ident n in
    let st := if decide (signo ∈ signals_with_unotes st) then st else with_signal st signo in
    match sy_signalfd sy with
    | None => Done (st, None)
    | Some fd => Done (st, Some (new_muxnote n EVFILT_SIGNAL fd events false false))
    end
  else if decide (du_filter n = EVFILT_WRITE \/ du_filter n = EVFILT_READ) then
    match sy_fstat sy with
    | StatFails => Done (st, None)
    | RegularFile None => Done (st, None)
    | RegularFile (Some fd) => Done (st, Some (new_muxnote n EVFILT_READ fd events true false))
    | SocketFile (Some v) => Done (st, Some (new_muxnote n EVFILT_READ fd events false v))
    | SocketFile None | OtherFile => Done (st, Some (new_muxnote n EVFILT_READ fd events false false))
    end
  else Crash InternalCrash.

(** ** Unotes *)

Inductive epoll_op := EPOLL_CTL_ADD | EPOLL_CTL_MOD.

(** [epoll_ctl]: [None] is a failure; [ok] is false when the kernel lacks resources. *)
Definition _dispatch_epoll_update (ok : bool) (st : mux_state) (id : nat) (fd events : Z) (op : epoll_op) : option mux_state :=
  let item := {| ei_events := events; ei_data := id; ei_enabled := true |} in
  match op, _dispatch_epfd st !! fd with
  | EPOLL_CTL_ADD, None | EPOLL_CTL_MOD, Some _ =>
      if ok then Some (with_epfd st (<[fd := item]> (_dispatch_epfd st))) else None
  | _, _ => None
  end.

Definition _dispatch_unote_required_events (n : unote) : Z :=
  if decide (du_filter n = DISPATCH_EVFILT_CUSTOM_ADD \/ du_filter n = DISPATCH_EVFILT_CUSTOM_OR \/
             du_filter n = DISPATCH_EVFILT_CUSTOM_REPLACE) then 0
  else
    let events := EPOLLFREE .| (if decide (du_filter n = EVFILT_WRITE) then EPOLLOUT else EPOLLIN) in
    if du_rearm n then events .| EPOLLONESHOT else events.

(** The muxnote of a registration, NULL when it fails, with the events it was made with. *)
Definition register_muxnote (sy : syscalls) (st : mux_state) (n : unote) : outcome (mux_state * Z * option nat) :=
  let events := _dispatch_unote_required_events n in
  let dmb := DSL_HASH (du_ident n) in
  match _dispatch_muxnote_find st dmb (du_ident n) (du_filter n) with
  | Some id =>
      match es_mux st !! id with
      | None => Crash InvalidAccess
      | Some dmn =>
          if decide (events .& lnotw 32 (_dispatch_muxnote_armed_events dmn) <> 0) then
            let events := events .| _dispatch_muxnote_armed_events dmn in
            match _dispatch_epoll_update (sy_epoll_ctl sy) st id (dmn_fd dmn) events EPOLL_CTL_MOD with
            | None => Done (st, events, None)
            | Some st =>
                Done (with_mux st id (set_events dmn (dmn_events dmn .| events) (dmn_disarmed_events dmn .& lnotw 32 events)),
                      events, Some id)
            end
          else Done (st, events, Some id)
      end
  | None =>
      '(st, o) ← _dispatch_muxnote_create sy st n events;
      match o with
      | None => Done (st, events, None)
      | Some dmn =>
          let id := es_next st in
          let st := mux_alloc st dmn in
          match _dispatch_epoll_update (sy_epoll_ctl sy) st id (dmn_fd dmn) events EPOLL_CTL_ADD with
          | None =>
              match _dispatch_muxnote_dispose st id with Some st => Done (st, events, None) | None => Crash InvalidAccess end
          | Some st => Done (with_sources st dmb (id :: _dispatch_sources st dmb), events, Some id)
          end
      end
  end.

Definition _dispatch_unote_register_muxed (sy : syscalls) (st : mux_state) (u : nat) : outcome (mux_state * bool) :=
  match es_unotes st !! u with
  | None => Crash InvalidAccess
  | Some n =>
      '(st, events, o) ← register_muxnote sy st n;
      match o with
      | None => Done (st, false)
      | Some id =>
          match es_mux st !! id with
          | None => Crash InvalidAccess
          | Some dmn =>
              let dmn := if decide (events .& EPOLLOUT <> 0)
                         then set_lists dmn (dmn_readers_head dmn) (u :: dmn_writers_head dmn)
                         else set_lists dmn (u :: dmn_readers_head dmn) (dmn_writers_head dmn) in
              let n := mkUnote (du_ident n) (du_filter n) (du_rearm n) true true (Some id) (ds_pending_data n) in
              Done (with_unote (with_mux st id dmn) u n, true)
          end
      end
  end.

(** The result of [epoll_ctl] is not looked at. *)
Definition epoll_modify (st : mux_state) (id : nat) (fd events : Z) : mux_state :=
  default st (_dispatch_epoll_update true st id fd events EPOLL_CTL_MOD).

Definition _dispatch_unote_resume_muxed (st : mux_state) (u : nat) : option mux_state :=
  n ← es_unotes st !! u;
  id ← du_muxnote n;
  dmn ← es_mux st !! id;
  let events := _dispatch_unote_required_events n in
  if decide (events .& dmn_disarmed_events dmn <> 0) then
    let dmn := set_events dmn (dmn_events dmn) (dmn_disarmed_events dmn .& lnotw 32 events) in
    Some (epoll_modify (with_mux st id dmn) id (dmn_fd dmn) (_dispatch_muxnote_armed_events dmn))
  else Some st.

(** One direction of [_dispatch_unote_unregister_muxed]: the local [events] and the muxnote. *)
Definition drop_direction (l : list nat) (bit : Z) (p : Z * dispatch_muxnote_s) : Z * dispatch_muxnote_s :=
  let '(events, dmn) := p in
  match l with
  | [] =>
      (events .& lnotw 32 bit,
       if decide (dmn_disarmed_events dmn .& bit <> 0)
       then set_events dmn (dmn_events dmn .& lnotw 32 bit) (dmn_disarmed_events dmn .& lnotw 16 bit) else dmn)
  | _ => (events, dmn)
  end.

Definition _dispatch_unote_unregister_muxed (st : mux_state) (u : nat) : option mux_state :=
  n ← es_unotes st !! u;
  id ← du_muxnote n;
  dmn ← es_mux st !! id;
  let events := dmn_events dmn in
  let dmn := set_lists dmn (filter (.≠ u) (dmn_readers_head dmn)) (filter (.≠ u) (dmn_writers_head dmn)) in
  let '(events, dmn) := drop_direction (dmn_readers_head dmn) EPOLLIN (events, dmn) in
  let '(events, dmn) := drop_direction (dmn_writers_head dmn) EPOLLOUT (events, dmn) in
  let st := with_mux st id dmn in
  st ← (if decide (events .& (EPOLLIN .| EPOLLOUT) <> 0) then
          if decide (events <> _dispatch_muxnote_armed_events dmn) then
            let dmn := set_events dmn events (dmn_disarmed_events dmn) in
            Some (epoll_modify (with_mux st id dmn) id (dmn_fd dmn) (_dispatch_muxnote_armed_events dmn))
          else Some st
        else
          let st := with_epfd st (delete (dmn_fd dmn) (_dispatch_epfd st)) in
          let b := DSL_HASH (dmn_ident dmn) in
          let st := with_sources st b (filter (.≠ id) (_dispatch_sources st b)) in
          _dispatch_muxnote_dispose st id);
  Some (with_unote st u (mkUnote (du_ident n) (du_filter n) (du_rearm n) false false None (ds_pending_data n))).

(** ** Events *)

Definition _dispatch_get_buffer_size (dmn : dispatch_muxnote_s) (writer : bool) (ioctl : option Z)
  : Z * dispatch_muxnote_s :=
  if (if writer then dmn_skip_outq_ioctl dmn else dmn_skip_inq_ioctl dmn) then (1, dmn)
  else match ioctl with
       | None => (1, set_skip dmn writer)
       | Some n => (u64 n, dmn)
       end.

(** The loops over the readers and the writers; [g] is what they store in a unote. *)
Definition merge_unote (g : unote -> unote) (data : Z) (st : mux_state) (u : nat) : option mux_state :=
  n ← es_unotes st !! u;
  Some (effect (with_unote (effect st (Retain u)) u (g n)) (MergeEvt u data)).

Fixpoint merge_unotes (g : unote -> unote) (data : Z) (st : mux_state) (l : list nat) : option mux_state :=
  match l with [] => Some st | u :: l => st ← merge_unote g data st u; merge_unotes g data st l end.

Definition fd_merged (data : Z) (n : unote) : unote :=
  mkUnote (du_ident n) (du_filter n) (du_rearm n) (du_registered n) false (du_muxnote n) (lnotw 64 data).
Definition signal_merged (n : unote) : unote :=
  mkUnote (du_ident n) (du_filter n) (du_rearm n) (du_registered n) (du_armed n) (du_muxnote n) 1.

(** [ioctl writer] is the answer of [SIOCOUTQ] or [SIOCINQ]. *)
Definition _dispatch_event_merge_fd (ioctl : bool -> option Z) (st : mux_state) (id : nat) (events : Z) : option mux_state :=
  dmn ← es_mux st !! id;
  let events := if decide (events .& EPOLLHUP <> 0)
                then events .| (_dispatch_muxnote_armed_events dmn .& (EPOLLIN .| EPOLLOUT)) else events in
  let dmn := set_events dmn (dmn_events dmn) (dmn_disarmed_events dmn .| (events .& (EPOLLIN .| EPOLLOUT))) in
  '(st, dmn) ← (if decide (events .& EPOLLIN <> 0) then
                  let '(data, dmn) := _dispatch_get_buffer_size dmn false (ioctl false) in
                  st ← merge_unotes (fd_merged data) data st (dmn_readers_head dmn); Some (st, dmn)
                else Some (st, dmn));
  '(st, dmn) ← (if decide (events .& EPOLLOUT <> 0) then
                  let '(data, dmn) := _dispatch_get_buffer_size dmn true (ioctl true) in
                  st ← merge_unotes (fd_merged data) data st (dmn_writers_head dmn); Some (st, dmn)
                else Some (st, dmn));
  let st := with_mux st id dmn in
  let events := _dispatch_muxnote_armed_events dmn in
  if decide (events .& (EPOLLIN .| EPOLLOUT) <> 0) then Some (epoll_modify st id (dmn_fd dmn) events) else Some st.

(** [readable]: the descriptor yields a signal, and not EAGAIN. *)
Definition _dispatch_event_merge_signal (readable : bool) (st : mux_state) (id : nat) : option mux_state :=
  dmn ← es_mux st !! id;
  if readable then merge_unotes signal_merged 1 st (dmn_readers_head dmn) else Some st.

(** One event that [epoll_wait] reports for a muxnote, as [_dispatch_event_loop_drain]
    handles it. *)
Definition drain_muxnote (ioctl : bool -> option Z) (readable : bool) (st : mux_state) (id : nat) (events : Z)
  : outcome mux_state :=
  if decide (events .& EPOLLFREE <> 0) then Crash ClientCrash
  else
    match es_mux st !! id with
    | None => Crash InvalidAccess
    | Some dmn =>
        let o := if decide (dmn_filter dmn = EVFILT_SIGNAL) then _dispatch_event_merge_signal readable st id
                 else if decide (dmn_filter dmn = EVFILT_READ) then _dispatch_event_merge_fd ioctl st id events
                 else Some st in
        match o with Some st => Done st | None => Crash InvalidAccess end
    end.

(** [epoll_wait]: reporting an event turns a one-shot entry off. *)
Definition epoll_report (st : mux_state) (fd : Z) : option (mux_state * nat) :=
  it ← _dispatch_epfd st !! fd;
  if ei_enabled it then
    let it' := {| ei_events := ei_events it; ei_data := ei_data it;
                  ei_enabled := bool_decide (ei_events it .& EPOLLONESHOT = 0) |} in
    Some (with_epfd st (<[fd := it']> (_dispatch_epfd st)), ei_data it)
  else None.
