(* ===== verification/EpollMux.v ===== *)
(** * Multiplexed descriptors: the invariant and the specification

    What the muxnotes of [Epoll] promise: every unote of a descriptor is told of the events
    of its own direction, and the kernel watches exactly the directions that some unote
    still waits for. *)

From S2P Require Import Prelude Epoll.

Local Open Scope word_scope.

(** ** Event masks *)

Definition evmask (oneshot r w : bool) : Z :=
  EPOLLFREE .| (if oneshot then EPOLLONESHOT else 0) .| (if r then EPOLLIN else 0) .| (if w then EPOLLOUT else 0).
Definition dirmask (r w : bool) : Z := (if r then EPOLLIN else 0) .| (if w then EPOLLOUT else 0).

Lemma land_bit z k : 0 <= k -> (z .& 2 ^ k <> 0) <-> Z.testbit z k = true.
Proof.
  intros Hk. rewrite land_pow2 by done. pose proof (Z.pow_pos_nonneg 2 k). destruct (Z.testbit z k); split; intros; try done; lia.
Qed.

Lemma decide_bit {A} z k (a b : A) : 0 <= k -> (if decide (z .& 2 ^ k <> 0) then a else b) = if Z.testbit z k then a else b.
Proof.
  intros Hk. destruct (decide _) as [H|H]; [apply land_bit in H; [by rewrite H|done]|].
  destruct (Z.testbit z k) eqn:E; [|done]. destruct H. by apply land_bit.
Qed.

Lemma decide_in {A} z (a b : A) : (if decide (z .& EPOLLIN <> 0) then a else b) = if Z.testbit z 0 then a else b.
Proof. by apply (decide_bit z 0). Qed.
Lemma decide_out {A} z (a b : A) : (if decide (z .& EPOLLOUT <> 0) then a else b) = if Z.testbit z 2 then a else b.
Proof. by apply (decide_bit z 2). Qed.

Lemma land_dirs z : z .& (EPOLLIN .| EPOLLOUT) = dirmask (Z.testbit z 0) (Z.testbit z 2).
Proof.
  rewrite Z.land_lor_distr_r. change EPOLLIN with (2 ^ 0). change EPOLLOUT with (2 ^ 2). rewrite !land_pow2 by lia. done.
Qed.

(** ** The invariant *)

Definition nonempty {A} (l : list A) : bool := match l with [] => false | _ => true end.

(** The filter of the muxnote of a unote. *)
Definition mux_filter (f : Z) : Z := if decide (f = EVFILT_WRITE) then EVFILT_READ else f.
Definition filter_ok (f : Z) : Prop := f = EVFILT_READ \/ f = EVFILT_WRITE \/ f = EVFILT_SIGNAL.
(** The direction of a filter, out of what holds of reads and of writes. *)
Definition dir {A} (f : Z) (r w : A) : A := if decide (f = EVFILT_WRITE) then w else r.
Definition dir_bit (f : Z) : Z := dir f 0 2.

(** Split on which direction a filter has. *)
Ltac dir_cases :=
  unfold dir in *;
  repeat match goal with
  | |- context [decide (?f = EVFILT_WRITE)] => destruct (decide (f = EVFILT_WRITE))
  | H : context [decide (?f = EVFILT_WRITE)] |- _ => destruct (decide (f = EVFILT_WRITE))
  end.

(** A muxnote that wants reads when [ra] and writes when [wa]. *)
Record shape (m : dispatch_muxnote_s) (ra wa : bool) : Prop := {
  sh_events : dmn_events m =
    evmask (bool_decide (dmn_filter m = EVFILT_READ)) (nonempty (dmn_readers_head m)) (nonempty (dmn_writers_head m));
  sh_disarmed : dmn_disarmed_events m =
    dirmask (nonempty (dmn_readers_head m) && negb ra) (nonempty (dmn_writers_head m) && negb wa);
  sh_ra : ra = true -> nonempty (dmn_readers_head m) = true;
  sh_wa : wa = true -> nonempty (dmn_writers_head m) = true;
  sh_filter : dmn_filter m = EVFILT_READ \/ (dmn_filter m = EVFILT_SIGNAL /\ ra = true /\ dmn_writers_head m = []);
  sh_used : nonempty (dmn_readers_head m) || nonempty (dmn_writers_head m) = true;
}.

(** Its entry in the kernel. *)
Record item_ok (it : epoll_item) (id : nat) (m : dispatch_muxnote_s) (ra wa : bool) : Prop := {
  it_data : ei_data it = id;
  it_on : ei_enabled it = true -> ei_events it = evmask (bool_decide (dmn_filter m = EVFILT_READ)) ra wa;
  it_off : ei_enabled it = false -> ra = false /\ wa = false;
}.

Definition kernel_inv (st : mux_state) : Prop := forall id m, es_mux st !! id = Some m ->
  exists ra wa it, shape m ra wa /\ _dispatch_epfd st !! dmn_fd m = Some it /\ item_ok it id m ra wa.

(** The interest list holds nothing else. *)
Definition items_inv (st : mux_state) : Prop := forall fd it, _dispatch_epfd st !! fd = Some it ->
  exists m, es_mux st !! ei_data it = Some m /\ dmn_fd m = fd.

Record lists_inv (st : mux_state) : Prop := {
  ls_in : forall id m u, es_mux st !! id = Some m -> u ∈ dmn_readers_head m \/ u ∈ dmn_writers_head m ->
    exists n, es_unotes st !! u = Some n /\ du_muxnote n = Some id;
  ls_unote : forall u n id, es_unotes st !! u = Some n -> du_muxnote n = Some id ->
    exists m, es_mux st !! id = Some m /\ dmn_ident m = du_ident n /\ dmn_filter m = mux_filter (du_filter n) /\
      u ∈ dir (du_filter n) (dmn_readers_head m) (dmn_writers_head m) /\
      u ∉ dir (du_filter n) (dmn_writers_head m) (dmn_readers_head m);
  ls_nodup : forall id m, es_mux st !! id = Some m -> NoDup (dmn_readers_head m) /\ NoDup (dmn_writers_head m);
  ls_ok : forall u n, es_unotes st !! u = Some n -> filter_ok (du_filter n) /\ du_rearm n = bool_decide (du_filter n <> EVFILT_SIGNAL);
  ls_reg : forall u n, es_unotes st !! u = Some n -> (du_registered n = true <-> is_Some (du_muxnote n));
}.

Record bucket_inv (M : gmap nat dispatch_muxnote_s) (S : Z -> list nat) (next : nat) : Prop := {
  bk_in : forall b id, id ∈ S b <-> exists m, M !! id = Some m /\ b = DSL_HASH (dmn_ident m);
  bk_unique : forall i j m m', M !! i = Some m -> M !! j = Some m' -> dmn_ident m = dmn_ident m' -> dmn_filter m = dmn_filter m' -> i = j;
  bk_fresh : forall id, is_Some (M !! id) -> (id < next)%nat;
}.

Record mux_inv (st : mux_state) : Prop := {
  mi_kernel : kernel_inv st;
  mi_items : items_inv st;
  mi_lists : lists_inv st;
  mi_bucket : bucket_inv (es_mux st) (_dispatch_sources st) (es_next st);
}.

(** The kernel reports events of filter [f] on descriptor [i]. *)
Definition watches (st : mux_state) (i f : Z) : Prop := exists id m it,
  es_mux st !! id = Some m /\ dmn_ident m = i /\ dmn_filter m = mux_filter f /\
  _dispatch_epfd st !! dmn_fd m = Some it /\ ei_enabled it = true /\ Z.testbit (ei_events it) (dir_bit f) = true.

(** ** Facts on one muxnote *)

Lemma evmask_bit os r w f : Z.testbit (evmask os r w) (dir_bit f) = dir f r w.
Proof. unfold dir_bit, dir. case_decide; by destruct os, r, w. Qed.

Lemma dirmask_bit r w f : Z.testbit (dirmask r w) (dir_bit f) = dir f r w.
Proof. unfold dir_bit, dir. case_decide; by destruct r, w. Qed.

Lemma shape_armed m ra wa : shape m ra wa ->
  _dispatch_muxnote_armed_events m = evmask (bool_decide (dmn_filter m = EVFILT_READ)) ra wa.
Proof.
  intros [He Hd Hr Hw _ _]. unfold _dispatch_muxnote_armed_events. rewrite He, Hd. destruct (bool_decide _).
  all: destruct ra, wa, (nonempty (dmn_readers_head m)), (nonempty (dmn_writers_head m)); try done;
    solve [by specialize (Hr eq_refl)|by specialize (Hw eq_refl)].
Qed.

Lemma required_events n : filter_ok (du_filter n) -> du_rearm n = bool_decide (du_filter n <> EVFILT_SIGNAL) ->
  _dispatch_unote_required_events n = evmask (bool_decide (mux_filter (du_filter n) = EVFILT_READ)) (dir (du_filter n) true false)
    (dir (du_filter n) false true).
Proof.
  intros Hf Hr. unfold _dispatch_unote_required_events. rewrite Hr. by destruct Hf as [->|[->| ->]].
Qed.

Lemma find_correct st i f : mux_inv st ->
  match _dispatch_muxnote_find st (DSL_HASH i) i f with
  | Some id => exists m, es_mux st !! id = Some m /\ dmn_ident m = i /\ dmn_filter m = mux_filter f
  | None => forall id m, es_mux st !! id = Some m -> dmn_ident m = i -> dmn_filter m = mux_filter f -> False
  end.
Proof.
  intros [_ _ _ B]. unfold _dispatch_muxnote_find. fold (mux_filter f).
  assert (forall l, (forall id, id ∈ l -> is_Some (es_mux st !! id)) ->
    match muxnote_find (es_mux st) l i (mux_filter f) with
    | Some id => exists m, es_mux st !! id = Some m /\ dmn_ident m = i /\ dmn_filter m = mux_filter f
    | None => forall id m, id ∈ l -> es_mux st !! id = Some m -> dmn_ident m = i -> dmn_filter m = mux_filter f -> False
    end) as H.
  { induction l as [|id l IH]; intros Hl; simpl; [intros ? ? Hin; by apply elem_of_nil in Hin|].
    destruct (Hl id ltac:(by left)) as [m Hm]. rewrite Hm. opt_simpl. case_decide as E; [by exists m|].
    specialize (IH ltac:(intros; apply Hl; by right)). destruct (muxnote_find _ _ _ _); [done|].
    intros id' m' [->|Hin]%elem_of_cons Hm' Hi Hf; [|by eapply IH]. rewrite Hm in Hm'. injection Hm' as <-. by destruct E. }
  specialize (H (_dispatch_sources st (DSL_HASH i))). ospecialize (H _).
  { intros id Hin. apply (bk_in _ _ _ B) in Hin as (m & -> & _). done. }
  destruct (muxnote_find _ _ _ _); [done|]. intros id m Hm Hi Hf. apply (H id m); try done.
  apply (bk_in _ _ _ B). exists m. by subst i.
Qed.

(** ** One muxnote changed in place *)

Record updated (st st' : mux_state) (id : nat) (m m' : dispatch_muxnote_s) (ra wa : bool) : Prop := {
  up_mux : es_mux st' = <[id := m']> (es_mux st);
  up_epfd : exists it, _dispatch_epfd st' = <[dmn_fd m := it]> (_dispatch_epfd st) /\ item_ok it id m' ra wa;
  up_sources : _dispatch_sources st' = _dispatch_sources st;
  up_next : es_next st' = es_next st;
  up_fd : dmn_fd m' = dmn_fd m;
  up_ident : dmn_ident m' = dmn_ident m;
  up_filter : dmn_filter m' = dmn_filter m;
  up_shape : shape m' ra wa;
}.

(** Two muxnotes have two descriptors. *)
Lemma kernel_distinct st i j m m' : kernel_inv st -> es_mux st !! i = Some m -> es_mux st !! j = Some m' ->
  dmn_fd m = dmn_fd m' -> i = j.
Proof.
  intros K Hi Hj E. destruct (K i m Hi) as (? & ? & it & _ & Hit & [<- _ _]). destruct (K j m' Hj) as (? & ? & it' & _ & Hit' & [<- _ _]).
  rewrite E, Hit' in Hit. by injection Hit as ->.
Qed.

Section updated.
Context (st st' : mux_state) (id : nat) (m m' : dispatch_muxnote_s) (ra wa : bool) (I : mux_inv st)
  (Hm : es_mux st !! id = Some m) (U : updated st st' id m m' ra wa).

Lemma updated_kernel : kernel_inv st'.
Proof using All.
  intros j k Hj. rewrite (up_mux _ _ _ _ _ _ _ U) in Hj. destruct (up_epfd _ _ _ _ _ _ _ U) as (it & Eit & Hok). rewrite Eit.
  destruct (decide (j = id)) as [->|Hne].
  - rewrite lookup_insert_eq in Hj. injection Hj as <-. exists ra, wa, it. rewrite (up_fd _ _ _ _ _ _ _ U), lookup_insert_eq.
    split; [apply U|done].
  - rewrite lookup_insert_ne in Hj by done. destruct (mi_kernel _ I j k Hj) as (ra2 & wa2 & it2 & S2 & L2 & O2).
    exists ra2, wa2, it2. split; [done|]. rewrite lookup_insert_ne; [done|].
    intros E. apply Hne. symmetry. by eapply (kernel_distinct st); [apply I| | |].
Qed.

Lemma updated_items : items_inv st'.
Proof using All.
  intros fd it Hit. rewrite (up_mux _ _ _ _ _ _ _ U). destruct (up_epfd _ _ _ _ _ _ _ U) as (it' & Eit & Hok). rewrite Eit in Hit.
  destruct (decide (fd = dmn_fd m)) as [->|Hne].
  - rewrite lookup_insert_eq in Hit. injection Hit as <-. exists m'. rewrite (it_data _ _ _ _ _ Hok), lookup_insert_eq. split; [done|apply U].
  - rewrite lookup_insert_ne in Hit by done. destruct (mi_items _ I fd it Hit) as (k & Hk & <-). exists k.
    rewrite lookup_insert_ne; [done|]. intros E. rewrite <- E, Hm in Hk. by injection Hk as ->.
Qed.

Lemma updated_bucket : bucket_inv (es_mux st') (_dispatch_sources st') (es_next st').
Proof using All.
  destruct U as [-> _ -> -> _ Ei Ef _]. destruct (mi_bucket _ I) as [B1 B2 B3]. constructor.
  - intros b j. rewrite B1. destruct (decide (j = id)) as [->|Hne]; [|by rewrite lookup_insert_ne by done].
    rewrite lookup_insert_eq, Hm. split; intros (k & [= <-] & ->); eexists; (split; [done|congruence]).
  - intros i j k k'. destruct (decide (i = id)) as [->|Hi], (decide (j = id)) as [->|Hj]; rewrite ?lookup_insert_eq, ?lookup_insert_ne by done.
    + done.
    + intros [= <-] Hk' E1 E2. apply (B2 id j m k'); congruence.
    + intros Hk [= <-] E1 E2. apply (B2 i id k m); congruence.
    + apply B2.
  - intros j [k Hk]. destruct (decide (j = id)) as [->|Hne]; apply B3; [by exists m|]. rewrite lookup_insert_ne in Hk by done. by exists k.
Qed.

Lemma updated_watches i f : filter_ok f -> watches st' i f <->
  if decide (i = dmn_ident m /\ mux_filter f = dmn_filter m) then dir f ra wa = true else watches st i f.
Proof using All.
  intros Hf. pose proof U as [Em _ _ _ Efd Ei Ef Sh]. destruct (up_epfd _ _ _ _ _ _ _ U) as (it & Eit & Hok). split.
  - intros (j & k & it2 & Hk & <- & Hfk & Hit & On & Hb). rewrite Em in Hk. rewrite Eit in Hit. destruct (decide (j = id)) as [->|Hne].
    + rewrite lookup_insert_eq in Hk. injection Hk as <-. rewrite Ei, decide_True by (split; congruence).
      rewrite Efd, lookup_insert_eq in Hit. injection Hit as <-. by rewrite (it_on _ _ _ _ _ Hok On), evmask_bit in Hb.
    + rewrite lookup_insert_ne in Hk by done. rewrite decide_False.
      2:{ intros [E1 E2]. apply Hne. apply (bk_unique _ _ _ (mi_bucket _ I) j id k m); congruence. }
      exists j, k, it2. rewrite lookup_insert_ne in Hit; [done|]. intros E. apply Hne. symmetry.
      by eapply (kernel_distinct st); [apply I| | |].
  - case_decide as E.
    + destruct E as [-> E]. intros Hd. exists id, m', it. rewrite Em, Eit, Efd, !lookup_insert_eq. split_and!; try done; [congruence| |].
      * destruct (ei_enabled it) eqn:On; [done|]. destruct (it_off _ _ _ _ _ Hok On) as [-> ->]. unfold dir in Hd. by case_decide.
      * destruct (ei_enabled it) eqn:On; [|destruct (it_off _ _ _ _ _ Hok On) as [-> ->]; unfold dir in Hd; by case_decide].
        by rewrite (it_on _ _ _ _ _ Hok On), evmask_bit.
    + intros (j & k & it2 & Hk & <- & Hfk & Hit & On & Hb). exists j, k, it2. rewrite Em, Eit.
      assert (j <> id) as Hne by (intros ->; rewrite Hm in Hk; injection Hk as <-; by apply E).
      rewrite !lookup_insert_ne; try done. intros E2. apply Hne. symmetry. by eapply (kernel_distinct st); [apply I| | |].
Qed.

(** The lists are as they were. *)
Lemma updated_lists : es_unotes st' = es_unotes st -> dmn_readers_head m' = dmn_readers_head m ->
  dmn_writers_head m' = dmn_writers_head m -> lists_inv st'.
Proof using All.
  intros Eu Er Ew. pose proof U as [Em _ _ _ _ Ei Ef _]. destruct (mi_lists _ I) as [L1 L2 L3 L4 L5]. constructor; rewrite ?Eu, ?Em; try done.
  - intros j k u Hk Hu. destruct (decide (j = id)) as [->|Hne].
    + rewrite lookup_insert_eq in Hk. injection Hk as <-. rewrite Er, Ew in Hu. by apply (L1 id m).
    + rewrite lookup_insert_ne in Hk by done. by apply (L1 j k).
  - intros u n j Hu Hj. destruct (L2 u n j Hu Hj) as (k & Hk & H). destruct (decide (j = id)) as [->|Hne].
    + rewrite Hm in Hk. injection Hk as <-. exists m'. rewrite lookup_insert_eq, Ei, Ef, Er, Ew. done.
    + exists k. by rewrite lookup_insert_ne by done.
  - intros j k Hk. destruct (decide (j = id)) as [->|Hne].
    + rewrite lookup_insert_eq in Hk. injection Hk as <-. rewrite Er, Ew. by apply (L3 id).
    + rewrite lookup_insert_ne in Hk by done. by apply (L3 j).
Qed.

End updated.

(** What the kernel watches, from the shape of a muxnote. *)
Lemma watches_flag st id m ra wa it f : mux_inv st -> es_mux st !! id = Some m -> shape m ra wa ->
  _dispatch_epfd st !! dmn_fd m = Some it -> item_ok it id m ra wa -> filter_ok f -> dmn_filter m = mux_filter f ->
  watches st (dmn_ident m) f <-> dir f ra wa = true.
Proof.
  intros I Hm Sh Hit Ok Hf E.
  assert (updated st st id m m ra wa) as U.
  { constructor; try done; [by rewrite insert_id|]. exists it. by rewrite insert_id. }
  rewrite (updated_watches st st id m m ra wa I Hm U) by done. by rewrite decide_True.
Qed.

(** Reprogramming an entry. *)
Lemma modify_updated st id m m' ra wa : es_mux st !! id = Some m -> is_Some (_dispatch_epfd st !! dmn_fd m) ->
  dmn_fd m' = dmn_fd m -> dmn_ident m' = dmn_ident m -> dmn_filter m' = dmn_filter m -> shape m' ra wa ->
  updated st (epoll_modify (with_mux st id m') id (dmn_fd m') (_dispatch_muxnote_armed_events m')) id m m' ra wa.
Proof.
  intros Hm [it Hit] Efd Ei Ef Sh. unfold epoll_modify, _dispatch_epoll_update. simpl. rewrite Efd, Hit. simpl.
  constructor; try done. eexists. split; [done|]. constructor; try done. intros _. simpl. by apply shape_armed.
Qed.

(** ** Resumption *)

Definition watch_added (st st' : mux_state) (i0 f0 : Z) : Prop :=
  forall i f, filter_ok f -> watches st' i f <-> watches st i f \/ (i = i0 /\ f = f0).

(** The muxnote of a registered unote, with its entry. *)
Lemma unote_mux st u n : mux_inv st -> es_unotes st !! u = Some n -> is_Some (du_muxnote n) ->
  exists id m ra wa it, du_muxnote n = Some id /\ es_mux st !! id = Some m /\ dmn_ident m = du_ident n /\
    dmn_filter m = mux_filter (du_filter n) /\ u ∈ dir (du_filter n) (dmn_readers_head m) (dmn_writers_head m) /\
    shape m ra wa /\ _dispatch_epfd st !! dmn_fd m = Some it /\ item_ok it id m ra wa.
Proof.
  intros I Hu [id Hid]. destruct (ls_unote _ (mi_lists _ I) u n id Hu Hid) as (m & Hm & Hi & Hf & Hin & _).
  destruct (mi_kernel _ I id m Hm) as (ra & wa & it & H). by exists id, m, ra, wa, it.
Qed.

Lemma elem_nonempty {A} (x : A) l : x ∈ l -> nonempty l = true.
Proof. destruct l; [by intros ?%elem_of_nil|done]. Qed.

(** A direction armed anew. *)
Lemma shape_rearm m ra wa f : shape m ra wa -> filter_ok f -> dmn_filter m = mux_filter f ->
  dir f (nonempty (dmn_readers_head m)) (nonempty (dmn_writers_head m)) = true ->
  shape (set_events m (dmn_events m)
    (dmn_disarmed_events m .& lnotw 32 (evmask (bool_decide (mux_filter f = EVFILT_READ)) (dir f true false) (dir f false true))))
    (dir f true ra) (dir f wa true).
Proof.
  intros [He Hd Hr Hw Hf Hu] Ok Ef Hne. constructor; simpl; try done.
  - rewrite Hd. destruct Ok as [->|[->| ->]]; cbn in *; rewrite ?Hne;
      destruct ra, wa, (nonempty (dmn_readers_head m)), (nonempty (dmn_writers_head m)); try done.
  - destruct Ok as [->|[->| ->]]; cbn in *; auto.
  - destruct Ok as [->|[->| ->]]; cbn in *; auto.
  - destruct Hf as [?|(? & ? & ?)]; [by left|right]. destruct Ok as [->|[->| ->]]; [done| |done].
    by rewrite Ef in *.
Qed.

Lemma disarmed_bit m ra wa f : shape m ra wa -> filter_ok f ->
  (evmask (bool_decide (mux_filter f = EVFILT_READ)) (dir f true false) (dir f false true) .& dmn_disarmed_events m <> 0) <->
  dir f (nonempty (dmn_readers_head m) && negb ra) (nonempty (dmn_writers_head m) && negb wa) = true.
Proof.
  intros [_ Hd _ _ _ _] Ok. rewrite Hd.
  destruct Ok as [->|[->| ->]]; cbn; destruct (nonempty (dmn_readers_head m)), ra, (nonempty (dmn_writers_head m)), wa; cbn; split; done.
Qed.

Lemma resume_ok st u n : mux_inv st -> es_unotes st !! u = Some n -> is_Some (du_muxnote n) ->
  exists st', _dispatch_unote_resume_muxed st u = Some st' /\ mux_inv st' /\ es_unotes st' = es_unotes st /\
    es_log st' = es_log st /\ watch_added st st' (du_ident n) (du_filter n).
Proof.
  intros I Hu Hr. destruct (unote_mux st u n I Hu Hr) as (id & m & ra & wa & it & Hid & Hm & Hi & Hf & Hin & Sh & Hit & Ok).
  destruct (ls_ok _ (mi_lists _ I) u n Hu) as [Fok Hre].
  unfold _dispatch_unote_resume_muxed. rewrite Hu. opt_simpl. rewrite Hid. opt_simpl. rewrite Hm. opt_simpl.
  rewrite required_events by done. clear Hre. set (f := du_filter n) in *.
  assert (dir f (nonempty (dmn_readers_head m)) (nonempty (dmn_writers_head m)) = true) as Hne.
  { unfold dir in *. case_decide; by eapply elem_nonempty. }
  destruct (decide (_ .& dmn_disarmed_events m <> 0)) as [Hd|Hd].
  - apply (disarmed_bit m ra wa f Sh Fok) in Hd. pose proof (shape_rearm m ra wa f Sh Fok Hf Hne) as Sh'.
    eexists. split; [done|]. set (m' := set_events _ _ _) in *. cbv zeta.
    pose proof (modify_updated st id m m' _ _ Hm (mk_is_Some _ _ Hit) eq_refl eq_refl eq_refl Sh') as U.
    set (st' := epoll_modify _ _ _ _) in *.
    assert (es_unotes st' = es_unotes st /\ es_log st' = es_log st) as [Eu El].
    { unfold st', epoll_modify, _dispatch_epoll_update. simpl. rewrite Hit. done. }
    split_and!; try done.
    + constructor; [by eapply updated_kernel|by eapply updated_items|by eapply updated_lists|by eapply updated_bucket].
    + intros i f' Hf'. rewrite (updated_watches _ _ _ _ _ _ _ I Hm U) by done. case_decide as E.
      * destruct E as [-> E]. rewrite (watches_flag st id m ra wa it f') by done.
        rewrite Hi. unfold dir, mux_filter, filter_ok in *. repeat case_decide; destruct Fok as [?|[?|?]], Hf' as [?|[?|?]]; intuition congruence.
      * split; [by left|]. intros [?|[-> ->]]; [done|]. destruct E. split; congruence.
  - eexists. split; [done|]. split_and!; try done. intros i f' Hf'. split; [by left|]. intros [?|[-> ->]]; [done|].
    rewrite <- Hi. apply (watches_flag st id m ra wa it f I Hm Sh Hit Ok Fok Hf).
    rewrite (disarmed_bit m ra wa f Sh Fok) in Hd. unfold dir in *. case_decide; rewrite Hne in Hd; simpl in Hd; by destruct ra, wa.
Qed.

(** ** Events *)

(** What stays of a unote when events are merged. *)
Definition unote_key (n : unote) := (du_ident n, du_filter n, du_rearm n, du_registered n, du_muxnote n).
Definition same_keys (st st' : mux_state) : Prop := forall u, unote_key <$> es_unotes st' !! u = unote_key <$> es_unotes st !! u.

Lemma same_keys_lookup st st' u n : same_keys st st' -> es_unotes st' !! u = Some n ->
  exists n0, es_unotes st !! u = Some n0 /\ unote_key n = unote_key n0.
Proof. intros K Hu. specialize (K u). rewrite Hu in K. destruct (es_unotes st !! u) as [n0|]; [|done]. exists n0. split; [done|]. simpl in K. congruence. Qed.

Lemma same_keys_sym st st' : same_keys st st' -> same_keys st' st.
Proof. intros K u. by rewrite K. Qed.

Lemma lists_keys st st' : es_mux st' = es_mux st -> same_keys st st' -> lists_inv st -> lists_inv st'.
Proof.
  intros Em K [L1 L2 L3 L4 L5]. constructor; rewrite ?Em; try done.
  - intros id m u Hm Hu. destruct (L1 id m u Hm Hu) as (n & Hn & Hid).
    destruct (same_keys_lookup st' st u n (same_keys_sym _ _ K) Hn) as (n' & Hn' & E). exists n'. split; [done|]. by injection E as _ _ _ _ <-.
  - intros u n id Hu Hid. destruct (same_keys_lookup st st' u n K Hu) as (n0 & Hn0 & E). injection E as -> -> _ _ E5.
    apply (L2 u n0 id Hn0). congruence.
  - intros u n Hu. destruct (same_keys_lookup st st' u n K Hu) as (n0 & Hn0 & E). injection E as _ -> -> _ _. by apply (L4 u).
  - intros u n Hu. destruct (same_keys_lookup st st' u n K Hu) as (n0 & Hn0 & E). injection E as _ _ _ -> ->. by apply (L5 u).
Qed.

Definition merge_effects (data : Z) (l : list nat) : list mux_effect := flat_map (fun u => [Retain u; MergeEvt u data]) l.

(** Nothing but unotes and the log. *)
Record frame (st st' : mux_state) : Prop := {
  fr_mux : es_mux st' = es_mux st;
  fr_next : es_next st' = es_next st;
  fr_sources : _dispatch_sources st' = _dispatch_sources st;
  fr_epfd : _dispatch_epfd st' = _dispatch_epfd st;
  fr_keys : same_keys st st';
}.

Lemma mux_frame_trans st1 st2 st3 : frame st1 st2 -> frame st2 st3 -> frame st1 st3.
Proof. intros [A1 A2 A3 A4 A5] [B1 B2 B3 B4 B5]. constructor; [congruence..|]. intros u. by rewrite B5. Qed.

Lemma merge_unotes_ok g data l st : (forall n, unote_key (g n) = unote_key n) -> (forall u, u ∈ l -> is_Some (es_unotes st !! u)) ->
  exists st', merge_unotes g data st l = Some st' /\ frame st st' /\ es_log st' = es_log st ++ merge_effects data l.
Proof.
  intros Hg. revert st. induction l as [|u l IH]; intros st Hl; simpl.
  - exists st. rewrite app_nil_r. done.
  - destruct (Hl u ltac:(by left)) as [n Hn]. unfold merge_unote. rewrite Hn. opt_simpl.
    set (st1 := effect _ _). assert (frame st st1) as F1.
    { constructor; try done. intros v. simpl. destruct (decide (v = u)) as [->|]; [|by rewrite lookup_insert_ne].
      rewrite lookup_insert_eq, Hn. simpl. by rewrite Hg. }
    destruct (IH st1) as (st' & -> & F2 & El).
    { intros v Hv. destruct (Hl v ltac:(by right)) as [k Hk]. pose proof (fr_keys _ _ F1 v) as E. rewrite Hk in E.
      by destruct (es_unotes st1 !! v). }
    exists st'. split; [done|]. split; [by eapply mux_frame_trans|]. rewrite El. simpl. by rewrite <- !app_assoc.
Qed.

Lemma frame_watches st st' i f : frame st st' -> watches st' i f <-> watches st i f.
Proof. intros [E1 _ _ E4 _]. unfold watches. by rewrite E1, E4. Qed.

Lemma frame_inv st st' : frame st st' -> mux_inv st -> mux_inv st'.
Proof.
  intros [E1 E2 E3 E4 K] [I1 I2 I3 I4]. constructor.
  - intros id m. rewrite E1, E4. apply I1.
  - intros fd it. rewrite E1, E4. apply I2.
  - by apply (lists_keys st).
  - by rewrite E1, E2, E3.
Qed.

(** How often a unote's handler was called. *)
Definition is_merge (u : nat) (e : mux_effect) : Prop := match e with MergeEvt v _ => v = u | _ => False end.
#[export] Instance is_merge_dec u e : Decision (is_merge u e).
Proof. destruct e; simpl; apply _. Defined.
Definition merges (u : nat) (L : list mux_effect) : nat := length (filter (is_merge u) L).

Lemma merges_app u L L' : merges u (L ++ L') = (merges u L + merges u L')%nat.
Proof. unfold merges. by rewrite filter_app, length_app. Qed.

Lemma merges_effects u data l : NoDup l -> merges u (merge_effects data l) = if decide (u ∈ l) then 1%nat else 0%nat.
Proof.
  unfold merges. induction 1 as [|v l Hv Hl IH]; [done|].
  change (merge_effects data (v :: l)) with (Retain v :: MergeEvt v data :: merge_effects data l).
  rewrite filter_cons_False by (by intros []). destruct (decide (v = u)) as [->|Hne].
  - rewrite filter_cons_True by done. simpl. rewrite IH. rewrite (decide_True (P := u ∈ u :: l)) by (by left). by rewrite decide_False.
  - rewrite filter_cons_False by done. rewrite IH. destruct (decide (u ∈ l)) as [H|H]; [by rewrite decide_True by (by right)|].
    rewrite decide_False; [done|]. by intros [->|?]%elem_of_cons.
Qed.

(** The kernel reports an event and the loop handles it. *)
Definition deliver (ioctl : bool -> option Z) (readable : bool) (st : mux_state) (fd events : Z) : outcome mux_state :=
  match epoll_report st fd with
  | Some (st, id) => drain_muxnote ioctl readable st id events
  | None => Crash InvalidAccess
  end.

(** [epoll_wait] reports what an enabled entry asks for; EPOLLHUP and EPOLLERR come unasked. *)
Definition event_ok (st : mux_state) (fd events : Z) : Prop :=
  Z.testbit events 14 = false /\ exists it, _dispatch_epfd st !! fd = Some it /\ ei_enabled it = true /\
    forall f, Z.testbit events (dir_bit f) = true -> Z.testbit (ei_events it) (dir_bit f) = true.

(** The events end the wait for filter [f]. *)
Definition fires (events f : Z) : bool := Z.testbit events 4 || Z.testbit events (dir_bit f).

Lemma fires_dir ev f : fires ev f = dir f (fires ev EVFILT_READ) (fires ev EVFILT_WRITE).
Proof. unfold fires, dir_bit, dir. by case_decide. Qed.

(** The events as [_dispatch_event_merge_fd] completes them. *)
Lemma hup_bits ev os ra wa f :
  (forall g, Z.testbit ev (dir_bit g) = true -> dir g ra wa = true) ->
  Z.testbit (if decide (ev .& EPOLLHUP <> 0) then ev .| (evmask os ra wa .& (EPOLLIN .| EPOLLOUT)) else ev) (dir_bit f) =
    dir f ra wa && fires ev f.
Proof.
  intros Hv. change EPOLLHUP with (2 ^ 4). rewrite decide_bit by lia. unfold fires. rewrite land_dirs.
  specialize (Hv f). destruct (Z.testbit ev 4).
  - rewrite orb_true_l, andb_true_r, Z.lor_spec, dirmask_bit. rewrite (evmask_bit os ra wa EVFILT_READ : Z.testbit _ 0 = _),
      (evmask_bit os ra wa EVFILT_WRITE : Z.testbit _ 2 = _).
    change (Z.testbit ev (dir_bit f) || dir f ra wa = dir f ra wa). destruct (Z.testbit ev (dir_bit f)); [by rewrite Hv|done].
  - rewrite orb_false_l. destruct (Z.testbit ev (dir_bit f)); [by rewrite Hv|by rewrite andb_false_r].
Qed.

(** The same muxnote but for what it knows of the ioctls. *)
Definition skips (m m' : dispatch_muxnote_s) : Prop := exists a b,
  m' = mkMuxnote (dmn_readers_head m) (dmn_writers_head m) (dmn_fd m) (dmn_ident m) (dmn_events m) (dmn_disarmed_events m)
         (dmn_filter m) a b.

Lemma skips_refl m : skips m m.
Proof. exists (dmn_skip_outq_ioctl m), (dmn_skip_inq_ioctl m). by destruct m. Qed.
Lemma skips_trans m m1 m2 : skips m m1 -> skips m1 m2 -> skips m m2.
Proof. intros (a & b & ->) (a' & b' & ->). by exists a', b'. Qed.
Lemma skips_shape m m' ra wa : skips m m' -> shape m ra wa -> shape m' ra wa.
Proof. intros (a & b & ->) [? ? ? ? ? ?]. by constructor. Qed.

(** The delivery to one direction. *)
Definition pass (b writer : bool) (ioctl : bool -> option Z) (st : mux_state) (m : dispatch_muxnote_s) : option (mux_state * dispatch_muxnote_s) :=
  if b then
    let '(data, m) := _dispatch_get_buffer_size m writer (ioctl writer) in
    st ← merge_unotes (fd_merged data) data st (if writer then dmn_writers_head m else dmn_readers_head m); Some (st, m)
  else Some (st, m).

Lemma pass_ok (b writer : bool) ioctl st m : let l := if writer then dmn_writers_head m else dmn_readers_head m in
  NoDup l -> (forall u, u ∈ l -> is_Some (es_unotes st !! u)) ->
  exists st' m' L, pass b writer ioctl st m = Some (st', m') /\ frame st st' /\ skips m m' /\ es_log st' = es_log st ++ L /\
    forall u, merges u L = if decide (b = true /\ u ∈ l) then 1%nat else 0%nat.
Proof.
  intros l Hnd Hl. unfold pass. destruct b.
  2:{ exists st, m, []. split; [done|]. split; [by constructor|]. split; [apply skips_refl|]. split; [by rewrite app_nil_r|].
    intros u. by rewrite decide_False by (by intros [? _]). }
  unfold _dispatch_get_buffer_size. set (skip := if writer then dmn_skip_outq_ioctl m else dmn_skip_inq_ioctl m).
  assert (exists data m', (if skip then (1, m) else match ioctl writer with None => (1, set_skip m writer) | Some n => (u64 n, m) end) = (data, m')
    /\ skips m m') as (data & m' & -> & Hs).
  { clearbody skip. destruct skip, (ioctl writer); eexists _, _; (split; [done|]); try apply skips_refl. by eexists _, _. }
  assert ((if writer then dmn_writers_head m' else dmn_readers_head m') = l) as -> by (destruct Hs as (? & ? & ->); done).
  destruct (merge_unotes_ok (fd_merged data) data l st) as (st' & -> & F & El); try done.
  exists st', m', (merge_effects data l). split_and!; try done. intros u. rewrite merges_effects by done.
  destruct (decide (u ∈ l)) as [H|H]; [by rewrite decide_True|]. by rewrite decide_False by (by intros [_ ?]).
Qed.

(** A muxnote whose directions [fr] and [fw] have fired. *)
Lemma shape_fired m ra wa fr fw : shape m ra wa -> dmn_filter m = EVFILT_READ -> (fr = true -> ra = true) -> (fw = true -> wa = true) ->
  shape (set_events m (dmn_events m) (dmn_disarmed_events m .| dirmask fr fw)) (ra && negb fr) (wa && negb fw).
Proof.
  intros [He Hd Hr Hw Hf Hu] Hfil Hfr Hfw. constructor; simpl; try done.
  - rewrite Hd. destruct fr, fw, ra, wa, (nonempty (dmn_readers_head m)), (nonempty (dmn_writers_head m)); try done;
      first [by specialize (Hfr eq_refl)|by specialize (Hfw eq_refl)|by specialize (Hr eq_refl)|by specialize (Hw eq_refl)].
  - intros [? _]%andb_prop. auto.
  - intros [? _]%andb_prop. auto.
  - by left.
Qed.

Definition off_item (it : epoll_item) : epoll_item :=
  {| ei_events := ei_events it; ei_data := ei_data it; ei_enabled := bool_decide (ei_events it .& EPOLLONESHOT = 0) |}.

Section event.
Context (st : mux_state) (I : mux_inv st) (id : nat) (m : dispatch_muxnote_s) (Hm : es_mux st !! id = Some m)
  (ra wa : bool) (it : epoll_item) (Sh : shape m ra wa) (Hit : _dispatch_epfd st !! dmn_fd m = Some it)
  (Ok : item_ok it id m ra wa) (On : ei_enabled it = true).

Definition reported : mux_state := with_epfd st (<[dmn_fd m := off_item it]> (_dispatch_epfd st)).

Lemma report_eq : epoll_report st (dmn_fd m) = Some (reported, id).
Proof using Hit Ok On. unfold epoll_report. rewrite Hit. opt_simpl. rewrite On. unfold reported, off_item. by rewrite (it_data _ _ _ _ _ Ok). Qed.

Lemma members_known u : u ∈ dmn_readers_head m \/ u ∈ dmn_writers_head m -> is_Some (es_unotes st !! u).
Proof using I Hm. intros Hu. by destruct (ls_in _ (mi_lists _ I) id m u Hm Hu) as (n & -> & _). Qed.

Lemma merge_fd_ok ioctl ev : dmn_filter m = EVFILT_READ ->
  (forall f, Z.testbit ev (dir_bit f) = true -> Z.testbit (ei_events it) (dir_bit f) = true) ->
  exists st' m' L, _dispatch_event_merge_fd ioctl reported id ev = Some st' /\ same_keys st st' /\
    updated st st' id m m' (ra && negb (fires ev EVFILT_READ)) (wa && negb (fires ev EVFILT_WRITE)) /\
    dmn_readers_head m' = dmn_readers_head m /\ dmn_writers_head m' = dmn_writers_head m /\ es_log st' = es_log st ++ L /\
    forall u, merges u L = if decide ((ra && fires ev EVFILT_READ = true /\ u ∈ dmn_readers_head m) \/
                                      (wa && fires ev EVFILT_WRITE = true /\ u ∈ dmn_writers_head m)) then 1%nat else 0%nat.
Proof using All.
  intros Hf Hv. unfold _dispatch_event_merge_fd. change (es_mux reported) with (es_mux st). rewrite Hm. opt_simpl.
  rewrite (shape_armed m ra wa Sh). set (os := bool_decide _).
  assert (forall g, Z.testbit ev (dir_bit g) = true -> dir g ra wa = true) as Hv'.
  { intros g Hg. apply Hv in Hg. by rewrite (it_on _ _ _ _ _ Ok On), evmask_bit in Hg. }
  pose proof (hup_bits ev os ra wa EVFILT_READ Hv') as HR. pose proof (hup_bits ev os ra wa EVFILT_WRITE Hv') as HW.
  set (evs := if decide _ then _ else _) in *. change (dir EVFILT_READ ra wa) with ra in HR. change (dir EVFILT_WRITE ra wa) with wa in HW.
  change (dir_bit EVFILT_READ) with 0 in HR. change (dir_bit EVFILT_WRITE) with 2 in HW.
  set (fr := ra && fires ev EVFILT_READ) in *. set (fw := wa && fires ev EVFILT_WRITE) in *.
  rewrite (decide_in evs), (land_dirs evs), HR, HW. clearbody evs.
  pose proof (shape_fired m ra wa fr fw Sh Hf) as Sf. ospecialize (Sf _ _); [by intros [? _]%andb_prop..|].
  set (m1 := set_events m (dmn_events m) (dmn_disarmed_events m .| dirmask fr fw)) in *.
  destruct (ls_nodup _ (mi_lists _ I) id m Hm) as [NR NW].
  destruct (pass_ok fr false ioctl reported m1 NR) as (st1 & m2 & L1 & P1 & F1 & S1 & E1 & M1); [intros; apply members_known; by left|].
  unfold pass in P1. simpl in P1. rewrite P1. opt_simpl. clear P1.
  destruct S1 as (a & b & ->). set (m2 := mkMuxnote _ _ _ _ _ _ _ _ _) in *.
  destruct (pass_ok fw true ioctl st1 m2 NW) as (st2 & m3 & L2 & P2 & F2 & S2 & E2 & M2).
  { intros u Hu. pose proof (fr_keys _ _ F1 u) as K. destruct (members_known u (or_intror Hu)) as [n Hn].
    change (es_unotes reported) with (es_unotes st) in K. rewrite Hn in K. by destruct (es_unotes st1 !! u). }
  rewrite (decide_out evs), HW. unfold pass in P2. simpl in P2. rewrite P2. opt_simpl. clear P2.
  pose proof (mux_frame_trans _ _ _ F1 F2) as F. pose proof (skips_trans m1 m2 m3 ltac:(by eexists _, _) S2) as S.
  pose proof (skips_shape m1 m3 _ _ S Sf) as Sh3.
  assert (ra && negb fr = ra && negb (fires ev EVFILT_READ)) as Er by (unfold fr; by destruct ra, (fires ev EVFILT_READ)).
  assert (wa && negb fw = wa && negb (fires ev EVFILT_WRITE)) as Ew by (unfold fw; by destruct wa, (fires ev EVFILT_WRITE)).
  rewrite Er, Ew in Sh3.
  assert (dmn_fd m3 = dmn_fd m /\ dmn_ident m3 = dmn_ident m /\ dmn_filter m3 = dmn_filter m /\
    dmn_readers_head m3 = dmn_readers_head m /\ dmn_writers_head m3 = dmn_writers_head m) as (Efd & Ei & Efl & Erd & Ewr)
    by (destruct S as (? & ? & ->); done).
  rewrite (shape_armed m3 _ _ Sh3). set (os3 := bool_decide (dmn_filter m3 = _)).
  exists (if decide (evmask os3 (ra && negb (fires ev EVFILT_READ)) (wa && negb (fires ev EVFILT_WRITE)) .& (EPOLLIN .| EPOLLOUT) <> 0)
     then epoll_modify (with_mux st2 id m3) id (dmn_fd m3) (evmask os3 (ra && negb (fires ev EVFILT_READ)) (wa && negb (fires ev EVFILT_WRITE)))
     else with_mux st2 id m3), m3, (L1 ++ L2).
  split; [by destruct (decide _)|].
  assert (_dispatch_epfd st2 = <[dmn_fd m := off_item it]> (_dispatch_epfd st)) as Eep by (by rewrite (fr_epfd _ _ F)).
  unfold epoll_modify, _dispatch_epoll_update. simpl. rewrite Eep, Efd, lookup_insert_eq. simpl. rewrite insert_insert_eq.
  set (D := decide _).
  split_and!; try done.
  - intros u. destruct D; simpl; by rewrite (fr_keys _ _ F u).
  - constructor; try done.
    + destruct D; simpl; by rewrite (fr_mux _ _ F).
    + destruct D as [HD|HD]; simpl.
      * eexists. split; [done|]. by constructor.
      * exists (off_item it). split; [by rewrite Eep|].
        rewrite land_dirs in HD. rewrite (evmask_bit os3 _ _ EVFILT_READ : Z.testbit _ 0 = _), (evmask_bit os3 _ _ EVFILT_WRITE : Z.testbit _ 2 = _) in HD.
        assert (ra && negb (fires ev EVFILT_READ) = false /\ wa && negb (fires ev EVFILT_WRITE) = false) as [-> ->].
        { destruct (ra && negb (fires ev EVFILT_READ)), (wa && negb (fires ev EVFILT_WRITE)); try done; exfalso; by apply HD. }
        constructor; [apply Ok| |done]. simpl. rewrite (it_on _ _ _ _ _ Ok On), Hf. by destruct ra, wa.
    + destruct D; simpl; by rewrite (fr_sources _ _ F).
    + destruct D; simpl; by rewrite (fr_next _ _ F).
  - destruct D; simpl; by rewrite E2, E1, app_assoc.
  - intros u. rewrite merges_app, M1, M2. simpl. assert (u ∈ dmn_readers_head m -> u ∈ dmn_writers_head m -> False) as Hex.
    { intros H1 H2. destruct (ls_in _ (mi_lists _ I) id m u Hm (or_introl H1)) as (n & Hn & Hid).
      destruct (ls_unote _ (mi_lists _ I) u n id Hn Hid) as (k & Hk & _ & _ & _ & Hno). rewrite Hm in Hk. injection Hk as <-.
      unfold dir in Hno. by case_decide. }
    repeat case_decide; intuition congruence.
Qed.
End event.

(** The handler of [n] is called for [ev] on descriptor [i]. *)
Definition called (st : mux_state) (readable : bool) (i mf ev : Z) (n : unote) : Prop :=
  is_Some (du_muxnote n) /\ du_ident n = i /\ mux_filter (du_filter n) = mf /\
  if decide (mf = EVFILT_SIGNAL) then readable = true else watches st i (du_filter n) /\ fires ev (du_filter n) = true.

(** The unotes of a muxnote, from its lists. *)
Lemma member_iff st id m u n : mux_inv st -> es_mux st !! id = Some m -> es_unotes st !! u = Some n ->
  (is_Some (du_muxnote n) /\ du_ident n = dmn_ident m /\ mux_filter (du_filter n) = dmn_filter m) <->
  u ∈ dir (du_filter n) (dmn_readers_head m) (dmn_writers_head m).
Proof.
  intros I Hm Hu. split.
  - intros ([j Hj] & Ei & Ef). destruct (ls_unote _ (mi_lists _ I) u n j Hu Hj) as (k & Hk & Ek & Fk & Hin & _).
    assert (j = id) as -> by (apply (bk_unique _ _ _ (mi_bucket _ I) j id k m); congruence). rewrite Hm in Hk. by injection Hk as <-.
  - intros Hin. assert (u ∈ dmn_readers_head m \/ u ∈ dmn_writers_head m) as Hin' by (unfold dir in Hin; case_decide; auto).
    destruct (ls_in _ (mi_lists _ I) id m u Hm Hin') as (n' & Hn' & Hid). rewrite Hu in Hn'. injection Hn' as <-.
    destruct (ls_unote _ (mi_lists _ I) u n id Hu Hid) as (k & Hk & Ek & Fk & _). rewrite Hm in Hk. injection Hk as <-.
    split_and!; [done|congruence..].
Qed.

Lemma not_both st id m u : mux_inv st -> es_mux st !! id = Some m -> u ∈ dmn_readers_head m -> u ∈ dmn_writers_head m -> False.
Proof.
  intros I Hm H1 H2. destruct (ls_in _ (mi_lists _ I) id m u Hm (or_introl H1)) as (n & Hn & Hid).
  destruct (ls_unote _ (mi_lists _ I) u n id Hn Hid) as (k & Hk & _ & _ & _ & Hno). rewrite Hm in Hk. injection Hk as <-.
  unfold dir in Hno. by case_decide.
Qed.

Lemma updated_lists_keys st st' id m m' ra wa : mux_inv st -> es_mux st !! id = Some m -> updated st st' id m m' ra wa ->
  same_keys st st' -> dmn_readers_head m' = dmn_readers_head m -> dmn_writers_head m' = dmn_writers_head m -> lists_inv st'.
Proof.
  intros I Hm U K Er Ew. apply (lists_keys (mkMux (es_unotes st) (es_mux st') (es_next st') (_dispatch_sources st')
    (_dispatch_epfd st') (signals_with_unotes st') (es_log st'))); try done.
  eapply (updated_lists st _ id m m' ra wa I Hm); try done. by destruct U; constructor.
Qed.

Lemma deliver_ok ioctl readable st fd id m ev : mux_inv st -> es_mux st !! id = Some m -> dmn_fd m = fd -> event_ok st fd ev ->
  exists st' L, deliver ioctl readable st fd ev = Done st' /\ mux_inv st' /\ same_keys st st' /\ es_log st' = es_log st ++ L /\
    (forall j f, filter_ok f -> watches st' j f <->
       watches st j f /\ ~ (dmn_filter m = EVFILT_READ /\ j = dmn_ident m /\ mux_filter f = EVFILT_READ /\ fires ev f = true)) /\
    forall u n, es_unotes st !! u = Some n ->
      (called st readable (dmn_ident m) (dmn_filter m) ev n -> merges u L = 1%nat) /\
      (~ called st readable (dmn_ident m) (dmn_filter m) ev n -> merges u L = 0%nat).
Proof.
  intros I Hm <- (Hfree & it & Hit & On & Hv). destruct (mi_kernel _ I id m Hm) as (ra & wa & it' & Sh & Hit' & Ok).
  rewrite Hit in Hit'. injection Hit' as <-. unfold deliver. rewrite (report_eq st id m ra wa it Hit Ok On).
  unfold drain_muxnote. rewrite decide_False by (change EPOLLFREE with (2 ^ 14); rewrite land_bit by lia; by rewrite Hfree).
  change (es_mux (reported st m it)) with (es_mux st). rewrite Hm.
  destruct (sh_filter _ _ _ Sh) as [Hf|(Hf & Hra & Hw)].
  - rewrite Hf. rewrite decide_False, decide_True by done.
    destruct (merge_fd_ok st I id m Hm ra wa it Sh Hit Ok On ioctl ev Hf Hv) as (st' & m' & L & -> & K & U & Er & Ew & El & Hl).
    exists st', L. split; [done|]. split.
    { constructor; [by eapply updated_kernel|by eapply updated_items|by eapply updated_lists_keys|by eapply updated_bucket]. }
    split; [done|]. split; [done|]. split.
    + intros j f Fok. rewrite (updated_watches _ _ _ _ _ _ _ I Hm U) by done.
      destruct (decide (j = dmn_ident m /\ mux_filter f = dmn_filter m)) as [[-> E]|E].
      * rewrite (watches_flag st id m ra wa it f) by done. rewrite E, Hf, (fires_dir ev f).
        unfold dir. destruct (decide (f = EVFILT_WRITE)); [destruct wa, (fires ev EVFILT_WRITE)|destruct ra, (fires ev EVFILT_READ)]; simpl; intuition congruence.
      * split; [|by intros [? _]]. intros Hw. split; [done|]. intros (_ & -> & ? & _). destruct E. split; congruence.
    + intros u n Hu. rewrite Hl. unfold called. rewrite (decide_False (P := EVFILT_READ = EVFILT_SIGNAL)) by done.
      pose proof (member_iff st id m u n I Hm Hu) as Hmem. rewrite Hf in Hmem.
      pose proof (not_both st id m u I Hm) as Hnb.
      assert (filter_ok (du_filter n)) as Fok by (by apply (ls_ok _ (mi_lists _ I) u)).
      assert (mux_filter (du_filter n) = EVFILT_READ -> watches st (dmn_ident m) (du_filter n) <-> dir (du_filter n) ra wa = true) as Hwf
        by (intros; eapply watches_flag; try done; congruence).
      assert (u ∈ dmn_readers_head m \/ u ∈ dmn_writers_head m -> u ∈ dir (du_filter n) (dmn_readers_head m) (dmn_writers_head m)) as Hd.
      { intros Hin. destruct (ls_in _ (mi_lists _ I) id m u Hm Hin) as (n' & Hn' & Hid). rewrite Hu in Hn'. injection Hn' as <-.
        destruct (ls_unote _ (mi_lists _ I) u n id Hu Hid) as (k & Hk & _ & _ & Hin' & _). rewrite Hm in Hk. by injection Hk as <-. }
      split.
      * intros (H1 & H2 & H3 & H4 & H5). rewrite (Hwf H3) in H4. assert (u ∈ dir (du_filter n) (dmn_readers_head m) (dmn_writers_head m)) as Hin by (by apply Hmem).
        rewrite decide_True; [done|]. unfold dir in *. destruct (decide (du_filter n = EVFILT_WRITE)) as [E|E].
        -- right. by rewrite <- E, H4, H5.
        -- left. assert (du_filter n = EVFILT_READ) as <- by (destruct Fok as [?|[?|?]]; [done|done|]; by rewrite H in H3). by rewrite H4, H5.
      * intros Hno. rewrite decide_False; [done|]. intros Hyes. apply Hno.
        assert (u ∈ dir (du_filter n) (dmn_readers_head m) (dmn_writers_head m)) as Hin by (apply Hd; tauto).
        destruct (proj2 Hmem Hin) as (H1 & H2 & H3). split; [done|]. split; [done|]. split; [done|]. rewrite (Hwf H3). unfold dir in *.
        destruct (decide (du_filter n = EVFILT_WRITE)) as [E|E].
        -- rewrite E. destruct Hyes as [[_ ?]|[[? ?]%andb_prop _]]; [by destruct Hnb|done].
        -- assert (du_filter n = EVFILT_READ) as -> by (destruct Fok as [?|[?|?]]; [done|done|]; by rewrite H in H3).
           destruct Hyes as [[[? ?]%andb_prop _]|[_ ?]]; [done|by destruct Hnb].
  - rewrite Hf. rewrite decide_True by done. unfold _dispatch_event_merge_signal. change (es_mux (reported st m it)) with (es_mux st).
    rewrite Hm. opt_simpl.
    assert (off_item it = it) as Eoff.
    { assert (wa = false) as Hwa by (destruct wa; [|done]; pose proof (sh_wa _ _ _ Sh eq_refl) as H; by rewrite Hw in H).
      pose proof (it_on _ _ _ _ _ Ok On) as E. rewrite Hf, Hra, Hwa in E. unfold off_item. rewrite E. destruct it. simpl in *. by subst. }
    assert (frame st (reported st m it)) as F0 by (constructor; try done; simpl; by rewrite Eoff, insert_id).
    destruct (ls_nodup _ (mi_lists _ I) id m Hm) as [NR _].
    assert (exists st' L, (if readable then merge_unotes signal_merged 1 (reported st m it) (dmn_readers_head m) else Some (reported st m it)) = Some st' /\
      frame st st' /\ es_log st' = es_log st ++ L /\
      forall u, merges u L = if decide (readable = true /\ u ∈ dmn_readers_head m) then 1%nat else 0%nat) as (st' & L & -> & F & El & Hl).
    { destruct readable.
      - destruct (merge_unotes_ok signal_merged 1 (dmn_readers_head m) (reported st m it)) as (st' & -> & F1 & El); try done.
        { intros u Hu. apply (members_known st I id m Hm). by left. }
        exists st', (merge_effects 1 (dmn_readers_head m)). split; [done|]. split; [by eapply mux_frame_trans|]. split; [done|].
        intros u. rewrite merges_effects by done. destruct (decide (u ∈ dmn_readers_head m)) as [H|H]; [by rewrite decide_True|].
        by rewrite decide_False by (by intros [_ ?]).
      - exists (reported st m it), []. split; [done|]. split; [done|]. split; [by rewrite app_nil_r|]. intros u. by rewrite decide_False by (by intros [? _]). }
    exists st', L. split; [done|]. split; [by apply (frame_inv st)|]. split; [apply F|]. split; [done|]. split.
    + intros j f _. rewrite (frame_watches st st' j f F). split; [|by intros [? _]]. intros H. split; [done|]. by intros (? & _).
    + intros u n Hu. rewrite Hl. unfold called. rewrite (decide_True (P := EVFILT_SIGNAL = EVFILT_SIGNAL)) by done.
      pose proof (member_iff st id m u n I Hm Hu) as Hmem. rewrite Hf in Hmem.
      assert (u ∈ dmn_readers_head m <-> u ∈ dir (du_filter n) (dmn_readers_head m) (dmn_writers_head m)) as Hd.
      { rewrite Hw. unfold dir. destruct (decide (du_filter n = EVFILT_WRITE)) as [E|E]; [|done]. split; [|by intros ?%elem_of_nil].
        intros Hin. destruct (ls_in _ (mi_lists _ I) id m u Hm (or_introl Hin)) as (n' & Hn' & Hid). rewrite Hu in Hn'. injection Hn' as <-.
        destruct (ls_unote _ (mi_lists _ I) u n id Hu Hid) as (k & Hk & _ & Fk & _). rewrite Hm in Hk. injection Hk as <-. by rewrite Hf, E in Fk. }
      rewrite <- Hd in Hmem. split; intros H; [rewrite decide_True|rewrite decide_False]; tauto.
Qed.
