(* ===== verification/EpollSpec.v ===== *)
(** * Multiplexed descriptors: registration and theorems

    The registration and unregistration of unotes, the specification of the multiplexer as a
    set of one-shot subscriptions, and the theorem that it implements them, except that a
    reader registered while a writer of its descriptor is armed is filed as a writer. *)

From S2P Require Import Prelude Epoll EpollMux.

Local Open Scope word_scope.

(** ** Unregistration *)

(** Both directions dropped when their lists are empty. *)
Lemma drop_both m R W os r w ra wa :
  dmn_events m = evmask os r w -> dmn_disarmed_events m = dirmask (r && negb ra) (w && negb wa) ->
  (nonempty R = true -> r = true) -> (nonempty W = true -> w = true) ->
  (let '(ev, m1) := drop_direction R EPOLLIN (dmn_events m, set_lists m R W) in drop_direction W EPOLLOUT (ev, m1)) =
  (evmask os (nonempty R) (nonempty W),
   set_events (set_lists m R W) (evmask os (r && (nonempty R || ra)) (w && (nonempty W || wa)))
     (dirmask (nonempty R && negb ra) (nonempty W && negb wa))).
Proof.
  intros He Hd HR HW. destruct m as [rd wr fd idn ev dis fl so si]. simpl in *. subst ev dis.
  destruct R as [|? ?], W as [|? ?]; simpl in *; rewrite ?HR, ?HW by done; destruct os, r, w, ra, wa; reflexivity.
Qed.

Section remove.
Context (st : mux_state) (I : mux_inv st) (u : nat) (n : unote) (Hu : es_unotes st !! u = Some n)
  (id : nat) (Hid : du_muxnote n = Some id) (m : dispatch_muxnote_s) (Hm : es_mux st !! id = Some m)
  (Hi : dmn_ident m = du_ident n) (Hf : dmn_filter m = mux_filter (du_filter n))
  (Hin : u ∈ dir (du_filter n) (dmn_readers_head m) (dmn_writers_head m))
  (Hout : u ∉ dir (du_filter n) (dmn_writers_head m) (dmn_readers_head m)).

Definition left_unote : unote := mkUnote (du_ident n) (du_filter n) (du_rearm n) false false None (ds_pending_data n).

(** The lists of a muxnote that [u] has left. *)
Lemma removed_lists st' : es_unotes st' = <[u := left_unote]> (es_unotes st) ->
  (forall j, j <> id -> es_mux st' !! j = es_mux st !! j) ->
  (forall m', es_mux st' !! id = Some m' -> dmn_ident m' = dmn_ident m /\ dmn_filter m' = dmn_filter m /\
     dmn_readers_head m' = filter (.≠ u) (dmn_readers_head m) /\ dmn_writers_head m' = filter (.≠ u) (dmn_writers_head m)) ->
  (es_mux st' !! id = None -> filter (.≠ u) (dmn_readers_head m) = [] /\ filter (.≠ u) (dmn_writers_head m) = []) ->
  lists_inv st'.
Proof using All.
  intros Eu Em Hsome Hnone. destruct (mi_lists _ I) as [L1 L2 L3 L4 L5]. constructor; rewrite ?Eu.
  - intros j k v Hk Hv. assert (v <> u /\ exists n', es_unotes st !! v = Some n' /\ du_muxnote n' = Some j) as (Hne & n' & Hn' & Hj).
    { destruct (decide (j = id)) as [->|Hne].
      - destruct (Hsome k Hk) as (_ & _ & Er & Ew). rewrite Er, Ew in Hv. rewrite !list_elem_of_filter in Hv.
        split; [tauto|]. apply (L1 id m v Hm). tauto.
      - rewrite Em in Hk by done. split; [|by apply (L1 j k)]. intros ->. destruct (L1 j k u Hk Hv) as (n' & Hn' & Hj). congruence. }
    exists n'. by rewrite lookup_insert_ne.
  - intros v n' j Hv Hj. destruct (decide (v = u)) as [->|Hne]; [rewrite lookup_insert_eq in Hv; by injection Hv as <-|].
    rewrite lookup_insert_ne in Hv by done. destruct (L2 v n' j Hv Hj) as (k & Hk & Ek & Fk & Hin1 & Hout1).
    destruct (decide (j = id)) as [->|Hjd]; [|exists k; by rewrite Em]. rewrite Hm in Hk. injection Hk as <-.
    assert (v ∈ filter (.≠ u) (dir (du_filter n') (dmn_readers_head m) (dmn_writers_head m))) as Hv' by (by rewrite list_elem_of_filter).
    destruct (es_mux st' !! id) as [m'|] eqn:E.
    + exists m'. destruct (Hsome m' eq_refl) as (-> & -> & -> & ->). unfold dir in *. case_decide; rewrite !list_elem_of_filter; tauto.
    + destruct (Hnone eq_refl) as [E1 E2]. unfold dir in Hv'. case_decide; rewrite ?E1, ?E2 in Hv'; by apply elem_of_nil in Hv'.
  - intros j k Hk. destruct (decide (j = id)) as [->|Hne]; [|rewrite Em in Hk by done; by apply (L3 j)].
    destruct (Hsome k Hk) as (_ & _ & -> & ->). destruct (L3 id m Hm). split; by apply NoDup_filter.
  - intros v n' Hv. destruct (decide (v = u)) as [->|Hne].
    + rewrite lookup_insert_eq in Hv. injection Hv as <-. apply (L4 u n Hu).
    + rewrite lookup_insert_ne in Hv by done. by apply (L4 v).
  - intros v n' Hv. destruct (decide (v = u)) as [->|Hne].
    + rewrite lookup_insert_eq in Hv. injection Hv as <-. simpl. split; [done|by intros []].
    + rewrite lookup_insert_ne in Hv by done. by apply (L5 v).
Qed.

(** [u] was in one list only. *)
Lemma removed_nonempty : let f := du_filter n in
  (nonempty (filter (.≠ u) (dir f (dmn_writers_head m) (dmn_readers_head m))) = nonempty (dir f (dmn_writers_head m) (dmn_readers_head m))) /\
  (nonempty (filter (.≠ u) (dir f (dmn_readers_head m) (dmn_writers_head m))) = true <->
   exists v n', v <> u /\ es_unotes st !! v = Some n' /\ is_Some (du_muxnote n') /\ du_ident n' = du_ident n /\ du_filter n' = f).
Proof using All.
  intros f. split.
  - f_equal. apply filter_all, Forall_forall. by intros v Hv ->.
  - set (l := dir f (dmn_readers_head m) (dmn_writers_head m)) in *. split.
    + intros H. destruct (filter (.≠ u) l) as [|v l'] eqn:E; [done|]. assert (v ∈ filter (.≠ u) l) as Hv by (rewrite E; by left).
      apply list_elem_of_filter in Hv as [Hne Hv].
      assert (v ∈ dmn_readers_head m \/ v ∈ dmn_writers_head m) as Hor by (unfold l, dir in Hv; case_decide; auto).
      destruct (ls_in _ (mi_lists _ I) id m v Hm Hor) as (n' & Hn' & Hid'). exists v, n'.
      destruct (ls_unote _ (mi_lists _ I) v n' id Hn' Hid') as (k & Hk & Ek & Fk & Hin1 & Hout1). rewrite Hm in Hk. injection Hk as <-.
      split_and!; try done; [congruence|]. destruct (ls_ok _ (mi_lists _ I) v n' Hn') as [Fok' _]. destruct (ls_ok _ (mi_lists _ I) u n Hu) as [Fok _].
      fold f in Fok, Hf. unfold l, dir, mux_filter, filter_ok in *.
      repeat case_decide; destruct Fok as [?|[?|?]], Fok' as [?|[?|?]]; try congruence; done.
    + intros (v & n' & Hne & Hn' & Hreg & Ei & Ef). apply (elem_nonempty v). apply list_elem_of_filter. split; [done|].
      unfold f in Ef. unfold l, f. rewrite <- Ef. apply (member_iff st id m v n' I Hm Hn'). split_and!; congruence.
Qed.
End remove.

(** A muxnote freed with its entry. *)
Record disposed (st st' : mux_state) (id : nat) (m : dispatch_muxnote_s) : Prop := {
  di_mux : es_mux st' = delete id (es_mux st);
  di_epfd : _dispatch_epfd st' = delete (dmn_fd m) (_dispatch_epfd st);
  di_sources : forall b, _dispatch_sources st' b =
    if decide (b = DSL_HASH (dmn_ident m)) then filter (.≠ id) (_dispatch_sources st b) else _dispatch_sources st b;
  di_next : es_next st' = es_next st;
}.

Lemma disposed_inv st st' id m : mux_inv st -> es_mux st !! id = Some m -> disposed st st' id m -> lists_inv st' -> mux_inv st'.
Proof.
  intros I Hm [Em Ee Es En] HL. constructor; [| |done|].
  - intros j k Hk. rewrite Em in Hk. apply lookup_delete_Some in Hk as [Hne Hk]. destruct (mi_kernel _ I j k Hk) as (ra & wa & it & Sh & Hit & Ok).
    exists ra, wa, it. rewrite Ee, lookup_delete_ne; [done|]. intros E. apply Hne. by eapply (kernel_distinct st); [apply I| | |].
  - intros fd it Hit. rewrite Ee in Hit. apply lookup_delete_Some in Hit as [Hne Hit]. destruct (mi_items _ I fd it Hit) as (k & Hk & <-).
    exists k. rewrite Em, lookup_delete_ne; [done|]. intros E. rewrite <- E, Hm in Hk. by injection Hk as ->.
  - rewrite Em, En. destruct (mi_bucket _ I) as [B1 B2 B3]. constructor.
    + intros b j. rewrite Es. setoid_rewrite lookup_delete_Some. case_decide as E.
      * rewrite list_elem_of_filter, B1. split; [intros [? (k & ? & ?)]; exists k; auto|]. intros (k & [? ?] & ?). split; [auto|by exists k].
      * rewrite B1. split; [|intros (k & [? ?] & ?); by exists k]. intros (k & Hk & ->). exists k. split_and!; try done. intros <-.
        rewrite Hm in Hk. by injection Hk as <-.
    + intros i j k k' [_ Hk]%lookup_delete_Some [_ Hk']%lookup_delete_Some. by apply B2.
    + intros j [k [_ Hk]%lookup_delete_Some]. apply B3. by exists k.
Qed.

Lemma disposed_watches st st' id m i f : mux_inv st -> es_mux st !! id = Some m -> disposed st st' id m ->
  watches st' i f <-> watches st i f /\ ~ (i = dmn_ident m /\ mux_filter f = dmn_filter m).
Proof.
  intros I Hm [Em Ee _ _]. unfold watches. rewrite Em, Ee. setoid_rewrite lookup_delete_Some. split.
  - intros (j & k & it & [Hne Hk] & Ei & Ef & [_ Hit] & On & Hb). split; [by exists j, k, it|].
    intros [-> E]. apply Hne. apply (bk_unique _ _ _ (mi_bucket _ I) id j m k); congruence.
  - intros ((j & k & it & Hk & Ei & Ef & Hit & On & Hb) & Hno). exists j, k, it.
    assert (id <> j) as Hne by (intros <-; rewrite Hm in Hk; injection Hk as <-; apply Hno; split; congruence).
    split_and!; try done. intros E. apply Hne. by eapply (kernel_distinct st); [apply I| | |].
Qed.

(** The unotes that share the direction of [u]. *)
Definition shared (st : mux_state) (u : nat) (n : unote) : Prop := exists v n', v <> u /\ es_unotes st !! v = Some n' /\
  is_Some (du_muxnote n') /\ du_ident n' = du_ident n /\ du_filter n' = du_filter n.

Lemma evmask_inj os r w r' w' : evmask os r w = evmask os r' w' -> r = r' /\ w = w'.
Proof. destruct os, r, w, r', w'; done. Qed.

(** The muxnote that keeps the lists [R] and [W]. *)
Definition kept (m : dispatch_muxnote_s) (R W : list nat) (ra wa : bool) : dispatch_muxnote_s :=
  set_events (set_lists m R W) (evmask (bool_decide (dmn_filter m = EVFILT_READ)) (nonempty R) (nonempty W))
    (dirmask (nonempty R && negb ra) (nonempty W && negb wa)).

Section kept.
Context (m : dispatch_muxnote_s) (R W : list nat) (ra wa : bool) (Sh : shape m ra wa)
  (HR : nonempty R = true -> nonempty (dmn_readers_head m) = true) (HW : nonempty W = true -> nonempty (dmn_writers_head m) = true).

(** What [drop_both] leaves. *)
Definition dropped : dispatch_muxnote_s :=
  set_events (set_lists m R W)
    (evmask (bool_decide (dmn_filter m = EVFILT_READ)) (nonempty (dmn_readers_head m) && (nonempty R || ra))
      (nonempty (dmn_writers_head m) && (nonempty W || wa)))
    (dirmask (nonempty R && negb ra) (nonempty W && negb wa)).

Lemma kept_shape : nonempty R || nonempty W = true -> shape (kept m R W ra wa) (ra && nonempty R) (wa && nonempty W).
Proof using All.
  intros Hne. destruct Sh as [_ _ Hr Hw Hf _]. constructor; simpl; try done.
  - by destruct (nonempty R), (nonempty W), ra, wa.
  - by intros [_ ?]%andb_prop.
  - by intros [_ ?]%andb_prop.
  - destruct Hf as [?|(? & -> & E)]; [by left|right]. rewrite E in HW. destruct W; [|by specialize (HW eq_refl)].
    simpl in Hne. rewrite orb_false_r in Hne. by rewrite Hne.
Qed.

Lemma dropped_armed : _dispatch_muxnote_armed_events dropped = evmask (bool_decide (dmn_filter m = EVFILT_READ)) ra wa.
Proof using All.
  destruct Sh as [_ _ Hr Hw _ _]. unfold _dispatch_muxnote_armed_events, dropped. simpl.
  destruct (bool_decide _), ra, wa, (nonempty R), (nonempty W), (nonempty (dmn_readers_head m)), (nonempty (dmn_writers_head m)); try reflexivity;
    first [by specialize (Hr eq_refl)|by specialize (Hw eq_refl)|by specialize (HR eq_refl)|by specialize (HW eq_refl)].
Qed.

Lemma dropped_kept : nonempty R = ra -> nonempty W = wa -> dropped = kept m R W ra wa.
Proof using All.
  intros E1 E2. unfold dropped, kept. rewrite E1, E2 in *. do 2 f_equal; [by destruct ra; [rewrite HR|rewrite andb_false_r]|].
  by destruct wa; [rewrite HW|rewrite andb_false_r].
Qed.
End kept.

Lemma unregister_ok st u n : mux_inv st -> es_unotes st !! u = Some n -> is_Some (du_muxnote n) ->
  exists st' L, _dispatch_unote_unregister_muxed st u = Some st' /\ mux_inv st' /\
    es_unotes st' = <[u := left_unote n]> (es_unotes st) /\ es_log st' = es_log st ++ L /\ (forall v, merges v L = 0%nat) /\
    forall i f, filter_ok f -> watches st' i f <-> watches st i f /\ (i = du_ident n -> f = du_filter n -> shared st u n).
Proof.
  intros I Hu Hr. destruct (unote_mux st u n I Hu Hr) as (id & m & ra & wa & it & Hid & Hm & Hi & Hf & Hin & Sh & Hit & Ok).
  destruct (ls_unote _ (mi_lists _ I) u n id Hu Hid) as (m0 & Hm0 & _ & _ & _ & Hout). rewrite Hm in Hm0. injection Hm0 as <-.
  destruct (removed_nonempty st I u n Hu id Hid m Hm Hi Hf Hin Hout) as [Ho Hs]. fold (shared st u n) in Hs.
  unfold _dispatch_unote_unregister_muxed. rewrite Hu. opt_simpl. rewrite Hid. opt_simpl. rewrite Hm. opt_simpl.
  set (R := filter (.≠ u) (dmn_readers_head m)) in *. set (W := filter (.≠ u) (dmn_writers_head m)) in *.
  assert (nonempty R = true -> nonempty (dmn_readers_head m) = true) as HR.
  { subst R. by destruct (dmn_readers_head m). }
  assert (nonempty W = true -> nonempty (dmn_writers_head m) = true) as HW.
  { subst W. by destruct (dmn_writers_head m). }
  pose proof (drop_both m R W _ _ _ _ _ (sh_events _ _ _ Sh) (sh_disarmed _ _ _ Sh) HR HW) as HD.
  change (dmn_readers_head (set_lists m R W)) with R. destruct (drop_direction R EPOLLIN (dmn_events m, set_lists m R W)) as [ev1 m1] eqn:E1.
  assert (dmn_writers_head m1 = W) as -> by (unfold drop_direction in E1; destruct R; injection E1 as _ <-; [by case_decide|done]).
  rewrite HD. clear HD E1. cbv iota. fold (dropped m R W ra wa). set (m2 := dropped m R W ra wa). set (os := bool_decide (dmn_filter m = EVFILT_READ)).
  assert (exists st1 L, (if decide (evmask os (nonempty R) (nonempty W) .& (EPOLLIN .| EPOLLOUT) <> 0) then
      if decide (evmask os (nonempty R) (nonempty W) <> _dispatch_muxnote_armed_events m2) then
        Some (epoll_modify (with_mux (with_mux st id m2) id (kept m R W ra wa)) id (dmn_fd m) (_dispatch_muxnote_armed_events (kept m R W ra wa)))
      else Some (with_mux st id m2)
    else _dispatch_muxnote_dispose
      (with_sources (with_epfd (with_mux st id m2) (delete (dmn_fd m) (_dispatch_epfd st))) (DSL_HASH (dmn_ident m))
         (filter (.≠ id) (_dispatch_sources st (DSL_HASH (dmn_ident m))))) id) = Some st1 /\
    es_unotes st1 = es_unotes st /\ es_log st1 = es_log st ++ L /\ (forall v, merges v L = 0%nat) /\
    ((nonempty R || nonempty W = true /\ updated st st1 id m (kept m R W ra wa) (ra && nonempty R) (wa && nonempty W)) \/
     (nonempty R || nonempty W = false /\ disposed st st1 id m))) as (st1 & L & Hst1 & Eu & El & Hl & Hcase).
  { rewrite land_dirs, (evmask_bit os _ _ EVFILT_READ : Z.testbit _ 0 = _), (evmask_bit os _ _ EVFILT_WRITE : Z.testbit _ 2 = _).
    change (dirmask (dir EVFILT_READ ?a ?b) (dir EVFILT_WRITE ?c ?d)) with (dirmask a d).
    destruct (nonempty R || nonempty W) eqn:Hne.
    - rewrite decide_True by (by destruct (nonempty R), (nonempty W)). pose proof (kept_shape m R W ra wa Sh HR HW Hne) as Sk.
      unfold m2. rewrite (dropped_armed m R W ra wa Sh HR HW). fold os.
      destruct (decide (evmask os (nonempty R) (nonempty W) <> evmask os ra wa)) as [Hd|Hd].
      + eexists _, []. split; [done|]. rewrite app_nil_r. unfold epoll_modify, _dispatch_epoll_update. simpl. rewrite Hit. simpl.
        split; [done|]. split; [done|]. split; [done|]. left. split; [done|]. constructor; try done.
        * simpl. by rewrite insert_insert_eq.
        * eexists. split; [done|]. constructor; try done. intros _. simpl. by rewrite (shape_armed _ _ _ Sk).
      + apply dec_stable, evmask_inj in Hd as [Ea Eb]. rewrite (dropped_kept m R W ra wa Sh HR HW Ea Eb).
        eexists _, []. split; [done|]. rewrite app_nil_r. split; [done|]. split; [done|]. split; [done|]. left. split; [done|]. constructor; try done.
        exists it. split; [by rewrite insert_id|]. rewrite Ea, Eb, !andb_diag. destruct Ok as [O1 O2 O3]. by constructor.
    - rewrite decide_False by (destruct (nonempty R), (nonempty W); try done; by intros []).
      unfold _dispatch_muxnote_dispose. simpl. rewrite lookup_insert_eq. opt_simpl.
      exists (mux_free (if decide (dmn_filter m2 <> EVFILT_READ \/ u32 (dmn_fd m2) <> dmn_ident m2)
        then effect (with_sources (with_epfd (with_mux st id m2) (delete (dmn_fd m) (_dispatch_epfd st))) (DSL_HASH (dmn_ident m))
               (filter (.≠ id) (_dispatch_sources st (DSL_HASH (dmn_ident m))))) (Close (dmn_fd m2))
        else with_sources (with_epfd (with_mux st id m2) (delete (dmn_fd m) (_dispatch_epfd st))) (DSL_HASH (dmn_ident m))
               (filter (.≠ id) (_dispatch_sources st (DSL_HASH (dmn_ident m))))) id),
        (if decide (dmn_filter m2 <> EVFILT_READ \/ u32 (dmn_fd m2) <> dmn_ident m2) then [Close (dmn_fd m2)] else []).
      split; [done|]. destruct (decide (dmn_filter m2 <> EVFILT_READ \/ u32 (dmn_fd m2) <> dmn_ident m2)); simpl; rewrite ?app_nil_r;
        (split; [done|]; split; [done|]; split; [done|]; right; split; [done|]; constructor; try done; simpl;
         [by rewrite delete_insert_eq|intros b; by destruct (decide (b = _)) as [->|]]). }
  assert (forall a b : list nat, dir (du_filter n) (filter (.≠ u) a) (filter (.≠ u) b) = filter (.≠ u) (dir (du_filter n) a b)) as Hfd
    by (intros; by dir_cases).
  rewrite <- Hfd in Ho, Hs. fold R W in Ho, Hs. destruct (ls_ok _ (mi_lists _ I) u n Hu) as [Fu _].
  assert (forall f, filter_ok f -> mux_filter f = dmn_filter m -> dir f ra wa = true -> f <> du_filter n -> nonempty (dir f R W) = true) as Hother.
  { intros f Fok E Hd Hne. assert (forall A (a b : A), dir f a b = dir (du_filter n) b a) as Hsw.
    { intros A a b. rewrite Hf in E. unfold mux_filter in *. dir_cases; destruct Fok as [?|[?|?]], Fu as [?|[?|?]]; congruence. }
    rewrite Hsw, Ho, <- Hsw. unfold dir in *. destruct (decide (f = EVFILT_WRITE)); [by apply (sh_wa _ _ _ Sh)|by apply (sh_ra _ _ _ Sh)]. }
  exists (with_unote st1 u (left_unote n)), L.
  split; [exact (f_equal (fun o => o ≫= (fun st => Some (with_unote st u (left_unote n)))) Hst1)|]. clear Hst1.
  assert (es_unotes (with_unote st1 u (left_unote n)) = <[u := left_unote n]> (es_unotes st)) as Eu' by (simpl; by rewrite Eu).
  destruct Hcase as [[Hne U]|[Hne D]].
  - assert (updated st (with_unote st1 u (left_unote n)) id m (kept m R W ra wa) (ra && nonempty R) (wa && nonempty W)) as U'
      by (by destruct U; constructor).
    split_and!; try done.
    + constructor; [by eapply updated_kernel|by eapply updated_items| |by eapply updated_bucket].
      eapply (removed_lists st I u n Hu id Hid m Hm Hi Hf Hin Hout); try done; rewrite (up_mux _ _ _ _ _ _ _ U').
      * intros j Hj. by rewrite lookup_insert_ne.
      * intros m'. rewrite lookup_insert_eq. by intros [= <-].
      * by rewrite lookup_insert_eq.
    + intros i f Fok. rewrite (updated_watches _ _ _ _ _ _ _ I Hm U') by done.
      destruct (decide (i = dmn_ident m /\ mux_filter f = dmn_filter m)) as [[-> E]|E].
      * rewrite (watches_flag st id m ra wa it f) by done. rewrite Hi, <- Hs.
        assert (dir f (ra && nonempty R) (wa && nonempty W) = dir f ra wa && nonempty (dir f R W)) as -> by (by dir_cases).
        specialize (Hother f Fok E). destruct (decide (f = du_filter n)) as [->|Hfn]; rewrite andb_true_iff; intuition.
      * split; [|by intros [? _]]. intros Hw. split; [done|]. intros -> ->. destruct E. split; congruence.
  - assert (disposed st (with_unote st1 u (left_unote n)) id m) as D' by (by destruct D; constructor).
    split_and!; try done.
    + eapply (disposed_inv st); try done. eapply (removed_lists st I u n Hu id Hid m Hm Hi Hf Hin Hout); try done; rewrite (di_mux _ _ _ _ D').
      * intros j Hj. by rewrite lookup_delete_ne.
      * intros m'. by rewrite lookup_delete_eq.
      * intros _. fold R W. destruct R, W; done.
    + intros i f Fok. rewrite (disposed_watches st _ id m i f I Hm D'). split.
      * intros [Hw Hno]. split; [done|]. intros -> ->. destruct Hno. by split.
      * intros [Hw Hsh]. split; [done|]. intros [-> E].
        rewrite (watches_flag st id m ra wa it f) in Hw by done. specialize (Hother f Fok E Hw).
        assert (nonempty (dir f R W) = false) as Hnil by (dir_cases; by destruct (nonempty R), (nonempty W)).
        destruct (decide (f = du_filter n)) as [->|Hfn]; [|rewrite Hother in Hnil; done].
        specialize (Hsh Hi eq_refl). apply Hs in Hsh. congruence.
Qed.

(** ** Registration *)

Definition joined_unote (n : unote) (id : nat) : unote :=
  mkUnote (du_ident n) (du_filter n) (du_rearm n) true true (Some id) (ds_pending_data n).

(** The lists of a muxnote that [u] has joined. *)
Lemma joined_lists st st' u n id m' R W : lists_inv st -> es_unotes st !! u = Some n -> du_muxnote n = None ->
  es_unotes st' = <[u := joined_unote n id]> (es_unotes st) -> es_mux st' = <[id := m']> (es_mux st) ->
  (exists m, es_mux st !! id = Some m /\ R = dmn_readers_head m /\ W = dmn_writers_head m /\ dmn_ident m = dmn_ident m' /\ dmn_filter m = dmn_filter m') \/
    (es_mux st !! id = None /\ R = [] /\ W = []) ->
  dmn_ident m' = du_ident n -> dmn_filter m' = mux_filter (du_filter n) ->
  dmn_readers_head m' = dir (du_filter n) (u :: R) R -> dmn_writers_head m' = dir (du_filter n) W (u :: W) -> lists_inv st'.
Proof.
  intros [L1 L2 L3 L4 L5] Hu Hn Eu Em Hold Ei Ef Er Ew.
  assert (forall v, v ∈ R \/ v ∈ W -> v <> u /\ exists n', es_unotes st !! v = Some n' /\ du_muxnote n' = Some id) as Hmem.
  { intros v Hv. destruct Hold as [(m & Hm & -> & -> & _)|(_ & -> & ->)]; [|by destruct Hv as [?%elem_of_nil|?%elem_of_nil]].
    destruct (L1 id m v Hm Hv) as (n' & Hn' & Hid). split; [|by exists n']. intros ->. congruence. }
  assert (NoDup R /\ NoDup W) as [NR NW].
  { destruct Hold as [(m & Hm & -> & -> & _)|(_ & -> & ->)]; [by apply (L3 id)|split; apply NoDup_nil_2]. }
  constructor; rewrite ?Eu, ?Em.
  - intros j k v Hk Hv. destruct (decide (v = u)) as [->|Hvu].
    + rewrite lookup_insert_eq. eexists. split; [done|]. simpl. f_equal. destruct (decide (j = id)) as [->|Hj]; [done|].
      rewrite lookup_insert_ne in Hk by done. destruct (L1 j k u Hk Hv) as (n' & Hn' & ?). congruence.
    + rewrite lookup_insert_ne by done. destruct (decide (j = id)) as [->|Hj].
      * rewrite lookup_insert_eq in Hk. injection Hk as <-. rewrite Er, Ew in Hv. apply Hmem. dir_cases; rewrite ?elem_of_cons in Hv; tauto.
      * rewrite lookup_insert_ne in Hk by done. by apply (L1 j k).
  - intros v n' j Hv Hj. destruct (decide (v = u)) as [->|Hvu].
    + rewrite lookup_insert_eq in Hv. injection Hv as <-. injection Hj as <-. exists m'. rewrite lookup_insert_eq. simpl.
      split_and!; try done; rewrite Er, Ew; dir_cases; try (by left); intros Hin; by destruct (Hmem u (ltac:(auto))).
    + rewrite lookup_insert_ne in Hv by done. destruct (L2 v n' j Hv Hj) as (k & Hk & Ek & Fk & Hin & Hout).
      destruct (decide (j = id)) as [->|Hjd]; [|exists k; by rewrite lookup_insert_ne by done].
      exists m'. rewrite lookup_insert_eq. destruct Hold as [(m & Hm & -> & -> & E1 & E2)|(Hm & _ & _)]; [|congruence].
      rewrite Hm in Hk. injection Hk as ->. split_and!; [done|congruence|congruence|..]; rewrite Er, Ew; dir_cases; rewrite ?elem_of_cons; tauto.
  - intros j k Hk. destruct (decide (j = id)) as [->|Hj]; [|rewrite lookup_insert_ne in Hk by done; by apply (L3 j)].
    rewrite lookup_insert_eq in Hk. injection Hk as <-. rewrite Er, Ew. dir_cases; (split; [|done]) || (split; [done|]); try done;
      apply NoDup_cons; (split; [|done]); intros Hin; by destruct (Hmem u (ltac:(auto))).
  - intros v n' Hv. destruct (decide (v = u)) as [->|Hvu].
    + rewrite lookup_insert_eq in Hv. injection Hv as <-. apply (L4 u n Hu).
    + rewrite lookup_insert_ne in Hv by done. by apply (L4 v).
  - intros v n' Hv. destruct (decide (v = u)) as [->|Hvu].
    + rewrite lookup_insert_eq in Hv. injection Hv as <-. simpl. split; [by eexists|done].
    + rewrite lookup_insert_ne in Hv by done. by apply (L5 v).
Qed.

(** A new muxnote. *)
Record created (st st' : mux_state) (id : nat) (m : dispatch_muxnote_s) (ra wa : bool) : Prop := {
  cr_mux : es_mux st' = <[id := m]> (es_mux st);
  cr_epfd : exists it, _dispatch_epfd st' = <[dmn_fd m := it]> (_dispatch_epfd st) /\ item_ok it id m ra wa;
  cr_fd : _dispatch_epfd st !! dmn_fd m = None;
  cr_sources : forall b, _dispatch_sources st' b =
    if decide (b = DSL_HASH (dmn_ident m)) then id :: _dispatch_sources st b else _dispatch_sources st b;
  cr_id : id = es_next st;
  cr_next : es_next st' = S id;
  cr_shape : shape m ra wa;
  cr_unique : forall j k, es_mux st !! j = Some k -> dmn_ident k = dmn_ident m -> dmn_filter k = dmn_filter m -> False;
}.

Lemma next_fresh st : mux_inv st -> es_mux st !! es_next st = None.
Proof. intros I. destruct (es_mux st !! es_next st) eqn:E; [|done]. pose proof (bk_fresh _ _ _ (mi_bucket _ I) (es_next st)). rewrite E in H. specialize (H ltac:(by eexists)). lia. Qed.

Lemma created_inv st st' id m ra wa : mux_inv st -> created st st' id m ra wa -> lists_inv st' -> mux_inv st'.
Proof.
  intros I [Em (it & Ee & Ok) Hfd Es Eid En Sh Hun] HL. pose proof (next_fresh st I) as Hfresh. rewrite <- Eid in Hfresh.
  assert (forall j k, es_mux st !! j = Some k -> dmn_fd k <> dmn_fd m /\ j <> id) as Hne.
  { intros j k Hk. destruct (mi_kernel _ I j k Hk) as (? & ? & it' & _ & Hit & _). split; [intros E; congruence|]. intros ->. congruence. }
  constructor; [| |done|].
  - intros j k Hk. rewrite Em in Hk. rewrite Ee. destruct (decide (j = id)) as [->|Hj].
    + rewrite lookup_insert_eq in Hk. injection Hk as <-. exists ra, wa, it. by rewrite lookup_insert_eq.
    + rewrite lookup_insert_ne in Hk by done. destruct (mi_kernel _ I j k Hk) as (ra' & wa' & it' & S' & Hit' & O'). exists ra', wa', it'.
      rewrite lookup_insert_ne; [done|]. by destruct (Hne j k Hk) as [? _].
  - intros fd it' Hit. rewrite Ee in Hit. rewrite Em. destruct (decide (fd = dmn_fd m)) as [->|Hf].
    + rewrite lookup_insert_eq in Hit. injection Hit as <-. exists m. by rewrite (it_data _ _ _ _ _ Ok), lookup_insert_eq.
    + rewrite lookup_insert_ne in Hit by done. destruct (mi_items _ I fd it' Hit) as (k & Hk & <-). exists k.
      rewrite lookup_insert_ne; [done|]. by destruct (Hne _ k Hk) as [_ ?].
  - rewrite Em, En. destruct (mi_bucket _ I) as [B1 B2 B3]. constructor.
    + intros b j. rewrite Es. destruct (decide (j = id)) as [->|Hj].
      * rewrite lookup_insert_eq. destruct (decide (b = _)) as [->|Hb].
        -- split; [intros _; by exists m|]. intros _. by left.
        -- rewrite B1, Hfresh. split; [by intros (? & ? & _)|]. by intros (? & [= <-] & ?).
      * rewrite lookup_insert_ne by done. rewrite <- B1. destruct (decide (b = _)); [|done]. rewrite elem_of_cons. intuition congruence.
    + intros i j k k'. destruct (decide (i = id)) as [->|Hi], (decide (j = id)) as [->|Hj]; rewrite ?lookup_insert_eq, ?lookup_insert_ne by done.
      * done.
      * intros [= <-] Hk' E1 E2. by destruct (Hun j k').
      * intros Hk [= <-] E1 E2. by destruct (Hun i k).
      * apply B2.
    + intros j [k Hk]. destruct (decide (j = id)) as [->|Hj]; [lia|]. rewrite lookup_insert_ne in Hk by done.
      specialize (B3 j ltac:(by exists k)). lia.
Qed.

Lemma created_watches st st' id m ra wa i f : mux_inv st -> created st st' id m ra wa -> filter_ok f ->
  watches st' i f <-> watches st i f \/ (i = dmn_ident m /\ mux_filter f = dmn_filter m /\ dir f ra wa = true).
Proof.
  intros I [Em (it & Ee & Ok) Hfd Es Eid En Sh Hun] Fok. pose proof (next_fresh st I) as Hfresh. rewrite <- Eid in Hfresh.
  unfold watches. rewrite Em, Ee. split.
  - intros (j & k & it' & Hk & Ei & Ef & Hit & On & Hb). destruct (decide (j = id)) as [->|Hj].
    + rewrite lookup_insert_eq in Hk. injection Hk as <-. rewrite lookup_insert_eq in Hit. injection Hit as <-. right.
      rewrite (it_on _ _ _ _ _ Ok On), evmask_bit in Hb. done.
    + rewrite lookup_insert_ne in Hk by done. left. exists j, k, it'. rewrite lookup_insert_ne in Hit; [done|].
      destruct (mi_kernel _ I j k Hk) as (? & ? & it2 & _ & Hit2 & _). congruence.
  - intros [(j & k & it' & Hk & Ei & Ef & Hit & On & Hb)|(-> & Ef & Hd)].
    + exists j, k, it'. rewrite !lookup_insert_ne; [done|congruence|congruence].
    + exists id, m, it. rewrite !lookup_insert_eq. destruct (ei_enabled it) eqn:On.
      * split_and!; try done. by rewrite (it_on _ _ _ _ _ Ok On), evmask_bit.
      * destruct (it_off _ _ _ _ _ Ok On) as [-> ->]. by dir_cases.
Qed.

(** A reader that arrives while only writes of its descriptor are watched. *)
Definition crossed (st : mux_state) (n : unote) : Prop :=
  du_filter n = EVFILT_READ /\ watches st (du_ident n) EVFILT_WRITE /\ ~ watches st (du_ident n) EVFILT_READ.

Lemma nonempty_dir {A} f (a b : list A) : nonempty (dir f a b) = dir f (nonempty a) (nonempty b).
Proof. by dir_cases. Qed.

(** A muxnote that [u] joins. *)
Definition join (m : dispatch_muxnote_s) (f : Z) (u : nat) : dispatch_muxnote_s :=
  set_lists m (dir f (u :: dmn_readers_head m) (dmn_readers_head m)) (dir f (dmn_writers_head m) (u :: dmn_writers_head m)).

Section join.
Context (m : dispatch_muxnote_s) (ra wa : bool) (f : Z) (Sh : shape m ra wa) (Fok : filter_ok f) (Ef : dmn_filter m = mux_filter f).
Abbreviation os := (bool_decide (dmn_filter m = EVFILT_READ)).
Abbreviation req := (evmask os (dir f true false) (dir f false true)).

Lemma need_bit : (req .& lnotw 32 (evmask os ra wa) <> 0) <-> dir f ra wa = false.
Proof using All. destruct Fok as [->|[->| ->]], os, ra, wa; cbn; split; done. Qed.

Lemma req_armed : req .| evmask os ra wa = evmask os (dir f true ra) (dir f wa true).
Proof using All. destruct Fok as [->|[->| ->]], os, ra, wa; reflexivity. Qed.

(** The direction was armed already. *)
Lemma join_shape u : dir f ra wa = true -> shape (join m f u) ra wa.
Proof using All.
  intros Hd. destruct Sh as [He Hdis Hr Hw Hf Hu].
  assert (nonempty (dmn_readers_head (join m f u)) = nonempty (dmn_readers_head m) /\
    nonempty (dmn_writers_head (join m f u)) = nonempty (dmn_writers_head m)) as [E1 E2].
  { simpl. dir_cases; simpl; [by rewrite (Hw Hd)|by rewrite (Hr Hd)]. }
  constructor; rewrite ?E1, ?E2; try done. simpl. destruct Hf as [?|(E0 & ? & E)]; [by left|right]. split_and!; try done.
  unfold mux_filter in Ef. dir_cases; [by rewrite Ef in E0|done].
Qed.

Lemma join_rearm_shape u : dir f ra wa = false ->
  shape (join (set_events m (dmn_events m .| evmask os (dir f true ra) (dir f wa true))
                (dmn_disarmed_events m .& lnotw 32 (evmask os (dir f true ra) (dir f wa true)))) f u)
    (dir f true ra) (dir f wa true).
Proof using All.
  intros Hd. destruct Sh as [He Hdis Hr Hw Hf Hu]. constructor; simpl; rewrite ?He, ?Hdis.
  - rewrite !nonempty_dir. destruct Fok as [->|[->| ->]], os, ra, wa, (nonempty (dmn_readers_head m)), (nonempty (dmn_writers_head m)); try reflexivity;
      first [by specialize (Hr eq_refl)|by specialize (Hw eq_refl)|done].
  - rewrite !nonempty_dir. destruct Fok as [->|[->| ->]], os, ra, wa, (nonempty (dmn_readers_head m)), (nonempty (dmn_writers_head m)); try reflexivity;
      first [by specialize (Hr eq_refl)|by specialize (Hw eq_refl)|done].
  - dir_cases; auto.
  - dir_cases; auto.
  - destruct Hf as [?|(E & -> & _)]; [by left|]. unfold mux_filter in Ef. dir_cases; [by rewrite Ef in E|done].
  - dir_cases; simpl; [by rewrite orb_true_r|done].
Qed.

End join.

(** The result of a registration. *)
Record registered_post (st st' : mux_state) (u : nat) (n : unote) (b : bool) : Prop := {
  rp_inv : mux_inv st';
  rp_log : exists L, es_log st' = es_log st ++ L /\ forall v, merges v L = 0%nat;
  rp_true : b = true -> (exists id, es_unotes st' = <[u := joined_unote n id]> (es_unotes st)) /\ watch_added st st' (du_ident n) (du_filter n);
  rp_false : b = false -> es_unotes st' = es_unotes st /\ forall i f, watches st' i f <-> watches st i f;
}.

Lemma register_found sy st u n id m : mux_inv st -> es_unotes st !! u = Some n -> du_muxnote n = None -> ~ crossed st n ->
  _dispatch_muxnote_find st (DSL_HASH (du_ident n)) (du_ident n) (du_filter n) = Some id ->
  es_mux st !! id = Some m -> dmn_ident m = du_ident n -> dmn_filter m = mux_filter (du_filter n) ->
  exists st' b, _dispatch_unote_register_muxed sy st u = Done (st', b) /\ registered_post st st' u n b.
Proof.
  intros I Hu Hn Hx Hfind Hm Hi Hf. destruct (mi_kernel _ I id m Hm) as (ra & wa & it & Sh & Hit & Ok).
  destruct (ls_ok _ (mi_lists _ I) u n Hu) as [Fok Hre].
  unfold _dispatch_unote_register_muxed. rewrite Hu. unfold register_muxnote. rewrite Hfind, Hm.
  rewrite (required_events n Fok Hre), <- Hf, (shape_armed m ra wa Sh), (req_armed m ra wa (du_filter n) Sh Fok Hf).
  set (f := du_filter n) in *.
  assert (forall g, filter_ok g -> mux_filter g = dmn_filter m -> watches st (du_ident n) g <-> dir g ra wa = true) as Hwf.
  { intros g Hg E. rewrite <- Hi. by eapply watches_flag. }
  (* one end for the two ways to succeed *)
  assert (forall st1 m1 ra' wa' L, updated st (with_unote (with_mux st1 id (join m1 f u)) u (joined_unote n id)) id m (join m1 f u) ra' wa' ->
    es_unotes st1 = es_unotes st -> dmn_readers_head m1 = dmn_readers_head m -> dmn_writers_head m1 = dmn_writers_head m ->
    dmn_ident m1 = dmn_ident m -> dmn_filter m1 = dmn_filter m -> es_log st1 = es_log st ++ L -> (forall v, merges v L = 0%nat) ->
    ra' = dir f true ra -> wa' = dir f wa true ->
    registered_post st (with_unote (with_mux st1 id (join m1 f u)) u (joined_unote n id)) u n true) as Hend.
  { intros st1 m1 ra' wa' L U Eu Er Ew Ei Efl El HL Era Ewa. set (st' := with_unote _ _ _) in *. constructor; [| |intros _|done].
    - constructor; [by eapply updated_kernel|by eapply updated_items| |by eapply updated_bucket].
      eapply (joined_lists st st' u n id (join m1 f u) (dmn_readers_head m) (dmn_writers_head m)); try done.
      + by apply I.
      + simpl. by rewrite Eu.
      + by rewrite (up_mux _ _ _ _ _ _ _ U).
      + left. exists m. split_and!; try done; simpl; congruence.
      + simpl. congruence.
      + simpl. by rewrite Efl, Hf.
      + simpl. by rewrite Er.
      + simpl. by rewrite Ew.
    - by exists L.
    - split; [exists id; simpl; by rewrite Eu|]. intros i g Hg. rewrite (updated_watches _ _ _ _ _ _ _ I Hm U) by done.
      destruct (decide (i = dmn_ident m /\ mux_filter g = dmn_filter m)) as [[-> E]|E].
      + rewrite Hi, (Hwf g Hg E), Era, Ewa. rewrite Hf in E. fold f. clear -Hg Fok E. unfold mux_filter, dir in *.
        repeat case_decide; destruct Hg as [?|[?|?]], Fok as [?|[?|?]]; intuition congruence.
      + split; [by left|]. intros [?|[-> ->]]; [done|]. destruct E. by split. }
  destruct (decide (_ <> 0)) as [Hneed|Hneed].
  - apply need_bit in Hneed; try done. fold f in Hneed. unfold _dispatch_epoll_update. rewrite Hit. destruct (sy_epoll_ctl sy).
    2:{ exists st, false. split; [done|]. constructor; try done. exists []. by rewrite app_nil_r. }
    cbn [mbind outcome_bind with_mux es_mux]. rewrite lookup_insert_eq, decide_out.
    rewrite (evmask_bit _ _ _ EVFILT_WRITE : Z.testbit _ 2 = _). change (dir EVFILT_WRITE ?a ?b) with b.
    assert (forall A (a b : A), (if dir f wa true then a else b) = dir f b a) as Hdir.
    { intros A a b. destruct (dir f wa true) eqn:Edir; [|by dir_cases].
      unfold dir in *. destruct (decide (f = EVFILT_WRITE)) as [?|Hfw]; [done|]. exfalso.
      destruct Fok as [E|[E|E]]; [|done|].
      - apply Hx. fold f. rewrite E in *. split_and!; [done| |].
        + apply (Hwf EVFILT_WRITE); [by right; left|by rewrite Hf|]. done.
        + rewrite (Hwf EVFILT_READ); [|by left|by rewrite Hf]. cbn. by rewrite Hneed.
      - destruct (sh_filter _ _ _ Sh) as [?|(_ & -> & _)]; [|done]. by rewrite Hf, E in *. }
    rewrite Hdir. set (m1 := set_events m _ _).
    assert (dir f (set_lists m1 (u :: dmn_readers_head m1) (dmn_writers_head m1)) (set_lists m1 (dmn_readers_head m1) (u :: dmn_writers_head m1)) =
      join m1 f u) as -> by (unfold join; by dir_cases).
    eexists _, true. split; [reflexivity|]. apply (Hend _ m1 (dir f true ra) (dir f wa true) []); try done; [|simpl; by rewrite app_nil_r].
    pose proof (join_rearm_shape m ra wa f Sh Fok Hf u Hneed) as Shj. fold m1 in Shj.
    constructor; try done; simpl; [by rewrite insert_insert_eq|]. eexists. split; [done|]. by constructor.
  - rewrite need_bit in Hneed by done. assert (dir f ra wa = true) as Hd by (by destruct (dir f ra wa)).
    cbn [mbind outcome_bind]. rewrite Hm, decide_out.
    rewrite (evmask_bit _ _ _ EVFILT_WRITE : Z.testbit _ 2 = _). change (dir EVFILT_WRITE ?a ?b) with b.
    assert ((if dir f false true then set_lists m (dmn_readers_head m) (u :: dmn_writers_head m) else set_lists m (u :: dmn_readers_head m) (dmn_writers_head m)) =
      join m f u) as -> by (unfold join; by dir_cases).
    eexists _, true. split; [reflexivity|]. apply (Hend st m ra wa []); try done; [|by rewrite app_nil_r|by dir_cases; subst|by dir_cases; subst].
    pose proof (join_shape m ra wa f Sh Fok Hf u Hd) as Shj.
    constructor; try done. exists it. split; [simpl; by rewrite insert_id|]. by destruct Ok; constructor.
Qed.

Lemma create_ok sy st n events : filter_ok (du_filter n) ->
  exists st1 o, _dispatch_muxnote_create sy st n events = Done (st1, o) /\ frame st st1 /\ es_unotes st1 = es_unotes st /\ es_log st1 = es_log st /\
    forall m, o = Some m -> exists fd a b, m = new_muxnote n (mux_filter (du_filter n)) fd events a b.
Proof.
  intros Fok. unfold _dispatch_muxnote_create.
  assert (forall st1 o, (st1 = st \/ exists s, st1 = with_signal st s) ->
    (forall m, o = Some m -> exists fd a b, m = new_muxnote n (mux_filter (du_filter n)) fd events a b) ->
    exists st2 o2, (Done (st1, o) : outcome (mux_state * option dispatch_muxnote_s)) = Done (st2, o2) /\ frame st st2 /\ es_unotes st2 = es_unotes st /\
      es_log st2 = es_log st /\ forall m, o2 = Some m -> exists fd a b, m = new_muxnote n (mux_filter (du_filter n)) fd events a b) as H.
  { intros st1 o Hst Ho. exists st1, o. split; [done|]. by destruct Hst as [->|[s ->]]. }
  destruct Fok as [E|[E|E]]; rewrite E in *; simpl.
  - destruct (sy_fstat sy) as [|[fd|]|[v|]|]; apply H; try (by left); try done; intros m [= <-]; by eexists _, _, _.
  - destruct (sy_fstat sy) as [|[fd|]|[v|]|]; apply H; try (by left); try done; intros m [= <-]; by eexists _, _, _.
  - destruct (sy_signalfd sy) as [fd|]; apply H; try done; try (destruct (decide (_ ∈ _)); [by left|right; by eexists]);
      intros m [= <-]; by eexists _, _, _.
Qed.

(** An address was used and given back. *)
Lemma grown_inv st st' : mux_inv st -> es_mux st' = es_mux st -> es_unotes st' = es_unotes st -> _dispatch_sources st' = _dispatch_sources st ->
  _dispatch_epfd st' = _dispatch_epfd st -> (es_next st <= es_next st')%nat -> mux_inv st'.
Proof.
  intros [I1 I2 I3 I4] E1 E2 E3 E4 Hle. constructor.
  - intros id m. rewrite E1, E4. apply I1.
  - intros fd it. rewrite E1, E4. apply I2.
  - apply (lists_keys st); [done| |done]. intros u. by rewrite E2.
  - rewrite E1, E3. destruct I4 as [B1 B2 B3]. constructor; [done|done|]. intros id Hid. specialize (B3 id Hid). lia.
Qed.

Lemma new_shape n u fd a b : filter_ok (du_filter n) ->
  shape (join (new_muxnote n (mux_filter (du_filter n)) fd
    (evmask (bool_decide (mux_filter (du_filter n) = EVFILT_READ)) (dir (du_filter n) true false) (dir (du_filter n) false true)) a b) (du_filter n) u)
    (dir (du_filter n) true false) (dir (du_filter n) false true).
Proof. intros [E|[E|E]]; rewrite E; constructor; simpl; try done; first [by left|by right]. Qed.

Lemma register_new sy st u n : mux_inv st -> es_unotes st !! u = Some n -> du_muxnote n = None ->
  _dispatch_muxnote_find st (DSL_HASH (du_ident n)) (du_ident n) (du_filter n) = None ->
  exists st' b, _dispatch_unote_register_muxed sy st u = Done (st', b) /\ registered_post st st' u n b.
Proof.
  intros I Hu Hn Hfind. destruct (ls_ok _ (mi_lists _ I) u n Hu) as [Fok Hre].
  pose proof (find_correct st (du_ident n) (du_filter n) I) as Hun. rewrite Hfind in Hun.
  unfold _dispatch_unote_register_muxed. rewrite Hu. unfold register_muxnote. rewrite Hfind, (required_events n Fok Hre).
  set (f := du_filter n) in *. set (events := evmask _ _ _).
  destruct (create_ok sy st n events Fok) as (st1 & o & -> & F & Eu & El & Ho). cbn [mbind outcome_bind].
  pose proof (frame_inv st st1 F I) as I1. destruct o as [m|].
  2:{ exists st1, false. split; [done|]. constructor; try done. - exists []. by rewrite app_nil_r.
      - intros _. split; [done|]. intros. by apply frame_watches. }
  destruct (Ho m eq_refl) as (fd & a & b & ->). clear Ho. fold f. set (m := new_muxnote n (mux_filter f) fd events a b).
  set (id := es_next st1). set (st2 := mux_alloc st1 m).
  assert (es_mux st1 !! id = None) as Hfresh by (by apply next_fresh).
  unfold _dispatch_epoll_update. change (_dispatch_epfd st2) with (_dispatch_epfd st1). change (dmn_fd m) with fd.
  destruct (_dispatch_epfd st1 !! fd) as [it0|] eqn:Efd; [|destruct (sy_epoll_ctl sy)].
  1,3: unfold _dispatch_muxnote_dispose; simpl; rewrite lookup_insert_eq; opt_simpl;
    set (st3 := if decide _ then _ else st2);
    assert (es_mux st3 = es_mux st2 /\ es_unotes st3 = es_unotes st2 /\ _dispatch_sources st3 = _dispatch_sources st2 /\
      _dispatch_epfd st3 = _dispatch_epfd st2 /\ es_next st3 = es_next st2 /\ exists L, es_log st3 = es_log st2 ++ L /\ forall v, merges v L = 0%nat)
      as (E1 & E2 & E3 & E4 & E5 & E6)
      by (unfold st3; destruct (decide _); split_and!; try done; [by eexists|exists []; by rewrite app_nil_r]);
    exists (mux_free st3 id), false; (split; [done|]); constructor; try done;
    [ apply (grown_inv st1); try done; simpl; [rewrite E1; simpl; by rewrite delete_insert_id|rewrite E5; simpl; lia]
    | simpl; destruct E6 as (L & -> & HL); exists L; simpl; by rewrite El
    | intros _; simpl; rewrite E2; (split; [done|]); intros i g; rewrite <- (frame_watches st st1 i g F); unfold watches; simpl;
      rewrite E1, E4; simpl; by rewrite delete_insert_id ].
  simpl. rewrite lookup_insert_eq. rewrite decide_out.
  replace (Z.testbit events 2) with (dir f false true) by (symmetry; apply (evmask_bit _ _ _ EVFILT_WRITE)).
  match goal with |- context [if dir f false true then ?a else ?b] =>
    assert ((if dir f false true then a else b) = join m f u) as -> by (unfold join; by dir_cases) end.
  eexists _, true. split; [reflexivity|]. set (st' := with_unote _ _ _).
  assert (created st1 st' id (join m f u) (dir f true false) (dir f false true)) as C.
  { pose proof (new_shape n u fd a b Fok) as Sh. fold f events m in Sh. constructor; try done.
    - simpl. by rewrite insert_insert_eq.
    - eexists. split; [done|]. by constructor.
    - intros b0. simpl. by destruct (decide (b0 = _)) as [->|].
    - intros j k. rewrite (fr_mux _ _ F). intros. by apply (Hun j k). }
  constructor; [| |intros _|done].
  - eapply (created_inv st1); try done.
    eapply (joined_lists st1 st' u n id (join m f u) [] []); try done; [apply I1|by rewrite Eu| |right; done].
    simpl. by rewrite insert_insert_eq.
  - exists []. rewrite app_nil_r. simpl. by rewrite El.
  - split; [exists id; simpl; by rewrite Eu|]. intros i g Hg. rewrite (created_watches st1 st' id _ _ _ i g I1 C Hg).
    rewrite (frame_watches st st1 i g F). simpl. fold f. unfold mux_filter, dir.
    clear -Fok Hg. repeat case_decide; destruct Hg as [?|[?|?]], Fok as [?|[?|?]]; intuition congruence.
Qed.

Lemma register_ok sy st u n : mux_inv st -> es_unotes st !! u = Some n -> du_muxnote n = None -> ~ crossed st n ->
  exists st' b, _dispatch_unote_register_muxed sy st u = Done (st', b) /\ registered_post st st' u n b.
Proof.
  intros I Hu Hn Hx. pose proof (find_correct st (du_ident n) (du_filter n) I) as Hc.
  destruct (_dispatch_muxnote_find _ _ _ _) as [id|] eqn:E; [|by apply register_new].
  destruct Hc as (m & Hm & Hi & Hf). by eapply register_found.
Qed.
