(* ===== verification/EpollSubs.v ===== *)
(** * Multiplexed descriptors as subscriptions

    The specification of [Epoll]: a set of registered unotes with the descriptor and the
    direction each asked for, the directions that are armed, and the unotes that wait.  The
    multiplexer implements it; the exception is a reader that is registered while only the
    writes of its descriptor are armed, which never hears of a read. *)

From S2P Require Import Prelude Epoll EpollMux EpollSpec.

Local Open Scope word_scope.

(** A descriptor (or signal) and a filter. *)
#[local] Abbreviation key := (Z * Z)%type.

Record subs := { a_reg : gmap nat key; a_armed : gset key; a_waiting : gset nat }.

Inductive mux_op :=
| ORegister (u : nat) (sy : syscalls)
| OResume (u : nat)
| OUnregister (u : nat)
| OEvent (i mf events : Z) (ioctl : bool -> option Z) (readable : bool).

Definition some_done {A} (o : option A) : outcome (A * bool) :=
  match o with Some a => Done (a, true) | None => Crash InvalidAccess end.

Definition exec_mux (st : mux_state) (o : mux_op) : outcome (mux_state * bool) :=
  match o with
  | ORegister u sy => _dispatch_unote_register_muxed sy st u
  | OResume u => some_done (_dispatch_unote_resume_muxed st u)
  | OUnregister u => some_done (_dispatch_unote_unregister_muxed st u)
  | OEvent i mf events ioctl readable =>
      match _dispatch_muxnote_find st (DSL_HASH i) i mf ≫= (es_mux st !!.) with
      | Some m => st ← deliver ioctl readable st (dmn_fd m) events; Done (st, true)
      | None => Crash InvalidAccess
      end
  end.

(** ** The specification *)

Section spec.
Context (K : gmap nat key).     (* what each unote is for *)

(** The event ends the wait for [p]. *)
Definition fired (A : subs) (i mf events : Z) (p : key) : bool :=
  bool_decide (p.1 = i) && bool_decide (mf = EVFILT_READ) && bool_decide (mux_filter p.2 = EVFILT_READ) &&
  bool_decide (p ∈ a_armed A) && fires events p.2.

Definition ends_wait (A : subs) (i mf events : Z) (u : nat) : bool :=
  match a_reg A !! u with Some p => fired A i mf events p | None => true end.

Definition abs_op (A : subs) (o : mux_op) (ok : bool) : subs :=
  match o with
  | ORegister u _ =>
      match K !! u with
      | Some p => if ok then {| a_reg := <[u := p]> (a_reg A); a_armed := {[p]} ∪ a_armed A; a_waiting := {[u]} ∪ a_waiting A |} else A
      | None => A
      end
  | OResume u =>
      match a_reg A !! u with
      | Some p => {| a_reg := a_reg A; a_armed := {[p]} ∪ a_armed A; a_waiting := {[u]} ∪ a_waiting A |}
      | None => A
      end
  | OUnregister u =>
      match a_reg A !! u with
      | Some p =>
          {| a_reg := delete u (a_reg A);
             a_armed := if decide (p ∈ (map_img (delete u (a_reg A)) : gset key)) then a_armed A else a_armed A ∖ {[p]};
             a_waiting := a_waiting A ∖ {[u]} |}
      | None => A
      end
  | OEvent i mf events _ _ =>
      {| a_reg := a_reg A; a_armed := filter (fun p => fired A i mf events p = false) (a_armed A);
         a_waiting := filter (fun u => ends_wait A i mf events u = false) (a_waiting A) |}
  end.

(** How often the operation calls the handler of [u]. *)
Definition notified (A : subs) (o : mux_op) (u : nat) : nat :=
  match o, a_reg A !! u with
  | OEvent i mf events _ readable, Some p =>
      if bool_decide (p.1 = i) && bool_decide (mux_filter p.2 = mf) &&
         (if decide (mf = EVFILT_SIGNAL) then readable else bool_decide (p ∈ a_armed A) && fires events p.2)
      then 1%nat else 0%nat
  | _, _ => 0%nat
  end.

(** What clients and the kernel respect: a unote is registered once, only registered ones
    are resumed and unregistered, and the kernel reports what it was asked to watch. *)
Definition mux_op_valid (st : mux_state) (A : subs) (o : mux_op) : Prop :=
  match o with
  | ORegister u _ => is_Some (K !! u) /\ a_reg A !! u = None
  | OResume u | OUnregister u => is_Some (a_reg A !! u)
  | OEvent i mf events _ _ => (mf = EVFILT_READ \/ mf = EVFILT_SIGNAL) /\ exists id m, es_mux st !! id = Some m /\
      dmn_ident m = i /\ dmn_filter m = mf /\ event_ok st (dmn_fd m) events
  end.

(** A condition that the code does not ask for and that the theorem needs: no reader is
    registered while a writer of its descriptor is armed and no reader is.  What the code
    does with such a reader is [crossed_reader_deaf]. *)
Definition uncrossed (A : subs) (o : mux_op) : Prop :=
  match o with
  | ORegister u _ => forall i, K !! u = Some (i, EVFILT_READ) -> (i, EVFILT_WRITE) ∈ a_armed A -> (i, EVFILT_READ) ∈ a_armed A
  | _ => True
  end.

Record implements (st : mux_state) (A : subs) : Prop := {
  im_inv : mux_inv st;
  im_key : forall u, (fun n => (du_ident n, du_filter n)) <$> es_unotes st !! u = K !! u;
  im_reg : forall u p, a_reg A !! u = Some p <-> exists n, es_unotes st !! u = Some n /\ is_Some (du_muxnote n) /\ p = (du_ident n, du_filter n);
  im_armed : forall i f, (i, f) ∈ a_armed A <-> filter_ok f /\ watches st i f;
  im_wait : forall u, u ∈ a_waiting A -> exists p, a_reg A !! u = Some p /\ p ∈ a_armed A;
}.

(** ** Each operation *)

Lemma reg_lookup st A u n : implements st A -> es_unotes st !! u = Some n ->
  a_reg A !! u = match du_muxnote n with Some _ => Some (du_ident n, du_filter n) | None => None end.
Proof.
  intros [_ _ R _ _] Hu. destruct (du_muxnote n) eqn:E.
  - apply R. exists n. split_and!; try done.
  - destruct (a_reg A !! u) eqn:E2; [|done]. apply R in E2 as (n' & Hn' & Hs & _). rewrite Hu in Hn'. injection Hn' as <-. rewrite E in Hs. by destruct Hs.
Qed.

Lemma registered_unote st A u p : implements st A -> a_reg A !! u = Some p -> exists n, es_unotes st !! u = Some n /\ is_Some (du_muxnote n) /\
  p = (du_ident n, du_filter n) /\ filter_ok (du_filter n).
Proof.
  intros Im H. apply (im_reg _ _ Im) in H as (n & Hn & Hs & ->). exists n. split_and!; try done. by apply (ls_ok _ (mi_lists _ (im_inv _ _ Im)) u).
Qed.

Definition simulates (st : mux_state) (A : subs) (o : mux_op) : Prop :=
  exists st' ok L, exec_mux st o = Done (st', ok) /\ implements st' (abs_op A o ok) /\ es_log st' = es_log st ++ L /\
    forall u, is_Some (K !! u) -> merges u L = notified A o u.

Lemma sim_resume st A u : implements st A -> is_Some (a_reg A !! u) -> simulates st A (OResume u).
Proof.
  intros Im [p Hp]. destruct (registered_unote st A u p Im Hp) as (n & Hu & Hs & -> & Fok).
  destruct (resume_ok st u n (im_inv _ _ Im) Hu Hs) as (st' & E & I' & Eu & El & Hw).
  exists st', true, []. simpl. rewrite E, Hp. split; [done|]. split; [|split; [by rewrite app_nil_r|by intros ? _]].
  constructor; simpl; rewrite ?Eu; try apply Im; try done.
  - intros i f. rewrite elem_of_union, elem_of_singleton, (im_armed _ _ Im). split.
    + intros [[= -> ->]|[Hf Hwa]]; (split; [done|]); apply Hw; auto.
    + intros [Hf Hwa]. apply (Hw i f Hf) in Hwa as [?|[-> ->]]; auto.
  - intros v [->%elem_of_singleton|Hv]%elem_of_union; [exists (du_ident n, du_filter n); set_solver|].
    destruct (im_wait _ _ Im v Hv) as (p & ? & ?). exists p. set_solver.
Qed.

Lemma sim_register st A u sy : implements st A -> mux_op_valid st A (ORegister u sy) -> uncrossed A (ORegister u sy) -> simulates st A (ORegister u sy).
Proof.
  intros Im ([p HK] & Hreg) Hx. simpl in Hx. pose proof (im_key _ _ Im u) as Hk. rewrite HK in Hk.
  destruct (es_unotes st !! u) as [n|] eqn:Hu; [|done]. injection Hk as <-.
  assert (du_muxnote n = None) as Hn by (rewrite (reg_lookup st A u n Im Hu) in Hreg; by destruct (du_muxnote n)).
  assert (~ crossed st n) as Hnx.
  { intros (Ef & Hw & Hr). rewrite Ef in HK. apply Hr, (im_armed _ _ Im), Hx; [done|].
    apply (im_armed _ _ Im). split; [by right; left|done]. }
  destruct (register_ok sy st u n (im_inv _ _ Im) Hu Hn Hnx) as (st' & b & E & [I' (L & El & HL) Ht Hfa]).
  exists st', b, L. simpl. rewrite HK. split; [done|]. split; [|split; [done|by intros]].
  destruct b.
  - destruct (Ht eq_refl) as [[id Eu] Hw]. constructor; simpl; rewrite ?Eu; try done.
    + intros v. destruct (decide (v = u)) as [->|Hv]; [rewrite lookup_insert_eq; by rewrite HK|]. rewrite lookup_insert_ne by done. apply Im.
    + intros v p. destruct (decide (v = u)) as [->|Hv].
      * rewrite !lookup_insert_eq. split; [intros [= <-]; eexists; (split; [done|]); by split|]. by intros (n' & [= <-] & _ & ->).
      * rewrite !lookup_insert_ne by done. apply Im.
    + intros i f. rewrite elem_of_union, elem_of_singleton, (im_armed _ _ Im). split.
      * intros [[= -> ->]|[Hf Hwa]]; [|split; [done|]; apply Hw; auto]. split; [apply (ls_ok _ (mi_lists _ (im_inv _ _ Im)) u n Hu)|].
        apply Hw; [|by right]. apply (ls_ok _ (mi_lists _ (im_inv _ _ Im)) u n Hu).
      * intros [Hf Hwa]. apply (Hw i f Hf) in Hwa as [?|[-> ->]]; auto.
    + intros v [->%elem_of_singleton|Hv]%elem_of_union; [exists (du_ident n, du_filter n); rewrite lookup_insert_eq; set_solver|].
      destruct (im_wait _ _ Im v Hv) as (p & ? & ?). exists p. rewrite lookup_insert_ne by congruence. set_solver.
  - destruct (Hfa eq_refl) as [Eu Hw]. constructor; rewrite ?Eu; try apply Im; try done. intros i f. rewrite Hw. apply Im.
Qed.

Lemma sim_unregister st A u : implements st A -> is_Some (a_reg A !! u) -> simulates st A (OUnregister u).
Proof.
  intros Im [p Hp]. destruct (registered_unote st A u p Im Hp) as (n & Hu & Hs & -> & Fok).
  destruct (unregister_ok st u n (im_inv _ _ Im) Hu Hs) as (st' & L & E & I' & Eu & El & HL & Hw).
  exists st', true, L. simpl. rewrite E, Hp. split; [done|]. split; [|split; [done|by intros]].
  assert ((du_ident n, du_filter n) ∈ (map_img (delete u (a_reg A)) : gset key) <-> shared st u n) as Hsh.
  { rewrite elem_of_map_img. split.
    - intros (v & [Hne Hv]%lookup_delete_Some). destruct (registered_unote st A v _ Im Hv) as (n' & Hn' & Hs' & [= E1 E2] & _). by exists v, n'.
    - intros (v & n' & Hne & Hn' & Hs' & E1 & E2). exists v. rewrite lookup_delete_ne by done. apply (im_reg _ _ Im). exists n'. split_and!; congruence. }
  constructor; simpl; rewrite ?Eu; try done.
  - intros v. destruct (decide (v = u)) as [->|Hv]; [|rewrite lookup_insert_ne by done; apply Im]. rewrite lookup_insert_eq.
    rewrite <- (im_key _ _ Im), Hu. done.
  - intros v p. destruct (decide (v = u)) as [->|Hv].
    + rewrite lookup_delete_eq, lookup_insert_eq. split; [done|]. intros (n' & [= <-] & [? ?] & _). done.
    + rewrite lookup_delete_ne, lookup_insert_ne by done. apply Im.
  - intros i f. destruct (decide (_ ∈ _)) as [Hin|Hin]; rewrite Hsh in Hin; rewrite ?elem_of_difference, ?elem_of_singleton, (im_armed _ _ Im).
    + split; intros [Hf Hwa]; (split; [done|]); [apply Hw; auto|by apply Hw in Hwa as [? _]].
    + split.
      * intros [[Hf Hwa] Hne]. split; [done|]. apply Hw; [done|]. split; [done|]. intros -> ->. by destruct Hne.
      * intros [Hf Hwa]. apply Hw in Hwa as [Hwa Hno]; [|done]. split; [done|]. intros [= -> ->]. by apply Hin, Hno.
  - intros v [Hv Hne]%elem_of_difference. rewrite not_elem_of_singleton in Hne. destruct (im_wait _ _ Im v Hv) as (p & Hr & Ha). exists p.
    rewrite lookup_delete_ne by done. split; [done|]. destruct (decide (_ ∈ _)) as [Hin|Hin]; [done|].
    apply elem_of_difference. split; [done|]. rewrite elem_of_singleton. intros ->. apply Hin. apply elem_of_map_img. exists v. by rewrite lookup_delete_ne.
Qed.

Lemma fired_true A i mf ev p : fired A i mf ev p = true <->
  p.1 = i /\ mf = EVFILT_READ /\ mux_filter p.2 = EVFILT_READ /\ p ∈ a_armed A /\ fires ev p.2 = true.
Proof. unfold fired. rewrite !andb_true_iff, !bool_decide_eq_true. tauto. Qed.

Lemma sim_event st A i mf ev ioctl readable : implements st A -> mux_op_valid st A (OEvent i mf ev ioctl readable) ->
  simulates st A (OEvent i mf ev ioctl readable).
Proof.
  intros Im (Hmf & id & m & Hm & <- & <- & Hev). pose proof (im_inv _ _ Im) as I.
  destruct (deliver_ok ioctl readable st (dmn_fd m) id m ev I Hm eq_refl Hev) as (st' & L & E & I' & Ks & El & Hw & Hl).
  assert (_dispatch_muxnote_find st (DSL_HASH (dmn_ident m)) (dmn_ident m) (dmn_filter m) = Some id) as Hfind.
  { pose proof (find_correct st (dmn_ident m) (dmn_filter m) I) as Hc.
    assert (mux_filter (dmn_filter m) = dmn_filter m) as Emf by (by destruct Hmf as [-> | ->]).
    destruct (_dispatch_muxnote_find _ _ _ _) as [j|]; [|by destruct (Hc id m)]. destruct Hc as (k & Hk & E1 & E2). f_equal.
    apply (bk_unique _ _ _ (mi_bucket _ I) j id k m); congruence. }
  exists st', true, L. unfold simulates, exec_mux. rewrite Hfind. opt_simpl. simpl. rewrite Hm, E. split; [done|].
  assert (forall u, (fun n => (du_ident n, du_filter n, is_Some (du_muxnote n))) <$> es_unotes st' !! u =
    (fun n => (du_ident n, du_filter n, is_Some (du_muxnote n))) <$> es_unotes st !! u) as Hk.
  { intros u. specialize (Ks u). destruct (es_unotes st' !! u), (es_unotes st !! u); try done. simpl in *. unfold unote_key in Ks. congruence. }
  split; [|split; [done|]].
  - constructor; simpl; [done| | | |].
    + intros u. rewrite <- (im_key _ _ Im). specialize (Hk u). destruct (es_unotes st' !! u), (es_unotes st !! u); try done. simpl in *. congruence.
    + intros u p. rewrite (im_reg _ _ Im). specialize (Hk u). destruct (es_unotes st' !! u) as [n'|], (es_unotes st !! u) as [n|]; try done.
      injection Hk as E1 E2 E3. split; intros (? & [= <-] & Hs & ->); eexists; (split; [done|]); split; congruence.
    + intros j f. rewrite elem_of_filter, (im_armed _ _ Im), <- not_true_iff_false, fired_true, (im_armed _ _ Im). simpl. split.
      * intros [Hno [Hf Hwa]]. split; [done|]. apply Hw; [done|]. split; [done|]. intros (? & ? & ? & ?). by apply Hno.
      * intros [Hf Hwa]. apply Hw in Hwa as [Hwa Hno]; [|done]. split; [|done]. intros (? & ? & ? & _ & ?). by apply Hno.
    + intros u [Hend Hwt]%elem_of_filter. destruct (im_wait _ _ Im u Hwt) as (p & Hr & Ha). exists p. split; [done|].
      apply elem_of_filter. split; [|done]. unfold ends_wait in Hend. by rewrite Hr in Hend.
  - intros u [p HK]. pose proof (im_key _ _ Im u) as Hku. rewrite HK in Hku. destruct (es_unotes st !! u) as [n|] eqn:Hu; [|done].
    injection Hku as <-. destruct (Hl u n Hu) as [H1 H0]. unfold notified. rewrite (reg_lookup st A u n Im Hu).
    assert (filter_ok (du_filter n)) as Fok by (by apply (ls_ok _ (mi_lists _ I) u)).
    destruct (du_muxnote n) as [j|] eqn:Ej; [|apply H0; intros ([? ?] & _); congruence]. simpl.
    destruct (bool_decide (du_ident n = dmn_ident m) && bool_decide (mux_filter (du_filter n) = dmn_filter m) && _) eqn:Eb.
    + apply H1. rewrite !andb_true_iff, !bool_decide_eq_true in Eb. destruct Eb as [[Ei Ef] Er]. unfold called. rewrite Ej.
      split_and!; try done. destruct (decide (dmn_filter m = EVFILT_SIGNAL)); [done|].
      rewrite andb_true_iff, bool_decide_eq_true, (im_armed _ _ Im), Ei in Er. tauto.
    + apply H0. intros (_ & Ei & Ef & Hc). rewrite !bool_decide_eq_true_2 in Eb by done. simpl in Eb.
      destruct (decide (dmn_filter m = EVFILT_SIGNAL)); [congruence|]. rewrite <- Ei in Hc. destruct Hc as [Hc1 Hc2].
      rewrite bool_decide_eq_true_2 in Eb by (apply (im_armed _ _ Im); done). simpl in Eb. congruence.
Qed.

Lemma sim_all st A o : implements st A -> mux_op_valid st A o -> uncrossed A o -> simulates st A o.
Proof.
  destruct o; [apply sim_register|intros Im Hv _; by apply sim_resume|intros Im Hv _; by apply sim_unregister|intros Im Hv _; by apply sim_event].
Qed.

(** ** Runs *)

(** No unote is registered yet. *)
Definition start_mux (U : gmap nat unote) : mux_state := mkMux U ∅ 0 (fun _ => []) ∅ ∅ [].
Definition fresh_unotes (U : gmap nat unote) : Prop := map_Forall (fun _ n => du_muxnote n = None /\ du_registered n = false /\
  filter_ok (du_filter n) /\ du_rearm n = bool_decide (du_filter n <> EVFILT_SIGNAL)) U.
Definition no_subs : subs := {| a_reg := ∅; a_armed := ∅; a_waiting := ∅ |}.

(** The operations so far, each with the subscriptions it found. *)
Inductive mux_run : list (subs * mux_op) -> mux_state -> subs -> Prop :=
| run_start U : fresh_unotes U -> K = (fun n => (du_ident n, du_filter n)) <$> U -> mux_run [] (start_mux U) no_subs
| run_step h st A o st' ok : mux_run h st A -> mux_op_valid st A o -> exec_mux st o = Done (st', ok) ->
    mux_run (h ++ [(A, o)]) st' (abs_op A o ok).

Definition never_crossed (h : list (subs * mux_op)) : Prop := Forall (fun '(A, o) => uncrossed A o) h.

Lemma start_implements U : fresh_unotes U -> K = (fun n => (du_ident n, du_filter n)) <$> U -> implements (start_mux U) no_subs.
Proof.
  intros HU HK. constructor; simpl.
  - constructor; simpl; [done|done| |].
    + constructor; simpl; try done.
      * intros u n id Hu Hid. destruct (HU u n Hu) as (E & _). congruence.
      * intros u n Hu. by destruct (HU u n Hu) as (_ & _ & ?).
      * intros u n Hu. destruct (HU u n Hu) as (E1 & E2 & _). rewrite E1, E2. split; [done|]. by intros [? ?].
    + constructor; simpl; try done; [|by intros id [? ?]]. intros b id. split; [by intros ?%elem_of_nil|]. by intros (? & ? & _).
  - intros u. rewrite HK. symmetry. apply lookup_fmap.
  - intros u p. split; [done|]. intros (n & Hn & [? Hs] & _). destruct (HU u n Hn) as (E & _). congruence.
  - intros i f. split; [by intros ?%elem_of_empty|]. intros [_ (id & m & it & Hm & _)]. done.
  - by intros u ?%elem_of_empty.
Qed.

(** What the kernel watches, somebody registered for. *)
Lemma watched_registered st A i f : implements st A -> filter_ok f -> watches st i f -> exists u, a_reg A !! u = Some (i, f).
Proof.
  intros Im Fok Hw. pose proof (im_inv _ _ Im) as I. destruct Hw as (id & m & it & Hm & <- & Hf & Hit & On & Hb).
  destruct (mi_kernel _ I id m Hm) as (ra & wa & it' & Sh & Hit' & Ok). rewrite Hit in Hit'. injection Hit' as <-.
  rewrite (it_on _ _ _ _ _ Ok On), evmask_bit in Hb.
  assert (exists u, u ∈ dir f (dmn_readers_head m) (dmn_writers_head m)) as [u Hu].
  { assert (nonempty (dir f (dmn_readers_head m) (dmn_writers_head m)) = true) as Hne.
    { unfold dir in *. destruct (decide (f = EVFILT_WRITE)); [by apply (sh_wa _ _ _ Sh)|by apply (sh_ra _ _ _ Sh)]. }
    destruct (dir f (dmn_readers_head m) (dmn_writers_head m)) as [|u l]; [done|]. exists u. by left. }
  assert (u ∈ dmn_readers_head m \/ u ∈ dmn_writers_head m) as Hor by (unfold dir in Hu; destruct (decide (f = EVFILT_WRITE)); auto).
  destruct (ls_in _ (mi_lists _ I) id m u Hm Hor) as (n & Hn & Hid). exists u. apply (im_reg _ _ Im). exists n. split; [done|]. split; [by rewrite Hid|].
  destruct (ls_unote _ (mi_lists _ I) u n id Hn Hid) as (k & Hk & Ek & Fk & Hin & Hout). rewrite Hm in Hk. injection Hk as <-. f_equal; [done|].
  destruct (ls_ok _ (mi_lists _ I) u n Hn) as [Fn _]. rewrite Hf in Fk. clear -Fok Fn Fk Hu Hout. unfold mux_filter in Fk.
  dir_cases; destruct Fok as [?|[?|?]], Fn as [?|[?|?]]; try congruence; done.
Qed.

Lemma run_implements h st A : mux_run h st A -> never_crossed h -> implements st A.
Proof.
  induction 1 as [U HU HK|h st A o st' ok Hr IH Hv He]; [intros _; by apply start_implements|].
  intros [Hh Ho]%Forall_app. apply Forall_cons in Ho as [Ho _]. destruct (sim_all st A o (IH Hh) Hv Ho) as (st2 & ok2 & L & E & Im & _). rewrite He in E. by injection E as -> ->.
Qed.

End spec.

(** ** Theorems *)

(** C11: the multiplexer implements one-shot subscriptions.  In every state that a sequence
    of registrations, resumptions, unregistrations and events leads to, each further
    operation returns without a crash, acts on the registered unotes, the armed directions
    and the waiting unotes as the specification says, and calls the handler of exactly the
    unotes that the specification notifies, once each; and the kernel watches the descriptor
    and direction of every unote that waits, and no direction that nobody registered for.
    This holds as long as no reader is registered while a writer of its descriptor is armed
    and no reader is ([never_crossed], [uncrossed]): such a reader is not called
    ([crossed_reader_deaf]). *)
Theorem mux_refines_subscriptions K h st A : mux_run K h st A -> never_crossed K h ->
  (forall u, u ∈ a_waiting A -> exists i f, a_reg A !! u = Some (i, f) /\ watches st i f) /\
  (forall i f, filter_ok f -> watches st i f -> exists u, a_reg A !! u = Some (i, f)) /\
  (forall o, mux_op_valid K st A o -> uncrossed K A o -> exists st' ok L, exec_mux st o = Done (st', ok) /\
     mux_run K (h ++ [(A, o)]) st' (abs_op K A o ok) /\ never_crossed K (h ++ [(A, o)]) /\
     es_log st' = es_log st ++ L /\ forall u, is_Some (K !! u) -> merges u L = notified A o u).
Proof.
  intros Hr Hh. pose proof (run_implements K h st A Hr Hh) as Im. split; [|split].
  - intros u Hu. destruct (im_wait _ _ _ Im u Hu) as ([i f] & H1 & H2). exists i, f. split; [done|]. by apply (im_armed _ _ _ Im).
  - intros i f. by apply (watched_registered K).
  - intros o Hv Hx. destruct (sim_all K st A o Im Hv Hx) as (st' & ok & L & E & _ & HL). exists st', ok, L. split; [done|]. split; [by econstructor|].
    split; [|done]. apply Forall_app. by split; [|apply Forall_singleton].
Qed.

(** ** A reader beside an armed writer *)

Section crossed.
Context (sy : syscalls) (st : mux_state) (u : nat) (n : unote) (I : mux_inv st) (Hu : es_unotes st !! u = Some n)
  (Hn : du_muxnote n = None) (Hx : crossed st n) (Hok : sy_epoll_ctl sy = true).

(** The muxnote of the writers. *)
Lemma crossed_mux : exists id m it, es_mux st !! id = Some m /\ dmn_ident m = du_ident n /\ dmn_filter m = EVFILT_READ /\
  shape m false true /\ _dispatch_epfd st !! dmn_fd m = Some it /\ item_ok it id m false true.
Proof using I Hx.
  destruct Hx as (Hf & Hw & Hr). destruct Hw as (id & m & it & Hm & Hi & Efl & Hit & On & Hb).
  destruct (mi_kernel _ I id m Hm) as (ra & wa & it' & Sh & Hit' & Ok). rewrite Hit in Hit'. injection Hit' as <-.
  exists id, m, it. pose proof (it_on _ _ _ _ _ Ok On) as Eon. rewrite Eon, evmask_bit in Hb. change (dir EVFILT_WRITE ra wa) with wa in Hb. subst wa.
  assert (ra = false) as ->; [|done]. destruct ra; [|done]. exfalso. apply Hr. rewrite <- Hi.
  apply (watches_flag st id m true true it); try done. by left.
Qed.

Lemma crossed_register : exists st' id m m', _dispatch_unote_register_muxed sy st u = Done (st', true) /\
  es_mux st !! id = Some m /\ dmn_ident m = du_ident n /\ dmn_filter m = EVFILT_READ /\ shape m false true /\
  m' = mkMuxnote (dmn_readers_head m) (u :: dmn_writers_head m) (dmn_fd m) (dmn_ident m) (evmask true true true) 0 (dmn_filter m)
    (dmn_skip_outq_ioctl m) (dmn_skip_inq_ioctl m) /\
  es_mux st' = <[id := m']> (es_mux st) /\ es_unotes st' = <[u := joined_unote n id]> (es_unotes st) /\
  _dispatch_epfd st' = <[dmn_fd m := {| ei_events := evmask true true true; ei_data := id; ei_enabled := true |}]> (_dispatch_epfd st).
Proof using All.
  destruct crossed_mux as (id & m & it & Hm & Hi & Hf & Sh & Hit & Ok). destruct (ls_ok _ (mi_lists _ I) u n Hu) as [Fok Hre].
  destruct Hx as (Hfn & _). pose proof (find_correct st (du_ident n) (du_filter n) I) as Hc. rewrite Hfn in Hc.
  assert (_dispatch_muxnote_find st (DSL_HASH (du_ident n)) (du_ident n) EVFILT_READ = Some id) as Hfind.
  { destruct (_dispatch_muxnote_find _ _ _ _) as [j|]; [|by destruct (Hc id m)]. destruct Hc as (k & Hk & E1 & E2). f_equal.
    apply (bk_unique _ _ _ (mi_bucket _ I) j id k m); try congruence. by rewrite E2, Hf. }
  pose proof (sh_disarmed _ _ _ Sh) as Hd. pose proof (sh_events _ _ _ Sh) as He. pose proof (sh_wa _ _ _ Sh eq_refl) as Hw.
  unfold _dispatch_unote_register_muxed. rewrite Hu. unfold register_muxnote. rewrite Hfn, Hfind, Hm, (required_events n Fok Hre), (shape_armed m _ _ Sh), Hf, Hfn.
  rewrite decide_True by done. unfold _dispatch_epoll_update. rewrite Hit, Hok. cbn [mbind outcome_bind with_mux es_mux]. rewrite lookup_insert_eq.
  rewrite decide_True by done. eexists _, id, m, _. split; [reflexivity|]. rewrite Hf. split_and!; try done; [|unfold joined_unote; by rewrite Hfn].
  simpl. rewrite insert_insert_eq. f_equal. unfold set_lists, set_events. simpl. rewrite Hf. f_equal.
  - rewrite He, Hf, Hw. by destruct (nonempty (dmn_readers_head m)).
  - rewrite Hd, Hw. by destruct (nonempty (dmn_readers_head m)).
Qed.

End crossed.

(** A read is reported to a muxnote that watches both directions. *)
Lemma read_reported ioctl st id m : es_mux st !! id = Some m -> dmn_filter m = EVFILT_READ ->
  dmn_events m = evmask true true true -> dmn_disarmed_events m = 0 ->
  _dispatch_epfd st !! dmn_fd m = Some {| ei_events := evmask true true true; ei_data := id; ei_enabled := true |} ->
  NoDup (dmn_readers_head m) -> (forall v, v ∈ dmn_readers_head m -> is_Some (es_unotes st !! v)) ->
  exists st' m' L, deliver ioctl true st (dmn_fd m) EPOLLIN = Done st' /\ es_mux st' = <[id := m']> (es_mux st) /\ dmn_fd m' = dmn_fd m /\
    dmn_ident m' = dmn_ident m /\
    _dispatch_epfd st' = <[dmn_fd m := {| ei_events := evmask true false true; ei_data := id; ei_enabled := true |}]> (_dispatch_epfd st) /\
    es_log st' = es_log st ++ L /\ forall v, v ∉ dmn_readers_head m -> merges v L = 0%nat.
Proof.
  intros Hm Hf He Hd Hit Nd Hk. unfold deliver, epoll_report. rewrite Hit. opt_simpl. cbn [ei_enabled ei_data ei_events].
  rewrite bool_decide_eq_false_2 by done. set (st1 := with_epfd _ _). unfold drain_muxnote. rewrite decide_False by (intros H; by apply H).
  change (es_mux st1) with (es_mux st). rewrite Hm, Hf. rewrite decide_False, decide_True by done.
  unfold _dispatch_event_merge_fd. change (es_mux st1) with (es_mux st). rewrite Hm. opt_simpl. rewrite decide_False by (intros H; by apply H).
  rewrite Hd. set (m1 := set_events m (dmn_events m) _).
  destruct (pass_ok true false ioctl st1 m1 Nd Hk) as (st2 & m2 & L & P & F & S & E & M). simpl in P, M.
  rewrite decide_True by done. rewrite P. opt_simpl. rewrite decide_False by (intros H; by apply H). opt_simpl.
  destruct S as (a & b & ->). set (m2 := mkMuxnote _ _ _ _ _ _ _ _ _).
  assert (_dispatch_muxnote_armed_events m2 = evmask true false true) as -> by (unfold _dispatch_muxnote_armed_events; simpl; by rewrite He).
  rewrite decide_True by done. unfold epoll_modify, _dispatch_epoll_update. simpl. rewrite (fr_epfd _ _ F). simpl. rewrite lookup_insert_eq. simpl.
  eexists _, m2, L. split; [done|]. simpl. rewrite (fr_mux _ _ F), insert_insert_eq. split_and!; try done.
  intros v Hv. rewrite M. by rewrite decide_False by (by intros [_ ?]).
Qed.

(** C39: a reader registered while a writer of its descriptor is armed, and no reader is, is
    put on the list of the writers.  The kernel then watches its reads, but when one is
    reported the reader is not called, and the kernel stops watching. *)
Theorem crossed_reader_deaf sy st u n ioctl :
  mux_inv st -> es_unotes st !! u = Some n -> du_muxnote n = None -> crossed st n -> sy_epoll_ctl sy = true ->
  exists st' id m, _dispatch_unote_register_muxed sy st u = Done (st', true) /\ es_mux st' !! id = Some m /\
    dmn_ident m = du_ident n /\ u ∈ dmn_writers_head m /\ u ∉ dmn_readers_head m /\ watches st' (du_ident n) EVFILT_READ /\
    exists st2 L, deliver ioctl true st' (dmn_fd m) EPOLLIN = Done st2 /\ es_log st2 = es_log st' ++ L /\ merges u L = 0%nat /\
      ~ watches st2 (du_ident n) EVFILT_READ.
Proof.
  intros I Hu Hn Hx Hok. destruct (crossed_register sy st u n I Hu Hn Hx Hok) as (st' & id & m & m' & E & Hm & Hi & Hf & Sh & -> & Em & Eu & Ee).
  set (m' := mkMuxnote _ _ _ _ _ _ _ _ _) in *. exists st', id, m'.
  assert (u ∉ dmn_readers_head m) as Hnot.
  { intros Hin. destruct (ls_in _ (mi_lists _ I) id m u Hm (or_introl Hin)) as (n' & Hn' & Hid). congruence. }
  assert (es_mux st' !! id = Some m') as Hm' by (by rewrite Em, lookup_insert_eq).
  destruct (read_reported ioctl st' id m') as (st2 & m2 & L & Hdel & Em2 & Efd & Eid & Ee2 & El & HL); try done.
  - simpl. by rewrite Ee, lookup_insert_eq.
  - apply (ls_nodup _ (mi_lists _ I) id m Hm).
  - intros v Hv. rewrite Eu. destruct (ls_in _ (mi_lists _ I) id m v Hm (or_introl Hv)) as (n' & Hn' & _).
    destruct (decide (v = u)) as [->|]; [by rewrite lookup_insert_eq|]. by rewrite lookup_insert_ne, Hn'.
  - split_and!; try done; [by left| |].
    + exists id, m', {| ei_events := evmask true true true; ei_data := id; ei_enabled := true |}. rewrite Em, Ee, !lookup_insert_eq. done.
    + exists st2, L. split_and!; try done; [by apply HL|]. intros (j & k & it & Hk & Ek & Fk & Hit & _ & Hb).
      rewrite Em2, Em, insert_insert_eq in Hk. assert (j = id) as ->.
      { destruct (decide (j = id)) as [->|Hj]; [done|]. rewrite lookup_insert_ne in Hk by done.
        apply (bk_unique _ _ _ (mi_bucket _ I) j id k m); try done; [congruence|]. by rewrite Fk, Hf. }
      rewrite lookup_insert_eq in Hk. injection Hk as <-. rewrite Efd, Ee2, lookup_insert_eq in Hit. injection Hit as <-. done.
Qed.

(** An error that is not a hang-up is told to nobody and the entry is armed again at once; a
    kernel that still sees the error reports it again. *)
Theorem error_event_spins ioctl readable st fd id m : mux_inv st -> es_mux st !! id = Some m -> dmn_fd m = fd -> dmn_filter m = EVFILT_READ ->
  event_ok st fd EPOLLERR ->
  exists st' L, deliver ioctl readable st fd EPOLLERR = Done st' /\ es_log st' = es_log st ++ L /\
    (forall u, is_Some (es_unotes st !! u) -> merges u L = 0%nat) /\ forall i f, filter_ok f -> watches st' i f <-> watches st i f.
Proof.
  intros I Hm Hfd Hf Hev. destruct (deliver_ok ioctl readable st fd id m EPOLLERR I Hm Hfd Hev) as (st' & L & E & _ & _ & El & Hw & Hl).
  assert (forall f, fires EPOLLERR f = false) as Hno by (intros f; unfold fires, dir_bit; by dir_cases).
  exists st', L. split_and!; try done.
  - intros u [n Hn]. destruct (Hl u n Hn) as [_ H0]. apply H0. unfold called. rewrite Hf. rewrite decide_False by done. rewrite Hno.
    by intros (_ & _ & _ & _ & ?).
  - intros i f Fok. rewrite (Hw i f Fok), Hno. split; [by intros [? _]|]. intros H. split; [done|]. by intros (_ & _ & _ & ?).
Qed.

(** ** A pipe with a reader and a writer *)

Definition sample_unote (fd filter : Z) : unote := mkUnote fd filter true false false None 0.
Definition sample_unotes : gmap nat unote := {[1%nat := sample_unote 7 EVFILT_READ; 2%nat := sample_unote 7 EVFILT_WRITE]}.
Definition sample_keys : gmap nat key := (fun n => (du_ident n, du_filter n)) <$> sample_unotes.
Definition sample_sys : syscalls := {| sy_fstat := OtherFile; sy_signalfd := None; sy_epoll_ctl := true |}.

Lemma sample_fresh : fresh_unotes sample_unotes.
Proof.
  unfold fresh_unotes, sample_unotes. repeat apply map_Forall_insert_2; try apply map_Forall_empty; (split_and!; try done); unfold filter_ok; auto.
Qed.

(** The state after some operations. *)
Definition exec_all (st : mux_state) (os : list mux_op) : mux_state :=
  foldl (fun st o => match exec_mux st o with Done (st, _) => st | Crash _ => st end) st os.

Definition writer_state : mux_state := exec_all (start_mux sample_unotes) [ORegister 2%nat sample_sys].
Definition both_state : mux_state := exec_all (start_mux sample_unotes) [ORegister 1%nat sample_sys; ORegister 2%nat sample_sys].
Definition writer_subs : subs := abs_op sample_keys no_subs (ORegister 2%nat sample_sys) true.
Definition both_subs : subs :=
  abs_op sample_keys (abs_op sample_keys no_subs (ORegister 1%nat sample_sys) true) (ORegister 2%nat sample_sys) true.

Definition writer_ops : list (subs * mux_op) := [(no_subs, ORegister 2%nat sample_sys)].
Definition reader_subs : subs := abs_op sample_keys no_subs (ORegister 1%nat sample_sys) true.
Definition both_ops : list (subs * mux_op) := [(no_subs, ORegister 1%nat sample_sys); (reader_subs, ORegister 2%nat sample_sys)].

Lemma writer_run : mux_run sample_keys writer_ops writer_state writer_subs.
Proof.
  apply (run_step _ [] (start_mux sample_unotes) no_subs (ORegister 2%nat sample_sys)); [by constructor; [apply sample_fresh|]| |by vm_compute].
  split; [by eexists|done].
Qed.

Lemma both_run : mux_run sample_keys both_ops both_state both_subs.
Proof.
  apply (run_step _ [(no_subs, ORegister 1%nat sample_sys)] (exec_all (start_mux sample_unotes) [ORegister 1%nat sample_sys])
    reader_subs (ORegister 2%nat sample_sys)); [| |by vm_compute].
  - apply (run_step _ [] (start_mux sample_unotes) no_subs (ORegister 1%nat sample_sys)); [by constructor; [apply sample_fresh|]| |by vm_compute].
    split; [by eexists|done].
  - split; [by eexists|done].
Qed.

Lemma writer_never_crossed : never_crossed sample_keys writer_ops.
Proof. apply Forall_singleton. by intros i [=]. Qed.

Lemma both_never_crossed : never_crossed sample_keys both_ops.
Proof. apply Forall_cons. split; [by intros i _ ?%elem_of_empty|]. apply Forall_singleton. by intros i [=]. Qed.

Definition sample_ioctl (writer : bool) : option Z := if writer then None else Some 12.

(** A read wakes the reader alone. *)
Lemma mux_refines_subscriptions_witness : exists st' ok L,
  exec_mux both_state (OEvent 7 EVFILT_READ EPOLLIN sample_ioctl true) = Done (st', ok) /\ es_log st' = es_log both_state ++ L /\
  merges 1%nat L = 1%nat /\ merges 2%nat L = 0%nat.
Proof.
  destruct (mux_refines_subscriptions sample_keys both_ops both_state both_subs both_run both_never_crossed) as (_ & _ & H).
  destruct (H (OEvent 7 EVFILT_READ EPOLLIN sample_ioctl true)) as (st' & ok & L & E & _ & _ & El & Hn).
  2: done.
  { split; [by left|]. exists 0%nat. eexists. split; [vm_compute; reflexivity|]. split; [done|]. split; [done|]. split; [done|].
    eexists. split; [vm_compute; reflexivity|]. split; [done|]. intros f. unfold dir_bit. by dir_cases. }
  exists st', ok, L. split; [exact E|]. split; [exact El|].
  split; [rewrite (Hn 1%nat)|rewrite (Hn 2%nat)]; try (by vm_compute); vm_compute; eauto.
Defined.

Lemma writer_crossed : crossed writer_state (sample_unote 7 EVFILT_READ).
Proof.
  split; [done|]. split.
  - exists 0%nat. eexists _, _. split; [vm_compute; reflexivity|]. split; [done|]. split; [done|]. split; [vm_compute; reflexivity|]. by vm_compute.
  - intros Hw. destruct (watched_registered sample_keys writer_state writer_subs 7 EVFILT_READ (run_implements _ _ _ _ writer_run writer_never_crossed)) as [u Hu]; [by left|done|].
    change (a_reg writer_subs) with (<[2%nat := (7, EVFILT_WRITE)]> (∅ : gmap nat key)) in Hu. apply lookup_insert_Some in Hu as [[_ [=]]|[_ Hu]]. done.
Qed.

Lemma crossed_reader_deaf_witness : exists st' id m, _dispatch_unote_register_muxed sample_sys writer_state 1%nat = Done (st', true) /\
  es_mux st' !! id = Some m /\ 1%nat ∈ dmn_writers_head m /\ watches st' 7 EVFILT_READ /\
  exists st2 L, deliver sample_ioctl true st' (dmn_fd m) EPOLLIN = Done st2 /\ es_log st2 = es_log st' ++ L /\ merges 1%nat L = 0%nat /\
    ~ watches st2 7 EVFILT_READ.
Proof.
  destruct (crossed_reader_deaf sample_sys writer_state 1%nat (sample_unote 7 EVFILT_READ) sample_ioctl
    (im_inv _ _ _ (run_implements _ _ _ _ writer_run writer_never_crossed)) eq_refl eq_refl writer_crossed eq_refl)
    as (st' & id & m & E & Hm & _ & Hin & _ & Hw & H).
  exists st', id, m. exact (conj E (conj Hm (conj Hin (conj Hw H)))).
Defined.
