(* ===== verification/Object.v ===== *)
(** * Reference counts of dispatch objects

    Models the two reference counts of [src/object.c], [src/object_internal.h]
    and [src/inline_internal.h]: the external count [os_obj_xref_cnt], changed by
    clients, and the internal count [os_obj_ref_cnt], of which the external
    references together own one.  Both are stored minus one, in an [int], and
    [INT_MAX] marks an immortal object.

    Every function that performs one atomic operation is one definition; the
    step relation at the end interleaves them from any number of threads. *)

From S2P Require Import Prelude.

Definition _OS_OBJECT_GLOBAL_REFCNT : Z := INT_MAX.

Record os_object := {
  os_obj_ref_cnt : Z;
  os_obj_xref_cnt : Z;
}.

(** What remains to be done for the object after an operation. *)
Inductive disposal :=
| Return
| XrefDispose      (* _os_object_xref_dispose(obj) *)
| Dispose.         (* _os_object_dispose(obj) *)

#[export] Instance disposal_eq_dec : EqDecision disposal.
Proof. solve_decision. Defined.

Definition set_ref (o : os_object) (c : Z) : os_object :=
  {| os_obj_ref_cnt := c; os_obj_xref_cnt := os_obj_xref_cnt o |}.
Definition set_xref (o : os_object) (c : Z) : os_object :=
  {| os_obj_ref_cnt := os_obj_ref_cnt o; os_obj_xref_cnt := c |}.

(** [_os_atomic_refcnt_perform2o]: an immortal count is never changed.  The
    pair is the value returned and the new count. *)
Definition _os_atomic_refcnt_add_orig2o (c n : Z) : Z * Z :=
  if decide (c <> _OS_OBJECT_GLOBAL_REFCNT) then (c, i32 (c + n)) else (c, c).
Definition _os_atomic_refcnt_sub2o (c n : Z) : Z * Z :=
  if decide (c <> _OS_OBJECT_GLOBAL_REFCNT) then let r := i32 (c - n) in (r, r) else (c, c).

Definition _os_object_xrefcnt_inc_orig (o : os_object) : Z * os_object :=
  let '(r, c) := _os_atomic_refcnt_add_orig2o (os_obj_xref_cnt o) 1 in (r, set_xref o c).
Definition _os_object_xrefcnt_dec (o : os_object) : Z * os_object :=
  let '(r, c) := _os_atomic_refcnt_sub2o (os_obj_xref_cnt o) 1 in (r, set_xref o c).
Definition _os_object_refcnt_add_orig (o : os_object) (n : Z) : Z * os_object :=
  let '(r, c) := _os_atomic_refcnt_add_orig2o (os_obj_ref_cnt o) n in (r, set_ref o c).
Definition _os_object_refcnt_sub (o : os_object) (n : Z) : Z * os_object :=
  let '(r, c) := _os_atomic_refcnt_sub2o (os_obj_ref_cnt o) n in (r, set_ref o c).

Definition ULONG_MAX : Z := 2 ^ 64 - 1.

Definition _os_object_retain_count (o : os_object) : Z :=
  let xref_cnt := os_obj_xref_cnt o in
  if decide (xref_cnt = _OS_OBJECT_GLOBAL_REFCNT) then ULONG_MAX
  else u64 (i32 (xref_cnt + 1)).

Definition _os_object_retain_internal_n_inline (o : os_object) (n : Z) : outcome os_object :=
  let '(ref_cnt, o) := _os_object_refcnt_add_orig o n in
  if decide (ref_cnt < 0) then Crash ClientCrash else Done o.

Definition _os_object_release_internal_n_no_dispose_inline (o : os_object) (n : Z)
    : outcome os_object :=
  let '(ref_cnt, o) := _os_object_refcnt_sub o n in
  if decide (ref_cnt >= 0) then Done o else Crash ClientCrash.

Definition _os_object_release_internal_n_inline (o : os_object) (n : Z)
    : outcome (os_object * disposal) :=
  let '(ref_cnt, o) := _os_object_refcnt_sub o n in
  if decide (ref_cnt >= 0) then Done (o, Return)
  else if decide (ref_cnt < -1) then Crash ClientCrash
  else Done (o, Dispose).

Definition _os_object_retain (o : os_object) : outcome os_object :=
  let '(xref_cnt, o) := _os_object_xrefcnt_inc_orig o in
  if decide (xref_cnt < 0) then Crash ClientCrash else Done o.

(** The atomic part of [_os_object_release], up to the call of
    [_os_object_xref_dispose]. *)
Definition _os_object_release_step (o : os_object) : outcome (os_object * disposal) :=
  let '(xref_cnt, o) := _os_object_xrefcnt_dec o in
  if decide (xref_cnt >= 0) then Done (o, Return)
  else if decide (xref_cnt < -1) then Crash ClientCrash
  else Done (o, XrefDispose).

(** [_os_object_xref_dispose] ends, after the type's own hook, in the release of
    the internal reference that the external ones owned. *)
Definition _os_object_xref_dispose (o : os_object) : outcome (os_object * disposal) :=
  _os_object_release_internal_n_inline o 1.

Definition _os_object_release (o : os_object) : outcome (os_object * disposal) :=
  r ← _os_object_release_step o;
  match r with
  | (o, XrefDispose) => _os_object_xref_dispose o
  | r => Done r
  end.

(** The atomic part of [_os_object_retain_with_resurrect]; the boolean asks for
    the internal retain. *)
Definition _os_object_resurrect_step (o : os_object) : outcome (os_object * bool) :=
  let '(orig, o) := _os_object_xrefcnt_inc_orig o in
  let xref_cnt := i32 (orig + 1) in
  if decide (xref_cnt < 0) then Crash ClientCrash else Done (o, bool_decide (xref_cnt = 0)).

Definition _os_object_retain_with_resurrect (o : os_object) : outcome os_object :=
  r ← _os_object_resurrect_step o;
  match r with
  | (o, true) => _os_object_retain_internal_n_inline o 1
  | (o, false) => Done o
  end.

Definition _os_object_retain_weak (o : os_object) : outcome (os_object * bool) :=
  let xref_cnt := os_obj_xref_cnt o in
  if decide (xref_cnt = _OS_OBJECT_GLOBAL_REFCNT) then Done (o, true)
  else if decide (xref_cnt = -1) then Done (o, false)
  else if decide (xref_cnt < -1) then Crash ClientCrash
  else Done (set_xref o (i32 (xref_cnt + 1)), true).

Definition _os_object_allows_weak_reference (o : os_object) : outcome bool :=
  let xref_cnt := os_obj_xref_cnt o in
  if decide (xref_cnt = -1) then Done false
  else if decide (xref_cnt < -1) then Crash ClientCrash
  else Done true.

(** [_os_object_alloc_realized]: [calloc], so both counts are 0: one reference
    of each kind. *)
Definition _os_object_alloc_realized : os_object := {| os_obj_ref_cnt := 0; os_obj_xref_cnt := 0 |}.

(** ** Threads sharing one object

    The ledger records who holds what: [x] external references, [i] internal
    references besides the one the external ones own, [pd] threads that dropped
    the last external reference and have not yet released the internal one,
    [pr] threads that resurrected the object (through an internal reference
    they hold) and have not yet retained the internal one; each of these keeps
    its two references until then. *)
Record ledger := { led_x : Z; led_i : Z; led_pd : Z; led_pr : Z }.

Record config := { cf_obj : os_object; cf_led : ledger; cf_disposed : Z }.

Definition mk (o : os_object) (x i pd pr disposed : Z) : config :=
  {| cf_obj := o; cf_led := {| led_x := x; led_i := i; led_pd := pd; led_pr := pr |};
     cf_disposed := disposed |}.

Inductive ref_action :=
| ARetain | ARelease | AXrefDispose
| ARetainInternal (n : Z) | AReleaseInternal (n : Z)
| ARetainWeak | AResurrect | AResurrectRetain.

(** A thread performs an operation only with a reference that entitles it to. *)
Definition entitled (c : config) (a : ref_action) : Prop :=
  let l := cf_led c in
  match a with
  | ARetain => 0 < led_x l
  | ARelease => led_pr l < led_x l
  | AXrefDispose => 0 < led_pd l
  | ARetainInternal n => 0 < n < 2 ^ 16 /\ (0 < led_i l \/ 0 < led_x l)
  | AReleaseInternal n => 0 < n < 2 ^ 16 /\ led_pr l <= led_i l - n
  | ARetainWeak => 0 < led_i l \/ 0 < led_x l \/ 0 < led_pd l
  | AResurrect => led_pr l < led_i l
  | AResurrectRetain => 0 < led_pr l
  end.

Definition b2z (b : bool) : Z := if b then 1 else 0.
Definition is_dispose (d : disposal) : Z := b2z (bool_decide (d = Dispose)).

(** One atomic operation of some thread. *)
Definition ref_step (c : config) (a : ref_action) : outcome config :=
  let 'Build_ledger x i pd pr := cf_led c in
  let o := cf_obj c in let n0 := cf_disposed c in
  match a with
  | ARetain => o ← _os_object_retain o; Done (mk o (x + 1) i pd pr n0)
  | ARelease =>
      r ← _os_object_release_step o;
      Done (mk r.1 (x - 1) i (pd + b2z (bool_decide (r.2 = XrefDispose))) pr n0)
  | AXrefDispose =>
      r ← _os_object_xref_dispose o; Done (mk r.1 x i (pd - 1) pr (n0 + is_dispose r.2))
  | ARetainInternal n =>
      o ← _os_object_retain_internal_n_inline o n; Done (mk o x (i + n) pd pr n0)
  | AReleaseInternal n =>
      r ← _os_object_release_internal_n_inline o n;
      Done (mk r.1 x (i - n) pd pr (n0 + is_dispose r.2))
  | ARetainWeak =>
      r ← _os_object_retain_weak o; Done (mk r.1 (x + b2z r.2) i pd pr n0)
  | AResurrect =>
      r ← _os_object_resurrect_step o; Done (mk r.1 (x + 1) i pd (pr + b2z r.2) n0)
  | AResurrectRetain =>
      o ← _os_object_retain_internal_n_inline o 1; Done (mk o x i pd (pr - 1) n0)
  end.

Definition few_refs (c : config) : Prop :=
  led_x (cf_led c) < 2 ^ 30 /\ led_i (cf_led c) + led_pd (cf_led c) + led_pr (cf_led c) < 2 ^ 30.

Inductive reachable : config -> Prop :=
| reach_init : reachable (mk _os_object_alloc_realized 1 0 0 0 0)
| reach_step c a c' : reachable c -> few_refs c -> entitled c a -> ref_step c a = Done c' ->
    reachable c'.

(** ** The invariant *)

Definition held (l : ledger) : Z :=
  led_i l + b2z (bool_decide (0 < led_x l)) + led_pd l - led_pr l.

Record ref_inv (c : config) : Prop := {
  ri_x : 0 <= led_x (cf_led c);
  ri_i : 0 <= led_pr (cf_led c) <= led_i (cf_led c);
  ri_prx : led_pr (cf_led c) <= led_x (cf_led c);
  ri_pd : 0 <= led_pd (cf_led c);
  ri_xref : os_obj_xref_cnt (cf_obj c) = led_x (cf_led c) - 1;
  ri_ref : os_obj_ref_cnt (cf_obj c) = held (cf_led c) - 1;
  ri_disposed : cf_disposed c = b2z (bool_decide (held (cf_led c) = 0));
}.

(** An object nobody refers to is not referred to in any way. *)
Lemma held_zero c : ref_inv c -> 0 <= held (cf_led c) /\
  (held (cf_led c) = 0 -> led_x (cf_led c) = 0 /\ led_i (cf_led c) = 0 /\ led_pd (cf_led c) = 0 /\ led_pr (cf_led c) = 0).
Proof.
  intros [Hx Hi Hp Hpd _ _ _]. unfold held, b2z in *. case_bool_decide; lia.
Qed.

Lemma add_orig_small c n : -1 <= c < 2 ^ 31 - 1 -> 0 < n -> c + n < 2 ^ 31 ->
  _os_atomic_refcnt_add_orig2o c n = (c, c + n).
Proof.
  intros. unfold _os_atomic_refcnt_add_orig2o, _OS_OBJECT_GLOBAL_REFCNT, INT_MAX.
  rewrite decide_True by lia. by rewrite swrap_small by (simpl; lia).
Qed.

Lemma sub_small c n : -1 <= c < 2 ^ 31 - 1 -> 0 < n <= 2 ^ 30 ->
  _os_atomic_refcnt_sub2o c n = (c - n, c - n).
Proof.
  intros. unfold _os_atomic_refcnt_sub2o, _OS_OBJECT_GLOBAL_REFCNT, INT_MAX.
  rewrite decide_True by lia. by rewrite swrap_small by (simpl; lia).
Qed.

(** Unfold one operation, evaluate its counts and decide its branches. *)
Ltac run_refs :=
  unfold ref_step; cbn [cf_obj cf_led cf_disposed];
  unfold _os_object_retain, _os_object_release_step, _os_object_xref_dispose,
    _os_object_release_internal_n_inline, _os_object_retain_internal_n_inline,
    _os_object_resurrect_step, _os_object_retain_weak, _os_object_xrefcnt_inc_orig,
    _os_object_xrefcnt_dec, _os_object_refcnt_add_orig, _os_object_refcnt_sub,
    _OS_OBJECT_GLOBAL_REFCNT, INT_MAX;
  cbn [os_obj_ref_cnt os_obj_xref_cnt];
  repeat first
    [ rewrite add_orig_small by lia | rewrite sub_small by lia
    | rewrite swrap_small by (simpl; lia) ];
  cbn [set_ref set_xref os_obj_ref_cnt os_obj_xref_cnt];
  repeat match goal with
  | |- context [decide ?P] => destruct (decide P); [try (exfalso; lia)|try (exfalso; lia)]
  end.

(** Close the invariant of a successor. *)
Ltac close_refs :=
  eexists; split; [reflexivity|];
  constructor; simpl in *; unfold held, is_dispose, b2z in *; simpl in *;
  repeat case_bool_decide; simpl in *; try congruence; lia.

Lemma ref_step_ok c a : ref_inv c -> few_refs c -> entitled c a ->
  exists c', ref_step c a = Done c' /\ ref_inv c'.
Proof.
  destruct c as [[rc xc] [x i pd pr] nd]. intros H [F1 F2] He.
  pose proof (held_zero _ H) as [Hz _]. destruct H as [Hx Hi Hp Hpd Hxr Hr Hd].
  unfold held, b2z in *. simpl in *. destruct a; simpl in *; case_bool_decide; try lia.
  all: run_refs; try close_refs.
Qed.

Lemma reachable_inv c : reachable c -> ref_inv c.
Proof.
  induction 1 as [|c a c' _ IH Hf He Hs]; [by constructor|].
  destruct (ref_step_ok c a IH Hf He) as (c'' & Hs' & H). congruence.
Qed.

(** C17: whatever the interleaving of retains, releases, weak retains and
    resurrections of any number of threads, each entitled by a reference it
    holds, no operation crashes; and the object has been disposed of (once) if
    and only if no external reference, no internal reference and no release in
    progress remains. *)
Theorem refcount_interleavings_safe (c : config) (a : ref_action) :
  reachable c -> few_refs c -> entitled c a ->
  (exists c', ref_step c a = Done c' /\ reachable c') /\
  (cf_disposed c = 0 /\ 0 < held (cf_led c)).
Proof.
  intros Hr Hf He. pose proof (reachable_inv c Hr) as Hi.
  destruct (ref_step_ok c a Hi Hf He) as (c' & Hs & _). split.
  - exists c'. split; [done|]. by eapply reach_step.
  - destruct (held_zero c Hi) as [Hp Hz]. rewrite (ri_disposed _ Hi). case_bool_decide as E; [|simpl; lia].
    exfalso. destruct (Hz E) as (Ex & Ei & Epd & Epr). destruct a; simpl in He; lia.
Qed.

(** In every reachable state the object is disposed of at most once, and
    it is exactly when nothing refers to it any more; [retain_weak] succeeds
    exactly when an external reference exists. *)
Theorem dispose_iff_unreferenced (c : config) :
  reachable c -> few_refs c ->
  (cf_disposed c = 1 <-> led_x (cf_led c) = 0 /\ led_i (cf_led c) = 0 /\ led_pd (cf_led c) = 0) /\
  (cf_disposed c = 0 \/ cf_disposed c = 1) /\
  (exists o, _os_object_retain_weak (cf_obj c) = Done (o, bool_decide (0 < led_x (cf_led c)))).
Proof.
  intros Hr [Hf _]. pose proof (reachable_inv c Hr) as Hi. destruct (held_zero c Hi) as [Hp Hz].
  rewrite (ri_disposed _ Hi). repeat split.
  1-3: case_bool_decide as E; [|done]; apply Hz in E; lia.
  - intros (Ex & Ei & Epd). pose proof (ri_i _ Hi). rewrite bool_decide_eq_true_2; [done|].
    unfold held in *. rewrite bool_decide_eq_false_2 in * by lia. simpl in *. lia.
  - case_bool_decide; auto.
  - pose proof (ri_xref _ Hi) as Ex. pose proof (ri_x _ Hi).
    unfold _os_object_retain_weak, _OS_OBJECT_GLOBAL_REFCNT, INT_MAX. rewrite Ex.
    rewrite decide_False by lia. case_bool_decide.
    + rewrite decide_False, decide_False by lia. by eexists.
    + rewrite decide_True by lia. by eexists.
Qed.

(** The counts detect misuse instead of wrapping: with no external reference
    left, a retain or a release crashes; a count that reaches INT_MAX makes the
    object immortal, after which retains and releases change nothing, so the
    external count never overflows. *)
Theorem refcount_errors_and_saturation (o : os_object) :
  (os_obj_xref_cnt o = -1 -> _os_object_retain o = Crash ClientCrash /\
     _os_object_release o = Crash ClientCrash /\
     _os_object_allows_weak_reference o = Done false) /\
  (os_obj_ref_cnt o = -1 -> forall n, 0 < n < 2 ^ 16 ->
     _os_object_retain_internal_n_inline o n = Crash ClientCrash /\
     _os_object_release_internal_n_inline o n = Crash ClientCrash) /\
  (0 <= os_obj_xref_cnt o <= INT_MAX -> exists o', _os_object_retain o = Done o' /\
     os_obj_xref_cnt o' = Z.min (os_obj_xref_cnt o + 1) INT_MAX /\
     os_obj_ref_cnt o' = os_obj_ref_cnt o) /\
  (os_obj_xref_cnt o = INT_MAX -> _os_object_retain o = Done o /\
     _os_object_release o = Done (o, Return) /\ _os_object_retain_count o = ULONG_MAX).
Proof.
  destruct o as [r x]. cbn [os_obj_ref_cnt os_obj_xref_cnt]. split; [|split; [|split]].
  - intros ->. done.
  - intros -> n Hn. run_refs; done.
  - intros Hx0. destruct (decide (x = INT_MAX)) as [->|Hx]; [by eexists|]. unfold INT_MAX in *.
    eexists. run_refs. split; [reflexivity|]. simpl. lia.
  - intros ->. done.
Qed.

Lemma refcount_interleavings_safe_witness :
  let c := mk {| os_obj_ref_cnt := 0; os_obj_xref_cnt := -1 |} 0 0 1 0 0 in
  reachable c /\ (exists c', ref_step c AXrefDispose = Done c' /\ reachable c') /\
  cf_disposed c = 0.
Proof.
  intros c. assert (reachable c) as Hc.
  { eapply (reach_step _ ARelease); [apply reach_init|by vm_compute|by vm_compute|by vm_compute]. }
  destruct (refcount_interleavings_safe c AXrefDispose Hc) as [H1 [H2 _]];
    [by vm_compute|by vm_compute|]. done.
Defined.

Lemma dispose_iff_unreferenced_witness :
  let c := mk {| os_obj_ref_cnt := -1; os_obj_xref_cnt := -1 |} 0 0 0 0 1 in
  reachable c /\ cf_disposed c = 1.
Proof.
  intros c. assert (reachable c) as Hc.
  { apply (reach_step (mk {| os_obj_ref_cnt := 0; os_obj_xref_cnt := -1 |} 0 0 1 0 0) AXrefDispose); [|by vm_compute|by vm_compute|by vm_compute].
    eapply (reach_step _ ARelease); [apply reach_init|by vm_compute|by vm_compute|by vm_compute]. }
  split; [done|]. apply (proj1 (dispose_iff_unreferenced c Hc ltac:(by vm_compute))). done.
Defined.
