(* ===== verification/ObjectOps.v ===== *)
(** * Generic operations on dispatch objects

    Models the operations of [src/object.c] that work on every kind of object:
    context and finalizer, disposal, and the routing of activate, suspend,
    resume and set-target-queue to the routine of the object's type.  The type
    word is the one of [dispatch_object_flags] in [src/object_internal.h]. *)

From S2P Require Import Prelude Object.
Local Open Scope word_scope.

(** ** Type words *)

Definition _DISPATCH_META_TYPE_MASK : Z := 0xff.
Definition _DISPATCH_TYPE_CLUSTER_MASK : Z := 0xf0.
Definition _DISPATCH_QUEUE_ROOT_TYPEFLAG : Z := 0x10000.
Definition _DISPATCH_QUEUE_BASE_TYPEFLAG : Z := 0x20000.
Definition _DISPATCH_NO_CONTEXT_TYPEFLAG : Z := 0x40000.
Definition _DISPATCH_QUEUE_CLUSTER : Z := 0x10.
Definition _DISPATCH_WORKLOOP_TYPE : Z := 0x12.

Inductive object_type :=
| SEMAPHORE | GROUP | DATA | MACH_MSG | QUEUE_ATTR | IO | OPERATION | DISK
| QUEUE_SERIAL | QUEUE_CONCURRENT | QUEUE_GLOBAL_ROOT | QUEUE_PTHREAD_ROOT | QUEUE_MGR
| QUEUE_MAIN | QUEUE_RUNLOOP | QUEUE_NETWORK_EVENT | WORKLOOP | SOURCE_KEVENT | MACH_CHANNEL.

#[export] Instance object_type_eq_dec : EqDecision object_type.
Proof. solve_decision. Defined.

Definition DISPATCH_OBJECT_SUBTYPE (ty base : Z) : Z := base .| (ty .<< 8).

(** [dx_type]: the value of the enumeration constant. *)
Definition dx_type (t : object_type) : Z :=
  let sem := 1 in let node := 2 in let io := 3 in let operation := 4 in let disk := 5 in
  let lane := 0x11 in let workloop := _DISPATCH_WORKLOOP_TYPE in let source := 0x13 in
  match t with
  | SEMAPHORE => DISPATCH_OBJECT_SUBTYPE 1 sem
  | GROUP => DISPATCH_OBJECT_SUBTYPE 2 sem
  | DATA => DISPATCH_OBJECT_SUBTYPE 1 node
  | MACH_MSG => DISPATCH_OBJECT_SUBTYPE 2 node
  | QUEUE_ATTR => DISPATCH_OBJECT_SUBTYPE 3 node
  | IO => DISPATCH_OBJECT_SUBTYPE 0 io
  | OPERATION => DISPATCH_OBJECT_SUBTYPE 0 operation
  | DISK => DISPATCH_OBJECT_SUBTYPE 0 disk
  | QUEUE_SERIAL => DISPATCH_OBJECT_SUBTYPE 1 lane
  | QUEUE_CONCURRENT => DISPATCH_OBJECT_SUBTYPE 2 lane
  | QUEUE_GLOBAL_ROOT => DISPATCH_OBJECT_SUBTYPE 3 lane .|
      _DISPATCH_QUEUE_ROOT_TYPEFLAG .| _DISPATCH_NO_CONTEXT_TYPEFLAG
  | QUEUE_PTHREAD_ROOT => DISPATCH_OBJECT_SUBTYPE 4 lane .|
      _DISPATCH_QUEUE_ROOT_TYPEFLAG .| _DISPATCH_NO_CONTEXT_TYPEFLAG
  | QUEUE_MGR => DISPATCH_OBJECT_SUBTYPE 5 lane .|
      _DISPATCH_QUEUE_BASE_TYPEFLAG .| _DISPATCH_NO_CONTEXT_TYPEFLAG
  | QUEUE_MAIN => DISPATCH_OBJECT_SUBTYPE 6 lane .|
      _DISPATCH_QUEUE_BASE_TYPEFLAG .| _DISPATCH_NO_CONTEXT_TYPEFLAG
  | QUEUE_RUNLOOP => DISPATCH_OBJECT_SUBTYPE 7 lane .|
      _DISPATCH_QUEUE_BASE_TYPEFLAG .| _DISPATCH_NO_CONTEXT_TYPEFLAG
  | QUEUE_NETWORK_EVENT => DISPATCH_OBJECT_SUBTYPE 8 lane .| _DISPATCH_QUEUE_BASE_TYPEFLAG
  | WORKLOOP => DISPATCH_OBJECT_SUBTYPE 0 workloop .| _DISPATCH_QUEUE_BASE_TYPEFLAG
  | SOURCE_KEVENT => DISPATCH_OBJECT_SUBTYPE 1 source
  | MACH_CHANNEL => DISPATCH_OBJECT_SUBTYPE 2 source
  end.

Definition dx_metatype (t : object_type) : Z := dx_type t .& _DISPATCH_META_TYPE_MASK.
Definition dx_cluster (t : object_type) : Z := dx_type t .& _DISPATCH_TYPE_CLUSTER_MASK.
Definition dx_hastypeflag (t : object_type) (flag : Z) : bool := bool_decide (dx_type t .& flag <> 0).

(** ** Objects *)

Record target_queue := { tq_addr : nat; dq_serialnum : Z }.
Definition DISPATCH_QUEUE_SERIAL_NUMBER_WLF : Z := 16.

Record dispatch_object_s := {
  do_type : object_type;
  do_refs : os_object;
  do_next_listless : bool;           (* do_next == DISPATCH_OBJECT_LISTLESS *)
  do_targetq : option target_queue;
  do_ctxt : option nat;
  do_finalizer : option nat;
}.

(** What an operation makes happen outside the object. *)
Inductive effect :=
| EQueueXrefDispose | ESourceXrefDispose | ERelease          (* _dispatch_xref_dispose *)
| ETypeDispose | EDealloc                                   (* dx_dispose, free *)
| EAsyncFinalizer (tq : option target_queue) (ctxt func : nat)
| EReleaseQueue (tq : target_queue)
| ELaneSuspend | ELaneResume (activate : bool) | EWorkloopActivate
| ELaneSetTargetQueue (tq : option target_queue) | EIoSetTargetQueue (tq : option target_queue)
| ERetainQueue (tq : target_queue).

#[export] Instance target_queue_eq_dec : EqDecision target_queue.
Proof. solve_decision. Defined.
#[export] Instance effect_eq_dec : EqDecision effect.
Proof. solve_decision. Defined.

Definition _dispatch_object_is_global (o : dispatch_object_s) : bool :=
  bool_decide (os_obj_ref_cnt (do_refs o) = _OS_OBJECT_GLOBAL_REFCNT).
Definition _dispatch_object_is_root_or_base_queue (o : dispatch_object_s) : bool :=
  dx_hastypeflag (do_type o) _DISPATCH_QUEUE_ROOT_TYPEFLAG ||
  dx_hastypeflag (do_type o) _DISPATCH_QUEUE_BASE_TYPEFLAG.

(** Without Mach and Cocoa compatibility. *)
Definition _dispatch_xref_dispose (o : dispatch_object_s) : list effect :=
  (if decide (dx_cluster (do_type o) = _DISPATCH_QUEUE_CLUSTER) then [EQueueXrefDispose] else []) ++
  (if decide (dx_type (do_type o) = dx_type SOURCE_KEVENT) then [ESourceXrefDispose] else []) ++
  [ERelease].

(** [dispose] is the [allow_free] the type's dispose routine leaves;
    [default_root] the global queue of default quality of service. *)
Definition _dispatch_dispose (default_root : target_queue) (dispose : dispatch_object_s -> bool)
    (o : dispatch_object_s) : outcome (list effect) :=
  let tq := do_targetq o in
  let func := do_finalizer o in
  let ctxt := do_ctxt o in
  if negb (do_next_listless o) then Crash InternalCrash
  else
    let tq := match tq with
              | Some q => if decide (dq_serialnum q = DISPATCH_QUEUE_SERIAL_NUMBER_WLF)
                          then Some default_root else Some q
              | None => None
              end in
    let allow_free := dispose o in
    Done ([ETypeDispose] ++ (if allow_free then [EDealloc] else []) ++
          (match func, ctxt with
           | Some f, Some c => [EAsyncFinalizer tq c f]
           | _, _ => []
           end) ++
          (match tq with Some q => [EReleaseQueue q] | None => [] end)).

Definition dispatch_get_context (o : dispatch_object_s) : option nat :=
  if dx_hastypeflag (do_type o) _DISPATCH_NO_CONTEXT_TYPEFLAG then None else do_ctxt o.

Definition dispatch_set_context (o : dispatch_object_s) (context : option nat) : dispatch_object_s :=
  if dx_hastypeflag (do_type o) _DISPATCH_NO_CONTEXT_TYPEFLAG then o
  else {| do_type := do_type o; do_refs := do_refs o; do_next_listless := do_next_listless o;
          do_targetq := do_targetq o; do_ctxt := context; do_finalizer := do_finalizer o |}.

Definition dispatch_set_finalizer_f (o : dispatch_object_s) (finalizer : option nat) : dispatch_object_s :=
  if dx_hastypeflag (do_type o) _DISPATCH_NO_CONTEXT_TYPEFLAG then o
  else {| do_type := do_type o; do_refs := do_refs o; do_next_listless := do_next_listless o;
          do_targetq := do_targetq o; do_ctxt := do_ctxt o; do_finalizer := finalizer |}.

Definition _dispatch_object_set_target_queue_inline (o : dispatch_object_s) (tq : target_queue)
    : dispatch_object_s * list effect :=
  ({| do_type := do_type o; do_refs := do_refs o; do_next_listless := do_next_listless o;
      do_targetq := Some tq; do_ctxt := do_ctxt o; do_finalizer := do_finalizer o |},
   [ERetainQueue tq] ++ (match do_targetq o with Some old => [EReleaseQueue old] | None => [] end)).

(** [tq = None] is DISPATCH_TARGET_QUEUE_DEFAULT. *)
Definition dispatch_set_target_queue (default_queue : target_queue) (o : dispatch_object_s)
    (tq : option target_queue) : dispatch_object_s * list effect :=
  if _dispatch_object_is_global o || _dispatch_object_is_root_or_base_queue o then (o, [])
  else if decide (dx_cluster (do_type o) = _DISPATCH_QUEUE_CLUSTER) then (o, [ELaneSetTargetQueue tq])
  else if decide (dx_type (do_type o) = dx_type IO) then (o, [EIoSetTargetQueue tq])
  else _dispatch_object_set_target_queue_inline o (default default_queue tq).

Definition dispatch_activate (o : dispatch_object_s) : list effect :=
  if _dispatch_object_is_global o then []
  else if decide (dx_metatype (do_type o) = _DISPATCH_WORKLOOP_TYPE) then [EWorkloopActivate]
  else if decide (dx_cluster (do_type o) = _DISPATCH_QUEUE_CLUSTER) then [ELaneResume true]
  else [].

Definition dispatch_suspend (o : dispatch_object_s) : list effect :=
  if _dispatch_object_is_global o || _dispatch_object_is_root_or_base_queue o then []
  else if decide (dx_cluster (do_type o) = _DISPATCH_QUEUE_CLUSTER) then [ELaneSuspend]
  else [].

Definition dispatch_resume (o : dispatch_object_s) : list effect :=
  if _dispatch_object_is_global o || _dispatch_object_is_root_or_base_queue o then []
  else if decide (dx_cluster (do_type o) = _DISPATCH_QUEUE_CLUSTER) then [ELaneResume false]
  else [].

(** ** Properties *)

(** Suspending and resuming reach the lane routines for exactly the serial
    and concurrent queues, sources and Mach channels that are not immortal, and
    do nothing for any other object; a balanced pair therefore always reaches
    the same lane or none. *)
Theorem suspend_resume_routing (o : dispatch_object_s) :
  let suspendable := negb (_dispatch_object_is_global o) &&
    bool_decide (do_type o ∈ [QUEUE_SERIAL; QUEUE_CONCURRENT; SOURCE_KEVENT; MACH_CHANNEL]) in
  dispatch_suspend o = (if suspendable then [ELaneSuspend] else []) /\
  dispatch_resume o = (if suspendable then [ELaneResume false] else []).
Proof.
  unfold dispatch_suspend, dispatch_resume, _dispatch_object_is_root_or_base_queue.
  destruct (_dispatch_object_is_global o); [done|]. destruct (do_type o); vm_compute; done.
Qed.
