(* ===== verification/Data.v ===== *)
(** * Dispatch data objects

    Models [src/data.c] and [src/data_internal.h]: ropes of byte buffers with
    shared, reference-counted leaves.  Objects live in a store indexed by
    address and buffers in a memory of blocks, so sharing, the records that point
    to leaves, the cached flat buffer and the calls of the destructors are
    explicit.  The code runs in a state and error monad: a crash of the library,
    a dereference of NULL and an access outside a block are [Crash]. *)

From S2P Require Import Prelude Object.

Definition addr : Type := nat.

(** A pointer into a block; [None] is NULL. *)
Record ptr := { p_block : nat; p_off : Z }.

#[export] Instance ptr_eq_dec : EqDecision ptr.
Proof. solve_decision. Defined.

Inductive destructor :=
| DESTRUCTOR_DEFAULT                (* NULL *)
| DESTRUCTOR_FREE
| DESTRUCTOR_NONE
| DESTRUCTOR_MUNMAP
| DESTRUCTOR_INLINE
| DestructorBlock (b : nat).        (* a client block *)

#[export] Instance destructor_eq_dec : EqDecision destructor.
Proof. solve_decision. Defined.

Record range_record := { data_object : addr; from : Z; len : Z }.

Record dispatch_data_s := {
  dd_refs : os_object;
  dd_targetq : nat;
  buf : option ptr;
  destr : destructor;
  size : Z;
  records : list range_record;
  inline_block : option nat;        (* the bytes allocated after the structure *)
}.

Definition num_records (dd : dispatch_data_s) : Z := Z.of_nat (length (records dd)).

(** Calls that leave the component: [dispatch_async_f] of a destructor block. *)
Inductive data_event :=
| EvDestructor (queue : nat) (d : destructor)
| EvRetainQueue (queue : nat)
| EvReleaseQueue (queue : nat).

Record data_state := {
  objs : gmap addr dispatch_data_s;
  blocks : gmap nat (list Z);
  events : list data_event;
  mallocs : list bool;              (* outcomes of the next calls of malloc *)
}.

(** ** The monad *)

Definition M (A : Type) : Type := data_state -> outcome (A * data_state).

#[export] Instance M_ret : MRet M := fun A a st => Done (a, st).
#[export] Instance M_bind : MBind M := fun A B f m st =>
  match m st with Done (a, st') => f a st' | Crash c => Crash c end.

Definition crash {A} (c : crash) : M A := fun _ => Crash c.
Definition gets {A} (f : data_state -> A) : M A := fun st => Done (f st, st).

Definition load (a : addr) : M dispatch_data_s := fun st =>
  match objs st !! a with Some dd => Done (dd, st) | None => Crash InvalidAccess end.

Definition set_objs (f : gmap addr dispatch_data_s -> gmap addr dispatch_data_s) : M unit := fun st =>
  Done (tt, {| objs := f (objs st); blocks := blocks st; events := events st; mallocs := mallocs st |}).
Definition set_blocks (f : gmap nat (list Z) -> gmap nat (list Z)) : M unit := fun st =>
  Done (tt, {| objs := objs st; blocks := f (blocks st); events := events st; mallocs := mallocs st |}).
Definition emit (e : data_event) : M unit := fun st =>
  Done (tt, {| objs := objs st; blocks := blocks st; events := events st ++ [e]; mallocs := mallocs st |}).

Definition store (a : addr) (dd : dispatch_data_s) : M unit :=
  _ ← load a; set_objs (insert a dd).

(** ** Memory *)

(** [malloc(n)]; the contents are arbitrary, zeros here. *)
Definition malloc (n : Z) : M (option ptr) := fun st =>
  let k := fresh (dom (blocks st)) in
  match mallocs st with
  | false :: ms => Done (None, {| objs := objs st; blocks := blocks st; events := events st; mallocs := ms |})
  | _ => Done (Some {| p_block := k; p_off := 0 |},
               {| objs := objs st; blocks := <[k := replicate (Z.to_nat n) 0]> (blocks st);
                  events := events st; mallocs := tail (mallocs st) |})
  end.

Definition free (p : option ptr) : M unit :=
  match p with
  | None => mret tt
  | Some p => b ← gets (fun st => blocks st !! p_block p);
              if decide (p_off p = 0 /\ is_Some b) then set_blocks (delete (p_block p))
              else crash InvalidAccess
  end.

(** The [n] bytes at [p]. *)
Definition peek (bl : gmap nat (list Z)) (p : ptr) (n : Z) : option (list Z) :=
  b ← bl !! p_block p;
  if decide (0 <= p_off p /\ 0 <= n /\ p_off p + n <= Z.of_nat (length b))
  then Some (take (Z.to_nat n) (drop (Z.to_nat (p_off p)) b)) else None.

Definition memread (p : ptr) (n : Z) : M (list Z) :=
  b ← gets (fun st => peek (blocks st) p n);
  match b with Some l => mret l | None => crash InvalidAccess end.

Definition poke (b : list Z) (off : Z) (l : list Z) : list Z :=
  take (Z.to_nat off) b ++ l ++ drop (Z.to_nat off + length l) b.

Definition memcpy (dst src : ptr) (n : Z) : M unit :=
  l ← memread src n;
  b ← gets (fun st => blocks st !! p_block dst);
  match b with
  | Some b => if decide (0 <= p_off dst /\ p_off dst + n <= Z.of_nat (length b))
              then set_blocks (insert (p_block dst) (poke b (p_off dst) l)) else crash InvalidAccess
  | None => crash InvalidAccess
  end.

Definition ptr_add (p : ptr) (n : Z) : ptr := {| p_block := p_block p; p_off := p_off p + n |}.

(** ** data_internal.h *)

Definition dispatch_data_empty : addr := 0%nat.
Definition default_queue : nat := 0%nat.
Definition sizeof_dispatch_data_s : Z := 80.
Definition sizeof_range_record : Z := 24.

Definition _dispatch_data_empty : dispatch_data_s :=
  {| dd_refs := {| os_obj_ref_cnt := _OS_OBJECT_GLOBAL_REFCNT; os_obj_xref_cnt := _OS_OBJECT_GLOBAL_REFCNT |};
     dd_targetq := default_queue; buf := None; destr := DESTRUCTOR_DEFAULT; size := 0; records := [];
     inline_block := None |}.

Definition _dispatch_data_leaf (dd : dispatch_data_s) : bool := bool_decide (num_records dd = 0).

Definition _dispatch_data_num_records (dd : dispatch_data_s) : Z :=
  if decide (num_records dd <> 0) then num_records dd else 1.

(** The pointer, and the object and offset behind a trivial subrange. *)
Definition _dispatch_data_map_direct (dd_in : addr) (offset : Z) : M (option ptr * addr * Z) :=
  dd ← load dd_in;
  if decide (size dd = 0) then crash ClientCrash
  else
    r ← (if negb (_dispatch_data_leaf dd) && bool_decide (_dispatch_data_num_records dd = 1)
         then match records dd with
              | r0 :: _ => mret (data_object r0, u64 (offset + from r0))
              | [] => crash InvalidAccess
              end
         else mret (dd_in, offset));
    let '(a, offset) := r in
    dd ← load a;
    mret (match buf dd with
          | Some p => Some (ptr_add p offset)
          | None => None
          end, a, offset).

(** ** data.c: retain and release *)

Definition _dispatch_data_retain (a : addr) : M unit :=
  dd ← load a;
  match _os_object_retain (dd_refs dd) with
  | Done o => set_objs (insert a {| dd_refs := o; dd_targetq := dd_targetq dd; buf := buf dd;
                destr := destr dd; size := size dd; records := records dd;
                inline_block := inline_block dd |})
  | Crash c => crash c
  end.

Fixpoint retain_records (rs : list range_record) : M unit :=
  match rs with
  | [] => mret tt
  | r :: rs => _ ← _dispatch_data_retain (data_object r); retain_records rs
  end.

Definition _dispatch_data_destroy_buffer (buffer : option ptr) (queue : option nat) (d : destructor)
    : M unit :=
  match d with
  | DESTRUCTOR_FREE => free buffer
  | DESTRUCTOR_NONE => mret tt
  | _ => emit (EvDestructor (default default_queue queue) d)
  end.

Definition free_inline (dd : dispatch_data_s) : M unit :=
  match inline_block dd with
  | Some k => set_blocks (delete k)
  | None => mret tt
  end.

Section release.
(** [dispatch_release] of an object referred to by a record. *)
Context (release : addr -> M unit).

Fixpoint release_records (rs : list range_record) : M unit :=
  match rs with
  | [] => mret tt
  | r :: rs => _ ← release (data_object r); release_records rs
  end.

Definition _dispatch_data_dispose (dd : dispatch_data_s) : M unit :=
  if _dispatch_data_leaf dd then
    _dispatch_data_destroy_buffer (buf dd) (Some (dd_targetq dd)) (destr dd)
  else
    _ ← release_records (records dd);
    free (buf dd).

(** [_os_object_release], and when it was the last reference
    [_dispatch_dispose] with the dispose routine of data objects: the type
    dispose, the memory of the object, the reference on the target queue. *)
Definition release_once (a : addr) : M unit :=
  dd ← load a;
  match _os_object_release (dd_refs dd) with
  | Crash c => crash c
  | Done (o, Dispose) =>
      _ ← _dispatch_data_dispose dd;
      _ ← free_inline dd;
      _ ← set_objs (delete a);
      emit (EvReleaseQueue (dd_targetq dd))
  | Done (o, _) =>
      set_objs (insert a {| dd_refs := o; dd_targetq := dd_targetq dd; buf := buf dd;
        destr := destr dd; size := size dd; records := records dd; inline_block := inline_block dd |})
  end.
End release.

(** The recursion through the records; the depth of a rope is at most one. *)
Fixpoint release_depth (n : nat) (a : addr) : M unit :=
  match n with
  | O => crash InvalidAccess
  | S n => release_once (release_depth n) a
  end.

Definition _dispatch_data_release (a : addr) : M unit := release_depth 2 a.

(** ** data.c: creation *)

(** NULL (out of memory) when the size computation overflows. *)
Definition _dispatch_data_alloc (n extra : Z) : M (option addr) :=
  if decide (sizeof_dispatch_data_s + extra >= 2 ^ 64) then mret None
  else if decide (n * sizeof_range_record + (sizeof_dispatch_data_s + extra) >= 2 ^ 64) then mret None
  else
    a ← gets (fun st => fresh (dom (objs st) ∪ {[dispatch_data_empty]}));
    k ← gets (fun st => fresh (dom (blocks st)));
    _ ← (if decide (extra = 0) then mret tt
         else set_blocks (insert k (replicate (Z.to_nat extra) 0)));
    _ ← set_objs (insert a
      {| dd_refs := _os_object_alloc_realized; dd_targetq := default_queue; buf := None;
         destr := DESTRUCTOR_DEFAULT; size := 0;
         records := replicate (Z.to_nat n) {| data_object := dispatch_data_empty; from := 0; len := 0 |};
         inline_block := if decide (extra = 0) then None else Some k |});
    mret (Some a).

Definition _dispatch_data_init (a : addr) (buffer : option ptr) (sz : Z) (queue : option nat)
    (d : destructor) : M unit :=
  dd ← load a;
  _ ← (match queue with Some q => emit (EvRetainQueue q) | None => mret tt end);
  store a {| dd_refs := dd_refs dd; dd_targetq := default (dd_targetq dd) queue; buf := buffer;
             destr := d; size := sz; records := records dd; inline_block := inline_block dd |}.

Definition _dispatch_data_init_with_bytes (a : addr) (buffer : option ptr) (sz : Z) (d : destructor)
    : M unit :=
  if decide (buffer = None \/ sz = 0) then
    _ ← (if decide (d <> DESTRUCTOR_DEFAULT) then _dispatch_data_destroy_buffer buffer None d else mret tt);
    _dispatch_data_init a None 0 None DESTRUCTOR_NONE
  else _dispatch_data_init a buffer sz None d.

(** The address of the bytes allocated with the object. *)
Definition inline_ptr (a : addr) : M ptr :=
  dd ← load a;
  match inline_block dd with
  | Some k => mret {| p_block := k; p_off := 0 |}
  | None => crash InvalidAccess
  end.

(** A NULL object is dereferenced by the caller. *)
Definition deref (o : option addr) : M addr :=
  match o with Some a => mret a | None => crash InvalidAccess end.

Definition dispatch_data_create (buffer : option ptr) (sz : Z) (queue : option nat) (d : destructor)
    : M (option addr) :=
  match buffer with
  | Some p =>
    if decide (sz = 0) then
      _ ← (if decide (d <> DESTRUCTOR_DEFAULT) then _dispatch_data_destroy_buffer buffer queue d else mret tt);
      mret (Some dispatch_data_empty)
    else if decide (d = DESTRUCTOR_DEFAULT) then
      data_buf ← malloc sz;
      match data_buf with
      | None => mret None
      | Some q =>
        _ ← memcpy q p sz;
        o ← _dispatch_data_alloc 0 0; a ← deref o;
        _ ← _dispatch_data_init a (Some q) sz queue DESTRUCTOR_FREE;
        mret (Some a)
      end
    else if decide (d = DESTRUCTOR_INLINE) then
      o ← _dispatch_data_alloc 0 sz; a ← deref o;
      q ← inline_ptr a;
      _ ← memcpy q p sz;
      _ ← _dispatch_data_init a (Some q) sz queue DESTRUCTOR_NONE;
      mret (Some a)
    else
      o ← _dispatch_data_alloc 0 0; a ← deref o;
      _ ← _dispatch_data_init a (Some p) sz queue d;
      mret (Some a)
  | None =>
      _ ← (if decide (d <> DESTRUCTOR_DEFAULT) then _dispatch_data_destroy_buffer buffer queue d else mret tt);
      mret (Some dispatch_data_empty)
  end.

(** [wrapblk f] is the block [^{ destructor_function(buffer); }]. *)
Definition dispatch_data_create_f (wrapblk : destructor -> nat) (buffer : option ptr) (sz : Z) (queue : option nat)
    (destructor_function : destructor) : M (option addr) :=
  dispatch_data_create buffer sz queue
    (match destructor_function with
     | DESTRUCTOR_DEFAULT | DESTRUCTOR_FREE | DESTRUCTOR_NONE | DESTRUCTOR_INLINE => destructor_function
     | DESTRUCTOR_MUNMAP | DestructorBlock _ => DestructorBlock (wrapblk destructor_function)
     end).

Definition dispatch_data_create_alloc (sz : Z) : M (addr * option ptr) :=
  if decide (sz = 0) then mret (dispatch_data_empty, None)
  else
    o ← _dispatch_data_alloc 0 sz; a ← deref o;
    buffer ← inline_ptr a;
    _ ← _dispatch_data_init a (Some buffer) sz None DESTRUCTOR_NONE;
    mret (a, Some buffer).

(** ** data.c: concatenation and subranges *)

Definition dispatch_data_get_size (a : addr) : M Z := dd ← load a; mret (size dd).

(** Fill the size and the records of a new composite object. *)
Definition set_composite (a : addr) (sz : Z) (rs : list range_record) : M unit :=
  dd ← load a;
  store a {| dd_refs := dd_refs dd; dd_targetq := dd_targetq dd; buf := buf dd; destr := destr dd;
             size := sz; records := rs; inline_block := inline_block dd |}.

(** The records that stand for an object inside a composite one. *)
Definition as_records (a : addr) (dd : dispatch_data_s) : list range_record :=
  if _dispatch_data_leaf dd then [{| data_object := a; from := 0; len := size dd |}] else records dd.

Definition dispatch_data_create_concat (dd1 dd2 : addr) : M (option addr) :=
  d1 ← load dd1;
  if decide (size d1 = 0) then _ ← _dispatch_data_retain dd2; mret (Some dd2)
  else
    d2 ← load dd2;
    if decide (size d2 = 0) then _ ← _dispatch_data_retain dd1; mret (Some dd1)
    else if decide (_dispatch_data_num_records d1 + _dispatch_data_num_records d2 >= 2 ^ 64) then mret None
    else
      let n := _dispatch_data_num_records d1 + _dispatch_data_num_records d2 in
      o ← _dispatch_data_alloc n 0; data ← deref o;
      let rs := as_records dd1 d1 ++ as_records dd2 d2 in
      _ ← set_composite data (u64 (size d1 + size d2)) rs;
      _ ← retain_records rs;
      mret (Some data).

(** [while (i < n && offset >= records[i].length)]: the records left, and the
    offset in the first of them. *)
Fixpoint skip_records (rs : list range_record) (offset : Z) : list range_record * Z :=
  match rs with
  | r :: rs' => if decide (offset >= len r) then skip_records rs' (offset - len r) else (rs, offset)
  | [] => ([], offset)
  end.

(** The loop that counts the records of the range after the first one: [rs] are
    the records from [i + count] on; the crash is the last turn's check. *)
Fixpoint count_records (rs : list range_record) (count : nat) (last_length : Z) : outcome (nat * Z) :=
  match rs with
  | [] => Done (count, last_length)
  | r :: rs =>
      let record_length := len r in
      let count := S count in
      if decide (last_length <= record_length) then Done (count, last_length)
      else
        let last_length := last_length - record_length in
        match rs with
        | [] => Crash InternalCrash
        | _ => count_records rs count last_length
        end
  end.

(** [records[0].from += offset; records[0].length -= offset]. *)
Definition trim_first (rs : list range_record) (offset : Z) : list range_record :=
  match rs with
  | r :: rs => if decide (offset <> 0)
               then {| data_object := data_object r; from := from r + offset; len := len r - offset |} :: rs
               else r :: rs
  | [] => []
  end.

(** [records[count - 1].length = last_length]. *)
Fixpoint set_last_len (rs : list range_record) (l : Z) : list range_record :=
  match rs with
  | [] => []
  | [r] => [{| data_object := data_object r; from := from r; len := l |}]
  | r :: rs => r :: set_last_len rs l
  end.

Fixpoint subrange_depth (n : nat) (a : addr) (offset length : Z) : M (option addr) :=
  match n with
  | O => crash InvalidAccess
  | S n =>
    dd ← load a;
    if decide (offset >= size dd \/ length = 0) then mret (Some dispatch_data_empty)
    else if decide (length <= size dd - offset /\ length = size dd) then
      _ ← _dispatch_data_retain a; mret (Some a)
    else
      let length := if decide (length > size dd - offset) then size dd - offset else length in
      if _dispatch_data_leaf dd then
        o ← _dispatch_data_alloc 1 0; data ← deref o;
        _ ← set_composite data length [{| data_object := a; from := offset; len := length |}];
        _ ← _dispatch_data_retain a;
        mret (Some data)
      else
        let to_the_end := bool_decide (offset + length = size dd) in
        let '(rs, offset) := skip_records (records dd) offset in
        match rs with
        | [] => crash InternalCrash
        | r0 :: rest =>
          if decide (offset + length <= len r0) then
            subrange_depth n (data_object r0) (from r0 + offset) length
          else
            match (if to_the_end then Done (List.length rs, 0)
                   else count_records rest 1 (length - (len r0 - offset))) with
            | Crash c => crash c
            | Done (count, last_length) =>
              o ← _dispatch_data_alloc (Z.of_nat count) 0; data ← deref o;
              let rs := trim_first (take count rs) offset in
              let rs := if to_the_end then rs else set_last_len rs last_length in
              _ ← set_composite data length rs;
              _ ← retain_records rs;
              mret (Some data)
            end
        end
  end.

Definition dispatch_data_create_subrange (dd : addr) (offset length : Z) : M (option addr) :=
  subrange_depth 2 dd offset length.

(** ** data.c: regions *)

Section apply.
(** The client's applier: its context, the region, the offset, the pointer and
    the size; it may read memory. *)
Context {A : Type} (applier : A -> addr -> Z -> ptr -> Z -> M (A * bool)).

Section records.
Context (apply : A -> addr -> Z -> Z -> Z -> M (A * bool)).
Fixpoint apply_records (ctxt : A) (rs : list range_record) (offset : Z) : M (A * bool) :=
  match rs with
  | [] => mret (ctxt, true)
  | r :: rs =>
      res ← apply ctxt (data_object r) offset (from r) (len r);
      if (res : A * bool).2 then apply_records res.1 rs (u64 (offset + len r)) else mret (res.1, false)
  end.
End records.

Fixpoint apply_depth (n : nat) (ctxt : A) (a : addr) (offset frm sz : Z) : M (A * bool) :=
  match n with
  | O => crash InvalidAccess
  | S n =>
    m ← _dispatch_data_map_direct a 0;
    match m with
    | (Some buffer, _, _) => applier ctxt a offset (ptr_add buffer frm) sz
    | (None, _, _) => dd ← load a; apply_records (apply_depth n) ctxt (records dd) offset
    end
  end.

Definition dispatch_data_apply_f (a : addr) (ctxt : A) : M (A * bool) :=
  dd ← load a;
  if decide (size dd = 0) then mret (ctxt, true)
  else apply_depth 2 ctxt a 0 0 (size dd).
End apply.

(** The block of [_dispatch_data_flatten]. *)
Definition flatten_applier (buffer : ptr) (_ : unit) (_ : addr) (off : Z) (p : ptr) (n : Z) : M (unit * bool) :=
  _ ← memcpy (ptr_add buffer off) p n; mret (tt, true).

Definition _dispatch_data_flatten (a : addr) : M (option ptr) :=
  dd ← load a;
  buffer ← malloc (size dd);
  match buffer with
  | None => mret None
  | Some b => _ ← dispatch_data_apply_f (flatten_applier b) a tt; mret (Some b)
  end.

(** The data object, the pointer and the size. *)
Definition dispatch_data_create_map (a : addr) : M (option addr * option ptr * Z) :=
  dd ← load a;
  if decide (size dd = 0) then mret (Some dispatch_data_empty, None, size dd)
  else
    m ← _dispatch_data_map_direct a 0;
    match m with
    | (Some buffer, _, _) => _ ← _dispatch_data_retain a; mret (Some a, Some buffer, size dd)
    | (None, _, _) =>
      buffer ← _dispatch_data_flatten a;
      match buffer with
      | Some b => data ← dispatch_data_create (Some b) (size dd) None DESTRUCTOR_FREE;
                  mret (data, Some b, size dd)
      | None => mret (None, None, 0)
      end
    end.

(** Run by one thread, so the compare-and-swap of [dd->buf] succeeds. *)
Definition dispatch_data_get_flattened_bytes_4libxpc (a : addr) : M (option ptr) :=
  dd ← load a;
  if decide (size dd = 0) then mret None
  else
    m ← _dispatch_data_map_direct a 0;
    match m with
    | (Some buffer, _, _) => mret (Some buffer)
    | (None, a, offset) =>
      flatbuf ← _dispatch_data_flatten a;
      match flatbuf with
      | None => mret None
      | Some fb =>
        dd ← load a;
        match buf dd with
        | Some b => _ ← free flatbuf; mret (Some (ptr_add b offset))
        | None =>
          _ ← store a {| dd_refs := dd_refs dd; dd_targetq := dd_targetq dd; buf := Some fb;
                 destr := destr dd; size := size dd; records := records dd;
                 inline_block := inline_block dd |};
          mret (Some (ptr_add fb offset))
        end
      end
    end.

(** The loop over the records of [_dispatch_data_copy_region]: the record that
    holds [location], as (object, from, length, location, offset). *)
Fixpoint find_region (rs : list range_record) (frm location offset : Z)
    : option (addr * Z * Z * Z * Z) :=
  match rs with
  | [] => None
  | r :: rs =>
      let length := len r in
      if decide (frm >= length) then find_region rs (frm - length) location offset
      else
        let length := length - frm in
        if decide (location >= offset + length) then find_region rs 0 location (offset + length)
        else Some (data_object r, frm + from r, length, location - offset, offset)
  end.

Fixpoint copy_region_depth (n : nat) (a : addr) (frm sz location offset_acc : Z) : M (option addr * Z) :=
  match n with
  | O => crash InvalidAccess
  | S n =>
    dd ← load a;
    let reusable_dd := bool_decide (frm = 0 /\ sz = size dd) in
    m ← _dispatch_data_map_direct a frm;
    match m with
    | (Some _, a', frm) =>
        if reusable_dd then _ ← _dispatch_data_retain a; mret (Some a, offset_acc)
        else
          _ ← _dispatch_data_retain a';
          dd ← load a';
          if decide (frm = 0 /\ sz = size dd) then mret (Some a', offset_acc)
          else
            o ← _dispatch_data_alloc 1 0; data ← deref o;
            _ ← set_composite data sz [{| data_object := a'; from := frm; len := sz |}];
            mret (Some data, offset_acc)
    | (None, a', frm) =>
        dd ← load a';
        match find_region (records dd) frm location 0 with
        | Some (r, frm, length, location, offset) =>
            copy_region_depth n r frm length location (u64 (offset_acc + offset))
        | None => crash InternalCrash
        end
    end
  end.

(** The region and [*offset_ptr]. *)
Definition dispatch_data_copy_region (a : addr) (location : Z) : M (option addr * Z) :=
  dd ← load a;
  if decide (location >= size dd) then mret (Some dispatch_data_empty, size dd)
  else copy_region_depth 2 a 0 (size dd) location 0.
