(* ===== verification/DataInv.v ===== *)
(** * Invariant of dispatch data objects

    The bytes an object stands for, the shape of well-formed ropes (composite
    objects point to leaves, depth one), the reference counts as the number of
    client handles plus the number of records that point to an object, and the
    exclusive ownership of buffers; with the lemmas on retain and on new
    composite objects that the operations share. *)

From S2P Require Import Prelude Object Data.

(** ** Contents *)

Definition leaf_bytes (bl : gmap nat (list Z)) (dd : dispatch_data_s) : list Z :=
  match buf dd with Some p => default [] (peek bl p (size dd)) | None => [] end.

Definition slice (l : list Z) (o n : Z) : list Z := take (Z.to_nat n) (drop (Z.to_nat o) l).

Definition rec_bytes (st : data_state) (r : range_record) : list Z :=
  match objs st !! data_object r with
  | Some dd => slice (leaf_bytes (blocks st) dd) (from r) (len r)
  | None => []
  end.

Definition recs_bytes (st : data_state) (rs : list range_record) : list Z := rs ≫= rec_bytes st.

(** The bytes a data object represents. *)
Definition bytes (st : data_state) (a : addr) : list Z :=
  match objs st !! a with
  | Some dd => if _dispatch_data_leaf dd then leaf_bytes (blocks st) dd else recs_bytes st (records dd)
  | None => []
  end.

Definition sum_len (rs : list range_record) : Z := foldr (fun r n => len r + n) 0 rs.

(** ** Shape *)

Record rec_ok (st : data_state) (r : range_record) : Prop := {
  ro_from : 0 <= from r;
  ro_len : 0 < len r;
  ro_leaf : exists dd, objs st !! data_object r = Some dd /\ records dd = [] /\
    from r + len r <= size dd;
}.

Record leaf_ok (st : data_state) (dd : dispatch_data_s) : Prop := {
  lf_buf : exists p b, buf dd = Some p /\ blocks st !! p_block p = Some b /\ 0 <= p_off p /\
    p_off p + size dd <= Z.of_nat (length b) /\ (destr dd = DESTRUCTOR_FREE -> p_off p = 0);
  lf_size : 0 < size dd < 2 ^ 64;
  lf_inline : forall k, inline_block dd = Some k ->
    destr dd = DESTRUCTOR_NONE /\ buf dd = Some {| p_block := k; p_off := 0 |};
}.

Record composite_ok (st : data_state) (dd : dispatch_data_s) : Prop := {
  cm_recs : Forall (rec_ok st) (records dd);
  cm_size : size dd = sum_len (records dd) /\ size dd < 2 ^ 64;
  cm_trivial : length (records dd) = 1%nat -> buf dd = None;
  cm_flat : forall p, buf dd = Some p -> p_off p = 0 /\ blocks st !! p_block p = Some (recs_bytes st (records dd));
  cm_inline : inline_block dd = None;
}.

Definition obj_ok (st : data_state) (dd : dispatch_data_s) : Prop :=
  if decide (records dd = []) then leaf_ok st dd else composite_ok st dd.

(** ** Reference counts *)

Definition refs_to (a : addr) (rs : list range_record) : Z :=
  Z.of_nat (length (filter (fun r => data_object r = a) rs)).

(** Number of records of the store that point to [a]. *)
Definition owners (m : gmap addr dispatch_data_s) (a : addr) : Z :=
  map_fold (fun _ dd n => refs_to a (records dd) + n) 0 m.

(** The block an object frees. *)
Definition owned (dd : dispatch_data_s) : option nat :=
  match inline_block dd with
  | Some k => Some k
  | None => if decide (records dd = [] /\ destr dd <> DESTRUCTOR_FREE) then None
            else p_block <$> buf dd
  end.

(** The blocks an object refers to. *)
Definition uses (dd : dispatch_data_s) (k : nat) : Prop :=
  inline_block dd = Some k \/ p_block <$> buf dd = Some k.

Definition xref (dd : dispatch_data_s) : Z := os_obj_xref_cnt (dd_refs dd).

(** [h] counts the references held outside the store. *)
Record core (h : addr -> Z) (st : data_state) : Prop := {
  i_empty : objs st !! dispatch_data_empty = Some _dispatch_data_empty;
  i_ok : forall a dd, a <> dispatch_data_empty -> objs st !! a = Some dd -> obj_ok st dd;
  i_refs : forall a dd, a <> dispatch_data_empty -> objs st !! a = Some dd ->
    os_obj_ref_cnt (dd_refs dd) = 0 /\ xref dd + 1 = h a + owners (objs st) a /\ 0 <= xref dd;
  i_owned : forall a b da db k, a <> b -> objs st !! a = Some da -> objs st !! b = Some db ->
    owned da = Some k -> ~ uses db k;
}.

Record inv (h : addr -> Z) (st : data_state) : Prop := {
  i_core :> core h st;
  i_handles : forall a, 0 <= h a /\ (0 < h a -> is_Some (objs st !! a));
}.

(** No count is within [n] of the immortal value. *)
Definition room (st : data_state) (n : Z) : Prop :=
  forall a dd, a <> dispatch_data_empty -> objs st !! a = Some dd -> xref dd + n < INT_MAX.

Definition hadd (h : addr -> Z) (a : addr) (n : Z) : addr -> Z := fun b => if decide (b = a) then h b + n else h b.

(** ** Frame *)

(** Two views of an object that differ only in counts and flat buffer. *)
Definition same_shape (d d' : dispatch_data_s) : Prop :=
  size d' = size d /\ records d' = records d /\ destr d' = destr d /\ inline_block d' = inline_block d /\
  dd_targetq d' = dd_targetq d /\ (records d = [] -> buf d' = buf d).

(** Every object and block of [st] is still there in [st']. *)
Record extends (st st' : data_state) : Prop := {
  ex_objs : forall a dd, objs st !! a = Some dd -> exists dd', objs st' !! a = Some dd' /\ same_shape dd dd';
  ex_blocks : forall k b, blocks st !! k = Some b -> blocks st' !! k = Some b;
}.

Lemma same_shape_refl d : same_shape d d.
Proof. done. Qed.

Lemma extends_refl st : extends st st.
Proof. constructor; eauto using same_shape_refl. Qed.

Lemma extends_trans s1 s2 s3 : extends s1 s2 -> extends s2 s3 -> extends s1 s3.
Proof.
  intros [O1 B1] [O2 B2]. constructor; [|auto].
  intros a dd Ha. destruct (O1 a dd Ha) as (d2 & H2 & S2). destruct (O2 a d2 H2) as (d3 & H3 & S3).
  exists d3. split; [done|]. unfold same_shape in *. destruct S2 as (?&?&?&?&?&?), S3 as (?&?&?&?&?&E).
  repeat split; try congruence. intros Hr. rewrite E by congruence. auto.
Qed.
#[export] Hint Resolve extends_refl same_shape_refl : dispatch.

Lemma leaf_iff dd : _dispatch_data_leaf dd = true <-> records dd = [].
Proof.
  unfold _dispatch_data_leaf, num_records. rewrite bool_decide_eq_true. destruct (records dd); simpl; split; congruence || lia.
Qed.

Lemma leaf_bytes_ext st st' dd dd' : extends st st' -> leaf_ok st dd -> same_shape dd dd' -> records dd = [] ->
  leaf_bytes (blocks st') dd' = leaf_bytes (blocks st) dd.
Proof.
  intros E [(p & b & Hp & Hb & _) _ _] (Hs & _ & _ & _ & _ & Hbuf) Hr.
  unfold leaf_bytes. rewrite Hbuf, Hp, Hs by done. unfold peek.
  by rewrite Hb, (ex_blocks _ _ E _ _ Hb).
Qed.

Lemma length_leaf_bytes st dd : leaf_ok st dd -> Z.of_nat (length (leaf_bytes (blocks st) dd)) = size dd.
Proof.
  intros [(p & b & Hp & Hb & ? & ? & _) ? _]. unfold leaf_bytes, peek. rewrite Hp, Hb. simpl.
  rewrite decide_True by lia. simpl. rewrite length_take, length_drop. lia.
Qed.

Lemma length_slice l o n : 0 <= o -> 0 <= n -> o + n <= Z.of_nat (length l) -> Z.of_nat (length (slice l o n)) = n.
Proof. intros. unfold slice. rewrite length_take, length_drop. lia. Qed.

Lemma slice_slice l o n o' n' : 0 <= o -> 0 <= o' -> 0 <= n' -> o' + n' <= n ->
  slice (slice l o n) o' n' = slice l (o + o') n'.
Proof.
  intros. unfold slice. rewrite skipn_firstn_comm, take_take, drop_drop. f_equal; [lia|]. f_equal. lia.
Qed.

Lemma slice_all l n : n = Z.of_nat (length l) -> slice l 0 n = l.
Proof. intros ->. unfold slice. rewrite drop_0, take_ge by lia. done. Qed.

Lemma recs_bytes_cons st r rs : recs_bytes st (r :: rs) = rec_bytes st r ++ recs_bytes st rs.
Proof. done. Qed.

Lemma recs_bytes_app st rs rs' : recs_bytes st (rs ++ rs') = recs_bytes st rs ++ recs_bytes st rs'.
Proof. apply bind_app. Qed.

Lemma sum_len_app rs rs' : sum_len (rs ++ rs') = sum_len rs + sum_len rs'.
Proof. induction rs as [|r rs IH]; simpl; lia. Qed.

(** ** Well-formed stores *)

Section wf.
Context (h : addr -> Z) (st : data_state) (Hinv : core h st).

Lemma inv_leaf a dd : objs st !! a = Some dd -> 0 < size dd -> records dd = [] -> leaf_ok st dd.
Proof.
  intros Ha Hs Hr. destruct (decide (a = dispatch_data_empty)) as [->|Hn].
  - rewrite (i_empty _ _ Hinv) in Ha. simplify_eq. simpl in Hs. lia.
  - pose proof (i_ok _ _ Hinv a dd Hn Ha) as H. unfold obj_ok in H. by rewrite decide_True in H.
Qed.

Lemma inv_composite a dd : objs st !! a = Some dd -> records dd <> [] -> composite_ok st dd.
Proof.
  intros Ha Hr. destruct (decide (a = dispatch_data_empty)) as [->|Hn].
  - rewrite (i_empty _ _ Hinv) in Ha. simplify_eq.
  - pose proof (i_ok _ _ Hinv a dd Hn Ha) as H. unfold obj_ok in H. by rewrite decide_False in H.
Qed.

Lemma rec_ok_leaf r : rec_ok st r -> exists dd, objs st !! data_object r = Some dd /\
  data_object r <> dispatch_data_empty /\
  records dd = [] /\ leaf_ok st dd /\ 0 <= from r /\ 0 < len r /\ from r + len r <= size dd /\
  rec_bytes st r = slice (leaf_bytes (blocks st) dd) (from r) (len r).
Proof.
  intros [Hf Hl (dd & Hd & Hr & Hs)]. exists dd. split; [done|]. split.
  { intros E. rewrite E, (i_empty _ _ Hinv) in Hd. simplify_eq. simpl in Hs. lia. }
  split; [done|]. split; [by eapply inv_leaf; [|lia|]|]. repeat split; try done.
  unfold rec_bytes. by rewrite Hd.
Qed.

Lemma length_rec_bytes r : rec_ok st r -> Z.of_nat (length (rec_bytes st r)) = len r.
Proof.
  intros H. destruct (rec_ok_leaf r H) as (dd & _ & _ & _ & Hl & ? & ? & ? & ->).
  apply length_slice; [lia..|]. rewrite (length_leaf_bytes st dd Hl). lia.
Qed.

Lemma length_recs_bytes rs : Forall (rec_ok st) rs -> Z.of_nat (length (recs_bytes st rs)) = sum_len rs.
Proof.
  induction 1 as [|r rs Hr _ IH]; [done|]. rewrite recs_bytes_cons. simpl.
  rewrite length_app, Nat2Z.inj_add, IH, length_rec_bytes by done. done.
Qed.

Lemma length_bytes a dd : objs st !! a = Some dd -> Z.of_nat (length (bytes st a)) = size dd.
Proof.
  intros Ha. unfold bytes. rewrite Ha. destruct (_dispatch_data_leaf dd) eqn:E.
  - apply leaf_iff in E. destruct (decide (a = dispatch_data_empty)) as [->|Hn].
    + rewrite (i_empty _ _ Hinv) in Ha. by simplify_eq.
    + apply length_leaf_bytes. pose proof (i_ok _ _ Hinv a dd Hn Ha) as H. unfold obj_ok in H.
      by rewrite decide_True in H.
  - assert (records dd <> []) as Hr by (rewrite <- leaf_iff; congruence).
    destruct (inv_composite a dd Ha Hr) as [Hrs [Hs _] _ _]. by rewrite length_recs_bytes.
Qed.

Lemma sum_len_pos rs : Forall (rec_ok st) rs -> rs <> [] -> 0 < sum_len rs.
Proof.
  induction 1 as [|r rs Hr Hrs IH]; [done|]. intros _. simpl. pose proof (ro_len _ _ Hr).
  destruct rs; [simpl; lia|]. specialize (IH ltac:(done)). lia.
Qed.

Lemma size_pos a dd : objs st !! a = Some dd -> a <> dispatch_data_empty -> 0 < size dd < 2 ^ 64.
Proof.
  intros Ha Hn. destruct (decide (records dd = [])) as [E|E].
  - pose proof (i_ok _ _ Hinv a dd Hn Ha) as H. unfold obj_ok in H. rewrite decide_True in H by done. apply H.
  - destruct (inv_composite a dd Ha E) as [Hrs [Hs ?] _ _]. pose proof (sum_len_pos _ Hrs E). lia.
Qed.

(** Records and objects keep their bytes and well-formedness when the store grows. *)
Context (st' : data_state) (Hext : extends st st').

Lemma rec_ok_ext r : rec_ok st r -> rec_ok st' r.
Proof.
  intros [Hf Hl (dd & Hd & Hr & Hs)]. constructor; [done..|].
  destruct (ex_objs _ _ Hext _ _ Hd) as (dd' & Hd' & E1 & E2 & _). exists dd'. split; [done|].
  by rewrite E1, E2.
Qed.

Lemma rec_bytes_ext r : rec_ok st r -> rec_bytes st' r = rec_bytes st r.
Proof.
  intros H. destruct (rec_ok_leaf r H) as (dd & Hd & _ & Hr & Hl & _ & _ & _ & ->).
  destruct (ex_objs _ _ Hext _ _ Hd) as (dd' & Hd' & S). unfold rec_bytes. rewrite Hd'.
  by erewrite leaf_bytes_ext.
Qed.

Lemma recs_bytes_ext rs : Forall (rec_ok st) rs -> recs_bytes st' rs = recs_bytes st rs.
Proof.
  induction 1 as [|r rs Hr _ IH]; [done|]. by rewrite !recs_bytes_cons, rec_bytes_ext, IH.
Qed.

Lemma bytes_ext a : is_Some (objs st !! a) -> bytes st' a = bytes st a.
Proof.
  intros [dd Ha]. destruct (ex_objs _ _ Hext _ _ Ha) as (dd' & Ha' & S). pose proof S as (E1 & E2 & _ & _ & _ & E5).
  unfold bytes. rewrite Ha, Ha'.
  assert (_dispatch_data_leaf dd' = _dispatch_data_leaf dd) as -> by (unfold _dispatch_data_leaf, num_records; by rewrite E2).
  destruct (_dispatch_data_leaf dd) eqn:E.
  - apply leaf_iff in E. destruct (decide (a = dispatch_data_empty)) as [->|Hn].
    + rewrite (i_empty _ _ Hinv) in Ha. simplify_eq. unfold leaf_bytes. by rewrite E5.
    + pose proof (i_ok _ _ Hinv a dd Hn Ha) as H. unfold obj_ok in H. rewrite decide_True in H by done.
      by erewrite leaf_bytes_ext.
  - assert (records dd <> []) as Hr by (rewrite <- leaf_iff; congruence).
    destruct (inv_composite a dd Ha Hr) as [Hrs _ _ _]. by rewrite E2, recs_bytes_ext.
Qed.

Lemma obj_ok_ext a dd dd' : a <> dispatch_data_empty -> objs st !! a = Some dd -> same_shape dd dd' ->
  (records dd <> [] -> buf dd' = buf dd) -> obj_ok st' dd'.
Proof.
  intros Hn Ha (E1 & E2 & E3 & E4 & _ & E5) Ebuf. pose proof (i_ok _ _ Hinv a dd Hn Ha) as H.
  unfold obj_ok in *. rewrite E2. destruct (decide (records dd = [])) as [Hr|Hr].
  - destruct H as [(p & b & ? & Hb & ? & ? & ?) ? ?]. constructor.
    + exists p, b. rewrite E1, E3, (E5 Hr). repeat split; try done. by apply (ex_blocks _ _ Hext).
    + by rewrite E1.
    + intros k. rewrite E4, E3, (E5 Hr). eauto.
  - destruct H as [Hrs [Hs ?] Ht Hf Hi]. constructor; rewrite ?E1, ?E2, ?E4, ?(Ebuf Hr); try done.
    + eapply Forall_impl; [done|]. intros r Hr'. by apply rec_ok_ext.
    + intros p Hp. destruct (Hf p Hp) as [? Hb]. split; [done|]. rewrite recs_bytes_ext by done.
      by apply (ex_blocks _ _ Hext).
Qed.
End wf.

(** ** Counting owners *)

Lemma owners_insert_new m b dd a : m !! b = None ->
  owners (<[b := dd]> m) a = refs_to a (records dd) + owners m a.
Proof. intros. unfold owners. rewrite map_fold_insert_L; [done| |done]. intros. lia. Qed.

Lemma owners_delete m b dd a : m !! b = Some dd ->
  owners m a = refs_to a (records dd) + owners (delete b m) a.
Proof.
  intros H. rewrite <- (insert_delete_id m b dd H) at 1.
  by rewrite owners_insert_new by apply lookup_delete_eq.
Qed.

Lemma owners_insert_same m b dd dd' a : m !! b = Some dd -> records dd' = records dd ->
  owners (<[b := dd']> m) a = owners m a.
Proof.
  intros H E. rewrite (owners_delete m b dd a H), <- insert_delete_eq.
  rewrite owners_insert_new by apply lookup_delete_eq. by rewrite E.
Qed.

Lemma refs_to_nonneg a rs : 0 <= refs_to a rs.
Proof. unfold refs_to. lia. Qed.

Lemma refs_to_le a rs : refs_to a rs <= Z.of_nat (length rs).
Proof. unfold refs_to. pose proof (length_filter (fun r => data_object r = a) rs). lia. Qed.

Lemma refs_to_cons a r rs : refs_to a (r :: rs) = (if decide (data_object r = a) then 1 else 0) + refs_to a rs.
Proof. unfold refs_to. rewrite filter_cons. case_decide; simpl; lia. Qed.

Lemma refs_to_in a r rs : r ∈ rs -> data_object r = a -> 0 < refs_to a rs.
Proof.
  intros Hr Ha. induction rs as [|r' rs IH]; [by apply elem_of_nil in Hr|]. rewrite refs_to_cons.
  pose proof (refs_to_nonneg a rs). apply elem_of_cons in Hr as [->|Hr].
  - rewrite decide_True by done. lia.
  - specialize (IH Hr). case_decide; lia.
Qed.

Lemma refs_to_none a rs : (forall r, r ∈ rs -> data_object r <> a) -> refs_to a rs = 0.
Proof.
  induction rs as [|r rs IH]; intros H; [done|]. rewrite refs_to_cons, IH.
  - rewrite decide_False; [done|]. apply H. by left.
  - intros r' Hr'. apply H. by right.
Qed.

Lemma owners_none m a : (forall b dd r, m !! b = Some dd -> r ∈ records dd -> data_object r <> a) -> owners m a = 0.
Proof.
  induction m as [|i x m Hi IH] using map_ind; [done|]. intros H. rewrite owners_insert_new by done.
  rewrite IH, refs_to_none; [done| |].
  - intros r Hr. apply (H i x); [by rewrite lookup_insert_eq|done].
  - intros b dd r Hb Hr. apply (H b dd); [|done]. rewrite lookup_insert_ne; [done|congruence].
Qed.

Lemma refs_to_pos a rs : 0 < refs_to a rs -> exists r, r ∈ rs /\ data_object r = a.
Proof.
  induction rs as [|r rs IH]; [by unfold refs_to; simpl; lia|]. rewrite refs_to_cons. case_decide as E; intros Hp.
  - exists r. split; [by left|done].
  - destruct IH as (r' & Hr' & ?); [lia|]. exists r'. split; [by right|done].
Qed.

Lemma owners_pos m a : 0 < owners m a ->
  exists b dd r, m !! b = Some dd /\ r ∈ records dd /\ data_object r = a.
Proof.
  induction m as [|i x m Hi IH] using map_ind; [done|]. rewrite owners_insert_new by done. intros Hp.
  destruct (decide (0 < refs_to a (records x))) as [Hx|Hx].
  - destruct (refs_to_pos a (records x) Hx) as (r & ? & ?). exists i, x, r. by rewrite lookup_insert_eq.
  - destruct IH as (b & dd & r & Hb & ? & ?); [lia|]. exists b, dd, r.
    rewrite lookup_insert_ne by congruence. done.
Qed.

Lemma owners_nonneg m a : 0 <= owners m a.
Proof.
  induction m as [|i x m Hi IH] using map_ind; [done|]. rewrite owners_insert_new by done.
  pose proof (refs_to_nonneg a (records x)). lia.
Qed.

Lemma owners_ge m b dd a : m !! b = Some dd -> refs_to a (records dd) <= owners m a.
Proof. intros H. rewrite (owners_delete m b dd a H). pose proof (owners_nonneg (delete b m) a). lia. Qed.

(** ** Running the code *)

Lemma bind_run {A B} (m : M A) (f : A -> M B) st a st' : m st = Done (a, st') -> (m ≫= f) st = f a st'.
Proof. unfold mbind, M_bind. by intros ->. Qed.

Lemma load_run st a dd : objs st !! a = Some dd -> load a st = Done (dd, st).
Proof. unfold load. by intros ->. Qed.

(** ** Retaining *)

Definition with_objs (st : data_state) (m : gmap addr dispatch_data_s) : data_state :=
  {| objs := m; blocks := blocks st; events := events st; mallocs := mallocs st |}.

Definition bump (n : Z) (dd : dispatch_data_s) : dispatch_data_s :=
  {| dd_refs := if decide (xref dd = _OS_OBJECT_GLOBAL_REFCNT) then dd_refs dd
                else {| os_obj_ref_cnt := os_obj_ref_cnt (dd_refs dd); os_obj_xref_cnt := xref dd + n |};
     dd_targetq := dd_targetq dd; buf := buf dd; destr := destr dd; size := size dd;
     records := records dd; inline_block := inline_block dd |}.

Lemma same_shape_bump n dd : same_shape dd (bump n dd).
Proof. done. Qed.

Lemma bump_0 dd : bump 0 dd = dd.
Proof.
  destruct dd as [[r x] ? ? ? ? ? ?]. unfold bump, xref. simpl. by case_decide; rewrite ?Z.add_0_r.
Qed.

Lemma bump_bump n n' dd : 0 <= xref dd -> 0 <= n -> xref dd + n < INT_MAX -> bump n' (bump n dd) = bump (n + n') dd.
Proof.
  destruct dd as [[r x] ? ? ? ? ? ?]. unfold bump, xref, _OS_OBJECT_GLOBAL_REFCNT. simpl. intros.
  rewrite (decide_False (P := x = INT_MAX)) by lia. simpl. rewrite decide_False by lia.
  rewrite decide_False by lia. by rewrite Z.add_assoc.
Qed.

Lemma xref_bump n dd : xref (bump n dd) = if decide (xref dd = INT_MAX) then INT_MAX else xref dd + n.
Proof. unfold bump, xref, _OS_OBJECT_GLOBAL_REFCNT. simpl. by case_decide. Qed.

Lemma bump_empty n : bump n _dispatch_data_empty = _dispatch_data_empty.
Proof. done. Qed.

Lemma retain_eval st a dd : objs st !! a = Some dd -> 0 <= xref dd <= INT_MAX ->
  _dispatch_data_retain a st = Done (tt, with_objs st (<[a := bump 1 dd]> (objs st))).
Proof.
  intros Ha Hx. unfold _dispatch_data_retain, load, mbind, M_bind. rewrite Ha.
  assert (_os_object_retain (dd_refs dd) = Done (dd_refs (bump 1 dd))) as ->; [|done].
  destruct dd as [[r x] ? ? ? ? ? ?]. unfold xref in *. simpl in *.
  unfold _os_object_retain, _os_object_xrefcnt_inc_orig, _os_atomic_refcnt_add_orig2o, bump, xref,
    _OS_OBJECT_GLOBAL_REFCNT. simpl.
  destruct (decide (x = INT_MAX)) as [E|E].
  - subst x. reflexivity.
  - rewrite decide_True by done. rewrite decide_False by lia.
    unfold set_xref, INT_MAX in *. simpl. by rewrite swrap_small by (simpl; lia).
Qed.

(** The store after retaining the objects of [rs]. *)
Definition retained (rs : list range_record) (m : gmap addr dispatch_data_s) : gmap addr dispatch_data_s :=
  map_imap (fun a dd => Some (bump (refs_to a rs) dd)) m.

Lemma lookup_retained rs m a : retained rs m !! a = bump (refs_to a rs) <$> m !! a.
Proof. unfold retained. rewrite map_lookup_imap. by destruct (m !! a). Qed.

Lemma owners_retained rs m a : owners (retained rs m) a = owners m a.
Proof.
  unfold owners, retained.
  induction m as [|i x m Hi IH] using map_ind; [done|].
  rewrite map_imap_insert, !map_fold_insert_L; try done; try (intros; lia).
  - simpl. lia.
  - by rewrite map_lookup_imap, Hi.
Qed.

Lemma retain_records_eval rs : forall st,
  Forall (fun r => is_Some (objs st !! data_object r)) rs ->
  (forall a dd, objs st !! a = Some dd -> 0 <= xref dd) ->
  (forall a dd, objs st !! a = Some dd -> xref dd = INT_MAX \/ xref dd + Z.of_nat (length rs) < INT_MAX) ->
  retain_records rs st = Done (tt, with_objs st (retained rs (objs st))).
Proof.
  induction rs as [|r rs IH]; intros st Hin Hnn Hroom; simpl.
  - unfold mret, M_ret. do 2 f_equal. destruct st as [m b e ms]. unfold with_objs. simpl. f_equal.
    apply map_eq. intros a. rewrite lookup_retained. unfold refs_to. simpl.
    destruct (m !! a); simpl; by rewrite ?bump_0.
  - apply Forall_cons in Hin as [[dd Hd] Hin]. unfold mbind, M_bind.
    pose proof (Hnn _ _ Hd). pose proof (Hroom _ _ Hd). simpl in *.
    rewrite (retain_eval st _ dd Hd) by lia.
    assert (forall a d, objs (with_objs st (<[data_object r:=bump 1 dd]> (objs st))) !! a = Some d ->
      exists d0, objs st !! a = Some d0 /\ d = bump (if decide (data_object r = a) then 1 else 0) d0) as Hl.
    { intros a d. simpl. destruct (decide (data_object r = a)) as [<-|Hne].
      - rewrite lookup_insert_eq. intros [= <-]. eauto.
      - rewrite lookup_insert_ne by done. intros ?. exists d. by rewrite bump_0. }
    rewrite IH.
    + do 2 f_equal. unfold with_objs. simpl. f_equal. apply map_eq. intros a. rewrite !lookup_retained.
      rewrite refs_to_cons. destruct (decide (data_object r = a)) as [<-|Hne].
      * rewrite lookup_insert_eq, Hd. simpl. f_equal. destruct (decide (xref dd = INT_MAX)) as [E|E].
        -- unfold bump, xref, _OS_OBJECT_GLOBAL_REFCNT in *. simpl. by rewrite !(decide_True (P := os_obj_xref_cnt (dd_refs dd) = INT_MAX)) by done.
        -- rewrite bump_bump by lia. done.
      * by rewrite lookup_insert_ne by done.
    + eapply Forall_impl; [done|]. intros r' Hr'. simpl. apply lookup_insert_is_Some'. by right.
    + intros a d Ha. destruct (Hl a d Ha) as (d0 & Hd0 & ->). pose proof (Hnn a d0 Hd0).
      rewrite xref_bump. unfold INT_MAX. repeat case_decide; lia.
    + intros a d Ha. destruct (Hl a d Ha) as (d0 & Hd0 & ->). pose proof (Hnn a d0 Hd0).
      pose proof (Hroom a d0 Hd0) as Hr0. simpl in Hr0.
      rewrite xref_bump. unfold INT_MAX in *. repeat case_decide; lia.
Qed.

(** ** Operations on the invariant *)

Lemma retain_retained st a dd r : objs st !! a = Some dd -> data_object r = a ->
  <[a := bump 1 dd]> (objs st) = retained [r] (objs st).
Proof.
  intros Ha Hr. apply map_eq. intros b. rewrite lookup_retained, refs_to_cons.
  change (refs_to b []) with 0. rewrite Z.add_0_r. rewrite Hr. destruct (decide (a = b)) as [<-|Hne].
  - by rewrite lookup_insert_eq, Ha.
  - rewrite lookup_insert_ne by done. destruct (objs st !! b); simpl; by rewrite ?bump_0.
Qed.

Lemma extends_retained st rs : extends st (with_objs st (retained rs (objs st))).
Proof.
  constructor; [|done]. intros a dd Ha. simpl. rewrite lookup_retained, Ha. simpl.
  eexists. split; [done|]. apply same_shape_bump.
Qed.

Lemma core_retained h st rs : core h st ->
  (forall a dd, a <> dispatch_data_empty -> objs st !! a = Some dd -> xref dd + Z.of_nat (length rs) < INT_MAX) ->
  core (fun a => h a + refs_to a rs) (with_objs st (retained rs (objs st))).
Proof.
  intros H Hroom. pose proof (extends_retained st rs) as E.
  assert (forall a dd, objs (with_objs st (retained rs (objs st))) !! a = Some dd ->
    exists d0, objs st !! a = Some d0 /\ dd = bump (refs_to a rs) d0) as Hl.
  { intros a dd. simpl. rewrite lookup_retained. destruct (objs st !! a); simpl; [|done].
    intros [= <-]. eauto. }
  constructor.
  - simpl. rewrite lookup_retained, (i_empty _ _ H). done.
  - intros a dd Hn Ha. destruct (Hl a dd Ha) as (d0 & H0 & ->). by eapply obj_ok_ext.
  - intros a dd Hn Ha. destruct (Hl a dd Ha) as (d0 & H0 & ->). simpl. rewrite owners_retained.
    destruct (i_refs _ _ H a d0 Hn H0) as (Hr & Hx & Hp). pose proof (Hroom a d0 Hn H0).
    rewrite xref_bump. unfold _OS_OBJECT_GLOBAL_REFCNT. rewrite !decide_False by lia.
    pose proof (refs_to_nonneg a rs). simpl. split; [done|lia].
  - intros a b da db k Hab Ha Hb. destruct (Hl a da Ha) as (d0 & H0 & ->).
    destruct (Hl b db Hb) as (d1 & H1 & ->). apply (i_owned _ _ H a b d0 d1 k Hab H0 H1).
Qed.

(** Retaining one object hands out a reference to it. *)
Lemma retain_ok h st a : inv h st -> room st 1 -> is_Some (objs st !! a) ->
  exists st', _dispatch_data_retain a st = Done (tt, st') /\ inv (hadd h a 1) st' /\ extends st st' /\
    blocks st' = blocks st /\ dom (objs st') = dom (objs st).
Proof.
  intros H Hroom [dd Ha]. set (r := {| data_object := a; from := 0; len := 0 |}).
  assert (0 <= xref dd <= INT_MAX) as Hx.
  { destruct (decide (a = dispatch_data_empty)) as [->|Hn].
    - rewrite (i_empty _ _ H) in Ha. simplify_eq. done.
    - destruct (i_refs _ _ H a dd Hn Ha) as (_ & _ & ?). pose proof (Hroom a dd Hn Ha). lia. }
  rewrite (retain_eval st a dd Ha Hx), (retain_retained st a dd r Ha) by done.
  eexists. split; [reflexivity|]. split; [|split; [apply extends_retained|split; [done|]]].
  - constructor.
    + pose proof (core_retained h st [r] H Hroom) as Hc.
      destruct Hc as [C1 C2 C3 C4]. constructor; try done. intros b d Hn Hb.
      destruct (C3 b d Hn Hb) as (? & E & ?). split; [done|]. split; [|done]. rewrite E, refs_to_cons.
      unfold hadd. simpl. change (refs_to b []) with 0. repeat case_decide; subst; congruence || lia.
    + intros b. unfold hadd. simpl. rewrite lookup_retained.
      destruct (i_handles _ _ H b) as [Hb1 Hb2]. case_decide as E; (split; [lia|]); intros Hh.
      * subst b. rewrite Ha. by eexists.
      * apply Hb2 in Hh as [d Hd]. rewrite Hd. by eexists.
  - simpl. apply set_eq. intros b. rewrite !elem_of_dom, lookup_retained. by rewrite fmap_is_Some.
Qed.

(** Allocating the structure of a composite object and filling it. *)
Lemma alloc_composite_eval {B} (k : addr -> M B) st n sz rs : 0 <= n -> n * 24 + 80 < 2 ^ 64 ->
  let a := fresh (dom (objs st) ∪ {[dispatch_data_empty]}) in
  let dd := {| dd_refs := _os_object_alloc_realized; dd_targetq := default_queue; buf := None;
               destr := DESTRUCTOR_DEFAULT; size := sz; records := rs; inline_block := None |} in
  objs st !! a = None /\ a <> dispatch_data_empty /\
  (o ← _dispatch_data_alloc n 0; data ← deref o; _ ← set_composite data sz rs; k data) st =
    k a (with_objs st (<[a := dd]> (objs st))).
Proof.
  intros Hn Hov a dd. assert (a ∉ dom (objs st) ∪ {[dispatch_data_empty]}) as Hf by apply is_fresh.
  rewrite not_elem_of_union, not_elem_of_dom, not_elem_of_singleton in Hf. destruct Hf as [Hf1 Hf2].
  split; [done|]. split; [done|].
  unfold _dispatch_data_alloc, sizeof_dispatch_data_s, sizeof_range_record.
  rewrite decide_False, decide_False by lia. erewrite bind_run by reflexivity.
  erewrite bind_run by reflexivity. unfold set_composite, store.
  erewrite bind_run.
  2:{ erewrite bind_run by (apply load_run; simpl; apply lookup_insert_eq).
      erewrite bind_run by (apply load_run; simpl; apply lookup_insert_eq). reflexivity. }
  unfold with_objs. simpl. by rewrite insert_insert_eq.
Qed.

(** A new composite object over well-formed records. *)
Lemma core_new_composite h st a rs sz : core h st -> objs st !! a = None -> a <> dispatch_data_empty ->
  Forall (rec_ok st) rs -> rs <> [] -> sz = sum_len rs -> sz < 2 ^ 64 -> h a = 0 ->
  core (fun b => hadd h a 1 b - refs_to b rs)
    (with_objs st (<[a := {| dd_refs := _os_object_alloc_realized; dd_targetq := default_queue; buf := None;
      destr := DESTRUCTOR_DEFAULT; size := sz; records := rs; inline_block := None |}]> (objs st))).
Proof.
  intros H Ha Hn Hrs Hne Hsz Hlt Hh. set (dd := {| dd_refs := _ |}). set (st1 := with_objs st _).
  assert (extends st st1) as E.
  { constructor; [|done]. intros b d Hb. simpl. exists d. split; [|done].
    rewrite lookup_insert_ne by congruence. done. }
  assert (refs_to a rs = 0) as Hra.
  { apply refs_to_none. intros r Hr ?. rewrite Forall_forall in Hrs.
    destruct (ro_leaf _ _ (Hrs r Hr)) as (? & ? & _). congruence. }
  assert (owners (objs st) a = 0) as Hoa.
  { apply owners_none. intros b d r Hb Hr ?. destruct (decide (b = dispatch_data_empty)) as [->|Hbn].
    - rewrite (i_empty _ _ H) in Hb. simplify_eq. by apply elem_of_nil in Hr.
    - assert (records d <> []) as Hd by (intros E0; rewrite E0 in Hr; by apply elem_of_nil in Hr).
      destruct (inv_composite h st H b d Hb Hd) as [Hf _ _ _ _]. rewrite Forall_forall in Hf.
      destruct (ro_leaf _ _ (Hf r Hr)) as (? & ? & _). congruence. }
  assert (forall b, owners (objs st1) b = refs_to b rs + owners (objs st) b) as Ho
    by (intros b; by apply owners_insert_new).
  constructor.
  - simpl. rewrite lookup_insert_ne by done. apply H.
  - intros b d Hbn Hb. simpl in Hb. destruct (decide (b = a)) as [->|Hba].
    + rewrite lookup_insert_eq in Hb. simplify_eq. unfold obj_ok. simpl. rewrite decide_False by done.
      constructor; simpl; try done. eapply Forall_impl; [done|]. intros r Hr. by eapply rec_ok_ext.
    + rewrite lookup_insert_ne in Hb by done. by eapply obj_ok_ext.
  - intros b d Hbn Hb. rewrite Ho. simpl in Hb. unfold hadd. destruct (decide (b = a)) as [->|Hba].
    + rewrite lookup_insert_eq in Hb. simplify_eq. simpl. unfold xref. simpl. lia.
    + rewrite lookup_insert_ne in Hb by done. destruct (i_refs _ _ H b d Hbn Hb) as (? & ? & ?). lia.
  - intros b c db dc k Hbc Hb Hc. simpl in Hb, Hc. rewrite lookup_insert_Some in Hb, Hc.
    destruct Hb as [[<- <-]|[Hb1 Hb]], Hc as [[<- <-]|[Hc1 Hc]]; try done.
    + unfold owned. simpl. by case_decide.
    + unfold uses. simpl. intros _ [?|?]; done.
    + by apply (i_owned _ _ H b c db dc k).
Qed.

(** A new composite object over [rs], its leaves retained. *)
Record new_object (h : addr -> Z) (st : data_state) (bs : list Z) (a : addr) (st' : data_state) : Prop := {
  no_inv : inv (hadd h a 1) st';
  no_ext : extends st st';
  no_bytes : bytes st' a = bs;
}.

Lemma handles_fresh h st a : inv h st -> objs st !! a = None -> h a = 0.
Proof.
  intros H Ha. destruct (i_handles _ _ H a) as [H0 H1]. destruct (decide (h a = 0)); [done|].
  destruct H1 as [? ?]; [lia|]. congruence.
Qed.

Lemma core_ext h h' st : (forall a, h' a = h a) -> core h st -> core h' st.
Proof.
  intros E [C1 C2 C3 C4]. constructor; try done. intros a dd Hn Ha. rewrite E. by apply C3.
Qed.

(** The structure of a new composite object. *)
Definition composite (sz : Z) (rs : list range_record) : dispatch_data_s :=
  {| dd_refs := _os_object_alloc_realized; dd_targetq := default_queue; buf := None;
     destr := DESTRUCTOR_DEFAULT; size := sz; records := rs; inline_block := None |}.

Section new_composite.
Context (h : addr -> Z) (st : data_state) (H : inv h st) (a : addr) (Hfa : objs st !! a = None)
  (Hna : a <> dispatch_data_empty) (rs : list range_record) (sz : Z)
  (Hrs : Forall (rec_ok st) rs) (Hne : rs <> []) (Hsz : sz = sum_len rs) (Hlt : sz < 2 ^ 64)
  (Hroom : room st (Z.of_nat (length rs))).

Let st1 := with_objs st (<[a := composite sz rs]> (objs st)).

Lemma new_composite_room b d : b <> dispatch_data_empty -> objs st1 !! b = Some d ->
  0 <= xref d /\ xref d + Z.of_nat (length rs) < INT_MAX.
Proof.
  intros Hbn Hb'. simpl in Hb'. destruct (decide (b = a)) as [->|Hba].
  - rewrite lookup_insert_eq in Hb'. simplify_eq. unfold xref. simpl.
    destruct rs as [|r rs']; [done|]. apply Forall_cons in Hrs as [Hr _].
    destruct (rec_ok_leaf h st H r Hr) as (d & Hd & Hrn & _). pose proof (Hroom _ _ Hrn Hd).
    destruct (i_refs _ _ H _ _ Hrn Hd) as (_ & _ & ?). simpl in *. lia.
  - rewrite lookup_insert_ne in Hb' by done. destruct (i_refs _ _ H _ _ Hbn Hb') as (_ & _ & ?).
    split; [done|]. by apply (Hroom b).
Qed.

Lemma new_composite_core : core (fun b => hadd h a 1 b - refs_to b rs) st1.
Proof. apply core_new_composite; try done; [apply H|]. by apply (handles_fresh h st). Qed.

Lemma retain_new_composite : retain_records rs st1 = Done (tt, with_objs st (retained rs (objs st1))).
Proof.
  pose proof (i_empty _ _ new_composite_core) as He.
  rewrite retain_records_eval; [done|..].
  - eapply Forall_impl; [done|]. intros r [_ _ (d & Hd & _)]. simpl. apply lookup_insert_is_Some'. right. by eexists.
  - intros b d Hb'. destruct (decide (b = dispatch_data_empty)) as [->|Hbn]; [|by apply (new_composite_room b d)].
    rewrite He in Hb'. by simplify_eq.
  - intros b d Hb'. destruct (decide (b = dispatch_data_empty)) as [->|Hbn].
    + rewrite He in Hb'. simplify_eq. by left.
    + right. by apply (new_composite_room b d).
Qed.

Lemma new_composite_state : new_object h st (recs_bytes st rs) a (with_objs st (retained rs (objs st1))).
Proof.
  assert (extends st st1) as E1.
  { constructor; [|done]. intros b d Hb'. exists d. simpl. rewrite lookup_insert_ne by congruence. done. }
  pose proof (extends_retained st1 rs) as E2. constructor.
  - constructor.
    + eapply core_ext; [|apply (core_retained _ _ rs new_composite_core)]; [intros b; simpl; lia|].
      intros b d Hbn Hb'. by apply (new_composite_room b d).
    + intros b. unfold hadd. destruct (i_handles _ _ H b) as [Hb1 Hb2].
      assert (is_Some (objs st !! b) -> is_Some (objs (with_objs st (retained rs (objs st1))) !! b)) as Hs.
      { intros [d Hd]. destruct (ex_objs _ _ (extends_trans _ _ _ E1 E2) _ _ Hd) as (d' & Hd' & _). by eexists. }
      case_decide as E; [|by split; [|intros Hh; apply Hs, Hb2]]. subst b. split; [lia|]. intros _.
      simpl. rewrite lookup_retained, lookup_insert_eq. by eexists.
  - by eapply extends_trans.
  - unfold bytes. simpl. rewrite lookup_retained, lookup_insert_eq. simpl.
    assert (_dispatch_data_leaf (bump (refs_to a rs) (composite sz rs)) = false) as ->.
    { apply not_true_is_false. by rewrite leaf_iff. }
    simpl. eapply recs_bytes_ext; [apply H|by eapply extends_trans|done].
Qed.
End new_composite.

Lemma new_composite_ok h st n rs sz : inv h st -> Forall (rec_ok st) rs -> rs <> [] ->
  sz = sum_len rs -> sz < 2 ^ 64 -> n = Z.of_nat (length rs) -> n < 2 ^ 59 -> room st n ->
  exists a st', (o ← _dispatch_data_alloc n 0; data ← deref o; _ ← set_composite data sz rs;
                 _ ← retain_records rs; mret (Some data)) st = Done (Some a, st') /\
    new_object h st (recs_bytes st rs) a st'.
Proof.
  intros H Hrs Hne Hsz Hlt -> Hb Hroom.
  destruct (alloc_composite_eval (fun data => _ ← retain_records rs; mret (Some data)) st
    (Z.of_nat (length rs)) sz rs ltac:(lia) ltac:(lia)) as (Hfa & Hna & ->).
  eexists _, _. split; [|by apply (new_composite_state h st H _ Hfa Hna rs sz)].
  erewrite bind_run by (by apply (retain_new_composite h st H _ Hfa Hna rs sz)). done.
Qed.
