(* ===== verification/DataOps.v ===== *)
(** * Operations of dispatch data objects

    The functional behaviour of concatenation, subranges, mapping, iteration,
    region lookup and release of [src/data.c], over the invariant of
    [DataInv.v]: each operation yields an object with the bytes it promises,
    leaves the bytes of every other object unchanged and accounts for every
    reference it takes. *)

From S2P Require Import Prelude Object Data DataInv.

(** ** Concatenation *)

Lemma as_records_ok h st a dd : inv h st -> objs st !! a = Some dd -> size dd <> 0 ->
  Forall (rec_ok st) (as_records a dd) /\ as_records a dd <> [] /\ sum_len (as_records a dd) = size dd /\
  recs_bytes st (as_records a dd) = bytes st a /\
  Z.of_nat (length (as_records a dd)) = _dispatch_data_num_records dd.
Proof.
  intros H Ha Hs.
  assert (a <> dispatch_data_empty) as Hn
    by (intros ->; rewrite (i_empty _ _ H) in Ha; by simplify_eq).
  pose proof (size_pos h st H a dd Ha Hn) as Hpos. pose proof (length_bytes h st H a dd Ha) as Hlen.
  unfold as_records, _dispatch_data_num_records, num_records, bytes in *. rewrite Ha in *.
  destruct (_dispatch_data_leaf dd) eqn:E.
  - apply leaf_iff in E. rewrite E. split; [|split; [done|split; [simpl; lia|split; [|done]]]].
    + apply Forall_singleton. constructor; simpl; [lia|lia|]. exists dd. split; [done|]. split; [done|lia].
    + rewrite recs_bytes_cons, app_nil_r. unfold rec_bytes. simpl. rewrite Ha. by apply slice_all.
  - assert (records dd <> []) as Hr by (rewrite <- leaf_iff; congruence).
    destruct (inv_composite h st H a dd Ha Hr) as [Hrs [Hsz _] _ _ _].
    split; [done|]. split; [done|]. split; [done|]. split; [done|]. rewrite decide_True; [done|].
    destruct (records dd); simpl; [done|lia].
Qed.

(** What an operation that returns an object promises: the object has the bytes
    [bs], one more reference to it is held, nothing else changes its bytes. *)
Record returns (h : addr -> Z) (st : data_state) (bs : list Z) (r : outcome (option addr * data_state))
    : Prop := {
  rt_ok : exists a st', r = Done (Some a, st') /\ inv (hadd h a 1) st' /\ extends st st' /\ bytes st' a = bs;
}.

Lemma returns_new h st bs a st' : new_object h st bs a st' -> returns h st bs (Done (Some a, st')).
Proof. intros [? ? ?]. constructor. by exists a, st'. Qed.

Lemma returns_retain h st a : inv h st -> room st 1 -> is_Some (objs st !! a) ->
  returns h st (bytes st a) ((_ ← _dispatch_data_retain a; mret (Some a)) st).
Proof.
  intros H Hr Ha. destruct (retain_ok h st a H Hr Ha) as (st' & E & Hi & Hx & _).
  erewrite bind_run by done. constructor. exists a, st'. split; [done|]. split; [done|]. split; [done|].
  by eapply bytes_ext; [apply H|..].
Qed.

(** The empty object is immortal: handing it out needs no reference. *)
Lemma inv_hadd_empty h st n : inv h st -> 0 <= n -> inv (hadd h dispatch_data_empty n) st.
Proof.
  intros [C Hh] Hn. constructor.
  - destruct C as [C1 C2 C3 C4]. constructor; try done. intros a dd Ha. unfold hadd.
    rewrite decide_False by done. by apply C3.
  - intros a. unfold hadd. destruct (Hh a). case_decide; [|done]. subst. split; [lia|].
    intros _. rewrite (i_empty _ _ C). by eexists.
Qed.

Lemma returns_empty h st : inv h st -> returns h st [] (Done (Some dispatch_data_empty, st)).
Proof.
  intros H. constructor. exists dispatch_data_empty, st. split; [done|].
  split; [apply inv_hadd_empty; [done|lia]|]. split; [apply extends_refl|]. unfold bytes. by rewrite (i_empty _ _ H).
Qed.

(** A rope is small: its records can be counted and retained. *)
Definition fits (st : data_state) (n : Z) : Prop := n < 2 ^ 59 /\ room st n.

Lemma concat_ok h st a b da db : inv h st -> objs st !! a = Some da -> objs st !! b = Some db ->
  size da + size db < 2 ^ 64 ->
  fits st (_dispatch_data_num_records da + _dispatch_data_num_records db) ->
  returns h st (bytes st a ++ bytes st b) (dispatch_data_create_concat a b st).
Proof.
  intros H Ha Hb Hsz [Hn Hroom].
  assert (forall dd, 1 <= _dispatch_data_num_records dd) as Hnr.
  { intros dd. unfold _dispatch_data_num_records, num_records. case_decide; lia. }
  pose proof (Hnr da). pose proof (Hnr db).
  assert (room st 1) as Hr1 by (intros x dx Hx1 Hx2; pose proof (Hroom x dx Hx1 Hx2); lia).
  unfold dispatch_data_create_concat. erewrite bind_run by (by apply load_run).
  pose proof (length_bytes h st H a da Ha) as La. pose proof (length_bytes h st H b db Hb) as Lb.
  destruct (decide (size da = 0)) as [Ea|Ea].
  { assert (bytes st a = []) as -> by (apply nil_length_inv; lia). apply returns_retain; [done..|by eexists]. }
  erewrite bind_run by (by apply load_run). destruct (decide (size db = 0)) as [Eb|Eb].
  { assert (bytes st b = []) as -> by (apply nil_length_inv; lia). rewrite app_nil_r.
    apply returns_retain; [done..|by eexists]. }
  rewrite decide_False by lia.
  destruct (as_records_ok h st a da H Ha Ea) as (Fa & Na & Sa & Ba & Ca).
  destruct (as_records_ok h st b db H Hb Eb) as (Fb & Nb & Sb & Bb & Cb).
  rewrite wrap_small by lia.
  destruct (new_composite_ok h st (_dispatch_data_num_records da + _dispatch_data_num_records db)
    (as_records a da ++ as_records b db) (size da + size db)) as (r & st' & E & Hnew); try done.
  - by apply Forall_app.
  - destruct (as_records a da); done.
  - by rewrite sum_len_app, Sa, Sb.
  - rewrite length_app. lia.
  - rewrite E. apply returns_new. by rewrite recs_bytes_app, Ba, Bb in Hnew.
Qed.

(** ** Subranges *)

Lemma slice_app_r (l l' : list Z) o n : 0 <= o -> slice (l ++ l') (Z.of_nat (length l) + o) n = slice l' o n.
Proof.
  intros. unfold slice. f_equal. replace (Z.to_nat (Z.of_nat (length l) + o)) with (length l + Z.to_nat o)%nat by lia.
  by rewrite drop_app_add.
Qed.

Lemma slice_app_l (l l' : list Z) o n : 0 <= o -> 0 <= n -> o + n <= Z.of_nat (length l) -> slice (l ++ l') o n = slice l o n.
Proof.
  intros. unfold slice. rewrite drop_app_le by lia. rewrite take_app_le by (rewrite length_drop; lia). done.
Qed.

Lemma slice_to_end (l : list Z) o n : 0 <= o -> Z.of_nat (length l) <= o + n -> slice l o n = drop (Z.to_nat o) l.
Proof. intros. unfold slice. rewrite take_ge; [done|]. rewrite length_drop. lia. Qed.

Section subrange.
Context (h : addr -> Z) (st : data_state) (H : inv h st).

Lemma sum_len_nonneg rs : Forall (rec_ok st) rs -> 0 <= sum_len rs.
Proof. intros Hrs. rewrite <- (length_recs_bytes h st H rs Hrs). lia. Qed.

Lemma skip_records_ok rs : forall offset, Forall (rec_ok st) rs -> 0 <= offset < sum_len rs ->
  exists pre r0 rest off', skip_records rs offset = (r0 :: rest, off') /\ rs = pre ++ r0 :: rest /\
    0 <= off' < len r0 /\ offset = sum_len pre + off'.
Proof.
  induction rs as [|r rs IH]; intros offset Hrs Ho; simpl in *; [lia|].
  apply Forall_cons in Hrs as [Hr Hrs]. pose proof (ro_len _ _ Hr). destruct (decide (offset >= len r)).
  - destruct (IH (offset - len r) Hrs ltac:(lia)) as (pre & r0 & rest & off' & E & Ers & Hoff & Hsum).
    exists (r :: pre), r0, rest, off'. split; [done|]. split; [by rewrite Ers|]. split; [done|]. simpl. lia.
  - exists [], r, rs, offset. split; [done|]. split; [done|]. split; [lia|done].
Qed.

Lemma count_records_ok rs : forall c last, Forall (rec_ok st) rs -> 0 < last <= sum_len rs ->
  exists init rl post last', rs = init ++ rl :: post /\
    count_records rs c last = Done ((c + S (length init))%nat, last') /\
    last = sum_len init + last' /\ 0 < last' <= len rl.
Proof.
  induction rs as [|r rs IH]; intros c last Hrs Hl; simpl in *; [lia|].
  apply Forall_cons in Hrs as [Hr Hrs]. pose proof (ro_len _ _ Hr). destruct (decide (last <= len r)).
  - exists [], r, rs, last. split; [done|]. split; [do 2 f_equal; simpl; lia|]. simpl. lia.
  - destruct rs as [|r' rs]; [simpl in Hl; lia|].
    destruct (IH (S c) (last - len r) Hrs ltac:(simpl; simpl in Hl; lia)) as (init & rl & post & l' & E & Ec & Es & El).
    exists (r :: init), rl, post, l'. split; [by rewrite E|]. split; [rewrite Ec; do 2 f_equal; simpl; lia|].
    simpl. lia.
Qed.

Lemma trim_first_ok r rs off : Forall (rec_ok st) (r :: rs) -> 0 <= off < len r ->
  Forall (rec_ok st) (trim_first (r :: rs) off) /\ sum_len (trim_first (r :: rs) off) = sum_len (r :: rs) - off /\
  recs_bytes st (trim_first (r :: rs) off) = drop (Z.to_nat off) (recs_bytes st (r :: rs)) /\
  length (trim_first (r :: rs) off) = length (r :: rs) /\
  exists r', trim_first (r :: rs) off = r' :: rs.
Proof.
  intros Hrs Ho. apply Forall_cons in Hrs as [Hr Hrs]. simpl. destruct (decide (off <> 0)) as [Hz|Hz].
  - split; [|split; [simpl; lia|split; [|split; [done|by eexists]]]].
    + constructor; [|done]. destruct Hr as [Hf Hl (dd & Hd & Hd2 & Hd3)]. constructor; simpl; [lia|lia|].
      exists dd. split; [done|]. split; [done|lia].
    + rewrite !recs_bytes_cons. pose proof (length_rec_bytes h st H r Hr).
      rewrite drop_app_le by lia. f_equal.
      destruct (rec_ok_leaf h st H r Hr) as (dd & Hd & _ & _ & _ & ? & ? & ? & ->).
      unfold rec_bytes. simpl. rewrite Hd. unfold slice.
      rewrite skipn_firstn_comm, drop_drop. f_equal; [lia|]. f_equal. lia.
  - assert (off = 0) as -> by lia. rewrite drop_0. split; [by constructor|]. split; [simpl; lia|].
    split; [done|]. split; [done|by eexists].
Qed.

Lemma set_last_len_app init r l : set_last_len (init ++ [r]) l =
  init ++ [{| data_object := data_object r; from := from r; len := l |}].
Proof. induction init as [|x init IH]; [done|]. simpl. rewrite IH. destruct init; done. Qed.

Lemma set_last_len_ok init r l : Forall (rec_ok st) (init ++ [r]) -> 0 < l <= len r ->
  Forall (rec_ok st) (set_last_len (init ++ [r]) l) /\ sum_len (set_last_len (init ++ [r]) l) = sum_len init + l /\
  recs_bytes st (set_last_len (init ++ [r]) l) = take (Z.to_nat (sum_len init + l)) (recs_bytes st (init ++ [r])).
Proof.
  intros Hrs Hl. rewrite set_last_len_app. apply Forall_app in Hrs as [Hi Hr]. rewrite Forall_singleton in Hr.
  pose proof (length_recs_bytes h st H init Hi) as Li. pose proof (sum_len_nonneg init Hi).
  split; [|split; [rewrite sum_len_app; simpl; lia|]].
  - apply Forall_app. split; [done|]. apply Forall_singleton. destruct Hr as [Hf Hl' (dd & Hd & Hd2 & Hd3)].
    constructor; simpl; [lia|lia|]. exists dd. split; [done|]. split; [done|lia].
  - rewrite !recs_bytes_app. rewrite take_app_ge by lia. f_equal. rewrite !recs_bytes_cons, !app_nil_r.
    destruct (rec_ok_leaf h st H r Hr) as (dd & Hd & _ & _ & _ & ? & ? & ? & ->).
    unfold rec_bytes. simpl. rewrite Hd. unfold slice. rewrite take_take. f_equal. lia.
Qed.

Lemma subrange_leaf n a dd off l : objs st !! a = Some dd -> records dd = [] -> 0 <= off < size dd -> 0 < l ->
  fits st 1 ->
  returns h st (slice (bytes st a) off l) (subrange_depth (S n) a off l st).
Proof.
  intros Ha Hr Ho Hl [_ Hroom]. pose proof (length_bytes h st H a dd Ha) as La.
  assert (a <> dispatch_data_empty) as Hn.
  { intros ->. rewrite (i_empty _ _ H) in Ha. simplify_eq. simpl in Ho. lia. }
  pose proof (size_pos h st H a dd Ha Hn) as Hpos.
  cbn [subrange_depth]. erewrite bind_run by (by apply load_run). rewrite decide_False by lia.
  destruct (decide (l <= size dd - off /\ l = size dd)) as [[E1 E]|E].
  - assert (off = 0) as -> by lia. rewrite slice_all by (rewrite La; lia). apply returns_retain; [done..|by eexists].
  - set (l0 := if decide (l > size dd - off) then size dd - off else l).
    assert (slice (bytes st a) off l = slice (bytes st a) off l0) as ->.
    { unfold l0. destruct (decide (l > size dd - off)); [|done]. rewrite !slice_to_end by lia. done. }
    assert (0 < l0 /\ off + l0 <= size dd) as [Hl0 Hs0] by (unfold l0; case_decide; lia).
    clearbody l0. clear l Hl E. rename l0 into l. rewrite (proj2 (leaf_iff dd) Hr).
    set (r := {| data_object := a; from := off; len := l |}).
    assert (rec_ok st r) as Hrec by (constructor; simpl; [lia|lia|]; exists dd; split; [done|split; [done|lia]]).
    destruct (new_composite_ok h st 1 [r] l) as (x & st' & Heq & Hnew); try done.
    + by apply Forall_singleton.
    + simpl. lia.
    + lia.
    + rewrite recs_bytes_cons, app_nil_r in Hnew. unfold rec_bytes in Hnew. simpl in Hnew. rewrite Ha in Hnew.
      assert (bytes st a = leaf_bytes (blocks st) dd) as Eb
        by (unfold bytes; by rewrite Ha, (proj2 (leaf_iff dd) Hr)).
      rewrite <- Eb in Hnew. apply returns_new in Hnew. rewrite <- Heq in Hnew.
      revert Hnew. unfold retain_records, mbind, M_bind, mret, M_ret. intros [R]. constructor.
      destruct R as (x' & st'' & E' & R). exists x', st''. split; [|done]. rewrite <- E'. clear.
      destruct (_dispatch_data_alloc 1 0 st) as [[o s]|]; [|done]. destruct (deref o s) as [[d s']|]; [|done].
      destruct (set_composite d l [r] s') as [[u s'']|]; [|done].
      change (data_object r) with a. by destruct (_dispatch_data_retain a s'') as [[[] s3]|].
Qed.

(** The records of a range that spans several records of a rope. *)
Lemma range_records_ok r0 rest off l : Forall (rec_ok st) (r0 :: rest) -> 0 <= off < len r0 ->
  len r0 < off + l -> off + l <= sum_len (r0 :: rest) ->
  exists count rs, (count <= length (r0 :: rest))%nat /\ length rs = count /\ rs <> [] /\
    (match (if bool_decide (off + l = sum_len (r0 :: rest)) then Done (length (r0 :: rest), 0)
            else count_records rest 1 (l - (len r0 - off))) with
     | Crash _ => None
     | Done (count, last_length) =>
         let rs := trim_first (take count (r0 :: rest)) off in
         Some (count, if bool_decide (off + l = sum_len (r0 :: rest)) then rs else set_last_len rs last_length)
     end) = Some (count, rs) /\
    Forall (rec_ok st) rs /\ sum_len rs = l /\ recs_bytes st rs = slice (recs_bytes st (r0 :: rest)) off l.
Proof.
  intros Hrs Ho Hl Hs. destruct (trim_first_ok r0 rest off Hrs Ho) as (Tf & Ts & Tb & Tl & r' & Er').
  pose proof (length_recs_bytes h st H _ Hrs) as Lb. case_bool_decide as E.
  - exists (length (r0 :: rest)), (trim_first (r0 :: rest) off). rewrite firstn_all. repeat split; try done.
    + rewrite Er'. done.
    + lia.
    + rewrite Tb. symmetry. apply slice_to_end; lia.
  - simpl in Hs, E. apply Forall_cons in Hrs as [Hr Hrest].
    destruct (count_records_ok rest 1 (l - (len r0 - off)) Hrest ltac:(lia))
      as (init & rl & post & l' & Erest & -> & Esum & El).
    rewrite Erest in Hrest |- *. rewrite cons_middle, (assoc app) in Hrest. apply Forall_app in Hrest as [Hir Hpost].
    replace (1 + S (length init))%nat with (length (r0 :: init ++ [rl])) by (simpl; rewrite length_app; simpl; lia).
    assert (take (length (r0 :: init ++ [rl])) (r0 :: init ++ rl :: post) = r0 :: init ++ [rl]) as Et.
    { rewrite (cons_middle rl init post), (assoc app).
      change (r0 :: (init ++ [rl]) ++ post) with ((r0 :: init ++ [rl]) ++ post). apply take_app_length. }
    cbv zeta. rewrite Et.
    destruct (trim_first_ok r0 (init ++ [rl]) off) as (Uf & Us & Ub & Ul & r'' & Er''); [by constructor|done|].
    rewrite Er'' in *. change (r'' :: init ++ [rl]) with ((r'' :: init) ++ [rl]) in *.
    destruct (set_last_len_ok (r'' :: init) rl l' Uf El) as (Vf & Vs & Vb).
    exists (length (r0 :: init ++ [rl])), (set_last_len ((r'' :: init) ++ [rl]) l').
    assert (sum_len (r'' :: init) = len r0 - off + sum_len init) as Esi.
    { simpl in Us |- *. rewrite !sum_len_app in Us. simpl in Us. lia. }
    split; [simpl; rewrite !length_app; simpl; lia|].
    split; [rewrite set_last_len_app; simpl; rewrite !length_app; simpl; lia|].
    split; [rewrite set_last_len_app; done|]. split; [done|]. split; [done|]. split; [lia|].
    rewrite Vb, Ub. rewrite (cons_middle rl init post), (assoc app).
    change (r0 :: (init ++ [rl]) ++ post) with ((r0 :: init ++ [rl]) ++ post). rewrite recs_bytes_app.
    pose proof (length_recs_bytes h st H (r0 :: init ++ [rl]) ltac:(by constructor)) as Lc.
    rewrite slice_app_l; [|lia|lia|].
    + unfold slice. f_equal. lia.
    + rewrite Lc. simpl. rewrite sum_len_app. simpl. lia.
Qed.

Lemma subrange_ok a dd off l : objs st !! a = Some dd -> 0 <= off -> 0 <= l ->
  fits st (_dispatch_data_num_records dd) ->
  returns h st (slice (bytes st a) off l) (dispatch_data_create_subrange a off l st).
Proof.
  intros Ha Ho Hl [Hn Hroom]. pose proof (length_bytes h st H a dd Ha) as La.
  assert (1 <= _dispatch_data_num_records dd) as Hnr
    by (unfold _dispatch_data_num_records, num_records; case_decide; lia).
  assert (fits st 1) as Hfit by (split; [lia|]; intros x dx Hx1 Hx2; pose proof (Hroom x dx Hx1 Hx2); lia).
  unfold dispatch_data_create_subrange.
  destruct (decide (off >= size dd \/ l = 0)) as [E|E].
  { cbn [subrange_depth]. erewrite bind_run by (by apply load_run). rewrite decide_True by done.
    assert (slice (bytes st a) off l = []) as ->; [|by apply returns_empty].
    unfold slice. destruct E; [rewrite drop_ge by lia; by rewrite take_nil|subst l; done]. }
  destruct (decide (records dd = [])) as [Hr|Hr]; [apply (subrange_leaf 1 a dd); try done; lia|].
  destruct (inv_composite h st H a dd Ha Hr) as [Hrs [Hsz Hlt] _ _ _].
  assert (bytes st a = recs_bytes st (records dd)) as Eb.
  { unfold bytes. rewrite Ha. destruct (_dispatch_data_leaf dd) eqn:El; [|done]. by apply leaf_iff in El. }
  cbn [subrange_depth]. erewrite bind_run by (by apply load_run). rewrite decide_False by lia.
  destruct (decide (l <= size dd - off /\ l = size dd)) as [[E1 E']|E'].
  { assert (off = 0) as -> by lia. rewrite slice_all by lia. apply returns_retain; [done|apply Hfit|by eexists]. }
  set (l0 := if decide (l > size dd - off) then size dd - off else l).
  assert (slice (bytes st a) off l = slice (bytes st a) off l0) as ->.
  { unfold l0. destruct (decide (l > size dd - off)); [|done]. rewrite !slice_to_end by lia. done. }
  assert (0 < l0 /\ off + l0 <= size dd) as [Hl0 Hs0] by (unfold l0; case_decide; lia).
  clearbody l0. clear l Hl E E'. rename l0 into l.
  assert (_dispatch_data_leaf dd = false) as -> by (apply not_true_is_false; by rewrite leaf_iff).
  destruct (skip_records_ok (records dd) off Hrs ltac:(lia)) as (pre & r0 & rest & off' & -> & Ers & Hoff & Hsum).
  rewrite Ers in Hrs. apply Forall_app in Hrs as [Hpre Hrs].
  pose proof (length_recs_bytes h st H pre Hpre) as Lp.
  assert (slice (bytes st a) off l = slice (recs_bytes st (r0 :: rest)) off' l) as ->.
  { rewrite Eb, Ers, recs_bytes_app, Hsum, <- Lp. apply slice_app_r. lia. }
  assert (size dd = sum_len pre + sum_len (r0 :: rest)) as Hsz' by (by rewrite Hsz, Ers, sum_len_app).
  pose proof (Forall_inv Hrs) as Hr0. destruct (decide (off' + l <= len r0)) as [Hin|Hout].
  - destruct (rec_ok_leaf h st H r0 Hr0) as (d0 & Hd0 & _ & Hd0r & _ & ? & ? & ? & Hb0).
    pose proof (length_rec_bytes h st H r0 Hr0) as L0.
    rewrite recs_bytes_cons, slice_app_l by lia. rewrite Hb0.
    assert (leaf_bytes (blocks st) d0 = bytes st (data_object r0)) as ->
      by (unfold bytes; by rewrite Hd0, (proj2 (leaf_iff d0) Hd0r)).
    rewrite slice_slice by lia. apply (subrange_leaf 0 _ d0); try done; lia.
  - destruct (range_records_ok r0 rest off' l Hrs Hoff ltac:(lia) ltac:(lia))
      as (count & rs & Hcount & Hlen & Hne & Hm & Hf & Hs & Hb).
    assert (bool_decide (off + l = size dd) = bool_decide (off' + l = sum_len (r0 :: rest))) as ->
      by (apply bool_decide_ext; lia).
    destruct (if bool_decide _ then _ else _) as [[c ll]|] eqn:Ec in Hm |- *; [|done].
    cbv zeta in Hm. apply (inj Some), pair_eq in Hm as [-> Hrs']. rewrite Hrs'.
    assert (Z.of_nat count <= _dispatch_data_num_records dd) as Hcn.
    { unfold _dispatch_data_num_records, num_records. rewrite Ers, length_app. rewrite decide_True; [lia|].
      simpl. lia. }
    destruct (new_composite_ok h st (Z.of_nat count) rs l) as (x & st' & -> & Hnew); try done; try lia.
    + intros y dy Hy1 Hy2. pose proof (Hroom y dy Hy1 Hy2). lia.
    + apply returns_new. by rewrite Hb in Hnew.
Qed.
End subrange.

(** ** Direct mapping and regions *)

Section direct.
Context (h : addr -> Z) (st : data_state) (H : inv h st).

Lemma leaf_peek dd p off n : leaf_ok st dd -> buf dd = Some p -> 0 <= off -> 0 <= n -> off + n <= size dd ->
  peek (blocks st) (ptr_add p off) n = Some (slice (leaf_bytes (blocks st) dd) off n).
Proof.
  intros [(p' & b & Hp & Hb & H1 & H2 & _) _ _] Hp' Ho Hn Hs. rewrite Hp' in Hp. simplify_eq.
  unfold leaf_bytes, peek. rewrite Hp'. simpl. rewrite Hb. simpl. rewrite !decide_True by lia. simpl.
  f_equal. unfold slice. rewrite skipn_firstn_comm, take_take, drop_drop. f_equal; [lia|]. f_equal. lia.
Qed.

Lemma map_direct_leaf a dd off : objs st !! a = Some dd -> records dd = [] -> size dd <> 0 ->
  exists p, buf dd = Some p /\ leaf_ok st dd /\
    _dispatch_data_map_direct a off st = Done (Some (ptr_add p off), a, off, st).
Proof.
  intros Ha Hr Hs. pose proof (length_bytes h st H a dd Ha).
  pose proof (inv_leaf h st H a dd Ha ltac:(lia) Hr) as Hl.
  destruct (lf_buf _ _ Hl) as (p & b & Hp & _). exists p. split; [done|]. split; [done|].
  unfold _dispatch_data_map_direct. erewrite bind_run by (by apply load_run).
  rewrite decide_False by done. rewrite (proj2 (leaf_iff dd) Hr). cbn [negb andb].
  erewrite bind_run by reflexivity. cbv beta iota. erewrite bind_run by (by apply load_run). by rewrite Hp.
Qed.

(** The pointer of a direct mapping points to the object's bytes; there is none
    only for a rope of several records that has not been flattened. *)
Lemma map_direct_0 a dd : objs st !! a = Some dd -> size dd <> 0 ->
  exists o a' off, _dispatch_data_map_direct a 0 st = Done (o, a', off, st) /\
    match o with
    | Some p => peek (blocks st) p (size dd) = Some (bytes st a)
    | None => a' = a /\ off = 0 /\ buf dd = None /\ records dd <> [] /\ length (records dd) <> 1%nat
    end.
Proof.
  intros Ha Hs. pose proof (length_bytes h st H a dd Ha) as Lb.
  destruct (records dd) as [|r [|r' rs]] eqn:Er.
  - destruct (map_direct_leaf a dd 0 Ha Er Hs) as (p & Hp & Hl & ->). eexists _, _, _. split; [done|]. cbv iota beta.
    rewrite (leaf_peek dd p 0 (size dd)) by (done || lia). f_equal.
    assert (bytes st a = leaf_bytes (blocks st) dd) as -> by (unfold bytes; by rewrite Ha, (proj2 (leaf_iff dd) Er)).
    apply slice_all. by rewrite length_leaf_bytes.
  - assert (records dd <> []) as Hr by (by rewrite Er).
    destruct (inv_composite h st H a dd Ha Hr) as [Hrs [Hsz _] _ _ _]. rewrite Er in *.
    rewrite Forall_singleton in Hrs. destruct (rec_ok_leaf h st H r Hrs) as (d0 & Hd0 & Hd0n & Hd0r & Hl & ? & ? & ? & Hb).
    destruct (lf_buf _ _ Hl) as (p & b & Hp & _). pose proof (lf_size _ _ Hl).
    eexists _, _, _. split.
    + unfold _dispatch_data_map_direct. erewrite bind_run by (by apply load_run).
      rewrite decide_False by done. unfold _dispatch_data_leaf, _dispatch_data_num_records, num_records.
      rewrite Er. simpl. erewrite bind_run by reflexivity. cbv beta iota. rewrite wrap_small, Z.add_0_l by lia.
      erewrite bind_run by (by apply load_run). rewrite Hp. reflexivity.
    + cbv iota beta. rewrite (leaf_peek d0 p (from r) (size dd)) by (done || simpl in Hsz; lia). f_equal.
      unfold bytes. rewrite Ha. destruct (_dispatch_data_leaf dd) eqn:El; [apply leaf_iff in El; congruence|].
      rewrite Er, recs_bytes_cons, app_nil_r, Hb. f_equal. simpl in Hsz. lia.
  - assert (records dd <> []) as Hr by (by rewrite Er).
    destruct (inv_composite h st H a dd Ha Hr) as [Hrs [Hsz _] _ Hflat _].
    exists ((fun p => ptr_add p 0) <$> buf dd), a, 0. split.
    + unfold _dispatch_data_map_direct. erewrite bind_run by (by apply load_run).
      rewrite decide_False by done.
      assert (bool_decide (_dispatch_data_num_records dd = 1) = false) as ->.
      { apply bool_decide_eq_false. unfold _dispatch_data_num_records, num_records. rewrite Er. simpl length.
        case_decide; lia. }
      rewrite andb_false_r.
      erewrite bind_run by reflexivity. cbv beta iota. erewrite bind_run by (by apply load_run). by destruct (buf dd).
    + destruct (buf dd) as [p|] eqn:Eb; [|done]. simpl.
      destruct (Hflat p eq_refl) as [Hp0 Hpb]. unfold peek. simpl. rewrite Hpb. simpl.
      assert (bytes st a = recs_bytes st (records dd)) as Ebs.
      { unfold bytes. rewrite Ha. destruct (_dispatch_data_leaf dd) eqn:El; [apply leaf_iff in El; congruence|done]. }
      rewrite <- Ebs. rewrite decide_True by lia. f_equal. rewrite Hp0. change (Z.to_nat (0 + 0)) with 0%nat. rewrite drop_0, take_ge; [done|lia].
Qed.

Lemma find_region_ok rs : forall loc off, Forall (rec_ok st) rs -> off <= loc < off + sum_len rs ->
  exists pre r post, rs = pre ++ r :: post /\
    find_region rs 0 loc off = Some (data_object r, from r, len r, loc - (off + sum_len pre), off + sum_len pre) /\
    off + sum_len pre <= loc < off + sum_len pre + len r.
Proof.
  induction rs as [|r rs IH]; intros loc off Hrs Hl; simpl in *; [lia|].
  apply Forall_cons in Hrs as [Hr Hrs]. pose proof (ro_len _ _ Hr). rewrite decide_False by lia.
  rewrite Z.sub_0_r. destruct (decide (loc >= off + len r)).
  - destruct (IH loc (off + len r) Hrs ltac:(lia)) as (pre & r0 & post & E & Ef & El).
    exists (r :: pre), r0, post. split; [by rewrite E|]. simpl. rewrite Z.add_assoc. done.
  - exists [], r, rs. split; [done|]. simpl. rewrite Z.add_0_r. split; [done|lia].
Qed.

(** The region of a record: the leaf itself or a trivial subrange of it. *)
Lemma copy_region_leaf n r acc loc : rec_ok st r -> room st 1 ->
  exists x st', copy_region_depth (S n) (data_object r) (from r) (len r) loc acc st = Done (Some x, acc, st') /\
    inv (hadd h x 1) st' /\ extends st st' /\ bytes st' x = rec_bytes st r.
Proof.
  intros Hr Hroom. destruct (rec_ok_leaf h st H r Hr) as (dd & Hd & Hn & Hdr & Hl & ? & ? & ? & Hb).
  pose proof (lf_size _ _ Hl). set (a := data_object r) in *.
  assert (bytes st a = leaf_bytes (blocks st) dd) as Ea by (unfold bytes; by rewrite Hd, (proj2 (leaf_iff dd) Hdr)).
  pose proof (length_leaf_bytes st dd Hl) as Ll.
  assert (from r = 0 /\ len r = size dd -> rec_bytes st r = bytes st a) as Hwhole.
  { intros [E1 E2]. rewrite Hb, Ea, E1, E2. by apply slice_all. }
  cbn [copy_region_depth]. erewrite bind_run by (by apply load_run).
  destruct (map_direct_leaf a dd (from r) Hd Hdr ltac:(lia)) as (p & Hp & _ & Hmd).
  erewrite bind_run by done. simpl.
  destruct (retain_ok h st a H Hroom ltac:(by eexists)) as (st1 & Hret & Hi1 & He1 & Hb1 & Hdom).
  case_bool_decide as E.
  - erewrite bind_run by done. eexists _, _. split; [reflexivity|]. split; [done|]. split; [done|].
    rewrite Hwhole by done. by eapply bytes_ext; [apply H| |eexists].
  - erewrite bind_run by done. destruct (ex_objs _ _ He1 _ _ Hd) as (dd' & Hd' & Hsz' & _).
    erewrite bind_run by (by apply load_run). rewrite Hsz', decide_False by done.
    destruct (i_refs _ _ H _ _ Hn Hd) as (_ & _ & Hx). pose proof (Hroom _ _ Hn Hd).
    rewrite (retain_eval st a dd Hd ltac:(lia)) in Hret. injection Hret as <-.
    set (r' := {| data_object := a; from := from r; len := len r |}).
    assert (rec_ok st r') as Hr' by (destruct Hr; by constructor).
    destruct (alloc_composite_eval (fun data => mret (Some data, acc)) (with_objs st (<[a:=bump 1 dd]> (objs st))) 1
      (len r) [r'] ltac:(lia) ltac:(lia)) as (Hfa & Hna & Heq).
    set (x := fresh _) in *. simpl in Hfa. apply lookup_insert_None in Hfa as [Hfa Hax].
    pose proof (new_composite_state h st H x Hfa Hna [r'] (len r) ltac:(by apply Forall_singleton) ltac:(done)
      ltac:(simpl; lia) ltac:(lia) Hroom) as [Ni Nx Nb].
    eexists x, _. split; [exact Heq|]. rewrite recs_bytes_cons, app_nil_r in Nb.
    assert (with_objs st (retained [r'] (<[x:=composite (len r) [r']]> (objs st))) =
      with_objs st (<[x:=composite (len r) [r']]> (<[a:=bump 1 dd]> (objs st)))) as Est.
    { f_equal. rewrite (retain_retained st a dd r' Hd) by done. apply map_eq. intros b.
      rewrite lookup_retained. destruct (decide (b = x)) as [->|Hbx].
      - rewrite !lookup_insert_eq. simpl. rewrite refs_to_none; [by rewrite bump_0|].
        intros r0 Hr0 E0. apply list_elem_of_singleton in Hr0 as ->. done.
      - rewrite !lookup_insert_ne by done. by rewrite lookup_retained. }
    simpl in Ni, Nx, Nb. rewrite Est in Ni, Nx, Nb. split; [exact Ni|]. split; [exact Nx|].
    unfold rec_bytes in Nb. done.
Qed.

Lemma copy_region_ok a dd loc : objs st !! a = Some dd -> 0 <= loc < size dd -> room st 1 ->
  exists x off st', dispatch_data_copy_region a loc st = Done (Some x, off, st') /\
    inv (hadd h x 1) st' /\ extends st st' /\
    0 <= off <= loc /\ loc < off + Z.of_nat (length (bytes st' x)) /\
    bytes st' x = slice (bytes st a) off (Z.of_nat (length (bytes st' x))).
Proof.
  intros Ha Hloc Hroom. pose proof (length_bytes h st H a dd Ha) as Lb.
  unfold dispatch_data_copy_region. erewrite bind_run by (by apply load_run). rewrite decide_False by lia.
  remember 1%nat as m eqn:Hm. cbn [copy_region_depth]. erewrite bind_run by (by apply load_run).
  rewrite bool_decide_eq_true_2 by done.
  destruct (map_direct_0 a dd Ha ltac:(lia)) as (o & a' & off & Hmd & Ho).
  erewrite bind_run by done. simpl. destruct o as [p|].
  - destruct (retain_ok h st a H Hroom ltac:(by eexists)) as (st1 & Hret & Hi1 & He1 & _).
    erewrite bind_run by done. eexists _, _, _. split; [reflexivity|]. split; [done|]. split; [done|].
    assert (bytes st1 a = bytes st a) as -> by (by eapply bytes_ext; [apply H| |eexists]).
    split; [lia|]. split; [lia|]. symmetry. by apply slice_all.
  - destruct Ho as (-> & -> & _ & Hr & _). erewrite bind_run by (by apply load_run).
    destruct (inv_composite h st H a dd Ha Hr) as [Hrs [Hsz Hlt] _ _ _].
    destruct (find_region_ok (records dd) loc 0 Hrs ltac:(lia)) as (pre & r & post & Ers & -> & Hoff).
    rewrite Ers in Hrs. apply Forall_app in Hrs as [Hpre Hrp]. apply Forall_cons in Hrp as [Hrr Hpost].
    pose proof (length_recs_bytes h st H pre Hpre) as Lp. pose proof (length_rec_bytes h st H r Hrr) as Lr.
    rewrite !Z.add_0_l in *. rewrite wrap_small by lia.
    rewrite Hm. destruct (copy_region_leaf 0 r (sum_len pre) (loc - sum_len pre) Hrr Hroom) as (x & st' & -> & Hi & Hx & Hb).
    eexists _, _, _. split; [reflexivity|]. split; [done|]. split; [done|]. rewrite Hb, Lr.
    split; [lia|]. split; [lia|].
    assert (bytes st a = recs_bytes st (records dd)) as ->.
    { unfold bytes. rewrite Ha. destruct (_dispatch_data_leaf dd) eqn:El; [apply leaf_iff in El; congruence|done]. }
    rewrite Ers, recs_bytes_app, recs_bytes_cons. rewrite <- Lp.
    rewrite <- (Z.add_0_r (Z.of_nat (length (recs_bytes st pre)))), slice_app_r by lia.
    rewrite slice_app_l by lia. by rewrite slice_all.
Qed.
End direct.

(** ** Iteration *)

(** A region handed to an applier: object, offset, pointer, size. *)
Definition region : Type := addr * Z * ptr * Z.

Section run.
Context {A : Type} (applier : A -> addr -> Z -> ptr -> Z -> M (A * bool)).

(** Calling the applier on regions in order until it returns false. *)
Fixpoint run_regions (ctxt : A) (l : list region) : M (A * bool) :=
  match l with
  | [] => mret (ctxt, true)
  | (x, o, p, n) :: l =>
      res ← applier ctxt x o p n;
      if (res : A * bool).2 then run_regions res.1 l else mret (res.1, false)
  end.
End run.

(** The regions of the records of a rope. *)
Fixpoint record_regions (m : gmap addr dispatch_data_s) (rs : list range_record) (off : Z) : list region :=
  match rs with
  | [] => []
  | r :: rs =>
      (match m !! data_object r ≫= buf with
       | Some p => [(data_object r, off, ptr_add (ptr_add p 0) (from r), len r)]
       | None => []
       end) ++ record_regions m rs (off + len r)
  end.

(** [l] cuts [bs] into consecutive pieces, the first at [off]. *)
Fixpoint tiles (bl : gmap nat (list Z)) (l : list region) (off : Z) (bs : list Z) : Prop :=
  match l with
  | [] => bs = []
  | (x, o, p, n) :: l =>
      o = off /\ 0 < n /\ exists b bs', peek bl p n = Some b /\ bs = b ++ bs' /\ tiles bl l (off + n) bs'
  end.

Section apply.
Context (h : addr -> Z) (st : data_state) (H : inv h st).

Lemma ptr_add_0 p : ptr_add p 0 = p.
Proof. destruct p. unfold ptr_add. simpl. by rewrite Z.add_0_r. Qed.

Lemma record_regions_tile rs : forall off, Forall (rec_ok st) rs ->
  tiles (blocks st) (record_regions (objs st) rs off) off (recs_bytes st rs).
Proof.
  induction rs as [|r rs IH]; intros off Hrs; [done|]. apply Forall_cons in Hrs as [Hr Hrs].
  destruct (rec_ok_leaf h st H r Hr) as (d & Hd & _ & _ & Hl & ? & ? & ? & Hb).
  destruct (lf_buf _ _ Hl) as (p & b & Hp & _). cbn [record_regions]. rewrite Hd. simpl. rewrite Hp. simpl.
  split; [done|]. split; [done|]. rewrite ptr_add_0, (leaf_peek st d p (from r) (len r)) by (done || lia).
  rewrite <- Hb. eexists _, _. split; [done|]. split; [apply recs_bytes_cons|]. by apply IH.
Qed.

Context {A : Type} (applier : A -> addr -> Z -> ptr -> Z -> M (A * bool))
  (Hpure : forall c x o p n s r s', applier c x o p n s = Done (r, s') -> objs s' = objs s).

Lemma apply_leaf s n ctxt r o : objs s = objs st -> rec_ok st r ->
  exists p, objs st !! data_object r ≫= buf = Some p /\
    apply_depth applier (S n) ctxt (data_object r) o (from r) (len r) s =
    applier ctxt (data_object r) o (ptr_add (ptr_add p 0) (from r)) (len r) s.
Proof.
  intros Hs Hr. destruct (rec_ok_leaf h st H r Hr) as (d & Hd & _ & Hdr & Hl & _).
  destruct (lf_buf _ _ Hl) as (p & b & Hp & _). pose proof (lf_size _ _ Hl).
  exists p. rewrite Hd. split; [done|]. cbn [apply_depth].
  assert (_dispatch_data_map_direct (data_object r) 0 s = Done (Some (ptr_add p 0), data_object r, 0, s)) as Hmd.
  { unfold _dispatch_data_map_direct. erewrite bind_run by (apply load_run; by rewrite Hs).
    rewrite decide_False by lia. rewrite (proj2 (leaf_iff d) Hdr). cbn [negb andb].
    erewrite bind_run by reflexivity. cbv beta iota. erewrite bind_run by (apply load_run; by rewrite Hs). by rewrite Hp. }
  by erewrite bind_run by done.
Qed.

Lemma apply_records_run rs : forall s n ctxt off, objs s = objs st -> Forall (rec_ok st) rs ->
  0 <= off -> off + sum_len rs < 2 ^ 64 ->
  apply_records (apply_depth applier (S n)) ctxt rs off s =
  run_regions applier ctxt (record_regions (objs st) rs off) s.
Proof.
  induction rs as [|r rs IH]; intros s n ctxt off Hs Hrs Ho Hlt; [done|].
  apply Forall_cons in Hrs as [Hr Hrs]. pose proof (ro_len _ _ Hr). pose proof (sum_len_nonneg h st H rs Hrs).
  destruct (apply_leaf s n ctxt r off Hs Hr) as (p & Hp & Ha).
  cbn [record_regions apply_records]. rewrite Hp. cbn [app run_regions]. simpl in Hlt.
  unfold mbind, M_bind. rewrite Ha.
  destruct (applier ctxt (data_object r) off (ptr_add (ptr_add p 0) (from r)) (len r) s) as [[[c b] s']|] eqn:E; [|done].
  simpl. destruct b; [|done]. rewrite wrap_small by lia. apply IH; [|done|lia|lia].
  rewrite <- Hs. by eapply Hpure.
Qed.

(** The mapping reads the objects only. *)
Lemma map_direct_objs s a off r : objs s = objs st -> _dispatch_data_map_direct a off st = Done (r, st) ->
  _dispatch_data_map_direct a off s = Done (r, s).
Proof.
  intros Hs. unfold _dispatch_data_map_direct, load, mbind, M_bind, mret, M_ret, crash. rewrite Hs.
  destruct (objs st !! a) as [dd|]; [|done]. destruct (decide (size dd = 0)); [done|].
  destruct (negb _ && _); [destruct (records dd); [done|]|]; rewrite Hs;
    (destruct (objs st !! _); [|done]); intros [= <-]; done.
Qed.

Lemma apply_ok s a dd ctxt : objs s = objs st -> objs st !! a = Some dd ->
  exists l, dispatch_data_apply_f applier a ctxt s = run_regions applier ctxt l s /\
    tiles (blocks st) l 0 (bytes st a) /\
    (forall x o p n, (x, o, p, n) ∈ l -> is_Some (blocks st !! p_block p)).
Proof.
  intros Hs Ha. pose proof (length_bytes h st H a dd Ha) as Lb.
  assert (objs s !! a = Some dd) as Has by (by rewrite Hs).
  assert (forall l off bs, tiles (blocks st) l off bs ->
    forall x o p n, (x, o, p, n) ∈ l -> is_Some (blocks st !! p_block p)) as Hblk.
  { intros l. induction l as [|[[[x' o'] p'] n'] l IH]; intros off bs Ht x o p n Hin; [by apply elem_of_nil in Hin|].
    destruct Ht as (_ & _ & b & bs' & Hpk & _ & Ht). apply elem_of_cons in Hin as [[= -> -> -> ->]|Hin].
    - unfold peek in Hpk. destruct (blocks st !! p_block p'); [by eexists|done].
    - by eapply IH. }
  unfold dispatch_data_apply_f. erewrite bind_run by (by apply load_run).
  destruct (decide (size dd = 0)) as [E|E].
  { exists []. split; [done|]. split; [apply nil_length_inv; lia|]. intros x o p n Hin. by apply elem_of_nil in Hin. }
  remember 1%nat as m eqn:Hm. cbn [apply_depth].
  destruct (map_direct_0 h st H a dd Ha E) as (o & a' & off & Hmd & Ho).
  apply (map_direct_objs s) in Hmd; [|done].
  erewrite bind_run by done. cbv beta iota. destruct o as [p|].
  - exists [(a, 0, ptr_add p 0, size dd)].
    assert (tiles (blocks st) [(a, 0, ptr_add p 0, size dd)] 0 (bytes st a)) as Ht.
    { simpl. split; [done|]. split; [lia|]. exists (bytes st a), []. rewrite ptr_add_0, app_nil_r. done. }
    split; [|split; [done|by eapply Hblk]]. simpl. unfold mbind, M_bind.
    destruct (applier ctxt a 0 (ptr_add p 0) (size dd) s) as [[[c b] s']|]; [|done]. by destruct b.
  - destruct Ho as (-> & -> & _ & Hr & _). erewrite bind_run by (by apply load_run).
    destruct (inv_composite h st H a dd Ha Hr) as [Hrs [Hsz Hlt] _ _ _].
    exists (record_regions (objs st) (records dd) 0).
    assert (bytes st a = recs_bytes st (records dd)) as ->.
    { unfold bytes. rewrite Ha. destruct (_dispatch_data_leaf dd) eqn:El; [apply leaf_iff in El; congruence|done]. }
    pose proof (record_regions_tile (records dd) 0 Hrs) as Ht.
    split; [|split; [done|by eapply Hblk]]. rewrite Hm. apply apply_records_run; try done; lia.
Qed.
End apply.
