(* ===== verification/DataLife.v ===== *)
(** * Life of dispatch data objects

    Creation of leaves, flattening and mapping of ropes, and the release that
    disposes of an object and of the leaves only it referred to ([src/data.c]);
    with the theorems on the whole component: what each operation returns, and
    that no sequence of client operations crashes, leaks or frees early. *)

From S2P Require Import Prelude Object Data DataInv DataOps.

(** ** New blocks and new leaves *)

Definition with_blocks (st : data_state) (bl : gmap nat (list Z)) : data_state :=
  {| objs := objs st; blocks := bl; events := events st; mallocs := mallocs st |}.

(** The invariant does not look at the events and the outcomes of malloc. *)
Lemma inv_same h st st' : objs st' = objs st -> blocks st' = blocks st -> inv h st -> inv h st'.
Proof.
  destruct st as [o b e ms], st' as [o' b' e' ms']. simpl. intros -> -> [[C1 C2 C3 C4] Hh].
  constructor; [|done]. constructor; try done. intros a dd Hn Ha. specialize (C2 a dd Hn Ha).
  unfold obj_ok in *. destruct (decide (records dd = [])).
  - by destruct C2.
  - destruct C2 as [D1 D2 D3 D4 D5]. constructor; try done. eapply Forall_impl; [done|]. intros r [? ? ?]. by constructor.
Qed.

Lemma extends_same st st' : objs st' = objs st -> (forall k b, blocks st !! k = Some b -> blocks st' !! k = Some b) ->
  extends st st'.
Proof. intros Ho Hb. constructor; [|done]. intros a dd Ha. exists dd. by rewrite Ho. Qed.

(** More blocks. *)
Lemma inv_more_blocks h st st' : objs st' = objs st ->
  (forall k b, blocks st !! k = Some b -> blocks st' !! k = Some b) -> inv h st -> inv h st'.
Proof.
  intros Ho Hb H. pose proof (extends_same st st' Ho Hb) as E. constructor.
  - constructor; rewrite ?Ho; try apply H. intros a dd Hn Ha. by eapply (obj_ok_ext h st H st' E).
  - rewrite Ho. apply H.
Qed.

(** A new leaf over a block nobody owns; if it will free the block, nobody else
    uses it. *)
Lemma inv_new_leaf h st a dd : inv h st -> objs st !! a = None -> a <> dispatch_data_empty ->
  records dd = [] -> leaf_ok st dd -> dd_refs dd = _os_object_alloc_realized ->
  (forall b db k, objs st !! b = Some db -> owned db = Some k -> ~ uses dd k) ->
  (forall b db k, objs st !! b = Some db -> owned dd = Some k -> ~ uses db k) ->
  let st' := with_objs st (<[a := dd]> (objs st)) in
  inv (hadd h a 1) st' /\ extends st st' /\ bytes st' a = leaf_bytes (blocks st) dd.
Proof.
  intros H Ha Hn Hr Hl Href Ho1 Ho2 st'.
  assert (extends st st') as E.
  { constructor; [|done]. intros b d Hb. exists d. simpl. rewrite lookup_insert_ne by congruence. done. }
  assert (owners (objs st) a = 0) as Hoa.
  { apply owners_none. intros b d r Hb Hr' ?. destruct (decide (records d = [])) as [E0|E0].
    - rewrite E0 in Hr'. by apply elem_of_nil in Hr'.
    - destruct (inv_composite h st H b d Hb E0) as [Hf _ _ _ _]. rewrite Forall_forall in Hf.
      destruct (ro_leaf _ _ (Hf r Hr')) as (? & ? & _). congruence. }
  assert (forall b, owners (objs st') b = owners (objs st) b) as How.
  { intros b. simpl. rewrite owners_insert_new by done. by rewrite Hr. }
  split; [|split; [done|]].
  - constructor; [constructor|].
    + simpl. rewrite lookup_insert_ne by done. apply H.
    + intros b d Hbn Hb. simpl in Hb. destruct (decide (b = a)) as [->|Hba].
      * rewrite lookup_insert_eq in Hb. simplify_eq. unfold obj_ok. rewrite decide_True by done.
        by destruct Hl.
      * rewrite lookup_insert_ne in Hb by done. by eapply (obj_ok_ext h st H st' E).
    + intros b d Hbn Hb. rewrite How. simpl in Hb. unfold hadd. destruct (decide (b = a)) as [->|Hba].
      * rewrite lookup_insert_eq in Hb. simplify_eq. unfold xref. rewrite Href. simpl.
        rewrite (handles_fresh h st a H Ha). lia.
      * rewrite lookup_insert_ne in Hb by done. by apply H.
    + intros b c db dc k Hbc Hb Hc. simpl in Hb, Hc. rewrite lookup_insert_Some in Hb, Hc.
      destruct Hb as [[<- <-]|[Hb1 Hb]], Hc as [[<- <-]|[Hc1 Hc]]; [done|eauto..|].
      by apply (i_owned _ _ H b c db dc k).
    + intros b. unfold hadd. destruct (i_handles _ _ H b) as [Hb1 Hb2]. simpl. case_decide; [|split; [done|]].
      * subst. rewrite lookup_insert_eq. split; [lia|by eexists].
      * intros Hb. rewrite lookup_insert_ne by done. by apply Hb2.
  - unfold bytes. simpl. rewrite lookup_insert_eq. by rewrite (proj2 (leaf_iff dd) Hr).
Qed.

(** ** Creation *)

(** The plain structure of a leaf. *)
Definition leaf (p : ptr) (sz : Z) (queue : option nat) (d : destructor) (ib : option nat) : dispatch_data_s :=
  {| dd_refs := _os_object_alloc_realized; dd_targetq := default default_queue queue; buf := Some p;
     destr := d; size := sz; records := []; inline_block := ib |}.

Definition queue_event (queue : option nat) : list data_event :=
  match queue with Some q => [EvRetainQueue q] | None => [] end.

Lemma alloc_leaf_eval st p sz queue d :
  let a := fresh (dom (objs st) ∪ {[dispatch_data_empty]}) in
  objs st !! a = None /\ a <> dispatch_data_empty /\
  (o ← _dispatch_data_alloc 0 0; a ← deref o; _ ← _dispatch_data_init a (Some p) sz queue d; mret (Some a)) st =
    Done (Some a, {| objs := <[a := leaf p sz queue d None]> (objs st); blocks := blocks st;
                     events := events st ++ queue_event queue; mallocs := mallocs st |}).
Proof.
  intros a. assert (a ∉ dom (objs st) ∪ {[dispatch_data_empty]}) as Hf by apply is_fresh.
  rewrite not_elem_of_union, not_elem_of_dom, not_elem_of_singleton in Hf. destruct Hf as [Hf1 Hf2].
  split; [done|]. split; [done|].
  unfold _dispatch_data_alloc. rewrite decide_False, decide_False by (unfold sizeof_dispatch_data_s, sizeof_range_record; lia).
  erewrite bind_run by reflexivity. erewrite bind_run by reflexivity. erewrite bind_run; [reflexivity|].
  unfold _dispatch_data_init, store. erewrite bind_run by (apply load_run; simpl; apply lookup_insert_eq).
  destruct queue as [q|]; (erewrite bind_run by reflexivity);
    erewrite bind_run by (apply load_run; simpl; apply lookup_insert_eq);
    unfold set_objs; simpl; rewrite insert_insert_eq; rewrite ?app_nil_r; done.
Qed.

(** A client buffer: allocated, not owned by an object; not even used by one if
    its ownership is passed on. *)
Definition client_buffer (st : data_state) (p : ptr) (sz : Z) (d : destructor) : Prop :=
  0 <= p_off p /\ (exists b, blocks st !! p_block p = Some b /\ p_off p + sz <= Z.of_nat (length b)) /\
  (forall b db, objs st !! b = Some db -> owned db <> Some (p_block p)) /\
  (d = DESTRUCTOR_FREE -> p_off p = 0 /\ forall b db, objs st !! b = Some db -> ~ uses db (p_block p)).

Lemma create_plain_ok h st p sz queue d : inv h st -> 0 < sz < 2 ^ 64 -> client_buffer st p sz d ->
  exists a st', (o ← _dispatch_data_alloc 0 0; a ← deref o; _ ← _dispatch_data_init a (Some p) sz queue d; mret (Some a)) st
      = Done (Some a, st') /\
    inv (hadd h a 1) st' /\ extends st st' /\ Some (bytes st' a) = peek (blocks st) p sz.
Proof.
  intros H Hsz (Hp & (b & Hb & Hlen) & Hown & Hfree).
  destruct (alloc_leaf_eval st p sz queue d) as (Hf & Hn & ->). set (a := fresh _) in *.
  eexists _, _. split; [reflexivity|].
  assert (leaf_ok st (leaf p sz queue d None)) as Hl.
  { constructor; simpl; [|done|done]. exists p, b. repeat split; try done. intros ->. by apply Hfree. }
  destruct (inv_new_leaf h st a (leaf p sz queue d None) H Hf Hn) as (Hi & He & Hby); try done.
  - intros b' db k Hb' Ho [?|Hu]; [done|]. simpl in Hu. simplify_eq. by eapply Hown.
  - intros b' db k Hb' Ho. unfold owned in Ho. simpl in Ho. destruct (decide _) as [|Hd]; [done|].
    simplify_eq. destruct (decide (d = DESTRUCTOR_FREE)) as [->|]; [|tauto]. by apply (Hfree eq_refl) with b'.
  - split; [by eapply inv_same; [..|exact Hi]|]. split.
    + destruct He as [E1 E2]. constructor; [exact E1|exact E2].
    + unfold bytes. simpl. rewrite lookup_insert_eq.
      change (_dispatch_data_leaf (leaf p sz queue d None)) with true. cbv iota. unfold leaf_bytes. simpl. unfold peek. rewrite Hb. simpl. by rewrite decide_True by lia.
Qed.

(** ** Flattening *)

Lemma peek_length bl p n b : peek bl p n = Some b -> Z.of_nat (length b) = n.
Proof.
  unfold peek. destruct (bl !! p_block p) as [c|]; [|done]. simpl. case_decide as E; [|done].
  intros [= <-]. rewrite length_take, length_drop. lia.
Qed.

Lemma peek_insert_fresh bl k c p n b : bl !! k = None -> peek bl p n = Some b -> peek (<[k := c]> bl) p n = Some b.
Proof.
  intros Hk Hp. unfold peek in *. destruct (decide (p_block p = k)) as [E|E]; [by rewrite E, Hk in Hp|].
  by rewrite lookup_insert_ne by done.
Qed.

Lemma memcpy_run s k p off n b pre tl : blocks s !! k = Some (pre ++ replicate (length b + tl) 0) ->
  peek (blocks s) p n = Some b -> off = Z.of_nat (length pre) ->
  memcpy (ptr_add {| p_block := k; p_off := 0 |} off) p n s =
    Done (tt, with_blocks s (<[k := (pre ++ b) ++ replicate tl 0]> (blocks s))).
Proof.
  intros Hk Hp ->. pose proof (peek_length _ _ _ _ Hp) as Ln. unfold memcpy, memread, gets.
  erewrite bind_run.
  2:{ erewrite bind_run by reflexivity. rewrite Hp. reflexivity. }
  erewrite bind_run by reflexivity. cbn [ptr_add p_block p_off]. rewrite Hk.
  rewrite decide_True by (rewrite length_app, length_replicate; lia).
  unfold set_blocks, with_blocks. do 2 f_equal. f_equal. f_equal. unfold poke.
  rewrite Z.add_0_l, Nat2Z.id, take_app_length. rewrite <- (assoc app). f_equal. f_equal.
  rewrite drop_app_add, replicate_add, drop_app_length' by (by rewrite length_replicate). done.
Qed.

Lemma flatten_applier_objs b c x o p n s r s' : flatten_applier b c x o p n s = Done (r, s') -> objs s' = objs s.
Proof.
  unfold flatten_applier, memcpy, memread, gets, set_blocks, crash, mret, M_ret, mbind, M_bind.
  destruct (peek (blocks s) p n); [|done]. destruct (blocks s !! _); [|done]. case_decide; [|done].
  intros E. by simplify_eq.
Qed.

Lemma flatten_run bl0 k l : bl0 !! k = None -> forall s pre bs,
  blocks s = <[k := pre ++ replicate (length bs) 0]> bl0 -> tiles bl0 l (Z.of_nat (length pre)) bs ->
  run_regions (flatten_applier {| p_block := k; p_off := 0 |}) tt l s =
    Done (tt, true, with_blocks s (<[k := pre ++ bs]> bl0)).
Proof.
  intros Hk. induction l as [|[[[x o] p] n] l IH]; intros s pre bs Hs Ht.
  - simpl in Ht. subst bs. simpl in *. rewrite app_nil_r in *. unfold mret, M_ret. do 2 f_equal.
    destruct s. unfold with_blocks. simpl in *. by rewrite Hs.
  - destruct Ht as (-> & Hn & b & bs' & Hp & -> & Ht). pose proof (peek_length _ _ _ _ Hp) as Ln.
    cbn [run_regions]. rewrite length_app in Hs.
    erewrite bind_run.
    2:{ unfold flatten_applier. cbv beta. erewrite bind_run; [reflexivity|]. apply (memcpy_run s k p _ n b pre (length bs')); [|rewrite Hs|done].
        - rewrite Hs. apply lookup_insert_eq.
        - by apply peek_insert_fresh. }
    cbn [fst snd]. rewrite (IH _ (pre ++ b) bs').
    + by rewrite <- !app_assoc.
    + simpl. rewrite Hs. by rewrite insert_insert_eq.
    + rewrite length_app, Nat2Z.inj_add, Ln. done.
Qed.

Lemma flatten_ok h st a dd : inv h st -> objs st !! a = Some dd -> size dd <> 0 -> head (mallocs st) <> Some false ->
  let k := fresh (dom (blocks st)) in
  _dispatch_data_flatten a st = Done (Some {| p_block := k; p_off := 0 |},
    {| objs := objs st; blocks := <[k := bytes st a]> (blocks st); events := events st; mallocs := tail (mallocs st) |}).
Proof.
  intros H Ha Hs Hm k. assert (blocks st !! k = None) as Hk by (apply not_elem_of_dom, is_fresh).
  pose proof (length_bytes h st H a dd Ha) as Lb.
  unfold _dispatch_data_flatten. erewrite bind_run by (by apply load_run).
  set (s1 := {| objs := objs st; blocks := <[k := replicate (Z.to_nat (size dd)) 0]> (blocks st);
    events := events st; mallocs := tail (mallocs st) |}).
  assert (malloc (size dd) st = Done (Some {| p_block := k; p_off := 0 |}, s1)) as Hma.
  { unfold malloc. destruct (mallocs st) as [|[] ms]; done. }
  erewrite bind_run by exact Hma.
  destruct (apply_ok h st H (flatten_applier {| p_block := k; p_off := 0 |}) (flatten_applier_objs _) s1 a dd tt eq_refl Ha)
    as (l & Hl & Ht & _).
  erewrite bind_run; [reflexivity|]. rewrite Hl, (flatten_run (blocks st) k l Hk s1 [] (bytes st a)).
  - done.
  - simpl. by replace (length (bytes st a)) with (Z.to_nat (size dd)) by lia.
  - done.
Qed.

(** ** Mapping *)

Lemma peek_whole bl k bs n : bl !! k = Some bs -> n = Z.of_nat (length bs) ->
  peek bl {| p_block := k; p_off := 0 |} n = Some bs.
Proof.
  intros Hk ->. unfold peek. simpl. rewrite Hk. simpl. rewrite decide_True by lia.
  by rewrite drop_0, take_ge by lia.
Qed.

Lemma uses_alloc h st a dd k : inv h st -> objs st !! a = Some dd -> uses dd k -> is_Some (blocks st !! k).
Proof.
  intros H Ha Hu. destruct (decide (a = dispatch_data_empty)) as [->|Hn].
  { rewrite (i_empty _ _ H) in Ha. simplify_eq. by destruct Hu. }
  destruct (decide (records dd = [])) as [Hr|Hr].
  - pose proof (i_ok _ _ H a dd Hn Ha) as Ho. unfold obj_ok in Ho. rewrite decide_True in Ho by done.
    destruct Ho as [(p & b & Hp & Hb & _) _ Hin]. destruct Hu as [Hu|Hu].
    + destruct (Hin k Hu) as [_ Hbuf]. rewrite Hbuf in Hp. simplify_eq. by eexists.
    + rewrite Hp in Hu. simplify_eq/=. by eexists.
  - destruct (inv_composite h st H a dd Ha Hr) as [_ _ _ Hf Hin]. destruct Hu as [Hu|Hu]; [congruence|].
    destruct (buf dd) as [p|] eqn:Ep; simplify_eq/=. destruct (Hf p eq_refl) as [_ Hb]. by eexists.
Qed.

Lemma map_ok h st a dd : inv h st -> objs st !! a = Some dd -> room st 1 ->
  head (mallocs st) <> Some false ->
  exists x p st', dispatch_data_create_map a st = Done (Some x, p, size dd, st') /\
    inv (hadd h x 1) st' /\ extends st st' /\ bytes st' x = bytes st a /\
    match p with Some p => peek (blocks st') p (size dd) = Some (bytes st a) | None => size dd = 0 end.
Proof.
  intros H Ha Hroom Hm. pose proof (length_bytes h st H a dd Ha) as Lb.
  unfold dispatch_data_create_map. erewrite bind_run by (by apply load_run).
  destruct (decide (size dd = 0)) as [E|E].
  { eexists _, _, st. split; [reflexivity|]. split; [apply inv_hadd_empty; [done|lia]|].
    split; [apply extends_refl|]. split; [|done].
    assert (bytes st a = []) as -> by (apply nil_length_inv; lia). unfold bytes. by rewrite (i_empty _ _ H). }
  destruct (map_direct_0 h st H a dd Ha E) as (o & a' & off & Hmd & Ho).
  erewrite bind_run by done. cbv beta iota. destruct o as [p|].
  - destruct (retain_ok h st a H Hroom ltac:(by eexists)) as (st1 & Hret & Hi1 & He1 & Hb1 & _).
    erewrite bind_run by done. eexists _, (Some p), _. split; [reflexivity|]. split; [done|]. split; [done|].
    rewrite Hb1. split; [|done]. by eapply bytes_ext; [apply H| |eexists].
  - erewrite bind_run by (by apply (flatten_ok h st a dd)). cbv beta iota. set (k := fresh _).
    assert (blocks st !! k = None) as Hk by (apply not_elem_of_dom, is_fresh).
    set (s1 := {| objs := objs st |}).
    assert (forall j b, blocks st !! j = Some b -> blocks s1 !! j = Some b) as Hsub.
    { intros j b Hj. simpl. rewrite lookup_insert_ne; [done|congruence]. }
    assert (inv h s1) as H1 by (by apply (inv_more_blocks h st s1)).
    assert (blocks s1 !! k = Some (bytes st a)) as Hk1 by apply lookup_insert_eq.
    assert (forall b db, objs st !! b = Some db -> ~ uses db k) as Hnot.
    { intros b db Hb Hu. destruct (uses_alloc h st b db k H Hb Hu) as [? ?]. congruence. }
    assert (forall db, owned db = Some k -> uses db k) as Hou.
    { intros db. unfold owned, uses. destruct (inline_block db); [tauto|]. case_decide; [done|tauto]. }
    pose proof (peek_whole _ _ _ (size dd) Hk1 ltac:(lia)) as Hpk.
    assert (0 < size dd < 2 ^ 64) as Hpos.
    { apply (size_pos h st H a dd Ha). intros ->. rewrite (i_empty _ _ H) in Ha. by simplify_eq. }
    destruct (create_plain_ok h s1 {| p_block := k; p_off := 0 |} (size dd) None DESTRUCTOR_FREE H1 Hpos)
      as (x & st' & Heq & Hi & He & Hby).
    + split; [done|]. split; [exists (bytes st a); split; [done|simpl; lia]|]. split.
      * intros b db Hb Ho'. by apply (Hnot b db Hb), Hou.
      * intros _. split; [done|]. apply Hnot.
    + unfold dispatch_data_create. rewrite decide_False by done.
      rewrite (decide_False (P := DESTRUCTOR_FREE = DESTRUCTOR_DEFAULT)) by done.
      rewrite (decide_False (P := DESTRUCTOR_FREE = DESTRUCTOR_INLINE)) by done.
      erewrite bind_run by exact Heq. eexists _, (Some _), _. split; [reflexivity|].
      rewrite Hpk in Hby. injection Hby as Hby. split; [done|].
      split; [eapply extends_trans; [by apply (extends_same st s1)|done]|]. split; [done|].
      apply peek_whole; [|lia]. by apply (ex_blocks _ _ He).
Qed.

(** ** Release *)

Definition without (st : data_state) (a : addr) : data_state := with_objs st (delete a (objs st)).

(** Objects that do not refer to [b] keep their shape and bytes when [b] and the
    block it owns go away. *)
Record shrinks (st st' : data_state) (b : addr) (k : option nat) : Prop := {
  sh_objs : objs st' = delete b (objs st);
  sh_blocks : forall j, Some j <> k -> blocks st' !! j = blocks st !! j;
}.

Section delete.
Context (h : addr -> Z) (st : data_state) (H : core h st) (b : addr) (dd : dispatch_data_s)
  (Hb : objs st !! b = Some dd) (Hbn : b <> dispatch_data_empty) (Hown : owners (objs st) b = 0)
  (st' : data_state) (Hsh : shrinks st st' b (owned dd)).

Lemma shrink_lookup c d : objs st' !! c = Some d <-> objs st !! c = Some d /\ c <> b.
Proof. rewrite (sh_objs _ _ _ _ Hsh), lookup_delete_Some. split; intros [? ?]; auto. Qed.

(** A record of a surviving object points to a surviving leaf. *)
Lemma shrink_rec c d r : objs st !! c = Some d -> r ∈ records d -> data_object r <> b.
Proof.
  intros Hc Hr E. pose proof (owners_ge _ _ _ b Hc). pose proof (refs_to_in b r (records d) Hr E). lia.
Qed.

Lemma shrink_block c d k : objs st !! c = Some d -> c <> b -> uses d k -> blocks st' !! k = blocks st !! k.
Proof.
  intros Hc Hcb Hu. apply (sh_blocks _ _ _ _ Hsh). intros E.
  apply (i_owned _ _ H b c dd d k ltac:(done) Hb Hc); [done|done].
Qed.

Lemma shrink_leaf c d : objs st !! c = Some d -> c <> b -> leaf_ok st d -> leaf_ok st' d.
Proof.
  intros Hc Hcb [(p & bl & Hp & Hbl & ? & ? & ?) Hs Hi]. constructor; [|done|done].
  exists p, bl. split; [done|]. split; [|done]. rewrite (shrink_block c d); [done|done|done|].
  right. by rewrite Hp.
Qed.

Lemma shrink_leaf_bytes c d : objs st !! c = Some d -> c <> b ->
  leaf_bytes (blocks st') d = leaf_bytes (blocks st) d.
Proof.
  intros Hc Hcb. unfold leaf_bytes. destruct (buf d) as [p|] eqn:Ep; [|done]. unfold peek.
  rewrite (shrink_block c d); [done|done|done|]. right. by rewrite Ep.
Qed.

Lemma shrink_recs_bytes rs : (forall r, r ∈ rs -> data_object r <> b) -> recs_bytes st' rs = recs_bytes st rs.
Proof.
  induction rs as [|r rs IH]; intros Hr; [done|]. rewrite !recs_bytes_cons. f_equal.
  - unfold rec_bytes. rewrite (sh_objs _ _ _ _ Hsh), lookup_delete_ne by (apply not_eq_sym, Hr; by left).
    destruct (objs st !! data_object r) as [d|] eqn:Ed; [|done].
    rewrite (shrink_leaf_bytes (data_object r)); [done|done|]. apply Hr. by left.
  - apply IH. intros r' Hr'. apply Hr. by right.
Qed.

Lemma shrink_rec_ok r : data_object r <> b -> rec_ok st r -> rec_ok st' r.
Proof.
  intros Hr [Hf Hl (d & Hd & ?)]. constructor; [done..|]. exists d. split; [|done].
  by apply shrink_lookup.
Qed.

Lemma shrink_bytes c : c <> b -> bytes st' c = bytes st c.
Proof.
  intros Hcb. unfold bytes. rewrite (sh_objs _ _ _ _ Hsh), lookup_delete_ne by done.
  destruct (objs st !! c) as [d|] eqn:Hc; [|done]. destruct (_dispatch_data_leaf d).
  - by apply (shrink_leaf_bytes c).
  - apply shrink_recs_bytes. intros r Hr. by eapply shrink_rec.
Qed.

Lemma core_delete : core (fun c => h c + refs_to c (records dd)) st'.
Proof.
  constructor.
  - rewrite shrink_lookup. split; [apply H|done].
  - intros c d Hcn [Hc Hcb]%shrink_lookup. pose proof (i_ok _ _ H c d Hcn Hc) as Ho. unfold obj_ok in *.
    destruct (decide (records d = [])) as [Hr|Hr]; [by apply (shrink_leaf c)|].
    destruct Ho as [C1 C2 C3 C4 C5].
    assert (forall r, r ∈ records d -> data_object r <> b) as Hrb by (intros r Hin; by eapply shrink_rec).
    constructor; try done.
    + rewrite Forall_forall in C1 |- *. intros r Hin. apply shrink_rec_ok; auto.
    + intros p Hp. destruct (C4 p Hp) as [? Hbl]. split; [done|]. rewrite shrink_recs_bytes by done.
      rewrite (shrink_block c d); [done|done|done|]. right. by rewrite Hp.
  - intros c d Hcn [Hc Hcb]%shrink_lookup. destruct (i_refs _ _ H c d Hcn Hc) as (? & Hx & ?).
    rewrite (sh_objs _ _ _ _ Hsh). rewrite (owners_delete _ b dd c Hb) in Hx. split; [done|lia].
  - intros c e dc de k Hce [Hc _]%shrink_lookup [He _]%shrink_lookup. by apply (i_owned _ _ H c e).
Qed.
End delete.

Definition set_refs (dd : dispatch_data_s) (o : os_object) : dispatch_data_s :=
  {| dd_refs := o; dd_targetq := dd_targetq dd; buf := buf dd; destr := destr dd; size := size dd;
     records := records dd; inline_block := inline_block dd |}.

Definition opt_delete (k : option nat) (bl : gmap nat (list Z)) : gmap nat (list Z) :=
  match k with Some k => delete k bl | None => bl end.

(** The call of the destructor block of a leaf, if it has one. *)
Definition destructor_event (dd : dispatch_data_s) : list data_event :=
  match destr dd with
  | DESTRUCTOR_FREE | DESTRUCTOR_NONE => []
  | d => [EvDestructor (dd_targetq dd) d]
  end.

(** The state after the release of a leaf. *)
Definition released (st : data_state) (b : addr) (dd : dispatch_data_s) : data_state :=
  if decide (xref dd = 0) then
    {| objs := delete b (objs st); blocks := opt_delete (owned dd) (blocks st);
       events := (events st ++ destructor_event dd) ++ [EvReleaseQueue (dd_targetq dd)]; mallocs := mallocs st |}
  else with_objs st (<[b := set_refs dd {| os_obj_ref_cnt := 0; os_obj_xref_cnt := xref dd - 1 |}]> (objs st)).

Lemma release_refs o : os_obj_ref_cnt o = 0 -> 0 <= os_obj_xref_cnt o < INT_MAX ->
  exists o', _os_object_release o = Done (if decide (os_obj_xref_cnt o = 0) then (o', Dispose)
    else ({| os_obj_ref_cnt := 0; os_obj_xref_cnt := os_obj_xref_cnt o - 1 |}, Return)).
Proof.
  destruct o as [r x]. simpl. intros -> Hx. unfold INT_MAX in Hx. destruct (decide (x = 0)) as [->|Hne].
  - eexists. reflexivity.
  - eexists {| os_obj_ref_cnt := 0; os_obj_xref_cnt := 0 |}.
    unfold _os_object_release, _os_object_release_step, _os_object_xrefcnt_dec. simpl.
    rewrite sub_small by lia. unfold set_xref. simpl. rewrite decide_True by lia. done.
Qed.

Lemma release_leaf_eval n st b dd : objs st !! b = Some dd -> leaf_ok st dd -> records dd = [] ->
  os_obj_ref_cnt (dd_refs dd) = 0 -> 0 <= xref dd < INT_MAX ->
  release_depth (S n) b st = Done (tt, released st b dd).
Proof.
  intros Hb [(p & bl & Hp & Hbl & _ & _ & Hfree) _ Hin] Hr Href Hx. simpl. unfold release_once.
  erewrite bind_run by (by apply load_run). destruct (release_refs (dd_refs dd) Href Hx) as [o' ->].
  unfold released. fold (xref dd). destruct (decide (xref dd = 0)) as [E|E]; [|done].
  unfold _dispatch_data_dispose. rewrite (proj2 (leaf_iff dd) Hr), Hp.
  assert (forall d, destr dd = d -> d <> DESTRUCTOR_NONE -> inline_block dd = None) as Hni.
  { intros d Hd Hd'. destruct (inline_block dd) as [k|] eqn:Ek; [|done]. destruct (Hin k eq_refl). congruence. }
  unfold owned, destructor_event, free_inline, _dispatch_data_destroy_buffer.
  destruct (destr dd) eqn:Ed;
    [rewrite (Hni _ eq_refl) by done|rewrite (Hni _ eq_refl) by done| |rewrite (Hni _ eq_refl) by done..].
  2:{ erewrite bind_run.
      2:{ unfold free, gets. erewrite bind_run by reflexivity. rewrite decide_True; [reflexivity|].
          split; [by apply Hfree|]. rewrite Hbl. by eexists. }
      erewrite bind_run by reflexivity. erewrite bind_run by reflexivity. rewrite Hp. simpl.
      rewrite decide_False by (intros [_ ?]; done). unfold emit, set_objs. simpl. by rewrite app_nil_r. }
  2:{ erewrite bind_run by reflexivity. destruct (inline_block dd) as [k|].
      - erewrite bind_run by reflexivity. erewrite bind_run by reflexivity. unfold emit. simpl. by rewrite app_nil_r.
      - erewrite bind_run by reflexivity. erewrite bind_run by reflexivity. unfold emit. simpl.
        rewrite decide_True by (by split). by rewrite app_nil_r. }
  all: (erewrite bind_run by reflexivity); (erewrite bind_run by reflexivity);
    (erewrite bind_run by reflexivity); rewrite decide_True by (by split); done.
Qed.

(** Changing the count of one object. *)
Lemma core_recount h st b dd x : core h st -> objs st !! b = Some dd -> b <> dispatch_data_empty -> 0 <= x ->
  let st' := with_objs st (<[b := set_refs dd {| os_obj_ref_cnt := 0; os_obj_xref_cnt := x |}]> (objs st)) in
  core (hadd h b (x - xref dd)) st' /\ extends st st'.
Proof.
  intros H Hb Hn Hx st'.
  assert (forall c d, objs st' !! c = Some d -> exists d0, objs st !! c = Some d0 /\ same_shape d0 d /\ buf d = buf d0 /\
    (c <> b -> d = d0) /\ (c = b -> d = set_refs dd {| os_obj_ref_cnt := 0; os_obj_xref_cnt := x |})) as Hl.
  { intros c d. simpl. rewrite lookup_insert_Some. intros [[<- <-]|[Hc ?]]; [exists dd|exists d]; repeat split; done. }
  assert (extends st st') as E.
  { constructor; [|done]. intros c d Hc. simpl. destruct (decide (c = b)) as [->|Hcb].
    - rewrite lookup_insert_eq. simplify_eq. by eexists.
    - rewrite lookup_insert_ne by done. by exists d. }
  split; [|done]. constructor.
  - simpl. rewrite lookup_insert_ne by done. apply H.
  - intros c d Hc Hd. destruct (Hl c d Hd) as (d0 & Hd0 & Hs & Hbf & _). by eapply (obj_ok_ext h st H st' E c d0).
  - intros c d Hc Hd. destruct (Hl c d Hd) as (d0 & Hd0 & Hs & Hbf & H1 & H2).
    destruct (i_refs _ _ H c d0 Hc Hd0) as (? & ? & ?). simpl. rewrite (owners_insert_same _ _ dd) by done.
    unfold hadd. destruct (decide (c = b)) as [->|Hcb].
    + rewrite (H2 eq_refl). simplify_eq. unfold xref at 1 3. simpl. lia.
    + rewrite (H1 Hcb). lia.
  - intros c e dc de k Hce Hc He. destruct (Hl c dc Hc) as (c0 & Hc0 & (_ & Ec1 & Ec2 & Ec3 & _) & Ec4 & _).
    destruct (Hl e de He) as (e0 & He0 & (_ & _ & _ & Ee3 & _) & Ee4 & _).
    unfold owned, uses. rewrite Ec1, Ec2, Ec3, Ec4, Ee3, Ee4. apply (i_owned _ _ H c e c0 e0 k Hce Hc0 He0).
Qed.

Lemma opt_delete_ne k bl j : Some j <> k -> opt_delete k bl !! j = bl !! j.
Proof. destruct k as [k|]; [|done]. intros Hj. simpl. rewrite lookup_delete_ne; [done|congruence]. Qed.

(** Releasing a leaf through a reference held outside the store. *)
Lemma release_leaf_core h st b dd : core h st -> objs st !! b = Some dd -> b <> dispatch_data_empty ->
  records dd = [] -> 1 <= h b -> core (hadd h b (-1)) (released st b dd).
Proof.
  intros H Hb Hn Hr Hh. destruct (i_refs _ _ H b dd Hn Hb) as (? & Hx & ?). pose proof (owners_nonneg (objs st) b).
  unfold released. destruct (decide (xref dd = 0)) as [E|E].
  - pose proof (core_delete h st H b dd Hb Hn ltac:(lia)
      {| objs := delete b (objs st); blocks := opt_delete (owned dd) (blocks st);
         events := (events st ++ destructor_event dd) ++ [EvReleaseQueue (dd_targetq dd)]; mallocs := mallocs st |}) as Hc.
    assert (core (fun c => h c + refs_to c (records dd))
      {| objs := delete b (objs st); blocks := opt_delete (owned dd) (blocks st);
         events := (events st ++ destructor_event dd) ++ [EvReleaseQueue (dd_targetq dd)]; mallocs := mallocs st |}) as [C1 C2 C3 C4].
    { apply Hc. constructor; [done|]. intros j Hj. by apply opt_delete_ne. }
    constructor; try done. intros c d Hcn Hc'. destruct (C3 c d Hcn Hc') as (? & E3 & ?). split; [done|]. split; [|done].
    rewrite E3, Hr. unfold hadd. destruct (decide (c = b)) as [->|]; [|unfold refs_to; simpl; lia].
    simpl in Hc'. by rewrite lookup_delete_eq in Hc'.
  - destruct (core_recount h st b dd (xref dd - 1) H Hb Hn ltac:(lia)) as [Hc _].
    eapply core_ext; [|exact Hc]. intros c. unfold hadd. case_decide; lia.
Qed.

(** What a release leaves of the store: surviving objects with their bytes, and
    every block that no object of the store owned. *)
Record survives (st st' : data_state) : Prop := {
  sv_objs : forall c d', objs st' !! c = Some d' -> exists d, objs st !! c = Some d /\
    records d' = records d /\ size d' = size d /\ buf d' = buf d /\ inline_block d' = inline_block d /\ xref d' <= xref d;
  sv_bytes : forall c, is_Some (objs st' !! c) -> bytes st' c = bytes st c;
  sv_blocks : forall k, (forall c d, objs st !! c = Some d -> owned d <> Some k) -> blocks st' !! k = blocks st !! k;
  sv_owned : forall k, (forall c d, objs st !! c = Some d -> owned d <> Some k) ->
    forall c d, objs st' !! c = Some d -> owned d <> Some k;
}.

Lemma survives_refl st : survives st st.
Proof. constructor; eauto. intros c d' Hc. exists d'. repeat split; done || lia. Qed.

Lemma survives_trans s1 s2 s3 : survives s1 s2 -> survives s2 s3 -> survives s1 s3.
Proof.
  intros [O1 B1 K1 W1] [O2 B2 K2 W2]. constructor.
  - intros c d Hc. destruct (O2 c d Hc) as (d2 & H2 & E1 & E2 & E3 & E4 & ?).
    destruct (O1 c d2 H2) as (d1 & H1 & F1 & F2 & F3 & F4 & ?). exists d1. repeat split; try congruence. lia.
  - intros c Hc. rewrite B2 by done. apply B1. destruct Hc as [d Hc]. destruct (O2 c d Hc) as (d2 & H2 & _). by eexists.
  - intros k Hk. rewrite K2 by (by apply W1). by apply K1.
  - intros k Hk. by apply W2, W1.
Qed.

Lemma released_survives h st b dd : core h st -> objs st !! b = Some dd -> b <> dispatch_data_empty ->
  1 <= h b -> survives st (released st b dd).
Proof.
  intros H Hb Hn Hh. destruct (i_refs _ _ H b dd Hn Hb) as (? & Hx & ?). pose proof (owners_nonneg (objs st) b).
  unfold released. destruct (decide (xref dd = 0)) as [E|E].
  - set (st' := {| objs := delete b _ |}).
    assert (shrinks st st' b (owned dd)) as Hsh by (constructor; [done|]; intros j Hj; by apply opt_delete_ne).
    constructor.
    + intros c d' [Hc Hcb]%(shrink_lookup st b dd st' Hsh). exists d'. repeat split; done || lia.
    + intros c [d [Hc Hcb]%(shrink_lookup st b dd st' Hsh)]. by eapply (shrink_bytes h st H b dd Hb); try done; lia.
    + intros k Hk. apply opt_delete_ne. intros Ek. by eapply (Hk b dd).
    + intros k Hk c d [Hc Hcb]%(shrink_lookup st b dd st' Hsh). by eapply Hk.
  - destruct (core_recount h st b dd (xref dd - 1) H Hb Hn ltac:(lia)) as [Hc He].
    set (st' := with_objs st _) in *. 
    assert (forall c d', objs st' !! c = Some d' -> exists d, objs st !! c = Some d /\
      records d' = records d /\ size d' = size d /\ buf d' = buf d /\ inline_block d' = inline_block d /\ owned d' = owned d /\ xref d' <= xref d) as Hl.
    { intros c d'. simpl. rewrite lookup_insert_Some. intros [[<- <-]|[Hcb ?]]; [exists dd|exists d']; repeat split; try done; try lia.
      unfold xref at 1. simpl. lia. }
    constructor; [|..|done|].
    + intros c d' Hc'. destruct (Hl c d' Hc') as (d & ? & ? & ? & ? & ? & ? & ?). by exists d.
    + intros c [d' Hc']. destruct (Hl c d' Hc') as (d & Hd & _). eapply bytes_ext; [done..|by eexists].
    + intros k Hk c d' Hc'. destruct (Hl c d' Hc') as (d & Hd & _ & _ & _ & _ & -> & _). by eapply Hk.
Qed.

(** An object with another reference stays. *)
Lemma released_stays h st b dd c : core h st -> objs st !! b = Some dd -> b <> dispatch_data_empty ->
  is_Some (objs st !! c) -> (c = b -> 1 < h c) -> is_Some (objs (released st b dd) !! c).
Proof.
  intros H Hb Hn Hc Hh. destruct (i_refs _ _ H b dd Hn Hb) as (? & Hx & ?). pose proof (owners_nonneg (objs st) b).
  unfold released. destruct (decide (c = b)) as [->|Hcb].
  - specialize (Hh eq_refl). rewrite decide_False by lia. simpl. rewrite lookup_insert_eq. by eexists.
  - case_decide; simpl; [by rewrite lookup_delete_ne|by rewrite lookup_insert_ne].
Qed.

Definition add_obj (a : addr) (da : dispatch_data_s) (st : data_state) : data_state :=
  with_objs st (<[a := da]> (objs st)).

Lemma released_frame st a da b dd : a <> b -> released (add_obj a da st) b dd = add_obj a da (released st b dd).
Proof.
  intros Hab. unfold released, add_obj. simpl. destruct (decide (xref dd = 0)); unfold with_objs; simpl; f_equal.
  - by rewrite delete_insert_ne.
  - by rewrite insert_insert_ne.
Qed.

(** Releasing the leaves of a rope that is being disposed of (and still in the
    store, at [a]). *)
Lemma release_records_ok n a da rs : forall h st, core h st -> objs st !! a = None ->
  (forall b, refs_to b rs <= h b) -> room st 0 ->
  (forall r, r ∈ rs -> data_object r <> dispatch_data_empty /\
     exists d, objs st !! data_object r = Some d /\ records d = []) ->
  exists st', release_records (release_depth (S n)) rs (add_obj a da st) = Done (tt, add_obj a da st') /\
    core (fun c => h c - refs_to c rs) st' /\ survives st st' /\ objs st' !! a = None /\
    (forall c, is_Some (objs st !! c) -> 0 < h c - refs_to c rs -> is_Some (objs st' !! c)).
Proof.
  induction rs as [|r rs IH]; intros h st H Ha Hh Hroom Hrs.
  - exists st. split; [done|]. split; [|split; [apply survives_refl|done]].
    eapply core_ext; [|done]. intros c. unfold refs_to. simpl. lia.
  - set (b := data_object r) in *. destruct (Hrs r) as (Hbn & dd & Hb & Hbr); [by left|]. fold b in Hb, Hbn.
    assert (1 <= h b) as Hh1.
    { specialize (Hh b). rewrite refs_to_cons, decide_True in Hh by done. pose proof (refs_to_nonneg b rs). lia. }
    assert (a <> b) as Hab by congruence.
    destruct (i_refs _ _ H b dd Hbn Hb) as (Href & Hx & Hx0). pose proof (Hroom b dd Hbn Hb).
    pose proof (i_ok _ _ H b dd Hbn Hb) as Hok. unfold obj_ok in Hok. rewrite decide_True in Hok by done.
    pose proof (release_leaf_core h st b dd H Hb Hbn Hbr Hh1) as Hc1.
    pose proof (released_survives h st b dd H Hb Hbn Hh1) as Hs1.
    destruct (IH (hadd h b (-1)) (released st b dd)) as (st' & Heq & Hc' & Hs' & Ha' & Hst'); try done.
    + destruct (objs (released st b dd) !! a) as [d|] eqn:E; [|done].
      destruct (sv_objs _ _ Hs1 _ _ E) as (? & ? & _). congruence.
    + intros c. specialize (Hh c). rewrite refs_to_cons in Hh. fold b in Hh. unfold hadd.
      repeat case_decide; subst; try congruence; lia.
    + intros c d Hcn Hc. destruct (sv_objs _ _ Hs1 _ _ Hc) as (d0 & Hd0 & _ & _ & _ & _ & ?).
      pose proof (Hroom c d0 Hcn Hd0). lia.
    + intros r' Hr'. destruct (Hrs r') as (Hn' & d & Hd & Hdr); [by right|]. split; [done|].
      set (c := data_object r') in *. destruct (decide (c = b)) as [Ecb|Hcb].
      * (* still referenced: the count stays positive *)
        pose proof (Hh b) as Hh2. rewrite refs_to_cons, decide_True in Hh2 by done.
        pose proof (refs_to_in b r' rs Hr' Ecb).
        destruct (released_stays h st b dd b H Hb Hbn ltac:(by eexists) ltac:(lia)) as [d' Hd'].
        rewrite Ecb. exists d'. split; [done|]. destruct (sv_objs _ _ Hs1 _ _ Hd') as (d0 & Hd0 & -> & _). congruence.
      * destruct (released_stays h st b dd c H Hb Hbn ltac:(by eexists) ltac:(done)) as [d' Hd'].
        exists d'. split; [done|]. destruct (sv_objs _ _ Hs1 _ _ Hd') as (d0 & Hd0 & -> & _). congruence.
    + exists st'. split; [|split; [|split; [by eapply survives_trans|split; [done|]]]].
      * cbn [release_records]. erewrite bind_run; [by rewrite <- Heq|]. fold b.
        rewrite <- released_frame by done. apply release_leaf_eval; try done.
        -- simpl. by rewrite lookup_insert_ne.
        -- by destruct Hok.
        -- lia.
      * eapply core_ext; [|done]. intros c. rewrite refs_to_cons. fold b. unfold hadd.
        repeat case_decide; subst; try congruence; lia.
      * intros c Hc Hpos. rewrite refs_to_cons in Hpos. fold b in Hpos. pose proof (refs_to_nonneg c rs).
        apply Hst'.
        -- apply (released_stays h); try done. intros ->. rewrite decide_True in Hpos by done. lia.
        -- unfold hadd. repeat case_decide; subst; try congruence; lia.
Qed.

(** Blocks that no object uses can change freely. *)
Section blocks.
Context (h : addr -> Z) (st st' : data_state) (H : core h st) (Ho : objs st' = objs st)
  (Hagree : forall c d k, objs st !! c = Some d -> uses d k -> blocks st' !! k = blocks st !! k).

Lemma agree_leaf_bytes c d : objs st !! c = Some d -> leaf_bytes (blocks st') d = leaf_bytes (blocks st) d.
Proof.
  intros Hc. unfold leaf_bytes. destruct (buf d) as [p|] eqn:Ep; [|done]. unfold peek.
  rewrite (Hagree c d); [done|done|]. right. by rewrite Ep.
Qed.

Lemma agree_recs_bytes rs : recs_bytes st' rs = recs_bytes st rs.
Proof.
  induction rs as [|r rs IH]; [done|]. rewrite !recs_bytes_cons, IH. f_equal. unfold rec_bytes. rewrite Ho.
  destruct (objs st !! data_object r) as [d|] eqn:Ed; [|done]. by rewrite (agree_leaf_bytes (data_object r)).
Qed.

Lemma agree_bytes c : bytes st' c = bytes st c.
Proof.
  unfold bytes. rewrite Ho. destruct (objs st !! c) as [d|] eqn:Hc; [|done].
  destruct (_dispatch_data_leaf d); [by apply (agree_leaf_bytes c)|apply agree_recs_bytes].
Qed.

Lemma core_agree : core h st'.
Proof.
  destruct H as [C1 C2 C3 C4]. constructor; rewrite ?Ho; try done.
  intros c d Hn Hc. specialize (C2 c d Hn Hc). unfold obj_ok in *. destruct (decide (records d = [])).
  - destruct C2 as [(p & b & Hp & Hb & ?) ? ?]. constructor; try done. exists p, b. split; [done|]. split; [|done].
    rewrite (Hagree c d); [done|done|]. right. by rewrite Hp.
  - destruct C2 as [D1 D2 D3 D4 D5]. constructor; try done.
    + eapply Forall_impl; [done|]. intros r [? ? ?]. constructor; rewrite ?Ho; done.
    + intros p Hp. destruct (D4 p Hp) as [? Hb]. split; [done|]. rewrite agree_recs_bytes.
      rewrite (Hagree c d); [done|done|]. right. by rewrite Hp.
Qed.
End blocks.

Lemma owned_uses d k : owned d = Some k -> uses d k.
Proof. unfold owned, uses. destruct (inline_block d); [tauto|]. case_decide; [done|tauto]. Qed.

(** Disposal of a rope: its leaves are released and its flat buffer freed. *)
Lemma release_composite_ok h st a da : inv h st -> objs st !! a = Some da -> a <> dispatch_data_empty ->
  records da <> [] -> h a = 1 -> xref da = 0 -> room st 0 ->
  exists st', release_depth 2 a st = Done (tt, st') /\ core (hadd h a (-1)) st' /\ survives st st' /\
    (forall c, is_Some (objs st !! c) -> 0 < hadd h a (-1) c -> is_Some (objs st' !! c)).
Proof.
  intros H Ha Hn Hr Hh Hx Hroom. destruct (i_refs _ _ H a da Hn Ha) as (Href & Hxo & _).
  destruct (inv_composite h st H a da Ha Hr) as [Hrs _ _ Hflat Hinl].
  set (st0 := without st a). assert (shrinks st st0 a (owned da)) as Hsh by (by constructor).
  pose proof (core_delete h st H a da Ha Hn ltac:(lia) st0 Hsh) as Hc0.
  assert (survives st st0) as Hs0.
  { constructor; [|..|done|].
    - intros c d [Hc Hca]%(shrink_lookup st a da st0 Hsh). exists d. repeat split; done || lia.
    - intros c [d [Hc Hca]%(shrink_lookup st a da st0 Hsh)].
      by apply (shrink_bytes h st H a da Ha Hn ltac:(lia) st0 Hsh).
    - intros k Hk c d [Hc _]%(shrink_lookup st a da st0 Hsh). by eapply Hk. }
  assert (add_obj a da st0 = st) as Hadd.
  { unfold add_obj, st0, without, with_objs. destruct st as [o b e ms]. simpl in *. by rewrite insert_delete_id. }
  destruct (release_records_ok 0 a da (records da) _ st0 Hc0) as (st1 & Heq & Hc1 & Hs1 & Ha1 & Hst1).
  - simpl. apply lookup_delete_eq.
  - intros b. destruct (i_handles _ _ H b). lia.
  - intros c d Hcn [Hc _]%(shrink_lookup st a da st0 Hsh). by apply (Hroom c).
  - intros r Hin. rewrite Forall_forall in Hrs. destruct (rec_ok_leaf h st H r (Hrs r Hin)) as (d & Hd & Hdn & Hdr & _).
    split; [done|]. exists d. split; [|done]. apply (shrink_lookup st a da st0 Hsh). split; [done|].
    intros E. rewrite E in Hd. congruence.
  - rewrite Hadd in Heq. assert (core h st1) as Hc1' by (eapply core_ext; [|exact Hc1]; intros c; simpl; lia).
    set (st2 := with_blocks st1 (opt_delete (owned da) (blocks st1))).
    assert (forall c d k, objs st1 !! c = Some d -> uses d k -> Some k <> owned da) as Hnouse.
    { intros c d k Hc Hu Ek. destruct (sv_objs _ _ (survives_trans _ _ _ Hs0 Hs1) c d Hc) as (d0 & Hd0 & _ & _ & Eb & Ei & _).
      eapply (i_owned _ _ H a c da d0 k); [congruence|done|done|done|]. unfold uses in *. by rewrite <- Eb, <- Ei. }
    assert (forall c d k, objs st1 !! c = Some d -> uses d k -> blocks st2 !! k = blocks st1 !! k) as Hagree.
    { intros c d k Hc Hu. apply opt_delete_ne. by eapply Hnouse. }
    pose proof (core_agree h st1 st2 Hc1' eq_refl Hagree) as Hc2.
    assert (free (buf da) (add_obj a da st1) = Done (tt, add_obj a da st2)) as Hfree.
    { unfold st2, owned. rewrite Hinl, decide_False by tauto. destruct (buf da) as [p|] eqn:Ep; [|by destruct st1].
      destruct (Hflat p eq_refl) as [Hp0 Hpb]. unfold free, gets. erewrite bind_run by reflexivity.
      rewrite decide_True; [done|]. split; [done|]. simpl.
      rewrite (sv_blocks _ _ Hs1); [by eexists|]. intros c d [Hc Hca]%(shrink_lookup st a da st0 Hsh) Ho.
      eapply (i_owned _ _ H a c da d (p_block p)); [done|done|done| |by apply owned_uses].
      unfold owned. rewrite Hinl, decide_False by tauto. by rewrite Ep. }
    exists {| objs := objs st2; blocks := blocks st2; events := events st2 ++ [EvReleaseQueue (dd_targetq da)];
              mallocs := mallocs st2 |}.
    split; [|split; [|split]].
    + change (release_depth 2 a st) with (release_once (release_depth 1) a st). unfold release_once.
      erewrite bind_run by (by apply load_run).
      destruct (release_refs (dd_refs da) Href) as [o' ->]; [fold (xref da); unfold INT_MAX; lia|].
      fold (xref da). rewrite decide_True by done. unfold _dispatch_data_dispose.
      destruct (_dispatch_data_leaf da) eqn:El; [by apply leaf_iff in El|].
      erewrite bind_run; [|erewrite bind_run by exact Heq; exact Hfree].
      unfold free_inline. rewrite Hinl. erewrite bind_run by reflexivity. erewrite bind_run by reflexivity.
      unfold emit. simpl. rewrite delete_insert_id by done. done.
    + destruct (core_agree h st2 {| objs := objs st2; blocks := blocks st2;
        events := events st2 ++ [EvReleaseQueue (dd_targetq da)]; mallocs := mallocs st2 |} Hc2 eq_refl ltac:(done)) as [C1 C2 C3 C4].
      constructor; try done. intros c d Hcn Hc. unfold hadd. rewrite decide_False; [by apply C3|].
      intros ->. simpl in Hc. congruence.
    + pose proof (survives_trans _ _ _ Hs0 Hs1) as [S1 S2 S3 S4]. constructor; [done|..|done].
      * intros c Hc. simpl in Hc. rewrite <- S2 by done. by apply (agree_bytes st1).
      * intros k Hk. simpl. rewrite opt_delete_ne by (apply not_eq_sym; by eapply Hk). by apply S3.
    + intros c Hc Hpos. simpl. apply Hst1.
      * destruct Hc as [d Hc]. exists d. apply (shrink_lookup st a da st0 Hsh). split; [done|].
        intros ->. unfold hadd in Hpos. rewrite decide_True in Hpos by done. lia.
      * unfold hadd in Hpos. case_decide; lia.
Qed.

(** Releasing an object gives up one reference, keeps the invariant and the
    bytes of every object that remains, and keeps every object still referenced. *)
Lemma release_ok h st a da : inv h st -> objs st !! a = Some da -> a <> dispatch_data_empty ->
  0 < h a -> room st 0 ->
  exists st', _dispatch_data_release a st = Done (tt, st') /\ inv (hadd h a (-1)) st' /\ survives st st'.
Proof.
  intros H Ha Hn Hh Hroom. destruct (i_refs _ _ H a da Hn Ha) as (Href & Hxo & Hx0).
  pose proof (Hroom a da Hn Ha) as Hlt. pose proof (owners_nonneg (objs st) a) as Hown.
  assert (forall st', core (hadd h a (-1)) st' -> survives st st' ->
    (forall c, is_Some (objs st !! c) -> 0 < hadd h a (-1) c -> is_Some (objs st' !! c)) ->
    inv (hadd h a (-1)) st') as Hinv.
  { intros st' Hc Hs Hst. constructor; [done|]. intros c. destruct (i_handles _ _ H c) as [H1 H2].
    split; [unfold hadd; case_decide; subst; lia|]. intros Hp. apply Hst; [|done]. apply H2.
    unfold hadd in Hp. case_decide; lia. }
  unfold _dispatch_data_release. destruct (decide (records da = [])) as [Hr|Hr].
  - pose proof (i_ok _ _ H a da Hn Ha) as Hok. unfold obj_ok in Hok. rewrite decide_True in Hok by done.
    pose proof (released_survives h st a da H Ha Hn ltac:(lia)) as Hs.
    exists (released st a da). split; [by apply release_leaf_eval; try done; lia|]. split; [|done]. apply Hinv; [|done|].
    + by apply release_leaf_core; [apply H|..|lia].
    + intros c Hc Hp. apply (released_stays h); try done; [apply H|]. intros ->. unfold hadd in Hp.
      rewrite decide_True in Hp by done. lia.
  - destruct (decide (xref da = 0)) as [E|E].
    + destruct (release_composite_ok h st a da H Ha Hn Hr ltac:(lia) E Hroom) as (st' & Heq & Hc & Hs & Hst).
      exists st'. auto.
    + exists (released st a da). assert (_dispatch_data_release a st = Done (tt, released st a da)) as Heq.
      { change (release_once (release_depth 1) a st = Done (tt, released st a da)). unfold release_once.
        erewrite bind_run by (by apply load_run).
        destruct (release_refs (dd_refs da) Href) as [o' ->]; [fold (xref da); unfold INT_MAX in *; lia|].
        unfold released. fold (xref da). by rewrite !decide_False by done. }
      pose proof (released_survives h st a da H Ha Hn ltac:(lia)) as Hs.
      split; [done|]. split; [|done]. apply Hinv; [|done|].
      * unfold released. rewrite decide_False by done.
        destruct (core_recount h st a da (xref da - 1) H Ha Hn ltac:(lia)) as [Hc _].
        eapply core_ext; [|exact Hc]. intros c. unfold hadd. case_decide; lia.
      * intros c Hc Hp. apply (released_stays h); try done; [apply H|]. intros ->. unfold hadd in Hp.
        rewrite decide_True in Hp by done. lia.
Qed.

(** Releasing the empty object does nothing. *)
Lemma release_empty_ok h st : inv h st -> exists st', _dispatch_data_release dispatch_data_empty st = Done (tt, st') /\
  st' = st.
Proof.
  intros H. eexists. unfold _dispatch_data_release. change (release_depth 2 dispatch_data_empty st)
    with (release_once (release_depth 1) dispatch_data_empty st). unfold release_once.
  erewrite bind_run by (apply load_run, (i_empty _ _ H)). split; [reflexivity|]. simpl.
  destruct st as [o b e ms]. simpl in *. rewrite insert_id; [done|]. apply (i_empty _ _ H).
Qed.
