(* ===== verification/DataCreate.v ===== *)
(** * Creation of dispatch data objects

    Every way [dispatch_data_create] and [dispatch_data_create_alloc] go
    ([src/data.c]): a buffer that is adopted, copied into a new buffer or copied
    behind the object, a buffer that is missing or empty, and a copy for which
    there is no memory. *)

From S2P Require Import Prelude Object Data DataInv DataOps DataLife.

(** ** A new leaf over a block of its own *)

Section own_leaf.
Context (h : addr -> Z) (st : data_state) (H : inv h st) (a : addr) (k : nat) (bs : list Z) (dd : dispatch_data_s).
Hypothesis Ha : objs st !! a = None.
Hypothesis Hn : a <> dispatch_data_empty.
Hypothesis Hk : blocks st !! k = None.
Hypothesis Hr : records dd = [].
Hypothesis Href : dd_refs dd = _os_object_alloc_realized.
Hypothesis Hbuf : buf dd = Some {| p_block := k; p_off := 0 |}.
Hypothesis Hsz : size dd = Z.of_nat (length bs) /\ 0 < size dd < 2 ^ 64.
Hypothesis Hown : destr dd = DESTRUCTOR_FREE /\ inline_block dd = None \/ destr dd = DESTRUCTOR_NONE /\ inline_block dd = Some k.

Lemma own_leaf_ok st' : objs st' = <[a := dd]> (objs st) -> blocks st' = <[k := bs]> (blocks st) ->
  inv (hadd h a 1) st' /\ extends st st' /\ bytes st' a = bs.
Proof using All.
  intros Eo Eb. set (s1 := with_blocks st (<[k := bs]> (blocks st))).
  assert (forall j b, blocks st !! j = Some b -> blocks s1 !! j = Some b) as Hsub.
  { intros j b Hj. simpl. rewrite lookup_insert_ne; [done|congruence]. }
  assert (inv h s1) as H1 by (by apply (inv_more_blocks h st s1)).
  assert (forall b db, objs st !! b = Some db -> ~ uses db k) as Hnot.
  { intros b db Hb Hu. destruct (uses_alloc h st b db k H Hb Hu) as [? ?]. congruence. }
  assert (forall j, uses dd j -> j = k) as Huse.
  { intros j [Hj|Hj]; [destruct Hown as [[_ ?]|[_ ?]]; congruence|]. rewrite Hbuf in Hj. by simplify_eq/=. }
  destruct (inv_new_leaf h s1 a dd H1 Ha Hn Hr) as (Hi & He & Hby); try done.
  - constructor; [|apply Hsz|].
    + exists {| p_block := k; p_off := 0 |}, bs. split; [done|]. split; [apply lookup_insert_eq|]. simpl. split; [lia|]. split; [lia|done].
    + intros j Hj. destruct Hown as [[_ ?]|[-> Hin]]; [congruence|]. split; [done|]. rewrite Hbuf. congruence.
  - intros b db j Hb Ho Hu. rewrite (Huse j Hu) in Ho. by apply (Hnot b db Hb), owned_uses.
  - intros b db j Hb Ho Hu. apply owned_uses, Huse in Ho as ->. by apply (Hnot b db Hb).
  - set (s2 := with_objs s1 _) in *. split; [apply (inv_same _ s2); [by rewrite Eo|by rewrite Eb|exact Hi]|]. split.
    + constructor; [|intros j b Hj; rewrite Eb; by apply Hsub]. intros b d Hb. rewrite Eo. by apply (ex_objs _ _ He).
    + unfold bytes. rewrite Eo, lookup_insert_eq, (proj2 (leaf_iff dd) Hr), Eb. unfold leaf_bytes. rewrite Hbuf.
      rewrite (peek_whole (<[k := bs]> (blocks st)) k bs); [done|apply lookup_insert_eq|apply Hsz].
Qed.
End own_leaf.

(** ** The ways of creation *)

Lemma fresh_addr st : let a := fresh (dom (objs st) ∪ {[dispatch_data_empty]}) in objs st !! a = None /\ a <> dispatch_data_empty.
Proof.
  intros a. assert (a ∉ dom (objs st) ∪ {[dispatch_data_empty]}) as Hf by apply is_fresh.
  rewrite not_elem_of_union, not_elem_of_dom, not_elem_of_singleton in Hf. done.
Qed.

(** The copy of the bytes at [p] into a fresh block. *)
Lemma copy_run s k p n b bl : blocks s = <[k := replicate (Z.to_nat n) 0]> bl -> bl !! k = None -> peek bl p n = Some b ->
  memcpy {| p_block := k; p_off := 0 |} p n s = Done (tt, with_blocks s (<[k := b]> bl)).
Proof.
  intros Es Hk Hp. pose proof (peek_length _ _ _ _ Hp) as Ln.
  pose proof (memcpy_run s k p 0 n b [] 0) as E. rewrite ptr_add_0 in E. rewrite E; [|rewrite Es, lookup_insert_eq; simpl; do 2 f_equal; lia| |done].
  - rewrite Es, insert_insert_eq. simpl. by rewrite app_nil_r.
  - rewrite Es. by apply peek_insert_fresh.
Qed.

(** DISPATCH_DATA_DESTRUCTOR_DEFAULT: the bytes are copied into a buffer of the library. *)
Lemma create_default_ok h st p sz queue bs : inv h st -> 0 < sz < 2 ^ 64 -> peek (blocks st) p sz = Some bs ->
  head (mallocs st) <> Some false ->
  exists a st', dispatch_data_create (Some p) sz queue DESTRUCTOR_DEFAULT st = Done (Some a, st') /\
    inv (hadd h a 1) st' /\ extends st st' /\ bytes st' a = bs.
Proof.
  intros H Hsz Hp Hm. unfold dispatch_data_create. rewrite decide_False by lia. rewrite decide_True by done.
  set (k := fresh (dom (blocks st))). assert (blocks st !! k = None) as Hk by (apply not_elem_of_dom, is_fresh).
  pose proof (peek_length _ _ _ _ Hp) as Ln.
  set (s1 := {| objs := objs st; blocks := <[k := replicate (Z.to_nat sz) 0]> (blocks st); events := events st; mallocs := tail (mallocs st) |}).
  assert (malloc sz st = Done (Some {| p_block := k; p_off := 0 |}, s1)) as Hma by (unfold malloc; destruct (mallocs st) as [|[] ms]; done).
  erewrite bind_run by exact Hma. cbv beta iota. erewrite bind_run by (by apply (copy_run s1 k p sz bs (blocks st))). set (s2 := with_blocks s1 _).
  destruct (alloc_leaf_eval s2 {| p_block := k; p_off := 0 |} sz queue DESTRUCTOR_FREE) as (Hf & Hn & ->). eexists _, _. split; [reflexivity|].
  apply (own_leaf_ok h st H _ k bs (leaf {| p_block := k; p_off := 0 |} sz queue DESTRUCTOR_FREE None)); try done; first [by left|simpl; lia].
Qed.

(** The bytes are allocated with the object. *)
Lemma alloc_inline_eval {B} (f : addr -> ptr -> M B) st sz : 0 < sz -> sizeof_dispatch_data_s + sz < 2 ^ 64 ->
  let a := fresh (dom (objs st) ∪ {[dispatch_data_empty]}) in
  let k := fresh (dom (blocks st)) in
  exists s1, (o ← _dispatch_data_alloc 0 sz; a ← deref o; q ← inline_ptr a; f a q) st = f a {| p_block := k; p_off := 0 |} s1 /\
    blocks s1 = <[k := replicate (Z.to_nat sz) 0]> (blocks st) /\ events s1 = events st /\ mallocs s1 = mallocs st /\
    exists dd, objs s1 = <[a := dd]> (objs st) /\ dd_refs dd = _os_object_alloc_realized /\ dd_targetq dd = default_queue /\
      records dd = [] /\ inline_block dd = Some k.
Proof.
  intros Hsz Hmax a k. eexists. split.
  - unfold _dispatch_data_alloc. rewrite decide_False by lia. rewrite decide_False by (unfold sizeof_range_record; lia).
    destruct (decide (sz = 0)) as [|_]; [lia|].
    erewrite bind_run by reflexivity. erewrite bind_run by reflexivity. fold a k. unfold inline_ptr. erewrite bind_run; [reflexivity|]. erewrite bind_run by (apply load_run; simpl; apply lookup_insert_eq). reflexivity.
  - simpl. split_and!; try done. eexists. split; [reflexivity|]. done.
Qed.

Lemma init_run s a dd q sz queue d : objs s !! a = Some dd ->
  _dispatch_data_init a (Some q) sz queue d s = Done (tt, {| objs := <[a := {| dd_refs := dd_refs dd; dd_targetq := default (dd_targetq dd) queue;
      buf := Some q; destr := d; size := sz; records := records dd; inline_block := inline_block dd |}]> (objs s);
    blocks := blocks s; events := events s ++ queue_event queue; mallocs := mallocs s |}).
Proof.
  intros Hd. unfold _dispatch_data_init, store. erewrite bind_run by (by apply load_run).
  destruct queue as [qq|]; (erewrite bind_run by reflexivity); (erewrite bind_run by (by apply load_run)); unfold set_objs; simpl; by rewrite ?app_nil_r.
Qed.

(** DISPATCH_DATA_DESTRUCTOR_INLINE. *)
Lemma create_inline_ok h st p sz queue bs : inv h st -> 0 < sz -> sizeof_dispatch_data_s + sz < 2 ^ 64 -> peek (blocks st) p sz = Some bs ->
  exists a st', dispatch_data_create (Some p) sz queue DESTRUCTOR_INLINE st = Done (Some a, st') /\
    inv (hadd h a 1) st' /\ extends st st' /\ bytes st' a = bs.
Proof.
  intros H Hsz Hmax Hp. unfold dispatch_data_create. rewrite decide_False by lia. rewrite decide_False by done. rewrite decide_True by done.
  pose proof (peek_length _ _ _ _ Hp) as Ln. destruct (fresh_addr st) as [Hfa Hna].
  destruct (alloc_inline_eval (fun a q => _ ← memcpy q p sz; _ ← _dispatch_data_init a (Some q) sz queue DESTRUCTOR_NONE; mret (Some a)) st sz Hsz Hmax)
    as (s1 & -> & Eb & _ & _ & dd & Eo & Er & Et & Erec & Ei). set (a := fresh (dom (objs st) ∪ _)) in *. set (k := fresh (dom (blocks st))) in *.
  assert (blocks st !! k = None) as Hk by (apply not_elem_of_dom, is_fresh).
  erewrite bind_run by (by apply (copy_run s1 k p sz bs (blocks st))).
  erewrite bind_run by (apply (init_run _ a dd); simpl; rewrite Eo; apply lookup_insert_eq). eexists _, _. split; [reflexivity|].
  apply (own_leaf_ok h st H a k bs {| dd_refs := dd_refs dd; dd_targetq := default (dd_targetq dd) queue; buf := Some {| p_block := k; p_off := 0 |};
    destr := DESTRUCTOR_NONE; size := sz; records := records dd; inline_block := inline_block dd |}); try done.
  - simpl. unfold sizeof_dispatch_data_s in Hmax. lia.
  - by right.
  - simpl. by rewrite Eo, insert_insert_eq.
Qed.

(** [dispatch_data_create_alloc]. *)
Lemma create_alloc_ok h st sz : inv h st -> 0 < sz -> sizeof_dispatch_data_s + sz < 2 ^ 64 ->
  exists a p st', dispatch_data_create_alloc sz st = Done (a, Some p, st') /\
    inv (hadd h a 1) st' /\ extends st st' /\ Z.of_nat (length (bytes st' a)) = sz /\ peek (blocks st') p sz = Some (bytes st' a).
Proof.
  intros H Hsz Hmax. unfold dispatch_data_create_alloc. rewrite decide_False by lia. destruct (fresh_addr st) as [Hfa Hna].
  destruct (alloc_inline_eval (fun a q => _ ← _dispatch_data_init a (Some q) sz None DESTRUCTOR_NONE; mret (a, Some q)) st sz Hsz Hmax)
    as (s1 & -> & Eb & _ & _ & dd & Eo & Er & Et & Erec & Ei). set (a := fresh (dom (objs st) ∪ _)) in *. set (k := fresh (dom (blocks st))) in *.
  assert (blocks st !! k = None) as Hk by (apply not_elem_of_dom, is_fresh).
  erewrite bind_run by (apply (init_run _ a dd); simpl; rewrite Eo; apply lookup_insert_eq). eexists _, _, _. split; [reflexivity|].
  set (st' := {| objs := _ |}). assert (Z.of_nat (length (replicate (Z.to_nat sz) 0)) = sz) as Hl by (rewrite length_replicate; lia).
  destruct (own_leaf_ok h st H a k (replicate (Z.to_nat sz) 0) {| dd_refs := dd_refs dd; dd_targetq := default_queue;
      buf := Some {| p_block := k; p_off := 0 |}; destr := DESTRUCTOR_NONE; size := sz; records := records dd; inline_block := inline_block dd |})
    with (st' := st') as (Hi & He & Hb); try done.
  - simpl. unfold sizeof_dispatch_data_s in Hmax. lia.
  - by right.
  - simpl. rewrite Eo, insert_insert_eq, Et. done.
  - split; [done|]. split; [done|]. rewrite Hb. split; [done|]. simpl. rewrite Eb. apply peek_whole; [apply lookup_insert_eq|lia].
Qed.

(** A missing or an empty buffer: its destructor is called at once, and the empty object is
    returned; the buffer is freed if the caller passed it on. *)
Definition passed_on (st : data_state) (p : ptr) : Prop :=
  p_off p = 0 /\ is_Some (blocks st !! p_block p) /\ forall b db, objs st !! b = Some db -> ~ uses db (p_block p).

Lemma create_nothing_ok h st buffer sz queue d : inv h st -> buffer = None \/ sz = 0 ->
  (forall p, buffer = Some p -> d = DESTRUCTOR_FREE -> passed_on st p) ->
  exists st', dispatch_data_create buffer sz queue d st = Done (Some dispatch_data_empty, st') /\
    inv h st' /\ objs st' = objs st /\ forall c, bytes st' c = bytes st c.
Proof.
  intros H Hb Hf.
  assert (exists st', (if decide (d <> DESTRUCTOR_DEFAULT) then _dispatch_data_destroy_buffer buffer queue d else mret tt) st = Done (tt, st') /\
    inv h st' /\ objs st' = objs st /\ forall c, bytes st' c = bytes st c) as (st' & E & Hi & Ho & Hby).
  { assert (forall e, inv h {| objs := objs st; blocks := blocks st; events := e; mallocs := mallocs st |}) as Hev
      by (intros e; by apply (inv_same h st)).
    destruct (decide (d <> DESTRUCTOR_DEFAULT)); [|by exists st].
    destruct d; cbn [_dispatch_data_destroy_buffer]; try (eexists; split; [reflexivity|]; by split; [apply Hev|]).
    - destruct buffer as [p|]; cbn [free]; [|by exists st]. destruct (Hf p eq_refl eq_refl) as (H0 & Hbl & Hnu).
      exists (with_blocks st (delete (p_block p) (blocks st))).
      assert (forall c dc k, objs st !! c = Some dc -> uses dc k -> delete (p_block p) (blocks st) !! k = blocks st !! k) as Hag.
      { intros c dc k Hc Hu. rewrite lookup_delete_ne; [done|]. intros <-. by apply (Hnu c dc). }
      split; [unfold gets; erewrite bind_run by reflexivity; by rewrite decide_True by done|]. split; [|split; [done|]].
      + constructor; [|apply (i_handles _ _ H)]. by apply (core_agree h st); [apply H|done|].
      + intros c. by apply agree_bytes.
    - by exists st. }
  exists st'. split; [|done]. unfold dispatch_data_create. destruct buffer as [p|].
  - destruct Hb as [|Hz]; [done|]. rewrite decide_True by done. by erewrite bind_run by exact E.
  - by erewrite bind_run by exact E.
Qed.

(** ** When there is no memory *)

Definition malloc_fails (st : data_state) : Prop := head (mallocs st) = Some false.

(** [malloc] returned [NULL], and nothing else happened. *)
Definition no_memory (st : data_state) : data_state :=
  {| objs := objs st; blocks := blocks st; events := events st; mallocs := tail (mallocs st) |}.

Lemma no_memory_inv h st : inv h st -> inv h (no_memory st).
Proof. by apply inv_same. Qed.

Lemma no_memory_bytes st c : bytes (no_memory st) c = bytes st c.
Proof. by apply agree_bytes. Qed.

Lemma malloc_none st n : malloc_fails st -> malloc n st = Done (None, no_memory st).
Proof. unfold malloc_fails, malloc, no_memory. by destruct (mallocs st) as [|[] ms]. Qed.

Lemma create_default_fails st p sz queue : malloc_fails st -> sz <> 0 ->
  dispatch_data_create (Some p) sz queue DESTRUCTOR_DEFAULT st = Done (None, no_memory st).
Proof.
  intros Hm Hz. unfold dispatch_data_create. rewrite decide_False by done. rewrite decide_True by done. by erewrite bind_run by (by apply malloc_none).
Qed.

Lemma flatten_fails st a dd : objs st !! a = Some dd -> malloc_fails st -> _dispatch_data_flatten a st = Done (None, no_memory st).
Proof.
  intros Ha Hm. unfold _dispatch_data_flatten. erewrite bind_run by (by apply load_run). by erewrite bind_run by (by apply malloc_none).
Qed.

(** [dispatch_data_create_map], whatever [malloc] returns. *)
Lemma map_any h st a dd : inv h st -> objs st !! a = Some dd -> room st 1 ->
  (exists x p st', dispatch_data_create_map a st = Done (Some x, p, size dd, st') /\
    inv (hadd h x 1) st' /\ extends st st' /\ bytes st' x = bytes st a /\
    match p with Some p => peek (blocks st') p (size dd) = Some (bytes st a) | None => size dd = 0 end) \/
  malloc_fails st /\ dispatch_data_create_map a st = Done (None, None, 0, no_memory st).
Proof.
  intros H Ha Hroom. destruct (decide (head (mallocs st) = Some false)) as [Hm|Hm]; [|left; by apply map_ok].
  destruct (decide (size dd = 0)) as [E|E].
  { left. unfold dispatch_data_create_map. erewrite bind_run by (by apply load_run). rewrite decide_True by done.
    eexists _, _, st. split; [reflexivity|]. split; [apply inv_hadd_empty; [done|lia]|]. split; [apply extends_refl|]. split; [|done].
    pose proof (length_bytes h st H a dd Ha). assert (bytes st a = []) as -> by (apply nil_length_inv; lia). unfold bytes. by rewrite (i_empty _ _ H). }
  unfold dispatch_data_create_map. erewrite bind_run by (by apply load_run). rewrite decide_False by done.
  destruct (map_direct_0 h st H a dd Ha E) as (o & a' & off & Hmd & Ho). erewrite bind_run by done. cbv beta iota. destruct o as [p|].
  - left. destruct (retain_ok h st a H Hroom ltac:(by eexists)) as (st1 & Hret & Hi1 & He1 & Hb1 & _).
    erewrite bind_run by done. eexists _, (Some p), _. split; [reflexivity|]. split; [done|]. split; [done|].
    rewrite Hb1. split; [|done]. by eapply bytes_ext; [apply H| |eexists].
  - right. split; [done|]. by erewrite bind_run by (by apply (flatten_fails st a dd)).
Qed.
