(* ===== verification/DataSpec.v ===== *)
(** * Specification of dispatch data objects

    The theorems of the component: what each operation of [src/data.c] returns,
    in terms of the bytes the objects stand for, and what any sequence of client
    operations preserves. *)

From S2P Require Import Prelude Object Data DataInv DataOps DataLife DataCreate.

Lemma flattened_ok h st a dd : inv h st -> objs st !! a = Some dd -> head (mallocs st) <> Some false ->
  exists p st', dispatch_data_get_flattened_bytes_4libxpc a st = Done (p, st') /\ inv h st' /\ extends st st' /\
    match p with Some p => peek (blocks st') p (size dd) = Some (bytes st a) | None => size dd = 0 end.
Proof.
  intros H Ha Hm. pose proof (length_bytes h st H a dd Ha) as Lb.
  unfold dispatch_data_get_flattened_bytes_4libxpc. erewrite bind_run by (by apply load_run).
  destruct (decide (size dd = 0)) as [E|E].
  { exists None, st. split; [done|]. split; [done|]. split; [apply extends_refl|done]. }
  destruct (map_direct_0 h st H a dd Ha E) as (o & a' & off & Hmd & Ho).
  erewrite bind_run by done. cbv beta iota. destruct o as [p|].
  { exists (Some p), st. split; [done|]. split; [done|]. split; [apply extends_refl|done]. }
  destruct Ho as (-> & -> & Hbuf & Hr & Hlen).
  erewrite bind_run by (by apply (flatten_ok h st a dd)). cbv beta iota. set (k := fresh _).
  assert (blocks st !! k = None) as Hk by (apply not_elem_of_dom, is_fresh).
  set (s1 := {| objs := objs st |}).
  assert (forall j b, blocks st !! j = Some b -> blocks s1 !! j = Some b) as Hsub.
  { intros j b Hj. simpl. rewrite lookup_insert_ne; [done|congruence]. }
  assert (inv h s1) as H1 by (by apply (inv_more_blocks h st s1)).
  erewrite bind_run by (by apply load_run). rewrite Hbuf.
  set (dd' := {| dd_refs := dd_refs dd; buf := Some _ |}). set (st2 := with_objs s1 (<[a := dd']> (objs st))).
  assert (same_shape dd dd') as Hss by (repeat split; done).
  assert (extends s1 st2) as He2.
  { constructor; [|done]. intros c d Hc. simpl in Hc |- *. destruct (decide (c = a)) as [->|Hca].
    - rewrite lookup_insert_eq. simplify_eq. by exists dd'.
    - rewrite lookup_insert_ne by done. by exists d. }
  assert (forall c d j, objs st !! c = Some d -> uses d j -> j <> k) as Hnk.
  { intros c d j Hc Hu ->. destruct (uses_alloc h st c d k H Hc Hu) as [? ?]. congruence. }
  destruct (inv_composite h st H a dd Ha Hr) as [D1 D2 D3 D4 D5].
  assert (bytes st a = recs_bytes st (records dd)) as Ebs.
  { unfold bytes. rewrite Ha. destruct (_dispatch_data_leaf dd) eqn:El; [apply leaf_iff in El; congruence|done]. }
  exists (Some (ptr_add {| p_block := k; p_off := 0 |} 0)), st2. split; [|split; [|split]].
  - unfold store. erewrite bind_run; [reflexivity|]. erewrite bind_run by (by apply load_run). done.
  - constructor; [constructor|].
    + simpl. rewrite lookup_insert_ne; [apply H|]. intros ->. rewrite (i_empty _ _ H) in Ha. by simplify_eq.
    + intros c d Hcn Hc. simpl in Hc. destruct (decide (c = a)) as [->|Hca].
      * rewrite lookup_insert_eq in Hc. simplify_eq. unfold obj_ok. rewrite decide_False by done.
        assert (extends st st2) as He by (eapply extends_trans; [by apply (extends_same st s1)|done]).
        constructor; try done.
        -- eapply Forall_impl; [done|]. intros r Hr'. by eapply rec_ok_ext.
        -- simpl. intros p [= <-]. split; [done|]. simpl. rewrite lookup_insert_eq, Ebs. f_equal.
           symmetry. by eapply recs_bytes_ext; [apply H|..].
      * rewrite lookup_insert_ne in Hc by done. by eapply (obj_ok_ext h s1 H1 st2 He2 c).
    + intros c d Hcn Hc. simpl. rewrite (owners_insert_same _ _ dd) by done. simpl in Hc.
      destruct (decide (c = a)) as [->|Hca].
      * rewrite lookup_insert_eq in Hc. simplify_eq. by apply (i_refs _ _ H a dd).
      * rewrite lookup_insert_ne in Hc by done. by apply (i_refs _ _ H c d).
    + intros c e dc de j Hce Hc He Ho Hu. simpl in Hc, He. rewrite lookup_insert_Some in Hc, He.
      destruct Hc as [[<- <-]|[Hc1 Hc]], He as [[<- <-]|[He1 He]]; [done|..].
      * unfold owned in Ho. simpl in Ho. rewrite D5, decide_False in Ho by tauto. simplify_eq. by eapply Hnk.
      * destruct Hu as [Hu|Hu]; simpl in Hu; [congruence|]. simplify_eq. eapply Hnk; [done|by apply owned_uses|done].
      * by eapply (i_owned _ _ H c e dc de j).
    + intros c. destruct (i_handles _ _ H c) as [? Hh]. split; [done|]. intros Hp. simpl.
      apply lookup_insert_is_Some'. right. by apply Hh.
  - eapply extends_trans; [by apply (extends_same st s1)|done].
  - rewrite ptr_add_0. apply peek_whole; [apply lookup_insert_eq|lia].
Qed.

(** [dispatch_data_get_flattened_bytes_4libxpc], whatever [malloc] returns. *)
Lemma flattened_any h st a dd : inv h st -> objs st !! a = Some dd ->
  (exists p st', dispatch_data_get_flattened_bytes_4libxpc a st = Done (p, st') /\ inv h st' /\ extends st st' /\
    match p with Some p => peek (blocks st') p (size dd) = Some (bytes st a) | None => size dd = 0 end) \/
  malloc_fails st /\ dispatch_data_get_flattened_bytes_4libxpc a st = Done (None, no_memory st).
Proof.
  intros H Ha. destruct (decide (head (mallocs st) = Some false)) as [Hm|Hm]; [|left; by apply flattened_ok].
  unfold dispatch_data_get_flattened_bytes_4libxpc. erewrite bind_run by (by apply load_run).
  destruct (decide (size dd = 0)) as [E|E].
  { left. exists None, st. split; [done|]. split; [done|]. split; [apply extends_refl|done]. }
  destruct (map_direct_0 h st H a dd Ha E) as (o & a' & off & Hmd & Ho). erewrite bind_run by done. cbv beta iota. destruct o as [p|].
  - left. exists (Some p), st. split; [done|]. split; [done|]. split; [apply extends_refl|done].
  - right. split; [done|]. destruct Ho as (-> & -> & _). by erewrite bind_run by (by apply (flatten_fails st a dd)).
Qed.

(** ** Client operations *)

Inductive data_op :=
| OpCreate (buffer : option ptr) (sz : Z) (queue : option nat) (d : destructor)
| OpCreateAlloc (sz : Z)
| OpConcat (a b : addr)
| OpSubrange (a : addr) (offset length : Z)
| OpMap (a : addr)
| OpCopyRegion (a : addr) (location : Z)
| OpFlatten (a : addr)
| OpRetain (a : addr)
| OpRelease (a : addr).

(** What a call returns: the object, the pointer, and the size of a mapping or the offset of
    a region; [None] is NULL, or nothing of this kind. *)
Record data_result := { dr_object : option addr; dr_ptr : option ptr; dr_num : Z }.

Definition just_object (x : option addr) : data_result := {| dr_object := x; dr_ptr := None; dr_num := 0 |}.

Definition exec_data_op (o : data_op) : M data_result :=
  match o with
  | OpCreate buffer sz queue d => x ← dispatch_data_create buffer sz queue d; mret (just_object x)
  | OpCreateAlloc sz => r ← dispatch_data_create_alloc sz; mret {| dr_object := Some r.1; dr_ptr := r.2; dr_num := 0 |}
  | OpConcat a b => x ← dispatch_data_create_concat a b; mret (just_object x)
  | OpSubrange a off l => x ← dispatch_data_create_subrange a off l; mret (just_object x)
  | OpMap a => r ← dispatch_data_create_map a; mret {| dr_object := r.1.1; dr_ptr := r.1.2; dr_num := r.2 |}
  | OpCopyRegion a loc => r ← dispatch_data_copy_region a loc; mret {| dr_object := r.1; dr_ptr := None; dr_num := r.2 |}
  | OpFlatten a => p ← dispatch_data_get_flattened_bytes_4libxpc a; mret {| dr_object := None; dr_ptr := p; dr_num := 0 |}
  | OpRetain a => _ ← _dispatch_data_retain a; mret (just_object (Some a))
  | OpRelease a => _ ← _dispatch_data_release a; mret (just_object None)
  end.

(** The client holds a reference to [a] (the empty object needs none). *)
Definition holds (h : addr -> Z) (a : addr) : Prop := a = dispatch_data_empty \/ 0 < h a.

(** No count is near the immortal value. *)
Definition resources (st : data_state) : Prop :=
  forall a dd, a <> dispatch_data_empty -> objs st !! a = Some dd -> xref dd < 2 ^ 29 /\ num_records dd < 2 ^ 29.

(** What the client owes: references to the objects it names, buffers it may read and, if
    they are adopted, that are its own; sizes that fit an address space of 64 bits, with the
    structure in front where the bytes are allocated behind it. *)
Definition data_op_valid (h : addr -> Z) (st : data_state) (o : data_op) : Prop :=
  match o with
  | OpCreate (Some p) sz _ d =>
      0 <= sz < 2 ^ 64 /\
      if decide (sz = 0) then d = DESTRUCTOR_FREE -> passed_on st p
      else match d with
      | DESTRUCTOR_DEFAULT => is_Some (peek (blocks st) p sz)
      | DESTRUCTOR_INLINE => is_Some (peek (blocks st) p sz) /\ sizeof_dispatch_data_s + sz < 2 ^ 64
      | _ => client_buffer st p sz d
      end
  | OpCreate None sz _ _ => True
  | OpCreateAlloc sz => 0 <= sz /\ sizeof_dispatch_data_s + sz < 2 ^ 64
  | OpConcat a b => holds h a /\ holds h b /\
      Z.of_nat (length (bytes st a)) + Z.of_nat (length (bytes st b)) < 2 ^ 64
  | OpSubrange a off l => holds h a /\ 0 <= off /\ 0 <= l
  | OpCopyRegion a loc => holds h a /\ 0 <= loc
  | OpMap a | OpFlatten a | OpRetain a | OpRelease a => holds h a
  end.

(** The references held after the operation. *)
Definition handles_after (h : addr -> Z) (o : data_op) (r : data_result) : addr -> Z :=
  match o, dr_object r with
  | OpRelease a, _ => if decide (a = dispatch_data_empty) then h else hadd h a (-1)
  | _, Some x => hadd h x 1
  | _, None => h
  end.

(** What the operation returns, in terms of the bytes that the objects stand for before
    ([st]) and after ([st']). *)
Definition returns_right (st : data_state) (o : data_op) (r : data_result) (st' : data_state) : Prop :=
  let sz a := Z.of_nat (length (bytes st a)) in
  match o with
  | OpCreate buffer n _ d =>
      match dr_object r with
      | Some x => match buffer with
                  | Some p => if decide (n = 0) then x = dispatch_data_empty else peek (blocks st) p n = Some (bytes st' x)
                  | None => x = dispatch_data_empty
                  end
      | None => d = DESTRUCTOR_DEFAULT /\ is_Some buffer /\ n <> 0 /\ malloc_fails st
      end
  | OpCreateAlloc n => exists x, dr_object r = Some x /\ Z.of_nat (length (bytes st' x)) = n /\
      match dr_ptr r with Some p => peek (blocks st') p n = Some (bytes st' x) | None => n = 0 end
  | OpConcat a b => exists x, dr_object r = Some x /\ bytes st' x = bytes st a ++ bytes st b
  | OpSubrange a off l => exists x, dr_object r = Some x /\ bytes st' x = slice (bytes st a) off l
  | OpMap a =>
      match dr_object r with
      | Some x => bytes st' x = bytes st a /\ dr_num r = sz a /\
          match dr_ptr r with Some p => peek (blocks st') p (sz a) = Some (bytes st a) | None => bytes st a = [] end
      | None => malloc_fails st /\ dr_ptr r = None /\ dr_num r = 0
      end
  | OpCopyRegion a loc => exists x, dr_object r = Some x /\
      if decide (loc < sz a)
      then let n := Z.of_nat (length (bytes st' x)) in
           0 <= dr_num r <= loc /\ loc < dr_num r + n /\ bytes st' x = slice (bytes st a) (dr_num r) n
      else x = dispatch_data_empty /\ dr_num r = sz a
  | OpFlatten a => dr_object r = None /\
      match dr_ptr r with Some p => peek (blocks st') p (sz a) = Some (bytes st a) | None => bytes st a = [] \/ malloc_fails st end
  | OpRetain a => dr_object r = Some a
  | OpRelease a => dr_object r = None
  end.

Lemma holds_alloc h st a : inv h st -> holds h a -> exists dd, objs st !! a = Some dd.
Proof.
  intros H [->|Hh]; [eexists; apply (i_empty _ _ H)|]. by apply (i_handles _ _ H a).
Qed.

Lemma resources_fits st n : resources st -> n <= 2 ^ 30 -> fits st n.
Proof.
  intros Hr Hn. split; [lia|]. intros a dd Ha Hd. destruct (Hr a dd Ha Hd). unfold INT_MAX. lia.
Qed.

Lemma resources_records st h a dd : inv h st -> resources st -> objs st !! a = Some dd ->
  _dispatch_data_num_records dd <= 2 ^ 29.
Proof.
  intros H Hr Ha. destruct (decide (a = dispatch_data_empty)) as [->|Hn].
  - rewrite (i_empty _ _ H) in Ha. simplify_eq. done.
  - destruct (Hr a dd Hn Ha). unfold _dispatch_data_num_records. case_decide; lia.
Qed.

(** What a client operation does. *)
Record op_does (h : addr -> Z) (st : data_state) (o : data_op) (r : data_result) (st' : data_state) : Prop := {
  od_inv : inv (handles_after h o r) st';
  od_result : returns_right st o r st';
  od_keeps : forall a, holds (handles_after h o r) a -> is_Some (objs st !! a) -> bytes st' a = bytes st a;
}.

(** Operations that return an object and only add to the store. *)
Lemma op_extends h st o x r st' : inv h st -> dr_object r = Some x -> inv (hadd h x 1) st' -> extends st st' ->
  returns_right st o r st' -> (forall a, o <> OpRelease a) -> op_does h st o r st'.
Proof.
  intros H Er Hi He Hx Ho.
  assert (handles_after h o r = hadd h x 1) as E by (unfold handles_after; rewrite Er; destruct o; try done; by destruct (Ho a)).
  constructor; rewrite ?E; [done|done|]. intros a _ Ha. by eapply bytes_ext; [apply H|..].
Qed.

(** Operations that return no object and change the bytes of none. *)
Lemma op_quiet h st o r st' : inv h st' -> dr_object r = None -> (forall a, o <> OpRelease a) ->
  returns_right st o r st' -> (forall a, is_Some (objs st !! a) -> bytes st' a = bytes st a) -> op_does h st o r st'.
Proof.
  intros Hi Er Ho Hx Hb. assert (handles_after h o r = h) as E by (unfold handles_after; rewrite Er; destruct o; try done; by destruct (Ho a)).
  constructor; rewrite ?E; [done|done|]. intros a _ Ha. by apply Hb.
Qed.

Lemma returns_does h st o bs (m : M (option addr)) (f : option addr -> data_result) : inv h st -> returns h st bs (m st) ->
  (forall x, dr_object (f (Some x)) = Some x) -> (forall x st', bytes st' x = bs -> returns_right st o (f (Some x)) st') -> (forall a, o <> OpRelease a) ->
  exists r st', ((x ← m; mret (f x)) : M data_result) st = Done (r, st') /\ op_does h st o r st'.
Proof.
  intros H [(x & st' & E & Hi & He & Hb)] Hf Hx Ho. exists (f (Some x)), st'. split; [by erewrite bind_run by exact E|].
  apply (op_extends h st o x); try done; first [apply Hf|by apply Hx].
Qed.

Lemma create_op_ok h st buffer sz queue d : inv h st -> data_op_valid h st (OpCreate buffer sz queue d) ->
  exists r st', exec_data_op (OpCreate buffer sz queue d) st = Done (r, st') /\ op_does h st (OpCreate buffer sz queue d) r st'.
Proof.
  intros H Hv.
  assert (buffer = None \/ sz = 0 -> (forall p, buffer = Some p -> d = DESTRUCTOR_FREE -> passed_on st p) ->
    exists r st', exec_data_op (OpCreate buffer sz queue d) st = Done (r, st') /\ op_does h st (OpCreate buffer sz queue d) r st') as Hnone.
  { intros Hb Hp. destruct (create_nothing_ok h st buffer sz queue d H Hb Hp) as (st' & E & Hi & Ho & Hby). unfold exec_data_op.
    erewrite bind_run by exact E. eexists _, st'. split; [done|]. constructor; simpl.
    - apply inv_hadd_empty; [done|lia].
    - destruct buffer; [|done]. destruct Hb as [|Hz]; [done|]. by rewrite decide_True.
    - intros a _ _. apply Hby. }
  destruct buffer as [p|]; [|apply Hnone; [by left|done]]. destruct Hv as [Hsz Hv]. destruct (decide (sz = 0)) as [Hz|Hz].
  { apply Hnone; [by right|]. intros q [= <-]. done. }
  assert (forall x st', dispatch_data_create (Some p) sz queue d st = Done (Some x, st') -> inv (hadd h x 1) st' -> extends st st' ->
    peek (blocks st) p sz = Some (bytes st' x) -> exists r st', exec_data_op (OpCreate (Some p) sz queue d) st = Done (r, st') /\
      op_does h st (OpCreate (Some p) sz queue d) r st') as Hsome.
  { intros x st' E Hi He Hb. unfold exec_data_op. erewrite bind_run by exact E. eexists _, st'. split; [done|]. apply (op_extends h st _ x); try done.
    simpl. by rewrite decide_False. }
  assert (client_buffer st p sz d -> d <> DESTRUCTOR_DEFAULT -> d <> DESTRUCTOR_INLINE -> exists r st',
    exec_data_op (OpCreate (Some p) sz queue d) st = Done (r, st') /\ op_does h st (OpCreate (Some p) sz queue d) r st') as Hplain.
  { intros Hcb Hd1 Hd2. destruct (create_plain_ok h st p sz queue d H ltac:(lia) Hcb) as (x & st' & E & Hi & He & Hb).
    apply (Hsome x st'); try done. unfold dispatch_data_create. by rewrite !decide_False by done. }
  destruct d; try (by apply Hplain).
  - destruct Hv as [bs Hp]. destruct (decide (head (mallocs st) = Some false)) as [Hm|Hm].
    + pose proof (create_default_fails st p sz queue Hm Hz) as E. unfold exec_data_op. erewrite bind_run by exact E. eexists _, _. split; [done|].
      apply op_quiet; try done; first [by apply no_memory_inv|intros a _; apply no_memory_bytes].
    + destruct (create_default_ok h st p sz queue bs H ltac:(lia) Hp Hm) as (x & st' & E & Hi & He & Hb). apply (Hsome x st'); try done. by rewrite Hb.
  - destruct Hv as [[bs Hp] Hmax]. destruct (create_inline_ok h st p sz queue bs H ltac:(lia) Hmax Hp) as (x & st' & E & Hi & He & Hb).
    apply (Hsome x st'); try done. by rewrite Hb.
Qed.

Lemma create_alloc_op_ok h st sz : inv h st -> data_op_valid h st (OpCreateAlloc sz) ->
  exists r st', exec_data_op (OpCreateAlloc sz) st = Done (r, st') /\ op_does h st (OpCreateAlloc sz) r st'.
Proof.
  intros H [Hsz Hmax]. unfold exec_data_op. destruct (decide (sz = 0)) as [->|Hz].
  - eexists _, st. split; [reflexivity|]. apply (op_extends h st _ dispatch_data_empty); try done; [apply inv_hadd_empty; [done|lia]|apply extends_refl|].
    exists dispatch_data_empty. simpl. unfold bytes. by rewrite (i_empty _ _ H).
  - destruct (create_alloc_ok h st sz H ltac:(lia) Hmax) as (x & p & st' & E & Hi & He & Hl & Hp). erewrite bind_run by exact E.
    eexists _, st'. split; [done|]. apply (op_extends h st _ x); try done. by exists x.
Qed.

Lemma map_op_ok h st a da : inv h st -> room st 1 -> objs st !! a = Some da ->
  exists r st', exec_data_op (OpMap a) st = Done (r, st') /\ op_does h st (OpMap a) r st'.
Proof.
  intros H Hr1 Hda. pose proof (length_bytes h st H a da Hda) as Lb. unfold exec_data_op.
  destruct (map_any h st a da H Hda Hr1) as [(x & p & st' & E & Hi & He & Hb & Hp)|[Hm E]]; erewrite bind_run by exact E; eexists _, _; (split; [done|]).
  - apply (op_extends h st _ x); try done. simpl. rewrite Lb. split_and!; try done. destruct p; [done|]. apply nil_length_inv. lia.
  - apply op_quiet; try done; first [by apply no_memory_inv|intros c _; apply no_memory_bytes].
Qed.

Lemma flatten_op_ok h st a da : inv h st -> objs st !! a = Some da ->
  exists r st', exec_data_op (OpFlatten a) st = Done (r, st') /\ op_does h st (OpFlatten a) r st'.
Proof.
  intros H Hda. pose proof (length_bytes h st H a da Hda) as Lb. unfold exec_data_op.
  destruct (flattened_any h st a da H Hda) as [(p & st' & E & Hi & He & Hp)|[Hm E]]; erewrite bind_run by exact E; eexists _, _; (split; [done|]).
  - apply op_quiet; try done; [|intros c Hc; by eapply bytes_ext; [apply H|..]]. simpl. split; [done|]. rewrite Lb. destruct p; [done|].
    left. apply nil_length_inv. lia.
  - apply op_quiet; try done; first [by apply no_memory_inv|by split; [|right]|intros c _; apply no_memory_bytes].
Qed.

Lemma copy_region_op_ok h st a da loc : inv h st -> room st 1 -> objs st !! a = Some da -> 0 <= loc ->
  exists r st', exec_data_op (OpCopyRegion a loc) st = Done (r, st') /\ op_does h st (OpCopyRegion a loc) r st'.
Proof.
  intros H Hr1 Hda Hloc. pose proof (length_bytes h st H a da Hda) as Lb. unfold exec_data_op. destruct (decide (loc < size da)) as [Hl|Hl].
  - destruct (copy_region_ok h st H a da loc Hda ltac:(lia) Hr1) as (x & off & st' & E & Hi & He & H1 & H2 & H3).
    erewrite bind_run by exact E. eexists _, st'. split; [done|]. apply (op_extends h st _ x); try done.
    exists x. simpl. split; [done|]. by rewrite decide_True by lia.
  - assert (dispatch_data_copy_region a loc st = Done (Some dispatch_data_empty, size da, st)) as E.
    { unfold dispatch_data_copy_region. erewrite bind_run by (by apply load_run). by rewrite decide_True by lia. }
    erewrite bind_run by exact E. eexists _, st. split; [done|].
    apply (op_extends h st _ dispatch_data_empty); try done; [apply inv_hadd_empty; [done|lia]|apply extends_refl|].
    exists dispatch_data_empty. simpl. split; [done|]. by rewrite decide_False by lia.
Qed.

Lemma release_op_ok h st a da : inv h st -> resources st -> objs st !! a = Some da -> holds h a ->
  exists r st', exec_data_op (OpRelease a) st = Done (r, st') /\ op_does h st (OpRelease a) r st'.
Proof.
  intros H Hres Hda Hv. unfold exec_data_op. destruct (decide (a = dispatch_data_empty)) as [->|Hn].
  - destruct (release_empty_ok h st H) as (st' & E & ->). erewrite bind_run by exact E. eexists _, st. split; [done|]. by constructor.
  - destruct Hv as [|Hh]; [done|]. destruct (release_ok h st a da H Hda Hn Hh) as (st' & E & Hi & Hs).
    { apply (resources_fits st 0 Hres). lia. }
    erewrite bind_run by exact E. eexists _, st'. split; [done|]. constructor; simpl; [by rewrite decide_False by done|done|].
    rewrite decide_False by done. intros c Hc Hc'. apply (sv_bytes _ _ Hs). destruct (holds_alloc _ _ c Hi Hc) as [dc Hdc]. by eexists.
Qed.

Lemma data_op_ok h st o : inv h st -> resources st -> data_op_valid h st o ->
  exists r st', exec_data_op o st = Done (r, st') /\ op_does h st o r st'.
Proof.
  intros H Hres Hv. pose proof (resources_fits st 1 Hres ltac:(lia)) as [_ Hr1].
  destruct o as [buffer sz queue d|sz|a b|a off l|a|a loc|a|a|a].
  - by apply create_op_ok.
  - by apply create_alloc_op_ok.
  - destruct Hv as (Ha & Hb & Hlt). destruct (holds_alloc h st a H Ha) as [da Hda].
    destruct (holds_alloc h st b H Hb) as [db Hdb].
    rewrite (length_bytes h st H a da Hda), (length_bytes h st H b db Hdb) in Hlt.
    pose proof (resources_records st h a da H Hres Hda). pose proof (resources_records st h b db H Hres Hdb).
    assert (fits st (_dispatch_data_num_records da + _dispatch_data_num_records db)) as Hf
      by (apply resources_fits; [done|lia]).
    eapply (returns_does h st (OpConcat a b) _ _ just_object H (concat_ok h st a b da db H Hda Hdb Hlt Hf)); try done.
    intros x st' Hx. by exists x.
  - destruct Hv as (Ha & Hoff & Hl). destruct (holds_alloc h st a H Ha) as [da Hda].
    pose proof (resources_records st h a da H Hres Hda).
    assert (fits st (_dispatch_data_num_records da)) as Hf by (apply resources_fits; [done|lia]).
    eapply (returns_does h st (OpSubrange a off l) _ _ just_object H (subrange_ok h st H a da off l Hda Hoff Hl Hf)); try done.
    intros x st' Hx. by exists x.
  - destruct (holds_alloc h st a H Hv) as [da Hda]. by apply (map_op_ok h st a da).
  - destruct Hv as [Ha Hloc]. destruct (holds_alloc h st a H Ha) as [da Hda]. by apply (copy_region_op_ok h st a da).
  - destruct (holds_alloc h st a H Hv) as [da Hda]. by apply (flatten_op_ok h st a da).
  - destruct (retain_ok h st a H Hr1) as (st' & E & Hi & He & _); [by apply (holds_alloc h st a H)|].
    eexists _, st'. split; [unfold exec_data_op; by erewrite bind_run by exact E|]. by apply (op_extends h st _ a).
  - destruct (holds_alloc h st a H Hv) as [da Hda]. by apply (release_op_ok h st a da).
Qed.

(** ** Runs of client operations *)

Definition empty_state : data_state :=
  {| objs := {[ dispatch_data_empty := _dispatch_data_empty ]}; blocks := ∅; events := []; mallocs := [] |}.

(** States reached by a client that uses only references it holds; it may also
    allocate buffers of its own.  [ms] are the outcomes of the calls of [malloc]
    to come. *)
Inductive data_reach : (addr -> Z) -> data_state -> Prop :=
| dr_init ms : data_reach (fun _ => 0)
    {| objs := objs empty_state; blocks := blocks empty_state; events := events empty_state; mallocs := ms |}
| dr_buffer h st k bs : data_reach h st -> blocks st !! k = None ->
    data_reach h (with_blocks st (<[k := bs]> (blocks st)))
| dr_op h st o r st' : data_reach h st -> resources st -> data_op_valid h st o ->
    exec_data_op o st = Done (r, st') -> data_reach (handles_after h o r) st'.

Lemma empty_state_inv : inv (fun _ => 0) empty_state.
Proof.
  constructor; [constructor|].
  - apply lookup_singleton_eq.
  - intros a dd Hn Ha. simpl in Ha. by rewrite lookup_singleton_ne in Ha.
  - intros a dd Hn Ha. simpl in Ha. by rewrite lookup_singleton_ne in Ha.
  - intros a b da db k Hab Ha Hb. simpl in *. apply lookup_singleton_Some in Ha as [<- <-], Hb as [<- <-]. done.
  - intros a. split; [done|]. lia.
Qed.

Lemma data_reach_inv h st : data_reach h st -> inv h st.
Proof.
  induction 1 as [ms|h st k bs _ IH Hk|h st o r st' _ IH Hres Hv He].
  - apply (inv_same _ empty_state); [done|done|apply empty_state_inv].
  - apply (inv_more_blocks h st); [done| |done]. intros j b Hj. simpl. rewrite lookup_insert_ne; [done|congruence].
  - destruct (data_op_ok h st o IH Hres Hv) as (r' & s' & He' & Ho). rewrite He in He'. simplify_eq. apply Ho.
Qed.

(** C18: in every state a client can reach, every operation it is entitled to does not
    crash and returns what it promises.  Creation, with any destructor and with a NULL or
    an empty buffer, returns an object that stands for the bytes of the buffer;
    concatenation, subrange, map and retain return an object with the bytes computed from
    those of the arguments; a region holds the location asked for and comes with its offset;
    map and flatten come with a pointer to the bytes in one piece.  NULL is returned instead
    of an object only by the creation of a copy and by map, and of a pointer to bytes by
    flatten, each only when [malloc] fails.  Every object the client still holds keeps its
    bytes.  (The client's part is [data_op_valid]; the sizes of a concatenation must add up
    to less than 2^64, see [concat_size_wraps].) *)
Theorem data_operations_correct (h : addr -> Z) (st : data_state) (o : data_op) :
  data_reach h st -> resources st -> data_op_valid h st o ->
  exists r st', exec_data_op o st = Done (r, st') /\ data_reach (handles_after h o r) st' /\
    returns_right st o r st' /\
    (forall a, holds (handles_after h o r) a -> is_Some (objs st !! a) -> bytes st' a = bytes st a).
Proof.
  intros Hr Hres Hv. destruct (data_op_ok h st o (data_reach_inv h st Hr) Hres Hv) as (r & st' & He & [? ? ?]).
  exists r, st'. split; [done|]. split; [by eapply dr_op|done].
Qed.

(** Objects are alive exactly through handles and records. *)
Lemma referenced h st a dd : inv h st -> a <> dispatch_data_empty -> objs st !! a = Some dd ->
  (records dd <> [] -> 0 < h a) /\ 0 < h a + owners (objs st) a.
Proof.
  intros H Hn Ha. destruct (i_refs _ _ H a dd Hn Ha) as (_ & Hx & ?). split; [|lia]. intros Hr.
  enough (owners (objs st) a = 0) by lia. apply owners_none. intros b d r Hb Hin E.
  destruct (decide (records d = [])) as [E0|E0]; [rewrite E0 in Hin; by apply elem_of_nil in Hin|].
  destruct (inv_composite h st H b d Hb E0) as [Hrs _ _ _ _]. rewrite Forall_forall in Hrs.
  destruct (ro_leaf _ _ (Hrs r Hin)) as (d' & Hd' & Hd'r & _). rewrite E in Hd'. congruence.
Qed.

(** An object that a record refers to is a leaf that is alive, and its bytes cover the
    record. *)
Lemma record_target h st b db r : inv h st -> objs st !! b = Some db -> r ∈ records db ->
  exists d, objs st !! data_object r = Some d /\ data_object r <> dispatch_data_empty /\ records d = [] /\ from r + len r <= size d.
Proof.
  intros H Hb Hin. assert (records db <> []) as Hne by (intros E0; rewrite E0 in Hin; by apply elem_of_nil in Hin).
  pose proof (cm_recs _ _ (inv_composite h st H b db Hb Hne)) as Hrs. rewrite Forall_forall in Hrs.
  destruct (rec_ok_leaf h st H r (Hrs r Hin)) as (d & Hd & Hn & Hr & _ & _ & _ & Hs & _). by exists d.
Qed.

(** A leaf reads a buffer that is still allocated. *)
Lemma leaf_buffer h st a dd : inv h st -> a <> dispatch_data_empty -> objs st !! a = Some dd -> records dd = [] ->
  exists p, buf dd = Some p /\ peek (blocks st) p (size dd) = Some (bytes st a).
Proof.
  intros H Hn Ha Hr. pose proof (i_ok _ _ H a dd Hn Ha) as Ho. unfold obj_ok in Ho. rewrite decide_True in Ho by done.
  destruct Ho as [(p & b & Hp & Hb & H1 & H2 & _) Hs _]. exists p. split; [done|].
  unfold bytes. rewrite Ha, (proj2 (leaf_iff dd) Hr). unfold leaf_bytes. rewrite Hp. unfold peek. rewrite Hb. simpl. by rewrite decide_True by lia.
Qed.

(** C20: no object is leaked and none is freed early.  In every reachable state a data object
    other than the immortal empty one is alive exactly while the client holds a reference to
    it or a rope the client holds refers to it; its count is the number of these references;
    the leaf a record refers to is alive and large enough, and the buffer of a leaf is still
    allocated.  When the client has released all its references, only the empty object
    remains. *)
Theorem data_no_leak (h : addr -> Z) (st : data_state) :
  data_reach h st ->
  (forall a, a <> dispatch_data_empty -> is_Some (objs st !! a) <->
     0 < h a \/ exists b db r, objs st !! b = Some db /\ 0 < h b /\ r ∈ records db /\ data_object r = a) /\
  (forall a dd, a <> dispatch_data_empty -> objs st !! a = Some dd -> xref dd + 1 = h a + owners (objs st) a) /\
  (forall b db r, objs st !! b = Some db -> r ∈ records db ->
     exists d, objs st !! data_object r = Some d /\ records d = [] /\ from r + len r <= size d) /\
  (forall a dd, a <> dispatch_data_empty -> objs st !! a = Some dd -> records dd = [] ->
     exists p, buf dd = Some p /\ peek (blocks st) p (size dd) = Some (bytes st a)) /\
  ((forall a, a <> dispatch_data_empty -> h a = 0) -> dom (objs st) = {[ dispatch_data_empty ]}).
Proof.
  intros Hr. pose proof (data_reach_inv h st Hr) as H.
  assert (forall a dd, a <> dispatch_data_empty -> objs st !! a = Some dd ->
     0 < h a \/ exists b db r, objs st !! b = Some db /\ 0 < h b /\ r ∈ records db /\ data_object r = a) as Href.
  { intros a dd Hn Ha. destruct (referenced h st a dd H Hn Ha) as [_ Hpos]. destruct (decide (0 < h a)); [by left|].
    right. destruct (i_handles _ _ H a) as [? _]. assert (0 < owners (objs st) a) as Ho by lia.
    destruct (owners_pos (objs st) a Ho) as (b & db & r & Hb & Hin & E). exists b, db, r. repeat split; try done.
    apply (referenced h st b db H); [|done|].
    + intros ->. rewrite (i_empty _ _ H) in Hb. simplify_eq. by apply elem_of_nil in Hin.
    + intros E0. rewrite E0 in Hin. by apply elem_of_nil in Hin. }
  split; [|split; [|split; [|split]]].
  - intros a Hn. split; [intros [dd Ha]; by apply (Href a dd)|]. intros [Hh|(b & db & r & Hb & _ & Hin & <-)]; [by apply (i_handles _ _ H)|].
    destruct (record_target h st b db r H Hb Hin) as (d & Hd & _). by eexists.
  - intros a dd Hn Ha. by apply (i_refs _ _ H).
  - intros b db r Hb Hin. destruct (record_target h st b db r H Hb Hin) as (d & Hd & _ & ?). by exists d.
  - intros a dd. by apply (leaf_buffer h).
  - intros Hz. apply set_eq. intros a. rewrite elem_of_dom, elem_of_singleton. split; [|intros ->; rewrite (i_empty _ _ H); by eexists].
    intros [dd Ha]. destruct (decide (a = dispatch_data_empty)) as [|Hn]; [done|].
    destruct (Href a dd Hn Ha) as [Hp|(b & db & r & Hb & Hp & Hin & _)]; [rewrite Hz in Hp by done; lia|].
    destruct (decide (b = dispatch_data_empty)) as [->|Hbn]; [|rewrite Hz in Hp by done; lia].
    rewrite (i_empty _ _ H) in Hb. simplify_eq. by apply elem_of_nil in Hin.
Qed.

(** Iterating over an object calls the applier on consecutive regions, in
    order, until it returns false: the regions start at offset 0, each begins
    where the previous one ends, and the memory their pointers designate, taken
    together, is exactly the bytes of the object. *)
Theorem data_apply_tiles {A : Type} (applier : A -> addr -> Z -> ptr -> Z -> M (A * bool))
    (h : addr -> Z) (st : data_state) (a : addr) (ctxt : A) :
  data_reach h st -> holds h a ->
  (forall c x o p n s r s', applier c x o p n s = Done (r, s') -> objs s' = objs s) ->
  exists l, dispatch_data_apply_f applier a ctxt st = run_regions applier ctxt l st /\
    tiles (blocks st) l 0 (bytes st a).
Proof.
  intros Hr Ha Hpure. pose proof (data_reach_inv h st Hr) as H. destruct (holds_alloc h st a H Ha) as [dd Hdd].
  destruct (apply_ok h st H applier Hpure st a dd ctxt eq_refl Hdd) as (l & Hl & Ht & _). by exists l.
Qed.

(** The size of a concatenation is computed modulo 2^64: two data objects
    whose sizes add up to 2^64 or more (the same leaf repeated is enough) yield
    an object whose size is not the sum of its records. *)
Theorem concat_size_wraps (h : addr -> Z) (st : data_state) (a b : addr) (da db : dispatch_data_s) :
  inv h st -> objs st !! a = Some da -> objs st !! b = Some db -> size da <> 0 -> size db <> 0 ->
  fits st (_dispatch_data_num_records da + _dispatch_data_num_records db) ->
  2 ^ 64 <= size da + size db ->
  exists x st' dd, dispatch_data_create_concat a b st = Done (Some x, st') /\ objs st' !! x = Some dd /\
    size dd = size da + size db - 2 ^ 64 /\ sum_len (records dd) = size da + size db.
Proof.
  intros H Ha Hb Hza Hzb [Hn Hroom] Hlt.
  assert (forall c d, objs st !! c = Some d -> size d < 2 ^ 64) as Hmax.
  { intros c d Hc. destruct (decide (c = dispatch_data_empty)) as [->|Hcn].
    - rewrite (i_empty _ _ H) in Hc. by simplify_eq.
    - by apply (size_pos h st H c d Hc Hcn). }
  pose proof (Hmax a da Ha). pose proof (Hmax b db Hb).
  destruct (as_records_ok h st a da H Ha Hza) as (Fa & Na & Sa & _ & Ca).
  destruct (as_records_ok h st b db H Hb Hzb) as (Fb & Nb & Sb & _ & Cb).
  unfold dispatch_data_create_concat. erewrite bind_run by (by apply load_run). rewrite decide_False by lia.
  erewrite bind_run by (by apply load_run). rewrite decide_False by lia. rewrite decide_False by lia.
  set (rs := as_records a da ++ as_records b db). set (n := _dispatch_data_num_records da + _) in *.
  assert (Z.of_nat (length rs) = n) as Hlen by (unfold rs; rewrite length_app; lia).
  destruct (alloc_composite_eval (fun data => _ ← retain_records rs; mret (Some data)) st n
    (u64 (size da + size db)) rs ltac:(lia) ltac:(lia)) as (Hfa & Hne & ->). set (y := fresh _) in *.
  assert (Forall (rec_ok st) rs) as Hrs by (by apply Forall_app).
  assert (rs <> []) as Hrne by (unfold rs; destruct (as_records a da); done).
  assert (forall c d, c <> dispatch_data_empty -> objs st !! c = Some d -> 0 <= xref d /\ xref d + n < INT_MAX) as Hx.
  { intros c d Hcn Hc. split; [by apply (i_refs _ _ H c d)|by apply (Hroom c)]. }
  assert (n < INT_MAX) as HnM.
  { destruct rs as [|r rs']; [done|]. apply Forall_cons in Hrs as [Hr _].
    destruct (rec_ok_leaf h st H r Hr) as (d & Hd & Hdn & _). destruct (Hx _ d Hdn Hd). lia. }
  erewrite bind_run.
  2:{ apply retain_records_eval.
      - eapply Forall_impl; [done|]. intros r [_ _ (d & Hd & _)]. simpl. apply lookup_insert_is_Some'. right. by eexists.
      - simpl. intros c d [[<- <-]|[Hcy Hc]]%lookup_insert_Some; [done|].
        destruct (decide (c = dispatch_data_empty)) as [->|Hcn]; [|by apply (Hx c d)].
        rewrite (i_empty _ _ H) in Hc. by simplify_eq.
      - simpl. intros c d [[<- <-]|[Hcy Hc]]%lookup_insert_Some; [right; unfold xref; simpl; lia|].
        destruct (decide (c = dispatch_data_empty)) as [->|Hcn]; [|right; rewrite Hlen; by apply (Hx c d)].
        rewrite (i_empty _ _ H) in Hc. simplify_eq. by left. }
  eexists y, _, _. split; [reflexivity|]. simpl. rewrite lookup_retained, lookup_insert_eq. split; [reflexivity|].
  simpl. split; [|unfold rs; rewrite sum_len_app; lia]. unfold wrap.
  replace (size da + size db) with (size da + size db - 2 ^ 64 + 1 * 2 ^ 64) at 1 by lia.
  rewrite Z.mod_add by lia. apply Z.mod_small. lia.
Qed.

(** Dropping the last reference to a leaf removes it and runs its
    destructor once: a buffer to free is freed, a client block is submitted once
    to the target queue, and the buffer is left alone otherwise.  For
    DISPATCH_DATA_DESTRUCTOR_MUNMAP, without Mach, the buffer is not unmapped: the
    placeholder block, whose body is an internal crash, is submitted instead. *)
Theorem leaf_destructor_once (h : addr -> Z) (st : data_state) (a : addr) (dd : dispatch_data_s) :
  inv h st -> objs st !! a = Some dd -> records dd = [] -> size dd <> 0 -> inline_block dd = None ->
  h a = 1 -> owners (objs st) a = 0 ->
  exists st', _dispatch_data_release a st = Done (tt, st') /\ objs st' = delete a (objs st) /\
    (destr dd = DESTRUCTOR_FREE -> exists p, buf dd = Some p /\ blocks st' = delete (p_block p) (blocks st)) /\
    (destr dd <> DESTRUCTOR_FREE -> blocks st' = blocks st) /\
    events st' = events st ++
      (if decide (destr dd = DESTRUCTOR_FREE \/ destr dd = DESTRUCTOR_NONE) then []
       else [EvDestructor (dd_targetq dd) (destr dd)]) ++ [EvReleaseQueue (dd_targetq dd)].
Proof.
  intros H Ha Hr Hs Hi Hh Ho.
  assert (a <> dispatch_data_empty) as Hn by (intros ->; rewrite (i_empty _ _ H) in Ha; by simplify_eq).
  destruct (i_refs _ _ H a dd Hn Ha) as (Href & Hx & Hx0).
  pose proof (i_ok _ _ H a dd Hn Ha) as Hok. unfold obj_ok in Hok. rewrite decide_True in Hok by done.
  assert (xref dd = 0) as Ex by lia. exists (released st a dd). split.
  { apply release_leaf_eval; try done. unfold INT_MAX. lia. }
  unfold released. rewrite decide_True by done. cbn [objs blocks events]. split; [done|].
  unfold owned, destructor_event. rewrite Hi. destruct (lf_buf _ _ Hok) as (p & bl & Hp & _). rewrite Hp.
  split; [|split].
  - intros E. exists p. split; [done|]. rewrite decide_False by tauto. done.
  - intros E. rewrite decide_True by done. done.
  - rewrite <- app_assoc. f_equal. destruct (destr dd); done.
Qed.

(** ** Witnesses *)

(** A client buffer of five bytes, a leaf over it, and a rope of the leaf and a
    subrange of it. *)
Definition five : ptr := {| p_block := 0; p_off := 0 |}.
Definition st_buffer : data_state := with_blocks empty_state {[ 0%nat := [10; 11; 12; 13; 14] ]}.
Definition st_leaf : data_state :=
  {| objs := <[ 1%nat := leaf five 5 None (DestructorBlock 7) None ]> (objs empty_state);
     blocks := blocks st_buffer; events := []; mallocs := [] |}.

Lemma st_buffer_reach : data_reach (fun _ => 0) st_buffer.
Proof. apply (dr_buffer (fun _ => 0) empty_state 0%nat); [apply (dr_init [])|done]. Qed.

Definition create_leaf : data_op := OpCreate (Some five) 5 None (DestructorBlock 7).

Lemma st_leaf_reach : data_reach (hadd (fun _ => 0) 1%nat 1) st_leaf.
Proof.
  apply (dr_op (fun _ => 0) st_buffer create_leaf (just_object (Some 1%nat)) st_leaf).
  - apply st_buffer_reach.
  - intros a dd Hn Ha. simpl in Ha. by rewrite lookup_singleton_ne in Ha.
  - split; [lia|]. split; [done|]. split; [by eexists|]. split; [|done].
    intros b db Hb. simpl in Hb. by apply lookup_singleton_Some in Hb as [_ <-].
  - vm_compute. reflexivity.
Qed.

Lemma st_leaf_resources : resources st_leaf.
Proof.
  intros a dd Hn Ha. simpl in Ha. apply lookup_insert_Some in Ha as [[_ <-]|[_ Ha]]; [done|].
  by rewrite lookup_singleton_ne in Ha.
Qed.

Lemma data_operations_correct_witness :
  exists x r st', exec_data_op (OpSubrange 1%nat 1 3) st_leaf = Done (r, st') /\ dr_object r = Some x /\ bytes st' x = [11; 12; 13].
Proof.
  destruct (data_operations_correct (hadd (fun _ => 0) 1%nat 1) st_leaf (OpSubrange 1%nat 1 3)) as (r & st' & He & _ & (x & Er & Hx) & _).
  - apply st_leaf_reach.
  - apply st_leaf_resources.
  - split; [by right|]. lia.
  - exists x, r, st'. split; [exact He|]. split; [exact Er|exact Hx].
Defined.

(** The rope of three bytes of the leaf, of which the client then drops its reference. *)
Definition the_state {A} (m : outcome (A * data_state)) : data_state := match m with Done (_, st) => st | Crash _ => empty_state end.
Definition st_rope : data_state := the_state (exec_data_op (OpSubrange 1%nat 1 3) st_leaf).
Definition st_dropped : data_state := the_state (exec_data_op (OpRelease 1%nat) st_rope).
Definition dropped_handles : addr -> Z := hadd (hadd (hadd (fun _ => 0) 1%nat 1) 2%nat 1) 1%nat (-1).

Lemma st_rope_resources : resources st_rope.
Proof.
  assert (map_Forall (fun a dd => a = dispatch_data_empty \/ xref dd < 2 ^ 29 /\ num_records dd < 2 ^ 29) (objs st_rope)) as Hf.
  { apply (bool_decide_eq_true_1 _). vm_compute. reflexivity. }
  intros a dd Hn Ha. by destruct (Hf a dd Ha).
Qed.

Lemma st_dropped_reach : data_reach dropped_handles st_dropped.
Proof.
  apply (dr_op (hadd (hadd (fun _ => 0) 1%nat 1) 2%nat 1) st_rope (OpRelease 1%nat) (just_object None) st_dropped).
  - apply (dr_op (hadd (fun _ => 0) 1%nat 1) st_leaf (OpSubrange 1%nat 1 3) (just_object (Some 2%nat)) st_rope).
    + apply st_leaf_reach.
    + apply st_leaf_resources.
    + split; [by right|]. lia.
    + vm_compute. reflexivity.
  - apply st_rope_resources.
  - by right.
  - vm_compute. reflexivity.
Qed.

(** The leaf is alive, though the client does not hold it any more: the rope does. *)
Lemma data_no_leak_witness : dropped_handles 1%nat = 0 /\ is_Some (objs st_dropped !! 1%nat) /\ bytes st_dropped 2%nat = [11; 12; 13].
Proof.
  split; [reflexivity|]. split; [|vm_compute; reflexivity].
  destruct (data_no_leak dropped_handles st_dropped st_dropped_reach) as [H _]. apply (H 1%nat); [discriminate|]. right.
  destruct (objs st_dropped !! 2%nat) as [db|] eqn:Eb; [|by vm_compute in Eb].
  exists 2%nat, db, {| data_object := 1%nat; from := 1; len := 3 |}. split; [exact Eb|]. split; [reflexivity|].
  vm_compute in Eb. injection Eb as <-. split; [by left|reflexivity].
Defined.

Lemma data_apply_tiles_witness :
  exists l, dispatch_data_apply_f (fun c x o p n => mret (c ++ [(o, n)], true)) 1%nat [] st_leaf =
      run_regions (fun c x o p n => mret (c ++ [(o, n)], true)) [] l st_leaf /\
    tiles (blocks st_leaf) l 0 (bytes st_leaf 1%nat).
Proof.
  apply (data_apply_tiles (fun c x o p n => mret (c ++ [(o, n)], true)) (hadd (fun _ => 0) 1%nat 1)).
  - apply st_leaf_reach.
  - by right.
  - intros c x o p n s r s' E. unfold mret, M_ret in E. by simplify_eq.
Defined.

(** A leaf of 2^63 bytes, of which the proofs evaluate nothing. *)
Definition big : list Z := replicate (Z.to_nat (2 ^ 63)) 0.

Lemma length_big : Z.of_nat (length big) = 2 ^ 63.
Proof. unfold big. rewrite length_replicate. lia. Qed.
#[local] Opaque big.

Definition st_big : data_state :=
  with_objs (with_blocks empty_state {[ 0%nat := big ]})
    (<[ 1%nat := leaf five (2 ^ 63) None DESTRUCTOR_NONE None ]> (objs empty_state)).

Lemma st_big_inv : inv (hadd (fun _ => 0) 1%nat 1) st_big.
Proof.
  assert (inv (fun _ => 0) (with_blocks empty_state {[ 0%nat := big ]})) as H
    by (apply (inv_more_blocks _ empty_state); [done|done|apply empty_state_inv]).
  apply (inv_new_leaf (fun _ => 0) (with_blocks empty_state {[ 0%nat := big ]}) 1%nat
    (leaf five (2 ^ 63) None DESTRUCTOR_NONE None)); try done.
  - constructor; simpl; [|lia|done]. exists five, big. pose proof length_big.
    split; [done|]. split; [apply lookup_singleton_eq|]. simpl. split; [lia|]. split; [lia|done].
  - intros b db k Hb Ho. simpl in Hb. apply lookup_singleton_Some in Hb as [_ <-]. done.
Qed.

Lemma concat_size_wraps_witness :
  exists x st' dd, dispatch_data_create_concat 1%nat 1%nat st_big = Done (Some x, st') /\
    objs st' !! x = Some dd /\ size dd = 0 /\ sum_len (records dd) = 2 ^ 64.
Proof.
  destruct (concat_size_wraps (hadd (fun _ => 0) 1%nat 1) st_big 1%nat 1%nat
    (leaf five (2 ^ 63) None DESTRUCTOR_NONE None) (leaf five (2 ^ 63) None DESTRUCTOR_NONE None)
    st_big_inv) as (x & st' & dd & He & Hx & Hs & Hr).
  - apply lookup_insert_eq.
  - apply lookup_insert_eq.
  - simpl. lia.
  - simpl. lia.
  - split; [vm_compute; congruence|]. intros a dd Hn Ha. simpl in Ha.
    apply lookup_insert_Some in Ha as [[_ <-]|[_ Ha]]; [done|]. by rewrite lookup_singleton_ne in Ha.
  - simpl. lia.
  - exists x, st', dd. split; [exact He|]. split; [exact Hx|]. rewrite Hs, Hr. split; reflexivity.
Defined.

Lemma leaf_destructor_once_witness :
  exists st', _dispatch_data_release 1%nat st_leaf = Done (tt, st') /\
    events st' = [EvDestructor default_queue (DestructorBlock 7); EvReleaseQueue default_queue] /\
    blocks st' = blocks st_leaf.
Proof.
  destruct (leaf_destructor_once (hadd (fun _ => 0) 1%nat 1) st_leaf 1%nat (leaf five 5 None (DestructorBlock 7) None))
    as (st' & He & _ & _ & Hb & Hev).
  - apply data_reach_inv, st_leaf_reach.
  - reflexivity.
  - reflexivity.
  - discriminate.
  - reflexivity.
  - reflexivity.
  - reflexivity.
  - exists st'. split; [exact He|]. split; [exact Hev|]. apply Hb. discriminate.
Defined.
