(* ===== verification/Threads.v ===== *)
(** * Thread pools

    An interleaving model keeps the program counter of every thread in a list; a
    step replaces one entry.  [tally f] sums a weight over the threads, so that an
    invariant can count the threads at given program points. *)

From S2P Require Import Prelude.

Section tally.
Context {T : Type}.

Fixpoint tally (f : T -> Z) (l : list T) : Z :=
  match l with [] => 0 | x :: l => f x + tally f l end.

Lemma tally_insert f l i x y : l !! i = Some x -> tally f (<[i := y]> l) = tally f l - f x + f y.
Proof.
  revert i. induction l as [|z l IH]; intros [|i] Hi; simplify_eq/=; [lia|]. rewrite (IH i Hi). lia.
Qed.

Lemma tally_nonneg f l : (forall x, 0 <= f x) -> 0 <= tally f l.
Proof. intros Hf. induction l as [|x l IH]; simpl; [lia|]. specialize (Hf x). lia. Qed.

Lemma tally_ge f l i x : (forall x, 0 <= f x) -> l !! i = Some x -> f x <= tally f l.
Proof.
  intros Hf. revert i. induction l as [|z l IH]; intros [|i] Hi; simplify_eq/=.
  - pose proof (tally_nonneg f l Hf). lia.
  - specialize (IH i Hi). specialize (Hf z). lia.
Qed.

Lemma tally_pos f l : (forall x, 0 <= f x) -> 0 < tally f l -> exists i x, l !! i = Some x /\ 0 < f x.
Proof.
  intros Hf. induction l as [|z l IH]; simpl; [lia|]. intros Hp. destruct (decide (0 < f z)).
  - by exists 0%nat, z.
  - destruct IH as (i & x & Hi & Hx); [specialize (Hf z); lia|]. by exists (S i), x.
Qed.

Lemma tally_repeat f n x : tally f (replicate n x) = Z.of_nat n * f x.
Proof. induction n as [|n IH]; simpl tally; [lia|]. rewrite IH. lia. Qed.

(** The same for weights that are only known on the members. *)
Lemma tally_nonneg_in f l : (forall i x, l !! i = Some x -> 0 <= f x) -> 0 <= tally f l.
Proof.
  induction l as [|x l IH]; intros Hf; simpl; [lia|]. pose proof (Hf 0%nat x eq_refl).
  assert (0 <= tally f l) by (apply IH; intros i y; apply (Hf (S i))). lia.
Qed.

Lemma tally_ge_in f l i x : (forall i x, l !! i = Some x -> 0 <= f x) -> l !! i = Some x -> f x <= tally f l.
Proof.
  revert i. induction l as [|z l IH]; intros [|i] Hf Hi; simplify_eq/=.
  - assert (0 <= tally f l) by (apply tally_nonneg_in; intros j y; apply (Hf (S j))). lia.
  - pose proof (Hf 0%nat z eq_refl). assert (f x <= tally f l) by (apply (IH i); [intros j y; apply (Hf (S j))|done]). lia.
Qed.

(** Two threads contribute both weights. *)
Lemma tally_ge_two f l i j x y : (forall x, 0 <= f x) -> i <> j -> l !! i = Some x -> l !! j = Some y ->
  f x + f y <= tally f l.
Proof.
  intros Hf. revert i j. induction l as [|z l IH]; intros [|i] [|j] Hij Hi Hj; simplify_eq/=.
  - pose proof (tally_ge f l j y Hf Hj). lia.
  - pose proof (tally_ge f l i x Hf Hi). lia.
  - specialize (IH i j ltac:(congruence) Hi Hj). specialize (Hf z). lia.
Qed.

Lemma tally_some_pos f l : 0 < tally f l -> exists i x, l !! i = Some x /\ 0 < f x.
Proof.
  induction l as [|z l IH]; simpl; [lia|]. intros Hp. destruct (decide (0 < f z)).
  - by exists 0%nat, z.
  - destruct IH as (i & x & Hi & Hx); [lia|]. by exists (S i), x.
Qed.

Lemma tally_app f l1 l2 : tally f (l1 ++ l2) = tally f l1 + tally f l2.
Proof. induction l1 as [|x l1 IH]; simpl; [lia|]. rewrite IH. lia. Qed.
End tally.

Lemma tally_le {T} (f : T -> Z) l : (forall x, f x <= 1) -> tally f l <= Z.of_nat (length l).
Proof. intros Hf. induction l as [|x l IH]; simpl; [lia|]. specialize (Hf x). lia. Qed.

(** A weight that a relabelling of the threads does not change. *)
Lemma tally_fmap {T} (f : T -> Z) (r : T -> T) l : (forall x, f (r x) = f x) -> tally f (r <$> l) = tally f l.
Proof. intros Hf. induction l as [|x l IH]; [done|]. rewrite fmap_cons. simpl tally. by rewrite Hf, IH. Qed.

Lemma tally_zero {T} (f : T -> Z) l : (forall i x, l !! i = Some x -> f x = 0) -> tally f l = 0.
Proof.
  induction l as [|x l IH]; [done|]. intros H. simpl. rewrite (H 0%nat x eq_refl), IH; [done|].
  intros i y Hy. by apply (H (S i)).
Qed.

(** ** Schedules *)

(** Run a list of thread actions; [None] when one of them is not enabled. *)
Definition schedule {C A} (step : C -> nat -> A -> option C) (c : C) (l : list (nat * A)) : option C :=
  foldl (fun c ia => c ← c; step c ia.1 ia.2) (Some c) l.

(** A property that every step preserves holds after a schedule. *)
Lemma schedule_ind {C A} (step : C -> nat -> A -> option C) (P : C -> Prop) l c c' :
  (forall c i a c', P c -> step c i a = Some c' -> P c') -> P c -> schedule step c l = Some c' -> P c'.
Proof.
  intros Hs. revert c. induction l as [|[i a] l IH]; intros c Hc E; [by injection E as <-|].
  unfold schedule in *. simpl in E. destruct (step c i a) as [c1|] eqn:Es.
  - apply (IH c1); [by eapply Hs|done].
  - clear -E. exfalso. induction l as [|[j b] l IHl]; [done|]. by apply IHl.
Qed.
