(* ===== verification/Semaphore.v ===== *)
(** * Counting semaphores

    Models [dispatch_semaphore_t] of [src/semaphore.c].  Each definition is one
    atomic operation on [dsema_value] or one call of the kernel semaphore; the
    step function interleaves any number of threads that signal and wait.  The
    kernel semaphore ([_dispatch_sema4_*], a POSIX semaphore or futex) is a
    counter: a wait blocks until it is positive and decrements it. *)

From S2P Require Import Prelude Threads.

Definition LONG_MIN : Z := - 2 ^ 63.

Inductive timeout := TIME_NOW | TIME_FOREVER | TIME_AT.

Record dispatch_semaphore_s := {
  dsema_value : Z;
  dsema_orig : Z;
  dsema_sema : Z;          (* tokens of the kernel semaphore *)
}.

(** [None] is DISPATCH_BAD_INPUT. *)
Definition dispatch_semaphore_create (value : Z) : option dispatch_semaphore_s :=
  if decide (value < 0) then None
  else Some {| dsema_value := value; dsema_orig := value; dsema_sema := 0 |}.

Definition _dispatch_semaphore_dispose (s : dispatch_semaphore_s) : outcome unit :=
  if decide (dsema_value s < dsema_orig s) then Crash ClientCrash else Done tt.

(** Where a thread inside a call is. *)
Inductive sema_pc :=
| SIdle                          (* not in a call *)
| SSignalSlow                    (* about to signal the kernel semaphore *)
| SWaitSlow (t : timeout)        (* _dispatch_semaphore_wait_slow *)
| SUndo (orig : Z)               (* the compare-and-swap loop, with its local *)
| SDrain.                        (* in _dispatch_sema4_wait *)

#[export] Instance timeout_eq_dec : EqDecision timeout.
Proof. solve_decision. Defined.
#[export] Instance sema_pc_eq_dec : EqDecision sema_pc.
Proof. solve_decision. Defined.

(** What a thread's last operation returned. *)
Inductive sema_ret := RNone | RZero | RWoke | RTimeout.

Definition set_value (s : dispatch_semaphore_s) (v : Z) : dispatch_semaphore_s :=
  {| dsema_value := v; dsema_orig := dsema_orig s; dsema_sema := dsema_sema s |}.
Definition set_sema (s : dispatch_semaphore_s) (k : Z) : dispatch_semaphore_s :=
  {| dsema_value := dsema_value s; dsema_orig := dsema_orig s; dsema_sema := k |}.

(** Until the call of [_dispatch_semaphore_signal_slow]. *)
Definition dispatch_semaphore_signal (s : dispatch_semaphore_s)
    : outcome (dispatch_semaphore_s * sema_pc * sema_ret) :=
  let value := i64 (dsema_value s + 1) in
  let s := set_value s value in
  if decide (value > 0) then Done (s, SIdle, RZero)
  else if decide (value = LONG_MIN) then Crash ClientCrash
  else Done (s, SSignalSlow, RNone).

Definition _dispatch_semaphore_signal_slow (s : dispatch_semaphore_s)
    : dispatch_semaphore_s * sema_pc * sema_ret :=
  (set_sema s (dsema_sema s + 1), SIdle, RWoke).

(** Until the call of [_dispatch_semaphore_wait_slow]. *)
Definition dispatch_semaphore_wait (s : dispatch_semaphore_s) (t : timeout)
    : dispatch_semaphore_s * sema_pc * sema_ret :=
  let value := i64 (dsema_value s - 1) in
  let s := set_value s value in
  if decide (value >= 0) then (s, SIdle, RZero) else (s, SWaitSlow t, RNone).

(** One step inside [_dispatch_semaphore_wait_slow]; [None] while the thread is
    blocked.  [gave_up] is the outcome of a timed wait that times out and of a
    weak compare-and-swap that fails spuriously. *)
Definition _dispatch_semaphore_wait_slow (s : dispatch_semaphore_s) (pc : sema_pc) (gave_up : bool)
    : option (dispatch_semaphore_s * sema_pc * sema_ret) :=
  match pc with
  | SWaitSlow TIME_AT =>
      if gave_up then Some (s, SUndo (dsema_value s), RNone)
      else if decide (0 < dsema_sema s) then Some (set_sema s (dsema_sema s - 1), SIdle, RZero) else None
  | SWaitSlow TIME_NOW => Some (s, SUndo (dsema_value s), RNone)
  | SWaitSlow TIME_FOREVER => Some (s, SDrain, RNone)
  | SUndo orig =>
      if decide (orig < 0) then
        if negb gave_up && bool_decide (dsema_value s = orig)
        then Some (set_value s (i64 (orig + 1)), SIdle, RTimeout)
        else Some (s, SUndo (dsema_value s), RNone)
      else Some (s, SDrain, RNone)
  | SDrain =>
      if decide (0 < dsema_sema s) then Some (set_sema s (dsema_sema s - 1), SIdle, RZero) else None
  | SIdle | SSignalSlow => None
  end.

(** ** Threads *)

Record sema_config := {
  sc_sema : dispatch_semaphore_s;
  sc_threads : list sema_pc;
  sc_signals : Z;                  (* signals that changed the value *)
  sc_acquired : Z;                 (* waits that returned 0 *)
  sc_crashed : bool;
}.

Inductive sema_action := ASignal | AWait (t : timeout) | ARun (gave_up : bool).

Definition acquired_by (pc : sema_pc) (r : sema_ret) : Z :=
  match pc, r with
  | SSignalSlow, _ => 0
  | _, RZero => 1
  | _, _ => 0
  end.

(** Thread [i] performs one atomic operation; [None] if it cannot. *)
Definition sema_step (c : sema_config) (i : nat) (a : sema_action) : option sema_config :=
  pc ← sc_threads c !! i;
  let put (r : dispatch_semaphore_s * sema_pc * sema_ret) dsig dacq :=
    {| sc_sema := r.1.1; sc_threads := <[i := r.1.2]> (sc_threads c); sc_signals := sc_signals c + dsig;
       sc_acquired := sc_acquired c + dacq; sc_crashed := sc_crashed c |} in
  match a, pc with
  | ASignal, SIdle =>
      match dispatch_semaphore_signal (sc_sema c) with
      | Done r => Some (put r 1 0)
      | Crash _ => Some {| sc_sema := sc_sema c; sc_threads := sc_threads c; sc_signals := sc_signals c;
                           sc_acquired := sc_acquired c; sc_crashed := true |}
      end
  | AWait t, SIdle =>
      let r := dispatch_semaphore_wait (sc_sema c) t in Some (put r 0 (acquired_by pc r.2))
  | ARun _, SSignalSlow => Some (put (_dispatch_semaphore_signal_slow (sc_sema c)) 0 0)
  | ARun g, _ =>
      r ← _dispatch_semaphore_wait_slow (sc_sema c) pc g; Some (put r 0 (acquired_by pc r.2))
  | _, _ => None
  end.

Definition sema_init (s : dispatch_semaphore_s) (n : nat) : sema_config :=
  {| sc_sema := s; sc_threads := replicate n SIdle; sc_signals := 0; sc_acquired := 0; sc_crashed := false |}.

Inductive sema_reach (s : dispatch_semaphore_s) (n : nat) : sema_config -> Prop :=
| sr_init : sema_reach s n (sema_init s n)
| sr_step c i a c' : sema_reach s n c -> sema_step c i a = Some c' -> sema_reach s n c'.

(** ** The invariant *)

(** Threads inside a wait that has not returned, and threads about to signal. *)
Definition waiting (pc : sema_pc) : Z := match pc with SWaitSlow _ | SUndo _ | SDrain => 1 | _ => 0 end.
Definition signalling (pc : sema_pc) : Z := match pc with SSignalSlow => 1 | _ => 0 end.

Definition waiters (c : sema_config) : Z := tally waiting (sc_threads c).
Definition signallers (c : sema_config) : Z := tally signalling (sc_threads c).

Record sema_inv (s : dispatch_semaphore_s) (c : sema_config) : Prop := {
  si_tokens : dsema_sema (sc_sema c) + signallers c + Z.max 0 (- dsema_value (sc_sema c)) = waiters c;
  si_count : dsema_value (sc_sema c) + sc_acquired c + waiters c = dsema_value s + sc_signals c;
  si_kernel : 0 <= dsema_sema (sc_sema c);
  si_acq : 0 <= sc_acquired c;
  si_sig : 0 <= sc_signals c;
  si_ok : sc_crashed c = false;
  si_orig : dsema_orig (sc_sema c) = dsema_orig s;
}.

Definition bounded (s : dispatch_semaphore_s) (n : nat) (c : sema_config) : Prop :=
  0 <= dsema_value s < 2 ^ 61 /\ sc_signals c < 2 ^ 61 /\ Z.of_nat n < 2 ^ 61.

Lemma waiting_range pc : 0 <= waiting pc <= 1.
Proof. destruct pc; simpl; lia. Qed.
Lemma signalling_range pc : 0 <= signalling pc <= 1.
Proof. destruct pc; simpl; lia. Qed.

(** The value stays far from the ends of [long]. *)
Lemma value_range s n c : sema_inv s c -> bounded s n c -> length (sc_threads c) = n ->
  - 2 ^ 61 < dsema_value (sc_sema c) < 2 ^ 62.
Proof.
  intros [H1 H2 H3 H4 H5 _ _] (B1 & B2 & B3) Hn.
  assert (0 <= signallers c) by (apply tally_nonneg; intros; apply signalling_range).
  assert (waiters c <= Z.of_nat n) by (rewrite <- Hn; apply tally_le; intros; apply waiting_range). lia.
Qed.

Lemma sema_step_signals c i a c' : sema_step c i a = Some c' ->
  sc_signals c <= sc_signals c' /\ length (sc_threads c') = length (sc_threads c).
Proof.
  unfold sema_step. destruct (sc_threads c !! i) as [pc|]; [|done].
  destruct a as [|t|g]; cbn [mbind option_bind].
  - destruct pc; try done. destruct (dispatch_semaphore_signal (sc_sema c)); intros; simplify_eq/=;
      rewrite ?length_insert; (split; [lia|done]).
  - destruct pc; try done. intros. simplify_eq/=. rewrite length_insert. split; [lia|done].
  - destruct (decide (pc = SSignalSlow)) as [->|Hne].
    + intros. simplify_eq/=. rewrite length_insert. split; [lia|done].
    + destruct (_dispatch_semaphore_wait_slow (sc_sema c) pc g) eqn:E; destruct pc; intros; simplify_eq/=;
        rewrite ?length_insert; (split; [lia|done]).
Qed.

(** Substitute the result of a step and update the two tallies. *)
Ltac sema_close Hpc :=
  constructor; simpl; unfold waiters, signallers in *; simpl;
  rewrite ?(tally_insert _ _ _ _ _ Hpc); simpl; try done; lia.

Lemma sema_step_inv s n c i a c' : sema_inv s c -> bounded s n c' -> length (sc_threads c) = n ->
  sema_step c i a = Some c' -> sema_inv s c'.
Proof.
  intros H B Hn E. destruct (sema_step_signals _ _ _ _ E) as [Hs _].
  assert (bounded s n c) as B' by (destruct B as (? & ? & ?); repeat split; lia).
  pose proof (value_range s n c H B' Hn) as Hv. destruct H as [H1 H2 H3 H4 H5 H6 H7].
  unfold sema_step in E. destruct (sc_threads c !! i) as [pc|] eqn:Hpc; [|done]. simpl in E.
  destruct a as [|t|g], pc as [| |t'|orig|]; try done; simpl in E.
  - unfold dispatch_semaphore_signal in E. rewrite swrap_small in E by (simpl; lia).
    destruct (decide (dsema_value (sc_sema c) + 1 > 0)); [simplify_eq; sema_close Hpc|].
    rewrite decide_False in E by (unfold LONG_MIN; lia). simplify_eq. sema_close Hpc.
  - unfold dispatch_semaphore_wait in E. rewrite swrap_small in E by (simpl; lia).
    destruct (decide (dsema_value (sc_sema c) - 1 >= 0)); simplify_eq/=; sema_close Hpc.
  - simplify_eq. sema_close Hpc.
  - destruct t'; simpl in E; [simplify_eq/=; sema_close Hpc..|].
    destruct g; [simplify_eq/=; sema_close Hpc|]. case_decide; simplify_eq/=. sema_close Hpc.
  - destruct (decide (orig < 0)); [|simplify_eq/=; sema_close Hpc].
    destruct (negb g && bool_decide _) eqn:Eb; [|simplify_eq/=; sema_close Hpc].
    apply andb_true_iff in Eb as [_ Eb]. apply bool_decide_eq_true in Eb. simplify_eq/=.
    rewrite swrap_small by (simpl; lia). sema_close Hpc.
  - case_decide; simplify_eq/=. sema_close Hpc.
Qed.

Lemma sema_reach_inv s n c : dsema_sema s = 0 -> bounded s n c -> sema_reach s n c ->
  sema_inv s c /\ length (sc_threads c) = n.
Proof.
  intros H0 B Hr. induction Hr as [|c i a c' Hr IH E].
  - destruct B as (B1 & _). split; [|apply length_replicate]. constructor; simpl; try done; try lia;
      unfold waiters, signallers; simpl; rewrite ?tally_repeat; simpl; lia.
  - destruct (sema_step_signals _ _ _ _ E) as [Hs Hl].
    destruct IH as [Hi Hn]; [destruct B as (? & ? & ?); repeat split; lia|].
    split; [by eapply sema_step_inv|congruence].
Qed.

(** ** Properties *)

(** C21: whatever the interleaving of signals, waits, timeouts and failed
    compare-and-swaps, no thread crashes and no more waits succeed than the
    initial value plus the signals allow. *)
Theorem semaphore_never_overcommits (value : Z) (s : dispatch_semaphore_s) (n : nat) (c : sema_config) :
  dispatch_semaphore_create value = Some s -> sema_reach s n c -> bounded s n c ->
  sc_crashed c = false /\ sc_acquired c <= value + sc_signals c.
Proof.
  unfold dispatch_semaphore_create. case_decide; [done|]. intros [= <-] Hr B.
  destruct (sema_reach_inv {| dsema_value := value; dsema_orig := value; dsema_sema := 0 |} n c eq_refl B Hr) as [[H1 H2 H3 H4 H5 H6 H7] _]. split; [done|]. simpl in H2.
  assert (0 <= signallers c) by (apply tally_nonneg; intros; apply signalling_range). lia.
Qed.

(** C34: no wakeup is lost: if some wait has not returned, no thread is about to
    signal the kernel semaphore and the kernel semaphore holds no token, then
    every signal and the whole initial value have been consumed by waits that
    returned 0. *)
Theorem semaphore_no_lost_wakeup (value : Z) (s : dispatch_semaphore_s) (n : nat) (c : sema_config) :
  dispatch_semaphore_create value = Some s -> sema_reach s n c -> bounded s n c ->
  0 < waiters c -> signallers c = 0 -> dsema_sema (sc_sema c) = 0 ->
  sc_acquired c = value + sc_signals c /\ dsema_value (sc_sema c) = - waiters c.
Proof.
  unfold dispatch_semaphore_create. case_decide; [done|]. intros [= <-] Hr B Hw Hs Hk.
  destruct (sema_reach_inv {| dsema_value := value; dsema_orig := value; dsema_sema := 0 |} n c eq_refl B Hr) as [[H1 H2 H3 H4 H5 H6 H7] _]. simpl in H2. lia.
Qed.

(** When no thread is inside a call, the value is the initial one plus the
    signals minus the successful waits, and disposing of the semaphore crashes
    exactly if some successful waits have not been matched by signals. *)
Theorem semaphore_quiescent (value : Z) (s : dispatch_semaphore_s) (n : nat) (c : sema_config) :
  dispatch_semaphore_create value = Some s -> sema_reach s n c -> bounded s n c ->
  (forall pc, pc ∈ sc_threads c -> pc = SIdle) ->
  dsema_value (sc_sema c) = value + sc_signals c - sc_acquired c /\ dsema_sema (sc_sema c) = 0 /\
  (_dispatch_semaphore_dispose (sc_sema c) = Crash ClientCrash <-> sc_signals c < sc_acquired c).
Proof.
  unfold dispatch_semaphore_create. case_decide; [done|]. intros [= <-] Hr B Hidle.
  destruct (sema_reach_inv {| dsema_value := value; dsema_orig := value; dsema_sema := 0 |} n c eq_refl B Hr) as [[H1 H2 H3 H4 H5 H6 H7] _]. simpl in *.
  assert (forall f : sema_pc -> Z, f SIdle = 0 -> tally f (sc_threads c) = 0) as Hz.
  { intros f Hf. clear -Hidle Hf. induction (sc_threads c) as [|pc l IH]; [done|]. simpl.
    rewrite (Hidle pc) by (by left). rewrite Hf, IH; [done|]. intros pc' Hin. apply Hidle. by right. }
  unfold waiters, signallers in *. rewrite !Hz in * by done. split; [lia|]. split; [lia|].
  unfold _dispatch_semaphore_dispose. rewrite H7. destruct (decide _); split; intros; done || lia.
Qed.

(** A schedule: which thread does what. *)
Fixpoint run_sema (c : sema_config) (sched : list (nat * sema_action)) : option sema_config :=
  match sched with
  | [] => Some c
  | (i, a) :: sched => c ← sema_step c i a; run_sema c sched
  end.

Lemma run_sema_reach s n sched : forall c c', sema_reach s n c -> run_sema c sched = Some c' -> sema_reach s n c'.
Proof.
  induction sched as [|[i a] sched IH]; intros c c' Hr E; simpl in E; [by simplify_eq|].
  destruct (sema_step c i a) as [c1|] eqn:E1; [|done]. simpl in E. eapply IH; [|done]. by eapply sr_step.
Qed.

(** Thread 0 waits with DISPATCH_TIME_NOW while thread 1 signals; thread 2 waits
    and takes the token that thread 1 posts. *)
Definition stolen_token : list (nat * sema_action) :=
  [(0%nat, AWait TIME_NOW); (1%nat, ASignal); (0%nat, ARun false); (0%nat, ARun false);
   (2%nat, AWait TIME_FOREVER); (2%nat, ARun false); (1%nat, ARun false); (2%nat, ARun false)].

(** A wait with DISPATCH_TIME_NOW can block without bound: a thread that
    waits without a timeout can take the kernel token meant for it, after which
    it stays in the kernel although every other thread has returned. *)
Theorem polling_wait_can_block (s : dispatch_semaphore_s) :
  dispatch_semaphore_create 0 = Some s ->
  exists c, run_sema (sema_init s 3) stolen_token = Some c /\ sema_reach s 3 c /\
    sc_threads c = [SDrain; SIdle; SIdle] /\ (forall g, sema_step c 0 (ARun g) = None).
Proof.
  intros [= <-]. eexists. split; [vm_compute; reflexivity|]. split; [|split; [reflexivity|by intros []]].
  eapply (run_sema_reach _ _ stolen_token); [apply sr_init|]. vm_compute. reflexivity.
Qed.

(** ** Witnesses *)

Definition sema0 : dispatch_semaphore_s := {| dsema_value := 0; dsema_orig := 0; dsema_sema := 0 |}.
Definition blocked_config : sema_config :=
  {| sc_sema := {| dsema_value := -1; dsema_orig := 0; dsema_sema := 0 |};
     sc_threads := [SDrain; SIdle; SIdle]; sc_signals := 1; sc_acquired := 1; sc_crashed := false |}.

Lemma blocked_config_reach : sema_reach sema0 3 blocked_config.
Proof. eapply (run_sema_reach _ _ stolen_token); [apply sr_init|]. vm_compute. reflexivity. Qed.

Lemma semaphore_never_overcommits_witness :
  sema_reach sema0 3 blocked_config /\ sc_crashed blocked_config = false /\ sc_acquired blocked_config <= 0 + 1.
Proof.
  split; [apply blocked_config_reach|].
  apply (semaphore_never_overcommits 0 sema0 3 blocked_config); [reflexivity|apply blocked_config_reach|].
  repeat split; vm_compute; congruence.
Defined.

Lemma semaphore_no_lost_wakeup_witness :
  0 < waiters blocked_config /\ sc_acquired blocked_config = 0 + sc_signals blocked_config.
Proof.
  split; [vm_compute; reflexivity|].
  destruct (semaphore_no_lost_wakeup 0 sema0 3 blocked_config) as [H _]; [| | | | | |exact H].
  - vm_compute. reflexivity.
  - apply blocked_config_reach.
  - repeat split; vm_compute; congruence.
  - vm_compute. reflexivity.
  - vm_compute. reflexivity.
  - vm_compute. reflexivity.
Defined.

Lemma semaphore_quiescent_witness :
  _dispatch_semaphore_dispose (sc_sema (sema_init sema0 3)) <> Crash ClientCrash.
Proof.
  destruct (semaphore_quiescent 0 sema0 3 (sema_init sema0 3)) as (_ & _ & [H _]).
  - reflexivity.
  - apply sr_init.
  - repeat split; vm_compute; congruence.
  - simpl. intros pc Hpc. repeat (apply elem_of_cons in Hpc as [->|Hpc]; [done|]). by apply elem_of_nil in Hpc.
  - intros E. apply H in E. vm_compute in E. discriminate.
Defined.

Lemma polling_wait_can_block_witness :
  exists c, run_sema (sema_init sema0 3) stolen_token = Some c /\ sc_threads c = [SDrain; SIdle; SIdle].
Proof.
  destruct (polling_wait_can_block sema0) as (c & H1 & _ & H2 & _); [reflexivity|]. by exists c.
Defined.
