(* ===== verification/Group.v ===== *)
(** * Dispatch groups

    Models [dispatch_group_t] of [src/semaphore.c] with the 64-bit state word of
    [src/semaphore_internal.h]: a 32-bit generation, a 30-bit count kept negated,
    and the flags for notifications and waiters.  Each definition is one atomic
    operation; the step function interleaves threads that enter, leave, wait and
    register notifications, including the compare-and-swap loops with their local
    copies of the state, the futex and the reference counts of the group. *)

From S2P Require Import Prelude Threads.
Local Open Scope word_scope.

Definition DISPATCH_GROUP_VALUE_MASK : Z := 0xfffffffc.
Definition DISPATCH_GROUP_VALUE_INTERVAL : Z := 4.
Definition DISPATCH_GROUP_VALUE_1 : Z := DISPATCH_GROUP_VALUE_MASK.
Definition DISPATCH_GROUP_VALUE_MAX : Z := DISPATCH_GROUP_VALUE_INTERVAL.
Definition DISPATCH_GROUP_HAS_NOTIFS : Z := 2.
Definition DISPATCH_GROUP_HAS_WAITERS : Z := 1.

Definition _dg_state_value (dg_state : Z) : Z :=
  u32 (- (u32 dg_state .& DISPATCH_GROUP_VALUE_MASK)) .>> 2.
Definition _dg_state_gen (dg_state : Z) : Z := u32 (dg_state .>> 32).

(** [dg_bits]: the low half of the word; storing it leaves [dg_gen] alone. *)
Definition dg_bits (dg_state : Z) : Z := u32 dg_state.
Definition set_dg_bits (dg_state bits : Z) : Z := (dg_state .>> 32) * 2 ^ 32 + bits.

(** The state word and the internal reference count of a new group. *)
Definition _dispatch_group_create_with_count (n : Z) : Z * Z :=
  if decide (n <> 0) then (set_dg_bits 0 (u32 (u64 (u32 (- n) * DISPATCH_GROUP_VALUE_INTERVAL))), 1)
  else (0, 0).

Definition _dispatch_group_dispose (dg_state : Z) : outcome unit :=
  if decide (u32 dg_state <> 0) then Crash ClientCrash else Done tt.

(** The new state, and whether the caller must retain the group. *)
Definition dispatch_group_enter (dg_state : Z) : outcome (Z * bool) :=
  let old_bits := dg_bits dg_state in
  let dg_state := set_dg_bits dg_state (u32 (old_bits - DISPATCH_GROUP_VALUE_INTERVAL)) in
  let old_value := old_bits .& DISPATCH_GROUP_VALUE_MASK in
  if decide (old_value = DISPATCH_GROUP_VALUE_MAX) then Crash ClientCrash
  else Done (dg_state, bool_decide (old_value = 0)).

(** The atomic addition of [dispatch_group_leave]; the local [old_state] of the
    loop when the count went to zero. *)
Definition dispatch_group_leave (dg_state : Z) : outcome (Z * option Z) :=
  let old_state := dg_state in
  let dg_state := u64 (old_state + DISPATCH_GROUP_VALUE_INTERVAL) in
  let old_value := u32 (old_state .& DISPATCH_GROUP_VALUE_MASK) in
  if decide (old_value = DISPATCH_GROUP_VALUE_1)
  then Done (dg_state, Some (u64 (old_state + DISPATCH_GROUP_VALUE_INTERVAL)))
  else if decide (old_value = 0) then Crash ClientCrash
  else Done (dg_state, None).

(** [new_state] in the loop of [dispatch_group_leave]. *)
Definition leave_new_state (old_state : Z) : Z :=
  if decide (old_state .& DISPATCH_GROUP_VALUE_MASK = 0)
  then old_state .& lnotw 64 DISPATCH_GROUP_HAS_WAITERS .& lnotw 64 DISPATCH_GROUP_HAS_NOTIFS
  else old_state .& lnotw 64 DISPATCH_GROUP_HAS_NOTIFS.

(** Outcomes of the read-modify-write loop of [dispatch_group_wait]. *)
Inductive group_wait_result :=
| WaitDone                        (* the group is empty: return 0 *)
| WaitTimeout
| WaitOn (dg_state gen : Z).      (* the new state; wait on the generation *)

Definition dispatch_group_wait (dg_state : Z) (no_timeout : bool) : group_wait_result :=
  let old_state := dg_state in
  if decide (old_state .& DISPATCH_GROUP_VALUE_MASK = 0) then WaitDone
  else if no_timeout then WaitTimeout
  else
    let new_state := old_state .| DISPATCH_GROUP_HAS_WAITERS in
    if decide (old_state .& DISPATCH_GROUP_HAS_WAITERS <> 0) then WaitOn old_state (_dg_state_gen new_state)
    else WaitOn new_state (_dg_state_gen new_state).

(** The read-modify-write loop of [_dispatch_group_notify]: the new state, or
    the state with which the caller wakes the group itself. *)
Definition group_notify_state (dg_state : Z) : Z + Z :=
  let new_state := dg_state .| DISPATCH_GROUP_HAS_NOTIFS in
  if decide (u32 dg_state = 0) then inr new_state else inl new_state.

(** ** Threads *)

Inductive group_pc :=
| GIdle
| GEnterRetain                                     (* _dispatch_retain(dg) of enter *)
| GLeaveLoop (old_state : Z)
| GWake (dg_state : Z) (needs_release : bool)      (* _dispatch_group_wake *)
| GSubmit (l : list nat) (dg_state : Z) (needs_release : bool)   (* its snapshot *)
| GWakeAddress (dg_state : Z) (refs : Z)
| GRelease (refs : Z)
| GNotifyRetain | GNotifyState                     (* _dispatch_group_notify *)
| GWaitSlow (gen : Z)                              (* _dispatch_group_wait_slow *)
| GAsleep (gen : Z).

Record group_config := {
  gc_state : Z;
  gc_notify : list nat;              (* the registered, not yet captured notifications *)
  gc_refs : Z;                       (* internal references taken by the group itself *)
  gc_threads : list group_pc;
  gc_pushed : list nat;              (* every notification registered *)
  gc_submitted : list nat;           (* every notification submitted to its queue *)
  gc_crashed : bool;
}.

Inductive group_action :=
| GEnter | GLeave | GWait (no_timeout : bool) | GNotify (id : nat)
| GRun                                    (* next atomic operation of the call *)
| GFutexReturn (timed_out : bool).        (* the futex returns without a wakeup *)

Definition has (dg_state flag : Z) : bool := bool_decide (dg_state .& flag <> 0).

(** Waking every sleeper on the generation. *)
Definition awake (pc : group_pc) : group_pc := match pc with GAsleep gen => GWaitSlow gen | pc => pc end.

Definition group_step (c : group_config) (i : nat) (a : group_action) : option group_config :=
  pc ← gc_threads c !! i;
  let s := gc_state c in
  let upd st notify refs pc' pushed submitted :=
    Some {| gc_state := st; gc_notify := notify; gc_refs := refs; gc_threads := <[i := pc']> (gc_threads c);
            gc_pushed := pushed; gc_submitted := submitted; gc_crashed := gc_crashed c |} in
  let goto st refs pc' := upd st (gc_notify c) refs pc' (gc_pushed c) (gc_submitted c) in
  let fail := Some {| gc_state := s; gc_notify := gc_notify c; gc_refs := gc_refs c; gc_threads := gc_threads c;
                      gc_pushed := gc_pushed c; gc_submitted := gc_submitted c; gc_crashed := true |} in
  match a, pc with
  | GEnter, GIdle =>
      match dispatch_group_enter s with
      | Done (s, retain) => goto s (gc_refs c) (if retain then GEnterRetain else GIdle)
      | Crash _ => fail
      end
  | GLeave, GIdle =>
      match dispatch_group_leave s with
      | Done (s, Some old) => goto s (gc_refs c) (GLeaveLoop old)
      | Done (s, None) => goto s (gc_refs c) GIdle
      | Crash _ => fail
      end
  | GWait no_timeout, GIdle =>
      match dispatch_group_wait s no_timeout with
      | WaitDone | WaitTimeout => goto s (gc_refs c) GIdle
      | WaitOn s gen => goto s (gc_refs c) (GWaitSlow gen)
      end
  | GNotify id, GIdle =>
      (* os_mpsc_push_update_tail and os_mpsc_push_update_prev *)
      upd s (gc_notify c ++ [id]) (gc_refs c)
        (match gc_notify c with [] => GNotifyRetain | _ => GIdle end) (gc_pushed c ++ [id]) (gc_submitted c)
  | GRun, GEnterRetain => goto s (gc_refs c + 1) GIdle
  | GRun, GLeaveLoop old =>
      let new := leave_new_state old in
      if decide (old = new) then goto s (gc_refs c) (GWake old true)
      else if decide (s = old) then goto new (gc_refs c) (GWake old true)
      else goto s (gc_refs c) (GLeaveLoop s)
  | GRun, GWake st rel =>
      if has st DISPATCH_GROUP_HAS_NOTIFS
      then (* os_mpsc_capture_snapshot *)
        upd s [] (gc_refs c) (GSubmit (gc_notify c) st rel) (gc_pushed c) (gc_submitted c)
      else goto s (gc_refs c) (GWakeAddress st (if rel then 1 else 0))
  | GRun, GSubmit (id :: l) st rel =>
      upd s (gc_notify c) (gc_refs c) (GSubmit l st rel) (gc_pushed c) (gc_submitted c ++ [id])
  | GRun, GSubmit [] st rel => goto s (gc_refs c) (GWakeAddress st ((if rel then 1 else 0) + 1))
  | GRun, GWakeAddress st refs =>
      Some {| gc_state := s; gc_notify := gc_notify c; gc_refs := gc_refs c;
              gc_threads := <[i := GRelease refs]>
                (if has st DISPATCH_GROUP_HAS_WAITERS then awake <$> gc_threads c else gc_threads c);
              gc_pushed := gc_pushed c; gc_submitted := gc_submitted c; gc_crashed := gc_crashed c |}
  | GRun, GRelease refs => goto s (gc_refs c - refs) GIdle
  | GRun, GNotifyRetain => goto s (gc_refs c + 1) GNotifyState
  | GRun, GNotifyState =>
      match group_notify_state s with
      | inr st => goto s (gc_refs c) (GWake st false)
      | inl s => goto s (gc_refs c) GIdle
      end
  | GRun, GWaitSlow gen =>
      (* the futex compares the generation with the one waited for *)
      if decide (_dg_state_gen s = gen) then goto s (gc_refs c) (GAsleep gen) else goto s (gc_refs c) GIdle
  | GFutexReturn timed_out, (GWaitSlow gen | GAsleep gen) =>
      (* the generation is loaded again: return 0, return the timeout, or wait again *)
      if decide (_dg_state_gen s = gen)
      then goto s (gc_refs c) (if timed_out then GIdle else GWaitSlow gen)
      else goto s (gc_refs c) GIdle
  | _, _ => None
  end.

Definition group_init (state refs : Z) (n : nat) : group_config :=
  {| gc_state := state; gc_notify := []; gc_refs := refs; gc_threads := replicate n GIdle;
     gc_pushed := []; gc_submitted := []; gc_crashed := false |}.

(** ** The state word *)

Record gview := mkG { vgen : Z; vcount : Z; vnotifs : bool; vwaiters : bool }.

#[export] Instance gview_eq_dec : EqDecision gview.
Proof. solve_decision. Defined.

(** Generation, number of entries, flags. *)
Definition view (s : Z) : gview :=
  mkG (s / 2 ^ 32) ((- ((s / 4) mod 2 ^ 30)) mod 2 ^ 30) (bool_decide ((s / 2) mod 2 = 1)) (bool_decide (s mod 2 = 1)).

Definition word (s : Z) : Prop := 0 <= s < 2 ^ 64.

Lemma mask_value s : s .& DISPATCH_GROUP_VALUE_MASK = ((s / 4) mod 2 ^ 30) * 4.
Proof. apply (land_field s 2 30); lia. Qed.


Lemma view_ext g c n w s : word s ->
  s / 2 ^ 32 = g -> ((s / 4) mod 2 ^ 30 = (- c) mod 2 ^ 30) -> 0 <= c < 2 ^ 30 ->
  ((s / 2) mod 2 = if n : bool then 1 else 0) -> (s mod 2 = if w : bool then 1 else 0) -> view s = mkG g c n w.
Proof.
  intros _ <- Hc Hr Hn Hw. unfold view. f_equal.
  - rewrite Hc. Z.div_mod_to_equations. lia.
  - rewrite Hn. by destruct n.
  - rewrite Hw. by destruct w.
Qed.

(** The arithmetic content of a view. *)
Lemma view_inv s g c n w : view s = mkG g c n w ->
  s / 2 ^ 32 = g /\ ((s / 4) mod 2 ^ 30 = (- c) mod 2 ^ 30) /\ 0 <= c < 2 ^ 30 /\
  ((s / 2) mod 2 = if n : bool then 1 else 0) /\ (s mod 2 = if w : bool then 1 else 0).
Proof.
  unfold view. intros [= <- <- <- <-]. split; [done|]. split; [Z.div_mod_to_equations; lia|].
  split; [apply Z.mod_pos_bound; lia|].
  split; case_bool_decide; Z.div_mod_to_equations; lia.
Qed.

Lemma view_inj s s' : view s = view s' -> s = s'.
Proof.
  intros E. destruct (view s') as [g c n w] eqn:E'. apply view_inv in E as (A1 & A2 & A3 & A4 & A5).
  apply view_inv in E' as (B1 & B2 & B3 & B4 & B5). destruct n, w; Z.div_mod_to_equations; lia.
Qed.

(** Rebuild the word from its fields. *)
Lemma view_word s g c n w : word s -> view s = mkG g c n w -> 0 <= g < 2 ^ 32 /\
  s = g * 2 ^ 32 + ((- c) mod 2 ^ 30) * 4 + (if n then 2 else 0) + (if w then 1 else 0).
Proof.
  unfold word. intros Hs E. apply view_inv in E as (A1 & A2 & A3 & A4 & A5). rewrite <- A2, <- A1.
  destruct n, w; split; Z.div_mod_to_equations; lia.
Qed.

Lemma word_view g c n w : 0 <= g < 2 ^ 32 -> 0 <= c < 2 ^ 30 ->
  let s := g * 2 ^ 32 + ((- c) mod 2 ^ 30) * 4 + (if n : bool then 2 else 0) + (if w : bool then 1 else 0) in
  word s /\ view s = mkG g c n w.
Proof.
  intros Hg Hc s. assert (0 <= (- c) mod 2 ^ 30 < 2 ^ 30) as Hm by (apply Z.mod_pos_bound; lia).
  assert (word s) as Hw by (unfold word, s; destruct n, w; lia). split; [done|].
  apply view_ext; unfold s; try done; set (v := (- c) mod 2 ^ 30) in *; clearbody v; clear s Hw;
    destruct n, w; Z.div_mod_to_equations; lia.
Qed.

(** Two words with equal fields are equal; used to compute with the code. *)
Lemma view_eq_word s g c n w : word s -> view s = mkG g c n w -> forall s', word s' -> view s' = mkG g c n w -> s' = s.
Proof. intros _ E s' _ E'. apply view_inj. congruence. Qed.

Section ops.
Context (s : Z) (Hs : word s) (g c : Z) (n w : bool) (Hv : view s = mkG g c n w).

Lemma value_zero : s .& DISPATCH_GROUP_VALUE_MASK = 0 <-> c = 0.
Proof.
  rewrite mask_value. apply view_inv in Hv as (_ & A2 & A3 & _). rewrite A2.
  split; intros; Z.div_mod_to_equations; lia.
Qed.

Lemma value_one : s .& DISPATCH_GROUP_VALUE_MASK = DISPATCH_GROUP_VALUE_1 <-> c = 1.
Proof.
  rewrite mask_value. apply view_inv in Hv as (_ & A2 & A3 & _). rewrite A2.
  unfold DISPATCH_GROUP_VALUE_1, DISPATCH_GROUP_VALUE_MASK. split; intros; Z.div_mod_to_equations; lia.
Qed.

Lemma has_waiters : has s DISPATCH_GROUP_HAS_WAITERS = w.
Proof.
  unfold has, DISPATCH_GROUP_HAS_WAITERS. apply view_inv in Hv as (_ & _ & _ & _ & A5).
  change 1 with (2 ^ 0). rewrite land_pow2, testbit_div by lia. change (2 ^ 0) with 1. rewrite Z.div_1_r, A5.
  by destruct w.
Qed.

Lemma has_notifs : has s DISPATCH_GROUP_HAS_NOTIFS = n.
Proof.
  unfold has, DISPATCH_GROUP_HAS_NOTIFS. apply view_inv in Hv as (_ & _ & _ & A4 & _).
  change 2 with (2 ^ 1). rewrite land_pow2, testbit_div by lia. change (2 ^ 1) with 2. rewrite A4.
  by destruct n.
Qed.

Lemma gen_view : _dg_state_gen s = g.
Proof.
  unfold _dg_state_gen. rewrite Z.shiftr_div_pow2 by lia. apply view_inv in Hv as (<- & _).
  apply wrap_small. unfold word in Hs. Z.div_mod_to_equations. lia.
Qed.

Lemma low_zero : u32 s = 0 <-> c = 0 /\ n = false /\ w = false.
Proof.
  destruct (view_word s g c n w Hs Hv) as [Hg E]. apply view_inv in Hv as (_ & _ & A3 & _).
  unfold wrap. rewrite E. destruct n, w; Z.div_mod_to_equations; intuition (try congruence; lia).
Qed.

Lemma set_waiters : word (s .| DISPATCH_GROUP_HAS_WAITERS) /\ view (s .| DISPATCH_GROUP_HAS_WAITERS) = mkG g c n true.
Proof.
  destruct (view_word s g c n w Hs Hv) as [Hg E]. pose proof Hv as Hv'.
  apply view_inv in Hv' as (_ & _ & A3 & _ & A5). destruct (word_view g c n true Hg A3) as [W V].
  assert (s .| DISPATCH_GROUP_HAS_WAITERS = g * 2 ^ 32 + (- c) mod 2 ^ 30 * 4 + (if n then 2 else 0) + 1) as ->; [|done].
  unfold DISPATCH_GROUP_HAS_WAITERS. change 1 with (2 ^ 0) at 1. rewrite lor_bit by lia.
  change (2 ^ 0) with 1. rewrite Z.div_1_r, A5, E. destruct n, w; lia.
Qed.

Lemma set_notifs : word (s .| DISPATCH_GROUP_HAS_NOTIFS) /\ view (s .| DISPATCH_GROUP_HAS_NOTIFS) = mkG g c true w.
Proof.
  destruct (view_word s g c n w Hs Hv) as [Hg E]. pose proof Hv as Hv'.
  apply view_inv in Hv' as (_ & _ & A3 & A4 & _). destruct (word_view g c true w Hg A3) as [W V].
  assert (s .| DISPATCH_GROUP_HAS_NOTIFS = g * 2 ^ 32 + (- c) mod 2 ^ 30 * 4 + 2 + (if w then 1 else 0)) as ->; [|done].
  unfold DISPATCH_GROUP_HAS_NOTIFS. change 2 with (2 ^ 1) at 1. rewrite lor_bit by lia.
  change (2 ^ 1) with 2. rewrite A4, E. destruct n, w; lia.
Qed.

Lemma clear_notifs : word (s .& lnotw 64 DISPATCH_GROUP_HAS_NOTIFS) /\
  view (s .& lnotw 64 DISPATCH_GROUP_HAS_NOTIFS) = mkG g c false w.
Proof.
  destruct (view_word s g c n w Hs Hv) as [Hg E]. pose proof Hv as Hv'.
  apply view_inv in Hv' as (_ & _ & A3 & A4 & _). destruct (word_view g c false w Hg A3) as [W V].
  assert (s .& lnotw 64 DISPATCH_GROUP_HAS_NOTIFS = g * 2 ^ 32 + (- c) mod 2 ^ 30 * 4 + 0 + (if w then 1 else 0)) as ->; [|done].
  unfold DISPATCH_GROUP_HAS_NOTIFS. change 2 with (2 ^ 1) at 1. rewrite land_clear_bit by (done || lia).
  change (2 ^ 1) with 2. rewrite A4, E. destruct n, w; lia.
Qed.

Lemma clear_waiters : word (s .& lnotw 64 DISPATCH_GROUP_HAS_WAITERS) /\
  view (s .& lnotw 64 DISPATCH_GROUP_HAS_WAITERS) = mkG g c n false.
Proof.
  destruct (view_word s g c n w Hs Hv) as [Hg E]. pose proof Hv as Hv'.
  apply view_inv in Hv' as (_ & _ & A3 & _ & A5). destruct (word_view g c n false Hg A3) as [W V].
  assert (s .& lnotw 64 DISPATCH_GROUP_HAS_WAITERS = g * 2 ^ 32 + (- c) mod 2 ^ 30 * 4 + (if n then 2 else 0) + 0) as ->; [|done].
  unfold DISPATCH_GROUP_HAS_WAITERS. change 1 with (2 ^ 0) at 1. rewrite land_clear_bit by (done || lia).
  change (2 ^ 0) with 1. rewrite Z.div_1_r, A5, E. destruct n, w; lia.
Qed.

(** Entering counts up and leaves the generation and the flags alone. *)
Lemma enter_view : c < 2 ^ 30 - 1 -> exists s', dispatch_group_enter s = Done (s', bool_decide (c = 0)) /\
  word s' /\ view s' = mkG g (c + 1) n w.
Proof.
  intros Hc. destruct (view_word s g c n w Hs Hv) as [Hg E]. pose proof Hv as Hv'.
  apply view_inv in Hv' as (A1 & A2 & A3 & A4 & A5). destruct (word_view g (c + 1) n w Hg ltac:(lia)) as [W V].
  assert (dg_bits s .& DISPATCH_GROUP_VALUE_MASK = s .& DISPATCH_GROUP_VALUE_MASK) as Em.
  { rewrite !mask_value. unfold dg_bits, wrap. f_equal. Z.div_mod_to_equations. lia. }
  unfold dispatch_group_enter. rewrite Em. rewrite decide_False.
  2:{ rewrite mask_value, A2. unfold DISPATCH_GROUP_VALUE_MAX, DISPATCH_GROUP_VALUE_INTERVAL. Z.div_mod_to_equations. lia. }
  eexists. split; [|split; [exact W|exact V]]. do 2 f_equal.
  - unfold set_dg_bits, dg_bits, DISPATCH_GROUP_VALUE_INTERVAL, wrap. rewrite Z.shiftr_div_pow2, A1 by lia.
    rewrite E. clear -Hg A3 Hc. destruct n, w; Z.div_mod_to_equations; lia.
  - apply bool_decide_ext. apply value_zero.
Qed.

(** Leaving counts down; the last leave carries into the generation. *)
Lemma leave_view : 0 < c -> g < 2 ^ 32 - 1 ->
  exists s', word s' /\
    if decide (c = 1)
    then dispatch_group_leave s = Done (s', Some s') /\ view s' = mkG (g + 1) 0 n w
    else dispatch_group_leave s = Done (s', None) /\ view s' = mkG g (c - 1) n w.
Proof.
  intros Hc Hgm. destruct (view_word s g c n w Hs Hv) as [Hg E]. pose proof Hv as Hv'.
  apply view_inv in Hv' as (A1 & A2 & A3 & A4 & A5).
  assert (u32 (s .& DISPATCH_GROUP_VALUE_MASK) = s .& DISPATCH_GROUP_VALUE_MASK) as Em.
  { apply wrap_small. rewrite mask_value, A2. Z.div_mod_to_equations. lia. }
  unfold dispatch_group_leave. rewrite Em.
  destruct (decide (c = 1)) as [E1|E1].
  - destruct (word_view (g + 1) 0 n w ltac:(lia) ltac:(lia)) as [W V].
    eexists. split; [exact W|]. split; [|exact V]. rewrite decide_True by (by apply value_one).
    assert (u64 (s + DISPATCH_GROUP_VALUE_INTERVAL) = (g + 1) * 2 ^ 32 + (- 0) mod 2 ^ 30 * 4 + (if n then 2 else 0) + (if w then 1 else 0)) as ->; [|done].
    unfold DISPATCH_GROUP_VALUE_INTERVAL. rewrite wrap_small.
    + rewrite E, E1. clear. destruct n, w; Z.div_mod_to_equations; lia.
    + unfold word in Hs. rewrite E in *. clear -Hs Hg Hgm A3. destruct n, w; Z.div_mod_to_equations; lia.
  - destruct (word_view g (c - 1) n w ltac:(lia) ltac:(lia)) as [W V].
    eexists. split; [exact W|]. split; [|exact V].
    rewrite decide_False by (rewrite value_one; lia). rewrite decide_False by (rewrite value_zero; lia).
    do 2 f_equal. unfold DISPATCH_GROUP_VALUE_INTERVAL. rewrite wrap_small.
    + rewrite E. clear -A3 Hc E1. destruct n, w; Z.div_mod_to_equations; lia.
    + unfold word in Hs. rewrite E in *. clear -Hs Hg A3 Hc E1. destruct n, w; Z.div_mod_to_equations; lia.
Qed.
End ops.

(** What the loop of [dispatch_group_leave] writes. *)
Lemma leave_new_view s g c n w : word s -> view s = mkG g c n w ->
  word (leave_new_state s) /\ view (leave_new_state s) = mkG g c false (if decide (c = 0) then false else w).
Proof.
  intros Hs Hv. unfold leave_new_state. destruct (decide (c = 0)) as [E|E].
  - rewrite decide_True by (by eapply value_zero). destruct (clear_waiters s Hs g c n w Hv) as [W V].
    by apply (clear_notifs _ W g c n false).
  - rewrite decide_False by (by rewrite value_zero by done). by apply (clear_notifs s Hs g c n w).
Qed.

(** ** The invariant *)

Definition b2z (b : bool) : Z := if b then 1 else 0.

(** Counts of the threads at given points. *)
Definition owns_list (pc : group_pc) : Z :=
  match pc with
  | GNotifyRetain | GNotifyState => 1
  | GWake st _ => b2z (vnotifs (view st))
  | _ => 0
  end.
Definition must_retain (pc : group_pc) : Z := match pc with GEnterRetain | GNotifyRetain => 1 | _ => 0 end.
Definition must_release (pc : group_pc) : Z :=
  match pc with
  | GLeaveLoop _ => 1
  | GWake _ rel => b2z rel
  | GSubmit _ _ rel => b2z rel + 1
  | GWakeAddress _ refs | GRelease refs => refs
  | _ => 0
  end.
Definition clearing (pc : group_pc) : Z :=
  match pc with GLeaveLoop old => b2z (bool_decide (leave_new_state old <> old)) | _ => 0 end.
Definition waking (pc : group_pc) : Z :=
  match pc with GWake st _ | GSubmit _ st _ | GWakeAddress st _ => b2z (vwaiters (view st)) | _ => 0 end.
Definition will_wake (pc : group_pc) : Z :=
  match pc with GLeaveLoop old => b2z (vwaiters (view old)) | _ => 0 end.

Definition occurs (id : nat) (l : list nat) : Z := Z.of_nat (length (filter (fun x => x = id) l)).
Definition captured (id : nat) (pc : group_pc) : Z := match pc with GSubmit l _ _ => occurs id l | _ => 0 end.

Definition pc_word (pc : group_pc) : Prop :=
  match pc with
  | GLeaveLoop s | GWake s _ | GSubmit _ s _ | GWakeAddress s _ => word s
  | _ => True
  end.

Definition nonempty {A} (l : list A) : Z := match l with [] => 0 | _ => 1 end.

(** A waiter on generation [gen] will not be forgotten. *)
Definition wait_ok (v : gview) (threads : list group_pc) (pc : group_pc) : Prop :=
  match pc with
  | GWaitSlow gen => gen <= vgen v /\ (gen = vgen v -> vwaiters v = true /\ vcount v <> 0)
  | GAsleep gen => gen <= vgen v /\ (gen = vgen v -> vwaiters v = true /\ vcount v <> 0) /\
      (gen <> vgen v -> 0 < tally waking threads \/ (vwaiters v = true /\ 0 < tally will_wake threads))
  | _ => True
  end.

Record group_inv (c : group_config) : Prop := {
  gi_word : word (gc_state c);
  gi_pcs : forall i pc, gc_threads c !! i = Some pc ->
    pc_word pc /\ wait_ok (view (gc_state c)) (gc_threads c) pc;
  gi_owner : tally owns_list (gc_threads c) + b2z (vnotifs (view (gc_state c))) = nonempty (gc_notify c);
  gi_refs : gc_refs c + tally must_retain (gc_threads c) =
    b2z (bool_decide (vcount (view (gc_state c)) <> 0)) + tally must_release (gc_threads c) + nonempty (gc_notify c);
  gi_ids : forall id, occurs id (gc_pushed c) =
    occurs id (gc_submitted c) + occurs id (gc_notify c) + tally (captured id) (gc_threads c);
  gi_clear : vcount (view (gc_state c)) = 0 ->
    vnotifs (view (gc_state c)) || vwaiters (view (gc_state c)) = true -> 0 < tally clearing (gc_threads c);
  gi_ok : gc_crashed c = false;
}.

(** What clients may do: leave only what was entered, within the width of the
    count and of the generation. *)
Definition group_entitled (c : group_config) (a : group_action) : Prop :=
  match a with
  | GEnter => vcount (view (gc_state c)) < 2 ^ 30 - 1
  | GLeave => 0 < vcount (view (gc_state c)) /\ vgen (view (gc_state c)) < 2 ^ 32 - 1
  | _ => True
  end.

#[export] Instance group_entitled_dec c a : Decision (group_entitled c a).
Proof. destruct a; simpl; apply _. Defined.

(** Runs of [n] threads on a group created with [k] entries. *)
Definition group_start (k : Z) (n : nat) : group_config :=
  let '(state, refs) := _dispatch_group_create_with_count k in group_init state refs n.

Inductive group_reach (k : Z) (n : nat) : group_config -> Prop :=
| gr_init : group_reach k n (group_start k n)
| gr_step c i a c' : group_reach k n c -> group_entitled c a -> group_step c i a = Some c' -> group_reach k n c'.

(** A given schedule; [None] when a step is not possible. *)
Fixpoint run_group (c : group_config) (sched : list (nat * group_action)) : option group_config :=
  match sched with
  | [] => Some c
  | (i, a) :: sched => if decide (group_entitled c a) then c ← group_step c i a; run_group c sched else None
  end.

(** ** Preservation *)

Lemma b2z_range b : 0 <= b2z b <= 1.
Proof. destruct b; simpl; lia. Qed.

Lemma clearing_nonneg pc : 0 <= clearing pc.
Proof. destruct pc; simpl; try lia. apply b2z_range. Qed.
Lemma waking_nonneg pc : 0 <= waking pc.
Proof. destruct pc; simpl; try lia; apply b2z_range. Qed.
Lemma will_wake_nonneg pc : 0 <= will_wake pc.
Proof. destruct pc; simpl; try lia; apply b2z_range. Qed.
Lemma owns_list_nonneg pc : 0 <= owns_list pc.
Proof. destruct pc; simpl; try lia; apply b2z_range. Qed.

Lemma occurs_app id l l' : occurs id (l ++ l') = occurs id l + occurs id l'.
Proof. unfold occurs. rewrite filter_app, length_app. lia. Qed.
Lemma occurs_cons id x l : occurs id (x :: l) = occurs id [x] + occurs id l.
Proof. apply (occurs_app id [x] l). Qed.

(** One thread moves from [pc] to [pc'] and the shared state becomes [s']: it is
    enough to check the changes. *)
Lemma group_inv_move c i pc pc' s' notify' refs' pushed' submitted' :
  group_inv c -> gc_threads c !! i = Some pc -> word s' -> pc_word pc' ->
  let v := view (gc_state c) in let v' := view s' in
  (* counts *)
  owns_list pc' + b2z (vnotifs v') - nonempty notify' = owns_list pc + b2z (vnotifs v) - nonempty (gc_notify c) ->
  refs' + must_retain pc' - b2z (bool_decide (vcount v' <> 0)) - must_release pc' - nonempty notify' =
    gc_refs c + must_retain pc - b2z (bool_decide (vcount v <> 0)) - must_release pc - nonempty (gc_notify c) ->
  (forall id, occurs id pushed' - occurs id submitted' - occurs id notify' - captured id pc' =
    occurs id (gc_pushed c) - occurs id (gc_submitted c) - occurs id (gc_notify c) - captured id pc) ->
  (* the flags of an empty group are being cleared *)
  (vcount v' = 0 -> vnotifs v' || vwaiters v' = true ->
     0 < clearing pc' \/ (clearing pc' = clearing pc /\ vcount v = 0 /\ vnotifs v || vwaiters v = true)) ->
  (* waiters *)
  vgen v <= vgen v' ->
  (vgen v' = vgen v -> vwaiters v = true -> vcount v <> 0 -> vwaiters v' = true /\ vcount v' <> 0) ->
  (vgen v' <> vgen v -> vwaiters v = true -> 0 < waking pc' \/ (vwaiters v' = true /\ 0 < will_wake pc')) ->
  (vwaiters v = true -> 0 < waking pc' \/ (vwaiters v' = true /\ will_wake pc <= will_wake pc')) ->
  (waking pc <= waking pc' \/ forall j gen, gc_threads c !! j <> Some (GAsleep gen)) ->
  wait_ok v' (<[i := pc']> (gc_threads c)) pc' ->
  group_inv {| gc_state := s'; gc_notify := notify'; gc_refs := refs'; gc_threads := <[i := pc']> (gc_threads c);
               gc_pushed := pushed'; gc_submitted := submitted'; gc_crashed := gc_crashed c |}.
Proof.
  intros [I1 I2 I3 I4 I5 I6 I7] Hpc Hw Hpw v v' Ho Hr Hid Hcl Hg Hk Hbump Hww Hwk Hown.
  fold v in I3, I4, I6. constructor; cbn [gc_state gc_notify gc_refs gc_threads gc_pushed gc_submitted gc_crashed]; fold v'.
  - done.
  - intros j q Hj. apply list_lookup_insert_Some in Hj as [(-> & <- & _)|[Hij Hj]]; [done|].
    destruct (I2 j q Hj) as [Hq1 Hq2]. split; [done|]. fold v in Hq2.
    destruct q as [| | | | | | | | |gen|gen]; try done; cbn [wait_ok pc_word] in Hq2 |- *.
    + destruct Hq2 as [Hq2 Hq3]. split; [lia|]. intros E. assert (vgen v' = vgen v) as Eg by lia.
      destruct Hq3 as [? ?]; [lia|]. auto.
    + destruct Hwk as [Hwk|Hwk]; [|by destruct (Hwk _ _ Hj)].
      destruct Hq2 as (Hq2 & Hq3 & Hq4). split; [lia|]. split.
      * intros E. assert (vgen v' = vgen v) as Eg by lia. destruct Hq3 as [? ?]; [lia|]. auto.
      * intros E. rewrite !(tally_insert _ _ _ _ _ Hpc).
        pose proof (tally_ge waking _ _ _ waking_nonneg Hpc). pose proof (tally_ge will_wake _ _ _ will_wake_nonneg Hpc).
        destruct (decide (gen = vgen v)) as [Eg|Eg].
        -- destruct (Hq3 Eg) as [Hq5 Hq6]. destruct (Hbump ltac:(congruence) Hq5) as [|[? ?]]; [left; lia|right; split; [done|lia]].
        -- destruct (Hq4 Eg) as [|[Hq5 Hq6]]; [left; lia|].
           destruct (Hww Hq5) as [|[? ?]]; [left; lia|right; split; [done|lia]].
  - rewrite (tally_insert _ _ _ _ _ Hpc). lia.
  - rewrite !(tally_insert _ _ _ _ _ Hpc). lia.
  - intros id. rewrite (tally_insert _ _ _ _ _ Hpc). specialize (I5 id). specialize (Hid id). lia.
  - intros Hz Hf. rewrite (tally_insert _ _ _ _ _ Hpc). pose proof (tally_ge clearing _ _ _ clearing_nonneg Hpc).
    destruct (Hcl Hz Hf) as [|(-> & ? & ?)]; [lia|]. specialize (I6 ltac:(done) ltac:(done)). lia.
  - done.
Qed.

(** The thread's new program counter and the flags of a step, by cases. *)
Ltac group_cases :=
  repeat match goal with |- context [b2z ?b] => destruct b eqn:?; cbn [b2z] in * end;
  repeat match goal with H : bool_decide _ = true |- _ => apply bool_decide_eq_true in H
                       | H : bool_decide _ = false |- _ => apply bool_decide_eq_false in H end;
  try lia; try done; try congruence.

Ltac group_move Ev Ev' :=
  eapply group_inv_move; [eassumption|eassumption|eassumption|try done|..];
  rewrite ?Ev, ?Ev'; cbn [vgen vcount vnotifs vwaiters]; try done;
  try (cbn [owns_list must_retain must_release clearing waking will_wake captured wait_ok];
       rewrite ?Ev'; cbn [vgen vcount vnotifs vwaiters]; group_cases; intros; solve [lia | intuition (congruence || lia)]).

Lemma clearing_view s g c n w : word s -> view s = mkG g c n w ->
  clearing (GLeaveLoop s) = b2z (n || (w && bool_decide (c = 0))).
Proof.
  intros Hs Hv. destruct (leave_new_view s g c n w Hs Hv) as [Hw' Hv']. cbn [clearing]. f_equal.
  assert (leave_new_state s = s <-> (if decide (c = 0) then n = false /\ w = false else n = false)) as E.
  { split.
    - intros E. rewrite E, Hv in Hv'. destruct (decide (c = 0)); simplify_eq; done.
    - intros E. apply view_inj. rewrite Hv, Hv'. destruct (decide (c = 0)); [destruct E as [-> ->]|rewrite E]; done. }
  destruct (decide (c = 0)) as [E0|E0]; [rewrite (bool_decide_eq_true_2 _ E0)|rewrite (bool_decide_eq_false_2 _ E0)];
    destruct n, w; simpl; try (apply bool_decide_eq_true_2); try (apply bool_decide_eq_false_2); rewrite E; intuition done.
Qed.

Section preservation.
Context (c : group_config) (Hinv : group_inv c).
Context (g k : Z) (n w : bool) (Ev : view (gc_state c) = mkG g k n w).

Lemma k_range : 0 <= k < 2 ^ 30.
Proof. by apply view_inv in Ev as (_ & _ & ? & _). Qed.

Lemma inv_enter i c' : gc_threads c !! i = Some GIdle -> k < 2 ^ 30 - 1 ->
  group_step c i GEnter = Some c' -> group_inv c'.
Proof.
  intros Hi Hk Hstep. pose proof k_range. unfold group_step in Hstep. rewrite Hi in Hstep. simpl in Hstep.
  destruct (enter_view _ (gi_word _ Hinv) g k n w Ev Hk) as (s' & E & Hw & Ev'). rewrite E in Hstep.
  injection Hstep as <-. destruct (bool_decide (k = 0)) eqn:Ek; [apply bool_decide_eq_true in Ek|apply bool_decide_eq_false in Ek];
  group_move Ev Ev'.
Qed.

Lemma inv_leave i c' : gc_threads c !! i = Some GIdle -> 0 < k -> g < 2 ^ 32 - 1 ->
  group_step c i GLeave = Some c' -> group_inv c'.
Proof.
  intros Hi Hk Hg Hstep. pose proof k_range. unfold group_step in Hstep. rewrite Hi in Hstep. simpl in Hstep.
  destruct (leave_view _ (gi_word _ Hinv) g k n w Ev Hk Hg) as (s' & Hw & E).
  destruct (decide (k = 1)) as [E1|E1]; destruct E as [E Ev']; rewrite E in Hstep; injection Hstep as <-.
  - pose proof (clearing_view s' (g + 1) 0 n w Hw Ev') as Ecl. group_move Ev Ev'.
    + intros _ Hf. left. rewrite Ecl. by destruct n, w.
  - group_move Ev Ev'.
Qed.

Lemma inv_wait i b c' : gc_threads c !! i = Some GIdle ->
  group_step c i (GWait b) = Some c' -> group_inv c'.
Proof.
  intros Hi Hstep. pose proof k_range. pose proof (gi_word _ Hinv) as Hw. unfold group_step in Hstep. rewrite Hi in Hstep. simpl in Hstep.
  unfold dispatch_group_wait in Hstep. destruct (set_waiters _ Hw g k n w Ev) as [Hw' Ev'].
  pose proof (has_waiters _ g k n w Ev) as Hwt. unfold has in Hwt.
  destruct (decide (_ = 0)) as [E|E]; [|destruct b; [|destruct (decide (_ <> 0)) as [E'|E']]];
    injection Hstep as <-; rewrite ?(value_zero _ g k n w Ev) in E.
  - group_move Ev Ev.
  - group_move Ev Ev.
  - rewrite bool_decide_eq_true_2 in Hwt by done. subst w. rewrite (gen_view _ Hw' _ _ _ _ Ev'). group_move Ev Ev.
  - rewrite (gen_view _ Hw' _ _ _ _ Ev'). group_move Ev Ev'.
Qed.

Lemma inv_notify i id c' : gc_threads c !! i = Some GIdle ->
  group_step c i (GNotify id) = Some c' -> group_inv c'.
Proof.
  intros Hi Hstep. pose proof (gi_word _ Hinv) as Hw. unfold group_step in Hstep. rewrite Hi in Hstep. simpl in Hstep.
  injection Hstep as <-. destruct (gc_notify c) as [|id' l] eqn:En; group_move Ev Ev; rewrite ?En;
    try (simpl; lia); intros id''; rewrite ?occurs_app; cbn [captured]; change (occurs id'' []) with 0; lia.
Qed.

(** A thread that owns the list is alone to do so, and the list is not empty. *)
Lemma owner_exclusive i pc : gc_threads c !! i = Some pc -> owns_list pc = 1 ->
  n = false /\ nonempty (gc_notify c) = 1.
Proof.
  intros Hi Ho. pose proof (tally_ge owns_list _ _ _ owns_list_nonneg Hi). pose proof (gi_owner _ Hinv) as E.
  rewrite Ev in E. cbn [vnotifs] in E. destruct n, (gc_notify c); simpl in *; (lia || done).
Qed.

Lemma inv_retain i pc c' : gc_threads c !! i = Some pc -> pc = GEnterRetain \/ pc = GNotifyRetain ->
  group_step c i GRun = Some c' -> group_inv c'.
Proof.
  intros Hi Hpc Hstep. pose proof (gi_word _ Hinv) as Hw. unfold group_step in Hstep. rewrite Hi in Hstep.
  destruct Hpc as [-> | ->]; simpl in Hstep; injection Hstep as <-; group_move Ev Ev.
Qed.

Lemma inv_notify_state i c' : gc_threads c !! i = Some GNotifyState ->
  group_step c i GRun = Some c' -> group_inv c'.
Proof.
  intros Hi Hstep. pose proof (gi_word _ Hinv) as Hw. unfold group_step in Hstep. rewrite Hi in Hstep. simpl in Hstep.
  destruct (set_notifs _ Hw g k n w Ev) as [Hw' Ev']. destruct (owner_exclusive i _ Hi eq_refl) as [En _].
  unfold group_notify_state in Hstep.
  destruct (decide (u32 _ = 0)) as [E|E]; injection Hstep as <-; rewrite (low_zero _ Hw g k n w Ev) in E.
  - destruct E as (-> & _ & ->). group_move Ev Ev'.
  - subst n. group_move Ev Ev'. intros. destruct w; [intuition lia|]. intuition congruence.
Qed.

Lemma inv_leave_loop i old c' : gc_threads c !! i = Some (GLeaveLoop old) ->
  group_step c i GRun = Some c' -> group_inv c'.
Proof.
  intros Hi Hstep. pose proof (gi_word _ Hinv) as Hw. destruct (gi_pcs _ Hinv _ _ Hi) as [Hwo _]. simpl in Hwo.
  unfold group_step in Hstep. rewrite Hi in Hstep. simpl in Hstep.
  destruct (view old) as [g0 k0 n0 w0] eqn:Eo. destruct (leave_new_view old g0 k0 n0 w0 Hwo Eo) as [Hwn Evn].
  pose proof (clearing_view old g0 k0 n0 w0 Hwo Eo) as Ecl.
  destruct (decide (old = leave_new_state old)) as [E|E]; [|destruct (decide (gc_state c = old)) as [<-|E']]; injection Hstep as <-.
  - assert (n0 = false /\ clearing (GLeaveLoop old) = 0) as [-> Ecl'].
    { rewrite <- E, Eo in Evn. simplify_eq. split; [done|]. cbn [clearing].
      rewrite bool_decide_eq_false_2; [done|]. intros Hne. by apply Hne. }
    group_move Ev Eo.
  - rewrite Ev in Eo. simplify_eq. rename g0 into g, k0 into k, n0 into n, w0 into w. 
    eapply group_inv_move; try done; rewrite ?Ev, ?Evn; cbn [vgen vcount vnotifs vwaiters owns_list must_retain must_release captured waking will_wake];
      rewrite ?Ev; cbn [vnotifs vwaiters vgen vcount b2z]; try lia.
    + destruct (decide (k = 0)); [done|]. intros; lia.
    + destruct (decide (k = 0)); intuition lia.
    + intros ->. simpl. lia.
    + left. apply b2z_range.
  - pose proof (clearing_view _ g k n w Hw Ev) as Ecl'.
    group_move Ev Ev. intros -> Hf. left. rewrite Ecl'. by destruct n, w.
Qed.

Lemma inv_wake i st rel c' : gc_threads c !! i = Some (GWake st rel) ->
  group_step c i GRun = Some c' -> group_inv c'.
Proof.
  intros Hi Hstep. pose proof (gi_word _ Hinv) as Hw. destruct (gi_pcs _ Hinv _ _ Hi) as [Hwo _]. simpl in Hwo.
  unfold group_step in Hstep. rewrite Hi in Hstep. simpl in Hstep.
  destruct (view st) as [g0 k0 n0 w0] eqn:Eo. rewrite (has_notifs st g0 k0 n0 w0 Eo) in Hstep.
  destruct n0; injection Hstep as <-.
  - destruct (owner_exclusive i _ Hi) as [-> Hne]; [cbn [owns_list]; by rewrite Eo|].
    group_move Ev Eo; rewrite ?Hne; cbn [owns_list must_retain must_release]; rewrite ?Eo; simpl; try lia.
    intros id. change (occurs id []) with 0. lia.
  - group_move Ev Eo.
Qed.

Lemma inv_submit i l st rel c' : gc_threads c !! i = Some (GSubmit l st rel) ->
  group_step c i GRun = Some c' -> group_inv c'.
Proof.
  intros Hi Hstep. pose proof (gi_word _ Hinv) as Hw. destruct (gi_pcs _ Hinv _ _ Hi) as [Hwo _]. simpl in Hwo.
  unfold group_step in Hstep. rewrite Hi in Hstep. simpl in Hstep.
  destruct l as [|id l]; injection Hstep as <-; group_move Ev Ev.
  intros id'. cbn [captured]. rewrite occurs_app, (occurs_cons id' id l). lia.
Qed.

Lemma inv_release i refs c' : gc_threads c !! i = Some (GRelease refs) ->
  group_step c i GRun = Some c' -> group_inv c'.
Proof.
  intros Hi Hstep. pose proof (gi_word _ Hinv) as Hw. unfold group_step in Hstep. rewrite Hi in Hstep. simpl in Hstep.
  injection Hstep as <-. group_move Ev Ev.
Qed.

(** The loop of [_dispatch_group_wait_slow], with or without a timeout. *)
Lemma inv_wait_slow i a pc gen c' : gc_threads c !! i = Some pc -> pc = GWaitSlow gen \/ pc = GAsleep gen ->
  a = GRun \/ (exists b, a = GFutexReturn b) -> group_step c i a = Some c' -> group_inv c'.
Proof.
  intros Hi Hpc Ha Hstep. pose proof (gi_word _ Hinv) as Hw. destruct (gi_pcs _ Hinv _ _ Hi) as [_ Hwo].
  unfold group_step in Hstep. rewrite Hi in Hstep. rewrite Ev in Hwo.
  assert (gen = g -> w = true /\ k <> 0) as Hcur by (destruct Hpc as [-> | ->]; cbn [wait_ok vgen vwaiters vcount] in Hwo; tauto).
  assert (_dg_state_gen (gc_state c) = g) as Eg by (by eapply gen_view).
  destruct Hpc as [-> | ->]; destruct Ha as [-> | [b ->]]; cbn [mbind option_bind] in Hstep; rewrite ?Eg in Hstep; try done;
    destruct (decide (g = gen)) as [<-|E]; try destruct b; injection Hstep as <-.
  all: try destruct (Hcur eq_refl) as [-> ?]. all: group_move Ev Ev.
Qed.
End preservation.

(** Waking the sleepers keeps the invariant, and leaves nobody asleep. *)
Lemma inv_awake c : group_inv c ->
  let c' := {| gc_state := gc_state c; gc_notify := gc_notify c; gc_refs := gc_refs c; gc_threads := awake <$> gc_threads c;
               gc_pushed := gc_pushed c; gc_submitted := gc_submitted c; gc_crashed := gc_crashed c |} in
  group_inv c' /\ forall j gen, gc_threads c' !! j <> Some (GAsleep gen).
Proof.
  intros [I1 I2 I3 I4 I5 I6 I7]. split.
  - constructor; cbn [gc_state gc_notify gc_refs gc_threads gc_pushed gc_submitted gc_crashed];
      rewrite ?tally_fmap by (by intros []); try done.
    + intros j q Hj. rewrite list_lookup_fmap in Hj. destruct (gc_threads c !! j) as [q0|] eqn:E; [|done].
      injection Hj as <-. destruct (I2 j q0 E) as [A B]. destruct q0; simpl awake; try done.
      split; [done|]. cbn [wait_ok] in *. tauto.
    + intros id. rewrite tally_fmap by (by intros []). apply I5.
  - cbn [gc_threads]. intros j gen Hj. rewrite list_lookup_fmap in Hj. destruct (gc_threads c !! j) as [[]|]; done.
Qed.

Lemma inv_wake_address c i st refs c' : group_inv c -> gc_threads c !! i = Some (GWakeAddress st refs) ->
  group_step c i GRun = Some c' -> group_inv c'.
Proof.
  intros Hinv Hi Hstep. unfold group_step in Hstep. rewrite Hi in Hstep. simpl in Hstep. injection Hstep as <-.
  destruct (view (gc_state c)) as [g k n w] eqn:Ev. pose proof (gi_word _ Hinv) as Hw.
  destruct (view st) as [g0 k0 n0 w0] eqn:Eo. rewrite (has_waiters st g0 k0 n0 w0 Eo). destruct w0.
  - destruct (inv_awake c Hinv) as [Hinv' Hno]. eapply (group_inv_move _ i (GWakeAddress st refs) (GRelease refs)) in Hinv'.
    1: exact Hinv'.
    all: cbn [gc_state gc_notify gc_refs gc_threads gc_pushed gc_submitted gc_crashed]; rewrite ?Ev; try done; try tauto.
    + by rewrite list_lookup_fmap, Hi.
    + by right.
  - group_move Ev Eo.
Qed.

(** Every step that clients are entitled to keeps the invariant. *)
Lemma group_step_inv c i a c' : group_inv c -> group_entitled c a -> group_step c i a = Some c' -> group_inv c'.
Proof.
  intros Hinv Hent Hstep. destruct (view (gc_state c)) as [g k n w] eqn:Ev. pose proof Hstep as Hs.
  unfold group_step in Hs. destruct (gc_threads c !! i) as [pc|] eqn:Hi; [|done]. cbn [mbind option_bind] in Hs.
  destruct a; cbn [group_entitled] in Hent; rewrite ?Ev in Hent; cbn [vcount vgen] in Hent; destruct pc; try done; clear Hs.
  - eapply inv_enter; eauto.
  - destruct Hent. eapply inv_leave; eauto.
  - eapply inv_wait; eauto.
  - eapply inv_notify; eauto.
  - eapply inv_retain; eauto.
  - eapply inv_leave_loop; eauto.
  - eapply inv_wake; eauto.
  - eapply inv_submit; eauto.
  - eapply inv_wake_address; eauto.
  - eapply inv_release; eauto.
  - eapply inv_retain; eauto.
  - eapply inv_notify_state; eauto.
  - eapply (inv_wait_slow c Hinv _ _ _ _ Ev i _ _ gen _ Hi); [auto| |exact Hstep]; eauto.
  - eapply (inv_wait_slow c Hinv _ _ _ _ Ev i _ _ gen _ Hi); [auto| |exact Hstep]; eauto.
  - eapply (inv_wait_slow c Hinv _ _ _ _ Ev i _ _ gen _ Hi); [auto| |exact Hstep]; eauto.
Qed.

Lemma create_view k : 0 <= k < 2 ^ 30 ->
  exists s, _dispatch_group_create_with_count k = (s, b2z (bool_decide (k <> 0))) /\ word s /\ view s = mkG 0 k false false.
Proof.
  intros Hk. destruct (word_view 0 k false false ltac:(lia) Hk) as [W V]. unfold _dispatch_group_create_with_count.
  destruct (decide (k <> 0)) as [E|E].
  - eexists. split; [|split; [exact W|exact V]]. rewrite bool_decide_eq_true_2 by done. f_equal.
    unfold set_dg_bits, DISPATCH_GROUP_VALUE_INTERVAL, wrap. change (0 .>> 32) with 0. clear W V.
    Z.div_mod_to_equations; lia.
  - exists 0. rewrite bool_decide_eq_false_2 by done. assert (k = 0) as -> by lia. done.
Qed.

Lemma group_start_inv k n : 0 <= k < 2 ^ 30 -> group_inv (group_start k n).
Proof.
  intros Hk. destruct (create_view k Hk) as (s & E & Hw & Ev). unfold group_start. rewrite E.
  constructor; unfold group_init; cbn [gc_state gc_notify gc_refs gc_threads gc_pushed gc_submitted gc_crashed];
    rewrite ?tally_repeat, ?Ev; try done; cbn [owns_list must_retain must_release vcount vnotifs b2z nonempty].
  - intros i pc Hi. by apply lookup_replicate_1 in Hi as [-> _].
  - lia.
  - lia.
  - intros id. rewrite tally_repeat. cbn [captured]. change (occurs id []) with 0. lia.
Qed.

Lemma group_reach_inv k n c : 0 <= k < 2 ^ 30 -> group_reach k n c -> group_inv c.
Proof. intros Hk. induction 1; [by apply group_start_inv|by eapply group_step_inv]. Qed.

Lemma run_group_reach k n sched : forall c c', group_reach k n c -> run_group c sched = Some c' -> group_reach k n c'.
Proof.
  induction sched as [|[i a] sched IH]; simpl; intros c c' Hc Hr; [by injection Hr as <-|].
  destruct (decide _); [|done]. destruct (group_step c i a) as [c1|] eqn:E; [|done]. eapply IH; [|exact Hr]. by eapply gr_step.
Qed.

Lemma value_view s g k n w : view s = mkG g k n w -> _dg_state_value s = k.
Proof.
  intros Hv. apply view_inv in Hv as (A1 & A2 & A3 & A4 & A5). unfold _dg_state_value.
  rewrite Z.shiftr_div_pow2, mask_value by lia. unfold wrap. 
  assert ((s mod 2 ^ 32 / 4) mod 2 ^ 30 = (- k) mod 2 ^ 30) as ->; Z.div_mod_to_equations; lia.
Qed.

(** ** Properties *)

(** Entering and leaving count: on every state word the debug value goes up
    by one or down by one, the generation changes exactly when the last entry
    leaves, an unbalanced leave and an entry past the maximum crash, and a group
    with entries cannot be disposed of. *)
Theorem group_counts s : word s -> _dg_state_gen s < 2 ^ 32 - 1 ->
  (if decide (_dg_state_value s = 2 ^ 30 - 1) then dispatch_group_enter s = Crash ClientCrash
   else exists s', dispatch_group_enter s = Done (s', bool_decide (_dg_state_value s = 0)) /\
     _dg_state_value s' = _dg_state_value s + 1 /\ _dg_state_gen s' = _dg_state_gen s) /\
  (if decide (_dg_state_value s = 0) then dispatch_group_leave s = Crash ClientCrash
   else exists s' loop, dispatch_group_leave s = Done (s', loop) /\
     _dg_state_value s' = _dg_state_value s - 1 /\
     (loop <> None <-> _dg_state_value s' = 0) /\
     _dg_state_gen s' = _dg_state_gen s + (if decide (_dg_state_value s' = 0) then 1 else 0)) /\
  (_dg_state_value s <> 0 -> _dispatch_group_dispose s = Crash ClientCrash).
Proof.
  intros Hs. destruct (view s) as [g k n w] eqn:Ev. rewrite (value_view s g k n w Ev), (gen_view s Hs g k n w Ev).
  intros Hg. pose proof (view_inv _ _ _ _ _ Ev) as (A1 & A2 & A3 & A4 & A5). split; [|split].
  - destruct (decide (k = 2 ^ 30 - 1)) as [E|E].
    + unfold dispatch_group_enter. rewrite decide_True; [done|].
      rewrite mask_value. unfold dg_bits, wrap, DISPATCH_GROUP_VALUE_MAX, DISPATCH_GROUP_VALUE_INTERVAL.
      Z.div_mod_to_equations; lia.
    + destruct (enter_view s Hs g k n w Ev ltac:(lia)) as (s' & -> & Hw' & Ev').
      exists s'. by rewrite (value_view _ _ _ _ _ Ev'), (gen_view _ Hw' _ _ _ _ Ev').
  - destruct (decide (k = 0)) as [E|E].
    + unfold dispatch_group_leave. assert (s .& DISPATCH_GROUP_VALUE_MASK = 0) as -> by (by eapply value_zero). done.
    + destruct (leave_view s Hs g k n w Ev ltac:(lia) Hg) as (s' & Hw' & H). exists s'.
      destruct (decide (k = 1)) as [E1|E1]; destruct H as [-> Ev']; eexists; split; try done;
        rewrite (value_view _ _ _ _ _ Ev'), (gen_view _ Hw' _ _ _ _ Ev').
      * rewrite decide_True by done. intuition (done || lia).
      * rewrite decide_False by lia. intuition (done || lia).
  - intros E. unfold _dispatch_group_dispose. rewrite decide_True; [done|]. rewrite (low_zero s Hs g k n w Ev). tauto.
Qed.

Lemma group_counts_witness :
  dispatch_group_leave 0 = Crash ClientCrash /\ exists s, dispatch_group_enter 0 = Done (s, true) /\ _dg_state_value s = 1.
Proof.
  destruct (group_counts 0) as (H1 & H2 & _); [done|done|]. vm_compute in H2. split; [exact H2|].
  destruct (H1) as (s & Hs & Hv & _). by exists s.
Defined.

Definition resting (pc : group_pc) : bool := match pc with GIdle | GAsleep _ => true | _ => false end.

(** C23: Notifications are never lost and never doubled: in every interleaving,
    without a crash, each registered notification is submitted, still registered
    or captured by a thread about to submit it.  When no call is in progress and
    the group is empty, all of them have been submitted, and the group holds no
    reference on itself; while it has entries it holds exactly one, and one more
    for the pending notifications. *)
Theorem group_notify_exactly_once k n c : 0 <= k < 2 ^ 30 -> group_reach k n c ->
  gc_crashed c = false /\
  (forall id, occurs id (gc_pushed c) =
     occurs id (gc_submitted c) + occurs id (gc_notify c) + tally (captured id) (gc_threads c)) /\
  ((forall i pc, gc_threads c !! i = Some pc -> resting pc = true) ->
     gc_refs c = (if decide (_dg_state_value (gc_state c) = 0) then 0 else 1) + nonempty (gc_notify c) /\
     (_dg_state_value (gc_state c) = 0 ->
        gc_notify c = [] /\ forall id, occurs id (gc_pushed c) = occurs id (gc_submitted c))).
Proof.
  intros Hk Hr. pose proof (group_reach_inv k n c Hk Hr) as [I1 I2 I3 I4 I5 I6 I7]. split; [done|]. split; [done|].
  destruct (view (gc_state c)) as [g v f w] eqn:Ev. rewrite (value_view _ _ _ _ _ Ev). cbn [vcount vnotifs vwaiters] in *.
  intros Hidle.
  assert (forall f, (forall pc, resting pc = true -> f pc = 0) -> tally f (gc_threads c) = 0) as Hz.
  { intros h Hh. apply tally_zero. intros i pc Hi. apply Hh, (Hidle i pc Hi). }
  rewrite Hz in I3 by (by intros []). rewrite !Hz in I4 by (by intros []). rewrite Hz in I6 by (by intros []). split.
  - destruct (decide (v = 0)) as [E|E]; [rewrite bool_decide_eq_false_2 in I4 by tauto|rewrite bool_decide_eq_true_2 in I4 by done];
      simpl in I4; lia.
  - intros E. assert (gc_notify c = []) as En.
    { destruct f; [by specialize (I6 E eq_refl)|]. destruct (gc_notify c); [done|simpl in I3; lia]. }
    split; [done|]. intros id. rewrite I5, En, Hz by (by intros []). change (occurs id []) with 0. lia.
Qed.

(** C24: No wakeup is lost: a thread asleep in [dispatch_group_wait] after the
    group became empty has a thread on its way to wake it; when no call other
    than waits is in progress, every sleeper waits for the current generation and
    the group is not empty. *)
Theorem group_no_lost_wakeup k n c i gen : 0 <= k < 2 ^ 30 -> group_reach k n c -> gc_threads c !! i = Some (GAsleep gen) ->
  (gen <> _dg_state_gen (gc_state c) ->
     exists j pc, gc_threads c !! j = Some pc /\ (0 < waking pc \/ 0 < will_wake pc)) /\
  ((forall j pc, gc_threads c !! j = Some pc -> resting pc = true) ->
     gen = _dg_state_gen (gc_state c) /\ _dg_state_value (gc_state c) <> 0 /\
     has (gc_state c) DISPATCH_GROUP_HAS_WAITERS = true).
Proof.
  intros Hk Hr Hi. pose proof (group_reach_inv k n c Hk Hr) as Hinv. pose proof (gi_word _ Hinv) as Hw.
  destruct (gi_pcs _ Hinv i _ Hi) as [_ (H1 & H2 & H3)].
  destruct (view (gc_state c)) as [g v f w] eqn:Ev. cbn [vcount vgen vwaiters] in *.
  rewrite (value_view _ _ _ _ _ Ev), (gen_view _ Hw _ _ _ _ Ev), (has_waiters _ _ _ _ _ Ev).
  assert (gen <> g -> exists j pc, gc_threads c !! j = Some pc /\ (0 < waking pc \/ 0 < will_wake pc)) as Hex.
  { intros E. destruct (H3 E) as [Hp|[_ Hp]]; apply tally_pos in Hp as (j & pc & Hj & Hp);
      auto using waking_nonneg, will_wake_nonneg; exists j, pc; auto. }
  split; [exact Hex|]. intros Hidle. destruct (decide (gen = g)) as [E|E]; [destruct (H2 E); auto|].
  destruct (Hex E) as (j & pc & Hj & Hp). specialize (Hidle j pc Hj). destruct pc; simpl in *; (done || lia).
Qed.

(** Thread 0 empties the group; before it takes the list of notifications, thread
    1 enters again and registers a notification for its own work. *)
Definition early_setup : list (nat * group_action) :=
  [(0, GEnter); (0, GRun); (0, GNotify 0); (0, GRun); (0, GRun); (0, GLeave); (0, GRun); (1, GEnter); (1, GRun)]%nat.
Definition early_rest : list (nat * group_action) := [(1, GNotify 1); (0, GRun); (0, GRun); (0, GRun)]%nat.

(** A notification can be submitted while the group is not empty, although
    [dispatch_group_notify] promises the opposite: registered after an entry that
    is still outstanding, it is taken along by a thread that is still handling
    the previous time the group became empty. *)
Theorem notify_can_fire_early : exists c1 c2,
  run_group (group_start 0 2) early_setup = Some c1 /\ _dg_state_value (gc_state c1) = 1 /\ gc_pushed c1 = [0%nat] /\
  run_group c1 early_rest = Some c2 /\ (1%nat, GNotify 1) ∈ early_rest /\ Forall (fun ia => snd ia <> GLeave) early_rest /\
  1%nat ∈ gc_submitted c2 /\ _dg_state_value (gc_state c2) = 1.
Proof.
  eexists _, _. split; [vm_compute; reflexivity|]. split; [vm_compute; reflexivity|]. split; [vm_compute; reflexivity|].
  split; [vm_compute; reflexivity|]. split; [left|]. split; [repeat constructor; done|].
  split; [right; left|vm_compute; reflexivity].
Qed.

(** Thread 1 waits, thread 0 leaves and is about to wake it. *)
Definition wake_sched : list (nat * group_action) :=
  [(1, GWait false); (1, GRun); (0, GNotify 7); (0, GRun); (0, GRun); (0, GLeave)]%nat.
Definition wake_rest : list (nat * group_action) := [(0, GRun); (0, GRun); (0, GRun); (0, GRun); (0, GRun); (0, GRun); (1, GRun)]%nat.
Definition wake_config : group_config := default (group_start 1 2) (run_group (group_start 1 2) wake_sched).
Definition woken_config : group_config := default (group_start 1 2) (run_group wake_config wake_rest).

Lemma wake_config_reach : group_reach 1 2 wake_config.
Proof. eapply (run_group_reach _ _ wake_sched); [apply gr_init|]. vm_compute. reflexivity. Qed.
Lemma woken_config_reach : group_reach 1 2 woken_config.
Proof. eapply (run_group_reach _ _ wake_rest); [apply wake_config_reach|]. vm_compute. reflexivity. Qed.

Lemma group_notify_exactly_once_witness :
  gc_pushed woken_config = [7%nat] /\ gc_refs woken_config = 0 /\ occurs 7 (gc_submitted woken_config) = 1.
Proof.
  destruct (group_notify_exactly_once 1 2 woken_config) as (_ & _ & H); [lia|apply woken_config_reach|].
  destruct H as [H1 H2].
  - intros i pc Hi. assert (gc_threads woken_config = [GIdle; GIdle]) as E by (vm_compute; reflexivity). rewrite E in Hi. clear E.
    destruct i as [|[|i]]; by inversion Hi.
  - split; [vm_compute; reflexivity|]. split; [rewrite H1; vm_compute; reflexivity|].
    rewrite <- (proj2 (H2 ltac:(vm_compute; reflexivity)) 7%nat). vm_compute. reflexivity.
Defined.

Lemma group_no_lost_wakeup_witness :
  gc_threads wake_config !! 1%nat = Some (GAsleep 0) /\ _dg_state_gen (gc_state wake_config) = 1 /\
  exists j pc, gc_threads wake_config !! j = Some pc /\ (0 < waking pc \/ 0 < will_wake pc).
Proof.
  split; [vm_compute; reflexivity|]. split; [vm_compute; reflexivity|].
  apply (group_no_lost_wakeup 1 2 wake_config 1 0); [lia|apply wake_config_reach|vm_compute; reflexivity|vm_compute; discriminate].
Defined.
