(* ===== verification/Mpsc.v ===== *)
(** * The multiple-producer single-consumer list

    Models the [os_mpsc_*] macros of [src/inline_internal.h], the intrusive list that
    lanes, workloop buckets, groups and mach send queues share.  A list is a head
    pointer, a tail pointer and the next pointers of its nodes; [None] is NULL.  Every
    atomic access is a step.  Any number of producers push lists of nodes; one consumer
    pops, captures snapshots, undoes pops and prepends.  The reference definition is a
    sequence of nodes changed by one event per operation. *)

From S2P Require Import Prelude.

Record mpsc := {
  mq_head : option nat;
  mq_tail : option nat;
  mq_next : gmap nat nat;
}.

Definition set_mq_head (Q : mpsc) (h : option nat) : mpsc :=
  {| mq_head := h; mq_tail := mq_tail Q; mq_next := mq_next Q |}.
Definition set_mq_tail (Q : mpsc) (t : option nat) : mpsc :=
  {| mq_head := mq_head Q; mq_tail := t; mq_next := mq_next Q |}.
Definition store_next (next : gmap nat nat) (n : nat) (v : option nat) : gmap nat nat :=
  match v with Some m => <[n := m]> next | None => delete n next end.
Definition set_mq_next (Q : mpsc) (n : nat) (v : option nat) : mpsc :=
  {| mq_head := mq_head Q; mq_tail := mq_tail Q; mq_next := store_next (mq_next Q) n v |}.

(** ** Producers *)

(** The store to the node that is still private and the exchange of the tail. *)
Definition os_mpsc_push_update_tail (Q : mpsc) (tail : nat) : option nat * mpsc :=
  let Q := set_mq_next Q tail None in
  (mq_tail Q, set_mq_tail Q (Some tail)).

Definition os_mpsc_push_was_empty (prev : option nat) : bool := bool_decide (prev = None).

Definition os_mpsc_push_update_prev (Q : mpsc) (prev : option nat) (head : nat) : mpsc :=
  match prev with
  | Some p => set_mq_next Q p (Some head)
  | None => set_mq_head Q (Some head)
  end.

(** ** The consumer *)

Definition os_mpsc_looks_empty (Q : mpsc) : bool := bool_decide (mq_tail Q = None).

(** One iteration of the spin loop: the pointer read, [None] to go round again. *)
Definition _dispatch_wait_for_enqueuer (ptr : option nat) : option nat := ptr.

Definition os_mpsc_get_head (Q : mpsc) : option nat :=
  match mq_head Q with
  | Some node => Some node
  | None => _dispatch_wait_for_enqueuer (mq_head Q)
  end.

Definition os_mpsc_get_next (Q : mpsc) (n : nat) : option nat :=
  match mq_next Q !! n with
  | Some node => Some node
  | None => _dispatch_wait_for_enqueuer (mq_next Q !! n)
  end.

(** Where the consumer is inside an operation.  The list an undo puts back is kept
    whole: its first and last nodes are the arguments of the macro. *)
Inductive consumer_pc :=
| CIdle
| CPopLoad (head : nat)                        (* os_mpsc_pop_head *)
| CPopStore (head : nat) (n : option nat)      (* next was loaded *)
| CPopCas (head : nat)                         (* the head was set to NULL *)
| CPopNext (head : nat)                        (* the exchange failed: get_next *)
| CPopStore2 (head n : nat)
| CCapStore (head : nat)                       (* os_mpsc_capture_snapshot *)
| CCapXchg (head : nat)
| CUndoNext (l : list nat) (n : option nat)    (* os_mpsc_undo_pop_list *)
| CUndoCas (l : list nat)
| CUndoGet (l : list nat)
| CUndoNext2 (l : list nat) (n : nat)
| CUndoHead (l : list nat) (queued : bool).    (* [queued]: the exchange succeeded *)

(** What an operation does to the sequence of queued nodes, at the access that makes
    it visible, with the value the code returns. *)
Inductive mpsc_event :=
| EvPush (l : list nat) (was_empty : bool)
| EvPop (head : nat) (next : option nat)
| EvCapture (head : nat) (tail : option nat)
| EvPrepend (l : list nat)
| EvSnapshot (head : nat) (next : option nat).

Definition first (l : list nat) : nat := default 0%nat (hd_error l).
Definition final (l : list nat) : nat := default 0%nat (last l).

(** One access of [os_mpsc_pop_head]; [None] while it waits. *)
Definition os_mpsc_pop_head (Q : mpsc) (pc : consumer_pc) : option (mpsc * consumer_pc * list mpsc_event) :=
  match pc with
  | CPopLoad head => Some (Q, CPopStore head (mq_next Q !! head), [])
  | CPopStore head n =>
      let Q := set_mq_head Q n in
      match n with
      | None => Some (Q, CPopCas head, [])
      | Some _ => Some (Q, CIdle, [EvPop head n])
      end
  | CPopCas head =>
      if decide (mq_tail Q = Some head)
      then Some (set_mq_tail Q None, CIdle, [EvPop head None])
      else Some (Q, CPopNext head, [])
  | CPopNext head => n ← os_mpsc_get_next Q head; Some (Q, CPopStore2 head n, [])
  | CPopStore2 head n => Some (set_mq_head Q (Some n), CIdle, [EvPop head (Some n)])
  | _ => None
  end.

Definition os_mpsc_capture_snapshot (Q : mpsc) (pc : consumer_pc)
    : option (mpsc * consumer_pc * list mpsc_event * option (nat * nat)) :=
  match pc with
  | CCapStore head => Some (set_mq_head Q None, CCapXchg head, [], None)
  | CCapXchg head =>
      Some (set_mq_tail Q None, CIdle, [EvCapture head (mq_tail Q)],
            tail ← mq_tail Q; Some (head, tail))
  | _ => None
  end.

Definition os_mpsc_undo_pop_list (Q : mpsc) (pc : consumer_pc)
    : option (mpsc * consumer_pc * list mpsc_event) :=
  match pc with
  | CUndoNext l n =>
      let Q := set_mq_next Q (final l) n in
      match n with None => Some (Q, CUndoCas l, []) | Some _ => Some (Q, CUndoHead l false, []) end
  | CUndoCas l =>
      if decide (mq_tail Q = None)
      then Some (set_mq_tail Q (Some (final l)), CUndoHead l true, [EvPrepend l])
      else Some (Q, CUndoGet l, [])
  | CUndoGet l => n ← os_mpsc_get_head Q; Some (Q, CUndoNext2 l n, [])
  | CUndoNext2 l n => Some (set_mq_next Q (final l) (Some n), CUndoHead l false, [])
  | CUndoHead l queued =>
      Some (set_mq_head Q (Some (first l)), CIdle, if queued : bool then [] else [EvPrepend l])
  | _ => None
  end.

(** The next node of the snapshot [head..tail]: [Some None] at its end, [None] while
    the link is missing. *)
Definition os_mpsc_pop_snapshot_head (Q : mpsc) (head tail : nat) : option (option nat) :=
  if decide (head <> tail) then n ← os_mpsc_get_next Q head; Some (Some n) else Some None.

(** ** Threads *)

Inductive producer_pc := PIdle | PPrev (prev : option nat) (head : nat).

#[export] Instance producer_pc_eq_dec : EqDecision producer_pc.
Proof. solve_decision. Defined.

Record mpsc_config := {
  mc_q : mpsc;
  mc_producers : list producer_pc;
  mc_consumer : consumer_pc;
  mc_snapshot : option (nat * nat);     (* the captured list not yet iterated *)
  mc_live : gset nat;                   (* nodes in the queue or the snapshot *)
}.

Inductive mpsc_action :=
| MPush (i : nat) (l : list nat)        (* producer [i]: os_mpsc_push_update_tail *)
| MPushPrev (i : nat)                   (* producer [i]: os_mpsc_push_update_prev *)
| MPop                                  (* the consumer calls os_mpsc_pop_head *)
| MCapture
| MUndo (l : list nat) (n : option nat) (* os_mpsc_undo_pop_list with [n] as the next *)
| MPrepend (l : list nat)
| MSnapshot                             (* os_mpsc_pop_snapshot_head *)
| MRun.                                 (* the next access of the consumer's call *)

(** Private nodes a caller has linked before handing them over. *)
Fixpoint link_list (next : gmap nat nat) (l : list nat) : gmap nat nat :=
  match l with
  | a :: ((b :: _) as l') => <[a := b]> (link_list next l')
  | _ => next
  end.

(** The callers' part of the contract: a list handed over is not empty, has no node
    twice, and none that is in the structure. *)
Definition fresh_list (live : gset nat) (l : list nat) : bool :=
  bool_decide (l <> []) && bool_decide (NoDup l) && bool_decide (Forall (fun a => a ∉ live) l).

Definition link_q (Q : mpsc) (l : list nat) : mpsc :=
  {| mq_head := mq_head Q; mq_tail := mq_tail Q; mq_next := link_list (mq_next Q) l |}.

(** One step, with the events it makes visible; [None] if it is not enabled. *)
Definition mpsc_step (c : mpsc_config) (a : mpsc_action) : option (mpsc_config * list mpsc_event) :=
  let Q := mc_q c in
  let produce i Q pc live :=
    {| mc_q := Q; mc_producers := <[i := pc]> (mc_producers c); mc_consumer := mc_consumer c;
       mc_snapshot := mc_snapshot c; mc_live := live |} in
  let consume Q pc snap live :=
    {| mc_q := Q; mc_producers := mc_producers c; mc_consumer := pc; mc_snapshot := snap; mc_live := live |} in
  match a with
  | MPush i l =>
      pc ← mc_producers c !! i;
      if decide (pc = PIdle) then
        if fresh_list (mc_live c) l then
          let '(prev, Q) := os_mpsc_push_update_tail (link_q Q l) (final l) in
          Some (produce i Q (PPrev prev (first l)) (mc_live c ∪ list_to_set l),
                [EvPush l (os_mpsc_push_was_empty prev)])
        else None
      else None
  | MPushPrev i =>
      pc ← mc_producers c !! i;
      match pc with
      | PPrev prev head => Some (produce i (os_mpsc_push_update_prev Q prev head) PIdle (mc_live c), [])
      | PIdle => None
      end
  | MPop =>
      match mc_consumer c with
      | CIdle =>
          if os_mpsc_looks_empty Q then None else
          head ← os_mpsc_get_head Q;
          Some (consume Q (CPopLoad head) (mc_snapshot c) (mc_live c), [])
      | _ => None
      end
  | MCapture =>
      match mc_consumer c, mc_snapshot c with
      | CIdle, None =>
          if os_mpsc_looks_empty Q then None else
          head ← os_mpsc_get_head Q; Some (consume Q (CCapStore head) None (mc_live c), [])
      | _, _ => None
      end
  | MUndo l n =>
      match mc_consumer c with
      | CIdle =>
          if fresh_list (mc_live c) l && bool_decide (n = None \/ n = mq_head Q)
          then Some (consume (link_q Q l) (CUndoNext l n) (mc_snapshot c) (mc_live c ∪ list_to_set l), [])
          else None
      | _ => None
      end
  | MPrepend l =>
      match mc_consumer c with
      | CIdle =>
          if fresh_list (mc_live c) l
          then Some (consume (link_q Q l) (CUndoNext l (mq_head Q)) (mc_snapshot c) (mc_live c ∪ list_to_set l), [])
          else None
      | _ => None
      end
  | MSnapshot =>
      match mc_consumer c, mc_snapshot c with
      | CIdle, Some (head, tail) =>
          n ← os_mpsc_pop_snapshot_head Q head tail;
          Some (consume Q CIdle (m ← n; Some (m, tail)) (mc_live c ∖ {[head]}), [EvSnapshot head n])
      | _, _ => None
      end
  | MRun =>
      match mc_consumer c with
      | CIdle => None
      | CPopLoad head | CPopStore head _ | CPopCas head | CPopNext head | CPopStore2 head _ =>
          '(Q, pc, ev) ← os_mpsc_pop_head Q (mc_consumer c);
          Some (consume Q pc (mc_snapshot c)
                  (match pc with CIdle => mc_live c ∖ {[head]} | _ => mc_live c end), ev)
      | CCapStore _ | CCapXchg _ =>
          '(Q, pc, ev, snap) ← os_mpsc_capture_snapshot Q (mc_consumer c);
          Some (consume Q pc snap (mc_live c), ev)
      | CUndoNext _ _ | CUndoCas _ | CUndoGet _ | CUndoNext2 _ _ | CUndoHead _ _ =>
          '(Q, pc, ev) ← os_mpsc_undo_pop_list Q (mc_consumer c);
          Some (consume Q pc (mc_snapshot c) (mc_live c), ev)
      end
  end.

Definition mpsc_init (n : nat) : mpsc_config :=
  {| mc_q := {| mq_head := None; mq_tail := None; mq_next := ∅ |};
     mc_producers := replicate n PIdle; mc_consumer := CIdle; mc_snapshot := None; mc_live := ∅ |}.

(** Runs, with the events in order. *)
Inductive mpsc_run (n : nat) : mpsc_config -> list mpsc_event -> Prop :=
| mr_init : mpsc_run n (mpsc_init n) []
| mr_step c evs a c' ev : mpsc_run n c evs -> mpsc_step c a = Some (c', ev) -> mpsc_run n c' (evs ++ ev).

(** ** The reference definition *)

(** The queued nodes and the nodes of the snapshot. *)
Definition fifo : Type := list nat * list nat.

Definition fifo_event (f : fifo) (ev : mpsc_event) : option fifo :=
  let '(q, s) := f in
  match ev with
  | EvPush l was_empty => if decide (was_empty = bool_decide (q = [])) then Some (q ++ l, s) else None
  | EvPop head next =>
      match q with
      | h :: q' => if decide (head = h /\ next = hd_error q') then Some (q', s) else None
      | [] => None
      end
  | EvCapture head tail =>
      if decide (s = [] /\ hd_error q = Some head /\ last q = tail) then Some ([], q) else None
  | EvPrepend l => Some (l ++ q, s)
  | EvSnapshot head next =>
      match s with
      | h :: s' => if decide (head = h /\ next = hd_error s') then Some (q, s') else None
      | [] => None
      end
  end.

Fixpoint fifo_run (f : fifo) (evs : list mpsc_event) : option fifo :=
  match evs with
  | [] => Some f
  | ev :: evs => f' ← fifo_event f ev; fifo_run f' evs
  end.

Lemma fifo_run_app f evs1 evs2 : fifo_run f (evs1 ++ evs2) = (f' ← fifo_run f evs1; fifo_run f' evs2).
Proof.
  revert f. induction evs1 as [|ev evs1 IH]; intros f; [done|]. simpl. destruct (fifo_event f ev); [apply IH|done].
Qed.
