(* ===== verification/MpscLinks.v ===== *)
(** * The multiple-producer list: links and producers

    The links of the list as cells that are set or about to be set, the invariant that
    relates the pointers to the reference sequence, and its preservation by the two
    accesses of a producer. *)

From S2P Require Import Prelude Mpsc.

(** ** Links

    A cell is the place of a link: [None] is the head pointer of the list, [Some n] the
    next pointer of [n].  A link is set, or a producer is about to store it. *)

Definition val (Q : mpsc) (x : option nat) : option nat :=
  match x with None => mq_head Q | Some n => mq_next Q !! n end.

(** [R] holds of every link of the list [l] that starts at the cell [x]. *)
Fixpoint each_link (R : option nat -> nat -> Prop) (x : option nat) (l : list nat) : Prop :=
  match l with
  | [] => True
  | b :: l' => R x b /\ each_link R (Some b) l'
  end.

Section links.
Context (Q : mpsc) (T : list producer_pc).

Definition nopend (x : option nat) : Prop := forall i b, T !! i <> Some (PPrev x b).
Definition is_set (x : option nat) (b : nat) : Prop := val Q x = Some b /\ nopend x.
Definition is_pend (x : option nat) (b : nat) : Prop := val Q x = None /\ exists i, T !! i = Some (PPrev x b).
Definition unset (x : option nat) : Prop := val Q x = None /\ nopend x.

Definition is_link (x : option nat) (b : nat) : Prop := is_set x b \/ is_pend x b.
Definition links : option nat -> list nat -> Prop := each_link is_link.
Definition sets : option nat -> list nat -> Prop := each_link is_set.

(** The cell after the last node of [l]. *)
Definition endc (x : option nat) (l : list nat) : option nat :=
  match last l with Some n => Some n | None => x end.

Definition chain (x : option nat) (l : list nat) : Prop := links x l /\ unset (endc x l).

(** The cells that [links x l] reads. *)
Fixpoint sources (x : option nat) (l : list nat) : list (option nat) :=
  match l with [] => [] | b :: l' => x :: sources (Some b) l' end.
End links.

Lemma endc_cons x b l : endc x (b :: l) = endc (Some b) l.
Proof. unfold endc. destruct l as [|c l]; [done|]. by rewrite last_cons_cons, last_cons; destruct (last l). Qed.
Lemma endc_last l : endc None l = last l.
Proof. unfold endc. by destruct (last l). Qed.
Lemma endc_app x l1 l2 : endc x (l1 ++ l2) = endc (endc x l1) l2.
Proof. revert x. induction l1 as [|a l1 IH]; intros x; [done|]. simpl. by rewrite !endc_cons. Qed.
Lemma endc_in x l : endc x l = x \/ exists a, endc x l = Some a /\ a ∈ l.
Proof.
  unfold endc. destruct (last l) as [a|] eqn:E; [right; exists a|by left].
  split; [done|]. by apply last_Some_elem_of.
Qed.

Lemma each_link_app R x l1 l2 : each_link R x (l1 ++ l2) <-> each_link R x l1 /\ each_link R (endc x l1) l2.
Proof.
  revert x. induction l1 as [|a l1 IH]; intros x; simpl; [naive_solver|].
  rewrite IH, endc_cons. naive_solver.
Qed.

Lemma sources_in x l y : y ∈ sources x l -> y = x \/ exists a, y = Some a /\ a ∈ l.
Proof.
  revert x. induction l as [|b l IH]; intros x; simpl; [by intros ?%elem_of_nil|].
  intros [->|Hy]%elem_of_cons; [by left|]. right.
  destruct (IH _ Hy) as [->|(a & -> & Ha)]; eexists; (split; [done|]); set_solver.
Qed.

(** In a list without repetition the end cell is not a source. *)
Lemma endc_not_source x l : NoDup l -> (forall a, x = Some a -> a ∉ l) -> endc x l ∉ sources x l.
Proof.
  revert x. induction l as [|b l IH]; intros x Hnd Hx; simpl; [by intros ?%elem_of_nil|].
  apply NoDup_cons in Hnd as [Hb Hnd]. rewrite endc_cons. intros [E|Hin]%elem_of_cons.
  - destruct (endc_in (Some b) l) as [E'|(a & E' & Ha)]; rewrite E' in E; symmetry in E.
    + apply (Hx b E). set_solver.
    + apply (Hx a E). set_solver.
  - revert Hin. apply IH; [done|]. intros a [= <-]. done.
Qed.

(** Links and ends only read their cells. *)
Lemma each_link_mono (R R' : option nat -> nat -> Prop) x l :
  (forall y b, y ∈ sources x l -> R y b -> R' y b) -> each_link R x l -> each_link R' x l.
Proof.
  revert x. induction l as [|b l IH]; intros x Hf; simpl; [done|]. intros [H1 H2].
  split; [apply Hf; [simpl; set_solver|done]|]. apply IH; [|done].
  intros y b' Hy. apply Hf. simpl. set_solver.
Qed.

Lemma links_frame Q T Q' x l :
  (forall y, y ∈ sources x l -> val Q' y = val Q y) -> links Q T x l -> links Q' T x l.
Proof. intros Hf. apply each_link_mono. intros y b Hy. unfold is_link, is_set, is_pend. by rewrite Hf. Qed.
Lemma sets_frame Q T Q' x l :
  (forall y, y ∈ sources x l -> val Q' y = val Q y) -> sets Q T x l -> sets Q' T x l.
Proof. intros Hf. apply each_link_mono. intros y b Hy. unfold is_set. by rewrite Hf. Qed.
Lemma sets_links Q T x l : sets Q T x l -> links Q T x l.
Proof. apply each_link_mono. by left. Qed.

Lemma unset_frame Q T Q' x : val Q' x = val Q x -> unset Q T x -> unset Q' T x.
Proof. unfold unset. by intros ->. Qed.
Lemma set_frame Q T Q' x b : val Q' x = val Q x -> is_set Q T x b -> is_set Q' T x b.
Proof. unfold is_set. by intros ->. Qed.

Lemma chain_frame Q T Q' x l :
  (forall y, y = x \/ (exists a, y = Some a /\ a ∈ l) -> val Q' y = val Q y) -> chain Q T x l -> chain Q' T x l.
Proof.
  intros Hf [H1 H2]. split.
  - apply (links_frame Q); [|done]. intros y Hy. apply Hf. by apply sources_in.
  - apply (unset_frame Q); [|done]. apply Hf, endc_in.
Qed.

Lemma chain_cons Q T x b l : chain Q T x (b :: l) <-> is_link Q T x b /\ chain Q T (Some b) l.
Proof. unfold chain, links. simpl each_link. rewrite endc_cons. naive_solver. Qed.

Lemma chain_set Q T x b l : chain Q T x l -> val Q x = Some b -> is_set Q T x b /\ exists l', l = b :: l'.
Proof.
  destruct l as [|c l].
  - intros [_ [E _]] E'. unfold endc in E. simpl in E. congruence.
  - rewrite chain_cons. intros [[[H1 H2]|[H1 _]] _] E; [|congruence].
    rewrite E in H1. injection H1 as <-. split; [done|by eexists].
Qed.

(** ** The invariant *)

(** The private list [l] is linked, its last link apart. *)
Definition linked (Q : mpsc) (T : list producer_pc) (l : list nat) : Prop :=
  match l with [] => True | a :: l' => sets Q T (Some a) l' end.

(** The head pointer is cleared while the queue still starts with [h]. *)
Definition detached (Q : mpsc) (T : list producer_pc) (h : nat) (q : list nat) : Prop :=
  exists q', q = h :: q' /\ unset Q T None /\ chain Q T (Some h) q'.

(** [q] the queue, [u] the list being put back. *)
Definition consumer_ok (Q : mpsc) (T : list producer_pc) (q s u : list nat) (pc : consumer_pc) : Prop :=
  match pc with
  | CIdle => u = [] /\ chain Q T None q
  | CPopLoad h => u = [] /\ chain Q T None q /\ is_set Q T None h
  | CPopStore h n =>
      u = [] /\ chain Q T None q /\ is_set Q T None h /\ (forall m, n = Some m -> is_set Q T (Some h) m)
  | CPopCas h => u = [] /\ detached Q T h q
  | CPopNext h => u = [] /\ detached Q T h q /\ last q <> Some h
  | CPopStore2 h n => u = [] /\ detached Q T h q /\ is_set Q T (Some h) n
  | CCapStore h => u = [] /\ s = [] /\ chain Q T None q /\ is_set Q T None h
  | CCapXchg h => u = [] /\ s = [] /\ detached Q T h q
  | CUndoNext l n =>
      u = l /\ l <> [] /\ linked Q T l /\ chain Q T None q /\ (forall m, n = Some m -> is_set Q T None m)
  | CUndoCas l => u = l /\ l <> [] /\ linked Q T l /\ chain Q T None q /\ unset Q T (Some (final l))
  | CUndoGet l => u = l /\ l <> [] /\ linked Q T l /\ chain Q T None q /\ q <> []
  | CUndoNext2 l n => u = l /\ l <> [] /\ linked Q T l /\ chain Q T None q /\ is_set Q T None n
  | CUndoHead l false =>
      u = l /\ l <> [] /\ linked Q T l /\ chain Q T None q /\
      exists n, is_set Q T None n /\ is_set Q T (Some (final l)) n
  | CUndoHead l true => u = [] /\ detached Q T (first l) q
  end.

Definition snapshot_ok (Q : mpsc) (T : list producer_pc) (s : list nat) (snap : option (nat * nat)) : Prop :=
  match snap with
  | None => s = []
  | Some (h, t) => exists s', s = h :: s' /\ last s = Some t /\ chain Q T (Some h) s'
  end.

Record mpsc_inv (c : mpsc_config) (q s u : list nat) : Prop := {
  mi_tail : mq_tail (mc_q c) = last q;
  mi_nodup : NoDup (q ++ s ++ u);
  mi_live : mc_live c = list_to_set (q ++ s ++ u);
  mi_uniq : forall i j x b b', mc_producers c !! i = Some (PPrev x b) ->
    mc_producers c !! j = Some (PPrev x b') -> i = j;
  mi_where : forall i p b, mc_producers c !! i = Some (PPrev (Some p) b) -> p ∈ q ++ s;
  mi_snapshot : snapshot_ok (mc_q c) (mc_producers c) s (mc_snapshot c);
  mi_consumer : consumer_ok (mc_q c) (mc_producers c) q s u (mc_consumer c);
}.

(** *** The store of a producer *)

Section update_prev.
Context (Q : mpsc) (T : list producer_pc) (i : nat) (p : option nat) (h : nat).
Context (Hi : T !! i = Some (PPrev p h)).
Context (Huniq : forall i j x b b', T !! i = Some (PPrev x b) -> T !! j = Some (PPrev x b') -> i = j).
Let Q' := os_mpsc_push_update_prev Q p h.
Let T' := <[i := PIdle]> T.

Lemma val_update_prev y : val Q' y = if decide (y = p) then Some h else val Q y.
Proof.
  unfold Q', os_mpsc_push_update_prev. destruct (decide (y = p)) as [->|Hne]; destruct p as [n|]; try done.
  - simpl. by rewrite lookup_insert_eq.
  - destruct y as [m|]; [|done]. simpl. rewrite lookup_insert_ne; congruence.
  - by destruct y.
Qed.

Lemma pend_update_prev j y b : T' !! j = Some (PPrev y b) <-> T !! j = Some (PPrev y b) /\ y <> p.
Proof.
  unfold T'. split.
  - destruct (decide (i = j)) as [->|Hne].
    + rewrite list_lookup_insert_eq by (by eapply lookup_lt_Some). done.
    + rewrite list_lookup_insert_ne by done. intros E. split; [done|]. intros ->.
      apply Hne. eapply Huniq; done.
  - intros [E Hne]. rewrite list_lookup_insert_ne; [done|]. intros ->. rewrite Hi in E. congruence.
Qed.

Lemma nopend_update_prev y : nopend T y -> nopend T' y.
Proof. intros Hn j b E. apply pend_update_prev in E as [E _]. by apply (Hn j b). Qed.

Lemma set_update_prev y b : is_set Q T y b -> is_set Q' T' y b.
Proof.
  intros [E Hn]. split; [|by apply nopend_update_prev]. rewrite val_update_prev.
  case_decide; [subst; by edestruct Hn|done].
Qed.

Lemma unset_update_prev y : unset Q T y -> unset Q' T' y.
Proof.
  intros [E Hn]. split; [|by apply nopend_update_prev]. rewrite val_update_prev.
  case_decide; [subst; by edestruct Hn|done].
Qed.

Lemma links_update_prev x l : links Q T x l -> links Q' T' x l.
Proof.
  apply each_link_mono. intros y b _ [H|[E (j & Hj)]]; [left; by apply set_update_prev|].
  destruct (decide (y = p)) as [->|Hne].
  - left. assert (j = i) as -> by (eapply Huniq; done). rewrite Hi in Hj. injection Hj as <-.
    split; [rewrite val_update_prev; by rewrite decide_True|]. intros j b' E'.
    by apply pend_update_prev in E' as [_ ?].
  - right. split; [rewrite val_update_prev; by rewrite decide_False|].
    exists j. by apply pend_update_prev.
Qed.

Lemma chain_update_prev x l : chain Q T x l -> chain Q' T' x l.
Proof. intros [H1 H2]. split; [by apply links_update_prev|by apply unset_update_prev]. Qed.

Lemma linked_update_prev l : linked Q T l -> linked Q' T' l.
Proof. destruct l as [|a l]; [done|]. apply each_link_mono. intros y b _. apply set_update_prev. Qed.

Lemma detached_update_prev a q : detached Q T a q -> detached Q' T' a q.
Proof.
  intros (q' & E & H1 & H2). exists q'. split_and!; [done|by apply unset_update_prev|by apply chain_update_prev].
Qed.
End update_prev.

Create HintDb mpsc.
#[export] Hint Resolve set_update_prev unset_update_prev chain_update_prev linked_update_prev
  detached_update_prev : mpsc.

Lemma mpsc_inv_update_prev c q s u i p h :
  mpsc_inv c q s u -> mc_producers c !! i = Some (PPrev p h) ->
  mpsc_inv {| mc_q := os_mpsc_push_update_prev (mc_q c) p h; mc_producers := <[i := PIdle]> (mc_producers c);
    mc_consumer := mc_consumer c; mc_snapshot := mc_snapshot c; mc_live := mc_live c |} q s u.
Proof.
  intros [H1 H2 H3 H4 H5 H6 H7] Hi. constructor; simpl; try done.
  - rewrite <- H1. by destruct p.
  - intros j k x b b' E1%(pend_update_prev _ _ _ _ Hi H4) E2%(pend_update_prev _ _ _ _ Hi H4). naive_solver.
  - intros j x b E%(pend_update_prev _ _ _ _ Hi H4). naive_solver.
  - unfold snapshot_ok in *. destruct (mc_snapshot c) as [[h' t]|]; [|done].
    destruct H6 as (s' & ? & ? & ?). exists s'. eauto with mpsc.
  - unfold consumer_ok in *. destruct (mc_consumer c); try (destruct queued); destruct_and?; split_and?; eauto with mpsc.
    naive_solver eauto with mpsc.
Qed.

(** *** The exchange of the tail *)

Lemma final_endc a l : Some (final (a :: l)) = endc (Some a) l.
Proof. rewrite <- (endc_cons None), endc_last. unfold final. rewrite last_cons. by destruct (last l). Qed.
Lemma last_pushed q l : l <> [] -> last (q ++ l) = Some (final l).
Proof. destruct l as [|a l]; [done|]. intros _. by rewrite <- endc_last, endc_app, endc_cons, final_endc. Qed.
Lemma final_in l : l <> [] -> final l ∈ l.
Proof.
  destruct l as [|a l]; [done|]. intros _. destruct (endc_in (Some a) l) as [E|(b & E & Hb)];
    rewrite <- final_endc in E; injection E as ->; set_solver.
Qed.

Lemma lookup_link_list next l m : m ∉ l -> link_list next l !! m = next !! m.
Proof.
  induction l as [|a [|b l] IH]; try done. intros Hm. simpl. rewrite lookup_insert_ne by set_solver.
  apply IH. set_solver.
Qed.

Lemma link_q_linked Q T l : NoDup l -> (forall a, a ∈ l -> nopend T (Some a)) -> linked (link_q Q l) T l.
Proof.
  induction l as [|a [|b l] IH]; try done. intros Hnd Hp. apply NoDup_cons in Hnd as [Ha Hnd]. split.
  - split; [|apply Hp; set_solver]. simpl. by rewrite lookup_insert_eq.
  - apply (sets_frame (link_q Q (b :: l))); [|apply IH; [done|intros; apply Hp; set_solver]].
    intros y [->|(c & -> & Hc)]%sources_in; simpl; rewrite lookup_insert_ne; set_solver.
Qed.

(** A linked private list whose last link is empty is a chain from its first node. *)
Lemma linked_chain Q T a l : linked Q T (a :: l) -> unset Q T (Some (final (a :: l))) -> chain Q T (Some a) l.
Proof. intros Hl He. split; [by apply sets_links|]. by rewrite <- final_endc. Qed.

Section push.
Context (Q : mpsc) (T : list producer_pc) (i : nat) (l : list nat).
Context (Hi : T !! i = Some PIdle) (Hne : l <> []) (Hnd : NoDup l).
Context (Hprev : unset Q T (mq_tail Q)).
Context (Hfresh : forall a, a ∈ l -> mq_tail Q <> Some a /\ nopend T (Some a)).
Let Q' := (os_mpsc_push_update_tail (link_q Q l) (final l)).2.
Let T' := <[i := PPrev (mq_tail Q) (first l)]> T.

(** Cells outside the pushed list. *)
Definition apart (y : option nat) : Prop := forall a, a ∈ l -> y <> Some a.

Lemma val_push y : apart y -> val Q' y = val Q y.
Proof.
  destruct y as [m|]; [|done]. intros Hm. assert (m ∉ l) as Hm' by (intros ?; by apply (Hm m)). simpl.
  rewrite lookup_delete_ne; [by rewrite lookup_link_list|]. intros <-. by apply Hm', final_in.
Qed.

Lemma pend_push j y b : T' !! j = Some (PPrev y b) <->
  (j = i /\ y = mq_tail Q /\ b = first l) \/ T !! j = Some (PPrev y b).
Proof using Hi.
  clear Hfresh Hne. unfold T'. destruct (decide (j = i)) as [E|E].
  - rewrite E, list_lookup_insert_eq, Hi by (by eapply lookup_lt_Some). naive_solver.
  - rewrite list_lookup_insert_ne by congruence. naive_solver.
Qed.

Lemma nopend_push y : nopend T y -> y <> mq_tail Q -> nopend T' y.
Proof. intros Hn Hy j b E. apply pend_push in E as [(_ & E & _)|E]; [done|by apply (Hn j b)]. Qed.

Lemma set_push y b : is_set Q T y b -> apart y -> is_set Q' T' y b.
Proof.
  intros [E Hn] Ha. split; [by rewrite val_push|]. apply nopend_push; [done|]. intros Hy.
  destruct Hprev as [E' _]. congruence.
Qed.

Lemma unset_push y : unset Q T y -> y <> mq_tail Q -> apart y -> unset Q' T' y.
Proof. intros [E Hn] Hy Ha. split; [by rewrite val_push|by apply nopend_push]. Qed.

Lemma links_push x q : links Q T x q ->
  (forall y, y ∈ sources x q -> y <> mq_tail Q /\ apart y) -> links Q' T' x q.
Proof.
  intros H Hs. revert H. apply each_link_mono. intros y b Hy. destruct (Hs y Hy) as [Ht Ha].
  intros [H|[E (j & Hj)]]; [left; by apply set_push|right].
  split; [by rewrite val_push|]. exists j. apply pend_push. by right.
Qed.

Lemma chain_push_apart x q : chain Q T x q ->
  (forall y, y = x \/ (exists a, y = Some a /\ a ∈ q) -> y <> mq_tail Q /\ apart y) -> chain Q' T' x q.
Proof.
  intros [H1 H2] Hs. split.
  - apply links_push; [done|]. intros y Hy. by apply Hs, sources_in.
  - destruct (Hs (endc x q) (endc_in _ _)). by apply unset_push.
Qed.

Lemma linked_push u : linked Q T u -> (forall a, a ∈ u -> Some a <> mq_tail Q /\ a ∉ l) -> linked Q' T' u.
Proof.
  destruct u as [|a u]; [done|]. intros H Hu. revert H. apply each_link_mono. intros y b Hy H.
  apply set_push; [done|]. intros c Hc ->. apply sources_in in Hy as [[= ->]|(d & [= ->] & Hd)].
  - by apply (Hu a); [set_solver|].
  - by apply (Hu d); [set_solver|].
Qed.

Lemma pushed_chain a l' : l = a :: l' -> chain Q' T' (Some a) l'.
Proof.
  intros El. assert (forall b, b ∈ l -> nopend T' (Some b)) as Hn.
  { intros b Hb. destruct (Hfresh b Hb). apply nopend_push; [done|congruence]. }
  split.
  - apply sets_links. pose proof (link_q_linked Q T' l Hnd Hn) as Hl. rewrite El in Hl. simpl in Hl.
    apply (sets_frame (link_q Q l)); [|by rewrite El]. intros y Hy.
    assert (y <> Some (final l)) as Hy'.
    { intros ->. rewrite El, final_endc in Hy. revert Hy. rewrite El in Hnd. apply NoDup_cons in Hnd as [Ha Hnd'].
      apply endc_not_source; [done|]. by intros b [= <-]. }
    destruct y as [m|]; [|done]. unfold Q'. simpl. rewrite lookup_delete_ne; [done|congruence].
  - rewrite <- final_endc, <- El. split; [|by apply Hn, final_in].
    unfold Q'. simpl. by rewrite lookup_delete_eq.
Qed.

Lemma chain_push x q : chain Q T x q -> endc x q = mq_tail Q -> NoDup q -> (forall a, x = Some a -> a ∉ q) ->
  (forall a, a ∈ l -> x <> Some a /\ a ∉ q) -> chain Q' T' x (q ++ l).
Proof.
  intros [H1 H2] He Hq Hx Hl. assert (exists a l', l = a :: l') as (a & l' & El)
    by (clear -Hne; destruct l as [|a l']; [done|by exists a, l']).
  assert (links Q' T' x q) as Hlq.
  { apply links_push; [done|]. intros y Hy. split.
    - intros ->. rewrite <- He in Hy. by apply endc_not_source in Hy.
    - intros b Hb ->. apply sources_in in Hy as [E|(c & [= ->] & Hc)]; by destruct (Hl _ Hb). }
  destruct (pushed_chain a l' El) as [Hp1 Hp2]. split.
  - apply each_link_app. split; [done|]. rewrite He, El. split; [|done]. right.
    split; [rewrite val_push; [by destruct Hprev|]|].
    + intros b Hb E. by destruct (Hfresh b Hb).
    + exists i. apply pend_push. left. split_and!; [done..|]. by rewrite El.
  - rewrite endc_app, El, endc_cons. done.
Qed.

Lemma detached_push h q : detached Q T h q -> mq_tail Q = last q -> NoDup q ->
  (forall a, a ∈ l -> a ∉ q) -> detached Q' T' h (q ++ l).
Proof.
  intros (q' & Eq & Hu & Hc) Ht Hq Hl. exists (q' ++ l). split; [by rewrite Eq|].
  assert (endc (Some h) q' = mq_tail Q) as He by (rewrite Ht, <- endc_last, Eq; by rewrite endc_cons).
  split.
  - apply unset_push; [done| |by intros a _]. rewrite <- He.
    destruct (endc_in (Some h) q') as [->|(? & -> & _)]; done.
  - rewrite Eq in Hq. apply NoDup_cons in Hq as [Hh Hq]. apply chain_push; try done.
    + by intros a [= <-].
    + intros a Ha. specialize (Hl a Ha). rewrite Eq in Hl. set_solver.
Qed.
End push.

Lemma chain_last Q T q : chain Q T None q -> unset Q T (last q).
Proof. intros [_ H]. by rewrite <- endc_last. Qed.
Lemma detached_last Q T h q : detached Q T h q -> unset Q T (last q).
Proof. intros (q' & -> & _ & [_ H]). by rewrite <- endc_last, endc_cons. Qed.

Lemma consumer_last Q T q s u pc : consumer_ok Q T q s u pc -> unset Q T (last q).
Proof. destruct pc as [| | | | | | | | | | | |l []]; simpl; intros; destruct_and?; eauto using chain_last, detached_last. Qed.

Lemma NoDup_parts (q s u : list nat) : NoDup (q ++ s ++ u) <->
  NoDup q /\ NoDup s /\ NoDup u /\ (forall a, a ∈ q -> a ∉ s /\ a ∉ u) /\ (forall a, a ∈ s -> a ∉ u).
Proof. rewrite !NoDup_app. setoid_rewrite elem_of_app. naive_solver. Qed.

Section push_fresh.
Context (c : mpsc_config) (q s u l : list nat).
Context (H : mpsc_inv c q s u) (Hl : forall a, a ∈ l -> a ∉ mc_live c).

Lemma push_fresh a : a ∈ l -> a ∉ q /\ a ∉ s /\ a ∉ u.
Proof. intros Ha. specialize (Hl a Ha). rewrite (mi_live _ _ _ _ H) in Hl. set_solver. Qed.

Lemma push_unset : unset (mc_q c) (mc_producers c) (mq_tail (mc_q c)).
Proof. rewrite (mi_tail _ _ _ _ H). eapply consumer_last, H. Qed.

Lemma push_apart a : a ∈ l -> mq_tail (mc_q c) <> Some a /\ nopend (mc_producers c) (Some a).
Proof.
  intros Ha. destruct (push_fresh a Ha) as (Hq & Hs & _). split.
  - rewrite (mi_tail _ _ _ _ H). intros E%last_Some_elem_of. done.
  - intros j b E. apply (mi_where _ _ _ _ H) in E. set_solver.
Qed.

End push_fresh.

(** The conditions that the lemmas on the exchange share. *)
Ltac push_side :=
  try done; try (eapply push_unset; eassumption); try (eapply push_apart; eassumption).

Section push_step.
Context (c : mpsc_config) (q s u l : list nat) (i : nat).
Context (H : mpsc_inv c q s u) (Hi : mc_producers c !! i = Some PIdle).
Context (Hne : l <> []) (Hnd : NoDup l) (Hl : forall a, a ∈ l -> a ∉ mc_live c).
Let Q' := (os_mpsc_push_update_tail (link_q (mc_q c) l) (final l)).2.
Let T' := <[i := PPrev (mq_tail (mc_q c)) (first l)]> (mc_producers c).

(** The nodes of the snapshot and of a private list are not the tail. *)
Lemma push_other a : a ∈ s ++ u -> Some a <> mq_tail (mc_q c) /\ apart l (Some a).
Proof.
  intros Ha. pose proof (mi_nodup _ _ _ _ H) as Hn. apply NoDup_parts in Hn as (_ & _ & _ & Hd & _). split.
  - rewrite (mi_tail _ _ _ _ H). intros E. symmetry in E. apply last_Some_elem_of in E. apply Hd in E. set_solver.
  - intros b Hb [= <-]. apply (push_fresh _ _ _ _ _ H Hl) in Hb. set_solver.
Qed.

Lemma push_chain : chain (mc_q c) (mc_producers c) None q -> chain Q' T' None (q ++ l).
Proof.
  intros Hc. pose proof (mi_nodup _ _ _ _ H) as Hn. apply NoDup_parts in Hn as (Hq & _).
  apply chain_push; push_side.
  - by rewrite endc_last, (mi_tail _ _ _ _ H).
  - intros a Ha. by apply (push_fresh _ _ _ _ _ H Hl) in Ha as (? & _).
Qed.

Lemma push_detached h : detached (mc_q c) (mc_producers c) h q -> detached Q' T' h (q ++ l).
Proof.
  intros Hc. pose proof (mi_nodup _ _ _ _ H) as Hn. apply NoDup_parts in Hn as (Hq & _).
  apply detached_push; push_side.
  - apply H.
  - intros a Ha. by apply (push_fresh _ _ _ _ _ H Hl) in Ha as (? & _).
Qed.

Lemma push_set y b : is_set (mc_q c) (mc_producers c) y b -> (forall a, y = Some a -> a ∈ mc_live c) -> is_set Q' T' y b.
Proof.
  intros Hs Hy. apply set_push; push_side. intros a Ha ->. by apply (Hl a), Hy.
Qed.

Lemma push_set_head b : is_set (mc_q c) (mc_producers c) None b -> is_set Q' T' None b.
Proof. intros Hs. by apply push_set. Qed.

Lemma push_linked : linked (mc_q c) (mc_producers c) u -> linked Q' T' u.
Proof.
  intros Hu. apply linked_push; push_side. intros a Ha.
  destruct (push_other a) as [H1 H2]; [set_solver|]. split; [done|]. intros Ha'. by apply (H2 a).
Qed.

Lemma push_unset_final l' : u = l' -> l' <> [] -> unset (mc_q c) (mc_producers c) (Some (final l')) ->
  unset Q' T' (Some (final l')).
Proof.
  intros Eu Hne' Hu. destruct (push_other (final l')) as [H1 H2]; [rewrite Eu; apply elem_of_app; right; by apply final_in|].
  apply unset_push; push_side.
Qed.
End push_step.

Lemma chain_live_head c q s u h : mpsc_inv c q s u -> chain (mc_q c) (mc_producers c) None q ->
  is_set (mc_q c) (mc_producers c) None h -> h ∈ mc_live c.
Proof.
  intros H Hc [E _]. destruct (chain_set _ _ _ _ _ Hc E) as [_ (q' & ->)]. rewrite (mi_live _ _ _ _ H). set_solver.
Qed.

Lemma mpsc_inv_push c q s u i l :
  mpsc_inv c q s u -> mc_producers c !! i = Some PIdle -> fresh_list (mc_live c) l = true ->
  mpsc_inv {| mc_q := (os_mpsc_push_update_tail (link_q (mc_q c) l) (final l)).2;
    mc_producers := <[i := PPrev (mq_tail (mc_q c)) (first l)]> (mc_producers c);
    mc_consumer := mc_consumer c; mc_snapshot := mc_snapshot c; mc_live := mc_live c ∪ list_to_set l |} (q ++ l) s u.
Proof.
  intros H Hi Hf. unfold fresh_list in Hf. rewrite !andb_true_iff, !bool_decide_eq_true in Hf.
  destruct Hf as [[Hne Hnd] Hfresh]. assert (forall a, a ∈ l -> a ∉ mc_live c) as Hl by by apply Forall_forall.
  pose proof (push_fresh _ _ _ _ _ H Hl) as Hd. pose proof (mi_nodup _ _ _ _ H) as Hn.
  apply NoDup_parts in Hn as (N1 & N2 & N3 & N4 & N5).
  constructor; cbn [mc_q mc_producers mc_consumer mc_snapshot mc_live].
  - by rewrite last_pushed.
  - apply NoDup_parts. split_and!; try done.
    + apply NoDup_app. split_and!; [done| |done]. intros a Ha Ha'. by apply Hd in Ha' as (? & _).
    + intros a [Ha|Ha]%elem_of_app; [by apply N4|by apply Hd in Ha as (_ & ? & ?)].
  - rewrite (mi_live _ _ _ _ H). set_solver.
  - intros j k x b b'. rewrite !(pend_push _ _ _ _ Hi). intros [(-> & -> & _)|E1] [(-> & E & _)|E2]; try done.
    + by destruct (push_unset _ _ _ _ H) as [_ Hp]; edestruct Hp.
    + subst. by destruct (push_unset _ _ _ _ H) as [_ Hp]; edestruct Hp.
    + by eapply (mi_uniq _ _ _ _ H).
  - intros j p b. rewrite (pend_push _ _ _ _ Hi). intros [(-> & E & _)|E].
    + rewrite (mi_tail _ _ _ _ H) in E. symmetry in E. apply last_Some_elem_of in E. set_solver.
    + apply (mi_where _ _ _ _ H) in E. set_solver.
  - pose proof (mi_snapshot _ _ _ _ H) as Hs. unfold snapshot_ok in *. destruct (mc_snapshot c) as [[h t]|]; [|done].
    destruct Hs as (s' & -> & ? & Hc). exists s'. split_and!; [done..|]. apply chain_push_apart; push_side.
    intros y Hy. destruct Hy as [->|(a & -> & Ha)]; eapply push_other; try done; set_solver.
  - pose proof (mi_consumer _ _ _ _ H) as Hc. unfold consumer_ok in *.
    destruct (mc_consumer c) as [| | | | | | | | | | | |l' []]; destruct_and?; split_and?;
      eauto using push_chain, push_detached, push_set_head.
    all: try (subst; by eauto using push_linked, push_unset_final).
    + intros m Hm. eapply push_set; eauto. intros a [= <-]. eapply chain_live_head; eauto.
    + intros E. rewrite last_pushed in E by done. injection E as <-.
      destruct (Hd (final l)) as (Hq & _); [by apply final_in|]. destruct H2 as (q' & -> & _). set_solver.
    + eapply push_set; eauto. intros a [= <-]. destruct H2 as (q' & -> & _). rewrite (mi_live _ _ _ _ H). set_solver.
    + by destruct q.
    + destruct H5 as (m & ? & ?). exists m. split; [eauto using push_set_head|]. eapply push_set; eauto.
      intros a [= <-]. rewrite (mi_live _ _ _ _ H). apply elem_of_list_to_set. subst. rewrite !elem_of_app.
      right. right. by apply final_in.
Qed.

(** *** The head pointer *)

(** Setting the head of a queue whose first cell is detached. *)
Lemma chain_set_head Q T h q' n : chain Q T (Some h) q' -> nopend T None -> is_set Q T (Some h) n ->
  nopend T (Some h) /\ chain (set_mq_head Q (Some n)) T None q'.
Proof.
  intros Hc Hn [E Hh]. destruct (chain_set _ _ _ _ _ Hc E) as [Hset (l & ->)]. split; [done|].
  apply chain_cons in Hc as [_ Hc]. apply chain_cons. split; [by left|].
  apply (chain_frame Q); [|done]. intros y [->|(a & -> & _)]; done.
Qed.

Lemma set_head_chain Q T h q' v : chain Q T (Some h) q' -> chain (set_mq_head Q v) T (Some h) q'.
Proof. apply chain_frame. intros y [->|(a & -> & _)]; done. Qed.

(** The queue starts with [h] when the head pointer is set to it. *)
Lemma chain_head Q T q h : chain Q T None q -> is_set Q T None h -> exists q', q = h :: q' /\ chain Q T (Some h) q'.
Proof.
  intros Hc [E Hn]. destruct (chain_set _ _ _ _ _ Hc E) as [_ (q' & ->)]. exists q'. split; [done|].
  by apply chain_cons in Hc as [_ ?].
Qed.

Lemma detach Q T q h : chain Q T None q -> is_set Q T None h -> detached (set_mq_head Q None) T h q.
Proof.
  intros Hc Hs. destruct (chain_head _ _ _ _ Hc Hs) as (q' & -> & Hc'). exists q'.
  split_and!; [done|split; [done|apply Hs]|by apply set_head_chain].
Qed.

(** Following the pointers from the cell [x] spells [l] and then NULL. *)
Fixpoint spells (Q : mpsc) (x : option nat) (l : list nat) : bool :=
  match l with
  | [] => bool_decide (val Q x = None)
  | b :: l' => bool_decide (val Q x = Some b) && spells Q (Some b) l'
  end.

Lemma chain_spells Q T x l : chain Q T x l -> Forall (eq PIdle) T -> spells Q x l = true.
Proof.
  intros Hc HT. revert x Hc. induction l as [|b l IH]; intros x Hc; simpl.
  - destruct Hc as [_ [E _]]. by apply bool_decide_eq_true.
  - apply chain_cons in Hc as [[[E _]|[_ (i & Hi)]] Hc].
    + apply andb_true_iff. split; [by apply bool_decide_eq_true|by apply IH].
    + rewrite Forall_lookup in HT. by specialize (HT i _ Hi).
Qed.

(** What a blocked operation waits for: a cell that a producer is about to store. *)
Lemma chain_wait Q T x l : chain Q T x l -> l <> [] -> val Q x = None ->
  exists i b, T !! i = Some (PPrev x b).
Proof.
  destruct l as [|b l]; [done|]. intros Hc _ E. apply chain_cons in Hc as [[[E' _]|[_ (i & Hi)]] _]; [congruence|].
  by exists i, b.
Qed.
