(* ===== verification/MpscQueue.v ===== *)
(** * The multiple-producer list: the consumer and the refinement

    The steps of the consumer preserve the invariant and perform the events of the
    reference sequence; from this the refinement of a sequence and the progress of the
    consumer follow. *)

From S2P Require Import Prelude Mpsc MpscLinks.

(** *** Steps of the consumer *)

(** The new configuration, with the producers unchanged. *)
Definition consumed (c : mpsc_config) (Q : mpsc) (pc : consumer_pc) (snap : option (nat * nat)) (live : gset nat) :=
  {| mc_q := Q; mc_producers := mc_producers c; mc_consumer := pc; mc_snapshot := snap; mc_live := live |}.

(** A consumer step that keeps the nodes where they are. *)
Lemma inv_consumed c q s u Q pc :
  mpsc_inv c q s u -> mq_tail Q = last q ->
  (forall a, a ∈ s -> val Q (Some a) = val (mc_q c) (Some a)) ->
  consumer_ok Q (mc_producers c) q s u pc -> mpsc_inv (consumed c Q pc (mc_snapshot c) (mc_live c)) q s u.
Proof.
  intros [H1 H2 H3 H4 H5 H6 H7] Ht Hs Hc. constructor; try done. simpl. unfold snapshot_ok in *.
  destruct (mc_snapshot c) as [[h t]|]; [|done]. destruct H6 as (s' & -> & ? & Hch). exists s'.
  split_and!; [done..|]. apply (chain_frame (mc_q c)); [|done]. intros y [->|(a & -> & Ha)]; apply Hs; set_solver.
Qed.

(** The same when [h], the first node, leaves. *)
Lemma inv_popped c q' s Q h :
  mpsc_inv c (h :: q') s [] -> mq_tail Q = last q' ->
  (forall a, a ∈ s -> val Q (Some a) = val (mc_q c) (Some a)) -> nopend (mc_producers c) (Some h) ->
  chain Q (mc_producers c) None q' ->
  mpsc_inv (consumed c Q CIdle (mc_snapshot c) (mc_live c ∖ {[h]})) q' s [].
Proof.
  intros [H1 H2 H3 H4 H5 H6 H7] Ht Hs Hn Hc. apply NoDup_cons in H2 as [Hh H2]. constructor; simpl; try done.
  - rewrite H3. set_solver.
  - intros i p b E. pose proof (H5 i p b E) as Hin. simpl in Hin. apply elem_of_cons in Hin as [->|]; [|done].
    by edestruct Hn.
  - unfold snapshot_ok in *. destruct (mc_snapshot c) as [[h' t]|]; [|done].
    destruct H6 as (s' & -> & ? & Hch). exists s'. split_and!; [done..|].
    apply (chain_frame (mc_q c)); [|done]. intros y [->|(a & -> & Ha)]; apply Hs; set_solver.
Qed.

Lemma pop_to c q' s h n :
  mpsc_inv c (h :: q') s [] -> chain (mc_q c) (mc_producers c) (Some h) q' -> nopend (mc_producers c) None ->
  is_set (mc_q c) (mc_producers c) (Some h) n ->
  fifo_run (h :: q', s) [EvPop h (Some n)] = Some (q', s) /\
  mpsc_inv (consumed c (set_mq_head (mc_q c) (Some n)) CIdle (mc_snapshot c) (mc_live c ∖ {[h]})) q' s [].
Proof.
  intros H Hc Hn Hs. destruct (chain_set_head _ _ _ _ _ Hc Hn Hs) as [Hh Hc'].
  destruct (chain_set _ _ _ _ _ Hc (proj1 Hs)) as [_ (l & ->)]. split; [simpl; by rewrite decide_True|].
  apply inv_popped; try done. by apply H.
Qed.

Lemma pop_head_step c q s u Q pc ev h :
  mpsc_inv c q s u -> In (mc_consumer c) [CPopLoad h; CPopCas h; CPopNext h] \/
    (exists n, mc_consumer c = CPopStore h n) \/ (exists n, mc_consumer c = CPopStore2 h n) ->
  os_mpsc_pop_head (mc_q c) (mc_consumer c) = Some (Q, pc, ev) ->
  exists q', fifo_run (q, s) ev = Some (q', s) /\
    mpsc_inv (consumed c Q pc (mc_snapshot c) (match pc with CIdle => mc_live c ∖ {[h]} | _ => mc_live c end)) q' s [].
Proof.
  intros H Hpc E. pose proof (mi_consumer _ _ _ _ H) as Hc. pose proof (mi_tail _ _ _ _ H) as Ht.
  destruct Hpc as [Hpc|[(n & Hpc)|(n & Hpc)]].
  - destruct Hpc as [Hpc|[Hpc|[Hpc|[]]]]; rewrite <- Hpc in *; simpl in Hc, E; destruct Hc as [-> Hc].
    + injection E as <- <- <-. exists q. split; [done|]. apply inv_consumed; try done. destruct Hc as [Hc Hs].
      split_and!; try done. intros m Hm.
      destruct (chain_head _ _ _ _ Hc Hs) as (q' & _ & Hc'). by destruct (chain_set _ _ _ _ _ Hc' Hm) as [? _].
    + destruct Hc as (q' & -> & Hu & Hc). case_decide as Hd; injection E as <- <- <-.
      * assert (q' = []) as ->.
        { rewrite Ht in Hd. destruct q' as [|a q']; [done|]. exfalso. pose proof (mi_nodup _ _ _ _ H) as Hn.
          rewrite last_cons_cons in Hd. apply last_Some_elem_of in Hd. apply NoDup_cons in Hn as [Hn _].
          clear -Hn Hd. set_solver. }
        exists []. split; [simpl; by rewrite decide_True|]. apply inv_popped; try done. apply Hc.
      * exists (h :: q'). split; [done|]. apply inv_consumed; try done. split_and!; [done| |congruence]. by exists q'.
    + destruct Hc as [Hc Hl]. unfold os_mpsc_get_next in E. destruct (mq_next (mc_q c) !! h) as [n|] eqn:En; [|done].
      injection E as <- <- <-. exists q. split; [done|]. apply inv_consumed; try done. split_and!; [done..|].
      destruct Hc as (q' & -> & _ & Hc). by destruct (chain_set _ _ _ _ _ Hc En).
  - rewrite Hpc in *. simpl in Hc, E. destruct Hc as (-> & Hc & Hs & Hn). destruct n as [n|]; injection E as <- <- <-.
    + destruct (chain_head _ _ _ _ Hc Hs) as (q' & -> & Hc'). exists q'. by apply pop_to; [| |apply Hs|apply Hn].
    + exists q. split; [done|]. apply inv_consumed; try done. split; [done|]. by apply detach.
  - rewrite Hpc in *. simpl in Hc, E. destruct Hc as (-> & (q' & -> & Hu & Hc) & Hs). injection E as <- <- <-.
    exists q'. by apply pop_to; [| |apply Hu|].
Qed.

Lemma capture_step c q s u Q pc ev snap h :
  mpsc_inv c q s u -> mc_consumer c = CCapStore h \/ mc_consumer c = CCapXchg h ->
  os_mpsc_capture_snapshot (mc_q c) (mc_consumer c) = Some (Q, pc, ev, snap) ->
  exists q' s', fifo_run (q, s) ev = Some (q', s') /\ mpsc_inv (consumed c Q pc snap (mc_live c)) q' s' [].
Proof.
  intros H Hpc E. pose proof (mi_consumer _ _ _ _ H) as Hc. pose proof (mi_tail _ _ _ _ H) as Ht.
  pose proof (mi_snapshot _ _ _ _ H) as Hsn. destruct Hpc as [Hpc|Hpc]; rewrite Hpc in *; simpl in Hc, E.
  - destruct Hc as (-> & -> & Hc & Hs). injection E as <- <- <- <-. exists q, []. split; [done|].
    assert (mc_snapshot c = None) as Hnone
      by (destruct (mc_snapshot c) as [[? ?]|]; [by destruct Hsn as (? & ? & _)|done]).
    rewrite <- Hnone. apply inv_consumed; try done. split_and!; [done..|]. by apply detach.
  - destruct Hc as (-> & -> & (q' & -> & Hu & Hc)). injection E as <- <- <- <-. exists [], (h :: q').
    split; [simpl; rewrite decide_True; [done|by split_and!]|]. destruct H as [H1 H2 H3 H4 H5 H6 H7].
    rewrite Ht. destruct (last (h :: q')) as [t|] eqn:El; [|by apply last_None in El].
    constructor; simpl; rewrite ?app_nil_r in *; try done.
    by exists q'.
Qed.

Lemma snapshot_step c q s u h t n :
  mpsc_inv c q s u -> mc_consumer c = CIdle -> mc_snapshot c = Some (h, t) ->
  os_mpsc_pop_snapshot_head (mc_q c) h t = Some n ->
  exists s', fifo_run (q, s) [EvSnapshot h n] = Some (q, s') /\
    mpsc_inv (consumed c (mc_q c) CIdle (m ← n; Some (m, t)) (mc_live c ∖ {[h]})) q s' [].
Proof.
  intros [H1 H2 H3 H4 H5 H6 H7] Hpc Hsn E. rewrite Hpc in H7. rewrite Hsn in H6. destruct H7 as [-> Hq].
  destruct H6 as (s' & -> & Hl & Hc). exists s'. pose proof H2 as (_ & N2 & _ & N4 & _)%NoDup_parts.
  apply NoDup_cons in N2 as [Nh N2].
  assert (n = hd_error s' /\ nopend (mc_producers c) (Some h) /\
    snapshot_ok (mc_q c) (mc_producers c) s' (m ← n; Some (m, t))) as (-> & Hn & Hs).
  { unfold os_mpsc_pop_snapshot_head, os_mpsc_get_next in E. destruct s' as [|a s'].
    - injection Hl as <-. rewrite decide_False in E by naive_solver. injection E as <-. split_and!; [done|apply Hc|done].
    - rewrite decide_True in E.
      + destruct (mq_next (mc_q c) !! h) as [m|] eqn:Em; [|done]. injection E as <-.
        destruct (chain_set _ _ _ _ _ Hc Em) as [[_ Hn] (l & [= -> ->])]. split_and!; [done..|].
        exists l. apply chain_cons in Hc as [_ Hc]. done.
      + intros ->. rewrite last_cons_cons in Hl. apply last_Some_elem_of in Hl. done. }
  split; [simpl; by rewrite decide_True|]. constructor; simpl; try done.
  - rewrite app_nil_r in *. apply NoDup_app in H2 as (A1 & A2 & A3). apply NoDup_app. split_and!; try done.
    intros b Hb. specialize (A2 b Hb). set_solver.
  - rewrite H3, !app_nil_r in *. apply set_eq. intros b. rewrite elem_of_difference, !elem_of_list_to_set.
    specialize (N4 b). set_solver.
  - intros i p b E'. pose proof (H5 i p b E') as Hin. destruct (decide (p = h)) as [->|]; [by edestruct Hn|].
    set_solver.
Qed.

(** The private list becomes the front of the queue. *)
Lemma inv_requeue c q s u Q pc :
  mpsc_inv c q s u -> mq_tail Q = last (u ++ q) ->
  (forall a, val Q (Some a) = val (mc_q c) (Some a)) ->
  consumer_ok Q (mc_producers c) (u ++ q) s [] pc ->
  mpsc_inv (consumed c Q pc (mc_snapshot c) (mc_live c)) (u ++ q) s [].
Proof.
  intros [H1 H2 H3 H4 H5 H6 H7] Ht Hs Hc. constructor; simpl; try done.
  - apply NoDup_parts in H2 as (N1 & N2 & N3 & N4 & N5). apply NoDup_parts. split_and!; try done.
    + apply NoDup_app. split_and!; try done. intros a Ha Ha'. by apply (N4 a).
    + constructor.
    + intros a [Ha|Ha]%elem_of_app; (split; [|apply not_elem_of_nil]); [intros Ha'; by apply (N5 a)|by apply N4].
    + intros a _. apply not_elem_of_nil.
  - rewrite H3. set_solver.
  - intros i p b E. apply H5 in E. set_solver.
  - unfold snapshot_ok in *. destruct (mc_snapshot c) as [[h t]|]; [|done].
    destruct H6 as (s' & -> & ? & Hch). exists s'. split_and!; [done..|].
    apply (chain_frame (mc_q c)); [|done]. intros y [->|(a & -> & Ha)]; apply Hs.
Qed.

Lemma chain_prepend Q T a l q n :
  linked Q T (a :: l) -> is_set Q T (Some (final (a :: l))) n -> is_set Q T None n -> chain Q T None q ->
  chain (set_mq_head Q (Some a)) T None ((a :: l) ++ q).
Proof.
  intros Hl Hf Hn Hc. destruct (chain_head _ _ _ _ Hc Hn) as (q' & -> & Hc').
  simpl. apply chain_cons. split; [left; split; [done|apply Hn]|]. apply set_head_chain.
  destruct Hc' as [Hc1 Hc2]. split.
  - apply each_link_app. split; [by apply sets_links|]. rewrite <- final_endc. split; [by left|done].
  - by rewrite endc_app, endc_cons.
Qed.

Section undo.
Context (c : mpsc_config) (q s l : list nat) (H : mpsc_inv c q s l) (Hne : l <> []).
Context (Hlk : linked (mc_q c) (mc_producers c) l) (Hc : chain (mc_q c) (mc_producers c) None q).

Lemma val_set_next Q a n y : y <> Some a -> val (set_mq_next Q a n) y = val Q y.
Proof.
  destruct y as [m|]; [|done]. intros Hy. simpl. destruct n; simpl;
    [rewrite lookup_insert_ne|rewrite lookup_delete_ne]; congruence.
Qed.

Lemma final_apart y : y = None \/ (exists a, y = Some a /\ a ∈ q ++ s) -> y <> Some (final l).
Proof.
  intros [->|(a & -> & Ha)]; [done|]. intros [= ->]. pose proof (mi_nodup _ _ _ _ H) as Hn.
  apply NoDup_parts in Hn as (_ & _ & _ & N4 & N5). pose proof (final_in l Hne).
  apply elem_of_app in Ha as [Ha|Ha]; [by apply (N4 _ Ha)|by apply (N5 _ Ha)].
Qed.

Lemma final_nopend : nopend (mc_producers c) (Some (final l)).
Proof.
  intros i b E. apply (mi_where _ _ _ _ H) in E. by apply (final_apart (Some (final l))); [right; eexists|].
Qed.

Lemma undo_chain n : chain (set_mq_next (mc_q c) (final l) n) (mc_producers c) None q.
Proof.
  apply (chain_frame (mc_q c)); [|done]. intros y Hy. apply val_set_next, final_apart.
  destruct Hy as [->|(a & -> & Ha)]; [by left|right]. exists a. split; [done|]. set_solver.
Qed.

Lemma undo_linked n : linked (set_mq_next (mc_q c) (final l) n) (mc_producers c) l.
Proof.
  pose proof (mi_nodup _ _ _ _ H) as Hn. apply NoDup_parts in Hn as (_ & _ & N3 & _).
  clear Hc H. destruct l as [|a l']; [done|]. simpl in *. apply NoDup_cons in N3 as [Ha N3].
  revert Hlk. apply sets_frame. intros y Hy. apply val_set_next. intros ->. rewrite final_endc in Hy.
  revert Hy. apply endc_not_source; [done|]. by intros b [= <-].
Qed.

Lemma undo_set_head n v : is_set (mc_q c) (mc_producers c) None n ->
  is_set (set_mq_next (mc_q c) (final l) v) (mc_producers c) None n.
Proof. by apply set_frame. Qed.

Lemma undo_snapshot n a : a ∈ s -> val (set_mq_next (mc_q c) (final l) n) (Some a) = val (mc_q c) (Some a).
Proof. intros Ha. apply val_set_next, final_apart. right. exists a. set_solver. Qed.

(** After the store of the last link. *)
Lemma undo_head n : is_set (mc_q c) (mc_producers c) None n ->
  mpsc_inv (consumed c (set_mq_next (mc_q c) (final l) (Some n)) (CUndoHead l false) (mc_snapshot c) (mc_live c)) q s l.
Proof.
  intros Hn. apply inv_consumed; [done|apply H|apply undo_snapshot|].
  split_and!; [done..|apply undo_linked|apply undo_chain|]. exists n. split; [by apply undo_set_head|].
  split; [simpl; by rewrite lookup_insert_eq|apply final_nopend].
Qed.
End undo.

Lemma undo_step c q s u Q pc ev :
  mpsc_inv c q s u -> os_mpsc_undo_pop_list (mc_q c) (mc_consumer c) = Some (Q, pc, ev) ->
  exists q' u', fifo_run (q, s) ev = Some (q', s) /\
    mpsc_inv (consumed c Q pc (mc_snapshot c) (mc_live c)) q' s u'.
Proof.
  intros H E. pose proof (mi_consumer _ _ _ _ H) as Hc. pose proof (mi_tail _ _ _ _ H) as Ht.
  destruct (mc_consumer c) as [| | | | | | | |l n|l|l|l n|l queued] eqn:Hpc; try done; simpl in Hc, E.
  - destruct Hc as (-> & Hne & Hl & Hc & Hn). exists q, l. destruct n as [n|]; injection E as <- <- <-; (split; [done|]).
    + by apply undo_head; [| | | |apply Hn].
    + apply inv_consumed; [done..|by eapply undo_snapshot|].
      split_and!; [done..|by eapply undo_linked|by eapply undo_chain|].
      split; [simpl; by rewrite lookup_delete_eq|by eapply final_nopend].
  - destruct Hc as (-> & Hne & Hl & Hc & Hu). case_decide as Hd; injection E as <- <- <-.
    + rewrite Ht, last_None in Hd. subst q. exists (l ++ []), []. split; [done|]. apply inv_requeue; try done.
      * rewrite app_nil_r. symmetry. by apply (last_pushed []).
      * rewrite app_nil_r. split; [done|]. destruct l as [|a l']; [done|]. exists l'. split_and!; [done|by apply Hc|].
        by apply linked_chain.
    + exists q, l. split; [done|]. apply inv_consumed; try done. split_and!; try done. intros ->. by apply Hd.
  - destruct Hc as (-> & Hne & Hl & Hc & Hq). unfold os_mpsc_get_head in E.
    destruct (mq_head (mc_q c)) as [n|] eqn:En; [|done]. injection E as <- <- <-. exists q, l. split; [done|].
    apply inv_consumed; try done. split_and!; try done. by destruct (chain_set (mc_q c) _ None _ _ Hc En).
  - destruct Hc as (-> & Hne & Hl & Hc & Hn). injection E as <- <- <-. exists q, l. split; [done|]. by apply undo_head.
  - destruct queued; injection E as <- <- <-.
    + destruct Hc as (-> & q' & -> & Hu & Hc). exists (first l :: q'), []. split; [done|].
      apply inv_consumed; try done. split; [done|]. apply chain_cons. split; [left; split; [done|apply Hu]|].
      by apply set_head_chain.
    + destruct Hc as (-> & Hne & Hl & Hc & n & Hn & Hf). exists (l ++ q), []. split; [done|].
      apply inv_requeue; try done.
      * simpl. rewrite Ht, last_app. destruct (chain_head _ _ _ _ Hc Hn) as (q' & -> & _). by rewrite last_cons; destruct (last q').
      * split; [done|]. destruct l as [|a l']; [done|]. by eapply chain_prepend.
Qed.

(** ** Every step *)

Lemma fresh_list_spec live l : fresh_list live l = true ->
  l <> [] /\ NoDup l /\ forall a, a ∈ l -> a ∉ live.
Proof.
  unfold fresh_list. rewrite !andb_true_iff, !bool_decide_eq_true, Forall_forall. naive_solver.
Qed.

(** The consumer takes over a private list. *)
Lemma undo_start c q s l n :
  mpsc_inv c q s [] -> mc_consumer c = CIdle -> fresh_list (mc_live c) l = true -> n = None \/ n = mq_head (mc_q c) ->
  mpsc_inv (consumed c (link_q (mc_q c) l) (CUndoNext l n) (mc_snapshot c) (mc_live c ∪ list_to_set l)) q s l.
Proof.
  intros H Hpc (Hne & Hnd & Hl)%fresh_list_spec Hn. pose proof (push_fresh _ _ _ _ _ H Hl) as Hd.
  assert (forall y, y = None \/ (exists a, y = Some a /\ a ∈ q ++ s) -> val (link_q (mc_q c) l) y = val (mc_q c) y) as Hv.
  { intros y [->|(a & -> & Ha)]; [done|]. simpl. apply lookup_link_list. intros Ha'. apply Hd in Ha'. set_solver. }
  destruct H as [H1 H2 H3 H4 H5 H6 H7]. rewrite Hpc in H7. destruct H7 as [_ Hc]. constructor; simpl; try done.
  - apply NoDup_parts in H2 as (N1 & N2 & N3 & N4 & N5). apply NoDup_parts. split_and!; try done.
    + intros a Ha. split; [by apply N4|]. intros Ha'. by apply Hd in Ha' as (? & _).
    + intros a Ha Ha'. by apply Hd in Ha' as (_ & ? & _).
  - rewrite H3. set_solver.
  - unfold snapshot_ok in *. destruct (mc_snapshot c) as [[h t]|]; [|done].
    destruct H6 as (s' & -> & ? & Hch). exists s'. split_and!; [done..|].
    apply (chain_frame (mc_q c)); [|done]. intros y Hy. apply Hv. right.
    destruct Hy as [->|(a & -> & Ha)]; eexists; (split; [done|]); set_solver.
  - split_and!; [done..| | |].
    + apply link_q_linked; [done|]. intros a Ha i b E. apply H5 in E. apply Hd in Ha. set_solver.
    + apply (chain_frame (mc_q c)); [|done]. intros y Hy. apply Hv.
      destruct Hy as [->|(a & -> & Ha)]; [by left|right]. exists a. set_solver.
    + intros m ->. destruct Hn as [|Hn]; [done|]. symmetry in Hn.
      apply (set_frame (mc_q c)); [done|]. by destruct (chain_set (mc_q c) _ None _ _ Hc Hn).
Qed.

Lemma start_idle c q s u pc snap live : mpsc_inv c q s u -> mc_consumer c = CIdle -> u = [] ->
  snap = mc_snapshot c -> live = mc_live c ->
  consumer_ok (mc_q c) (mc_producers c) q s [] pc -> mpsc_inv (consumed c (mc_q c) pc snap live) q s [].
Proof. intros H _ -> -> -> Hc. apply inv_consumed; try done. apply H. Qed.

Lemma mpsc_step_inv c q s u a c' ev : mpsc_inv c q s u -> mpsc_step c a = Some (c', ev) ->
  exists q' s' u', fifo_run (q, s) ev = Some (q', s') /\ mpsc_inv c' q' s' u'.
Proof.
  intros H E. pose proof (mi_consumer _ _ _ _ H) as Hc. destruct a as [i l|i| | |l n|l| |]; simpl in E.
  - destruct (mc_producers c !! i) as [pc|] eqn:Hi; [|done]. simpl in E. case_decide; [subst pc|done].
    destruct (fresh_list (mc_live c) l) eqn:Hf; [|done]. injection E as <- <-. exists (q ++ l), s, u. split.
    + simpl. rewrite decide_True; [done|]. unfold os_mpsc_push_was_empty. apply bool_decide_ext.
      rewrite (mi_tail _ _ _ _ H). apply last_None.
    + by apply mpsc_inv_push.
  - destruct (mc_producers c !! i) as [[|p h]|] eqn:Hi; try done. injection E as <- <-. exists q, s, u.
    split; [done|]. by apply mpsc_inv_update_prev.
  - destruct (mc_consumer c) eqn:Hpc; try done. destruct Hc as [-> Hc].
    destruct (os_mpsc_looks_empty (mc_q c)); [done|]. unfold os_mpsc_get_head in E.
    destruct (mq_head (mc_q c)) as [h|] eqn:Eh; [|done]. injection E as <- <-. exists q, s, []. split; [done|].
    eapply start_idle; try done. split_and!; try done. by destruct (chain_set (mc_q c) _ None _ _ Hc Eh).
  - destruct (mc_consumer c) eqn:Hpc; try done. destruct Hc as [-> Hc].
    destruct (mc_snapshot c) eqn:Es; [done|]. pose proof (mi_snapshot _ _ _ _ H) as Hs. rewrite Es in Hs. simpl in Hs.
    destruct (os_mpsc_looks_empty (mc_q c)); [done|]. unfold os_mpsc_get_head in E.
    destruct (mq_head (mc_q c)) as [h|] eqn:Eh; [|done]. injection E as <- <-. exists q, s, []. split; [done|].
    eapply start_idle; try done. split_and!; try done. by destruct (chain_set (mc_q c) _ None _ _ Hc Eh).
  - destruct (mc_consumer c) eqn:Hpc; try done. destruct Hc as [-> Hc].
    destruct (fresh_list (mc_live c) l) eqn:Hf; [|done]. simpl in E. case_bool_decide; [|done].
    injection E as <- <-. exists q, s, l. split; [done|]. by apply undo_start.
  - destruct (mc_consumer c) eqn:Hpc; try done. destruct Hc as [-> Hc].
    destruct (fresh_list (mc_live c) l) eqn:Hf; [|done].
    injection E as <- <-. exists q, s, l. split; [done|]. apply undo_start; try done. by right.
  - destruct (mc_consumer c) eqn:Hpc; try done. destruct (mc_snapshot c) as [[h t]|] eqn:Es; [|done].
    destruct (os_mpsc_pop_snapshot_head (mc_q c) h t) as [n|] eqn:En; [|done]. injection E as <- <-.
    destruct (snapshot_step _ _ _ _ _ _ _ H Hpc Es En) as (s' & ? & ?). by exists q, s', [].
  - destruct (mc_consumer c) eqn:Hpc; try done.
    all: try (destruct (os_mpsc_pop_head (mc_q c) _) as [[[Q pc] ev']|] eqn:Ep; [|done]; injection E as <- <-;
      rewrite <- Hpc in Ep; edestruct pop_head_step as (q' & ? & ?); [exact H| |exact Ep|by exists q', s, []];
      rewrite Hpc; simpl; naive_solver).
    all: try (destruct (os_mpsc_capture_snapshot (mc_q c) _) as [[[[Q pc] ev'] sn]|] eqn:Ep; [|done];
      injection E as <- <-; rewrite <- Hpc in Ep;
      edestruct capture_step as (q' & s' & ? & ?); [exact H| |exact Ep|by exists q', s', []]; rewrite Hpc; auto).
    all: destruct (os_mpsc_undo_pop_list (mc_q c) _) as [[[Q pc] ev']|] eqn:Ep; [|done];
      injection E as <- <-; rewrite <- Hpc in Ep;
      edestruct undo_step as (q' & u' & ? & ?); [exact H|exact Ep|by exists q', s, u'].
Qed.

Lemma mpsc_run_inv n c evs : mpsc_run n c evs ->
  exists q s u, fifo_run ([], []) evs = Some (q, s) /\ mpsc_inv c q s u.
Proof.
  induction 1 as [|c evs a c' ev _ IH E].
  - exists [], [], []. split; [done|]. constructor; simpl; try done.
    + constructor.
    + intros i j x b b' E. apply lookup_replicate in E as [E _]. done.
    + intros i p b E. apply lookup_replicate in E as [E _]. done.
    + split; [done|]. split; [done|]. split; [done|]. intros i b E. apply lookup_replicate in E as [E _]. done.
  - destruct IH as (q & s & u & Hr & Hi). destruct (mpsc_step_inv _ _ _ _ _ _ _ Hi E) as (q' & s' & u' & Hr' & Hi').
    exists q', s', u'. split; [|done]. rewrite fifo_run_app, Hr. done.
Qed.

(** Nobody is inside an operation. *)
Definition at_rest (c : mpsc_config) : Prop := mc_consumer c = CIdle /\ Forall (eq PIdle) (mc_producers c).

(** C6: every interleaving of producers and the consumer implements a sequence of
    nodes: each push appends its list and learns whether the sequence was empty, each
    pop removes the first node and returns the one after it, a capture takes the
    whole sequence and the iteration over the snapshot yields its nodes in order, an undo
    or prepend puts its list in front.  When the list is at rest the pointers
    spell the sequence, and the tail pointer always names its last node. *)
Theorem mpsc_refines_fifo n c evs : mpsc_run n c evs ->
  exists q s, fifo_run ([], []) evs = Some (q, s) /\ mq_tail (mc_q c) = last q /\
    os_mpsc_looks_empty (mc_q c) = bool_decide (q = []) /\
    (at_rest c -> spells (mc_q c) None q = true /\ mc_live c = list_to_set (q ++ s)).
Proof.
  intros (q & s & u & Hr & Hi)%mpsc_run_inv. exists q, s. split_and!; [done|apply Hi| |].
  - apply bool_decide_ext. rewrite (mi_tail _ _ _ _ Hi). apply last_None.
  - intros [Hpc HT]. pose proof (mi_consumer _ _ _ _ Hi) as Hc. rewrite Hpc in Hc. destruct Hc as [-> Hc].
    split; [by eapply chain_spells|]. by rewrite (mi_live _ _ _ _ Hi), app_nil_r.
Qed.

(** The consumer is inside an operation, or may start the one of [a]. *)
Definition consumer_called (c : mpsc_config) (a : mpsc_action) : bool :=
  match a, mc_consumer c with
  | MRun, CIdle => false
  | MRun, _ => true
  | MPop, CIdle => negb (os_mpsc_looks_empty (mc_q c))
  | MCapture, CIdle => negb (os_mpsc_looks_empty (mc_q c)) && bool_decide (mc_snapshot c = None)
  | MSnapshot, CIdle => bool_decide (mc_snapshot c <> None)
  | _, _ => false
  end.

Lemma blocked_cell c q s u a : mpsc_inv c q s u -> consumer_called c a = true -> mpsc_step c a = None ->
  exists x i b, mc_producers c !! i = Some (PPrev x b) /\
    forall c', mc_consumer c' = mc_consumer c -> mc_snapshot c' = mc_snapshot c ->
      os_mpsc_looks_empty (mc_q c') = os_mpsc_looks_empty (mc_q c) -> val (mc_q c') x = Some b ->
      is_Some (mpsc_step c' a).
Proof.
  intros H Hcall E. pose proof (mi_consumer _ _ _ _ H) as Hc. pose proof (mi_tail _ _ _ _ H) as Ht.
  assert (negb (os_mpsc_looks_empty (mc_q c)) = true -> q <> []) as Hq.
  { intros Hn ->. unfold os_mpsc_looks_empty in Hn. by rewrite Ht in Hn. }
  unfold consumer_called in Hcall. destruct a; try done; simpl in E.
  - destruct (mc_consumer c) eqn:Hpc; try done. destruct (os_mpsc_looks_empty (mc_q c)) eqn:Hle; [done|].
    destruct Hc as [_ Hc]. unfold os_mpsc_get_head in E. destruct (mq_head (mc_q c)) eqn:Eh; [done|].
    destruct (chain_wait (mc_q c) _ None _ Hc (Hq eq_refl) Eh) as (i & b & Hi). exists None, i, b. split; [done|].
    intros c' E1 _ E3 E4. simpl in E4 |- *. rewrite E1, E3. unfold os_mpsc_get_head. rewrite E4. by eexists.
  - destruct (mc_consumer c) eqn:Hpc; try done. destruct (os_mpsc_looks_empty (mc_q c)) eqn:Hle; [done|].
    simpl in Hcall. case_bool_decide as Hsn; [|done]. rewrite Hsn in E. destruct Hc as [_ Hc].
    unfold os_mpsc_get_head in E. destruct (mq_head (mc_q c)) eqn:Eh; [done|].
    destruct (chain_wait (mc_q c) _ None _ Hc (Hq eq_refl) Eh) as (i & b & Hi). exists None, i, b. split; [done|].
    intros c' E1 E2 E3 E4. simpl in E4 |- *. rewrite E1, E2, Hsn, E3. unfold os_mpsc_get_head. rewrite E4. by eexists.
  - destruct (mc_consumer c) eqn:Hpc; try done. destruct (mc_snapshot c) as [[h t]|] eqn:Hsn; [|done].
    pose proof (mi_snapshot _ _ _ _ H) as Hs. rewrite Hsn in Hs. destruct Hs as (s' & -> & Hl & Hch).
    unfold os_mpsc_pop_snapshot_head, os_mpsc_get_next in E. case_decide as Hne; [|done].
    destruct (mq_next (mc_q c) !! h) eqn:En; [done|].
    destruct (chain_wait (mc_q c) _ (Some h) _ Hch) as (i & b & Hi); [|done|].
    { intros ->. injection Hl as ->. done. }
    exists (Some h), i, b. split; [done|]. intros c' E1 E2 _ E4. simpl in E4 |- *. rewrite E1, E2.
    unfold os_mpsc_pop_snapshot_head, os_mpsc_get_next. rewrite decide_True, E4 by done. by eexists.
  - destruct (mc_consumer c) as [|h|h n|h|h|h n|h|h|l n|l|l|l n|l queued] eqn:Hpc; try done; simpl in E.
    + by destruct n.
    + by case_decide.
    + unfold os_mpsc_get_next in E. destruct (mq_next (mc_q c) !! h) eqn:En; [done|].
      destruct Hc as (_ & (q' & -> & _ & Hch) & Hl). destruct (chain_wait (mc_q c) _ (Some h) _ Hch) as (i & b & Hi); [|done|].
      { by intros ->. }
      exists (Some h), i, b. split; [done|]. intros c' E1 _ _ E4. simpl in E4 |- *. rewrite E1. simpl.
      unfold os_mpsc_get_next. rewrite E4. by eexists.
    + by destruct n.
    + by case_decide.
    + unfold os_mpsc_get_head in E. destruct (mq_head (mc_q c)) eqn:En; [done|]. destruct Hc as (_ & _ & _ & Hch & Hne).
      destruct (chain_wait (mc_q c) _ None _ Hch Hne En) as (i & b & Hi). exists None, i, b. split; [done|].
      intros c' E1 _ _ E4. simpl in E4 |- *. rewrite E1. simpl. unfold os_mpsc_get_head. rewrite E4. by eexists.
Qed.

(** Whenever the consumer spins for a link, a producer between its two accesses is
    about to store it, and the consumer goes on after that one store. *)
Theorem mpsc_consumer_progress n c evs a : mpsc_run n c evs -> consumer_called c a = true ->
  is_Some (mpsc_step c a) \/
  exists i c', mpsc_step c (MPushPrev i) = Some (c', []) /\ is_Some (mpsc_step c' a).
Proof.
  intros (q & s & u & _ & Hi)%mpsc_run_inv Hcall. destruct (mpsc_step c a) as [r|] eqn:E; [left; by eexists|right].
  destruct (blocked_cell _ _ _ _ _ Hi Hcall E) as (x & i & b & Hp & Hgo). exists i. simpl. rewrite Hp. simpl.
  eexists. split; [done|]. apply Hgo; simpl; try done.
  - by destruct x.
  - destruct x; simpl; [by rewrite lookup_insert_eq|done].
Qed.

(** *** Instances *)

Fixpoint mpsc_exec (c : mpsc_config) (l : list mpsc_action) : option (mpsc_config * list mpsc_event) :=
  match l with
  | [] => Some (c, [])
  | a :: l => '(c', ev) ← mpsc_step c a; '(c'', evs) ← mpsc_exec c' l; Some (c'', ev ++ evs)
  end.

Lemma mpsc_exec_run n c0 evs0 l c evs : mpsc_run n c0 evs0 -> mpsc_exec c0 l = Some (c, evs) ->
  mpsc_run n c (evs0 ++ evs).
Proof.
  revert c0 evs0 evs. induction l as [|a l IH]; intros c0 evs0 evs Hr E; simpl in E.
  - injection E as <- <-. by rewrite app_nil_r.
  - destruct (mpsc_step c0 a) as [[c1 ev]|] eqn:Es; [|done]. simpl in E.
    destruct (mpsc_exec c1 l) as [[c2 evs2]|] eqn:Ee; [|done]. injection E as -> <-.
    rewrite app_assoc. eapply IH; [|done]. by econstructor.
Qed.

(** Node 2 is pushed between the load of a null next pointer and the exchange of the
    tail by the pop of node 1. *)
Definition mpsc_race : list mpsc_action :=
  [MPush 0 [1%nat]; MPushPrev 0; MPop; MRun; MRun; MPush 1 [2%nat; 3%nat]; MRun].

Definition mpsc_race_config : mpsc_config :=
  default (mpsc_init 2) (fst <$> mpsc_exec (mpsc_init 2) mpsc_race).
Definition mpsc_race_done : mpsc_config :=
  default (mpsc_init 2) (fst <$> mpsc_exec (mpsc_init 2) (mpsc_race ++ [MPushPrev 1; MRun; MRun])).

Lemma mpsc_race_run : mpsc_run 2 mpsc_race_config [EvPush [1%nat] true; EvPush [2%nat; 3%nat] false].
Proof. apply (mpsc_exec_run 2 (mpsc_init 2) [] mpsc_race); [constructor|]. vm_compute. reflexivity. Qed.

Lemma mpsc_race_done_run : mpsc_run 2 mpsc_race_done
  [EvPush [1%nat] true; EvPush [2%nat; 3%nat] false; EvPop 1 (Some 2%nat)].
Proof.
  apply (mpsc_exec_run 2 (mpsc_init 2) [] (mpsc_race ++ [MPushPrev 1; MRun; MRun])); [constructor|]. vm_compute. reflexivity.
Qed.

Lemma mpsc_refines_fifo_witness :
  mq_tail (mc_q mpsc_race_done) = Some 3%nat /\ spells (mc_q mpsc_race_done) None [2%nat; 3%nat] = true.
Proof.
  destruct (mpsc_refines_fifo 2 mpsc_race_done _ mpsc_race_done_run) as (q & s & E & Ht & _ & Hq).
  vm_compute in E. injection E as <- <-. split; [rewrite Ht; reflexivity|].
  apply Hq. split; vm_compute; repeat constructor.
Defined.

Lemma mpsc_consumer_progress_witness :
  mc_consumer mpsc_race_config = CPopNext 1 /\ mpsc_step mpsc_race_config MRun = None /\
  exists i c', mpsc_step mpsc_race_config (MPushPrev i) = Some (c', []) /\ is_Some (mpsc_step c' MRun).
Proof.
  split; [vm_compute; reflexivity|]. assert (mpsc_step mpsc_race_config MRun = None) as E by (vm_compute; reflexivity).
  split; [exact E|].
  destruct (mpsc_consumer_progress 2 mpsc_race_config _ MRun mpsc_race_run) as [H|H]; [vm_compute; reflexivity| |exact H].
  rewrite E in H. destruct H as [? H]. discriminate H.
Defined.
