(* ===== verification/RootList.v ===== *)
(** * The list of a root queue

    Models [_dispatch_root_queue_push_inline] and [_dispatch_root_queue_drain_one] of
    [src/queue.c]: the list of the multiple-producer queues with any number of consumers.
    A consumer takes the list by exchanging the head pointer with DISPATCH_ROOT_QUEUE_MEDIATOR,
    which producers overwrite blindly.  Every atomic access is a step; the contention
    loops may give up at any round, as their timers do. *)

From S2P Require Import Prelude Mpsc MpscLinks.

(** [rq_mediator] is set when the head pointer is the mediator, and then the pointer of
    [rq_list] is NULL. *)
Record root_list := {
  rq_list : mpsc;
  rq_mediator : bool;
}.

(** The value of the head pointer. *)
Inductive head_value := HeadNull | HeadMediator | HeadNode (n : nat).

Definition dq_items_head (rq : root_list) : head_value :=
  if rq_mediator rq then HeadMediator
  else match mq_head (rq_list rq) with Some n => HeadNode n | None => HeadNull end.

Definition set_dq_items_head (rq : root_list) (v : head_value) : root_list :=
  match v with
  | HeadNull => {| rq_list := set_mq_head (rq_list rq) None; rq_mediator := false |}
  | HeadMediator => {| rq_list := set_mq_head (rq_list rq) None; rq_mediator := true |}
  | HeadNode n => {| rq_list := set_mq_head (rq_list rq) (Some n); rq_mediator := false |}
  end.

#[export] Instance head_value_eq_dec : EqDecision head_value.
Proof. solve_decision. Defined.

Inductive drain_status := DRAIN_WAIT | DRAIN_READY | DRAIN_ABORT.

Definition _dispatch_root_queue_mediator_is_gone (head : head_value) : drain_status :=
  if decide (head = HeadMediator) then DRAIN_WAIT else DRAIN_READY.

(** The two loads are apart; [head_null] is what the first one saw. *)
Definition _dispatch_root_queue_head_tail_quiesced (head_null : bool) (tail : option nat) : drain_status :=
  if Bool.eqb head_null (bool_decide (tail = None))
  then if decide (tail = None) then DRAIN_ABORT else DRAIN_READY
  else DRAIN_WAIT.

(** Where a consumer is inside [_dispatch_root_queue_drain_one]. *)
Inductive drain_pc :=
| DStart
| DGotNull                       (* the head was NULL and is the mediator now *)
| DCheckTail
| DQuiesced                      (* __DISPATCH_ROOT_QUEUE_CONTENDED_WAIT__ *)
| DQuiesced2 (head_null : bool)
| DMediator                      (* the same, for the mediator *)
| DOwn (head : nat)
| DOwnNull (head : nat)
| DOwnCas (head : nat)
| DOwnNext (head : nat)
| DOwnStore (head next : nat)
| DReturn (item : option nat) (poke : bool).   (* [poke]: another thread is asked for *)

(** One access; [None] while it waits for an enqueuer.  [timeout] ends a contention
    loop. *)
Definition _dispatch_root_queue_drain_one (rq : root_list) (pc : drain_pc) (timeout : bool)
    : option (root_list * drain_pc * list mpsc_event) :=
  let wait st again :=
    match st with
    | DRAIN_READY => DStart
    | DRAIN_ABORT => DReturn None false
    | DRAIN_WAIT => if timeout : bool then DReturn None true else again
    end in
  match pc with
  | DStart =>
      let head := dq_items_head rq in
      let rq := set_dq_items_head rq HeadMediator in
      Some (rq, match head with HeadNull => DGotNull | HeadMediator => DMediator | HeadNode n => DOwn n end, [])
  | DGotNull =>
      if decide (dq_items_head rq = HeadMediator) then Some (set_dq_items_head rq HeadNull, DCheckTail, [])
      else Some (rq, DStart, [])
  | DCheckTail =>
      Some (rq, if decide (mq_tail (rq_list rq) = None) then DReturn None false else DQuiesced, [])
  | DQuiesced => Some (rq, DQuiesced2 (bool_decide (dq_items_head rq = HeadNull)), [])
  | DQuiesced2 head_null =>
      Some (rq, wait (_dispatch_root_queue_head_tail_quiesced head_null (mq_tail (rq_list rq))) DQuiesced, [])
  | DMediator => Some (rq, wait (_dispatch_root_queue_mediator_is_gone (dq_items_head rq)) DMediator, [])
  | DOwn head =>
      Some (rq, match mq_next (rq_list rq) !! head with None => DOwnNull head | Some n => DOwnStore head n end, [])
  | DOwnNull head => Some (set_dq_items_head rq HeadNull, DOwnCas head, [])
  | DOwnCas head =>
      if decide (mq_tail (rq_list rq) = Some head)
      then Some ({| rq_list := set_mq_tail (rq_list rq) None; rq_mediator := rq_mediator rq |},
                 DReturn (Some head) false, [EvPop head None])
      else Some (rq, DOwnNext head, [])
  | DOwnNext head => n ← os_mpsc_get_next (rq_list rq) head; Some (rq, DOwnStore head n, [])
  | DOwnStore head next =>
      Some (set_dq_items_head rq (HeadNode next), DReturn (Some head) true, [EvPop head (Some next)])
  | DReturn _ _ => None
  end.

(** The second access of [os_mpsc_push_list]: the head pointer is stored blindly. *)
Definition root_push_prev (rq : root_list) (prev : option nat) (head : nat) : root_list :=
  {| rq_list := os_mpsc_push_update_prev (rq_list rq) prev head;
     rq_mediator := match prev with None => false | Some _ => rq_mediator rq end |}.

(** ** Threads *)

Record root_config := {
  rc_q : root_list;
  rc_producers : list producer_pc;
  rc_consumers : list drain_pc;
  rc_live : gset nat;
}.

Inductive root_action :=
| RPush (i : nat) (l : list nat)
| RPushPrev (i : nat)
| RDrain (k : nat)                      (* a worker calls drain_one again *)
| RRun (k : nat) (timeout : bool).

Definition popped (pc : drain_pc) : option nat := match pc with DReturn (Some h) _ => Some h | _ => None end.

Definition root_step (c : root_config) (a : root_action) : option (root_config * list mpsc_event) :=
  match a with
  | RPush i l =>
      pc ← rc_producers c !! i;
      if decide (pc = PIdle) then
        if fresh_list (rc_live c) l then
          let '(prev, Q) := os_mpsc_push_update_tail (link_q (rq_list (rc_q c)) l) (final l) in
          Some ({| rc_q := {| rq_list := Q; rq_mediator := rq_mediator (rc_q c) |};
                   rc_producers := <[i := PPrev prev (first l)]> (rc_producers c);
                   rc_consumers := rc_consumers c; rc_live := rc_live c ∪ list_to_set l |},
                [EvPush l (os_mpsc_push_was_empty prev)])
        else None
      else None
  | RPushPrev i =>
      pc ← rc_producers c !! i;
      match pc with
      | PPrev prev head =>
          Some ({| rc_q := root_push_prev (rc_q c) prev head; rc_producers := <[i := PIdle]> (rc_producers c);
                   rc_consumers := rc_consumers c; rc_live := rc_live c |}, [])
      | PIdle => None
      end
  | RDrain k =>
      pc ← rc_consumers c !! k;
      match pc with
      | DReturn _ _ =>
          Some ({| rc_q := rc_q c; rc_producers := rc_producers c; rc_consumers := <[k := DStart]> (rc_consumers c);
                   rc_live := rc_live c |}, [])
      | _ => None
      end
  | RRun k timeout =>
      pc ← rc_consumers c !! k;
      '(rq, pc', ev) ← _dispatch_root_queue_drain_one (rc_q c) pc timeout;
      Some ({| rc_q := rq; rc_producers := rc_producers c; rc_consumers := <[k := pc']> (rc_consumers c);
               rc_live := match popped pc' with Some h => rc_live c ∖ {[h]} | None => rc_live c end |}, ev)
  end.

(** [n] producers and [m] workers; a worker that is not draining has returned. *)
Definition root_init (n m : nat) : root_config :=
  {| rc_q := {| rq_list := {| mq_head := None; mq_tail := None; mq_next := ∅ |}; rq_mediator := false |};
     rc_producers := replicate n PIdle; rc_consumers := replicate m (DReturn None false); rc_live := ∅ |}.

Inductive root_run (n m : nat) : root_config -> list mpsc_event -> Prop :=
| rr_init : root_run n m (root_init n m) []
| rr_step c evs a c' ev : root_run n m c evs -> root_step c a = Some (c', ev) -> root_run n m c' (evs ++ ev).

(** ** The invariant *)

(** The node a consumer has taken off the head pointer. *)
Definition owned_node (pc : drain_pc) : option nat :=
  match pc with DOwn h | DOwnNull h | DOwnCas h | DOwnNext h | DOwnStore h _ => Some h | _ => None end.

(** Whoever may have put the mediator where it is. *)
Definition may_hold_mediator (pc : drain_pc) : bool :=
  match pc with DGotNull | DOwn _ | DOwnNull _ | DOwnStore _ _ => true | _ => false end.

Record root_inv (c : root_config) (q : list nat) : Prop := {
  ri_tail : mq_tail (rq_list (rc_q c)) = last q;
  ri_nodup : NoDup q;
  ri_live : rc_live c = list_to_set q;
  ri_uniq : forall i j x b b', rc_producers c !! i = Some (PPrev x b) ->
    rc_producers c !! j = Some (PPrev x b') -> i = j;
  ri_where : forall i p b, rc_producers c !! i = Some (PPrev (Some p) b) -> p ∈ q;
  ri_owner : forall k l pc pc' h h', rc_consumers c !! k = Some pc -> rc_consumers c !! l = Some pc' ->
    owned_node pc = Some h -> owned_node pc' = Some h' -> k = l;
  ri_owned : forall k pc h, rc_consumers c !! k = Some pc -> owned_node pc = Some h ->
    detached (rq_list (rc_q c)) (rc_producers c) h q;
  ri_free : (forall k pc, rc_consumers c !! k = Some pc -> owned_node pc = None) ->
    chain (rq_list (rc_q c)) (rc_producers c) None q;
  ri_next : forall k h, rc_consumers c !! k = Some (DOwnNext h) -> last q <> Some h;
  ri_store : forall k h n, rc_consumers c !! k = Some (DOwnStore h n) ->
    is_set (rq_list (rc_q c)) (rc_producers c) (Some h) n;
  ri_mediator : rq_mediator (rc_q c) = true -> mq_head (rq_list (rc_q c)) = None /\
    exists k pc, rc_consumers c !! k = Some pc /\ may_hold_mediator pc = true;
}.

Section facts.
Context (c : root_config) (q : list nat) (H : root_inv c q).
Let Q := rq_list (rc_q c).
Let T := rc_producers c.

Lemma owner_cases : (exists k pc h, rc_consumers c !! k = Some pc /\ owned_node pc = Some h) \/
  (forall k pc, rc_consumers c !! k = Some pc -> owned_node pc = None).
Proof.
  destruct (decide (Exists (fun pc => owned_node pc <> None) (rc_consumers c))) as [He|Hn].
  - left. apply Exists_exists in He as (pc & (k & Hk)%list_elem_of_lookup & Hp).
    destruct (owned_node pc) as [h|] eqn:E; [|done]. by exists k, pc, h.
  - right. intros k pc Hk. rewrite <- Forall_Exists_neg, Forall_lookup in Hn. specialize (Hn k pc Hk).
    destruct (owned_node pc); [|done]. by destruct Hn.
Qed.

Lemma root_last : unset Q T (last q).
Proof.
  destruct owner_cases as [(k & pc & h & Hk & Hh)|Hn].
  - eapply detached_last, (ri_owned _ _ H); done.
  - by apply chain_last, (ri_free _ _ H).
Qed.

Lemma root_fresh l a : fresh_list (rc_live c) l = true -> a ∈ l ->
  a ∉ q /\ mq_tail Q <> Some a /\ nopend T (Some a).
Proof.
  unfold fresh_list. rewrite !andb_true_iff, !bool_decide_eq_true, Forall_forall. intros [_ Hl] Ha.
  specialize (Hl a Ha). rewrite (ri_live _ _ H), elem_of_list_to_set in Hl. split_and!; [done| |].
  - unfold Q. rewrite (ri_tail _ _ H). by intros ?%last_Some_elem_of.
  - intros i b E. by apply (ri_where _ _ H) in E.
Qed.

(** The head pointer is set only while nobody has taken the list. *)
Lemma head_set_free n : mq_head Q = Some n -> forall k pc, rc_consumers c !! k = Some pc -> owned_node pc = None.
Proof.
  intros E k pc Hk. destruct (owned_node pc) as [h|] eqn:Eh; [|done].
  pose proof (ri_owned _ _ H k pc h Hk Eh) as (q' & _ & [E' _] & _). unfold Q in E. simpl in E'. congruence.
Qed.
End facts.

Lemma root_inv_push c q i l : root_inv c q -> rc_producers c !! i = Some PIdle -> fresh_list (rc_live c) l = true ->
  root_inv {| rc_q := {| rq_list := (os_mpsc_push_update_tail (link_q (rq_list (rc_q c)) l) (final l)).2;
      rq_mediator := rq_mediator (rc_q c) |};
    rc_producers := <[i := PPrev (mq_tail (rq_list (rc_q c))) (first l)]> (rc_producers c);
    rc_consumers := rc_consumers c; rc_live := rc_live c ∪ list_to_set l |} (q ++ l).
Proof.
  intros H Hi Hf. pose proof (root_fresh c q H l) as Hfr. pose proof (root_last c q H) as Hu.
  pose proof Hf as Hl. unfold fresh_list in Hl. rewrite !andb_true_iff, !bool_decide_eq_true in Hl. destruct Hl as [[Hne Hnd] _].
  assert (unset (rq_list (rc_q c)) (rc_producers c) (mq_tail (rq_list (rc_q c)))) as Hprev by (by rewrite (ri_tail _ _ H)).
  assert (forall a, a ∈ l -> mq_tail (rq_list (rc_q c)) <> Some a /\ nopend (rc_producers c) (Some a)) as Hap
    by (intros a Ha; by destruct (Hfr a Hf Ha) as (_ & ? & ?)).
  assert (forall a, a ∈ l -> a ∉ q) as Hq by (intros a Ha; by destruct (Hfr a Hf Ha)).
  pose proof H as [H1 H2 H3 H4 H5 H6 H7 H8 H9 H10 H11].
  constructor; cbn [rc_q rc_producers rc_consumers rc_live rq_list rq_mediator].
  - by rewrite last_pushed.
  - apply NoDup_app. split_and!; try done. intros a Ha Ha'. by apply (Hq a).
  - rewrite H3. set_solver.
  - intros j k x b b'. rewrite !(pend_push _ _ _ _ Hi). intros [(-> & -> & _)|E1] [(-> & E & _)|E2]; try done.
    + by destruct Hprev as [_ Hp]; edestruct Hp.
    + subst. by destruct Hprev as [_ Hp]; edestruct Hp.
    + by eapply H4.
  - intros j p b. rewrite (pend_push _ _ _ _ Hi). intros [(-> & E & _)|E].
    + rewrite H1 in E. symmetry in E. apply last_Some_elem_of in E. set_solver.
    + apply H5 in E. set_solver.
  - done.
  - intros k pc h Hk Hh. apply detached_push; try done. by eapply H7.
  - intros Hn. apply chain_push; try done; [by apply H8|by rewrite endc_last|].
    intros a Ha. split; [done|]. by apply Hq.
  - intros k h Hk E. rewrite last_pushed in E by done. injection E as <-.
    destruct (H7 k _ _ Hk eq_refl) as (q' & -> & _). apply (Hq (final l)); [by apply final_in|]. set_solver.
  - intros k h n Hk. apply set_push; try done; [by eapply H10|]. intros a Ha [= ->].
    destruct (H7 k _ _ Hk eq_refl) as (q' & -> & _). apply (Hq a Ha). set_solver.
  - done.
Qed.

Lemma root_inv_push_prev c q i p h : root_inv c q -> rc_producers c !! i = Some (PPrev p h) ->
  root_inv {| rc_q := root_push_prev (rc_q c) p h; rc_producers := <[i := PIdle]> (rc_producers c);
    rc_consumers := rc_consumers c; rc_live := rc_live c |} q.
Proof.
  intros [H1 H2 H3 H4 H5 H6 H7 H8 H9 H10 H11] Hi. constructor; simpl; try done.
  - rewrite <- H1. by destruct p.
  - intros j k x b b' E1%(pend_update_prev _ _ _ _ Hi H4) E2%(pend_update_prev _ _ _ _ Hi H4). naive_solver.
  - intros j x b E%(pend_update_prev _ _ _ _ Hi H4). naive_solver.
  - intros k pc a Hk Ha. eauto with mpsc.
  - intros Hn. eauto with mpsc.
  - intros k a n Hk. eauto with mpsc.
  - intros Hm. destruct p as [p|]; [|done]. by apply H11.
Qed.

(** *** Steps of a consumer *)

Section consumer.
Context (c : root_config) (q : list nat) (H : root_inv c q).
Context (k : nat) (pc : drain_pc) (Hk : rc_consumers c !! k = Some pc).

Lemma lookup_consumer pc' l p : <[k := pc']> (rc_consumers c) !! l = Some p ->
  (l = k /\ p = pc') \/ (l <> k /\ rc_consumers c !! l = Some p).
Proof.
  intros Hl. destruct (decide (k = l)) as [<-|Hne].
  - rewrite list_lookup_insert_eq in Hl by (by eapply lookup_lt_Some). left. by injection Hl.
  - rewrite list_lookup_insert_ne in Hl by done. by right.
Qed.

Lemma lookup_consumer_eq pc' : <[k := pc']> (rc_consumers c) !! k = Some pc'.
Proof. apply list_lookup_insert_eq. by eapply lookup_lt_Some. Qed.

Lemma set_head_same : mq_head (rq_list (rc_q c)) = None -> set_mq_head (rq_list (rc_q c)) None = rq_list (rc_q c).
Proof. unfold set_mq_head. destruct (rq_list (rc_q c)) as [h t n]. simpl. by intros ->. Qed.

(** A consumer moves and leaves the pointers alone, the mediator apart. *)
Lemma consumer_moves pc' med :
  owned_node pc' = owned_node pc ->
  (forall h, pc' = DOwnNext h -> last q <> Some h) ->
  (forall h n, pc' = DOwnStore h n -> is_set (rq_list (rc_q c)) (rc_producers c) (Some h) n) ->
  (med = true -> mq_head (rq_list (rc_q c)) = None /\
    (may_hold_mediator pc' = true \/ exists l p, l <> k /\ rc_consumers c !! l = Some p /\ may_hold_mediator p = true)) ->
  root_inv {| rc_q := {| rq_list := rq_list (rc_q c); rq_mediator := med |}; rc_producers := rc_producers c;
    rc_consumers := <[k := pc']> (rc_consumers c); rc_live := rc_live c |} q.
Proof.
  intros Ho Hn Hs Hm. pose proof H as [H1 H2 H3 H4 H5 H6 H7 H8 H9 H10 H11].
  assert (forall l p h, <[k := pc']> (rc_consumers c) !! l = Some p -> owned_node p = Some h ->
    exists p', rc_consumers c !! l = Some p' /\ owned_node p' = Some h) as Hold.
  { intros l p h [[-> ->]|[_ Hl]]%lookup_consumer Hh; [exists pc; split; [done|congruence]|by exists p]. }
  constructor; cbn [rc_q rc_producers rc_consumers rc_live rq_list rq_mediator]; try done.
  - intros l l' p p' h h' Hl Hl' Hh Hh'. destruct (Hold _ _ _ Hl Hh) as (p1 & ? & ?).
    destruct (Hold _ _ _ Hl' Hh') as (p2 & ? & ?). by eapply H6.
  - intros l p h Hl Hh. destruct (Hold _ _ _ Hl Hh) as (p1 & ? & ?). by eapply H7.
  - intros Hfree. apply H8. intros l p Hl. destruct (decide (l = k)) as [->|Hne].
    + rewrite Hk in Hl. injection Hl as <-. rewrite <- Ho. apply (Hfree k). apply lookup_consumer_eq.
    + apply (Hfree l). by rewrite list_lookup_insert_ne.
  - intros l h [[_ E]|[_ Hl]]%lookup_consumer; [by apply Hn|by eapply H9].
  - intros l h n [[_ E]|[_ Hl]]%lookup_consumer; [by apply Hs|by eapply H10].
  - intros E. destruct (Hm E) as [Hh [Hp|(l & p & Hl & Hlp & Hp)]]; (split; [done|]).
    + exists k, pc'. split; [apply lookup_consumer_eq|done].
    + exists l, p. by rewrite list_lookup_insert_ne.
Qed.

(** Keeping the mediator: somebody else holds it when [pc] cannot. *)
Lemma keep_mediator : may_hold_mediator pc = false -> rq_mediator (rc_q c) = true ->
  mq_head (rq_list (rc_q c)) = None /\
  exists l p, l <> k /\ rc_consumers c !! l = Some p /\ may_hold_mediator p = true.
Proof.
  intros Hp Hm. destruct (ri_mediator _ _ H Hm) as [Hh (l & p & Hl & Hlp)]. split; [done|]. exists l, p.
  split_and!; try done. intros ->. congruence.
Qed.

(** The exchange takes the first node off the head pointer. *)
Lemma consumer_takes h : owned_node pc = None -> mq_head (rq_list (rc_q c)) = Some h ->
  root_inv {| rc_q := {| rq_list := set_mq_head (rq_list (rc_q c)) None; rq_mediator := true |};
    rc_producers := rc_producers c; rc_consumers := <[k := DOwn h]> (rc_consumers c); rc_live := rc_live c |} q.
Proof.
  intros Ho Hh. pose proof (head_set_free c q H h Hh) as Hfree.
  pose proof (ri_free _ _ H Hfree) as Hc. destruct (chain_set (rq_list (rc_q c)) _ None _ _ Hc Hh) as [Hset _].
  pose proof (detach _ _ _ _ Hc Hset) as Hd. destruct H as [H1 H2 H3 H4 H5 H6 H7 H8 H9 H10 H11].
  assert (forall l p h', <[k := DOwn h]> (rc_consumers c) !! l = Some p -> owned_node p = Some h' -> l = k /\ h' = h) as Hone.
  { intros l p h' [[-> ->]|[_ Hl]]%lookup_consumer E; [by injection E|]. by rewrite (Hfree l p Hl) in E. }
  constructor; cbn [rc_q rc_producers rc_consumers rc_live rq_list rq_mediator]; try done.
  - intros l l' p p' a a' Hl Hl' Ha Ha'. destruct (Hone _ _ _ Hl Ha) as [-> _]. by destruct (Hone _ _ _ Hl' Ha') as [-> _].
  - intros l p a Hl Ha. by destruct (Hone _ _ _ Hl Ha) as [_ ->].
  - intros Hn. specialize (Hn k (DOwn h) (lookup_consumer_eq _)). done.
  - intros l a [[_ E]|[_ Hl]]%lookup_consumer; [done|by eapply H9].
  - intros l a n [[_ E]|[_ Hl]]%lookup_consumer; [done|]. by specialize (Hfree l _ Hl).
  - intros _. split; [done|]. exists k, (DOwn h). split; [apply lookup_consumer_eq|done].
Qed.

(** The owner gives the rest of the list back. *)
Lemma consumer_pops h q' Q' med b :
  owned_node pc = Some h -> q = h :: q' -> mq_tail Q' = last q' -> nopend (rc_producers c) (Some h) ->
  chain Q' (rc_producers c) None q' ->
  (med = true -> mq_head Q' = None /\ exists l p, l <> k /\ rc_consumers c !! l = Some p /\ may_hold_mediator p = true) ->
  root_inv {| rc_q := {| rq_list := Q'; rq_mediator := med |}; rc_producers := rc_producers c;
    rc_consumers := <[k := DReturn (Some h) b]> (rc_consumers c); rc_live := rc_live c ∖ {[h]} |} q'.
Proof.
  intros Ho Eq Ht Hn Hc Hm. destruct H as [H1 H2 H3 H4 H5 H6 H7 H8 H9 H10 H11]. rewrite Eq in H2, H3.
  apply NoDup_cons in H2 as [Hh H2].
  assert (forall l p a, <[k := DReturn (Some h) b]> (rc_consumers c) !! l = Some p -> owned_node p = Some a -> False) as Hno.
  { intros l p a [[-> ->]|[Hne Hl]]%lookup_consumer E; [done|]. by apply Hne, (H6 l k p pc a h). }
  constructor; cbn [rc_q rc_producers rc_consumers rc_live rq_list rq_mediator]; try done.
  - rewrite H3. set_solver.
  - intros i p a E. pose proof (H5 i p a E) as Hin. rewrite Eq in Hin. apply elem_of_cons in Hin as [->|]; [|done].
    by edestruct Hn.
  - intros l l' p p' a a' Hl _ Ha _. by edestruct Hno.
  - intros l p a Hl Ha. by edestruct Hno.
  - intros l a Hl. by edestruct Hno.
  - intros l a n Hl. by edestruct Hno.
  - intros E. destruct (Hm E) as [Hhd (l & p & Hl & Hlp & Hp)]. split; [done|]. exists l, p. by rewrite list_lookup_insert_ne.
Qed.
End consumer.

Lemma drain_step_inv c q k pc timeout rq pc' ev :
  root_inv c q -> rc_consumers c !! k = Some pc ->
  _dispatch_root_queue_drain_one (rc_q c) pc timeout = Some (rq, pc', ev) ->
  exists q', fifo_run (q, []) ev = Some (q', []) /\
    root_inv {| rc_q := rq; rc_producers := rc_producers c; rc_consumers := <[k := pc']> (rc_consumers c);
      rc_live := match popped pc' with Some h => rc_live c ∖ {[h]} | None => rc_live c end |} q'.
Proof.
  intros H Hk E. assert (rc_q c = {| rq_list := rq_list (rc_q c); rq_mediator := rq_mediator (rc_q c) |}) as Hrq
    by (by destruct (rc_q c)).
  pose proof (keep_mediator c q H k pc Hk) as Hkeep.
  assert (forall h, owned_node pc = Some h -> detached (rq_list (rc_q c)) (rc_producers c) h q) as Hown
    by (intros h Hh; by eapply (ri_owned _ _ H)).
  (* a move that leaves everything but the program counter alone *)
  assert (forall p, owned_node pc = None -> owned_node p = None -> may_hold_mediator pc = false ->
    root_inv {| rc_q := rc_q c; rc_producers := rc_producers c; rc_consumers := <[k := p]> (rc_consumers c); rc_live := rc_live c |} q) as Hidle.
  { intros p H1 H2 H3. rewrite Hrq. eapply consumer_moves; try done; [congruence|by intros h ->|by intros h n ->|].
    intros Hm. destruct (Hkeep H3 Hm). split; [done|by right]. }
  destruct pc as [| | | | | |h|h|h|h|h n|item b]; try done; simpl in E.
  - injection E as <- <- <-. exists q. split; [done|]. unfold dq_items_head. destruct (rq_mediator (rc_q c)) eqn:Em.
    + destruct (Hkeep eq_refl eq_refl) as [Hh Hl]. simpl. rewrite set_head_same by done.
      eapply consumer_moves; try done. intros _. split; [done|by right].
    + destruct (mq_head (rq_list (rc_q c))) as [n|] eqn:Eh; simpl.
      * by eapply consumer_takes.
      * rewrite set_head_same by done. eapply consumer_moves; try done. intros _. split; [done|by left].
  - exists q. unfold dq_items_head in E. destruct (rq_mediator (rc_q c)) eqn:Em; simpl in E.
    + injection E as <- <- <-. split; [done|]. simpl. rewrite set_head_same by (by apply (ri_mediator _ _ H)).
      by eapply consumer_moves.
    + assert (Some (rc_q c, DStart, []) = Some (rq, pc', ev)) as E' by (by destruct (mq_head (rq_list (rc_q c)))).
      injection E' as <- <- <-. split; [done|]. rewrite Hrq. by eapply consumer_moves.
  - injection E as <- <- <-. exists q. split; [done|]. case_decide; by apply Hidle.
  - injection E as <- <- <-. exists q. split; [done|]. by apply Hidle.
  - injection E as <- <- <-. exists q. split; [done|].
    destruct (_dispatch_root_queue_head_tail_quiesced _ _), timeout; by apply Hidle.
  - injection E as <- <- <-. exists q. split; [done|].
    destruct (_dispatch_root_queue_mediator_is_gone _), timeout; by apply Hidle.
  - injection E as <- <- <-. exists q. split; [done|]. destruct (Hown h eq_refl) as (q' & Eq & Hu & Hc).
    destruct (mq_next (rq_list (rc_q c)) !! h) as [n|] eqn:En; simpl; rewrite Hrq; eapply consumer_moves; try done.
    + intros h' n' [= <- <-]. by destruct (chain_set (rq_list (rc_q c)) _ (Some h) _ _ Hc En).
    + intros _. split; [apply Hu|by left].
    + intros _. split; [apply Hu|by left].
  - injection E as <- <- <-. exists q. split; [done|]. destruct (Hown h eq_refl) as (q' & Eq & Hu & Hc). simpl.
    rewrite set_head_same by apply Hu. by eapply consumer_moves.
  - destruct (Hown h eq_refl) as (q' & Eq & Hu & Hc). case_decide as Ht; injection E as <- <- <-.
    + assert (q' = []) as ->.
      { rewrite (ri_tail _ _ H), Eq in Ht. destruct q' as [|a q']; [done|]. exfalso. pose proof (ri_nodup _ _ H) as Hn.
        rewrite Eq in Hn. rewrite last_cons_cons in Ht. apply last_Some_elem_of in Ht. by apply NoDup_cons in Hn as [Hn _]. }
      exists []. split; [rewrite Eq; simpl; by rewrite decide_True|]. eapply consumer_pops; try done; [apply Hc|].
      intros Hm. destruct (Hkeep eq_refl Hm) as [_ Hl]. split; [apply Hu|done].
    + exists q. split; [done|]. simpl. rewrite Hrq. eapply consumer_moves; try done.
      * intros h' [= <-] El. apply Ht. by rewrite (ri_tail _ _ H).
      * intros Hm. destruct (Hkeep eq_refl Hm) as [_ Hl]. split; [apply Hu|by right].
  - destruct (Hown h eq_refl) as (q' & Eq & Hu & Hc). unfold os_mpsc_get_next in E.
    destruct (mq_next (rq_list (rc_q c)) !! h) as [n|] eqn:En; [|done]. injection E as <- <- <-. exists q. split; [done|].
    simpl. rewrite Hrq. eapply consumer_moves; try done.
    + intros h' n' [= <- <-]. by destruct (chain_set (rq_list (rc_q c)) _ (Some h) _ _ Hc En).
    + intros _. split; [apply Hu|by left].
  - injection E as <- <- <-. destruct (Hown h eq_refl) as (q' & Eq & Hu & Hc). pose proof (ri_store _ _ H k h n Hk) as Hs.
    destruct (chain_set_head _ _ _ _ _ Hc (proj2 Hu) Hs) as [Hn Hc'].
    destruct (chain_set (rq_list (rc_q c)) _ (Some h) _ _ Hc (proj1 Hs)) as [_ (l & El)]. exists q'.
    split; [rewrite Eq, El; simpl; by rewrite decide_True|]. simpl. eapply consumer_pops; try done.
    cbn [mq_tail set_mq_head]. rewrite (ri_tail _ _ H), Eq, El. by rewrite last_cons_cons.
Qed.

Lemma root_step_inv c q a c' ev : root_inv c q -> root_step c a = Some (c', ev) ->
  exists q', fifo_run (q, []) ev = Some (q', []) /\ root_inv c' q'.
Proof.
  intros H E. destruct a as [i l|i|k|k timeout]; simpl in E.
  - destruct (rc_producers c !! i) as [pc|] eqn:Hi; [|done]. simpl in E. case_decide; [subst pc|done].
    destruct (fresh_list (rc_live c) l) eqn:Hf; [|done]. injection E as <- <-. exists (q ++ l). split.
    + simpl. rewrite decide_True; [done|]. unfold os_mpsc_push_was_empty. apply bool_decide_ext.
      rewrite (ri_tail _ _ H). apply last_None.
    + by apply root_inv_push.
  - destruct (rc_producers c !! i) as [[|p h]|] eqn:Hi; try done. injection E as <- <-. exists q. split; [done|].
    by apply root_inv_push_prev.
  - destruct (rc_consumers c !! k) as [pc|] eqn:Hk; [|done]. destruct pc; try done. injection E as <- <-. exists q.
    split; [done|]. destruct (rc_q c) as [Q med] eqn:Erq. pose proof (consumer_moves c q H k _ Hk DStart med) as Hm.
    rewrite Erq in Hm. simpl in Hm. apply Hm; try done. intros ->.
    destruct (keep_mediator c q H k _ Hk eq_refl) as [Hh Hl]; [by rewrite Erq|]. rewrite Erq in Hh. split; [done|by right].
  - destruct (rc_consumers c !! k) as [pc|] eqn:Hk; [|done]. cbn [mbind option_bind] in E.
    destruct (_dispatch_root_queue_drain_one (rc_q c) pc timeout) as [[[rq pc'] ev']|] eqn:Ed; [|done].
    injection E as <- <-. by eapply drain_step_inv.
Qed.

Lemma root_run_inv n m c evs : root_run n m c evs -> exists q, fifo_run ([], []) evs = Some (q, []) /\ root_inv c q.
Proof.
  induction 1 as [|c evs a c' ev _ IH E].
  - exists []. split; [done|]. constructor; simpl; try done.
    + constructor.
    + intros i j x b b' [E _]%lookup_replicate. done.
    + intros i p b [E _]%lookup_replicate. done.
    + intros k l pc pc' h h' [-> _]%lookup_replicate. done.
    + intros k pc h [-> _]%lookup_replicate. done.
    + intros _. split; [done|]. split; [done|]. intros i b [E _]%lookup_replicate. done.
    + intros k h n' [E _]%lookup_replicate. done.
  - destruct IH as (q & Hr & Hi). destruct (root_step_inv _ _ _ _ _ Hi E) as (q' & Hr' & Hi').
    exists q'. split; [|done]. by rewrite fifo_run_app, Hr.
Qed.

(** C7: with any number of producers and workers, the list of a root queue implements a
    sequence: pushes append and learn whether it was empty, and the items that workers
    take off are its items in order, each exactly once; at most one worker at a time has
    the list; and when nobody is inside an operation the pointers spell the sequence. *)
Theorem root_list_fifo n m c evs : root_run n m c evs ->
  exists q, fifo_run ([], []) evs = Some (q, []) /\ mq_tail (rq_list (rc_q c)) = last q /\
    (forall k l pc pc' h h', rc_consumers c !! k = Some pc -> rc_consumers c !! l = Some pc' ->
      owned_node pc = Some h -> owned_node pc' = Some h' -> k = l) /\
    (forall k pc h, rc_consumers c !! k = Some pc -> owned_node pc = Some h -> hd_error q = Some h) /\
    (Forall (eq PIdle) (rc_producers c) -> Forall (fun pc => owned_node pc = None) (rc_consumers c) ->
      spells (rq_list (rc_q c)) None q = true).
Proof.
  intros (q & Hr & H)%root_run_inv. exists q. split_and!; [done|apply H|apply H| |].
  - intros k pc h Hk Hh. by destruct (ri_owned _ _ H k pc h Hk Hh) as (q' & -> & _).
  - intros Hp Hc. eapply chain_spells; [|done]. apply (ri_free _ _ H). by apply Forall_lookup.
Qed.

(** A worker that owns the list goes on, at once or after one store of a producer. *)
Lemma owner_progress c q k pc h : root_inv c q -> rc_consumers c !! k = Some pc -> owned_node pc = Some h ->
  is_Some (root_step c (RRun k false)) \/
  exists i c', root_step c (RPushPrev i) = Some (c', []) /\ is_Some (root_step c' (RRun k false)).
Proof.
  intros H Hk Hh. destruct (_dispatch_root_queue_drain_one (rc_q c) pc false) as [[[rq pc'] ev]|] eqn:E.
  - left. simpl. rewrite Hk. cbn [mbind option_bind]. rewrite E. by eexists.
  - right. destruct pc as [| | | | | |a|a|a|a|a n|item b]; try done; simpl in E.
    + by case_decide.
    + unfold os_mpsc_get_next in E. destruct (mq_next (rq_list (rc_q c)) !! a) eqn:En; [done|].
      destruct (ri_owned _ _ H k _ a Hk eq_refl) as (q' & Eq & _ & Hc). pose proof (ri_next _ _ H k a Hk) as Hl.
      destruct (chain_wait (rq_list (rc_q c)) _ (Some a) _ Hc) as (i & b & Hi); [|done|].
      { intros ->. by rewrite Eq in Hl. }
      exists i. simpl. rewrite Hi. eexists. split; [done|]. simpl. rewrite Hk. cbn [mbind option_bind].
      simpl. unfold os_mpsc_get_next. simpl. rewrite lookup_insert_eq. by eexists.
Qed.

(** A root queue that is not empty can be drained: its head is a node, or a producer is
    about to store it, or the worker that has the list can go on (after at most one store
    of a producer).  The mediator never stays behind: while the head is the mediator some
    worker that put it there or took it over can go on and replaces it. *)
Theorem root_list_progress n m c evs : root_run n m c evs ->
  (mq_tail (rq_list (rc_q c)) <> None ->
    (exists a, dq_items_head (rc_q c) = HeadNode a) \/
    (exists i b, rc_producers c !! i = Some (PPrev None b)) \/
    (exists k pc h, rc_consumers c !! k = Some pc /\ owned_node pc = Some h /\
      (is_Some (root_step c (RRun k false)) \/
       exists i c', root_step c (RPushPrev i) = Some (c', []) /\ is_Some (root_step c' (RRun k false))))) /\
  (dq_items_head (rc_q c) = HeadMediator ->
    exists k pc, rc_consumers c !! k = Some pc /\ may_hold_mediator pc = true /\ is_Some (root_step c (RRun k false))).
Proof.
  intros (q & _ & H)%root_run_inv. split.
  - intros Ht. destruct (owner_cases c) as [(k & pc & h & Hk & Hh)|Hfree].
    + right. right. exists k, pc, h. split_and!; [done..|]. by eapply owner_progress.
    + pose proof (ri_free _ _ H Hfree) as Hc. rewrite (ri_tail _ _ H) in Ht.
      destruct (mq_head (rq_list (rc_q c))) as [a|] eqn:Eh.
      * left. exists a. unfold dq_items_head. destruct (rq_mediator (rc_q c)) eqn:Em; [|by rewrite Eh].
        destruct (ri_mediator _ _ H Em). congruence.
      * right. left. eapply (chain_wait (rq_list (rc_q c)) _ None); [done| |done]. by intros ->.
  - intros Hm. assert (rq_mediator (rc_q c) = true) as Hmed.
    { unfold dq_items_head in Hm. destruct (rq_mediator (rc_q c)); [done|]. by destruct (mq_head (rq_list (rc_q c))). }
    destruct (ri_mediator _ _ H Hmed) as [_ (k & pc & Hk & Hp)]. exists k, pc. split_and!; [done..|].
    simpl. rewrite Hk. cbn [mbind option_bind]. destruct pc; try done; cbn [_dispatch_root_queue_drain_one].
    case_decide; by eexists.
Qed.

(** *** Instances *)

Fixpoint root_exec (c : root_config) (l : list root_action) : option (root_config * list mpsc_event) :=
  match l with
  | [] => Some (c, [])
  | a :: l => '(c', ev) ← root_step c a; '(c'', evs) ← root_exec c' l; Some (c'', ev ++ evs)
  end.

Lemma root_exec_run n m c0 evs0 l c evs : root_run n m c0 evs0 -> root_exec c0 l = Some (c, evs) ->
  root_run n m c (evs0 ++ evs).
Proof.
  revert c0 evs0 evs. induction l as [|a l IH]; intros c0 evs0 evs Hr E; simpl in E.
  - injection E as <- <-. by rewrite app_nil_r.
  - destruct (root_step c0 a) as [[c1 ev]|] eqn:Es; [|done]. simpl in E.
    destruct (root_exec c1 l) as [[c2 evs2]|] eqn:Ee; [|done]. injection E as -> <-.
    rewrite app_assoc. eapply IH; [|done]. by econstructor.
Qed.

(** Worker 0 finds NULL and leaves the mediator; a producer overwrites it; worker 1 takes
    the list; worker 0 then clears the mediator that worker 1 left. *)
Definition root_race : list root_action :=
  [RDrain 0; RDrain 1; RRun 0 false; RPush 0 [1%nat; 2%nat]; RPushPrev 0; RRun 1 false; RRun 0 false].
Definition root_race_config : root_config := default (root_init 1 2) (fst <$> root_exec (root_init 1 2) root_race).
Definition root_race_done : root_config :=
  default (root_init 1 2) (fst <$> root_exec (root_init 1 2) (root_race ++ [RRun 1 false; RRun 1 false])).

Lemma root_race_run : root_run 1 2 root_race_config [EvPush [1%nat; 2%nat] true].
Proof. apply (root_exec_run 1 2 (root_init 1 2) [] root_race); [constructor|]. vm_compute. reflexivity. Qed.
Lemma root_race_done_run : root_run 1 2 root_race_done [EvPush [1%nat; 2%nat] true; EvPop 1 (Some 2%nat)].
Proof.
  apply (root_exec_run 1 2 (root_init 1 2) [] (root_race ++ [RRun 1 false; RRun 1 false])); [constructor|].
  vm_compute. reflexivity.
Qed.

Lemma root_list_fifo_witness :
  rc_consumers root_race_done = [DCheckTail; DReturn (Some 1%nat) true] /\
  spells (rq_list (rc_q root_race_done)) None [2%nat] = true.
Proof.
  destruct (root_list_fifo 1 2 root_race_done _ root_race_done_run) as (q & E & _ & _ & _ & Hq).
  vm_compute in E. injection E as <-. split; [vm_compute; reflexivity|].
  apply Hq; vm_compute; repeat constructor.
Defined.

Lemma root_list_progress_witness :
  dq_items_head (rc_q root_race_config) = HeadNull /\ mq_tail (rq_list (rc_q root_race_config)) = Some 2%nat /\
  exists k pc h, rc_consumers root_race_config !! k = Some pc /\ owned_node pc = Some h.
Proof.
  split; [vm_compute; reflexivity|]. split; [vm_compute; reflexivity|].
  destruct (root_list_progress 1 2 root_race_config _ root_race_run) as [H _].
  destruct H as [(a & H)|[(i & b & H)|(k & pc & h & H1 & H2 & _)]]; [vm_compute; discriminate| | |].
  - vm_compute in H. discriminate H.
  - destruct i as [|i]; vm_compute in H; discriminate H.
  - exists k, pc, h. split; [exact H1|exact H2].
Defined.
