(* ===== verification/RootPool.v ===== *)
(** * The thread pool of a root queue

    Models [_dispatch_root_queue_poke], [_dispatch_root_queue_poke_slow],
    [_dispatch_worker_thread] and the pool's part of [_dispatch_root_queue_drain] and of the
    contention loop of [src/queue.c], as built with the internal work queue.  The list is
    the number of its items, by the refinement of [RootList]; the thread mediator is a
    counting semaphore ([Semaphore]).  Every access of [dgq_pending],
    [dgq_thread_pool_size] and the semaphore is a step.  Threads that push, worker threads
    and the monitor all run the same code for a poke; created threads join the list of
    threads.  The two counters are unbounded integers: they count threads and requests. *)

From S2P Require Import Prelude Threads Semaphore RootList.

Record root_pool := {
  rp_items : Z;
  dgq_pending : Z;
  dgq_thread_pool_size : Z;
  dpq_thread_mediator : dispatch_semaphore_s;
}.

Definition set_items (rp : root_pool) v :=
  {| rp_items := v; dgq_pending := dgq_pending rp; dgq_thread_pool_size := dgq_thread_pool_size rp;
     dpq_thread_mediator := dpq_thread_mediator rp |}.
Definition set_pending (rp : root_pool) v :=
  {| rp_items := rp_items rp; dgq_pending := v; dgq_thread_pool_size := dgq_thread_pool_size rp;
     dpq_thread_mediator := dpq_thread_mediator rp |}.
Definition set_pool_size (rp : root_pool) v :=
  {| rp_items := rp_items rp; dgq_pending := dgq_pending rp; dgq_thread_pool_size := v;
     dpq_thread_mediator := dpq_thread_mediator rp |}.
Definition set_mediator (rp : root_pool) s :=
  {| rp_items := rp_items rp; dgq_pending := dgq_pending rp; dgq_thread_pool_size := dgq_thread_pool_size rp;
     dpq_thread_mediator := s |}.

(** Where a thread is inside a poke. *)
Inductive poke_pc :=
| PkProbe (n floor : Z)                       (* _dispatch_root_queue_poke *)
| PkSignal (remaining floor : Z)              (* _dispatch_root_queue_poke_slow *)
| PkSignalSlow (remaining floor : Z)
| PkPending (remaining floor : Z)
| PkLoad (remaining floor : Z)
| PkLoop (remaining floor t_count : Z)
| PkCas (remaining floor t_count : Z)
| PkCreate (remaining : Z).

(** What a step of a poke does next; [PokeThread] also creates a thread. *)
Inductive poke_next := PokeReturn | PokeGoto (p : poke_pc) | PokeThread (p : option poke_pc) | PokeCrash.

Definition _dispatch_root_queue_poke (rp : root_pool) (n floor : Z) : root_pool * poke_next :=
  if rp_items rp =? 0 then (rp, PokeReturn) else (rp, PokeGoto (PkSignal n floor)).

(** A worker was woken: one thread less to ask for. *)
Definition poke_woken (remaining floor : Z) : poke_next :=
  let remaining := remaining - 1 in
  if remaining =? 0 then PokeReturn else PokeGoto (PkSignal remaining floor).

(** [spurious] is a weak compare-and-swap that fails. *)
Definition _dispatch_root_queue_poke_slow (overcommit : bool) (rp : root_pool) (p : poke_pc) (spurious : bool)
    : root_pool * poke_next :=
  match p with
  | PkProbe n floor => _dispatch_root_queue_poke rp n floor
  | PkSignal remaining floor =>
      match dispatch_semaphore_signal (dpq_thread_mediator rp) with
      | Done (s, SSignalSlow, _) => (set_mediator rp s, PokeGoto (PkSignalSlow remaining floor))
      | Done (s, _, _) => (set_mediator rp s, PokeGoto (PkPending remaining floor))
      | Crash _ => (rp, PokeCrash)
      end
  | PkSignalSlow remaining floor =>
      let '(s, _, _) := _dispatch_semaphore_signal_slow (dpq_thread_mediator rp) in
      (set_mediator rp s, poke_woken remaining floor)
  | PkPending remaining floor =>
      if overcommit then (set_pending rp (dgq_pending rp + remaining), PokeGoto (PkLoad remaining floor))
      else if dgq_pending rp =? 0 then (set_pending rp remaining, PokeGoto (PkLoad remaining floor))
      else (rp, PokeReturn)
  | PkLoad remaining floor => (rp, PokeGoto (PkLoop remaining floor (dgq_thread_pool_size rp)))
  | PkLoop remaining floor t_count =>
      let can_request := if t_count <? floor then 0 else t_count - floor in
      let '(rp, remaining) :=
        if can_request <? remaining
        then (set_pending rp (dgq_pending rp - (remaining - can_request)), can_request)
        else (rp, remaining) in
      (rp, if remaining =? 0 then PokeReturn else PokeGoto (PkCas remaining floor t_count))
  | PkCas remaining floor t_count =>
      if negb spurious && (dgq_thread_pool_size rp =? t_count)
      then (set_pool_size rp (t_count - remaining), PokeGoto (PkCreate remaining))
      else (rp, PokeGoto (PkLoop remaining floor (dgq_thread_pool_size rp)))
  | PkCreate remaining =>
      let remaining := remaining - 1 in
      (rp, PokeThread (if remaining =? 0 then None else Some (PkCreate remaining)))
  end.

(** Where a thread goes on after a poke. *)
Inductive cont :=
| KIdle                        (* a client or the monitor *)
| KRun                         (* a worker with an item *)
| KHead                        (* a worker that found contention *)
| KGone.                       (* a worker that leaves *)

Inductive worker_pc :=
| CIdle
| WCreated                     (* pthread_create was called *)
| WDrain                       (* _dispatch_root_queue_drain *)
| WContend (pending : bool)    (* __DISPATCH_ROOT_QUEUE_CONTENDED_WAIT__ *)
| WContended (pending : bool) (status : drain_status)
| WRun                         (* inside an item *)
| WHead                        (* about to wait for the mediator *)
| WSema (s : sema_pc)          (* _dispatch_semaphore_wait_slow *)
| WExit
| WGone
| Poke (k : cont) (p : poke_pc).

Definition resume_at (k : cont) : worker_pc :=
  match k with KIdle => CIdle | KRun => WRun | KHead => WHead | KGone => WGone end.

(** The result of the mediator's semaphore. *)
Definition after_wait (pc : sema_pc) (r : sema_ret) : worker_pc :=
  match pc with
  | SIdle => match r with RTimeout => WExit | _ => WDrain end
  | pc => WSema pc
  end.

Record pool_config := {
  pc_pool : root_pool;
  pc_threads : list worker_pc;
  pc_signals : Z;               (* signals of the mediator so far *)
  pc_crashed : bool;
}.

Inductive pool_action :=
| PPush (n : Z)                 (* a client, or an item, pushes [n] items *)
| PMonitor (floor : Z)          (* the monitor asks for one thread *)
| PContend                      (* a worker meets contention on the list *)
| PDecide (status : drain_status)
| PRun (gave_up : bool).        (* the next access *)

(** [timeouts]: workers may give up waiting for the mediator. *)
Definition pool_step (overcommit timeouts : bool) (c : pool_config) (i : nat) (a : pool_action) : option pool_config :=
  pc ← pc_threads c !! i;
  let rp := pc_pool c in
  let goto rp pc signals := Some {| pc_pool := rp; pc_threads := <[i := pc]> (pc_threads c);
                                    pc_signals := signals; pc_crashed := pc_crashed c |} in
  let move rp pc := goto rp pc (pc_signals c) in
  let fail := Some {| pc_pool := rp; pc_threads := pc_threads c; pc_signals := pc_signals c; pc_crashed := true |} in
  let push n k :=
    if 0 <? n then
      move (set_items rp (rp_items rp + n)) (if rp_items rp =? 0 then Poke k (PkProbe n 0) else resume_at k)
    else None in
  match a, pc with
  | PPush n, CIdle => push n KIdle
  | PPush n, WRun => push n KRun
  | PMonitor floor, CIdle => if floor <=? 0 then move rp (Poke KIdle (PkProbe 1 floor)) else None
  | PContend, WDrain => move rp (WContend false)
  | PDecide st, WContend pending =>
      match st with
      | DRAIN_ABORT => if rp_items rp =? 0 then move rp (WContended pending st) else None
      | DRAIN_WAIT => if pending then move rp (WContended pending st) else None
      | DRAIN_READY => move rp (WContended pending st)
      end
  | PRun _, WCreated =>
      let pending := dgq_pending rp - 1 in
      if pending <? 0 then fail else move (set_pending rp pending) WDrain
  | PRun _, WDrain =>
      if rp_items rp =? 0 then move rp WHead
      else move (set_items rp (rp_items rp - 1)) (if rp_items rp - 1 =? 0 then WRun else Poke KRun (PkProbe 1 0))
  | PRun _, WContend false => move (set_pending rp (dgq_pending rp + 1)) (WContend true)
  | PRun _, WContended pending st =>
      move (if pending then set_pending rp (dgq_pending rp - 1) else rp)
        (match st with DRAIN_READY => WDrain | DRAIN_ABORT => WHead | DRAIN_WAIT => Poke KHead (PkProbe 1 0) end)
  | PRun _, WRun => move rp WDrain
  | PRun _, WHead =>
      let '(s, spc, r) := dispatch_semaphore_wait (dpq_thread_mediator rp) TIME_AT in
      move (set_mediator rp s) (after_wait spc r)
  | PRun g, WSema spc =>
      if g && negb timeouts && bool_decide (spc = SWaitSlow TIME_AT) then None else
      '(s, spc', r) ← _dispatch_semaphore_wait_slow (dpq_thread_mediator rp) spc g;
      move (set_mediator rp s) (after_wait spc' r)
  | PRun _, WExit => move (set_pool_size rp (dgq_thread_pool_size rp + 1)) (Poke KGone (PkProbe 1 0))
  | PRun g, Poke k p =>
      let signals := match p with PkSignal _ _ => pc_signals c + 1 | _ => pc_signals c end in
      match _dispatch_root_queue_poke_slow overcommit rp p g with
      | (rp, PokeReturn) => goto rp (resume_at k) signals
      | (rp, PokeGoto p) => goto rp (Poke k p) signals
      | (rp, PokeThread p) =>
          Some {| pc_pool := rp;
                  pc_threads := <[i := match p with Some p => Poke k p | None => resume_at k end]> (pc_threads c) ++ [WCreated];
                  pc_signals := signals; pc_crashed := pc_crashed c |}
      | (rp, PokeCrash) => fail
      end
  | _, _ => None
  end.

(** [n] client threads and an empty queue with at most [size] workers. *)
Definition pool_init (n : nat) (size : Z) : pool_config :=
  {| pc_pool := {| rp_items := 0; dgq_pending := 0; dgq_thread_pool_size := size;
                   dpq_thread_mediator := {| dsema_value := 0; dsema_orig := 0; dsema_sema := 0 |} |};
     pc_threads := replicate n CIdle; pc_signals := 0; pc_crashed := false |}.

Inductive pool_reach (overcommit timeouts : bool) (n : nat) (size : Z) : pool_config -> Prop :=
| por_init : pool_reach overcommit timeouts n size (pool_init n size)
| por_step c i a c' : pool_reach overcommit timeouts n size c -> pool_step overcommit timeouts c i a = Some c' ->
    pool_reach overcommit timeouts n size c'.

(** ** The invariant *)

(** What a thread counts for in the pool: itself and the threads it is about to create. *)
Definition in_pool (pc : worker_pc) : Z :=
  match pc with
  | CIdle | WGone => 0
  | Poke k p => (match k with KRun | KHead => 1 | _ => 0 end) + (match p with PkCreate r => r | _ => 0 end)
  | _ => 1
  end.
(** What it counts for in [dgq_pending]. *)
Definition in_pending (pc : worker_pc) : Z :=
  match pc with
  | WCreated => 1
  | WContend p | WContended p _ => if p then 1 else 0
  | Poke _ (PkLoad r _ | PkLoop r _ _ | PkCas r _ _ | PkCreate r) => r
  | _ => 0
  end.
Definition in_wait (pc : worker_pc) : Z := match pc with WSema _ => 1 | _ => 0 end.
Definition in_signal (pc : worker_pc) : Z := match pc with Poke _ (PkSignalSlow _ _) => 1 | _ => 0 end.

Definition poke_ok (p : poke_pc) : Prop :=
  match p with
  | PkProbe r f | PkSignal r f | PkSignalSlow r f | PkPending r f | PkLoad r f | PkLoop r f _ => 1 <= r /\ f <= 0
  | PkCas r f t => 1 <= r <= t - f /\ f <= 0
  | PkCreate r => 1 <= r
  end.

Definition wpc_ok (pc : worker_pc) : Prop :=
  match pc with
  | Poke _ p => poke_ok p
  | WSema s => waiting s = 1
  | WContended p DRAIN_WAIT => p = true
  | _ => True
  end.

Record pool_inv (size : Z) (c : pool_config) : Prop := {
  pi_tokens : dsema_sema (dpq_thread_mediator (pc_pool c)) + tally in_signal (pc_threads c) +
    Z.max 0 (- dsema_value (dpq_thread_mediator (pc_pool c))) = tally in_wait (pc_threads c);
  pi_kernel : 0 <= dsema_sema (dpq_thread_mediator (pc_pool c));
  pi_value : dsema_value (dpq_thread_mediator (pc_pool c)) + tally in_wait (pc_threads c) <= pc_signals c;
  pi_pending : dgq_pending (pc_pool c) = tally in_pending (pc_threads c);
  pi_size : dgq_thread_pool_size (pc_pool c) + tally in_pool (pc_threads c) = size;
  pi_items : 0 <= rp_items (pc_pool c);
  pi_pc : forall i pc, pc_threads c !! i = Some pc -> wpc_ok pc;
  pi_ok : pc_crashed c = false;
}.

(** The mediator is far from overflow. *)
Definition pool_bounded (c : pool_config) : Prop :=
  pc_signals c < 2 ^ 61 /\ Z.of_nat (length (pc_threads c)) < 2 ^ 61.

Lemma in_wait_range pc : 0 <= in_wait pc <= 1.
Proof. destruct pc; simpl; lia. Qed.
Lemma in_signal_range pc : 0 <= in_signal pc <= 1.
Proof. destruct pc as [| | | | | | | | | |k []]; simpl; lia. Qed.

Lemma mediator_range size c : pool_inv size c -> pool_bounded c ->
  - 2 ^ 61 < dsema_value (dpq_thread_mediator (pc_pool c)) < 2 ^ 61.
Proof.
  intros H [B1 B2]. pose proof (pi_tokens _ _ H). pose proof (pi_kernel _ _ H). pose proof (pi_value _ _ H).
  assert (0 <= tally in_signal (pc_threads c)) by (apply tally_nonneg; intros; apply in_signal_range).
  assert (0 <= tally in_wait (pc_threads c)) by (apply tally_nonneg; intros; apply in_wait_range).
  assert (tally in_wait (pc_threads c) <= Z.of_nat (length (pc_threads c))) by (apply tally_le; intros; apply in_wait_range). lia.
Qed.

Lemma in_pending_ok pc : wpc_ok pc -> 0 <= in_pending pc.
Proof. destruct pc as [| | |[]|[] []| | | | | |k []]; simpl; lia. Qed.
Lemma in_pool_ok pc : wpc_ok pc -> 0 <= in_pool pc.
Proof. destruct pc as [| | | | | | | | | |[] []]; simpl; lia. Qed.

Section move.
Context (size : Z) (c : pool_config) (H : pool_inv size c) (i : nat) (pc : worker_pc) (Hi : pc_threads c !! i = Some pc).

(** Preservation from the differences that the move of one thread makes. *)
Lemma pool_move rp pc' signals :
  wpc_ok pc' -> 0 <= rp_items rp -> 0 <= dsema_sema (dpq_thread_mediator rp) ->
  dsema_sema (dpq_thread_mediator rp) + (tally in_signal (pc_threads c) - in_signal pc + in_signal pc') +
    Z.max 0 (- dsema_value (dpq_thread_mediator rp)) = tally in_wait (pc_threads c) - in_wait pc + in_wait pc' ->
  dsema_value (dpq_thread_mediator rp) + (tally in_wait (pc_threads c) - in_wait pc + in_wait pc') <= signals ->
  dgq_pending rp = dgq_pending (pc_pool c) - in_pending pc + in_pending pc' ->
  dgq_thread_pool_size rp = dgq_thread_pool_size (pc_pool c) + in_pool pc - in_pool pc' ->
  pool_inv size {| pc_pool := rp; pc_threads := <[i := pc']> (pc_threads c); pc_signals := signals;
    pc_crashed := pc_crashed c |}.
Proof.
  intros Hok Hit Hk H1 H2 H3 H4. pose proof H as [I1 I2 I3 I4 I5 I6 I7 I8].
  constructor; simpl; rewrite ?(tally_insert _ _ _ _ _ Hi); try done; try lia.
  intros j q Hj. destruct (decide (i = j)) as [<-|Hij].
  - rewrite list_lookup_insert_eq in Hj by (by eapply lookup_lt_Some). by injection Hj as <-.
  - rewrite list_lookup_insert_ne in Hj by done. by apply (I7 j).
Qed.

(** The same when a thread is created. *)
Lemma pool_create pc' signals :
  wpc_ok pc' -> signals = pc_signals c -> in_signal pc' = in_signal pc -> in_wait pc' = in_wait pc ->
  in_pending pc' = in_pending pc - 1 -> in_pool pc' = in_pool pc - 1 ->
  pool_inv size {| pc_pool := pc_pool c; pc_threads := <[i := pc']> (pc_threads c) ++ [WCreated]; pc_signals := signals;
    pc_crashed := pc_crashed c |}.
Proof.
  intros Hok -> H1 H2 H3 H4. pose proof H as [I1 I2 I3 I4 I5 I6 I7 I8].
  constructor; simpl; rewrite ?tally_app, ?(tally_insert _ _ _ _ _ Hi); simpl; try done; try lia.
  intros j q. rewrite lookup_app. destruct (<[i := pc']> (pc_threads c) !! j) as [q'|] eqn:Ej.
  - intros [= <-]. destruct (decide (i = j)) as [<-|Hij].
    + rewrite list_lookup_insert_eq in Ej by (by eapply lookup_lt_Some). by injection Ej as <-.
    + rewrite list_lookup_insert_ne in Ej by done. by apply (I7 j).
  - intros [_ <-]%list_lookup_singleton_Some. done.
Qed.
End move.

(** ** The semaphore's operations, without wrap-around *)

Section mediator.
Context (s : dispatch_semaphore_s) (Hv : - 2 ^ 61 < dsema_value s < 2 ^ 61).

Lemma signal_small : exists r, dispatch_semaphore_signal s =
  Done (set_value s (dsema_value s + 1), if 0 <=? dsema_value s then SIdle else SSignalSlow, r).
Proof.
  unfold dispatch_semaphore_signal. rewrite swrap_small by lia. destruct (0 <=? dsema_value s) eqn:E.
  - rewrite decide_True by lia. by eexists.
  - rewrite decide_False, decide_False by (unfold LONG_MIN; lia). by eexists.
Qed.

Lemma wait_small : dispatch_semaphore_wait s TIME_AT =
  (set_value s (dsema_value s - 1), if 0 <? dsema_value s then SIdle else SWaitSlow TIME_AT,
   if 0 <? dsema_value s then RZero else RNone).
Proof.
  unfold dispatch_semaphore_wait. rewrite swrap_small by lia. destruct (0 <? dsema_value s) eqn:E.
  - by rewrite decide_True by lia.
  - by rewrite decide_False by lia.
Qed.

(** A step of a blocked wait goes on waiting, takes a token, or undoes the decrement of a
    wait that timed out. *)
Lemma wait_slow_small spc g s' spc' r : waiting spc = 1 ->
  _dispatch_semaphore_wait_slow s spc g = Some (s', spc', r) ->
  (s' = s /\ waiting spc' = 1 /\ after_wait spc' r = WSema spc') \/
  (0 < dsema_sema s /\ s' = set_sema s (dsema_sema s - 1) /\ after_wait spc' r = WDrain) \/
  (dsema_value s < 0 /\ s' = set_value s (dsema_value s + 1) /\ after_wait spc' r = WExit).
Proof.
  intros Hw E. destruct spc as [| |[]|orig|]; try done; simpl in E.
  - injection E as <- <- <-. by left.
  - injection E as <- <- <-. by left.
  - destruct g; [injection E as <- <- <-; by left|]. case_decide; [|done]. injection E as <- <- <-. right. by left.
  - case_decide as Ho; [|injection E as <- <- <-; by left]. destruct (negb g && bool_decide (dsema_value s = orig)) eqn:Eb.
    + apply andb_true_iff in Eb as [_ Eb%bool_decide_eq_true]. injection E as <- <- <-. right. right.
      rewrite swrap_small by lia. rewrite Eb. split_and!; [lia|done|done].
    + injection E as <- <- <-. by left.
  - case_decide; [|done]. injection E as <- <- <-. right. by left.
Qed.
End mediator.

Ltac pool_facts H Hi :=
  pose proof (pi_tokens _ _ H) as I1; pose proof (pi_kernel _ _ H) as I2; pose proof (pi_value _ _ H) as I3;
  pose proof (pi_items _ _ H) as I6; pose proof (pi_pc _ _ H _ _ Hi) as Hok.

Ltac pool_goto H Hi := eapply (pool_move _ _ H _ _ Hi); simpl in *; try done; try lia.

Lemma poke_step_inv size c overcommit i k p g : pool_inv size c -> pool_bounded c -> pc_threads c !! i = Some (Poke k p) ->
  match _dispatch_root_queue_poke_slow overcommit (pc_pool c) p g with
  | (rp, PokeReturn) => pool_inv size {| pc_pool := rp; pc_threads := <[i := resume_at k]> (pc_threads c);
      pc_signals := (match p with PkSignal _ _ => pc_signals c + 1 | _ => pc_signals c end); pc_crashed := pc_crashed c |}
  | (rp, PokeGoto p') => pool_inv size {| pc_pool := rp; pc_threads := <[i := Poke k p']> (pc_threads c);
      pc_signals := (match p with PkSignal _ _ => pc_signals c + 1 | _ => pc_signals c end); pc_crashed := pc_crashed c |}
  | (rp, PokeThread p') => pool_inv size {| pc_pool := rp;
      pc_threads := <[i := match p' with Some p => Poke k p | None => resume_at k end]> (pc_threads c) ++ [WCreated];
      pc_signals := pc_signals c; pc_crashed := pc_crashed c |}
  | (rp, PokeCrash) => False
  end.
Proof.
  intros H B Hi. pose proof (mediator_range _ _ H B) as Hv. pool_facts H Hi. simpl in Hok.
  assert (in_wait (resume_at k) = 0 /\ in_signal (resume_at k) = 0 /\ in_pending (resume_at k) = 0 /\
    in_pool (resume_at k) = (match k with KRun | KHead => 1 | _ => 0 end) /\ wpc_ok (resume_at k))
    as (R1 & R2 & R3 & R4 & R5) by (by destruct k).
  destruct p as [n f|r f|r f|r f|r f|r f t|r f t|r]; cbn [_dispatch_root_queue_poke_slow].
  - unfold _dispatch_root_queue_poke. destruct (rp_items (pc_pool c) =? 0); pool_goto H Hi.
  - destruct (signal_small _ Hv) as [x ->]. destruct (0 <=? dsema_value (dpq_thread_mediator (pc_pool c))) eqn:E; pool_goto H Hi.
  - unfold poke_woken. simpl. destruct (r - 1 =? 0) eqn:E; pool_goto H Hi.
  - destruct overcommit; [pool_goto H Hi|]. destruct (dgq_pending (pc_pool c) =? 0) eqn:E; pool_goto H Hi.
  - pool_goto H Hi.
  - set (can := if t <? f then 0 else t - f). assert (0 <= can /\ (0 < can -> can = t - f)) as [Hc1 Hc2]
      by (unfold can; destruct (t <? f) eqn:E; lia). clearbody can.
    destruct (can <? r) eqn:Er.
    + destruct (can =? 0) eqn:E0; pool_goto H Hi.
    + destruct (r =? 0) eqn:E0; pool_goto H Hi.
  - destruct (negb g && (dgq_thread_pool_size (pc_pool c) =? t)) eqn:E; pool_goto H Hi.
  - destruct (r - 1 =? 0) eqn:E; eapply (pool_create _ _ H _ _ Hi); simpl in *; try done; try lia; by destruct k.
Qed.

Lemma pool_step_inv size overcommit timeouts c i a c' : pool_inv size c -> pool_bounded c ->
  pool_step overcommit timeouts c i a = Some c' -> pool_inv size c'.
Proof.
  intros H B E. unfold pool_step in E. destruct (pc_threads c !! i) as [pc|] eqn:Hi; [|done].
  pose proof (mediator_range _ _ H B) as Hv. pool_facts H Hi. cbn [mbind option_bind] in E.
  destruct pc as [| | |p|p st| | |spc| | |k p], a as [n|f| |st'|g]; try done.
  - destruct (0 <? n) eqn:En; [|done]. injection E as <-. destruct (rp_items (pc_pool c) =? 0); pool_goto H Hi.
  - destruct (f <=? 0) eqn:Ef; [|done]. injection E as <-. pool_goto H Hi.
  - assert (in_pending WCreated <= tally in_pending (pc_threads c)) as Hp.
    { apply (tally_ge_in _ _ i); [|done]. intros j q Hj. apply in_pending_ok, (pi_pc _ _ H j q Hj). }
    rewrite (pi_pending _ _ H) in E. simpl in Hp. destruct (tally in_pending (pc_threads c) - 1 <? 0) eqn:En; [lia|].
    injection E as <-. rewrite <- (pi_pending _ _ H). pool_goto H Hi.
  - injection E as <-. pool_goto H Hi.
  - destruct (rp_items (pc_pool c) =? 0) eqn:E0; injection E as <-; [pool_goto H Hi|].
    destruct (rp_items (pc_pool c) - 1 =? 0); pool_goto H Hi.
  - destruct st'.
    + destruct p; [|done]. injection E as <-. pool_goto H Hi.
    + injection E as <-. pool_goto H Hi.
    + destruct (rp_items (pc_pool c) =? 0); [|done]. injection E as <-. pool_goto H Hi.
  - destruct p; [done|]. injection E as <-. pool_goto H Hi.
  - injection E as <-. destruct p, st; pool_goto H Hi.
  - destruct (0 <? n) eqn:En; [|done]. injection E as <-. destruct (rp_items (pc_pool c) =? 0); pool_goto H Hi.
  - injection E as <-. pool_goto H Hi.
  - rewrite (wait_small _ Hv) in E. injection E as <-. destruct (0 <? dsema_value (dpq_thread_mediator (pc_pool c))) eqn:E0; pool_goto H Hi.
  - destruct (g && negb timeouts && bool_decide (spc = SWaitSlow TIME_AT)); [done|].
    destruct (_dispatch_semaphore_wait_slow (dpq_thread_mediator (pc_pool c)) spc g) as [[[s' spc'] r]|] eqn:Es; [|done].
    injection E as <-. destruct (wait_slow_small _ Hv _ _ _ _ _ Hok Es) as [(-> & Hw & ->)|[(Ht & -> & ->)|(Ht & -> & ->)]]; pool_goto H Hi.
  - injection E as <-. pool_goto H Hi.
  - pose proof (poke_step_inv size c overcommit i k p g H B Hi) as Hp.
    destruct (_dispatch_root_queue_poke_slow overcommit (pc_pool c) p g) as [rp [|p'|p'|]] eqn:Ep; [..|done]; injection E as <-; try done.
    replace (match p with PkSignal _ _ => pc_signals c + 1 | _ => pc_signals c end) with (pc_signals c); [done|].
    destruct p; try done. cbn [_dispatch_root_queue_poke_slow] in Ep. destruct (signal_small _ Hv) as [x Hx]. rewrite Hx in Ep.
    by destruct (0 <=? dsema_value (dpq_thread_mediator (pc_pool c))).
Qed.

(** The bound is on the end of a run, the counts only grow. *)
Lemma pool_step_grows overcommit timeouts c i a c' : pool_step overcommit timeouts c i a = Some c' ->
  pc_signals c <= pc_signals c' /\ (length (pc_threads c) <= length (pc_threads c'))%nat.
Proof.
  unfold pool_step. destruct (pc_threads c !! i) as [pc|]; [|done]. cbn [mbind option_bind]. intros E.
  assert (forall p, pc_signals c <= match p with PkSignal _ _ => pc_signals c + 1 | _ => pc_signals c end) as Hs
    by (intros []; lia).
  destruct pc, a; try done; try (destruct (_dispatch_semaphore_wait_slow _ _ _) as [[[? ?] ?]|]; [|by destruct (_ && _)]);
  repeat (case_match; simplify_eq/=; try done); simplify_eq/=; rewrite ?length_app, ?length_insert; try (split; [lia|lia]); split; try lia; apply Hs.
Qed.

Lemma pool_reach_inv overcommit timeouts n size c : pool_reach overcommit timeouts n size c -> pool_bounded c ->
  pool_inv size c.
Proof.
  induction 1 as [|c i a c' _ IH E]; intros B.
  - constructor; simpl; rewrite ?tally_repeat; simpl; try done; try lia. intros i pc [-> _]%lookup_replicate. done.
  - destruct (pool_step_grows _ _ _ _ _ _ E) as [G1 G2]. destruct B as [B1 B2].
    eapply pool_step_inv; [apply IH| |exact E]; split; lia.
Qed.

(** ** No work is lost

    Who sees to the items in the queue.  A strong thread drains the queue, or asks for a
    worker from the start, or is about to create one.  A fresh poke has signalled the
    mediator and will load the size of the pool or has found room in it; a stale one has
    found the pool full.  A heading worker is about to wait for the mediator. *)

Definition strong (pc : worker_pc) : Z :=
  match pc with
  | WCreated | WDrain | WContend _ | WRun | WExit => 1
  | WContended _ st => match st with DRAIN_ABORT => 0 | _ => 1 end
  | Poke KRun _ => 1
  | Poke _ (PkProbe _ _ | PkSignal _ _ | PkCreate _) => 1
  | _ => 0
  end.
Definition heading (pc : worker_pc) : Z :=
  match pc with WHead | WContended _ DRAIN_ABORT | Poke KHead _ => 1 | _ => 0 end.
Definition fresh (pc : worker_pc) : Z :=
  match pc with
  | Poke _ (PkPending _ _ | PkLoad _ _) => 1
  | Poke _ (PkLoop _ f t | PkCas _ f t) => if f <? t then 1 else 0
  | _ => 0
  end.

Definition agents (c : pool_config) : Prop :=
  0 < rp_items (pc_pool c) ->
  0 < tally strong (pc_threads c) \/
  0 < dsema_sema (dpq_thread_mediator (pc_pool c)) + tally in_signal (pc_threads c) \/
  (0 < dsema_value (dpq_thread_mediator (pc_pool c)) /\ 0 < tally heading (pc_threads c) + tally fresh (pc_threads c)).

(** Without time-outs the pool only shrinks, so that a stale count stays an upper bound. *)
Definition calm (size_now : Z) (pc : worker_pc) : Prop :=
  match pc with
  | WExit | Poke KGone _ => False
  | WSema s => s = SWaitSlow TIME_AT
  | Poke _ (PkLoop _ _ t | PkCas _ _ t) => size_now <= t
  | _ => True
  end.
Definition all_calm (c : pool_config) : Prop :=
  forall i pc, pc_threads c !! i = Some pc -> calm (dgq_thread_pool_size (pc_pool c)) pc.

Lemma strong_range pc : 0 <= strong pc <= 1.
Proof. destruct pc as [| | | |p []| | | | | |[] []]; simpl; lia. Qed.
Lemma heading_range pc : 0 <= heading pc <= 1.
Proof. destruct pc as [| | | |p []| | | | | |[] []]; simpl; lia. Qed.
Lemma fresh_range pc : 0 <= fresh pc <= 1.
Proof. destruct pc as [| | | | | | | | | |k []]; simpl; try lia; destruct (_ <? _); lia. Qed.

Section agents.
Context (size : Z) (Hsize : 1 <= size) (c : pool_config) (H : pool_inv size c).

(** While the mediator has a permit and the pool is exhausted some worker is awake. *)
Lemma live_agent : 0 < dsema_value (dpq_thread_mediator (pc_pool c)) -> dgq_thread_pool_size (pc_pool c) <= 0 ->
  0 < tally strong (pc_threads c) \/
  0 < dsema_sema (dpq_thread_mediator (pc_pool c)) + tally in_signal (pc_threads c) \/
  0 < tally heading (pc_threads c).
Proof.
  intros Hv Hs. pose proof (pi_size _ _ H) as I5. pose proof (pi_tokens _ _ H) as I1.
  destruct (tally_some_pos in_pool (pc_threads c)) as (j & pc & Hj & Hp); [lia|].
  assert (0 < strong pc \/ 0 < in_wait pc \/ 0 < heading pc) as [Hs'|[Hw|Hh]].
  { destruct pc as [| | | |p []| | | | | |[] []]; simpl in *; lia. }
  - left. pose proof (tally_ge strong _ j pc ltac:(intros; apply strong_range) Hj). lia.
  - right. left. pose proof (tally_ge in_wait _ j pc ltac:(intros; apply in_wait_range) Hj). lia.
  - right. right. pose proof (tally_ge heading _ j pc ltac:(intros; apply heading_range) Hj). lia.
Qed.

Context (i : nat) (pc : worker_pc) (Hi : pc_threads c !! i = Some pc).

Lemma agent_facts : strong pc <= tally strong (pc_threads c) /\ heading pc <= tally heading (pc_threads c) /\
  fresh pc <= tally fresh (pc_threads c) /\ in_signal pc <= tally in_signal (pc_threads c) /\
  0 <= tally strong (pc_threads c) /\ 0 <= tally heading (pc_threads c) /\ 0 <= tally fresh (pc_threads c) /\
  0 <= tally in_signal (pc_threads c).
Proof using Hi.
  split_and!; try (apply (tally_ge _ _ i); [|done]); try apply tally_nonneg; intros;
    first [apply strong_range|apply heading_range|apply fresh_range|apply in_signal_range].
Qed.

(** The move to a strong program counter, and the move that keeps the agents. *)
Lemma agents_strong rp pc' signals : 0 < strong pc' ->
  agents {| pc_pool := rp; pc_threads := <[i := pc']> (pc_threads c); pc_signals := signals; pc_crashed := pc_crashed c |}.
Proof using Hi.
  intros Hs _. left. simpl. rewrite (tally_insert _ _ _ _ _ Hi). pose proof agent_facts. lia.
Qed.

Lemma agents_keep rp pc' signals : agents c ->
  (0 < rp_items rp -> 0 < rp_items (pc_pool c)) -> strong pc' = strong pc ->
  dsema_sema (dpq_thread_mediator rp) + in_signal pc' >= dsema_sema (dpq_thread_mediator (pc_pool c)) + in_signal pc ->
  (0 < dsema_value (dpq_thread_mediator (pc_pool c)) -> 0 < dsema_value (dpq_thread_mediator rp) /\
    heading pc' + fresh pc' = heading pc + fresh pc) ->
  agents {| pc_pool := rp; pc_threads := <[i := pc']> (pc_threads c); pc_signals := signals; pc_crashed := pc_crashed c |}.
Proof using Hi.
  intros A Hit Hs Ht Hv Hpos. specialize (A (Hit Hpos)). simpl. rewrite !(tally_insert _ _ _ _ _ Hi).
  destruct A as [A|[A|[A1 A2]]]; [left; lia|right; left; lia|]. destruct (Hv A1). right. right. lia.
Qed.

(** A fresh poke becomes stale or returns: somebody else is there. *)
Lemma agents_stale rp pc' signals : agents c -> rp_items rp = rp_items (pc_pool c) ->
  dpq_thread_mediator rp = dpq_thread_mediator (pc_pool c) -> strong pc' = strong pc -> heading pc' = heading pc ->
  in_signal pc' = in_signal pc ->
  (0 < dsema_value (dpq_thread_mediator (pc_pool c)) ->
    0 < tally strong (pc_threads c) \/
    0 < dsema_sema (dpq_thread_mediator (pc_pool c)) + tally in_signal (pc_threads c) \/
    0 < tally heading (pc_threads c) \/ 0 < tally fresh (pc_threads c) - fresh pc + fresh pc') ->
  agents {| pc_pool := rp; pc_threads := <[i := pc']> (pc_threads c); pc_signals := signals; pc_crashed := pc_crashed c |}.
Proof using Hi.
  intros A Hit Hm Hs Hh Hg Hv Hpos. simpl in Hpos. rewrite Hit in Hpos. specialize (A Hpos). simpl.
  rewrite !(tally_insert _ _ _ _ _ Hi), Hm. pose proof agent_facts. pose proof (fresh_range pc').
  destruct A as [A|[A|[A1 A2]]]; [left; lia|right; left; lia|].
  destruct (Hv A1) as [?|[?|[?|?]]]; [left; lia|right; left; lia|right; right; split; [done|lia]..].
Qed.
End agents.

(** The holder of a pending request is an agent, or a poke that found the pool full. *)
Lemma pending_agent size c i k r f : 1 <= size -> pool_inv size c -> all_calm c ->
  pc_threads c !! i = Some (Poke k (PkPending r f)) -> dgq_pending (pc_pool c) <> 0 ->
  0 < dsema_value (dpq_thread_mediator (pc_pool c)) ->
  0 < tally strong (pc_threads c) \/
  0 < dsema_sema (dpq_thread_mediator (pc_pool c)) + tally in_signal (pc_threads c) \/
  0 < tally heading (pc_threads c) \/ 0 < tally fresh (pc_threads c) - 1.
Proof.
  intros Hs H Hcalm Hi Hp Hv. rewrite (pi_pending _ _ H) in Hp.
  assert (0 <= tally in_pending (pc_threads c)) as Hnn.
  { apply tally_nonneg_in. intros j q Hj. apply in_pending_ok, (pi_pc _ _ H j q Hj). }
  destruct (tally_some_pos in_pending (pc_threads c)) as (j & q & Hj & Hq); [lia|].
  assert (i <> j) as Hij by (intros ->; rewrite Hi in Hj; injection Hj as <-; simpl in Hq; lia).
  pose proof (pi_pc _ _ H j q Hj) as Hok. pose proof (Hcalm j q Hj) as Hcj.
  assert (0 < strong q -> 0 < tally strong (pc_threads c)) as Hst
    by (pose proof (tally_ge strong _ j q ltac:(intros; apply strong_range) Hj); lia).
  assert (0 < heading q -> 0 < tally heading (pc_threads c)) as Hhd
    by (pose proof (tally_ge heading _ j q ltac:(intros; apply heading_range) Hj); lia).
  assert (0 < fresh q -> 0 < tally fresh (pc_threads c) - 1) as Hfr.
  { pose proof (tally_ge_two fresh _ i j _ q ltac:(intros; apply fresh_range) Hij Hi Hj). simpl in *. lia. }
  assert (forall t, dgq_thread_pool_size (pc_pool c) <= t -> t <= 0 -> 0 < tally strong (pc_threads c) \/
    0 < dsema_sema (dpq_thread_mediator (pc_pool c)) + tally in_signal (pc_threads c) \/ 0 < tally heading (pc_threads c)) as Hlive.
  { intros t Ht1 Ht2. apply (live_agent size Hs c H Hv). lia. }
  destruct q as [| |x|x|x []| | | | | |kq p]; simpl in Hq; try lia; try (left; apply Hst; simpl; lia).
  - right. right. left. apply Hhd. simpl. lia.
  - destruct p as [| | | |r' f'|r' f' t|r' f' t|r']; simpl in Hq; try lia.
    + right. right. right. apply Hfr. simpl. lia.
    + simpl in Hok. destruct (f' <? t) eqn:Et; [right; right; right; apply Hfr; simpl; rewrite Et; lia|].
      assert (dgq_thread_pool_size (pc_pool c) <= t) as Hle by (by destruct kq). destruct (Hlive t Hle) as [?|[?|?]]; [lia|auto..].
    + right. right. right. apply Hfr. simpl in *. destruct (f' <? t) eqn:Et; lia.
    + left. apply Hst. by destruct kq.
Qed.

Definition good_mode (overcommit timeouts : bool) (c : pool_config) : Prop :=
  overcommit = true \/ (timeouts = false /\ all_calm c).

Ltac agents_by_keep k Hi := eapply (agents_keep _ _ _ Hi); try done; try (by destruct k); try (simpl; lia).

Lemma poke_step_agents size c overcommit timeouts i k p g : 1 <= size -> pool_inv size c -> pool_bounded c ->
  good_mode overcommit timeouts c -> agents c -> pc_threads c !! i = Some (Poke k p) ->
  forall signals,
  match _dispatch_root_queue_poke_slow overcommit (pc_pool c) p g with
  | (rp, PokeReturn) => agents {| pc_pool := rp; pc_threads := <[i := resume_at k]> (pc_threads c);
      pc_signals := signals; pc_crashed := pc_crashed c |}
  | (rp, PokeGoto p') => agents {| pc_pool := rp; pc_threads := <[i := Poke k p']> (pc_threads c);
      pc_signals := signals; pc_crashed := pc_crashed c |}
  | (rp, PokeThread p') => agents {| pc_pool := rp;
      pc_threads := <[i := match p' with Some p => Poke k p | None => resume_at k end]> (pc_threads c) ++ [WCreated];
      pc_signals := signals; pc_crashed := pc_crashed c |}
  | (rp, PokeCrash) => True
  end.
Proof.
  intros Hs H B Hmode A Hi signals. pose proof (mediator_range _ _ H B) as Hv.
  pose proof (agent_facts c i _ Hi) as F. pose proof (pi_pc _ _ H _ _ Hi) as Hok. simpl in Hok.
  pose proof (pi_kernel _ _ H) as Hkn.
  assert (heading (resume_at k) = (match k with KHead => 1 | _ => 0 end) /\ fresh (resume_at k) = 0 /\
    in_signal (resume_at k) = 0 /\ strong (resume_at k) = (match k with KRun => 1 | _ => 0 end))
    as (R1 & R2 & R3 & R4) by (by destruct k).
  assert (forall x : poke_pc, heading (Poke k x) = match k with KHead => 1 | _ => 0 end) as Hhd by (by destruct k).
  (* the thread goes stale with the current size *)
  assert (forall rp r f, p = PkLoad r f \/ (exists t, p = PkCas r f t) -> rp = pc_pool c ->
    agents {| pc_pool := rp; pc_threads := <[i := Poke k (PkLoop r f (dgq_thread_pool_size (pc_pool c)))]> (pc_threads c);
      pc_signals := signals; pc_crashed := pc_crashed c |}) as Hload.
  { intros rp r f Hp ->. assert (f <= 0) as Hf by (destruct Hp as [->|(t & ->)]; simpl in Hok; lia).
    assert (fresh (Poke k p) = 1) as Hfp by (destruct Hp as [->|(t & ->)]; simpl in *; [done|]; destruct (f <? t) eqn:E; lia).
    assert (strong (Poke k p) = strong (Poke k (PkLoop r f (dgq_thread_pool_size (pc_pool c)))) /\ in_signal (Poke k p) = 0) as [Hst Hsg]
      by (destruct Hp as [->|(t & ->)]; by destruct k).
    eapply agents_stale; try done; try (by rewrite !Hhd). intros Hval.
    rewrite Hfp. simpl. destruct (f <? dgq_thread_pool_size (pc_pool c)) eqn:Ef; [right; right; right; lia|].
    destruct (live_agent size Hs c H Hval) as [?|[?|?]]; [lia|auto..]. }
  destruct p as [n f|r f|r f|r f|r f|r f t|r f t|r]; cbn [_dispatch_root_queue_poke_slow].
  - unfold _dispatch_root_queue_poke. destruct (rp_items (pc_pool c) =? 0) eqn:E0.
    + intros Hpos. simpl in Hpos. lia.
    + eapply agents_strong; try done; by destruct k.
  - destruct (signal_small _ Hv) as [x ->]. destruct (0 <=? dsema_value (dpq_thread_mediator (pc_pool c))) eqn:E; intros _; simpl.
    + right. right. rewrite !(tally_insert _ _ _ _ _ Hi). pose proof (heading_range (Poke k (PkPending r f))).
      pose proof (fresh_range (Poke k (PkSignal r f))). simpl in *. split; [lia|]. lia.
    + right. left. rewrite !(tally_insert _ _ _ _ _ Hi). simpl in *. lia.
  - unfold poke_woken. simpl. destruct (r - 1 =? 0) eqn:E; intros _; right; left; simpl; rewrite !(tally_insert _ _ _ _ _ Hi); simpl in *;
      rewrite ?R3; lia.
  - destruct overcommit; [|destruct (dgq_pending (pc_pool c) =? 0) eqn:E].
    + agents_by_keep k Hi.
    + agents_by_keep k Hi.
    + destruct Hmode as [|[_ Hcalm]]; [done|]. eapply agents_stale; try done; try (by destruct k).
      intros Hval. rewrite R2. simpl fresh. pose proof (pending_agent size c i k r f Hs H Hcalm Hi ltac:(lia) Hval). lia.
  - apply Hload; [by left|done].
  - assert (forall b, fresh (Poke k (PkLoop r f t)) = b -> b = if f <? t then 1 else 0) as Hfr by (by intros b <-).
    destruct ((if t <? f then 0 else t - f) <? r) eqn:Er.
    + destruct ((if t <? f then 0 else t - f) =? 0) eqn:E0.
      * agents_by_keep k Hi. intros Hval. split; [done|].
        rewrite R1, R2, Hhd. simpl. destruct (t <? f) eqn:E1, (f <? t) eqn:E2; lia.
      * agents_by_keep k Hi.
    + destruct (r =? 0) eqn:E0; [simpl in Hok; lia|].
      agents_by_keep k Hi.
  - destruct (negb g && (dgq_thread_pool_size (pc_pool c) =? t)) eqn:E.
    + eapply agents_strong; try done; by destruct k.
    + apply Hload; [right; by eexists|done].
  - intros _. left. simpl. rewrite tally_app, (tally_insert _ _ _ _ _ Hi). simpl.
    match goal with |- context [strong ?q] => pose proof (strong_range q) end. simpl in *. lia.
Qed.

Lemma poke_step_calm c overcommit k p g size : pool_inv size c -> pool_bounded c -> poke_ok p ->
  calm (dgq_thread_pool_size (pc_pool c)) (Poke k p) ->
  match _dispatch_root_queue_poke_slow overcommit (pc_pool c) p g with
  | (rp, r) => dgq_thread_pool_size rp <= dgq_thread_pool_size (pc_pool c) /\
      match r with
      | PokeReturn => calm (dgq_thread_pool_size rp) (resume_at k)
      | PokeGoto p' => calm (dgq_thread_pool_size rp) (Poke k p')
      | PokeThread p' => calm (dgq_thread_pool_size rp) (match p' with Some p' => Poke k p' | None => resume_at k end)
      | PokeCrash => True
      end
  end.
Proof.
  intros H B Hok Hc. pose proof (mediator_range _ _ H B) as Hv.
  assert (forall z, calm z (resume_at k)) as Hr by (by destruct k).
  assert (k <> KGone) as Hk by (by intros ->).
  destruct p as [n f|r f|r f|r f|r f|r f t|r f t|r]; cbn [_dispatch_root_queue_poke_slow].
  - unfold _dispatch_root_queue_poke. destruct (_ =? 0); (split; [simpl; lia|]); [done|by destruct k].
  - destruct (signal_small _ Hv) as [x ->]. destruct (0 <=? _); (split; [simpl; lia|]); by destruct k.
  - unfold poke_woken. simpl. destruct (_ =? 0); (split; [simpl; lia|]); by destruct k.
  - destruct overcommit; [|destruct (_ =? 0)]; (split; [simpl; lia|]); by destruct k.
  - split; [simpl; lia|]. destruct k; simpl; try done; lia.
  - destruct (_ <? r); destruct (_ =? 0); (split; [simpl; lia|]); destruct k; simpl in *; try done; lia.
  - destruct (negb g && (dgq_thread_pool_size (pc_pool c) =? t)) eqn:E; simpl in *; (split; [lia|]); destruct k; try done; lia.
  - destruct (_ =? 0); (split; [simpl; lia|]); by destruct k.
Qed.

(** Without time-outs no worker leaves and every stale count is an upper bound. *)
Lemma pool_step_calm overcommit c i a c' size : pool_inv size c -> pool_bounded c -> all_calm c ->
  pool_step overcommit false c i a = Some c' -> all_calm c'.
Proof.
  intros H B Hc E. pose proof (mediator_range _ _ H B) as Hv. unfold pool_step in E. destruct (pc_threads c !! i) as [pc|] eqn:Hi; [|done].
  assert (forall rp pc' signals, dgq_thread_pool_size rp <= dgq_thread_pool_size (pc_pool c) -> calm (dgq_thread_pool_size rp) pc' ->
    all_calm {| pc_pool := rp; pc_threads := <[i := pc']> (pc_threads c); pc_signals := signals; pc_crashed := pc_crashed c |}) as Hmove.
  { intros rp pc' signals Hle Hc' j q Hj. simpl in *. destruct (decide (i = j)) as [<-|Hij].
    - rewrite list_lookup_insert_eq in Hj by (by eapply lookup_lt_Some). by injection Hj as <-.
    - rewrite list_lookup_insert_ne in Hj by done. pose proof (Hc j q Hj) as Hq.
      destruct q as [| | | | | | | | | |[] []]; simpl in *; try done; lia. }
  pose proof (pi_pc _ _ H _ _ Hi) as Hok. pose proof (Hc i pc Hi) as Hcpc. cbn [mbind option_bind] in E.
  destruct pc as [| | |p|p st| | |spc| | |k p], a as [n|f| |st'|g]; try done.
  - destruct (0 <? n); [|done]. injection E as <-. apply Hmove; [simpl; lia|]. by destruct (rp_items _ =? 0).
  - destruct (f <=? 0); [|done]. injection E as <-. by apply Hmove.
  - destruct (_ <? 0); injection E as <-; [|by apply Hmove]. exact Hc.
  - injection E as <-. by apply Hmove.
  - destruct (rp_items _ =? 0); injection E as <-; [by apply Hmove|]. apply Hmove; [simpl; lia|]. by destruct (_ =? 0).
  - destruct st'; repeat case_match; try done; injection E as <-; by apply Hmove.
  - destruct p; [done|]. injection E as <-. by apply Hmove.
  - injection E as <-. apply Hmove; [destruct p; simpl; lia|]. by destruct st.
  - destruct (0 <? n); [|done]. injection E as <-. apply Hmove; [simpl; lia|]. by destruct (rp_items _ =? 0).
  - injection E as <-. by apply Hmove.
  - rewrite (wait_small _ Hv) in E. injection E as <-. apply Hmove; [simpl; lia|]. by destruct (0 <? _).
  - simpl in Hcpc. subst spc. destruct g; [done|]. simpl in E. case_decide; [|done]. injection E as <-. by apply Hmove.
  - pose proof (poke_step_calm c overcommit k p g size H B Hok Hcpc) as Hp.
    destruct (_dispatch_root_queue_poke_slow overcommit (pc_pool c) p g) as [rp [|p'|p'|]]; injection E as <-;
      destruct Hp as [Hle Hp]; try (by apply Hmove); [|exact Hc].
    intros j q. simpl. rewrite lookup_app_Some. intros [Hj|[_ [_ <-]%list_lookup_singleton_Some]]; [|done].
    by apply (Hmove rp _ 0 Hle Hp j q).
Qed.

(** A push: the item that makes the queue non-empty comes with a poke. *)
Lemma push_agents c i pc k n : agents c -> pc_threads c !! i = Some pc -> pc = resume_at k -> 0 <= rp_items (pc_pool c) ->
  agents {| pc_pool := set_items (pc_pool c) (rp_items (pc_pool c) + n);
    pc_threads := <[i := if rp_items (pc_pool c) =? 0 then Poke k (PkProbe n 0) else resume_at k]> (pc_threads c);
    pc_signals := pc_signals c; pc_crashed := pc_crashed c |}.
Proof.
  intros A Hi -> H0. destruct (rp_items (pc_pool c) =? 0) eqn:E0.
  - apply (agents_strong c i _ Hi). by destruct k.
  - apply (agents_keep c i _ Hi); simpl; try done; lia.
Qed.

Lemma pool_step_agents size overcommit timeouts c i a c' : 1 <= size -> pool_inv size c -> pool_bounded c ->
  good_mode overcommit timeouts c -> agents c -> pool_step overcommit timeouts c i a = Some c' -> agents c'.
Proof.
  intros Hs H B Hmode A E. pose proof (mediator_range _ _ H B) as Hv. unfold pool_step in E.
  destruct (pc_threads c !! i) as [pc|] eqn:Hi; [|done]. pose proof (agent_facts c i pc Hi) as F.
  pool_facts H Hi. cbn [mbind option_bind] in E.
  destruct pc as [| | |p|p st| | |spc| | |k p], a as [n|f| |st'|g]; try done.
  - destruct (0 <? n) eqn:En; [|done]. injection E as <-. by apply (push_agents c i CIdle KIdle).
  - destruct (f <=? 0); [|done]. injection E as <-. by apply (agents_strong c i _ Hi).
  - destruct (_ <? 0); injection E as <-; [exact A|]. by apply (agents_strong c i _ Hi).
  - injection E as <-. by apply (agents_strong c i _ Hi).
  - destruct (rp_items _ =? 0) eqn:E0; injection E as <-.
    + intros Hpos. simpl in Hpos. lia.
    + apply (agents_strong c i _ Hi). by destruct (rp_items (pc_pool c) - 1 =? 0).
  - destruct st'.
    + destruct p; [|done]. injection E as <-. by apply (agents_strong c i _ Hi).
    + injection E as <-. by apply (agents_strong c i _ Hi).
    + destruct (rp_items _ =? 0) eqn:E0; [|done]. injection E as <-. intros Hpos. simpl in Hpos. lia.
  - destruct p; [done|]. injection E as <-. by apply (agents_strong c i _ Hi).
  - injection E as <-. destruct st; try (by apply (agents_strong c i _ Hi)).
    apply (agents_keep c i _ Hi); destruct p; simpl; try done; lia.
  - destruct (0 <? n) eqn:En; [|done]. injection E as <-. by apply (push_agents c i WRun KRun).
  - injection E as <-. by apply (agents_strong c i _ Hi).
  - rewrite (wait_small _ Hv) in E. injection E as <-. destruct (0 <? dsema_value (dpq_thread_mediator (pc_pool c))) eqn:E0.
    + by apply (agents_strong c i _ Hi).
    + apply (agents_keep c i _ Hi); simpl; try done; lia.
  - destruct (g && negb timeouts && bool_decide (spc = SWaitSlow TIME_AT)); [done|].
    destruct (_dispatch_semaphore_wait_slow (dpq_thread_mediator (pc_pool c)) spc g) as [[[s' spc'] r]|] eqn:Es; [|done].
    injection E as <-. destruct (wait_slow_small _ Hv _ _ _ _ _ Hok Es) as [(-> & Hw & ->)|[(Ht & -> & ->)|(Ht & -> & ->)]].
    + apply (agents_keep c i _ Hi); simpl; try done; lia.
    + by apply (agents_strong c i _ Hi).
    + by apply (agents_strong c i _ Hi).
  - injection E as <-. by apply (agents_strong c i _ Hi).
  - pose proof (poke_step_agents size c overcommit timeouts i k p g Hs H B Hmode A Hi) as Hp.
    by destruct (_dispatch_root_queue_poke_slow overcommit (pc_pool c) p g) as [rp [|p'|p'|]]; injection E as <-.
Qed.

Lemma pool_reach_agents overcommit timeouts n size c : pool_reach overcommit timeouts n size c -> 1 <= size ->
  overcommit = true \/ timeouts = false -> pool_bounded c -> agents c /\ (timeouts = false -> all_calm c).
Proof.
  induction 1 as [|c i a c' Hr IH E]; intros Hs Hm B.
  - split; [intros Hpos; simpl in Hpos; lia|]. intros _ j q [-> _]%lookup_replicate. done.
  - destruct (pool_step_grows _ _ _ _ _ _ E) as [G1 G2]. destruct B as [B1 B2].
    assert (pool_bounded c) as B by (split; lia). destruct (IH Hs Hm B) as [A Hc].
    pose proof (pool_reach_inv _ _ _ _ _ Hr B) as Hinv. split.
    + eapply (pool_step_agents size); try done. destruct Hm as [->|Ht]; [by left|right; auto].
    + intros ->. eapply pool_step_calm; eauto.
Qed.

(** ** Theorems *)

(** A step of the queue's own code, not a request from outside. *)
Definition internal (a : pool_action) : bool := match a with PDecide _ | PRun _ => true | _ => false end.

Definition can_go (overcommit timeouts : bool) (c : pool_config) : Prop :=
  exists i a c', internal a = true /\ pool_step overcommit timeouts c i a = Some c'.

(** Every counted agent has a step. *)
Lemma agent_can_go overcommit timeouts c i pc : pc_threads c !! i = Some pc ->
  0 < strong pc + heading pc + fresh pc + in_signal pc -> can_go overcommit timeouts c.
Proof.
  intros Hi Hpos.
  assert (forall a, internal a = true -> is_Some (pool_step overcommit timeouts c i a) -> can_go overcommit timeouts c) as Hgo
    by (intros a Ha [c' E]; by exists i, a, c').
  destruct pc as [| | |p|p st| | |spc| | |k p]; simpl in Hpos; try lia;
    [..|apply (Hgo (PDecide DRAIN_READY)); [done|unfold pool_step; rewrite Hi; by eexists]| | | | |];
    apply (Hgo (PRun false)); try done; unfold pool_step; rewrite Hi; cbn [mbind option_bind].
  - destruct (_ <? 0); by eexists.
  - destruct (rp_items (pc_pool c) =? 0); by eexists.
  - by eexists.
  - by eexists.
  - destruct (dispatch_semaphore_wait _ _) as [[s spc] r]. by eexists.
  - by eexists.
  - by destruct (_dispatch_root_queue_poke_slow _ _ _ _) as [rp []]; eexists.
Qed.

Lemma token_can_go overcommit timeouts c i s : pc_threads c !! i = Some (WSema s) -> waiting s = 1 ->
  0 < dsema_sema (dpq_thread_mediator (pc_pool c)) -> can_go overcommit timeouts c.
Proof.
  intros Hi Hw Hk. exists i, (PRun false). unfold pool_step. rewrite Hi. cbn [mbind option_bind andb].
  destruct s as [| |[]|orig|]; try done; simpl; rewrite ?decide_True by done; try by eexists.
  destruct (decide (orig < 0)); [|by eexists]. destruct (bool_decide _); by eexists.
Qed.

(** The accounting of the pool.  In every run of pushes, pokes, workers and the
    monitor, the creation of a worker never finds the count of pending requests below zero,
    that count is the number of threads that are being created or contend for the list
    plus the requests in flight, and the workers that exist or are about to, together with
    the room left in the pool, always make up its size. *)
Theorem pool_accounting overcommit timeouts n size c :
  pool_reach overcommit timeouts n size c -> pool_bounded c ->
  pc_crashed c = false /\
  0 <= dgq_pending (pc_pool c) /\ dgq_pending (pc_pool c) = tally in_pending (pc_threads c) /\
  dgq_thread_pool_size (pc_pool c) + tally in_pool (pc_threads c) = size /\
  dgq_thread_pool_size (pc_pool c) <= size.
Proof.
  intros Hr B. pose proof (pool_reach_inv _ _ _ _ _ Hr B) as H. pose proof (pi_size _ _ H).
  assert (0 <= tally in_pool (pc_threads c)).
  { apply tally_nonneg_in. intros j q Hj. apply in_pool_ok, (pi_pc _ _ H j q Hj). }
  split_and!; [apply H| |apply H|done|lia]. rewrite (pi_pending _ _ H).
  apply tally_nonneg_in. intros j q Hj. apply in_pending_ok, (pi_pc _ _ H j q Hj).
Qed.

(** C8: no item is stranded in an overcommit queue, nor in any queue whose workers do not
    time out: while the queue holds an item some thread has a step of the pool's own code
    to take.  The pool never comes to rest, with all its workers gone or asleep, on a queue
    that is not empty. *)
Theorem pool_no_lost_work overcommit timeouts n size c :
  pool_reach overcommit timeouts n size c -> pool_bounded c -> 1 <= size ->
  overcommit = true \/ timeouts = false ->
  0 < rp_items (pc_pool c) -> exists i a c', internal a = true /\ pool_step overcommit timeouts c i a = Some c'.
Proof.
  intros Hr B Hs Hm Hpos. pose proof (pool_reach_inv _ _ _ _ _ Hr B) as H.
  destruct (pool_reach_agents _ _ _ _ _ Hr Hs Hm B) as [A _]. fold (can_go overcommit timeouts c).
  assert (forall (f : worker_pc -> Z), (forall pc, f pc <= strong pc + heading pc + fresh pc + in_signal pc) ->
    0 < tally f (pc_threads c) -> can_go overcommit timeouts c) as Hgo.
  { intros f Hf (j & pc & Hj & Hp)%tally_some_pos. eapply agent_can_go; [done|]. specialize (Hf pc). lia. }
  pose proof strong_range. pose proof heading_range. pose proof fresh_range. pose proof in_signal_range.
  assert (forall pc, 0 <= strong pc /\ 0 <= heading pc /\ 0 <= fresh pc /\ 0 <= in_signal pc) as Hnn
    by (intros pc; split_and!; [apply strong_range|apply heading_range|apply fresh_range|apply in_signal_range]).
  assert (forall f g : worker_pc -> Z, (forall pc, 0 <= f pc) -> 0 <= tally f (pc_threads c)) as Hpz
    by (intros f g Hf; apply tally_nonneg; intros; apply Hf).
  destruct (A Hpos) as [As|[As|[_ As]]].
  - apply (Hgo strong); [intros pc; specialize (Hnn pc); lia|done].
  - destruct (decide (0 < tally in_signal (pc_threads c))) as [Hg|Hg].
    + apply (Hgo in_signal); [intros pc; specialize (Hnn pc); lia|done].
    + pose proof (pi_tokens _ _ H). pose proof (pi_kernel _ _ H).
      pose proof (Hpz in_signal strong ltac:(intros; apply in_signal_range)).
      destruct (tally_some_pos in_wait (pc_threads c)) as (j & pc & Hj & Hp); [lia|].
      destruct pc as [| | | | | | |s| | |]; simpl in Hp; try lia.
      apply (token_can_go _ _ _ j s Hj); [apply (pi_pc _ _ H _ _ Hj)|lia].
  - pose proof (Hpz heading strong ltac:(intros; apply heading_range)).
    destruct (decide (0 < tally heading (pc_threads c))) as [Hh|Hh].
    + apply (Hgo heading); [intros pc; specialize (Hnn pc); lia|done].
    + apply (Hgo fresh); [intros pc; specialize (Hnn pc); lia|lia].
Qed.

(** *** The race that loses work *)

(** Client 0 pushes an item, its worker runs it, waits and times out.  Client 1 then pushes
    an item and reserves the only pending request; it reads a pool size of 0, since the
    worker has not left the pool yet.  The worker leaves and pokes: a request is pending, so
    that it goes without asking.  Client 1 finds no room and withdraws its request. *)
Definition lost_wakeup : list (nat * pool_action) :=
  let run i g := (i, PRun g) in
  [(0%nat, PPush 1)] ++ repeat (run 0%nat false) 7 ++ repeat (run 2%nat false) 7 ++ [run 2%nat true; run 2%nat false] ++
  [(1%nat, PPush 1)] ++ repeat (run 1%nat false) 4 ++ repeat (run 2%nat false) 4 ++ [run 1%nat false].

Lemma schedule_reach overcommit timeouts n size l c : schedule (pool_step overcommit timeouts) (pool_init n size) l = Some c ->
  pool_reach overcommit timeouts n size c.
Proof. apply schedule_ind; [intros; by econstructor|constructor]. Qed.

(** C38: with a queue that is not overcommit and a pool of one thread, a worker that times
    out and a poke can each rely on the other.  The run above ends with an item in the
    queue, no request pending, the whole pool free and every thread idle or gone: no thread
    has a step to take, and further pushes only lengthen the queue since they do not poke a
    queue that is not empty.  A request of the monitor revives it. *)
Theorem pool_lost_wakeup :
  exists c, pool_reach false true 2 1 c /\
    rp_items (pc_pool c) = 1 /\ dgq_pending (pc_pool c) = 0 /\ dgq_thread_pool_size (pc_pool c) = 1 /\
    pc_threads c = [CIdle; CIdle; WGone] /\
    (forall i a c', internal a = true -> pool_step false true c i a <> Some c') /\
    (forall i n c', pool_step false true c i (PPush n) = Some c' ->
      rp_items (pc_pool c') = 1 + n /\ pc_threads c' = pc_threads c) /\
    exists c', pool_step false true c 0 (PMonitor 0) = Some c' /\ can_go false true c'.
Proof.
  destruct (schedule (pool_step false true) (pool_init 2 1) lost_wakeup) as [c|] eqn:E; [|vm_compute in E; discriminate E].
  exists c. split; [by eapply schedule_reach|]. vm_compute in E. injection E as <-. split_and!; try done.
  - intros [|[|[|i]]] [] c'; done.
  - intros [|[|[|i]]] n c'; try done; unfold pool_step; cbn -[Z.ltb Z.add]; destruct (0 <? n); try done; intros [= <-]; done.
  - eexists. split; [reflexivity|]. exists 0%nat, (PRun false). eexists. split; reflexivity.
Qed.

(** *** Instances *)

(** A client pushes three items and its poke creates the workers there is room for. *)
Definition busy_pool : pool_config :=
  default (pool_init 1 2) (schedule (pool_step true true) (pool_init 1 2) ((0%nat, PPush 3) :: repeat (0%nat, PRun false) 6)).

Lemma busy_pool_reach : pool_reach true true 1 2 busy_pool.
Proof. apply (schedule_reach true true 1 2 ((0%nat, PPush 3) :: repeat (0%nat, PRun false) 6)). vm_compute. reflexivity. Qed.

Lemma pool_accounting_witness :
  dgq_thread_pool_size (pc_pool busy_pool) = 0 /\ tally in_pool (pc_threads busy_pool) = 2 /\ dgq_pending (pc_pool busy_pool) = 2.
Proof.
  destruct (pool_accounting true true 1 2 busy_pool busy_pool_reach) as (_ & _ & H & H2 & _); [split; vm_compute; reflexivity|].
  split; [vm_compute; reflexivity|]. split; [|rewrite H; vm_compute; reflexivity].
  rewrite <- H2. vm_compute. reflexivity.
Defined.

Lemma pool_no_lost_work_witness :
  rp_items (pc_pool busy_pool) = 3 /\ exists i a c', internal a = true /\ pool_step true true busy_pool i a = Some c'.
Proof.
  split; [vm_compute; reflexivity|].
  apply (pool_no_lost_work true true 1 2 busy_pool busy_pool_reach); [split; vm_compute; reflexivity|lia|by left|vm_compute; reflexivity].
Defined.
