(* ===== verification/ThreadEvent.v ===== *)
(** * Thread events

    Models [dispatch_thread_event_s] of [src/shims/lock.h] and [src/shims/lock.c] with
    futexes: the one-shot hand-off by which a thread in [dispatch_sync] is told that it
    owns the queue.  One thread waits, and for each wait some thread signals once; the
    event may be used again after the wait has returned.  Every access of the 32-bit value
    and every futex call is a step. *)

From S2P Require Import Prelude.

Definition UINT32_MAX : Z := 2 ^ 32 - 1.

Definition _dispatch_thread_event_init : Z := 0.

(** The new value, and whether [_dispatch_thread_event_signal_slow] is called. *)
Definition _dispatch_thread_event_signal (dte_value : Z) : Z * bool :=
  (u32 (dte_value + 1), negb (dte_value =? 0)).

(** The new value, and whether [_dispatch_thread_event_wait_slow] is called. *)
Definition _dispatch_thread_event_wait (dte_value : Z) : Z * bool :=
  let dte_value := u32 (dte_value - 1) in (dte_value, negb (dte_value =? 0)).

(** One round of the loop before the futex: [true] to return, [false] to wait. *)
Definition _dispatch_thread_event_wait_slow (dte_value : Z) : outcome bool :=
  if dte_value =? 0 then Done true
  else if negb (dte_value =? UINT32_MAX) then Crash ClientCrash
  else Done false.

Definition _dispatch_thread_event_destroy (dte_value : Z) : outcome unit :=
  if dte_value =? 0 then Done tt else Crash InternalCrash.

(** ** Threads *)

Inductive event_pc := EvIdle | EvLoop | EvFutex | EvAsleep.

Record event_config := {
  ev_value : Z;
  ev_waiter : event_pc;
  ev_wakers : nat;           (* signallers about to wake the futex *)
  ev_signals : Z;            (* signals made *)
  ev_returns : Z;            (* waits that have returned *)
  ev_crashed : bool;
}.

Inductive event_action :=
| EvSignal                   (* a new signaller, after the wait before it has returned *)
| EvWake                     (* a signaller in _dispatch_thread_event_signal_slow *)
| EvWait                     (* the waiter calls _dispatch_thread_event_wait *)
| EvRun
| EvSpurious                 (* the futex returns without a wakeup *)
| EvDestroy.                 (* the waiter destroys the event after the last wait *)

(** One signal per wait: a signaller may run before the wait it is for has started, but
    not before the wait before it has returned. *)
Definition event_step (c : event_config) (a : event_action) : option event_config :=
  let upd value waiter wakers signals returns :=
    Some {| ev_value := value; ev_waiter := waiter; ev_wakers := wakers; ev_signals := signals;
            ev_returns := returns; ev_crashed := ev_crashed c |} in
  let fail := Some {| ev_value := ev_value c; ev_waiter := ev_waiter c; ev_wakers := ev_wakers c;
                      ev_signals := ev_signals c; ev_returns := ev_returns c; ev_crashed := true |} in
  match a with
  | EvSignal =>
      if decide (ev_signals c = ev_returns c) then
        let '(v, slow) := _dispatch_thread_event_signal (ev_value c) in
        upd v (ev_waiter c) (if slow : bool then S (ev_wakers c) else ev_wakers c) (ev_signals c + 1) (ev_returns c)
      else None
  | EvWake =>
      match ev_wakers c with
      | O => None
      | S k => upd (ev_value c) (match ev_waiter c with EvAsleep => EvLoop | pc => pc end) k (ev_signals c) (ev_returns c)
      end
  | EvWait =>
      match ev_waiter c with
      | EvIdle =>
          let '(v, slow) := _dispatch_thread_event_wait (ev_value c) in
          if slow : bool then upd v EvLoop (ev_wakers c) (ev_signals c) (ev_returns c)
          else upd v EvIdle (ev_wakers c) (ev_signals c) (ev_returns c + 1)
      | _ => None
      end
  | EvRun =>
      match ev_waiter c with
      | EvLoop =>
          match _dispatch_thread_event_wait_slow (ev_value c) with
          | Done true => upd (ev_value c) EvIdle (ev_wakers c) (ev_signals c) (ev_returns c + 1)
          | Done false => upd (ev_value c) EvFutex (ev_wakers c) (ev_signals c) (ev_returns c)
          | Crash _ => fail
          end
      | EvFutex =>
          upd (ev_value c) (if ev_value c =? UINT32_MAX then EvAsleep else EvLoop) (ev_wakers c) (ev_signals c) (ev_returns c)
      | _ => None
      end
  | EvSpurious =>
      match ev_waiter c with
      | EvAsleep => upd (ev_value c) EvLoop (ev_wakers c) (ev_signals c) (ev_returns c)
      | _ => None
      end
  | EvDestroy =>
      match ev_waiter c with
      | EvIdle =>
          if decide (ev_signals c = ev_returns c) then
            match _dispatch_thread_event_destroy (ev_value c) with
            | Done _ => Some c
            | Crash _ => fail
            end
          else None
      | _ => None
      end
  end.

Definition event_init : event_config :=
  {| ev_value := _dispatch_thread_event_init; ev_waiter := EvIdle; ev_wakers := 0; ev_signals := 0;
     ev_returns := 0; ev_crashed := false |}.

Inductive event_reach : event_config -> Prop :=
| er_init : event_reach event_init
| er_step c a c' : event_reach c -> event_step c a = Some c' -> event_reach c'.

Record event_inv (c : event_config) : Prop := {
  evi_signals : ev_returns c <= ev_signals c <= ev_returns c + 1;
  evi_value : ev_value c = match ev_waiter c with
    | EvIdle => ev_signals c - ev_returns c
    | _ => if ev_signals c =? ev_returns c then UINT32_MAX else 0
    end;
  evi_wake : ev_waiter c = EvAsleep -> ev_value c = 0 -> (0 < ev_wakers c)%nat;
  evi_ok : ev_crashed c = false;
}.

Lemma event_step_inv c a c' : event_inv c -> event_step c a = Some c' -> event_inv c'.
Proof.
  intros [H1 H2 H3 H4] E. unfold event_step, _dispatch_thread_event_signal, _dispatch_thread_event_wait,
    _dispatch_thread_event_wait_slow, _dispatch_thread_event_destroy in E.
  assert (ev_signals c = ev_returns c \/ ev_signals c = ev_returns c + 1) as [Es|Es] by lia; rewrite Es in *.
  all: rewrite ?Z.eqb_refl, ?(proj2 (Z.eqb_neq (ev_returns c + 1) (ev_returns c))) in H2 by lia.
  all: destruct a, (ev_waiter c) eqn:Ew; try done; rewrite ?H2 in E; rewrite ?Z.sub_diag, ?Z.add_simpl_l in E; simpl in E;
    repeat (case_decide; try lia; try done); try (destruct (ev_wakers c) as [|k] eqn:Ek; [done|]); simplify_eq.
  all: constructor; simpl; rewrite ?Ew, ?Es, ?H2; simpl; try done; try lia.
  all: rewrite ?Z.eqb_refl, ?(proj2 (Z.eqb_neq (ev_returns c + 1) (ev_returns c))) by lia; try done; try lia.
all: word_lia.
Qed.

Lemma event_reach_inv c : event_reach c -> event_inv c.
Proof. induction 1 as [|c a c' _ IH E]; [by constructor|by eapply event_step_inv]. Qed.

(** A wait returns only after the signal made for it, whichever of the two comes first;
    neither the corruption check of the wait nor the assertion of the destruction fails;
    a waiter asleep although the signal was made has a signaller about to wake it, after
    which it returns without waiting again; and the value is zero again between uses. *)
Theorem thread_event_handoff c : event_reach c ->
  ev_crashed c = false /\ ev_returns c <= ev_signals c <= ev_returns c + 1 /\
  (ev_waiter c = EvIdle -> ev_signals c = ev_returns c -> ev_value c = 0) /\
  (ev_waiter c = EvAsleep -> ev_signals c = ev_returns c + 1 ->
    exists c1 c2, event_step c EvWake = Some c1 /\ event_step c1 EvRun = Some c2 /\
      ev_waiter c2 = EvIdle /\ ev_returns c2 = ev_signals c2).
Proof.
  intros [H1 H2 H3 H4]%event_reach_inv. split_and!; [done|lia|lia| |].
  - intros Hw Hs. rewrite H2, Hw. lia.
  - intros Hw Hs. rewrite Hw, (proj2 (Z.eqb_neq _ _)) in H2 by lia. specialize (H3 Hw H2).
    unfold event_step. destruct (ev_wakers c) as [|k] eqn:Ek; [lia|]. rewrite Hw. eexists. eexists.
    split; [done|]. cbn [ev_waiter ev_value]. rewrite H2. split; [done|]. simpl. split; [done|lia].
Qed.

(** *** Instance: the signal arrives while the waiter sleeps *)

Fixpoint event_exec (c : event_config) (l : list event_action) : option event_config :=
  match l with [] => Some c | a :: l => c' ← event_step c a; event_exec c' l end.

Lemma event_exec_reach c l c' : event_reach c -> event_exec c l = Some c' -> event_reach c'.
Proof.
  revert c. induction l as [|a l IH]; intros c Hr E; [by injection E as <-|]. simpl in E.
  destruct (event_step c a) as [c1|] eqn:E1; [|done]. apply (IH c1); [by econstructor|done].
Qed.

Definition event_signalled : event_config :=
  default event_init (event_exec event_init [EvWait; EvRun; EvRun; EvSignal]).

Lemma thread_event_handoff_witness :
  ev_waiter event_signalled = EvAsleep /\
  exists c1 c2, event_step event_signalled EvWake = Some c1 /\ event_step c1 EvRun = Some c2 /\
    ev_waiter c2 = EvIdle /\ ev_returns c2 = ev_signals c2.
Proof.
  split; [vm_compute; reflexivity|]. apply (thread_event_handoff event_signalled); [|vm_compute; reflexivity..].
  apply (event_exec_reach event_init [EvWait; EvRun; EvRun; EvSignal]); [constructor|vm_compute; reflexivity].
Defined.
