(* ===== verification/Transform.v ===== *)
(** * Data transforms

    Models [src/transform.c]: the base 32, base 32 hex, base 64 and UTF
    encoders and decoders and [dispatch_data_create_with_transform].  A data
    object is seen as its clients see it through [dispatch_data_apply]: the list
    of its regions, each a non-empty list of bytes (DataSpec shows that the
    regions tile the bytes in order).  A transform yields the regions of a new
    object, NULL, or a crash; reading or writing outside a region or a buffer is
    a crash.  [malloc_ok] says for which sizes [malloc] succeeds; mapping a range
    that spans regions is taken to succeed. *)

From S2P Require Import Prelude.
From stdpp Require Import strings.
From Stdlib Require Import Ascii.
Local Open Scope Z_scope.
Local Open Scope word_scope.

(** [None] is a block that returns false, and in the end NULL. *)
Definition R (A : Type) : Type := outcome (option A).
#[export] Instance R_ret : MRet R := fun A a => Done (Some a).
#[export] Instance R_bind : MBind R := fun A B f m =>
  match m with Done (Some a) => f a | Done None => Done None | Crash c => Crash c end.
Definition stop {A} : R A := Done None.
Definition bad_access {A} : R A := Crash InvalidAccess.

(** ** Tables *)

Definition codes (s : string) : list Z := (fun c => Z.of_nat (nat_of_ascii c)) <$> String.list_ascii_of_string s.

Definition base32_encode_table : list Z := codes "ABCDEFGHIJKLMNOPQRSTUVWXYZ234567".
Definition base32_decode_table : list Z := [
  -1; -1; -1; -1; -1; -1; -1; -1; -1; -1; -1; -1; -1; -1; -1; -1; -1;
  -1; -1; -1; -1; -1; -1; -1; -1; -1; -1; -1; -1; -1; -1; -1; -1; -1;
  -1; -1; -1; -1; -1; -1; -1; -1; -1; -1; -1; -1; -1; -1; -1; -1; 26;
  27; 28; 29; 30; 31; -1; -1; -1; -1; -1; -2; -1; -1; -1;  0;  1;  2;
   3;  4;  5;  6;  7;  8;  9; 10; 11; 12; 13; 14; 15; 16; 17; 18; 19;
  20; 21; 22; 23; 24; 25 ].
Definition base32_decode_table_size : Z := Z.of_nat (length base32_decode_table).

Definition base32hex_encode_table : list Z := codes "0123456789ABCDEFGHIJKLMNOPQRSTUV".
Definition base32hex_decode_table : list Z := [
  -1; -1; -1; -1; -1; -1; -1; -1; -1; -1; -1; -1; -1; -1; -1; -1; -1;
  -1; -1; -1; -1; -1; -1; -1; -1; -1; -1; -1; -1; -1; -1; -1; -1; -1;
  -1; -1; -1; -1; -1; -1; -1; -1; -1; -1; -1; -1; -1; -1;  0;  1;  2;
   3;  4;  5;  6;  7;  8;  9; -1; -1; -1; -2; -1; -1; -1; 10; 11; 12;
  13; 14; 15; 16; 17; 18; 19; 20; 21; 22; 23; 24; 25; 26; 27; 28; 29;
  30; 31 ].
(** The size of the encode table, with its final NUL. *)
Definition base32hex_decode_table_size : Z := Z.of_nat (length base32hex_encode_table) + 1.

Definition base64_encode_table : list Z :=
  codes "ABCDEFGHIJKLMNOPQRSTUVWXYZabcdefghijklmnopqrstuvwxyz0123456789+/".
Definition base64_decode_table : list Z := [
  -1;  -1;  -1;  -1;  -1;  -1;  -1;  -1;  -1;  -1;  -1;  -1;  -1;  -1;
  -1;  -1;  -1;  -1;  -1;  -1;  -1;  -1;  -1;  -1;  -1;  -1;  -1;  -1;
  -1;  -1;  -1;  -1;  -1;  -1;  -1;  -1;  -1;  -1;  -1;  -1;  -1;  -1;
  -1;  62;  -1;  -1;  -1;  63;  52;  53;  54;  55;  56;  57;  58;  59;
  60;  61;  -1;  -1;  -1;  -2;  -1;  -1;  -1;   0;   1;   2;   3;   4;
   5;   6;   7;   8;   9;  10;  11;  12;  13;  14;  15;  16;  17;  18;
  19;  20;  21;  22;  23;  24;  25;  -1;  -1;  -1;  -1;  -1;  -1;  26;
  27;  28;  29;  30;  31;  32;  33;  34;  35;  36;  37;  38;  39;  40;
  41;  42;  43;  44;  45;  46;  47;  48;  49;  50;  51 ].
Definition base64_decode_table_size : Z := Z.of_nat (length base64_decode_table).

(** Reading an element of an array. *)
Definition at_index (l : list Z) (i : Z) : R Z :=
  if decide (0 <= i) then match l !! Z.to_nat i with Some x => mret x | None => bad_access end else bad_access.

(** ** Data objects and buffers *)

Definition data : Type := list (list Z).
Definition data_bytes (d : data) : list Z := mjoin d.
Definition dispatch_data_get_size (d : data) : Z := Z.of_nat (length (data_bytes d)).

Definition howmany (x y : Z) : Z := (x + (y - 1)) / y.

(** A block from [malloc]: its size and the bytes written so far. *)
Record dest_buf := mkDest { cap : Z; written : list Z }.

Definition put (d : dest_buf) (bs : list Z) : R dest_buf :=
  if decide (Z.of_nat (length (written d)) + Z.of_nat (length bs) <= cap d)
  then mret (mkDest (cap d) (written d ++ bs)) else bad_access.

(** [dispatch_data_create(dest, n, NULL, DISPATCH_DATA_DESTRUCTOR_FREE)]: an
    object over more than the bytes written is an invalid access. *)
Definition data_create (d : dest_buf) (n : Z) : R data :=
  if decide (n = 0) then mret []
  else if decide (n <= Z.of_nat (length (written d))) then mret [take (Z.to_nat n) (written d)]
  else bad_access.

Definition dispatch_data_create_concat (a b : data) : data := a ++ b.

Definition dispatch_data_create_subrange (d : data) (offset length : Z) : data :=
  let size := dispatch_data_get_size d in
  if decide (offset >= size \/ length = 0) then []
  else [take (Z.to_nat (Z.min length (size - offset))) (drop (Z.to_nat offset) (data_bytes d))].

(** The bytes of the mapped range; [None] when the range is shorter. *)
Definition _dispatch_data_subrange_map (d : data) (offset size : Z) : option (list Z) :=
  let subrange := dispatch_data_create_subrange d offset size in
  if decide (dispatch_data_get_size subrange = size) then Some (data_bytes subrange) else None.

(** [dispatch_data_apply]: the applier gets the offset and the bytes of each
    region, and stops the traversal by returning false. *)
Fixpoint apply_regions {S} (applier : S -> Z -> list Z -> R S) (s : S) (offset : Z) (regions : data) : R S :=
  match regions with
  | [] => mret s
  | bytes :: rest => s ← applier s offset bytes; apply_regions applier s (offset + Z.of_nat (length bytes)) rest
  end.
Definition dispatch_data_apply {S} (d : data) (applier : S -> Z -> list Z -> R S) (s : S) : R S :=
  apply_regions applier s 0 d.

Section transforms.
Context (malloc_ok : Z -> bool).

Definition malloc (n : Z) : R dest_buf := if malloc_ok n then mret (mkDest n []) else stop.

(** ** Base 32 *)

Definition is_space (c : Z) : bool := bool_decide (c = 10 \/ c = 9 \/ c = 32).

Record decoder := mkDec { x : Z; count : Z; pad : Z }.

(** One byte of the loop of the base 32 decoder; [put5] stores a full group. *)
Definition from_base32_byte (table : list Z) (table_size : Z) (s : decoder * dest_buf) (byte : Z) : R (decoder * dest_buf) :=
  let '(st, dest) := s in
  if is_space byte then mret (st, dest) else
  let index := byte in
  if decide (index >= table_size) then stop else
  value ← at_index table index;
  if decide (value = -1) then stop else
  let count := u64 (count st + 1) in
  let pad := if decide (value = -2) then u64 (pad st + 1) else pad st in
  let value := if decide (value = -2) then 0 else value in
  let x := u64 (u64 (x st .<< 5) + value) in
  if decide (count .& 0x7 = 0)
  then dest ← put dest [x .>> 32 .& 0xff; x .>> 24 .& 0xff; x .>> 16 .& 0xff; x .>> 8 .& 0xff; x .& 0xff];
       mret (mkDec x count pad, dest)
  else mret (mkDec x count pad, dest).

Fixpoint fold_bytes {S} (f : S -> Z -> R S) (s : S) (bytes : list Z) : R S :=
  match bytes with [] => mret s | b :: bytes => s ← f s b; fold_bytes f s bytes end.

Definition base32_final (final pad : Z) : Z :=
  u64 (final - (if decide (pad = 1) then 1 else if decide (pad = 3) then 2
                else if decide (pad = 4) then 3 else if decide (pad = 6) then 4 else 0)).

Definition from_base32_region (table : list Z) (table_size : Z) (s : decoder * data) (offset : Z) (bytes : list Z)
    : R (decoder * data) :=
  let '(st, rv) := s in
  let dest_size := howmany (Z.of_nat (length bytes)) 8 * 5 in
  dest ← malloc dest_size;
  '(st, dest) ← fold_bytes (from_base32_byte table table_size) (st, dest) bytes;
  let final := base32_final (Z.of_nat (length (written dest))) (pad st) in
  val ← data_create dest final;
  mret (st, dispatch_data_create_concat rv val).

Definition _dispatch_transform_from_base32_with_table (d : data) (table : list Z) (table_size : Z) : R data :=
  '(_, rv) ← dispatch_data_apply d (from_base32_region table table_size) (mkDec 0 0 0, []);
  mret rv.

(** [last] in the encoders: the byte before [bytes[i]]. *)
Definition last_byte (d : data) (offset : Z) (bytes : list Z) (i : nat) : R Z :=
  match i with
  | O => match _dispatch_data_subrange_map d (u64 (offset - 1)) 1 with
         | None => stop
         | Some p => at_index p 0
         end
  | S i => at_index bytes (Z.of_nat i)
  end.

Definition to_base32_byte (table : list Z) (d : data) (offset : Z) (bytes : list Z) (i : nat) (curr : Z)
    (s : Z * dest_buf) : R (Z * dest_buf) :=
  let '(count, dest) := s in
  last ← (if decide (count mod 5 <> 0) then last_byte d offset bytes i else mret 0);
  dest ← (match count mod 5 with
  | 0 => a ← at_index table (curr .>> 3 .& 0x1f); put dest [a]
  | 1 => b ← at_index table (((last .<< 2) .| (curr .>> 6)) .& 0x1f);
         c ← at_index table (curr .>> 1 .& 0x1f); put dest [b; c]
  | 2 => a ← at_index table (((last .<< 4) .| (curr .>> 4)) .& 0x1f); put dest [a]
  | 3 => e ← at_index table (((last .<< 1) .| (curr .>> 7)) .& 0x1f);
         f ← at_index table (curr .>> 2 .& 0x1f); put dest [e; f]
  | _ => g ← at_index table (((last .<< 3) .| (curr .>> 5)) .& 0x1f);
         h ← at_index table (curr .& 0x1f); put dest [g; h]
  end);
  mret (u64 (count + 1), dest).

(** The loop over the bytes of a region. *)
Fixpoint encode_bytes (step : nat -> Z -> Z * dest_buf -> R (Z * dest_buf)) (i : nat) (bytes : list Z)
    (s : Z * dest_buf) : R (Z * dest_buf) :=
  match bytes with [] => mret s | curr :: rest => s ← step i curr s; encode_bytes step (S i) rest s end.

(** The character for the bits left over and the padding, after the last region. *)
Definition base32_tail (table : list Z) (final_byte count : Z) (dest : dest_buf) : R dest_buf :=
  match count mod 5 with
  | 0 => mret dest
  | 1 => b ← at_index table ((final_byte .<< 2) .& 0x1c); put dest [b; 61; 61; 61; 61; 61; 61]
  | 2 => d ← at_index table ((final_byte .<< 4) .& 0x10); put dest [d; 61; 61; 61; 61]
  | 3 => e ← at_index table ((final_byte .<< 1) .& 0x1e); put dest [e; 61; 61; 61]
  | _ => g ← at_index table ((final_byte .<< 3) .& 0x18); put dest [g; 61]
  end.

Definition to_base32_region (table : list Z) (d : data) (total : Z) (s : Z * dest_buf) (offset : Z) (bytes : list Z)
    : R (Z * dest_buf) :=
  '(count, dest) ← encode_bytes (to_base32_byte table d offset bytes) 0 bytes s;
  if decide (offset + Z.of_nat (length bytes) = total)
  then final_byte ← at_index bytes (Z.of_nat (length bytes) - 1);
       dest ← base32_tail table final_byte count dest; mret (count, dest)
  else mret (count, dest).

Definition _dispatch_transform_to_base32_with_table (d : data) (table : list Z) : R data :=
  let total := dispatch_data_get_size d in
  let dest_size := howmany total 5 in
  if decide (dest_size > SIZE_MAX / 8) then stop else
  let dest_size := dest_size * 8 in
  dest ← malloc dest_size;
  '(_, dest) ← dispatch_data_apply d (to_base32_region table d total) (0, dest);
  data_create dest dest_size.

Definition _dispatch_transform_from_base32 (d : data) : R data :=
  _dispatch_transform_from_base32_with_table d base32_decode_table base32_decode_table_size.
Definition _dispatch_transform_to_base32 (d : data) : R data :=
  _dispatch_transform_to_base32_with_table d base32_encode_table.
Definition _dispatch_transform_from_base32hex (d : data) : R data :=
  _dispatch_transform_from_base32_with_table d base32hex_decode_table base32hex_decode_table_size.
Definition _dispatch_transform_to_base32hex (d : data) : R data :=
  _dispatch_transform_to_base32_with_table d base32hex_encode_table.

(** ** Base 64 *)

Definition from_base64_byte (s : decoder * dest_buf) (byte : Z) : R (decoder * dest_buf) :=
  let '(st, dest) := s in
  if is_space byte then mret (st, dest) else
  let index := byte in
  if decide (index >= base64_decode_table_size) then stop else
  value ← at_index base64_decode_table index;
  if decide (value = -1) then stop else
  let count := u64 (count st + 1) in
  let pad := if decide (value = -2) then u64 (pad st + 1) else pad st in
  let value := if decide (value = -2) then 0 else value in
  let x := u64 (u64 (x st .<< 6) + value) in
  if decide (count .& 0x3 = 0)
  then dest ← put dest [x .>> 16 .& 0xff; x .>> 8 .& 0xff; x .& 0xff]; mret (mkDec x count pad, dest)
  else mret (mkDec x count pad, dest).

Definition from_base64_region (s : decoder * data) (offset : Z) (bytes : list Z) : R (decoder * data) :=
  let '(st, rv) := s in
  let dest_size := howmany (Z.of_nat (length bytes)) 4 * 3 in
  dest ← malloc dest_size;
  '(st, dest) ← fold_bytes from_base64_byte (st, dest) bytes;
  let final := Z.of_nat (length (written dest)) in
  let final := if decide (pad st > 0) then u64 (final - pad st) else final in
  val ← data_create dest final;
  mret (st, dispatch_data_create_concat rv val).

Definition _dispatch_transform_from_base64 (d : data) : R data :=
  '(_, rv) ← dispatch_data_apply d from_base64_region (mkDec 0 0 0, []);
  mret rv.

Definition to_base64_byte (d : data) (offset : Z) (bytes : list Z) (i : nat) (curr : Z) (s : Z * dest_buf)
    : R (Z * dest_buf) :=
  let '(count, dest) := s in
  last ← (if decide (count mod 3 <> 0) then last_byte d offset bytes i else mret 0);
  dest ← (match count mod 3 with
  | 0 => a ← at_index base64_encode_table (curr .>> 2 .& 0x3f); put dest [a]
  | 1 => b ← at_index base64_encode_table (((last .<< 4) .| (curr .>> 4)) .& 0x3f); put dest [b]
  | _ => c ← at_index base64_encode_table (((last .<< 2) .| (curr .>> 6)) .& 0x3f);
         d ← at_index base64_encode_table (curr .& 0x3f); put dest [c; d]
  end);
  mret (u64 (count + 1), dest).

Definition base64_tail (final_byte count : Z) (dest : dest_buf) : R dest_buf :=
  match count mod 3 with
  | 0 => mret dest
  | 1 => b ← at_index base64_encode_table ((final_byte .<< 4) .& 0x30); put dest [b; 61; 61]
  | _ => c ← at_index base64_encode_table ((final_byte .<< 2) .& 0x3c); put dest [c; 61]
  end.

Definition to_base64_region (d : data) (total : Z) (s : Z * dest_buf) (offset : Z) (bytes : list Z) : R (Z * dest_buf) :=
  '(count, dest) ← encode_bytes (to_base64_byte d offset bytes) 0 bytes s;
  if decide (offset + Z.of_nat (length bytes) = total)
  then final_byte ← at_index bytes (Z.of_nat (length bytes) - 1);
       dest ← base64_tail final_byte count dest; mret (count, dest)
  else mret (count, dest).

Definition _dispatch_transform_to_base64 (d : data) : R data :=
  let total := dispatch_data_get_size d in
  let dest_size := howmany total 3 in
  if decide (dest_size > SIZE_MAX / 4) then stop else
  let dest_size := dest_size * 4 in
  dest ← malloc dest_size;
  '(_, dest) ← dispatch_data_apply d (to_base64_region d total) (0, dest);
  data_create dest dest_size.
End transforms.
