(* ===== verification/BaseCoding.v ===== *)
(** * RFC 4648

    The reference encoding that the base 32 and base 64 transforms implement: a
    group of [g] bytes is read as one big-endian number and written as [k] digits
    of [w] bits, [w * k = 8 * g]; a last, shorter group is filled with zeros and
    the digits that carry none of its bits become padding.  Then the decoders:
    one group of [k] characters, padding included, gives back the group. *)

From S2P Require Import Prelude Transform.
Local Open Scope Z_scope.
Local Open Scope word_scope.

(** ** Digits *)

Fixpoint digits (w : Z) (k : nat) (v : Z) : list Z :=
  match k with O => [] | S k => (v / 2 ^ (w * Z.of_nat k)) mod 2 ^ w :: digits w k v end.

Definition undigits (w : Z) (l : list Z) : Z := foldl (fun a d => a * 2 ^ w + d) 0 l.

Lemma length_digits w k v : length (digits w k v) = k.
Proof. induction k; simpl; congruence. Qed.

Lemma undigits_acc w l a : 0 <= w -> foldl (fun a d => a * 2 ^ w + d) a l = a * 2 ^ (w * Z.of_nat (length l)) + undigits w l.
Proof.
  intros Hw. unfold undigits. revert a. induction l as [|d l IH]; intros a; simpl foldl.
  - simpl length. rewrite Z.mul_0_r. simpl. lia.
  - rewrite IH, (IH (0 * 2 ^ w + d)). simpl length.
    replace (w * Z.of_nat (S (length l))) with (w + w * Z.of_nat (length l)) by lia.
    rewrite Z.pow_add_r by lia. ring.
Qed.

Lemma undigits_cons w d l : 0 <= w -> undigits w (d :: l) = d * 2 ^ (w * Z.of_nat (length l)) + undigits w l.
Proof. intros Hw. unfold undigits at 1. simpl foldl. rewrite undigits_acc by done. lia. Qed.

Lemma undigits_app w l l' : 0 <= w -> undigits w (l ++ l') = undigits w l * 2 ^ (w * Z.of_nat (length l')) + undigits w l'.
Proof. intros Hw. unfold undigits at 1. rewrite foldl_app. fold (undigits w l). by apply undigits_acc. Qed.

Lemma undigits_digits w k v : 0 <= w -> undigits w (digits w k v) = v mod 2 ^ (w * Z.of_nat k).
Proof.
  intros Hw. induction k as [|k IH].
  - simpl digits. rewrite Z.mul_0_r. simpl. rewrite Z.mod_1_r. done.
  - simpl digits. rewrite undigits_cons, length_digits, IH by done.
    replace (w * Z.of_nat (S k)) with (w * Z.of_nat k + w) by lia. rewrite Z.pow_add_r by lia.
    rewrite Z.rem_mul_r by lia. ring.
Qed.

Lemma digits_mod w k n v : 0 <= w -> w * Z.of_nat k <= n -> digits w k (v mod 2 ^ n) = digits w k v.
Proof.
  intros Hw. revert n. induction k as [|k IH]; intros n Hn; [done|]. simpl digits. f_equal; [|apply IH; lia].
  replace n with (w * Z.of_nat k + w + (n - w * Z.of_nat k - w)) by lia.
  rewrite !Z.pow_add_r by lia. set (A := 2 ^ (w * Z.of_nat k)). set (B := 2 ^ w).
  set (C := 2 ^ (n - w * Z.of_nat k - w)).
  assert (0 < A) by (apply Z.pow_pos_nonneg; lia). assert (0 < B) by (apply Z.pow_pos_nonneg; lia).
  assert (0 < C) by (apply Z.pow_pos_nonneg; lia). clearbody A B C.
  rewrite <- (Z.mul_assoc A), (Z.rem_mul_r v A) by lia. rewrite (Z.mul_comm A), Z.div_add by lia.
  pose proof (Z.mod_pos_bound v A). rewrite (Z.div_small (v mod A)), Z.add_0_l by lia.
  rewrite (Z.rem_mul_r (v / A) B) by lia. rewrite (Z.mul_comm B), Z_mod_plus_full. apply Z.mod_mod. lia.
Qed.

Definition bytes_ok (l : list Z) : Prop := Forall (fun b => 0 <= b < 256) l.

Definition in_digits (w : Z) (l : list Z) : Prop := Forall (fun d => 0 <= d < 2 ^ w) l.

Lemma undigits_range w l : 0 <= w -> in_digits w l -> 0 <= undigits w l < 2 ^ (w * Z.of_nat (length l)).
Proof.
  intros Hw. induction 1 as [|d l Hd Hl IH]; [unfold undigits; simpl; rewrite Z.mul_0_r; simpl; lia|].
  rewrite undigits_cons by done. simpl length. replace (w * Z.of_nat (S (length l))) with (w + w * Z.of_nat (length l)) by lia.
  rewrite Z.pow_add_r by lia. nia.
Qed.

Lemma digits_undigits w l : 0 <= w -> in_digits w l -> digits w (length l) (undigits w l) = l.
Proof.
  intros Hw. induction 1 as [|d l Hd Hl IH]; [done|]. simpl length. simpl digits. rewrite undigits_cons by done.
  pose proof (undigits_range w l Hw Hl) as Hr. f_equal.
  - rewrite Z.div_add_l by lia. rewrite (Z.div_small (undigits w l)), Z.add_0_r by done. by apply Z.mod_small.
  - transitivity (digits w (length l) (undigits w l)); [|done].
    rewrite <- (digits_mod w _ (w * Z.of_nat (length l))) by lia. f_equal.
    rewrite Z.add_comm, Z_mod_plus_full. by apply Z.mod_small.
Qed.

(** The low digits of a multiple of a power of two. *)
Lemma digits_low_zero w k j v : 0 <= w -> (2 ^ (w * Z.of_nat j) | v) -> (j <= k)%nat ->
  digits w k v = take (k - j) (digits w k v) ++ replicate j 0.
Proof.
  intros Hw Hd. induction k as [|k IH]; intros Hj.
  - by replace j with 0%nat by lia.
  - destruct (decide (j = S k)) as [->|Hne].
    + rewrite Nat.sub_diag. simpl take. simpl app. clear IH Hj. destruct Hd as [q ->].
      assert (forall n, (n <= S k)%nat -> digits w n (q * 2 ^ (w * Z.of_nat (S k))) = replicate n 0) as H; [|by apply H].
      induction n as [|n IHn]; intros Hn; [done|]. simpl digits. simpl replicate. rewrite IHn by lia. f_equal.
      replace (Z.of_nat (S k)) with (Z.of_nat n + 1 + Z.of_nat (k - n)) by lia.
      rewrite !Z.mul_add_distr_l, Z.mul_1_r, !Z.pow_add_r by nia.
      replace (q * (2 ^ (w * Z.of_nat n) * 2 ^ w * 2 ^ (w * Z.of_nat (k - n))))
        with (q * 2 ^ (w * Z.of_nat (k - n)) * 2 ^ w * 2 ^ (w * Z.of_nat n)) by ring.
      rewrite Z.div_mul by (apply Z.pow_nonzero; lia). apply Z.mod_mul, Z.pow_nonzero; lia.
    + replace (S k - j)%nat with (S (k - j)) by lia. simpl. f_equal. apply IH. lia.
Qed.

(** ** The reference encoding *)

Section rfc.
Context (w : Z) (k g : nat) (table : list Z).

Definition tab (i : Z) : Z := nth (Z.to_nat i) table 0.

(** Digits that carry bits of a group of [n] bytes. *)
Definition used (n : nat) : nat := Z.to_nat (howmany (8 * Z.of_nat n) w).

Definition group_value (bs : list Z) : Z := undigits 8 (bs ++ replicate (g - length bs) 0).

Definition rfc_group (bs : list Z) : list Z :=
  (tab <$> take (used (length bs)) (digits w k (group_value bs))) ++ replicate (k - used (length bs)) 61.

Fixpoint rfc_groups (n : nat) (l : list Z) : list Z :=
  match n, l with
  | S n, _ :: _ => rfc_group (take g l) ++ rfc_groups n (drop g l)
  | _, _ => []
  end.

Definition rfc4648 (l : list Z) : list Z := rfc_groups (length l) l.
End rfc.

(** ** The decoders *)

Section decode_defs.
Context (w : Z) (k g : nat) (dtable : list Z).

(** The loop body that both decoders share. *)
Definition dec_byte (s : decoder * dest_buf) (byte : Z) : R (decoder * dest_buf) :=
  let '(st, dest) := s in
  if is_space byte then mret (st, dest) else
  if decide (byte >= Z.of_nat (length dtable)) then stop else
  value ← at_index dtable byte;
  if decide (value = -1) then stop else
  let count := u64 (count st + 1) in
  let pad := if decide (value = -2) then u64 (pad st + 1) else pad st in
  let value := if decide (value = -2) then 0 else value in
  let x := u64 (u64 (x st .<< w) + value) in
  if decide (count mod Z.of_nat k = 0)
  then dest ← put dest (digits 8 g x); mret (mkDec x count pad, dest)
  else mret (mkDec x count pad, dest).

(** The character [c] stands for the value of [vp], or is padding. *)
Definition char_ok (c : Z) (vp : Z * bool) : Prop :=
  is_space c = false /\ 0 <= c < Z.of_nat (length dtable) /\ 0 <= vp.1 < 2 ^ w /\
  (vp.2 = true -> vp.1 = 0) /\ dtable !! Z.to_nat c = Some (if vp.2 then -2 else vp.1).

Definition pads (vps : list (Z * bool)) : Z := Z.of_nat (length (filter (fun vp => vp.2 = true) vps)).

End decode_defs.

(** What the decoders rely on: a group fills a whole number of bytes and fits in
    64 bits, the two tables are inverse, and padding replaces digits that carry
    no bit. *)
Class Scheme (w : Z) (k g : nat) (table dtable : list Z) : Prop := {
  sc_w : 0 < w;
  sc_k : (0 < k)%nat;
  sc_g : (0 < g)%nat;
  sc_bits : w * Z.of_nat k = 8 * Z.of_nat g;
  sc_64 : 8 * Z.of_nat g <= 64;
  sc_table : forall i, 0 <= i < 2 ^ w -> char_ok w dtable (tab table i) (i, false);
  sc_pad : char_ok w dtable 61 (0, true);
  sc_used : forall n, (0 < n <= g)%nat -> (used w n <= k)%nat /\ w * Z.of_nat (k - used w n) <= 8 * Z.of_nat (g - n);
}.

Section decode.
Context (w : Z) (k g : nat) (table dtable : list Z) `{SC : Scheme w k g table dtable}.

Let Hw : 0 < w. Proof. apply SC. Qed.
Let Hk : (0 < k)%nat. Proof. apply SC. Qed.
Let Hg : (0 < g)%nat. Proof. apply SC. Qed.
Let Hwk : w * Z.of_nat k = 8 * Z.of_nat g. Proof. apply SC. Qed.
Let H64 : 8 * Z.of_nat g <= 64. Proof. apply SC. Qed.
Let Htab : forall i, 0 <= i < 2 ^ w -> char_ok w dtable (tab table i) (i, false). Proof. apply SC. Qed.
Let Hpad : char_ok w dtable 61 (0, true). Proof. apply SC. Qed.
Let Hused : forall n, (0 < n <= g)%nat -> (used w n <= k)%nat /\ w * Z.of_nat (k - used w n) <= 8 * Z.of_nat (g - n).
Proof. apply SC. Qed.

Lemma pads_cons vp vps : pads (vp :: vps) = (if vp.2 then 1 else 0) + pads vps.
Proof. unfold pads. rewrite filter_cons. destruct vp as [v []]; simpl; lia. Qed.

Lemma dec_char c vp st dest : char_ok w dtable c vp -> 0 <= count st < 2 ^ 64 - 1 -> 0 <= pad st < 2 ^ 64 - 1 ->
  let st' := mkDec (u64 (x st * 2 ^ w + vp.1)) (count st + 1) (pad st + (if vp.2 then 1 else 0)) in
  dec_byte w k g dtable (st, dest) c =
    if decide ((count st + 1) mod Z.of_nat k = 0)
    then dest ← put dest (digits 8 g (x st')); mret (st', dest) else mret (st', dest).
Proof.
  intros (H1 & H2 & H3 & H4 & H5) Hc Hp. unfold dec_byte. rewrite H1. rewrite decide_False by lia.
  unfold at_index. rewrite decide_True, H5 by lia. cbn [mbind R_bind mret R_ret].
  assert (u64 (u64 (x st .<< w) + vp.1) = u64 (x st * 2 ^ w + vp.1)) as Ex.
  { rewrite Z.shiftl_mul_pow2 by lia. unfold wrap. by rewrite Zplus_mod_idemp_l. }
  rewrite (wrap_small 64 (count st + 1)) by lia. destruct vp as [v []]; cbn [fst snd] in *.
  - rewrite decide_False by done. rewrite !(decide_True (P := -2 = -2)) by done. rewrite (wrap_small 64 (pad st + 1)) by lia.
    rewrite H4 in Ex |- * by done. rewrite Ex. done.
  - rewrite decide_False by lia. rewrite !(decide_False (P := v = -2)) by lia. rewrite Ex, Z.add_0_r. done.
Qed.

(** A run of characters that does not go beyond the end of the group. *)
Lemma dec_chars cs vps : Forall2 (char_ok w dtable) cs vps -> forall st dest,
  0 <= count st -> count st + Z.of_nat (length cs) < 2 ^ 64 - 1 -> 0 <= pad st -> pad st + Z.of_nat (length cs) < 2 ^ 64 - 1 ->
  0 < Z.of_nat (length cs) -> count st mod Z.of_nat k + Z.of_nat (length cs) = Z.of_nat k ->
  let st' := mkDec (u64 (x st * 2 ^ (w * Z.of_nat (length cs)) + undigits w vps.*1))
                   (count st + Z.of_nat (length cs)) (pad st + pads vps) in
  fold_bytes (dec_byte w k g dtable) (st, dest) cs = dest ← put dest (digits 8 g (x st')); mret (st', dest).
Proof.
  induction 1 as [|c vp cs vps Hc Hcs IH]; intros st dest C1 C2 P1 P2 Hl Hm; [simpl in Hl; lia|].
  cbn [fold_bytes]. rewrite (dec_char c vp) by (done || simpl length in *; lia).
  pose proof (Z.mod_pos_bound (count st) (Z.of_nat k) ltac:(lia)) as Hb.
  pose proof (Z.div_mod (count st) (Z.of_nat k) ltac:(lia)) as Hd.
  pose proof (Forall2_length _ _ _ Hcs) as Hlen.
  destruct (decide (length cs = 0%nat)) as [E|E].
  - destruct cs; [|done]. inversion Hcs; subst. rewrite decide_True.
    2:{ replace (count st + 1) with ((count st / Z.of_nat k + 1) * Z.of_nat k) by (simpl length in Hm; lia). apply Z.mod_mul. lia. }
    simpl length. cbn [x]. rewrite pads_cons. unfold pads. simpl filter. simpl length. rewrite Z.add_0_r.
    replace (undigits w [vp.1]) with vp.1 by (unfold undigits; simpl; lia).
    replace (w * Z.of_nat 1) with w by lia.
    cbn [fmap list_fmap].
    replace (undigits w (vp.1 :: [])) with vp.1 by (unfold undigits; simpl; lia).
    destruct (put _ _) as [[]|]; done.
  - assert ((count st + 1) mod Z.of_nat k = count st mod Z.of_nat k + 1) as Hm1.
    { symmetry. apply Z.mod_unique with (count st / Z.of_nat k); [left; simpl length in *; lia|lia]. }
    rewrite decide_False by (rewrite Hm1; lia). cbn [mbind R_bind mret R_ret].
    rewrite IH; cbn [x count pad]; simpl length in *; rewrite ?Hm1; try lia; [|destruct vp as [? []]; simpl; lia..].
    cbn [fmap list_fmap]. rewrite undigits_cons by lia. rewrite length_fmap, <- Hlen, pads_cons.
    rewrite wrap_mul_add.
    replace ((x st * 2 ^ w + vp.1) * 2 ^ (w * Z.of_nat (length cs)) + undigits w vps.*1)
      with (x st * 2 ^ (w * Z.of_nat (S (length cs))) + (vp.1 * 2 ^ (w * Z.of_nat (length cs)) + undigits w vps.*1)).
    2:{ replace (w * Z.of_nat (S (length cs))) with (w + w * Z.of_nat (length cs)) by lia. rewrite Z.pow_add_r by lia. ring. }
    replace (count st + 1 + Z.of_nat (length cs)) with (count st + Z.of_nat (S (length cs))) by lia.
    rewrite (Z.add_assoc (pad st)). done.
Qed.

Lemma group_value_divide bs : (2 ^ (8 * Z.of_nat (g - length bs)) | group_value g bs).
Proof.
  unfold group_value. rewrite undigits_app, length_replicate by lia.
  assert (undigits 8 (replicate (g - length bs) 0) = 0) as ->.
  { induction (g - length bs)%nat as [|n IH]; [done|]. simpl replicate. rewrite undigits_cons by lia. lia. }
  rewrite Z.add_0_r. apply Z.divide_factor_r.
Qed.

(** The characters of a group, with what they stand for. *)
Lemma rfc_group_chars bs : (0 < length bs <= g)%nat -> exists vps,
  Forall2 (char_ok w dtable) (rfc_group w k g table bs) vps /\ vps.*1 = digits w k (group_value g bs) /\
  pads vps = Z.of_nat (k - used w (length bs)).
Proof.
  intros Hn. destruct (Hused (length bs) Hn) as [Hu1 Hu2]. set (u := used w (length bs)) in *.
  set (ds := digits w k (group_value g bs)).
  assert (Forall (fun d => 0 <= d < 2 ^ w) ds) as Hds.
  { unfold ds. clear -Hw. induction k as [|k' IH]; constructor; [apply Z.mod_pos_bound; lia|done]. }
  exists (((fun v => (v, false)) <$> take u ds) ++ replicate (k - u) (0, true)). split; [|split].
  - unfold rfc_group. fold u ds. apply Forall2_app.
    + rewrite Forall2_fmap. apply Forall_Forall2_diag. apply Forall_take. eapply Forall_impl; [exact Hds|]. simpl. auto.
    + by apply Forall2_replicate.
  - rewrite fmap_app, <- list_fmap_compose, fmap_replicate. simpl.
    assert (ds = take (k - (k - u)) ds ++ replicate (k - u) 0) as E.
    { apply digits_low_zero; [lia| |lia]. eapply Z.divide_trans; [|apply group_value_divide].
      exists (2 ^ (8 * Z.of_nat (g - length bs) - w * Z.of_nat (k - u))). rewrite <- Z.pow_add_r by nia. f_equal. lia. }
    replace (k - (k - u))%nat with u in E by lia. rewrite E at 2. f_equal. apply list_fmap_id.
  - unfold pads. rewrite filter_app, length_app.
    assert (forall l, filter (fun vp : Z * bool => vp.2 = true) ((fun v => (v, false)) <$> l) = []) as ->.
    { induction l as [|v l IH]; [done|]. rewrite fmap_cons, filter_cons_False by done. done. }
    assert (forall n, filter (fun vp : Z * bool => vp.2 = true) (replicate n (0, true)) = replicate n (0, true)) as ->.
    { induction n as [|n IH]; [done|]. simpl replicate. rewrite filter_cons_True by done. by rewrite IH. }
    rewrite length_replicate. simpl. done.
Qed.
Lemma fold_bytes_app {S} (f : S -> Z -> R S) l l' s :
  fold_bytes f s (l ++ l') = s ← fold_bytes f s l; fold_bytes f s l'.
Proof.
  revert s. induction l as [|b l IH]; intros s; simpl; [done|]. destruct (f s b) as [[s'|]|]; simpl; [apply IH|done..].
Qed.

Lemma length_rfc_group bs : (0 < length bs <= g)%nat -> length (rfc_group w k g table bs) = k.
Proof.
  intros Hn. destruct (Hused _ Hn) as [Hu _]. unfold rfc_group.
  rewrite length_app, length_fmap, length_take, length_digits, length_replicate. lia.
Qed.

Lemma group_bytes bs : bytes_ok bs -> (length bs <= g)%nat ->
  digits 8 g (group_value g bs) = bs ++ replicate (g - length bs) 0 /\ 0 <= group_value g bs < 2 ^ (8 * Z.of_nat g).
Proof.
  intros Hb Hn. assert (in_digits 8 (bs ++ replicate (g - length bs) 0)) as Hd.
  { apply Forall_app. split; [done|]. apply Forall_replicate. simpl. lia. }
  assert (length (bs ++ replicate (g - length bs) 0) = g) as Hl by (rewrite length_app, length_replicate; lia). split.
  - pose proof (digits_undigits 8 _ ltac:(lia) Hd) as E. by rewrite Hl in E.
  - pose proof (undigits_range 8 _ ltac:(lia) Hd) as E. by rewrite Hl in E.
Qed.

(** Decoding one group, padding included. *)
Lemma dec_group bs st dest : bytes_ok bs -> (0 < length bs <= g)%nat ->
  0 <= count st -> count st + Z.of_nat k < 2 ^ 64 - 1 -> count st mod Z.of_nat k = 0 ->
  0 <= pad st -> pad st + Z.of_nat k < 2 ^ 64 - 1 -> Z.of_nat (length (written dest)) + Z.of_nat g <= cap dest ->
  exists x', fold_bytes (dec_byte w k g dtable) (st, dest) (rfc_group w k g table bs) =
    Done (Some (mkDec x' (count st + Z.of_nat k) (pad st + Z.of_nat (k - used w (length bs))),
                mkDest (cap dest) (written dest ++ bs ++ replicate (g - length bs) 0))).
Proof.
  intros Hb Hn C1 C2 C3 P1 P2 Hcap. destruct (rfc_group_chars bs Hn) as (vps & Hv & Ev & Ep).
  pose proof (length_rfc_group bs Hn) as Hl. destruct (group_bytes bs Hb ltac:(lia)) as [Hd Hr].
  assert (digits 8 g (u64 (x st * 2 ^ (w * Z.of_nat k) + undigits w vps.*1)) = bs ++ replicate (g - length bs) 0) as E.
  { rewrite Ev, undigits_digits, Hwk by lia. rewrite (Z.mod_small (group_value g bs)) by done.
    unfold wrap. rewrite digits_mod by lia. rewrite <- (digits_mod 8 g (8 * Z.of_nat g)) by lia.
    rewrite Z.add_comm, Z_mod_plus_full, Z.mod_small by done. exact Hd. }
  rewrite (dec_chars _ vps Hv); rewrite ?Hl; try lia. cbn [x]. rewrite E, Ep. eexists.
  unfold put. rewrite decide_True; [done|]. rewrite length_app, length_replicate. lia.
Qed.

Lemma used_full : used w g = k.
Proof.
  unfold used, howmany. rewrite <- Hwk. replace (w * Z.of_nat k + (w - 1)) with (w - 1 + Z.of_nat k * w) by lia.
  rewrite Z.div_add, Z.div_small by lia. lia.
Qed.

(** Padding characters and filling bytes of the last group. *)
Definition pad_chars (n : nat) : nat := if decide (n mod g = 0)%nat then 0 else (k - used w (n mod g))%nat.
Definition fill_bytes (n : nat) : nat := if decide (n mod g = 0)%nat then 0 else (g - n mod g)%nat.

Lemma last_group n : (0 < n <= g)%nat -> pad_chars n = (k - used w n)%nat /\ fill_bytes n = (g - n)%nat.
Proof.
  intros Hn. unfold pad_chars, fill_bytes. destruct (decide (n = g)) as [->|].
  - rewrite Nat.Div0.mod_same. rewrite !decide_True by done. rewrite used_full. lia.
  - rewrite Nat.mod_small by lia. rewrite !decide_False by lia. done.
Qed.

Lemma earlier_group n : (g < n)%nat -> pad_chars (n - g) = pad_chars n /\ fill_bytes (n - g) = fill_bytes n.
Proof.
  intros Hn. unfold pad_chars, fill_bytes. assert ((n - g) mod g = n mod g)%nat as ->; [|done].
  replace n with (n - g + 1 * g)%nat at 2 by lia. by rewrite Nat.Div0.mod_add.
Qed.

Definition groups (n : nat) : Z := howmany (Z.of_nat n) (Z.of_nat g).

Lemma groups_0 : groups 0 = 0.
Proof. unfold groups, howmany. simpl. apply Z.div_small. lia. Qed.
Lemma groups_nonneg n : 0 <= groups n.
Proof. unfold groups, howmany. apply Z.div_pos; lia. Qed.
Lemma groups_step n : (0 < n)%nat -> groups n = groups (n - g) + 1.
Proof.
  intros Hn. unfold groups, howmany. destruct (decide (n <= g)%nat).
  - replace (n - g)%nat with 0%nat by lia. simpl. rewrite (Z.div_small (Z.of_nat g - 1)) by lia.
    symmetry. apply Z.div_unique with (Z.of_nat n - 1); lia.
  - replace (Z.of_nat n + (Z.of_nat g - 1)) with (Z.of_nat (n - g) + (Z.of_nat g - 1) + 1 * Z.of_nat g) by lia.
    rewrite Z.div_add by lia. done.
Qed.

Lemma length_rfc_groups n : forall l, (length l <= n)%nat -> Z.of_nat (length (rfc_groups w k g table n l)) = Z.of_nat k * groups (length l).
Proof.
  induction n as [|n IH]; intros [|b l] Hl; try (simpl length in *; rewrite groups_0; simpl; lia); [simpl in Hl; lia|].
  cbn [rfc_groups]. rewrite length_app, length_rfc_group by (rewrite length_take; simpl length; lia).
  rewrite Nat2Z.inj_add, IH by (rewrite length_drop; simpl length in *; lia).
  rewrite length_drop, (groups_step (length (b :: l))) by (simpl; lia). lia.
Qed.

Lemma length_rfc4648 l : Z.of_nat (length (rfc4648 w k g table l)) = Z.of_nat k * groups (length l).
Proof. by apply length_rfc_groups. Qed.

(** Decoding an encoding. *)
Lemma dec_groups n : forall l st dest, (length l <= n)%nat -> bytes_ok l ->
  0 <= count st -> count st + Z.of_nat k * groups (length l) < 2 ^ 64 - 1 -> count st mod Z.of_nat k = 0 ->
  0 <= pad st -> pad st + Z.of_nat k * groups (length l) < 2 ^ 64 - 1 ->
  Z.of_nat (length (written dest)) + Z.of_nat g * groups (length l) <= cap dest ->
  exists x' count', fold_bytes (dec_byte w k g dtable) (st, dest) (rfc_groups w k g table n l) =
    Done (Some (mkDec x' count' (pad st + Z.of_nat (pad_chars (length l))),
                mkDest (cap dest) (written dest ++ l ++ replicate (fill_bytes (length l)) 0))).
Proof.
  assert (pad_chars 0 = 0%nat /\ fill_bytes 0 = 0%nat) as [Ep0 Ef0].
  { unfold pad_chars, fill_bytes. rewrite Nat.Div0.mod_0_l. done. }
  induction n as [|n IH]; intros [|b l] st dest Hl Hb C1 C2 C3 P1 P2 Hcap; [| |clear IH|]; try (simpl in Hl; lia);
    try (exists (x st), (count st); simpl length; rewrite Ep0, Ef0, Z.add_0_r; simpl; rewrite app_nil_r; by destruct st, dest).
  cbn [rfc_groups]. set (m := b :: l) in *. assert (0 < length m)%nat as Hm by (simpl; lia). clearbody m.
  rewrite (groups_step (length m)) in C2, P2, Hcap by done. pose proof (groups_nonneg (length m - g)).
  rewrite fold_bytes_app. destruct (dec_group (take g m) st dest) as [x1 ->];
    rewrite ?length_take; try lia; [by apply Forall_take|]. cbn [mbind R_bind].
  destruct (decide (length m <= g)%nat) as [Hs|Hs].
  - rewrite drop_ge by lia. rewrite (take_ge m) by lia. replace (g `min` length m)%nat with (length m) by lia.
    destruct (last_group (length m)) as [-> ->]; [lia|]. exists x1, (count st + Z.of_nat k). by destruct n.
  - replace (g `min` length m)%nat with g by lia. rewrite used_full, !Nat.sub_diag. simpl replicate.
    rewrite app_nil_r, Z.add_0_r. destruct (earlier_group (length m)) as [Ep Ef]; [lia|].
    edestruct (IH (drop g m)) as (x2 & c2 & E2);
      cycle -1; [rewrite E2; cbn [written cap pad]; exists x2, c2; rewrite length_drop, Ep, Ef|..];
      cbn [count pad written cap]; rewrite ?length_drop, ?length_app, ?length_take; try lia.
    + rewrite <- app_assoc, (app_assoc (take g m)), take_drop. done.
    + by apply Forall_drop.
    + rewrite <- Zplus_mod_idemp_r, Z.mod_same, Z.add_0_r by lia. done.
Qed.

Lemma groups_le n : groups n <= Z.of_nat n.
Proof.
  unfold groups, howmany. destruct n as [|n]; [rewrite Z.div_small; lia|]. apply Z.div_le_upper_bound; nia.
Qed.

(** The decoders on the encoding of [l], from their initial state. *)
Lemma dec_rfc l c : bytes_ok l -> Z.of_nat (length l) < 2 ^ 57 -> Z.of_nat g * groups (length l) <= c ->
  exists x' count', fold_bytes (dec_byte w k g dtable) (mkDec 0 0 0, mkDest c []) (rfc4648 w k g table l) =
    Done (Some (mkDec x' count' (Z.of_nat (pad_chars (length l))), mkDest c (l ++ replicate (fill_bytes (length l)) 0))).
Proof.
  intros Hb Hl Hc. pose proof (groups_le (length l)). pose proof (groups_nonneg (length l)). assert (Z.of_nat k <= 64) by nia.
  destruct (dec_groups (length l) l (mkDec 0 0 0) (mkDest c [])) as (x' & c' & E); cbn [count pad written cap length]; try nia; try done.
  exists x', c'. unfold rfc4648. rewrite E. done.
Qed.
End decode.

(** ** The encoders *)

Section encode.
Context (g : nat) (Hg : (0 < g)%nat).
(** What the loop stores for a byte, given the position in the group and the byte
    before, and what the tail stores. *)
Context (e : Z -> Z -> Z -> list Z) (t : Z -> Z -> list Z).
Context (step : data -> Z -> list Z -> nat -> Z -> Z * dest_buf -> R (Z * dest_buf)).
Context (tail : Z -> Z -> dest_buf -> R dest_buf).
Context (He0 : forall last last' curr, e 0 last curr = e 0 last' curr).
Context (Hstep : forall d offset bytes i curr count dest last, 0 <= curr < 256 -> 0 <= count < 2 ^ 64 - 1 ->
  (count mod Z.of_nat g <> 0 -> last_byte d offset bytes i = Done (Some last) /\ 0 <= last < 256) ->
  Z.of_nat (length (written dest ++ e (count mod Z.of_nat g) last curr)) <= cap dest ->
  step d offset bytes i curr (count, dest) =
    Done (Some (count + 1, mkDest (cap dest) (written dest ++ e (count mod Z.of_nat g) last curr)))).
Context (Htail : forall final_byte count dest, 0 <= final_byte < 256 -> 0 <= count ->
  Z.of_nat (length (written dest ++ t (count mod Z.of_nat g) final_byte)) <= cap dest ->
  tail final_byte count dest = Done (Some (mkDest (cap dest) (written dest ++ t (count mod Z.of_nat g) final_byte)))).

Definition emit_at (l : list Z) (j : nat) : list Z :=
  e (Z.of_nat j mod Z.of_nat g) (nth (j - 1) l 0) (nth j l 0).
Definition emitted (l : list Z) (j : nat) : list Z := mjoin (emit_at l <$> seq 0 j).
Definition encoded (l : list Z) : list Z :=
  emitted l (length l) ++ t (Z.of_nat (length l) mod Z.of_nat g) (nth (length l - 1) l 0).

Lemma emitted_S l j : emitted l (S j) = emitted l j ++ emit_at l j.
Proof. unfold emitted. rewrite seq_S, fmap_app, join_app. simpl. by rewrite app_nil_r. Qed.

Lemma emitted_le l i j : (i <= j)%nat -> (length (emitted l i) <= length (emitted l j))%nat.
Proof. induction 1; [done|]. rewrite emitted_S, length_app. lia. Qed.

Lemma bytes_nth l j : bytes_ok l -> 0 <= nth j l 0 < 256.
Proof. intros Hl. revert j. induction Hl; intros [|j]; simpl; try lia; auto. Qed.

(** The byte before a position, also across a region boundary. *)
Lemma last_byte_ok d pre bytes post i : data_bytes d = pre ++ bytes ++ post -> Z.of_nat (length (data_bytes d)) < 2 ^ 63 ->
  (i < length bytes)%nat -> (0 < length pre + i)%nat ->
  last_byte d (Z.of_nat (length pre)) bytes i = Done (Some (nth (length pre + i - 1) (data_bytes d) 0)).
Proof.
  intros Hd H63 Hi Hpos. unfold last_byte. destruct i as [|i].
  - rewrite wrap_small by (rewrite Hd, length_app in H63; lia). unfold _dispatch_data_subrange_map, dispatch_data_create_subrange.
    set (sz := dispatch_data_get_size d). assert (Z.of_nat (length pre) - 1 < sz) as Hsz.
    { unfold sz, dispatch_data_get_size. rewrite Hd, !length_app. lia. }
    rewrite (decide_False (P := Z.of_nat (length pre) - 1 >= sz \/ 1 = 0)) by lia. set (s := take _ _).
    assert (s = [nth (length pre + 0 - 1) (data_bytes d) 0]) as Es.
    { unfold s. replace (Z.to_nat (Z.min 1 (sz - (Z.of_nat (length pre) - 1)))) with 1%nat by lia.
      replace (Z.to_nat (Z.of_nat (length pre) - 1)) with (length pre + 0 - 1)%nat by lia.
      assert (length pre + 0 - 1 < length (data_bytes d))%nat as Hl by (rewrite Hd, !length_app; lia).
      clear -Hl. revert Hl. generalize (length pre + 0 - 1)%nat (data_bytes d). intros n l. revert n.
      induction l as [|b l IH]; intros [|n] Hn; simpl in *; try lia; [by rewrite take_0|]. apply IH. lia. }
    rewrite Es. done.
  - unfold at_index. rewrite decide_True, Nat2Z.id by lia.
    destruct (lookup_lt_is_Some_2 bytes i) as [b Hb]; [lia|]. rewrite Hb.
    replace (length pre + S i - 1)%nat with (length pre + i)%nat by lia. rewrite Hd, app_nth2_plus, app_nth1 by lia.
    by rewrite (nth_lookup_Some _ _ _ _ Hb).
Qed.

Lemma encode_bytes_ok d pre bytes post c :
  data_bytes d = pre ++ bytes ++ post -> bytes_ok (data_bytes d) -> Z.of_nat (length (data_bytes d)) < 2 ^ 63 ->
  Z.of_nat (length (emitted (data_bytes d) (length (data_bytes d)))) <= c ->
  forall n i, (n + i = length bytes)%nat ->
  encode_bytes (step d (Z.of_nat (length pre)) bytes) i (drop i bytes)
      (Z.of_nat (length pre + i), mkDest c (emitted (data_bytes d) (length pre + i))) =
    Done (Some (Z.of_nat (length pre + length bytes), mkDest c (emitted (data_bytes d) (length pre + length bytes)))).
Proof.
  intros Hd Hb H63 Hc. set (all := data_bytes d) in *.
  assert (length all = length pre + length bytes + length post)%nat as Hlen by (rewrite Hd, !length_app; lia).
  induction n as [|n IH]; intros i Hi.
  - rewrite drop_ge by lia. by replace i with (length bytes) by lia.
  - destruct (lookup_lt_is_Some_2 bytes i) as [b Hbi]; [lia|]. rewrite (drop_S bytes b i Hbi). cbn [encode_bytes].
    assert (nth (length pre + i) all 0 = b) as Eb.
    { rewrite Hd, app_nth2_plus, app_nth1 by lia. by apply nth_lookup_Some. }
    rewrite (Hstep _ _ _ _ _ _ _ (nth (length pre + i - 1) all 0)); cbn [written cap mbind R_bind].
    + rewrite <- Eb. fold (emit_at all (length pre + i)). rewrite <- emitted_S.
      replace (Z.of_nat (length pre + i) + 1) with (Z.of_nat (length pre + S i)) by lia.
      replace (S (length pre + i))%nat with (length pre + S i)%nat by lia. apply IH. lia.
    + rewrite <- Eb. by apply bytes_nth.
    + lia.
    + intros Hm. split; [|by apply bytes_nth]. eapply last_byte_ok; try done; [lia|].
      destruct (length pre + i)%nat eqn:E; [|lia]. by rewrite Z.mod_0_l in Hm by lia.
    + rewrite <- Eb. fold (emit_at all (length pre + i)). rewrite <- emitted_S.
      pose proof (emitted_le all (S (length pre + i)) (length all)). lia.
Qed.

Definition encode_region (d : data) (total : Z) (s : Z * dest_buf) (offset : Z) (bytes : list Z) : R (Z * dest_buf) :=
  '(count, dest) ← encode_bytes (step d offset bytes) 0 bytes s;
  if decide (offset + Z.of_nat (length bytes) = total)
  then final_byte ← at_index bytes (Z.of_nat (length bytes) - 1);
       dest ← tail final_byte count dest; mret (count, dest)
  else mret (count, dest).

(** Over all the regions, however the bytes are split. *)
Lemma encode_regions_ok d c : bytes_ok (data_bytes d) -> Z.of_nat (length (data_bytes d)) < 2 ^ 63 ->
  Z.of_nat (length (encoded (data_bytes d))) <= c ->
  forall rest pre, rest <> [] -> Forall (fun r => r <> []) rest -> data_bytes d = pre ++ data_bytes rest ->
  apply_regions (encode_region d (dispatch_data_get_size d)) (Z.of_nat (length pre), mkDest c (emitted (data_bytes d) (length pre)))
      (Z.of_nat (length pre)) rest =
    Done (Some (dispatch_data_get_size d, mkDest c (encoded (data_bytes d)))).
Proof.
  intros Hb H63 Hc. unfold dispatch_data_get_size. set (all := data_bytes d) in *.
  induction rest as [|bytes rest IH]; intros pre Hne Hr Hd; [done|]. apply Forall_cons in Hr as [Hr1 Hr2].
  unfold data_bytes in Hd. simpl in Hd. fold (data_bytes rest) in Hd.
  assert (length all = length pre + length bytes + length (data_bytes rest))%nat as Hlen by (rewrite Hd, !length_app; lia).
  assert (0 < length bytes)%nat by (destruct bytes; simpl; [done|lia]).
  unfold encoded in Hc. rewrite length_app in Hc.
  cbn [apply_regions]. unfold encode_region at 2.
  pose proof (encode_bytes_ok d pre bytes (data_bytes rest) c Hd Hb H63 ltac:(fold all; lia) (length bytes) 0 ltac:(lia)) as E.
  rewrite drop_0, Nat.add_0_r in E. fold all in E. rewrite E. cbn [mbind R_bind].
  destruct (decide (Z.of_nat (length pre) + Z.of_nat (length bytes) = Z.of_nat (length all))) as [El|El].
  - assert (rest = []) as ->.
    { destruct rest as [|r rest]; [done|]. apply Forall_cons in Hr2 as [Hr2 _]. unfold data_bytes in Hlen. simpl in Hlen.
      rewrite length_app in Hlen. destruct r; simpl in *; [done|lia]. }
    assert (data_bytes [] = []) as E0 by done. rewrite E0, app_nil_r in Hd. 
    unfold at_index. rewrite decide_True by lia.
    destruct (lookup_lt_is_Some_2 bytes (length bytes - 1)) as [b Hbi]; [lia|].
    replace (Z.to_nat (Z.of_nat (length bytes) - 1)) with (length bytes - 1)%nat by lia. rewrite Hbi.
    assert (nth (length all - 1) all 0 = b) as Eb.
    { replace (length all - 1)%nat with (length pre + (length bytes - 1))%nat by lia.
      rewrite Hd, app_nth2_plus. by apply nth_lookup_Some. }
    cbn [mbind R_bind mret R_ret]. replace (length pre + length bytes)%nat with (length all) by lia.
    rewrite Htail; cbn [written cap]; rewrite <- ?Eb; [done|by apply bytes_nth|lia|rewrite length_app; lia].
  - cbn [mret R_ret]. rewrite <- Nat2Z.inj_add, <- length_app. apply IH; [|done|].
    + intros ->. apply El. assert (length (data_bytes []) = 0%nat) as E0 by done. lia.
    + by rewrite <- app_assoc.
Qed.

(** ** Against the reference *)

Context (w : Z) (k : nat) (table : list Z).
Context (Ht0 : forall b, t 0 b = []).
Context (Hfull : forall bs, bytes_ok bs -> length bs = g -> emitted bs g = rfc_group w k g table bs).
Context (Hpart : forall bs, bytes_ok bs -> (0 < length bs < g)%nat -> encoded bs = rfc_group w k g table bs).

Lemma emitted_group a l j : length a = g -> emitted (a ++ l) (g + j) = emitted a g ++ emitted l j.
Proof.
  intros Ha. assert (forall i, (i <= g)%nat -> emitted (a ++ l) i = emitted a i) as Hpre.
  { induction i as [|i IH]; intros Hi; [done|]. rewrite !emitted_S, IH by lia. f_equal. unfold emit_at.
    by rewrite !app_nth1 by lia. }
  induction j as [|j IH]; [rewrite Nat.add_0_r; unfold emitted at 3; simpl; rewrite app_nil_r; by apply Hpre|].
  rewrite Nat.add_succ_r, !emitted_S, IH, <- app_assoc. f_equal. f_equal. unfold emit_at.
  replace (Z.of_nat (g + j) mod Z.of_nat g) with (Z.of_nat j mod Z.of_nat g).
  2:{ rewrite Nat2Z.inj_add, <- (Zplus_mod_idemp_l (Z.of_nat g)), Z.mod_same, Z.add_0_l by lia. done. }
  rewrite <- Ha at 3. rewrite app_nth2_plus. destruct j as [|j].
  - rewrite Z.mod_0_l by lia. apply He0.
  - rewrite <- Ha at 2. rewrite <- Nat.add_sub_assoc, app_nth2_plus by lia. done.
Qed.

Lemma encoded_nil : encoded [] = [].
Proof. unfold encoded, emitted. simpl length. rewrite Z.mod_0_l, Ht0 by lia. done. Qed.

Lemma encoded_rfc n : forall l, (length l <= n)%nat -> bytes_ok l -> encoded l = rfc_groups w k g table n l.
Proof.
  induction n as [|n IH]; intros l Hl Hb; [destruct l; [apply encoded_nil|simpl in Hl; lia]|].
  destruct l as [|b l']; [apply encoded_nil|]. cbn [rfc_groups]. set (l := b :: l') in *.
  assert (0 < length l)%nat as Hpos by (simpl; lia). clearbody l. clear b l'.
  destruct (decide (length l < g)%nat) as [Hs|Hs].
  - rewrite take_ge, drop_ge by lia. rewrite Hpart by done. destruct n; simpl; by rewrite app_nil_r.
  - rewrite <- (IH (drop g l)); [|rewrite length_drop; lia|by apply Forall_drop].
    assert (length (take g l) = g) as Ht by (rewrite length_take; lia).
    rewrite <- Hfull by (done || by apply Forall_take).
    assert (encoded l = encoded (take g l ++ drop g l)) as -> by (by rewrite take_drop).
    unfold encoded at 1. rewrite length_app, Ht. rewrite emitted_group by done. rewrite <- app_assoc. f_equal.
    unfold encoded. f_equal.
    replace (Z.of_nat (g + length (drop g l)) mod Z.of_nat g) with (Z.of_nat (length (drop g l)) mod Z.of_nat g).
    2:{ rewrite Nat2Z.inj_add, <- (Zplus_mod_idemp_l (Z.of_nat g)), Z.mod_same, Z.add_0_l by lia. done. }
    destruct (length (drop g l)) as [|m] eqn:E; [rewrite Z.mod_0_l by lia; by rewrite !Ht0|].
    f_equal. rewrite <- Ht at 1. rewrite <- Nat.add_sub_assoc, app_nth2_plus by lia. done.
Qed.

(** The whole encoder: the regions, then the object over the full buffer. *)
Lemma encode_data dtable `{!Scheme w k g table dtable} d c : d <> [] -> Forall (fun r => r <> []) d ->
  bytes_ok (data_bytes d) -> dispatch_data_get_size d < 2 ^ 57 -> c = Z.of_nat k * groups g (length (data_bytes d)) ->
  ('(_, dest) ← apply_regions (encode_region d (dispatch_data_get_size d)) (0, mkDest c []) 0 d; data_create dest c) =
    Done (Some [rfc4648 w k g table (data_bytes d)]).
Proof.
  intros Hne Hr Hb Hl Hc.
  assert (encoded (data_bytes d) = rfc4648 w k g table (data_bytes d)) as Ee by (by apply encoded_rfc).
  pose proof (length_rfc4648 w k g table dtable (data_bytes d)) as El.
  pose proof (encode_regions_ok d c Hb) as E. rewrite Ee, El in E.
  specialize (E ltac:(unfold dispatch_data_get_size in *; lia) ltac:(lia) d [] Hne Hr eq_refl).
  change (Z.of_nat (length (@nil Z))) with 0 in E. change (emitted (data_bytes d) (length (@nil Z))) with (@nil Z) in E.
  rewrite E. cbn [mbind R_bind]. unfold data_create. cbn [written].
  assert (0 < length (data_bytes d))%nat as Hpos.
  { destruct d as [|r d]; [done|]. apply Forall_cons in Hr as [Hr _]. destruct r; [done|]. unfold data_bytes. simpl. lia. }
  pose proof (groups_nonneg w k g table dtable (length (data_bytes d) - g)) as Hgn.
  pose proof (groups_step w k g table dtable (length (data_bytes d)) Hpos) as Hgs.
  pose proof (sc_k (Scheme := _)). rewrite decide_False by nia. rewrite decide_True by lia.
  rewrite Hc, <- El, Nat2Z.id, firstn_all. done.
Qed.
End encode.
