(* ===== verification/BaseTransforms.v ===== *)
(** * The base 32 and base 64 transforms

    The encoders of [src/transform.c] produce the RFC 4648 encoding of the bytes
    however these are split into regions, and stay within their buffer; the
    decoders invert them.  The decoder of base 32 hex accepts nothing, and
    decoding padded data depends on the region boundaries. *)

From S2P Require Import Prelude Transform BaseCoding.
From stdpp Require Import strings.
Local Open Scope Z_scope.
Local Open Scope word_scope.

(** ** Exhaustive checks over bytes *)

Lemma all_bytes (P : Z -> bool) : forallb P (seqZ 0 256) = true -> forall a, 0 <= a < 256 -> P a = true.
Proof. intros H a Ha. rewrite forallb_forall in H. apply H. apply list_elem_of_In, elem_of_seqZ. lia. Qed.

Lemma all_bytes2 (P : Z -> Z -> bool) : forallb (fun a => forallb (P a) (seqZ 0 256)) (seqZ 0 256) = true ->
  forall a b, 0 <= a < 256 -> 0 <= b < 256 -> P a b = true.
Proof. intros H a b Ha Hb. eapply all_bytes; [|exact Hb]. revert a Ha. by apply all_bytes. Qed.

Ltac check1 := match goal with |- forall a, 0 <= a < 256 -> @?l a = @?r a =>
  intros a Ha; apply Z.eqb_eq; revert a Ha; apply (all_bytes (fun a => l a =? r a)); vm_compute; reflexivity end.
Ltac check2 := match goal with |- forall a b, 0 <= a < 256 -> 0 <= b < 256 -> @?l a b = @?r a b =>
  intros a b Ha Hb; apply Z.eqb_eq; revert a b Ha Hb; apply (all_bytes2 (fun a b => l a b =? r a b)); vm_compute; reflexivity end.

(** Equality of lists of known length, element by element. *)
Ltac list_eq := repeat match goal with |- _ :: _ = _ :: _ => apply f_equal2 end; try reflexivity.

Lemma at_index_ok l i : 0 <= i < Z.of_nat (length l) -> at_index l i = Done (Some (tab l i)).
Proof.
  intros Hi. unfold at_index, tab. rewrite decide_True by lia.
  destruct (lookup_lt_is_Some_2 l (Z.to_nat i)) as [b Hb]; [lia|]. by rewrite Hb, (nth_lookup_Some _ _ _ _ Hb).
Qed.

Lemma put_ok d bs : Z.of_nat (length (written d ++ bs)) <= cap d -> put d bs = Done (Some (mkDest (cap d) (written d ++ bs))).
Proof. intros H. unfold put. rewrite length_app in H. rewrite decide_True by lia. done. Qed.

Lemma land_mask x n : 0 <= n -> 0 <= x .& Z.ones n < 2 ^ n.
Proof. intros Hn. rewrite Z.land_ones by lia. apply Z.mod_pos_bound. lia. Qed.

(** ** Base 64 *)

Definition e64 (k last curr : Z) : list Z :=
  let t := tab base64_encode_table in
  match k with
  | 0 => [t (curr .>> 2 .& 0x3f)]
  | 1 => [t (((last .<< 4) .| (curr .>> 4)) .& 0x3f)]
  | _ => [t (((last .<< 2) .| (curr .>> 6)) .& 0x3f); t (curr .& 0x3f)]
  end.
Definition t64 (k b : Z) : list Z :=
  let t := tab base64_encode_table in
  match k with 0 => [] | 1 => [t ((b .<< 4) .& 0x30); 61; 61] | _ => [t ((b .<< 2) .& 0x3c); 61] end.

Lemma mod3_cases n : n mod 3 = 0 \/ n mod 3 = 1 \/ n mod 3 = 2.
Proof. pose proof (Z.mod_pos_bound n 3 ltac:(lia)). lia. Qed.

Lemma to_base64_step d offset bytes i curr count dest last : 0 <= curr < 256 -> 0 <= count < 2 ^ 64 - 1 ->
  (count mod Z.of_nat 3 <> 0 -> last_byte d offset bytes i = Done (Some last) /\ 0 <= last < 256) ->
  Z.of_nat (length (written dest ++ e64 (count mod Z.of_nat 3) last curr)) <= cap dest ->
  to_base64_byte d offset bytes i curr (count, dest) =
    Done (Some (count + 1, mkDest (cap dest) (written dest ++ e64 (count mod Z.of_nat 3) last curr))).
Proof.
  change (Z.of_nat 3) with 3. intros Hcurr Hcount Hlast Hcap. unfold to_base64_byte.
  assert (forall v, at_index base64_encode_table (v .& 0x3f) = Done (Some (tab base64_encode_table (v .& 0x3f)))) as Hat.
  { intros v. apply at_index_ok, (land_mask v 6). lia. }
  rewrite (wrap_small 64 (count + 1)) by lia.
  destruct (decide (count mod 3 <> 0)) as [Hn|Hn]; [destruct (Hlast Hn) as [-> _]|]; cbn [mbind R_bind mret R_ret];
    destruct (mod3_cases count) as [E|[E|E]]; rewrite E in *; try lia;
    rewrite !Hat; cbn [mbind R_bind]; rewrite put_ok by exact Hcap; done.
Qed.

Lemma land_30 : forall b, 0 <= b < 256 -> ((b .<< 4) .& 0x30) = (b mod 4) * 16.
Proof. check1. Qed.
Lemma land_3c : forall b, 0 <= b < 256 -> ((b .<< 2) .& 0x3c) = (b mod 16) * 4.
Proof. check1. Qed.
Lemma shr2 : forall b, 0 <= b < 256 -> (b .>> 2 .& 0x3f) = b / 4.
Proof. check1. Qed.
Lemma low6 : forall b, 0 <= b < 256 -> (b .& 0x3f) = b mod 64.
Proof. check1. Qed.
Lemma mix4 : forall a b, 0 <= a < 256 -> 0 <= b < 256 -> (((a .<< 4) .| (b .>> 4)) .& 0x3f) = (a mod 4) * 16 + b / 16.
Proof. check2. Qed.
Lemma mix2 : forall a b, 0 <= a < 256 -> 0 <= b < 256 -> (((a .<< 2) .| (b .>> 6)) .& 0x3f) = (a mod 16) * 4 + b / 64.
Proof. check2. Qed.

Lemma to_base64_tail final_byte count dest : 0 <= final_byte < 256 -> 0 <= count ->
  Z.of_nat (length (written dest ++ t64 (count mod Z.of_nat 3) final_byte)) <= cap dest ->
  base64_tail final_byte count dest = Done (Some (mkDest (cap dest) (written dest ++ t64 (count mod Z.of_nat 3) final_byte))).
Proof.
  change (Z.of_nat 3) with 3. intros Hb _ Hcap. unfold base64_tail.
  assert (length base64_encode_table = 64%nat) as Hl by reflexivity.
  destruct (mod3_cases count) as [E|[E|E]]; rewrite E in *; cbn [t64] in *.
  - rewrite app_nil_r. by destruct dest.
  - rewrite at_index_ok by (rewrite Hl, land_30 by done; Z.div_mod_to_equations; lia). cbn [mbind R_bind]. by rewrite put_ok.
  - rewrite at_index_ok by (rewrite Hl, land_3c by done; Z.div_mod_to_equations; lia). cbn [mbind R_bind]. by rewrite put_ok.
Qed.

Lemma digits64 a b c : 0 <= a < 256 -> 0 <= b < 256 -> 0 <= c < 256 ->
  digits 6 4 (undigits 8 [a; b; c]) = [a / 4; (a mod 4) * 16 + b / 16; (b mod 16) * 4 + c / 64; c mod 64].
Proof.
  intros. assert (undigits 8 [a; b; c] = (a * 256 + b) * 256 + c) as -> by (unfold undigits; simpl foldl; lia).
  set (v := (a * 256 + b) * 256 + c).
  change (digits 6 4 v) with [v / 262144 mod 64; v / 4096 mod 64; v / 64 mod 64; v / 1 mod 64].
  unfold v. list_eq; Z.div_mod_to_equations; lia.
Qed.

Lemma e64_full bs : bytes_ok bs -> length bs = 3%nat -> emitted 3 e64 bs 3 = rfc_group 6 4 3 base64_encode_table bs.
Proof.
  intros Hb Hl. destruct bs as [|a [|b [|c [|]]]]; try done. apply Forall_cons in Hb as [Ha Hb].
  apply Forall_cons in Hb as [Hb Hc]. apply Forall_cons in Hc as [Hc _].
  change (emitted 3 e64 [a; b; c] 3) with ((tab base64_encode_table) <$> [a .>> 2 .& 0x3f; ((a .<< 4) .| (b .>> 4)) .& 0x3f;
    ((b .<< 2) .| (c .>> 6)) .& 0x3f; c .& 0x3f]).
  rewrite shr2, mix4, mix2, low6, <- digits64 by done. reflexivity.
Qed.

Lemma e64_part bs : bytes_ok bs -> (0 < length bs < 3)%nat -> encoded 3 e64 t64 bs = rfc_group 6 4 3 base64_encode_table bs.
Proof.
  intros Hb Hl. destruct bs as [|a [|b [|]]]; simpl length in Hl; try lia; apply Forall_cons in Hb as [Ha Hb].
  - change (encoded 3 e64 t64 [a]) with ((tab base64_encode_table <$> [a .>> 2 .& 0x3f; (a .<< 4) .& 0x30]) ++ [61; 61]).
    assert (rfc_group 6 4 3 base64_encode_table [a] = (tab base64_encode_table <$> take 2 (digits 6 4 (undigits 8 [a; 0; 0]))) ++ [61; 61]) as -> by reflexivity.
    rewrite digits64, shr2, land_30 by (done || lia). simpl take. f_equal. f_equal. list_eq; Z.div_mod_to_equations; lia.
  - apply Forall_cons in Hb as [Hb _].
    change (encoded 3 e64 t64 [a; b]) with ((tab base64_encode_table <$> [a .>> 2 .& 0x3f; ((a .<< 4) .| (b .>> 4)) .& 0x3f; (b .<< 2) .& 0x3c]) ++ [61]).
    assert (rfc_group 6 4 3 base64_encode_table [a; b] = (tab base64_encode_table <$> take 3 (digits 6 4 (undigits 8 [a; b; 0]))) ++ [61]) as -> by reflexivity.
    rewrite digits64, shr2, mix4, land_3c by (done || lia). simpl take. f_equal. f_equal. list_eq; Z.div_mod_to_equations; lia.
Qed.

Lemma from_base64_byte_eq s b : from_base64_byte s b = dec_byte 6 4 3 base64_decode_table s b.
Proof.
  unfold from_base64_byte, dec_byte, base64_decode_table_size. destruct s as [st dest].
  destruct (is_space b); [done|]. destruct (decide _); [done|]. destruct (at_index _ _) as [[v|]|]; [|done..].
  cbn [mbind R_bind]. destruct (decide (v = -1)); [done|]. change 0x3 with (Z.ones 2). rewrite Z.land_ones by lia.
  change (2 ^ 2) with (Z.of_nat 4). set (y := u64 (u64 (x st .<< 6) + _)).
  assert ([y .>> 16 .& 0xff; y .>> 8 .& 0xff; y .& 0xff] = digits 8 3 y) as ->; [|done].
  change 0xff with (Z.ones 8). rewrite !Z.land_ones, !Z.shiftr_div_pow2 by lia.
  change (digits 8 3 y) with [y / 2 ^ 16 mod 2 ^ 8; y / 2 ^ 8 mod 2 ^ 8; y / 1 mod 2 ^ 8]. by rewrite Z.div_1_r.
Qed.

Lemma fold_bytes_ext {S} (f f' : S -> Z -> R S) l : (forall s b, f s b = f' s b) -> forall s, fold_bytes f s l = fold_bytes f' s l.
Proof.
  intros Hf. induction l as [|b l IH]; intros s; simpl; [done|]. rewrite Hf. destruct (f' s b) as [[]|]; simpl; auto.
Qed.

(** The facts about the tables, by evaluation. *)
Definition char_okb (w : Z) (dtable : list Z) (c v : Z) (p : bool) : bool :=
  negb (is_space c) && (0 <=? c) && (c <? Z.of_nat (length dtable)) && (0 <=? v) && (v <? 2 ^ w) &&
  (negb p || (v =? 0)) && bool_decide (dtable !! Z.to_nat c = Some (if p then -2 else v)).

Lemma char_okb_ok w dtable c v p : char_okb w dtable c v p = true -> char_ok w dtable c (v, p).
Proof.
  unfold char_okb. rewrite !andb_true_iff. intros ((((((H1 & H2) & H3) & H4) & H5) & H6) & H7).
  apply negb_true_iff in H1. reflect_bools. apply Z.leb_le in H4. apply Z.ltb_lt in H3.
  split; [done|]. split; [lia|]. split; [simpl; lia|]. split; [|done].
  simpl. intros ->. simpl in H6. lia.
Qed.

Lemma table_ok w table dtable :
  forallb (fun i => char_okb w dtable (tab table i) i false) (seqZ 0 (2 ^ w)) = true ->
  forall i, 0 <= i < 2 ^ w -> char_ok w dtable (tab table i) (i, false).
Proof.
  intros H i Hi. apply char_okb_ok. rewrite forallb_forall in H. apply H. apply list_elem_of_In, elem_of_seqZ. lia.
Qed.

#[export] Instance base64_scheme : Scheme 6 4 3 base64_encode_table base64_decode_table.
Proof.
  split; try lia.
  - apply table_ok. vm_compute. reflexivity.
  - apply char_okb_ok. reflexivity.
  - intros n Hn. destruct n as [|[|[|[|]]]]; try lia; vm_compute; split; try lia; congruence.
Qed.

Lemma pad64 n : (pad_chars 6 4 3 n = fill_bytes 3 n)%nat.
Proof.
  unfold pad_chars, fill_bytes. destruct (decide _); [done|]. pose proof (Nat.mod_upper_bound n 3 ltac:(lia)) as H.
  destruct (n mod 3)%nat as [|[|[|]]]; [done|done|done|lia].
Qed.

Lemma howmany_mul k n : 0 < k -> howmany (k * n) k = n.
Proof.
  intros Hk. unfold howmany. replace (k * n + (k - 1)) with (k - 1 + n * k) by lia.
  rewrite Z.div_add, Z.div_small by lia. lia.
Qed.

(** Cutting the filling off. *)
Lemma data_create_fill c l f : l <> [] -> data_create (mkDest c (l ++ replicate f 0)) (Z.of_nat (length l)) = Done (Some [l]).
Proof.
  intros Hne. assert (0 < length l)%nat by (destruct l; simpl; [done|lia]). unfold data_create. cbn [written].
  rewrite decide_False by lia. rewrite decide_True by (rewrite length_app; lia). by rewrite Nat2Z.id, take_app_length.
Qed.

(** The decoder on an encoding in one region. *)
Lemma from_base64_rfc malloc_ok l : l <> [] -> bytes_ok l -> Z.of_nat (length l) < 2 ^ 57 ->
  malloc_ok (howmany (Z.of_nat (length l)) 3 * 3) = true ->
  _dispatch_transform_from_base64 malloc_ok [rfc4648 6 4 3 base64_encode_table l] = Done (Some [l]).
Proof.
  intros Hne Hb Hl Hm. unfold _dispatch_transform_from_base64, dispatch_data_apply. cbn [apply_regions]. unfold from_base64_region.
  rewrite (length_rfc4648 6 4 3 _ base64_decode_table).
  change (Z.of_nat 4) with 4. rewrite howmany_mul by lia. unfold malloc, groups. change (Z.of_nat 3) with 3. rewrite Hm. cbn [mbind R_bind mret R_ret].
  rewrite (fold_bytes_ext _ _ _ from_base64_byte_eq).
  destruct (dec_rfc 6 4 3 base64_encode_table base64_decode_table l (howmany (Z.of_nat (length l)) 3 * 3) Hb Hl) as (x' & c' & ->);
    [unfold groups; change (Z.of_nat 3) with 3; lia|]. cbn [mbind R_bind pad written]. rewrite pad64, length_app, length_replicate.
  set (f := fill_bytes 3 (length l)).
  assert ((if decide (Z.of_nat f > 0) then u64 (Z.of_nat (length l + f) - Z.of_nat f) else Z.of_nat (length l + f))
          = Z.of_nat (length l)) as ->.
  { destruct (decide (Z.of_nat f > 0)); [rewrite wrap_small by lia|]; lia. }
  by rewrite data_create_fill.
Qed.

(** The encoder, for any split into regions. *)
Lemma to_base64_rfc malloc_ok d : d <> [] -> Forall (fun r => r <> []) d -> bytes_ok (data_bytes d) ->
  dispatch_data_get_size d < 2 ^ 57 -> malloc_ok (howmany (dispatch_data_get_size d) 3 * 4) = true ->
  _dispatch_transform_to_base64 malloc_ok d = Done (Some [rfc4648 6 4 3 base64_encode_table (data_bytes d)]).
Proof.
  intros Hne Hr Hb Hl Hm. unfold _dispatch_transform_to_base64, malloc.
  rewrite decide_False by (unfold howmany, SIZE_MAX, dispatch_data_get_size in *; Z.div_mod_to_equations; lia).
  rewrite Hm. cbn [mbind R_bind mret R_ret].
  eapply (encode_data 3 ltac:(lia) e64 t64 to_base64_byte base64_tail); auto using to_base64_step, to_base64_tail, e64_full, e64_part, base64_scheme.
  unfold groups, dispatch_data_get_size. change (Z.of_nat 3) with 3. change (Z.of_nat 4) with 4. lia.
Qed.

(** ** Base 32 *)

Definition e32 (table : list Z) (k last curr : Z) : list Z :=
  let t := tab table in
  match k with
  | 0 => [t (curr .>> 3 .& 0x1f)]
  | 1 => [t (((last .<< 2) .| (curr .>> 6)) .& 0x1f); t (curr .>> 1 .& 0x1f)]
  | 2 => [t (((last .<< 4) .| (curr .>> 4)) .& 0x1f)]
  | 3 => [t (((last .<< 1) .| (curr .>> 7)) .& 0x1f); t (curr .>> 2 .& 0x1f)]
  | _ => [t (((last .<< 3) .| (curr .>> 5)) .& 0x1f); t (curr .& 0x1f)]
  end.
Definition t32 (table : list Z) (k b : Z) : list Z :=
  let t := tab table in
  match k with
  | 0 => []
  | 1 => [t ((b .<< 2) .& 0x1c); 61; 61; 61; 61; 61; 61]
  | 2 => [t ((b .<< 4) .& 0x10); 61; 61; 61; 61]
  | 3 => [t ((b .<< 1) .& 0x1e); 61; 61; 61]
  | _ => [t ((b .<< 3) .& 0x18); 61]
  end.

Lemma mod5_cases n : n mod 5 = 0 \/ n mod 5 = 1 \/ n mod 5 = 2 \/ n mod 5 = 3 \/ n mod 5 = 4.
Proof. pose proof (Z.mod_pos_bound n 5 ltac:(lia)). lia. Qed.

Lemma shr3 : forall b, 0 <= b < 256 -> (b .>> 3 .& 0x1f) = b / 8.
Proof. check1. Qed.
Lemma mid1 : forall b, 0 <= b < 256 -> (b .>> 1 .& 0x1f) = (b mod 64) / 2.
Proof. check1. Qed.
Lemma mid2 : forall b, 0 <= b < 256 -> (b .>> 2 .& 0x1f) = (b mod 128) / 4.
Proof. check1. Qed.
Lemma low5 : forall b, 0 <= b < 256 -> (b .& 0x1f) = b mod 32.
Proof. check1. Qed.
Lemma mix32_1 : forall a b, 0 <= a < 256 -> 0 <= b < 256 -> (((a .<< 2) .| (b .>> 6)) .& 0x1f) = (a mod 8) * 4 + b / 64.
Proof. check2. Qed.
Lemma mix32_2 : forall a b, 0 <= a < 256 -> 0 <= b < 256 -> (((a .<< 4) .| (b .>> 4)) .& 0x1f) = (a mod 2) * 16 + b / 16.
Proof. check2. Qed.
Lemma mix32_3 : forall a b, 0 <= a < 256 -> 0 <= b < 256 -> (((a .<< 1) .| (b .>> 7)) .& 0x1f) = (a mod 16) * 2 + b / 128.
Proof. check2. Qed.
Lemma mix32_4 : forall a b, 0 <= a < 256 -> 0 <= b < 256 -> (((a .<< 3) .| (b .>> 5)) .& 0x1f) = (a mod 4) * 8 + b / 32.
Proof. check2. Qed.
Lemma land_1c : forall b, 0 <= b < 256 -> ((b .<< 2) .& 0x1c) = (b mod 8) * 4.
Proof. check1. Qed.
Lemma land_10 : forall b, 0 <= b < 256 -> ((b .<< 4) .& 0x10) = (b mod 2) * 16.
Proof. check1. Qed.
Lemma land_1e : forall b, 0 <= b < 256 -> ((b .<< 1) .& 0x1e) = (b mod 16) * 2.
Proof. check1. Qed.
Lemma land_18 : forall b, 0 <= b < 256 -> ((b .<< 3) .& 0x18) = (b mod 4) * 8.
Proof. check1. Qed.

Lemma digits32 a b c d e : 0 <= a < 256 -> 0 <= b < 256 -> 0 <= c < 256 -> 0 <= d < 256 -> 0 <= e < 256 ->
  digits 5 8 (undigits 8 [a; b; c; d; e]) =
    [a / 8; (a mod 8) * 4 + b / 64; (b mod 64) / 2; (b mod 2) * 16 + c / 16; (c mod 16) * 2 + d / 128;
     (d mod 128) / 4; (d mod 4) * 8 + e / 32; e mod 32].
Proof.
  intros. assert (undigits 8 [a; b; c; d; e] = (((a * 256 + b) * 256 + c) * 256 + d) * 256 + e) as -> by (unfold undigits; simpl foldl; lia).
  set (v := _ + e).
  change (digits 5 8 v) with [v / 2 ^ 35 mod 32; v / 2 ^ 30 mod 32; v / 2 ^ 25 mod 32; v / 2 ^ 20 mod 32; v / 2 ^ 15 mod 32;
    v / 2 ^ 10 mod 32; v / 2 ^ 5 mod 32; v / 1 mod 32].
  unfold v. eval_pow2. list_eq; Z.div_mod_to_equations; lia.
Qed.

Section base32.
Context (table : list Z) (Htable : length table = 32%nat).

Lemma to_base32_step d offset bytes i curr count dest last : 0 <= curr < 256 -> 0 <= count < 2 ^ 64 - 1 ->
  (count mod Z.of_nat 5 <> 0 -> last_byte d offset bytes i = Done (Some last) /\ 0 <= last < 256) ->
  Z.of_nat (length (written dest ++ e32 table (count mod Z.of_nat 5) last curr)) <= cap dest ->
  to_base32_byte table d offset bytes i curr (count, dest) =
    Done (Some (count + 1, mkDest (cap dest) (written dest ++ e32 table (count mod Z.of_nat 5) last curr))).
Proof.
  change (Z.of_nat 5) with 5. intros Hcurr Hcount Hlast Hcap. unfold to_base32_byte.
  assert (forall v, at_index table (v .& 0x1f) = Done (Some (tab table (v .& 0x1f)))) as Hat.
  { intros v. apply at_index_ok. rewrite Htable. apply (land_mask v 5). lia. }
  rewrite (wrap_small 64 (count + 1)) by lia.
  destruct (decide (count mod 5 <> 0)) as [Hn|Hn]; [destruct (Hlast Hn) as [-> _]|]; cbn [mbind R_bind mret R_ret];
    destruct (mod5_cases count) as [E|[E|[E|[E|E]]]]; rewrite E in *; try lia;
    rewrite !Hat; cbn [mbind R_bind]; rewrite put_ok by exact Hcap; done.
Qed.

Lemma to_base32_tail final_byte count dest : 0 <= final_byte < 256 -> 0 <= count ->
  Z.of_nat (length (written dest ++ t32 table (count mod Z.of_nat 5) final_byte)) <= cap dest ->
  base32_tail table final_byte count dest = Done (Some (mkDest (cap dest) (written dest ++ t32 table (count mod Z.of_nat 5) final_byte))).
Proof.
  change (Z.of_nat 5) with 5. intros Hb _ Hcap. unfold base32_tail.
  destruct (mod5_cases count) as [E|[E|[E|[E|E]]]]; rewrite E in *; cbn [t32] in *;
    [rewrite app_nil_r; by destruct dest|rewrite at_index_ok; [cbn [mbind R_bind]; by rewrite put_ok|]..];
    rewrite Htable; [rewrite land_1c by done|rewrite land_10 by done|rewrite land_1e by done|rewrite land_18 by done];
    Z.div_mod_to_equations; lia.
Qed.

Lemma e32_full bs : bytes_ok bs -> length bs = 5%nat -> emitted 5 (e32 table) bs 5 = rfc_group 5 8 5 table bs.
Proof.
  intros Hb Hl. destruct bs as [|a [|b [|c [|d [|e [|]]]]]]; try done. repeat (apply Forall_cons in Hb as [? Hb]).
  change (emitted 5 (e32 table) [a; b; c; d; e] 5) with (tab table <$> [a .>> 3 .& 0x1f; ((a .<< 2) .| (b .>> 6)) .& 0x1f;
    b .>> 1 .& 0x1f; ((b .<< 4) .| (c .>> 4)) .& 0x1f; ((c .<< 1) .| (d .>> 7)) .& 0x1f; d .>> 2 .& 0x1f;
    ((d .<< 3) .| (e .>> 5)) .& 0x1f; e .& 0x1f]).
  rewrite shr3, mix32_1, mid1, mix32_2, mix32_3, mid2, mix32_4, low5, <- digits32 by done. reflexivity.
Qed.

Lemma e32_part bs : bytes_ok bs -> (0 < length bs < 5)%nat -> encoded 5 (e32 table) (t32 table) bs = rfc_group 5 8 5 table bs.
Proof.
  intros Hb Hl. destruct bs as [|a [|b [|c [|d [|]]]]]; simpl length in Hl; try lia; repeat (apply Forall_cons in Hb as [? Hb]).
  - transitivity ((tab table <$> [a .>> 3 .& 0x1f; (a .<< 2) .& 0x1c]) ++ replicate 6 61); [reflexivity|].
    transitivity ((tab table <$> take 2 (digits 5 8 (undigits 8 [a; 0; 0; 0; 0]))) ++ replicate 6 61); [|reflexivity].
    rewrite digits32, shr3, land_1c by (done || lia). simpl take. f_equal. f_equal. list_eq; Z.div_mod_to_equations; lia.
  - transitivity ((tab table <$> [a .>> 3 .& 0x1f; ((a .<< 2) .| (b .>> 6)) .& 0x1f; b .>> 1 .& 0x1f; (b .<< 4) .& 0x10]) ++ replicate 4 61);
      [reflexivity|].
    transitivity ((tab table <$> take 4 (digits 5 8 (undigits 8 [a; b; 0; 0; 0]))) ++ replicate 4 61); [|reflexivity].
    rewrite digits32, shr3, mix32_1, mid1, land_10 by (done || lia). simpl take. f_equal. f_equal. list_eq; Z.div_mod_to_equations; lia.
  - transitivity ((tab table <$> [a .>> 3 .& 0x1f; ((a .<< 2) .| (b .>> 6)) .& 0x1f; b .>> 1 .& 0x1f; ((b .<< 4) .| (c .>> 4)) .& 0x1f;
      (c .<< 1) .& 0x1e]) ++ replicate 3 61); [reflexivity|].
    transitivity ((tab table <$> take 5 (digits 5 8 (undigits 8 [a; b; c; 0; 0]))) ++ replicate 3 61); [|reflexivity].
    rewrite digits32, shr3, mix32_1, mid1, mix32_2, land_1e by (done || lia). simpl take. f_equal. f_equal. list_eq; Z.div_mod_to_equations; lia.
  - transitivity ((tab table <$> [a .>> 3 .& 0x1f; ((a .<< 2) .| (b .>> 6)) .& 0x1f; b .>> 1 .& 0x1f; ((b .<< 4) .| (c .>> 4)) .& 0x1f;
      ((c .<< 1) .| (d .>> 7)) .& 0x1f; d .>> 2 .& 0x1f; (d .<< 3) .& 0x18]) ++ replicate 1 61); [reflexivity|].
    transitivity ((tab table <$> take 7 (digits 5 8 (undigits 8 [a; b; c; d; 0]))) ++ replicate 1 61); [|reflexivity].
    rewrite digits32, shr3, mix32_1, mid1, mix32_2, mix32_3, mid2, land_18 by (done || lia). simpl take. f_equal. f_equal.
    list_eq; Z.div_mod_to_equations; lia.
Qed.

Lemma to_base32_rfc dtable `{!Scheme 5 8 5 table dtable} malloc_ok d : d <> [] -> Forall (fun r => r <> []) d ->
  bytes_ok (data_bytes d) -> dispatch_data_get_size d < 2 ^ 57 -> malloc_ok (howmany (dispatch_data_get_size d) 5 * 8) = true ->
  _dispatch_transform_to_base32_with_table malloc_ok d table = Done (Some [rfc4648 5 8 5 table (data_bytes d)]).
Proof.
  intros Hne Hr Hb Hl Hm. unfold _dispatch_transform_to_base32_with_table, malloc.
  rewrite decide_False by (unfold howmany, SIZE_MAX, dispatch_data_get_size in *; Z.div_mod_to_equations; lia).
  rewrite Hm. cbn [mbind R_bind mret R_ret].
  eapply (encode_data 5 ltac:(lia) (e32 table) (t32 table) (to_base32_byte table) (base32_tail table));
    eauto using to_base32_step, to_base32_tail, e32_full, e32_part.
  unfold groups, dispatch_data_get_size. change (Z.of_nat 5) with 5. change (Z.of_nat 8) with 8. lia.
Qed.
End base32.

Lemma from_base32_byte_eq table s b :
  from_base32_byte table (Z.of_nat (length table)) s b = dec_byte 5 8 5 table s b.
Proof.
  unfold from_base32_byte, dec_byte. destruct s as [st dest].
  destruct (is_space b); [done|]. destruct (decide _); [done|]. destruct (at_index _ _) as [[v|]|]; [|done..].
  cbn [mbind R_bind]. destruct (decide (v = -1)); [done|]. change 0x7 with (Z.ones 3). rewrite Z.land_ones by lia.
  change (2 ^ 3) with (Z.of_nat 8). set (y := u64 (u64 (x st .<< 5) + _)).
  assert ([y .>> 32 .& 0xff; y .>> 24 .& 0xff; y .>> 16 .& 0xff; y .>> 8 .& 0xff; y .& 0xff] = digits 8 5 y) as ->; [|done].
  change 0xff with (Z.ones 8). rewrite !Z.land_ones, !Z.shiftr_div_pow2 by lia.
  change (digits 8 5 y) with [y / 2 ^ 32 mod 2 ^ 8; y / 2 ^ 24 mod 2 ^ 8; y / 2 ^ 16 mod 2 ^ 8; y / 2 ^ 8 mod 2 ^ 8; y / 1 mod 2 ^ 8].
  by rewrite Z.div_1_r.
Qed.

Ltac base32_scheme_tac := split; try lia;
  [apply table_ok; vm_compute; reflexivity|apply char_okb_ok; reflexivity
  |intros n Hn; destruct n as [|[|[|[|[|[|]]]]]]; try lia; vm_compute; split; try lia; congruence].

#[export] Instance base32_scheme : Scheme 5 8 5 base32_encode_table base32_decode_table.
Proof. base32_scheme_tac. Qed.
(** Read to its full length, the table for base 32 hex is right as well. *)
#[export] Instance base32hex_scheme : Scheme 5 8 5 base32hex_encode_table base32hex_decode_table.
Proof. base32_scheme_tac. Qed.

(** The number of padding characters determines what to cut off. *)
Lemma base32_final_ok n : Z.of_nat n < 2 ^ 57 ->
  base32_final (Z.of_nat (n + fill_bytes 5 n)) (Z.of_nat (pad_chars 5 8 5 n)) = Z.of_nat n.
Proof.
  intros Hn. unfold base32_final, pad_chars, fill_bytes. destruct (decide (n mod 5 = 0)%nat); [simpl; rewrite wrap_small; lia|].
  pose proof (Nat.mod_upper_bound n 5 ltac:(lia)). destruct (n mod 5)%nat as [|[|[|[|[|]]]]]; try lia.
  all: match goal with |- context [Z.of_nat (?a - used ?w ?b)] => let v := eval vm_compute in (Z.of_nat (a - used w b)) in
         change (Z.of_nat (a - used w b)) with v end.
  all: match goal with |- context [if decide (?p = 1) then _ else _] =>
         let v := eval vm_compute in (if decide (p = 1) then 1 else if decide (p = 3) then 2
                else if decide (p = 4) then 3 else if decide (p = 6) then 4 else 0) in
         change (if decide (p = 1) then 1 else if decide (p = 3) then 2
                else if decide (p = 4) then 3 else if decide (p = 6) then 4 else 0) with v end.
  all: rewrite wrap_small; lia.
Qed.

Lemma from_base32_rfc malloc_ok l : l <> [] -> bytes_ok l -> Z.of_nat (length l) < 2 ^ 57 ->
  malloc_ok (howmany (Z.of_nat (length l)) 5 * 5) = true ->
  _dispatch_transform_from_base32 malloc_ok [rfc4648 5 8 5 base32_encode_table l] = Done (Some [l]).
Proof.
  intros Hne Hb Hl Hm. unfold _dispatch_transform_from_base32, _dispatch_transform_from_base32_with_table, dispatch_data_apply.
  cbn [apply_regions]. unfold from_base32_region. rewrite (length_rfc4648 5 8 5 _ base32_decode_table).
  change (Z.of_nat 8) with 8. rewrite howmany_mul by lia. unfold malloc, groups. change (Z.of_nat 5) with 5. rewrite Hm.
  cbn [mbind R_bind mret R_ret]. unfold base32_decode_table_size. rewrite (fold_bytes_ext _ _ _ (from_base32_byte_eq _)).
  destruct (dec_rfc 5 8 5 base32_encode_table base32_decode_table l (howmany (Z.of_nat (length l)) 5 * 5) Hb Hl) as (x' & c' & ->);
    [unfold groups; change (Z.of_nat 5) with 5; lia|]. cbn [mbind R_bind pad written]. rewrite length_app, length_replicate.
  by rewrite base32_final_ok, data_create_fill.
Qed.

(** Base 32 hex: no byte below the bound is a digit. *)
Lemma hex_byte st dest b : 0 <= b < 256 -> is_space b = false ->
  from_base32_byte base32hex_decode_table base32hex_decode_table_size (st, dest) b = Done None.
Proof.
  intros Hb0 Hb1. unfold from_base32_byte. rewrite Hb1. destruct (decide _) as [|Hlt]; [done|].
  unfold base32hex_decode_table_size in Hlt. simpl in Hlt.
  assert (tab base32hex_decode_table b = -1) as Et.
  { assert (forallb (fun b => tab base32hex_decode_table b =? -1) (seqZ 0 33) = true) as Hall by reflexivity.
    rewrite forallb_forall in Hall. apply Z.eqb_eq, Hall, list_elem_of_In, elem_of_seqZ. lia. }
  rewrite at_index_ok by (simpl; lia). cbn [mbind R_bind]. rewrite Et. done.
Qed.

Lemma space_byte table n st dest b : is_space b = true -> from_base32_byte table n (st, dest) b = Done (Some (st, dest)).
Proof. intros Hb. unfold from_base32_byte. by rewrite Hb. Qed.

Lemma fold_spaces table n bytes : forall s, forallb is_space bytes = true -> fold_bytes (from_base32_byte table n) s bytes = Done (Some s).
Proof.
  induction bytes as [|b bytes IH]; intros [st dest] Hs; [done|]. simpl in Hs. apply andb_true_iff in Hs as [Hs1 Hs2].
  cbn [fold_bytes]. rewrite space_byte by done. by apply IH.
Qed.

Lemma hex_bytes bytes : forall s, bytes_ok bytes -> forallb is_space bytes = false ->
  fold_bytes (from_base32_byte base32hex_decode_table base32hex_decode_table_size) s bytes = Done None.
Proof.
  induction bytes as [|b bytes IH]; intros [st dest] Hb Hs; [done|]. apply Forall_cons in Hb as [Hb0 Hb1]. simpl in Hs.
  cbn [fold_bytes]. destruct (is_space b) eqn:E; [rewrite space_byte by done; by apply IH|by rewrite hex_byte].
Qed.

(** ** Properties *)

Section properties.
Context (malloc_ok : Z -> bool).

(** The objects transformed: non-empty regions of bytes, of less than 2^57 bytes
    in all, for which memory can be had. *)
Record transformable (d : data) : Prop := {
  tr_nonempty : d <> [];
  tr_regions : Forall (fun r => r <> []) d;
  tr_bytes : bytes_ok (data_bytes d);
  tr_size : dispatch_data_get_size d < 2 ^ 57;
  tr_malloc : forall n, 0 <= n < 2 ^ 60 -> malloc_ok n = true;
}.

Lemma malloc_howmany d a b : transformable d -> 1 < a -> 0 <= b <= 8 -> malloc_ok (howmany (dispatch_data_get_size d) a * b) = true.
Proof.
  intros [_ _ _ Hs Hm] Ha Hb. apply Hm. assert (0 <= dispatch_data_get_size d) by (unfold dispatch_data_get_size; lia).
  assert (0 <= howmany (dispatch_data_get_size d) a < 2 ^ 57); [|nia]. unfold howmany. split; [apply Z.div_pos; lia|].
  apply Z.div_lt_upper_bound; nia.
Qed.

(** The alphabets of RFC 4648 (tables 1, 3 and 4), as ranges of ASCII codes: capital and
    small letters, digits, plus and slash; capital letters and the digits from 2; digits
    and the capital letters up to V. *)
Definition RFC_BASE64 : list Z := seqZ 65 26 ++ seqZ 97 26 ++ seqZ 48 10 ++ [43; 47].
Definition RFC_BASE32 : list Z := seqZ 65 26 ++ seqZ 50 6.
Definition RFC_BASE32HEX : list Z := seqZ 48 10 ++ seqZ 65 22.

Lemma encode_tables_rfc : base64_encode_table = RFC_BASE64 /\ base32_encode_table = RFC_BASE32 /\ base32hex_encode_table = RFC_BASE32HEX.
Proof. by vm_compute. Qed.

(** C36: The base 64, base 32 and base 32 hex encoders produce exactly the RFC 4648
    encoding of the bytes of the object, whatever its regions, and fill their
    buffer to the last byte without overrunning it.  The groups, the padding and the
    alphabets are those of the RFC, written out independently of the tables of the code. *)
Theorem encoders_rfc4648 d : transformable d ->
  _dispatch_transform_to_base64 malloc_ok d = Done (Some [rfc4648 6 4 3 RFC_BASE64 (data_bytes d)]) /\
  _dispatch_transform_to_base32 malloc_ok d = Done (Some [rfc4648 5 8 5 RFC_BASE32 (data_bytes d)]) /\
  _dispatch_transform_to_base32hex malloc_ok d = Done (Some [rfc4648 5 8 5 RFC_BASE32HEX (data_bytes d)]).
Proof.
  destruct encode_tables_rfc as (<- & <- & <-). intros Ht. pose proof Ht as [H1 H2 H3 H4 H5]. split; [|split].
  - apply to_base64_rfc; try done. apply malloc_howmany; (done || lia).
  - eapply to_base32_rfc; try done; [apply base32_scheme|]. apply malloc_howmany; (done || lia).
  - eapply to_base32_rfc; try done; [apply base32hex_scheme|]. apply malloc_howmany; (done || lia).
Qed.

(** C37: Base 64 and base 32 round trip: decoding what the encoder produced gives
    the bytes of the object back, in one region. *)
Theorem base_roundtrip d : transformable d ->
  (e ← _dispatch_transform_to_base64 malloc_ok d; _dispatch_transform_from_base64 malloc_ok e) = Done (Some [data_bytes d]) /\
  (e ← _dispatch_transform_to_base32 malloc_ok d; _dispatch_transform_from_base32 malloc_ok e) = Done (Some [data_bytes d]).
Proof.
  intros Ht. pose proof Ht as [H1 H2 H3 H4 H5].
  assert (data_bytes d <> []) as Hne.
  { destruct d as [|r d]; [done|]. apply Forall_cons in H2 as [H2 _]. by destruct r. }
  rewrite to_base64_rfc by (done || apply malloc_howmany; (done || lia)).
  unfold _dispatch_transform_to_base32. rewrite (to_base32_rfc base32_encode_table eq_refl base32_decode_table)
    by (done || apply malloc_howmany; (done || lia)).
  cbn [mbind R_bind]. split.
  - apply from_base64_rfc; try done. apply (malloc_howmany d); (done || lia).
  - apply from_base32_rfc; try done. apply (malloc_howmany d); (done || lia).
Qed.

(** The base 32 hex decoder rejects every object that has a byte other than
    white space, so in particular everything its own encoder produces: it bounds
    the index by the size of the encode table, below which the decode table holds
    no digit. *)
Theorem base32hex_decode_rejects d : bytes_ok (data_bytes d) ->
  forallb is_space (data_bytes d) = false -> (forall n, malloc_ok n = true) ->
  _dispatch_transform_from_base32hex malloc_ok d = Done None.
Proof.
  intros Hb Hsp Hm. unfold _dispatch_transform_from_base32hex, _dispatch_transform_from_base32_with_table, dispatch_data_apply.
  assert (forall regions rv off, bytes_ok (data_bytes regions) -> forallb is_space (data_bytes regions) = false ->
    apply_regions (from_base32_region malloc_ok base32hex_decode_table base32hex_decode_table_size) (mkDec 0 0 0, rv) off regions
      = Done None) as Hregions; [|by rewrite Hregions].
  induction regions as [|bytes regions IH]; intros rv off Hb0 Hs; [done|].
  unfold data_bytes in Hb0, Hs. simpl in Hb0, Hs. fold (data_bytes regions) in Hb0, Hs.
  apply Forall_app in Hb0 as [Hb0 Hb1]. rewrite forallb_app in Hs. cbn [apply_regions]. unfold from_base32_region at 2.
  unfold malloc. rewrite Hm. cbn [mbind R_bind mret R_ret]. destruct (forallb is_space bytes) eqn:E.
  - rewrite fold_spaces by done. cbn [mbind R_bind pad written length]. change (base32_final (Z.of_nat 0) 0) with 0.
    cbn [data_create]. by apply IH.
  - by rewrite hex_bytes.
Qed.
End properties.

(** "QQ==" and a line feed. *)
Definition padded : list Z := [81; 81; 61; 61].
Definition newline : list Z := [10].

(** The decoders remember the padding of earlier regions: with a line feed
    after the padding, base 64 data decodes when it is one region, but when the
    line feed is a region of its own the size of its (empty) output is reduced
    below zero, and the object created extends beyond its buffer. *)
Theorem decode_depends_on_regions malloc_ok : (forall n, malloc_ok n = true) ->
  data_bytes [padded ++ newline] = data_bytes [padded; newline] /\
  _dispatch_transform_from_base64 malloc_ok [padded ++ newline] = Done (Some [[65]]) /\
  _dispatch_transform_from_base64 malloc_ok [padded; newline] = Crash InvalidAccess.
Proof.
  intros Hm. split; [reflexivity|].
  unfold _dispatch_transform_from_base64, dispatch_data_apply. cbn [apply_regions]. unfold from_base64_region, malloc.
  rewrite !Hm. split; reflexivity.
Qed.

Definition hello : data := [[104]; [101; 108; 108]; [111]].

Lemma hello_transformable : transformable (fun _ => true) hello.
Proof. split; try done; [repeat constructor; discriminate|repeat constructor; lia]. Qed.

Lemma encoders_rfc4648_witness :
  _dispatch_transform_to_base64 (fun _ => true) hello = Done (Some [codes "aGVsbG8="]).
Proof. destruct (encoders_rfc4648 _ _ hello_transformable) as [-> _]. vm_compute. reflexivity. Defined.

Lemma base_roundtrip_witness :
  (e ← _dispatch_transform_to_base64 (fun _ => true) hello; _dispatch_transform_from_base64 (fun _ => true) e) = Done (Some [codes "hello"]).
Proof. destruct (base_roundtrip _ _ hello_transformable) as [-> _]. vm_compute. reflexivity. Defined.

Lemma base32hex_decode_rejects_witness :
  _dispatch_transform_to_base32hex (fun _ => true) hello = Done (Some [codes "D1IMOR3F"]) /\
  _dispatch_transform_from_base32hex (fun _ => true) [codes "D1IMOR3F"] = Done None.
Proof.
  split; [vm_compute; reflexivity|]. apply base32hex_decode_rejects; [repeat constructor; lia|reflexivity|done].
Defined.

Lemma decode_depends_on_regions_witness :
  _dispatch_transform_from_base64 (fun _ => true) [padded; newline] = Crash InvalidAccess.
Proof. by apply decode_depends_on_regions. Defined.
