(* ===== verification/Utf.v ===== *)
(** * UTF transforms

    Models the UTF-8 and UTF-16 part of [src/transform.c] on a little-endian
    host, its growing output buffer, and [dispatch_data_create_with_transform]
    with the table of formats.  Reading past the region or the mapped range is a
    crash, except for the eight-byte load of [_dispatch_transform_from_utf16]
    from a mapping of two bytes, of which only the two bytes are used. *)

From S2P Require Import Prelude Transform BaseCoding BaseTransforms.
Local Open Scope Z_scope.
Local Open Scope word_scope.

(** ** The output buffer *)

Record dispatch_transform_buffer_s := mkTB {
  tb_data : data;
  tb_start : option (list Z);     (* the bytes from start to ptr; None is NULL *)
  tb_size : Z;
}.

Definition BUFFER_MALLOC_MAX : Z := 100 * 1024 * 1024.

Inductive byte_order := OSLittleEndian | OSBigEndian.

#[export] Instance byte_order_eq_dec : EqDecision byte_order.
Proof. solve_decision. Defined.

Definition bswap16 (x : Z) : Z := u16 (x .<< 8) .| (x .>> 8).

Definition _dispatch_transform_swap_to_host (x : Z) (byteOrder : byte_order) : Z :=
  if decide (byteOrder = OSLittleEndian) then x else bswap16 x.
Definition _dispatch_transform_swap_from_host (x : Z) (byteOrder : byte_order) : Z :=
  if decide (byteOrder = OSLittleEndian) then x else bswap16 x.

Definition tb_written (b : dispatch_transform_buffer_s) : list Z := default [] (tb_start b).

(** [*(buffer.ptr.u8)++ = ...] for each of the bytes. *)
Definition tb_put (b : dispatch_transform_buffer_s) (bs : list Z) : R dispatch_transform_buffer_s :=
  match tb_start b with
  | None => bad_access
  | Some w => if decide (Z.of_nat (length w) + Z.of_nat (length bs) <= tb_size b)
              then mret (mkTB (tb_data b) (Some (w ++ bs)) (tb_size b)) else bad_access
  end.

(** The bytes of a 16-bit store on the host. *)
Definition store16 (x : Z) : list Z := [x .& 0xff; x .>> 8 .& 0xff].

(** [*(buffer.ptr.u16)++ = _dispatch_transform_swap_from_host(x, byteOrder)]. *)
Definition tb_put16 (byteOrder : byte_order) (b : dispatch_transform_buffer_s) (x : Z) : R dispatch_transform_buffer_s :=
  tb_put b (store16 (_dispatch_transform_swap_from_host (u16 x) byteOrder)).

Section transforms.
Context (malloc_ok : Z -> bool).

Definition _dispatch_transform_buffer_new (b : dispatch_transform_buffer_s) (required size : Z)
    : R dispatch_transform_buffer_s :=
  let remaining := u64 (tb_size b - Z.of_nat (length (tb_written b))) in
  if decide (required = 0 \/ remaining < required) then
    let data := match tb_start b with
                | Some [] | None => tb_data b
                | Some w => dispatch_data_create_concat (tb_data b) [w]
                end in
    let size := u64 (required + size) in
    if decide (size > 0) then
      if decide (size > BUFFER_MALLOC_MAX) then stop
      else if malloc_ok size then mret (mkTB data (Some []) size) else stop
    else mret (mkTB data None size)
  else mret b.

Definition tb_new : dispatch_transform_buffer_s := mkTB [] None 0.

(** ** UTF-8 *)

Definition _dispatch_transform_utf8_length (byte : Z) : Z :=
  if decide (byte .& 0x80 = 0) then 1
  else if decide (byte .& 0xe0 = 0xc0) then 2
  else if decide (byte .& 0xf0 = 0xe0) then 3
  else if decide (byte .& 0xf8 = 0xf0) then 4
  else 0.

(** The loop over the continuation bytes. *)
Fixpoint read_continuation (seq_length : nat) (wch : Z) (bytes : list Z) : R Z :=
  match seq_length with
  | O => mret wch
  | S n => match bytes with
           | [] => bad_access
           | b :: bytes => let wch := wch .| (b .& 0x3f) in
                           read_continuation n (match n with O => wch | S _ => u32 (wch .<< 6) end) bytes
           end
  end.

Definition _dispatch_transform_read_utf8_sequence (bytes : list Z) : R Z :=
  match bytes with
  | [] => bad_access
  | b :: bytes =>
      let seq_length := _dispatch_transform_utf8_length b in
      let wch := match seq_length with
                 | 4 => u32 ((b .& 0x7) .<< 6)
                 | 3 => u32 ((b .& 0xf) .<< 6)
                 | 2 => u32 ((b .& 0x1f) .<< 6)
                 | 1 => b .& 0x7f
                 | _ => 0
                 end in
      read_continuation (Z.to_nat (u8 (seq_length - 1))) wch bytes
  end.

(** ** To UTF-16 *)

(** [skip] and the buffer, shared by the blocks. *)
Definition utf_state : Type := Z * dispatch_transform_buffer_s.

(** Storing a code point as one or two units. *)
Definition put_utf16 (byteOrder : byte_order) (b : dispatch_transform_buffer_s) (wch next : Z) : R dispatch_transform_buffer_s :=
  if decide (wch >= 0xd800 /\ wch < 0xdfff) then stop
  else if decide (wch >= 0x10000) then
    b ← _dispatch_transform_buffer_new b (2 * 2) next;
    let wch := wch - 0x10000 in
    b ← tb_put16 byteOrder b ((wch .>> 10 .& 0x3ff) + 0xd800);
    tb_put16 byteOrder b ((wch .& 0x3ff) + 0xdc00)
  else
    b ← _dispatch_transform_buffer_new b (1 * 2) next;
    tb_put16 byteOrder b (wch .& 0xffff).

(** The loop over a region; [src] is what remains of it at [src], and there are
    at most as many rounds as bytes. *)
Fixpoint to_utf16_loop (rounds : nat) (d : data) (byteOrder : byte_order) (offset size i : Z) (src : list Z) (s : utf_state)
    : R utf_state :=
  match rounds with
  | O => mret s
  | S rounds =>
      if decide (i < size) then
        let '(skip, buffer) := s in
        byte ← at_index src 0;
        let byte_size := _dispatch_transform_utf8_length byte in
        if decide (byte_size = 0) then stop else
        '(wch, skip, src, i) ← (if decide (byte_size + i > size) then
            match _dispatch_data_subrange_map d (offset + i) byte_size with
            | None => stop
            | Some p => wch ← _dispatch_transform_read_utf8_sequence p;
                        mret (wch, u64 (skip + (byte_size - (size - i))), drop (Z.to_nat byte_size) src, size)
            end
          else
            wch ← _dispatch_transform_read_utf8_sequence src;
            mret (wch, skip, drop (Z.to_nat byte_size) src, i + byte_size));
        if decide ((size - i) * 2 > SIZE_MAX) then stop else
        let next := (size - i) * 2 in
        buffer ← (if decide (wch = 0xfeff /\ offset + i = 3) then mret buffer else put_utf16 byteOrder buffer wch next);
        to_utf16_loop rounds d byteOrder offset size i src (skip, buffer)
      else mret s
  end.

Definition to_utf16_region (d : data) (byteOrder : byte_order) (s : utf_state) (offset : Z) (bytes : list Z) : R utf_state :=
  let '(skip, buffer) := s in
  let size := Z.of_nat (length bytes) in
  buffer ← (if decide (offset = 0) then
      if decide (size * 2 + 2 > SIZE_MAX) then stop else
      buffer ← _dispatch_transform_buffer_new buffer (size * 2 + 2) 0;
      tb_put16 byteOrder buffer 0xfeff
    else mret buffer);
  if decide (skip >= size) then mret (skip - size, buffer) else
  let src := drop (Z.to_nat skip) bytes in
  let size := size - skip in
  '(skip, buffer) ← to_utf16_loop (length src) d byteOrder offset size 0 src (0, buffer);
  buffer ← _dispatch_transform_buffer_new buffer 0 0;
  mret (skip, buffer).

Definition _dispatch_transform_to_utf16 (d : data) (byteOrder : byte_order) : R data :=
  '(_, buffer) ← dispatch_data_apply d (to_utf16_region d byteOrder) (0, tb_new);
  mret (tb_data buffer).
(** ** From UTF-16 *)

(** [src[i]] of a region seen as 16-bit units. *)
Definition load16 (src : list Z) (i : Z) : R Z :=
  lo ← at_index src (2 * i); hi ← at_index src (2 * i + 1); mret (lo .| (hi .<< 8)).

Definition put_utf8 (b : dispatch_transform_buffer_s) (wch next : Z) : R dispatch_transform_buffer_s :=
  if decide (wch < 0x80) then
    b ← _dispatch_transform_buffer_new b 1 next; tb_put b [u8 (wch .& 0xff)]
  else if decide (wch < 0x800) then
    b ← _dispatch_transform_buffer_new b 2 next; tb_put b [u8 (0xc0 .| (wch .>> 6)); u8 (0x80 .| (wch .& 0x3f))]
  else if decide (wch < 0x10000) then
    b ← _dispatch_transform_buffer_new b 3 next;
    tb_put b [u8 (0xe0 .| (wch .>> 12)); u8 (0x80 .| (wch .>> 6 .& 0x3f)); u8 (0x80 .| (wch .& 0x3f))]
  else if decide (wch < 0x200000) then
    b ← _dispatch_transform_buffer_new b 4 next;
    tb_put b [u8 (0xf0 .| (wch .>> 18)); u8 (0x80 .| (wch .>> 12 .& 0x3f)); u8 (0x80 .| (wch .>> 6 .& 0x3f)); u8 (0x80 .| (wch .& 0x3f))]
  else mret b.

(** Reading the unit at [offset + 2 * i] of the object. *)
Definition map16 (d : data) (offset i : Z) : R Z :=
  match _dispatch_data_subrange_map d (offset + i * 2) 2 with None => stop | Some p => load16 p 0 end.

Fixpoint from_utf16_loop (rounds : nat) (d : data) (byteOrder : byte_order) (offset size max i : Z) (src : list Z) (s : utf_state)
    : R utf_state :=
  match rounds with
  | O => mret s
  | S rounds =>
      if decide (i < max) then
        let '(skip, buffer) := s in
        '(ch, skip) ← (if decide (i = max - 1 /\ max > size / 2) then
            ch ← map16 d offset i; mret (_dispatch_transform_swap_to_host ch byteOrder, skip + 1)
          else ch ← load16 src i; mret (_dispatch_transform_swap_to_host ch byteOrder, skip));
        if decide (ch = 0xfffe /\ offset = 0 /\ i = 0) then stop
        else if decide (ch = 0xfeff /\ offset = 0 /\ i = 0) then
          from_utf16_loop rounds d byteOrder offset size max (i + 1) src (skip, buffer)
        else
          '(wch, skip, i) ← (if decide (ch >= 0xd800 /\ ch <= 0xdbff) then
              let wch := (ch - 0xd800) .<< 10 in
              let i := i + 1 in
              '(ch, skip) ← (if decide (i >= max) then ch ← map16 d offset i; mret (_dispatch_transform_swap_to_host ch byteOrder, skip + 2)
                             else ch ← load16 src i; mret (_dispatch_transform_swap_to_host ch byteOrder, skip));
              if decide (~ (ch >= 0xdc00 /\ ch <= 0xdfff)) then stop
              else mret ((wch .| (ch .& 0x3ff)) + 0x10000, skip, i)
            else if decide (ch >= 0xdc00 /\ ch <= 0xdfff) then stop
            else mret (ch, skip, i));
          if decide (u64 (max - i) * 2 > SIZE_MAX) then stop else
          buffer ← put_utf8 buffer wch (u64 (max - i) * 2);
          from_utf16_loop rounds d byteOrder offset size max (i + 1) src (skip, buffer)
      else mret s
  end.

Definition from_utf16_region (d : data) (byteOrder : byte_order) (s : utf_state) (offset : Z) (bytes : list Z) : R utf_state :=
  let '(skip, buffer) := s in
  let size := Z.of_nat (length bytes) in
  buffer ← (if decide (offset = 0) then _dispatch_transform_buffer_new buffer (howmany size 3 * 2) 0 else mret buffer);
  if decide (skip >= size) then mret (skip - size, buffer) else
  let src := drop (Z.to_nat skip) bytes in
  let size := size - skip in
  let max := size / 2 in
  let max := if decide (size mod 2 <> 0) then max + 1 else max in
  '(skip, buffer) ← from_utf16_loop (Z.to_nat max) d byteOrder offset size max 0 src (0, buffer);
  buffer ← _dispatch_transform_buffer_new buffer 0 0;
  mret (skip, buffer).

Definition _dispatch_transform_from_utf16 (d : data) (byteOrder : byte_order) : R data :=
  '(_, buffer) ← dispatch_data_apply d (from_utf16_region d byteOrder) (0, tb_new);
  mret (tb_data buffer).

Definition _dispatch_transform_from_utf16le (d : data) : R data := _dispatch_transform_from_utf16 d OSLittleEndian.
Definition _dispatch_transform_from_utf16be (d : data) : R data := _dispatch_transform_from_utf16 d OSBigEndian.
Definition _dispatch_transform_to_utf16le (d : data) : R data := _dispatch_transform_to_utf16 d OSLittleEndian.
Definition _dispatch_transform_to_utf16be (d : data) : R data := _dispatch_transform_to_utf16 d OSBigEndian.

Definition utf8_bom : list Z := [0xef; 0xbb; 0xbf].

Definition _dispatch_transform_to_utf8_without_bom (d : data) : R data :=
  let has_bom := match _dispatch_data_subrange_map d 0 3 with Some p => bool_decide (p = utf8_bom) | None => false end in
  if has_bom then mret (dispatch_data_create_subrange d 3 (dispatch_data_get_size d - 3)) else mret d.

(** ** Formats *)

Definition _DISPATCH_DATA_FORMAT_NONE : Z := 0x1.
Definition _DISPATCH_DATA_FORMAT_UTF8 : Z := 0x2.
Definition _DISPATCH_DATA_FORMAT_UTF16LE : Z := 0x4.
Definition _DISPATCH_DATA_FORMAT_UTF16BE : Z := 0x8.
Definition _DISPATCH_DATA_FORMAT_UTF_ANY : Z := 0x10.
Definition _DISPATCH_DATA_FORMAT_BASE32 : Z := 0x20.
Definition _DISPATCH_DATA_FORMAT_BASE32HEX : Z := 0x40.
Definition _DISPATCH_DATA_FORMAT_BASE64 : Z := 0x80.

Record dispatch_data_format_type_s := {
  ft_type : Z;
  input_mask : Z;
  output_mask : Z;
  decode : option (data -> R data);
  encode : option (data -> R data);
}.

Definition base_mask : Z :=
  _DISPATCH_DATA_FORMAT_NONE .| _DISPATCH_DATA_FORMAT_BASE32 .| _DISPATCH_DATA_FORMAT_BASE32HEX .| _DISPATCH_DATA_FORMAT_BASE64.
Definition utf_mask : Z :=
  _DISPATCH_DATA_FORMAT_UTF8 .| _DISPATCH_DATA_FORMAT_UTF16BE .| _DISPATCH_DATA_FORMAT_UTF16LE.

Definition _dispatch_data_format_type_none := {|
  ft_type := _DISPATCH_DATA_FORMAT_NONE; input_mask := lnotw 32 0; output_mask := lnotw 32 0; decode := None; encode := None |}.
Definition _dispatch_data_format_type_base32 := {|
  ft_type := _DISPATCH_DATA_FORMAT_BASE32; input_mask := base_mask; output_mask := base_mask;
  decode := Some (_dispatch_transform_from_base32 malloc_ok); encode := Some (_dispatch_transform_to_base32 malloc_ok) |}.
Definition _dispatch_data_format_type_base32hex := {|
  ft_type := _DISPATCH_DATA_FORMAT_BASE32HEX; input_mask := base_mask; output_mask := base_mask;
  decode := Some (_dispatch_transform_from_base32hex malloc_ok); encode := Some (_dispatch_transform_to_base32hex malloc_ok) |}.
Definition _dispatch_data_format_type_base64 := {|
  ft_type := _DISPATCH_DATA_FORMAT_BASE64; input_mask := base_mask; output_mask := base_mask;
  decode := Some (_dispatch_transform_from_base64 malloc_ok); encode := Some (_dispatch_transform_to_base64 malloc_ok) |}.
Definition _dispatch_data_format_type_utf16le := {|
  ft_type := _DISPATCH_DATA_FORMAT_UTF16LE; input_mask := utf_mask; output_mask := utf_mask;
  decode := Some _dispatch_transform_from_utf16le; encode := Some _dispatch_transform_to_utf16le |}.
Definition _dispatch_data_format_type_utf16be := {|
  ft_type := _DISPATCH_DATA_FORMAT_UTF16BE; input_mask := utf_mask; output_mask := utf_mask;
  decode := Some _dispatch_transform_from_utf16be; encode := Some _dispatch_transform_to_utf16be |}.
Definition _dispatch_data_format_type_utf8 := {|
  ft_type := _DISPATCH_DATA_FORMAT_UTF8; input_mask := utf_mask; output_mask := utf_mask;
  decode := None; encode := Some _dispatch_transform_to_utf8_without_bom |}.
Definition _dispatch_data_format_type_utf_any := {|
  ft_type := _DISPATCH_DATA_FORMAT_UTF_ANY; input_mask := 0; output_mask := 0; decode := None; encode := None |}.

(** On a little-endian host. *)
Definition _dispatch_transform_detect_utf (d : data) : R dispatch_data_format_type_s :=
  match _dispatch_data_subrange_map d 0 2 with
  | None => stop
  | Some p =>
      ch ← load16 p 0;
      mret (if decide (ch = 0xfeff) then _dispatch_data_format_type_utf16le
            else if decide (ch = 0xfffe) then _dispatch_data_format_type_utf16be
            else _dispatch_data_format_type_utf8)
  end.

Definition dispatch_data_create_with_transform (d : data) (input output : dispatch_data_format_type_s) : R data :=
  input ← (if decide (ft_type input = _DISPATCH_DATA_FORMAT_UTF_ANY) then _dispatch_transform_detect_utf d else mret input);
  if decide (ft_type input .& lnotw 64 (input_mask output) <> 0) then stop
  else if decide (ft_type output .& lnotw 64 (output_mask input) <> 0) then stop
  else if decide (dispatch_data_get_size d = 0) then mret d
  else
    temp1 ← (match decode input with Some f => f d | None => mret d end);
    match encode output with Some f => f temp1 | None => mret temp1 end.
End transforms.

(** ** The encodings *)

Definition scalar (cp : Z) : bool := bool_decide (0 <= cp < 0x110000 /\ ~ (0xd800 <= cp <= 0xdfff)).

Definition utf8 (cp : Z) : list Z :=
  if decide (cp < 0x80) then [cp]
  else if decide (cp < 0x800) then [0xc0 + cp / 64; 0x80 + cp mod 64]
  else if decide (cp < 0x10000) then [0xe0 + cp / 4096; 0x80 + cp / 64 mod 64; 0x80 + cp mod 64]
  else [0xf0 + cp / 262144; 0x80 + cp / 4096 mod 64; 0x80 + cp / 64 mod 64; 0x80 + cp mod 64].

Definition utf16 (cp : Z) : list Z :=
  if decide (cp < 0x10000) then [cp]
  else [0xd800 + (cp - 0x10000) / 1024; 0xdc00 + (cp - 0x10000) mod 1024].

Definition unit_bytes (byteOrder : byte_order) (u : Z) : list Z :=
  if decide (byteOrder = OSLittleEndian) then [u mod 256; u / 256] else [u / 256; u mod 256].

Definition utf8s (cps : list Z) : list Z := mjoin (utf8 <$> cps).
Definition units (cps : list Z) : list Z := mjoin (utf16 <$> cps).
Definition units_bytes (byteOrder : byte_order) (us : list Z) : list Z := mjoin (unit_bytes byteOrder <$> us).
Definition utf16s (byteOrder : byte_order) (cps : list Z) : list Z := units_bytes byteOrder (units cps).

(** ** Bits as arithmetic *)

Lemma lor_low x y n : 0 <= n -> 0 <= y < 2 ^ n -> (x * 2 ^ n) .| y = x * 2 ^ n + y.
Proof.
  intros Hn Hy. apply lor_add_disjoint. apply Z.bits_inj'. intros i Hi. rewrite Z.land_spec, Z.bits_0.
  destruct (decide (i < n)); [rewrite Z.mul_pow2_bits_low by lia; done|]. rewrite (testbit_above n y) by lia. by rewrite andb_false_r.
Qed.

Lemma shl_lor6 x y : 0 <= x < 2 ^ 26 -> 0 <= y < 64 -> u32 (x .<< 6) .| y = x * 64 + y.
Proof.
  intros Hx Hy. rewrite Z.shiftl_mul_pow2, wrap_small by (eval_pow2; lia). apply (lor_low x y 6); lia.
Qed.

Lemma bswap16_eq x : 0 <= x < 65536 -> bswap16 x = (x mod 256) * 256 + x / 256.
Proof.
  intros Hx. unfold bswap16. rewrite Z.shiftl_mul_pow2, Z.shiftr_div_pow2 by lia.
  assert (u16 (x * 2 ^ 8) = (x mod 256) * 2 ^ 8) as -> by (unfold wrap; eval_pow2; Z.div_mod_to_equations; lia).
  apply lor_low; [lia|]. eval_pow2. Z.div_mod_to_equations; lia.
Qed.

Lemma land_f : forall b, 0 <= b < 256 -> (b .& 0xf) = b mod 16.
Proof. check1. Qed.
Lemma land_7 : forall b, 0 <= b < 256 -> (b .& 0x7) = b mod 8.
Proof. check1. Qed.
Lemma land_7f : forall b, 0 <= b < 256 -> (b .& 0x7f) = b mod 128.
Proof. check1. Qed.

(** The length announced by the first byte of a sequence. *)
Lemma utf8_length_eq : forall b, 0 <= b < 256 -> _dispatch_transform_utf8_length b =
  (if b <? 0x80 then 1 else if b <? 0xc0 then 0 else if b <? 0xe0 then 2 else if b <? 0xf0 then 3 else if b <? 0xf8 then 4 else 0).
Proof. check1. Qed.

Ltac scalar_cases cp H :=
  apply bool_decide_eq_true in H; unfold utf8, utf16;
  destruct (decide (cp < 0x80)); [|destruct (decide (cp < 0x800)); [|destruct (decide (cp < 0x10000))]].

Lemma utf8_length_first cp : scalar cp = true -> exists b rest, utf8 cp = b :: rest /\ 0 <= b < 256 /\
  _dispatch_transform_utf8_length b = Z.of_nat (length (utf8 cp)).
Proof.
  intros H. scalar_cases cp H; eexists _, _; (split; [reflexivity|]); (split; [Z.div_mod_to_equations; lia|]);
    rewrite utf8_length_eq by (Z.div_mod_to_equations; lia); simpl length;
    repeat match goal with |- context [?a <? ?b] => destruct (Z.ltb_spec a b) end; try reflexivity; Z.div_mod_to_equations; lia.
Qed.

(** Reading an encoded code point. *)
Lemma read_utf8_ok cp rest : scalar cp = true -> _dispatch_transform_read_utf8_sequence (utf8 cp ++ rest) = Done (Some cp).
Proof.
  intros H. destruct (utf8_length_first cp H) as (b & bs & Eb & Hb & El). rewrite Eb in *. cbn [app].
  unfold _dispatch_transform_read_utf8_sequence. rewrite El. revert Eb. scalar_cases cp H; intros [= <- <-]; simpl length.
  - change (Z.of_nat 1) with 1. change (Z.to_nat (u8 (1 - 1))) with 0%nat. cbn [read_continuation].
    rewrite land_7f by lia. unfold mret, R_ret. do 2 f_equal. apply Z.mod_small. lia.
  - change (Z.of_nat 2) with 2. change (Z.to_nat (u8 (2 - 1))) with 1%nat. cbn [read_continuation app].
    rewrite low5, low6 by (Z.div_mod_to_equations; lia). rewrite shl_lor6 by (Z.div_mod_to_equations; lia).
    unfold mret, R_ret. do 2 f_equal. Z.div_mod_to_equations; lia.
  - change (Z.of_nat 3) with 3. change (Z.to_nat (u8 (3 - 1))) with 2%nat. cbn [read_continuation app].
    rewrite land_f, !low6 by (Z.div_mod_to_equations; lia). rewrite !shl_lor6 by (rewrite ?shl_lor6; Z.div_mod_to_equations; lia).
    unfold mret, R_ret. do 2 f_equal. Z.div_mod_to_equations; lia.
  - change (Z.of_nat 4) with 4. change (Z.to_nat (u8 (4 - 1))) with 3%nat. cbn [read_continuation app].
    rewrite land_7, !low6 by (Z.div_mod_to_equations; lia).
    rewrite (shl_lor6 (_ mod 8)) by (Z.div_mod_to_equations; lia).
    rewrite !(shl_lor6 (_ * 64 + _)) by (Z.div_mod_to_equations; lia).
    unfold mret, R_ret. do 2 f_equal. Z.div_mod_to_equations; lia.
Qed.

Lemma length_utf8 cp : (1 <= length (utf8 cp) <= 4)%nat.
Proof. unfold utf8. repeat destruct (decide _); simpl; lia. Qed.

Lemma length_unit_bytes o u : length (unit_bytes o u) = 2%nat.
Proof. unfold unit_bytes. by destruct (decide _). Qed.

Lemma length_units_bytes o us : length (units_bytes o us) = (2 * length us)%nat.
Proof.
  induction us as [|u us IH]; [done|]. change (units_bytes o (u :: us)) with (unit_bytes o u ++ units_bytes o us).
  rewrite length_app, IH, length_unit_bytes, length_cons. lia.
Qed.

Lemma units_bytes_app o us us' : units_bytes o (us ++ us') = units_bytes o us ++ units_bytes o us'.
Proof. unfold units_bytes. by rewrite fmap_app, join_app. Qed.

Lemma utf16_units cp : scalar cp = true -> Forall (fun u => 0 <= u < 65536) (utf16 cp) /\
  Z.of_nat (2 * length (utf16 cp)) <= 2 * Z.of_nat (length (utf8 cp)).
Proof.
  intros H. scalar_cases cp H; rewrite ?(decide_True (P := cp < 65536)) by lia;
    (split; [repeat constructor; Z.div_mod_to_equations; lia|simpl; lia]).
Qed.

(** Units are stored and loaded in the given order. *)
Lemma store_unit o u : 0 <= u < 65536 -> store16 (_dispatch_transform_swap_from_host (u16 u) o) = unit_bytes o u.
Proof.
  intros Hu. rewrite wrap_small by (eval_pow2; lia). unfold _dispatch_transform_swap_from_host, unit_bytes, store16.
  change 0xff with (Z.ones 8). destruct (decide (o = OSLittleEndian)).
  - rewrite !Z.land_ones, Z.shiftr_div_pow2 by lia. list_eq; eval_pow2; Z.div_mod_to_equations; lia.
  - rewrite bswap16_eq by done. rewrite !Z.land_ones, Z.shiftr_div_pow2 by lia. list_eq; eval_pow2; Z.div_mod_to_equations; lia.
Qed.

Lemma load_unit o u : 0 <= u < 65536 -> exists lo hi, unit_bytes o u = [lo; hi] /\
  _dispatch_transform_swap_to_host (lo .| (hi .<< 8)) o = u.
Proof.
  intros Hu. unfold unit_bytes, _dispatch_transform_swap_to_host. destruct (decide (o = OSLittleEndian)).
  - exists (u mod 256), (u / 256). split; [done|]. rewrite Z.lor_comm, Z.shiftl_mul_pow2, lor_low by (eval_pow2; Z.div_mod_to_equations; lia).
    eval_pow2. Z.div_mod_to_equations; lia.
  - exists (u / 256), (u mod 256). split; [done|]. rewrite Z.lor_comm, Z.shiftl_mul_pow2, lor_low by (eval_pow2; Z.div_mod_to_equations; lia).
    rewrite bswap16_eq by (eval_pow2; Z.div_mod_to_equations; lia). eval_pow2. Z.div_mod_to_equations; lia.
Qed.

Section proofs.
Context (malloc_ok : Z -> bool) (Hmalloc : forall n, 0 <= n <= BUFFER_MALLOC_MAX -> malloc_ok n = true).

(** Room for [n] more bytes. *)
Definition room (b : dispatch_transform_buffer_s) (n : Z) : Prop :=
  exists w, tb_start b = Some w /\ Z.of_nat (length w) + n <= tb_size b < 2 ^ 64.

Definition tb_append (b : dispatch_transform_buffer_s) (bs : list Z) : dispatch_transform_buffer_s :=
  mkTB (tb_data b) (Some (tb_written b ++ bs)) (tb_size b).

Lemma tb_put_ok b bs : room b (Z.of_nat (length bs)) -> tb_put b bs = Done (Some (tb_append b bs)).
Proof. intros (w & Hw & Hr). unfold tb_put, tb_append, tb_written. rewrite Hw. rewrite decide_True by lia. done. Qed.

Lemma tb_append_app b bs bs' : tb_append (tb_append b bs) bs' = tb_append b (bs ++ bs').
Proof. unfold tb_append, tb_written. simpl. by rewrite app_assoc. Qed.

Lemma room_append b bs n : room b (Z.of_nat (length bs) + n) -> room (tb_append b bs) n.
Proof.
  intros (w & Hw & Hr). exists (w ++ bs). unfold tb_append, tb_written. rewrite Hw. simpl. rewrite length_app. split; [done|lia].
Qed.

Lemma room_le b n m : room b n -> m <= n -> room b m.
Proof. intros (w & Hw & Hr) Hm. exists w. split; [done|lia]. Qed.

(** With room the buffer stays. *)
Lemma buffer_new_room b required size : 0 < required -> room b required ->
  _dispatch_transform_buffer_new malloc_ok b required size = Done (Some b).
Proof.
  intros Hr (w & Hw & Hs). unfold _dispatch_transform_buffer_new, tb_written. rewrite Hw. simpl default.
  rewrite wrap_small by lia. rewrite decide_False by lia. done.
Qed.

(** The first buffer. *)
Lemma buffer_first n : 0 < n <= BUFFER_MALLOC_MAX ->
  _dispatch_transform_buffer_new malloc_ok tb_new n 0 = Done (Some (mkTB [] (Some []) n)).
Proof.
  intros Hn. unfold BUFFER_MALLOC_MAX in Hn. unfold _dispatch_transform_buffer_new, tb_new, tb_written. simpl default.
  cbn [tb_size tb_start tb_data]. rewrite wrap_small by (simpl; lia). rewrite decide_True by (simpl; lia).
  rewrite wrap_small by lia. rewrite decide_True by lia. unfold BUFFER_MALLOC_MAX. rewrite decide_False by lia.
  rewrite Hmalloc by (unfold BUFFER_MALLOC_MAX; lia). by rewrite Z.add_0_r.
Qed.

Lemma tb_put_unit o b u : 0 <= u < 65536 -> room b 2 -> tb_put16 o b u = Done (Some (tb_append b (unit_bytes o u))).
Proof. intros Hu Hr. unfold tb_put16. rewrite store_unit by done. apply tb_put_ok. by rewrite length_unit_bytes. Qed.

Lemma put_utf16_ok o b cp next : scalar cp = true -> room b (2 * Z.of_nat (length (utf16 cp))) ->
  put_utf16 malloc_ok o b cp next = Done (Some (tb_append b (units_bytes o (utf16 cp)))).
Proof.
  intros H Hr. pose proof H as Hs. apply bool_decide_eq_true in H. unfold put_utf16. rewrite decide_False by lia.
  revert Hr. unfold utf16. destruct (decide (cp < 0x10000)) as [Hlt|Hlt]; simpl length; intros Hr.
  - rewrite decide_False by lia. rewrite buffer_new_room by (done || lia). cbn [mbind R_bind].
    change 0xffff with (Z.ones 16). rewrite Z.land_ones, Z.mod_small by (eval_pow2; lia).
    rewrite tb_put_unit by (done || lia). unfold units_bytes. simpl. by rewrite app_nil_r.
  - rewrite decide_True by lia. rewrite buffer_new_room by (done || lia). cbn [mbind R_bind].
    change 0x3ff with (Z.ones 10). rewrite !Z.land_ones, Z.shiftr_div_pow2 by lia. eval_pow2.
    rewrite (Z.mod_small ((cp - 65536) / 1024)) by (Z.div_mod_to_equations; lia).
    rewrite (Z.add_comm ((cp - 65536) / 1024)), (Z.add_comm ((cp - 65536) mod 1024)).
    rewrite tb_put_unit; [|Z.div_mod_to_equations; lia|eapply room_le; [exact Hr|lia]]. cbn [mbind R_bind].
    rewrite tb_put_unit; [|Z.div_mod_to_equations; lia|apply room_append; rewrite length_unit_bytes; exact Hr].
    rewrite tb_append_app. unfold units_bytes. simpl. by rewrite app_nil_r.
Qed.

(** The loop over a region that holds whole sequences. *)
Lemma to_utf16_loop_ok o d cps : forall rounds size i b, Forall (fun cp => scalar cp = true) cps ->
  (length cps <= rounds)%nat -> 0 <= i -> size - i = Z.of_nat (length (utf8s cps)) -> size < 2 ^ 62 ->
  (i = 0 -> head cps <> Some 0xfeff) -> room b (2 * (size - i)) ->
  to_utf16_loop malloc_ok rounds d o 0 size i (utf8s cps) (0, b) = Done (Some (0, tb_append b (utf16s o cps))).
Proof.
  induction cps as [|cp cps IH]; intros rounds size i b Hs Hr Hi Hsz H62 Hbom Hroom.
  - assert (tb_append b (utf16s o []) = b) as ->.
    { destruct Hroom as (w & Hw & _), b. unfold tb_append, tb_written, utf16s, units, units_bytes. simpl in *. rewrite Hw. simpl. by rewrite app_nil_r. }
    change (length (utf8s [])) with 0%nat in Hsz. destruct rounds; cbn [to_utf16_loop]; [done|]. rewrite decide_False by lia. done.
  - apply Forall_cons in Hs as [Hs1 Hs2]. destruct rounds as [|rounds]; simpl in Hr; [lia|].
    change (utf8s (cp :: cps)) with (utf8 cp ++ utf8s cps) in *. rewrite length_app in Hsz. pose proof (length_utf8 cp).
    cbn [to_utf16_loop]. rewrite decide_True by lia.
    destruct (utf8_length_first cp Hs1) as (b0 & bs & Eb & Hb & El).
    assert (at_index (utf8 cp ++ utf8s cps) 0 = Done (Some b0)) as -> by (by rewrite Eb). cbn [mbind R_bind].
    rewrite El. rewrite decide_False by lia. rewrite decide_False by lia. rewrite read_utf8_ok by done. cbn [mbind R_bind mret R_ret].
    rewrite decide_False by (unfold SIZE_MAX; lia).
    rewrite (decide_False (P := cp = 0xfeff /\ _)).
    2:{ intros [-> E]. apply Hbom; [|done]. simpl length in E. lia. }
    destruct (utf16_units cp Hs1) as [_ Hlen].
    rewrite put_utf16_ok; [|done|eapply room_le; [exact Hroom|lia]]. cbn [mbind R_bind].
    rewrite Nat2Z.id, drop_app_length. rewrite IH; try done; try lia.
    + rewrite tb_append_app. unfold utf16s. change (units (cp :: cps)) with (utf16 cp ++ units cps).
      by rewrite units_bytes_app.
    + apply room_append. rewrite length_units_bytes. eapply room_le; [exact Hroom|lia].
Qed.

Definition BOM : Z := 0xfeff.

(** Text in one region, without a byte order mark of its own. *)
Lemma to_utf16_ok o cps : cps <> [] -> Forall (fun cp => scalar cp = true) cps -> head cps <> Some BOM ->
  2 * Z.of_nat (length (utf8s cps)) + 2 <= BUFFER_MALLOC_MAX ->
  _dispatch_transform_to_utf16 malloc_ok [utf8s cps] o = Done (Some [units_bytes o (BOM :: units cps)]).
Proof.
  intros Hne Hs Hbom Hsz. unfold _dispatch_transform_to_utf16, dispatch_data_apply. cbn [apply_regions].
  set (n := Z.of_nat (length (utf8s cps))) in *. assert (0 < n) as Hn.
  { unfold n. destruct cps as [|cp cps]; [done|]. change (utf8s (cp :: cps)) with (utf8 cp ++ utf8s cps).
    rewrite length_app. pose proof (length_utf8 cp). lia. }
  assert (length cps <= length (utf8s cps))%nat as Hlen.
  { clear. induction cps as [|cp cps IH]; [done|]. change (utf8s (cp :: cps)) with (utf8 cp ++ utf8s cps).
    rewrite length_app. pose proof (length_utf8 cp). simpl length at 1. lia. }
  unfold BUFFER_MALLOC_MAX in Hsz.
  unfold to_utf16_region at 1. fold n. rewrite (decide_True (P := 0 = 0)) by done. rewrite decide_False by (unfold SIZE_MAX; lia).
  rewrite buffer_first by (unfold BUFFER_MALLOC_MAX; lia).
  cbn [mbind R_bind]. rewrite (tb_put_unit o _ 0xfeff); [|lia|exists []; (split; [done|simpl; lia])]. cbn [mbind R_bind].
  rewrite decide_False by lia. rewrite drop_0, Z.sub_0_r.
  rewrite to_utf16_loop_ok; try done; try lia.
  2:{ apply room_append. rewrite length_unit_bytes. exists []. split; [done|simpl; lia]. }
  cbn [mbind R_bind]. rewrite tb_append_app. cbn [tb_append]. unfold _dispatch_transform_buffer_new.
  rewrite decide_True by (by left). cbn [tb_data tb_start]. unfold tb_append, tb_written. cbn [tb_data tb_start default].
  change (units_bytes o (BOM :: units cps)) with (unit_bytes o 0xfeff ++ utf16s o cps).
  destruct (unit_bytes o 0xfeff ++ utf16s o cps) as [|b0 bs] eqn:E; [|done].
  apply (f_equal length) in E. rewrite length_app, length_unit_bytes in E. simpl in E. lia.
Qed.

(** ** From UTF-16 *)

Definition tb_bytes (b : dispatch_transform_buffer_s) : list Z := data_bytes (tb_data b) ++ tb_written b.

Lemma tb_bytes_append b bs : tb_bytes (tb_append b bs) = tb_bytes b ++ bs.
Proof. unfold tb_bytes, tb_append, tb_written. simpl. by rewrite app_assoc. Qed.

(** A new buffer keeps what was written before. *)
Lemma buffer_new_ok b required size : 0 < required -> 0 <= size -> required + size <= BUFFER_MALLOC_MAX -> room b 0 ->
  exists b', _dispatch_transform_buffer_new malloc_ok b required size = Done (Some b') /\ room b' required /\ tb_bytes b' = tb_bytes b.
Proof.
  intros Hr Hs Hm Hb. pose proof Hb as (w & Hw & Hl). unfold _dispatch_transform_buffer_new.
  assert (tb_written b = w) as Ew by (unfold tb_written; by rewrite Hw). rewrite Ew. rewrite wrap_small by lia.
  destruct (decide _) as [E|E]; [|exists b; split; [done|]; split; [exists w; split; [done|lia]|done]].
  unfold BUFFER_MALLOC_MAX in *. rewrite wrap_small by lia. rewrite decide_True by lia. rewrite decide_False by lia.
  rewrite Hmalloc by (unfold BUFFER_MALLOC_MAX; lia). eexists. split; [done|]. split; [exists []; split; [done|simpl; lia]|].
  unfold tb_bytes. rewrite Ew. unfold tb_written. cbn [tb_data tb_start default]. rewrite app_nil_r, Hw.
  destruct w as [|b0 w]; [by rewrite app_nil_r|]. unfold dispatch_data_create_concat, data_bytes. rewrite join_app. simpl. by rewrite app_nil_r.
Qed.

Lemma tb_put_room b bs : room b (Z.of_nat (length bs)) ->
  exists b', tb_put b bs = Done (Some b') /\ room b' 0 /\ tb_bytes b' = tb_bytes b ++ bs.
Proof.
  intros Hr. exists (tb_append b bs). split; [by apply tb_put_ok|]. split; [|apply tb_bytes_append].
  apply room_append. by rewrite Z.add_0_r.
Qed.

(** The bytes that [put_utf8] computes. *)
Lemma lead_byte k x y n : 0 <= n -> 0 <= y < 2 ^ n -> x = k * 2 ^ n -> 0 <= x + y < 256 -> u8 (x .| y) = x + y.
Proof. intros Hn Hy -> Hr. rewrite lor_low by done. apply wrap_small. eval_pow2. lia. Qed.

Lemma put_utf8_ok b cp next : scalar cp = true -> 0 <= next -> next + 4 <= BUFFER_MALLOC_MAX -> room b 0 ->
  exists b', put_utf8 malloc_ok b cp next = Done (Some b') /\ room b' 0 /\ tb_bytes b' = tb_bytes b ++ utf8 cp.
Proof.
  intros H Hn Hm Hb. unfold put_utf8. change 0x3f with (Z.ones 6). change 0xff with (Z.ones 8).
  rewrite !Z.land_ones, !Z.shiftr_div_pow2 by lia. eval_pow2. scalar_cases cp H;
    [rewrite wrap_small by (eval_pow2; Z.div_mod_to_equations; lia)
    |rewrite (lead_byte 3 192 _ 6), (lead_byte 2 128 _ 6) by (eval_pow2; Z.div_mod_to_equations; lia)
    |rewrite (lead_byte 14 224 _ 4), !(lead_byte 2 128 _ 6) by (eval_pow2; Z.div_mod_to_equations; lia)
    |rewrite (decide_True (P := cp < 2097152)) by lia; rewrite (lead_byte 30 240 _ 3), !(lead_byte 2 128 _ 6) by (eval_pow2; Z.div_mod_to_equations; lia)];
    match goal with |- context [_dispatch_transform_buffer_new _ _ ?n _] =>
      destruct (buffer_new_ok b n next) as (b1 & -> & Hr1 & Eb1); [lia..|done|] end;
    cbn [mbind R_bind]; rewrite <- Eb1; try (by apply tb_put_room).
  rewrite Z.mod_small by lia. by apply tb_put_room.
Qed.

Lemma load16_ok o us i u : Forall (fun u => 0 <= u < 65536) us -> us !! i = Some u ->
  exists raw, load16 (units_bytes o us) (Z.of_nat i) = Done (Some raw) /\ _dispatch_transform_swap_to_host raw o = u.
Proof.
  intros Hus Hi. destruct (load_unit o u) as (lo & hi & Eu & Es); [by eapply Forall_lookup in Hus|].
  exists (lo .| (hi .<< 8)). split; [|done].
  assert (units_bytes o us !! (2 * i)%nat = Some lo /\ units_bytes o us !! (2 * i + 1)%nat = Some hi) as [Hlo Hhi].
  { rewrite <- (take_drop_middle us i u Hi). rewrite units_bytes_app.
    assert (length (units_bytes o (take i us)) = 2 * i)%nat as El.
    { rewrite length_units_bytes, length_take. apply lookup_lt_Some in Hi. lia. }
    change (units_bytes o (u :: drop (S i) us)) with (unit_bytes o u ++ units_bytes o (drop (S i) us)). rewrite Eu.
    split; rewrite lookup_app_r, El by lia.
    - by replace (2 * i - 2 * i)%nat with 0%nat by lia.
    - by replace (2 * i + 1 - 2 * i)%nat with 1%nat by lia. }
  unfold load16, at_index. rewrite !decide_True by lia.
  replace (Z.to_nat (2 * Z.of_nat i)) with (2 * i)%nat by lia. replace (Z.to_nat (2 * Z.of_nat i + 1)) with (2 * i + 1)%nat by lia.
  rewrite Hlo, Hhi. done.
Qed.

Lemma surrogate_join cp : 65536 <= cp < 1114112 ->
  (((55296 + (cp - 65536) / 1024 - 55296) .<< 10) .| ((56320 + (cp - 65536) mod 1024) .& 1023)) + 65536 = cp.
Proof.
  intros Hcp. change 1023 with (Z.ones 10). rewrite Z.land_ones, Z.shiftl_mul_pow2 by lia.
  rewrite lor_low by (eval_pow2; Z.div_mod_to_equations; lia). eval_pow2. Z.div_mod_to_equations; lia.
Qed.

Section loop.
Context (o : byte_order) (d : data) (us : list Z) (Hus : Forall (fun u => 0 <= u < 65536) us).
Context (Hsize : 2 * Z.of_nat (length us) + 4 <= BUFFER_MALLOC_MAX).

Lemma from_utf16_loop_ok cps : forall rounds i b, Forall (fun cp => scalar cp = true) cps ->
  drop i us = units cps -> (length (units cps) <= rounds)%nat -> (0 < i <= length us)%nat -> room b 0 ->
  exists b', from_utf16_loop malloc_ok rounds d o 0 (2 * Z.of_nat (length us)) (Z.of_nat (length us)) (Z.of_nat i) (units_bytes o us) (0, b)
    = Done (Some (0, b')) /\ tb_bytes b' = tb_bytes b ++ utf8s cps /\ room b' 0.
Proof.
  unfold BUFFER_MALLOC_MAX in Hsize.
  induction cps as [|cp cps IH]; intros rounds i b Hs Hd Hr Hi Hb.
  - assert (i = length us) as ->. { apply (f_equal length) in Hd. rewrite length_drop in Hd. simpl in Hd. lia. }
    exists b. split; [|split; [by unfold utf8s; simpl; rewrite app_nil_r|done]].
    destruct rounds; cbn [from_utf16_loop]; [done|]. rewrite decide_False by lia. done.
  - apply Forall_cons in Hs as [Hs1 Hs2]. change (units (cp :: cps)) with (utf16 cp ++ units cps) in *.
    pose proof (proj1 (bool_decide_eq_true _) Hs1) as Hcp.
    assert (length (utf16 cp) + length (units cps) = length us - i)%nat as Hlen
      by (rewrite <- length_app, <- Hd, length_drop; done).
    rewrite length_app in Hr.
    assert (forall j, (j < length (utf16 cp))%nat -> us !! (i + j)%nat = utf16 cp !! j) as Hat.
    { intros j Hj. rewrite <- lookup_drop, Hd. by apply lookup_app_l. }
    assert (us !! (i + 0)%nat = utf16 cp !! 0%nat) as H0.
    { apply Hat. unfold utf16. destruct (decide _); simpl; lia. }
    assert (exists u0, utf16 cp !! 0%nat = Some u0) as [u0 Eu0] by (unfold utf16; destruct (decide _); eauto).
    rewrite Eu0, Nat.add_0_r in H0. destruct (load16_ok o us i u0 Hus H0) as (raw & Hl & Hsw).
    destruct rounds as [|rounds]; [unfold utf16 in Hr; destruct (decide _); simpl in Hr; lia|].
    cbn [from_utf16_loop]. rewrite decide_True by (apply lookup_lt_Some in H0; lia).
    rewrite decide_False by (intros [_ H]; revert H; rewrite Z.mul_comm, Z.div_mul; lia).
    rewrite Hl. cbn [mbind R_bind mret R_ret]. rewrite Hsw. rewrite decide_False by lia. rewrite decide_False by lia.
    assert (forall n, (n <= length us)%nat -> u64 (Z.of_nat (length us) - Z.of_nat n) = Z.of_nat (length us) - Z.of_nat n) as Hu64
      by (intros; apply wrap_small; lia).
    unfold utf16 in *. destruct (decide (cp < 0x10000)) as [Hlt|Hlt]; injection Eu0 as <-; simpl length in *.
    + rewrite decide_False by lia. rewrite decide_False by lia. cbn [mbind R_bind mret R_ret]. rewrite Hu64 by lia.
      rewrite decide_False by (unfold SIZE_MAX; lia).
      destruct (put_utf8_ok b cp ((Z.of_nat (length us) - Z.of_nat i) * 2)) as (b1 & -> & Hr1 & E1);
        [done|lia|unfold BUFFER_MALLOC_MAX; lia|done|]. cbn [mbind R_bind].
      replace (Z.of_nat i + 1) with (Z.of_nat (S i)) by lia.
      destruct (IH rounds (S i) b1) as (b2 & -> & E2 & Hr2); [done| |lia|lia|done|].
      * rewrite <- Nat.add_1_r, <- drop_drop, Hd. done.
      * exists b2. split; [done|]. split; [|done]. rewrite E2, E1, <- app_assoc. done.
    + rewrite decide_True by (Z.div_mod_to_equations; lia).
      specialize (Hat 1%nat ltac:(lia)). simpl in Hat.
      destruct (load16_ok o us (i + 1) _ Hus Hat) as (raw1 & Hl1 & Hsw1).
      rewrite decide_False by lia. replace (Z.of_nat i + 1) with (Z.of_nat (i + 1)) by lia. rewrite Hl1. cbn [mbind R_bind mret R_ret].
      rewrite Hsw1. rewrite decide_False by (intros H; apply H; Z.div_mod_to_equations; lia). cbn [mbind R_bind mret R_ret].
      rewrite Hu64 by lia. rewrite decide_False by (unfold SIZE_MAX; lia).
      rewrite surrogate_join by lia.
      destruct (put_utf8_ok b cp ((Z.of_nat (length us) - Z.of_nat (i + 1)) * 2)) as (b1 & -> & Hr1 & E1);
        [done|lia|unfold BUFFER_MALLOC_MAX; lia|done|]. cbn [mbind R_bind].
      replace (Z.of_nat (i + 1) + 1) with (Z.of_nat (S (S i))) by lia.
      destruct (IH rounds (S (S i)) b1) as (b2 & -> & E2 & Hr2); [done| |lia|lia|done|].
      * replace (S (S i)) with (i + 2)%nat by lia. rewrite <- drop_drop, Hd. done.
      * exists b2. split; [done|]. split; [|done]. rewrite E2, E1, <- app_assoc. done.
Qed.
End loop.

Lemma units_range cps : Forall (fun cp => scalar cp = true) cps -> Forall (fun u => 0 <= u < 65536) (units cps).
Proof.
  induction 1 as [|cp cps H _ IH]; [constructor|]. change (units (cp :: cps)) with (utf16 cp ++ units cps).
  apply Forall_app. split; [by apply utf16_units|done].
Qed.

(** Units in one region, after a byte order mark. *)
Lemma from_utf16_ok o cps : Forall (fun cp => scalar cp = true) cps ->
  2 * Z.of_nat (length (BOM :: units cps)) + 4 <= BUFFER_MALLOC_MAX ->
  exists r, _dispatch_transform_from_utf16 malloc_ok [units_bytes o (BOM :: units cps)] o = Done (Some r) /\ data_bytes r = utf8s cps.
Proof.
  intros Hs Hsz. set (us := BOM :: units cps) in *. assert (Forall (fun u => 0 <= u < 65536) us) as Hus.
  { constructor; [unfold BOM; lia|by apply units_range]. }
  unfold _dispatch_transform_from_utf16, dispatch_data_apply. cbn [apply_regions]. unfold from_utf16_region at 1.
  rewrite length_units_bytes. set (n := Z.of_nat (2 * length us)). assert (n = 2 * Z.of_nat (length us)) as En by lia. 
  assert (0 < n) as Hn by (unfold n, us; simpl length; lia). assert (n + 4 <= 104857600) as Hm by (unfold BUFFER_MALLOC_MAX in Hsz; lia).
  rewrite (decide_True (P := 0 = 0)) by done.
  assert (0 < howmany n 3 * 2 <= 104857600) as Hh by (unfold howmany; clearbody n; Z.div_mod_to_equations; lia).
  rewrite buffer_first by (unfold BUFFER_MALLOC_MAX; lia).
  cbn [mbind R_bind]. rewrite decide_False by lia. rewrite drop_0, Z.sub_0_r.
  rewrite (decide_False (P := n mod 2 <> 0)) by (rewrite En, Z.mul_comm, Z.mod_mul; lia).
  assert (n / 2 = Z.of_nat (length us)) as -> by (rewrite En, Z.mul_comm; apply Z.div_mul; lia). rewrite Nat2Z.id.
  assert (exists b', from_utf16_loop malloc_ok (length us) [units_bytes o us] o 0 n (Z.of_nat (length us)) 0 (units_bytes o us)
    (0, mkTB [] (Some []) (howmany n 3 * 2)) = Done (Some (0, b')) /\ tb_bytes b' = utf8s cps /\ room b' 0) as (b' & -> & Hbytes & w & Hw & _).
  { destruct (load16_ok o us 0 BOM Hus eq_refl) as (raw & Hl & Hsw).
    change (length us) with (S (length (units cps))) at 1. cbn [from_utf16_loop].
    rewrite decide_True by lia. rewrite decide_False by (intros [_ H]; revert H; rewrite En, Z.mul_comm, Z.div_mul; lia).
    change (Z.of_nat 0) with 0 in Hl. rewrite Hl. cbn [mbind R_bind mret R_ret]. rewrite Hsw. 
    rewrite (decide_False (P := BOM = 0xfffe /\ _ /\ _)) by (unfold BOM; lia). rewrite (decide_True (P := BOM = 0xfeff /\ _ /\ _)) by done. rewrite En.
    destruct (from_utf16_loop_ok o [units_bytes o us] us Hus Hsz cps (length (units cps)) 1 (mkTB [] (Some []) (howmany (2 * Z.of_nat (length us)) 3 * 2)))
      as (b' & E & Eb & Hr); [done|done|done|unfold us; simpl length; lia|exists []; split; [done|rewrite <- En; cbn [tb_size length]; lia]|].
    exists b'. split; [exact E|]. split; [exact Eb|done]. }
  cbn [mbind R_bind mret R_ret]. unfold _dispatch_transform_buffer_new. rewrite (decide_True (P := 0 = 0 \/ _)) by (by left).
  rewrite Hw. change (u64 (0 + 0)) with 0. rewrite (decide_False (P := 0 > 0)) by lia. cbn [mbind R_bind mret R_ret].
  eexists. split; [done|]. cbn [tb_data]. rewrite <- Hbytes. unfold tb_bytes, tb_written. rewrite Hw. simpl default.
  destruct w; [by rewrite app_nil_r|]. unfold dispatch_data_create_concat, data_bytes. rewrite join_app. simpl. by rewrite app_nil_r.
Qed.

(** ** Properties *)

(** UTF-8 to UTF-16 and back, in either byte order: well-formed text in one
    region, without a byte order mark of its own, becomes the byte order mark and
    its UTF-16 encoding, and decoding that gives the text back. *)
Theorem utf16_roundtrip o cps : cps <> [] -> Forall (fun cp => scalar cp = true) cps -> head cps <> Some BOM ->
  2 * Z.of_nat (length (utf8s cps)) + 6 <= BUFFER_MALLOC_MAX ->
  exists r, _dispatch_transform_to_utf16 malloc_ok [utf8s cps] o = Done (Some [units_bytes o (BOM :: units cps)]) /\
    _dispatch_transform_from_utf16 malloc_ok [units_bytes o (BOM :: units cps)] o = Done (Some r) /\ data_bytes r = utf8s cps.
Proof.
  intros Hne Hs Hbom Hsz. assert (Z.of_nat (length (units cps)) <= Z.of_nat (length (utf8s cps))) as Hlen.
  { clear -Hs. induction Hs as [|cp cps H _ IH]; [done|]. change (units (cp :: cps)) with (utf16 cp ++ units cps).
    change (utf8s (cp :: cps)) with (utf8 cp ++ utf8s cps). rewrite !length_app. destruct (utf16_units cp H). lia. }
  destruct (from_utf16_ok o cps Hs) as (r & Hr & Eb); [simpl length; lia|]. exists r.
  split; [apply to_utf16_ok; try done; lia|done].
Qed.
End proofs.

(** A UTF-8 sequence that begins in a region whose first bytes belong to the
    previous one, and goes on into the next, is looked up without counting the
    bytes skipped: two accented letters convert when they are in one region, and
    the transform reads outside the range it mapped when they are split in
    three. *)
Theorem utf16_split_sequences malloc_ok : (forall n, malloc_ok n = true) ->
  _dispatch_transform_to_utf16le malloc_ok [[0xc3; 0xa9; 0xc3; 0xa9]] = Done (Some [[0xff; 0xfe; 0xe9; 0x00; 0xe9; 0x00]]) /\
  _dispatch_transform_to_utf16le malloc_ok [[0xc3]; [0xa9; 0xc3]; [0xa9]] = Crash InvalidAccess.
Proof.
  intros Hm. unfold _dispatch_transform_to_utf16le, _dispatch_transform_to_utf16, dispatch_data_apply. cbn [apply_regions].
  unfold to_utf16_region. split.
  - rewrite (buffer_first malloc_ok) by (try done; vm_compute; split; congruence). vm_compute. reflexivity.
  - rewrite (buffer_first malloc_ok) by (try done; vm_compute; split; congruence). vm_compute. rewrite ?Hm. vm_compute. reflexivity.
Qed.

(** The last low surrogate is let through as a character, and the result cannot
    be read back. *)
Example surrogate_let_through :
  _dispatch_transform_to_utf16le (fun _ => true) [[0xed; 0xbf; 0xbf]] = Done (Some [[0xff; 0xfe; 0xff; 0xdf]]) /\
  _dispatch_transform_from_utf16le (fun _ => true) [[0xff; 0xfe; 0xff; 0xdf]] = Done None /\
  _dispatch_transform_to_utf16le (fun _ => true) [[0xed; 0xbf; 0xbe]] = Done None.
Proof. vm_compute. done. Qed.

(** ** Families of formats *)

Section formats.
Context (malloc_ok : Z -> bool).

Inductive family := Base | Utf.

#[export] Instance family_eq_dec : EqDecision family.
Proof. solve_decision. Defined.

(** The formats other than the one to be detected. *)
Definition formats : list (family * dispatch_data_format_type_s) :=
  [(Base, _dispatch_data_format_type_none); (Base, _dispatch_data_format_type_base32 malloc_ok);
   (Base, _dispatch_data_format_type_base32hex malloc_ok); (Base, _dispatch_data_format_type_base64 malloc_ok);
   (Utf, _dispatch_data_format_type_utf8); (Utf, _dispatch_data_format_type_utf16le malloc_ok);
   (Utf, _dispatch_data_format_type_utf16be malloc_ok)].

(** Transforms exist exactly within a family of formats (no encoding and the
    base encodings; the UTF encodings): between families the result is bad input,
    within one it is the decoder of the input followed by the encoder of the
    output, and an empty object is returned as it is. *)
Theorem transform_families d fi fo input output : (fi, input) ∈ formats -> (fo, output) ∈ formats ->
  dispatch_data_create_with_transform malloc_ok d input output =
    if decide (fi <> fo) then Done None
    else if decide (dispatch_data_get_size d = 0) then Done (Some d)
    else temp1 ← default mret (decode input) d; default mret (encode output) temp1.
Proof.
  unfold formats. intros Hi Ho. unfold dispatch_data_create_with_transform.
  repeat (apply elem_of_cons in Hi as [Hi|Hi]; [injection Hi as -> ->|]); [..|by apply elem_of_nil in Hi];
    cbn [ft_type]; rewrite decide_False by (vm_compute; discriminate); cbn [mbind R_bind mret R_ret];
    repeat (apply elem_of_cons in Ho as [Ho|Ho]; [injection Ho as -> ->|]); (try by apply elem_of_nil in Ho).
  all: match goal with |- context [decide (?a <> ?b :> family)] => destruct (decide (a <> b)) as [Hf|Hf] end; try (exfalso; apply Hf; discriminate); try (exfalso; by apply Hf).
  all: repeat match goal with |- context [decide (Z.land ?a ?b <> 0)] =>
    let X := fresh in destruct (decide (Z.land a b <> 0)) as [X|X];
      [try done; exfalso; apply X; vm_compute; reflexivity|try (exfalso; apply X; vm_compute; discriminate)] end.
  all: cbn [decode encode default mbind R_bind mret R_ret]; destruct (decide (dispatch_data_get_size d = 0)); try done.
Qed.
End formats.

(** "hé" and a character outside the basic plane. *)
Definition text : list Z := [104; 0xe9; 0x1f600].

Lemma utf16_roundtrip_witness : exists r,
  _dispatch_transform_from_utf16 (fun _ => true) [[0xfe; 0xff; 0; 104; 0; 0xe9; 0xd8; 0x3d; 0xde; 0]] OSBigEndian = Done (Some r) /\
  data_bytes r = [104; 0xc3; 0xa9; 0xf0; 0x9f; 0x98; 0x80].
Proof.
  destruct (utf16_roundtrip (fun _ => true) (fun _ _ => eq_refl) OSBigEndian text) as (r & _ & H1 & H2);
    [discriminate|repeat constructor|discriminate|vm_compute; congruence|]. exists r. split; [exact H1|exact H2].
Defined.

Lemma utf16_split_sequences_witness :
  _dispatch_transform_to_utf16le (fun _ => true) [[0xc3]; [0xa9; 0xc3]; [0xa9]] = Crash InvalidAccess.
Proof. by apply utf16_split_sequences. Defined.

Lemma transform_families_witness :
  dispatch_data_create_with_transform (fun _ => true) [[104]] _dispatch_data_format_type_none _dispatch_data_format_type_utf8 = Done None.
Proof.
  rewrite (transform_families (fun _ => true) [[104]] Base Utf); [reflexivity|left|do 4 right; left].
Defined.
