(* ===== verification/DqState.v ===== *)
(** * The state word of a lane

    Models the 64-bit word [dq_state] of [src/queue_internal.h] and its accessors
    in [src/inline_internal.h], with the Linux layout of the drain lock
    ([src/shims/lock.h]: owner in bits 0-29, FUTEX_OWNER_DIED is the sync transfer
    bit and FUTEX_WAITERS the enqueued bit).  The second half reads the word as the
    record of bit fields the comments of [queue_internal.h] describe and shows what
    the masks do to the fields. *)

From S2P Require Import Prelude.

Local Open Scope word_scope.

(** ** Constants *)

Definition DLOCK_OWNER_MASK : Z := 0x3fffffff.
Definition DLOCK_WAITERS_BIT : Z := 0x80000000.
Definition DLOCK_FAILED_TRYLOCK_BIT : Z := 0x40000000.
Definition DLOCK_OWNER_NULL : Z := 0.

Definition DISPATCH_QUEUE_SUSPEND_INTERVAL : Z := 0x0400000000000000.
Definition DISPATCH_QUEUE_SUSPEND_HALF : Z := 0x20.
Definition DISPATCH_QUEUE_HAS_SIDE_SUSPEND_CNT : Z := 0x0200000000000000.
Definition DISPATCH_QUEUE_INACTIVE : Z := 0x0100000000000000.
Definition DISPATCH_QUEUE_NEEDS_ACTIVATION : Z := 0x0080000000000000.
Definition DISPATCH_QUEUE_SUSPEND_BITS_MASK : Z := 0xff80000000000000.
Definition DISPATCH_QUEUE_IN_BARRIER : Z := 0x0040000000000000.
Definition DISPATCH_QUEUE_WIDTH_FULL_BIT : Z := 0x0020000000000000.
Definition DISPATCH_QUEUE_WIDTH_FULL : Z := 0x1000.
Definition DISPATCH_QUEUE_WIDTH_POOL : Z := DISPATCH_QUEUE_WIDTH_FULL - 1.
Definition DISPATCH_QUEUE_WIDTH_MAX : Z := DISPATCH_QUEUE_WIDTH_FULL - 2.
Definition DISPATCH_QUEUE_WIDTH_INTERVAL : Z := 0x0000020000000000.
Definition DISPATCH_QUEUE_WIDTH_MASK : Z := 0x003ffe0000000000.
Definition DISPATCH_QUEUE_WIDTH_SHIFT : Z := 41.
Definition DISPATCH_QUEUE_PENDING_BARRIER : Z := 0x0000010000000000.
Definition DISPATCH_QUEUE_DIRTY : Z := 0x0000008000000000.
Definition DISPATCH_QUEUE_ENQUEUED_ON_MGR : Z := 0x0000004000000000.
Definition DISPATCH_QUEUE_ROLE_MASK : Z := 0x0000003000000000.
Definition DISPATCH_QUEUE_ROLE_BASE_WLH : Z := 0x0000002000000000.
Definition DISPATCH_QUEUE_ROLE_BASE_ANON : Z := 0x0000001000000000.
Definition DISPATCH_QUEUE_ROLE_INNER : Z := 0.
Definition DISPATCH_QUEUE_RECEIVED_OVERRIDE : Z := 0x0000000800000000.
Definition DISPATCH_QUEUE_RECEIVED_SYNC_WAIT : Z := 0x0000000800000000.
Definition DISPATCH_QUEUE_MAX_QOS_MASK : Z := 0x0000000700000000.
Definition DISPATCH_QUEUE_MAX_QOS_SHIFT : Z := 32.
Definition DISPATCH_QUEUE_DRAIN_OWNER_MASK : Z := DLOCK_OWNER_MASK.
Definition DISPATCH_QUEUE_SYNC_TRANSFER : Z := DLOCK_FAILED_TRYLOCK_BIT.
Definition DISPATCH_QUEUE_ENQUEUED : Z := DLOCK_WAITERS_BIT.

Definition DISPATCH_QUEUE_DRAIN_PRESERVED_BITS_MASK : Z :=
  DISPATCH_QUEUE_ENQUEUED_ON_MGR .| DISPATCH_QUEUE_ENQUEUED
  .| DISPATCH_QUEUE_ROLE_MASK .| DISPATCH_QUEUE_MAX_QOS_MASK.

Definition DISPATCH_QUEUE_DRAIN_UNLOCK_MASK : Z :=
  DISPATCH_QUEUE_DRAIN_OWNER_MASK .| DISPATCH_QUEUE_RECEIVED_OVERRIDE
  .| DISPATCH_QUEUE_RECEIVED_SYNC_WAIT .| DISPATCH_QUEUE_SYNC_TRANSFER.

Definition DISPATCH_QUEUE_STATE_INIT_VALUE (width : Z) : Z :=
  u64 ((DISPATCH_QUEUE_WIDTH_FULL - width) .<< DISPATCH_QUEUE_WIDTH_SHIFT).

Definition DISPATCH_ROOT_QUEUE_STATE_INIT_VALUE : Z :=
  DISPATCH_QUEUE_WIDTH_FULL_BIT .| DISPATCH_QUEUE_IN_BARRIER.

Definition DISPATCH_QUEUE_SERIAL_DRAIN_OWNED : Z :=
  DISPATCH_QUEUE_IN_BARRIER .| DISPATCH_QUEUE_WIDTH_INTERVAL.

(** ** Words *)

(** A word in a boolean context. *)
Definition nz (x : Z) : bool := negb (x =? 0).

Definition add64 (a b : Z) : Z := u64 (a + b).
Definition sub64 (a b : Z) : Z := u64 (a - b).
(** [a &= ~m] *)
Definition clear64 (a m : Z) : Z := a .& lnotw 64 m.

(** [os_add_overflow] and [os_sub_overflow] on [uint64_t]: [None] on overflow. *)
Definition os_add_overflow (a b : Z) : option Z := if a + b <? 2 ^ 64 then Some (a + b) else None.
Definition os_sub_overflow (a b : Z) : option Z := if a <? b then None else Some (a - b).

(** ** The drain lock *)

Definition _dispatch_lock_owner (lock_value : Z) : Z := lock_value .& DLOCK_OWNER_MASK.
Definition _dispatch_lock_value_from_tid (tid : Z) : Z := tid .& DLOCK_OWNER_MASK.
Definition _dispatch_lock_is_locked (lock_value : Z) : bool := nz (lock_value .& DLOCK_OWNER_MASK).
Definition _dispatch_lock_is_locked_by (lock_value tid : Z) : bool :=
  (Z.lxor lock_value tid .& DLOCK_OWNER_MASK) =? 0.

(** ** Accessors *)

Definition _dq_state_suspend_cnt (dq_state : Z) : Z := u32 (dq_state / DISPATCH_QUEUE_SUSPEND_INTERVAL).
Definition _dq_state_has_side_suspend_cnt (dq_state : Z) : bool :=
  nz (dq_state .& DISPATCH_QUEUE_HAS_SIDE_SUSPEND_CNT).
Definition _dq_state_extract_width_bits (dq_state : Z) : Z :=
  i32 ((dq_state .& DISPATCH_QUEUE_WIDTH_MASK) .>> DISPATCH_QUEUE_WIDTH_SHIFT).
Definition _dq_state_available_width (dq_state : Z) : Z :=
  if nz (dq_state .& DISPATCH_QUEUE_WIDTH_FULL_BIT) then 0
  else DISPATCH_QUEUE_WIDTH_FULL - _dq_state_extract_width_bits dq_state.
Definition _dq_state_used_width (dq_state dq_width : Z) : Z :=
  let width := _dq_state_extract_width_bits dq_state in
  if nz (dq_state .& DISPATCH_QUEUE_PENDING_BARRIER)
  then width - (DISPATCH_QUEUE_WIDTH_FULL - dq_width) - (dq_width - 1)
  else width - (DISPATCH_QUEUE_WIDTH_FULL - dq_width).
Definition _dq_state_is_suspended (dq_state : Z) : bool := DISPATCH_QUEUE_NEEDS_ACTIVATION <=? dq_state.
Definition _dq_state_is_inactive (dq_state : Z) : bool := nz (dq_state .& DISPATCH_QUEUE_INACTIVE).
Definition _dq_state_needs_activation (dq_state : Z) : bool := nz (dq_state .& DISPATCH_QUEUE_NEEDS_ACTIVATION).
Definition _dq_state_is_in_barrier (dq_state : Z) : bool := nz (dq_state .& DISPATCH_QUEUE_IN_BARRIER).
Definition _dq_state_has_available_width (dq_state : Z) : bool :=
  negb (nz (dq_state .& DISPATCH_QUEUE_WIDTH_FULL_BIT)).
Definition _dq_state_has_pending_barrier (dq_state : Z) : bool := nz (dq_state .& DISPATCH_QUEUE_PENDING_BARRIER).
Definition _dq_state_is_dirty (dq_state : Z) : bool := nz (dq_state .& DISPATCH_QUEUE_DIRTY).
Definition _dq_state_is_base_wlh (dq_state : Z) : bool := nz (dq_state .& DISPATCH_QUEUE_ROLE_BASE_WLH).
Definition _dq_state_is_base_anon (dq_state : Z) : bool := nz (dq_state .& DISPATCH_QUEUE_ROLE_BASE_ANON).
Definition _dq_state_is_inner_queue (dq_state : Z) : bool :=
  (dq_state .& DISPATCH_QUEUE_ROLE_MASK) =? DISPATCH_QUEUE_ROLE_INNER.
Definition _dq_state_is_enqueued (dq_state : Z) : bool :=
  nz (dq_state .& (DISPATCH_QUEUE_ENQUEUED .| DISPATCH_QUEUE_ENQUEUED_ON_MGR)).
Definition _dq_state_is_enqueued_on_target (dq_state : Z) : bool := nz (dq_state .& DISPATCH_QUEUE_ENQUEUED).
Definition _dq_state_is_enqueued_on_manager (dq_state : Z) : bool :=
  nz (dq_state .& DISPATCH_QUEUE_ENQUEUED_ON_MGR).
Definition _dq_state_in_sync_transfer (dq_state : Z) : bool := nz (dq_state .& DISPATCH_QUEUE_SYNC_TRANSFER).
Definition _dq_state_received_override (dq_state : Z) : bool :=
  _dq_state_is_base_anon dq_state && nz (dq_state .& DISPATCH_QUEUE_RECEIVED_OVERRIDE).
Definition _dq_state_received_sync_wait (dq_state : Z) : bool :=
  _dq_state_is_base_wlh dq_state && nz (dq_state .& DISPATCH_QUEUE_RECEIVED_SYNC_WAIT).
Definition _dq_state_max_qos (dq_state : Z) : Z :=
  (dq_state .& DISPATCH_QUEUE_MAX_QOS_MASK) .>> DISPATCH_QUEUE_MAX_QOS_SHIFT.
Definition _dq_state_from_qos (qos : Z) : Z := qos .<< DISPATCH_QUEUE_MAX_QOS_SHIFT.
Definition _dq_state_merge_qos (dq_state qos : Z) : Z :=
  let qos_bits := _dq_state_from_qos qos in
  if (dq_state .& DISPATCH_QUEUE_MAX_QOS_MASK) <? qos_bits then
    let dq_state := clear64 dq_state DISPATCH_QUEUE_MAX_QOS_MASK in
    let dq_state := dq_state .| qos_bits in
    if _dq_state_is_base_anon dq_state then dq_state .| DISPATCH_QUEUE_RECEIVED_OVERRIDE else dq_state
  else dq_state.
Definition _dq_state_drain_owner (dq_state : Z) : Z := _dispatch_lock_owner (u32 dq_state).
Definition _dq_state_drain_locked_by (dq_state tid : Z) : bool := _dispatch_lock_is_locked_by (u32 dq_state) tid.
Definition _dq_state_drain_locked (dq_state : Z) : bool := _dispatch_lock_is_locked (u32 dq_state).
Definition _dq_state_is_sync_runnable (dq_state : Z) : bool := dq_state <? DISPATCH_QUEUE_IN_BARRIER.
Definition _dq_state_is_runnable (dq_state : Z) : bool := dq_state <? DISPATCH_QUEUE_WIDTH_FULL_BIT.
Definition _dq_state_should_override (dq_state : Z) : bool :=
  if _dq_state_is_suspended dq_state || _dq_state_is_enqueued_on_manager dq_state then false
  else if _dq_state_is_enqueued_on_target dq_state then true
  else if _dq_state_is_base_wlh dq_state then false
  else _dq_state_drain_locked dq_state.
Definition _dq_state_needs_lock_override (dq_state qos : Z) : bool :=
  _dq_state_is_base_anon dq_state && (qos <? _dq_state_max_qos dq_state).

(** ** The word as bit fields

    From the low end: owner (30 bits), sync transfer, enqueued, max qos (3),
    override, role (2), enqueued on manager, dirty, pending barrier, width (13,
    with the full bit on top), in barrier, needs activation, inactive, side
    suspend count bit, suspend count (6). *)

Record fields := Fields {
  own : Z; st : Z; enq : Z; qos : Z; ov : Z; role : Z; em : Z; dirty : Z;
  pb : Z; wd : Z; ib : Z; na : Z; ina : Z; ssc : Z; sc : Z;
}.

Definition word (f : fields) : Z :=
  own f + 2 ^ 30 * (st f + 2 ^ 1 * (enq f + 2 ^ 1 * (qos f + 2 ^ 3 * (ov f + 2 ^ 1 * (role f +
  2 ^ 2 * (em f + 2 ^ 1 * (dirty f + 2 ^ 1 * (pb f + 2 ^ 1 * (wd f + 2 ^ 13 * (ib f + 2 ^ 1 * (na f +
  2 ^ 1 * (ina f + 2 ^ 1 * (ssc f + 2 ^ 1 * sc f))))))))))))).

Record wf (f : fields) : Prop := {
  wf_own : 0 <= own f < 2 ^ 30; wf_st : 0 <= st f < 2 ^ 1; wf_enq : 0 <= enq f < 2 ^ 1;
  wf_qos : 0 <= qos f < 2 ^ 3; wf_ov : 0 <= ov f < 2 ^ 1; wf_role : 0 <= role f < 2 ^ 2;
  wf_em : 0 <= em f < 2 ^ 1; wf_dirty : 0 <= dirty f < 2 ^ 1; wf_pb : 0 <= pb f < 2 ^ 1;
  wf_wd : 0 <= wd f < 2 ^ 13; wf_ib : 0 <= ib f < 2 ^ 1; wf_na : 0 <= na f < 2 ^ 1;
  wf_ina : 0 <= ina f < 2 ^ 1; wf_ssc : 0 <= ssc f < 2 ^ 1; wf_sc : 0 <= sc f < 2 ^ 6;
}.

(** Reading the fields off a word. *)
Definition fields_of (x : Z) : fields := {|
  own := x mod 2 ^ 30; st := (x / 2 ^ 30) mod 2 ^ 1; enq := (x / 2 ^ 31) mod 2 ^ 1; qos := (x / 2 ^ 32) mod 2 ^ 3;
  ov := (x / 2 ^ 35) mod 2 ^ 1; role := (x / 2 ^ 36) mod 2 ^ 2; em := (x / 2 ^ 38) mod 2 ^ 1;
  dirty := (x / 2 ^ 39) mod 2 ^ 1; pb := (x / 2 ^ 40) mod 2 ^ 1; wd := (x / 2 ^ 41) mod 2 ^ 13;
  ib := (x / 2 ^ 54) mod 2 ^ 1; na := (x / 2 ^ 55) mod 2 ^ 1; ina := (x / 2 ^ 56) mod 2 ^ 1;
  ssc := (x / 2 ^ 57) mod 2 ^ 1; sc := x / 2 ^ 58 |}.

Definition fmap2 (g : Z -> Z -> Z) (a b : fields) : fields := {|
  own := g (own a) (own b); st := g (st a) (st b); enq := g (enq a) (enq b); qos := g (qos a) (qos b);
  ov := g (ov a) (ov b); role := g (role a) (role b); em := g (em a) (em b);
  dirty := g (dirty a) (dirty b); pb := g (pb a) (pb b); wd := g (wd a) (wd b); ib := g (ib a) (ib b);
  na := g (na a) (na b); ina := g (ina a) (ina b); ssc := g (ssc a) (ssc b); sc := g (sc a) (sc b) |}.

(** A hypothesis that is the goal, up to syntax. *)
Ltac by_hyp := match goal with H : ?P |- ?P => exact H end.

(** [wf] as linear facts, with the powers evaluated. *)
Ltac wf_facts :=
  repeat match goal with
  | H : wf ?f |- _ =>
      let p := fresh in pose proof H as p; destruct p; clear H
  end; eval_pow2.

(** Linear goals about [word f] for well-formed [f]. *)
Ltac word_fields := unfold word in *; wf_facts; cbn [own st enq qos ov role em dirty pb wd ib na ina ssc sc] in *; lia.

Lemma word_range f : wf f -> 0 <= word f < 2 ^ 64.
Proof. intros. word_fields. Qed.

Lemma fields_of_wf x : 0 <= x < 2 ^ 64 -> wf (fields_of x).
Proof.
  intros Hx. split; cbn; try (apply Z.mod_pos_bound; lia).
  split; [apply Z.div_pos; lia|]. apply Z.div_lt_upper_bound; lia.
Qed.

Lemma split_field x k n m : m = k + n -> 0 <= k -> 0 < n ->
  x / 2 ^ k = (x / 2 ^ k) mod 2 ^ n + 2 ^ n * (x / 2 ^ m).
Proof.
  intros ->. intros. rewrite Z.pow_add_r, <- Z.div_div by lia. pose proof (Z.div_mod (x / 2 ^ k) (2 ^ n)). lia.
Qed.

Lemma word_fields_of x : word (fields_of x) = x.
Proof.
  unfold word, fields_of; cbn [own st enq qos ov role em dirty pb wd ib na ina ssc sc].
  rewrite <- (split_field x 57 1 58 eq_refl), <- (split_field x 56 1 57 eq_refl), <- (split_field x 55 1 56 eq_refl) by lia.
  rewrite <- (split_field x 54 1 55 eq_refl), <- (split_field x 41 13 54 eq_refl), <- (split_field x 40 1 41 eq_refl) by lia.
  rewrite <- (split_field x 39 1 40 eq_refl), <- (split_field x 38 1 39 eq_refl), <- (split_field x 36 2 38 eq_refl) by lia.
  rewrite <- (split_field x 35 1 36 eq_refl), <- (split_field x 32 3 35 eq_refl), <- (split_field x 31 1 32 eq_refl) by lia.
  rewrite <- (split_field x 30 1 31 eq_refl) by lia.
  pose proof (Z.div_mod x (2 ^ 30)). lia.
Qed.

Lemma horner_inj n a b c d : 0 <= a < 2 ^ n -> 0 <= c < 2 ^ n ->
  a + 2 ^ n * b = c + 2 ^ n * d -> a = c /\ b = d.
Proof. intros. assert (b = d) by nia. subst. lia. Qed.

(** The reading is unique. *)
Lemma word_inj f g : wf f -> wf g -> word f = word g -> f = g.
Proof.
  intros [] [] E. destruct f, g. unfold word in E. cbn [own st enq qos ov role em dirty pb wd ib na ina ssc sc] in *.
  repeat (apply horner_inj in E as [? E]; [|by_hyp..]). subst. reflexivity.
Qed.

(** ** Bit operations act field by field *)

Lemma horner_lor n a b : 0 <= n -> 0 <= a < 2 ^ n -> a + 2 ^ n * b = Z.lor a (Z.shiftl b n).
Proof.
  intros Hn Ha. rewrite lor_add_disjoint, Z.shiftl_mul_pow2; [lia|lia|].
  apply Z.bits_inj'. intros i Hi. rewrite Z.land_spec, Z.bits_0. destruct (decide (i < n)).
  - rewrite Z.shiftl_spec_low by lia. apply andb_false_r.
  - by rewrite (testbit_above n a i) by lia.
Qed.

Lemma land_horner n a b c d : 0 <= n -> 0 <= a < 2 ^ n -> 0 <= c < 2 ^ n ->
  Z.land (a + 2 ^ n * b) (c + 2 ^ n * d) = Z.land a c + 2 ^ n * Z.land b d.
Proof.
  intros Hn Ha Hc. rewrite !horner_lor by (try lia; apply land_range_r; lia).
  apply Z.bits_inj'. intros i Hi. rewrite !Z.land_spec, !Z.lor_spec, !Z.land_spec.
  destruct (decide (i < n)).
  - rewrite !Z.shiftl_spec_low by lia. by rewrite !orb_false_r.
  - rewrite (testbit_above n a i), (testbit_above n c i), !Z.shiftl_spec by lia. by rewrite Z.land_spec.
Qed.

Lemma lor_horner n a b c d : 0 <= n -> 0 <= a < 2 ^ n -> 0 <= c < 2 ^ n ->
  Z.lor (a + 2 ^ n * b) (c + 2 ^ n * d) = Z.lor a c + 2 ^ n * Z.lor b d.
Proof.
  intros Hn Ha Hc. rewrite !horner_lor by (try lia; apply lor_range; lia).
  apply Z.bits_inj'. intros i Hi. rewrite !Z.lor_spec. destruct (decide (i < n)).
  - rewrite !Z.shiftl_spec_low by lia. by rewrite !orb_false_r.
  - rewrite (testbit_above n a i), (testbit_above n c i), !Z.shiftl_spec by lia. by rewrite Z.lor_spec.
Qed.

Lemma word_land f g : wf f -> wf g -> word f .& word g = word (fmap2 Z.land f g).
Proof. intros [] []. unfold word, fmap2; cbn [own st enq qos ov role em dirty pb wd ib na ina ssc sc]. by rewrite !land_horner by (by_hyp || lia). Qed.

Lemma word_lor f g : wf f -> wf g -> word f .| word g = word (fmap2 Z.lor f g).
Proof. intros [] []. unfold word, fmap2; cbn [own st enq qos ov role em dirty pb wd ib na ina ssc sc]. by rewrite !lor_horner by (by_hyp || lia). Qed.

(** ** Masks

    [mask_tac] proves that a mask, applied to [word f], yields the given fields. *)

Lemma word_and_mask f m g : wf f -> 0 <= m < 2 ^ 64 -> fmap2 Z.land f (fields_of m) = g -> word f .& m = word g.
Proof.
  intros Hf Hm <-. rewrite <- (word_fields_of m) at 1. apply word_land; [done|]. by apply fields_of_wf.
Qed.

Lemma word_or_mask f m g : wf f -> 0 <= m < 2 ^ 64 -> fmap2 Z.lor f (fields_of m) = g -> word f .| m = word g.
Proof.
  intros Hf Hm <-. rewrite <- (word_fields_of m) at 1. apply word_lor; [done|]. by apply fields_of_wf.
Qed.

Lemma land_all n x m : m = 2 ^ n - 1 -> 0 <= n -> 0 <= x < 2 ^ n -> Z.land x m = x.
Proof. intros -> Hn Hx. rewrite Z.sub_1_r, <- Z.ones_equiv, Z.land_ones by lia. by apply Z.mod_small. Qed.

Lemma lor_one x : 0 <= x < 2 ^ 1 -> Z.lor x 1 = 1.
Proof. intros Hx. eval_pow2. assert (x = 0 \/ x = 1) as [->| ->] by lia; done. Qed.

(** One field of a masked word. *)
Ltac field_tac :=
  first
  [ reflexivity | apply Z.land_0_r | apply Z.lor_0_r
  | by_hyp
  | match goal with
    | |- Z.land ?x ?m = ?x =>
        let n := eval vm_compute in (Z.log2 (m + 1)) in
        refine (land_all n x m eq_refl _ _); [lia|by_hyp]
    | |- Z.lor ?x 1 = 1 => refine (lor_one x _); by_hyp
    end ].

(** *** Updates of one field *)

Definition set_own v f := Fields v (st f) (enq f) (qos f) (ov f) (role f) (em f) (dirty f) (pb f) (wd f) (ib f) (na f) (ina f) (ssc f) (sc f).
Definition set_enq v f := Fields (own f) (st f) v (qos f) (ov f) (role f) (em f) (dirty f) (pb f) (wd f) (ib f) (na f) (ina f) (ssc f) (sc f).
Definition set_qos v f := Fields (own f) (st f) (enq f) v (ov f) (role f) (em f) (dirty f) (pb f) (wd f) (ib f) (na f) (ina f) (ssc f) (sc f).
Definition set_ov v f := Fields (own f) (st f) (enq f) (qos f) v (role f) (em f) (dirty f) (pb f) (wd f) (ib f) (na f) (ina f) (ssc f) (sc f).
Definition set_dirty v f := Fields (own f) (st f) (enq f) (qos f) (ov f) (role f) (em f) v (pb f) (wd f) (ib f) (na f) (ina f) (ssc f) (sc f).
Definition set_pb v f := Fields (own f) (st f) (enq f) (qos f) (ov f) (role f) (em f) (dirty f) v (wd f) (ib f) (na f) (ina f) (ssc f) (sc f).
Definition set_wd v f := Fields (own f) (st f) (enq f) (qos f) (ov f) (role f) (em f) (dirty f) (pb f) v (ib f) (na f) (ina f) (ssc f) (sc f).
Definition set_ib v f := Fields (own f) (st f) (enq f) (qos f) (ov f) (role f) (em f) (dirty f) (pb f) (wd f) v (na f) (ina f) (ssc f) (sc f).
(** The suspension bits na, ina, ssc, sc. *)
Definition set_susp n i s c f := Fields (own f) (st f) (enq f) (qos f) (ov f) (role f) (em f) (dirty f) (pb f) (wd f) (ib f) n i s c.

(** [DISPATCH_QUEUE_DRAIN_UNLOCK_MASK] cleared. *)
Definition f_unlock f := Fields 0 0 (enq f) (qos f) 0 (role f) (em f) (dirty f) (pb f) (wd f) (ib f) (na f) (ina f) (ssc f) (sc f).
(** Only [DISPATCH_QUEUE_DRAIN_PRESERVED_BITS_MASK] kept. *)
Definition f_preserved f := Fields 0 0 (enq f) (qos f) 0 (role f) (em f) 0 0 0 0 0 0 0 0.

(** Compute the fields of updated records. *)
Ltac fields_cbn :=
  cbn [own st enq qos ov role em dirty pb wd ib na ina ssc sc set_own set_enq set_qos set_ov set_dirty set_pb
       set_wd set_ib set_susp f_unlock f_preserved] in *.
(** Expose the updates as records. *)
Ltac fields_unfold :=
  unfold set_own, set_enq, set_qos, set_ov, set_dirty, set_pb, set_wd, set_ib, set_susp, f_unlock, f_preserved in *;
  cbn [own st enq qos ov role em dirty pb wd ib na ina ssc sc] in *.

Ltac mask_tac :=
  match goal with
  | |- Z.land (word ?f) ?m = _ => apply word_and_mask
  | |- Z.lor (word ?f) ?m = _ => apply word_or_mask
  end;
  [ assumption | vm_compute; split; congruence |
    match goal with
    | |- fmap2 _ _ (fields_of ?m) = _ =>
        let M := eval vm_compute in (fields_of m) in change (fields_of m) with M
    end;
    match goal with H : wf _ |- _ => destruct H end;
    unfold fmap2; fields_unfold; f_equal; field_tac ].

Section masks.
Variable f : fields.
Hypothesis Hf : wf f.

Lemma clear_dirty : clear64 (word f) DISPATCH_QUEUE_DIRTY = word (set_dirty 0 f).
Proof. unfold clear64. mask_tac. Qed.
Lemma or_dirty : word f .| DISPATCH_QUEUE_DIRTY = word (set_dirty 1 f).
Proof. mask_tac. Qed.
Lemma clear_qos : clear64 (word f) DISPATCH_QUEUE_MAX_QOS_MASK = word (set_qos 0 f).
Proof. unfold clear64. mask_tac. Qed.
Lemma clear_enq : clear64 (word f) DISPATCH_QUEUE_ENQUEUED = word (set_enq 0 f).
Proof. unfold clear64. mask_tac. Qed.
Lemma or_enq : word f .| DISPATCH_QUEUE_ENQUEUED = word (set_enq 1 f).
Proof. mask_tac. Qed.
Lemma or_override : word f .| DISPATCH_QUEUE_RECEIVED_OVERRIDE = word (set_ov 1 f).
Proof. mask_tac. Qed.
Lemma clear_ib : clear64 (word f) DISPATCH_QUEUE_IN_BARRIER = word (set_ib 0 f).
Proof. unfold clear64. mask_tac. Qed.
Lemma clear_unlock : clear64 (word f) DISPATCH_QUEUE_DRAIN_UNLOCK_MASK = word (f_unlock f).
Proof. unfold clear64. mask_tac. Qed.
Lemma and_preserved : word f .& DISPATCH_QUEUE_DRAIN_PRESERVED_BITS_MASK = word (f_preserved f).
Proof. mask_tac. Qed.

(** *** Tests *)

Ltac bit_test g :=
  match goal with |- context [Z.land (word f) ?m] => replace (Z.land (word f) m) with (word g) by (symmetry; mask_tac) end;
  unfold nz, word; fields_cbn; wf_facts;
  match goal with |- negb ?b = ?c => destruct b eqn:?, c eqn:?; try done; reflect_bools; lia end.

Lemma is_dirty_word : _dq_state_is_dirty (word f) = (dirty f =? 1).
Proof. unfold _dq_state_is_dirty. bit_test (Fields 0 0 0 0 0 0 0 (dirty f) 0 0 0 0 0 0 0). Qed.
Lemma has_pending_barrier_word : _dq_state_has_pending_barrier (word f) = (pb f =? 1).
Proof. unfold _dq_state_has_pending_barrier. bit_test (Fields 0 0 0 0 0 0 0 0 (pb f) 0 0 0 0 0 0). Qed.
Lemma is_in_barrier_word : _dq_state_is_in_barrier (word f) = (ib f =? 1).
Proof. unfold _dq_state_is_in_barrier. bit_test (Fields 0 0 0 0 0 0 0 0 0 0 (ib f) 0 0 0 0). Qed.
Lemma is_inactive_word : _dq_state_is_inactive (word f) = (ina f =? 1).
Proof. unfold _dq_state_is_inactive. bit_test (Fields 0 0 0 0 0 0 0 0 0 0 0 0 (ina f) 0 0). Qed.
Lemma needs_activation_word : _dq_state_needs_activation (word f) = (na f =? 1).
Proof. unfold _dq_state_needs_activation. bit_test (Fields 0 0 0 0 0 0 0 0 0 0 0 (na f) 0 0 0). Qed.
Lemma has_side_suspend_cnt_word : _dq_state_has_side_suspend_cnt (word f) = (ssc f =? 1).
Proof. unfold _dq_state_has_side_suspend_cnt. bit_test (Fields 0 0 0 0 0 0 0 0 0 0 0 0 0 (ssc f) 0). Qed.
Lemma is_enqueued_on_target_word : _dq_state_is_enqueued_on_target (word f) = (enq f =? 1).
Proof. unfold _dq_state_is_enqueued_on_target. bit_test (Fields 0 0 (enq f) 0 0 0 0 0 0 0 0 0 0 0 0). Qed.
Lemma is_enqueued_on_manager_word : _dq_state_is_enqueued_on_manager (word f) = (em f =? 1).
Proof. unfold _dq_state_is_enqueued_on_manager. bit_test (Fields 0 0 0 0 0 0 (em f) 0 0 0 0 0 0 0 0). Qed.
Lemma is_enqueued_word : _dq_state_is_enqueued (word f) = (1 <=? enq f + em f).
Proof. unfold _dq_state_is_enqueued. bit_test (Fields 0 0 (enq f) 0 0 0 (em f) 0 0 0 0 0 0 0 0). Qed.
Lemma in_sync_transfer_word : _dq_state_in_sync_transfer (word f) = (st f =? 1).
Proof. unfold _dq_state_in_sync_transfer. bit_test (Fields 0 (st f) 0 0 0 0 0 0 0 0 0 0 0 0 0). Qed.

(** A boolean equation between a comparison of words and one of fields. *)
Ltac cmp_tac := unfold word; wf_facts; apply eq_true_iff_eq; rewrite ?andb_true_iff, ?orb_true_iff, ?negb_true_iff, ?Z.leb_le, ?Z.ltb_lt, ?Z.eqb_eq; lia.

Lemma is_suspended_word : _dq_state_is_suspended (word f) = (1 <=? na f + ina f + ssc f + sc f).
Proof. unfold _dq_state_is_suspended, DISPATCH_QUEUE_NEEDS_ACTIVATION. cmp_tac. Qed.
Lemma is_runnable_word :
  _dq_state_is_runnable (word f) = (wd f <? 0x1000) && (ib f + na f + ina f + ssc f + sc f =? 0).
Proof. unfold _dq_state_is_runnable, DISPATCH_QUEUE_WIDTH_FULL_BIT. cmp_tac. Qed.
Lemma is_sync_runnable_word :
  _dq_state_is_sync_runnable (word f) = (ib f + na f + ina f + ssc f + sc f =? 0).
Proof. unfold _dq_state_is_sync_runnable, DISPATCH_QUEUE_IN_BARRIER. cmp_tac. Qed.

Lemma low_word : u32 (word f) = own f + 2 ^ 30 * (st f + 2 * enq f).
Proof.
  unfold wrap. symmetry. pose proof Hf as [].
  apply (Z.mod_unique _ _ (word f / 2 ^ 32)); [left; eval_pow2; lia|].
  assert (word f / 2 ^ 32 = (word f - (own f + 2 ^ 30 * (st f + 2 * enq f))) / 2 ^ 32) as ->;
  unfold word in *; eval_pow2; Z.div_mod_to_equations; lia.
Qed.

Lemma drain_owner_word : _dq_state_drain_owner (word f) = own f.
Proof.
  unfold _dq_state_drain_owner, _dispatch_lock_owner. rewrite low_word.
  replace DLOCK_OWNER_MASK with (Z.ones 30) by done. pose proof Hf as [].
  rewrite Z.land_ones, Z.mul_comm, Z.mod_add by (eval_pow2; lia). by apply Z.mod_small.
Qed.
Lemma drain_locked_word : _dq_state_drain_locked (word f) = negb (own f =? 0).
Proof.
  unfold _dq_state_drain_locked, _dispatch_lock_is_locked, nz.
  change (u32 (word f) .& DLOCK_OWNER_MASK) with (_dq_state_drain_owner (word f)). by rewrite drain_owner_word.
Qed.
Lemma max_qos_word : _dq_state_max_qos (word f) = qos f.
Proof.
  unfold _dq_state_max_qos.
  replace (word f .& DISPATCH_QUEUE_MAX_QOS_MASK) with (word (Fields 0 0 0 (qos f) 0 0 0 0 0 0 0 0 0 0 0)) by (symmetry; mask_tac).
  unfold word, DISPATCH_QUEUE_MAX_QOS_SHIFT; fields_cbn. rewrite Z.shiftr_div_pow2 by lia.
  wf_facts. Z.div_mod_to_equations. lia.
Qed.

Lemma width_bits_word : word f .& DISPATCH_QUEUE_WIDTH_MASK = wd f * DISPATCH_QUEUE_WIDTH_INTERVAL.
Proof.
  replace (word f .& DISPATCH_QUEUE_WIDTH_MASK) with (word (Fields 0 0 0 0 0 0 0 0 0 (wd f) 0 0 0 0 0)) by (symmetry; mask_tac).
  unfold word, DISPATCH_QUEUE_WIDTH_INTERVAL; fields_cbn. lia.
Qed.

Lemma suspend_bits_word :
  word f .& DISPATCH_QUEUE_SUSPEND_BITS_MASK = 2 ^ 55 * (na f + 2 * ina f + 4 * ssc f + 8 * sc f).
Proof.
  replace (word f .& DISPATCH_QUEUE_SUSPEND_BITS_MASK) with (word (Fields 0 0 0 0 0 0 0 0 0 0 0 (na f) (ina f) (ssc f) (sc f))) by (symmetry; mask_tac).
  unfold word; fields_cbn. lia.
Qed.

Lemma not_base_wlh_word : role f < 2 -> _dq_state_is_base_wlh (word f) = false.
Proof.
  intros Hr. unfold _dq_state_is_base_wlh.
  replace (word f .& DISPATCH_QUEUE_ROLE_BASE_WLH) with (word (Fields 0 0 0 0 0 0 0 0 0 0 0 0 0 0 0)); [done|].
  symmetry. apply word_and_mask; [done|vm_compute; split; congruence|].
  change (fields_of DISPATCH_QUEUE_ROLE_BASE_WLH) with (Fields 0 0 0 0 0 2 0 0 0 0 0 0 0 0 0).
  unfold fmap2; fields_unfold. rewrite !Z.land_0_r. f_equal. pose proof (wf_role f Hf).
  assert (role f = 0 \/ role f = 1) as [->| ->] by lia; done.
Qed.

Lemma lock_value_small tid : 0 <= tid < 2 ^ 30 -> _dispatch_lock_value_from_tid tid = tid.
Proof.
  intros. unfold _dispatch_lock_value_from_tid. replace DLOCK_OWNER_MASK with (Z.ones 30) by done.
  rewrite Z.land_ones by lia. by apply Z.mod_small.
Qed.
End masks.

(** ** Well-formed updates *)

Ltac wf_tac := split; fields_cbn; wf_facts; lia.

Lemma wf_set_dirty f v : wf f -> 0 <= v <= 1 -> wf (set_dirty v f).
Proof. intros. wf_tac. Qed.
Lemma wf_set_enq f v : wf f -> 0 <= v <= 1 -> wf (set_enq v f).
Proof. intros. wf_tac. Qed.
Lemma wf_set_qos f v : wf f -> 0 <= v < 8 -> wf (set_qos v f).
Proof. intros. wf_tac. Qed.
Lemma wf_set_ov f v : wf f -> 0 <= v <= 1 -> wf (set_ov v f).
Proof. intros. wf_tac. Qed.
Lemma wf_unlock f : wf f -> wf (f_unlock f).
Proof. intros. wf_tac. Qed.
Lemma wf_preserved f : wf f -> wf (f_preserved f).
Proof. intros. wf_tac. Qed.
Lemma wf_set_own f v : wf f -> 0 <= v < 2 ^ 30 -> wf (set_own v f).
Proof. intros. wf_tac. Qed.
Lemma wf_set_wd f v : wf f -> 0 <= v < 2 ^ 13 -> wf (set_wd v f).
Proof. intros. wf_tac. Qed.
Lemma wf_set_ib f v : wf f -> 0 <= v <= 1 -> wf (set_ib v f).
Proof. intros. wf_tac. Qed.
Lemma wf_set_pb f v : wf f -> 0 <= v <= 1 -> wf (set_pb v f).
Proof. intros. wf_tac. Qed.
Lemma wf_set_susp f n i s c : wf f -> 0 <= n <= 1 -> 0 <= i <= 1 -> 0 <= s <= 1 -> 0 <= c < 64 -> wf (set_susp n i s c f).
Proof. intros. wf_tac. Qed.
#[export] Hint Resolve wf_set_pb wf_set_susp wf_set_dirty wf_set_enq wf_set_qos wf_set_ov wf_unlock wf_preserved wf_set_own wf_set_wd wf_set_ib : dispatch.

(** Setting the owner of an unlocked word. *)
Lemma or_owner f tid : wf f -> own f = 0 -> 0 <= tid < 2 ^ 30 -> Z.lor (word f) tid = word (set_own tid f).
Proof.
  intros Hf H0 Ht.
  replace tid with (word (Fields tid 0 0 0 0 0 0 0 0 0 0 0 0 0 0)) at 1 by (unfold word; fields_cbn; lia).
  rewrite word_lor; [|done|split; fields_cbn; eval_pow2; lia].
  unfold fmap2; fields_unfold. by rewrite H0, !Z.lor_0_r, Z.lor_0_l.
Qed.

(** Merging a qos only changes the qos and override fields. *)
Lemma merge_qos_word f q : wf f -> 0 <= q < 8 ->
  exists q' o, 0 <= q' < 8 /\ 0 <= o <= 1 /\ _dq_state_merge_qos (word f) q = word (set_qos q' (set_ov o f)).
Proof.
  intros Hf Hq. pose proof (wf_qos f Hf). pose proof (wf_ov f Hf). unfold _dq_state_merge_qos.
  destruct (_ <? _).
  2: { exists (qos f), (ov f). eval_pow2. split; [lia|]. split; [lia|]. by destruct f. }
  rewrite clear_qos by done.
  assert (word (set_qos 0 f) .| _dq_state_from_qos q = word (set_qos q f)) as ->.
  { replace (_dq_state_from_qos q) with (word (Fields 0 0 0 q 0 0 0 0 0 0 0 0 0 0 0)).
    - rewrite word_lor; [|apply wf_set_qos; [done|lia]|split; fields_cbn; eval_pow2; lia].
      unfold fmap2; fields_unfold. by rewrite !Z.lor_0_r, Z.lor_0_l.
    - unfold _dq_state_from_qos, DISPATCH_QUEUE_MAX_QOS_SHIFT, word; fields_cbn.
      rewrite Z.shiftl_mul_pow2 by lia. lia. }
  destruct (_dq_state_is_base_anon _).
  - exists q, 1. rewrite or_override by auto with dispatch. split; [lia|]. split; [lia|]. done.
  - exists q, (ov f). eval_pow2. split; [lia|]. split; [lia|]. by destruct f.
Qed.
