(* ===== verification/UnfairLock.v ===== *)
(** * The unfair lock

    Models [dispatch_unfair_lock_s] of [src/shims/lock.h] and [src/shims/lock.c], the
    lock under suspension counts and priority overrides of a queue.  The word holds the
    owner's thread id and the flags WAITERS and FAILED_TRYLOCK.  The configuration is the
    one without kernel support for the lock, whose slow path is a compare-and-swap loop;
    [have_futex] is HAVE_FUTEX.  The variant with priority-inheritance futexes calls the
    kernel, which is a parameter of the section [futex_pi]. *)

From S2P Require Import Prelude Threads DqState.
Local Open Scope word_scope.

(** [self] is the thread id, [_dispatch_tid_self()]. *)
Definition _dispatch_lock_value_for_self (self : Z) : Z := _dispatch_lock_value_from_tid self.
Definition _dispatch_lock_is_locked_by_self (lock_value self : Z) : bool :=
  (Z.lxor lock_value self .& DLOCK_OWNER_MASK) =? 0.
Definition _dispatch_lock_has_waiters (lock_value : Z) : bool := nz (lock_value .& DLOCK_WAITERS_BIT).
Definition _dispatch_lock_has_failed_trylock (lock_value : Z) : bool := nz (lock_value .& DLOCK_FAILED_TRYLOCK_BIT).

(** The compare-and-swap of the fast path; [None] calls the slow path. *)
Definition _dispatch_unfair_lock_lock (self dul_lock : Z) : option Z :=
  if decide (dul_lock = DLOCK_OWNER_NULL) then Some (_dispatch_lock_value_for_self self) else None.

(** One round of the loop: the new word, or [None] after [_dispatch_thread_switch]. *)
Definition _dispatch_unfair_lock_lock_slow (self dul_lock : Z) : outcome (option Z) :=
  if decide (dul_lock = DLOCK_OWNER_NULL) then Done (Some (_dispatch_lock_value_for_self self))
  else if _dispatch_lock_is_locked_by dul_lock (_dispatch_lock_value_for_self self) then Crash ClientCrash
  else Done None.

(** The new word, the result and the owner. *)
Definition _dispatch_unfair_lock_trylock (self dul_lock : Z) : Z * bool * Z :=
  let old_value := dul_lock in
  let new_value :=
    if negb (_dispatch_lock_is_locked old_value) then _dispatch_lock_value_for_self self
    else old_value .| DLOCK_FAILED_TRYLOCK_BIT in
  (new_value, negb (_dispatch_lock_is_locked old_value), _dispatch_lock_owner new_value).

(** Without kernel support the slow path only validates the owner. *)
Definition _dispatch_unfair_lock_unlock_slow (self cur : Z) : outcome unit :=
  if negb (_dispatch_lock_is_locked_by_self cur self) then Crash ClientCrash else Done tt.

Definition tryunlock_new_value (old_value : Z) : Z :=
  if nz (old_value .& DLOCK_FAILED_TRYLOCK_BIT) then Z.lxor old_value DLOCK_FAILED_TRYLOCK_BIT else DLOCK_OWNER_NULL.

(** The new word and whether the lock was released. *)
Definition _dispatch_unfair_lock_tryunlock (self dul_lock : Z) : outcome (Z * bool) :=
  let old_value := dul_lock in
  let new_value := tryunlock_new_value old_value in
  if nz new_value then Done (new_value, false)
  else if _dispatch_lock_has_waiters old_value
  then _dispatch_unfair_lock_unlock_slow self old_value ≫= fun _ => Done (new_value, true)
  else Done (new_value, true).

(** The new word and whether a trylock failed meanwhile. *)
Definition _dispatch_unfair_lock_unlock_had_failed_trylock (have_futex : bool) (self dul_lock : Z)
    : outcome (Z * bool) :=
  let value_self := _dispatch_lock_value_for_self self in
  if have_futex then
    if decide (dul_lock = value_self) then Done (DLOCK_OWNER_NULL, false)
    else _dispatch_unfair_lock_unlock_slow self dul_lock ≫= fun _ =>
         Done (dul_lock, _dispatch_lock_has_failed_trylock dul_lock)
  else
    let cur := dul_lock in
    if decide (cur = value_self) then Done (DLOCK_OWNER_NULL, false)
    else _dispatch_unfair_lock_unlock_slow self cur ≫= fun _ =>
         Done (DLOCK_OWNER_NULL, _dispatch_lock_has_failed_trylock cur).

(** ** Threads *)

Inductive lock_pc :=
| LIdle
| LSlow                     (* in the loop of _dispatch_unfair_lock_lock_slow *)
| LHeld
| LRecursive.               (* the owner in that loop *)

Record lock_config := {
  lc_word : Z;
  lc_threads : list lock_pc;
  lc_failed : bool;         (* a trylock failed and the owner does not know *)
  lc_reports : list bool;   (* what the owner was told, last first *)
  lc_crashed : bool;
}.

Inductive lock_action := LLock | LTrylock | LTryunlock | LUnlock | LRun.

Definition lock_tid (i : nat) : Z := Z.of_nat i + 1.

(** Thread [i] performs one atomic access.  A thread that holds the lock may lock it
    again, which is the misuse the slow path detects. *)
Definition lock_step (have_futex : bool) (c : lock_config) (i : nat) (a : lock_action) : option lock_config :=
  pc ← lc_threads c !! i;
  let w := lc_word c in
  let self := lock_tid i in
  let goto w pc failed reports :=
    Some {| lc_word := w; lc_threads := <[i := pc]> (lc_threads c); lc_failed := failed;
            lc_reports := reports; lc_crashed := lc_crashed c |} in
  let fail := Some {| lc_word := w; lc_threads := lc_threads c; lc_failed := lc_failed c;
                      lc_reports := lc_reports c; lc_crashed := true |} in
  match a, pc with
  | LLock, (LIdle | LHeld) =>
      match _dispatch_unfair_lock_lock self w with
      | Some w => goto w LHeld false (lc_reports c)
      | None => goto w (match pc with LIdle => LSlow | _ => LRecursive end) (lc_failed c) (lc_reports c)
      end
  | LRun, (LSlow | LRecursive) =>
      match _dispatch_unfair_lock_lock_slow self w with
      | Done (Some w) => goto w LHeld false (lc_reports c)
      | Done None => goto w pc (lc_failed c) (lc_reports c)
      | Crash _ => fail
      end
  | LTrylock, LIdle =>
      let '(w, ok, _) := _dispatch_unfair_lock_trylock self w in
      if ok : bool then goto w LHeld false (lc_reports c) else goto w LIdle true (lc_reports c)
  | LTryunlock, LHeld =>
      match _dispatch_unfair_lock_tryunlock self w with
      | Done (w, true) => goto w LIdle (lc_failed c) (false :: lc_reports c)
      | Done (w, false) => goto w LHeld false (true :: lc_reports c)
      | Crash _ => fail
      end
  | LUnlock, LHeld =>
      match _dispatch_unfair_lock_unlock_had_failed_trylock have_futex self w with
      | Done (w, failed) => goto w LIdle (if failed then false else lc_failed c) (failed :: lc_reports c)
      | Crash _ => fail
      end
  | _, _ => None
  end.

Definition lock_init (n : nat) : lock_config :=
  {| lc_word := DLOCK_OWNER_NULL; lc_threads := replicate n LIdle; lc_failed := false;
     lc_reports := []; lc_crashed := false |}.

Inductive lock_reach (have_futex : bool) (n : nat) : lock_config -> Prop :=
| lkr_init : lock_reach have_futex n (lock_init n)
| lkr_step c i a c' : lock_reach have_futex n c -> lock_step have_futex c i a = Some c' -> lock_reach have_futex n c'.

(** ** The word *)

Definition lock_word (t : Z) (failed : bool) : Z := t + (if failed then 2 ^ 30 else 0).

Section word.
Context (t : Z) (Ht : 0 < t < 2 ^ 30).

Lemma owner_lock_word b : lock_word t b .& DLOCK_OWNER_MASK = t.
Proof.
  change DLOCK_OWNER_MASK with (Z.ones 30). rewrite Z.land_ones by lia. unfold lock_word.
  destruct b; Z.div_mod_to_equations; lia.
Qed.

Lemma locked_lock_word b : _dispatch_lock_is_locked (lock_word t b) = true.
Proof. unfold _dispatch_lock_is_locked, nz. rewrite owner_lock_word. lia. Qed.

Lemma lock_word_nonzero b : lock_word t b <> 0.
Proof. unfold lock_word. destruct b; lia. Qed.

Lemma locked_by_lock_word b t' : 0 < t' < 2 ^ 30 ->
  ((Z.lxor (lock_word t b) t' .& DLOCK_OWNER_MASK) =? 0) = bool_decide (t = t').
Proof.
  intros Ht'. assert (Z.lxor (lock_word t b) t' .& DLOCK_OWNER_MASK = Z.lxor t t') as ->.
  { assert (Z.land (Z.lxor (lock_word t b) t') DLOCK_OWNER_MASK
      = Z.lxor (Z.land (lock_word t b) DLOCK_OWNER_MASK) (Z.land t' DLOCK_OWNER_MASK)) as ->.
    { apply Z.bits_inj'. intros k _. rewrite !Z.land_spec, !Z.lxor_spec, !Z.land_spec.
      by destruct (Z.testbit (lock_word t b) k), (Z.testbit t' k), (Z.testbit DLOCK_OWNER_MASK k). }
    rewrite owner_lock_word. f_equal. change DLOCK_OWNER_MASK with (Z.ones 30).
    rewrite Z.land_ones by lia. apply Z.mod_small. lia. }
  case_bool_decide as E; [subst; by rewrite Z.lxor_nilpotent|]. apply Z.eqb_neq. by rewrite Z.lxor_eq_0_iff.
Qed.

Lemma failed_lock_word b : nz (lock_word t b .& DLOCK_FAILED_TRYLOCK_BIT) = b.
Proof.
  change DLOCK_FAILED_TRYLOCK_BIT with (2 ^ 30). rewrite land_pow2, testbit_div by lia. unfold nz, lock_word.
  destruct b.
  - rewrite bool_decide_eq_true_2; [done|]. Z.div_mod_to_equations; lia.
  - rewrite bool_decide_eq_false_2; [done|]. Z.div_mod_to_equations; lia.
Qed.

Lemma set_failed_lock_word b : lock_word t b .| DLOCK_FAILED_TRYLOCK_BIT = lock_word t true.
Proof.
  change DLOCK_FAILED_TRYLOCK_BIT with (2 ^ 30). rewrite lor_bit by lia. unfold lock_word.
  destruct b; Z.div_mod_to_equations; lia.
Qed.

Lemma clear_failed_lock_word : Z.lxor (lock_word t true) DLOCK_FAILED_TRYLOCK_BIT = lock_word t false.
Proof.
  rewrite <- (set_failed_lock_word false). rewrite <- (Z.lxor_0_r (lock_word t false)) at 2.
  rewrite <- (Z.lxor_nilpotent DLOCK_FAILED_TRYLOCK_BIT), <- Z.lxor_assoc. f_equal.
  symmetry. apply Z.lxor_lor. change DLOCK_FAILED_TRYLOCK_BIT with (2 ^ 30).
  rewrite land_pow2, testbit_div by lia. rewrite bool_decide_eq_false_2; [done|].
  unfold lock_word. Z.div_mod_to_equations; lia.
Qed.

Lemma waiters_lock_word b : _dispatch_lock_has_waiters (lock_word t b) = false.
Proof.
  unfold _dispatch_lock_has_waiters. change DLOCK_WAITERS_BIT with (2 ^ 31). rewrite land_pow2, testbit_div by lia.
  rewrite bool_decide_eq_false_2; [done|]. unfold lock_word. destruct b; Z.div_mod_to_equations; lia.
Qed.

Lemma self_lock_word : _dispatch_lock_value_for_self t = lock_word t false.
Proof. unfold _dispatch_lock_value_for_self, lock_word. rewrite lock_value_small; lia. Qed.
End word.

(** ** Operations on the words that occur *)

Section ops.
Context (t self : Z) (Ht : 0 < t < 2 ^ 30) (Hself : 0 < self < 2 ^ 30).

Lemma lock_slow_busy b : _dispatch_unfair_lock_lock_slow self (lock_word t b) =
  if bool_decide (t = self) then Crash ClientCrash else Done None.
Proof.
  unfold _dispatch_unfair_lock_lock_slow. rewrite decide_False by (by apply lock_word_nonzero).
  unfold _dispatch_lock_is_locked_by, _dispatch_lock_value_for_self. rewrite lock_value_small by lia.
  by rewrite locked_by_lock_word.
Qed.

Lemma trylock_free : _dispatch_unfair_lock_trylock self 0 =
  (_dispatch_lock_value_for_self self, true, _dispatch_lock_owner (_dispatch_lock_value_for_self self)).
Proof. reflexivity. Qed.

Lemma trylock_busy b : _dispatch_unfair_lock_trylock self (lock_word t b) = (lock_word t true, false, t).
Proof.
  unfold _dispatch_unfair_lock_trylock. rewrite locked_lock_word by done. simpl negb. cbv iota.
  rewrite set_failed_lock_word by done. unfold _dispatch_lock_owner. by rewrite owner_lock_word.
Qed.

Lemma tryunlock_held b : _dispatch_unfair_lock_tryunlock t (lock_word t b) =
  Done (if b then lock_word t false else 0, negb b).
Proof.
  unfold _dispatch_unfair_lock_tryunlock, tryunlock_new_value. rewrite failed_lock_word by done. destruct b.
  - rewrite clear_failed_lock_word by done. unfold nz.
    pose proof (lock_word_nonzero t Ht false). destruct (lock_word t false =? 0) eqn:E; [lia|done].
  - by rewrite waiters_lock_word.
Qed.

Lemma unlock_held b : _dispatch_unfair_lock_unlock_had_failed_trylock false t (lock_word t b) = Done (0, b).
Proof.
  unfold _dispatch_unfair_lock_unlock_had_failed_trylock. rewrite self_lock_word by done. destruct b.
  - rewrite decide_False by (unfold lock_word; lia). unfold _dispatch_unfair_lock_unlock_slow, _dispatch_lock_is_locked_by_self.
    rewrite locked_by_lock_word, bool_decide_eq_true_2 by done. simpl.
    unfold _dispatch_lock_has_failed_trylock. by rewrite failed_lock_word.
  - by rewrite decide_True.
Qed.
End ops.

(** ** The invariant *)

Definition holds (pc : lock_pc) : bool := match pc with LHeld | LRecursive => true | _ => false end.

Definition lock_free (c : lock_config) : Prop :=
  lc_word c = 0 /\ lc_failed c = false /\ forall i pc, lc_threads c !! i = Some pc -> holds pc = false.

Definition lock_owned (c : lock_config) (i : nat) : Prop :=
  (exists pc, lc_threads c !! i = Some pc /\ holds pc = true) /\ lc_word c = lock_word (lock_tid i) (lc_failed c) /\
  forall j pc, lc_threads c !! j = Some pc -> holds pc = true -> j = i.

Definition lock_inv (n : nat) (c : lock_config) : Prop :=
  length (lc_threads c) = n /\ (lock_free c \/ exists i, lock_owned c i) /\
  (lc_crashed c = true -> exists i, lc_threads c !! i = Some LRecursive).

Lemma lock_tid_inj i j : lock_tid i = lock_tid j -> i = j.
Proof. unfold lock_tid. lia. Qed.

Section invariant.
Context (n : nat) (Hn : Z.of_nat n < 2 ^ 30 - 1).

Lemma lock_tid_range c i pc : length (lc_threads c) = n -> lc_threads c !! i = Some pc -> 0 < lock_tid i < 2 ^ 30.
Proof. intros Hl Hi. apply lookup_lt_Some in Hi. unfold lock_tid. lia. Qed.

(** The thread that acquires a free lock owns it. *)
Lemma acquired c i pc : lock_free c -> lc_threads c !! i = Some pc ->
  lock_owned {| lc_word := lock_word (lock_tid i) false; lc_threads := <[i := LHeld]> (lc_threads c);
    lc_failed := false; lc_reports := lc_reports c; lc_crashed := lc_crashed c |} i.
Proof.
  intros (_ & _ & Hf) Hi. split_and!; simpl.
  - exists LHeld. split; [|done]. apply list_lookup_insert_eq. by eapply lookup_lt_Some.
  - done.
  - intros j pc' Hj Hh. destruct (decide (i = j)) as [|Hne]; [done|].
    rewrite list_lookup_insert_ne in Hj by done. by rewrite (Hf j pc' Hj) in Hh.
Qed.

(** The owner lets go. *)
Lemma released c i rep : lock_owned c i -> lock_free
  {| lc_word := 0; lc_threads := <[i := LIdle]> (lc_threads c); lc_failed := false; lc_reports := rep;
     lc_crashed := lc_crashed c |}.
Proof.
  intros ((pc & Hi & _) & _ & Hu). split_and!; [done..|]. simpl. intros j pc' Hj.
  destruct (decide (i = j)) as [<-|Hne].
  - rewrite list_lookup_insert_eq in Hj by (by eapply lookup_lt_Some). by injection Hj as <-.
  - rewrite list_lookup_insert_ne in Hj by done. destruct (holds pc') eqn:E; [|done]. by destruct Hne; rewrite (Hu j pc').
Qed.

(** A thread moves without changing whether it holds the lock. *)
Lemma moved c i pc pc' w failed rep :
  lc_threads c !! i = Some pc -> holds pc' = holds pc -> lock_free c \/ (exists k, lock_owned c k) ->
  (lock_free c -> w = 0 /\ failed = false) ->
  (forall k, lock_owned c k -> w = lock_word (lock_tid k) failed) ->
  let c' := {| lc_word := w; lc_threads := <[i := pc']> (lc_threads c); lc_failed := failed; lc_reports := rep;
               lc_crashed := lc_crashed c |} in
  lock_free c' \/ exists k, lock_owned c' k.
Proof.
  intros Hi Hh Hcase Hf Ho c'. destruct Hcase as [H|(k & H)].
  - left. destruct (Hf H) as [-> ->]. split_and!; [done..|]. simpl. intros j pc0 Hj. destruct H as (_ & _ & H).
    destruct (decide (i = j)) as [<-|Hne].
    + rewrite list_lookup_insert_eq in Hj by (by eapply lookup_lt_Some). injection Hj as <-. rewrite Hh. by apply (H i).
    + rewrite list_lookup_insert_ne in Hj by done. by apply (H j).
  - right. exists k. pose proof (Ho k H) as Hw. destruct H as ((pk & Hk & Hhk) & _ & Hu). split_and!; [|done|]; simpl.
    + destruct (decide (i = k)) as [->|Hne].
      * exists pc'. rewrite list_lookup_insert_eq by (by eapply lookup_lt_Some). split; [done|]. congruence.
      * exists pk. by rewrite list_lookup_insert_ne.
    + intros j pc0 Hj Hh0. destruct (decide (i = j)) as [<-|Hne].
      * rewrite list_lookup_insert_eq in Hj by (by eapply lookup_lt_Some). injection Hj as <-.
        apply (Hu i pc Hi). congruence.
      * rewrite list_lookup_insert_ne in Hj by done. by apply (Hu j pc0).
Qed.

(** Only a thread that locks recursively stays where it is after a crash. *)
Lemma crash_kept c i pc pc' : lc_threads c !! i = Some pc -> pc <> LRecursive ->
  (exists k, lc_threads c !! k = Some LRecursive) -> exists k, <[i := pc']> (lc_threads c) !! k = Some LRecursive.
Proof.
  intros Hi Hne (k & Hk). exists k. rewrite list_lookup_insert_ne; [done|]. intros ->. congruence.
Qed.
End invariant.

Lemma holder_owns n c i pc : lock_inv n c -> lc_threads c !! i = Some pc -> holds pc = true -> lock_owned c i.
Proof.
  intros (_ & [(_ & _ & Hf)|(k & H)] & _) Hi Hh; [by rewrite (Hf i pc Hi) in Hh|].
  pose proof H as (_ & _ & Hu). by rewrite (Hu i pc Hi Hh).
Qed.

Section step.
Context (n : nat) (Hn : Z.of_nat n < 2 ^ 30 - 1) (c : lock_config) (H : lock_inv n c).
Context (i : nat) (pc : lock_pc) (Hi : lc_threads c !! i = Some pc).

Lemma self_range : 0 < lock_tid i < 2 ^ 30.
Proof. destruct H as [Hl _]. by eapply lock_tid_range. Qed.

Lemma owned_range k : lock_owned c k -> 0 < lock_tid k < 2 ^ 30.
Proof. intros ((p & Hk & _) & _). destruct H as [Hl _]. by eapply lock_tid_range. Qed.

(** Preservation, from the new state of the lock. *)
Lemma inv_goto w pc' failed rep : pc <> LRecursive ->
  let c' := {| lc_word := w; lc_threads := <[i := pc']> (lc_threads c); lc_failed := failed; lc_reports := rep;
               lc_crashed := lc_crashed c |} in
  lock_free c' \/ (exists k, lock_owned c' k) -> lock_inv n c'.
Proof.
  intros Hne c' Hcase. destruct H as (Hl & _ & Hcr). split_and!; [by simpl; rewrite length_insert|done|].
  intros E. by eapply crash_kept; [..|apply Hcr].
Qed.

(** A wait that leaves the word alone. *)
Lemma lock_inv_wait pc' : pc <> LRecursive -> holds pc' = holds pc ->
  lock_inv n {| lc_word := lc_word c; lc_threads := <[i := pc']> (lc_threads c); lc_failed := lc_failed c;
    lc_reports := lc_reports c; lc_crashed := lc_crashed c |}.
Proof.
  intros Hne Hh. apply inv_goto; [done|]. eapply moved; [done|done|apply H| |].
  - by intros (? & ? & _).
  - by intros k (_ & ? & _).
Qed.

Lemma inv_acquire w : pc <> LRecursive -> lc_word c = 0 -> w = _dispatch_lock_value_for_self (lock_tid i) ->
  lock_inv n {| lc_word := w; lc_threads := <[i := LHeld]> (lc_threads c); lc_failed := false;
    lc_reports := lc_reports c; lc_crashed := lc_crashed c |}.
Proof.
  intros Hne Hw ->. apply inv_goto; [done|]. right. exists i. rewrite self_lock_word by apply self_range.
  eapply acquired; [|done]. destruct H as (_ & [Hf|(k & Hk)] & _); [done|]. exfalso.
  pose proof (owned_range k Hk) as Hr. destruct Hk as (_ & E & _).
  apply (lock_word_nonzero (lock_tid k) Hr (lc_failed c)). congruence.
Qed.

End step.

Lemma lock_step_inv n c i pc a c' : Z.of_nat n < 2 ^ 30 - 1 -> lock_inv n c -> lc_threads c !! i = Some pc ->
  lock_step false c i a = Some c' -> lock_inv n c'.
Proof.
  intros Hn H Hi E. pose proof (self_range n Hn c H i pc Hi) as Hr. unfold lock_step in E. rewrite Hi in E. cbn [mbind option_bind] in E.
  assert (forall pc0, pc = pc0 -> holds pc0 = true -> lock_owned c i) as Hown
    by (intros pc0 <- Hh; by eapply holder_owns).
  destruct a.
  - unfold _dispatch_unfair_lock_lock in E. destruct pc; try done; destruct (decide (lc_word c = DLOCK_OWNER_NULL)) as [Hw|Hw];
      injection E as <-; try (by eapply inv_acquire); by eapply lock_inv_wait.
  - destruct pc; try done. destruct (proj1 (proj2 H)) as [Hf|(k & Hk)].
    + pose proof Hf as (Hw & _). rewrite Hw, trylock_free in E. injection E as <-. by eapply inv_acquire.
    + pose proof (owned_range n Hn c H k Hk) as Hrk. pose proof Hk as (_ & Hw & _). rewrite Hw, trylock_busy in E by done.
      injection E as <-. eapply inv_goto; [done..|]. eapply moved; [done|done|by eauto| |].
      * intros (Hz & _). exfalso. apply (lock_word_nonzero _ Hrk (lc_failed c)). congruence.
      * intros k' ((p & Hp & Hh) & _). by rewrite (proj2 (proj2 Hk) k' p Hp Hh).
  - destruct pc; try done. pose proof (Hown LHeld eq_refl eq_refl) as Ho. pose proof Ho as (_ & Hw & Hu).
    rewrite Hw, tryunlock_held in E by done. destruct (lc_failed c) eqn:Ef; simpl in E; injection E as <-.
    + eapply inv_goto; [done..|]. eapply moved; [done|done|by eauto| |].
      * intros (_ & ? & _). congruence.
      * intros k ((p & Hp & Hh) & _). by rewrite (Hu k p Hp Hh).
    + eapply inv_goto; [done..|]. left. by apply released.
  - destruct pc; try done. pose proof (Hown LHeld eq_refl eq_refl) as Ho. pose proof Ho as (_ & Hw & _).
    rewrite Hw, unlock_held in E by done. injection E as <-. eapply inv_goto; [done..|]. left.
    replace (if lc_failed c then false else lc_failed c) with false by (by destruct (lc_failed c)). by apply released.
  - destruct pc; try done.
    + destruct (proj1 (proj2 H)) as [Hf|(k & Hk)].
      * pose proof Hf as (Hw & _). rewrite Hw in E. injection E as <-. by eapply inv_acquire.
      * pose proof (owned_range n Hn c H k Hk) as Hrk. pose proof Hk as ((p & Hp & Hh) & Hw & _). rewrite Hw, lock_slow_busy in E by done.
        rewrite bool_decide_eq_false_2 in E by (intros Et%lock_tid_inj; rewrite Et, Hi in Hp; by injection Hp as <-).
        injection E as <-. rewrite <- Hw. by eapply lock_inv_wait.
    + pose proof (Hown LRecursive eq_refl eq_refl) as Ho. pose proof Ho as (_ & Hw & _).
      rewrite Hw, lock_slow_busy, bool_decide_eq_true_2 in E by done. injection E as <-.
      rewrite <- Hw. destruct H as (? & Hcase & ?). split_and!; [done|done|by exists i].
Qed.

Lemma lock_reach_inv n c : Z.of_nat n < 2 ^ 30 - 1 -> lock_reach false n c -> lock_inv n c.
Proof.
  intros Hn. induction 1 as [|c i a c' _ IH E].
  - split_and!; [apply length_replicate| |done]. left. split_and!; [done..|].
    intros i pc [-> _]%lookup_replicate. done.
  - destruct (lc_threads c !! i) as [pc|] eqn:Hi; [by eapply lock_step_inv|]. unfold lock_step in E. by rewrite Hi in E.
Qed.

(** In the form of the lock that is built without futexes ([have_futex = false]), in every
    interleaving: at most one thread holds the lock; the word names it, and is zero exactly when
    nobody holds it; the only crash is a recursive lock; and the owner learns of failed
    trylocks: [unlock] reports exactly whether one failed and releases, [tryunlock]
    releases exactly when none failed. *)
Theorem unfair_lock_exclusive n c : Z.of_nat n < 2 ^ 30 - 1 -> lock_reach false n c ->
  (forall i j pi pj, lc_threads c !! i = Some pi -> lc_threads c !! j = Some pj ->
    holds pi = true -> holds pj = true -> i = j) /\
  (lc_word c = 0 <-> forall i pi, lc_threads c !! i = Some pi -> holds pi = false) /\
  (lc_crashed c = true -> exists i, lc_threads c !! i = Some LRecursive) /\
  (forall i, lc_threads c !! i = Some LHeld -> _dispatch_lock_owner (lc_word c) = lock_tid i /\
    (exists c', lock_step false c i LUnlock = Some c' /\ lc_word c' = 0 /\ lc_reports c' = lc_failed c :: lc_reports c) /\
    (exists c', lock_step false c i LTryunlock = Some c' /\ lc_reports c' = lc_failed c :: lc_reports c /\
      (lc_word c' = 0 <-> lc_failed c = false))).
Proof.
  intros Hn Hr. pose proof (lock_reach_inv n c Hn Hr) as H. pose proof H as (Hl & Hcase & Hcr). split_and!; [| |done|].
  - intros i j pi pj Hi Hj Hhi Hhj. pose proof (holder_owns n c i pi H Hi Hhi) as (_ & _ & Hu). symmetry. by apply (Hu j pj).
  - destruct Hcase as [(Hw & _ & Hf)|(k & Hk)]; [done|]. pose proof (owned_range n Hn c H k Hk) as Hrk.
    destruct Hk as ((p & Hp & Hh) & Hw & _). split.
    + intros Hz. exfalso. by apply (lock_word_nonzero _ Hrk (lc_failed c)); rewrite <- Hw.
    + intros Hf. by rewrite (Hf k p Hp) in Hh.
  - intros i Hi. pose proof (self_range n Hn c H i LHeld Hi) as Hri.
    pose proof (holder_owns n c i LHeld H Hi eq_refl) as (_ & Hw & _). unfold lock_step. rewrite Hi. opt_simpl. rewrite Hw.
    split; [by apply owner_lock_word|]. rewrite unlock_held, tryunlock_held by done. split; [by eexists|].
    destruct (lc_failed c); eexists; (split; [done|]); (split; [done|]); simpl; [|done].
    split; [|done]. intros E. by apply lock_word_nonzero in E.
Qed.

Lemma lock_trace_reach have_futex n l c' : schedule (lock_step have_futex) (lock_init n) l = Some c' ->
  lock_reach have_futex n c'.
Proof. apply schedule_ind; [by econstructor|constructor]. Qed.

Definition lock_contended (have_futex : bool) : lock_config :=
  default (lock_init 2) (schedule (lock_step have_futex) (lock_init 2) [(0%nat, LLock); (1%nat, LTrylock); (1%nat, LLock)]).

Lemma lock_contended_reach have_futex : lock_reach have_futex 2 (lock_contended have_futex).
Proof.
  apply (lock_trace_reach _ _ [(0%nat, LLock); (1%nat, LTrylock); (1%nat, LLock)]).
  destruct have_futex; vm_compute; reflexivity.
Qed.

Lemma unfair_lock_exclusive_witness :
  lc_threads (lock_contended false) = [LHeld; LSlow] /\ _dispatch_lock_owner (lc_word (lock_contended false)) = 1 /\
  exists c', lock_step false (lock_contended false) 0 LUnlock = Some c' /\ lc_word c' = 0 /\ lc_reports c' = [true].
Proof.
  destruct (unfair_lock_exclusive 2 (lock_contended false)) as (_ & _ & _ & H); [lia|apply lock_contended_reach|].
  destruct (H 0%nat) as (Ho & Hu & _); [vm_compute; reflexivity|].
  split; [vm_compute; reflexivity|]. split; [exact Ho|exact Hu].
Defined.

(** ** Two configurations in which the flag is not handled *)

(** With HAVE_FUTEX and no priority-inheritance futexes the word is only cleared when it
    equals the owner's id: after a failed trylock nobody holds the lock and nobody can
    take it. *)
Definition lock_stuck (c : lock_config) : Prop :=
  lc_word c = lock_word 1 true /\ Forall (fun pc => pc = LIdle \/ pc = LSlow) (lc_threads c) /\
  lc_threads c !! 0%nat <> Some LSlow.

Lemma lock_stuck_step n c i a c' : Z.of_nat n < 2 ^ 30 - 1 -> length (lc_threads c) = n -> lock_stuck c -> i <> 0%nat ->
  lock_step true c i a = Some c' -> lock_stuck c'.
Proof.
  intros Hn Hl (Hw & Hf & H0) Hi0 E. unfold lock_step in E. destruct (lc_threads c !! i) as [pc|] eqn:Hi; [|done].
  pose proof Hf as Hpc. rewrite Forall_lookup in Hpc. specialize (Hpc i pc Hi). cbn [mbind option_bind] in E.
  assert (0 < lock_tid i < 2 ^ 30) as Hr by (apply lookup_lt_Some in Hi; unfold lock_tid; lia).
  assert (forall rep p, p = LIdle \/ p = LSlow -> lock_stuck {| lc_word := lock_word 1 true; lc_threads := <[i := p]> (lc_threads c);
    lc_failed := true; lc_reports := rep; lc_crashed := lc_crashed c |}) as Hgoto.
  { intros rep p Hp. split_and!; simpl; [done|by apply Forall_insert|]. by rewrite list_lookup_insert_ne. }
  destruct Hpc as [-> | ->], a; try done; rewrite Hw in E.
  - unfold _dispatch_unfair_lock_lock in E. rewrite decide_False in E by (by vm_compute). injection E as <-.
    split_and!; simpl; [done|apply Forall_insert; auto|]. by rewrite list_lookup_insert_ne.
  - rewrite trylock_busy in E by lia. injection E as <-. apply Hgoto. by left.
  - rewrite lock_slow_busy in E by lia. case_bool_decide as Et; [unfold lock_tid in Et; lia|]. injection E as <-.
    split_and!; simpl; [done|apply Forall_insert; auto|]. by rewrite list_lookup_insert_ne.
Qed.

Definition lock_leaked : lock_config :=
  default (lock_init 2) (schedule (lock_step true) (lock_init 2) [(0%nat, LLock); (1%nat, LTrylock); (0%nat, LUnlock)]).

(** A step of a thread other than the one that unlocked. *)
Definition other_step (c c' : lock_config) : Prop := exists i a, i <> 0%nat /\ lock_step true c i a = Some c'.

Lemma lock_step_length b c i a c' : lock_step b c i a = Some c' -> length (lc_threads c') = length (lc_threads c).
Proof.
  unfold lock_step. destruct (lc_threads c !! i) as [pc|]; [|done]. cbn [mbind option_bind].
  intros E. repeat (case_match; simplify_eq/=; try done); by rewrite ?length_insert.
Qed.

(** With HAVE_FUTEX but without priority-inheritance futexes, an unlock after a failed
    trylock leaves the word set: every thread is idle, and no other thread ever gets the
    lock. *)
Theorem futex_unlock_leaks :
  lock_reach true 2 lock_leaked /\ lc_threads lock_leaked = [LIdle; LIdle] /\ lc_crashed lock_leaked = false /\
  forall c', rtc other_step lock_leaked c' -> lc_word c' <> 0 /\
    forall i pc, lc_threads c' !! i = Some pc -> holds pc = false.
Proof.
  split.
  { apply (lock_trace_reach _ _ [(0%nat, LLock); (1%nat, LTrylock); (0%nat, LUnlock)]). vm_compute. reflexivity. }
  split; [vm_compute; reflexivity|]. split; [vm_compute; reflexivity|].
  assert (lock_stuck lock_leaked) as H0.
  { split_and!; [vm_compute; reflexivity| |by vm_compute]. vm_compute. repeat constructor. }
  assert (length (lc_threads lock_leaked) = 2%nat) as Hl0 by (vm_compute; reflexivity).
  intros c' Hr. assert (lock_stuck c' /\ length (lc_threads c') = 2%nat) as [(Hw & Hf & _) _].
  { revert H0 Hl0. generalize lock_leaked Hr. clear. induction 1 as [|c c1 c2 (i & a & Hi & E) _ IH]; [done|].
    intros H0 Hl. apply IH; [|by rewrite (lock_step_length _ _ _ _ _ E)]. by eapply (lock_stuck_step 2). }
  split; [by rewrite Hw|]. intros i pc Hi. rewrite Forall_lookup in Hf. by destruct (Hf i pc Hi) as [-> | ->].
Qed.

(** With priority-inheritance futexes the waiters are woken by the kernel: FUTEX_UNLOCK_PI
    on the word, made by the owner.  The call returns the new word, or [None] with an
    error; futex(2) documents EPERM when the caller is not the owner the word names. *)
Section futex_pi.
Context (futex_unlock_pi : Z -> Z -> option Z).
Context (futex_eperm : forall self w, w .& DLOCK_OWNER_MASK <> self -> futex_unlock_pi self w = None).

Definition _dispatch_futex_unlock_pi (self w : Z) : outcome Z :=
  match futex_unlock_pi self w with Some w => Done w | None => Crash ClientCrash end.

(** [w] is the word in memory when the kernel is called. *)
Definition unlock_slow_pi (self cur w : Z) : outcome Z :=
  if negb (_dispatch_lock_is_locked_by_self cur self) then Crash ClientCrash
  else _dispatch_futex_unlock_pi self w.

Definition tryunlock_pi (self dul_lock : Z) : outcome (Z * bool) :=
  let old_value := dul_lock in
  let new_value := tryunlock_new_value old_value in
  if nz new_value then Done (new_value, false)
  else if _dispatch_lock_has_waiters old_value
  then unlock_slow_pi self old_value new_value ≫= fun w => Done (w, true)
  else Done (new_value, true).

(** On the platforms with priority-inheritance futexes [tryunlock] crashes whenever a
    thread waits for the lock and no trylock failed: the word is already cleared when the
    kernel is asked to release it. *)
Theorem tryunlock_pi_crashes t : 0 < t < 2 ^ 30 -> tryunlock_pi t (t .| DLOCK_WAITERS_BIT) = Crash ClientCrash.
Proof.
  intros Ht. assert (t .| DLOCK_WAITERS_BIT = t + 2 ^ 31) as ->.
  { change DLOCK_WAITERS_BIT with (2 ^ 31). rewrite lor_bit by lia. Z.div_mod_to_equations; lia. }
  unfold tryunlock_pi, tryunlock_new_value, _dispatch_lock_has_waiters.
  change DLOCK_FAILED_TRYLOCK_BIT with (2 ^ 30). change DLOCK_WAITERS_BIT with (2 ^ 31).
  rewrite !land_pow2, !testbit_div by lia. rewrite bool_decide_eq_false_2 by (Z.div_mod_to_equations; lia).
  rewrite bool_decide_eq_true_2 by (Z.div_mod_to_equations; lia). simpl.
  unfold unlock_slow_pi, _dispatch_futex_unlock_pi. rewrite futex_eperm by (intros E; vm_compute in E; lia).
  by destruct (_dispatch_lock_is_locked_by_self _ _).
Qed.
End futex_pi.

(** A kernel that releases the word for its owner. *)
Definition owner_unlock_pi (self w : Z) : option Z :=
  if decide (w .& DLOCK_OWNER_MASK = self) then Some 0 else None.

Lemma tryunlock_pi_crashes_witness :
  tryunlock_pi owner_unlock_pi 7 (7 .| DLOCK_WAITERS_BIT) = Crash ClientCrash /\
  owner_unlock_pi 7 (7 .| DLOCK_WAITERS_BIT) = Some 0.
Proof.
  split; [|vm_compute; reflexivity]. apply (tryunlock_pi_crashes owner_unlock_pi); [|lia].
  intros self w Hw. unfold owner_unlock_pi. destruct (decide _) as [E|E]; [destruct (Hw E)|reflexivity].
Defined.
