(* ===== verification/Once.v ===== *)
(** * dispatch_once

    Models [dispatch_once_f] of [src/once.c] with the once gate of [src/shims/lock.h] and
    [src/shims/lock.c], in the configuration without the quiescent counter and with
    futexes.  The predicate is a 64-bit word: zero, the id of the initialising thread with
    the flag WAITERS, or all ones.  Every access of the word and every futex call is a
    step; the futex compares the low half of the word. *)

From S2P Require Import Prelude Threads DqState UnfairLock.
Local Open Scope word_scope.

Definition DLOCK_ONCE_UNLOCKED : Z := 0.
Definition DLOCK_ONCE_DONE : Z := 2 ^ 64 - 1.

(** The inline fast path: whether [dispatch_once_f] must be called. *)
Definition _dispatch_once_f (predicate : Z) : bool := negb (predicate =? DLOCK_ONCE_DONE).

Definition _dispatch_once_gate_tryenter (self dgo_once : Z) : option Z :=
  if decide (dgo_once = DLOCK_ONCE_UNLOCKED) then Some (_dispatch_lock_value_for_self self) else None.

(** The exchange: the old word and the new one. *)
Definition _dispatch_once_mark_done (dgo_once : Z) : Z * Z := (dgo_once, DLOCK_ONCE_DONE).

(** The new word, and the value with which the slow path runs. *)
Definition _dispatch_once_gate_broadcast (self dgo_once : Z) : Z * option Z :=
  let '(v, dgo_once) := _dispatch_once_mark_done dgo_once in
  if decide (u32 v = _dispatch_lock_value_for_self self) then (dgo_once, None) else (dgo_once, Some (u32 v)).

(** Before the futex wakes every waiter. *)
Definition _dispatch_gate_broadcast_slow (self cur : Z) : outcome unit :=
  if negb (_dispatch_lock_is_locked_by_self cur self) then Crash ClientCrash else Done tt.

Inductive once_wait_result :=
| OnceReturn
| OnceWaitOn (dgo_once val : Z)     (* the new word; wait while its low half is [val] *)
| OnceRecursive (dgo_once : Z).     (* DISPATCH_CLIENT_CRASH *)

(** One round of the loop up to the futex call. *)
Definition _dispatch_once_wait (self dgo_once : Z) : once_wait_result :=
  let old_v := dgo_once in
  if decide (old_v = DLOCK_ONCE_DONE) then OnceReturn
  else
    let new_v := old_v .| DLOCK_WAITERS_BIT in
    if _dispatch_lock_is_locked_by (u32 old_v) (_dispatch_lock_value_for_self self) then OnceRecursive new_v
    else OnceWaitOn new_v (u32 new_v).

(** ** Threads *)

Inductive once_pc :=
| OIdle
| OEnter                    (* dispatch_once_f *)
| OCallout                  (* inside the function *)
| OBroadcast                (* the function has returned *)
| OWake (cur : Z)           (* _dispatch_gate_broadcast_slow *)
| OWait                     (* _dispatch_once_wait *)
| OFutex (val : Z)          (* about to wait *)
| OAsleep (val : Z)
| OReturned
| ORecEnter | ORecWait.     (* the function itself calls dispatch_once *)

Record once_config := {
  on_word : Z;
  on_threads : list once_pc;
  on_runs : Z;              (* times the function was started *)
  on_done : bool;           (* it has returned *)
  on_crashed : bool;
}.

Inductive once_action :=
| OCall                     (* a call of dispatch_once *)
| ORecurse                  (* the function calls dispatch_once with the same predicate *)
| ORun
| OFutexReturn.             (* the futex returns without a wakeup *)

Definition once_awake (pc : once_pc) : once_pc := match pc with OAsleep _ => OWait | pc => pc end.

Definition once_step (c : once_config) (i : nat) (a : once_action) : option once_config :=
  pc ← on_threads c !! i;
  let w := on_word c in
  let self := lock_tid i in
  let upd w threads runs done := Some {| on_word := w; on_threads := threads; on_runs := runs; on_done := done;
                                         on_crashed := on_crashed c |} in
  let goto w pc := upd w (<[i := pc]> (on_threads c)) (on_runs c) (on_done c) in
  let fail w := Some {| on_word := w; on_threads := on_threads c; on_runs := on_runs c; on_done := on_done c;
                        on_crashed := true |} in
  match a, pc with
  | OCall, (OIdle | OReturned) => if _dispatch_once_f w then goto w OEnter else goto w OReturned
  | ORecurse, OCallout => goto w ORecEnter
  | ORun, OEnter =>
      match _dispatch_once_gate_tryenter self w with
      | Some w => upd w (<[i := OCallout]> (on_threads c)) (on_runs c + 1) (on_done c)
      | None => goto w OWait
      end
  | ORun, ORecEnter =>
      match _dispatch_once_gate_tryenter self w with
      | Some w => upd w (<[i := OCallout]> (on_threads c)) (on_runs c + 1) (on_done c)
      | None => goto w ORecWait
      end
  | ORun, OCallout => upd w (<[i := OBroadcast]> (on_threads c)) (on_runs c) true
  | ORun, OBroadcast =>
      match _dispatch_once_gate_broadcast self w with
      | (w, None) => goto w OReturned
      | (w, Some cur) => goto w (OWake cur)
      end
  | ORun, OWake cur =>
      match _dispatch_gate_broadcast_slow self cur with
      | Done _ => upd w (<[i := OReturned]> (once_awake <$> on_threads c)) (on_runs c) (on_done c)
      | Crash _ => fail w
      end
  | ORun, (OWait | ORecWait) =>
      match _dispatch_once_wait self w with
      | OnceReturn => goto w OReturned
      | OnceWaitOn w val => goto w (OFutex val)
      | OnceRecursive w => fail w
      end
  | ORun, OFutex val => if decide (u32 w = val) then goto w (OAsleep val) else goto w OWait
  | OFutexReturn, OAsleep _ => goto w OWait
  | _, _ => None
  end.

Definition once_init (n : nat) : once_config :=
  {| on_word := DLOCK_ONCE_UNLOCKED; on_threads := replicate n OIdle; on_runs := 0; on_done := false; on_crashed := false |}.

Inductive once_reach (n : nat) : once_config -> Prop :=
| onr_init : once_reach n (once_init n)
| onr_step c i a c' : once_reach n c -> once_step c i a = Some c' -> once_reach n c'.

(** ** The word while the function runs *)

Definition once_word (t : Z) (waiters : bool) : Z := t + (if waiters then 2 ^ 31 else 0).

Section word.
Context (t : Z) (Ht : 0 < t < 2 ^ 30).

Lemma once_word_range b : 0 < once_word t b < 2 ^ 32.
Proof. unfold once_word. destruct b; lia. Qed.

Lemma once_word_u32 b : u32 (once_word t b) = once_word t b.
Proof. apply wrap_small. pose proof (once_word_range b). lia. Qed.

Lemma once_word_wait b : once_word t b .| DLOCK_WAITERS_BIT = once_word t true.
Proof.
  change DLOCK_WAITERS_BIT with (2 ^ 31). rewrite lor_bit by lia. unfold once_word.
  destruct b; Z.div_mod_to_equations; lia.
Qed.

Lemma once_word_owner b t' : 0 < t' < 2 ^ 30 ->
  ((Z.lxor (once_word t b) t' .& DLOCK_OWNER_MASK) =? 0) = bool_decide (t = t').
Proof.
  intros Ht'. rewrite <- (locked_by_lock_word t Ht false t' Ht'). f_equal.
  apply Z.bits_inj'. intros k Hk. rewrite !Z.land_spec, !Z.lxor_spec. change DLOCK_OWNER_MASK with (Z.ones 30).
  destruct (decide (k < 30)); [|by rewrite Z.ones_spec_high, !andb_false_r by lia].
  rewrite Z.ones_spec_low by lia. do 2 f_equal. unfold once_word, lock_word. rewrite !testbit_div by lia.
  apply bool_decide_ext. destruct b; [|done].
  rewrite Z.add_0_r. replace (2 ^ 31) with (2 ^ (31 - k) * 2 ^ k) by (rewrite <- Z.pow_add_r by lia; f_equal; lia).
  rewrite Z.div_add by lia. replace (31 - k) with (1 + (30 - k)) by lia. rewrite Z.pow_add_r by lia.
  rewrite Z.pow_1_r. rewrite (Z.mul_comm 2), Z.mod_add by lia. done.
Qed.

Lemma once_wait_busy b self : 0 < self < 2 ^ 30 -> _dispatch_once_wait self (once_word t b) =
  if bool_decide (t = self) then OnceRecursive (once_word t true) else OnceWaitOn (once_word t true) (once_word t true).
Proof.
  intros Hs. unfold _dispatch_once_wait. pose proof (once_word_range b).
  rewrite decide_False by (unfold DLOCK_ONCE_DONE; lia).
  unfold _dispatch_lock_is_locked_by, _dispatch_lock_value_for_self. rewrite lock_value_small by lia.
  by rewrite !once_word_u32, once_word_owner, once_word_wait, once_word_u32.
Qed.

Lemma once_broadcast b : _dispatch_once_gate_broadcast t (once_word t b) =
  (DLOCK_ONCE_DONE, if b then Some (once_word t true) else None).
Proof.
  unfold _dispatch_once_gate_broadcast, _dispatch_once_mark_done, _dispatch_lock_value_for_self.
  rewrite lock_value_small, once_word_u32 by lia. destruct b.
  - rewrite decide_False; [done|]. unfold once_word. lia.
  - rewrite decide_True; [done|]. unfold once_word. lia.
Qed.

Lemma once_broadcast_slow b : _dispatch_gate_broadcast_slow t (once_word t b) = Done tt.
Proof.
  unfold _dispatch_gate_broadcast_slow, _dispatch_lock_is_locked_by_self.
  by rewrite once_word_owner, bool_decide_eq_true_2.
Qed.
End word.

(** ** The invariant *)

(** Not yet started; started by thread [k], with the flag WAITERS or not; done. *)
Inductive stage := Before | During (k : nat) (waiters : bool) | After.

Definition stage_word (st : stage) : Z :=
  match st with Before => 0 | During k b => once_word (lock_tid k) b | After => DLOCK_ONCE_DONE end.

(** Where thread [i] can be; [d] is whether the function has returned. *)
Definition pc_ok (st : stage) (d : bool) (i : nat) (pc : once_pc) : Prop :=
  match st with
  | Before => match pc with OIdle | OEnter => d = false | _ => False end
  | During k b =>
      if decide (i = k)
      then match pc with OCallout | ORecEnter | ORecWait => d = false | OBroadcast => d = true | _ => False end
      else match pc with
           | OIdle | OEnter | OWait => True
           | OFutex v | OAsleep v => b = true /\ v = once_word (lock_tid k) true
           | _ => False
           end
  | After =>
      d = true /\
      match pc with
      | OIdle | OEnter | OWait | OReturned | OAsleep _ => True
      | OFutex v => v <> u32 DLOCK_ONCE_DONE
      | OWake cur => cur = once_word (lock_tid i) true
      | _ => False
      end
  end.

Record once_inv (n : nat) (c : once_config) (st : stage) : Prop := {
  oi_len : length (on_threads c) = n;
  oi_word : on_word c = stage_word st;
  oi_runs : on_runs c = match st with Before => 0 | _ => 1 end;
  oi_pc : forall i pc, on_threads c !! i = Some pc -> pc_ok st (on_done c) i pc;
  oi_owner : forall k b, st = During k b -> (k < n)%nat;
  oi_wake : st = After -> forall i v, on_threads c !! i = Some (OAsleep v) ->
    exists j cur, on_threads c !! j = Some (OWake cur);
  oi_crash : on_crashed c = true -> exists k, on_threads c !! k = Some ORecWait;
}.

Section step.
Context (n : nat) (Hn : Z.of_nat n < 2 ^ 30 - 1) (c : once_config).

Lemma once_tid k : (k < n)%nat -> 0 < lock_tid k < 2 ^ 30.
Proof. unfold lock_tid. lia. Qed.

(** The step of thread [i] replaces its program counter and moves to the stage [st']. *)
Lemma once_goto st st' i pc pc' w runs d :
  once_inv n c st -> on_threads c !! i = Some pc -> pc <> ORecWait -> w = stage_word st' ->
  runs = match st' with Before => 0 | _ => 1 end ->
  (forall k b, st' = During k b -> (k < n)%nat) ->
  pc_ok st' d i pc' ->
  (forall j p, j <> i -> on_threads c !! j = Some p -> pc_ok st' d j p) ->
  (st' = After -> (exists j v, j <> i /\ on_threads c !! j = Some (OAsleep v)) \/ (exists v, pc' = OAsleep v) ->
    (exists cur, pc' = OWake cur) \/ exists j cur, j <> i /\ on_threads c !! j = Some (OWake cur)) ->
  once_inv n {| on_word := w; on_threads := <[i := pc']> (on_threads c); on_runs := runs; on_done := d;
    on_crashed := on_crashed c |} st'.
Proof.
  intros [H1 H2 H3 H4 H5 H6 H7] Hi Hne Hw Hr Hk Hpc Hoth Hwake.
  assert (i < length (on_threads c))%nat as Hlt by (by eapply lookup_lt_Some).
  constructor; simpl; try done.
  - by rewrite length_insert.
  - intros j p Hj. destruct (decide (i = j)) as [<-|Hij].
    + rewrite list_lookup_insert_eq in Hj by done. by injection Hj as <-.
    + rewrite list_lookup_insert_ne in Hj by done. by apply Hoth.
  - intros Hst j v Hj. destruct Hwake as [(cur & ->)|(k & cur & Hki & Hk')]; [done| | |].
    + destruct (decide (i = j)) as [<-|Hij].
      * rewrite list_lookup_insert_eq in Hj by done. injection Hj as ->. right. by eexists.
      * rewrite list_lookup_insert_ne in Hj by done. left. by exists j, v.
    + exists i, cur. by apply list_lookup_insert_eq.
    + exists k, cur. by rewrite list_lookup_insert_ne.
  - intros Hc. destruct (H7 Hc) as (k & Hk'). exists k. rewrite list_lookup_insert_ne; [done|]. intros ->. congruence.
Qed.

(** The same inside one stage, when the thread is not and does not become asleep or a
    waker. *)
Lemma once_stay st i pc pc' :
  once_inv n c st -> on_threads c !! i = Some pc -> pc <> ORecWait -> (forall cur, pc <> OWake cur) ->
  (st = After -> forall v, pc' <> OAsleep v) -> pc_ok st (on_done c) i pc' ->
  once_inv n {| on_word := on_word c; on_threads := <[i := pc']> (on_threads c); on_runs := on_runs c;
    on_done := on_done c; on_crashed := on_crashed c |} st.
Proof.
  intros H Hi Hne Hnw Hna Hpc. eapply once_goto; try done; try apply H; [intros j p _; apply H|].
  intros Hst [(j & v & Hj & Hv)|(v & Hv)]; [|by destruct (Hna Hst v)]. right.
  destruct (oi_wake _ _ _ H Hst j v Hv) as (k & cur & Hk). exists k, cur. split; [|done]. intros ->.
  rewrite Hi in Hk. injection Hk as ->. by apply (Hnw cur).
Qed.

Lemma once_call st i pc c' : once_inv n c st -> on_threads c !! i = Some pc -> pc = OIdle \/ pc = OReturned ->
  once_step c i OCall = Some c' -> once_inv n c' st.
Proof.
  intros H Hi Hpc E. pose proof (oi_pc _ _ _ H i pc Hi) as Hok. pose proof (oi_word _ _ _ H) as Hw.
  assert (forall pc', pc' = OEnter \/ (pc' = OReturned /\ st = After) -> pc_ok st (on_done c) i pc') as Hnew.
  { intros pc' Hpc'. destruct st; simpl in *; [|case_decide|]; destruct Hpc as [-> | ->], Hpc' as [-> |[-> ?]]; try done;
      naive_solver. }
  unfold once_step in E. rewrite Hi in E. cbn [mbind option_bind] in E.
  assert (st <> After -> _dispatch_once_f (on_word c) = true) as Hfast.
  { intros Hne. rewrite Hw. unfold _dispatch_once_f, DLOCK_ONCE_DONE. destruct st as [|k b|]; [done| |done].
    pose proof (once_word_range _ (once_tid k (oi_owner _ _ _ H k b eq_refl)) b). simpl. lia. }
  destruct Hpc as [-> | ->]; destruct (_dispatch_once_f (on_word c)) eqn:Ef; injection E as <-;
    eapply once_stay; try done; apply Hnew; auto; right; (split; [done|]); destruct st; try done; exfalso; discriminate Hfast; done.
Qed.
(** Leaving the [During] case of [pc_ok]. *)
Lemma pc_ok_owner k b d pc : pc_ok (During k b) d k pc ->
  match pc with OCallout | ORecEnter | ORecWait => d = false | OBroadcast => d = true | _ => False end.
Proof. simpl. by rewrite decide_True. Qed.

Lemma pc_ok_other k b d i pc : i <> k -> pc_ok (During k b) d i pc ->
  match pc with
  | OIdle | OEnter | OWait => True
  | OFutex v | OAsleep v => b = true /\ v = once_word (lock_tid k) true
  | _ => False
  end.
Proof. intros. simpl in *. by rewrite decide_False in * by done. Qed.

Lemma done_differs t : 0 < t < 2 ^ 30 -> once_word t true <> u32 DLOCK_ONCE_DONE.
Proof. intros Ht. unfold once_word. change (u32 DLOCK_ONCE_DONE) with (2 ^ 32 - 1). lia. Qed.

Lemma once_enter st i pc c' : once_inv n c st -> on_threads c !! i = Some pc -> pc = OEnter \/ pc = ORecEnter ->
  once_step c i ORun = Some c' -> exists st', once_inv n c' st'.
Proof.
  intros H Hi Hpc E. pose proof (oi_pc _ _ _ H i pc Hi) as Hok. pose proof (oi_word _ _ _ H) as Hw.
  pose proof (oi_len _ _ _ H) as Hl. assert (i < n)%nat as Hin by (rewrite <- Hl; by eapply lookup_lt_Some).
  assert (0 < lock_tid i < 2 ^ 30) as Hr by by apply once_tid.
  unfold once_step in E. rewrite Hi in E. cbn [mbind option_bind] in E. unfold _dispatch_once_gate_tryenter in E.
  destruct st as [|k b|].
  - assert (pc = OEnter) as -> by (by destruct Hpc as [-> | ->]). rewrite Hw in E. simpl in E, Hok.
    rewrite Hok in E. injection E as <-. exists (During i false).
    eapply once_goto; try done; simpl.
    + unfold _dispatch_lock_value_for_self, once_word. rewrite lock_value_small; lia.
    + rewrite (oi_runs _ _ _ H). done.
    + by intros k b [= -> _].
    + by rewrite decide_True.
    + intros j p Hj Hp. rewrite decide_False by done. pose proof (oi_pc _ _ _ H j p Hp) as Ho. by destruct p.
  - pose proof (once_word_range _ (once_tid k (oi_owner _ _ _ H k b eq_refl)) b) as Hne.
    rewrite decide_False in E by (rewrite Hw; simpl; unfold DLOCK_ONCE_UNLOCKED; lia).
    exists (During k b). destruct Hpc as [-> | ->]; injection E as <-; eapply once_stay; try done; simpl in *; case_decide; done.
  - rewrite decide_False in E by (rewrite Hw; done). exists After.
    destruct Hpc as [-> | ->]; [|by destruct Hok as [_ []]]. injection E as <-. by eapply once_stay.
Qed.

Lemma once_callout st i c' a : once_inv n c st -> on_threads c !! i = Some OCallout -> a = ORun \/ a = ORecurse ->
  once_step c i a = Some c' -> exists st', once_inv n c' st'.
Proof.
  intros H Hi Ha E. pose proof (oi_pc _ _ _ H i _ Hi) as Hok. exists st.
  destruct st as [|k b|]; [done| |by destruct Hok]. simpl in Hok. case_decide as Hk; [subst k|done].
  unfold once_step in E. rewrite Hi in E. cbn [mbind option_bind] in E.
  destruct Ha as [-> | ->]; injection E as <-.
  - eapply once_goto; try done; try apply H; [simpl; by rewrite decide_True|]. intros j p Hj Hp.
    pose proof (oi_pc _ _ _ H j p Hp) as Ho. apply pc_ok_other in Ho; [|done]. simpl. rewrite decide_False by done. done.
  - eapply once_stay; try done. simpl. by rewrite decide_True.
Qed.

Lemma once_finish st i c' : once_inv n c st -> on_threads c !! i = Some OBroadcast ->
  once_step c i ORun = Some c' -> exists st', once_inv n c' st'.
Proof.
  intros H Hi E. pose proof (oi_pc _ _ _ H i _ Hi) as Hok. exists After.
  destruct st as [|k b|]; [done| |by destruct Hok]. simpl in Hok. case_decide as Hk; [subst k|done].
  assert (0 < lock_tid i < 2 ^ 30) as Hr by (eapply once_tid, (oi_owner _ _ _ H); done).
  unfold once_step in E. rewrite Hi in E. cbn [mbind option_bind] in E.
  rewrite (oi_word _ _ _ H) in E. cbn [stage_word] in E. rewrite once_broadcast in E by done.
  assert (forall j p, j <> i -> on_threads c !! j = Some p -> pc_ok After true j p) as Hoth.
  { intros j p Hj Hp. pose proof (oi_pc _ _ _ H j p Hp) as Ho. apply pc_ok_other in Ho; [|done].
    split; [done|]. destruct p; try done. destruct Ho as [_ ->]. by apply done_differs. }
  destruct b; injection E as <-; rewrite Hok; eapply once_goto; try done; try apply H.
  - left. by eexists.
  - intros _ [(j & v & Hj & Hv)|(v & Hv)]; [|done].
    pose proof (oi_pc _ _ _ H j _ Hv) as Ho. apply pc_ok_other in Ho as [? _]; [done|done].
Qed.

Lemma once_wakes st i cur c' : once_inv n c st -> on_threads c !! i = Some (OWake cur) ->
  once_step c i ORun = Some c' -> exists st', once_inv n c' st'.
Proof.
  intros H Hi E. pose proof (oi_pc _ _ _ H i _ Hi) as Hok. exists After.
  destruct st as [|k b|]; [done|simpl in Hok; by case_decide|]. destruct Hok as [Hd ->].
  pose proof (oi_len _ _ _ H) as Hl.
  assert (0 < lock_tid i < 2 ^ 30) as Hr by (apply once_tid; rewrite <- Hl; by eapply lookup_lt_Some).
  unfold once_step in E. rewrite Hi in E. cbn [mbind option_bind] in E. rewrite once_broadcast_slow in E by done.
  injection E as <-.
  assert (forall j p, <[i := OReturned]> (once_awake <$> on_threads c) !! j = Some p ->
    (j = i /\ p = OReturned) \/ exists q, on_threads c !! j = Some q /\ p = once_awake q) as Hinv.
  { intros j p Hj. destruct (decide (i = j)) as [<-|Hij].
    - rewrite list_lookup_insert_eq in Hj by (rewrite length_fmap; by eapply lookup_lt_Some).
      injection Hj as <-. by left.
    - rewrite list_lookup_insert_ne, list_lookup_fmap in Hj by done. right.
      destruct (on_threads c !! j) as [q|]; [|done]. injection Hj as <-. by exists q. }
  destruct H as [H1 H2 H3 H4 H5 H6 H7]. constructor; simpl; try done.
  - by rewrite length_insert, length_fmap.
  - intros j p Hj. destruct (Hinv j p Hj) as [[-> ->]|(q & Hq & ->)]; [done|].
    pose proof (H4 j q Hq) as [_ Ho]. split; [done|]. by destruct q.
  - intros _ j v Hj. destruct (Hinv j _ Hj) as [[_ ?]|(q & _ & ?)]; [done|by destruct q].
  - intros Hc. destruct (H7 Hc) as (k & Hk). by pose proof (H4 k _ Hk) as [_ []].
Qed.

Lemma once_waits st i pc c' : once_inv n c st -> on_threads c !! i = Some pc -> pc = OWait \/ pc = ORecWait ->
  once_step c i ORun = Some c' -> exists st', once_inv n c' st'.
Proof.
  intros H Hi Hpc E. pose proof (oi_pc _ _ _ H i _ Hi) as Hok. pose proof (oi_len _ _ _ H) as Hl.
  assert (0 < lock_tid i < 2 ^ 30) as Hr by (apply once_tid; rewrite <- Hl; by eapply lookup_lt_Some).
  unfold once_step in E. rewrite Hi in E. cbn [mbind option_bind] in E. rewrite (oi_word _ _ _ H) in E.
  destruct st as [|k b|]; [by destruct Hpc as [-> | ->]| |].
  - pose proof (once_tid k (oi_owner _ _ _ H k b eq_refl)) as Hrk. cbn [stage_word] in E.
    rewrite once_wait_busy in E by done. exists (During k true). destruct Hpc as [-> | ->].
    + assert (i <> k) as Hik by (intros ->; by apply pc_ok_owner in Hok).
      rewrite bool_decide_eq_false_2 in E by (intros ?%lock_tid_inj; congruence). injection E as <-.
      eapply once_goto; try done; try apply H.
      * intros k' b' [= <- _]. by apply (oi_owner _ _ _ H _ b).
      * simpl. by rewrite decide_False.
      * intros j p Hj Hp. pose proof (oi_pc _ _ _ H j p Hp) as Ho. simpl in *. case_decide; [done|]. destruct p; naive_solver.
    + assert (i = k) as ->.
      { destruct (decide (i = k)) as [|Hik]; [done|]. by apply pc_ok_other in Hok. }
      rewrite bool_decide_eq_true_2 in E by done. injection E as <-.
      destruct H as [H1 H2 H3 H4 H5 H6 H7]. constructor; simpl; try done.
      * intros j p Hp. pose proof (H4 j p Hp) as Ho. simpl in *. case_decide; [done|]. destruct p; naive_solver.
      * intros k' b' [= <- _]. by apply (H5 _ b).
      * intros _. by exists k.
  - destruct Hpc as [-> | ->]; [|by destruct Hok as [_ []]]. exists After. unfold _dispatch_once_wait in E. simpl in E.
    injection E as <-. pose proof (oi_word _ _ _ H) as Hw. simpl in Hw. rewrite <- Hw. by eapply once_stay.
Qed.

Lemma once_futex st i pc c' a : once_inv n c st -> on_threads c !! i = Some pc ->
  (exists v, pc = OFutex v /\ a = ORun) \/ (exists v, pc = OAsleep v /\ a = OFutexReturn) ->
  once_step c i a = Some c' -> exists st', once_inv n c' st'.
Proof.
  intros H Hi Hpc E. pose proof (oi_pc _ _ _ H i _ Hi) as Hok. exists st.
  unfold once_step in E. rewrite Hi in E. cbn [mbind option_bind] in E.
  assert (forall d, pc_ok st (on_done c) i pc -> pc_ok st (on_done c) i OWait \/ d = false) as Hwait.
  { intros [] Ho; [left|by right]. destruct st; simpl in *; [|case_decide|]; destruct Hpc as [(v & -> & _)|(v & -> & _)];
      naive_solver. }
  destruct (Hwait true Hok) as [Hw|?]; [|done]. destruct Hpc as [(v & -> & ->)|(v & -> & ->)].
  - case_decide as Hv; injection E as <-; [|by eapply once_stay].
    eapply once_stay; try done.
    + intros ->. destruct Hok as [_ Hok]. rewrite (oi_word _ _ _ H) in Hv. simpl in Hv. congruence.
    + destruct st; simpl in *; [done|by case_decide|naive_solver].
  - injection E as <-. by eapply once_stay.
Qed.

Lemma once_step_inv st i a c' : once_inv n c st -> once_step c i a = Some c' -> exists st', once_inv n c' st'.
Proof.
  intros H E. destruct (on_threads c !! i) as [pc|] eqn:Hi; [|unfold once_step in E; by rewrite Hi in E].
  destruct a.
  - exists st. eapply once_call; try done. unfold once_step in E. rewrite Hi in E. destruct pc; try done; auto.
  - assert (pc = OCallout) as -> by (unfold once_step in E; rewrite Hi in E; by destruct pc).
    eapply once_callout; eauto.
  - destruct pc.
    all: try (unfold once_step in E; rewrite Hi in E; done).
    all: eauto using once_enter, once_callout, once_finish, once_wakes, once_waits, once_futex.
  - assert (exists v, pc = OAsleep v) as (v & ->) by (unfold once_step in E; rewrite Hi in E; destruct pc; try done; eauto).
    eapply once_futex; eauto.
Qed.
End step.

Lemma once_reach_inv n c : Z.of_nat n < 2 ^ 30 - 1 -> once_reach n c -> exists st, once_inv n c st.
Proof.
  intros Hn. induction 1 as [|c i a c' _ [st IH] E]; [|by eapply once_step_inv].
  exists Before. constructor; simpl; try done; [by apply length_replicate|].
  intros i pc [-> _]%lookup_replicate. done.
Qed.

(** C22: in every interleaving the function is started at most once, a call of
    [dispatch_once] returns only after it has returned, nothing crashes unless the
    function itself calls [dispatch_once], and that call crashes instead of waiting for
    itself. *)
Theorem once_exactly_once n c : Z.of_nat n < 2 ^ 30 - 1 -> once_reach n c ->
  0 <= on_runs c <= 1 /\
  (forall i, on_threads c !! i = Some OReturned -> on_runs c = 1 /\ on_done c = true) /\
  (on_crashed c = true -> exists k, on_threads c !! k = Some ORecWait) /\
  (forall k, on_threads c !! k = Some ORecWait -> exists c', once_step c k ORun = Some c' /\ on_crashed c' = true).
Proof.
  intros Hn Hr. destruct (once_reach_inv n c Hn Hr) as [st H]. pose proof (oi_runs _ _ _ H) as Hruns. split_and!.
  - destruct st; lia.
  - destruct st; lia.
  - intros i Hi. pose proof (oi_pc _ _ _ H i _ Hi) as Ho. destruct st; simpl in *; [done|by case_decide|]. by destruct Ho.
  - apply (oi_crash _ _ _ H).
  - intros k Hk. pose proof (oi_pc _ _ _ H k _ Hk) as Ho. destruct st as [|k' b|]; [done| |by destruct Ho].
    simpl in Ho. case_decide as E; [subst k'|done]. unfold once_step. rewrite Hk. opt_simpl.
    rewrite (oi_word _ _ _ H). pose proof (once_tid n Hn k (oi_owner _ _ _ H k b eq_refl)) as Ht. cbn [stage_word].
    rewrite once_wait_busy, bool_decide_eq_true_2 by done. by eexists.
Qed.

(** The initialising thread up to its last access of the gate. *)
Definition initializing (pc : once_pc) : bool :=
  match pc with OCallout | OBroadcast | OWake _ | ORecEnter | ORecWait => true | _ => false end.

(** C35: a thread asleep in [dispatch_once] always has the initialising thread before it:
    that thread is still to wake it, and it is not blocked. *)
Theorem once_no_lost_wakeup n c i v : Z.of_nat n < 2 ^ 30 - 1 -> once_reach n c ->
  on_threads c !! i = Some (OAsleep v) ->
  exists j pc, on_threads c !! j = Some pc /\ initializing pc = true /\ is_Some (once_step c j ORun).
Proof.
  intros Hn Hr Hi. destruct (once_reach_inv n c Hn Hr) as [st H]. pose proof (oi_pc _ _ _ H i _ Hi) as Ho.
  assert (forall j pc, on_threads c !! j = Some pc -> initializing pc = true -> is_Some (once_step c j ORun)) as Hen.
  { intros j pc Hj Hp. unfold once_step. rewrite Hj. destruct pc; try done; opt_simpl.
    - destruct (_dispatch_once_gate_broadcast _ _) as [w [cur|]]; eexists; reflexivity.
    - destruct (_dispatch_gate_broadcast_slow _ _); eexists; reflexivity.
    - destruct (_dispatch_once_gate_tryenter _ _); eexists; reflexivity.
    - destruct (_dispatch_once_wait _ _); eexists; reflexivity. }
  destruct st as [|k b|]; [done| |].
  - pose proof (oi_owner _ _ _ H k b eq_refl) as Hk. rewrite <- (oi_len _ _ _ H) in Hk.
    destruct (lookup_lt_is_Some_2 _ _ Hk) as [pc Hpc]. pose proof (oi_pc _ _ _ H k pc Hpc) as Hok%pc_ok_owner.
    exists k, pc. assert (initializing pc = true) by (by destruct pc). eauto.
  - destruct (oi_wake _ _ _ H eq_refl i v Hi) as (j & cur & Hj). exists j, (OWake cur). eauto.
Qed.

(** *** Instances *)

Lemma once_trace_reach n l c' : schedule once_step (once_init n) l = Some c' -> once_reach n c'.
Proof. apply schedule_ind; [by econstructor|constructor]. Qed.

(** Thread 1 goes to sleep while thread 0 runs the function. *)
Definition once_schedule : list (nat * once_action) :=
  [(0%nat, OCall); (1%nat, OCall); (0%nat, ORun); (1%nat, ORun); (1%nat, ORun); (1%nat, ORun)].
Definition once_asleep : once_config := default (once_init 2) (schedule once_step (once_init 2) once_schedule).
Definition once_recursion : once_config :=
  default (once_init 2) (schedule once_step (once_init 2) (once_schedule ++ [(0%nat, ORecurse); (0%nat, ORun)])).

Lemma once_asleep_reach : once_reach 2 once_asleep.
Proof. apply (once_trace_reach 2 once_schedule). vm_compute. reflexivity. Qed.
Lemma once_recursion_reach : once_reach 2 once_recursion.
Proof.
  apply (once_trace_reach 2 (once_schedule ++ [(0%nat, ORecurse); (0%nat, ORun)])). vm_compute. reflexivity.
Qed.

Lemma once_exactly_once_witness :
  on_threads once_recursion = [ORecWait; OAsleep (2 ^ 31 + 1)] /\ 0 <= on_runs once_recursion <= 1 /\
  exists c', once_step once_recursion 0 ORun = Some c' /\ on_crashed c' = true.
Proof.
  destruct (once_exactly_once 2 once_recursion) as (H1 & _ & _ & H2); [lia|apply once_recursion_reach|].
  split; [vm_compute; reflexivity|]. split; [exact H1|]. apply H2. vm_compute. reflexivity.
Defined.

Lemma once_no_lost_wakeup_witness :
  exists j pc, on_threads once_asleep !! j = Some pc /\ initializing pc = true /\ is_Some (once_step once_asleep j ORun).
Proof.
  apply (once_no_lost_wakeup 2 once_asleep 1 (2 ^ 31 + 1)); [lia|apply once_asleep_reach|vm_compute; reflexivity].
Defined.
