(* ===== verification/Apply.v ===== *)
(** * dispatch_apply

    Models [src/apply.c].  The shared object [dispatch_apply_s] is handed to helper
    threads through a root queue while the caller works on it too: every thread claims
    indices with an atomic increment, runs the function on them, and subtracts what it did
    from [da_todo]; the thread that reaches zero signals the caller; the last thread frees
    the object.  Every atomic access is a step.  Thread 0 is the caller; the helpers start
    at any time or late. *)

From S2P Require Import Prelude Threads DqState ThreadEvent.
Local Open Scope word_scope.

Record dispatch_apply_s := {
  da_index : Z;
  da_todo : Z;
  da_iterations : Z;
  da_nested : Z;
  da_event : Z;
  da_thr_cnt : Z;
}.

Definition set_da_index (da : dispatch_apply_s) v :=
  {| da_index := v; da_todo := da_todo da; da_iterations := da_iterations da; da_nested := da_nested da;
     da_event := da_event da; da_thr_cnt := da_thr_cnt da |}.
Definition set_da_todo (da : dispatch_apply_s) v :=
  {| da_index := da_index da; da_todo := v; da_iterations := da_iterations da; da_nested := da_nested da;
     da_event := da_event da; da_thr_cnt := da_thr_cnt da |}.
Definition set_da_event (da : dispatch_apply_s) v :=
  {| da_index := da_index da; da_todo := da_todo da; da_iterations := da_iterations da; da_nested := da_nested da;
     da_event := v; da_thr_cnt := da_thr_cnt da |}.
Definition set_da_thr_cnt (da : dispatch_apply_s) v :=
  {| da_index := da_index da; da_todo := da_todo da; da_iterations := da_iterations da; da_nested := da_nested da;
     da_event := da_event da; da_thr_cnt := v |}.

(** ** The call *)

Definition DISPATCH_APPLY_MAX : Z := 2 ^ 16 - 1.

(** What [dispatch_apply_f] does with the object it makes. *)
Inductive apply_plan :=
| ApplyNothing
| ApplySerial (da : dispatch_apply_s)       (* dispatch_sync_f of _dispatch_apply_serial *)
| ApplyRedirect (da : dispatch_apply_s)     (* dispatch_sync_f of _dispatch_apply_redirect *)
| ApplyParallel (da : dispatch_apply_s).    (* _dispatch_apply_f on the root queue *)

(** [parallelism] is [_dispatch_qos_max_parallelism]; [nested] the product of the
    iteration counts of the enclosing calls or 0; the other arguments are facts about the
    queue: its width, whether it has a target, whether it is the current one. *)
Definition dispatch_apply_f (iterations parallelism nested dq_width : Z) (has_targetq is_current : bool) : apply_plan :=
  if iterations =? 0 then ApplyNothing
  else
    let thr_cnt := i32 parallelism in
    let '(thr_cnt, nested) :=
      if nested =? 0 then (thr_cnt, iterations)
      else (if nested <? u64 thr_cnt then i32 (thr_cnt ÷ i32 nested) else 1,
            if (nested <? DISPATCH_APPLY_MAX) && (iterations <? DISPATCH_APPLY_MAX)
            then u64 (nested * iterations) else DISPATCH_APPLY_MAX) in
    let thr_cnt := if iterations <? u64 thr_cnt then i32 iterations else thr_cnt in
    let da := {| da_index := 0; da_todo := iterations; da_iterations := iterations; da_nested := nested;
                 da_event := 0; da_thr_cnt := thr_cnt |} in
    if (dq_width =? 1) || (thr_cnt <=? 1) then ApplySerial da
    else if has_targetq then if is_current then ApplySerial da else ApplyRedirect da
    else ApplyParallel da.

(** The do-while loop: the indices the function is called with. *)
Fixpoint apply_serial_loop (fuel : nat) (idx iter : Z) : list Z :=
  match fuel with
  | O => []
  | S fuel =>
      idx :: (let idx := u64 (idx + 1) in if idx <? iter then apply_serial_loop fuel idx iter else [])
  end.

Definition _dispatch_apply_serial (da : dispatch_apply_s) : list Z :=
  apply_serial_loop (Z.to_nat (da_iterations da)) 0 (da_iterations da).

(** ** The shared object *)

Inductive apply_pc :=
| AStart                             (* before the first claim *)
| ACall (idx done : Z)               (* about to call the function *)
| ANext (done : Z)                   (* about to claim the next index *)
| ASub (done : Z)                    (* about to subtract from da_todo *)
| ASignal                            (* about to signal the event *)
| AWake                              (* _dispatch_thread_event_signal_slow *)
| AWait                              (* _dispatch_thread_event_wait *)
| AEvLoop | AEvFutex | AEvAsleep     (* _dispatch_thread_event_wait_slow *)
| ADestroy                           (* _dispatch_thread_event_destroy *)
| ADec                               (* about to decrement da_thr_cnt *)
| AFree
| AReturned.

(** What a step does outside of the object. *)
Inductive apply_effect := NoEffect | Callout (idx : Z) | WakeCaller | FreeObject.

(** The step at [pc]; [wait] is DISPATCH_APPLY_INVOKE_WAIT.  [None] while asleep. *)
Definition _dispatch_apply_invoke2 (wait : bool) (da : dispatch_apply_s) (pc : apply_pc)
    : option (outcome (dispatch_apply_s * apply_pc * apply_effect)) :=
  let out := if wait then AWait else ADec in
  match pc with
  | AStart =>
      let idx := da_index da in
      let da := set_da_index da (u64 (idx + 1)) in
      Some (Done (da, if da_iterations da <=? idx then out else ACall idx 0, NoEffect))
  | ACall idx done => Some (Done (da, ANext (u64 (done + 1)), Callout idx))
  | ANext done =>
      let idx := da_index da in
      let da := set_da_index da (u64 (idx + 1)) in
      Some (Done (da, if idx <? da_iterations da then ACall idx done else ASub done, NoEffect))
  | ASub done =>
      let da := set_da_todo da (u64 (da_todo da - done)) in
      Some (Done (da, if da_todo da =? 0 then ASignal else out, NoEffect))
  | ASignal =>
      let '(v, slow) := _dispatch_thread_event_signal (da_event da) in
      Some (Done (set_da_event da v, if slow : bool then AWake else out, NoEffect))
  | AWake => Some (Done (da, out, WakeCaller))
  | AWait =>
      let '(v, slow) := _dispatch_thread_event_wait (da_event da) in
      Some (Done (set_da_event da v, if slow : bool then AEvLoop else ADestroy, NoEffect))
  | AEvLoop =>
      match _dispatch_thread_event_wait_slow (da_event da) with
      | Done true => Some (Done (da, ADestroy, NoEffect))
      | Done false => Some (Done (da, AEvFutex, NoEffect))
      | Crash e => Some (Crash e)
      end
  | AEvFutex => Some (Done (da, if da_event da =? UINT32_MAX then AEvAsleep else AEvLoop, NoEffect))
  | ADestroy =>
      match _dispatch_thread_event_destroy (da_event da) with
      | Done _ => Some (Done (da, ADec, NoEffect))
      | Crash e => Some (Crash e)
      end
  | ADec =>
      let da := set_da_thr_cnt da (i32 (da_thr_cnt da - 1)) in
      Some (Done (da, if da_thr_cnt da =? 0 then AFree else AReturned, NoEffect))
  | AFree => Some (Done (da, AReturned, FreeObject))
  | AEvAsleep | AReturned => None
  end.

Record apply_config := {
  ac_da : dispatch_apply_s;
  ac_threads : list apply_pc;
  ac_runs : list Z;             (* the indices the function was called with *)
  ac_freed : Z;                 (* times the object was freed *)
  ac_crashed : bool;
}.

(** The object is read or written by the step at [pc]. *)
Definition accesses_da (pc : apply_pc) : bool :=
  match pc with AReturned => false | _ => true end.

Inductive apply_action := ARun | ASpurious.

Definition apply_awake (pc : apply_pc) : apply_pc := match pc with AEvAsleep => AEvLoop | pc => pc end.

Definition apply_step (c : apply_config) (i : nat) (a : apply_action) : option apply_config :=
  pc ← ac_threads c !! i;
  let put threads da runs freed crashed :=
    {| ac_da := da; ac_threads := threads; ac_runs := runs; ac_freed := freed; ac_crashed := crashed |} in
  match a with
  | ASpurious =>
      match pc with
      | AEvAsleep => Some (put (<[i := AEvLoop]> (ac_threads c)) (ac_da c) (ac_runs c) (ac_freed c) (ac_crashed c))
      | _ => None
      end
  | ARun =>
      r ← _dispatch_apply_invoke2 (bool_decide (i = 0%nat)) (ac_da c) pc;
      match r with
      | Crash _ => Some (put (ac_threads c) (ac_da c) (ac_runs c) (ac_freed c) true)
      | Done (da, pc', eff) =>
          let crashed := ac_crashed c || (accesses_da pc && (0 <? ac_freed c)) in
          match eff with
          | NoEffect => Some (put (<[i := pc']> (ac_threads c)) da (ac_runs c) (ac_freed c) crashed)
          | Callout idx => Some (put (<[i := pc']> (ac_threads c)) da (ac_runs c ++ [idx]) (ac_freed c) crashed)
          | WakeCaller => Some (put (<[i := pc']> (apply_awake <$> ac_threads c)) da (ac_runs c) (ac_freed c) crashed)
          | FreeObject => Some (put (<[i := pc']> (ac_threads c)) da (ac_runs c) (ac_freed c + 1) crashed)
          end
      end
  end.

(** [_dispatch_apply_f] has pushed a continuation for each thread but the caller. *)
Definition apply_init (da : dispatch_apply_s) : apply_config :=
  {| ac_da := set_da_event da _dispatch_thread_event_init; ac_threads := replicate (Z.to_nat (da_thr_cnt da)) AStart;
     ac_runs := []; ac_freed := 0; ac_crashed := false |}.

Inductive apply_reach (da : dispatch_apply_s) : apply_config -> Prop :=
| apr_init : apply_reach da (apply_init da)
| apr_step c i a c' : apply_reach da c -> apply_step c i a = Some c' -> apply_reach da c'.

(** ** The plan *)

(** The object at the call. *)
Definition fresh_da (da : dispatch_apply_s) : Prop :=
  0 < da_iterations da /\ da_index da = 0 /\ da_todo da = da_iterations da /\ 1 <= da_thr_cnt da <= da_iterations da.

(** For every iteration count, nesting and parallelism the thread count is at least one
    and at most the iterations and the parallelism available to this level of nesting; the
    nesting product neither overflows nor becomes zero; work is only spread over threads
    when there are two or more; and zero iterations do nothing. *)
Theorem apply_plan_correct iterations parallelism nested dq_width has_targetq is_current :
  0 <= iterations < 2 ^ 64 -> 1 <= parallelism < 2 ^ 31 -> 0 <= nested < 2 ^ 64 ->
  match dispatch_apply_f iterations parallelism nested dq_width has_targetq is_current with
  | ApplyNothing => iterations = 0
  | ApplySerial da => da_iterations da = iterations /\ fresh_da da
  | ApplyRedirect da | ApplyParallel da =>
      da_iterations da = iterations /\ fresh_da da /\ dq_width <> 1 /\
      2 <= da_thr_cnt da <= parallelism /\ (0 < nested -> da_thr_cnt da * nested <= parallelism) /\
      1 <= da_nested da <= Z.max iterations (DISPATCH_APPLY_MAX * DISPATCH_APPLY_MAX)
  end.
Proof.
  intros Hi Hp Hns. unfold dispatch_apply_f. destruct (iterations =? 0) eqn:E0; [lia|].
  assert (i32 parallelism = parallelism) as -> by (apply swrap_small; lia).
  assert (u64 parallelism = parallelism) as Hup by (apply wrap_small; lia).
  set (tn := if nested =? 0 then _ else _).
  assert (exists thr nst, tn = (thr, nst) /\ 1 <= thr <= parallelism /\ (2 <= thr -> 0 < nested -> thr * nested <= parallelism) /\
    1 <= nst <= Z.max iterations (DISPATCH_APPLY_MAX * DISPATCH_APPLY_MAX)) as (thr & nst & -> & Ht & Htn & Hnst).
  { unfold tn. rewrite Hup. destruct (nested =? 0) eqn:En; [exists parallelism, iterations; split_and!; try done; lia|].
    assert (1 <= (if (nested <? DISPATCH_APPLY_MAX) && (iterations <? DISPATCH_APPLY_MAX) then u64 (nested * iterations)
      else DISPATCH_APPLY_MAX) <= Z.max iterations (DISPATCH_APPLY_MAX * DISPATCH_APPLY_MAX)) as Hb.
    { unfold DISPATCH_APPLY_MAX. change (2 ^ 16 - 1) with 65535. destruct (nested <? 65535) eqn:E1, (iterations <? 65535) eqn:E2; simpl; try lia.
      rewrite wrap_small by nia. nia. }
    destruct (nested <? parallelism) eqn:El.
    - assert (i32 nested = nested) as -> by (apply swrap_small; lia).
      rewrite Z.quot_div_nonneg by lia. pose proof (Z.div_le_upper_bound parallelism nested parallelism ltac:(lia) ltac:(nia)).
      pose proof (Z.div_str_pos parallelism nested ltac:(lia)). rewrite swrap_small by lia.
      do 2 eexists. split_and!; [done|lia|lia| |lia..]. intros _ _. pose proof (Z.mul_div_le parallelism nested ltac:(lia)). lia.
    - do 2 eexists. split_and!; [done|lia..]. }
  assert (u64 thr = thr) as -> by (apply wrap_small; lia). cbv beta iota zeta.
  set (thr' := if iterations <? thr then i32 iterations else thr).
  assert (1 <= thr' <= iterations /\ thr' <= thr) as [Ht1 Ht2].
  { unfold thr'. destruct (iterations <? thr) eqn:El; [rewrite swrap_small by lia|]; lia. }
  clearbody thr'. destruct ((dq_width =? 1) || (thr' <=? 1)) eqn:Es.
  - split; [done|]. unfold fresh_da. simpl. lia.
  - apply orb_false_iff in Es as [Es1 Es2]. destruct has_targetq, is_current; simpl; unfold fresh_da; simpl;
      split_and?; try done; try lia; intros; nia.
Qed.

(** The serial loop runs the indices in order. *)
Lemma apply_serial_loop_seq m : forall idx, 0 <= idx -> idx + Z.of_nat m <= 2 ^ 64 - 1 -> (0 < m)%nat ->
  apply_serial_loop m idx (idx + Z.of_nat m) = (fun k => idx + Z.of_nat k) <$> seq 0 m.
Proof.
  induction m as [|m IH]; intros idx H0 Hb Hm; [lia|]. simpl apply_serial_loop. rewrite wrap_small by lia.
  cbn [seq fmap list_fmap]. f_equal; [lia|]. destruct (decide (m = 0%nat)) as [->|Hne].
  - simpl. by rewrite Z.ltb_irrefl.
  - rewrite (proj2 (Z.ltb_lt _ _)) by lia. replace (idx + Z.of_nat (S m)) with (idx + 1 + Z.of_nat m) by lia.
    rewrite IH by lia. rewrite <- fmap_S_seq, <- list_fmap_compose. apply list_fmap_ext. intros k x _. simpl. lia.
Qed.

(** The serial fallback calls the function with 0, 1, ..., iterations - 1, in order,
    and ends. *)
Theorem apply_serial_in_order da : 0 < da_iterations da < 2 ^ 64 ->
  _dispatch_apply_serial da = Z.of_nat <$> seq 0 (Z.to_nat (da_iterations da)).
Proof.
  intros H. unfold _dispatch_apply_serial.
  rewrite <- (apply_serial_loop_seq _ 0) at 1; [|lia..]. f_equal. lia.
Qed.

(** ** Queues with a target

    [_dispatch_apply_redirect] reserves width for the helpers on every queue of the
    target chain, from the queue passed in down to the one above the root; a queue is its
    [dq_width] and [dq_state].  What a queue cannot give is handed back to the queues
    before it. *)

(** The new state and the width reserved. *)
Definition _dispatch_queue_try_reserve_apply_width (dq_width dq_state da_width : Z) : Z * Z :=
  if dq_width =? 1 then (dq_state, 0)
  else
    let width := i32 (_dq_state_available_width dq_state) in
    if width =? 0 then (dq_state, 0)
    else
      let width := if da_width <? width then da_width else width in
      (u64 (dq_state + u64 (u64 width * DISPATCH_QUEUE_WIDTH_INTERVAL)), width).

(** On the states from [top_dq] to the queue before [stop_dq]. *)
Definition _dispatch_queue_relinquish_width (states : list Z) (da_width : Z) : list Z :=
  let delta := u64 (u64 da_width * DISPATCH_QUEUE_WIDTH_INTERVAL) in
  (fun dq_state => u64 (dq_state - delta)) <$> states.

Inductive redirect_result :=
| RedirectSerial (states : list Z)
| RedirectParallel (states : list Z) (da_width da_thr_cnt : Z).

(** The do-while loop; [passed] are the states of the queues it is done with. *)
Fixpoint apply_redirect_loop (passed : list Z) (chain : list (Z * Z)) (da_width da_thr_cnt : Z) : redirect_result :=
  match chain with
  | [] => RedirectParallel passed da_width da_thr_cnt
  | (dq_width, dq_state) :: chain =>
      let '(dq_state, width) := _dispatch_queue_try_reserve_apply_width dq_width dq_state da_width in
      if width <? da_width then
        let excess := da_width - width in
        let passed := _dispatch_queue_relinquish_width passed excess in
        if width =? 0 then RedirectSerial (passed ++ dq_state :: (snd <$> chain))
        else apply_redirect_loop (passed ++ [dq_state]) chain width (i32 (da_thr_cnt - excess))
      else apply_redirect_loop (passed ++ [dq_state]) chain da_width da_thr_cnt
  end.

(** Up to the call of [_dispatch_apply_f]. *)
Definition _dispatch_apply_redirect (da_thr_cnt : Z) (chain : list (Z * Z)) : redirect_result :=
  apply_redirect_loop [] chain (da_thr_cnt - 1) da_thr_cnt.

Lemma available_width_range s : 0 <= _dq_state_available_width s <= DISPATCH_QUEUE_WIDTH_FULL.
Proof.
  unfold _dq_state_available_width, _dq_state_extract_width_bits. destruct (nz _) eqn:E; [by vm_compute|].
  change DISPATCH_QUEUE_WIDTH_MASK with (Z.shiftl (Z.ones 13) 41). change DISPATCH_QUEUE_WIDTH_SHIFT with 41.
  rewrite land_field, Z.shiftr_div_pow2, Z.div_mul by lia.
  change DISPATCH_QUEUE_WIDTH_FULL_BIT with (2 ^ 53) in E. rewrite land_pow2, testbit_div in E by lia.
  assert ((s / 2 ^ 53) mod 2 = 0) as Hb.
  { case_bool_decide; [done|]. pose proof (Z.mod_pos_bound (s / 2 ^ 53) 2). lia. }
  assert ((s / 2 ^ 41) mod 2 ^ 13 < 2 ^ 12 /\ 0 <= (s / 2 ^ 41) mod 2 ^ 13) as Hr.
  { split; [|apply Z.mod_pos_bound; lia]. replace (2 ^ 53) with (2 ^ 41 * 2 ^ 12) in Hb by done.
    rewrite <- Z.div_div in Hb by lia. set (y := s / 2 ^ 41) in *. clearbody y. clear -Hb.
    change (2 ^ 13) with 8192. change (2 ^ 12) with 4096 in *. Z.div_mod_to_equations. lia. }
  rewrite swrap_small by lia. unfold DISPATCH_QUEUE_WIDTH_FULL. lia.
Qed.

(** What one queue has while [w] is reserved on it. *)
Definition reserved (w : Z) (q : Z * Z) : Z := u64 (q.2 + w * DISPATCH_QUEUE_WIDTH_INTERVAL).

Lemma reserve_spec dq_width s da_width : 0 <= s < 2 ^ 64 -> 0 < da_width < 2 ^ 31 ->
  exists w, _dispatch_queue_try_reserve_apply_width dq_width s da_width = (reserved w (dq_width, s), w) /\
    0 <= w <= da_width /\ w <= _dq_state_available_width s /\ (0 < w -> dq_width <> 1).
Proof.
  intros Hs Hd. unfold _dispatch_queue_try_reserve_apply_width, reserved. simpl.
  pose proof (available_width_range s) as Ha. unfold DISPATCH_QUEUE_WIDTH_FULL in Ha.
  assert (forall w, 0 <= w < 2 ^ 31 -> u64 (s + u64 (u64 w * DISPATCH_QUEUE_WIDTH_INTERVAL)) = u64 (s + w * DISPATCH_QUEUE_WIDTH_INTERVAL)) as Hu.
  { intros w Hw. unfold wrap. rewrite (Z.mod_small w) by lia. by rewrite Zplus_mod_idemp_r. }
  destruct (dq_width =? 1) eqn:Ew.
  - exists 0. rewrite Z.mul_0_l, Z.add_0_r, wrap_small by lia. split_and!; [done|lia..].
  - rewrite swrap_small by lia. destruct (_dq_state_available_width s =? 0) eqn:E0.
    + exists 0. rewrite Z.mul_0_l, Z.add_0_r, wrap_small by lia. split_and!; [done|lia..].
    + destruct (da_width <? _dq_state_available_width s) eqn:El; eexists; (split; [by rewrite Hu by lia|]); lia.
Qed.

Lemma relinquish_reserved (passed : list (Z * Z)) w excess : 0 <= excess < 2 ^ 31 ->
  _dispatch_queue_relinquish_width (reserved w <$> passed) excess = reserved (w - excess) <$> passed.
Proof.
  intros He. unfold _dispatch_queue_relinquish_width. rewrite <- list_fmap_compose. apply list_fmap_ext. intros k q _.
  unfold reserved, compose, wrap. simpl. rewrite (Z.mod_small excess) by lia.
  rewrite Zminus_mod_idemp_l, Zminus_mod_idemp_r. f_equal. lia.
Qed.

(** [passed] holds what is reserved on the queues [done]. *)
Lemma redirect_loop_spec chain : forall done w thr, 0 < w < 2 ^ 31 -> thr = w + 1 -> thr < 2 ^ 31 ->
  Forall (fun q => 0 <= q.2 < 2 ^ 64) (done ++ chain) ->
  match apply_redirect_loop (reserved w <$> done) chain w thr with
  | RedirectSerial states => states = snd <$> (done ++ chain)
  | RedirectParallel states w' thr' =>
      states = reserved w' <$> (done ++ chain) /\ 0 < w' <= w /\ thr' = w' + 1 /\
      Forall (fun q => q.1 <> 1 /\ w' <= _dq_state_available_width q.2) chain
  end.
Proof.
  induction chain as [|[dq_width s] chain IH]; intros done w thr Hw Ht Htr Hf; simpl apply_redirect_loop.
  - rewrite app_nil_r in *. split_and!; [done|lia|lia|done|by constructor].
  - assert (0 <= s < 2 ^ 64) as Hs by (rewrite Forall_app, Forall_cons in Hf; by destruct Hf as (_ & ? & _)).
    destruct (reserve_spec dq_width s w Hs ltac:(lia)) as (w1 & -> & Hw1 & Ha & Hd).
    assert (forall w2 thr2, 0 < w2 <= w1 -> w2 <= w -> thr2 = w2 + 1 ->
      match apply_redirect_loop ((reserved w2 <$> done) ++ [reserved w2 (dq_width, s)]) chain w2 thr2 with
      | RedirectSerial states => states = snd <$> (done ++ (dq_width, s) :: chain)
      | RedirectParallel states w' thr' =>
          states = reserved w' <$> (done ++ (dq_width, s) :: chain) /\ 0 < w' <= w /\ thr' = w' + 1 /\
          Forall (fun q => q.1 <> 1 /\ w' <= _dq_state_available_width q.2) ((dq_width, s) :: chain)
      end) as Hgo.
    { intros w2 thr2 Hw2 Hle ->. change [reserved w2 (dq_width, s)] with (reserved w2 <$> [(dq_width, s)]).
      rewrite <- fmap_app. specialize (IH (done ++ [(dq_width, s)]) w2 (w2 + 1) ltac:(lia) eq_refl ltac:(lia)).
      rewrite <- app_assoc in IH. simpl in IH. specialize (IH Hf). destruct (apply_redirect_loop _ _ _ _); [done|].
      destruct IH as (-> & ? & -> & IHf). split_and!; [done|lia|lia|done|].
      constructor; [simpl; split; [apply Hd; lia|lia]|done]. }
    destruct (w1 <? w) eqn:El.
    + rewrite relinquish_reserved by lia. replace (w - (w - w1)) with w1 by lia. destruct (w1 =? 0) eqn:E0.
      * assert (w1 = 0) as -> by lia. clear -Hf. rewrite fmap_app, fmap_cons.
        assert (forall q : Z * Z, 0 <= q.2 < 2 ^ 64 -> reserved 0 q = q.2) as Hr
          by (intros q Hq; unfold reserved; rewrite Z.mul_0_l, Z.add_0_r; by apply wrap_small).
        rewrite Forall_app, Forall_cons in Hf. destruct Hf as (H1 & H2 & _). f_equal; [|by rewrite Hr].
        apply list_fmap_ext. intros k q Hq. rewrite Forall_lookup in H1. by apply Hr, (H1 k).
      * rewrite swrap_small by lia. apply Hgo; lia.
    + assert (w1 = w) as -> by lia. apply Hgo; lia.
Qed.

(** The width that a redirected [dispatch_apply] takes from the queues of the target
    chain is one per helper thread, at least one, never more than any queue of the chain
    has available, and it is given back exactly: the serial fallback leaves every state
    word as it was, and after the parallel run every word is what it would be had nothing
    been reserved, whatever other threads added to the words meanwhile. *)
Theorem apply_redirect_balanced thr_cnt chain : 2 <= thr_cnt < 2 ^ 31 ->
  Forall (fun q => 0 <= q.2 < 2 ^ 64) chain ->
  match _dispatch_apply_redirect thr_cnt chain with
  | RedirectSerial states => states = snd <$> chain
  | RedirectParallel states da_width da_thr_cnt =>
      1 <= da_width < thr_cnt /\ da_thr_cnt = da_width + 1 /\
      Forall (fun q => q.1 <> 1 /\ da_width <= _dq_state_available_width q.2) chain /\
      forall deltas, _dispatch_queue_relinquish_width (zip_with (fun s d => u64 (s + d)) states deltas) da_width =
        zip_with (fun q d => u64 (q.2 + d)) chain deltas
  end.
Proof.
  intros Ht Hf. unfold _dispatch_apply_redirect.
  pose proof (redirect_loop_spec chain [] (thr_cnt - 1) thr_cnt ltac:(lia) ltac:(lia) ltac:(lia) Hf) as H.
  simpl in H. destruct (apply_redirect_loop [] chain (thr_cnt - 1) thr_cnt) as [states|states w thr']; [done|].
  destruct H as (-> & Hw & -> & Ha). split_and!; [lia|lia|done|done|]. intros deltas. clear Ha Hf.
  revert deltas. induction chain as [|q chain IH]; intros [|d deltas]; [done..|]. simpl. f_equal; [|apply IH].
  unfold reserved, wrap. rewrite (Z.mod_small w) by lia.
  rewrite Zplus_mod_idemp_l, Zminus_mod_idemp_l, Zminus_mod_idemp_r. f_equal. lia.
Qed.

(** *** Instances *)

Lemma apply_plan_correct_witness :
  dispatch_apply_f 3 2 0 4095 false false =
    ApplyParallel {| da_index := 0; da_todo := 3; da_iterations := 3; da_nested := 3; da_event := 0; da_thr_cnt := 2 |} /\
  2 <= 2 <= 2.
Proof.
  pose proof (apply_plan_correct 3 2 0 4095 false false ltac:(lia) ltac:(lia) ltac:(lia)) as H.
  split; [vm_compute; reflexivity|]. vm_compute dispatch_apply_f in H. destruct H as (_ & _ & _ & H & _). exact H.
Defined.

Lemma apply_serial_in_order_witness :
  _dispatch_apply_serial {| da_index := 0; da_todo := 3; da_iterations := 3; da_nested := 3; da_event := 0; da_thr_cnt := 1 |}
    = [0; 1; 2].
Proof. rewrite apply_serial_in_order; [reflexivity|simpl; lia]. Defined.

(** Two queues of widths 5 and 3 that are free: the second one gives less. *)
Definition apply_chain : list (Z * Z) :=
  [(5, (DISPATCH_QUEUE_WIDTH_FULL - 5) * DISPATCH_QUEUE_WIDTH_INTERVAL);
   (3, (DISPATCH_QUEUE_WIDTH_FULL - 3) * DISPATCH_QUEUE_WIDTH_INTERVAL)].

Lemma apply_redirect_balanced_witness :
  exists states, _dispatch_apply_redirect 6 apply_chain = RedirectParallel states 3 4 /\
    _dispatch_queue_relinquish_width (zip_with (fun s d => u64 (s + d)) states [7; 9]) 3 =
      zip_with (fun q d => u64 (q.2 + d)) apply_chain [7; 9].
Proof.
  pose proof (apply_redirect_balanced 6 apply_chain ltac:(lia)) as H.
  assert (Forall (fun q => 0 <= q.2 < 2 ^ 64) apply_chain) as Hf by (repeat constructor; vm_compute; try discriminate; reflexivity).
  specialize (H Hf). destruct (_dispatch_apply_redirect 6 apply_chain) as [states|states w thr] eqn:E;
    vm_compute in E; [discriminate E|]. injection E as <- <- <-. destruct H as (_ & _ & _ & H).
  eexists. split; [reflexivity|]. apply (H [7; 9]).
Defined.
