(* ===== verification/ApplyRun.v ===== *)
(** * dispatch_apply: the threads

    The invariant of the shared object over every interleaving of the caller and the
    helpers, and what follows: each index once, no use after free, no deadlock. *)

From S2P Require Import Prelude Threads ThreadEvent Apply.

(** ** The invariant *)

(** The thread has claimed an index past the end. *)
Definition past_end (pc : apply_pc) : Z := match pc with AStart | ACall _ _ | ANext _ => 0 | _ => 1 end.
(** The thread is about to call the function, with any index or with [x]. *)
Definition calling (pc : apply_pc) : Z := match pc with ACall _ _ => 1 | _ => 0 end.
Definition calling_at (x : Z) (pc : apply_pc) : Z := match pc with ACall y _ => if y =? x then 1 else 0 | _ => 0 end.
(** Calls the thread has made and not yet subtracted. *)
Definition unreported (pc : apply_pc) : Z := match pc with ACall _ d | ANext d | ASub d => d | _ => 0 end.
Definition signalling (pc : apply_pc) : Z := match pc with ASignal => 1 | _ => 0 end.
Definition waking (pc : apply_pc) : Z := match pc with AWake => 1 | _ => 0 end.
(** The thread has yet to decrement the thread count. *)
Definition counted (pc : apply_pc) : Z := match pc with AFree | AReturned => 0 | _ => 1 end.
Definition freeing (pc : apply_pc) : Z := match pc with AFree => 1 | _ => 0 end.

(** Local values a program counter can carry, by kind of thread. *)
Definition apc_ok (N : Z) (wait : bool) (pc : apply_pc) : Prop :=
  match pc with
  | ACall idx d => 0 <= idx < N /\ 0 <= d
  | ANext d | ASub d => 1 <= d
  | AWait | AEvLoop | AEvFutex | AEvAsleep | ADestroy => wait = true
  | _ => True
  end.

(** The caller has decremented the event, has got its signal. *)
Definition waited (pc : apply_pc) : bool :=
  match pc with AEvLoop | AEvFutex | AEvAsleep | ADestroy | ADec | AFree | AReturned => true | _ => false end.
Definition resumed (pc : apply_pc) : bool :=
  match pc with ADestroy | ADec | AFree | AReturned => true | _ => false end.

Definition occurs (x : Z) (l : list Z) : Z := tally (fun y => if y =? x then 1 else 0) l.

Record apply_inv (N : Z) (n : nat) (p0 : apply_pc) (sig : bool) (c : apply_config) : Prop := {
  ai_iter : da_iterations (ac_da c) = N;
  ai_len : length (ac_threads c) = n;
  ai_caller : ac_threads c !! 0%nat = Some p0;
  ai_pc : forall i pc, ac_threads c !! i = Some pc -> apc_ok N (bool_decide (i = 0%nat)) pc;
  ai_index : 0 <= da_index (ac_da c) /\
    tally past_end (ac_threads c) = Z.max 0 (da_index (ac_da c) - N);
  ai_claims : forall x, occurs x (ac_runs c) + tally (calling_at x) (ac_threads c) =
    if (0 <=? x) && (x <? Z.min N (da_index (ac_da c))) then 1 else 0;
  ai_calls : Z.of_nat (length (ac_runs c)) + tally calling (ac_threads c) = Z.min N (da_index (ac_da c));
  ai_todo : da_todo (ac_da c) = N - Z.of_nat (length (ac_runs c)) + tally unreported (ac_threads c) /\
    tally unreported (ac_threads c) <= Z.of_nat (length (ac_runs c));
  ai_signal : tally signalling (ac_threads c) + (if sig then 1 else 0) = (if da_todo (ac_da c) =? 0 then 1 else 0);
  ai_event : da_event (ac_da c) = u32 ((if sig then 1 else 0) - (if waited p0 then 1 else 0));
  ai_resumed : resumed p0 = true -> sig = true;
  ai_wake : p0 = AEvAsleep -> sig = true -> 0 < tally waking (ac_threads c);
  ai_thr : da_thr_cnt (ac_da c) = tally counted (ac_threads c);
  ai_freed : ac_freed c + tally freeing (ac_threads c) = (if da_thr_cnt (ac_da c) =? 0 then 1 else 0);
  ai_freed0 : 0 <= ac_freed c;
  ai_ok : ac_crashed c = false;
}.

Lemma unreported_ok N b pc : apc_ok N b pc -> 0 <= unreported pc.
Proof. destruct pc; simpl; lia. Qed.

Section step.
Context (N : Z) (n : nat) (HN : 0 < N) (Hn : Z.of_nat n < 2 ^ 31) (HNn : N + Z.of_nat n < 2 ^ 64 - 1).
Context (c : apply_config) (p0 : apply_pc) (sig : bool) (H : apply_inv N n p0 sig c).
Context (i : nat) (pc : apply_pc) (Hi : ac_threads c !! i = Some pc).

(** Bounds on the tallies, and what thread [i] contributes to them. *)
Lemma apply_facts :
  0 <= tally past_end (ac_threads c) <= Z.of_nat n /\ past_end pc <= tally past_end (ac_threads c) /\
  calling pc <= tally calling (ac_threads c) /\ 0 <= unreported pc <= tally unreported (ac_threads c) /\
  signalling pc <= tally signalling (ac_threads c) /\ 0 <= tally signalling (ac_threads c) /\
  waking pc <= tally waking (ac_threads c) /\
  counted pc <= tally counted (ac_threads c) <= Z.of_nat n /\ 0 <= tally counted (ac_threads c) /\
  freeing pc <= tally freeing (ac_threads c) /\ 0 <= tally freeing (ac_threads c).
Proof using H Hi.
  pose proof (ai_len _ _ _ _ _ H) as Hl.
  assert (forall (f : apply_pc -> Z), (forall pc, 0 <= f pc <= 1) ->
    f pc <= tally f (ac_threads c) /\ 0 <= tally f (ac_threads c) <= Z.of_nat n) as Hf.
  { intros f Hf. split; [apply (tally_ge f _ i); [intros; apply Hf|done]|].
    split; [apply tally_nonneg; intros; apply Hf|]. rewrite <- Hl. apply tally_le. intros; apply Hf. }
  assert (forall j q, ac_threads c !! j = Some q -> 0 <= unreported q) as Hu
    by (intros j q Hq; eapply unreported_ok, (ai_pc _ _ _ _ _ H j q Hq)).
  pose proof (tally_ge_in unreported _ i pc Hu Hi). pose proof (Hu i pc Hi).
  pose proof (Hf past_end ltac:(intros []; simpl; lia)). pose proof (Hf calling ltac:(intros []; simpl; lia)).
  pose proof (Hf signalling ltac:(intros []; simpl; lia)). pose proof (Hf waking ltac:(intros []; simpl; lia)).
  pose proof (Hf counted ltac:(intros []; simpl; lia)). pose proof (Hf freeing ltac:(intros []; simpl; lia)). lia.
Qed.

Definition new_caller (pc' : apply_pc) : apply_pc := if decide (i = 0%nat) then pc' else p0.

Lemma lookup_caller pc' : <[i := pc']> (ac_threads c) !! 0%nat = Some (new_caller pc').
Proof.
  unfold new_caller. case_decide as E.
  - rewrite E in *. apply list_lookup_insert_eq. by eapply lookup_lt_Some.
  - rewrite list_lookup_insert_ne by done. apply H.
Qed.

Lemma caller_is : i = 0%nat -> p0 = pc.
Proof. intros E. pose proof (ai_caller _ _ _ _ _ H) as H0. rewrite <- E, Hi in H0. by injection H0. Qed.

Lemma insert_apc_ok pc' j q : apc_ok N (bool_decide (i = 0%nat)) pc' -> <[i := pc']> (ac_threads c) !! j = Some q ->
  apc_ok N (bool_decide (j = 0%nat)) q.
Proof.
  intros Hok Hj. destruct (decide (i = j)) as [<-|Hij].
  - rewrite list_lookup_insert_eq in Hj by (by eapply lookup_lt_Some). by injection Hj as <-.
  - rewrite list_lookup_insert_ne in Hj by done. by apply (ai_pc _ _ _ _ _ H).
Qed.

(** Nothing that is still to be accessed has been freed. *)
Lemma not_freed : accesses_da pc = true -> ac_freed c = 0.
Proof.
  intros Ha. pose proof apply_facts as F. pose proof (ai_freed _ _ _ _ _ H). pose proof (ai_thr _ _ _ _ _ H).
  pose proof (ai_freed0 _ _ _ _ _ H). destruct pc; simpl in *; try done; destruct (da_thr_cnt (ac_da c) =? 0) eqn:E; lia.
Qed.

Lemma access_ok b : accesses_da pc && (0 <? ac_freed c) = b -> b = false.
Proof. intros <-. destruct (accesses_da pc) eqn:E; [|done]. by rewrite not_freed. Qed.
End step.

(** Discharge the invariant after thread [i] moved to a new program counter. *)
Ltac apply_move H Hi :=
  constructor; cbn [ac_da ac_threads ac_runs ac_freed ac_crashed];
  [ try done | rewrite length_insert; apply H | eapply lookup_caller; [exact H|exact Hi]
  | intros j q; eapply insert_apc_ok; [exact H|exact Hi|] | .. ];
  rewrite ?(tally_insert _ _ _ _ _ Hi).

Ltac split_bools :=
  repeat match goal with
  | |- context [if ?b then _ else _] => let E := fresh "E" in destruct b eqn:E
  | H : context [if ?b then _ else _] |- _ => let E := fresh "E" in destruct b eqn:E
  end.

Section steps.
Context (N : Z) (n : nat) (HN : 0 < N) (Hn : Z.of_nat n < 2 ^ 31) (HNn : N + Z.of_nat n < 2 ^ 64 - 1).
Context (c : apply_config) (p0 : apply_pc) (sig : bool) (H : apply_inv N n p0 sig c) (i : nat).

Let put da pc' runs freed :=
  {| ac_da := da; ac_threads := <[i := pc']> (ac_threads c); ac_runs := runs; ac_freed := freed; ac_crashed := false |}.

Lemma index_wrap pc : ac_threads c !! i = Some pc -> u64 (da_index (ac_da c) + 1) = da_index (ac_da c) + 1.
Proof using H HN HNn.
  intros Hi. pose proof (apply_facts _ _ _ _ _ H _ _ Hi) as F. pose proof (ai_index _ _ _ _ _ H) as [I1 I2].
  apply wrap_small. lia.
Qed.

(** A claim within the range. *)
Lemma claim_inv pc d : ac_threads c !! i = Some pc -> (pc = AStart /\ d = 0) \/ pc = ANext d ->
  da_index (ac_da c) < N ->
  apply_inv N n (new_caller p0 i (ACall (da_index (ac_da c)) d)) sig
    (put (set_da_index (ac_da c) (u64 (da_index (ac_da c) + 1))) (ACall (da_index (ac_da c)) d) (ac_runs c) (ac_freed c)).
Proof using H HN HNn.
  intros Hi Hpc Hlt. rewrite (index_wrap pc Hi). pose proof (apply_facts _ _ _ _ _ H _ _ Hi) as F.
  pose proof (ai_pc _ _ _ _ _ H i pc Hi) as Hok.
  assert (past_end pc = 0 /\ calling pc = 0 /\ (forall x, calling_at x pc = 0) /\ unreported pc = d /\ 0 <= d /\
    signalling pc = 0 /\ waking pc = 0 /\ counted pc = 1 /\ freeing pc = 0 /\ waited pc = false /\ resumed pc = false /\
    pc <> AEvAsleep) as (W1 & W2 & W3 & W4 & W5 & W6 & W7 & W8 & W9 & W10 & W11 & W12)
    by (destruct Hpc as [[-> ->] | ->]; simpl in *; split_and!; try done; lia).
  pose proof (caller_is _ _ _ _ _ H _ _ Hi) as Hc. pose proof H as [H1 H2 H3 H4 [H5 H5'] H6 H7 [H8 H8'] H9 H10 H11 H12 H13 H14 H15 H16].
  unfold put. apply_move H Hi; simpl in *; rewrite ?W1, ?W2, ?W3, ?W4, ?W6, ?W7, ?W8, ?W9; simpl; try done; try lia.
  - intros x. rewrite (tally_insert _ _ _ _ _ Hi), W3. simpl. specialize (H6 x). split_bools; lia.
  - rewrite H10. unfold new_caller. destruct (decide (i = 0%nat)) as [E|E]; [|done]. rewrite (Hc E), W10. done.
  - unfold new_caller. destruct (decide (i = 0%nat)) as [E|E]; [done|]. apply H11.
  - unfold new_caller. destruct (decide (i = 0%nat)) as [E|E]; [done|]. intros; specialize (H12 ltac:(done) ltac:(done)). lia.
Qed.

(** A claim past the end. *)
Lemma exhaust_inv pc pc' : ac_threads c !! i = Some pc -> N <= da_index (ac_da c) ->
  (pc = AStart /\ pc' = if bool_decide (i = 0%nat) then AWait else ADec) \/ (exists d, pc = ANext d /\ pc' = ASub d) ->
  apply_inv N n (new_caller p0 i pc') sig
    (put (set_da_index (ac_da c) (u64 (da_index (ac_da c) + 1))) pc' (ac_runs c) (ac_freed c)).
Proof using H HN HNn.
  intros Hi Hge Hpc. rewrite (index_wrap pc Hi). pose proof (apply_facts _ _ _ _ _ H _ _ Hi) as F.
  pose proof (ai_pc _ _ _ _ _ H i pc Hi) as Hok. pose proof (caller_is _ _ _ _ _ H _ _ Hi) as Hc.
  assert (past_end pc = 0 /\ past_end pc' = 1 /\ calling pc = 0 /\ calling pc' = 0 /\ (forall x, calling_at x pc = 0) /\
    (forall x, calling_at x pc' = 0) /\ unreported pc' = unreported pc /\ signalling pc = 0 /\ signalling pc' = 0 /\
    waking pc = 0 /\ waking pc' = 0 /\ counted pc = 1 /\ counted pc' = 1 /\ freeing pc = 0 /\ freeing pc' = 0 /\
    waited pc = false /\ pc' <> AEvAsleep /\ apc_ok N (bool_decide (i = 0%nat)) pc')
    as (W1 & W1' & W2 & W2' & W3 & W3' & W4 & W6 & W6' & W7 & W7' & W8 & W8' & W9 & W9' & W10 & W12 & Hok').
  { destruct Hpc as [[-> ->]|(d & -> & ->)]; [case_bool_decide|]; simpl in *; split_and!; done. }
  assert (i = 0%nat -> waited pc' = false /\ resumed pc' = false) as Hw'.
  { intros ->. by destruct Hpc as [[-> ->]|(d & -> & ->)]. }
  pose proof H as [H1 H2 H3 H4 [H5 H5'] H6 H7 [H8 H8'] H9 H10 H11 H12 H13 H14 H15 H16].
  unfold put. apply_move H Hi; simpl in *; rewrite ?W1, ?W1', ?W2, ?W2', ?W4, ?W6, ?W6', ?W7, ?W7', ?W8, ?W8', ?W9, ?W9';
    simpl; try done; try lia.
  - intros x. rewrite (tally_insert _ _ _ _ _ Hi), W3, W3'. specialize (H6 x). split_bools; lia.
  - rewrite H10. unfold new_caller. destruct (decide (i = 0%nat)) as [E|E]; [|done]. destruct (Hw' E) as [-> _]. by rewrite (Hc E), W10.
  - unfold new_caller. destruct (decide (i = 0%nat)) as [E|E]; [|apply H11]. destruct (Hw' E) as [_ ->]. done.
  - unfold new_caller. destruct (decide (i = 0%nat)) as [E|E]; [done|]. intros; specialize (H12 ltac:(done) ltac:(done)). lia.
Qed.

(** The call of the function. *)
Lemma call_inv idx d : ac_threads c !! i = Some (ACall idx d) ->
  apply_inv N n (new_caller p0 i (ANext (u64 (d + 1)))) sig
    (put (ac_da c) (ANext (u64 (d + 1))) (ac_runs c ++ [idx]) (ac_freed c)).
Proof using H HN HNn.
  intros Hi. pose proof (apply_facts _ _ _ _ _ H _ _ Hi) as F.
  pose proof (ai_pc _ _ _ _ _ H i _ Hi) as Hok. pose proof (caller_is _ _ _ _ _ H _ _ Hi) as Hc.
  pose proof H as [H1 H2 H3 H4 [H5 H5'] H6 H7 [H8 H8'] H9 H10 H11 H12 H13 H14 H15 H16]. simpl in F, Hok.
  assert (u64 (d + 1) = d + 1) as -> by (apply wrap_small; lia).
  unfold put. apply_move H Hi; simpl in *; rewrite ?length_app; simpl; try done; try lia.
  - intros x. rewrite (tally_insert _ _ _ _ _ Hi). simpl. specialize (H6 x). unfold occurs in *.
    rewrite tally_app. simpl. split_bools; lia.
  - rewrite H10. unfold new_caller. destruct (decide (i = 0%nat)) as [E|E]; [|done]. by rewrite (Hc E).
  - unfold new_caller. destruct (decide (i = 0%nat)) as [E|E]; [done|apply H11].
  - unfold new_caller. destruct (decide (i = 0%nat)) as [E|E]; [done|]. intros; specialize (H12 ltac:(done) ltac:(done)). lia.
Qed.

(** The subtraction; the thread that reaches zero signals. *)
Lemma sub_inv d : ac_threads c !! i = Some (ASub d) ->
  let da := set_da_todo (ac_da c) (u64 (da_todo (ac_da c) - d)) in
  let pc' := if da_todo da =? 0 then ASignal else if bool_decide (i = 0%nat) then AWait else ADec in
  apply_inv N n (new_caller p0 i pc') sig (put da pc' (ac_runs c) (ac_freed c)).
Proof using H HN HNn.
  intros Hi da pc'. pose proof (apply_facts _ _ _ _ _ H _ _ Hi) as F.
  pose proof (ai_pc _ _ _ _ _ H i _ Hi) as Hok. pose proof (caller_is _ _ _ _ _ H _ _ Hi) as Hc.
  pose proof H as [H1 H2 H3 H4 [H5 H5'] H6 H7 [H8 H8'] H9 H10 H11 H12 H13 H14 H15 H16]. simpl in F, Hok.
  assert (Z.of_nat (length (ac_runs c)) <= N) as Hle
    by (assert (0 <= tally calling (ac_threads c)) by (apply tally_nonneg; intros []; simpl; lia); lia).
  assert (da_todo da = da_todo (ac_da c) - d) as Hda by (unfold da; simpl; apply wrap_small; lia).
  assert (past_end pc' = 1 /\ calling pc' = 0 /\ (forall x, calling_at x pc' = 0) /\ unreported pc' = 0 /\
    signalling pc' = (if da_todo da =? 0 then 1 else 0) /\ waking pc' = 0 /\ counted pc' = 1 /\ freeing pc' = 0 /\
    pc' <> AEvAsleep /\ apc_ok N (bool_decide (i = 0%nat)) pc' /\ (i = 0%nat -> waited pc' = false /\ resumed pc' = false))
    as (W1 & W2 & W3 & W4 & W6 & W7 & W8 & W9 & W12 & Hok' & Hw').
  { unfold pc'. destruct (da_todo da =? 0); [|case_bool_decide]; simpl; split_and!; done. }
  assert (da_iterations da = N /\ da_index da = da_index (ac_da c) /\ da_event da = da_event (ac_da c) /\
    da_thr_cnt da = da_thr_cnt (ac_da c)) as (D1 & D2 & D3 & D4) by done.
  clearbody pc' da. unfold put. apply_move H Hi; rewrite ?W1, ?W2, ?W4, ?W6, ?W7, ?W8, ?W9, ?D2, ?D3, ?D4; simpl; try done; try lia.
  - intros x. rewrite (tally_insert _ _ _ _ _ Hi), W3. specialize (H6 x). simpl. lia.
  - rewrite Hda. rewrite Hda in W6. split_bools; lia.
  - rewrite H10. unfold new_caller. destruct (decide (i = 0%nat)) as [E|E]; [|done].
    destruct (Hw' E) as [-> _]. by rewrite (Hc E).
  - unfold new_caller. destruct (decide (i = 0%nat)) as [E|E]; [|apply H11]. destruct (Hw' E) as [_ ->]. done.
  - unfold new_caller. destruct (decide (i = 0%nat)) as [E|E]; [done|]. intros; specialize (H12 ltac:(done) ltac:(done)). lia.
Qed.

(** The signal: the slow path runs exactly when the caller has begun to wait. *)
Lemma signal_inv : ac_threads c !! i = Some ASignal ->
  let '(v, slow) := _dispatch_thread_event_signal (da_event (ac_da c)) in
  let pc' := if slow : bool then AWake else if bool_decide (i = 0%nat) then AWait else ADec in
  apply_inv N n (new_caller p0 i pc') true (put (set_da_event (ac_da c) v) pc' (ac_runs c) (ac_freed c)).
Proof using H HN HNn.
  intros Hi. pose proof (apply_facts _ _ _ _ _ H _ _ Hi) as F. pose proof (caller_is _ _ _ _ _ H _ _ Hi) as Hc.
  pose proof H as [H1 H2 H3 H4 [H5 H5'] H6 H7 [H8 H8'] H9 H10 H11 H12 H13 H14 H15 H16]. simpl in F.
  assert (sig = false) as Hsig by (destruct sig; [split_bools; lia|done]). rewrite Hsig in *.
  unfold _dispatch_thread_event_signal. set (slow := negb (da_event (ac_da c) =? 0)). cbv zeta.
  set (pc' := if slow then AWake else _).
  assert (slow = waited p0) as Hslow by (unfold slow; rewrite H10; by destruct (waited p0)).
  assert (u32 (da_event (ac_da c) + 1) = u32 (1 - (if waited p0 then 1 else 0))) as Hv by (rewrite H10; by destruct (waited p0)).
  assert (past_end pc' = 1 /\ calling pc' = 0 /\ (forall x, calling_at x pc' = 0) /\ unreported pc' = 0 /\
    signalling pc' = 0 /\ waking pc' = (if slow then 1 else 0) /\ counted pc' = 1 /\ freeing pc' = 0 /\
    pc' <> AEvAsleep /\ apc_ok N (bool_decide (i = 0%nat)) pc' /\ (i = 0%nat -> waited pc' = false))
    as (W1 & W2 & W3 & W4 & W6 & W7 & W8 & W9 & W12 & Hok' & Hw').
  { unfold pc'. destruct slow; [|case_bool_decide]; simpl; split_and!; done. }
  clearbody pc' slow. rewrite Hv. unfold put.
  apply_move H Hi; rewrite ?W1, ?W2, ?W4, ?W6, ?W7, ?W8, ?W9; simpl; try done; try lia.
  - intros x. rewrite (tally_insert _ _ _ _ _ Hi), W3. specialize (H6 x). simpl. lia.
  - unfold new_caller. destruct (decide (i = 0%nat)) as [E|E]; [|done]. by rewrite (Hw' E), (Hc E).
  - unfold new_caller. destruct (decide (i = 0%nat)) as [E|E]; [done|]. intros ->. rewrite Hslow. simpl.
    assert (0 <= tally waking (ac_threads c)) by (apply tally_nonneg; intros []; simpl; lia). lia.
Qed.

(** Between the claims and the thread count only the caller moves, and only the event
    changes. *)
Definition settled (pc : apply_pc) : bool :=
  match pc with AWait | AEvLoop | AEvFutex | AEvAsleep | ADestroy | ADec => true | _ => false end.

Lemma settled_inv pc pc' v : ac_threads c !! i = Some pc -> settled pc = true -> settled pc' = true -> i = 0%nat ->
  v = u32 ((if sig then 1 else 0) - (if waited pc' then 1 else 0)) -> (resumed pc' = true -> sig = true) ->
  (pc' = AEvAsleep -> sig = false) ->
  apply_inv N n pc' sig (put (set_da_event (ac_da c) v) pc' (ac_runs c) (ac_freed c)).
Proof using H.
  intros Hi Hs Hs' Hi0 Hv Hr Ha. pose proof (lookup_caller N n c p0 sig H i pc Hi pc') as Hcaller.
  unfold new_caller in Hcaller. rewrite decide_True in Hcaller by done.
  pose proof H as [H1 H2 H3 H4 [H5 H5'] H6 H7 [H8 H8'] H9 H10 H11 H12 H13 H14 H15 H16].
  assert (past_end pc' = past_end pc /\ calling pc' = calling pc /\ (forall x, calling_at x pc' = calling_at x pc) /\
    unreported pc' = unreported pc /\ signalling pc' = signalling pc /\ waking pc' = waking pc /\
    counted pc' = counted pc /\ freeing pc' = freeing pc /\ apc_ok N true pc')
    as (W1 & W2 & W3 & W4 & W5 & W6 & W7 & W8 & Hok') by (destruct pc, pc'; done).
  unfold put. constructor; cbn [ac_da ac_threads ac_runs ac_freed ac_crashed]; rewrite ?(tally_insert _ _ _ _ _ Hi),
    ?W1, ?W2, ?W4, ?W5, ?W6, ?W7, ?W8; simpl; try done; try lia.
  - by rewrite length_insert.
  - intros j q. eapply insert_apc_ok; [exact H|exact Hi|]. by rewrite Hi0.
  - intros x. rewrite (tally_insert _ _ _ _ _ Hi), W3. specialize (H6 x). lia.
  - intros ->. rewrite Ha by done. done.
Qed.

Lemma wake_inv : ac_threads c !! i = Some AWake ->
  let pc' := if bool_decide (i = 0%nat) then AWait else ADec in
  exists p1, apply_inv N n p1 sig {| ac_da := ac_da c; ac_threads := <[i := pc']> (apply_awake <$> ac_threads c);
    ac_runs := ac_runs c; ac_freed := ac_freed c; ac_crashed := false |}.
Proof using H.
  intros Hi pc'. pose proof (caller_is _ _ _ _ _ H _ _ Hi) as Hc.
  pose proof H as [H1 H2 H3 H4 [H5 H5'] H6 H7 [H8 H8'] H9 H10 H11 H12 H13 H14 H15 H16].
  assert ((apply_awake <$> ac_threads c) !! i = Some AWake) as Hi' by (by rewrite list_lookup_fmap, Hi).
  exists (if decide (i = 0%nat) then pc' else apply_awake p0).
  assert (past_end pc' = 1 /\ calling pc' = 0 /\ (forall x, calling_at x pc' = 0) /\ unreported pc' = 0 /\
    signalling pc' = 0 /\ waking pc' = 0 /\ counted pc' = 1 /\ freeing pc' = 0 /\
    apc_ok N (bool_decide (i = 0%nat)) pc' /\ (i = 0%nat -> pc' = AWait))
    as (W1 & W2 & W3 & W4 & W6 & W7 & W8 & W9 & Hok' & Hw').
  { unfold pc'. case_bool_decide; simpl; split_and!; done. }
  assert (forall f : apply_pc -> Z, f AEvLoop = f AEvAsleep ->
    tally f (<[i := pc']> (apply_awake <$> ac_threads c)) = tally f (ac_threads c) - f AWake + f pc') as Ht.
  { intros f Hf. rewrite (tally_insert _ _ _ _ _ Hi'), tally_fmap; [done|]. intros []; done. }
  assert (waited (apply_awake p0) = waited p0 /\ resumed (apply_awake p0) = resumed p0 /\ apply_awake p0 <> AEvAsleep)
    as (A1 & A2 & A3) by (by destruct p0).
  constructor; cbn [ac_da ac_threads ac_runs ac_freed ac_crashed]; rewrite ?Ht by done;
    rewrite ?W1, ?W2, ?W4, ?W6, ?W7, ?W8, ?W9; simpl; try done; try lia.
  - by rewrite length_insert, length_fmap.
  - destruct (decide (i = 0%nat)) as [E|E].
    + rewrite E in *. apply list_lookup_insert_eq. by eapply lookup_lt_Some.
    + by rewrite list_lookup_insert_ne, list_lookup_fmap, H3.
  - intros j q Hj. destruct (decide (i = j)) as [<-|Hij].
    + rewrite list_lookup_insert_eq in Hj by (by eapply lookup_lt_Some). by injection Hj as <-.
    + rewrite list_lookup_insert_ne, list_lookup_fmap in Hj by done.
      destruct (ac_threads c !! j) as [q0|] eqn:Eq; [|done]. injection Hj as <-. pose proof (H4 j q0 Eq). by destruct q0.
  - intros x. rewrite Ht, W3 by done. specialize (H6 x). simpl. lia.
  - rewrite H10. destruct (decide (i = 0%nat)) as [E|E]; [rewrite (Hw' E), (Hc E); done|by rewrite A1].
  - destruct (decide (i = 0%nat)) as [E|E]; [by rewrite (Hw' E)|by rewrite A2].
  - destruct (decide (i = 0%nat)) as [E|E]; [by rewrite (Hw' E)|done].
Qed.

(** The thread count, and the free by the thread that brings it to zero. *)
Lemma dec_inv : ac_threads c !! i = Some ADec ->
  let da := set_da_thr_cnt (ac_da c) (i32 (da_thr_cnt (ac_da c) - 1)) in
  let pc' := if da_thr_cnt da =? 0 then AFree else AReturned in
  apply_inv N n (new_caller p0 i pc') sig (put da pc' (ac_runs c) (ac_freed c)).
Proof using H HN HNn Hn.
  intros Hi da pc'. pose proof (apply_facts _ _ _ _ _ H _ _ Hi) as F. pose proof (caller_is _ _ _ _ _ H _ _ Hi) as Hc.
  pose proof H as [H1 H2 H3 H4 [H5 H5'] H6 H7 [H8 H8'] H9 H10 H11 H12 H13 H14 H15 H16]. simpl in F.
  assert (da_thr_cnt da = da_thr_cnt (ac_da c) - 1) as Hda by (unfold da; simpl; apply swrap_small; lia).
  assert (past_end pc' = 1 /\ calling pc' = 0 /\ (forall x, calling_at x pc' = 0) /\ unreported pc' = 0 /\
    signalling pc' = 0 /\ waking pc' = 0 /\ counted pc' = 0 /\ freeing pc' = (if da_thr_cnt da =? 0 then 1 else 0) /\
    pc' <> AEvAsleep /\ apc_ok N (bool_decide (i = 0%nat)) pc' /\ waited pc' = true /\ resumed pc' = true)
    as (W1 & W2 & W3 & W4 & W6 & W7 & W8 & W9 & W12 & Hok' & Hw' & Hr').
  { unfold pc'. destruct (da_thr_cnt da =? 0); simpl; split_and!; done. }
  assert (da_iterations da = N /\ da_index da = da_index (ac_da c) /\ da_event da = da_event (ac_da c) /\
    da_todo da = da_todo (ac_da c)) as (D1 & D2 & D3 & D4) by done.
  clearbody pc' da. unfold put. apply_move H Hi; rewrite ?W1, ?W2, ?W4, ?W6, ?W7, ?W8, ?W9, ?D2, ?D3, ?D4; simpl; try done; try lia.
  - intros x. rewrite (tally_insert _ _ _ _ _ Hi), W3. specialize (H6 x). simpl. lia.
  - rewrite H10. unfold new_caller. destruct (decide (i = 0%nat)) as [E|E]; [|done]. by rewrite (Hc E), Hw'.
  - unfold new_caller. destruct (decide (i = 0%nat)) as [E|E]; [|apply H11]. intros _. apply H11. by rewrite (Hc E).
  - unfold new_caller. destruct (decide (i = 0%nat)) as [E|E]; [done|]. intros; specialize (H12 ltac:(done) ltac:(done)). lia.
  - rewrite Hda in *. split_bools; lia.
Qed.

Lemma free_inv : ac_threads c !! i = Some AFree ->
  apply_inv N n (new_caller p0 i AReturned) sig (put (ac_da c) AReturned (ac_runs c) (ac_freed c + 1)).
Proof using H.
  intros Hi. pose proof (caller_is _ _ _ _ _ H _ _ Hi) as Hc.
  pose proof H as [H1 H2 H3 H4 [H5 H5'] H6 H7 [H8 H8'] H9 H10 H11 H12 H13 H14 H15 H16].
  unfold put. apply_move H Hi; simpl; try done; try lia.
  - intros x. rewrite (tally_insert _ _ _ _ _ Hi). specialize (H6 x). simpl. lia.
  - rewrite H10. unfold new_caller. destruct (decide (i = 0%nat)) as [E|E]; [|done]. by rewrite (Hc E).
  - unfold new_caller. destruct (decide (i = 0%nat)) as [E|E]; [|apply H11]. intros _. apply H11. by rewrite (Hc E).
  - unfold new_caller. destruct (decide (i = 0%nat)) as [E|E]; [done|]. intros; specialize (H12 ltac:(done) ltac:(done)). lia.
Qed.
End steps.

Lemma apply_step_inv N n c p0 sig i a c' : 0 < N -> Z.of_nat n < 2 ^ 31 -> N + Z.of_nat n < 2 ^ 64 - 1 ->
  apply_inv N n p0 sig c -> apply_step c i a = Some c' -> exists p1 sig', apply_inv N n p1 sig' c'.
Proof.
  intros HN Hn HNn H E. unfold apply_step in E. destruct (ac_threads c !! i) as [pc|] eqn:Hi; [|done].
  pose proof (ai_ok _ _ _ _ _ H) as Hcr. pose proof (ai_pc _ _ _ _ _ H i pc Hi) as Hok.
  assert (set_da_event (ac_da c) (da_event (ac_da c)) = ac_da c) as Hsame by (by destruct (ac_da c)).
  pose proof (access_ok _ _ _ _ _ H _ _ Hi _ eq_refl) as Hacc. cbn [mbind option_bind] in E.
  rewrite Hcr, Hacc, orb_false_r in E. destruct a.
  - pose proof (ai_event _ _ _ _ _ H) as He. pose proof (caller_is _ _ _ _ _ H _ _ Hi) as Hc.
    destruct pc as [|idx d|d|d| | | | | | | | | |]; cbn [_dispatch_apply_invoke2 mbind option_bind] in E.
    + cbn [da_iterations set_da_index] in E. rewrite (ai_iter _ _ _ _ _ H) in E. destruct (N <=? da_index (ac_da c)) eqn:Ei; injection E as <-; do 2 eexists.
      * eapply exhaust_inv; eauto. lia.
      * eapply claim_inv; eauto. lia.
    + injection E as <-. do 2 eexists. by eapply call_inv.
    + cbn [da_iterations set_da_index] in E. rewrite (ai_iter _ _ _ _ _ H) in E. destruct (da_index (ac_da c) <? N) eqn:Ei; injection E as <-; do 2 eexists.
      * eapply claim_inv; eauto. lia.
      * eapply exhaust_inv; eauto. lia.
    + injection E as <-. do 2 eexists. by eapply sub_inv.
    + pose proof (signal_inv N n HN HNn c p0 sig H i Hi) as Hs. destruct (_dispatch_thread_event_signal (da_event (ac_da c))) as [v slow].
      injection E as <-. by do 2 eexists.
    + injection E as <-. destruct (wake_inv N n c p0 sig H i Hi) as [p1 Hp]. by exists p1, sig.
    + assert (i = 0%nat) as -> by (by case_bool_decide). rewrite (Hc eq_refl) in He. simpl in He.
      unfold _dispatch_thread_event_wait in E. injection E as <-. exists (if negb (u32 (da_event (ac_da c) - 1) =? 0) then AEvLoop else ADestroy), sig.
      rewrite He. destruct sig; eapply settled_inv; eauto; done.
    + assert (i = 0%nat) as -> by (by case_bool_decide). rewrite (Hc eq_refl) in He. simpl in He. rewrite He in E.
      rewrite <- Hsame in E. destruct sig; injection E as <-.
      * exists ADestroy, true. eapply settled_inv; eauto; done.
      * exists AEvFutex, false. eapply settled_inv; eauto; done.
    + assert (i = 0%nat) as -> by (by case_bool_decide). rewrite (Hc eq_refl) in He. simpl in He. rewrite He in E.
      rewrite <- Hsame in E. destruct sig; injection E as <-.
      * exists AEvLoop, true. eapply settled_inv; eauto; done.
      * exists AEvAsleep, false. eapply settled_inv; eauto; done.
    + done.
    + assert (i = 0%nat) as -> by (by case_bool_decide). rewrite (Hc eq_refl) in He. simpl in He.
      assert (sig = true) as -> by (apply (ai_resumed _ _ _ _ _ H); by rewrite (Hc eq_refl)).
      rewrite He in E. rewrite <- Hsame in E. injection E as <-. exists ADec, true. eapply settled_inv; eauto; done.
    + injection E as <-. do 2 eexists. by eapply dec_inv.
    + injection E as <-. do 2 eexists. by eapply free_inv.
    + done.
  - destruct pc; try done. injection E as <-. assert (i = 0%nat) as -> by (by case_bool_decide).
    pose proof (ai_event _ _ _ _ _ H) as He. rewrite (caller_is _ _ _ _ _ H _ _ Hi eq_refl) in He.
    rewrite <- Hsame. exists AEvLoop, sig. eapply settled_inv; eauto; done.
Qed.

Lemma apply_reach_inv da c : fresh_da da -> da_thr_cnt da < 2 ^ 31 -> da_iterations da < 2 ^ 63 -> apply_reach da c ->
  exists p0 sig, apply_inv (da_iterations da) (Z.to_nat (da_thr_cnt da)) p0 sig c.
Proof.
  intros (F1 & F2 & F3 & F4) Ht Hi. induction 1 as [|c i a c' _ (p0 & sig & IH) E].
  - exists AStart, false. constructor; simpl; rewrite ?tally_repeat, ?length_replicate; simpl; try done; try lia.
    + by rewrite lookup_replicate_2 by lia.
    + intros i pc [-> _]%lookup_replicate. done.
    + intros x. rewrite tally_repeat. unfold occurs. simpl. rewrite F2. split_bools; lia.
    + rewrite F3. split_bools; lia.
    + rewrite Z2Nat.id by lia. split_bools; lia.
  - eapply apply_step_inv; [..|exact IH|exact E]; lia.
Qed.

(** The thread is inside an iteration or about to report or signal. *)
Definition working (pc : apply_pc) : bool :=
  match pc with ACall _ _ | ANext _ | ASub _ | ASignal | AWake => true | _ => false end.

Section theorems.
Context (iterations parallelism nested dq_width : Z) (is_current : bool) (da : dispatch_apply_s).
Context (Hi : 0 <= iterations < 2 ^ 63) (Hp : 1 <= parallelism < 2 ^ 31) (Hns : 0 <= nested < 2 ^ 64).
Context (Hda : dispatch_apply_f iterations parallelism nested dq_width false is_current = ApplyParallel da).

Lemma parallel_inv c : apply_reach da c -> da_iterations da = iterations /\ 0 < iterations /\
  exists p0 sig, apply_inv iterations (Z.to_nat (da_thr_cnt da)) p0 sig c.
Proof.
  intros Hr. pose proof (apply_plan_correct iterations parallelism nested dq_width false is_current ltac:(lia) Hp Hns) as Hc.
  rewrite Hda in Hc. destruct Hc as (E & Hf & _ & Ht & _). pose proof Hf as (F & _). rewrite <- E. split_and!; [done|lia|].
  apply apply_reach_inv; try done; lia.
Qed.

(** C19: however the caller and the helpers interleave, no index is run twice and none
    outside the range; when the caller gets past its wait every index has been run, and
    whoever is about to call the function does so before the caller can return; nobody
    uses the shared object after it was freed, and once every thread has returned it was
    freed exactly once. *)
Theorem apply_runs_each_once c : apply_reach da c ->
  ac_crashed c = false /\
  (forall x, 0 <= occurs x (ac_runs c) <= 1 /\ (0 < occurs x (ac_runs c) -> 0 <= x < iterations)) /\
  (forall p0, ac_threads c !! 0%nat = Some p0 -> resumed p0 = true ->
    (forall x, 0 <= x < iterations -> occurs x (ac_runs c) = 1) /\
    (forall i pc, ac_threads c !! i = Some pc -> calling pc = 0)) /\
  0 <= ac_freed c <= 1 /\
  (Forall (eq AReturned) (ac_threads c) -> ac_freed c = 1).
Proof using Hda Hi Hns Hp.
  intros Hr. destruct (parallel_inv c Hr) as (EN & HN & p0 & sig & H).
  pose proof H as [H1 H2 H3 H4 [H5 H5'] H6 H7 [H8 H8'] H9 H10 H11 H12 H13 H14 H15 H16].
  assert (forall (f : apply_pc -> Z), (forall pc, 0 <= f pc) -> 0 <= tally f (ac_threads c)) as Hnn
    by (intros f Hf; by apply tally_nonneg).
  pose proof (Hnn calling ltac:(intros []; simpl; lia)). pose proof (Hnn freeing ltac:(intros []; simpl; lia)).
  pose proof (Hnn signalling ltac:(intros []; simpl; lia)).
  split_and!; [done| | |lia|split_bools; lia|].
  - intros x. specialize (H6 x). pose proof (Hnn (calling_at x) ltac:(intros []; simpl; split_bools; lia)).
    assert (0 <= occurs x (ac_runs c)) by (apply tally_nonneg; intros; split_bools; lia). split_bools; lia.
  - intros p Hp0 Hres. rewrite H3 in Hp0. injection Hp0 as <-. rewrite (H11 Hres) in *.
    assert (da_todo (ac_da c) = 0) as Htodo by (split_bools; lia).
    assert (0 <= tally unreported (ac_threads c)) as Hu.
    { apply tally_nonneg_in. intros j q Hq. eapply unreported_ok, (H4 j q Hq). }
    assert (tally calling (ac_threads c) = 0 /\ iterations <= da_index (ac_da c)) as [Hc Hidx] by lia.
    assert (forall i pc, ac_threads c !! i = Some pc -> calling pc = 0) as Hnone.
    { intros i pc Hpc. pose proof (tally_ge calling _ i pc ltac:(intros []; simpl; lia) Hpc).
      assert (0 <= calling pc) by (destruct pc; simpl; lia). lia. }
    split; [|done]. intros x Hx. specialize (H6 x).
    assert (tally (calling_at x) (ac_threads c) = 0) as Hz.
    { apply tally_zero. intros i pc Hpc. pose proof (Hnone i pc Hpc). by destruct pc. }
    split_bools; lia.
  - intros Hall. assert (tally counted (ac_threads c) = 0 /\ tally freeing (ac_threads c) = 0) as [Z1 Z2].
    { split; apply tally_zero; intros i pc Hpc; rewrite Forall_lookup in Hall; by rewrite <- (Hall i pc Hpc). }
    split_bools; lia.
Qed.

(** C25: a caller asleep in [dispatch_apply] waits only for helpers that have begun an
    iteration or are about to signal or wake it, and those can go on: helpers that never
    get a thread do not hold it up. *)
Theorem apply_no_deadlock c : apply_reach da c -> ac_threads c !! 0%nat = Some AEvAsleep ->
  exists j pc, ac_threads c !! j = Some pc /\ working pc = true /\ is_Some (apply_step c j ARun).
Proof using Hda Hi Hns Hp.
  intros Hr H0. destruct (parallel_inv c Hr) as (EN & HN & p0 & sig & H).
  pose proof H as [H1 H2 H3 H4 [H5 H5'] H6 H7 [H8 H8'] H9 H10 H11 H12 H13 H14 H15 H16].
  rewrite H3 in H0. injection H0 as ->.
  assert (Exists (fun pc => working pc = true) (ac_threads c)) as Hex.
  { destruct (decide (Exists (fun pc => working pc = true) (ac_threads c))) as [|Hno]; [done|exfalso].
    rewrite <- Forall_Exists_neg, Forall_lookup in Hno.
    assert (forall f : apply_pc -> Z, (forall pc, working pc = false -> f pc = 0) -> tally f (ac_threads c) = 0) as Hz.
    { intros f Hf. apply tally_zero. intros i pc Hpc. apply Hf. by apply not_true_iff_false, (Hno i). }
    pose proof (Hz calling ltac:(by intros [])). pose proof (Hz unreported ltac:(by intros [])).
    pose proof (Hz signalling ltac:(by intros [])). pose proof (Hz waking ltac:(by intros [])).
    pose proof (tally_ge past_end _ 0%nat _ ltac:(intros []; simpl; lia) H3) as Hpe. simpl in Hpe.
    destruct sig; [specialize (H12 eq_refl eq_refl); lia|]. split_bools; lia. }
  apply Exists_exists in Hex as (pc & (j & Hj)%list_elem_of_lookup & Hw). exists j, pc. split_and!; [done..|].
  unfold apply_step. rewrite Hj. cbn [mbind option_bind].
  destruct pc; try done; cbn [_dispatch_apply_invoke2 mbind option_bind]; eexists; reflexivity.
Qed.
End theorems.

(** *** Instances *)

Definition apply_example : dispatch_apply_s :=
  {| da_index := 0; da_todo := 3; da_iterations := 3; da_nested := 3; da_event := 0; da_thr_cnt := 2 |}.

(** The helper runs index 0 while the caller runs 1 and 2 and goes to sleep. *)
Definition apply_schedule : list (nat * apply_action) :=
  [(1%nat, ARun)] ++ repeat (0%nat, ARun) 9.
Definition apply_asleep : apply_config :=
  default (apply_init apply_example) (schedule apply_step (apply_init apply_example) apply_schedule).
Definition apply_finished : apply_config :=
  default (apply_init apply_example)
    (schedule apply_step (apply_init apply_example) (apply_schedule ++ repeat (1%nat, ARun) 6 ++ repeat (0%nat, ARun) 4)).

Lemma apply_trace_reach da l c : schedule apply_step (apply_init da) l = Some c -> apply_reach da c.
Proof. apply schedule_ind; [by econstructor|constructor]. Qed.

Lemma apply_runs_each_once_witness :
  ac_threads apply_finished = [AReturned; AReturned] /\ ac_freed apply_finished = 1 /\
  forall x, 0 <= x < 3 -> occurs x (ac_runs apply_finished) = 1.
Proof.
  destruct (apply_runs_each_once 3 2 0 4095 false apply_example ltac:(lia) ltac:(lia) ltac:(lia) eq_refl apply_finished)
    as (_ & _ & H & _ & Hfr).
  { apply (apply_trace_reach _ (apply_schedule ++ repeat (1%nat, ARun) 6 ++ repeat (0%nat, ARun) 4)).
    vm_compute. reflexivity. }
  split; [vm_compute; reflexivity|]. split.
  - apply Hfr. vm_compute. repeat constructor.
  - apply (H AReturned); vm_compute; reflexivity.
Defined.

Lemma apply_no_deadlock_witness :
  exists j pc, ac_threads apply_asleep !! j = Some pc /\ working pc = true /\ is_Some (apply_step apply_asleep j ARun).
Proof.
  apply (apply_no_deadlock 3 2 0 4095 false apply_example); try lia; try (vm_compute; reflexivity).
  apply (apply_trace_reach _ apply_schedule). vm_compute. reflexivity.
Defined.
