(* ===== verification/LaneRmw.v ===== *)
(** * Atomic updates of a lane's state word

    One definition per [os_atomic_rmw_loop2o] on [dq_state] of
    [src/inline_internal.h] and [src/queue.c]: the function of the old word that the
    loop body computes.  [None] is [os_atomic_rmw_loop_give_up] (nothing stored).
    [width] is [dq->dq_width] and [tid] the calling thread.  Then, for well-formed
    words, what each update does to the fields. *)

From S2P Require Import Prelude DqState.

Local Open Scope word_scope.

(** ** Creation *)

(** The word and the references [_dispatch_queue_init] adds. *)
Definition _dispatch_queue_init (width initial_state_bits : Z) (is_source : bool) : outcome (Z * Z) :=
  let dq_state := DISPATCH_QUEUE_STATE_INIT_VALUE width in
  if nz (clear64 initial_state_bits (DISPATCH_QUEUE_ROLE_MASK .| DISPATCH_QUEUE_INACTIVE))
  then Crash InternalCrash
  else
    let inactive := nz (initial_state_bits .& DISPATCH_QUEUE_INACTIVE) in
    let dq_state := if inactive
      then dq_state .| (DISPATCH_QUEUE_INACTIVE + DISPATCH_QUEUE_NEEDS_ACTIVATION) else dq_state in
    let refs := if inactive then (if is_source then 3 else 2) else 0 in
    Done (dq_state .| (initial_state_bits .& DISPATCH_QUEUE_ROLE_MASK), refs).

(** ** The drain lock *)

Inductive invoke_mode := InvokePlain | InvokeStealing | InvokeManagerDrain.

Definition pending_barrier_width (width : Z) : Z := (width - 1) * DISPATCH_QUEUE_WIDTH_INTERVAL.

Inductive try_lock_result :=
| TryLockOverride (qos : Z)              (* _dispatch_queue_override_self, goto retry *)
| TryLock (new_state owned : Z).

Definition lock_fail_mask (mode : invoke_mode) : Z :=
  let m := lnotw 64 (DISPATCH_QUEUE_WIDTH_FULL_BIT - 1) .| DISPATCH_QUEUE_DRAIN_OWNER_MASK in
  match mode with
  | InvokeStealing => m .| DISPATCH_QUEUE_ENQUEUED_ON_MGR
  | InvokeManagerDrain => m
  | InvokePlain => m .| DISPATCH_QUEUE_ENQUEUED_ON_MGR
  end.

Definition dequeue_mask (mode : invoke_mode) : Z :=
  match mode with
  | InvokeStealing => 0
  | InvokeManagerDrain => DISPATCH_QUEUE_ENQUEUED_ON_MGR
  | InvokePlain => DISPATCH_QUEUE_ENQUEUED
  end.

Definition _dispatch_queue_drain_try_lock (width tid : Z) (mode : invoke_mode) (oq_floor old_state : Z)
    : outcome try_lock_result :=
  let set_owner_and_set_full_width := _dispatch_lock_value_from_tid tid .| DISPATCH_QUEUE_WIDTH_FULL_BIT in
  let free := (old_state .& lock_fail_mask mode) =? 0 in
  if free && _dq_state_needs_lock_override old_state oq_floor
  then Done (TryLockOverride (_dq_state_max_qos old_state))
  else
    let new_state :=
      if free then
        let new_state := old_state .& DISPATCH_QUEUE_DRAIN_PRESERVED_BITS_MASK in
        let new_state := new_state .| set_owner_and_set_full_width in
        if _dq_state_has_pending_barrier old_state
           || (add64 old_state (pending_barrier_width width) <? DISPATCH_QUEUE_WIDTH_FULL_BIT)
        then new_state .| DISPATCH_QUEUE_IN_BARRIER else new_state
      else if nz (dequeue_mask mode) then Z.lxor old_state (dequeue_mask mode)
      else old_state in
    if (old_state .& dequeue_mask mode) =? dequeue_mask mode then
      if free then
        let new_bits := new_state .& (DISPATCH_QUEUE_IN_BARRIER .| DISPATCH_QUEUE_WIDTH_FULL_BIT .| dequeue_mask mode) in
        Done (TryLock new_state (sub64 new_bits (old_state .& DISPATCH_QUEUE_WIDTH_MASK)))
      else Done (TryLock new_state 0)
    else Crash InternalCrash.

(** The stored word and whether the lock was taken. *)
Definition _dispatch_queue_drain_try_lock_wlh (tid old_state : Z) : outcome (Z * bool) :=
  let lock_bits := _dispatch_lock_value_from_tid tid .| DISPATCH_QUEUE_WIDTH_FULL_BIT .| DISPATCH_QUEUE_IN_BARRIER in
  let new_state :=
    if _dq_state_is_suspended old_state then clear64 old_state DISPATCH_QUEUE_ENQUEUED
    else if _dq_state_drain_locked old_state then old_state
    else (old_state .& DISPATCH_QUEUE_DRAIN_PRESERVED_BITS_MASK) .| lock_bits in
  if negb (_dq_state_is_base_wlh old_state) || negb (_dq_state_is_enqueued_on_target old_state)
     || _dq_state_is_enqueued_on_manager old_state
  then Crash InternalCrash
  else Done (new_state, negb (_dq_state_is_suspended old_state) && negb (_dq_state_drain_locked old_state)).

Definition _dispatch_queue_drain_try_unlock (owned : Z) (done : bool) (old_state : Z) : option Z :=
  let new_state := sub64 old_state owned in
  let new_state := clear64 new_state DISPATCH_QUEUE_DRAIN_UNLOCK_MASK in
  if _dq_state_is_suspended old_state then Some new_state
  else if _dq_state_is_dirty old_state then None
  else if done then Some (clear64 new_state DISPATCH_QUEUE_MAX_QOS_MASK)
  else Some (new_state .| DISPATCH_QUEUE_DIRTY).

Definition xor_dirty (old_state : Z) : Z := Z.lxor old_state DISPATCH_QUEUE_DIRTY.

(** ** Width *)

Definition _dispatch_queue_try_acquire_barrier_sync_and_suspend (width tid suspend_count old_state : Z) : option Z :=
  let init := DISPATCH_QUEUE_STATE_INIT_VALUE width in
  let value := DISPATCH_QUEUE_WIDTH_FULL_BIT .| DISPATCH_QUEUE_IN_BARRIER .| _dispatch_lock_value_from_tid tid
               .| u64 (suspend_count * DISPATCH_QUEUE_SUSPEND_INTERVAL) in
  let role := old_state .& DISPATCH_QUEUE_ROLE_MASK in
  if negb (old_state =? (init .| role)) then None else Some (value .| role).

Definition _dispatch_queue_try_acquire_barrier_sync (width tid old_state : Z) : option Z :=
  _dispatch_queue_try_acquire_barrier_sync_and_suspend width tid 0 old_state.

Definition _dispatch_queue_reserve_sync_width (old_state : Z) : Z := add64 old_state DISPATCH_QUEUE_WIDTH_INTERVAL.

(** After the test of [dq_items_tail]. *)
Definition _dispatch_queue_try_reserve_sync_width (old_state : Z) : option Z :=
  if negb (_dq_state_is_sync_runnable old_state) || _dq_state_is_dirty old_state
     || _dq_state_has_pending_barrier old_state
  then None else Some (add64 old_state DISPATCH_QUEUE_WIDTH_INTERVAL).

Definition _dispatch_queue_try_acquire_async (old_state : Z) : option Z :=
  if negb (_dq_state_is_runnable old_state) || _dq_state_is_dirty old_state
     || _dq_state_has_pending_barrier old_state
  then None else Some (add64 old_state DISPATCH_QUEUE_WIDTH_INTERVAL).

(** The stored word and the result. *)
Definition _dispatch_queue_try_upgrade_full_width (width owned old_state : Z) : Z * bool :=
  let pending := DISPATCH_QUEUE_PENDING_BARRIER + pending_barrier_width width in
  let new_state := sub64 old_state owned in
  let new_state := if _dq_state_has_pending_barrier old_state then new_state else add64 new_state pending in
  let new_state :=
    if _dq_state_is_runnable new_state
    then sub64 (add64 (add64 new_state DISPATCH_QUEUE_WIDTH_INTERVAL) DISPATCH_QUEUE_IN_BARRIER) DISPATCH_QUEUE_PENDING_BARRIER
    else new_state in
  let new_state := clear64 new_state DISPATCH_QUEUE_DIRTY in
  (new_state, _dq_state_is_in_barrier new_state).

(** [next_dc]: whether the next item is a barrier, if there is one. *)
Definition _dispatch_queue_adjust_owned (width owned : Z) (next_dc : option bool) : Z :=
  if 1 <? width then
    match next_dc with
    | Some true => sub64 owned (DISPATCH_QUEUE_PENDING_BARRIER + pending_barrier_width width)
    | _ => owned
    end
  else owned.

(** ** Completion of work items *)

Definition _dispatch_lane_non_barrier_complete_try_lock (width old_state new_state owner_self : Z) : Z :=
  let full_width :=
    if _dq_state_has_pending_barrier new_state
    then add64 (add64 (sub64 new_state DISPATCH_QUEUE_PENDING_BARRIER) DISPATCH_QUEUE_WIDTH_INTERVAL) DISPATCH_QUEUE_IN_BARRIER
    else add64 (add64 new_state (width * DISPATCH_QUEUE_WIDTH_INTERVAL)) DISPATCH_QUEUE_IN_BARRIER in
  if (full_width .& DISPATCH_QUEUE_WIDTH_MASK) =? DISPATCH_QUEUE_WIDTH_FULL_BIT
  then clear64 full_width DISPATCH_QUEUE_DIRTY .| owner_self
  else if _dq_state_is_dirty old_state then new_state .| DISPATCH_QUEUE_ENQUEUED
  else new_state.

Definition _dispatch_lane_non_barrier_complete (width tid old_state : Z) : Z :=
  let new_state := sub64 old_state DISPATCH_QUEUE_WIDTH_INTERVAL in
  if _dq_state_drain_locked old_state then new_state .| DISPATCH_QUEUE_DIRTY
  else if _dq_state_is_runnable new_state
  then _dispatch_lane_non_barrier_complete_try_lock width old_state new_state (_dispatch_lock_value_from_tid tid)
  else new_state.

(** What [_dispatch_lane_non_barrier_complete_finish] does next. *)
Inductive complete_action := CompleteBarrier | CompletePush | CompleteNothing.

Definition _dispatch_lane_non_barrier_complete_finish (old_state new_state : Z) : complete_action :=
  if nz (Z.lxor old_state new_state .& DISPATCH_QUEUE_IN_BARRIER) then CompleteBarrier
  else if nz (Z.lxor old_state new_state .& DISPATCH_QUEUE_ENQUEUED) then CompletePush
  else CompleteNothing.

(** The inlined unlock of [_dispatch_lane_barrier_sync_invoke_and_complete]. *)
Definition fail_unlock_mask : Z :=
  DISPATCH_QUEUE_SUSPEND_BITS_MASK .| DISPATCH_QUEUE_ENQUEUED .| DISPATCH_QUEUE_DIRTY
  .| DISPATCH_QUEUE_RECEIVED_OVERRIDE .| DISPATCH_QUEUE_SYNC_TRANSFER .| DISPATCH_QUEUE_RECEIVED_SYNC_WAIT.

Definition _dispatch_lane_barrier_sync_unlock (old_state : Z) : option Z :=
  let new_state := sub64 old_state DISPATCH_QUEUE_SERIAL_DRAIN_OWNED in
  let new_state := clear64 new_state DISPATCH_QUEUE_DRAIN_UNLOCK_MASK in
  let new_state := clear64 new_state DISPATCH_QUEUE_MAX_QOS_MASK in
  if nz (old_state .& fail_unlock_mask) then None else Some new_state.

Definition _dispatch_lane_drain_barrier_waiter (next_owner enqueued_bits : Z) (next_dc : bool) (old_state : Z) : option Z :=
  let new_state := clear64 old_state DISPATCH_QUEUE_DRAIN_UNLOCK_MASK in
  let new_state := clear64 new_state DISPATCH_QUEUE_DIRTY in
  let new_state := new_state .| next_owner in
  if _dq_state_is_base_wlh old_state then
    let new_state := new_state .| DISPATCH_QUEUE_SYNC_TRANSFER in
    if next_dc then Some new_state
    else if _dq_state_is_dirty old_state then None
    else Some (clear64 (clear64 new_state DISPATCH_QUEUE_MAX_QOS_MASK) DISPATCH_QUEUE_ENQUEUED)
  else Some (sub64 new_state enqueued_bits).

(** [enqueue] is 0 without a target. *)
Definition _dispatch_lane_class_barrier_complete (qos enqueue owned old_state : Z) : option Z :=
  let new_state := _dq_state_merge_qos (sub64 old_state owned) qos in
  let new_state := clear64 new_state DISPATCH_QUEUE_DRAIN_UNLOCK_MASK in
  if _dq_state_is_suspended old_state then
    if _dq_state_is_base_wlh old_state then Some (clear64 new_state DISPATCH_QUEUE_ENQUEUED) else Some new_state
  else if nz enqueue then
    if negb (_dq_state_is_enqueued old_state) then Some (new_state .| enqueue) else Some new_state
  else if _dq_state_is_dirty old_state then None
  else Some (clear64 new_state DISPATCH_QUEUE_MAX_QOS_MASK).

(** The end of [_dispatch_lane_drain_non_barriers]; [dc]: an item is left. *)
Definition _dispatch_lane_drain_non_barriers_unlock (width tid owned : Z) (dc : bool) (old_state : Z) : option Z :=
  let new_state := sub64 old_state owned in
  let new_state := clear64 new_state DISPATCH_QUEUE_DRAIN_UNLOCK_MASK in
  let new_state := clear64 new_state DISPATCH_QUEUE_DIRTY in
  if dc then
    Some (_dispatch_lane_non_barrier_complete_try_lock width old_state
            (new_state .| DISPATCH_QUEUE_DIRTY) (_dispatch_lock_value_from_tid tid))
  else if _dq_state_is_dirty old_state then None
  else Some new_state.

Definition _dispatch_queue_invoke_finish (owned enqueued old_state : Z) : Z :=
  let new_state := sub64 old_state owned in
  let new_state := clear64 new_state DISPATCH_QUEUE_DRAIN_UNLOCK_MASK in
  let new_state := new_state .| DISPATCH_QUEUE_DIRTY in
  if _dq_state_is_runnable new_state && negb (_dq_state_is_enqueued new_state)
  then new_state .| enqueued else new_state.

(** ** Wakeups *)

(** [_dispatch_queue_wakeup] with a target; [None] if the word would not change. *)
Definition _dispatch_queue_wakeup (qos enqueue : Z) (make_dirty : bool) (old_state : Z) : option Z :=
  let new_state := _dq_state_merge_qos old_state qos in
  let new_state :=
    if negb (_dq_state_is_suspended old_state) && negb (_dq_state_is_enqueued old_state)
       && (negb (_dq_state_drain_locked old_state)
           || (negb (enqueue =? DISPATCH_QUEUE_ENQUEUED_ON_MGR) && _dq_state_is_base_wlh old_state))
    then new_state .| enqueue else new_state in
  if make_dirty then Some (new_state .| DISPATCH_QUEUE_DIRTY)
  else if new_state =? old_state then None else Some new_state.

Definition set_owner_and_set_full_width_and_in_barrier (tid : Z) : Z :=
  _dispatch_lock_value_from_tid tid .| DISPATCH_QUEUE_WIDTH_FULL_BIT .| DISPATCH_QUEUE_IN_BARRIER.

Definition _dispatch_lane_push_waiter (width tid qos old_state : Z) : Z :=
  let new_state := _dq_state_merge_qos old_state qos in
  let new_state := new_state .| DISPATCH_QUEUE_DIRTY in
  if _dq_state_drain_locked old_state || negb (_dq_state_is_runnable old_state) then new_state
  else if _dq_state_is_base_wlh old_state && _dq_state_is_enqueued old_state then new_state
  else if _dq_state_has_pending_barrier old_state
          || (add64 new_state (pending_barrier_width width) <? DISPATCH_QUEUE_WIDTH_FULL_BIT)
  then (new_state .& DISPATCH_QUEUE_DRAIN_PRESERVED_BITS_MASK) .| set_owner_and_set_full_width_and_in_barrier tid
  else new_state.

(** ** Suspension *)

Definition _dispatch_lane_try_inactive_suspend (old_state : Z) : outcome (option Z) :=
  if negb (_dq_state_is_inactive old_state) then Done None
  else if negb (_dq_state_is_suspended old_state) || _dq_state_has_side_suspend_cnt old_state
  then Crash ClientCrash
  else Done (Some (add64 old_state DISPATCH_QUEUE_SUSPEND_INTERVAL)).

(** [None]: the inline count is full, call [_dispatch_lane_suspend_slow]. *)
Definition _dispatch_lane_suspend (old_state : Z) : option Z :=
  os_add_overflow old_state DISPATCH_QUEUE_SUSPEND_INTERVAL.

(** The word and the side count, with the side lock held; [Done None] retries. *)
Definition _dispatch_lane_suspend_slow (dq_side_suspend_cnt old_state : Z) : outcome (option (Z * Z)) :=
  let delta := DISPATCH_QUEUE_SUSPEND_HALF * DISPATCH_QUEUE_SUSPEND_INTERVAL in
  let delta := delta - DISPATCH_QUEUE_SUSPEND_INTERVAL in
  let delta := if dq_side_suspend_cnt =? 0 then delta - DISPATCH_QUEUE_HAS_SIDE_SUSPEND_CNT else delta in
  match os_sub_overflow old_state delta with
  | None => Done None
  | Some new_state =>
      let n := dq_side_suspend_cnt + DISPATCH_QUEUE_SUSPEND_HALF in
      if n <? 2 ^ 32 then Done (Some (new_state, n)) else Crash ClientCrash
  end.

Definition _dispatch_lane_resume_slow (dq_side_suspend_cnt old_state : Z) : option (Z * Z) :=
  let delta := DISPATCH_QUEUE_SUSPEND_HALF * DISPATCH_QUEUE_SUSPEND_INTERVAL in
  let delta := delta - DISPATCH_QUEUE_SUSPEND_INTERVAL in
  if dq_side_suspend_cnt =? 0 then None
  else
    let delta := if dq_side_suspend_cnt =? DISPATCH_QUEUE_SUSPEND_HALF
      then delta - DISPATCH_QUEUE_HAS_SIDE_SUSPEND_CNT else delta in
    match os_add_overflow old_state delta with
    | None => None
    | Some new_state => Some (new_state, dq_side_suspend_cnt - DISPATCH_QUEUE_SUSPEND_HALF)
    end.

Inductive resume_rmw :=
| ResumeStore (new_state : Z)
| ResumeSlow                   (* to _dispatch_lane_resume_slow *)
| ResumeReturn                 (* already active *)
| ResumeOver.                  (* over-resume *)

(** The first half of [_dispatch_lane_resume]: [activate] is true. *)
Definition _dispatch_lane_resume_activating (old_state : Z) : resume_rmw :=
  if (old_state .& DISPATCH_QUEUE_SUSPEND_BITS_MASK) =? DISPATCH_QUEUE_NEEDS_ACTIVATION + DISPATCH_QUEUE_INACTIVE
  then ResumeStore (add64 (sub64 (sub64 old_state DISPATCH_QUEUE_INACTIVE) DISPATCH_QUEUE_NEEDS_ACTIVATION)
                          DISPATCH_QUEUE_SUSPEND_INTERVAL)
  else if _dq_state_is_inactive old_state then ResumeStore (sub64 old_state DISPATCH_QUEUE_INACTIVE)
  else ResumeReturn.

(** The second half: [activate] is false. *)
Definition _dispatch_lane_resume_plain (width tid : Z) (is_source : bool) (old_state : Z) : resume_rmw :=
  let bits := old_state .& DISPATCH_QUEUE_SUSPEND_BITS_MASK in
  if bits =? DISPATCH_QUEUE_SUSPEND_INTERVAL + DISPATCH_QUEUE_NEEDS_ACTIVATION
  then ResumeStore (sub64 old_state DISPATCH_QUEUE_NEEDS_ACTIVATION)
  else if is_source && (bits =? DISPATCH_QUEUE_NEEDS_ACTIVATION + DISPATCH_QUEUE_INACTIVE)
  then ResumeStore (add64 (sub64 (sub64 old_state DISPATCH_QUEUE_INACTIVE) DISPATCH_QUEUE_NEEDS_ACTIVATION)
                          DISPATCH_QUEUE_SUSPEND_INTERVAL)
  else match os_sub_overflow old_state DISPATCH_QUEUE_SUSPEND_INTERVAL with
  | None => if negb (nz (old_state .& DISPATCH_QUEUE_HAS_SIDE_SUSPEND_CNT)) then ResumeOver else ResumeSlow
  | Some new_state =>
      if negb (_dq_state_is_runnable new_state) then ResumeStore (new_state .| DISPATCH_QUEUE_DIRTY)
      else if _dq_state_drain_locked new_state then ResumeStore (new_state .| DISPATCH_QUEUE_DIRTY)
      else if negb is_source && (_dq_state_has_pending_barrier new_state
              || (add64 new_state (pending_barrier_width width) <? DISPATCH_QUEUE_WIDTH_FULL_BIT))
      then ResumeStore ((new_state .& DISPATCH_QUEUE_DRAIN_PRESERVED_BITS_MASK)
                        .| set_owner_and_set_full_width_and_in_barrier tid)
      else ResumeStore (clear64 (clear64 new_state DISPATCH_QUEUE_DRAIN_UNLOCK_MASK) DISPATCH_QUEUE_MAX_QOS_MASK)
  end.

(** What [_dispatch_lane_resume] does after a store. *)
Inductive resume_action :=
| ActActivate          (* _dispatch_lane_resume_activate *)
| ActReturn            (* still suspended *)
| ActBarrierComplete   (* wakeup with DISPATCH_WAKEUP_BARRIER_COMPLETE *)
| ActRelease           (* not runnable: _dispatch_release_2 *)
| ActWakeup.           (* plain wakeup *)

Definition _dispatch_lane_resume_next (activate : bool) (old_state new_state : Z) : outcome resume_action :=
  if nz (Z.lxor old_state new_state .& DISPATCH_QUEUE_NEEDS_ACTIVATION) then Done ActActivate
  else if activate then
    if negb (_dq_state_is_suspended new_state) then Crash ClientCrash else Done ActReturn
  else if _dq_state_is_suspended new_state then Done ActReturn
  else if nz (Z.lxor old_state new_state .& DISPATCH_QUEUE_IN_BARRIER)
  then if _dq_state_received_sync_wait old_state || _dq_state_in_sync_transfer old_state
       then Crash InternalCrash else Done ActBarrierComplete
  else if negb (_dq_state_is_runnable new_state) then Done ActRelease
  else if _dq_state_received_sync_wait old_state || _dq_state_in_sync_transfer old_state
  then Crash InternalCrash else Done ActWakeup.

(** ** What the updates do to the fields *)

Definition susp (f : fields) : bool := 1 <=? na f + ina f + ssc f + sc f.
(** Not suspended, no barrier running, some width left. *)
Definition runnable (f : fields) : bool := (wd f <? 0x1000) && (ib f =? 0) && negb (susp f).

(** A plain lane: never on the manager, no kernel workloop. *)
Definition plain (f : fields) : Prop := em f = 0 /\ st f = 0 /\ role f < 2.

Lemma is_suspended_susp f : wf f -> _dq_state_is_suspended (word f) = susp f.
Proof. apply is_suspended_word. Qed.

Lemma is_runnable_runnable f : wf f -> _dq_state_is_runnable (word f) = runnable f.
Proof.
  intros Hf. rewrite is_runnable_word by done. unfold runnable, susp. wf_facts.
  apply eq_true_iff_eq. rewrite ?andb_true_iff, ?negb_true_iff, ?Z.leb_gt, ?Z.ltb_lt, ?Z.eqb_eq. lia.
Qed.

Lemma is_enqueued_plain f : wf f -> plain f -> _dq_state_is_enqueued (word f) = (enq f =? 1).
Proof.
  intros Hf (He & _). rewrite is_enqueued_word by done. rewrite He. wf_facts. apply eq_true_iff_eq.
  rewrite Z.leb_le, Z.eqb_eq. lia.
Qed.

Create Rewrite HintDb dqw.
#[export] Hint Rewrite is_suspended_susp is_runnable_runnable is_dirty_word has_pending_barrier_word
  drain_locked_word is_inactive_word max_qos_word is_in_barrier_word or_dirty or_enq clear_dirty clear_enq clear_qos clear_unlock
  and_preserved clear_ib using (auto with dispatch) : dqw.

Lemma add64_word f k g : wf g -> word f + k = word g -> add64 (word f) k = word g.
Proof. intros Hg E. unfold add64. rewrite E. by apply wrap_small, word_range. Qed.
Lemma sub64_word f k g : wf g -> word f - k = word g -> sub64 (word f) k = word g.
Proof. intros Hg E. unfold sub64. rewrite E. by apply wrap_small, word_range. Qed.

(** [2^k] bits of a xor. *)
Lemma nz_land_pow2 x k : 0 <= k -> nz (Z.land x (2 ^ k)) = Z.testbit x k.
Proof.
  intros Hk. rewrite land_pow2 by done. unfold nz. destruct (Z.testbit x k); [|done].
  destruct (Z.eqb_spec (2 ^ k) 0); [lia|done].
Qed.

Lemma nz_xor x y k : 0 <= k ->
  nz (Z.land (Z.lxor x y) (2 ^ k)) = xorb (nz (Z.land x (2 ^ k))) (nz (Z.land y (2 ^ k))).
Proof. intros. rewrite !nz_land_pow2 by done. apply Z.lxor_spec. Qed.

Lemma xor_set_bit x k : 0 <= k < 64 -> 0 <= x < 2 ^ 64 -> nz (Z.land x (2 ^ k)) = true ->
  Z.lxor x (2 ^ k) = clear64 x (2 ^ k).
Proof.
  intros Hk Hx Hb. rewrite nz_land_pow2 in Hb by lia. apply Z.bits_inj'. intros i Hi. unfold clear64.
  rewrite Z.lxor_spec, Z.land_spec, testbit_lnotw by lia. destruct (decide (i = k)) as [->|].
  - rewrite Z.pow2_bits_true, Hb by lia. by rewrite andb_false_r.
  - rewrite Z.pow2_bits_false by lia. destruct (decide (i < 64)).
    + rewrite bool_decide_eq_true_2 by lia. by destruct (Z.testbit x i).
    + by rewrite (testbit_above 64 x i) by lia.
Qed.

Lemma xor_dirty_word f : wf f -> dirty f = 1 -> xor_dirty (word f) = word (set_dirty 0 f).
Proof.
  intros Hf Hd. unfold xor_dirty. change DISPATCH_QUEUE_DIRTY with (2 ^ 39).
  rewrite xor_set_bit; [by apply clear_dirty|lia|by apply word_range|].
  pose proof (is_dirty_word f Hf) as E. rewrite Hd in E. exact E.
Qed.

Lemma xor_enq_word f : wf f -> enq f = 1 -> Z.lxor (word f) DISPATCH_QUEUE_ENQUEUED = word (set_enq 0 f).
Proof.
  intros Hf Hd. change DISPATCH_QUEUE_ENQUEUED with (2 ^ 31).
  rewrite xor_set_bit; [by apply clear_enq|lia|by apply word_range|].
  pose proof (is_enqueued_on_target_word f Hf) as E. rewrite Hd in E. exact E.
Qed.

Lemma xor_ib_word f : wf f -> ib f = 1 -> Z.lxor (word f) DISPATCH_QUEUE_IN_BARRIER = word (set_ib 0 f).
Proof.
  intros Hf Hd. change DISPATCH_QUEUE_IN_BARRIER with (2 ^ 54).
  rewrite xor_set_bit; [by apply clear_ib|lia|by apply word_range|].
  pose proof (is_in_barrier_word f Hf) as E. rewrite Hd in E. exact E.
Qed.

(** The bits in which two words differ. *)
Lemma xor_bit k x y a b : 0 <= k -> 0 <= a < 2 ^ 1 -> 0 <= b < 2 ^ 1 ->
  nz (Z.land x (2 ^ k)) = (a =? 1) -> nz (Z.land y (2 ^ k)) = (b =? 1) ->
  nz (Z.land (Z.lxor x y) (2 ^ k)) = negb (a =? b).
Proof.
  intros Hk Ha Hb E1 E2. rewrite nz_xor, E1, E2 by lia. eval_pow2.
  assert (a = 0 \/ a = 1) as [-> | ->] by lia; assert (b = 0 \/ b = 1) as [-> | ->] by lia; done.
Qed.

Lemma xor_in_barrier f g : wf f -> wf g ->
  nz (Z.land (Z.lxor (word f) (word g)) DISPATCH_QUEUE_IN_BARRIER) = negb (ib f =? ib g).
Proof.
  intros Hf Hg. apply (xor_bit 54); [lia|apply Hf|apply Hg|exact (is_in_barrier_word f Hf)|exact (is_in_barrier_word g Hg)].
Qed.

Lemma xor_enqueued f g : wf f -> wf g ->
  nz (Z.land (Z.lxor (word f) (word g)) DISPATCH_QUEUE_ENQUEUED) = negb (enq f =? enq g).
Proof.
  intros Hf Hg.
  apply (xor_bit 31); [lia|apply Hf|apply Hg|exact (is_enqueued_on_target_word f Hf)|exact (is_enqueued_on_target_word g Hg)].
Qed.

Lemma xor_needs_activation f g : wf f -> wf g ->
  nz (Z.land (Z.lxor (word f) (word g)) DISPATCH_QUEUE_NEEDS_ACTIVATION) = negb (na f =? na g).
Proof.
  intros Hf Hg.
  apply (xor_bit 55); [lia|apply Hf|apply Hg|exact (needs_activation_word f Hf)|exact (needs_activation_word g Hg)].
Qed.
