(* ===== verification/LaneFields.v ===== *)
(** * Field view of the atomic updates of a lane

    For a well-formed word of a plain lane (a queue whose target is an ordinary
    queue), each update of [LaneRmw.v] is computed on the fields.  The concurrent
    model of lanes reasons with these equations only. *)

From S2P Require Import Prelude DqState LaneRmw.

Local Open Scope word_scope.

(** Fields after taking the drain lock with the whole width. *)
Definition f_lock (tid b : Z) (f : fields) : fields :=
  Fields tid 0 (enq f) (qos f) 0 (role f) (em f) 0 0 0x1000 b 0 0 0 0.

Ltac f_unfold :=
  cbn [own st enq qos ov role em dirty pb wd ib na ina ssc sc set_own set_enq set_qos set_ov set_dirty set_pb
       set_wd set_ib set_susp f_unlock f_preserved f_lock] in *.
(** Well-formedness of updates and their side conditions. *)
#[export] Hint Extern 5 (0 <= _ <= _) => lia : dispatch.
#[export] Hint Extern 5 (0 <= _ < _) => lia : dispatch.
Ltac wfa := first [assumption | solve [auto with dispatch] | reflexivity | lia].
(** Linear goals about words of well-formed fields. *)
Ltac word_arith := unfold pending_barrier_width in *; unfold word, DISPATCH_QUEUE_WIDTH_INTERVAL, DISPATCH_QUEUE_IN_BARRIER, DISPATCH_QUEUE_PENDING_BARRIER,
  DISPATCH_QUEUE_WIDTH_FULL_BIT, DISPATCH_QUEUE_ENQUEUED, DLOCK_WAITERS_BIT in *;
  f_unfold; wf_facts; lia.
Ltac wf_lia := split; f_unfold; wf_facts; lia.

Section lane.
Context (width tid : Z).
Hypothesis Hw : 1 <= width <= 0xffe.
Hypothesis Ht : 0 < tid < 2 ^ 30.

Lemma wf_f_lock b f : wf f -> 0 <= b <= 1 -> wf (f_lock tid b f).
Proof using Ht. intros. wf_lia. Qed.

Lemma land_full_bit w : 0 <= w < 2 ^ 13 -> Z.land w 0x1000 = if w <? 0x1000 then 0 else 0x1000.
Proof.
  intros Hx. change 0x1000 with (2 ^ 12) at 1. rewrite land_pow2, testbit_div by lia. eval_pow2.
  destruct (Z.ltb_spec w 4096); case_bool_decide; Z.div_mod_to_equations; lia.
Qed.

(** The test of [lock_fail_mask]. *)
Lemma lock_free f : wf f -> plain f ->
  ((word f .& lock_fail_mask InvokePlain) =? 0) = (own f =? 0) && runnable f.
Proof.
  intros Hf (He & Hs & Hr).
  replace (word f .& lock_fail_mask InvokePlain)
    with (word (Fields (own f) 0 0 0 0 0 (em f) 0 0 (Z.land (wd f) 0x1000) (ib f) (na f) (ina f) (ssc f) (sc f)))
    by (symmetry; mask_tac).
  pose proof (wf_wd f Hf). rewrite land_full_bit by done. unfold runnable, susp.
  unfold word; fields_cbn. wf_facts. apply eq_true_iff_eq.
  rewrite !andb_true_iff, negb_true_iff, ?Z.eqb_eq, ?Z.leb_gt, ?Z.ltb_lt. destruct (Z.ltb_spec (wd f) 4096); lia.
Qed.

Lemma add_pending f : wf f -> runnable f = true ->
  (add64 (word f) (pending_barrier_width width) <? DISPATCH_QUEUE_WIDTH_FULL_BIT) = (wd f + width <=? 0x1000).
Proof using Hw.
  intros Hf Hr. unfold runnable in Hr. rewrite !andb_true_iff, negb_true_iff in Hr. destruct Hr as [[Hr1 Hr2] Hr3].
  reflect_bools. unfold susp in *. reflect_bools.
  rewrite (add64_word f _ (set_wd (wd f + width - 1) f)) by (first [wf_lia|word_arith]).
  apply eq_true_iff_eq. rewrite Z.leb_le, Z.ltb_lt. word_arith.
Qed.

Lemma or_owner_full f : wf f -> own f = 0 -> wd f = 0 ->
  word f .| (_dispatch_lock_value_from_tid tid .| DISPATCH_QUEUE_WIDTH_FULL_BIT) = word (set_own tid (set_wd 0x1000 f)).
Proof using Ht.
  intros Hf Ho H0. rewrite lock_value_small by lia. rewrite Z.lor_assoc, or_owner by (done || lia).
  apply word_or_mask; [apply wf_set_own; [done|lia]|vm_compute; split; congruence|].
  change (fields_of DISPATCH_QUEUE_WIDTH_FULL_BIT) with (Fields 0 0 0 0 0 0 0 0 0 0x1000 0 0 0 0 0).
  unfold fmap2; fields_unfold. by rewrite H0, !Z.lor_0_r.
Qed.

Lemma or_ib f : wf f -> word f .| DISPATCH_QUEUE_IN_BARRIER = word (set_ib 1 f).
Proof. intros Hf. mask_tac. Qed.

(** *** Locking *)

Definition takes_barrier (f : fields) : bool := (pb f =? 1) || (wd f + width <=? 0x1000).

Lemma try_lock_spec floor f : wf f -> plain f -> enq f = 1 ->
  _dispatch_queue_drain_try_lock width tid InvokePlain floor (word f) =
  if (own f =? 0) && runnable f then
    if _dq_state_needs_lock_override (word f) floor then Done (TryLockOverride (qos f))
    else let b := Z.b2z (takes_barrier f) in
      Done (TryLock (word (f_lock tid b f))
              (b * DISPATCH_QUEUE_IN_BARRIER + (0x1000 - wd f) * DISPATCH_QUEUE_WIDTH_INTERVAL + DISPATCH_QUEUE_ENQUEUED))
  else Done (TryLock (word (set_enq 0 f)) 0).
Proof using Hw Ht.
  intros Hf Hp He. unfold _dispatch_queue_drain_try_lock. rewrite lock_free by done.
  assert (((word f .& dequeue_mask InvokePlain) =? dequeue_mask InvokePlain) = true) as ->.
  { apply Z.eqb_eq. unfold dequeue_mask. change DISPATCH_QUEUE_ENQUEUED with (2 ^ 31). rewrite land_pow2 by lia.
    rewrite <- nz_land_pow2 by lia. pose proof (is_enqueued_on_target_word f Hf) as E. rewrite He in E.
    unfold _dq_state_is_enqueued_on_target in E. change DISPATCH_QUEUE_ENQUEUED with (2 ^ 31) in E. by rewrite E. }
  destruct ((own f =? 0) && runnable f) eqn:Hfree; cbn [andb].
  - rewrite max_qos_word by done. destruct (_dq_state_needs_lock_override _ _); [done|].
    apply andb_true_iff in Hfree as [Ho Hr]. reflect_bools.
    rewrite and_preserved by done. rewrite or_owner_full by (auto with dispatch; done).
    rewrite has_pending_barrier_word, add_pending by done. fold (takes_barrier f). cbv zeta.
    replace (if takes_barrier f then _ else _) with (word (f_lock tid (Z.b2z (takes_barrier f)) f)).
    2: { destruct (takes_barrier f); [rewrite or_ib by (auto with dispatch lia; wf_lia)|]; reflexivity. }
    set (b := Z.b2z (takes_barrier f)). assert (0 <= b <= 1) by (subst b; destruct (takes_barrier f); simpl; lia).
    clearbody b. do 2 f_equal. pose proof (wf_f_lock b f Hf ltac:(lia)) as Hl.
    assert (word (f_lock tid b f) .& (DISPATCH_QUEUE_IN_BARRIER .| DISPATCH_QUEUE_WIDTH_FULL_BIT .| dequeue_mask InvokePlain)
      = word (Fields 0 0 1 0 0 0 0 0 0 0x1000 b 0 0 0 0)) as ->.
    { apply word_and_mask; [done|vm_compute; split; congruence|].
      change (fields_of _) with (Fields 0 0 1 0 0 0 0 0 0 0x1000 1 0 0 0 0).
      unfold fmap2, f_lock; fields_unfold. rewrite !Z.land_0_r, He. f_equal.
      assert (b = 0 \/ b = 1) as [-> | ->] by lia; done. }
    rewrite width_bits_word by done. unfold sub64. rewrite wrap_small.
    + word_arith.
    + unfold runnable in Hr. rewrite !andb_true_iff in Hr. destruct Hr as [[Hr1 _] _]. reflect_bools.
      word_arith.
  - change (nz (dequeue_mask InvokePlain)) with true. cbv iota. unfold dequeue_mask. by rewrite xor_enq_word.
Qed.

Lemma try_unlock_spec owned done f g : wf f -> wf g -> word f - owned = word g ->
  _dispatch_queue_drain_try_unlock owned done (word f) =
  if susp f then Some (word (f_unlock g)) else if dirty f =? 1 then None
  else if done then Some (word (set_qos 0 (f_unlock g))) else Some (word (set_dirty 1 (f_unlock g))).
Proof.
  intros Hf Hg E. unfold _dispatch_queue_drain_try_unlock. rewrite (sub64_word f owned g) by done.
  by autorewrite with dqw.
Qed.

(** *** Width *)

Lemma or_role f r : wf f -> role f = 0 -> 0 <= r < 4 ->
  word f .| word (Fields 0 0 0 0 0 r 0 0 0 0 0 0 0 0 0)
  = word (Fields (own f) (st f) (enq f) (qos f) (ov f) r (em f) (dirty f) (pb f) (wd f) (ib f) (na f) (ina f) (ssc f) (sc f)).
Proof.
  intros Hf Hr Hr'. rewrite word_lor; [|done|wf_lia].
  unfold fmap2; fields_unfold. by rewrite Hr, !Z.lor_0_r, Z.lor_0_l.
Qed.

(** The fields of an idle lane. *)
Definition idle_fields (r : Z) : fields := Fields 0 0 0 0 0 r 0 0 0 (0x1000 - width) 0 0 0 0 0.

Lemma init_value : DISPATCH_QUEUE_STATE_INIT_VALUE width = word (idle_fields 0).
Proof using Hw.
  unfold DISPATCH_QUEUE_STATE_INIT_VALUE, DISPATCH_QUEUE_WIDTH_FULL, DISPATCH_QUEUE_WIDTH_SHIFT.
  rewrite Z.shiftl_mul_pow2 by lia. unfold idle_fields, word; fields_cbn. rewrite wrap_small; lia.
Qed.

Lemma role_bits f : wf f -> word f .& DISPATCH_QUEUE_ROLE_MASK = word (Fields 0 0 0 0 0 (role f) 0 0 0 0 0 0 0 0 0).
Proof. intros Hf. mask_tac. Qed.

(** Only the word of an idle lane is taken, and it becomes a locked barrier. *)
Lemma barrier_sync_spec f new : wf f ->
  _dispatch_queue_try_acquire_barrier_sync width tid (word f) = Some new ->
  f = idle_fields (role f) /\ new = word (f_lock tid 1 f).
Proof using Hw Ht.
  intros Hf. unfold _dispatch_queue_try_acquire_barrier_sync, _dispatch_queue_try_acquire_barrier_sync_and_suspend.
  rewrite role_bits, init_value by done. pose proof (wf_role f Hf).
  rewrite or_role by (unfold idle_fields; first [wf_lia | fields_cbn; eval_pow2; lia]).
  destruct (Z.eqb_spec (word f) (word (Fields (own (idle_fields 0)) (st (idle_fields 0)) (enq (idle_fields 0)) (qos (idle_fields 0))
    (ov (idle_fields 0)) (role f) (em (idle_fields 0)) (dirty (idle_fields 0)) (pb (idle_fields 0)) (wd (idle_fields 0))
    (ib (idle_fields 0)) (na (idle_fields 0)) (ina (idle_fields 0)) (ssc (idle_fields 0)) (sc (idle_fields 0))))) as [E|];
    cbn [negb]; [|done]. intros [= <-].
  apply word_inj in E; [|done|unfold idle_fields; fields_cbn; split; fields_cbn; eval_pow2; lia].
  split; [exact E|]. rewrite lock_value_small by lia. change (u64 (0 * _)) with 0. rewrite Z.lor_0_r.
  assert (DISPATCH_QUEUE_WIDTH_FULL_BIT .| DISPATCH_QUEUE_IN_BARRIER .| tid
    = word (Fields tid 0 0 0 0 0 0 0 0 0x1000 1 0 0 0 0)) as ->.
  { change (DISPATCH_QUEUE_WIDTH_FULL_BIT .| DISPATCH_QUEUE_IN_BARRIER) with (word (Fields 0 0 0 0 0 0 0 0 0 0x1000 1 0 0 0 0)).
    rewrite or_owner by (first [wf_lia | done | lia]). done. }
  rewrite or_role by (first [wf_lia | done | eval_pow2; lia]). f_equal. rewrite E. unfold f_lock, idle_fields. reflexivity.
Qed.

Lemma add_width f : wf f -> wd f < 0x1fff ->
  add64 (word f) DISPATCH_QUEUE_WIDTH_INTERVAL = word (set_wd (wd f + 1) f).
Proof. intros Hf Hlt. apply add64_word; [wf_lia|word_arith]. Qed.

Lemma reserve_sync_spec f : wf f -> wd f < 0x1fff -> _dispatch_queue_reserve_sync_width (word f) = word (set_wd (wd f + 1) f).
Proof. apply add_width. Qed.

Lemma try_reserve_sync_spec f : wf f ->
  _dispatch_queue_try_reserve_sync_width (word f) =
  if (ib f =? 0) && negb (susp f) && (dirty f =? 0) && (pb f =? 0)
  then Some (add64 (word f) DISPATCH_QUEUE_WIDTH_INTERVAL) else None.
Proof.
  intros Hf. unfold _dispatch_queue_try_reserve_sync_width.
  rewrite is_sync_runnable_word, is_dirty_word, has_pending_barrier_word by done.
  assert (forall b c : bool, b = negb c -> forall A (x y : A), (if b then x else y) = if c then y else x) as Hif
    by (intros [] []; done).
  apply Hif. unfold susp. wf_facts. apply eq_true_iff_eq.
  rewrite ?negb_andb, ?orb_true_iff, ?negb_true_iff, ?negb_false_iff, ?Z.eqb_eq, ?Z.eqb_neq, ?Z.leb_le, ?Z.leb_gt. lia.
Qed.

Lemma try_async_spec f : wf f ->
  _dispatch_queue_try_acquire_async (word f) =
  if runnable f && (dirty f =? 0) && (pb f =? 0) then Some (word (set_wd (wd f + 1) f)) else None.
Proof.
  intros Hf. unfold _dispatch_queue_try_acquire_async.
  rewrite is_runnable_runnable, is_dirty_word, has_pending_barrier_word by done.
  destruct (runnable f) eqn:Hr; [|done]. cbn [negb andb orb].
  assert (wd f < 0x1000) by (unfold runnable in Hr; rewrite !andb_true_iff in Hr; destruct Hr as [[Hr _] _]; by apply Z.ltb_lt).
  rewrite add_width by (done || lia). wf_facts.
  destruct (Z.eqb_spec (dirty f) 1), (Z.eqb_spec (dirty f) 0); try lia; cbn [andb orb]; [done|].
  destruct (Z.eqb_spec (pb f) 1), (Z.eqb_spec (pb f) 0); try lia; done.
Qed.

(** With [n] intervals given back and no pending barrier yet. *)
Lemma upgrade_spec n f : wf f -> pb f = 0 -> ib f = 0 -> 0 <= n <= wd f -> wd f - n + width <= 0x2000 ->
  let g := set_pb 1 (set_wd (wd f - n + width - 1) f) in
  _dispatch_queue_try_upgrade_full_width width (n * DISPATCH_QUEUE_WIDTH_INTERVAL) (word f) =
  if runnable g then (word (set_dirty 0 (set_ib 1 (set_wd (wd f - n + width) f))), true)
  else (word (set_dirty 0 g), false).
Proof using Hw.
  intros Hf Hpb Hib Hn Hlim g. unfold _dispatch_queue_try_upgrade_full_width.
  rewrite has_pending_barrier_word, Hpb by done. change (0 =? 1) with false. cbv iota.
  assert (wf g) as Hg by (subst g; wf_lia).
  rewrite (sub64_word f _ (set_wd (wd f - n) f)) by (first [wf_lia|word_arith]).
  rewrite (add64_word _ _ g) by (first [done|subst g; word_arith]).
  rewrite is_runnable_runnable by done. destruct (runnable g) eqn:Hr.
  - unfold runnable in Hr. rewrite !andb_true_iff in Hr. destruct Hr as [[Hr _] _]. reflect_bools. subst g; f_unfold.
    rewrite (add64_word _ _ (set_pb 1 (set_wd (wd f - n + width) f))) by (first [wf_lia|word_arith]).
    rewrite (add64_word _ _ (set_pb 1 (set_ib 1 (set_wd (wd f - n + width) f)))) by (first [wf_lia|word_arith]).
    rewrite (sub64_word _ _ (set_ib 1 (set_wd (wd f - n + width) f))) by (first [wf_lia|word_arith]).
    rewrite clear_dirty, is_in_barrier_word by wf_lia. done.
  - rewrite clear_dirty, is_in_barrier_word by auto with dispatch lia. f_equal. subst g. f_unfold. by rewrite Hib.
Qed.

(** A second attempt, with the reservation in place. *)
Lemma upgrade_pending_spec f : wf f -> pb f = 1 -> ib f = 0 ->
  _dispatch_queue_try_upgrade_full_width width (0 * DISPATCH_QUEUE_WIDTH_INTERVAL) (word f) =
  if runnable f then (word (set_dirty 0 (set_ib 1 (set_pb 0 (set_wd (wd f + 1) f)))), true)
  else (word (set_dirty 0 f), false).
Proof.
  intros Hf Hpb Hib. unfold _dispatch_queue_try_upgrade_full_width.
  rewrite has_pending_barrier_word, Hpb by done. change (1 =? 1) with true. cbv iota.
  rewrite (sub64_word f _ f) by (done || lia). rewrite is_runnable_runnable by done. destruct (runnable f) eqn:Hr.
  - unfold runnable in Hr. rewrite !andb_true_iff in Hr. destruct Hr as [[Hr _] _]. reflect_bools.
    rewrite (add64_word _ _ (set_wd (wd f + 1) f)) by (first [wf_lia|word_arith]).
    rewrite (add64_word _ _ (set_ib 1 (set_wd (wd f + 1) f))) by (first [wf_lia|word_arith]).
    rewrite (sub64_word _ _ (set_pb 0 (set_ib 1 (set_wd (wd f + 1) f)))) by (first [wf_lia|word_arith]).
    rewrite clear_dirty, is_in_barrier_word by wf_lia. done.
  - rewrite clear_dirty, is_in_barrier_word by auto with dispatch. f_unfold. by rewrite Hib.
Qed.

(** *** Completion *)

(** The word after the last holder took the whole width. *)
Definition f_take (g : fields) : fields := set_own tid (set_dirty 0 (set_ib 1 (set_pb 0 (set_wd 0x1000 g)))).

Lemma wf_f_take g : wf g -> wf (f_take g).
Proof using Ht. intros. unfold f_take. auto 6 with dispatch lia. Qed.

Definition full_after (g : fields) : Z := if pb g =? 1 then wd g + 1 else wd g + width.

Lemma complete_try_lock_spec f g : wf f -> wf g -> ib g = 0 -> own g = 0 -> full_after g < 0x2000 ->
  _dispatch_lane_non_barrier_complete_try_lock width (word f) (word g) (_dispatch_lock_value_from_tid tid) =
  if full_after g =? 0x1000 then word (f_take g) else if dirty f =? 1 then word (set_enq 1 g) else word g.
Proof using Hw Ht.
  intros Hf Hg Hi Ho Hlim. unfold _dispatch_lane_non_barrier_complete_try_lock, full_after in *.
  rewrite has_pending_barrier_word by done.
  replace (if pb g =? 1 then _ else _) with (word (set_ib 1 (set_pb 0 (set_wd (if pb g =? 1 then wd g + 1 else wd g + width) g)))).
  2: { pose proof (wf_wd g Hg). pose proof (wf_pb g Hg). destruct (Z.eqb_spec (pb g) 1).
       - rewrite (sub64_word _ _ (set_pb 0 g)) by (first [wf_lia|word_arith]).
         rewrite (add64_word _ _ (set_pb 0 (set_wd (wd g + 1) g))) by (first [wf_lia|word_arith]).
         by rewrite (add64_word _ _ (set_ib 1 (set_pb 0 (set_wd (wd g + 1) g)))) by (first [wf_lia|word_arith]).
       - rewrite (add64_word _ _ (set_wd (wd g + width) g)) by (first [wf_lia|word_arith]).
         by rewrite (add64_word _ _ (set_ib 1 (set_pb 0 (set_wd (wd g + width) g)))) by (first [wf_lia|word_arith]). }
  set (x := if pb g =? 1 then wd g + 1 else wd g + width) in *.
  assert (wf (set_ib 1 (set_pb 0 (set_wd x g)))) as Hx.
  { pose proof (wf_wd g Hg). assert (0 <= x) by (subst x; destruct (pb g =? 1); lia). clearbody x. wf_lia. }
  rewrite width_bits_word by done. cbn [wd set_ib set_pb set_wd].
  replace (x * DISPATCH_QUEUE_WIDTH_INTERVAL =? DISPATCH_QUEUE_WIDTH_FULL_BIT) with (x =? 0x1000).
  2: { apply eq_true_iff_eq. rewrite !Z.eqb_eq. unfold DISPATCH_QUEUE_WIDTH_INTERVAL, DISPATCH_QUEUE_WIDTH_FULL_BIT. lia. }
  destruct (Z.eqb_spec x 0x1000) as [->|].
  - rewrite clear_dirty by done. rewrite lock_value_small, or_owner by wfa. done.
  - rewrite is_dirty_word, or_enq by done. done.
Qed.

Lemma non_barrier_complete_spec f : wf f -> ib f = 0 -> 1 <= wd f ->
  (own f = 0 -> full_after (set_wd (wd f - 1) f) < 0x2000) ->
  let g := set_wd (wd f - 1) f in
  _dispatch_lane_non_barrier_complete width tid (word f) =
  if negb (own f =? 0) then word (set_dirty 1 g)
  else if runnable g then
    if full_after g =? 0x1000 then word (f_take g) else if dirty f =? 1 then word (set_enq 1 g) else word g
  else word g.
Proof using Hw Ht.
  intros Hf Hi H1 Hlim g. unfold _dispatch_lane_non_barrier_complete.
  assert (wf g) as Hg by (subst g; wf_lia).
  rewrite (sub64_word f _ g) by (first [done | subst g; word_arith]).
  rewrite drain_locked_word, is_runnable_runnable, or_dirty by done.
  destruct (Z.eqb_spec (own f) 0) as [E|]; [|done]. specialize (Hlim E). destruct (runnable g); [|done].
  by rewrite complete_try_lock_spec by (done || lia).
Qed.

Lemma finish_spec f g : wf f -> wf g ->
  _dispatch_lane_non_barrier_complete_finish (word f) (word g) =
  if negb (ib f =? ib g) then CompleteBarrier else if negb (enq f =? enq g) then CompletePush else CompleteNothing.
Proof. intros. unfold _dispatch_lane_non_barrier_complete_finish. by rewrite xor_in_barrier, xor_enqueued. Qed.

Lemma barrier_sync_unlock_spec f : wf f -> ib f = 1 -> 1 <= wd f ->
  _dispatch_lane_barrier_sync_unlock (word f) =
  if susp f || (enq f =? 1) || (dirty f =? 1) || (ov f =? 1) || (st f =? 1) then None
  else Some (word (set_qos 0 (f_unlock (set_ib 0 (set_wd (wd f - 1) f))))).
Proof.
  intros Hf Hi H1. unfold _dispatch_lane_barrier_sync_unlock.
  rewrite (sub64_word f _ (set_ib 0 (set_wd (wd f - 1) f))).
  2: wf_lia. 2: { change DISPATCH_QUEUE_SERIAL_DRAIN_OWNED with (DISPATCH_QUEUE_IN_BARRIER + DISPATCH_QUEUE_WIDTH_INTERVAL). word_arith. }
  rewrite clear_unlock, clear_qos by (first [wf_lia | apply wf_unlock; wf_lia]).
  replace (word f .& fail_unlock_mask)
    with (word (Fields 0 (st f) (enq f) 0 (ov f) 0 0 (dirty f) 0 0 0 (na f) (ina f) (ssc f) (sc f))) by (symmetry; mask_tac).
  replace (nz _) with (susp f || (enq f =? 1) || (dirty f =? 1) || (ov f =? 1) || (st f =? 1)); [done|].
  unfold nz, word, susp; fields_cbn. wf_facts. apply eq_true_iff_eq.
  rewrite ?orb_true_iff, ?negb_true_iff, ?Z.eqb_eq, ?Z.eqb_neq, ?Z.leb_le. lia.
Qed.

Lemma drain_barrier_waiter_spec next e nd f : wf f -> plain f -> 0 < next < 2 ^ 30 -> 0 <= e <= enq f ->
  _dispatch_lane_drain_barrier_waiter (_dispatch_lock_value_from_tid next) (e * DISPATCH_QUEUE_ENQUEUED) nd (word f) =
  Some (word (set_own next (set_dirty 0 (f_unlock (set_enq (enq f - e) f))))).
Proof.
  intros Hf (He & Hs & Hr) Hn Hee. unfold _dispatch_lane_drain_barrier_waiter. pose proof (wf_enq f Hf).
  rewrite clear_unlock, clear_dirty, lock_value_small by (auto with dispatch; lia).
  rewrite or_owner by (first [apply wf_set_dirty; [by apply wf_unlock|lia] | done | lia]).
  rewrite not_base_wlh_word by (done || lia). f_equal. apply sub64_word; [wf_lia|word_arith].
Qed.

Lemma class_barrier_complete_spec q (target : bool) owned f g :
  wf f -> wf g -> plain f -> word f - owned = word g -> 0 <= q < 8 ->
  exists q', 0 <= q' < 8 /\
  _dispatch_lane_class_barrier_complete q (if target then DISPATCH_QUEUE_ENQUEUED else 0) owned (word f) =
  if susp f then Some (word (f_unlock (set_qos q' g)))
  else if target then Some (word (set_enq (if enq f =? 1 then enq g else 1) (f_unlock (set_qos q' g))))
  else if dirty f =? 1 then None else Some (word (set_qos 0 (f_unlock g))).
Proof.
  intros Hf Hg Hp E Hq. unfold _dispatch_lane_class_barrier_complete.
  rewrite (sub64_word f owned g) by done. destruct (merge_qos_word g q Hg Hq) as (q' & o & Hq' & Ho & ->).
  exists q'. split; [done|].
  rewrite clear_unlock by auto with dispatch. change (f_unlock (set_qos q' (set_ov o g))) with (f_unlock (set_qos q' g)).
  rewrite is_suspended_susp, is_dirty_word, is_enqueued_plain, not_base_wlh_word by (done || apply Hp).
  destruct (susp f); [done|]. destruct target.
  - change (nz DISPATCH_QUEUE_ENQUEUED) with true. cbv iota. rewrite or_enq by auto with dispatch.
    destruct (enq f =? 1); done.
  - change (nz 0) with false. cbv iota. by rewrite clear_qos by auto with dispatch.
Qed.

Lemma drain_non_barriers_unlock_spec owned (dc : bool) f g : wf f -> wf g -> sub64 (word f) owned = word g ->
  ib g = 0 -> full_after g < 0x2000 ->
  _dispatch_lane_drain_non_barriers_unlock width tid owned dc (word f) =
  if dc then
    let h := set_dirty 1 (f_unlock g) in
    Some (if full_after g =? 0x1000 then word (f_take h) else if dirty f =? 1 then word (set_enq 1 h) else word h)
  else if dirty f =? 1 then None else Some (word (set_dirty 0 (f_unlock g))).
Proof using Hw Ht.
  intros Hf Hg E Hi Hlim. unfold _dispatch_lane_drain_non_barriers_unlock. rewrite E.
  rewrite clear_unlock, clear_dirty, or_dirty, is_dirty_word by auto with dispatch.
  change (set_dirty 1 (set_dirty 0 (f_unlock g))) with (set_dirty 1 (f_unlock g)).
  rewrite complete_try_lock_spec by wfa. done.
Qed.

Lemma invoke_finish_spec owned f g : wf f -> wf g -> plain g -> sub64 (word f) owned = word g ->
  let h := set_dirty 1 (f_unlock g) in
  _dispatch_queue_invoke_finish owned DISPATCH_QUEUE_ENQUEUED (word f) =
  word (set_enq (if runnable g then 1 else enq g) h).
Proof.
  clear Hw Ht. intros Hf Hg Hp E h. unfold _dispatch_queue_invoke_finish. rewrite E.
  assert (wf h) as Hh by (apply wf_set_dirty; [by apply wf_unlock|lia]).
  rewrite clear_unlock, or_dirty by auto with dispatch. fold h.
  rewrite is_runnable_runnable, is_enqueued_plain by (first [done | unfold h, plain in *; fields_cbn; tauto || lia]).
  change (runnable h) with (runnable g). change (enq h) with (enq g).
  destruct (runnable g); [|done]. pose proof (wf_enq g Hg).
  destruct (Z.eqb_spec (enq g) 1) as [E1|]; cbn [andb negb]; [|by rewrite or_enq].
  f_equal. unfold h; fields_unfold. by rewrite E1.
Qed.

(** *** Wakeups *)

Lemma wakeup_spec q (make_dirty : bool) f : wf f -> plain f -> 0 <= q < 8 ->
  exists q' o, 0 <= q' < 8 /\ 0 <= o <= 1 /\
  let g := set_qos q' (set_ov o f) in
  let h := if negb (susp f) && (enq f =? 0) && (own f =? 0) then set_enq 1 g else g in
  _dispatch_queue_wakeup q DISPATCH_QUEUE_ENQUEUED make_dirty (word f) =
  if make_dirty then Some (word (set_dirty 1 h)) else if word h =? word f then None else Some (word h).
Proof.
  intros Hf Hp Hq. unfold _dispatch_queue_wakeup. destruct (merge_qos_word f q Hf Hq) as (q' & o & Hq' & Ho & ->).
  exists q', o. split; [done|]. split; [done|]. cbv zeta.
  rewrite is_suspended_susp, is_enqueued_plain, drain_locked_word, not_base_wlh_word by (done || apply Hp).
  rewrite andb_false_r, orb_false_r, negb_involutive, or_enq by auto with dispatch.
  replace (negb (enq f =? 1)) with (enq f =? 0) by (wf_facts; destruct (Z.eqb_spec (enq f) 0), (Z.eqb_spec (enq f) 1); lia || done).
  destruct (_ && _); [rewrite or_dirty by auto 6 with dispatch lia|rewrite or_dirty by auto with dispatch]; done.
Qed.

Lemma push_waiter_spec q f : wf f -> plain f -> 0 <= q < 8 ->
  exists q' o, 0 <= q' < 8 /\ 0 <= o <= 1 /\
  let g := set_dirty 1 (set_qos q' (set_ov o f)) in
  _dispatch_lane_push_waiter width tid q (word f) =
  if (own f =? 0) && runnable f && takes_barrier f then word (f_lock tid 1 g) else word g.
Proof using Hw Ht.
  intros Hf Hp Hq. unfold _dispatch_lane_push_waiter. destruct (merge_qos_word f q Hf Hq) as (q' & o & Hq' & Ho & ->).
  exists q', o. split; [done|]. split; [done|]. cbv zeta.
  set (g := set_dirty 1 (set_qos q' (set_ov o f))).
  assert (wf g) as Hg by (unfold g; auto with dispatch lia).
  rewrite or_dirty by auto with dispatch. fold g.
  rewrite drain_locked_word, is_runnable_runnable, not_base_wlh_word, has_pending_barrier_word by (done || apply Hp).
  destruct (Z.eqb_spec (own f) 0); [|done]. destruct (runnable f) eqn:Hr; [|done]. cbn [negb orb andb].
  rewrite (add_pending g) by done. fold (takes_barrier g). change (wd g) with (wd f).
  fold (takes_barrier f). destruct (takes_barrier f); [|done].
  unfold set_owner_and_set_full_width_and_in_barrier. rewrite and_preserved by done.
  rewrite Z.lor_assoc, or_owner_full by wfa.
  rewrite or_ib by wf_lia. done.
Qed.

(** Reading the result of the lock back. *)
Lemma owned_decode b n : 0 <= b <= 1 -> 0 <= n < 0x2000 ->
  let o := b * DISPATCH_QUEUE_IN_BARRIER + n * DISPATCH_QUEUE_WIDTH_INTERVAL + DISPATCH_QUEUE_ENQUEUED in
  o <> 0 /\ _dq_state_is_in_barrier o = (b =? 1) /\
  Z.shiftr (Z.land o DISPATCH_QUEUE_WIDTH_MASK) DISPATCH_QUEUE_WIDTH_SHIFT = n.
Proof.
  intros Hb Hn o. assert (wf (Fields 0 0 1 0 0 0 0 0 0 n b 0 0 0 0)) as Hf by wf_lia.
  assert (o = word (Fields 0 0 1 0 0 0 0 0 0 n b 0 0 0 0)) as Eo by (subst o; word_arith).
  split; [rewrite Eo; word_arith|]. rewrite Eo. split; [by apply is_in_barrier_word|].
  rewrite width_bits_word by done. cbn [wd]. unfold DISPATCH_QUEUE_WIDTH_SHIFT, DISPATCH_QUEUE_WIDTH_INTERVAL.
  rewrite Z.shiftr_div_pow2 by lia. apply Z.div_mul. lia.
Qed.

(** [owned] with the ENQUEUED bit, after the adjustment for a pending barrier. *)
Lemma adjusted_owned o t a : o = 2 ^ 40 * t ->
  sub64 a (Z.lor DISPATCH_QUEUE_ENQUEUED (u64 o)) = u64 (a - (o + DISPATCH_QUEUE_ENQUEUED)).
Proof.
  intros ->. assert (u64 (2 ^ 40 * t) = 2 ^ 32 * (2 ^ 8 * (t mod 2 ^ 24))) as E.
  { unfold wrap. change (2 ^ 64) with (2 ^ 40 * 2 ^ 24). rewrite Z.mul_mod_distr_l by lia. lia. }
  assert (Z.lor DISPATCH_QUEUE_ENQUEUED (u64 (2 ^ 40 * t)) = DISPATCH_QUEUE_ENQUEUED + u64 (2 ^ 40 * t)) as ->.
  { rewrite E. rewrite (horner_lor 32) by (unfold DISPATCH_QUEUE_ENQUEUED, DLOCK_WAITERS_BIT; lia).
    by rewrite Z.shiftl_mul_pow2, Z.mul_comm by lia. }
  unfold sub64, wrap. pose proof (Z.div_mod (2 ^ 40 * t) (2 ^ 64)) as Ed.
  replace (a - (DISPATCH_QUEUE_ENQUEUED + (2 ^ 40 * t) mod 2 ^ 64))
    with (a - (2 ^ 40 * t + DISPATCH_QUEUE_ENQUEUED) + (2 ^ 40 * t / 2 ^ 64) * 2 ^ 64) by lia.
  apply Z_mod_plus_full.
Qed.

(** *** Suspension *)

Definition set_sc (c : Z) (f : fields) : fields := set_susp (na f) (ina f) (ssc f) c f.

Lemma suspend_spec f : wf f ->
  _dispatch_lane_suspend (word f) = if sc f <? 63 then Some (word (set_sc (sc f + 1) f)) else None.
Proof.
  intros Hf. unfold _dispatch_lane_suspend, os_add_overflow, DISPATCH_QUEUE_SUSPEND_INTERVAL, set_sc.
  pose proof (word_range f Hf). destruct (Z.ltb_spec (sc f) 63), (Z.ltb_spec (word f + 0x400000000000000) (2 ^ 64)); try done.
  - f_equal. word_arith.
  - exfalso. word_arith.
  - exfalso. word_arith.
Qed.

Lemma suspend_bits_eq f k n i s c : wf f -> 0 <= n <= 1 -> 0 <= i <= 1 -> 0 <= s <= 1 -> 0 <= c < 64 ->
  k = 2 ^ 55 * (n + 2 * i + 4 * s + 8 * c) ->
  ((word f .& DISPATCH_QUEUE_SUSPEND_BITS_MASK) =? k) = (na f =? n) && (ina f =? i) && (ssc f =? s) && (sc f =? c).
Proof.
  intros Hf Hn Hi Hs Hc ->. rewrite suspend_bits_word by done. wf_facts.
  apply eq_true_iff_eq. rewrite !andb_true_iff, !Z.eqb_eq. lia.
Qed.

Lemma resume_activating_spec f : wf f -> na f = 1 \/ ina f = 0 ->
  _dispatch_lane_resume_activating (word f) =
  if ina f =? 1 then
    if (ssc f =? 0) && (sc f =? 0) then ResumeStore (word (set_susp 0 0 0 1 f))
    else ResumeStore (word (set_susp (na f) 0 (ssc f) (sc f) f))
  else ResumeReturn.
Proof.
  intros Hf Hna. unfold _dispatch_lane_resume_activating.
  rewrite (suspend_bits_eq f _ 1 1 0 0) by (done || lia). rewrite is_inactive_word by done.
  pose proof (wf_ina f Hf). destruct (Z.eqb_spec (ina f) 1) as [E|]; [|by rewrite andb_false_r].
  destruct Hna as [Hna|]; [|lia]. rewrite Hna. change (1 =? 1) with true. cbn [andb].
  destruct (Z.eqb_spec (ssc f) 0), (Z.eqb_spec (sc f) 0); cbn [andb]; f_equal;
    unfold DISPATCH_QUEUE_INACTIVE, DISPATCH_QUEUE_NEEDS_ACTIVATION, DISPATCH_QUEUE_SUSPEND_INTERVAL.
  1: rewrite (sub64_word f _ (set_susp (na f) 0 (ssc f) (sc f) f)) by (first [wf_lia|word_arith]);
     rewrite (sub64_word _ _ (set_susp 0 0 (ssc f) (sc f) f)) by (first [wf_lia|word_arith]);
     apply add64_word; [wf_lia|word_arith].
  all: apply sub64_word; [wf_lia|word_arith].
Qed.

(** A resume that does not activate. *)
Lemma resume_plain_spec (is_source : bool) f : wf f ->
  _dispatch_lane_resume_plain width tid is_source (word f) =
  if (na f =? 1) && (ina f =? 0) && (ssc f =? 0) && (sc f =? 1) then ResumeStore (word (set_susp 0 0 0 1 f))
  else if is_source && ((na f =? 1) && (ina f =? 1) && (ssc f =? 0) && (sc f =? 0))
  then ResumeStore (word (set_susp 0 0 0 1 f))
  else if sc f =? 0 then (if ssc f =? 1 then ResumeSlow else ResumeOver)
  else
    let g := set_sc (sc f - 1) f in
    if negb (runnable g) || negb (own g =? 0) then ResumeStore (word (set_dirty 1 g))
    else if negb is_source && takes_barrier g then ResumeStore (word (f_lock tid 1 g))
    else ResumeStore (word (set_qos 0 (f_unlock g))).
Proof using Hw Ht.
  intros Hf. unfold _dispatch_lane_resume_plain.
  rewrite (suspend_bits_eq f _ 1 0 0 1), (suspend_bits_eq f _ 1 1 0 0) by (done || lia).
  destruct (_ && (sc f =? 1)) eqn:Hbits.
  { rewrite !andb_true_iff in Hbits. destruct Hbits as [[[E1 E2] E3] E4]. reflect_bools. f_equal.
    apply sub64_word; [wf_lia|]. unfold DISPATCH_QUEUE_NEEDS_ACTIVATION. word_arith. }
  destruct (is_source && _) eqn:Hsrc.
  { rewrite !andb_true_iff in Hsrc. destruct Hsrc as [_ [[[E1 E2] E3] E4]]. reflect_bools. f_equal.
    unfold DISPATCH_QUEUE_NEEDS_ACTIVATION, DISPATCH_QUEUE_INACTIVE, DISPATCH_QUEUE_SUSPEND_INTERVAL.
    rewrite (sub64_word f _ (set_susp 1 0 0 0 f)) by (first [wf_lia|word_arith]).
    rewrite (sub64_word _ _ (set_susp 0 0 0 0 f)) by (first [wf_lia|word_arith]).
    apply add64_word; [wf_lia|word_arith]. }
  clear Hbits Hsrc. unfold os_sub_overflow. pose proof (wf_sc f Hf).
  destruct (Z.ltb_spec (word f) DISPATCH_QUEUE_SUSPEND_INTERVAL) as [Hlt|Hge]; unfold DISPATCH_QUEUE_SUSPEND_INTERVAL in *.
  - assert (sc f = 0) as -> by word_arith. change (0 =? 0) with true. cbv iota.
    fold (_dq_state_has_side_suspend_cnt (word f)). rewrite has_side_suspend_cnt_word by done. by destruct (ssc f =? 1).
  - assert (1 <= sc f) by word_arith. destruct (Z.eqb_spec (sc f) 0); [lia|].
    assert (wf (set_sc (sc f - 1) f)) as Hg by (unfold set_sc; wf_lia).
    replace (word f - _) with (word (set_sc (sc f - 1) f)) by (unfold set_sc; word_arith).
    cbv zeta. set (g := set_sc (sc f - 1) f) in *.
    rewrite is_runnable_runnable, drain_locked_word, has_pending_barrier_word, or_dirty by done.
    destruct (runnable g) eqn:Hr; [|done]. cbn [negb orb]. destruct (own g =? 0) eqn:Ho; [|done]. cbn [negb].
    rewrite add_pending by done. fold (takes_barrier g). destruct (negb is_source && takes_barrier g).
    + unfold set_owner_and_set_full_width_and_in_barrier. rewrite and_preserved by done. reflect_bools.
      rewrite Z.lor_assoc, or_owner_full, or_ib by wfa. done.
    + by rewrite clear_unlock, clear_qos by wfa.
Qed.
End lane.
