(* ===== verification/LaneSuspend.v ===== *)
(** * Suspension of lanes

    [dispatch_suspend], [dispatch_resume] and [dispatch_activate] on a lane keep
    their count in six bits of the state word and spill into
    [dq_side_suspend_cnt], 32 at a time.  The operations below are the whole calls
    of [src/queue.c]: the update of the word, the slow paths under the side lock,
    the activation callback and the resume that follows it.  They refine a plain
    counter with two flags. *)

From S2P Require Import Prelude DqState LaneRmw LaneFields.

Record lane_susp := {
  dq_state : Z;
  dq_side_suspend_cnt : Z;
}.

(** The word after a call, the references it took (or dropped) and what it did. *)
Abbreviation call := (option (outcome (lane_susp * Z * list resume_action))).

(** [None]: out of fuel. *)
Fixpoint lane_suspend (fuel : nat) (s : lane_susp) : call :=
  match fuel with
  | O => None
  | S fuel =>
      match _dispatch_lane_suspend (dq_state s) with
      | Some new_state =>
          let retain := if negb (_dq_state_is_suspended (dq_state s)) then 2 else 0 in
          Some (Done ({| dq_state := new_state; dq_side_suspend_cnt := dq_side_suspend_cnt s |}, retain, []))
      | None =>
          match _dispatch_lane_suspend_slow (dq_side_suspend_cnt s) (dq_state s) with
          | Crash c => Some (Crash c)
          | Done None => lane_suspend fuel s
          | Done (Some (new_state, n)) =>
              Some (Done ({| dq_state := new_state; dq_side_suspend_cnt := n |}, 0, []))
          end
      end
  end.

(** References dropped by the end of a resume. *)
Definition action_refs (a : resume_action) : Z :=
  match a with ActBarrierComplete | ActWakeup | ActRelease => -2 | ActActivate | ActReturn => 0 end.

Section resume.
Context (width tid : Z) (is_source : bool).
(** What the [dq_activate] callback leaves in [allow_resume]. *)
Context (allow_resume : bool).

Fixpoint lane_resume (fuel : nat) (activate : bool) (s : lane_susp) : call :=
  match fuel with
  | O => None
  | S fuel =>
      let old_state := dq_state s in
      match (if activate then _dispatch_lane_resume_activating old_state
             else _dispatch_lane_resume_plain width tid is_source old_state) with
      | ResumeReturn => Some (Done (s, 0, []))
      | ResumeOver => Some (Crash ClientCrash)
      | ResumeSlow =>
          match _dispatch_lane_resume_slow (dq_side_suspend_cnt s) old_state with
          | None => lane_resume fuel false s
          | Some (new_state, n) => Some (Done ({| dq_state := new_state; dq_side_suspend_cnt := n |}, 0, []))
          end
      | ResumeStore new_state =>
          let s := {| dq_state := new_state; dq_side_suspend_cnt := dq_side_suspend_cnt s |} in
          match _dispatch_lane_resume_next activate old_state new_state with
          | Crash c => Some (Crash c)
          | Done ActActivate =>
              if allow_resume then
                match lane_resume fuel false s with
                | Some (Done (s, r, acts)) => Some (Done (s, r, ActActivate :: acts))
                | m => m
                end
              else Some (Done (s, 0, [ActActivate]))
          | Done a => Some (Done (s, action_refs a, [a]))
          end
      end
  end.
End resume.

(** ** The counter *)

Record suspension := {
  count : Z;
  inactive : bool;
  needs_activation : bool;
}.

Definition suspended (a : suspension) : bool := (1 <=? count a) || inactive a || needs_activation a.

Inductive susp_op := OpSuspend | OpResume | OpActivate.

(** [None]: over-resume. *)
Definition spec_step (is_source allow_resume : bool) (o : susp_op) (a : suspension) : option suspension :=
  let activated := {| count := if allow_resume then 0 else 1; inactive := false; needs_activation := false |} in
  match o with
  | OpSuspend => Some {| count := count a + 1; inactive := inactive a; needs_activation := needs_activation a |}
  | OpResume =>
      if needs_activation a && negb (inactive a) && (count a =? 1) then Some activated
      else if is_source && inactive a && (count a =? 0) then Some activated
      else if count a =? 0 then None
      else Some {| count := count a - 1; inactive := inactive a; needs_activation := needs_activation a |}
  | OpActivate =>
      if inactive a then
        if count a =? 0 then Some activated
        else Some {| count := count a; inactive := false; needs_activation := needs_activation a |}
      else Some a
  end.

(** The inline count and the side count add up. *)
Record represents (s : lane_susp) (a : suspension) (f : fields) : Prop := {
  rep_wf : wf f;
  rep_word : dq_state s = word f;
  rep_plain : st f = 0 /\ role f < 2;
  rep_side : 0 <= dq_side_suspend_cnt s < 2 ^ 32;
  rep_half : dq_side_suspend_cnt s mod 32 = 0;
  rep_ssc : ssc f = Z.b2z (0 <? dq_side_suspend_cnt s);
  rep_count : count a = sc f + dq_side_suspend_cnt s;
  rep_ina : ina f = Z.b2z (inactive a);
  rep_na : na f = Z.b2z (needs_activation a);
  rep_act : inactive a = true -> needs_activation a = true;
}.

Lemma represents_suspended s a f : represents s a f -> susp f = suspended a.
Proof.
  intros [Hf _ _ Hs _ Hc Hn Hi Ha _]. unfold susp, suspended. rewrite Hn, Hi, Ha. wf_facts.
  apply eq_true_iff_eq. rewrite !orb_true_iff, !Z.leb_le.
  destruct (inactive a), (needs_activation a), (Z.ltb_spec 0 (dq_side_suspend_cnt s)); simpl Z.b2z in *;
    split; intros; try (left; left; lia); try lia; tauto.
Qed.

(** One call on the word and on the counter. *)
Definition lane_op (width tid : Z) (is_source allow_resume : bool) (o : susp_op) (s : lane_susp) : call :=
  match o with
  | OpSuspend => lane_suspend 1 s
  | OpResume => lane_resume width tid is_source allow_resume 2 false s
  | OpActivate => lane_resume width tid is_source allow_resume 2 true s
  end.

Section refinement.
Context (width tid : Z) (is_source allow_resume : bool).
Hypothesis Hw : 1 <= width <= 0xffe.
Hypothesis Ht : 0 < tid < 2 ^ 30.

(** The references a call takes: 2 while the lane is suspended. *)
Definition susp_refs (a : suspension) : Z := if suspended a then 2 else 0.

Lemma suspend_refines s a f : represents s a f -> count a < 2 ^ 32 - 64 ->
  exists s' f', lane_suspend 1 s = Some (Done (s', 2 - susp_refs a, []))
    /\ represents s' {| count := count a + 1; inactive := inactive a; needs_activation := needs_activation a |} f'.
Proof.
  intros R Hc. pose proof (represents_suspended s a f R) as Hsu. destruct R as [Hf Ew Hp Hs Hm Hssc Hn Hi Ha Hact].
  pose proof (wf_sc f Hf). pose proof (wf_ssc f Hf).
  cbn [lane_suspend]. rewrite Ew, suspend_spec, is_suspended_susp, Hsu by done.
  destruct (Z.ltb_spec (sc f) 63) as [Hlt|Hge].
  - exists {| dq_state := word (set_sc (sc f + 1) f); dq_side_suspend_cnt := dq_side_suspend_cnt s |}, (set_sc (sc f + 1) f).
    split; [unfold susp_refs; by destruct (suspended a)|]. unfold set_sc. split; f_unfold; cbn; try done || lia. wf_lia.
  - assert (sc f = 63) as E by (eval_pow2; lia). clear Hge.
    assert (suspended a = true) as Hs1 by (rewrite <- Hsu; unfold susp; apply Z.leb_le; wf_facts; lia).
    unfold susp_refs. rewrite Hs1. unfold _dispatch_lane_suspend_slow, os_sub_overflow,
      DISPATCH_QUEUE_SUSPEND_HALF, DISPATCH_QUEUE_SUSPEND_INTERVAL, DISPATCH_QUEUE_HAS_SIDE_SUSPEND_CNT.
    assert (exists g, wf g /\ g = set_susp (na f) (ina f) 1 32 f) as (g & Hg & Eg)
      by (eexists; split; [|reflexivity]; wf_lia).
    set (delta := if dq_side_suspend_cnt s =? 0 then _ else _).
    assert (delta = word f - word g) as Ed.
    { subst delta. destruct (Z.eqb_spec (dq_side_suspend_cnt s) 0) as [E0|E0].
      - rewrite E0 in Hssc. simpl in Hssc. subst g. word_arith.
      - destruct (Z.ltb_spec 0 (dq_side_suspend_cnt s)); [|lia]. simpl in Hssc. subst g. word_arith. }
    pose proof (word_range g Hg). destruct (Z.ltb_spec (word f) delta); [lia|].
    destruct (Z.ltb_spec (dq_side_suspend_cnt s + 32) (2 ^ 32)); [|lia].
    exists {| dq_state := word f - delta; dq_side_suspend_cnt := dq_side_suspend_cnt s + 32 |}, g.
    split; [done|]. subst g. split; f_unfold; cbn; try done || lia.
    + replace (dq_side_suspend_cnt s + 32) with (dq_side_suspend_cnt s + 1 * 32) by lia. by rewrite Z.mod_add.
    + destruct (Z.ltb_spec 0 (dq_side_suspend_cnt s + 32)); [done|lia].
Qed.

Lemma resume_next_spec activate f g : wf f -> wf g -> st f = 0 -> role f < 2 ->
  _dispatch_lane_resume_next activate (word f) (word g) =
  if negb (na f =? na g) then Done ActActivate
  else if activate then (if susp g then Done ActReturn else Crash ClientCrash)
  else if susp g then Done ActReturn
  else if negb (ib f =? ib g) then Done ActBarrierComplete
  else if runnable g then Done ActWakeup else Done ActRelease.
Proof.
  intros Hf Hg Hst Hr. unfold _dispatch_lane_resume_next, _dq_state_received_sync_wait.
  rewrite xor_needs_activation, xor_in_barrier, is_suspended_susp, is_runnable_runnable, not_base_wlh_word,
    in_sync_transfer_word, Hst by done. change (0 =? 1) with false.
  destruct (negb (na f =? na g)); [done|]. destruct activate; [by destruct (susp g)|].
  destruct (susp g); [done|]. destruct (negb (ib f =? ib g)); [done|]. by destruct (runnable g).
Qed.

(** A store of [_dispatch_lane_resume_plain] that consumes one inline count. *)
Lemma resume_count f : wf f -> st f = 0 -> 1 <= sc f -> exists g,
  (let h := set_sc (sc f - 1) f in
   if negb (runnable h) || negb (own h =? 0) then ResumeStore (word (set_dirty 1 h))
   else if negb is_source && takes_barrier width h then ResumeStore (word (f_lock tid 1 h))
   else ResumeStore (word (set_qos 0 (f_unlock h)))) = ResumeStore (word g)
  /\ wf g /\ st g = 0 /\ role g = role f /\ ssc g = ssc f /\ sc g = sc f - 1 /\ ina g = ina f /\ na g = na f.
Proof using Hw Ht.
  intros Hf Hst Hsc. pose proof (wf_sc f Hf). cbv zeta. set (h := set_sc (sc f - 1) f).
  assert (wf h) as Hh by (unfold h, set_sc; wf_lia).
  destruct (_ || _) eqn:E; [|destruct (negb is_source && _)].
  - exists (set_dirty 1 h). split; [done|]. split; [auto with dispatch|]. unfold h, set_sc; f_unfold. tauto.
  - exists (f_lock tid 1 h). split; [done|]. split; [by apply wf_f_lock|].
    rewrite orb_false_iff, !negb_false_iff in E. destruct E as [E _]. unfold runnable, susp in E.
    rewrite !andb_true_iff, negb_true_iff, Z.leb_gt in E. destruct E as [[_ _] E]. unfold h, set_sc in *; f_unfold.
    wf_facts. lia.
  - exists (set_qos 0 (f_unlock h)). split; [done|]. split; [auto with dispatch|]. unfold h, set_sc; f_unfold. tauto.
Qed.

Definition no_activation (a : suspension) : Prop :=
  ~ (needs_activation a = true /\ inactive a = false /\ count a = 1).

Lemma resume_refines s a f fuel : represents s a f -> 1 <= count a -> no_activation a ->
  let a' := {| count := count a - 1; inactive := inactive a; needs_activation := needs_activation a |} in
  exists s' f' acts, lane_resume width tid is_source allow_resume (S fuel) false s
    = Some (Done (s', susp_refs a' - susp_refs a, acts)) /\ represents s' a' f'.
Proof using Hw Ht.
  intros R Hc Hna a'. pose proof (represents_suspended s a f R) as Hsu.
  assert (susp_refs a = 2) as Ha by (unfold susp_refs, suspended; destruct (Z.leb_spec 1 (count a)); [done|lia]).
  pose proof R as [Hf Ew [Hst Hrole] Hs Hm Hssc Hn Hi Hna' Hact]. pose proof (wf_sc f Hf).
  cbn [lane_resume]. rewrite Ew, resume_plain_spec by done.
  destruct (_ && (sc f =? 1)) eqn:Hbits.
  { exfalso. rewrite !andb_true_iff in Hbits. destruct Hbits as [[[E1 E2] E3] E4]. reflect_bools. apply Hna.
    rewrite Hi in E2. rewrite Hna' in E1. rewrite Hssc in E3.
    destruct (inactive a), (needs_activation a), (Z.ltb_spec 0 (dq_side_suspend_cnt s)); simpl in *; lia || (split_and!; lia || done). }
  destruct (is_source && _) eqn:Hsrc.
  { exfalso. rewrite !andb_true_iff in Hsrc. destruct Hsrc as [_ [[[E1 E2] E3] E4]]. reflect_bools.
    rewrite Hssc in E3. destruct (Z.ltb_spec 0 (dq_side_suspend_cnt s)); simpl in *; lia. }
  clear Hbits Hsrc. destruct (Z.eqb_spec (sc f) 0) as [E0|E0].
  - (* the side count *)
    assert (0 < dq_side_suspend_cnt s) by lia. rewrite Hssc. destruct (Z.ltb_spec 0 (dq_side_suspend_cnt s)); [|lia].
    cbn [Z.b2z]. change (1 =? 1) with true. cbv iota.
    unfold _dispatch_lane_resume_slow, os_add_overflow, DISPATCH_QUEUE_SUSPEND_HALF, DISPATCH_QUEUE_SUSPEND_INTERVAL,
      DISPATCH_QUEUE_HAS_SIDE_SUSPEND_CNT. destruct (Z.eqb_spec (dq_side_suspend_cnt s) 0); [lia|].
    set (delta := if dq_side_suspend_cnt s =? 32 then _ else _). cbn [Z.b2z] in Hssc.
    set (g := set_susp (na f) (ina f) (if dq_side_suspend_cnt s =? 32 then 0 else 1) 31 f).
    assert (wf g) as Hg by (subst g; destruct (_ =? 32); wf_lia).
    assert (word f + delta = word g) as Ed by (subst delta g; destruct (_ =? 32); word_arith).
    rewrite Ed. pose proof (word_range g Hg). destruct (Z.ltb_spec (word g) (2 ^ 64)); [|lia].
    assert (32 <= dq_side_suspend_cnt s) by (apply Z.mod_divide in Hm as [k Hk]; lia).
    assert (suspended a' = true) as Ea by (unfold suspended; cbn; destruct (Z.leb_spec 1 (count a - 1)); [done|lia]).
    exists {| dq_state := word g; dq_side_suspend_cnt := dq_side_suspend_cnt s - 32 |}, g, [].
    split; [unfold susp_refs at 1; by rewrite Ea, Ha|].
    subst g a'. split; f_unfold; cbn; try done || lia.
    + replace (dq_side_suspend_cnt s - 32) with (dq_side_suspend_cnt s + (-1) * 32) by lia. by rewrite Z.mod_add.
    + destruct (Z.eqb_spec (dq_side_suspend_cnt s) 32), (Z.ltb_spec 0 (dq_side_suspend_cnt s - 32)); simpl; lia.
  - destruct (resume_count f Hf Hst) as (g & -> & Hg & Hgst & Hgr & Hg1 & Hg2 & Hg3 & Hg4); [lia|].
    rewrite resume_next_spec, Hg4, Z.eqb_refl by done. cbn [negb].
    assert (represents {| dq_state := word g; dq_side_suspend_cnt := dq_side_suspend_cnt s |} a' g) as R'.
    { subst a'. split; cbn; rewrite ?Hg1, ?Hg2, ?Hg3, ?Hg4; try done || lia. }
    pose proof (represents_suspended _ _ _ R') as Hsu'. rewrite Ha. unfold susp_refs at 1. rewrite <- Hsu'.
    destruct (susp g); [|destruct (negb (ib f =? ib g)); [|destruct (runnable g)]];
      do 3 eexists; (split; [reflexivity|exact R']).
Qed.

(** The store that turns the needs-activation bit into a suspend count. *)
Lemma activation_refines s a f fuel : represents s a f ->
  let g := set_susp 0 0 0 1 f in
  dq_side_suspend_cnt s = 0 -> na f = 1 -> suspended a = true ->
  let s1 := {| dq_state := word g; dq_side_suspend_cnt := dq_side_suspend_cnt s |} in
  let a' := {| count := if allow_resume then 0 else 1; inactive := false; needs_activation := false |} in
  exists s' f' acts,
    (if allow_resume then
       match lane_resume width tid is_source allow_resume (S fuel) false s1 with
       | Some (Done (s, r, acts)) => Some (Done (s, r, ActActivate :: acts))
       | m => m
       end
     else Some (Done (s1, 0, [ActActivate])))
    = Some (Done (s', susp_refs a' - susp_refs a, acts)) /\ represents s' a' f'.
Proof using Hw Ht.
  intros R g H0 Hna Ha s1 a'. unfold susp_refs at 2. rewrite Ha. destruct R as [Hf Ew [Hst Hrole] Hs Hm Hssc Hn Hi Hna' Hact].
  assert (represents s1 {| count := 1; inactive := false; needs_activation := false |} g) as R1.
  { subst s1 g. split; f_unfold; cbn; try done || lia; [wf_lia|by rewrite H0]. }
  destruct allow_resume eqn:Eal.
  - destruct (resume_refines s1 _ g fuel R1) as (s' & f' & acts & E & R'); [cbn; lia|intros (H1 & _); done|].
    rewrite Eal in E. rewrite E. exists s', f', (ActActivate :: acts). split; [done|]. exact R'.
  - exists s1, g, [ActActivate]. split; [done|]. exact R1.
Qed.

Lemma lane_op_refines s a f o : represents s a f -> count a < 2 ^ 32 - 64 ->
  match spec_step is_source allow_resume o a with
  | Some a' => exists s' f' acts, lane_op width tid is_source allow_resume o s
      = Some (Done (s', susp_refs a' - susp_refs a, acts)) /\ represents s' a' f'
  | None => lane_op width tid is_source allow_resume o s = Some (Crash ClientCrash)
  end.
Proof using Hw Ht.
  intros R Hc. pose proof R as [Hf Ew [Hst Hrole] Hs Hm Hssc Hn Hi Hna Hact]. pose proof (wf_sc f Hf).
  destruct o; cbn [spec_step lane_op]; [|remember 1%nat as fu eqn:Ek|remember 1%nat as fu eqn:Ek].
  - destruct (suspend_refines s a f R Hc) as (s' & f' & -> & R').
    exists s', f', []. split; [|done]. do 4 f_equal. unfold susp_refs at 2, suspended; cbn.
    destruct (Z.leb_spec 1 (count a + 1)); [done|lia].
  - destruct (needs_activation a && negb (inactive a) && (count a =? 1)) eqn:Hact1.
    { rewrite !andb_true_iff, negb_true_iff in Hact1. destruct Hact1 as [[E1 E2] E3]. reflect_bools.
      rewrite E1 in Hna. rewrite E2 in Hi. cbn [Z.b2z] in *.
      assert (dq_side_suspend_cnt s = 0) as E0 by (apply Z.mod_divide in Hm as [k Hk]; lia). rewrite E0 in Hssc. cbn in Hssc.
      cbn [lane_resume]. rewrite Ew, resume_plain_spec by done.
      replace (na f) with 1. rewrite Hi, Hssc. replace (sc f) with 1 by lia. cbn [andb Z.eqb Pos.eqb].
      rewrite resume_next_spec by (done || wf_lia). rewrite Hna. cbn [na set_susp negb Z.eqb].
      subst fu. apply (activation_refines s a f 0 R E0 Hna). unfold suspended. by rewrite E1, orb_true_r. }
    destruct (is_source && inactive a && (count a =? 0)) eqn:Hact2.
    { rewrite !andb_true_iff in Hact2. destruct Hact2 as [[E1 E2] E3]. reflect_bools.
      rewrite (Hact E2) in Hna. rewrite E2 in Hi. cbn [Z.b2z] in *.
      assert (dq_side_suspend_cnt s = 0) as E0 by lia. rewrite E0 in Hssc. cbn in Hssc.
      cbn [lane_resume]. rewrite Ew, resume_plain_spec by done.
      rewrite Hna, Hi, Hssc. replace (sc f) with 0 by lia. cbn [andb Z.eqb Pos.eqb].
      replace (is_source && true) with true by (rewrite E1; done). cbv iota.
      rewrite resume_next_spec by (done || wf_lia). rewrite Hna. cbn [na set_susp negb Z.eqb].
      subst fu. apply (activation_refines s a f 0 R E0 Hna). unfold suspended. by rewrite E2, orb_true_r. }
    destruct (Z.eqb_spec (count a) 0) as [E0|E0].
    { cbn [lane_resume]. rewrite Ew, resume_plain_spec by done.
      assert (sc f = 0) as Es by lia. assert (dq_side_suspend_cnt s = 0) as Ed by lia. rewrite Ed in Hssc. cbn in Hssc.
      rewrite Es, Hssc. cbn [Z.eqb andb]. rewrite andb_false_r.
      replace (is_source && _) with false; [done|]. symmetry. rewrite E0, Hi, Hna in *. cbn in Hact2.
      destruct is_source, (inactive a); cbn in *; try done; by rewrite ?andb_false_r. }
    apply (resume_refines s a f fu R); [lia|]. intros (E1 & E2 & E3). by rewrite E1, E2, E3 in Hact1.
  - destruct (inactive a) eqn:Ei.
    + rewrite (Hact eq_refl) in Hna. cbn [Z.b2z] in *. cbn [lane_resume].
      rewrite Ew, resume_activating_spec by (done || lia). rewrite Hi. change (1 =? 1) with true. cbv iota.
      destruct (Z.eqb_spec (count a) 0) as [E0|E0].
      * assert (sc f = 0) as Es by lia. assert (dq_side_suspend_cnt s = 0) as Ed by lia. pose proof Hssc as Hssc'.
        rewrite Ed in Hssc'. cbn in Hssc'. rewrite Es, Hssc'. cbn [Z.eqb andb].
        rewrite resume_next_spec by (done || wf_lia). rewrite Hna. cbn [na set_susp negb Z.eqb].
        subst fu. apply (activation_refines s a f 0 R Ed Hna). unfold suspended. by rewrite Ei, orb_true_r.
      * assert (((ssc f =? 0) && (sc f =? 0)) = false) as ->.
        { rewrite Hssc. destruct (Z.ltb_spec 0 (dq_side_suspend_cnt s)); [done|]. destruct (Z.eqb_spec (sc f) 0); [lia|done]. }
        rewrite resume_next_spec by (done || wf_lia). cbn [na set_susp]. rewrite Z.eqb_refl. cbn [negb].
        assert (suspended a = true) as Ea by (unfold suspended; by rewrite Ei, orb_true_r).
        assert (susp (set_susp (na f) 0 (ssc f) (sc f) f) = true) as -> by (unfold susp; f_unfold; apply Z.leb_le; wf_facts; lia).
        eexists _, (set_susp (na f) 0 (ssc f) (sc f) f), [ActReturn]. split.
        { unfold susp_refs at 1 2. rewrite Ea. unfold suspended; cbn. rewrite (Hact eq_refl), orb_true_r. reflexivity. }
        split; f_unfold; cbn; try done || lia; [wf_lia|by rewrite (Hact eq_refl)].
    + cbn [lane_resume]. rewrite Ew, resume_activating_spec by (done || (right; rewrite Hi; done)).
      rewrite Hi. change (Z.b2z false =? 1) with false. cbv iota.
      exists s, f, []. split; [|done]. do 4 f_equal. lia.
Qed.
End refinement.

(** ** Sequences of calls *)

Section runs.
Context (width tid : Z) (is_source allow_resume : bool).

Fixpoint run_spec (ops : list susp_op) (a : suspension) : option suspension :=
  match ops with
  | [] => Some a
  | o :: ops => a' ← spec_step is_source allow_resume o a; run_spec ops a'
  end.

(** The lane after the calls and the references they took. *)
Fixpoint run_lane (ops : list susp_op) (s : lane_susp) : option (outcome (lane_susp * Z)) :=
  match ops with
  | [] => Some (Done (s, 0))
  | o :: ops =>
      match lane_op width tid is_source allow_resume o s with
      | Some (Done (s', r, _)) =>
          match run_lane ops s' with
          | Some (Done (s'', r')) => Some (Done (s'', r + r'))
          | m => m
          end
      | Some (Crash c) => Some (Crash c)
      | None => None
      end
  end.
End runs.

Lemma spec_step_count src al o a a' : spec_step src al o a = Some a' -> count a' <= count a + 1 \/ count a' <= 1.
Proof.
  intros H. destruct o; cbn in H; repeat match type of H with context [if ?b then _ else _] => destruct b end;
    simplify_eq/=; lia.
Qed.

(** A lane as [_dispatch_queue_init] leaves it. *)
Lemma init_represents width bits src st refs : 1 <= width <= 0xffe ->
  bits = DISPATCH_QUEUE_ROLE_INNER \/ bits = DISPATCH_QUEUE_ROLE_BASE_ANON \/
  bits = DISPATCH_QUEUE_INACTIVE \/ bits = DISPATCH_QUEUE_INACTIVE + DISPATCH_QUEUE_ROLE_BASE_ANON ->
  _dispatch_queue_init width bits src = Done (st, refs) ->
  let i := nz (Z.land bits DISPATCH_QUEUE_INACTIVE) in
  let a := {| count := 0; inactive := i; needs_activation := i |} in
  exists f, represents {| dq_state := st; dq_side_suspend_cnt := 0 |} a f.
Proof.
  intros Hw Hb Hi i a. unfold _dispatch_queue_init in Hi. rewrite init_value in Hi by done.
  set (r := if bits =? DISPATCH_QUEUE_ROLE_BASE_ANON then 1 else if bits =? DISPATCH_QUEUE_INACTIVE + DISPATCH_QUEUE_ROLE_BASE_ANON then 1 else 0).
  exists (Fields 0 0 0 0 0 r 0 0 0 (0x1000 - width) 0 (Z.b2z i) (Z.b2z i) 0 0).
  assert (Z.lor (if i then Z.lor (word (idle_fields width 0)) (DISPATCH_QUEUE_INACTIVE + DISPATCH_QUEUE_NEEDS_ACTIVATION)
    else word (idle_fields width 0)) (word (Fields 0 0 0 0 0 r 0 0 0 0 0 0 0 0 0))
    = word (Fields 0 0 0 0 0 r 0 0 0 (0x1000 - width) 0 (Z.b2z i) (Z.b2z i) 0 0)) as E.
  { assert (0 <= r < 4) by (subst r; repeat destruct (_ =? _); lia).
    replace (if i then _ else _) with (word (Fields 0 0 0 0 0 0 0 0 0 (0x1000 - width) 0 (Z.b2z i) (Z.b2z i) 0 0)).
    - rewrite or_role; [done|destruct i; cbn [Z.b2z]; wf_lia|done|done].
    - destruct i; [|done]. symmetry. apply word_or_mask; [unfold idle_fields; wf_lia|vm_compute; split; congruence|].
      change (fields_of _) with (Fields 0 0 0 0 0 0 0 0 0 0 0 1 1 0 0). unfold fmap2, idle_fields; fields_unfold.
      by rewrite !Z.lor_0_r. }
  assert (st = word (Fields 0 0 0 0 0 r 0 0 0 (0x1000 - width) 0 (Z.b2z i) (Z.b2z i) 0 0)) as ->.
  { rewrite <- E. fold i in Hi.
    assert (nz (clear64 bits (Z.lor DISPATCH_QUEUE_ROLE_MASK DISPATCH_QUEUE_INACTIVE)) = false) as Hc
      by (destruct Hb as [-> | [-> | [-> | ->]]]; reflexivity).
    assert (Z.land bits DISPATCH_QUEUE_ROLE_MASK = word (Fields 0 0 0 0 0 r 0 0 0 0 0 0 0 0 0)) as Hr
      by (subst r; destruct Hb as [-> | [-> | [-> | ->]]]; reflexivity).
    rewrite Hc, Hr in Hi. cbv zeta iota in Hi. congruence. }
  assert (0 <= r <= 1) by (subst r; repeat destruct (_ =? _); lia).
  split; cbn; try done || lia. destruct i; cbn [Z.b2z]; wf_lia.
Qed.

(** ** Properties *)

(** C32: any sequence of suspend, resume and activate calls on a lane behaves like a
    plain counter with an inactive and a needs-activation flag: the inline bits and
    the side count together hold the counter, the queue holds exactly two extra
    references while it is suspended, and the only crash is an over-resume. *)
Theorem lane_suspension_refines width tid src al ops s a f :
  1 <= width <= 0xffe -> 0 < tid < 2 ^ 30 -> represents s a f ->
  count a + Z.of_nat (length ops) < 2 ^ 32 - 65 ->
  match run_spec src al ops a with
  | Some a' => exists s' f', run_lane width tid src al ops s = Some (Done (s', susp_refs a' - susp_refs a))
      /\ represents s' a' f'
  | None => run_lane width tid src al ops s = Some (Crash ClientCrash)
  end.
Proof.
  intros Hw Ht. revert s a f. induction ops as [|o ops IH]; intros s a f R Hc.
  - exists s, f. split; [|done]. cbn. do 3 f_equal. lia.
  - cbn [run_spec run_lane length] in *. pose proof (lane_op_refines width tid src al Hw Ht s a f o R ltac:(lia)) as Hop.
    assert (0 <= count a) as H0 by (destruct R as [Hf]; wf_facts; lia).
    destruct (spec_step src al o a) as [a1|] eqn:E; opt_simpl; [|by rewrite Hop].
    destruct Hop as (s1 & f1 & acts & -> & R1).
    pose proof (spec_step_count _ _ _ _ _ E). specialize (IH s1 a1 f1 R1 ltac:(lia)).
    destruct (run_spec src al ops a1) as [a2|].
    + destruct IH as (s2 & f2 & -> & R2). exists s2, f2. split; [|done]. do 3 f_equal. lia.
    + by rewrite IH.
Qed.

(** 70 suspensions of a fresh serial lane spill into the side count; 71 resumes
    are one too many. *)
Lemma lane_suspension_refines_witness :
  (exists s' f', run_lane 1 7 false true (replicate 70 OpSuspend) {| dq_state := DISPATCH_QUEUE_STATE_INIT_VALUE 1; dq_side_suspend_cnt := 0 |}
     = Some (Done (s', 2)) /\ dq_side_suspend_cnt s' = 32
     /\ represents s' {| count := 70; inactive := false; needs_activation := false |} f')
  /\ run_lane 1 7 false true (replicate 70 OpSuspend ++ replicate 71 OpResume)
       {| dq_state := DISPATCH_QUEUE_STATE_INIT_VALUE 1; dq_side_suspend_cnt := 0 |} = Some (Crash ClientCrash).
Proof.
  assert (exists f, represents {| dq_state := DISPATCH_QUEUE_STATE_INIT_VALUE 1; dq_side_suspend_cnt := 0 |}
    {| count := 0; inactive := false; needs_activation := false |} f) as [f R].
  { refine (init_represents 1 0 false _ 0 _ (or_introl eq_refl) _); [lia|]. vm_compute. reflexivity. }
  split.
  - pose proof (lane_suspension_refines 1 7 false true (replicate 70 OpSuspend) _ _ f ltac:(lia) ltac:(lia) R eq_refl) as H.
    assert (run_spec false true (replicate 70 OpSuspend) {| count := 0; inactive := false; needs_activation := false |}
      = Some {| count := 70; inactive := false; needs_activation := false |}) as Es by (vm_compute; reflexivity).
    rewrite Es in H. destruct H as (s' & f' & E & R'). exists s', f'. split; [exact E|]. split; [|exact R'].
    assert (run_lane 1 7 false true (replicate 70 OpSuspend) {| dq_state := DISPATCH_QUEUE_STATE_INIT_VALUE 1; dq_side_suspend_cnt := 0 |}
      = Some (Done ({| dq_state := 11105874482072387584; dq_side_suspend_cnt := 32 |}, 2))) as E2 by (vm_compute; reflexivity).
    rewrite E2 in E. injection E as <-. reflexivity.
  - pose proof (lane_suspension_refines 1 7 false true (replicate 70 OpSuspend ++ replicate 71 OpResume) _ _ f
      ltac:(lia) ltac:(lia) R eq_refl) as H.
    assert (run_spec false true (replicate 70 OpSuspend ++ replicate 71 OpResume) {| count := 0; inactive := false; needs_activation := false |}
      = None) as Es by (vm_compute; reflexivity).
    rewrite Es in H. exact H.
Defined.
