(* ===== verification/Lane.v ===== *)
(** * Lanes under concurrency

    The queue of work items of a lane, its state word and any number of threads
    that submit work ([dispatch_async], [dispatch_barrier_async], [dispatch_sync],
    [dispatch_barrier_sync]), drain the lane, suspend and resume it.  One
    definition below is one atomic step: an update of [dq_state], an access to
    [dq_items_tail] or [dq_items_head], or a call of the target queue.  The program
    counters name the function of [src/queue.c] or [src/inline_internal.h] the
    thread is in, with the locals it still needs.

    The target of the lane is a root queue: the lane itself is queued there at most
    once ([lq_tq] counts its occurrences), and the non-barrier items a redirecting
    drain forwards are in [lq_redirected].  [dispatch_async_and_wait], retargeting
    and changes of the width while the lane drains are left out. *)

From S2P Require Import Prelude Threads DqState LaneRmw.

Record item := {
  it_id : nat;
  it_barrier : bool;
  it_waiter : option nat;        (* the thread of a dispatch_sync *)
}.

(** The local [owned] of a drain: [DISPATCH_QUEUE_IN_BARRIER], or a number of
    [DISPATCH_QUEUE_WIDTH_INTERVAL]s. *)
Inductive owned := OBarrier | OWidth (n : Z).

Inductive pc :=
| PIdle
(* _dispatch_lane_concurrent_push, _dispatch_lane_push *)
| PConcPush (it : item)                   (* dq_items_tail was NULL *)
| PLanePush (it : item)                   (* before the exchange of the tail *)
| PSetHead (waiter : bool)                (* the queue was empty: before the store of the head *)
(* _dispatch_lane_wakeup, _dispatch_queue_wakeup *)
| PWake (make_dirty : bool)
| PWakeRmw (make_dirty : bool)
| PPushTQ                                 (* ENQUEUED was set: dx_push(do_targetq) *)
(* _dispatch_queue_class_invoke *)
| PInvoke (oq_floor : Z)
| PDrainHead (b : bool) (n : Z)           (* owned = b * IN_BARRIER + n * WIDTH_INTERVAL + ENQUEUED *)
| PUnlock (b : bool) (n : Z) (done : bool)
| PUnlockXor (b : bool) (n : Z)
| PFinish (b : bool) (n : Z) (next_barrier : bool)
(* _dispatch_lane_drain *)
| PDrainItem (o : owned) (dc : item)      (* first_iteration *)
| PDrainGo (o : owned) (dc : item)        (* after the tests of dq_state *)
| PDrainPop (n : Z) (dc : item)           (* width for dc is owned *)
| PRunB (dc : item)
| PRunNB (n : Z) (dc : item)
| PDrainNext (o : owned)
(* _dispatch_lane_drain_barrier_waiter *)
| PBWPop (enqueued : bool) (dc : item)
| PBWTransfer (enqueued : bool) (next : nat)
(* dispatch_sync and dispatch_barrier_sync *)
| PTrySync (it : item)                    (* dq_items_tail was NULL *)
| PSlowPush (it : item)
| PPushWaiter
| PWait
| PSyncRun
| PBSyncRun (slow : bool)
| PBSyncUnlock
(* _dispatch_async_redirect_invoke *)
| PAsyncRun
(* _dispatch_lane_non_barrier_complete *)
| PNBComplete (sync : bool)
(* _dispatch_lane_barrier_complete *)
| PBC
| PBCSusp
| PBCHead
| PClassBC (target : bool)
| PClassBCXor
(* _dispatch_lane_drain_non_barriers *)
| PNBStart (dc : item)
| PNBLoop (n : Z) (dc : item)
| PNBPop (n : Z) (dc : item)
| PNBEnd (n : Z) (dc : option item)
| PNBXor (n : Z)
| PNBReload (n : Z).

(** What the thread event of a waiter was signalled with. *)
Inductive grant := GNone | GBarrier | GWidth.

Record thread := {
  t_pc : pc;
  t_wait : bool;          (* then waits for its dispatch_sync *)
  t_grant : grant;
}.

Record lane := {
  lq_state : Z;                  (* dq_state *)
  lq_side : Z;                   (* dq_side_suspend_cnt *)
  lq_items : list item;          (* from dq_items_head to dq_items_tail *)
  lq_tq : Z;                     (* the lane on its target queue *)
  lq_redirected : Z;             (* redirected items on the target queue *)
  lq_threads : list thread;
  lq_crashed : bool;             (* an assertion failed *)
  lq_pushed : list item;         (* every item that entered the queue *)
  lq_popped : list item;         (* every item that left it *)
}.

(** ** Updates of the configuration *)

Definition put (i : nat) (th : thread) (c : lane) : lane :=
  {| lq_state := lq_state c; lq_side := lq_side c; lq_items := lq_items c; lq_tq := lq_tq c;
     lq_redirected := lq_redirected c; lq_threads := <[i := th]> (lq_threads c); lq_crashed := lq_crashed c;
     lq_pushed := lq_pushed c; lq_popped := lq_popped c |}.

Definition store (w : Z) (c : lane) : lane :=
  {| lq_state := w; lq_side := lq_side c; lq_items := lq_items c; lq_tq := lq_tq c;
     lq_redirected := lq_redirected c; lq_threads := lq_threads c; lq_crashed := lq_crashed c;
     lq_pushed := lq_pushed c; lq_popped := lq_popped c |}.

Definition store_side (n : Z) (c : lane) : lane :=
  {| lq_state := lq_state c; lq_side := n; lq_items := lq_items c; lq_tq := lq_tq c;
     lq_redirected := lq_redirected c; lq_threads := lq_threads c; lq_crashed := lq_crashed c;
     lq_pushed := lq_pushed c; lq_popped := lq_popped c |}.

Definition push_tail (it : item) (c : lane) : lane :=
  {| lq_state := lq_state c; lq_side := lq_side c; lq_items := lq_items c ++ [it]; lq_tq := lq_tq c;
     lq_redirected := lq_redirected c; lq_threads := lq_threads c; lq_crashed := lq_crashed c;
     lq_pushed := lq_pushed c ++ [it]; lq_popped := lq_popped c |}.

Definition pop_head (dc : item) (c : lane) : lane :=
  {| lq_state := lq_state c; lq_side := lq_side c; lq_items := tail (lq_items c); lq_tq := lq_tq c;
     lq_redirected := lq_redirected c; lq_threads := lq_threads c; lq_crashed := lq_crashed c;
     lq_pushed := lq_pushed c; lq_popped := lq_popped c ++ [dc] |}.

Definition add_tq (n : Z) (c : lane) : lane :=
  {| lq_state := lq_state c; lq_side := lq_side c; lq_items := lq_items c; lq_tq := lq_tq c + n;
     lq_redirected := lq_redirected c; lq_threads := lq_threads c; lq_crashed := lq_crashed c;
     lq_pushed := lq_pushed c; lq_popped := lq_popped c |}.

Definition add_redirected (n : Z) (c : lane) : lane :=
  {| lq_state := lq_state c; lq_side := lq_side c; lq_items := lq_items c; lq_tq := lq_tq c;
     lq_redirected := lq_redirected c + n; lq_threads := lq_threads c; lq_crashed := lq_crashed c;
     lq_pushed := lq_pushed c; lq_popped := lq_popped c |}.

Definition crash_lane (c : lane) : lane :=
  {| lq_state := lq_state c; lq_side := lq_side c; lq_items := lq_items c; lq_tq := lq_tq c;
     lq_redirected := lq_redirected c; lq_threads := lq_threads c; lq_crashed := true;
     lq_pushed := lq_pushed c; lq_popped := lq_popped c |}.

Definition with_grant (g : grant) (th : thread) : thread :=
  {| t_pc := t_pc th; t_wait := t_wait th; t_grant := g |}.
Definition with_pc (p : pc) (th : thread) : thread :=
  {| t_pc := p; t_wait := t_wait th; t_grant := t_grant th |}.

(** [_dispatch_thread_event_signal] of thread [j]. *)
Definition signal (j : nat) (g : grant) (c : lane) : lane :=
  {| lq_state := lq_state c; lq_side := lq_side c; lq_items := lq_items c; lq_tq := lq_tq c;
     lq_redirected := lq_redirected c; lq_threads := alter (with_grant g) j (lq_threads c);
     lq_crashed := lq_crashed c; lq_pushed := lq_pushed c; lq_popped := lq_popped c |}.

(** Thread [i] goes on at [p]. *)
Definition go (i : nat) (p : pc) (c : lane) : lane :=
  {| lq_state := lq_state c; lq_side := lq_side c; lq_items := lq_items c; lq_tq := lq_tq c;
     lq_redirected := lq_redirected c; lq_threads := alter (with_pc p) i (lq_threads c);
     lq_crashed := lq_crashed c; lq_pushed := lq_pushed c; lq_popped := lq_popped c |}.

(** The call is over: back to the client, or to the wait of a [dispatch_sync]. *)
Definition return_pc (th : thread) : pc := if t_wait th then PWait else PIdle.

(** The head of a non-empty queue is set. *)
Definition head_visible (c : lane) : bool :=
  forallb (fun th => match t_pc th with PSetHead _ => false | _ => true end) (lq_threads c).

(** [_dispatch_queue_get_head]: waits until the head is set. *)
Definition get_head (c : lane) : option item := if head_visible c then head (lq_items c) else None.

Definition tail_set (c : lane) : bool := match lq_items c with [] => false | _ => true end.

(** The thread id of thread [i]. *)
Definition tid_of (i : nat) : Z := Z.of_nat i + 1.

Definition owned_word (b : bool) (n : Z) : Z :=
  (if b then DISPATCH_QUEUE_IN_BARRIER else 0) + n * DISPATCH_QUEUE_WIDTH_INTERVAL.

(** What the client or the environment does. *)
Inductive action :=
| AAsync (id : nat) (barrier : bool)
| ASync (id : nat) (barrier : bool)
| ASuspend
| AResume
| AWork                       (* a worker thread takes the lane from the target queue *)
| AWorkRedirected             (* a worker thread takes a redirected item *)
| ARun (qos : Z) (need_override : bool).   (* the next step of the thread *)

(** ** The steps *)

Section steps.
(** [dq_width], and whether the drain has [DISPATCH_INVOKE_REDIRECTING_DRAIN]. *)
Context (width : Z) (redirecting : bool).

Definition serial : bool := width =? 1.

(** *** Submission *)

(** [dispatch_async] and [dispatch_barrier_async] up to the first test of the tail:
    the push of a serial lane is [_dispatch_lane_push], the one of a concurrent
    lane [_dispatch_lane_concurrent_push]. *)
Definition _dispatch_lane_concurrent_push (i : nat) (it : item) (c : lane) : lane :=
  if negb serial && negb (tail_set c) && negb (it_barrier it) then go i (PConcPush it) c
  else go i (PLanePush it) c.

Definition concurrent_push_acquire (i : nat) (it : item) (th : thread) (c : lane) : lane :=
  match _dispatch_queue_try_acquire_async (lq_state c) with
  | Some new_state => go i (return_pc th) (add_redirected 1 (store new_state c))
  | None => go i (PLanePush it) c
  end.

(** The exchange of the tail; [need_override] is [_dispatch_queue_need_override]. *)
Definition _dispatch_lane_push (i : nat) (it : item) (need_override : bool) (th : thread) (c : lane) : lane :=
  if tail_set c
  then go i (if need_override then PWake false else return_pc th) (push_tail it c)
  else go i (PSetHead false) (push_tail it c).

(** *** Wakeups *)

Definition _dispatch_lane_wakeup (i : nat) (make_dirty : bool) (th : thread) (c : lane) : lane :=
  if tail_set c then go i (PWakeRmw make_dirty) c else go i (return_pc th) c.

Definition wakeup_rmw (i : nat) (qos : Z) (make_dirty : bool) (th : thread) (c : lane) : lane :=
  let old_state := lq_state c in
  match _dispatch_queue_wakeup qos DISPATCH_QUEUE_ENQUEUED make_dirty old_state with
  | None => go i (return_pc th) c
  | Some new_state =>
      if nz (Z.land (Z.lxor old_state new_state) DISPATCH_QUEUE_ENQUEUED)
      then go i PPushTQ (store new_state c)
      else go i (return_pc th) (store new_state c)
  end.

(** *** Invocation by a worker thread *)

(** [_dispatch_queue_class_invoke]: the drain lock. *)
Definition _dispatch_queue_class_invoke (i : nat) (oq_floor : Z) (th : thread) (c : lane) : lane :=
  match _dispatch_queue_drain_try_lock width (tid_of i) InvokePlain oq_floor (lq_state c) with
  | Crash _ => crash_lane c
  | Done (TryLockOverride qos) => go i (PInvoke qos) c
  | Done (TryLock new_state owned) =>
      if owned =? 0 then go i (return_pc th) (store new_state c)
      else go i (PDrainHead (_dq_state_is_in_barrier owned)
                   (Z.shiftr (Z.land owned DISPATCH_QUEUE_WIDTH_MASK) DISPATCH_QUEUE_WIDTH_SHIFT))
             (store new_state c)
  end.

Definition class_invoke_unlock (i : nat) (b : bool) (n : Z) (done : bool) (th : thread) (c : lane) : lane :=
  match _dispatch_queue_drain_try_unlock (owned_word b n + DISPATCH_QUEUE_ENQUEUED) done (lq_state c) with
  | Some new_state => go i (return_pc th) (store new_state c)
  | None => go i (PUnlockXor b n) c
  end.

(** [_dispatch_queue_invoke_finish] without a barrier waiter, after the adjustment
    of [owned] at the end of [_dispatch_lane_drain]. *)
Definition invoke_finish (i : nat) (b : bool) (n : Z) (next_barrier : bool) (th : thread) (c : lane) : lane :=
  let owned := _dispatch_queue_adjust_owned width (owned_word b n) (Some next_barrier) in
  let owned := Z.lor DISPATCH_QUEUE_ENQUEUED owned in
  let new_state := _dispatch_queue_invoke_finish owned DISPATCH_QUEUE_ENQUEUED (lq_state c) in
  if nz (Z.land (Z.lxor (sub64 (lq_state c) owned) new_state) DISPATCH_QUEUE_ENQUEUED)
  then go i PPushTQ (store new_state c)
  else go i (return_pc th) (store new_state c).

(** *** [_dispatch_lane_drain] *)

Definition lane_drain_enter (i : nat) (b : bool) (n : Z) (c : lane) : option lane :=
  if negb (tail_set c) then Some (go i (PUnlock b n true) c)
  else dc ← get_head c; Some (go i (PDrainItem (if serial || b then OBarrier else OWidth n) dc) c).

Definition lane_drain_next (i : nat) (o : owned) (c : lane) : option lane :=
  if negb (tail_set c) then
    Some (match o with
          | OBarrier => go i (PUnlock true width true) c
          | OWidth n => go i (PUnlock false n true) c
          end)
  else dc ← get_head c; Some (go i (PDrainItem o dc) c).

Definition lane_drain_first_iteration (i : nat) (o : owned) (dc : item) (c : lane) : lane :=
  if _dq_state_is_suspended (lq_state c) then
    match o with
    | OBarrier => go i (PFinish true width (it_barrier dc)) c
    | OWidth n => go i (PFinish false n (it_barrier dc)) c
    end
  else go i (PDrainGo o dc) c.

Definition lane_drain_item (i : nat) (o : owned) (dc : item) (c : lane) : lane :=
  if serial || it_barrier dc then
    match o with
    | OWidth n =>
        if serial then go i (PDrainGo OBarrier dc) c
        else
          let '(new_state, ok) := _dispatch_queue_try_upgrade_full_width width (n * DISPATCH_QUEUE_WIDTH_INTERVAL) (lq_state c) in
          if ok then go i (PDrainGo OBarrier dc) (store new_state c)
          else go i (PUnlock false 0 false) (store new_state c)
    | OBarrier =>
        match it_waiter dc with
        | Some _ => go i (PBWPop true dc) c
        | None => go i (PRunB dc) (pop_head dc c)
        end
    end
  else
    match o with
    | OBarrier => go i (PDrainPop width dc) (store (Z.lxor (lq_state c) DISPATCH_QUEUE_IN_BARRIER) c)
    | OWidth n =>
        if n =? 0 then
          match it_waiter dc with
          | Some _ => go i (PDrainPop 1 dc) (store (_dispatch_queue_reserve_sync_width (lq_state c)) c)
          | None =>
              match _dispatch_queue_try_acquire_async (lq_state c) with
              | Some new_state => go i (PDrainPop 1 dc) (store new_state c)
              | None => go i (PUnlock false 0 false) c
              end
          end
        else go i (PDrainPop n dc) c
    end.

Definition lane_drain_pop (i : nat) (n : Z) (dc : item) (c : lane) : lane :=
  match it_waiter dc with
  | Some j => signal j GWidth (go i (PDrainNext (OWidth (n - 1))) (pop_head dc c))
  | None =>
      if redirecting then go i (PDrainNext (OWidth (n - 1))) (add_redirected 1 (pop_head dc c))
      else go i (PRunNB n dc) (pop_head dc c)
  end.

(** *** [_dispatch_lane_drain_barrier_waiter] *)

Definition drain_barrier_waiter_pop (i : nat) (enqueued : bool) (dc : item) (c : lane) : option lane :=
  j ← it_waiter dc; Some (go i (PBWTransfer enqueued j) (pop_head dc c)).

Definition drain_barrier_waiter_transfer (i : nat) (enqueued : bool) (j : nat) (th : thread) (c : lane) : option lane :=
  new_state ← _dispatch_lane_drain_barrier_waiter (_dispatch_lock_value_from_tid (tid_of j))
    (if enqueued then DISPATCH_QUEUE_ENQUEUED else 0) (tail_set c) (lq_state c);
  Some (signal j GBarrier (go i (return_pc th) (store new_state c))).

(** *** Synchronous submission *)

Definition _dispatch_barrier_sync_f_inline (i : nat) (it : item) (c : lane) : lane :=
  match _dispatch_queue_try_acquire_barrier_sync width (tid_of i) (lq_state c) with
  | Some new_state => go i (PBSyncRun false) (store new_state c)
  | None => go i (PSlowPush it) c
  end.

Definition _dispatch_sync_f_inline (i : nat) (it : item) (c : lane) : lane :=
  if tail_set c then go i (PSlowPush it) c else go i (PTrySync it) c.

Definition sync_reserve (i : nat) (it : item) (c : lane) : lane :=
  match _dispatch_queue_try_reserve_sync_width (lq_state c) with
  | Some new_state => go i PSyncRun (store new_state c)
  | None => go i (PSlowPush it) c
  end.

(** [__DISPATCH_WAIT_FOR_QUEUE__]: the push of the sync context. *)
Definition _dispatch_sync_f_slow (i : nat) (it : item) (c : lane) : lane :=
  let th p := {| t_pc := p; t_wait := true; t_grant := GNone |} in
  if tail_set c then put i (th PWait) (push_tail it c) else put i (th (PSetHead true)) (push_tail it c).

Definition push_waiter_rmw (i : nat) (qos : Z) (th : thread) (c : lane) : lane :=
  let old_state := lq_state c in
  let new_state := _dispatch_lane_push_waiter width (tid_of i) qos old_state in
  if nz (Z.land (Z.lxor old_state new_state) DISPATCH_QUEUE_IN_BARRIER)
  then go i PBC (store new_state c) else go i (return_pc th) (store new_state c).

(** [_dispatch_thread_event_wait]: blocked until signalled. *)
Definition thread_event_wait (i : nat) (th : thread) (c : lane) : option lane :=
  let woken p := {| t_pc := p; t_wait := false; t_grant := GNone |} in
  match t_grant th with
  | GNone => None
  | GBarrier => Some (put i (woken (PBSyncRun true)) c)
  | GWidth => Some (put i (woken PSyncRun) c)
  end.

(** *** Completion *)

Definition complete_next (i : nat) (a : complete_action) (th : thread) (c : lane) : lane :=
  match a with
  | CompleteBarrier => go i PBC c
  | CompletePush => go i PPushTQ c
  | CompleteNothing => go i (return_pc th) c
  end.

Definition non_barrier_complete (i : nat) (th : thread) (c : lane) : lane :=
  let old_state := lq_state c in
  let new_state := _dispatch_lane_non_barrier_complete width (tid_of i) old_state in
  complete_next i (_dispatch_lane_non_barrier_complete_finish old_state new_state) th (store new_state c).

Definition _dispatch_lane_barrier_sync_invoke_and_complete (i : nat) (slow : bool) (c : lane) : lane :=
  if slow || tail_set c || (1 <? width) then go i PBC c else go i PBSyncUnlock c.

Definition barrier_sync_unlock (i : nat) (th : thread) (c : lane) : lane :=
  match _dispatch_lane_barrier_sync_unlock (lq_state c) with
  | Some new_state => go i (return_pc th) (store new_state c)
  | None => go i PBC c
  end.

(** [_dispatch_lane_barrier_complete] with the head of the queue at hand. *)
Definition _dispatch_lane_barrier_complete (i : nat) (dc : item) (c : lane) : lane :=
  if serial || it_barrier dc then
    match it_waiter dc with
    | Some _ => go i (PBWPop false dc) c
    | None => go i (PClassBC true) c
    end
  else go i (PNBStart dc) c.

Definition class_barrier_complete (i : nat) (qos : Z) (target : bool) (th : thread) (c : lane) : lane :=
  let owned := DISPATCH_QUEUE_IN_BARRIER + width * DISPATCH_QUEUE_WIDTH_INTERVAL in
  let enqueue := if target then DISPATCH_QUEUE_ENQUEUED else 0 in
  match _dispatch_lane_class_barrier_complete qos enqueue owned (lq_state c) with
  | None => go i PClassBCXor c
  | Some new_state =>
      let old_state := sub64 (lq_state c) owned in
      if negb (_dq_state_drain_locked_by old_state (tid_of i)) || _dq_state_is_enqueued_on_manager old_state
      then crash_lane c
      else if target && nz (Z.land (Z.lxor old_state new_state) enqueue) then go i PPushTQ (store new_state c)
      else go i (return_pc th) (store new_state c)
  end.

(** *** [_dispatch_lane_drain_non_barriers] *)

Definition drain_non_barriers_take (i : nat) (n : Z) (dc : item) (c : lane) : lane :=
  if negb (n =? 0) then go i (PNBPop (n - 1) dc) c
  else match it_waiter dc with
  | Some _ => go i (PNBPop 0 dc) (store (_dispatch_queue_reserve_sync_width (lq_state c)) c)
  | None =>
      match _dispatch_queue_try_acquire_async (lq_state c) with
      | Some new_state => go i (PNBPop 0 dc) (store new_state c)
      | None => go i (PNBEnd 0 (Some dc)) c
      end
  end.

(** Where the loop goes with [next_dc]. *)
Definition nb_next (n : Z) (next_dc : option item) : pc :=
  match next_dc with
  | Some dc => if it_barrier dc then PNBEnd n (Some dc) else PNBLoop n dc
  | None => PNBEnd n None
  end.

Definition drain_non_barriers_pop (i : nat) (n : Z) (dc : item) (c : lane) : lane :=
  let c := pop_head dc c in
  let p := nb_next n (head (lq_items c)) in
  match it_waiter dc with
  | Some j => signal j GWidth (go i p c)
  | None => go i p (add_redirected 1 c)
  end.

Definition drain_non_barriers_end (i : nat) (n : Z) (dc : option item) (th : thread) (c : lane) : lane :=
  let owned := n * DISPATCH_QUEUE_WIDTH_INTERVAL in
  let owned := match dc with
    | Some dc => _dispatch_queue_adjust_owned width owned (Some (it_barrier dc))
    | None => owned
    end in
  let has_dc := match dc with Some _ => true | None => false end in
  match _dispatch_lane_drain_non_barriers_unlock width (tid_of i) owned has_dc (lq_state c) with
  | None => go i (PNBXor n) c
  | Some new_state =>
      complete_next i (_dispatch_lane_non_barrier_complete_finish (sub64 (lq_state c) owned) new_state) th
        (store new_state c)
  end.

(** *** Suspension *)

(** [None]: the count is beyond what the lane can hold, or the call retries. *)
Definition lane_suspend_step (i : nat) (c : lane) : option lane :=
  match _dispatch_lane_suspend (lq_state c) with
  | Some new_state => Some (store new_state c)
  | None =>
      match _dispatch_lane_suspend_slow (lq_side c) (lq_state c) with
      | Done (Some (new_state, n)) => Some (store_side n (store new_state c))
      | _ => None
      end
  end.

Definition lane_resume_step (i : nat) (c : lane) : option lane :=
  let old_state := lq_state c in
  match _dispatch_lane_resume_plain width (tid_of i) false old_state with
  | ResumeStore new_state =>
      match _dispatch_lane_resume_next false old_state new_state with
      | Crash _ => Some (crash_lane c)
      | Done ActBarrierComplete => Some (go i PBC (store new_state c))
      | Done ActWakeup => Some (go i (PWake false) (store new_state c))
      | Done (ActReturn | ActRelease) => Some (store new_state c)
      | Done ActActivate => None
      end
  | ResumeSlow =>
      '(new_state, n) ← _dispatch_lane_resume_slow (lq_side c) old_state;
      Some (store_side n (store new_state c))
  | ResumeReturn | ResumeOver => None
  end.

(** *** One step of thread [i] *)

Definition run_step (c : lane) (i : nat) (th : thread) (qos : Z) (need_override : bool) : option lane :=
  match t_pc th with
  | PIdle => None
  | PConcPush it => Some (concurrent_push_acquire i it th c)
  | PLanePush it => Some (_dispatch_lane_push i it need_override th c)
  | PSetHead waiter => Some (go i (if waiter then PPushWaiter else PWake true) c)
  | PWake make_dirty => Some (_dispatch_lane_wakeup i make_dirty th c)
  | PWakeRmw make_dirty => Some (wakeup_rmw i qos make_dirty th c)
  | PPushTQ => Some (go i (return_pc th) (add_tq 1 c))
  | PInvoke floor => Some (_dispatch_queue_class_invoke i floor th c)
  | PDrainHead b n => lane_drain_enter i b n c
  | PUnlock b n done => Some (class_invoke_unlock i b n done th c)
  | PUnlockXor b n => Some (go i (PDrainHead b n) (store (xor_dirty (lq_state c)) c))
  | PFinish b n nb => Some (invoke_finish i b n nb th c)
  | PDrainItem o dc => Some (lane_drain_first_iteration i o dc c)
  | PDrainGo o dc => Some (lane_drain_item i o dc c)
  | PDrainPop n dc => Some (lane_drain_pop i n dc c)
  | PRunB _ => Some (go i (PDrainNext OBarrier) c)
  | PRunNB n _ => Some (go i (PDrainNext (OWidth n)) c)
  | PDrainNext o => lane_drain_next i o c
  | PBWPop e dc => drain_barrier_waiter_pop i e dc c
  | PBWTransfer e j => drain_barrier_waiter_transfer i e j th c
  | PTrySync it => Some (sync_reserve i it c)
  | PSlowPush it => Some (_dispatch_sync_f_slow i it c)
  | PPushWaiter => Some (push_waiter_rmw i qos th c)
  | PWait => thread_event_wait i th c
  | PSyncRun => Some (go i (PNBComplete true) c)
  | PBSyncRun slow => Some (_dispatch_lane_barrier_sync_invoke_and_complete i slow c)
  | PBSyncUnlock => Some (barrier_sync_unlock i th c)
  | PAsyncRun => Some (go i (PNBComplete false) c)
  | PNBComplete _ => Some (non_barrier_complete i th c)
  | PBC => Some (go i (if tail_set c then PBCSusp else PClassBC false) c)
  | PBCSusp => Some (go i (if _dq_state_is_suspended (lq_state c) then PClassBC false else PBCHead) c)
  | PBCHead => dc ← get_head c; Some (_dispatch_lane_barrier_complete i dc c)
  | PClassBC target => Some (class_barrier_complete i qos target th c)
  | PClassBCXor => Some (go i PBC (store (xor_dirty (lq_state c)) c))
  | PNBStart dc => Some (go i (PNBLoop width dc) (store (clear64 (lq_state c) DISPATCH_QUEUE_IN_BARRIER) c))
  | PNBLoop n dc => Some (drain_non_barriers_take i n dc c)
  | PNBPop n dc => Some (drain_non_barriers_pop i n dc c)
  | PNBEnd n dc => Some (drain_non_barriers_end i n dc th c)
  | PNBXor n => Some (go i (PNBReload n) (store (xor_dirty (lq_state c)) c))
  | PNBReload n => Some (go i (nb_next n (get_head c)) c)
  end.

Definition idle (th : thread) : bool := match t_pc th with PIdle => true | _ => false end.

Definition lane_step (c : lane) (i : nat) (a : action) : option lane :=
  th ← lq_threads c !! i;
  match a with
  | ARun qos need_override => if (0 <=? qos) && (qos <? 8) then run_step c i th qos need_override else None
  | AAsync id barrier =>
      if idle th then Some (_dispatch_lane_concurrent_push i {| it_id := id; it_barrier := barrier; it_waiter := None |} c)
      else None
  | ASync id barrier =>
      let it := {| it_id := id; it_barrier := barrier || serial; it_waiter := Some i |} in
      if idle th then
        Some (if barrier || serial then _dispatch_barrier_sync_f_inline i it c else _dispatch_sync_f_inline i it c)
      else None
  | ASuspend => if idle th then lane_suspend_step i c else None
  | AResume => if idle th then lane_resume_step i c else None
  | AWork => if idle th && (0 <? lq_tq c) then Some (go i (PInvoke 0) (add_tq (-1) c)) else None
  | AWorkRedirected =>
      if idle th && (0 <? lq_redirected c) then Some (go i PAsyncRun (add_redirected (-1) c)) else None
  end.

(** A fresh lane used by [n] threads. *)
Definition lane_init (n : nat) : lane :=
  {| lq_state := Z.lor (DISPATCH_QUEUE_STATE_INIT_VALUE width) DISPATCH_QUEUE_ROLE_BASE_ANON; lq_side := 0;
     lq_items := []; lq_tq := 0; lq_redirected := 0;
     lq_threads := replicate n {| t_pc := PIdle; t_wait := false; t_grant := GNone |};
     lq_crashed := false; lq_pushed := []; lq_popped := [] |}.
End steps.
