(* ===== verification/LaneInv.v ===== *)
(** * The invariant of a lane

    Weights count the threads at the program points of [Lane.v]; the invariant
    relates the counts to the fields of the state word. *)

From S2P Require Import Prelude Threads DqState LaneRmw LaneFields Lane.

(** ** Weights *)

(** Owners of the drain lock in barrier mode ... *)
Definition pB (p : pc) : Z :=
  match p with
  | PDrainHead true _ | PUnlock true _ _ | PUnlockXor true _ | PFinish true _ _
  | PDrainItem OBarrier _ | PDrainGo OBarrier _ | PRunB _ | PDrainNext OBarrier
  | PBWPop _ _ | PBWTransfer _ _ | PBSyncRun _ | PBSyncUnlock
  | PBC | PBCSusp | PBCHead | PClassBC _ | PClassBCXor | PNBStart _ => 1
  | _ => 0
  end.

(** ... and in width mode. *)
Definition pD (p : pc) : Z :=
  match p with
  | PDrainHead false _ | PUnlock false _ _ | PUnlockXor false _ | PFinish false _ _
  | PDrainItem (OWidth _) _ | PDrainGo (OWidth _) _ | PDrainPop _ _ | PRunNB _ _ | PDrainNext (OWidth _)
  | PNBLoop _ _ | PNBPop _ _ | PNBEnd _ _ | PNBXor _ | PNBReload _ => 1
  | _ => 0
  end.

(** The width an owner in width mode holds. *)
Definition pN (p : pc) : Z :=
  match p with
  | PDrainHead false n | PUnlock false n _ | PUnlockXor false n | PFinish false n _
  | PDrainItem (OWidth n) _ | PDrainGo (OWidth n) _ | PRunNB n _ | PDrainNext (OWidth n)
  | PNBLoop n _ | PNBPop n _ | PNBEnd n _ | PNBXor n | PNBReload n => n
  | PDrainPop n dc => match it_waiter dc with Some _ => n - 1 | None => n end
  | _ => 0
  end.

(** Width held for synchronous readers and for redirected items. *)
Definition pS (p : pc) : Z :=
  match p with
  | PSyncRun | PNBComplete true => 1
  | PDrainPop _ dc | PNBPop _ dc => match it_waiter dc with Some _ => 1 | None => 0 end
  | _ => 0
  end.

Definition pA (p : pc) : Z :=
  match p with
  | PAsyncRun | PNBComplete false => 1
  | PNBPop _ dc => match it_waiter dc with Some _ => 0 | None => 1 end
  | _ => 0
  end.

(** Threads that hold the ENQUEUED bit. *)
Definition pT (p : pc) : Z :=
  match p with
  | PPushTQ | PInvoke _ | PDrainHead _ _ | PUnlock _ _ _ | PUnlockXor _ _ | PFinish _ _ _
  | PDrainItem _ _ | PDrainGo _ _ | PDrainPop _ _ | PRunB _ | PRunNB _ _ | PDrainNext _
  | PBWPop true _ | PBWTransfer true _ => 1
  | _ => 0
  end.

(** Threads about to set DIRTY, and those about to wake the lane up. *)
Definition pK (p : pc) : Z :=
  match p with PSetHead _ | PWake true | PWakeRmw true | PPushWaiter => 1 | _ => 0 end.
Definition pW (p : pc) : Z :=
  match p with PSetHead _ | PWake _ | PWakeRmw _ | PPushWaiter => 1 | _ => 0 end.

(** Owners that will look at the queue again before they unlock it. *)
Definition pL (p : pc) : Z :=
  match p with
  | PUnlock _ _ _ | PBSyncUnlock | PClassBC false | PNBEnd _ None => 0
  | _ => pB p + pD p
  end.

(** Owners about to unlock because there is no width. *)
Definition pU (p : pc) : Z := match p with PUnlock _ _ false => 1 | _ => 0 end.

Definition gB (th : thread) : Z := match t_grant th with GBarrier => 1 | _ => 0 end.
Definition gS (th : thread) : Z := match t_grant th with GWidth => 1 | _ => 0 end.

Definition wB (th : thread) : Z := pB (t_pc th) + gB th.
Definition wD (th : thread) : Z := pD (t_pc th).
Definition wN (th : thread) : Z := pN (t_pc th).
Definition wS (th : thread) : Z := pS (t_pc th) + gS th.
Definition wA (th : thread) : Z := pA (t_pc th).
Definition wT (th : thread) : Z := pT (t_pc th).
Definition wK (th : thread) : Z := pK (t_pc th).
Definition wW (th : thread) : Z := pW (t_pc th).
Definition wL (th : thread) : Z := pL (t_pc th) + gB th.
Definition wU (th : thread) : Z := pU (t_pc th).
Definition wO (th : thread) : Z := wB th + wD th.

(** Non-barrier items in flight: redirected, granted to a waiter, or running
    outside the drain. *)
Definition in_flight (c : lane) : Z := lq_redirected c + tally wA (lq_threads c) + tally wS (lq_threads c).

Section invariant.
Context (width : Z).

(** What an owner at [p] knows of the queue and the word. *)
Definition owner_ok (items : list item) (f : fields) (p : pc) : Prop :=
  match p with
  | PDrainItem o dc => head items = Some dc
  | PDrainGo o dc => head items = Some dc
  | PDrainPop n dc => head items = Some dc /\ it_barrier dc = false
  | PBWPop e dc => head items = Some dc
  | PNBStart dc => head items = Some dc /\ it_barrier dc = false
  | PNBLoop n dc => head items = Some dc /\ it_barrier dc = false
  | PNBPop n dc => head items = Some dc /\ it_barrier dc = false
  | PNBEnd n (Some dc) => head items = Some dc /\ pb f = 0
  | PNBEnd n None | PNBReload n => pb f = 0
  | PNBXor n => dirty f = 1 /\ pb f = 0
  | PFinish b n nb => (exists dc, head items = Some dc /\ it_barrier dc = nb) /\ (b = false -> pb f = 0)
  | PDrainHead true n => n = width \/ items <> []
  | PUnlockXor _ _ | PClassBCXor => dirty f = 1
  | PBCSusp | PBCHead => items <> []
  | _ => True
  end.

(** What holds of a program point whatever the other threads do. *)
Definition pc_ok (p : pc) : Prop :=
  (match p with
  | PUnlock true n d | PFinish true n d => n = width
  | PUnlockXor true n => n = width
  | PDrainHead false n | PUnlock false n _ | PUnlockXor false n | PFinish false n _
  | PDrainItem (OWidth n) _ | PDrainGo (OWidth n) _ | PDrainNext (OWidth n)
  | PNBLoop n _ | PNBPop n _ | PNBEnd n _ | PNBXor n | PNBReload n => 0 <= n /\ 2 <= width
  | PRunNB n _ | PDrainPop n _ => 1 <= n /\ 2 <= width
  | PInvoke floor => True
  | PNBStart _ => 2 <= width
  | PBSyncUnlock => width = 1
  | PBWPop _ dc => is_Some (it_waiter dc)
  | PTrySync it | PConcPush it => it_barrier it = false /\ 2 <= width
  | _ => True
  end)
  /\ (match p with PUnlock true _ d => d = true | PUnlock false n false => n = 0 | _ => True end).

(** Waiting and the program point. *)
Definition wait_ok (i : nat) (th : thread) : Prop :=
  match t_pc th with
  | PWait | PPushWaiter | PSetHead true => t_wait th = true
  | PIdle => t_wait th = false
  | PSlowPush it | PTrySync it => t_wait th = false /\ it_waiter it = Some i
  | PConcPush it | PLanePush it => it_waiter it = None
  | _ => True
  end.

Definition thread_ok (items : list item) (f : fields) (i : nat) (th : thread) : Prop :=
  pc_ok (t_pc th) /\ wait_ok i th /\ (1 <= wO th -> own f = tid_of i /\ owner_ok items f (t_pc th)).

Abbreviation waiters := (omap it_waiter).

(** Who waits: the threads of the sync items in the queue and of a transfer. *)
Record waits_ok (items : list item) (ths : list thread) : Prop := {
  wo_nodup : NoDup (waiters items);
  wo_items : forall j, j ∈ waiters items -> exists th, ths !! j = Some th /\ t_wait th = true /\ t_grant th = GNone;
  wo_transfer : forall i th e j, ths !! i = Some th -> t_pc th = PBWTransfer e j ->
    (j ∉ waiters items) /\ exists th', ths !! j = Some th' /\ t_wait th' = true /\ t_grant th' = GNone;
  wo_all : forall j th, ths !! j = Some th -> t_wait th = true -> t_grant th = GNone ->
    j ∈ waiters items \/ exists i th' e, ths !! i = Some th' /\ t_pc th' = PBWTransfer e j;
  wo_grant : forall j th, ths !! j = Some th -> t_grant th <> GNone -> t_wait th = true;
}.

(** The counts of all threads. *)
Record counts := Counts { cO : Z; cB : Z; cT : Z; cS : Z; cA : Z; cN : Z; cK : Z; cW : Z; cL : Z; cU : Z }.

Definition count_one (th : thread) : counts :=
  Counts (wO th) (wB th) (wT th) (wS th) (wA th) (wN th) (wK th) (wW th) (wL th) (wU th).
Definition count_all (ths : list thread) : counts :=
  Counts (tally wO ths) (tally wB ths) (tally wT ths) (tally wS ths) (tally wA ths) (tally wN ths)
         (tally wK ths) (tally wW ths) (tally wL ths) (tally wU ths).
(** [c - a + b] *)
Definition count_swap (c a b : counts) : counts :=
  Counts (cO c - cO a + cO b) (cB c - cB a + cB b) (cT c - cT a + cT b) (cS c - cS a + cS b) (cA c - cA a + cA b)
         (cN c - cN a + cN b) (cK c - cK a + cK b) (cW c - cW a + cW b) (cL c - cL a + cL b) (cU c - cU a + cU b).

(** Somebody will serve a queue that is not empty. *)
Definition served (f : fields) (items : list item) (red : Z) (k : counts) : Prop :=
  items <> [] -> na f + ina f + ssc f + sc f <= 0 ->
  (own f = 0 -> 0 < enq f \/ 0 < cW k \/ 0 < red + cA k + cS k) /\
  (own f <> 0 -> dirty f = 1 \/ 0 < cK k \/ 0 < cL k \/ (0 < cU k /\ 0 < red + cA k + cS k)).

(** The word against the counts: [red] redirected items, the lane [tq] times on its
    target queue. *)
Record books (f : fields) (items : list item) (tq red : Z) (k : counts) : Prop := {
  bk_tq : 0 <= tq;
  bk_red : 0 <= red;
  bk_owner : (own f = 0 /\ cO k = 0) \/ (own f <> 0 /\ cO k = 1);
  bk_barrier : ib f = cB k;
  bk_tokens : enq f = tq + cT k;
  bk_full : ib f = 1 -> wd f = 0x1000 /\ pb f = 0 /\ red + cA k + cS k = 0;
  bk_width : ib f = 0 -> pb f = 0 -> wd f = 0x1000 - width + (red + cA k + cS k) + cN k;
  bk_pending : pb f = 1 -> ib f = 0 /\ wd f = 0xfff + (red + cA k + cS k) /\ cN k = 0 /\ 2 <= width;
  bk_async : red + cA k + cN k <= width;
  bk_head : pb f = 1 -> exists dc, head items = Some dc /\ it_barrier dc = true;
  bk_served : served f items red k;
}.

(** The word of an active lane on a root queue. *)
Record word_ok (st : Z) (side : Z) (f : fields) : Prop := {
  wk_wf : wf f;
  wk_word : st = word f;
  wk_plain : em f = 0 /\ DqState.st f = 0 /\ role f = 1;
  wk_active : na f = 0 /\ ina f = 0;
  wk_side : 0 <= side < 2 ^ 32 /\ side mod 32 = 0 /\ ssc f = Z.b2z (0 <? side);
}.

Record inv (c : lane) (f : fields) : Prop := {
  inv_word : word_ok (lq_state c) (lq_side c) f;
  inv_size : Z.of_nat (length (lq_threads c)) < 2 ^ 30 - 1;
  inv_books : books f (lq_items c) (lq_tq c) (lq_redirected c) (count_all (lq_threads c));
  inv_threads : forall i th, lq_threads c !! i = Some th -> thread_ok (lq_items c) f i th;
  inv_waits : waits_ok (lq_items c) (lq_threads c);
  inv_crash : lq_crashed c = false;
  inv_fifo : lq_pushed c = lq_popped c ++ lq_items c;
}.
End invariant.

(** ** Counting *)

Lemma pc_nonneg p : 0 <= pB p /\ 0 <= pD p /\ pB p + pD p <= 1 /\ 0 <= pS p /\ 0 <= pA p /\ 0 <= pT p
  /\ 0 <= pK p <= pW p /\ 0 <= pL p <= pB p + pD p /\ 0 <= pU p <= pB p + pD p.
Proof.
  destruct p; repeat match goal with b : bool |- _ => destruct b | o : owned |- _ => destruct o | o : option item |- _ => destruct o end;
    cbn; try destruct (it_waiter _); lia.
Qed.

Lemma th_nonneg th : 0 <= wB th /\ 0 <= wO th /\ 0 <= wS th /\ 0 <= wA th /\ 0 <= wT th
  /\ 0 <= wK th <= wW th /\ 0 <= wL th <= wO th /\ 0 <= wU th <= wO th /\ wB th <= wO th.
Proof.
  unfold wO, wB, wD, wS, wA, wT, wK, wW, wL, wU, gB, gS. pose proof (pc_nonneg (t_pc th)).
  destruct (t_grant th); lia.
Qed.

(** A thread that owns nothing weighs nothing as an owner. *)
Lemma not_owner_N th : wO th = 0 -> wN th = 0.
Proof.
  unfold wO, wB, wD, gB, wN. intros H. pose proof (pc_nonneg (t_pc th)).
  assert (pD (t_pc th) = 0) as HD by (destruct (t_grant th); lia).
  destruct (t_pc th); repeat match goal with b : bool |- _ => destruct b | o : owned |- _ => destruct o end; cbn in *; lia.
Qed.

Lemma tally_alter {T} (g : T -> Z) (h : T -> T) l i x :
  l !! i = Some x -> tally g (alter h i l) = tally g l - g x + g (h x).
Proof.
  revert i. induction l as [|y l IH]; intros [|i] Hi; simplify_eq/=; [lia|].
  fold (alter h i l). rewrite (IH i Hi). lia.
Qed.

Lemma tally_sole {T} (f g : T -> Z) l i x : (forall y, 0 <= f y) -> (forall y, f y = 0 -> g y = 0) ->
  l !! i = Some x -> tally f l = f x -> tally g l = g x.
Proof.
  intros Hf Hg. revert i. induction l as [|y l IH]; intros [|i] Hi E; simplify_eq/=.
  - assert (tally f l = 0) as E0 by lia. rewrite (tally_zero g l); [lia|]. intros i z Hz. apply Hg.
    pose proof (tally_ge f l i z Hf Hz). specialize (Hf z). lia.
  - pose proof (tally_ge f l i x Hf Hi). pose proof (Hf y). rewrite (Hg y) by lia. rewrite (IH i) by (done || lia). lia.
Qed.

Lemma tally_others {T} (f : T -> Z) l i j x y : (forall z, 0 <= f z) -> l !! i = Some x -> tally f l = f x ->
  j <> i -> l !! j = Some y -> f y = 0.
Proof.
  intros Hf. revert i j. induction l as [|z l IH]; intros [|i] [|j] Hi E Hij Hj; simplify_eq/=.
  - pose proof (tally_ge f l j y Hf Hj). pose proof (Hf y). lia.
  - pose proof (tally_ge f l i x Hf Hi). pose proof (Hf y). lia.
  - pose proof (tally_ge f l i x Hf Hi). pose proof (Hf z). apply (IH i j); try done; lia.
Qed.

Lemma tally_none {T} (f g : T -> Z) l : (forall y, 0 <= f y) -> (forall y, f y = 0 -> g y = 0) ->
  tally f l = 0 -> tally g l = 0.
Proof.
  intros Hf Hg E. apply tally_zero. intros i x Hi. apply Hg. pose proof (tally_ge f l i x Hf Hi). specialize (Hf x). lia.
Qed.

Lemma tally_mono {T} (f g : T -> Z) l : (forall y, f y <= g y) -> tally f l <= tally g l.
Proof. intros H. induction l as [|x l IH]; simpl; [lia|]. specialize (H x). lia. Qed.

Lemma count_alter h ths i th : ths !! i = Some th ->
  count_all (alter h i ths) = count_swap (count_all ths) (count_one th) (count_one (h th)).
Proof. intros Hi. unfold count_all, count_swap, count_one. cbn. by rewrite !(tally_alter _ h ths i th Hi). Qed.

Lemma count_insert th' ths i th : ths !! i = Some th ->
  count_all (<[i := th']> ths) = count_swap (count_all ths) (count_one th) (count_one th').
Proof. intros Hi. unfold count_all, count_swap, count_one. cbn. by rewrite !(tally_insert _ ths i th th' Hi). Qed.

(** Bounds that hold of the counts of any threads. *)
Lemma count_bounds ths : let k := count_all ths in
  0 <= cO k /\ 0 <= cB k <= cO k /\ 0 <= cT k /\ 0 <= cS k /\ 0 <= cA k /\ 0 <= cK k <= cW k /\ 0 <= cL k <= cO k /\ 0 <= cU k <= cO k.
Proof.
  cbn. repeat match goal with |- _ /\ _ => split | |- _ <= _ <= _ => split end;
    first [apply tally_nonneg | apply tally_mono]; intros th; pose proof (th_nonneg th); lia.
Qed.

(** Only the owner weighs as one. *)
Lemma count_owner ths i th : ths !! i = Some th -> tally wO ths = 1 -> wO th = 1 ->
  let k := count_all ths in cB k = wB th /\ cN k = wN th /\ cL k = wL th /\ cU k = wU th.
Proof.
  intros Hi E1 E2. cbn. repeat split; apply (tally_sole wO _ ths i th); try done; try lia;
    intros y; pose proof (th_nonneg y); try lia. apply not_owner_N.
Qed.

Lemma count_no_owner ths : tally wO ths = 0 ->
  let k := count_all ths in cB k = 0 /\ cN k = 0 /\ cL k = 0 /\ cU k = 0.
Proof.
  intros E. cbn. repeat split; apply (tally_none wO); try done; intros y; pose proof (th_nonneg y); try lia. apply not_owner_N.
Qed.
