(* ===== verification/LaneStep.v ===== *)
(** * Proof steps for the lane invariant

    Lemmas and tactics that carry the invariant of [LaneInv.v] over one step of
    [Lane.v]: what a step may change for the other threads, how the counts move
    with a thread, and how the pieces are put back together. *)

From S2P Require Import Prelude Threads DqState LaneRmw LaneFields Lane LaneInv.

Section infra.
Context {width : Z}.

(** ** Owners *)

Lemma owner_facts c f i th : inv width c f -> lq_threads c !! i = Some th -> wO th = 1 ->
  let k := count_all (lq_threads c) in
  own f = tid_of i /\ own f <> 0 /\ cO k = 1 /\ cB k = wB th /\ cN k = wN th /\ cL k = wL th /\ cU k = wU th
  /\ forall j y, j <> i -> lq_threads c !! j = Some y -> wO y = 0.
Proof.
  intros H Hi Ho k. destruct (inv_threads _ _ _ H i th Hi) as (_ & _ & Hown). destruct Hown as [Hown _]; [lia|].
  assert (own f <> 0) as Hn by (rewrite Hown; unfold tid_of; lia).
  pose proof (bk_owner _ _ _ _ _ _ (inv_books _ _ _ H)) as [[? _]|[_ E]]; [done|].
  destruct (count_owner _ i th Hi E Ho) as (E1 & E2 & E3 & E4). split_and!; try done.
  intros j y Hj Hy. apply (tally_others wO (lq_threads c) i j th y); try done; [|by rewrite Ho].
  intros z. pose proof (th_nonneg z). lia.
Qed.

Lemma free_facts c f : inv width c f -> own f = 0 ->
  let k := count_all (lq_threads c) in
  cO k = 0 /\ cB k = 0 /\ cN k = 0 /\ cL k = 0 /\ cU k = 0 /\ forall j y, lq_threads c !! j = Some y -> wO y = 0.
Proof.
  intros H Ho k. pose proof (bk_owner _ _ _ _ _ _ (inv_books _ _ _ H)) as [[_ E]|[? _]]; [|done].
  destruct (count_no_owner _ E) as (E1 & E2 & E3 & E4). split_and!; try done.
  intros j y Hy. pose proof (tally_ge wO _ j y ltac:(intros z; pose proof (th_nonneg z); lia) Hy). pose proof (th_nonneg y).
  cbn in E. lia.
Qed.

(** Nobody holds a negative width. *)
Lemma pc_width_nonneg p : pc_ok width p -> 0 <= pN p.
Proof.
  intros [Hp _]. destruct p; cbn in *; try lia;
    repeat match goal with H : context [match ?x with _ => _ end] |- _ => destruct x end;
    try match goal with |- context [it_waiter ?d] => destruct (it_waiter d) end; lia.
Qed.

Lemma width_nonneg c f : inv width c f -> 0 <= cN (count_all (lq_threads c)).
Proof.
  intros H. cbn [cN count_all].
  assert (forall i th, lq_threads c !! i = Some th -> 0 <= wN th) as Hn.
  { intros i th Hi. destruct (inv_threads _ _ _ H i th Hi) as (Hp & _ & _). by apply pc_width_nonneg. }
  clear H. induction (lq_threads c) as [|x l IH]; cbn; [lia|].
  pose proof (Hn 0%nat x eq_refl). assert (0 <= tally wN l) by (apply IH; intros i; apply (Hn (S i))). lia.
Qed.

(** ** The other threads *)

Lemma thread_ok_not_owner items f items' f' i th : wO th = 0 -> thread_ok width items f i th -> thread_ok width items' f' i th.
Proof. intros H (H1 & H2 & _). split; [done|]. split; [done|]. lia. Qed.

Lemma owner_ok_mono items l f f' p : pb f' = pb f -> (dirty f = 1 -> dirty f' = 1) -> owner_ok width items f p -> owner_ok width (items ++ l) f' p.
Proof.
  intros Hb Hd H. assert (forall dc, head items = Some dc -> head (items ++ l) = Some dc) as Hh by (by destruct items).
  destruct p as [| | | | | | | |[] n| | | | | | | | | | | | | | | | | | | | | | | | | | | | |n [dc|]| |]; cbn in *;
    first [exact I | exact (Hh _ H) | exact (Hd H) | by rewrite Hb | by destruct items | by destruct H as [H ?]; split; [apply Hh|rewrite ?Hb] | by destruct H as [H ?]; split; [apply Hd|rewrite Hb] | idtac].
  - destruct H as [->|H]; [by left|]. right. by destruct items.
  - destruct H as [(dc & H & <-) H2]. split; [exists dc; by split; [apply Hh|]|]. by rewrite Hb.
Qed.

Lemma thread_ok_mono items l f f' i th : own f' = own f -> pb f' = pb f -> (dirty f = 1 -> dirty f' = 1) ->
  thread_ok width items f i th -> thread_ok width (items ++ l) f' i th.
Proof.
  intros Ho Hb Hd (H1 & H2 & H3). split; [done|]. split; [done|]. intros Hk. destruct (H3 Hk) as [E1 E2].
  split; [congruence|]. by apply (owner_ok_mono items l f f').
Qed.

(** What a step of thread [i] may do to what the others rely on: nothing, or
    anything if none of them owns the lane. *)
Definition keeps (c : lane) (f : fields) (th : thread) (items' : list item) (f' : fields) : Prop :=
  (own f' = own f /\ pb f' = pb f /\ (dirty f = 1 -> dirty f' = 1) /\ exists l, items' = lq_items c ++ l)
  \/ wO th = 1 \/ own f = 0.

Lemma keeps_others c f i th items' f' : inv width c f -> lq_threads c !! i = Some th -> keeps c f th items' f' ->
  forall j y, j <> i -> lq_threads c !! j = Some y -> thread_ok width items' f' j y.
Proof.
  intros H Hi Hk j y Hj Hy. pose proof (inv_threads _ _ _ H j y Hy) as Ht. destruct Hk as [(E1 & E0 & E2 & l & ->)|[Ho|Ho]].
  - by apply (thread_ok_mono _ l f).
  - apply (thread_ok_not_owner (lq_items c) f); [|done]. destruct (owner_facts c f i th H Hi Ho) as (_ & _ & _ & _ & _ & _ & _ & Hall). eauto.
  - apply (thread_ok_not_owner (lq_items c) f); [|done]. destruct (free_facts c f H Ho) as (_ & _ & _ & _ & _ & Hall). eauto.
Qed.

(** ** Waiting *)

Definition transfer (p : pc) : option nat := match p with PBWTransfer _ j => Some j | _ => None end.

Lemma waits_same items items' ths i th p : waits_ok items ths -> ths !! i = Some th ->
  omap it_waiter items' = omap it_waiter items -> transfer (t_pc th) = None -> transfer p = None ->
  waits_ok items' (alter (with_pc p) i ths).
Proof.
  intros [H1 H2 H3 H4 H5] Hi E Ht Hp.
  assert (forall j y, ths !! j = Some y -> exists y', alter (with_pc p) i ths !! j = Some y' /\ t_wait y' = t_wait y /\ t_grant y' = t_grant y) as Hfw.
  { intros j y Hy. destruct (decide (i = j)) as [<-|]; [|rewrite list_lookup_alter_ne by done; eauto].
    rewrite list_lookup_alter_eq, Hy. eexists. split; [done|]. done. }
  assert (forall j y, alter (with_pc p) i ths !! j = Some y ->
    exists y0, ths !! j = Some y0 /\ t_wait y = t_wait y0 /\ t_grant y = t_grant y0 /\ (transfer (t_pc y) <> None -> y = y0)) as Hbw.
  { intros j y. destruct (decide (i = j)) as [<-|]; [|rewrite list_lookup_alter_ne by done; eauto 10].
    rewrite list_lookup_alter_eq, Hi. intros [= <-]. exists th. split_and!; try done. }
  split.
  - by rewrite E.
  - intros j. rewrite E. intros Hj. destruct (H2 j Hj) as (y & Hy & E1 & E2). destruct (Hfw j y Hy) as (y' & Hy' & E3 & E4).
    exists y'. split; [done|]. by rewrite E3, E4.
  - intros k y e j Hy Hpc. rewrite E. destruct (Hbw k y Hy) as (y0 & Hy0 & _ & _ & Heq).
    rewrite Hpc in Heq. specialize (Heq ltac:(done)) as ->. destruct (H3 k y0 e j Hy0 Hpc) as [Hn (z & Hz & E1 & E2)].
    split; [done|]. destruct (Hfw j z Hz) as (z' & Hz' & E3 & E4). exists z'. split; [done|]. by rewrite E3, E4.
  - intros j y Hy Hwt Hg. rewrite E. destruct (Hbw j y Hy) as (y0 & Hy0 & E1 & E2 & _). rewrite E1 in Hwt. rewrite E2 in Hg.
    destruct (H4 j y0 Hy0 Hwt Hg) as [|(k & z & e & Hz & Hpc)]; [by left|]. right. exists k, z, e. split; [|done].
    destruct (decide (i = k)) as [<-|]; [|by rewrite list_lookup_alter_ne]. simplify_eq. by rewrite Hpc in Ht.
  - intros j y Hy Hg. destruct (Hbw j y Hy) as (y0 & Hy0 & E1 & E2 & _). rewrite E1. rewrite E2 in Hg. by apply (H5 j y0).
Qed.

(** ** Building the next invariant *)

Lemma inv_next c f i th p c' f' :
  inv width c f -> lq_threads c !! i = Some th ->
  lq_threads c' = alter (with_pc p) i (lq_threads c) ->
  word_ok (lq_state c') (lq_side c') f' ->
  keeps c f th (lq_items c') f' ->
  thread_ok width (lq_items c') f' i (with_pc p th) ->
  books width f' (lq_items c') (lq_tq c') (lq_redirected c')
    (count_swap (count_all (lq_threads c)) (count_one th) (count_one (with_pc p th))) ->
  transfer (t_pc th) = None -> transfer p = None ->
  omap it_waiter (lq_items c') = omap it_waiter (lq_items c) ->
  lq_crashed c' = false -> lq_pushed c' = lq_popped c' ++ lq_items c' ->
  inv width c' f'.
Proof.
  intros H Hi Eth Hword Hk Hth Hb Ht1 Ht2 Ew Hc Hf. split; try done.
  - rewrite Eth, length_alter. apply (inv_size _ _ _ H).
  - by rewrite Eth, (count_alter _ _ i th Hi).
  - rewrite Eth. intros j y. destruct (decide (i = j)) as [<-|Hne].
    + rewrite list_lookup_alter_eq, Hi. by intros [= <-].
    + rewrite list_lookup_alter_ne by done. intros Hy. by apply (keeps_others c f i th _ f' H Hi Hk j y).
  - rewrite Eth. apply (waits_same (lq_items c) _ _ i th); try done. apply (inv_waits _ _ _ H).
Qed.

(** An owner at program point [t_pc th] is the only one. *)
Lemma owner_pc c f i th : inv width c f -> lq_threads c !! i = Some th -> pB (t_pc th) + pD (t_pc th) = 1 ->
  let k := count_all (lq_threads c) in
  gB th = 0 /\ wO th = 1 /\ own f = tid_of i /\ own f <> 0 /\ cO k = 1 /\ cB k = pB (t_pc th) /\ cN k = pN (t_pc th)
  /\ cL k = pL (t_pc th) /\ cU k = pU (t_pc th) /\ ib f = pB (t_pc th) /\ owner_ok width (lq_items c) f (t_pc th).
Proof.
  intros H Hi Ho k.
  pose proof (tally_ge wO _ i th ltac:(intros z; pose proof (th_nonneg z); lia) Hi) as Hge.
  assert (gB th = 0 /\ wO th = 1) as [Hg Hw1].
  { pose proof (bk_owner _ _ _ _ _ _ (inv_books _ _ _ H)) as HO. cbn in HO.
    assert (0 <= gB th) by (unfold gB; destruct (t_grant th); lia). unfold wO, wB, wD in *. lia. }
  destruct (owner_facts c f i th H Hi Hw1) as (E1 & E2 & E3 & E4 & E5 & E6 & E7 & _).
  pose proof (bk_barrier _ _ _ _ _ _ (inv_books _ _ _ H)) as Hib. fold k in E4, E5, E6, E7, E3, Hib.
  unfold wB, wL in *. destruct (inv_threads _ _ _ H i th Hi) as (_ & _ & Hk). destruct Hk as [_ Hk]; [lia|].
  split_and!; try done; lia.
Qed.

Lemma owner_ok_free items f p : pB p + pD p = 0 -> owner_ok width items f p.
Proof.
  destruct p; repeat match goal with b : bool |- _ => destruct b | o : owned |- _ => destruct o end; cbn; try done; lia.
Qed.

(** Program points that own nothing; the thread may have been granted the lock. *)
Lemma thread_ok_free items f items' f' i th p : thread_ok width items f i th -> pB (t_pc th) + pD (t_pc th) = 0 ->
  pB p + pD p = 0 -> own f' = own f \/ gB th = 0 -> pc_ok width p -> wait_ok i (with_pc p th) ->
  thread_ok width items' f' i (with_pc p th).
Proof.
  intros (H1 & H2 & H3) E1 E2 Ho Hp Hwt. split; [done|]. split; [done|]. cbn. intros Hk. split; [|by apply owner_ok_free].
  unfold wO, wB, wD in *. cbn in Hk. change (gB (with_pc p th)) with (gB th) in Hk.
  destruct Ho as [->|Ho]; [|lia]. apply H3. lia.
Qed.

Lemma thread_ok_own items f i th p : own f = tid_of i -> pc_ok width p -> wait_ok i (with_pc p th) ->
  owner_ok width items f p -> thread_ok width items f i (with_pc p th).
Proof. intros. split; [done|]. split; [done|]. by intros. Qed.

(** A move between program points that own nothing. *)
Lemma inv_move c f i th p : inv width c f -> lq_threads c !! i = Some th ->
  thread_ok width (lq_items c) f i (with_pc p th) ->
  books width f (lq_items c) (lq_tq c) (lq_redirected c)
    (count_swap (count_all (lq_threads c)) (count_one th) (count_one (with_pc p th))) ->
  transfer (t_pc th) = None -> transfer p = None -> inv width (go i p c) f.
Proof.
  intros H Hi Ht Hb H1 H2. apply (inv_next c f i th p); try done.
  - apply (inv_word _ _ _ H).
  - left. split; [done|]. split; [done|]. split; [done|]. exists []. by rewrite app_nil_r.
  - apply (inv_crash _ _ _ H).
  - apply (inv_fifo _ _ _ H).
Qed.

(** [return_pc th] owns nothing. *)
Lemma return_pc_ok i th : pc_ok width (return_pc th) /\ wait_ok i (with_pc (return_pc th) th).
Proof. unfold return_pc, wait_ok. by destruct (t_wait th) eqn:E; cbn; rewrite ?E. Qed.

Lemma return_pc_free th : transfer (return_pc th) = None /\ pB (return_pc th) + pD (return_pc th) = 0.
Proof. unfold return_pc. by destruct (t_wait th). Qed.

Lemma thread_ok_return items f items' f' i th : thread_ok width items f i th -> pB (t_pc th) + pD (t_pc th) = 0 ->
  own f' = own f \/ gB th = 0 -> thread_ok width items' f' i (with_pc (return_pc th) th).
Proof. intros H1 H2 H3. eapply thread_ok_free; [exact H1|exact H2|apply return_pc_free|exact H3|apply (return_pc_ok i)|exact (proj2 (return_pc_ok i th))]. Qed.

Lemma tail_set_true c : tail_set c = true -> lq_items c <> [].
Proof. unfold tail_set. by destruct (lq_items c). Qed.
Lemma tail_set_false c : tail_set c = false -> lq_items c = [].
Proof. unfold tail_set. by destruct (lq_items c). Qed.

(** ** Updates of the word *)

Lemma word_ok_upd st side f g : word_ok st side f -> wf g -> em g = em f -> DqState.st g = 0 -> role g = role f ->
  na g = na f -> ina g = ina f -> ssc g = ssc f -> word_ok (word g) side g.
Proof. intros [H1 H2 (H3 & H4 & H5) [H6 H7] H8] Hg E1 E2 E3 E4 E5 E6. split; try done; rewrite ?E1, ?E3, ?E4, ?E5, ?E6; tauto. Qed.

Lemma plain_of st side f : word_ok st side f -> plain f.
Proof. intros [_ _ (H1 & H2 & H3) _ _]. unfold plain. lia. Qed.

(** A step that stores a word and goes on at [p]. *)
Lemma inv_store c f i th p g : inv width c f -> lq_threads c !! i = Some th -> wf g ->
  em g = em f -> st g = 0 -> role g = role f -> na g = na f -> ina g = ina f -> ssc g = ssc f ->
  keeps c f th (lq_items c) g -> thread_ok width (lq_items c) g i (with_pc p th) ->
  books width g (lq_items c) (lq_tq c) (lq_redirected c)
    (count_swap (count_all (lq_threads c)) (count_one th) (count_one (with_pc p th))) ->
  transfer (t_pc th) = None -> transfer p = None -> inv width (go i p (store (word g) c)) g.
Proof.
  intros H Hi Hg E1 E2 E3 E4 E5 E6 Hk Hth Hb H1 H2. apply (inv_next c f i th p); try done.
  - apply (word_ok_upd (lq_state c) _ f); [exact (inv_word _ _ _ H)|done..].
  - apply (inv_crash _ _ _ H).
  - apply (inv_fifo _ _ _ H).
Qed.

(** The owner unlocks the lane and goes on at [p]. *)
Lemma inv_unlock c f i th p g : inv width c f -> lq_threads c !! i = Some th -> pB (t_pc th) + pD (t_pc th) = 1 -> wf g ->
  em g = em f -> st g = 0 -> role g = role f -> na g = na f -> ina g = ina f -> ssc g = ssc f ->
  pc_ok width p -> wait_ok i (with_pc p th) -> pB p + pD p = 0 ->
  books width g (lq_items c) (lq_tq c) (lq_redirected c)
    (count_swap (count_all (lq_threads c)) (count_one th) (count_one (with_pc p th))) ->
  transfer (t_pc th) = None -> transfer p = None -> inv width (go i p (store (word g) c)) g.
Proof.
  intros H Hi Ho Hg E1 E2 E3 E4 E5 E6 Hp1 Hp2 Hp3 Hb H1 H2. destruct (owner_pc c f i th H Hi Ho) as (Og & Ow & _).
  apply (inv_store c f i th p); try done; [right; by left|]. split; [done|]. split; [done|]. intros Hk. exfalso.
  unfold wO, wB, wD in Hk. change (gB (with_pc p th)) with (gB th) in Hk. cbn [t_pc with_pc] in Hk. lia.
Qed.

Lemma inv_unlock_return c f i th g : inv width c f -> lq_threads c !! i = Some th -> pB (t_pc th) + pD (t_pc th) = 1 -> wf g ->
  em g = em f -> st g = 0 -> role g = role f -> na g = na f -> ina g = ina f -> ssc g = ssc f ->
  books width g (lq_items c) (lq_tq c) (lq_redirected c)
    (count_swap (count_all (lq_threads c)) (count_one th) (count_one (with_pc (return_pc th) th))) ->
  transfer (t_pc th) = None -> inv width (go i (return_pc th) (store (word g) c)) g.
Proof.
  intros. apply (inv_unlock c f i th); try done; [apply (return_pc_ok i)|exact (proj2 (return_pc_ok i th))|apply return_pc_free|apply return_pc_free].
Qed.

(** The owner pops an item nobody waits for, and goes on as the owner. *)
Lemma inv_pop c f i th p dc n c1 : inv width c f -> lq_threads c !! i = Some th -> pB (t_pc th) + pD (t_pc th) = 1 ->
  c1 = add_redirected n (pop_head dc c) \/ (c1 = pop_head dc c /\ n = 0) ->
  head (lq_items c) = Some dc -> it_waiter dc = None ->
  pc_ok width p -> wait_ok i (with_pc p th) -> owner_ok width (tail (lq_items c)) f p ->
  books width f (tail (lq_items c)) (lq_tq c) (lq_redirected c + n)
    (count_swap (count_all (lq_threads c)) (count_one th) (count_one (with_pc p th))) ->
  transfer (t_pc th) = None -> transfer p = None -> inv width (go i p c1) f.
Proof.
  intros H Hi Ho Hc1 Hh Hdc Hp1 Hp2 Hp3 Hb H1 H2. destruct (owner_pc c f i th H Hi Ho) as (Og & Ow & Otid & _).
  assert (lq_items c = dc :: tail (lq_items c)) as Ei by (destruct (lq_items c); simplify_eq/=; done).
  destruct Hc1 as [->|[-> ->]]; [|rewrite Z.add_0_r in Hb]; (apply (inv_next c f i th p); try done; cbn;
  [apply (inv_word _ _ _ H)|right; by left|rewrite Ei at 2; cbn; by rewrite Hdc|apply (inv_crash _ _ _ H)
  |rewrite (inv_fifo _ _ _ H), <- app_assoc; by rewrite Ei at 1]).
Qed.

End infra.

(** ** Arithmetic *)

Ltac counts_cbn Hpc :=
  unfold count_swap, count_one; cbn [cO cB cT cS cA cN cK cW cL cU];
  unfold wO, wB, wD, wN, wS, wA, wT, wK, wW, wL, wU, gB, gS; cbn [t_pc t_grant with_pc];
  rewrite ?Hpc; cbn [pB pD pN pS pA pT pK pW pL pU].

(** The facts of the invariant as arithmetic. *)
Ltac lane_facts H :=
  match type of H with inv _ ?c ?f =>
    pose proof (count_bounds (lq_threads c)); pose proof (width_nonneg c f H); cbv zeta in *;
    destruct (inv_word _ _ _ H) as [Hwf Hword (Hem & Hst & Hrole) (Hna & Hina) Hside];
    pose proof Hwf as [Wown Wst Wenq Wqos Wov Wrole Wem Wdirty Wpb Wwd Wib Wna Wina Wssc Wsc];
    destruct (inv_books _ _ _ H) as [Btq Bred Bown Bbar Btok Bfull Bwid Bpen Basy Bhead Bserv]
  end; eval_pow2.

(** The components of an updated configuration. *)
Ltac lane_cbn :=
  cbn [lq_state lq_side lq_items lq_tq lq_redirected lq_threads lq_crashed lq_pushed lq_popped
       put store store_side push_tail pop_head add_tq add_redirected signal go].

(** The arithmetic part of the next books; what is left are [bk_head] and
    [bk_served]. *)
Ltac books_tac Hpc :=
  split; f_unfold; lane_cbn; counts_cbn Hpc;
  lazymatch goal with
  | |- _ -> exists _, _ => idtac
  | |- served _ _ _ _ => unfold served; f_unfold; lane_cbn; counts_cbn Hpc
  | |- _ => try lia
  end.

(** Opens a step of a thread at a known program point. *)
Ltac step_open H Hi Hpc :=
  let Hth := fresh "Hth" in
  match type of H with inv _ ?c ?f =>
  match type of Hi with _ !! ?i = Some ?th =>
    pose proof (inv_threads _ _ _ H i th Hi) as Hth;
    pose proof Hth as (Hpok & Hwok & _); unfold wait_ok in Hwok; rewrite Hpc in Hpok, Hwok; cbn in Hpok; destruct Hpok as [Hpok Hpok2];
    lane_facts H
  end end.

(** The thread goes on at a program point that owns nothing. *)
Ltac free_tac Hpc :=
  eapply thread_ok_free; [match goal with Hth : thread_ok _ _ _ _ _ |- _ => exact Hth end|by rewrite Hpc|try done|try (by left)|try done|unfold wait_ok; cbn; try done].

(** What a step leaves alone. *)
Ltac inv_rest H := first [exact (inv_word _ _ _ H) | exact (inv_crash _ _ _ H) | exact (inv_fifo _ _ _ H) | reflexivity].

(** A non-empty queue is still served. *)
Ltac serv_tac := match goal with Bs : served _ _ _ _ |- _ => let a := fresh in let b := fresh in intros a b; specialize (Bs a b); lia end.

Ltac move_tac c f i th Hpc := apply (inv_move c f i th); [done|done| | |by rewrite Hpc|try done].

Ltac ret_cases th := unfold return_pc; destruct (t_wait th) eqn:Ewt.

Ltac keeps_left := left; split; [done|]; split; [done|]; split; [done|]; exists []; by rewrite app_nil_r.
Ltac nochange_tac H Hpc := try done; try inv_rest H; try (by rewrite Hpc).

