(* ===== verification/LaneWaits.v ===== *)
(** * Waiters of a lane

    The threads blocked in [dispatch_sync] are those of the sync items in the
    queue, plus the one a lock transfer is under way to: how the steps that push,
    pop, transfer and wake keep it so. *)

From S2P Require Import Prelude Threads DqState LaneRmw LaneFields Lane LaneInv LaneStep.

(** Two lists of threads that agree on who waits, except at [i]. *)
Lemma lookup_alter_inv {A} (h : A -> A) (l : list A) i j y :
  alter h i l !! j = Some y -> exists y0, l !! j = Some y0 /\ y = if decide (i = j) then h y0 else y0.
Proof.
  destruct (decide (i = j)) as [<-|]; [rewrite list_lookup_alter_eq|rewrite list_lookup_alter_ne by done; eauto].
  destruct (l !! i); [|done]. intros [= <-]. eauto.
Qed.

Lemma lookup_alter_some {A} (h : A -> A) (l : list A) i j y0 :
  l !! j = Some y0 -> alter h i l !! j = Some (if decide (i = j) then h y0 else y0).
Proof.
  intros H. destruct (decide (i = j)) as [<-|]; [by rewrite list_lookup_alter_eq, H|by rewrite list_lookup_alter_ne].
Qed.

Lemma alter_insert_eq {T} (h : T -> T) (l : list T) i x : l !! i = Some x -> alter h i l = <[i := h x]> l.
Proof.
  revert i. induction l as [|y l IH]; intros [|i] Hi; simplify_eq/=; [done|]. f_equal. exact (IH i Hi).
Qed.

Lemma elem_omap_cons (dc : item) rest j : j ∈ omap it_waiter rest -> j ∈ omap it_waiter (dc :: rest).
Proof. cbn. destruct (it_waiter dc); [by right|done]. Qed.

(** The push of a sync item by thread [i]. *)
Lemma waits_push items ths i th it p : waits_ok items ths -> ths !! i = Some th -> t_wait th = false ->
  it_waiter it = Some i -> transfer (t_pc th) = None -> transfer p = None ->
  waits_ok (items ++ [it]) (<[i := {| t_pc := p; t_wait := true; t_grant := GNone |}]> ths).
Proof.
  intros [H1 H2 H3 H4 H5] Hi Hwt Hit Ht Hp.
  assert (omap it_waiter (items ++ [it]) = omap it_waiter items ++ [i]) as E by (rewrite omap_app; cbn; by rewrite Hit).
  assert (i ∉ omap it_waiter items) as Hni.
  { intros Hin. destruct (H2 i Hin) as (y & Hy & Ey & _). simplify_eq. congruence. }
  pose proof (lookup_lt_Some _ _ _ Hi) as Hlen.
  split; try setoid_rewrite E.
  - apply NoDup_app. split; [done|]. split; [|apply NoDup_singleton]. intros j Hj ->%list_elem_of_singleton. done.
  - intros j [Hj| ->%list_elem_of_singleton]%elem_of_app.
    + destruct (H2 j Hj) as (y & Hy & Ey & Eg). exists y. split; [|done]. rewrite list_lookup_insert_ne; [done|]. intros ->. done.
    + eexists. rewrite list_lookup_insert_eq by done. split; [done|]. done.
  - intros k y e j Hy Hpc. destruct (decide (i = k)) as [<-|].
    { rewrite list_lookup_insert_eq in Hy by done. simplify_eq. cbn in Hpc. subst p. done. }
    rewrite list_lookup_insert_ne in Hy by done. destruct (H3 k y e j Hy Hpc) as [Hn (z & Hz & Ez & Eg)].
    assert (i <> j) by (intros ->; simplify_eq; congruence). split.
    + rewrite elem_of_app, list_elem_of_singleton. intros [|]; done.
    + exists z. by rewrite list_lookup_insert_ne.
  - intros j y Hy Ey Eg. rewrite elem_of_app, list_elem_of_singleton. destruct (decide (i = j)) as [<-|]; [by left; right|].
    rewrite list_lookup_insert_ne in Hy by done. destruct (H4 j y Hy Ey Eg) as [|(k & z & e & Hz & Hpc)]; [by left; left|].
    right. exists k, z, e. split; [|done]. rewrite list_lookup_insert_ne; [done|]. intros <-. simplify_eq. by rewrite Hpc in Ht.
  - intros j y. destruct (decide (i = j)) as [<-|].
    + rewrite list_lookup_insert_eq by done. by intros [= <-].
    + rewrite list_lookup_insert_ne by done. apply H5.
Qed.

(** A signalled thread leaves its wait. *)
Lemma waits_woken items ths i th p : waits_ok items ths -> ths !! i = Some th -> t_grant th <> GNone ->
  transfer (t_pc th) = None -> transfer p = None ->
  waits_ok items (<[i := {| t_pc := p; t_wait := false; t_grant := GNone |}]> ths).
Proof.
  intros [H1 H2 H3 H4 H5] Hi Hg Ht Hp. pose proof (lookup_lt_Some _ _ _ Hi) as Hlen. split.
  - done.
  - intros j Hj. destruct (H2 j Hj) as (y & Hy & Ey & Eg). exists y. split; [|done].
    rewrite list_lookup_insert_ne; [done|]. intros ->. by simplify_eq.
  - intros k y e j Hy Hpc. destruct (decide (i = k)) as [<-|].
    { rewrite list_lookup_insert_eq in Hy by done. simplify_eq. cbn in Hpc. by subst p. }
    rewrite list_lookup_insert_ne in Hy by done. destruct (H3 k y e j Hy Hpc) as [Hn (z & Hz & Ez & Eg)].
    split; [done|]. exists z. rewrite list_lookup_insert_ne; [done|]. intros ->. by simplify_eq.
  - intros j y Hy Ey Eg. destruct (decide (i = j)) as [<-|]; [rewrite list_lookup_insert_eq in Hy by done; by simplify_eq|].
    rewrite list_lookup_insert_ne in Hy by done. destruct (H4 j y Hy Ey Eg) as [|(k & z & e & Hz & Hpc)]; [by left|].
    right. exists k, z, e. split; [|done]. rewrite list_lookup_insert_ne; [done|]. intros <-. simplify_eq. by rewrite Hpc in Ht.
  - intros j y. destruct (decide (i = j)) as [<-|].
    + rewrite list_lookup_insert_eq by done. by intros [= <-].
    + rewrite list_lookup_insert_ne by done. apply H5.
Qed.

(** The pop of an item nobody waits for. *)
Lemma waits_pop_async dc rest ths i th p : waits_ok (dc :: rest) ths -> ths !! i = Some th -> it_waiter dc = None ->
  transfer (t_pc th) = None -> transfer p = None -> waits_ok rest (alter (with_pc p) i ths).
Proof. intros H Hi Hdc Ht Hp. apply (waits_same (dc :: rest) _ _ i th); try done. cbn. by rewrite Hdc. Qed.

(** The pop of a reader's item together with its wakeup. *)
Lemma waits_pop_grant dc rest ths i th p j g : waits_ok (dc :: rest) ths -> ths !! i = Some th -> it_waiter dc = Some j ->
  transfer (t_pc th) = None -> transfer p = None -> g <> GNone ->
  waits_ok rest (alter (with_grant g) j (alter (with_pc p) i ths)).
Proof.
  intros Hok Hi Hdc Ht Hp Hg. pose proof (waits_same _ (dc :: rest) _ i th p Hok Hi eq_refl Ht Hp) as [H1 H2 H3 H4 H5].
  set (ths' := alter (with_pc p) i ths) in *.
  assert (forall e k y, ths' !! k = Some y -> t_pc y = PBWTransfer e j -> False) as Hnt.
  { intros e k y Hy Hpc. destruct (H3 k y e j Hy Hpc) as [Hn _]. apply Hn. cbn. rewrite Hdc. by left. }
  cbn in H1, H2. rewrite Hdc in H1, H2. apply NoDup_cons in H1 as [Hnj H1].
  destruct (H2 j ltac:(by left)) as (yj & Hyj & Ewj & Egj).
  split.
  - done.
  - intros k Hk. destruct (H2 k ltac:(by right)) as (y & Hy & Ey & Eg). exists y. split; [|done].
    rewrite (lookup_alter_some _ _ j k y Hy). destruct (decide (j = k)) as [<-|]; done.
  - intros k y e m Hy Hpc. apply lookup_alter_inv in Hy as (y0 & Hy0 & ->).
    assert (t_pc y0 = PBWTransfer e m) as Hpc0 by (by destruct (decide (j = k))).
    destruct (H3 k y0 e m Hy0 Hpc0) as [Hn (z & Hz & Ez & Egz)]. split; [intros Hm; apply Hn; by apply elem_omap_cons|].
    assert (j <> m) by (intros ->; eauto). exists z. rewrite (lookup_alter_some _ _ j m z Hz). by destruct (decide (j = m)).
  - intros k y Hy Ey Eg. apply lookup_alter_inv in Hy as (y0 & Hy0 & ->). destruct (decide (j = k)) as [<-|]; [by cbn in Eg|].
    destruct (H4 k y0 Hy0 Ey Eg) as [Hk|(m & z & e & Hz & Hpc)].
    + cbn in Hk. rewrite Hdc in Hk. apply elem_of_cons in Hk as [->|Hk]; [done|by left].
    + right. exists m. eexists _, e. split; [apply (lookup_alter_some _ _ j m z Hz)|]. by destruct (decide (j = m)).
  - intros k y Hy Hgk. apply lookup_alter_inv in Hy as (y0 & Hy0 & ->). destruct (decide (j = k)) as [<-|]; cbn in *.
    + by simplify_eq.
    + by apply (H5 k y0).
Qed.

(** The pop of a barrier waiter: its wakeup follows. *)
Lemma waits_pop_transfer dc rest ths i th e j : waits_ok (dc :: rest) ths -> ths !! i = Some th -> it_waiter dc = Some j ->
  transfer (t_pc th) = None -> waits_ok rest (alter (with_pc (PBWTransfer e j)) i ths).
Proof.
  intros [H1 H2 H3 H4 H5] Hi Hdc Ht.
  assert (forall e k y, ths !! k = Some y -> t_pc y = PBWTransfer e j -> False) as Hnt.
  { intros e' k y Hy Hpc. destruct (H3 k y e' j Hy Hpc) as [Hn _]. apply Hn. cbn. rewrite Hdc. by left. }
  cbn in H1, H2. rewrite Hdc in H1, H2. apply NoDup_cons in H1 as [Hnj H1].
  assert (forall k y, ths !! k = Some y -> exists y', alter (with_pc (PBWTransfer e j)) i ths !! k = Some y'
    /\ t_wait y' = t_wait y /\ t_grant y' = t_grant y) as Hfw.
  { intros k y Hy. eexists. split; [apply (lookup_alter_some _ _ i k y Hy)|]. by destruct (decide (i = k)). }
  split.
  - done.
  - intros k Hk. destruct (H2 k ltac:(by right)) as (y & Hy & Ey & Eg). destruct (Hfw k y Hy) as (y' & Hy' & E1 & E2).
    exists y'. split; [done|]. by rewrite E1, E2.
  - intros k y e' m Hy Hpc. apply lookup_alter_inv in Hy as (y0 & Hy0 & ->). destruct (decide (i = k)) as [<-|].
    + cbn in Hpc. injection Hpc as <- <-. split; [done|]. destruct (H2 j ltac:(by left)) as (z & Hz & Ez & Egz).
      destruct (Hfw j z Hz) as (z' & Hz' & E1 & E2). exists z'. split; [done|]. by rewrite E1, E2.
    + destruct (H3 k y0 e' m Hy0 Hpc) as [Hn (z & Hz & Ez & Egz)]. split; [intros Hm; apply Hn; by apply elem_omap_cons|].
      destruct (Hfw m z Hz) as (z' & Hz' & E1 & E2). exists z'. split; [done|]. by rewrite E1, E2.
  - intros k y Hy Ey Eg. apply lookup_alter_inv in Hy as (y0 & Hy0 & ->).
    assert (t_wait y0 = true /\ t_grant y0 = GNone) as [Ey0 Eg0] by (by destruct (decide (i = k))).
    destruct (H4 k y0 Hy0 Ey0 Eg0) as [Hk|(m & z & e' & Hz & Hpc)].
    + cbn in Hk. rewrite Hdc in Hk. apply elem_of_cons in Hk as [->|Hk]; [|by left].
      right. exists i. eexists _, e. split; [by rewrite (lookup_alter_some _ _ i i th Hi)|]. by rewrite decide_True.
    + right. exists m, z, e'. split; [|done]. rewrite (lookup_alter_some _ _ i m z Hz). destruct (decide (i = m)) as [<-|]; [|done].
      simplify_eq. by rewrite Hpc in Ht.
  - intros k y Hy Hgk. apply lookup_alter_inv in Hy as (y0 & Hy0 & ->). destruct (decide (i = k)); apply (H5 k y0 Hy0); by destruct y0.
Qed.

(** The end of a lock transfer to [j]. *)
Lemma waits_transferred items ths i th e j p g : waits_ok items ths -> ths !! i = Some th -> t_pc th = PBWTransfer e j ->
  (forall k y, k <> i -> ths !! k = Some y -> transfer (t_pc y) = None) -> transfer p = None -> g <> GNone ->
  waits_ok items (alter (with_grant g) j (alter (with_pc p) i ths)).
Proof.
  intros [H1 H2 H3 H4 H5] Hi Hpc Hone Hp Hg. destruct (H3 i th e j Hi Hpc) as [Hnj (yj & Hyj & Ewj & Egj)].
  assert (forall k y, alter (with_grant g) j (alter (with_pc p) i ths) !! k = Some y -> exists y0, ths !! k = Some y0 /\
    t_wait y = t_wait y0 /\ (k <> j -> t_grant y = t_grant y0) /\ (k = j -> t_grant y = g) /\ transfer (t_pc y) = None) as Hbw.
  { intros k y Hy. apply lookup_alter_inv in Hy as (y1 & Hy1 & ->). apply lookup_alter_inv in Hy1 as (y0 & Hy0 & ->). exists y0.
    split; [done|]. destruct (decide (j = k)), (decide (i = k)); cbn; split_and!; try done; eauto; congruence. }
  split.
  - done.
  - intros k Hk. destruct (H2 k Hk) as (y & Hy & Ey & Eg). assert (j <> k) by congruence.
    eexists. split; [apply lookup_alter_some, (lookup_alter_some _ _ i k y Hy)|]. rewrite decide_False by done. by destruct (decide (i = k)).
  - intros k y e' m Hy Hpc'. destruct (Hbw k y Hy) as (_ & _ & _ & _ & _ & Ht). by rewrite Hpc' in Ht.
  - intros k y Hy Ey Eg. destruct (Hbw k y Hy) as (y0 & Hy0 & E1 & E2 & E3 & _). destruct (decide (k = j)) as [->|Hkj].
    { rewrite (E3 eq_refl) in Eg. done. }
    rewrite E1 in Ey. rewrite (E2 Hkj) in Eg. destruct (H4 k y0 Hy0 Ey Eg) as [|(m & z & e' & Hz & Hpcz)]; [by left|].
    destruct (decide (m = i)) as [->|Hmi]; [rewrite Hi in Hz; injection Hz as <-; congruence|].
    pose proof (Hone m z Hmi Hz) as Hz'. by rewrite Hpcz in Hz'.
  - intros k y Hy Hgk. destruct (Hbw k y Hy) as (y0 & Hy0 & E1 & E2 & E3 & _). rewrite E1. destruct (decide (k = j)) as [->|Hkj].
    + by simplify_eq.
    + rewrite (E2 Hkj) in Hgk. by apply (H5 k y0).
Qed.

(** ** Steps that touch the waiting state *)

Definition count_grant (g : grant) (k : counts) : counts :=
  let b := match g with GBarrier => 1 | _ => 0 end in
  let s := match g with GWidth => 1 | _ => 0 end in
  Counts (cO k + b) (cB k + b) (cT k) (cS k + s) (cA k) (cN k) (cK k) (cW k) (cL k + b) (cU k).

Lemma count_signal ths j y g : ths !! j = Some y -> t_grant y = GNone ->
  count_all (alter (with_grant g) j ths) = count_grant g (count_all ths).
Proof.
  intros Hj Hg. rewrite (count_alter _ _ j y Hj). unfold count_swap, count_grant, count_one; cbn.
  unfold wO, wB, wD, wT, wS, wA, wN, wK, wW, wL, wU, gB, gS; cbn. rewrite Hg. destruct g; f_equal; lia.
Qed.

Lemma wO_grant g th : wO (with_grant g th) = pB (t_pc th) + pD (t_pc th) + match g with GBarrier => 1 | _ => 0 end.
Proof. unfold wO, wB, wD, gB; cbn. lia. Qed.

Lemma wO_ge th : pB (t_pc th) + pD (t_pc th) <= wO th.
Proof. unfold wO, wB, wD, gB. destruct (t_grant th); lia. Qed.

Section waiting.
Context {width : Z}.

(** Thread [i] becomes [th']. *)
Lemma inv_insert c f i th th' c' f' :
  inv width c f -> lq_threads c !! i = Some th -> lq_threads c' = <[i := th']> (lq_threads c) ->
  word_ok (lq_state c') (lq_side c') f' -> keeps c f th (lq_items c') f' -> thread_ok width (lq_items c') f' i th' ->
  books width f' (lq_items c') (lq_tq c') (lq_redirected c') (count_swap (count_all (lq_threads c)) (count_one th) (count_one th')) ->
  waits_ok (lq_items c') (lq_threads c') -> lq_crashed c' = false -> lq_pushed c' = lq_popped c' ++ lq_items c' ->
  inv width c' f'.
Proof.
  intros H Hi Eth Hword Hk Hth Hb Hwt Hc Hf. pose proof (lookup_lt_Some _ _ _ Hi) as Hlen. split; try done.
  - rewrite Eth, length_insert. apply (inv_size _ _ _ H).
  - by rewrite Eth, (count_insert _ _ i th Hi).
  - rewrite Eth. intros j y. destruct (decide (i = j)) as [<-|Hne].
    + rewrite list_lookup_insert_eq by done. by intros [= <-].
    + rewrite list_lookup_insert_ne by done. intros Hy. by apply (keeps_others c f i th _ f' H Hi Hk j y).
Qed.

(** The owner [i] goes on at [p] and signals thread [j]. *)
Lemma inv_signal c f i th p j g c' f' y :
  inv width c f -> lq_threads c !! i = Some th -> pB (t_pc th) + pD (t_pc th) = 1 ->
  lq_threads c' = alter (with_grant g) j (alter (with_pc p) i (lq_threads c)) ->
  lq_threads c !! j = Some y -> t_grant y = GNone ->
  word_ok (lq_state c') (lq_side c') f' ->
  thread_ok width (lq_items c') f' i (with_pc p th) ->
  (g = GBarrier -> own f' = tid_of j /\ pB p + pD p = 0) ->
  books width f' (lq_items c') (lq_tq c') (lq_redirected c')
    (count_grant g (count_swap (count_all (lq_threads c)) (count_one th) (count_one (with_pc p th)))) ->
  waits_ok (lq_items c') (lq_threads c') -> lq_crashed c' = false -> lq_pushed c' = lq_popped c' ++ lq_items c' ->
  inv width c' f'.
Proof.
  intros H Hi Ho Eth Hj Hg Hword Hth Hgb Hb Hwt Hc Hf.
  destruct (owner_pc c f i th H Hi Ho) as (Hg0 & Ho1 & _).
  destruct (owner_facts c f i th H Hi Ho1) as (_ & _ & _ & _ & _ & _ & _ & Hoth).
  pose proof (lookup_alter_some (with_pc p) (lq_threads c) i j y Hj) as Hj1.
  split; try done.
  - rewrite Eth, !length_alter. apply (inv_size _ _ _ H).
  - rewrite Eth, (count_signal _ j _ g Hj1), (count_alter _ _ i th Hi); [done|]. by destruct (decide (i = j)).
  - rewrite Eth. intros k z Hz. apply lookup_alter_inv in Hz as (z1 & Hz1 & ->). apply lookup_alter_inv in Hz1 as (z0 & Hz0 & ->).
    assert (thread_ok width (lq_items c') f' k (if decide (i = k) then with_pc p z0 else z0)
      /\ (g = GBarrier -> pB (t_pc (if decide (i = k) then with_pc p z0 else z0)) + pD (t_pc (if decide (i = k) then with_pc p z0 else z0)) = 0)) as [Hk Hk2].
    { destruct (decide (i = k)) as [<-|Hne].
      - simplify_eq. split; [done|]. intros E. by apply Hgb.
      - specialize (Hoth k z0 (not_eq_sym Hne) Hz0). split; [by apply (thread_ok_not_owner (lq_items c) f); [|apply (inv_threads _ _ _ H)]|].
        intros _. unfold wO, wB, wD in Hoth. pose proof (pc_nonneg (t_pc z0)).
        assert (0 <= gB z0) by (unfold gB; destruct (t_grant z0); lia). lia. }
    destruct (decide (j = k)) as [<-|]; [|done]. destruct Hk as (K1 & K2 & K3). split; [done|]. split; [done|].
    rewrite wO_grant. intros Hge. destruct g.
    + apply K3. pose proof (wO_ge (if decide (i = j) then with_pc p z0 else z0)). lia.
    + destruct (Hgb eq_refl) as [Hown _]. split; [done|]. apply owner_ok_free. by apply Hk2.
    + apply K3. pose proof (wO_ge (if decide (i = j) then with_pc p z0 else z0)). lia.
Qed.

(** The owner pops a reader's item, grants the reader its width and goes on. *)
Lemma inv_pop_grant c f i th p dc j : inv width c f -> lq_threads c !! i = Some th -> pB (t_pc th) + pD (t_pc th) = 1 ->
  head (lq_items c) = Some dc -> it_waiter dc = Some j ->
  pc_ok width p -> wait_ok i (with_pc p th) -> owner_ok width (tail (lq_items c)) f p ->
  books width f (tail (lq_items c)) (lq_tq c) (lq_redirected c)
    (count_grant GWidth (count_swap (count_all (lq_threads c)) (count_one th) (count_one (with_pc p th)))) ->
  transfer (t_pc th) = None -> transfer p = None -> inv width (signal j GWidth (go i p (pop_head dc c))) f.
Proof.
  intros H Hi Ho Hh Hdc Hp1 Hp2 Hp3 Hb H1 H2. destruct (owner_pc c f i th H Hi Ho) as (Og & Ow & Otid & _).
  assert (lq_items c = dc :: tail (lq_items c)) as Ei by (destruct (lq_items c); simplify_eq/=; done).
  pose proof (inv_waits _ _ _ H) as Hwt. rewrite Ei in Hwt.
  destruct (wo_items _ _ Hwt j) as (y & Hy & _ & Eg); [cbn; rewrite Hdc; by left|].
  apply (inv_signal c f i th p j GWidth _ f y); try done; cbn.
  - apply (inv_word _ _ _ H).
  - by apply (waits_pop_grant dc _ _ i th).
  - apply (inv_crash _ _ _ H).
  - rewrite (inv_fifo _ _ _ H), <- app_assoc. by rewrite Ei at 1.
Qed.
End waiting.
