(* ===== verification/LaneSubmit.v ===== *)
(** * Submission, wakeups and the lane invariant

    The steps of threads that do not own the lane: pushes, wakeups, the fast path
    of readers. *)

From S2P Require Import Prelude Threads DqState LaneRmw LaneFields Lane LaneInv LaneStep LaneWaits.

Section submit.
Context {width : Z}.
Hypothesis Hw : 1 <= width <= 0xffe.

Lemma step_set_head c f i th b : inv width c f -> lq_threads c !! i = Some th -> t_pc th = PSetHead b ->
  inv width (go i (if b then PPushWaiter else PWake true) c) f.
Proof.
  intros H Hi Hpc. step_open H Hi Hpc. destruct b; (apply (inv_move c f i th); [done|done| | |by rewrite Hpc|done]).
  1, 3: free_tac Hpc.
  all: books_tac Hpc; try done; intros Hne Hs; specialize (Bserv Hne Hs); lia.
Qed.

Lemma step_wake c f i th b : inv width c f -> lq_threads c !! i = Some th -> t_pc th = PWake b ->
  inv width (_dispatch_lane_wakeup i b th c) f.
Proof.
  intros H Hi Hpc. step_open H Hi Hpc. unfold _dispatch_lane_wakeup. destruct (tail_set c) eqn:Et.
  - move_tac c f i th Hpc; [free_tac Hpc|]. destruct b; books_tac Hpc; done || serv_tac.
  - apply tail_set_false in Et. ret_cases th; (move_tac c f i th Hpc; [free_tac Hpc|]);
    destruct b; books_tac Hpc; done || (intros Hne; by rewrite Et in Hne).
Qed.

Lemma step_push_tq c f i th : inv width c f -> lq_threads c !! i = Some th -> t_pc th = PPushTQ ->
  inv width (go i (return_pc th) (add_tq 1 c)) f.
Proof.
  intros H Hi Hpc. step_open H Hi Hpc. apply (inv_next c f i th (return_pc th)); try done; try inv_rest H; try apply return_pc_free.
  - left. split; [done|]. split; [done|]. split; [done|]. exists []. by rewrite app_nil_r.
  - eapply thread_ok_return; [exact Hth|by rewrite Hpc|by left].
  - ret_cases th; books_tac Hpc; done || serv_tac.
  - by rewrite Hpc.
Qed.

Lemma step_run_done c f i th (b : bool) : inv width c f -> lq_threads c !! i = Some th -> t_pc th = (if b then PSyncRun else PAsyncRun) ->
  inv width (go i (PNBComplete b) c) f.
Proof.
  intros H Hi Hpc. destruct b; step_open H Hi Hpc; (move_tac c f i th Hpc; [free_tac Hpc|]); books_tac Hpc; done || serv_tac.
Qed.

(** *** Submission *)

Lemma idle_pc th : idle th = true -> t_pc th = PIdle.
Proof. unfold idle. by destruct (t_pc th). Qed.

Lemma step_async c f i th it : inv width c f -> lq_threads c !! i = Some th -> t_pc th = PIdle -> it_waiter it = None ->
  inv width (_dispatch_lane_concurrent_push width i it c) f.
Proof.
  intros H Hi Hpc Hit. step_open H Hi Hpc. unfold _dispatch_lane_concurrent_push, serial.
  destruct (_ && _) eqn:E.
  - rewrite !andb_true_iff, !negb_true_iff in E. destruct E as [[E1 E2] E3]. reflect_bools.
    assert (pc_ok width (PConcPush it)) by (split; [split; [done|lia]|done]).
    move_tac c f i th Hpc; [free_tac Hpc|]. books_tac Hpc; done || serv_tac.
  - move_tac c f i th Hpc; [free_tac Hpc|]. books_tac Hpc; done || serv_tac.
Qed.

Lemma step_sync c f i th it : inv width c f -> lq_threads c !! i = Some th -> t_pc th = PIdle -> it_waiter it = Some i ->
  serial width = false -> it_barrier it = false -> inv width (_dispatch_sync_f_inline i it c) f.
Proof.
  intros H Hi Hpc Hit Hs Hb. step_open H Hi Hpc. unfold _dispatch_sync_f_inline, serial in *. reflect_bools.
  assert (pc_ok width (PTrySync it)) by (split; [split; [done|lia]|done]).
  destruct (tail_set c); (move_tac c f i th Hpc; [free_tac Hpc|]); books_tac Hpc; done || serv_tac.
Qed.

Lemma step_lane_push c f i th it nov : inv width c f -> lq_threads c !! i = Some th -> t_pc th = PLanePush it ->
  inv width (_dispatch_lane_push i it nov th c) f.
Proof.
  intros H Hi Hpc. step_open H Hi Hpc. unfold _dispatch_lane_push.
  assert (omap it_waiter (lq_items c ++ [it]) = omap it_waiter (lq_items c)) as Ew
    by (rewrite omap_app; cbn; rewrite Hwok; by rewrite app_nil_r).
  assert (pb f = 1 -> exists dc, head (lq_items c ++ [it]) = Some dc /\ it_barrier dc = true) as Hh.
  { intros Hp. destruct (Bhead Hp) as (dc & Hdc & Hb). exists dc. split; [|done]. by destruct (lq_items c). }
  assert (lq_pushed c ++ [it] = lq_popped c ++ lq_items c ++ [it]) as Hf by (by rewrite (inv_fifo _ _ _ H), app_assoc).
  assert (forall p, pc_ok width p -> wait_ok i (with_pc p th) -> pB p + pD p = 0 -> transfer p = None ->
    books width f (lq_items c ++ [it]) (lq_tq c) (lq_redirected c)
      (count_swap (count_all (lq_threads c)) (count_one th) (count_one (with_pc p th))) ->
    inv width (go i p (push_tail it c)) f) as Hgo.
  { intros p Hp1 Hp2 Hp3 Hp4 Hbk. apply (inv_next c f i th p); try done; try inv_rest H.
    - left. split; [done|]. split; [done|]. split; [done|]. by exists [it].
    - eapply thread_ok_free; [exact Hth|by rewrite Hpc|done|by left|done|done].
    - by rewrite Hpc. }
  destruct (tail_set c) eqn:Et.
  - apply tail_set_true in Et.
    destruct nov; [|ret_cases th]; apply Hgo; try done; try (unfold wait_ok; cbn; done);
      books_tac Hpc; done || (intros _ Hs; specialize (Bserv Et Hs); lia).
  - apply tail_set_false in Et. apply Hgo; try done. books_tac Hpc; try done. intros _ Hs. lia.
Qed.

(** The width field never reaches its bound while at most 0xfff items are in flight. *)
Lemma width_bound c f : inv width c f -> in_flight c <= 0xfff ->
  let k := count_all (lq_threads c) in
  wd f <= 0x1fff /\ (ib f = 0 -> pb f = 0 -> wd f <= 0x1000 + cS k) /\ cS k <= 0xfff.
Proof.
  intros H Hfl. cbv zeta. lane_facts H. unfold in_flight in Hfl.
  change (tally wA (lq_threads c)) with (cA (count_all (lq_threads c))) in Hfl.
  change (tally wS (lq_threads c)) with (cS (count_all (lq_threads c))) in Hfl.
  split_and!; lia.
Qed.

Lemma step_conc_acquire c f i th it : inv width c f -> lq_threads c !! i = Some th -> t_pc th = PConcPush it ->
  exists f', inv width (concurrent_push_acquire i it th c) f'.
Proof.
  intros H Hi Hpc. step_open H Hi Hpc. unfold concurrent_push_acquire. rewrite Hword, try_async_spec by done.
  destruct (runnable f && _ && _) eqn:E.
  - rewrite !andb_true_iff in E. destruct E as [[E1 E2] E3]. unfold runnable, susp in E1.
    rewrite !andb_true_iff, negb_true_iff in E1. destruct E1 as [[E1 E4] E5]. reflect_bools.
    exists (set_wd (wd f + 1) f). apply (inv_next c f i th (return_pc th)); nochange_tac H Hpc; try apply return_pc_free.
    + lane_cbn. apply (word_ok_upd (lq_state c) _ f); [apply (inv_word _ _ _ H)|wf_lia|done..].
    + keeps_left.
    + eapply thread_ok_return; [exact Hth|by rewrite Hpc|by left].
    + ret_cases th; books_tac Hpc; done || serv_tac.
  - exists f. move_tac c f i th Hpc; [free_tac Hpc|]. books_tac Hpc; done || serv_tac.
Qed.

Lemma step_sync_reserve c f i th it : inv width c f -> lq_threads c !! i = Some th -> t_pc th = PTrySync it ->
  in_flight c <= 0xfff -> in_flight (sync_reserve i it c) <= 0xfff ->
  exists f', inv width (sync_reserve i it c) f'.
Proof.
  intros H Hi Hpc Hfl Hfl'. pose proof (width_bound c f H Hfl) as Hwb. step_open H Hi Hpc. unfold sync_reserve in *.
  rewrite Hword in *. rewrite try_reserve_sync_spec in * by done. destruct (_ && _) eqn:E.
  - rewrite !andb_true_iff, negb_true_iff in E. destruct E as [[[E1 E4] E2] E3]. unfold susp in E4. reflect_bools.
    assert (cS (count_all (lq_threads c)) <= 0xffe).
    { unfold in_flight in Hfl'. cbn in Hfl'. rewrite !(tally_alter _ _ _ i th Hi) in Hfl'.
      unfold wS at 2 3, wA at 2 3, gS in Hfl'. cbn in Hfl'. rewrite Hpc in Hfl'. cbn in Hfl'. cbn in *. lia. }
    rewrite add_width by (done || lia).
    exists (set_wd (wd f + 1) f). apply (inv_next c f i th PSyncRun); nochange_tac H Hpc.
    + lane_cbn. apply (word_ok_upd (lq_state c) _ f); [apply (inv_word _ _ _ H)|wf_lia|done..].
    + keeps_left.
    + free_tac Hpc.
    + books_tac Hpc; done || serv_tac.
  - exists f. move_tac c f i th Hpc; [free_tac Hpc|]. books_tac Hpc; done || serv_tac.
Qed.

Lemma step_wake_rmw c f i th q d : inv width c f -> lq_threads c !! i = Some th -> t_pc th = PWakeRmw d -> 0 <= q < 8 ->
  exists f', inv width (wakeup_rmw i q d th c) f'.
Proof.
  intros H Hi Hpc Hq. step_open H Hi Hpc. unfold wakeup_rmw. rewrite Hword.
  destruct (wakeup_spec q d f Hwf (plain_of _ _ _ (inv_word _ _ _ H)) Hq) as (q' & o & Hq' & Ho & ->).
  set (g := set_qos q' (set_ov o f)). assert (wf g) as Hg by (unfold g; auto with dispatch).
  set (cond := negb (susp f) && (enq f =? 0) && (own f =? 0)).
  assert (wf (if cond then set_enq 1 g else g)) as Hh by (destruct cond; auto with dispatch).
  assert (forall h p, wf h -> (h = (if cond then set_enq 1 g else g) \/ h = set_dirty 1 (if cond then set_enq 1 g else g)) ->
     pc_ok width p -> wait_ok i (with_pc p th) -> pB p + pD p = 0 -> transfer p = None ->
     books width h (lq_items c) (lq_tq c) (lq_redirected c)
       (count_swap (count_all (lq_threads c)) (count_one th) (count_one (with_pc p th))) ->
     exists f', inv width (go i p (store (word h) c)) f') as Hgo.
  { intros h p Hwh Eh Hp1 Hp2 Hp3 Hp4 Hbk. exists h.
    assert (own h = own f /\ (dirty f = 1 -> dirty h = 1) /\ em h = em f /\ st h = 0 /\ role h = role f /\ na h = na f
      /\ ina h = ina f /\ ssc h = ssc f /\ pb h = pb f) as (E1 & E2 & E3 & E4 & E5 & E6 & E7 & E8 & E9)
      by (destruct Eh as [-> | ->], cond; unfold g; f_unfold; lia).
    apply (inv_next c f i th p); nochange_tac H Hpc.
    - apply (word_ok_upd (lq_state c) _ f); [exact (inv_word _ _ _ H)|done..].
    - left. split; [done|]. split; [done|]. split; [done|]. exists []. by rewrite app_nil_r.
    - eapply thread_ok_free; [exact Hth|by rewrite Hpc|done|by left|done|done]. }
  destruct d.
  - rewrite xor_enqueued by auto with dispatch. destruct cond eqn:Ec; subst cond.
    + rewrite !andb_true_iff, negb_true_iff in Ec. destruct Ec as [[Ec1 Ec2] Ec3]. unfold susp in Ec1. reflect_bools.
      unfold g; f_unfold. rewrite Ec2. cbn [negb Z.eqb]. apply Hgo; [auto with dispatch|by right|done|done|done|done|].
      books_tac Hpc; try done. intros Hne Hs; specialize (Bserv Hne Hs); lia.
    + unfold g; f_unfold. rewrite Z.eqb_refl. cbn [negb]. apply Hgo; [auto with dispatch|by right|exact (proj1 (return_pc_ok i th))|exact (proj2 (return_pc_ok (width := width) i th))|apply return_pc_free|apply return_pc_free|].
      unfold susp in Ec. rewrite !andb_false_iff, negb_false_iff in Ec.
      ret_cases th; books_tac Hpc; try done; (intros Hne Hs; specialize (Bserv Hne Hs); destruct Ec as [[Ec|Ec]|Ec]; reflect_bools; lia).
  - destruct (Z.eqb_spec (word (if cond then set_enq 1 g else g)) (word f)) as [Ew|].
    + apply word_inj in Ew; [|done|done].
      assert (cond = false) as Ec.
      { destruct cond eqn:Ec; [|done]. subst cond. rewrite !andb_true_iff in Ec. destruct Ec as [[_ Ec] _]. reflect_bools.
        assert (enq (set_enq 1 g) = enq f) by (by rewrite Ew). f_unfold. lia. }
      exists f. subst cond. unfold susp in Ec. rewrite !andb_false_iff, negb_false_iff in Ec.
      ret_cases th; (move_tac c f i th Hpc; [free_tac Hpc|]); books_tac Hpc; try done;
      (intros Hne Hs; specialize (Bserv Hne Hs); destruct Ec as [[Ec|Ec]|Ec]; reflect_bools; lia).
    + rewrite xor_enqueued by auto with dispatch. destruct cond eqn:Ec; subst cond.
      * rewrite !andb_true_iff, negb_true_iff in Ec. destruct Ec as [[Ec1 Ec2] Ec3]. unfold susp in Ec1. reflect_bools.
        unfold g; f_unfold. rewrite Ec2. cbn [negb Z.eqb]. apply Hgo; [auto with dispatch|by left|done|done|done|done|].
        books_tac Hpc; try done. intros Hne Hs; specialize (Bserv Hne Hs); lia.
      * unfold g; f_unfold. rewrite Z.eqb_refl. cbn [negb]. apply Hgo; [auto with dispatch|by left|exact (proj1 (return_pc_ok i th))|exact (proj2 (return_pc_ok (width := width) i th))|apply return_pc_free|apply return_pc_free|].
        unfold susp in Ec. rewrite !andb_false_iff, negb_false_iff in Ec.
        ret_cases th; books_tac Hpc; try done; (intros Hne Hs; specialize (Bserv Hne Hs); destruct Ec as [[Ec|Ec]|Ec]; reflect_bools; lia).
Qed.

(** *** Thread ids *)

Lemma tid_range c f i th : inv width c f -> lq_threads c !! i = Some th -> 0 < tid_of i < 2 ^ 30.
Proof. intros H Hi. pose proof (inv_size _ _ _ H). apply lookup_lt_Some in Hi. unfold tid_of. lia. Qed.

(** A lane nobody owns that can be taken whole has nothing in flight. *)
Lemma takes_barrier_idle c f : inv width c f -> own f = 0 -> runnable f = true -> takes_barrier width f = true ->
  ib f = 0 /\ lq_redirected c + cA (count_all (lq_threads c)) + cS (count_all (lq_threads c)) = 0.
Proof.
  intros H Ho Hr Ht. destruct (free_facts c f H Ho) as (E1 & E2 & E3 & E4 & E5 & _). lane_facts H.
  unfold runnable in Hr. rewrite !andb_true_iff in Hr. destruct Hr as [[Hr1 Hr2] _]. unfold takes_barrier in Ht.
  apply orb_true_iff in Ht as [Ht|Ht]; reflect_bools; lia.
Qed.

(** A lane nobody owns that cannot be taken whole has something in flight, unless
    it is suspended. *)
Lemma busy_in_flight c f : inv width c f -> own f = 0 -> na f + ina f + ssc f + sc f <= 0 ->
  runnable f && takes_barrier width f = false ->
  0 < lq_redirected c + cA (count_all (lq_threads c)) + cS (count_all (lq_threads c)).
Proof.
  intros H Ho Hs Hr. destruct (free_facts c f H Ho) as (E1 & E2 & E3 & E4 & E5 & _). lane_facts H.
  unfold runnable, takes_barrier, susp in Hr.
  rewrite !andb_false_iff, orb_false_iff, negb_false_iff in Hr. destruct Hr as [[[Hr|Hr]|Hr]|[Hr1 Hr2]]; reflect_bools; lia.
Qed.

(** The thread takes the lock of a lane nobody owns, with its whole width. *)
Lemma inv_take c f i th p g : inv width c f -> lq_threads c !! i = Some th -> own f = 0 -> wf g ->
  em g = em f -> st g = 0 -> role g = role f -> na g = na f -> ina g = ina f -> ssc g = ssc f ->
  own g = tid_of i -> ib g = 1 -> wd g = 0x1000 -> pb g = 0 ->
  lq_redirected c + (cA (count_all (lq_threads c)) - pA (t_pc th) + pA p)
    + (cS (count_all (lq_threads c)) - pS (t_pc th) + pS p) = 0 ->
  0 <= cA (count_all (lq_threads c)) - pA (t_pc th) -> 0 <= cS (count_all (lq_threads c)) - pS (t_pc th) ->
  pB p = 1 -> pD p = 0 -> pN p = 0 -> enq g - pT p = enq f - pT (t_pc th) -> pL p = 1 ->
  pc_ok width p -> wait_ok i (with_pc p th) -> owner_ok width (lq_items c) g p ->
  transfer (t_pc th) = None -> transfer p = None -> inv width (go i p (store (word g) c)) g.
Proof.
  intros H Hi Ho Hg E1 E2 E3 E4 E5 E6 G1 G2 G3 G4 Hz P4 P5 P1 P2 P3 P6 P7 Hp1 Hp2 Hp3 T1 T2.
  destruct (free_facts c f H Ho) as (F1 & F2 & F3 & F4 & F5 & F6). pose proof (F6 i th Hi) as Hth0.
  pose proof (tid_range c f i th H Hi) as Ht. pose proof (not_owner_N th Hth0) as HN. pose proof (th_nonneg th) as Hnn.
  apply (inv_store c f i th p g); [done..| | | |done|done].
  - right. by right.
  - by apply thread_ok_own.
  - lane_facts H. assert (wB th = 0 /\ wU th = 0 /\ wL th = 0 /\ gB th = 0) as (B1 & B2 & B3 & B4).
    { assert (0 <= gB th) by (unfold gB; destruct (t_grant th); lia).
      unfold wO, wB, wD in Hth0, Hnn |- *. pose proof (pc_nonneg (t_pc th)). lia. }
    pose proof (pc_nonneg p) as Hpn. split; unfold count_swap, count_one; cbn [cO cB cT cS cA cN cK cW cL cU];
      change (wB (with_pc p th)) with (pB p + gB th); change (wO (with_pc p th)) with (pB p + gB th + pD p);
      change (wN (with_pc p th)) with (pN p); change (wS (with_pc p th)) with (pS p + gS th);
      change (wA (with_pc p th)) with (pA p); change (wT (with_pc p th)) with (pT p); change (wS th) with (pS (t_pc th) + gS th);
      change (wA th) with (pA (t_pc th)); change (wT th) with (pT (t_pc th));
      change (wL (with_pc p th)) with (pL p + gB th); try lia.
    unfold served; cbn [cO cB cT cS cA cN cK cW cL cU]. intros. change (wL (with_pc p th)) with (pL p + gB th). lia.
Qed.
End submit.
