(* ===== verification/LaneAcquire.v ===== *)
(** * Synchronous submission, invocation and the lane invariant

    Steps that may take the drain lock of a lane, and the waits of
    [dispatch_sync]. *)

From S2P Require Import Prelude Threads DqState LaneRmw LaneFields LaneSuspend Lane LaneInv LaneStep LaneWaits LaneSubmit.

Section acquire.
Context {width : Z}.
Hypothesis Hw : 1 <= width <= 0xffe.

(** Only waiting threads are signalled. *)
Lemma not_waiting_grant c f i th : inv width c f -> lq_threads c !! i = Some th -> t_wait th = false -> t_grant th = GNone.
Proof.
  intros H Hi Hwt. destruct (t_grant th) eqn:E; [done|..];
    pose proof (wo_grant _ _ (inv_waits _ _ _ H) i th Hi ltac:(congruence)); congruence.
Qed.

Lemma step_slow_push c f i th it : inv width c f -> lq_threads c !! i = Some th -> t_pc th = PSlowPush it ->
  inv width (_dispatch_sync_f_slow i it c) f.
Proof.
  intros H Hi Hpc. step_open H Hi Hpc. destruct Hwok as [Hwt Hit]. pose proof (not_waiting_grant c f i th H Hi Hwt) as Hg.
  assert (forall p, pc_ok width p -> wait_ok i {| t_pc := p; t_wait := true; t_grant := GNone |} -> pB p + pD p = 0 -> transfer p = None ->
    books width f (lq_items c ++ [it]) (lq_tq c) (lq_redirected c)
      (count_swap (count_all (lq_threads c)) (count_one th) (count_one {| t_pc := p; t_wait := true; t_grant := GNone |})) ->
    inv width (put i {| t_pc := p; t_wait := true; t_grant := GNone |} (push_tail it c)) f) as Hgo.
  { intros p Hp1 Hp2 Hp3 Hp4 Hbk. apply (inv_insert c f i th {| t_pc := p; t_wait := true; t_grant := GNone |}); try done; try inv_rest H.
    - left. split; [done|]. split; [done|]. split; [done|]. by exists [it].
    - split; [done|]. split; [done|]. unfold wO, wB, wD, gB; cbn. lia.
    - apply (waits_push _ _ i th); try done; [exact (inv_waits _ _ _ H)|by rewrite Hpc].
    - lane_cbn. by rewrite (inv_fifo _ _ _ H), app_assoc. }
  assert (pb f = 1 -> exists dc, head (lq_items c ++ [it]) = Some dc /\ it_barrier dc = true) as Hh.
  { intros Hp. destruct (Bhead Hp) as (dc & Hdc & Hb). exists dc. split; [|done]. by destruct (lq_items c). }
  unfold _dispatch_sync_f_slow. destruct (tail_set c) eqn:Et; apply Hgo; try done; books_tac Hpc; rewrite ?Hg; try done; try lia; unfold served.
  apply tail_set_true in Et. unfold served in Bserv. intros _ Hs. specialize (Bserv Et Hs). lia.
Qed.

Lemma step_push_waiter c f i th q : inv width c f -> lq_threads c !! i = Some th -> t_pc th = PPushWaiter -> 0 <= q < 8 ->
  exists f', inv width (push_waiter_rmw width i q th c) f'.
Proof.
  intros H Hi Hpc Hq. pose proof (tid_range c f i th H Hi) as Ht.
  pose proof (takes_barrier_idle c f H) as Hidle. pose proof (busy_in_flight Hw c f H) as Hbusy.
  step_open H Hi Hpc. unfold push_waiter_rmw. rewrite Hword.
  destruct (push_waiter_spec width (tid_of i) Hw Ht q f Hwf (plain_of _ _ _ (inv_word _ _ _ H)) Hq) as (q' & o & Hq' & Ho & ->).
  set (g := set_dirty 1 (set_qos q' (set_ov o f))). assert (wf g) as Hg by (unfold g; auto with dispatch).
  destruct ((own f =? 0) && runnable f && takes_barrier width f) eqn:E.
  - rewrite !andb_true_iff in E. destruct E as [[E1 E2] E3]. reflect_bools. destruct (Hidle E1 E2 E3) as [Hib Hfl].
    assert (wf (f_lock (tid_of i) 1 g)) as Hl by (apply wf_f_lock; try done; lia).
    rewrite xor_in_barrier by done. cbn [ib f_lock]. rewrite Hib. cbn [negb Z.eqb]. unfold runnable, susp in E2.
    rewrite !andb_true_iff, negb_true_iff in E2. destruct E2 as [_ E2]. reflect_bools.
    exists (f_lock (tid_of i) 1 g). apply (inv_take Hw c f i th PBC); try done; unfold g; f_unfold; rewrite ?Hpc; try done; cbn [pA pS pT]; try lia.
  - rewrite xor_in_barrier by done. replace (negb (ib f =? ib g)) with false by (unfold g; f_unfold; by rewrite Z.eqb_refl).
    exists g. apply (inv_store c f i th (return_pc th)); try done; unfold g; f_unfold; try (by rewrite Hpc); try apply return_pc_free.
    + left. split; [done|]. split; [done|]. split; [done|]. exists []. by rewrite app_nil_r.
    + eapply thread_ok_return; [exact Hth|by rewrite Hpc|by left].
    + assert (own f = 0 -> na f + ina f + ssc f + sc f <= 0 ->
        0 < lq_redirected c + cA (count_all (lq_threads c)) + cS (count_all (lq_threads c))) as Hbz.
      { intros E0 Hs. apply Hbusy; try done. rewrite E0 in E. exact E. }
      ret_cases th; books_tac Hpc; try done; (intros Hne Hs; specialize (Bserv Hne Hs); lia).
Qed.

Lemma step_barrier_sync c f i th it : inv width c f -> lq_threads c !! i = Some th -> t_pc th = PIdle -> it_waiter it = Some i ->
  exists f', inv width (_dispatch_barrier_sync_f_inline width i it c) f'.
Proof.
  intros H Hi Hpc Hit. pose proof (tid_range c f i th H Hi) as Ht. step_open H Hi Hpc.
  unfold _dispatch_barrier_sync_f_inline. rewrite Hword.
  destruct (_dispatch_queue_try_acquire_barrier_sync width (tid_of i) (word f)) as [new|] eqn:E.
  - destruct (barrier_sync_spec width (tid_of i) Hw Ht f new Hwf E) as [Ef ->].
    assert (own f = 0 /\ wd f = 0x1000 - width /\ pb f = 0 /\ ib f = 0 /\ ssc f = 0) as (F1 & F2 & F3 & F4 & F5) by (by rewrite Ef).
    destruct (free_facts c f H F1) as (G1 & G2 & G3 & G4 & G5 & _).
    exists (f_lock (tid_of i) 1 f). apply (inv_take Hw c f i th (PBSyncRun false)); try done; f_unfold; rewrite ?Hpc; try done; cbn [pA pS pT]; try lia.
    apply wf_f_lock; try done; lia.
  - exists f. move_tac c f i th Hpc; [free_tac Hpc|]. books_tac Hpc; done || serv_tac.
Qed.

Lemma step_wait c f i th c' : inv width c f -> lq_threads c !! i = Some th -> t_pc th = PWait ->
  thread_event_wait i th c = Some c' -> inv width c' f.
Proof.
  intros H Hi Hpc. step_open H Hi Hpc. unfold thread_event_wait. destruct (t_grant th) eqn:Hg; [done|..]; intros [= <-].
  - assert (own f = tid_of i) as Hown by (apply Hth; unfold wO, wB, wD, gB; rewrite Hg, Hpc; done).
    apply (inv_insert c f i th {| t_pc := PBSyncRun true; t_wait := false; t_grant := GNone |}); try done; try inv_rest H.
    + keeps_left.
    + books_tac Hpc; rewrite ?Hg; try lia; try done. serv_tac.
    + apply (waits_woken _ _ i th); try done; [exact (inv_waits _ _ _ H)|congruence|by rewrite Hpc].
  - apply (inv_insert c f i th {| t_pc := PSyncRun; t_wait := false; t_grant := GNone |}); try done; try inv_rest H.
    + keeps_left.
    + books_tac Hpc; rewrite ?Hg; try lia; try done. serv_tac.
    + apply (waits_woken _ _ i th); try done; [exact (inv_waits _ _ _ H)|congruence|by rewrite Hpc].
Qed.

(** *** Completion of readers and redirected items *)

Lemma step_nb_complete c f i th b : inv width c f -> lq_threads c !! i = Some th -> t_pc th = PNBComplete b ->
  in_flight c <= 0xfff -> exists f', inv width (non_barrier_complete width i th c) f'.
Proof.
  intros H Hi Hpc Hfl. pose proof (tid_range c f i th H Hi) as Ht. pose proof (width_bound c f H Hfl) as Hwb.
  pose proof (free_facts c f H) as Hfree.
  assert (pA (t_pc th) <= cA (count_all (lq_threads c)) /\ pS (t_pc th) <= cS (count_all (lq_threads c))) as [HA HS].
  { pose proof (tally_ge wA _ i th ltac:(intros z; pose proof (th_nonneg z); lia) Hi) as G1.
    pose proof (tally_ge wS _ i th ltac:(intros z; pose proof (th_nonneg z); lia) Hi) as G2.
    assert (0 <= gS th) by (unfold gS; destruct (t_grant th); lia).
    change (wA th) with (pA (t_pc th)) in G1. change (wS th) with (pS (t_pc th) + gS th) in G2.
    cbn [cA cS count_all]. lia. }
  step_open H Hi Hpc. rewrite Hpc in HA, HS. unfold in_flight in Hfl.
  change (tally wA (lq_threads c)) with (cA (count_all (lq_threads c))) in Hfl.
  change (tally wS (lq_threads c)) with (cS (count_all (lq_threads c))) in Hfl.
  unfold non_barrier_complete. rewrite Hword.
  assert (1 <= lq_redirected c + cA (count_all (lq_threads c)) + cS (count_all (lq_threads c))) as Hfl1
    by (destruct b; cbn [pA pS] in HA, HS; lia).
  assert (ib f = 0) as Hib by lia.
  set (g := set_wd (wd f - 1) f). assert (1 <= wd f) as Hwd1 by lia.
  assert (own f = 0 -> full_after width g < 0x2000) as Hfull.
  { intros Ho. destruct (Hfree Ho) as (_ & _ & F3 & _). unfold full_after, g; f_unfold. destruct (Z.eqb_spec (pb f) 1); lia. }
  rewrite non_barrier_complete_spec by done. fold g. assert (wf g) as Hg by (unfold g; wf_lia).
  destruct (Z.eqb_spec (own f) 0) as [Ho|Ho]; cbn [negb].
  2: { (* the owner is told *)
    rewrite finish_spec by auto with dispatch. unfold g; f_unfold. rewrite !Z.eqb_refl. cbn [negb complete_next].
    exists (set_dirty 1 g). apply (inv_store c f i th (return_pc th)); try done; unfold g; f_unfold; auto with dispatch; try (by rewrite Hpc); try apply return_pc_free.
    - left. split; [done|]. split; [done|]. split; [done|]. exists []. by rewrite app_nil_r.
    - eapply thread_ok_return; [exact Hth|by rewrite Hpc|by left].
    - ret_cases th; destruct b; books_tac Hpc; try done; (intros Hne Hs; f_unfold; lia). }
  specialize (Hfull Ho). destruct (Hfree Ho) as (F1 & F2 & F3 & F4 & F5 & F6).
  assert (forall h p, wf h -> (h = g \/ h = set_enq 1 g) -> pc_ok width p -> wait_ok i (with_pc p th) -> pB p + pD p = 0 -> transfer p = None ->
     books width h (lq_items c) (lq_tq c) (lq_redirected c)
       (count_swap (count_all (lq_threads c)) (count_one th) (count_one (with_pc p th))) ->
     exists f', inv width (go i p (store (word h) c)) f') as Hgo.
  { intros h p Hwh Eh Hp1 Hp2 Hp3 Hp4 Hbk. exists h.
    apply (inv_store c f i th p); try done; try (by destruct Eh as [-> | ->]); [right; by right| |by rewrite Hpc].
    eapply thread_ok_free; [exact Hth|by rewrite Hpc|done|by left; destruct Eh as [-> | ->]|done|done]. }
  destruct (runnable g) eqn:Hr.
  - unfold runnable, susp in Hr. rewrite !andb_true_iff, negb_true_iff in Hr. destruct Hr as [[Hr1 Hr2] Hr3]. unfold g in Hr1, Hr2, Hr3; f_unfold; reflect_bools.
    destruct (Z.eqb_spec (full_after width g) 0x1000) as [Ef|Ef].
    + assert (wf (f_take (tid_of i) g)) as Hk by (apply wf_f_take; done).
      rewrite finish_spec by done. unfold f_take, g; f_unfold. rewrite Hib. cbn [negb Z.eqb complete_next].
      exists (f_take (tid_of i) g). unfold full_after, g in Ef; f_unfold.
      apply (inv_take Hw c f i th PBC); try done; unfold f_take, g; f_unfold; rewrite ?Hpc; try done; cbn [pA pS pT] in *; try lia.
      destruct (Z.eqb_spec (pb f) 1), b; cbn [pA pS] in *; lia.
    + unfold full_after, g in Ef; f_unfold.
      assert (1 < lq_redirected c + cA (count_all (lq_threads c)) + cS (count_all (lq_threads c))) as Hfl2
        by (destruct (Z.eqb_spec (pb f) 1); lia).
      destruct (Z.eqb_spec (dirty f) 1) as [Ed|Ed].
      * rewrite finish_spec by auto with dispatch. unfold g; f_unfold. rewrite Z.eqb_refl. cbn [negb].
        destruct (Z.eqb_spec (enq f) 1) as [Ee|Ee]; cbn [negb complete_next]; apply Hgo; try done; auto with dispatch;
          try exact (proj1 (return_pc_ok i th)); try exact (proj2 (return_pc_ok (width := width) i th)); try apply return_pc_free;
          [ret_cases th; destruct b; books_tac Hpc; try done; try lia|destruct b; books_tac Hpc; try done; try lia];
          intros Hne Hs; specialize (Bserv Hne Hs); lia.
      * rewrite finish_spec by done. unfold g; f_unfold. rewrite !Z.eqb_refl. cbn [negb complete_next].
        apply Hgo; [done|by left|exact (proj1 (return_pc_ok i th))|exact (proj2 (return_pc_ok (width := width) i th))|apply return_pc_free|apply return_pc_free|].
        ret_cases th; destruct b; books_tac Hpc; try done; (intros Hne Hs; specialize (Bserv Hne Hs); lia).
  - rewrite finish_spec by done. unfold g; f_unfold. rewrite !Z.eqb_refl. cbn [negb complete_next].
    apply Hgo; [done|by left|exact (proj1 (return_pc_ok i th))|exact (proj2 (return_pc_ok (width := width) i th))|apply return_pc_free|apply return_pc_free|].
    unfold runnable, susp, g in Hr; f_unfold. rewrite !andb_false_iff, negb_false_iff in Hr.
    ret_cases th; destruct b; books_tac Hpc; try done; (intros Hne Hs; specialize (Bserv Hne Hs); destruct Hr as [[Hr|Hr]|Hr]; reflect_bools; lia).
Qed.

(** *** Workers *)

Lemma step_work c f i th : inv width c f -> lq_threads c !! i = Some th -> t_pc th = PIdle -> 0 < lq_tq c ->
  inv width (go i (PInvoke 0) (add_tq (-1) c)) f.
Proof.
  intros H Hi Hpc Hq. step_open H Hi Hpc. apply (inv_next c f i th (PInvoke 0)); nochange_tac H Hpc.
  - keeps_left.
  - free_tac Hpc.
  - books_tac Hpc; done || serv_tac.
Qed.

Lemma step_work_redirected c f i th : inv width c f -> lq_threads c !! i = Some th -> t_pc th = PIdle -> 0 < lq_redirected c ->
  inv width (go i PAsyncRun (add_redirected (-1) c)) f.
Proof.
  intros H Hi Hpc Hq. step_open H Hi Hpc. apply (inv_next c f i th PAsyncRun); nochange_tac H Hpc.
  - keeps_left.
  - free_tac Hpc.
  - books_tac Hpc; done || serv_tac.
Qed.

(** [_dispatch_queue_drain_try_lock]: a failure only drops the ENQUEUED bit. *)
Lemma step_invoke c f i th fl : inv width c f -> lq_threads c !! i = Some th -> t_pc th = PInvoke fl ->
  exists f', inv width (_dispatch_queue_class_invoke width i fl th c) f'.
Proof.
  intros H Hi Hpc. pose proof (tid_range c f i th H Hi) as Ht. pose proof (free_facts c f H) as Hfree.
  pose proof (takes_barrier_idle c f H) as Hidle. pose proof (busy_in_flight Hw c f H) as Hbusy.
  assert (pT (t_pc th) <= cT (count_all (lq_threads c))) as HT
    by (exact (tally_ge wT _ i th ltac:(intros z; pose proof (th_nonneg z); lia) Hi)).
  step_open H Hi Hpc. rewrite Hpc in HT. cbn [pT] in HT. unfold _dispatch_queue_class_invoke. rewrite Hword.
  assert (enq f = 1) as He by lia.
  rewrite (try_lock_spec width (tid_of i) Hw Ht fl f Hwf (plain_of _ _ _ (inv_word _ _ _ H)) He).
  destruct ((own f =? 0) && runnable f) eqn:E.
  2: { change (0 =? 0) with true. cbv iota. exists (set_enq 0 f).
    apply (inv_store c f i th (return_pc th)); try done; auto with dispatch; try (by rewrite Hpc); try apply return_pc_free.
    - left. split; [done|]. split; [done|]. split; [done|]. exists []. by rewrite app_nil_r.
    - eapply thread_ok_return; [exact Hth|by rewrite Hpc|by left].
    - assert (own f = 0 -> na f + ina f + ssc f + sc f <= 0 ->
        0 < lq_redirected c + cA (count_all (lq_threads c)) + cS (count_all (lq_threads c))) as Hbz.
      { intros E0 Hs. apply Hbusy; try done. rewrite E0 in E. cbn in E. by rewrite E. }
      ret_cases th; books_tac Hpc; try done; (intros Hne Hs; specialize (Bserv Hne Hs); lia). }
  rewrite andb_true_iff in E. destruct E as [E1 E2]. reflect_bools.
  destruct (_dq_state_needs_lock_override (word f) fl).
  { exists f. move_tac c f i th Hpc; [free_tac Hpc|]. books_tac Hpc; done || serv_tac. }
  pose proof E2 as E2'. unfold runnable, susp in E2'. rewrite !andb_true_iff, negb_true_iff in E2'. destruct E2' as [[R1 R2] R3]. reflect_bools.
  cbv zeta. destruct (owned_decode (Z.b2z (takes_barrier width f)) (0x1000 - wd f)) as (D1 & D2 & D3);
    [destruct (takes_barrier width f); simpl; lia|lia|].
  rewrite D2, D3. apply Z.eqb_neq in D1. rewrite D1. clear D1 D2 D3. destruct (Hfree E1) as (F1 & F2 & F3 & F4 & F5 & _).
  destruct (takes_barrier width f) eqn:Etb; cbn [Z.b2z Z.eqb Pos.eqb].
  - destruct (Hidle E1 E2 eq_refl) as [Hib Hfl]. exists (f_lock (tid_of i) 1 f).
    apply (inv_take Hw c f i th (PDrainHead true (0x1000 - wd f))); try done; f_unfold; rewrite ?Hpc; try done; cbn [pA pS pT]; try lia.
    + by apply wf_f_lock.
    + cbn. unfold takes_barrier in Etb. apply orb_true_iff in Etb as [Etb|Etb]; reflect_bools; [right|left; lia].
      destruct (Bhead Etb) as (dc & Hdc & _). by destruct (lq_items c).
  - unfold takes_barrier in Etb. apply orb_false_iff in Etb as [Etb1 Etb2]. reflect_bools.
    exists (f_lock (tid_of i) 0 f).
    apply (inv_store c f i th (PDrainHead false (0x1000 - wd f))); try done; f_unfold; try lia; try (by rewrite Hpc).
    + by apply wf_f_lock.
    + right. by right.
    + apply thread_ok_own; try done. split; [|done]. lia.
    + assert (gB th = 0) as Hg0.
      { destruct (free_facts c f H E1) as (_ & _ & _ & _ & _ & F6). specialize (F6 i th Hi). unfold wO, wB, wD in F6.
        rewrite Hpc in F6. cbn in F6. lia. }
      books_tac Hpc; unfold gB in Hg0; try lia; try done.
Qed.

(** *** Suspension *)

(** The word changes, the threads and the queue do not. *)
Lemma inv_word_only c f c' f' : inv width c f -> lq_threads c' = lq_threads c -> lq_items c' = lq_items c ->
  lq_crashed c' = lq_crashed c -> lq_pushed c' = lq_pushed c -> lq_popped c' = lq_popped c ->
  word_ok (lq_state c') (lq_side c') f' -> own f' = own f -> pb f' = pb f -> (dirty f = 1 -> dirty f' = 1) ->
  books width f' (lq_items c) (lq_tq c') (lq_redirected c') (count_all (lq_threads c)) -> inv width c' f'.
Proof.
  intros H E1 E2 E3 E4 E5 Hword Ho Hp Hd Hb. split; rewrite ?E1, ?E2, ?E3, ?E4, ?E5; try done; try apply H.
  intros i th Hi. pose proof (thread_ok_mono (lq_items c) [] f f' i th Ho Hp Hd (inv_threads _ _ _ H i th Hi)) as Hm.
  by rewrite app_nil_r in Hm.
Qed.

Lemma step_suspend c f i c' : inv width c f -> lane_suspend_step i c = Some c' -> exists f', inv width c' f'.
Proof.
  intros H. lane_facts H. unfold lane_suspend_step. rewrite Hword, suspend_spec by done.
  destruct Hside as (Hs1 & Hs2 & Hs3). destruct (Z.ltb_spec (sc f) 63) as [Hlt|Hge].
  - intros [= <-]. exists (set_sc (sc f + 1) f). apply (inv_word_only c f); try done.
    + unfold set_sc. split; f_unfold; first [done | lia | wf_lia].
    + unfold set_sc. split; f_unfold; try done; try lia. unfold served; f_unfold. intros. lia.
  - assert (sc f = 63) as Es by lia.
    destruct (_dispatch_lane_suspend_slow (lq_side c) (word f)) as [[[new n]|]|] eqn:E; try done. intros [= <-].
    unfold _dispatch_lane_suspend_slow, os_sub_overflow, DISPATCH_QUEUE_SUSPEND_HALF, DISPATCH_QUEUE_SUSPEND_INTERVAL,
      DISPATCH_QUEUE_HAS_SIDE_SUSPEND_CNT in E.
    set (g := set_susp (na f) (ina f) 1 32 f). assert (wf g) as Hg by (unfold g; wf_lia).
    assert ((if lq_side c =? 0 then 32 * 288230376151711744 - 288230376151711744 - 144115188075855872
      else 32 * 288230376151711744 - 288230376151711744) = word f - word g) as Ed.
    { unfold g. destruct (Z.eqb_spec (lq_side c) 0) as [E0|E0].
      - rewrite E0 in Hs3. simpl in Hs3. word_arith.
      - destruct (Z.ltb_spec 0 (lq_side c)); [|lia]. simpl in Hs3. word_arith. }
    rewrite Ed in E. pose proof (word_range g Hg). destruct (Z.ltb_spec (word f) (word f - word g)); [lia|].
    replace (word f - (word f - word g)) with (word g) in E by lia.
    destruct (Z.ltb_spec (lq_side c + 32) (2 ^ 32)); [|done]. injection E as <- <-.
    exists g. apply (inv_word_only c f); try done.
    + unfold g. split; f_unfold; lane_cbn; try done. split_and!; [lia|lia| |].
      * replace (lq_side c + 32) with (lq_side c + 1 * 32) by lia. by rewrite Z.mod_add.
      * destruct (Z.ltb_spec 0 (lq_side c + 32)); [done|lia].
    + unfold g. split; f_unfold; try done; try lia. unfold served; f_unfold. intros. lia.
Qed.

(** The side count refills the inline count: the lane stays suspended. *)
Lemma resume_slow_inv c f new n : inv width c f -> sc f = 0 -> ssc f = 1 ->
  _dispatch_lane_resume_slow (lq_side c) (word f) = Some (new, n) -> exists f', inv width (store_side n (store new c)) f'.
Proof.
  intros H Hsc Hssc. lane_facts H. destruct Hside as (Hs1 & Hs2 & Hs3).
  assert (0 < lq_side c) by (rewrite Hs3 in Hssc; destruct (Z.ltb_spec 0 (lq_side c)); [done|simpl in Hssc; lia]).
  unfold _dispatch_lane_resume_slow, os_add_overflow, DISPATCH_QUEUE_SUSPEND_HALF, DISPATCH_QUEUE_SUSPEND_INTERVAL,
    DISPATCH_QUEUE_HAS_SIDE_SUSPEND_CNT. destruct (Z.eqb_spec (lq_side c) 0); [lia|].
  set (delta := if lq_side c =? 32 then _ else _).
  set (g := set_susp (na f) (ina f) (if lq_side c =? 32 then 0 else 1) 31 f).
  assert (wf g) as Hg by (subst g; destruct (_ =? 32); wf_lia).
  assert (word f + delta = word g) as Ed by (subst delta g; destruct (_ =? 32); word_arith).
  rewrite Ed. pose proof (word_range g Hg). destruct (Z.ltb_spec (word g) (2 ^ 64)); [|lia]. intros [= <- <-].
  assert (32 <= lq_side c) by (apply Z.mod_divide in Hs2 as [k Hk]; lia).
  exists g. apply (inv_word_only c f); try done.
  - unfold g. split; f_unfold; lane_cbn; try done. split_and!; [lia|lia| |].
    + replace (lq_side c - 32) with (lq_side c + (-1) * 32) by lia. by rewrite Z.mod_add.
    + destruct (Z.eqb_spec (lq_side c) 32), (Z.ltb_spec 0 (lq_side c - 32)); simpl; lia.
  - unfold g. split; f_unfold; try done; try lia. unfold served; f_unfold. intros. destruct (_ =? 32); lia.
Qed.

Lemma step_resume c f i th c' : inv width c f -> lq_threads c !! i = Some th -> t_pc th = PIdle ->
  lane_resume_step width i c = Some c' -> exists f', inv width c' f'.
Proof.
  intros H Hi Hpc. pose proof (tid_range c f i th H Hi) as Ht. pose proof (free_facts c f H) as Hfree.
  pose proof (resume_slow_inv c f) as Hslow. step_open H Hi Hpc. unfold lane_resume_step. rewrite Hword, resume_plain_spec by done.
  rewrite Hna. cbn [Z.eqb andb].
  destruct (Z.eqb_spec (sc f) 0) as [E0|E0].
  { destruct (Z.eqb_spec (ssc f) 1) as [E1|]; [|done].
    destruct (_dispatch_lane_resume_slow (lq_side c) (word f)) as [[new n]|] eqn:E; cbn; [|done]. intros [= <-]. by apply Hslow. }
  cbv zeta. set (g := set_sc (sc f - 1) f). assert (wf g) as Hg by (unfold g, set_sc; wf_lia).
  assert (own f = 0 -> ib f = 0) as Hib by (intros Ho; destruct (Hfree Ho); lia).
  assert (word_ok (word (set_dirty 1 g)) (lq_side c) (set_dirty 1 g)) as Hwd
    by (unfold g, set_sc; split; f_unfold; first [done | wf_lia]).
  assert (runnable g = true -> na g + ina g + ssc g + sc g <= 0 /\ wd f < 0x1000 /\ ib f = 0) as Hrun.
  { unfold runnable, susp. rewrite !andb_true_iff, negb_true_iff. intros [[R1 R2] R3]. unfold g, set_sc in *. f_unfold. reflect_bools. lia. }
  assert (runnable g = false -> na g + ina g + ssc g + sc g <= 0 -> 0x1000 <= wd f \/ ib f = 1) as Hnrun.
  { unfold runnable, susp. rewrite !andb_false_iff, negb_false_iff. intros Hr Hs. unfold g, set_sc in *. f_unfold.
    destruct Hr as [[R|R]|R]; reflect_bools; lia. }
  destruct (negb (runnable g) || negb (own g =? 0)) eqn:E.
  - rewrite resume_next_spec by (auto with dispatch; lia). change (na (set_dirty 1 g)) with (na f). rewrite Z.eqb_refl. cbn [negb].
    change (susp (set_dirty 1 g)) with (susp g). change (runnable (set_dirty 1 g)) with (runnable g).
    change (ib (set_dirty 1 g)) with (ib f). rewrite Z.eqb_refl. cbn [negb].
    assert (books width (set_dirty 1 g) (lq_items c) (lq_tq c) (lq_redirected c) (count_all (lq_threads c))) as Hbk.
    { unfold g, set_sc in *; split; f_unfold; try done; try lia. unfold served; f_unfold. intros Hne Hs.
      split; [|lia]. intros Ho. destruct (Hfree Ho) as (F1 & F2 & F3 & _). specialize (Hib Ho).
      rewrite orb_true_iff, !negb_true_iff in E. destruct E as [E|E]; [|rewrite Ho in E; done]. specialize (Hnrun E Hs). lia. }
    assert (inv width (store (word (set_dirty 1 g)) c) (set_dirty 1 g)) as Hst1 by (by apply (inv_word_only c f)).
    destruct (susp g) eqn:Hsg; [intros [= <-]; by eexists|]. destruct (runnable g) eqn:Hrg; intros [= <-]; [|by eexists].
    exists (set_dirty 1 g). apply (inv_store c f i th (PWake false)); try done; auto with dispatch; try (by rewrite Hpc).
    + left. split; [done|]. split; [done|]. split; [done|]. exists []. by rewrite app_nil_r.
    + free_tac Hpc.
    + unfold g, set_sc in *; books_tac Hpc; try done; try lia.
  - rewrite orb_false_iff, !negb_false_iff in E. destruct E as [Hrg Hog]. apply Z.eqb_eq in Hog. change (own g) with (own f) in Hog.
    destruct (Hrun Hrg) as (Hs & Hwdl & Hib0). destruct (Hfree Hog) as (F1 & F2 & F3 & F4 & F5 & _). cbn [andb negb].
    assert (na g = 0 /\ ina g = 0 /\ ssc g = 0 /\ sc g = 0) as (S1 & S2 & S3 & S4) by (destruct Hg; unfold g, set_sc in *; f_unfold; lia).
    destruct (takes_barrier width g) eqn:Etb.
    + assert (wf (f_lock (tid_of i) 1 g)) as Hl by (by apply wf_f_lock).
      rewrite resume_next_spec by (done || lia). cbn [na f_lock ib]. change (na f) with (na g). rewrite S1, Hib0.
      change (susp (f_lock (tid_of i) 1 g)) with false. cbn [negb Z.eqb]. intros [= <-].
      exists (f_lock (tid_of i) 1 g). unfold takes_barrier in Etb. change (pb g) with (pb f) in Etb. change (wd g) with (wd f) in Etb.
      apply (inv_take Hw c f i th PBC); try done; f_unfold; rewrite ?Hpc; try done; cbn [pA pS pT]; unfold g, set_sc in *; f_unfold; try lia.
    + rewrite resume_next_spec by (auto with dispatch; lia).
      change (na (set_qos 0 (f_unlock g))) with (na f). change (ib (set_qos 0 (f_unlock g))) with (ib f).
      change (susp (set_qos 0 (f_unlock g))) with (susp g). change (runnable (set_qos 0 (f_unlock g))) with (runnable g).
      rewrite !Z.eqb_refl, Hrg. replace (susp g) with false by (unfold susp; symmetry; apply Z.leb_gt; lia). cbn [negb]. intros [= <-].
      exists (set_qos 0 (f_unlock g)). apply (inv_store c f i th (PWake false)); try done; auto with dispatch; try (by rewrite Hpc).
      * right. by right.
      * eapply thread_ok_free; [exact Hth|by rewrite Hpc|done|by left|done|done].
      * unfold g, set_sc in *; books_tac Hpc; try done; try lia.
Qed.
End acquire.
