(* ===== verification/LaneDrain.v ===== *)
(** * Draining and the lane invariant

    The steps of the thread that owns the lane in [_dispatch_lane_drain] and
    [_dispatch_queue_class_invoke]. *)

From S2P Require Import Prelude Threads DqState LaneRmw LaneFields Lane LaneInv LaneStep LaneWaits LaneSubmit LaneAcquire.

(** Opens a step of the owner. *)
Ltac owner_open H Hi Hpc :=
  match type of H with inv _ ?c ?f =>
  match type of Hi with _ !! ?i = Some ?th =>
    pose proof (owner_pc c f i th H Hi ltac:(by rewrite Hpc)) as (Og & Ow & Otid & Onz & OcO & OcB & OcN & OcL & OcU & Oib & Ook);
    cbv zeta in *; rewrite Hpc in OcB, OcN, OcL, OcU, Oib, Ook;
    cbn [pB pD pN pL pU] in OcB, OcN, OcL, OcU, Oib; cbn [owner_ok] in Ook;
    step_open H Hi Hpc
  end end.

(** The owner goes on at a program point that still owns the lane. *)
(** Program points with plain arithmetic conditions. *)
Ltac pc_tac := first [done | split; [cbn; lia|cbn; first [done | lia]] | idtac].
Ltac own_tac := apply thread_ok_own; [try done|pc_tac|unfold wait_ok; cbn; try done|cbn [owner_ok]; try done].

Ltac own_books Hpc Og := books_tac Hpc; unfold gB in Og; try done; try lia; try serv_tac.

(** The owner stores a word and goes on. *)
Ltac store_own c f i th Hpc Og :=
  apply (inv_store c f i th);
  [assumption|assumption|try solve [auto with dispatch]|try done|try done|try done|try done|try done|try done
  |right; by left|own_tac|own_books Hpc Og|by rewrite Hpc|try done].

Section drain.
Context {width : Z} (redirecting : bool).
Hypothesis Hw : 1 <= width <= 0xffe.

Lemma get_head_some c dc : get_head c = Some dc -> head (lq_items c) = Some dc.
Proof. unfold get_head. by destruct (head_visible c). Qed.

Lemma head_nonempty (items : list item) dc : head items = Some dc -> items <> [].
Proof. by destruct items. Qed.

Lemma step_drain_head c f i th b n c' : inv width c f -> lq_threads c !! i = Some th -> t_pc th = PDrainHead b n ->
  lane_drain_enter width i b n c = Some c' -> inv width c' f.
Proof.
  intros H Hi Hpc. destruct b; owner_open H Hi Hpc; unfold lane_drain_enter; destruct (tail_set c) eqn:Et; cbn [negb];
    try (apply tail_set_true in Et); try (apply tail_set_false in Et).
  - intros (dc & Hdc & [= <-])%bind_Some. apply get_head_some in Hdc. rewrite orb_true_r.
    move_tac c f i th Hpc; [own_tac|]. own_books Hpc Og.
  - intros [= <-]. destruct Ook as [->|]; [|done]. move_tac c f i th Hpc; [own_tac|]. own_books Hpc Og.
  - intros (dc & Hdc & [= <-])%bind_Some. apply get_head_some in Hdc. unfold serial.
    destruct (Z.eqb_spec width 1); [lia|]. cbn [orb]. move_tac c f i th Hpc; [own_tac|]. own_books Hpc Og.
  - intros [= <-]. move_tac c f i th Hpc; [own_tac|]. own_books Hpc Og.
Qed.

Lemma step_drain_next c f i th o c' : inv width c f -> lq_threads c !! i = Some th -> t_pc th = PDrainNext o ->
  lane_drain_next width i o c = Some c' -> inv width c' f.
Proof.
  intros H Hi Hpc. destruct o; owner_open H Hi Hpc; unfold lane_drain_next; destruct (tail_set c) eqn:Et; cbn [negb];
    try (apply tail_set_true in Et); try (apply tail_set_false in Et).
  all: try (intros (dc & Hdc & [= <-])%bind_Some; apply get_head_some in Hdc;
    move_tac c f i th Hpc; [own_tac|]; own_books Hpc Og).
  all: intros [= <-]; move_tac c f i th Hpc; [own_tac|]; own_books Hpc Og.
Qed.

Lemma step_run c f i th o dc : inv width c f -> lq_threads c !! i = Some th ->
  t_pc th = match o with OBarrier => PRunB dc | OWidth n => PRunNB n dc end -> inv width (go i (PDrainNext o) c) f.
Proof.
  intros H Hi Hpc. destruct o; owner_open H Hi Hpc; (move_tac c f i th Hpc; [own_tac|]); own_books Hpc Og.
Qed.

(** The race excluded here: the drain is interrupted by a suspension while a
    barrier is pending already. *)
Definition pending_race (c : lane) (th : thread) : bool :=
  match t_pc th with
  | PDrainItem (OWidth _) dc =>
      _dq_state_is_suspended (lq_state c) && _dq_state_has_pending_barrier (lq_state c)
  | _ => false
  end.

Lemma step_drain_item c f i th o dc : inv width c f -> lq_threads c !! i = Some th -> t_pc th = PDrainItem o dc ->
  pending_race c th = false -> inv width (lane_drain_first_iteration width i o dc c) f.
Proof.
  intros H Hi Hpc Hrace. unfold pending_race in Hrace. rewrite Hpc in Hrace. unfold lane_drain_first_iteration.
  destruct o; owner_open H Hi Hpc; destruct (_dq_state_is_suspended (lq_state c)) eqn:Es; cbn [andb] in Hrace;
    (move_tac c f i th Hpc; [own_tac|]); try (own_books Hpc Og).
  1, 2: by exists dc.
  intros _. rewrite Hword, has_pending_barrier_word in Hrace by done. reflect_bools. lia.
Qed.

(** [_dispatch_queue_drain_try_unlock] fails on DIRTY: the invariant needs that no
    work was missed. *)
Lemma step_unlock c f i th b n d : inv width c f -> lq_threads c !! i = Some th -> t_pc th = PUnlock b n d ->
  exists f', inv width (class_invoke_unlock i b n d th c) f'.
Proof.
  intros H Hi Hpc. unfold class_invoke_unlock.
  assert (pT (t_pc th) <= cT (count_all (lq_threads c))) as HT
    by (exact (tally_ge wT _ i th ltac:(intros z; pose proof (th_nonneg z); lia) Hi)).
  rewrite Hpc in HT. cbn [pT] in HT.
  assert (pB (t_pc th) = Z.b2z b /\ pD (t_pc th) = 1 - Z.b2z b) as [HpB HpD] by (rewrite Hpc; by destruct b).
  assert (exists g, g = set_enq 0 (set_ib 0 (set_wd (wd f - n) f)) /\ wf g /\
    word f - (owned_word b n + DISPATCH_QUEUE_ENQUEUED) = word g /\ enq f = 1) as (g & Eg & Hg & Ew & He).
  { eexists. split; [reflexivity|]. destruct b; owner_open H Hi Hpc; cbn in Hpok, Hpok2;
    (assert (enq f = 1) by lia; split; [wf_lia|]; split; [unfold owned_word; word_arith|done]). }
  rewrite (inv_word _ _ _ H).(wk_word _ _ _). destruct (inv_word _ _ _ H) as [Hwf0 _ _ _ _].
  rewrite (try_unlock_spec (owned_word b n + DISPATCH_QUEUE_ENQUEUED) d f g Hwf0 Hg Ew). clear Hwf0.
  assert (forall h, wf h -> em h = em f -> st h = 0 -> role h = role f -> na h = na f -> ina h = ina f -> ssc h = ssc f ->
    books width h (lq_items c) (lq_tq c) (lq_redirected c)
       (count_swap (count_all (lq_threads c)) (count_one th) (count_one (with_pc (return_pc th) th))) ->
    exists f', inv width (go i (return_pc th) (store (word h) c)) f') as Hgo.
  { intros h Hh E1 E2 E3 E4 E5 E6 Hbk. exists h. apply (inv_unlock_return c f i th); try done; [lia|by rewrite Hpc]. }
  destruct (susp f) eqn:Hs.
  - unfold susp in Hs. reflect_bools. subst g. destruct b; owner_open H Hi Hpc; cbn in Hpok, Hpok2;
    (apply Hgo; auto with dispatch; [ret_cases th; own_books Hpc Og]).
  - unfold susp in Hs. reflect_bools. destruct (Z.eqb_spec (dirty f) 1) as [Ed|Ed].
    + exists f. destruct b; owner_open H Hi Hpc; cbn in Hpok, Hpok2; (move_tac c f i th Hpc; [own_tac|]); own_books Hpc Og.
    + subst g. destruct d; (destruct b; owner_open H Hi Hpc; cbn in Hpok, Hpok2; try done;
        (apply Hgo; auto with dispatch; [ret_cases th; own_books Hpc Og])).
Qed.

Lemma step_unlock_xor c f i th b n : inv width c f -> lq_threads c !! i = Some th -> t_pc th = PUnlockXor b n ->
  exists f', inv width (go i (PDrainHead b n) (store (xor_dirty (lq_state c)) c)) f'.
Proof.
  intros H Hi Hpc. exists (set_dirty 0 f). destruct b; owner_open H Hi Hpc; rewrite Hword, xor_dirty_word by done;
    store_own c f i th Hpc Og.
  by left.
Qed.

(** The word after [owned] is given back at the end of an interrupted drain. *)
Definition f_giveback (n nb : Z) (f : fields) : fields :=
  if nb =? 1 then set_enq 0 (set_ib 0 (set_pb 1 (set_wd (wd f - n + width - 1) f)))
  else set_enq 0 (set_ib 0 (set_wd (wd f - n) f)).

Lemma finish_owned (b : bool) n (nb : bool) f : let nb' := Z.b2z (nb && (1 <? width)) in
  let g := f_giveback n nb' f in
  wf f -> wf g -> ib f = Z.b2z b -> enq f = 1 -> (nb' = 1 -> pb f = 0) -> 0 <= n ->
  sub64 (word f) (Z.lor DISPATCH_QUEUE_ENQUEUED (_dispatch_queue_adjust_owned width (owned_word b n) (Some nb))) = word g.
Proof.
  intros nb' g Hf Hg Hb He Hp Hn. pose proof (word_range g Hg) as Hr. unfold _dispatch_queue_adjust_owned.
  assert (0 <= ib f < 2) as Hib by (destruct Hf; lia).
  destruct (nb && (1 <? width)) eqn:E.
  - apply andb_true_iff in E as [-> ->]. unfold g, f_giveback, nb' in *. cbn [Z.b2z Z.eqb Pos.eqb] in *. specialize (Hp eq_refl).
    unfold sub64 at 2.
    rewrite (adjusted_owned _ (ib f * 2 ^ 14 + 2 * n - 1 - 2 * (width - 1)))
      by (unfold owned_word, pending_barrier_width, DISPATCH_QUEUE_IN_BARRIER, DISPATCH_QUEUE_WIDTH_INTERVAL,
            DISPATCH_QUEUE_PENDING_BARRIER; rewrite Hb; destruct b; simpl Z.b2z; lia).
    rewrite <- (wrap_small 64 (word _) Hr). f_equal. unfold owned_word. destruct b; simpl Z.b2z in Hb; word_arith.
  - replace (if 1 <? width then if nb then _ else owned_word b n else owned_word b n) with (owned_word b n)
      by (destruct nb, (1 <? width); done).
    unfold g, f_giveback, nb' in *. cbn [Z.b2z Z.eqb] in *.
    assert (n <= 0x1fff) by (destruct Hg as [_ _ _ _ _ _ _ _ _ Hwd _ _ _ _ _]; destruct Hf; f_unfold; eval_pow2; lia).
    rewrite <- (wrap_small 64 (owned_word b n))
      by (unfold owned_word, DISPATCH_QUEUE_IN_BARRIER, DISPATCH_QUEUE_WIDTH_INTERVAL; destruct b; lia).
    rewrite (adjusted_owned _ (ib f * 2 ^ 14 + 2 * n))
      by (unfold owned_word, DISPATCH_QUEUE_IN_BARRIER, DISPATCH_QUEUE_WIDTH_INTERVAL; rewrite Hb; destruct b; simpl Z.b2z; lia).
    rewrite <- (wrap_small 64 (word _) Hr). f_equal. unfold owned_word. destruct b; simpl Z.b2z in Hb; word_arith.
Qed.

(** An interrupted drain: ENQUEUED comes back if somebody may drain the lane. *)
Lemma books_finish c f i th b n nb nb' h p : inv width c f -> lq_threads c !! i = Some th -> t_pc th = PFinish b n nb ->
  nb' = Z.b2z (nb && (1 <? width)) -> pb f = 0 -> enq f = 1 ->
  own h = 0 -> dirty h = 1 -> ib h = 0 -> pb h = nb' -> wd h = wd f - n + nb' * (width - 1) ->
  na h = na f -> ina h = ina f -> ssc h = ssc f -> sc h = sc f ->
  (p = PPushTQ /\ enq h = 1) \/ (p = return_pc th /\ enq h = 0 /\ (na f + ina f + ssc f + sc f <= 0 -> 0x1000 <= wd h)) ->
  books width h (lq_items c) (lq_tq c) (lq_redirected c)
    (count_swap (count_all (lq_threads c)) (count_one th) (count_one (with_pc p th))).
Proof.
  intros H Hi Hpc En E1 E2 E3 E4 E5 E6 E7 E8 E9 E10 E11 Hp.
  assert ((nb' = 1 /\ nb = true /\ 2 <= width) \/ nb' = 0) as Hnb.
  { rewrite En. destruct nb, (Z.ltb_spec 1 width); cbn; lia. }
  clear En. destruct b; owner_open H Hi Hpc; destruct Ook as [(dc & Hdc & Hd) _]; cbn in Hpok, Hpok2;
    (destruct Hp as [[-> Ee]|(-> & Ee & Hq)]; [|ret_cases th]; books_tac Hpc; unfold gB in Og; try lia;
     try (intros Hpb; exists dc; split; [done|]; destruct Hnb as [(_ & -> & _)|]; [done|lia]);
     intros Hne Hs; lia).
Qed.

Lemma step_finish c f i th b n nb : inv width c f -> lq_threads c !! i = Some th -> t_pc th = PFinish b n nb ->
  in_flight c <= 0xfff -> exists f', inv width (invoke_finish width i b n nb th c) f'.
Proof.
  intros H Hi Hpc Hfl. unfold invoke_finish, in_flight in *.
  change (tally wA (lq_threads c)) with (cA (count_all (lq_threads c))) in Hfl.
  change (tally wS (lq_threads c)) with (cS (count_all (lq_threads c))) in Hfl.
  assert (pT (t_pc th) <= cT (count_all (lq_threads c))) as HT
    by (exact (tally_ge wT _ i th ltac:(intros z; pose proof (th_nonneg z); lia) Hi)).
  rewrite Hpc in HT. cbn [pT] in HT. remember (Z.b2z (nb && (1 <? width))) as nb' eqn:Enb. set (g := f_giveback n nb' f).
  assert (nb' = 1 \/ nb' = 0) as Hnb by (rewrite Enb; destruct (_ && _); [by left|by right]).
  assert (wf g /\ ib f = Z.b2z b /\ enq f = 1 /\ pb f = 0 /\ 0 <= n) as (Hg & Hib & He & Hp & Hn).
  { destruct b; owner_open H Hi Hpc; cbn in Hpok; destruct Ook as [_ Hpb];
      (assert (pb f = 0) by (first [exact (Hpb eq_refl) | lia])); unfold g, f_giveback;
      (split; [destruct (nb' =? 1); wf_lia|]; split_and!; try lia; try done). }
  pose proof (finish_owned b n nb f) as Hfo. cbv zeta in Hfo. rewrite <- Enb in Hfo. fold g in Hfo.
  destruct (inv_word _ _ _ H) as [Hf Hwd _ _ _]. specialize (Hfo Hf Hg Hib He ltac:(lia) Hn).
  rewrite Hwd, Hfo.
  assert (plain g) as Hpl.
  { pose proof (plain_of _ _ _ (inv_word _ _ _ H)) as Hpl0. unfold g, f_giveback, plain in *. destruct (nb' =? 1); f_unfold; done. }
  rewrite (invoke_finish_spec _ f g Hf Hg Hpl Hfo). set (h := set_enq (if runnable g then 1 else enq g) (set_dirty 1 (f_unlock g))).
  assert (enq g = 0 /\ ib g = 0 /\ pb g = nb' /\ wd g = wd f - n + nb' * (width - 1) /\ em g = em f /\ st g = st f /\ role g = role f
    /\ na g = na f /\ ina g = ina f /\ ssc g = ssc f /\ sc g = sc f) as (G1 & G2 & G3 & G4 & G5 & G6 & G7 & G8 & G9 & G10 & G11).
  { unfold g, f_giveback. destruct Hnb as [-> | ->]; cbn [Z.eqb Pos.eqb]; f_unfold; split_and!; try done; lia. }
  assert (wf h) as Hh by (unfold h; rewrite G1; destruct (runnable g); auto with dispatch).
  assert (runnable g = false -> na f + ina f + ssc f + sc f <= 0 -> 0x1000 <= wd h) as Hr.
  { unfold runnable, susp. rewrite !andb_false_iff, negb_false_iff, G8, G9, G10, G11. change (wd h) with (wd g).
    intros [[R|R]|R]; reflect_bools; lia. }
  assert (enq h = if runnable g then 1 else 0) as Eh by (unfold h; f_unfold; by rewrite G1).
  rewrite xor_enqueued, Eh, G1 by done.
  assert (forall p, pc_ok width p -> wait_ok i (with_pc p th) -> pB p + pD p = 0 -> transfer p = None ->
    (p = PPushTQ /\ enq h = 1) \/ (p = return_pc th /\ enq h = 0 /\ (na f + ina f + ssc f + sc f <= 0 -> 0x1000 <= wd h)) ->
    exists f', inv width (go i p (store (word h) c)) f') as Hgo.
  { intros p P1 P2 P3 P4 P5. exists h. apply (inv_unlock c f i th); try done; [rewrite Hpc; by destruct b| |by rewrite Hpc].
    by apply (books_finish c f i th b n nb nb'). }
  destruct (runnable g) eqn:Er; cbn [Z.eqb negb]; apply Hgo; try done.
  - left. done.
  - apply (return_pc_ok i).
  - exact (proj2 (return_pc_ok (width := width) i th)).
  - apply return_pc_free.
  - apply return_pc_free.
  - right. auto.
Qed.
End drain.
