(* ===== verification/LaneWidth.v ===== *)
(** * Barriers, width and the lane invariant

    The steps of [_dispatch_lane_drain] that acquire the width for the next item,
    pop it and start it. *)

From S2P Require Import Prelude Threads DqState LaneRmw LaneFields Lane LaneInv LaneStep LaneWaits LaneSubmit LaneAcquire LaneDrain.

(** Names the work in flight in the bound of a step. *)
Ltac flight_facts Hfl :=
  unfold in_flight in Hfl;
  repeat match type of Hfl with
  | context [tally wA ?l] => change (tally wA l) with (cA (count_all l)) in Hfl
  | context [tally wS ?l] => change (tally wS l) with (cS (count_all l)) in Hfl
  end.

Section width.
Context {width : Z} (redirecting : bool).
Hypothesis Hw : 1 <= width <= 0xffe.

(** PENDING_BARRIER is set for the barrier at the head of the queue only. *)
Lemma head_not_pending c f dc : inv width c f -> head (lq_items c) = Some dc -> it_barrier dc = false -> pb f = 0.
Proof.
  intros H Hh Hdc. lane_facts H. destruct (Z.eqb_spec (pb f) 1) as [E|]; [|lia].
  destruct (Bhead E) as (d & Hd & Hdb). congruence.
Qed.

(** The upgrade to a barrier: it takes all the width or leaves PENDING_BARRIER. *)
Lemma step_upgrade c f i th n dc : inv width c f -> lq_threads c !! i = Some th -> t_pc th = PDrainGo (OWidth n) dc ->
  in_flight c <= 0xfff -> it_barrier dc = true ->
  exists f', inv width (lane_drain_item width i (OWidth n) dc c) f'.
Proof.
  intros H Hi Hpc Hfl Hdc. owner_open H Hi Hpc. flight_facts Hfl. unfold lane_drain_item, serial. rewrite Hdc, orb_true_r.
  destruct (Z.eqb_spec width 1); [lia|]. rewrite Hword.
  destruct (Z.eqb_spec (pb f) 1) as [Hp|Hp].
  - assert (n = 0) as -> by lia. rewrite upgrade_pending_spec by (done || lia). destruct (runnable f) eqn:Hr; cbv iota beta.
    + unfold runnable, susp in Hr. rewrite !andb_true_iff, negb_true_iff in Hr. destruct Hr as [[R1 R2] R3]. reflect_bools.
      exists (set_dirty 0 (set_ib 1 (set_pb 0 (set_wd (wd f + 1) f)))). store_own c f i th Hpc Og.
    + unfold runnable, susp in Hr. rewrite !andb_false_iff, negb_false_iff in Hr.
      exists (set_dirty 0 f). store_own c f i th Hpc Og.
  - assert (pb f = 0) as Hp0 by lia. specialize (Bwid Oib Hp0).
    rewrite upgrade_spec by (done || lia). cbv zeta. set (g := set_pb 1 _). destruct (runnable g) eqn:Hr; cbv iota beta.
    + unfold runnable, susp, g in Hr. f_unfold. rewrite !andb_true_iff, negb_true_iff in Hr. destruct Hr as [[R1 R2] R3]. reflect_bools.
      exists (set_dirty 0 (set_ib 1 (set_wd (wd f - n + width) f))). clear g. store_own c f i th Hpc Og.
    + unfold runnable, susp, g in Hr. f_unfold. rewrite !andb_false_iff, negb_false_iff in Hr.
      exists (set_dirty 0 g). unfold g. clear g. store_own c f i th Hpc Og.
      intros _. by exists dc.
Qed.

(** The drain goes on with an item once it may run. *)
Lemma step_drain_go c f i th o dc : inv width c f -> lq_threads c !! i = Some th -> t_pc th = PDrainGo o dc ->
  in_flight c <= 0xfff -> exists f', inv width (lane_drain_item width i o dc c) f'.
Proof.
  intros H Hi Hpc Hfl. destruct o as [|n].
  2: destruct (it_barrier dc) eqn:Hdc; [by apply (step_upgrade c f i th)|].
  - owner_open H Hi Hpc. unfold lane_drain_item. destruct (serial width || it_barrier dc) eqn:Hs.
    + destruct (it_waiter dc) eqn:Hwt.
      * exists f. move_tac c f i th Hpc; [own_tac|own_books Hpc Og].
      * exists f. apply (inv_pop c f i th (PRunB dc) dc 0); try done; [by rewrite Hpc|by right| |by rewrite Hpc].
        rewrite Z.add_0_r. own_books Hpc Og.
    + apply orb_false_iff in Hs as [Hs Hb]. unfold serial in Hs. reflect_bools. rewrite Hword, xor_ib_word by done.
      exists (set_ib 0 f). store_own c f i th Hpc Og.
      all: destruct (it_waiter dc); lia.
  - owner_open H Hi Hpc. flight_facts Hfl. unfold lane_drain_item, serial. rewrite Hdc.
    destruct (Z.eqb_spec width 1); [lia|]. cbn [orb].
    pose proof (head_not_pending c f dc H Ook Hdc) as Hp0.
    specialize (Bwid Oib Hp0). destruct (Z.eqb_spec n 0) as [->|Hn].
    + destruct (it_waiter dc) eqn:Hwt.
      * rewrite Hword, reserve_sync_spec by (done || lia). exists (set_wd (wd f + 1) f). store_own c f i th Hpc Og. all: rewrite Hwt; lia.
      * rewrite Hword, try_async_spec by done. destruct (runnable f && _ && _) eqn:Hr;
          unfold runnable, susp in Hr; [rewrite !andb_true_iff, negb_true_iff in Hr; destruct Hr as [[[[R1 R2] R3] R4] R5]; reflect_bools|].
        -- exists (set_wd (wd f + 1) f). store_own c f i th Hpc Og. all: rewrite Hwt; lia.
        -- rewrite !andb_false_iff, negb_false_iff in Hr. exists f. move_tac c f i th Hpc; [own_tac|own_books Hpc Og].
    + exists f. destruct (it_waiter dc) eqn:Hwt; (move_tac c f i th Hpc; [own_tac|own_books Hpc Og]). all: rewrite Hwt; lia.
Qed.

(** The item the drain holds width for leaves the queue. *)
Lemma step_drain_pop c f i th n dc : inv width c f -> lq_threads c !! i = Some th -> t_pc th = PDrainPop n dc ->
  inv width (lane_drain_pop redirecting i n dc c) f.
Proof.
  intros H Hi Hpc. owner_open H Hi Hpc. destruct Ook as [Hh Hdc]. unfold lane_drain_pop.
  pose proof (head_not_pending c f dc H Hh Hdc) as Hp0.
  specialize (Bwid Oib Hp0). destruct (it_waiter dc) as [j|] eqn:Hwt.
  - apply (inv_pop_grant c f i th); try done; [by rewrite Hpc|pc_tac| |by rewrite Hpc].
    unfold count_grant. own_books Hpc Og. all: try (rewrite Hwt in *; lia).
  - destruct redirecting.
    + apply (inv_pop c f i th _ dc 1); try done; [by rewrite Hpc|by left|pc_tac| |by rewrite Hpc].
      own_books Hpc Og. all: try (rewrite Hwt in *; lia).
    + apply (inv_pop c f i th _ dc 0); try done; [by rewrite Hpc|by right| |by rewrite Hpc].
      own_books Hpc Og. all: try (rewrite Hwt in *; lia).
Qed.
End width.
