(* ===== verification/LaneComplete.v ===== *)
(** * Completion of barriers and the lane invariant

    The steps of [_dispatch_lane_barrier_complete], of the transfer of the lock to
    a barrier waiter, and of [_dispatch_lane_drain_non_barriers]. *)

From S2P Require Import Prelude Threads DqState LaneRmw LaneFields Lane LaneInv LaneStep LaneWaits LaneSubmit LaneAcquire LaneDrain LaneWidth.

Section complete.
Context {width : Z} (redirecting : bool).
Hypothesis Hw : 1 <= width <= 0xffe.

(** ** The lock goes to a barrier waiter *)

Lemma step_bw_pop c f i th e dc c' : inv width c f -> lq_threads c !! i = Some th -> t_pc th = PBWPop e dc ->
  drain_barrier_waiter_pop i e dc c = Some c' -> inv width c' f.
Proof.
  intros H Hi Hpc. owner_open H Hi Hpc. unfold drain_barrier_waiter_pop. destruct (it_waiter dc) as [j|] eqn:Hdc; [|done].
  intros [= <-]. assert (lq_items c = dc :: tail (lq_items c)) as Ei by (destruct (lq_items c); simplify_eq/=; done).
  pose proof (inv_waits _ _ _ H) as Hwt. rewrite Ei in Hwt.
  apply (inv_insert c f i th (with_pc (PBWTransfer e j) th)); try done; cbn; try inv_rest H.
  - by apply alter_insert_eq.
  - right; by left.
  - destruct e; own_books Hpc Og.
  - apply (waits_pop_transfer dc _ _ i th); [done..|by rewrite Hpc].
  - rewrite (inv_fifo _ _ _ H), <- app_assoc. by rewrite Ei at 1.
Qed.

Lemma step_bw_transfer c f i th e j c' : inv width c f -> lq_threads c !! i = Some th -> t_pc th = PBWTransfer e j ->
  drain_barrier_waiter_transfer i e j th c = Some c' -> exists f', inv width c' f'.
Proof.
  intros H Hi Hpc. pose proof (inv_waits _ _ _ H) as Hwt. destruct (wo_transfer _ _ Hwt i th e j Hi Hpc) as [Hn (y & Hy & Ey & Eg)].
  pose proof (tid_range c f j y H Hy) as Htj.
  assert (pT (t_pc th) <= cT (count_all (lq_threads c))) as HT
    by (exact (tally_ge wT _ i th ltac:(intros z; pose proof (th_nonneg z); lia) Hi)).
  rewrite Hpc in HT. destruct (owner_pc c f i th H Hi) as (_ & Ow0 & _); [by rewrite Hpc|].
  destruct (owner_facts c f i th H Hi Ow0) as (_ & _ & _ & _ & _ & _ & _ & Hoth).
  owner_open H Hi Hpc. unfold drain_barrier_waiter_transfer.
  assert ((if e then DISPATCH_QUEUE_ENQUEUED else 0) = Z.b2z e * DISPATCH_QUEUE_ENQUEUED) as -> by (by destruct e).
  rewrite Hword, drain_barrier_waiter_spec; [|done|exact (plain_of _ _ _ (inv_word _ _ _ H))|done|destruct e; cbn in *; lia].
  cbn [mbind option_bind]. intros [= <-]. eexists.
  apply (inv_signal c f i th (return_pc th) j GBarrier _ _ y); try done; try inv_rest H.
  - by rewrite Hpc.
  - apply (word_ok_upd (lq_state c) _ f); [exact (inv_word _ _ _ H)|destruct e; cbn in *; wf_lia|done..].
  - split; [apply (return_pc_ok i)|]. split; [exact (proj2 (return_pc_ok (width := width) i th))|]. intros Hk. exfalso.
    unfold wO, wB, wD in Hk. change (gB (with_pc (return_pc th) th)) with (gB th) in Hk. cbn [t_pc with_pc] in Hk.
    pose proof (proj2 (return_pc_free th)). lia.
  - intros _. split; [done|]. apply return_pc_free.
  - unfold count_grant. ret_cases th; destruct e; own_books Hpc Og. all: cbn [Z.b2z]; lia.
  - cbn. apply (waits_transferred _ _ i th e); try done; [|apply return_pc_free].
    intros k z Hk Hz. specialize (Hoth k z Hk Hz). destruct (t_pc z) eqn:Ez; try done. exfalso.
    pose proof (wO_ge z) as Hge. rewrite Ez in Hge. cbn in Hge. lia.
Qed.

(** ** Barriers *)

Lemma step_barrier_sync_run c f i th slow : inv width c f -> lq_threads c !! i = Some th -> t_pc th = PBSyncRun slow ->
  inv width (_dispatch_lane_barrier_sync_invoke_and_complete width i slow c) f.
Proof.
  intros H Hi Hpc. owner_open H Hi Hpc. unfold _dispatch_lane_barrier_sync_invoke_and_complete.
  destruct (slow || tail_set c || (1 <? width)) eqn:E; (move_tac c f i th Hpc; [own_tac|]).
  - own_books Hpc Og.
  - rewrite !orb_false_iff in E. destruct E as [[_ Et] E]. apply tail_set_false in Et. own_books Hpc Og.
Qed.

Lemma step_barrier_sync_unlock c f i th : inv width c f -> lq_threads c !! i = Some th -> t_pc th = PBSyncUnlock ->
  exists f', inv width (barrier_sync_unlock i th c) f'.
Proof.
  intros H Hi Hpc. owner_open H Hi Hpc. unfold barrier_sync_unlock. rewrite Hword, barrier_sync_unlock_spec by (done || lia).
  destruct (_ || _) eqn:E.
  - exists f. move_tac c f i th Hpc; [own_tac|own_books Hpc Og].
  - unfold susp in E. rewrite !orb_false_iff in E. destruct E as [[[[E1 E2] E3] E4] E5]. reflect_bools.
    eexists. apply (inv_unlock_return c f i th); try done; try (by rewrite Hpc).
    + apply wf_set_qos; [|lia]. apply wf_unlock. wf_lia.
    + ret_cases th; own_books Hpc Og.
Qed.

(** [_dispatch_lane_barrier_complete] up to the choice of what follows. *)
Lemma step_bc c f i th : inv width c f -> lq_threads c !! i = Some th -> t_pc th = PBC ->
  inv width (go i (if tail_set c then PBCSusp else PClassBC false) c) f.
Proof.
  intros H Hi Hpc. owner_open H Hi Hpc. destruct (tail_set c) eqn:Et; [apply tail_set_true in Et|apply tail_set_false in Et];
    (move_tac c f i th Hpc; [own_tac|own_books Hpc Og]).
Qed.

Lemma step_bc_susp c f i th : inv width c f -> lq_threads c !! i = Some th -> t_pc th = PBCSusp ->
  inv width (go i (if _dq_state_is_suspended (lq_state c) then PClassBC false else PBCHead) c) f.
Proof.
  intros H Hi Hpc. owner_open H Hi Hpc. rewrite Hword, is_suspended_susp by done. unfold susp.
  destruct (1 <=? _) eqn:Et; reflect_bools; (move_tac c f i th Hpc; [own_tac|own_books Hpc Og]).
Qed.

Lemma step_bc_head c f i th c' : inv width c f -> lq_threads c !! i = Some th -> t_pc th = PBCHead ->
  (dc ← get_head c; Some (_dispatch_lane_barrier_complete width i dc c)) = Some c' -> inv width c' f.
Proof.
  intros H Hi Hpc (dc & Hdc & [= <-])%bind_Some. apply get_head_some in Hdc. owner_open H Hi Hpc.
  unfold _dispatch_lane_barrier_complete, serial. destruct ((width =? 1) || it_barrier dc) eqn:E.
  - destruct (it_waiter dc) eqn:Hwt; (move_tac c f i th Hpc; [own_tac|own_books Hpc Og]).
  - rewrite orb_false_iff in E. destruct E as [E1 E2]. reflect_bools. move_tac c f i th Hpc; [own_tac|own_books Hpc Og].
Qed.

Lemma drain_locked_by_word f tid : wf f -> 0 < tid < 2 ^ 30 -> _dq_state_drain_locked_by (word f) tid = (own f =? tid).
Proof.
  intros Hf Ht. unfold _dq_state_drain_locked_by, _dispatch_lock_is_locked_by.
  assert (Z.land (Z.lxor (u32 (word f)) tid) DLOCK_OWNER_MASK
    = Z.lxor (Z.land (u32 (word f)) DLOCK_OWNER_MASK) (Z.land tid DLOCK_OWNER_MASK)) as ->.
  { apply Z.bits_inj'. intros k _. rewrite !Z.land_spec, !Z.lxor_spec, !Z.land_spec. by destruct (Z.testbit (u32 (word f)) k), (Z.testbit tid k), (Z.testbit DLOCK_OWNER_MASK k). }
  change (Z.land (u32 (word f)) DLOCK_OWNER_MASK) with (_dq_state_drain_owner (word f)).
  change (Z.land tid DLOCK_OWNER_MASK) with (_dispatch_lock_value_from_tid tid).
  rewrite drain_owner_word, lock_value_small by (done || lia). apply eq_true_iff_eq. rewrite !Z.eqb_eq. apply Z.lxor_eq_0_iff.
Qed.

Lemma step_class_bc c f i th q target : inv width c f -> lq_threads c !! i = Some th -> t_pc th = PClassBC target -> 0 <= q < 8 ->
  exists f', inv width (class_barrier_complete width i q target th c) f'.
Proof.
  intros H Hi Hpc Hq. pose proof (tid_range c f i th H Hi) as Ht.
  assert (pB (t_pc th) + pD (t_pc th) = 1 /\ transfer (t_pc th) = None) as [HO HT] by (rewrite Hpc; by destruct target).
  unfold class_barrier_complete. remember (set_ib 0 (set_wd (wd f - width) f)) as g eqn:Eg.
  assert (wf g /\ word f - (DISPATCH_QUEUE_IN_BARRIER + width * DISPATCH_QUEUE_WIDTH_INTERVAL) = word g /\ own g = tid_of i /\ em g = 0)
    as (Hg & Ew & Hog & Heg) by (destruct target; owner_open H Hi Hpc; rewrite Eg; (split; [wf_lia|]; split; [word_arith|done])).
  destruct (inv_word _ _ _ H) as [Hf Hwd _ _ _]. rewrite Hwd.
  destruct (class_barrier_complete_spec q target _ f g Hf Hg (plain_of _ _ _ (inv_word _ _ _ H)) Ew Hq) as (q' & Hq' & ->).
  rewrite (sub64_word f _ g) by done. rewrite drain_locked_by_word, Hog, Z.eqb_refl by done.
  assert (_dq_state_is_enqueued_on_manager (word g) = false) as -> by (by rewrite is_enqueued_on_manager_word, Heg).
  cbn [negb orb].
  assert (wf (set_qos q' g)) as Hq1 by auto with dispatch.
  destruct (susp f) eqn:Hs; unfold susp in Hs; reflect_bools.
  - exists (f_unlock (set_qos q' g)).
    replace (target && _) with false by (rewrite andb_comm; destruct target; [rewrite xor_enqueued by auto with dispatch; f_unfold; by rewrite Z.eqb_refl|by rewrite andb_false_r]).
    apply (inv_unlock_return c f i th); try done; subst g; f_unfold; try done; auto with dispatch.
    destruct target; owner_open H Hi Hpc; ret_cases th; own_books Hpc Og.
  - destruct target.
    + assert (enq g = enq f) as Ee by (by rewrite Eg). rewrite Ee. set (e1 := if enq f =? 1 then enq f else 1).
      assert (e1 = 1) as -> by (unfold e1; destruct (Z.eqb_spec (enq f) 1); done).
      change (set_enq 1 (f_unlock (set_qos q' g))) with (f_unlock (set_enq 1 (set_qos q' g))).
      rewrite xor_enqueued by auto with dispatch. f_unfold. rewrite Ee. cbn [andb].
      destruct (Z.eqb_spec (enq f) 1) as [Hn|Hn]; cbn [negb]; (exists (f_unlock (set_enq 1 (set_qos q' g)))).
      * apply (inv_unlock_return c f i th); try done; subst g; f_unfold; try done; auto with dispatch.
        owner_open H Hi Hpc. ret_cases th; own_books Hpc Og.
      * apply (inv_unlock c f i th); try done; subst g; f_unfold; try done; auto with dispatch.
        owner_open H Hi Hpc. own_books Hpc Og.
    + destruct (Z.eqb_spec (dirty f) 1) as [Hd|Hd]; cbn [andb].
      * exists f. owner_open H Hi Hpc. move_tac c f i th Hpc; [own_tac|own_books Hpc Og].
      * exists (set_qos 0 (f_unlock g)). apply (inv_unlock_return c f i th); try done; subst g; f_unfold; try done; auto with dispatch.
        owner_open H Hi Hpc. ret_cases th; own_books Hpc Og.
Qed.

Lemma step_class_bc_xor c f i th : inv width c f -> lq_threads c !! i = Some th -> t_pc th = PClassBCXor ->
  exists f', inv width (go i PBC (store (xor_dirty (lq_state c)) c)) f'.
Proof.
  intros H Hi Hpc. exists (set_dirty 0 f). owner_open H Hi Hpc. rewrite Hword, xor_dirty_word by done. store_own c f i th Hpc Og.
Qed.

(** ** [_dispatch_lane_drain_non_barriers] *)

Lemma step_nb_start c f i th dc : inv width c f -> lq_threads c !! i = Some th -> t_pc th = PNBStart dc ->
  exists f', inv width (go i (PNBLoop width dc) (store (clear64 (lq_state c) DISPATCH_QUEUE_IN_BARRIER) c)) f'.
Proof.
  intros H Hi Hpc. exists (set_ib 0 f). owner_open H Hi Hpc. rewrite Hword, clear_ib by done. store_own c f i th Hpc Og.
Qed.

Lemma step_nb_loop c f i th n dc : inv width c f -> lq_threads c !! i = Some th -> t_pc th = PNBLoop n dc ->
  in_flight c <= 0xfff -> exists f', inv width (drain_non_barriers_take i n dc c) f'.
Proof.
  intros H Hi Hpc Hfl. owner_open H Hi Hpc. flight_facts Hfl. unfold drain_non_barriers_take. destruct Ook as [Hh Hdc].
  pose proof (head_not_pending c f dc H Hh Hdc) as Hp0.
  specialize (Bwid Oib Hp0). destruct (Z.eqb_spec n 0) as [->|Hn]; cbn [negb].
  - destruct (it_waiter dc) eqn:Hwt.
    + rewrite Hword, reserve_sync_spec by (done || lia). exists (set_wd (wd f + 1) f). store_own c f i th Hpc Og. all: rewrite Hwt; lia.
    + rewrite Hword, try_async_spec by done. destruct (runnable f && _ && _) eqn:Hr;
        unfold runnable, susp in Hr; [rewrite !andb_true_iff, negb_true_iff in Hr; destruct Hr as [[[[R1 R2] R3] R4] R5]; reflect_bools|].
      * exists (set_wd (wd f + 1) f). store_own c f i th Hpc Og. all: rewrite Hwt; lia.
      * exists f. move_tac c f i th Hpc; [own_tac|own_books Hpc Og].
  - exists f. move_tac c f i th Hpc; [own_tac|own_books Hpc Og]. all: destruct (it_waiter dc); lia.
Qed.

Lemma step_nb_pop c f i th n dc : inv width c f -> lq_threads c !! i = Some th -> t_pc th = PNBPop n dc ->
  inv width (drain_non_barriers_pop i n dc c) f.
Proof.
  intros H Hi Hpc. owner_open H Hi Hpc. unfold drain_non_barriers_pop. destruct Ook as [Hh Hdc].
  pose proof (head_not_pending c f dc H Hh Hdc) as Hp0.
  specialize (Bwid Oib Hp0). cbn [lq_items pop_head].
  destruct (it_waiter dc) as [j|] eqn:Hwt.
  - destruct (head (tail (lq_items c))) as [d|] eqn:Ed; cbn [nb_next]; [destruct (it_barrier d) eqn:Eb|];
      (apply (inv_pop_grant c f i th); try done; [by rewrite Hpc|unfold count_grant; own_books Hpc Og|by rewrite Hpc]).
    all: rewrite Hwt in *; try lia.
    all: intros Hne; by destruct (tail (lq_items c)).
  - destruct (head (tail (lq_items c))) as [d|] eqn:Ed; cbn [nb_next]; [destruct (it_barrier d) eqn:Eb|];
      (apply (inv_pop c f i th _ dc 1); try done; [by rewrite Hpc|by left|own_books Hpc Og|by rewrite Hpc]).
    all: rewrite Hwt in *; try lia.
    all: intros Hne; by destruct (tail (lq_items c)).
Qed.

Lemma step_nb_xor c f i th n : inv width c f -> lq_threads c !! i = Some th -> t_pc th = PNBXor n ->
  exists f', inv width (go i (PNBReload n) (store (xor_dirty (lq_state c)) c)) f'.
Proof.
  intros H Hi Hpc. exists (set_dirty 0 f). owner_open H Hi Hpc. destruct Ook as [Hd Hp].
  rewrite Hword, xor_dirty_word by done. store_own c f i th Hpc Og.
Qed.

(** An empty head with items in the queue: somebody is about to set it. *)
Lemma hidden_thread c : get_head c = None -> lq_items c <> [] -> exists i th b, lq_threads c !! i = Some th /\ t_pc th = PSetHead b.
Proof.
  unfold get_head. destruct (head_visible c) eqn:E; [by destruct (lq_items c)|]. intros _ _. unfold head_visible in E.
  induction (lq_threads c) as [|x l IH]; [done|]. cbn [forallb] in E.
  destruct (t_pc x) eqn:Ex; try (destruct (IH E) as (i & th & bh & Hi & Hp); by exists (S i), th, bh).
  by exists 0%nat, x, waiter.
Qed.

Lemma hidden_head c : get_head c = None -> lq_items c <> [] -> 0 < cK (count_all (lq_threads c)).
Proof.
  intros Hh Hne. destruct (hidden_thread c Hh Hne) as (i & th & b & Hi & Hp).
  pose proof (tally_ge wK _ i th ltac:(intros z; pose proof (th_nonneg z); lia) Hi) as Hge. unfold wK at 1 in Hge. rewrite Hp in Hge.
  cbn in Hge |- *. lia.
Qed.

Lemma step_nb_reload c f i th n : inv width c f -> lq_threads c !! i = Some th -> t_pc th = PNBReload n ->
  inv width (go i (nb_next n (get_head c)) c) f.
Proof.
  intros H Hi Hpc. pose proof (hidden_head c) as Hhid. owner_open H Hi Hpc.
  destruct (get_head c) as [d|] eqn:Ed; cbn [nb_next]; [apply get_head_some in Ed; destruct (it_barrier d) eqn:Eb|];
    (move_tac c f i th Hpc; [own_tac|own_books Hpc Og]).
  intros Hne. specialize (Hhid eq_refl Hne). lia.
Qed.

(** What the end of the loop gives back. *)
Definition f_nb_end (n : Z) (dc : option item) (f : fields) : fields :=
  if match dc with Some d => it_barrier d | None => false end then set_pb 1 (set_wd (wd f - n + width - 1) f)
  else set_wd (wd f - n) f.

Lemma nb_end_owned n dc f : let g := f_nb_end n dc f in wf f -> wf g -> 2 <= width -> pb f = 0 -> 0 <= n ->
  sub64 (word f) (match dc with
    | Some d => _dispatch_queue_adjust_owned width (n * DISPATCH_QUEUE_WIDTH_INTERVAL) (Some (it_barrier d))
    | None => n * DISPATCH_QUEUE_WIDTH_INTERVAL end) = word g.
Proof.
  intros g Hf Hg H2 Hp Hn. unfold g, f_nb_end in *. clear g. destruct dc as [d|]; [destruct (it_barrier d)|].
  - unfold _dispatch_queue_adjust_owned. destruct (Z.ltb_spec 1 width); [|lia].
    pose proof (word_range _ Hg). unfold sub64, wrap. rewrite Zminus_mod_idemp_r. rewrite Z.mod_small; word_arith.
  - unfold _dispatch_queue_adjust_owned. destruct (1 <? width); (apply sub64_word; [done|word_arith]).
  - apply sub64_word; [done|word_arith].
Qed.

Lemma step_nb_end c f i th n dc : inv width c f -> lq_threads c !! i = Some th -> t_pc th = PNBEnd n dc ->
  in_flight c <= 0xfff -> exists f', inv width (drain_non_barriers_end width i n dc th c) f'.
Proof.
  intros H Hi Hpc Hfl. pose proof (tid_range c f i th H Hi) as Ht.
  assert (pB (t_pc th) + pD (t_pc th) = 1 /\ transfer (t_pc th) = None) as [HO HT] by (by rewrite Hpc).
  unfold drain_non_barriers_end. remember (f_nb_end n dc f) as g eqn:Eg. owner_open H Hi Hpc. flight_facts Hfl.
  assert (pb f = 0 /\ forall d, dc = Some d -> head (lq_items c) = Some d) as [Hp0 Hdc].
  { destruct dc; [by destruct Ook; split; [|intros ? [= <-]]|done]. }
  clear Ook. specialize (Bwid Oib Hp0). remember (lq_redirected c + cA (count_all (lq_threads c)) + cS (count_all (lq_threads c))) as fl eqn:Efl.
  assert (wf g) as Hg by (rewrite Eg; unfold f_nb_end; destruct dc as [d|]; [destruct (it_barrier d)|]; wf_lia).
  pose proof (nb_end_owned n dc f) as Hnb. cbv zeta in Hnb. rewrite <- Eg in Hnb.
  specialize (Hnb Hwf Hg ltac:(lia) Hp0 ltac:(lia)). rewrite Hword.
  assert (ib g = 0 /\ own g = own f /\ em g = em f /\ st g = st f /\ role g = role f /\ na g = na f /\ ina g = ina f /\ ssc g = ssc f
    /\ sc g = sc f /\ dirty g = dirty f /\ enq g = enq f)
    as (G1 & G2 & G3 & G4 & G5 & G6 & G7 & G8 & G9 & G10 & G11)
    by (rewrite Eg; unfold f_nb_end; destruct dc as [d|]; [destruct (it_barrier d)|]; done).
  assert (full_after width g = 0x1000 + fl /\ (pb g = 0 -> wd g = 0x1000 - width + fl) /\ (pb g = 1 -> wd g = 0xfff + fl)
    /\ (pb g = 1 -> exists d, dc = Some d /\ it_barrier d = true)) as (G12 & G13 & G14 & G15).
  { rewrite Eg. unfold full_after, f_nb_end. destruct dc as [d|]; [destruct (it_barrier d) eqn:?|]; f_unfold; rewrite ?Hp0; cbn [Z.eqb Pos.eqb]; split_and!; try lia.
    intros _. by exists d. }
  rewrite (drain_non_barriers_unlock_spec width (tid_of i) Hw Ht _ _ f g Hwf Hg Hnb G1) by lia.
  clear Eg. pose proof (wf_pb g Hg) as Wpbg. eval_pow2.
  assert (pb g = 1 -> exists d, head (lq_items c) = Some d /\ it_barrier d = true) as Hhead
    by (intros E; destruct (G15 E) as (d & Ed & Eb); exists d; split; [by apply Hdc|done]).
  assert (wf (set_dirty 1 (f_unlock g)) /\ wf (set_dirty 0 (f_unlock g))) as [Hh1 Hh0] by (split; auto with dispatch).
  destruct dc as [d|]; cbv zeta.
  - clear Hdc G15. rewrite G12. destruct (Z.eqb_spec (4096 + fl) 4096) as [E|E].
    + rewrite Hnb, finish_spec by (done || by apply wf_f_take). unfold f_take; f_unfold. rewrite G1. cbn [Z.eqb negb complete_next].
      eexists. apply (inv_store c f i th PBC); [assumption|assumption|by apply wf_f_take|try done..].
      * right; by left.
      * books_tac Hpc; unfold gB in Og; try done; try lia.
    + destruct (Z.eqb_spec (dirty f) 1) as [Ed|Ed].
      * rewrite Hnb, finish_spec by auto with dispatch. f_unfold. rewrite G1, G11. cbn [Z.eqb negb].
        destruct (Z.eqb_spec (enq f) 1) as [Ee|Ee]; cbn [negb complete_next]; eexists; clear Hnb.
        -- apply (inv_unlock_return c f i th); try done; auto with dispatch. ret_cases th; books_tac Hpc; unfold gB in Og; try done; lia.
        -- apply (inv_unlock c f i th); try done; auto with dispatch. books_tac Hpc; unfold gB in Og; try done; lia.
      * rewrite Hnb, finish_spec by done. f_unfold. rewrite !Z.eqb_refl. cbn [negb complete_next]. eexists. clear Hnb.
        apply (inv_unlock_return c f i th); try done. ret_cases th; books_tac Hpc; unfold gB in Og; try done; lia.
  - assert (pb g = 0) as Hpg by (destruct (Z.eqb_spec (pb g) 1) as [E|]; [by destruct (G15 E) as (? & ? & _)|lia]).
    destruct (Z.eqb_spec (dirty f) 1) as [Ed|Ed].
    + exists f. move_tac c f i th Hpc; [own_tac|own_books Hpc Og].
    + rewrite Hnb, finish_spec by done. f_unfold. rewrite !Z.eqb_refl. cbn [negb complete_next]. eexists. clear Hnb.
      apply (inv_unlock_return c f i th); try done. ret_cases th; books_tac Hpc; unfold gB in Og; try done; try lia; rewrite G6, G7, G8, G9; serv_tac.
Qed.
End complete.
