(* ===== verification/LaneSafety.v ===== *)
(** * Correctness of lanes

    Every configuration a lane reaches satisfies the invariant of [LaneInv.v], and
    what follows from it for the clients: barriers run alone, the drain lock has one
    owner, asynchronous items stay within the width, items leave in the order they
    came, and no wakeup is lost.

    Two situations are excluded, and each theorem names them: more than [0xfff]
    non-barrier items in flight ([few_in_flight]), and a drain interrupted by a
    suspension while PENDING_BARRIER is set already ([no_pending_race]).  [LaneBugs.v]
    has an execution for each of them, and what goes wrong there.  Neither occurs in
    the executions of a serial lane ([serial_lane_alone]). *)

From S2P Require Import Prelude Threads DqState LaneRmw LaneFields Lane LaneInv LaneStep LaneWaits LaneSubmit LaneAcquire LaneDrain LaneWidth LaneComplete.

Section reach.
Context (width : Z) (redirecting : bool) (n : nat).

(** The steps the theorems cover: at most [0xfff] non-barrier items in flight (the
    width field counts them above the width), and no suspension that interrupts a
    drain while PENDING_BARRIER is set already (see [LaneBugs.v] for both). *)
Definition step_covered (c : lane) (i : nat) (c' : lane) : bool :=
  (in_flight c' <=? 0xfff)
  && match lq_threads c !! i with Some th => negb (pending_race c th) | None => true end.

Inductive lane_reach : lane -> Prop :=
| reach_init : lane_reach (lane_init width n)
| reach_step c i a c' : lane_reach c -> lane_step width redirecting c i a = Some c' ->
    step_covered c i c' = true -> lane_reach c'.

(** A sequence of steps, for concrete executions. *)
Fixpoint lane_run (acts : list (nat * action)) (c : lane) : option lane :=
  match acts with
  | [] => Some c
  | (i, a) :: acts =>
      c' ← lane_step width redirecting c i a;
      if step_covered c i c' then lane_run acts c' else None
  end.

(** All steps of an execution, none excluded. *)
Fixpoint lane_exec (acts : list (nat * action)) (c : lane) : option lane :=
  match acts with
  | [] => Some c
  | (i, a) :: acts => c' ← lane_step width redirecting c i a; lane_exec acts c'
  end.

(** The two conditions of the theorems, on an execution of a fresh lane.  At no time
    are more than [0xfff] non-barrier items in flight ... *)
Definition few_in_flight (acts : list (nat * action)) : Prop :=
  forall k c, lane_exec (take k acts) (lane_init width n) = Some c -> in_flight c <= 0xfff.

(** ... and no step is the one in which a drain that holds width and not the barrier
    finds the lane suspended and PENDING_BARRIER set. *)
Definition no_pending_race (acts : list (nat * action)) : Prop :=
  forall k i a c th, acts !! k = Some (i, a) -> lane_exec (take k acts) (lane_init width n) = Some c ->
    lq_threads c !! i = Some th -> pending_race c th = false.

Lemma lane_exec_app acts acts' c : lane_exec (acts ++ acts') c = (c' ← lane_exec acts c; lane_exec acts' c').
Proof.
  revert c. induction acts as [|[i a] acts IH]; intros c; [done|]. cbn.
  destruct (lane_step width redirecting c i a) as [c1|]; [apply IH|done].
Qed.

(** A condition on every prefix holds on a shorter execution. *)
Lemma few_in_flight_app acts acts' : few_in_flight (acts ++ acts') -> few_in_flight acts.
Proof. intros H k c E. apply (H (k `min` length acts)%nat). rewrite take_app_le by lia. by rewrite <- take_take, firstn_all. Qed.

Lemma no_pending_race_app acts acts' : no_pending_race (acts ++ acts') -> no_pending_race acts.
Proof.
  intros H k i a c th Hk E Hi. pose proof (lookup_lt_Some _ _ _ Hk). apply (H k i a); [by apply lookup_app_l_Some| |done]. by rewrite take_app_le by lia.
Qed.

(** The executions that meet both conditions reach what [lane_reach] says. *)
Lemma exec_reach acts c : lane_exec acts (lane_init width n) = Some c -> few_in_flight acts -> no_pending_race acts -> lane_reach c.
Proof.
  revert c. induction acts as [|[i a] acts IH] using rev_ind; intros c; [intros [= <-] _ _; apply reach_init|].
  rewrite lane_exec_app. intros (c1 & H1 & H2)%bind_Some Hf Hr. cbn in H2. apply bind_Some in H2 as (c2 & H2 & [= <-]).
  apply (reach_step c1 i a); [|done|].
  - apply IH; [done|by eapply few_in_flight_app|by eapply no_pending_race_app].
  - unfold step_covered. apply andb_true_iff. split.
    + apply Z.leb_le, (Hf (length (acts ++ [(i, a)]))). rewrite firstn_all, lane_exec_app, H1. cbn. by rewrite H2.
    + destruct (lq_threads c1 !! i) as [th|] eqn:Ei; [|done]. apply negb_true_iff, (Hr (length acts) i a c1 th); [|by rewrite take_app_length|done].
      by rewrite lookup_app_r, Nat.sub_diag by lia.
Qed.

(** An execution of covered steps meets both conditions. *)
Lemma lane_run_exec acts c c' : lane_run acts c = Some c' -> lane_exec acts c = Some c'.
Proof.
  revert c. induction acts as [|[i a] acts IH]; intros c; [done|]. cbn. intros (c1 & H1 & H2)%bind_Some. rewrite H1. cbn.
  destruct (step_covered c i c1); [by apply IH|done].
Qed.

Lemma lane_run_prefix acts c c' k c1 : lane_run acts c = Some c' -> lane_exec (take k acts) c = Some c1 -> in_flight c <= 0xfff ->
  in_flight c1 <= 0xfff /\
  forall i a th, acts !! k = Some (i, a) -> lq_threads c1 !! i = Some th -> pending_race c1 th = false.
Proof.
  revert c k. induction acts as [|[j b] acts IH]; intros c k.
  - cbn. rewrite take_nil. intros _ [= <-] H. split; [done|]. intros i a th. by rewrite lookup_nil.
  - cbn. intros (c2 & H2 & Hrun)%bind_Some. destruct (step_covered c j c2) eqn:Ec; [|done]. unfold step_covered in Ec.
    apply andb_true_iff in Ec as [Ec Er]. apply Z.leb_le in Ec. destruct k as [|k]; cbn.
    + intros [= <-] H. split; [done|]. intros i a th [= <- <-] Hi. rewrite Hi in Er. by apply negb_true_iff.
    + rewrite H2. cbn. intros H1 _. by apply (IH c2).
Qed.

Lemma lane_run_reach acts c c' : lane_reach c -> lane_run acts c = Some c' -> lane_reach c'.
Proof.
  revert c. induction acts as [|[i a] acts IH]; intros c Hc; cbn; [by intros [= <-]|].
  intros (c1 & H1 & H2)%bind_Some. destruct (step_covered c i c1) eqn:E; [|done]. apply (IH c1); [|done]. by apply (reach_step c i a).
Qed.

Hypothesis Hw : 1 <= width <= 0xffe.
Hypothesis Hn : Z.of_nat n < 2 ^ 30 - 1.

Lemma tally_replicate {T} (g : T -> Z) k x : g x = 0 -> tally g (replicate k x) = 0.
Proof. intros Hx. induction k as [|k IH]; cbn; lia. Qed.

Lemma init_inv : inv width (lane_init width n) (idle_fields width 1).
Proof using Hw Hn.
  assert (wf (idle_fields width 1)) as Hwf by (unfold idle_fields; wf_lia).
  split; cbn [lq_state lq_side lq_items lq_tq lq_redirected lq_threads lq_crashed lq_pushed lq_popped lane_init].
  - split; try done. rewrite init_value by done. change DISPATCH_QUEUE_ROLE_BASE_ANON with (word (Fields 0 0 0 0 0 1 0 0 0 0 0 0 0 0 0)).
    rewrite or_role; [done|unfold idle_fields; wf_lia|done|lia].
  - by rewrite length_replicate.
  - unfold count_all. rewrite !tally_replicate by done. split; cbn [cO cB cT cS cA cN cK cW cL cU idle_fields own enq dirty pb wd ib];
      unfold idle_fields; f_unfold; try lia; done.
  - intros i th [-> _]%lookup_replicate. split; [done|]. split; done.
  - split; cbn.
    + apply NoDup_nil_2.
    + by intros j ?%elem_of_nil.
    + by intros i th e j [-> _]%lookup_replicate.
    + by intros j th [-> _]%lookup_replicate.
    + by intros j th [-> _]%lookup_replicate.
  - done.
  - done.
Qed.

(** ** Preservation *)

Lemma run_step_inv c f i th q nov c' : inv width c f -> lq_threads c !! i = Some th -> 0 <= q < 8 ->
  in_flight c <= 0xfff -> in_flight c' <= 0xfff -> pending_race c th = false ->
  run_step width redirecting c i th q nov = Some c' -> exists f', inv width c' f'.
Proof using Hw.
  intros H Hi Hq Hfl Hfl' Hr. unfold run_step. destruct (t_pc th) eqn:Hpc; try (intros [= <-]).
  - by eapply step_conc_acquire.
  - eexists. by eapply step_lane_push.
  - eexists. by eapply step_set_head.
  - eexists. by eapply step_wake.
  - by eapply step_wake_rmw.
  - eexists. by eapply step_push_tq.
  - by eapply step_invoke.
  - intros E. eexists. by eapply step_drain_head.
  - by eapply step_unlock.
  - by eapply step_unlock_xor.
  - by eapply step_finish.
  - eexists. by eapply step_drain_item.
  - by eapply step_drain_go.
  - eexists. by eapply step_drain_pop.
  - eexists. eapply (step_run Hw c f i th OBarrier); done.
  - eexists. eapply (step_run Hw c f i th (OWidth n0)); done.
  - intros E. eexists. by eapply step_drain_next.
  - intros E. eexists. by eapply step_bw_pop.
  - intros E. by eapply step_bw_transfer.
  - by eapply step_sync_reserve.
  - eexists. by eapply step_slow_push.
  - by eapply step_push_waiter.
  - intros E. eexists. by eapply step_wait.
  - eexists. by eapply (step_run_done c f i th true).
  - eexists. by eapply step_barrier_sync_run.
  - by eapply step_barrier_sync_unlock.
  - eexists. by eapply (step_run_done c f i th false).
  - by eapply step_nb_complete.
  - eexists. by eapply step_bc.
  - eexists. by eapply step_bc_susp.
  - intros E. eexists. by eapply step_bc_head.
  - by eapply step_class_bc.
  - by eapply step_class_bc_xor.
  - by eapply step_nb_start.
  - by eapply step_nb_loop.
  - eexists. by eapply step_nb_pop.
  - by eapply step_nb_end.
  - by eapply step_nb_xor.
  - eexists. by eapply step_nb_reload.
Qed.

Lemma lane_step_inv c f i a c' : inv width c f -> in_flight c <= 0xfff -> step_covered c i c' = true ->
  lane_step width redirecting c i a = Some c' -> exists f', inv width c' f'.
Proof using Hw.
  intros H Hfl Hc. unfold step_covered in Hc. apply andb_true_iff in Hc as [Hfl' Hr]. apply Z.leb_le in Hfl'.
  unfold lane_step. intros (th & Hi & E)%bind_Some. rewrite Hi in Hr. apply negb_true_iff in Hr.
  destruct a as [id b|id b| | | | |q nov]; try (destruct (idle th) eqn:Hid; [apply idle_pc in Hid|done]); cbn [andb] in E.
  - injection E as <-. eexists. by eapply step_async.
  - injection E as <-. destruct (b || serial width) eqn:Eb.
    + by eapply step_barrier_sync.
    + apply orb_false_iff in Eb as [-> Es]. eexists. by eapply step_sync.
  - by eapply step_suspend.
  - by eapply step_resume.
  - destruct (Z.ltb_spec 0 (lq_tq c)); [|done]. injection E as <-. eexists. by eapply step_work.
  - destruct (Z.ltb_spec 0 (lq_redirected c)); [|done]. injection E as <-. eexists. by eapply step_work_redirected.
  - destruct ((0 <=? q) && (q <? 8)) eqn:Eq; [|done]. rewrite andb_true_iff in Eq. destruct Eq as [Q1 Q2]. reflect_bools.
    by apply (run_step_inv c f i th q nov).
Qed.

Lemma reach_inv c : lane_reach c -> in_flight c <= 0xfff /\ exists f, inv width c f.
Proof using Hw Hn.
  induction 1 as [|c i a c' Hc [Hfl (f & IH)] Hs Hg].
  - split; [|exists (idle_fields width 1); apply init_inv]. unfold in_flight. cbn. rewrite !tally_replicate by done. lia.
  - split; [|by apply (lane_step_inv c f i a)]. unfold step_covered in Hg. apply andb_true_iff in Hg as [Hg _]. by apply Z.leb_le.
Qed.
End reach.

(** ** What clients rely on *)

(** A thread runs a barrier item, or a non-barrier one. *)
Definition runs_barrier (th : thread) : bool :=
  match t_pc th with PRunB _ | PBSyncRun _ => true | _ => false end.

Definition runs_reader (th : thread) : bool :=
  match t_pc th with PSyncRun | PAsyncRun | PRunNB _ _ => true | _ => false end.

Definition runs_async (th : thread) : Z :=
  match t_pc th with PAsyncRun | PRunNB _ _ => 1 | _ => 0 end.

(** Between calls, or asleep in [dispatch_sync]. *)
Definition parked (th : thread) : bool :=
  match t_pc th, t_grant th with PIdle, _ => true | PWait, GNone => true | _, _ => false end.

(** Nothing is left to do for any thread or worker. *)
Definition quiescent (c : lane) : bool :=
  forallb parked (lq_threads c) && (lq_tq c =? 0) && (lq_redirected c =? 0).

Lemma runs_barrier_weight th : runs_barrier th = true -> pB (t_pc th) = 1 /\ pD (t_pc th) = 0.
Proof. unfold runs_barrier. by destruct (t_pc th). Qed.

Lemma runs_weight th : runs_barrier th || runs_reader th = true -> 1 <= wO th + wS th + wA th.
Proof.
  unfold runs_barrier, runs_reader, wO, wB, wD, wS, wA, gB, gS. destruct (t_pc th), (t_grant th); cbn; done || lia.
Qed.

Lemma tally_lookup_zero (g : thread -> Z) l i th : (forall y, 0 <= g y) -> tally g l = 0 -> l !! i = Some th -> g th = 0.
Proof. intros Hg E Hi. pose proof (tally_ge g l i th Hg Hi). specialize (Hg th). lia. Qed.

Section clients.
Context (width : Z) (redirecting : bool) (n : nat).
Hypothesis Hw : 1 <= width <= 0xffe.
Hypothesis Hn : Z.of_nat n < 2 ^ 30 - 1.

Abbreviation few_in_flight := (few_in_flight width redirecting n).
Abbreviation no_pending_race := (no_pending_race width redirecting n).
Abbreviation execution acts c := (lane_exec width redirecting acts (lane_init width n) = Some c).

Lemma exec_inv acts c : execution acts c -> few_in_flight acts -> no_pending_race acts -> exists f, inv width c f.
Proof using Hw Hn. intros E Hf Hr. eapply (reach_inv width redirecting n Hw Hn c), exec_reach; done. Qed.

(** While a thread runs a barrier nothing else of the lane runs. *)
Lemma barrier_alone c f i th : inv width c f -> lq_threads c !! i = Some th -> runs_barrier th = true ->
  in_flight c = 0 /\
  forall j th', j <> i -> lq_threads c !! j = Some th' -> runs_barrier th' || runs_reader th' = false.
Proof using Hw Hn.
  intros H Hi Hr. destruct (runs_barrier_weight th Hr) as [HB HD].
  destruct (owner_pc c f i th H Hi ltac:(lia)) as (_ & Ow & _ & _ & _ & _ & _ & _ & _ & Oib & _). rewrite HB in Oib.
  destruct (bk_full _ _ _ _ _ _ (inv_books _ _ _ H) Oib) as (_ & _ & Hfl). split; [exact Hfl|].
  destruct (owner_facts c f i th H Hi Ow) as (_ & _ & _ & _ & _ & _ & _ & Hoth).
  intros j th' Hj Hy. apply not_true_is_false. intros Hr'. apply runs_weight in Hr'. rewrite (Hoth j th' Hj Hy) in Hr'.
  pose proof (bk_red _ _ _ _ _ _ (inv_books _ _ _ H)). pose proof (count_bounds (lq_threads c)) as Hb. cbn in Hb, Hfl.
  rewrite (tally_lookup_zero wS (lq_threads c) j th'), (tally_lookup_zero wA (lq_threads c) j th') in Hr'; try done; try lia;
    intros y; pose proof (th_nonneg y); lia.
Qed.

(** C1: A barrier item runs alone.  After any execution [acts] of asynchronous and
    synchronous submissions, drains, suspensions and resumptions of a lane by [n]
    threads, interleaved in any order, while a thread runs a barrier no non-barrier item
    is in flight (redirected, granted or running) and no other thread runs an item of
    the lane.  This holds for executions with at most [0xfff] non-barrier items in
    flight in which no suspension interrupts a drain that left PENDING_BARRIER set:
    beyond the first of these conditions the width field overflows and a barrier does
    run beside readers ([lane_width_overflow]). *)
Theorem lane_barrier_exclusive acts c i th :
  execution acts c -> few_in_flight acts -> no_pending_race acts ->
  lq_threads c !! i = Some th -> runs_barrier th = true ->
  in_flight c = 0 /\
  forall j th', j <> i -> lq_threads c !! j = Some th' -> runs_barrier th' || runs_reader th' = false.
Proof using Hw Hn.
  intros E Hf Hr. destruct (exec_inv acts c E Hf Hr) as (f & H). by apply (barrier_alone c f).
Qed.

(** C4: The drain lock has one owner and the lane is enqueued once.  A thread that is
    inside a drain or holds a barrier is the one whose thread id is in the word, two
    such threads are the same, and the lane is on its target queue at most once; no
    assertion about the lock fails.  For executions with at most [0xfff] non-barrier
    items in flight in which no suspension interrupts a drain that left
    PENDING_BARRIER set (past the first bound the width field carries into the lock:
    [lane_width_overflow]). *)
Theorem lane_lock_exclusive acts c :
  execution acts c -> few_in_flight acts -> no_pending_race acts ->
  (forall i th, lq_threads c !! i = Some th -> 1 <= wO th -> _dq_state_drain_locked_by (lq_state c) (tid_of i) = true) /\
  (forall i j th th', lq_threads c !! i = Some th -> lq_threads c !! j = Some th' -> 1 <= wO th -> 1 <= wO th' -> i = j) /\
  0 <= lq_tq c <= 1 /\ lq_crashed c = false.
Proof using Hw Hn.
  intros E Hf Hr. destruct (exec_inv acts c E Hf Hr) as (f & H).
  assert (forall i th, lq_threads c !! i = Some th -> 1 <= wO th -> own f = tid_of i) as Hown.
  { intros i th Hi Ho. destruct (inv_threads _ _ _ H i th Hi) as (_ & _ & Hk). by apply Hk. }
  lane_facts H. split_and!; try lia.
  - intros i th Hi Ho. rewrite Hword, drain_locked_by_word; [|done|by apply (tid_range (width := width) c f i th)]. apply Z.eqb_eq. by apply (Hown i th).
  - intros i j th th' Hi Hj Ho Ho'. pose proof (Hown i th Hi Ho). pose proof (Hown j th' Hj Ho'). unfold tid_of in *. lia.
  - apply (inv_crash _ _ _ H).
Qed.

(** C5: The word of a lane is well formed and its width field is an account of the work:
    the whole width while a barrier runs; all but one and the items in flight while a
    barrier is pending; otherwise the items in flight and what the drain holds, above
    [DISPATCH_QUEUE_WIDTH_FULL - dq_width].  No carry leaves the field, as long as at
    most [0xfff] non-barrier items are in flight and no suspension interrupts a drain
    that left PENDING_BARRIER set; outside these conditions the account is lost
    ([lane_width_overflow], [lane_pending_barrier_leak]). *)
Theorem lane_word_ledger acts c :
  execution acts c -> few_in_flight acts -> no_pending_race acts ->
  let used := _dq_state_extract_width_bits (lq_state c) in
  0 <= lq_state c < 2 ^ 64 /\
  (if _dq_state_is_in_barrier (lq_state c)
   then used = DISPATCH_QUEUE_WIDTH_FULL /\ in_flight c = 0 /\ _dq_state_has_pending_barrier (lq_state c) = false
   else if _dq_state_has_pending_barrier (lq_state c)
   then used = DISPATCH_QUEUE_WIDTH_FULL - 1 + in_flight c
   else used = DISPATCH_QUEUE_WIDTH_FULL - width + in_flight c + tally wN (lq_threads c)).
Proof using Hw Hn.
  intros E Hf Hr. destruct (exec_inv acts c E Hf Hr) as (f & H). lane_facts H. cbv zeta.
  assert (_dq_state_extract_width_bits (lq_state c) = wd f) as ->.
  { rewrite Hword. unfold _dq_state_extract_width_bits. rewrite width_bits_word by done.
    unfold DISPATCH_QUEUE_WIDTH_INTERVAL, DISPATCH_QUEUE_WIDTH_SHIFT. rewrite Z.shiftr_div_pow2 by lia. rewrite Z.div_mul by done. apply swrap_small; lia. }
  rewrite Hword, is_in_barrier_word, has_pending_barrier_word by done. split; [by apply word_range|].
  change (in_flight c) with (lq_redirected c + cA (count_all (lq_threads c)) + cS (count_all (lq_threads c))).
  change (tally wN (lq_threads c)) with (cN (count_all (lq_threads c))). unfold DISPATCH_QUEUE_WIDTH_FULL.
  destruct (Z.eqb_spec (ib f) 1), (Z.eqb_spec (pb f) 1); lia.
Qed.

Lemma async_weight c f : inv width c f -> tally runs_async (lq_threads c) <= cA (count_all (lq_threads c)) + cN (count_all (lq_threads c)).
Proof.
  intros H. cbn [cA cN count_all].
  assert (forall i th, lq_threads c !! i = Some th -> runs_async th <= wA th + wN th) as Hk.
  { intros i th Hi. destruct (inv_threads _ _ _ H i th Hi) as (Hp & _ & _). pose proof (pc_width_nonneg _ Hp) as Hnn.
    pose proof (th_nonneg th). unfold runs_async, wN in *. destruct Hp as [Hp _]. unfold wA in *. destruct (t_pc th); cbn in *; lia. }
  clear H. induction (lq_threads c) as [|x l IH]; cbn; [lia|].
  pose proof (Hk 0%nat x eq_refl). assert (tally runs_async l <= tally wA l + tally wN l) by (apply IH; intros i; apply (Hk (S i))). lia.
Qed.

(** C26: The width bounds asynchronous items: those that run, in the drain or in a
    worker, together with those redirected to the target queue never exceed
    [dq_width].  (Synchronous readers may exceed it: [_dispatch_queue_reserve_sync_width]
    does not ask.)  For the steps [step_covered] describes: at most [0xfff] non-barrier
    items in flight, and no suspension of a drain that left PENDING_BARRIER set. *)
Theorem lane_async_width c :
  lane_reach width redirecting n c -> lq_redirected c + tally runs_async (lq_threads c) <= width.
Proof using Hw Hn.
  intros Hc. destruct (reach_inv width redirecting n Hw Hn c Hc) as [_ (f & H)].
  pose proof (async_weight c f H). pose proof (bk_async _ _ _ _ _ _ (inv_books _ _ _ H)). lia.
Qed.

(** C27: Items leave the lane in the order they entered it, whatever way they leave
    (run by the drain, redirected, or handed to a waiting thread): the items popped so
    far followed by those in the queue are those pushed, in order.  For the steps
    [step_covered] describes, as in the theorem before. *)
Theorem lane_fifo c : lane_reach width redirecting n c -> lq_pushed c = lq_popped c ++ lq_items c.
Proof using Hw Hn. intros Hc. destruct (reach_inv width redirecting n Hw Hn c Hc) as [_ (f & H)]. apply (inv_fifo _ _ _ H). Qed.

(** The counts of a quiescent lane. *)
Lemma quiescent_counts c f : inv width c f -> quiescent c = true ->
  let k := count_all (lq_threads c) in cO k = 0 /\ cT k = 0 /\ cS k = 0 /\ cA k = 0 /\ cW k = 0 /\ lq_tq c = 0 /\ lq_redirected c = 0.
Proof.
  intros H Hq. unfold quiescent in Hq. rewrite !andb_true_iff in Hq. destruct Hq as [[Hp Ht] Hr]. reflect_bools.
  assert (forall i th, lq_threads c !! i = Some th -> wO th = 0 /\ wT th = 0 /\ wS th = 0 /\ wA th = 0 /\ wW th = 0) as Hz.
  { intros i th Hi. rewrite forallb_forall in Hp. specialize (Hp th). rewrite <- list_elem_of_In in Hp.
    specialize (Hp (list_elem_of_lookup_2 _ _ _ Hi)).
    destruct (inv_threads _ _ _ H i th Hi) as (_ & Hwt & _). pose proof (wo_grant _ _ (inv_waits _ _ _ H) i th Hi) as Hg.
    unfold parked, wait_ok, wO, wB, wD, wT, wS, wA, wW, gB, gS in *.
    destruct (t_pc th); try done; destruct (t_grant th) eqn:E; try done; specialize (Hg ltac:(done)); congruence. }
  cbn. split_and!; try lia; apply tally_zero; intros i th Hi; apply (Hz i th Hi).
Qed.

(** A quiescent lane that is not suspended is empty, and nobody waits for it. *)
Lemma quiescent_empty c f : inv width c f -> quiescent c = true -> _dq_state_is_suspended (lq_state c) = false ->
  lq_items c = [] /\ forall i th, lq_threads c !! i = Some th -> t_pc th = PIdle.
Proof using Hw Hn.
  intros H Hq Hs. destruct (quiescent_counts c f H Hq) as (K1 & K2 & K3 & K4 & K5 & K6 & K7). pose proof H as H'. lane_facts H'.
  rewrite Hword, is_suspended_susp in Hs by done. unfold susp in Hs. reflect_bools.
  assert (lq_items c = []) as Ei.
  { destruct (lq_items c) eqn:E; [done|]. exfalso. destruct Bserv as [B1 _]; [done|lia|]. destruct B1; lia. }
  split; [done|]. intros i th Hi. unfold quiescent in Hq. rewrite !andb_true_iff, forallb_forall in Hq. destruct Hq as [[Hp _] _].
  specialize (Hp th). rewrite <- list_elem_of_In in Hp. specialize (Hp (list_elem_of_lookup_2 _ _ _ Hi)).
  destruct (inv_threads _ _ _ H i th Hi) as (_ & Hwt & _). unfold parked, wait_ok in *. destruct (t_pc th) eqn:Ep; try done.
  destruct (t_grant th) eqn:Eg; try done. exfalso.
  destruct (wo_all _ _ (inv_waits _ _ _ H) i th Hi Hwt Eg) as [Hin|(k & y & e & Hk & Hy)].
  - rewrite Ei in Hin. by apply elem_of_nil in Hin.
  - pose proof (tally_ge wO _ k y ltac:(intros z; pose proof (th_nonneg z); lia) Hk) as Hge. pose proof (wO_ge y) as Hy'.
    rewrite Hy in Hy'. cbn in Hy', K1. lia.
Qed.

(** C2: No wakeup is lost.  When every thread is back at its client or asleep in
    [dispatch_sync], and neither the lane nor an item of it is on the target queue, an
    unsuspended lane is empty and nobody is asleep: every item that was submitted left
    the queue.  For executions with at most [0xfff] non-barrier items in flight in which
    no suspension interrupts a drain that left PENDING_BARRIER set; when one does, an
    item can be left behind ([lane_pending_barrier_leak]). *)
Theorem lane_no_lost_wakeup acts c :
  execution acts c -> few_in_flight acts -> no_pending_race acts ->
  quiescent c = true -> _dq_state_is_suspended (lq_state c) = false ->
  lq_items c = [] /\ forall i th, lq_threads c !! i = Some th -> t_pc th = PIdle.
Proof using Hw Hn. intros E Hf Hr. destruct (exec_inv acts c E Hf Hr) as (f & H). by apply (quiescent_empty c f). Qed.

(** The owner waits for the head of a queue that is not empty. *)
Lemma head_progress c i th (k : item -> lane) : lq_threads c !! i = Some th -> lq_items c <> [] ->
  (forall c', (dc ← get_head c; Some (k dc)) = Some c' -> lane_step width redirecting c i (ARun 0 false) = Some c') ->
  exists j c', lane_step width redirecting c j (ARun 0 false) = Some c'.
Proof.
  intros Hi Hne Hk. destruct (get_head c) as [dc|] eqn:E; [exists i; eexists; by apply Hk|].
  destruct (hidden_thread c E Hne) as (j & y & b & Hj & Hy). exists j. eexists. unfold lane_step. rewrite Hj. cbn. unfold run_step. by rewrite Hy.
Qed.

(** As long as a thread is inside a call and not asleep in [dispatch_sync], some thread
    can take its next step: the spin loops that wait for the head of the queue wait for
    a thread that is about to set it. *)
Lemma busy_steps c f : inv width c f -> forallb parked (lq_threads c) = false ->
  exists i c', lane_step width redirecting c i (ARun 0 false) = Some c'.
Proof using Hw Hn.
  intros H Hp.
  assert (exists i th, lq_threads c !! i = Some th /\ parked th = false) as (i & th & Hi & Hth).
  { clear H. induction (lq_threads c) as [|x l IH]; [done|]. cbn in Hp. apply andb_false_iff in Hp as [Hx|Hl].
    - by exists 0%nat, x.
    - destruct (IH Hl) as (i & th & Hi & Ht). by exists (S i), th. }
  destruct (inv_threads _ _ _ H i th Hi) as ((Hpc & _) & _ & Hown).
  assert (lane_step width redirecting c i (ARun 0 false) = run_step width redirecting c i th 0 false) as Es
    by (unfold lane_step; by rewrite Hi).
  assert (forall c', run_step width redirecting c i th 0 false = Some c' -> exists j c', lane_step width redirecting c j (ARun 0 false) = Some c') as Hgo
    by (intros c' E; exists i, c'; by rewrite Es).
  unfold run_step in Es, Hgo. unfold parked in Hth. pose proof (wO_ge th) as HO.
  destruct (t_pc th) eqn:Ep; try done; try (by eapply Hgo).
  - unfold lane_drain_enter in *. destruct (tail_set c) eqn:Et; [|by eapply Hgo]. apply tail_set_true in Et. cbn [negb] in *.
    eapply (head_progress c i th); [done|done|]. intros c' E. rewrite Es. exact E.
  - unfold lane_drain_next in *. destruct (tail_set c) eqn:Et; [|by eapply Hgo]. apply tail_set_true in Et. cbn [negb] in *.
    eapply (head_progress c i th); [done|done|]. intros c' E. rewrite Es. exact E.
  - cbn in Hpc. destruct Hpc as [j Hj]. unfold drain_barrier_waiter_pop in Hgo. rewrite Hj in Hgo. by eapply Hgo.
  - destruct (wo_transfer _ _ (inv_waits _ _ _ H) i th _ _ Hi Ep) as [_ (y & Hy & _)].
    pose proof (tally_ge wT _ i th ltac:(intros z; pose proof (th_nonneg z); lia) Hi) as HT. unfold wT at 1 in HT. rewrite Ep in HT.
    pose proof (tid_range c f _ y H Hy) as Htj. pose proof (plain_of _ _ _ (inv_word _ _ _ H)) as Hpl. pose proof H as H'. lane_facts H'.
    unfold drain_barrier_waiter_transfer in Hgo.
    replace (if enqueued then DISPATCH_QUEUE_ENQUEUED else 0) with (Z.b2z enqueued * DISPATCH_QUEUE_ENQUEUED) in Hgo by (by destruct enqueued).
    rewrite Hword, drain_barrier_waiter_spec in Hgo; [by eapply Hgo|done|done|done|]. destruct enqueued; cbn in *; lia.
  - unfold thread_event_wait in Hgo. destruct (t_grant th); [done|by eapply Hgo..].
  - destruct Hown as [_ Hne]; [cbn in HO; lia|]. cbn in Hne. eapply (head_progress c i th); [done|done|]. intros c' E. rewrite Es. exact E.
Qed.

(** C3: The lane does not deadlock.  In an unsuspended lane that has an item in its
    queue, or a thread inside a call (asleep in [dispatch_sync] or not), some thread can
    take its next step, or the lane or one of its items is on the target queue for a
    worker thread to take; so whoever sleeps in [dispatch_sync] sleeps while the lane
    still works.  Suspended or not, a thread inside a call that is not asleep is never
    stuck with all the others: some thread can step, in particular the spin loops that
    wait for the head of the queue wait for a thread that is about to set it.  (In a
    suspended lane the threads asleep in [dispatch_sync] do wait for the resumption.)
    For executions with at most [0xfff] non-barrier items in flight in which no
    suspension interrupts a drain that left PENDING_BARRIER set; the lane of
    [lane_pending_barrier_leak] is stuck. *)
Theorem lane_progress acts c :
  execution acts c -> few_in_flight acts -> no_pending_race acts ->
  (_dq_state_is_suspended (lq_state c) = false ->
   lq_items c <> [] \/ (exists i th, lq_threads c !! i = Some th /\ t_pc th <> PIdle) ->
   (exists i c', lane_step width redirecting c i (ARun 0 false) = Some c') \/ 0 < lq_tq c \/ 0 < lq_redirected c) /\
  (forall i th, lq_threads c !! i = Some th -> parked th = false ->
   exists j c', lane_step width redirecting c j (ARun 0 false) = Some c').
Proof using Hw Hn.
  intros E Hf Hr. destruct (exec_inv acts c E Hf Hr) as (f & H). split.
  - intros Hs Hwork. destruct (forallb parked (lq_threads c)) eqn:Hp; [|left; by apply (busy_steps c f)]. right.
    destruct (Z.ltb_spec 0 (lq_tq c)); [by left|]. destruct (Z.ltb_spec 0 (lq_redirected c)); [by right|]. exfalso.
    pose proof (bk_tq _ _ _ _ _ _ (inv_books _ _ _ H)). pose proof (bk_red _ _ _ _ _ _ (inv_books _ _ _ H)).
    assert (quiescent c = true) as Hq by (unfold quiescent; rewrite Hp; cbn; apply andb_true_iff; split; apply Z.eqb_eq; lia).
    destruct (quiescent_empty c f H Hq Hs) as [Hi Hth]. destruct Hwork as [Hne|(i & th & Hi' & Hpc)]; [done|]. by apply Hpc, (Hth i).
  - intros i th Hi Hp. apply (busy_steps c f); [done|]. apply not_true_is_false. rewrite forallb_forall. intros Hall.
    rewrite (Hall th) in Hp; [done|]. rewrite <- list_elem_of_In. by eapply list_elem_of_lookup_2.
Qed.
End clients.

(** ** Where the conditions hold *)

(** A step redirects at most one item, and no thread appears or goes. *)
Definition grows (c c' : lane) : Prop :=
  lq_redirected c' <= lq_redirected c + 1 /\ length (lq_threads c') = length (lq_threads c).

Ltac grow := repeat case_match; simplify_eq; unfold grows, complete_next; repeat case_match; cbn;
  rewrite ?length_alter, ?length_insert; split; try done; lia.

Lemma grows_run_step width redirecting c i th q nov c' :
  run_step width redirecting c i th q nov = Some c' -> grows c c'.
Proof.
  unfold run_step. intros H. destruct (t_pc th); try done;
    unfold concurrent_push_acquire, _dispatch_lane_push, _dispatch_lane_wakeup, wakeup_rmw, _dispatch_queue_class_invoke, lane_drain_enter,
      class_invoke_unlock, invoke_finish, lane_drain_first_iteration, lane_drain_item, lane_drain_pop, lane_drain_next, drain_barrier_waiter_pop,
      drain_barrier_waiter_transfer, sync_reserve, _dispatch_sync_f_slow, push_waiter_rmw, thread_event_wait,
      _dispatch_lane_barrier_sync_invoke_and_complete, barrier_sync_unlock, non_barrier_complete, _dispatch_lane_barrier_complete,
      class_barrier_complete, drain_non_barriers_take, drain_non_barriers_pop, drain_non_barriers_end, mbind, option_bind in H; grow.
Qed.

Lemma grows_step width redirecting c i a c' : lane_step width redirecting c i a = Some c' -> grows c c'.
Proof.
  unfold lane_step. intros (th & Hi & H)%bind_Some. destruct a; try (case_match; [by eapply grows_run_step|done]);
    unfold _dispatch_lane_concurrent_push, _dispatch_barrier_sync_f_inline, _dispatch_sync_f_inline, lane_suspend_step, lane_resume_step,
      mbind, option_bind in H; grow.
Qed.

(** A thread holds the width of at most three non-barrier items. *)
Lemma thread_in_flight th : wA th + wS th <= 3.
Proof. unfold wA, wS, gS. destruct (t_pc th); repeat case_match; cbn; repeat case_match; lia. Qed.

Lemma threads_in_flight ths : tally wA ths + tally wS ths <= 3 * Z.of_nat (length ths).
Proof. induction ths as [|th ths IH]; cbn; [lia|]. pose proof (thread_in_flight th). cbn in IH. lia. Qed.

(** In a lane whose width and number of threads are small against [0xfff], few items
    are in flight; a serial lane has no width to leave to a pending barrier. *)
Lemma small_lane_reach width redirecting n acts c :
  1 <= width -> width + 3 * Z.of_nat n < 0xfff -> no_pending_race width redirecting n acts \/ width = 1 ->
  lane_exec width redirecting acts (lane_init width n) = Some c -> lane_reach width redirecting n c /\ length (lq_threads c) = n.
Proof.
  intros Hw Hn. assert (1 <= width <= 0xffe) as Hw' by lia. assert (Z.of_nat n < 2 ^ 30 - 1) as Hn' by lia.
  revert c. induction acts as [|[i a] acts IH] using rev_ind; intros c Hr; [intros [= <-]; split; [apply reach_init|cbn; apply length_replicate]|].
  rewrite lane_exec_app. intros (c1 & H1 & H2)%bind_Some. cbn in H2. apply bind_Some in H2 as (c2 & H2 & [= <-]).
  destruct (IH c1) as [Hc1 Hl]; [destruct Hr as [Hr|Hr]; [left; by eapply no_pending_race_app|by right]|done|].
  destruct (grows_step _ _ _ _ _ _ H2) as [Hg Hg']. split; [|by rewrite Hg'].
  destruct (reach_inv width redirecting n Hw' Hn' c1 Hc1) as [_ (f & H)]. apply (reach_step _ _ _ c1 i a); [done..|].
  unfold step_covered. apply andb_true_iff. split.
  - apply Z.leb_le. unfold in_flight. pose proof (threads_in_flight (lq_threads c2)). rewrite Hg', Hl in *.
    pose proof (bk_async _ _ _ _ _ _ (inv_books _ _ _ H)). pose proof (bk_red _ _ _ _ _ _ (inv_books _ _ _ H)).
    pose proof (count_bounds (lq_threads c1)) as Hb. cbv zeta in Hb.
    assert (0 <= cN (count_all (lq_threads c1))) as HN.
    { cbn [cN count_all]. clear -H. assert (forall i th, lq_threads c1 !! i = Some th -> 0 <= wN th) as Hk.
      { intros i th Hi. destruct (inv_threads _ _ _ H i th Hi) as (Hp & _). apply (pc_width_nonneg _ Hp). }
      clear H. induction (lq_threads c1) as [|x l IH]; cbn; [lia|]. pose proof (Hk 0%nat x eq_refl).
      assert (0 <= tally wN l) by (apply IH; intros i; apply (Hk (S i))). lia. }
    lia.
  - destruct (lq_threads c1 !! i) as [th|] eqn:Ei; [|done]. apply negb_true_iff. destruct Hr as [Hr|Hr].
    + apply (Hr (length acts) i a c1 th); [|by rewrite take_app_length|done]. by rewrite lookup_app_r, Nat.sub_diag by lia.
    + destruct (inv_threads _ _ _ H i th Ei) as ((Hp & _) & _). unfold pending_race. destruct (t_pc th); try done.
      match goal with o : owned |- _ => destruct o; [done|] end. cbn in Hp. lia.
Qed.

(** In a serial lane no item is ever in flight outside the drain. *)
Definition no_reader (th : thread) : Prop := pA (t_pc th) = 0 /\ pS (t_pc th) = 0 /\ t_grant th <> GWidth.
Definition serial_quiet (c : lane) : Prop := lq_redirected c = 0 /\ Forall no_reader (lq_threads c).

Lemma no_reader_go ths i p : Forall no_reader ths -> pA p = 0 -> pS p = 0 -> Forall no_reader (alter (with_pc p) i ths).
Proof. intros H HA HS. apply Forall_alter; [done|]. intros th _ (_ & _ & Hg). done. Qed.

Lemma no_reader_signal ths j : Forall no_reader ths -> Forall no_reader (alter (with_grant GBarrier) j ths).
Proof. intros H. apply Forall_alter; [done|]. by intros th _ (HA & HS & _). Qed.

Lemma no_reader_put ths i th : Forall no_reader ths -> no_reader th -> Forall no_reader (<[i := th]> ths).
Proof. intros H Hth. by apply Forall_insert. Qed.

Lemma return_no_reader th : pA (return_pc th) = 0 /\ pS (return_pc th) = 0.
Proof. unfold return_pc. by destruct (t_wait th). Qed.

Ltac quiet := repeat case_match; simplify_eq; unfold serial_quiet, complete_next; repeat case_match; cbn;
  (split; [done|]); repeat first [apply no_reader_signal | apply no_reader_go | apply no_reader_put];
  try done; try apply return_no_reader; try (repeat case_match; done).

Lemma quiet_run_step redirecting c f i th q nov c' : inv 1 c f -> serial_quiet c -> lq_threads c !! i = Some th ->
  run_step 1 redirecting c i th q nov = Some c' -> serial_quiet c'.
Proof.
  intros H [Hr Hth] Hi. destruct (inv_threads _ _ _ H i th Hi) as ((Hp & _) & _).
  pose proof (Forall_lookup_1 _ _ _ _ Hth Hi) as (HA & HS & HG). unfold run_step. intros E.
  destruct (t_pc th); try match goal with o : owned |- _ => destruct o end; try done; cbn in Hp; try lia;
    unfold _dispatch_lane_push, _dispatch_lane_wakeup, wakeup_rmw, _dispatch_queue_class_invoke, lane_drain_enter,
      class_invoke_unlock, invoke_finish, lane_drain_first_iteration, lane_drain_item, lane_drain_next, drain_barrier_waiter_pop,
      drain_barrier_waiter_transfer, _dispatch_sync_f_slow, push_waiter_rmw, thread_event_wait,
      _dispatch_lane_barrier_sync_invoke_and_complete, barrier_sync_unlock, non_barrier_complete, _dispatch_lane_barrier_complete,
      class_barrier_complete, mbind, option_bind in E; cbn [serial Z.eqb Pos.eqb orb] in E; quiet.
Qed.

Lemma quiet_step redirecting c f i a c' : inv 1 c f -> serial_quiet c -> lane_step 1 redirecting c i a = Some c' -> serial_quiet c'.
Proof.
  intros H Hc. unfold lane_step. intros (th & Hi & E)%bind_Some. destruct a; try (case_match; [by eapply quiet_run_step|done]); destruct Hc as [Hr Hth];
    unfold _dispatch_lane_concurrent_push, _dispatch_barrier_sync_f_inline, _dispatch_sync_f_inline, lane_suspend_step, lane_resume_step,
      mbind, option_bind in E; rewrite ?orb_true_r, ?Hr, ?andb_false_r in E; cbn [serial Z.eqb Pos.eqb orb] in E; quiet.
Qed.

Lemma serial_reach_quiet redirecting n c : Z.of_nat n < 2 ^ 30 - 1 -> lane_reach 1 redirecting n c -> serial_quiet c.
Proof.
  intros Hn. induction 1 as [|c i a c' Hc IH Hs Hg]; [split; [done|apply Forall_replicate; done]|].
  destruct (reach_inv 1 redirecting n ltac:(lia) Hn c Hc) as [_ (f & H)]. by apply (quiet_step redirecting c f i a).
Qed.

(** A serial lane runs one item at a time, and neither of the two conditions is
    needed: in every execution of a lane of width 1 by fewer than 1364 threads, whatever
    they submit, suspend and resume, and in whatever order their steps interleave, two
    threads that run an item of the lane are the same thread. *)
Theorem serial_lane_alone redirecting n acts c i j th th' : (n < 1364)%nat ->
  lane_exec 1 redirecting acts (lane_init 1 n) = Some c ->
  lq_threads c !! i = Some th -> runs_barrier th || runs_reader th = true ->
  lq_threads c !! j = Some th' -> runs_barrier th' || runs_reader th' = true -> i = j.
Proof.
  intros Hn E Hi Hr Hj Hr'. destruct (small_lane_reach 1 redirecting n acts c ltac:(lia) ltac:(lia) (or_intror eq_refl) E) as [Hc _].
  destruct (serial_reach_quiet redirecting n c ltac:(lia) Hc) as [_ Hq].
  destruct (reach_inv 1 redirecting n ltac:(lia) ltac:(lia) c Hc) as [_ (f & H)].
  assert (runs_barrier th = true) as Hb.
  { pose proof (Forall_lookup_1 _ _ _ _ Hq Hi) as (HA & HS & _). destruct (inv_threads _ _ _ H i th Hi) as ((Hp & _) & _).
    unfold runs_barrier, runs_reader in *. destruct (t_pc th); try done. cbn in Hp. lia. }
  destruct (decide (i = j)) as [|Hne]; [done|]. exfalso.
  destruct (barrier_alone 1 n ltac:(lia) ltac:(lia) c f i th H Hi Hb) as [_ Ho]. rewrite (Ho j th') in Hr'; done.
Qed.

(** ** Executions the theorems apply to *)

(** [k] steps of thread [i]. *)
Definition run (i k : nat) : list (nat * action) := replicate k (i, ARun 0 false).

(** The configuration after [acts], of a lane of width 4 and three threads. *)
Definition after (acts : list (nat * action)) : lane :=
  match lane_run 4 true acts (lane_init 4 3) with Some c => c | None => lane_init 4 3 end.

(** An execution all of whose steps are covered, which a computation tells. *)
Lemma after_exec acts : is_Some (lane_run 4 true acts (lane_init 4 3)) ->
  lane_exec 4 true acts (lane_init 4 3) = Some (after acts) /\ few_in_flight 4 true 3 acts /\ no_pending_race 4 true 3 acts.
Proof.
  intros [c E]. unfold after. rewrite E. assert (in_flight (lane_init 4 3) <= 0xfff) as H0 by (vm_compute; discriminate).
  split_and!; [by apply lane_run_exec| |].
  - intros k c1 E1. by destruct (lane_run_prefix 4 true acts _ c k c1 E E1 H0).
  - intros k i a c1 th Hk E1 Hi. destruct (lane_run_prefix 4 true acts _ c k c1 E E1 H0) as [_ Hr]. by apply (Hr i a).
Qed.

Lemma after_reach acts : lane_reach 4 true 3 (after acts).
Proof.
  unfold after. destruct (lane_run 4 true acts (lane_init 4 3)) eqn:E; [|apply reach_init].
  by apply (lane_run_reach 4 true 3 acts (lane_init 4 3)); [apply reach_init|].
Qed.

(** Thread 0 submits a barrier, thread 1 reads and waits, thread 2 runs the barrier. *)
Definition barrier_running : list (nat * action) :=
  (0%nat, AAsync 1 true) :: run 0 5 ++ (1%nat, ASync 2 false) :: run 1 1 ++ (2%nat, AWork) :: run 2 4.
(** The drain goes on, grants the reader its width, and everything ends. *)
Definition all_done : list (nat * action) := barrier_running ++ run 2 7 ++ run 1 5.
(** Two asynchronous items, one of them taken by a worker. *)
Definition two_async : list (nat * action) :=
  (0%nat, AAsync 1 false) :: run 0 1 ++ (0%nat, AAsync 2 false) :: run 0 1 ++ [(1%nat, AWorkRedirected)].

Lemma barrier_running_exec : is_Some (lane_run 4 true barrier_running (lane_init 4 3)).
Proof. vm_compute. by eexists. Qed.
Lemma all_done_exec : is_Some (lane_run 4 true all_done (lane_init 4 3)).
Proof. vm_compute. by eexists. Qed.
Lemma two_async_exec : is_Some (lane_run 4 true two_async (lane_init 4 3)).
Proof. vm_compute. by eexists. Qed.

Lemma lane_barrier_exclusive_witness :
  t_pc <$> lq_threads (after barrier_running) !! 2%nat = Some (PRunB {| it_id := 1; it_barrier := true; it_waiter := None |}) /\
  in_flight (after barrier_running) = 0.
Proof.
  split; [vm_compute; reflexivity|]. destruct (after_exec barrier_running barrier_running_exec) as (E & Hf & Hr).
  refine (proj1 (lane_barrier_exclusive 4 true 3 _ _ barrier_running (after barrier_running) 2
    {| t_pc := PRunB {| it_id := 1; it_barrier := true; it_waiter := None |}; t_wait := false; t_grant := GNone |} E Hf Hr _ _));
    first [lia | vm_compute; reflexivity].
Defined.

Lemma lane_lock_exclusive_witness :
  _dq_state_drain_locked_by (lq_state (after barrier_running)) (tid_of 2) = true /\ 0 <= lq_tq (after barrier_running) <= 1.
Proof.
  destruct (after_exec barrier_running barrier_running_exec) as (E & Hf & Hr).
  destruct (lane_lock_exclusive 4 true 3 ltac:(lia) ltac:(lia) _ (after barrier_running) E Hf Hr) as (H1 & _ & H2 & _). split; [|exact H2].
  apply (H1 2%nat {| t_pc := PRunB {| it_id := 1; it_barrier := true; it_waiter := None |}; t_wait := false; t_grant := GNone |});
    vm_compute; [reflexivity|discriminate].
Defined.

Lemma lane_word_ledger_witness :
  _dq_state_extract_width_bits (lq_state (after two_async)) = DISPATCH_QUEUE_WIDTH_FULL - 4 + 2.
Proof.
  destruct (after_exec two_async two_async_exec) as (E & Hf & Hr).
  exact (proj2 (lane_word_ledger 4 true 3 ltac:(lia) ltac:(lia) _ (after two_async) E Hf Hr)).
Defined.

Lemma lane_async_width_witness :
  lq_redirected (after two_async) + tally runs_async (lq_threads (after two_async)) = 2 /\
  lq_redirected (after two_async) + tally runs_async (lq_threads (after two_async)) <= 4.
Proof.
  split; [vm_compute; reflexivity|]. apply (lane_async_width 4 true 3 ltac:(lia) ltac:(lia) (after two_async)). apply after_reach.
Defined.

Lemma lane_fifo_witness :
  map it_id (lq_pushed (after all_done)) = [1; 2]%nat /\
  lq_pushed (after all_done) = lq_popped (after all_done) ++ lq_items (after all_done).
Proof.
  split; [vm_compute; reflexivity|]. apply (lane_fifo 4 true 3 ltac:(lia) ltac:(lia) (after all_done)). apply after_reach.
Defined.

Lemma lane_no_lost_wakeup_witness :
  length (lq_popped (after all_done)) = 2%nat /\ lq_items (after all_done) = [].
Proof.
  split; [vm_compute; reflexivity|]. destruct (after_exec all_done all_done_exec) as (E & Hf & Hr).
  refine (proj1 (lane_no_lost_wakeup 4 true 3 _ _ all_done (after all_done) E Hf Hr _ _)); first [lia | vm_compute; reflexivity].
Defined.

(** Thread 1 sleeps in [dispatch_sync] while thread 2 runs the barrier before it. *)
Lemma lane_progress_witness :
  t_pc <$> lq_threads (after barrier_running) !! 1%nat = Some PWait /\
  ((exists i c', lane_step 4 true (after barrier_running) i (ARun 0 false) = Some c') \/
   0 < lq_tq (after barrier_running) \/ 0 < lq_redirected (after barrier_running)).
Proof.
  split; [vm_compute; reflexivity|]. destruct (after_exec barrier_running barrier_running_exec) as (E & Hf & Hr).
  refine (proj1 (lane_progress 4 true 3 _ _ barrier_running (after barrier_running) E Hf Hr) _ _); [lia|lia|vm_compute; reflexivity|].
  left. vm_compute. discriminate.
Defined.
