(* ===== verification/LaneBugs.v ===== *)
(** * Two executions outside the theorems

    [LaneSafety.v] excludes two situations.  Both occur in executions of the model,
    step by step as the code takes them, and break what the theorems state. *)

From S2P Require Import Prelude Threads DqState LaneRmw LaneFields Lane LaneInv LaneDrain LaneSafety.

(** ** A pending barrier reserved twice

    Threads 0 and 1 read; a barrier arrives and thread 2 drains: the upgrade fails and
    leaves PENDING_BARRIER with the width reserved.  Thread 0 completes and sets DIRTY,
    so the drain lock is kept and the drain starts again; thread 3 suspends the lane
    before it looks at the head.  [_dispatch_queue_adjust_owned] then reserves the
    barrier's width a second time. *)
Definition twice_reserved : list (nat * action) :=
  (0%nat, ASync 1 false) :: run 0 1 ++ (1%nat, ASync 2 false) :: run 1 1 ++
  (2%nat, AAsync 3 true) :: run 2 5 ++ (2%nat, AWork) :: run 2 4 ++ run 0 2 ++ run 2 2 ++
  (3%nat, ASuspend) :: run 2 3 ++ run 1 2 ++ [(3%nat, AResume)].

(** After an execution in which a drain restarted by DIRTY is interrupted by a
    suspension, the lane is resumed, unlocked, not suspended and nothing is in flight,
    every thread is idle, yet its width field says it is full: the barrier in the queue
    is never run, and the lane is not even runnable for later items. *)
Theorem lane_pending_barrier_leak :
  match lane_exec 4 true twice_reserved (lane_init 4 4) with
  | Some c =>
      quiescent c = true /\ _dq_state_is_suspended (lq_state c) = false /\ in_flight c = 0 /\
      _dq_state_drain_locked (lq_state c) = false /\
      lq_items c = [{| it_id := 3; it_barrier := true; it_waiter := None |}] /\
      _dq_state_is_runnable (lq_state c) = false
  | None => False
  end.
Proof. vm_compute. repeat split. Qed.

(** ** The width field overflows

    A concurrent queue has width 0xffe.  4093 asynchronous items are redirected; while
    the lane is suspended an asynchronous item, three readers and a barrier enter the
    queue.  After the resumption thread 4 drains: the asynchronous item takes the last
    width, "sync readers don't observe the limit", and the upgrade for the barrier adds
    the rest of the width: the sum carries into IN_BARRIER. *)
Fixpoint async_items (k : nat) : list (nat * action) :=
  match k with O => [] | S k => (0%nat, AAsync k false) :: run 0 1 ++ async_items k end.

Definition width_overflow : list (nat * action) :=
  async_items 4093 ++ (4%nat, ASuspend) :: (0%nat, AAsync 0 false) :: run 0 5 ++
  (1%nat, ASync 1 false) :: run 1 1 ++ (2%nat, ASync 2 false) :: run 2 1 ++ (3%nat, ASync 3 false) :: run 3 1 ++
  (0%nat, AAsync 4 true) :: run 0 1 ++ (4%nat, AResume) :: run 4 3 ++
  (4%nat, AWork) :: run 4 21.

(** With 4094 asynchronous items of a concurrent queue in flight and three readers
    granted, the drain runs a barrier: the width field of [dq_state] overflowed into
    IN_BARRIER, which [_dispatch_queue_try_upgrade_full_width] takes for a success. *)
Theorem lane_width_overflow :
  match lane_exec 0xffe true width_overflow (lane_init 0xffe 5) with
  | Some c =>
      in_flight c = 4097 /\
      t_pc <$> lq_threads c !! 4%nat = Some (PRunB {| it_id := 4; it_barrier := true; it_waiter := None |})
  | None => False
  end.
Proof. vm_compute. split; reflexivity. Qed.
