(* ===== verification/Qos.v ===== *)
(** * Quality of service and queue attributes

    Models [src/shims/priority.h] (QoS classes, the 32-bit priority words of queues and
    the words of the thread library) and the queue attributes of [src/init.c]: an
    attribute is an element of the array [_dispatch_queue_attrs], and its index holds six
    settings in mixed radix.  The theorems: indices and settings correspond one to one, a
    chain of calls that build an attribute has the effect of the calls on the settings, the
    two kinds of priority word convert into each other, and the order of priority words is
    the order of classes, then of relative priorities. *)

From S2P Require Import Prelude DqState.

Local Open Scope word_scope.

(** ** Classes *)

Definition QOS_CLASS_USER_INTERACTIVE : Z := 0x21.
Definition QOS_CLASS_USER_INITIATED : Z := 0x19.
Definition QOS_CLASS_DEFAULT : Z := 0x15.
Definition QOS_CLASS_UTILITY : Z := 0x11.
Definition QOS_CLASS_BACKGROUND : Z := 0x09.
Definition QOS_CLASS_MAINTENANCE : Z := 0x05.
Definition QOS_CLASS_UNSPECIFIED : Z := 0x00.
Definition QOS_MIN_RELATIVE_PRIORITY : Z := -15.

Definition DISPATCH_QOS_UNSPECIFIED : Z := 0.
Definition DISPATCH_QOS_MAINTENANCE : Z := 1.
Definition DISPATCH_QOS_BACKGROUND : Z := 2.
Definition DISPATCH_QOS_UTILITY : Z := 3.
Definition DISPATCH_QOS_DEFAULT : Z := 4.
Definition DISPATCH_QOS_USER_INITIATED : Z := 5.
Definition DISPATCH_QOS_USER_INTERACTIVE : Z := 6.
Definition DISPATCH_QOS_MIN : Z := DISPATCH_QOS_MAINTENANCE.
Definition DISPATCH_QOS_MAX : Z := DISPATCH_QOS_USER_INTERACTIVE.

Definition _dispatch_qos_class_valid (cls relpri : Z) : bool :=
  if (cls =? QOS_CLASS_MAINTENANCE) || (cls =? QOS_CLASS_BACKGROUND) || (cls =? QOS_CLASS_UTILITY) ||
     (cls =? QOS_CLASS_DEFAULT) || (cls =? QOS_CLASS_USER_INITIATED) ||
     (cls =? QOS_CLASS_USER_INTERACTIVE) || (cls =? QOS_CLASS_UNSPECIFIED)
  then (QOS_MIN_RELATIVE_PRIORITY <=? relpri) && (relpri <=? 0)
  else false.

Definition _dispatch_qos_from_qos_class (cls : Z) : Z :=
  if cls =? QOS_CLASS_USER_INTERACTIVE then DISPATCH_QOS_USER_INTERACTIVE
  else if cls =? QOS_CLASS_USER_INITIATED then DISPATCH_QOS_USER_INITIATED
  else if cls =? QOS_CLASS_DEFAULT then DISPATCH_QOS_DEFAULT
  else if cls =? QOS_CLASS_UTILITY then DISPATCH_QOS_UTILITY
  else if cls =? QOS_CLASS_BACKGROUND then DISPATCH_QOS_BACKGROUND
  else if cls =? QOS_CLASS_MAINTENANCE then DISPATCH_QOS_MAINTENANCE
  else DISPATCH_QOS_UNSPECIFIED.

Definition _dispatch_qos_to_qos_class (qos : Z) : Z :=
  if qos =? DISPATCH_QOS_USER_INTERACTIVE then QOS_CLASS_USER_INTERACTIVE
  else if qos =? DISPATCH_QOS_USER_INITIATED then QOS_CLASS_USER_INITIATED
  else if qos =? DISPATCH_QOS_DEFAULT then QOS_CLASS_DEFAULT
  else if qos =? DISPATCH_QOS_UTILITY then QOS_CLASS_UTILITY
  else if qos =? DISPATCH_QOS_BACKGROUND then QOS_CLASS_BACKGROUND
  else if qos =? DISPATCH_QOS_MAINTENANCE then QOS_CLASS_MAINTENANCE
  else QOS_CLASS_UNSPECIFIED.

Definition DISPATCH_QUEUE_PRIORITY_HIGH : Z := 2.
Definition DISPATCH_QUEUE_PRIORITY_DEFAULT : Z := 0.
Definition DISPATCH_QUEUE_PRIORITY_LOW : Z := -2.
Definition DISPATCH_QUEUE_PRIORITY_BACKGROUND : Z := -2 ^ 15.
Definition DISPATCH_QUEUE_PRIORITY_NON_INTERACTIVE : Z := -2 ^ 7.

(** [priority] is an [intptr_t]; a class is an [unsigned int]. *)
Definition _dispatch_qos_from_queue_priority (priority : Z) : Z :=
  if priority =? DISPATCH_QUEUE_PRIORITY_BACKGROUND then DISPATCH_QOS_BACKGROUND
  else if priority =? DISPATCH_QUEUE_PRIORITY_NON_INTERACTIVE then DISPATCH_QOS_UTILITY
  else if priority =? DISPATCH_QUEUE_PRIORITY_LOW then DISPATCH_QOS_UTILITY
  else if priority =? DISPATCH_QUEUE_PRIORITY_DEFAULT then DISPATCH_QOS_DEFAULT
  else if priority =? DISPATCH_QUEUE_PRIORITY_HIGH then DISPATCH_QOS_USER_INITIATED
  else _dispatch_qos_from_qos_class (u32 priority).

Definition _dispatch_qos_is_background (qos : Z) : bool :=
  negb (qos =? 0) && (qos <=? DISPATCH_QOS_BACKGROUND).

(** ** Priority words *)

Definition _PTHREAD_PRIORITY_QOS_CLASS_MASK : Z := 0x00ffff00.
Definition _PTHREAD_PRIORITY_QOS_CLASS_SHIFT : Z := 8.
Definition _PTHREAD_PRIORITY_PRIORITY_MASK : Z := 0x000000ff.
Definition _PTHREAD_PRIORITY_SCHED_PRI_FLAG : Z := 0x20000000.

Definition DISPATCH_PRIORITY_RELPRI_MASK : Z := 0x000000ff.
Definition DISPATCH_PRIORITY_QOS_MASK : Z := 0x00000f00.
Definition DISPATCH_PRIORITY_QOS_SHIFT : Z := 8.
Definition DISPATCH_PRIORITY_REQUESTED_MASK : Z := 0x00000fff.
Definition DISPATCH_PRIORITY_FALLBACK_QOS_MASK : Z := 0x0000f000.
Definition DISPATCH_PRIORITY_FALLBACK_QOS_SHIFT : Z := 12.
Definition DISPATCH_PRIORITY_OVERRIDE_MASK : Z := 0x000f0000.
Definition DISPATCH_PRIORITY_OVERRIDE_SHIFT : Z := 16.
Definition DISPATCH_PRIORITY_SATURATED_OVERRIDE : Z := DISPATCH_PRIORITY_OVERRIDE_MASK.
Definition DISPATCH_PRIORITY_FLAG_OVERCOMMIT : Z := 0x80000000.
Definition DISPATCH_PRIORITY_FLAG_FALLBACK : Z := 0x04000000.
Definition DISPATCH_PRIORITY_FLAG_MANAGER : Z := 0x02000000.
Definition DISPATCH_PRIORITY_FLAG_FLOOR : Z := 0x40000000.
Definition DISPATCH_PRIORITY_FLAG_INHERITED : Z := 0x20000000.
Definition DISPATCH_PRIORITY_PTHREAD_PRIORITY_FLAGS_MASK : Z :=
  DISPATCH_PRIORITY_FLAG_OVERCOMMIT .| DISPATCH_PRIORITY_FLAG_FALLBACK .| DISPATCH_PRIORITY_FLAG_MANAGER.

(** [__builtin_ffs]: one more than the index of the least bit set, 0 for 0. *)
Fixpoint ffs_from (n : nat) (i : Z) (x : Z) : Z :=
  match n with
  | O => 0
  | S n => if Z.testbit x i then i + 1 else ffs_from n (i + 1) x
  end.
Definition ffs (x : Z) : Z := ffs_from 32 0 x.

(** [1ul << n], which C leaves undefined from 64 on. *)
Definition shl1ul (n : Z) : outcome Z := if n <? 64 then Done (1 .<< n) else Crash InvalidAccess.

Definition _dispatch_qos_from_pp (pp : Z) : Z :=
  ffs ((pp .& _PTHREAD_PRIORITY_QOS_CLASS_MASK) .>> _PTHREAD_PRIORITY_QOS_CLASS_SHIFT).

Definition _dispatch_qos_to_pp (qos : Z) : outcome Z :=
  pp ← shl1ul (u32 (qos - 1) + _PTHREAD_PRIORITY_QOS_CLASS_SHIFT);
  mret (pp .| _PTHREAD_PRIORITY_PRIORITY_MASK).

(** [__linux__] *)
Definition _dispatch_pp_to_nice (pp : Z) : Z :=
  let qos := _dispatch_qos_from_pp pp in
  if qos =? DISPATCH_QOS_BACKGROUND then 10
  else if qos =? DISPATCH_QOS_UTILITY then 2
  else if qos =? DISPATCH_QOS_DEFAULT then 0
  else if qos =? DISPATCH_QOS_USER_INITIATED then -2
  else if qos =? DISPATCH_QOS_USER_INTERACTIVE then -4
  else 0.

Definition _dispatch_priority_make (qos relpri : Z) : Z :=
  if negb (qos =? 0)
  then (u32 (qos .<< DISPATCH_PRIORITY_QOS_SHIFT) .& DISPATCH_PRIORITY_QOS_MASK) .|
       (u32 (relpri - 1) .& DISPATCH_PRIORITY_RELPRI_MASK)
  else 0.

Definition _dispatch_priority_make_override (qos : Z) : Z :=
  u32 (qos .<< DISPATCH_PRIORITY_OVERRIDE_SHIFT) .& DISPATCH_PRIORITY_OVERRIDE_MASK.

Definition _dispatch_priority_make_fallback (qos : Z) : Z :=
  if negb (qos =? 0)
  then (u32 (qos .<< DISPATCH_PRIORITY_FALLBACK_QOS_SHIFT) .& DISPATCH_PRIORITY_FALLBACK_QOS_MASK) .|
       DISPATCH_PRIORITY_FLAG_FALLBACK
  else 0.

Definition _dispatch_priority_relpri (dbp : Z) : Z :=
  if negb (dbp .& DISPATCH_PRIORITY_QOS_MASK =? 0)
  then swrap 8 (dbp .& DISPATCH_PRIORITY_RELPRI_MASK) + 1
  else 0.

Definition _dispatch_priority_qos (dbp : Z) : Z :=
  (dbp .& DISPATCH_PRIORITY_QOS_MASK) .>> DISPATCH_PRIORITY_QOS_SHIFT.
Definition _dispatch_priority_fallback_qos (dbp : Z) : Z :=
  (dbp .& DISPATCH_PRIORITY_FALLBACK_QOS_MASK) .>> DISPATCH_PRIORITY_FALLBACK_QOS_SHIFT.
Definition _dispatch_priority_override_qos (dbp : Z) : Z :=
  (dbp .& DISPATCH_PRIORITY_OVERRIDE_MASK) .>> DISPATCH_PRIORITY_OVERRIDE_SHIFT.

Definition _dispatch_queue_priority_manually_selected (pri : Z) : bool :=
  (pri .& DISPATCH_PRIORITY_FLAG_INHERITED =? 0) &&
  negb (pri .& (DISPATCH_PRIORITY_FLAG_FALLBACK .| DISPATCH_PRIORITY_FLAG_FLOOR .|
                DISPATCH_PRIORITY_REQUESTED_MASK) =? 0).

(** The assertion refuses a word of the thread library that holds a scheduler priority. *)
Definition _dispatch_priority_from_pp_impl (pp : Z) (keep_flags : bool) : outcome Z :=
  if negb (pp .& _PTHREAD_PRIORITY_SCHED_PRI_FLAG =? 0) then Crash InternalCrash
  else
    let dbp :=
      if keep_flags
      then u32 (pp .& (DISPATCH_PRIORITY_PTHREAD_PRIORITY_FLAGS_MASK .| DISPATCH_PRIORITY_RELPRI_MASK))
      else u32 (pp .& DISPATCH_PRIORITY_RELPRI_MASK) in
    Done (dbp .| u32 (_dispatch_qos_from_pp pp .<< DISPATCH_PRIORITY_QOS_SHIFT)).
Definition _dispatch_priority_from_pp (pp : Z) : outcome Z := _dispatch_priority_from_pp_impl pp true.
Definition _dispatch_priority_from_pp_strip_flags (pp : Z) : outcome Z :=
  _dispatch_priority_from_pp_impl pp false.

Definition _dispatch_priority_to_pp_strip_flags (dbp : Z) : outcome Z :=
  let pp := dbp .& DISPATCH_PRIORITY_RELPRI_MASK in
  let qos := _dispatch_priority_qos dbp in
  if negb (qos =? 0)
  then bit ← shl1ul (u32 (qos - 1) + _PTHREAD_PRIORITY_QOS_CLASS_SHIFT); mret (pp .| bit)
  else mret pp.

(** The nice value that a worker thread of a root queue of priority [pri] asks for
    ([_dispatch_worker_thread] on Linux). *)
Definition worker_nice (pri : Z) : outcome Z :=
  pp ← _dispatch_priority_to_pp_strip_flags pri; mret (_dispatch_pp_to_nice pp).

Definition _dispatch_priority_to_pp_prefer_fallback (dbp : Z) : outcome Z :=
  if negb (dbp .& DISPATCH_PRIORITY_FLAG_FALLBACK =? 0) then
    let pp := (dbp .& DISPATCH_PRIORITY_PTHREAD_PRIORITY_FLAGS_MASK) .| _PTHREAD_PRIORITY_PRIORITY_MASK in
    let qos := _dispatch_priority_fallback_qos dbp in
    bit ← shl1ul (u32 (qos - 1) + _PTHREAD_PRIORITY_QOS_CLASS_SHIFT); mret (pp .| bit)
  else
    let pp := dbp .& (DISPATCH_PRIORITY_PTHREAD_PRIORITY_FLAGS_MASK .| DISPATCH_PRIORITY_RELPRI_MASK) in
    let qos := _dispatch_priority_qos dbp in
    if qos =? 0 then mret pp
    else bit ← shl1ul (u32 (qos - 1) + _PTHREAD_PRIORITY_QOS_CLASS_SHIFT); mret (pp .| bit).

(** ** Attributes *)

Definition _dispatch_queue_attr_overcommit_unspecified : Z := 0.
Definition _dispatch_queue_attr_overcommit_enabled : Z := 1.
Definition _dispatch_queue_attr_overcommit_disabled : Z := 2.
Definition DISPATCH_AUTORELEASE_FREQUENCY_INHERIT : Z := 0.
Definition DISPATCH_AUTORELEASE_FREQUENCY_WORK_ITEM : Z := 1.
Definition DISPATCH_AUTORELEASE_FREQUENCY_NEVER : Z := 2.

Definition DISPATCH_QUEUE_ATTR_OVERCOMMIT_COUNT : Z := 3.
Definition DISPATCH_QUEUE_ATTR_AUTORELEASE_FREQUENCY_COUNT : Z := 3.
Definition DISPATCH_QUEUE_ATTR_QOS_COUNT : Z := DISPATCH_QOS_MAX + 1.
Definition DISPATCH_QUEUE_ATTR_PRIO_COUNT : Z := 1 - QOS_MIN_RELATIVE_PRIORITY.
Definition DISPATCH_QUEUE_ATTR_CONCURRENCY_COUNT : Z := 2.
Definition DISPATCH_QUEUE_ATTR_INACTIVE_COUNT : Z := 2.
Definition DISPATCH_QUEUE_ATTR_COUNT : Z :=
  DISPATCH_QUEUE_ATTR_OVERCOMMIT_COUNT * DISPATCH_QUEUE_ATTR_AUTORELEASE_FREQUENCY_COUNT *
  DISPATCH_QUEUE_ATTR_QOS_COUNT * DISPATCH_QUEUE_ATTR_PRIO_COUNT *
  DISPATCH_QUEUE_ATTR_CONCURRENCY_COUNT * DISPATCH_QUEUE_ATTR_INACTIVE_COUNT.

Record dispatch_queue_attr_info_t := {
  dqai_qos : Z;                        (* 8 bits *)
  dqai_relpri : Z;                     (* 8 bits, signed *)
  dqai_overcommit : Z;                 (* 2 bits *)
  dqai_autorelease_frequency : Z;      (* 2 bits *)
  dqai_concurrent : bool;
  dqai_inactive : bool;
}.

Definition with_qos (i : dispatch_queue_attr_info_t) (qos relpri : Z) :=
  {| dqai_qos := wrap 8 qos; dqai_relpri := swrap 8 relpri; dqai_overcommit := dqai_overcommit i;
     dqai_autorelease_frequency := dqai_autorelease_frequency i;
     dqai_concurrent := dqai_concurrent i; dqai_inactive := dqai_inactive i |}.
Definition with_overcommit (i : dispatch_queue_attr_info_t) (v : Z) :=
  {| dqai_qos := dqai_qos i; dqai_relpri := dqai_relpri i; dqai_overcommit := wrap 2 v;
     dqai_autorelease_frequency := dqai_autorelease_frequency i;
     dqai_concurrent := dqai_concurrent i; dqai_inactive := dqai_inactive i |}.
Definition with_frequency (i : dispatch_queue_attr_info_t) (v : Z) :=
  {| dqai_qos := dqai_qos i; dqai_relpri := dqai_relpri i; dqai_overcommit := dqai_overcommit i;
     dqai_autorelease_frequency := wrap 2 v;
     dqai_concurrent := dqai_concurrent i; dqai_inactive := dqai_inactive i |}.
Definition with_inactive (i : dispatch_queue_attr_info_t) (v : bool) :=
  {| dqai_qos := dqai_qos i; dqai_relpri := dqai_relpri i; dqai_overcommit := dqai_overcommit i;
     dqai_autorelease_frequency := dqai_autorelease_frequency i;
     dqai_concurrent := dqai_concurrent i; dqai_inactive := v |}.

Definition attr_info_zero : dispatch_queue_attr_info_t :=
  {| dqai_qos := 0; dqai_relpri := 0; dqai_overcommit := 0; dqai_autorelease_frequency := 0;
     dqai_concurrent := false; dqai_inactive := false |}.

(** An attribute is a pointer: [None] is NULL, [Some idx] the element [idx] of
    [_dispatch_queue_attrs], or what lies there outside of the array. *)
Abbreviation dispatch_queue_attr_t := (option Z) (only parsing).
Definition DISPATCH_QUEUE_SERIAL : dispatch_queue_attr_t := None.
(** The name is an alias of the first element. *)
Definition DISPATCH_QUEUE_CONCURRENT : dispatch_queue_attr_t := Some 0.

(** The settings of an element. *)
Definition attr_digits (idx : Z) : dispatch_queue_attr_info_t :=
  let inactive := idx mod DISPATCH_QUEUE_ATTR_INACTIVE_COUNT in
  let idx := idx / DISPATCH_QUEUE_ATTR_INACTIVE_COUNT in
  let not_concurrent := idx mod DISPATCH_QUEUE_ATTR_CONCURRENCY_COUNT in
  let idx := idx / DISPATCH_QUEUE_ATTR_CONCURRENCY_COUNT in
  let prio := idx mod DISPATCH_QUEUE_ATTR_PRIO_COUNT in
  let idx := idx / DISPATCH_QUEUE_ATTR_PRIO_COUNT in
  let qos := idx mod DISPATCH_QUEUE_ATTR_QOS_COUNT in
  let idx := idx / DISPATCH_QUEUE_ATTR_QOS_COUNT in
  let frequency := idx mod DISPATCH_QUEUE_ATTR_AUTORELEASE_FREQUENCY_COUNT in
  let idx := idx / DISPATCH_QUEUE_ATTR_AUTORELEASE_FREQUENCY_COUNT in
  let overcommit := idx mod DISPATCH_QUEUE_ATTR_OVERCOMMIT_COUNT in
  {| dqai_qos := wrap 8 qos; dqai_relpri := swrap 8 (- prio); dqai_overcommit := wrap 2 overcommit;
     dqai_autorelease_frequency := wrap 2 frequency;
     dqai_concurrent := (not_concurrent =? 0); dqai_inactive := negb (inactive =? 0) |}.

Definition _dispatch_queue_attr_from_info (dqai : dispatch_queue_attr_info_t) : dispatch_queue_attr_t :=
  let idx := 0 in
  let idx := u64 (idx * DISPATCH_QUEUE_ATTR_OVERCOMMIT_COUNT) in
  let idx := u64 (idx + dqai_overcommit dqai) in
  let idx := u64 (idx * DISPATCH_QUEUE_ATTR_AUTORELEASE_FREQUENCY_COUNT) in
  let idx := u64 (idx + dqai_autorelease_frequency dqai) in
  let idx := u64 (idx * DISPATCH_QUEUE_ATTR_QOS_COUNT) in
  let idx := u64 (idx + dqai_qos dqai) in
  let idx := u64 (idx * DISPATCH_QUEUE_ATTR_PRIO_COUNT) in
  let idx := u64 (idx + u64 (- dqai_relpri dqai)) in
  let idx := u64 (idx * DISPATCH_QUEUE_ATTR_CONCURRENCY_COUNT) in
  let idx := u64 (idx + (if dqai_concurrent dqai then 0 else 1)) in
  let idx := u64 (idx * DISPATCH_QUEUE_ATTR_INACTIVE_COUNT) in
  let idx := u64 (idx + (if dqai_inactive dqai then 1 else 0)) in
  Some idx.

Section attributes.
(** The memory at an offset outside of the array equals the first element. *)
Context (same_as_first : Z -> bool).

Definition _dispatch_queue_attr_to_info (dqa : dispatch_queue_attr_t) : outcome dispatch_queue_attr_info_t :=
  match dqa with
  | None => Done attr_info_zero
  | Some idx =>
      if (idx <? 0) || (DISPATCH_QUEUE_ATTR_COUNT <=? idx)
      then if same_as_first idx then Done (attr_digits 0) else Crash ClientCrash
      else Done (attr_digits idx)
  end.

Definition dispatch_queue_attr_make_with_qos_class (dqa : dispatch_queue_attr_t) (qos_class relpri : Z)
    : outcome dispatch_queue_attr_t :=
  if negb (_dispatch_qos_class_valid qos_class relpri) then Done dqa
  else
    dqai ← _dispatch_queue_attr_to_info dqa;
    mret (_dispatch_queue_attr_from_info
            (with_qos dqai (_dispatch_qos_from_qos_class qos_class) relpri)).

Definition dispatch_queue_attr_make_initially_inactive (dqa : dispatch_queue_attr_t)
    : outcome dispatch_queue_attr_t :=
  dqai ← _dispatch_queue_attr_to_info dqa;
  mret (_dispatch_queue_attr_from_info (with_inactive dqai true)).

Definition dispatch_queue_attr_make_with_overcommit (dqa : dispatch_queue_attr_t) (overcommit : bool)
    : outcome dispatch_queue_attr_t :=
  dqai ← _dispatch_queue_attr_to_info dqa;
  mret (_dispatch_queue_attr_from_info
          (with_overcommit dqai (if overcommit then _dispatch_queue_attr_overcommit_enabled
                                 else _dispatch_queue_attr_overcommit_disabled))).

(** The [switch] on the frequency refuses nothing. *)
Definition dispatch_queue_attr_make_with_autorelease_frequency (dqa : dispatch_queue_attr_t) (frequency : Z)
    : outcome dispatch_queue_attr_t :=
  dqai ← _dispatch_queue_attr_to_info dqa;
  mret (_dispatch_queue_attr_from_info (with_frequency dqai (wrap 16 frequency))).

(** A call that builds an attribute from another. *)
Inductive attr_call :=
| MakeQos (qos_class relpri : Z)
| MakeInactive
| MakeOvercommit (overcommit : bool)
| MakeFrequency (frequency : Z).

Definition attr_make (dqa : dispatch_queue_attr_t) (c : attr_call) : outcome dispatch_queue_attr_t :=
  match c with
  | MakeQos qos_class relpri => dispatch_queue_attr_make_with_qos_class dqa qos_class relpri
  | MakeInactive => dispatch_queue_attr_make_initially_inactive dqa
  | MakeOvercommit overcommit => dispatch_queue_attr_make_with_overcommit dqa overcommit
  | MakeFrequency frequency => dispatch_queue_attr_make_with_autorelease_frequency dqa frequency
  end.

Fixpoint attr_build (dqa : dispatch_queue_attr_t) (cs : list attr_call) : outcome dispatch_queue_attr_t :=
  match cs with
  | [] => Done dqa
  | c :: cs => dqa ← attr_make dqa c; attr_build dqa cs
  end.
End attributes.

(** ** Indices and settings *)

Record attr_info_wf (i : dispatch_queue_attr_info_t) : Prop := {
  wf_qos : 0 <= dqai_qos i <= DISPATCH_QOS_MAX;
  wf_relpri : QOS_MIN_RELATIVE_PRIORITY <= dqai_relpri i <= 0;
  wf_overcommit : 0 <= dqai_overcommit i <= _dispatch_queue_attr_overcommit_disabled;
  wf_frequency : 0 <= dqai_autorelease_frequency i <= DISPATCH_AUTORELEASE_FREQUENCY_NEVER;
}.

Lemma attr_info_zero_wf : attr_info_wf attr_info_zero.
Proof. by split. Qed.

(** A digit of a mixed-radix number, and what is above it. *)
Lemma digit_low n a d : 0 <= d < n -> (a * n + d) mod n = d.
Proof. intros. rewrite Z.add_comm, Z.mod_add by lia. by apply Z.mod_small. Qed.

Lemma digit_high n a d : 0 <= d < n -> (a * n + d) / n = a.
Proof. intros. rewrite Z.add_comm, Z.div_add by lia. rewrite Z.div_small by done. lia. Qed.

Ltac attr_consts :=
  unfold DISPATCH_QUEUE_ATTR_COUNT, DISPATCH_QUEUE_ATTR_OVERCOMMIT_COUNT,
    DISPATCH_QUEUE_ATTR_AUTORELEASE_FREQUENCY_COUNT, DISPATCH_QUEUE_ATTR_QOS_COUNT,
    DISPATCH_QUEUE_ATTR_PRIO_COUNT, DISPATCH_QUEUE_ATTR_CONCURRENCY_COUNT,
    DISPATCH_QUEUE_ATTR_INACTIVE_COUNT, DISPATCH_QOS_MAX, DISPATCH_QOS_USER_INTERACTIVE,
    QOS_MIN_RELATIVE_PRIORITY, DISPATCH_AUTORELEASE_FREQUENCY_NEVER,
    _dispatch_queue_attr_overcommit_disabled in *.

(** Drop the wraps of in-range values, innermost first. *)
Ltac wraps_small :=
  repeat match goal with
  | |- context [u64 ?x] => lazymatch x with context [wrap] => fail | _ => rewrite (wrap_small 64 x) by (eval_pow2; lia) end
  end.

(** The index of settings, without the wraps. *)
Definition attr_index (i : dispatch_queue_attr_info_t) : Z :=
  (((((dqai_overcommit i * 3 + dqai_autorelease_frequency i) * 7 + dqai_qos i) * 16 + - dqai_relpri i) * 2 +
    (if dqai_concurrent i then 0 else 1)) * 2 + (if dqai_inactive i then 1 else 0)).

Lemma attr_index_range i : attr_info_wf i -> 0 <= attr_index i < DISPATCH_QUEUE_ATTR_COUNT.
Proof. intros []. unfold attr_index. attr_consts. destruct (dqai_concurrent i), (dqai_inactive i); lia. Qed.

Lemma from_info_index i : attr_info_wf i -> _dispatch_queue_attr_from_info i = Some (attr_index i).
Proof.
  intros []. unfold _dispatch_queue_attr_from_info, attr_index. attr_consts. f_equal.
  destruct (dqai_concurrent i), (dqai_inactive i);
    wraps_small; lia.
Qed.

Lemma attr_digits_index i : attr_info_wf i -> attr_digits (attr_index i) = i.
Proof.
  intros []. unfold attr_digits, attr_index. attr_consts.
  change (6 + 1) with 7. change (1 - -15) with 16. destruct i as [q r o f c n]. simpl in *.
  assert (forall b : bool, 0 <= (if b then 0 else 1) < 2) by (intros []; lia).
  assert (forall b : bool, 0 <= (if b then 1 else 0) < 2) by (intros []; lia).
  repeat first [rewrite digit_low by (done || lia) | rewrite digit_high by (done || lia)].
  rewrite (Z.mod_small o) by lia. rewrite Z.opp_involutive.
  rewrite (wrap_small 8), swrap_small, (wrap_small 2 o), (wrap_small 2 f) by (eval_pow2; lia).
  by destruct c, n.
Qed.

Lemma attr_digits_wf idx : attr_info_wf (attr_digits idx).
Proof.
  unfold attr_digits. attr_consts. change (6 + 1) with 7. change (1 - -15) with 16.
  split; cbn [dqai_qos dqai_relpri dqai_overcommit dqai_autorelease_frequency]; attr_consts;
    match goal with |- context [?x mod ?n] => lazymatch n with 2 => fail | _ => pose proof (Z.mod_pos_bound x n ltac:(lia)) end end;
    rewrite ?wrap_small, ?swrap_small; eval_pow2; lia.
Qed.

Lemma attr_index_digits idx : 0 <= idx < DISPATCH_QUEUE_ATTR_COUNT -> attr_index (attr_digits idx) = idx.
Proof.
  intros Hidx. unfold attr_index, attr_digits. attr_consts. change (6 + 1) with 7. change (1 - -15) with 16.
  cbn [dqai_qos dqai_relpri dqai_overcommit dqai_autorelease_frequency dqai_concurrent dqai_inactive].
  assert (forall x, (if x mod 2 =? 0 then 0 else 1) = x mod 2) as Hb1.
  { intros x. destruct (Z.eqb_spec (x mod 2) 0); [lia|]. pose proof (Z.mod_pos_bound x 2); lia. }
  assert (forall x, (if negb (x mod 2 =? 0) then 1 else 0) = x mod 2) as Hb2.
  { intros x. rewrite <- Hb1. by destruct (x mod 2 =? 0). }
  rewrite Hb1, Hb2. assert (forall x n, 0 < n -> 0 <= x mod n < n) as Hm by (intros; by apply Z.mod_pos_bound).
  rewrite (wrap_small 8), swrap_small, !(wrap_small 2), Z.opp_involutive
    by first [done | eval_pow2; match goal with |- context [?x mod ?n] => pose proof (Hm x n ltac:(lia)) end; lia].
  assert (forall x n, 0 < n -> x / n * n + x mod n = x) as Hd.
  { intros x n Hn. pose proof (Z.div_mod x n ltac:(lia)). lia. }
  rewrite (Z.mod_small (_ / _) 3) by (split; [repeat apply Z.div_pos; lia|]; repeat apply Z.div_lt_upper_bound; lia).
  by rewrite !Hd by lia.
Qed.

(** An element of the array, or NULL. *)
Definition attr_valid (dqa : dispatch_queue_attr_t) : Prop :=
  match dqa with None => True | Some idx => 0 <= idx < DISPATCH_QUEUE_ATTR_COUNT end.

(** What a call does to the settings. *)
Definition call_effect (i : dispatch_queue_attr_info_t) (c : attr_call) : dispatch_queue_attr_info_t :=
  match c with
  | MakeQos cls relpri =>
      if _dispatch_qos_class_valid cls relpri
      then {| dqai_qos := _dispatch_qos_from_qos_class cls; dqai_relpri := relpri;
              dqai_overcommit := dqai_overcommit i; dqai_autorelease_frequency := dqai_autorelease_frequency i;
              dqai_concurrent := dqai_concurrent i; dqai_inactive := dqai_inactive i |}
      else i
  | MakeInactive => with_inactive i true
  | MakeOvercommit b =>
      {| dqai_qos := dqai_qos i; dqai_relpri := dqai_relpri i; dqai_overcommit := if b then 1 else 2;
         dqai_autorelease_frequency := dqai_autorelease_frequency i;
         dqai_concurrent := dqai_concurrent i; dqai_inactive := dqai_inactive i |}
  | MakeFrequency f =>
      {| dqai_qos := dqai_qos i; dqai_relpri := dqai_relpri i; dqai_overcommit := dqai_overcommit i;
         dqai_autorelease_frequency := f;
         dqai_concurrent := dqai_concurrent i; dqai_inactive := dqai_inactive i |}
  end.

(** The frequencies that the enumeration has. *)
Definition call_ok (c : attr_call) : Prop :=
  match c with MakeFrequency f => 0 <= f <= DISPATCH_AUTORELEASE_FREQUENCY_NEVER | _ => True end.

Lemma qos_from_class_range cls : 0 <= _dispatch_qos_from_qos_class cls <= DISPATCH_QOS_MAX.
Proof. unfold _dispatch_qos_from_qos_class, DISPATCH_QOS_MAX. by split_ifs. Qed.

Section attribute_lemmas.
Context (same_as_first : Z -> bool).
Local Abbreviation to_info := (_dispatch_queue_attr_to_info same_as_first).

Lemma to_info_total dqa : attr_valid dqa -> exists i, to_info dqa = Done i /\ attr_info_wf i.
Proof.
  unfold _dispatch_queue_attr_to_info, attr_valid. destruct dqa as [idx|]; [|eauto using attr_info_zero_wf]. intros [].
  replace (idx <? 0) with false by lia. replace (DISPATCH_QUEUE_ATTR_COUNT <=? idx) with false by lia.
  cbn [orb]. eauto using attr_digits_wf.
Qed.

Lemma to_from_info i : attr_info_wf i ->
  to_info (_dispatch_queue_attr_from_info i) = Done i /\ attr_valid (_dispatch_queue_attr_from_info i).
Proof.
  intros Hi. rewrite from_info_index by done. pose proof (attr_index_range i Hi).
  unfold _dispatch_queue_attr_to_info, attr_valid.
  replace (_ <? 0) with false by lia. replace (DISPATCH_QUEUE_ATTR_COUNT <=? _) with false by lia.
  cbn [orb]. by rewrite attr_digits_index.
Qed.

Local Opaque _dispatch_queue_attr_from_info _dispatch_queue_attr_to_info.

Lemma call_effect_wf i c : attr_info_wf i -> call_ok c -> attr_info_wf (call_effect i c).
Proof.
  intros [] Hc. destruct c as [cls r| |b|f]; simpl in *; [|by split|destruct b; by split|by split].
  destruct (_dispatch_qos_class_valid cls r) eqn:E; [|by split]. split; simpl; [apply qos_from_class_range| |done..].
  revert E. unfold _dispatch_qos_class_valid. case_match; [|done]. rewrite andb_true_iff, !Z.leb_le. done.
Qed.

Lemma attr_make_spec dqa i c : attr_valid dqa -> to_info dqa = Done i -> attr_info_wf i -> call_ok c ->
  exists dqa', attr_make same_as_first dqa c = Done dqa' /\ attr_valid dqa' /\ to_info dqa' = Done (call_effect i c).
Proof.
  intros Hv Hi Hwf Hc. pose proof (call_effect_wf i c Hwf Hc) as Hwf'.
  destruct (to_from_info _ Hwf') as [Hto Hval].
  assert (forall j, j = call_effect i c -> exists dqa', Done (_dispatch_queue_attr_from_info j) = Done dqa' /\
    attr_valid dqa' /\ to_info dqa' = Done (call_effect i c)) as Hj by (intros ? ->; eauto).
  destruct c as [cls r| |b|f]; simpl in *.
  - unfold dispatch_queue_attr_make_with_qos_class. destruct (_dispatch_qos_class_valid cls r) eqn:E; simpl; [|by eauto].
    rewrite Hi. simpl. apply Hj. destruct Hwf' as [Hq Hr _ _]. simpl in *. attr_consts. unfold with_qos.
    by rewrite wrap_small, swrap_small by (eval_pow2; lia).
  - unfold dispatch_queue_attr_make_initially_inactive. rewrite Hi. by apply Hj.
  - unfold dispatch_queue_attr_make_with_overcommit. rewrite Hi. apply Hj. by destruct b.
  - unfold dispatch_queue_attr_make_with_autorelease_frequency. rewrite Hi. apply Hj.
    unfold with_frequency. attr_consts. by rewrite (wrap_small 16), wrap_small by (eval_pow2; lia).
Qed.

Lemma attr_build_spec cs dqa i : attr_valid dqa -> to_info dqa = Done i -> attr_info_wf i -> Forall call_ok cs ->
  exists dqa', attr_build same_as_first dqa cs = Done dqa' /\ attr_valid dqa' /\
    to_info dqa' = Done (foldl call_effect i cs) /\ attr_info_wf (foldl call_effect i cs).
Proof.
  intros Hv Hi Hwf Hcs. revert dqa i Hv Hi Hwf. induction Hcs as [|c cs Hc Hcs IH]; intros; simpl; [by eauto|].
  destruct (attr_make_spec dqa i c) as (dqa1 & -> & Hv1 & Hi1); [done..|]. simpl. eauto using call_effect_wf.
Qed.
End attribute_lemmas.

(** ** Words as fields *)

(** The fields of a priority word: relative priority, class, fallback class, the rest. *)
Definition priority_word (r q f o g : Z) : Z := r + 2 ^ 8 * (q + 2 ^ 4 * (f + 2 ^ 4 * (o + 2 ^ 8 * g))).

Lemma priority_split dbp : 0 <= dbp < 2 ^ 32 -> exists r q f o g, dbp = priority_word r q f o g /\
  0 <= r < 2 ^ 8 /\ 0 <= q < 2 ^ 4 /\ 0 <= f < 2 ^ 4 /\ 0 <= o < 2 ^ 8 /\ 0 <= g < 2 ^ 8.
Proof.
  intros H. exists (dbp mod 2 ^ 8), (dbp / 2 ^ 8 mod 2 ^ 4), (dbp / 2 ^ 12 mod 2 ^ 4), (dbp / 2 ^ 16 mod 2 ^ 8), (dbp / 2 ^ 24).
  unfold priority_word. eval_pow2. repeat split; try (Z.div_mod_to_equations; lia).
Qed.

Section priority_fields.
Context (r q f o g : Z) (Hr : 0 <= r < 2 ^ 8) (Hq : 0 <= q < 2 ^ 4) (Hf : 0 <= f < 2 ^ 4) (Ho : 0 <= o < 2 ^ 8).

(** A mask acts on each field. *)
Lemma priority_land r' q' f' o' g' : 0 <= r' < 2 ^ 8 -> 0 <= q' < 2 ^ 4 -> 0 <= f' < 2 ^ 4 -> 0 <= o' < 2 ^ 8 ->
  priority_word r q f o g .& priority_word r' q' f' o' g' =
  priority_word (r .& r') (q .& q') (f .& f') (o .& o') (g .& g').
Proof using Hr Hq Hf Ho. intros. unfold priority_word. by rewrite !land_horner by (done || lia). Qed.

Lemma priority_lor r' q' f' o' g' : 0 <= r' < 2 ^ 8 -> 0 <= q' < 2 ^ 4 -> 0 <= f' < 2 ^ 4 -> 0 <= o' < 2 ^ 8 ->
  priority_word r q f o g .| priority_word r' q' f' o' g' =
  priority_word (r .| r') (q .| q') (f .| f') (o .| o') (g .| g').
Proof using Hr Hq Hf Ho. intros. unfold priority_word. by rewrite !lor_horner by (done || lia). Qed.

Lemma land_byte x : 0 <= x < 2 ^ 8 -> x .& 255 = x.
Proof. intros. by apply (land_all 8). Qed.
Lemma land_nibble x : 0 <= x < 2 ^ 4 -> x .& 15 = x.
Proof. intros. by apply (land_all 4). Qed.

Ltac priority_mask m :=
  let v := eval vm_compute in (m mod 2 ^ 8, m / 2 ^ 8 mod 2 ^ 4, m / 2 ^ 12 mod 2 ^ 4, m / 2 ^ 16 mod 2 ^ 8, m / 2 ^ 24) in
  lazymatch v with
  | (?r', ?q', ?f', ?o', ?g') =>
      change m with (priority_word r' q' f' o' g'); rewrite priority_land by lia;
      rewrite ?Z.land_0_r, ?land_byte, ?land_nibble by done
  end.

Lemma requested_word : priority_word r q f o g .& DISPATCH_PRIORITY_REQUESTED_MASK = priority_word r q 0 0 0.
Proof using Hr Hq Hf Ho. by priority_mask DISPATCH_PRIORITY_REQUESTED_MASK. Qed.

Lemma relpri_word : priority_word r q f o g .& DISPATCH_PRIORITY_RELPRI_MASK = r.
Proof using Hr Hq Hf Ho. priority_mask DISPATCH_PRIORITY_RELPRI_MASK. unfold priority_word. lia. Qed.

Lemma qos_word : _dispatch_priority_qos (priority_word r q f o g) = q.
Proof using Hr Hq Hf Ho.
  unfold _dispatch_priority_qos. priority_mask DISPATCH_PRIORITY_QOS_MASK.
  rewrite Z.shiftr_div_pow2 by done. unfold priority_word, DISPATCH_PRIORITY_QOS_SHIFT. eval_pow2. Z.div_mod_to_equations. lia.
Qed.

Lemma fallback_word : _dispatch_priority_fallback_qos (priority_word r q f o g) = f.
Proof using Hr Hq Hf Ho.
  unfold _dispatch_priority_fallback_qos. priority_mask DISPATCH_PRIORITY_FALLBACK_QOS_MASK.
  rewrite Z.shiftr_div_pow2 by done. unfold priority_word, DISPATCH_PRIORITY_FALLBACK_QOS_SHIFT. eval_pow2. Z.div_mod_to_equations. lia.
Qed.

Lemma flags_word : priority_word r q f o g .& DISPATCH_PRIORITY_PTHREAD_PRIORITY_FLAGS_MASK = priority_word 0 0 0 0 (g .& 0x86).
Proof using Hr Hq Hf Ho. by priority_mask DISPATCH_PRIORITY_PTHREAD_PRIORITY_FLAGS_MASK. Qed.

Lemma flags_relpri_word :
  priority_word r q f o g .& (DISPATCH_PRIORITY_PTHREAD_PRIORITY_FLAGS_MASK .| DISPATCH_PRIORITY_RELPRI_MASK) =
  priority_word r 0 0 0 (g .& 0x86).
Proof using Hr Hq Hf Ho.
  change (DISPATCH_PRIORITY_PTHREAD_PRIORITY_FLAGS_MASK .| DISPATCH_PRIORITY_RELPRI_MASK) with 0x860000ff.
  by priority_mask 0x860000ff.
Qed.

Lemma fallback_flag_word : priority_word r q f o g .& DISPATCH_PRIORITY_FLAG_FALLBACK = priority_word 0 0 0 0 (g .& 4).
Proof using Hr Hq Hf Ho. by priority_mask DISPATCH_PRIORITY_FLAG_FALLBACK. Qed.
End priority_fields.

Lemma relpri_of_word r q f o g : 0 <= r < 2 ^ 8 -> 0 < q < 2 ^ 4 -> 0 <= f < 2 ^ 4 -> 0 <= o < 2 ^ 8 ->
  _dispatch_priority_relpri (priority_word r q f o g) = swrap 8 r + 1.
Proof.
  intros. unfold _dispatch_priority_relpri. rewrite relpri_word by lia.
  change DISPATCH_PRIORITY_QOS_MASK with (priority_word 0 15 0 0 0). rewrite priority_land by lia.
  rewrite !Z.land_0_r, land_nibble by lia. destruct (Z.eqb_spec (priority_word 0 q 0 0 0) 0) as [E|E]; [|done].
  exfalso. revert E. unfold priority_word. eval_pow2. lia.
Qed.

(** The fields of a word of the thread library: relative priority, classes, flags. *)
Definition pp_word (x c g : Z) : Z := x + 2 ^ 8 * (c + 2 ^ 16 * g).

(** The class bit that stands for a class. *)
Definition class_bit (q : Z) : Z := if q =? 0 then 0 else 2 ^ (q - 1).

Lemma class_bit_range q : 0 <= q < 2 ^ 4 -> 0 <= class_bit q < 2 ^ 16.
Proof.
  intros Hq. unfold class_bit. destruct (Z.eqb_spec q 0); [done|]. split; [by apply Z.pow_nonneg|].
  apply Z.pow_lt_mono_r; change (2 ^ 4) with 16 in *; lia.
Qed.

Lemma ffs_class_bit q : 0 <= q < 2 ^ 4 -> ffs (class_bit q) = q.
Proof.
  intros Hq. change (2 ^ 4) with 16 in Hq.
  assert (In q (map Z.of_nat (seq 0 16))) as Hin.
  { apply in_map_iff. exists (Z.to_nat q). rewrite in_seq. lia. }
  simpl in Hin. by repeat destruct Hin as [<-|Hin]; [..|done].
Qed.

Section pp_fields.
Context (x c g : Z) (Hx : 0 <= x < 2 ^ 8) (Hc : 0 <= c < 2 ^ 16).

Lemma pp_land x' c' g' : 0 <= x' < 2 ^ 8 -> 0 <= c' < 2 ^ 16 ->
  pp_word x c g .& pp_word x' c' g' = pp_word (x .& x') (c .& c') (g .& g').
Proof using Hx Hc. intros. unfold pp_word. by rewrite !land_horner by (done || lia). Qed.

Lemma pp_lor x' c' g' : 0 <= x' < 2 ^ 8 -> 0 <= c' < 2 ^ 16 ->
  pp_word x c g .| pp_word x' c' g' = pp_word (x .| x') (c .| c') (g .| g').
Proof using Hx Hc. intros. unfold pp_word. by rewrite !lor_horner by (done || lia). Qed.

Lemma qos_from_pp_word : _dispatch_qos_from_pp (pp_word x c g) = ffs c.
Proof using Hx Hc.
  unfold _dispatch_qos_from_pp. change _PTHREAD_PRIORITY_QOS_CLASS_MASK with (pp_word 0 0xffff 0).
  rewrite pp_land by done. rewrite !Z.land_0_r, (land_all 16) by done.
  rewrite Z.shiftr_div_pow2 by done. unfold pp_word, _PTHREAD_PRIORITY_QOS_CLASS_SHIFT. f_equal.
  rewrite Z.mul_0_r, Z.add_0_r, Z.add_0_l, Z.mul_comm. by apply Z.div_mul.
Qed.

Lemma from_pp_word keep_flags : g .& 0x20 = 0 -> 0 <= ffs c < 2 ^ 4 ->
  _dispatch_priority_from_pp_impl (pp_word x c g) keep_flags =
  Done (priority_word x (ffs c) 0 0 (if keep_flags then g .& 0x86 else 0)).
Proof using Hx Hc.
  intros Hg Hq. unfold _dispatch_priority_from_pp_impl.
  change _PTHREAD_PRIORITY_SCHED_PRI_FLAG with (pp_word 0 0 0x20). rewrite pp_land by done.
  rewrite !Z.land_0_r, Hg. cbn [pp_word negb Z.eqb Z.add Z.mul].
  change (DISPATCH_PRIORITY_PTHREAD_PRIORITY_FLAGS_MASK .| DISPATCH_PRIORITY_RELPRI_MASK) with (pp_word 255 0 0x86).
  change DISPATCH_PRIORITY_RELPRI_MASK with (pp_word 255 0 0). rewrite !pp_land by done. rewrite !Z.land_0_r, land_byte by done.
  rewrite qos_from_pp_word. assert (0 <= g .& 0x86 < 2 ^ 8) as Hl by by apply land_range_r.
  rewrite Z.shiftl_mul_pow2 by done. unfold DISPATCH_PRIORITY_QOS_SHIFT. f_equal.
  assert (u32 (ffs c * 2 ^ 8) = priority_word 0 (ffs c) 0 0 0) as ->.
  { rewrite wrap_small; unfold priority_word; eval_pow2; lia. }
  assert (forall v, 0 <= v < 2 ^ 8 -> u32 (pp_word x 0 v) = priority_word x 0 0 0 v) as Hu.
  { intros v Hv. rewrite wrap_small; unfold pp_word, priority_word; eval_pow2; lia. }
  destruct keep_flags; rewrite Hu by done; rewrite priority_lor by done; by rewrite !Z.lor_0_r, Z.lor_0_l.
Qed.
End pp_fields.

Lemma shl1ul_class q : 0 < q < 2 ^ 4 ->
  shl1ul (u32 (q - 1) + _PTHREAD_PRIORITY_QOS_CLASS_SHIFT) = Done (pp_word 0 (class_bit q) 0).
Proof.
  intros Hq. unfold shl1ul, _PTHREAD_PRIORITY_QOS_CLASS_SHIFT. rewrite wrap_small by (eval_pow2; lia).
  destruct (Z.ltb_spec (q - 1 + 8) 64); [|change (2 ^ 4) with 16 in *; lia]. f_equal.
  unfold class_bit, pp_word. destruct (Z.eqb_spec q 0); [lia|]. rewrite Z.shiftl_1_l, Z.pow_add_r by lia. lia.
Qed.

(** Stripped of its flags, a priority has its class as a bit. *)
Lemma to_pp_strip_word r q f o g : 0 <= r < 2 ^ 8 -> 0 <= q < 2 ^ 4 -> 0 <= f < 2 ^ 4 -> 0 <= o < 2 ^ 8 ->
  _dispatch_priority_to_pp_strip_flags (priority_word r q f o g) = Done (pp_word r (class_bit q) 0).
Proof.
  intros. unfold _dispatch_priority_to_pp_strip_flags. rewrite qos_word, relpri_word by done.
  destruct (Z.eqb_spec q 0) as [->|]; simpl; [f_equal; unfold pp_word, class_bit; simpl; lia|].
  rewrite shl1ul_class by lia. simpl. replace r with (pp_word r 0 0) at 1 by (unfold pp_word; eval_pow2; lia).
  rewrite pp_lor by (done || by apply class_bit_range). by rewrite Z.lor_0_r, Z.lor_0_l.
Qed.

(** With its flags, it shows the fallback class, if it has one. *)
Lemma to_pp_fallback_word r q f o g : 0 <= r < 2 ^ 8 -> 0 <= q < 2 ^ 4 -> 0 <= f < 2 ^ 4 -> 0 <= o < 2 ^ 8 ->
  (Z.testbit g 2 = true -> f <> 0) ->
  _dispatch_priority_to_pp_prefer_fallback (priority_word r q f o g) =
  Done (if Z.testbit g 2 then pp_word 255 (class_bit f) (g .& 0x86) else pp_word r (class_bit q) (g .& 0x86)).
Proof.
  intros Hr Hq Hf Ho Hfb. unfold _dispatch_priority_to_pp_prefer_fallback.
  rewrite fallback_flag_word, flags_word, flags_relpri_word, fallback_word, qos_word by done.
  assert (forall r, 0 <= r < 2 ^ 8 -> priority_word r 0 0 0 (g .& 0x86) = pp_word r 0 (g .& 0x86)) as Hpw.
  { intros. unfold priority_word, pp_word. eval_pow2. lia. }
  rewrite !Hpw by done. change 4 with (2 ^ 2) at 1. rewrite land_pow2 by done.
  destruct (Z.testbit g 2).
  - change (priority_word 0 0 0 0 (2 ^ 2) =? 0) with false. cbn [negb]. change _PTHREAD_PRIORITY_PRIORITY_MASK with (pp_word 255 0 0). rewrite pp_lor by done.
    rewrite shl1ul_class by (specialize (Hfb eq_refl); lia). simpl.
    rewrite pp_lor by (done || by apply class_bit_range). by rewrite ?Z.lor_0_r, ?Z.lor_0_l.
  - change (priority_word 0 0 0 0 0 =? 0) with true. cbn [negb].
    destruct (Z.eqb_spec q 0) as [->|]; [done|]. rewrite shl1ul_class by (done || lia). simpl.
    rewrite pp_lor by (done || by apply class_bit_range). by rewrite ?Z.lor_0_r, ?Z.lor_0_l.
Qed.

Lemma make_word q relpri : 0 <= q < 2 ^ 4 -> -255 <= relpri <= 0 ->
  _dispatch_priority_make q relpri = if q =? 0 then 0 else priority_word (255 + relpri) q 0 0 0.
Proof.
  intros Hq Hr. unfold _dispatch_priority_make. destruct (Z.eqb_spec q 0) as [->|]; [done|]. simpl.
  rewrite Z.shiftl_mul_pow2 by done. unfold DISPATCH_PRIORITY_QOS_SHIFT.
  assert (u32 (q * 2 ^ 8) = priority_word 0 q 0 0 0) as ->.
  { rewrite wrap_small; unfold priority_word; eval_pow2; lia. }
  change DISPATCH_PRIORITY_QOS_MASK with (priority_word 0 15 0 0 0). rewrite priority_land by done.
  rewrite land_nibble by done. change DISPATCH_PRIORITY_RELPRI_MASK with (Z.ones 8). rewrite Z.land_ones by done.
  assert (u32 (relpri - 1) mod 2 ^ 8 = priority_word (255 + relpri) 0 0 0 0) as ->.
  { unfold priority_word. word_unfold. eval_pow2. Z.div_mod_to_equations. lia. }
  rewrite priority_lor by (done || (eval_pow2; lia)). by rewrite !Z.land_0_l, !Z.lor_0_l, !Z.lor_0_r.
Qed.

Lemma make_fallback_word q : 0 < q < 2 ^ 4 -> _dispatch_priority_make_fallback q = priority_word 0 0 q 0 4.
Proof.
  intros Hq. unfold _dispatch_priority_make_fallback. destruct (Z.eqb_spec q 0) as [->|]; [lia|]. simpl.
  rewrite Z.shiftl_mul_pow2 by done. unfold DISPATCH_PRIORITY_FALLBACK_QOS_SHIFT.
  assert (u32 (q * 2 ^ 12) = priority_word 0 0 q 0 0) as ->.
  { rewrite wrap_small; unfold priority_word; eval_pow2; lia. }
  change DISPATCH_PRIORITY_FALLBACK_QOS_MASK with (priority_word 0 0 15 0 0). rewrite priority_land by (done || lia).
  rewrite land_nibble by lia. change DISPATCH_PRIORITY_FLAG_FALLBACK with (priority_word 0 0 0 0 4).
  rewrite priority_lor by (done || lia). by rewrite !Z.lor_0_r.
Qed.

(** ** Theorems *)

(** An attribute that a chain of [dispatch_queue_attr_make_*] calls builds from NULL,
    [DISPATCH_QUEUE_CONCURRENT] or any other element of the array is an element of the
    array, and reading it back gives the settings that the calls ask for, one after the
    other: a call changes its own setting only, a QoS call with an invalid class or
    relative priority changes nothing.  No element is reached in two ways: the settings of
    an element determine it. *)
Theorem attr_build_denotes (same_as_first : Z -> bool) (dqa : dispatch_queue_attr_t) (cs : list attr_call) :
  attr_valid dqa -> Forall call_ok cs ->
  exists i dqa', _dispatch_queue_attr_to_info same_as_first dqa = Done i /\
    attr_build same_as_first dqa cs = Done dqa' /\ attr_valid dqa' /\
    _dispatch_queue_attr_to_info same_as_first dqa' = Done (foldl call_effect i cs) /\
    (forall e, dqa' = Some e -> _dispatch_queue_attr_from_info (foldl call_effect i cs) = Some e).
Proof.
  intros Hv Hcs. destruct (to_info_total same_as_first dqa Hv) as (i & Hi & Hwf).
  destruct (attr_build_spec same_as_first cs dqa i) as (dqa' & Hb & Hv' & Hi' & Hwf'); [done..|].
  exists i, dqa'. repeat split; [done..|]. intros e ->. rewrite from_info_index by done. f_equal.
  simpl in Hv'. unfold _dispatch_queue_attr_to_info in Hi'.
  replace (e <? 0) with false in Hi' by lia. replace (DISPATCH_QUEUE_ATTR_COUNT <=? e) with false in Hi' by lia.
  simpl in Hi'. injection Hi' as <-. by apply attr_index_digits.
Qed.

Lemma attr_build_denotes_witness : exists i dqa',
  _dispatch_queue_attr_to_info (fun _ => false) DISPATCH_QUEUE_CONCURRENT = Done i /\
  attr_build (fun _ => false) DISPATCH_QUEUE_CONCURRENT
    [MakeQos QOS_CLASS_UTILITY (-7); MakeQos 1 0; MakeInactive; MakeOvercommit false; MakeFrequency 1] = Done dqa' /\
  attr_valid dqa' /\
  _dispatch_queue_attr_to_info (fun _ => false) dqa' =
    Done {| dqai_qos := 3; dqai_relpri := -7; dqai_overcommit := 2; dqai_autorelease_frequency := 1;
            dqai_concurrent := true; dqai_inactive := true |}.
Proof.
  destruct (attr_build_denotes (fun _ => false) DISPATCH_QUEUE_CONCURRENT
    [MakeQos QOS_CLASS_UTILITY (-7); MakeQos 1 0; MakeInactive; MakeOvercommit false; MakeFrequency 1])
    as (i & dqa' & Hi & Hb & Hv & Hi' & _).
  - done.
  - repeat constructor; done.
  - exists i, dqa'. repeat split; [done..|]. rewrite Hi'. vm_compute in Hi. injection Hi as <-. reflexivity.
Defined.

(** A frequency outside of the enumeration carries into the setting above it: 3 turns
    the unspecified overcommit into an enabled one, and without overcommit it leaves the
    array, so that any use of the attribute crashes. *)
Lemma autorelease_frequency_carries (same_as_first : Z -> bool) (i : dispatch_queue_attr_info_t) (e : Z) :
  attr_info_wf i -> _dispatch_queue_attr_from_info i = Some e ->
  exists e', dispatch_queue_attr_make_with_autorelease_frequency same_as_first (Some e) 3 = Done (Some e') /\
    (dqai_overcommit i = _dispatch_queue_attr_overcommit_unspecified ->
       _dispatch_queue_attr_to_info same_as_first (Some e') =
       Done (with_overcommit (with_frequency i DISPATCH_AUTORELEASE_FREQUENCY_INHERIT)
               _dispatch_queue_attr_overcommit_enabled)) /\
    (dqai_overcommit i = _dispatch_queue_attr_overcommit_disabled -> same_as_first e' = false ->
       _dispatch_queue_attr_to_info same_as_first (Some e') = Crash ClientCrash).
Proof.
  intros Hwf He. destruct (to_from_info same_as_first i Hwf) as [Hto Hval]. rewrite He in Hto, Hval.
  unfold dispatch_queue_attr_make_with_autorelease_frequency. rewrite Hto. cbn [mbind outcome_bind mret outcome_ret].
  change (wrap 16 3) with 3. destruct Hwf as [Hq Hr Ho Hf]. attr_consts.
  assert (_dispatch_queue_attr_from_info (with_frequency i 3) = Some (attr_index (with_frequency i 3))) as ->.
  { unfold _dispatch_queue_attr_from_info, attr_index. attr_consts. f_equal. simpl dqai_autorelease_frequency.
    change (wrap 2 3) with 3. cbn [dqai_overcommit dqai_qos dqai_relpri dqai_concurrent dqai_inactive with_frequency].
    destruct (dqai_concurrent i), (dqai_inactive i); wraps_small; lia. }
  eexists. split; [done|]. split.
  - intros Hu. unfold _dispatch_queue_attr_overcommit_unspecified in Hu.
    assert (attr_index (with_frequency i 3) = attr_index (with_overcommit (with_frequency i 0) 1)) as ->.
    { unfold attr_index. simpl dqai_overcommit. rewrite Hu. reflexivity. }
    assert (attr_info_wf (with_overcommit (with_frequency i 0) 1)) as Hw by (split; attr_consts; done).
    destruct (to_from_info same_as_first _ Hw) as [Hto' _]. by rewrite from_info_index in Hto' by done.
  - intros Hd Hs. unfold _dispatch_queue_attr_to_info.
    assert (DISPATCH_QUEUE_ATTR_COUNT <= attr_index (with_frequency i 3)) as Hge.
    { unfold attr_index. simpl dqai_overcommit. rewrite Hd. simpl dqai_autorelease_frequency. change (wrap 2 3) with 3.
      cbn [dqai_qos dqai_relpri dqai_concurrent dqai_inactive with_frequency]. attr_consts.
      destruct (dqai_concurrent i), (dqai_inactive i); lia. }
    rewrite (proj2 (Z.leb_le _ _) Hge), orb_true_r, Hs. done.
Qed.

(** The two kinds of priority word convert into each other: without flags, the word of
    the thread library and back keeps the class and the relative priority of any priority;
    with flags, it keeps the overcommit, fallback and manager flags, and the class is the
    fallback class where the priority has one. *)
Theorem priority_words_agree (dbp : Z) : in_u 32 dbp ->
  (negb (dbp .& DISPATCH_PRIORITY_FLAG_FALLBACK =? 0) = true -> _dispatch_priority_fallback_qos dbp <> 0) ->
  (exists pp, _dispatch_priority_to_pp_strip_flags dbp = Done pp /\
     _dispatch_priority_from_pp_strip_flags pp = Done (dbp .& DISPATCH_PRIORITY_REQUESTED_MASK)) /\
  (exists pp dbp', _dispatch_priority_to_pp_prefer_fallback dbp = Done pp /\
     _dispatch_priority_from_pp pp = Done dbp' /\
     dbp' .& DISPATCH_PRIORITY_PTHREAD_PRIORITY_FLAGS_MASK = dbp .& DISPATCH_PRIORITY_PTHREAD_PRIORITY_FLAGS_MASK /\
     _dispatch_priority_qos dbp' =
       (if dbp .& DISPATCH_PRIORITY_FLAG_FALLBACK =? 0 then _dispatch_priority_qos dbp
        else _dispatch_priority_fallback_qos dbp) /\
     (dbp .& DISPATCH_PRIORITY_FLAG_FALLBACK = 0 ->
        dbp' .& DISPATCH_PRIORITY_RELPRI_MASK = dbp .& DISPATCH_PRIORITY_RELPRI_MASK)).
Proof.
  intros Hd Hfb. destruct (priority_split dbp Hd) as (r & q & f & o & g & -> & Hr & Hq & Hf & Ho & Hg).
  rewrite fallback_word, fallback_flag_word in * by done. split.
  - exists (pp_word r (class_bit q) 0). rewrite to_pp_strip_word, requested_word by done. split; [done|].
    unfold _dispatch_priority_from_pp_strip_flags.
    by rewrite from_pp_word; rewrite ?ffs_class_bit; auto using class_bit_range.
  - assert (priority_word 0 0 0 0 (g .& 4) =? 0 = negb (Z.testbit g 2)) as Hbit.
    { change 4 with (2 ^ 2). rewrite land_pow2 by done. by destruct (Z.testbit g 2). }
    rewrite Hbit, negb_involutive in Hfb. rewrite to_pp_fallback_word by done. rewrite Hbit.
    assert (g .& 0x86 .& 0x20 = 0) as Hn by (rewrite <- Z.land_assoc; apply Z.land_0_r).
    assert (g .& 0x86 .& 0x86 = g .& 0x86) as Hi by (by rewrite <- Z.land_assoc).
    unfold _dispatch_priority_from_pp.
    destruct (Z.testbit g 2); eexists _, _; (split; [done|]);
      rewrite from_pp_word by first [done | by apply class_bit_range | by rewrite ffs_class_bit];
      (split; [done|]); rewrite !ffs_class_bit, !flags_word, !qos_word by done; rewrite !Hi;
      (split; [done|split; [done|]]); intros Hz.
    + exfalso. revert Hz Hbit. intros ->. done.
    + by rewrite !relpri_word.
Qed.

Lemma priority_words_agree_witness :
  let dbp := _dispatch_priority_make_fallback 4 .| _dispatch_priority_make 2 (-3) .| DISPATCH_PRIORITY_FLAG_OVERCOMMIT in
  in_u 32 dbp /\
  exists pp dbp', _dispatch_priority_to_pp_prefer_fallback dbp = Done pp /\
    _dispatch_priority_from_pp pp = Done dbp' /\ _dispatch_priority_qos dbp' = 4.
Proof.
  intros dbp. assert (in_u 32 dbp) as Hd by (vm_compute; split; [discriminate|reflexivity]). split; [done|].
  destruct (priority_words_agree dbp Hd ltac:(vm_compute; discriminate)) as [_ (pp & dbp' & H1 & H2 & _ & H3 & _)].
  exists pp, dbp'. by rewrite H3.
Defined.

(** The settings of a priority read back, and the order of priorities is the order of
    the classes, then of the relative priorities. *)
Lemma priority_make_reads q relpri : 0 <= q <= DISPATCH_QOS_MAX -> QOS_MIN_RELATIVE_PRIORITY <= relpri <= 0 ->
  _dispatch_priority_qos (_dispatch_priority_make q relpri) = q /\
  _dispatch_priority_relpri (_dispatch_priority_make q relpri) = (if q =? 0 then 0 else relpri).
Proof.
  intros Hq Hr. attr_consts. rewrite make_word by (eval_pow2; lia). destruct (Z.eqb_spec q 0) as [->|Hn]; [done|].
  assert (0 <= 255 + relpri < 2 ^ 8) by (eval_pow2; lia). assert (0 <= q < 2 ^ 4) by (eval_pow2; lia).
  rewrite qos_word, relpri_of_word by (done || lia). split; [done|].
  unfold swrap. rewrite wrap_small by done. case_decide; eval_pow2; lia.
Qed.

Lemma priority_order q1 r1 q2 r2 :
  0 <= q1 <= DISPATCH_QOS_MAX -> QOS_MIN_RELATIVE_PRIORITY <= r1 <= 0 ->
  0 <= q2 <= DISPATCH_QOS_MAX -> QOS_MIN_RELATIVE_PRIORITY <= r2 <= 0 ->
  _dispatch_priority_make q1 r1 < _dispatch_priority_make q2 r2 <->
  q1 < q2 \/ (q1 = q2 /\ q1 <> 0 /\ r1 < r2).
Proof.
  intros Hq1 Hr1 Hq2 Hr2. attr_consts. rewrite !make_word by (eval_pow2; lia). unfold priority_word. eval_pow2.
  destruct (Z.eqb_spec q1 0), (Z.eqb_spec q2 0); lia.
Qed.

(** A worker thread of a higher class asks for a smaller nice value, from background
    to user-interactive, whatever the relative priority.  The maintenance class, the
    lowest, gets the nice value of the default class. *)
Theorem worker_nice_by_class q1 r1 q2 r2 :
  DISPATCH_QOS_BACKGROUND <= q1 < q2 -> q2 <= DISPATCH_QOS_MAX ->
  QOS_MIN_RELATIVE_PRIORITY <= r1 <= 0 -> QOS_MIN_RELATIVE_PRIORITY <= r2 <= 0 ->
  exists n1 n2, worker_nice (_dispatch_priority_make q1 r1) = Done n1 /\
    worker_nice (_dispatch_priority_make q2 r2) = Done n2 /\ n2 < n1 /\ -20 <= n2 /\ n1 <= 19 /\
    worker_nice (_dispatch_priority_make DISPATCH_QOS_MAINTENANCE r1) =
      worker_nice (_dispatch_priority_make DISPATCH_QOS_DEFAULT r1).
Proof.
  intros Hq Hm Hr1 Hr2. unfold DISPATCH_QOS_BACKGROUND in *. attr_consts.
  assert (forall q r, 1 <= q <= 6 -> -15 <= r <= 0 -> worker_nice (_dispatch_priority_make q r) =
    Done (if q =? 2 then 10 else if q =? 3 then 2 else if q =? 4 then 0 else if q =? 5 then -2
          else if q =? 6 then -4 else 0)) as Hw.
  { intros q r Hq' Hr. assert (0 <= q < 2 ^ 4) by (eval_pow2; lia). rewrite make_word by (done || lia).
    replace (q =? 0) with false by lia. unfold worker_nice. rewrite to_pp_strip_word by (done || (eval_pow2; lia)).
    cbn [mbind outcome_bind mret outcome_ret]. unfold _dispatch_pp_to_nice.
    rewrite qos_from_pp_word by ((eval_pow2; lia) || by apply class_bit_range). by rewrite ffs_class_bit. }
  rewrite !Hw by (unfold DISPATCH_QOS_MAINTENANCE, DISPATCH_QOS_DEFAULT; lia). eexists _, _. split; [done|]. split; [done|].
  assert (q1 = 2 \/ q1 = 3 \/ q1 = 4 \/ q1 = 5) as Hc1 by lia. assert (q2 = 3 \/ q2 = 4 \/ q2 = 5 \/ q2 = 6) as Hc2 by lia.
  destruct Hc1 as [->|[->|[->| ->]]], Hc2 as [->|[->|[->| ->]]]; simpl; (lia || auto with lia).
Qed.

Lemma worker_nice_by_class_witness : exists n1 n2,
  worker_nice (_dispatch_priority_make DISPATCH_QOS_BACKGROUND 0) = Done n1 /\
  worker_nice (_dispatch_priority_make DISPATCH_QOS_DEFAULT (-4)) = Done n2 /\ n2 < n1.
Proof.
  destruct (worker_nice_by_class DISPATCH_QOS_BACKGROUND 0 DISPATCH_QOS_DEFAULT (-4)) as (n1 & n2 & H1 & H2 & H3 & _).
  - split; reflexivity || (vm_compute; discriminate).
  - vm_compute; discriminate.
  - split; vm_compute; discriminate.
  - split; vm_compute; discriminate.
  - by exists n1, n2.
Defined.
