(* ===== verification/QueueGraph.v ===== *)
(** * Queues, their targets and their priorities

    Models the root queues of [src/init.c], the creation of lanes, the setters of QoS
    classes, the activation and retargeting of a lane and the computation of the priority
    of a queue from its targets ([src/queue.c], [src/inline_internal.h]), in the Linux
    build: no workqueue QoS, no kevent workloops, and DISPATCH_ALLOW_NON_LEAF_RETARGET as
    [src/internal.h] sets it.  Queues live in a store; the root queues are at the addresses
    0 to 11, in the order of the array.  The labels of the queues that exist from the start,
    diagnostics and tracing are left out. *)

From stdpp Require Import gmap.
From S2P Require Import Prelude Object ObjectOps DqState LaneRmw Qos.

Local Open Scope word_scope.

(** ** The store *)

Record queue := {
  q_type : object_type;
  q_targetq : option Z;              (* do_targetq *)
  q_ref_cnt : Z;                     (* do_ref_cnt *)
  q_label : option Z;                (* dq_label *)
  q_priority : Z;                    (* dq_priority *)
  q_flags : Z;                       (* dq_atomic_flags, the width in the low half *)
  q_state : Z;                       (* dq_state *)
  q_serialnum : Z;                   (* dq_serialnum *)
}.

Definition set_targetq (q : queue) v :=
  {| q_type := q_type q; q_targetq := Some v; q_ref_cnt := q_ref_cnt q; q_label := q_label q;
     q_priority := q_priority q; q_flags := q_flags q; q_state := q_state q; q_serialnum := q_serialnum q |}.
Definition set_ref_cnt (q : queue) v :=
  {| q_type := q_type q; q_targetq := q_targetq q; q_ref_cnt := v; q_label := q_label q;
     q_priority := q_priority q; q_flags := q_flags q; q_state := q_state q; q_serialnum := q_serialnum q |}.
Definition set_priority (q : queue) v :=
  {| q_type := q_type q; q_targetq := q_targetq q; q_ref_cnt := q_ref_cnt q; q_label := q_label q;
     q_priority := v; q_flags := q_flags q; q_state := q_state q; q_serialnum := q_serialnum q |}.
Definition set_flags (q : queue) v :=
  {| q_type := q_type q; q_targetq := q_targetq q; q_ref_cnt := q_ref_cnt q; q_label := q_label q;
     q_priority := q_priority q; q_flags := v; q_state := q_state q; q_serialnum := q_serialnum q |}.
Definition set_state (q : queue) v :=
  {| q_type := q_type q; q_targetq := q_targetq q; q_ref_cnt := q_ref_cnt q; q_label := q_label q;
     q_priority := q_priority q; q_flags := q_flags q; q_state := v; q_serialnum := q_serialnum q |}.

Record world := {
  queues : gmap Z queue;
  _dispatch_queue_serial_numbers : Z;
}.

Definition upd (w : world) (a : Z) (q : queue) : world :=
  {| queues := <[a := q]> (queues w); _dispatch_queue_serial_numbers := _dispatch_queue_serial_numbers w |}.

Definition deref (w : world) (a : Z) : outcome queue :=
  match queues w !! a with Some q => Done q | None => Crash InvalidAccess end.

Definition modify (w : world) (a : Z) (f : queue -> queue) : outcome world :=
  q ← deref w a; mret (upd w a (f q)).

Definition DQF_AUTORELEASE_ALWAYS : Z := 0x00010000.
Definition DQF_AUTORELEASE_NEVER : Z := 0x00020000.
Definition DQF_THREAD_BOUND : Z := 0x00040000.
Definition DQF_TARGETED : Z := 0x00100000.
Definition DQF_LABEL_NEEDS_FREE : Z := 0x00200000.
Definition DQF_MUTABLE : Z := 0x00400000.
Definition DQF_WIDTH (n : Z) : Z := u16 n.

Definition _dispatch_queue_is_mutable (q : queue) : bool := nz (q_flags q .& DQF_MUTABLE).
Definition _dispatch_queue_is_thread_bound (q : queue) : bool := nz (q_flags q .& DQF_THREAD_BOUND).

(** [_dispatch_retain] and [_dispatch_release] of a target; disposal of a queue is not
    modelled here. *)
Definition retain (q : queue) : queue := set_ref_cnt q (snd (_os_atomic_refcnt_add_orig2o (q_ref_cnt q) 1)).
Definition release (q : queue) : queue := set_ref_cnt q (snd (_os_atomic_refcnt_sub2o (q_ref_cnt q) 1)).

(** ** Root queues *)

Definition DISPATCH_ROOT_QUEUE_COUNT : Z := 12.

(** [_DISPATCH_ROOT_QUEUE_ENTRY] *)
Definition root_queue_entry (qos flags serialnum : Z) : queue :=
  {| q_type := QUEUE_GLOBAL_ROOT; q_targetq := None; q_ref_cnt := _OS_OBJECT_GLOBAL_REFCNT; q_label := None;
     q_priority := flags .| (if nz (flags .& DISPATCH_PRIORITY_FLAG_FALLBACK)
                             then _dispatch_priority_make_fallback qos else _dispatch_priority_make qos 0);
     q_flags := DQF_WIDTH DISPATCH_QUEUE_WIDTH_POOL;
     q_state := DISPATCH_ROOT_QUEUE_STATE_INIT_VALUE; q_serialnum := serialnum |}.

Definition _dispatch_root_queues : list queue := [
  root_queue_entry DISPATCH_QOS_MAINTENANCE 0 4;
  root_queue_entry DISPATCH_QOS_MAINTENANCE DISPATCH_PRIORITY_FLAG_OVERCOMMIT 5;
  root_queue_entry DISPATCH_QOS_BACKGROUND 0 6;
  root_queue_entry DISPATCH_QOS_BACKGROUND DISPATCH_PRIORITY_FLAG_OVERCOMMIT 7;
  root_queue_entry DISPATCH_QOS_UTILITY 0 8;
  root_queue_entry DISPATCH_QOS_UTILITY DISPATCH_PRIORITY_FLAG_OVERCOMMIT 9;
  root_queue_entry DISPATCH_QOS_DEFAULT DISPATCH_PRIORITY_FLAG_FALLBACK 10;
  root_queue_entry DISPATCH_QOS_DEFAULT (DISPATCH_PRIORITY_FLAG_FALLBACK .| DISPATCH_PRIORITY_FLAG_OVERCOMMIT) 11;
  root_queue_entry DISPATCH_QOS_USER_INITIATED 0 12;
  root_queue_entry DISPATCH_QOS_USER_INITIATED DISPATCH_PRIORITY_FLAG_OVERCOMMIT 13;
  root_queue_entry DISPATCH_QOS_USER_INTERACTIVE 0 14;
  root_queue_entry DISPATCH_QOS_USER_INTERACTIVE DISPATCH_PRIORITY_FLAG_OVERCOMMIT 15].

Definition MGR_Q : Z := 12.
Definition MGR_ROOT : Z := 13.
Definition MAIN_Q : Z := 14.

Definition _dispatch_mgr_root_queue : queue :=
  {| q_type := QUEUE_GLOBAL_ROOT; q_targetq := None; q_ref_cnt := _OS_OBJECT_GLOBAL_REFCNT; q_label := None;
     q_priority := DISPATCH_PRIORITY_FLAG_MANAGER .| DISPATCH_PRIORITY_SATURATED_OVERRIDE;
     q_flags := DQF_WIDTH DISPATCH_QUEUE_WIDTH_POOL;
     q_state := DISPATCH_ROOT_QUEUE_STATE_INIT_VALUE; q_serialnum := 3 |}.
Definition _dispatch_mgr_q : queue :=
  {| q_type := QUEUE_MGR; q_targetq := Some MGR_ROOT; q_ref_cnt := _OS_OBJECT_GLOBAL_REFCNT; q_label := None;
     q_priority := DISPATCH_PRIORITY_FLAG_MANAGER .| DISPATCH_PRIORITY_SATURATED_OVERRIDE;
     q_flags := DQF_WIDTH 1;
     q_state := DISPATCH_QUEUE_STATE_INIT_VALUE 1 .| DISPATCH_QUEUE_ROLE_BASE_ANON; q_serialnum := 2 |}.
Definition _dispatch_main_q : queue :=
  {| q_type := QUEUE_MAIN; q_targetq := Some 7; q_ref_cnt := _OS_OBJECT_GLOBAL_REFCNT; q_label := None;
     q_priority := 0; q_flags := DQF_THREAD_BOUND .| DQF_WIDTH 1;
     q_state := DISPATCH_QUEUE_STATE_INIT_VALUE 1 .| DISPATCH_QUEUE_ROLE_BASE_ANON; q_serialnum := 1 |}.

Definition boot : world :=
  {| queues := <[MGR_Q := _dispatch_mgr_q]> (<[MGR_ROOT := _dispatch_mgr_root_queue]> (<[MAIN_Q := _dispatch_main_q]>
                 (list_to_map (zip (seqZ 0 DISPATCH_ROOT_QUEUE_COUNT) _dispatch_root_queues))));
     _dispatch_queue_serial_numbers := 17 |}.

Definition _dispatch_is_in_root_queues_array (a : Z) : bool := (0 <=? a) && (a <? DISPATCH_ROOT_QUEUE_COUNT).

Definition _dispatch_get_root_queue (qos : Z) (overcommit : bool) : outcome Z :=
  if (qos <? DISPATCH_QOS_MIN) || (DISPATCH_QOS_MAX <? qos) then Crash ClientCrash
  else Done (2 * (qos - 1) + (if overcommit then 1 else 0)).

(** [_dispatch_get_default_queue] *)
Definition default_queue (overcommit : bool) : Z := 6 + (if overcommit then 1 else 0).

(** Without workqueue QoS the extreme classes are not used. *)
Definition lower_qos (qos : Z) : Z :=
  if qos =? DISPATCH_QOS_USER_INTERACTIVE then DISPATCH_QOS_USER_INITIATED
  else if qos =? DISPATCH_QOS_MAINTENANCE then DISPATCH_QOS_BACKGROUND
  else qos.

Definition DISPATCH_QUEUE_OVERCOMMIT : Z := 2.

(** [None] is DISPATCH_BAD_INPUT. *)
Definition dispatch_get_global_queue (priority flags : Z) : outcome (option Z) :=
  if nz (flags .& lnotw 64 DISPATCH_QUEUE_OVERCOMMIT) then Done None
  else
    let qos := lower_qos (_dispatch_qos_from_queue_priority priority) in
    if qos =? DISPATCH_QOS_UNSPECIFIED then Done None
    else a ← _dispatch_get_root_queue qos (nz (flags .& DISPATCH_QUEUE_OVERCOMMIT)); mret (Some a).

(** ** Priorities of lanes *)

Definition clear32 (a m : Z) : Z := a .& lnotw 32 m.

(** The target to use. *)
Definition _dispatch_queue_priority_inherit_from_target (w : world) (dq tq : Z) : outcome (world * Z) :=
  d ← deref w dq;
  let pri := q_priority d in
  if _dispatch_queue_priority_manually_selected pri then
    if _dispatch_is_in_root_queues_array tq then
      let qos := _dispatch_priority_qos pri in
      let qos := if qos =? 0 then DISPATCH_QOS_DEFAULT else qos in
      tq ← _dispatch_get_root_queue qos (nz (pri .& DISPATCH_PRIORITY_FLAG_OVERCOMMIT));
      mret (w, tq)
    else mret (w, tq)
  else if _dispatch_is_in_root_queues_array tq then
    t ← deref w tq;
    mret (upd w dq (set_priority d (q_priority t .| DISPATCH_PRIORITY_FLAG_INHERITED)), tq)
  else if nz (pri .& DISPATCH_PRIORITY_FLAG_INHERITED) then
    let pri := clear32 pri DISPATCH_PRIORITY_FALLBACK_QOS_MASK in
    let pri := clear32 pri DISPATCH_PRIORITY_FLAG_FALLBACK in
    mret (upd w dq (set_priority d pri), tq)
  else mret (w, tq).

(** [_dispatch_base_lane_is_wlh] is false without kevent workloops, and so is nothing done
    for a queue that stops being a workloop base ([_dispatch_event_loop_leave_immediate]
    of the epoll back end). *)
Definition _dispatch_lane_inherit_wlh_from_target (w : world) (dq tq : Z) : outcome world :=
  t ← deref w tq;
  let is_root := dx_hastypeflag (q_type t) _DISPATCH_QUEUE_ROOT_TYPEFLAG in
  let role := if is_root then DISPATCH_QUEUE_ROLE_BASE_ANON else DISPATCH_QUEUE_ROLE_INNER in
  w ← modify w dq (fun d => set_state d (clear64 (q_state d) DISPATCH_QUEUE_ROLE_MASK .| role));
  if is_root then mret w
  else
    let clear := if decide (dx_metatype (q_type t) = _DISPATCH_WORKLOOP_TYPE) then DQF_MUTABLE else 0 in
    modify w tq (fun t => set_flags t (clear32 (q_flags t .| DQF_TARGETED) clear)).

(** [allocated]: the queue as [_dispatch_object_alloc] returns it. *)
Definition allocated (t : object_type) : queue :=
  {| q_type := t; q_targetq := None; q_ref_cnt := os_obj_ref_cnt _os_object_alloc_realized; q_label := None;
     q_priority := 0; q_flags := 0; q_state := 0; q_serialnum := 0 |}.

Definition _dispatch_queue_init (w : world) (a : Z) (d : queue) (dqf width initial_state_bits : Z) : outcome world :=
  let dq_state := DISPATCH_QUEUE_STATE_INIT_VALUE width in
  if nz (clear64 initial_state_bits (DISPATCH_QUEUE_ROLE_MASK .| DISPATCH_QUEUE_INACTIVE)) then Crash InternalCrash
  else
    let inactive := nz (initial_state_bits .& DISPATCH_QUEUE_INACTIVE) in
    let dq_state := if inactive then dq_state .| (DISPATCH_QUEUE_INACTIVE + DISPATCH_QUEUE_NEEDS_ACTIVATION) else dq_state in
    let ref_cnt := if inactive then q_ref_cnt d + 2 else q_ref_cnt d in
    let ref_cnt :=
      if inactive && bool_decide (dx_metatype (q_type d) = 0x13) then ref_cnt + 1 else ref_cnt in
    let dq_state := dq_state .| (initial_state_bits .& DISPATCH_QUEUE_ROLE_MASK) in
    mret {| queues := <[a := {| q_type := q_type d; q_targetq := q_targetq d; q_ref_cnt := ref_cnt; q_label := q_label d;
                                q_priority := q_priority d; q_flags := dqf .| DQF_WIDTH width; q_state := dq_state;
                                q_serialnum := _dispatch_queue_serial_numbers w |}]> (queues w);
            _dispatch_queue_serial_numbers := u64 (_dispatch_queue_serial_numbers w + 1) |}.

Section create.
Context (same_as_first : Z -> bool).
(** [_dispatch_strdup_if_mutable]: the address of the copy. *)
Context (strdup : Z -> Z).

(** Step 1 of the creation: the settings, the overcommit and the target to use. *)
Definition normalize_target (w : world) (dqai : dispatch_queue_attr_info_t) (tq : option Z)
    : outcome (dispatch_queue_attr_info_t * Z * Z) :=
  let qos := lower_qos (dqai_qos dqai) in
  let dqai := with_qos dqai qos (dqai_relpri dqai) in
  let overcommit := dqai_overcommit dqai in
  let specified := negb (overcommit =? _dispatch_queue_attr_overcommit_unspecified) in
  t ← match tq with None => mret None | Some a => t ← deref w a; mret (Some t) end;
  if match t with Some t => specified && bool_decide (is_Some (q_targetq t)) | None => false end
  then Crash ClientCrash
  else
    '(qos, overcommit, tq) ←
      match t with
      | Some t =>
          if decide (q_type t = QUEUE_GLOBAL_ROOT) then
            let overcommit :=
              if specified then overcommit
              else if nz (q_priority t .& DISPATCH_PRIORITY_FLAG_OVERCOMMIT)
                   then _dispatch_queue_attr_overcommit_enabled
                   else _dispatch_queue_attr_overcommit_disabled in
            let qos := if qos =? DISPATCH_QOS_UNSPECIFIED then _dispatch_priority_qos (q_priority t) else qos in
            mret (qos, overcommit, None)
          else if bool_decide (q_targetq t = None) then
            if specified then Crash ClientCrash else mret (qos, overcommit, tq)
          else
            mret (qos, if specified then overcommit
                       else if dqai_concurrent dqai then _dispatch_queue_attr_overcommit_disabled
                       else _dispatch_queue_attr_overcommit_enabled, tq)
      | None =>
          mret (qos, if specified then overcommit
                     else if dqai_concurrent dqai then _dispatch_queue_attr_overcommit_disabled
                     else _dispatch_queue_attr_overcommit_enabled, None)
      end;
    match tq with
    | Some a => mret (dqai, overcommit, a)
    | None =>
        a ← _dispatch_get_root_queue (if qos =? DISPATCH_QOS_UNSPECIFIED then DISPATCH_QOS_DEFAULT else qos)
              (overcommit =? _dispatch_queue_attr_overcommit_enabled);
        mret (dqai, overcommit, a)
    end.

(** The flags of the new queue, and its label. *)
Definition create_flags (dqai : dispatch_queue_attr_info_t) (label : option Z) (legacy : bool) : Z * option Z :=
  let legacy :=
    if dqai_inactive dqai || negb (dqai_autorelease_frequency dqai =? 0) then false else legacy in
  let dqf := if legacy then DQF_MUTABLE else 0 in
  let dqf :=
    if dqai_autorelease_frequency dqai =? DISPATCH_AUTORELEASE_FREQUENCY_NEVER then dqf .| DQF_AUTORELEASE_NEVER
    else if dqai_autorelease_frequency dqai =? DISPATCH_AUTORELEASE_FREQUENCY_WORK_ITEM then dqf .| DQF_AUTORELEASE_ALWAYS
    else dqf in
  match label with
  | None => (dqf, None)
  | Some l => (if strdup l =? l then dqf else dqf .| DQF_LABEL_NEEDS_FREE, Some (strdup l))
  end.

(** [a] is the address that the allocator returns. *)
Definition _dispatch_lane_create_with_target (w : world) (a : Z) (label : option Z) (dqa : dispatch_queue_attr_t)
    (tq : option Z) (legacy : bool) : outcome world :=
  dqai ← _dispatch_queue_attr_to_info same_as_first dqa;
  '(dqai, overcommit, tq) ← normalize_target w dqai tq;
  let '(dqf, label) := create_flags dqai label legacy in
  let type := if dqai_concurrent dqai then QUEUE_CONCURRENT else QUEUE_SERIAL in
  w ← _dispatch_queue_init w a (allocated type) dqf (if dqai_concurrent dqai then DISPATCH_QUEUE_WIDTH_MAX else 1)
        (DISPATCH_QUEUE_ROLE_INNER .| (if dqai_inactive dqai then DISPATCH_QUEUE_INACTIVE else 0));
  let priority := _dispatch_priority_make (dqai_qos dqai) (dqai_relpri dqai) in
  let priority :=
    if overcommit =? _dispatch_queue_attr_overcommit_enabled
    then priority .| DISPATCH_PRIORITY_FLAG_OVERCOMMIT else priority in
  w ← modify w a (fun d => set_priority {| q_type := q_type d; q_targetq := q_targetq d; q_ref_cnt := q_ref_cnt d;
                             q_label := label; q_priority := q_priority d; q_flags := q_flags d; q_state := q_state d;
                             q_serialnum := q_serialnum d |} priority);
  w ← (if dqai_inactive dqai then mret w
       else '(w, _) ← _dispatch_queue_priority_inherit_from_target w a tq;
            _dispatch_lane_inherit_wlh_from_target w a tq);
  w ← modify w tq retain;
  modify w a (fun d => set_targetq d tq).

Definition dispatch_queue_create_with_target (w : world) (a : Z) (label : option Z) (dqa : dispatch_queue_attr_t)
    (tq : option Z) : outcome world :=
  _dispatch_lane_create_with_target w a label dqa tq false.

Definition dispatch_queue_create (w : world) (a : Z) (label : option Z) (attr : dispatch_queue_attr_t) : outcome world :=
  _dispatch_lane_create_with_target w a label attr None true.
End create.

(** ** Setters *)

Definition _dispatch_queue_setter_assert_inactive (w : world) (dq : Z) : outcome world :=
  d ← deref w dq; if nz (q_state d .& DISPATCH_QUEUE_INACTIVE) then mret w else Crash ClientCrash.

Definition in_queue_cluster (d : queue) : bool := bool_decide (dx_cluster (q_type d) = _DISPATCH_QUEUE_CLUSTER).

(** Of an object that is not a workloop. *)
Definition dispatch_set_qos_class_floor (w : world) (dq cls relpri : Z) : outcome world :=
  d ← deref w dq;
  if negb (in_queue_cluster d) then Crash ClientCrash
  else
    let pri := _dispatch_priority_make (_dispatch_qos_from_qos_class cls) relpri in
    let old_pri := q_priority d in
    let pri := if nz pri then pri .| DISPATCH_PRIORITY_FLAG_FLOOR else pri in
    let old_pri := clear32 old_pri DISPATCH_PRIORITY_REQUESTED_MASK in
    let old_pri := clear32 old_pri DISPATCH_PRIORITY_FLAG_FLOOR in
    _dispatch_queue_setter_assert_inactive (upd w dq (set_priority d (pri .| old_pri))) dq.

Definition dispatch_set_qos_class (w : world) (dq cls relpri : Z) : outcome world :=
  d ← deref w dq;
  if negb (in_queue_cluster d) || bool_decide (dx_metatype (q_type d) = _DISPATCH_WORKLOOP_TYPE) then Crash ClientCrash
  else
    let pri := _dispatch_priority_make (_dispatch_qos_from_qos_class cls) relpri in
    let old_pri := q_priority d in
    let old_pri := clear32 old_pri DISPATCH_PRIORITY_REQUESTED_MASK in
    let old_pri := clear32 old_pri DISPATCH_PRIORITY_FLAG_FLOOR in
    _dispatch_queue_setter_assert_inactive (upd w dq (set_priority d (pri .| old_pri))) dq.

Definition dispatch_set_qos_class_fallback (w : world) (dq cls : Z) : outcome world :=
  d ← deref w dq;
  if negb (in_queue_cluster d) then Crash ClientCrash
  else
    let pri := _dispatch_priority_make_fallback (_dispatch_qos_from_qos_class cls) in
    let old_pri := q_priority d in
    let old_pri := clear32 old_pri DISPATCH_PRIORITY_FALLBACK_QOS_MASK in
    let old_pri := clear32 old_pri DISPATCH_PRIORITY_FLAG_FALLBACK in
    _dispatch_queue_setter_assert_inactive (upd w dq (set_priority d (pri .| old_pri))) dq.

(** The class and the relative priority. *)
Definition dispatch_queue_get_qos_class (w : world) (dq : Z) : outcome (Z * Z) :=
  d ← deref w dq;
  let qos := _dispatch_priority_qos (q_priority d) in
  mret (_dispatch_qos_to_qos_class qos, if negb (qos =? 0) then _dispatch_priority_relpri (q_priority d) else 0).

(** ** Activation and retargeting *)

(** The adjusted target is used for the role, and not stored. *)
Definition _dispatch_lane_activate (w : world) (dq : Z) : outcome world :=
  d ← deref w dq;
  match q_targetq d with
  | None => Crash InvalidAccess
  | Some tq =>
      let pri := q_priority d in
      let w :=
        if (_dispatch_priority_fallback_qos pri <=? _dispatch_priority_qos pri) ||
           (negb (_dispatch_priority_qos pri =? 0) && negb (nz (pri .& DISPATCH_PRIORITY_FLAG_FLOOR)))
        then upd w dq (set_priority d (clear32 (clear32 pri DISPATCH_PRIORITY_FALLBACK_QOS_MASK)
                                         DISPATCH_PRIORITY_FLAG_FALLBACK))
        else w in
      '(w, tq) ← _dispatch_queue_priority_inherit_from_target w dq tq;
      _dispatch_lane_inherit_wlh_from_target w dq tq
  end.

(** Runs on the queue, as a barrier. *)
Definition _dispatch_lane_legacy_set_target_queue (w : world) (dq tq : Z) : outcome world :=
  d ← deref w dq;
  match q_targetq d with
  | None => Crash InvalidAccess
  | Some otq =>
      '(w, tq) ← _dispatch_queue_priority_inherit_from_target w dq tq;
      w ← _dispatch_lane_inherit_wlh_from_target w dq tq;
      w ← modify w dq (fun d => set_targetq d tq);
      modify w otq release
  end.

(** What [_dispatch_lane_set_target_queue] does with a target: on an inactive lane it
    stores it; on an active one it submits the barrier above. *)
Inductive retarget := RetargetStored (w : world) | RetargetSubmitted (w : world) (tq : Z).

Definition _dispatch_lane_set_target_queue (w : world) (dq : Z) (tq : option Z) : outcome retarget :=
  d ← deref w dq;
  let tq := match tq with
            | Some tq => tq
            | None => default_queue (q_flags d .& 0xffff =? 1)
            end in
  inactive ← _dispatch_lane_try_inactive_suspend (q_state d);
  match inactive with
  | Some _ =>
      (* suspended, so that it is not activated meanwhile, and resumed after the store *)
      w ← modify w tq retain;
      w ← modify w dq (fun d => set_targetq d tq);
      w ← match q_targetq d with None => mret w | Some otq => modify w otq release end;
      mret (RetargetStored w)
  | None =>
      if negb (_dispatch_queue_is_mutable d) then Crash ClientCrash
      else if negb (bool_decide (dx_metatype (q_type d) = 0x11 \/ dx_metatype (q_type d) = 0x13)) then Crash ClientCrash
      else w ← modify w tq retain; mret (RetargetSubmitted w tq)
  end.

(** ** The priority of a queue *)

Inductive wlh := WlhNull | WlhAnon | WlhQueue (a : Z).

(** The walk up the targets: [p] and [fallback] so far.  Either the result of an early
    return, or the queue that the walk stops at with what it has gathered. *)
Fixpoint compute_loop (fuel : nat) (w : world) (dq : Z) (tq : Z) (p fallback : Z) (wl : wlh)
    : option (outcome ((world * Z * wlh) + (world * Z * Z * Z * wlh))) :=
  match fuel with
  | O => None
  | S fuel =>
      match deref w tq with
      | Crash c => Some (Crash c)
      | Done t =>
          if dx_hastypeflag (q_type t) _DISPATCH_QUEUE_ROOT_TYPEFLAG then Some (Done (inr (w, tq, p, fallback, wl)))
          else if tq =? MGR_Q then Some (Done (inl (w, DISPATCH_PRIORITY_FLAG_MANAGER, WlhAnon)))
          else if _dispatch_queue_is_thread_bound t then Some (Done (inl (w, q_priority t, WlhAnon)))
          else if _dq_state_is_suspended (q_state t) then Some (Done (inl (w, 0, WlhNull)))
          else if negb (_dq_state_is_base_wlh (q_state t)) && _dispatch_queue_is_mutable t
          then Some (Done (inl (w, 0, WlhNull)))
          else
            let wl' := if _dq_state_is_base_wlh (q_state t) then WlhQueue tq else wl in
            match (if _dq_state_is_base_wlh (q_state t) &&
                      bool_decide (dx_metatype (q_type t) = _DISPATCH_WORKLOOP_TYPE)
                   then modify w dq (fun d => set_flags d (clear32 (q_flags d) DQF_MUTABLE)) else Done w) with
            | Crash c => Some (Crash c)
            | Done w =>
                let tqp := q_priority t in
                match q_targetq t with
                | None => Some (Crash InvalidAccess)
                | Some tq =>
                    if nz (tqp .& DISPATCH_PRIORITY_FLAG_INHERITED) then Some (Done (inr (w, tq, p, fallback, wl')))
                    else
                      let fallback := if fallback =? 0 then _dispatch_priority_fallback_qos tqp else fallback in
                      let tqp := tqp .& DISPATCH_PRIORITY_REQUESTED_MASK in
                      compute_loop fuel w dq tq (if p <? tqp then tqp else p) fallback wl'
                end
            end
      end
  end.

(** What the queue that the walk stops at adds. *)
Definition compute_at_root (w : world) (dpri tq p fallback : Z) (wl : wlh) : outcome (world * Z * wlh) :=
  t ← deref w tq;
  if _dispatch_is_in_root_queues_array tq || (q_serialnum t =? DISPATCH_QUEUE_SERIAL_NUMBER_WLF) then
    let rqp := q_priority t in
    let fallback := if fallback =? 0 then _dispatch_priority_fallback_qos rqp else fallback in
    let rqp := rqp .& DISPATCH_PRIORITY_REQUESTED_MASK in
    let p := if p <? rqp then rqp else p in
    let p := p .| (q_priority t .& DISPATCH_PRIORITY_FLAG_OVERCOMMIT) in
    let p :=
      if nz (dpri .& DISPATCH_PRIORITY_FLAG_FLOOR) || negb (nz (dpri .& DISPATCH_PRIORITY_REQUESTED_MASK)) then
        let p := p .| (dpri .& DISPATCH_PRIORITY_FLAG_FLOOR) in
        if _dispatch_priority_qos p <? fallback then p .| _dispatch_priority_make_fallback fallback else p
      else p in
    mret (w, p, wl)
  else mret (w, DISPATCH_PRIORITY_FLAG_MANAGER, WlhAnon).

Definition _dispatch_queue_compute_priority_and_wlh (fuel : nat) (w : world) (dq : Z)
    : option (outcome (world * Z * wlh)) :=
  match deref w dq with
  | Crash c => Some (Crash c)
  | Done d =>
      let dpri := q_priority d in
      let p := dpri .& DISPATCH_PRIORITY_REQUESTED_MASK in
      let fallback := _dispatch_priority_fallback_qos dpri in
      let wl := if _dq_state_is_base_wlh (q_state d) then WlhQueue dq else WlhAnon in
      match q_targetq d with
      | None => Some (Crash InvalidAccess)
      | Some tq =>
          match compute_loop fuel w dq tq p fallback wl with
          | None => None
          | Some (Crash c) => Some (Crash c)
          | Some (Done (inl r)) => Some (Done r)
          | Some (Done (inr (w, tq, p, fallback, wl))) => Some (compute_at_root w dpri tq p fallback wl)
          end
      end
  end.

Definition _dispatch_queue_push_qos (d : queue) (qos : Z) : Z :=
  if _dispatch_priority_qos (q_priority d) <? qos then qos else DISPATCH_QOS_UNSPECIFIED.

Definition _dispatch_queue_wakeup_qos (d : queue) (qos : Z) : Z :=
  let qos := if qos =? 0 then _dispatch_priority_fallback_qos (q_priority d) else qos in
  Z.max qos (_dispatch_priority_qos (q_priority d)).
