(* ===== verification/QueueCreate.v ===== *)
(** * Creating and activating queues

    What a created lane is, for every attribute and every kind of target: its class, its
    root queue, its width and its state ([dispatch_queue_create_with_target] of
    [src/queue.c]).  A lane that is created inactive and then activated ends up as one
    that is created active.  A class that is set on an inactive lane does not move it to
    the root queue of that class. *)

From stdpp Require Import gmap.
From S2P Require Import Prelude Object ObjectOps DqState LaneRmw Qos QueueGraph.

Local Open Scope word_scope.

(** ** Root queues *)

(** The root queues are as the library starts with. *)
Definition roots_ok (w : world) : Prop :=
  forall r, 0 <= r < DISPATCH_ROOT_QUEUE_COUNT -> queues w !! r = _dispatch_root_queues !! Z.to_nat r.

(** The root queue of a class. *)
Definition root_of (qos : Z) (overcommit : bool) : Z := 2 * (qos - 1) + (if overcommit then 1 else 0).

Lemma in_roots (P : Z -> Prop) : (P 0 /\ P 1 /\ P 2 /\ P 3 /\ P 4 /\ P 5 /\ P 6 /\ P 7 /\ P 8 /\ P 9 /\ P 10 /\ P 11) ->
  forall r, 0 <= r < DISPATCH_ROOT_QUEUE_COUNT -> P r.
Proof.
  intros H r Hr. unfold DISPATCH_ROOT_QUEUE_COUNT in Hr.
  assert (r = 0 \/ r = 1 \/ r = 2 \/ r = 3 \/ r = 4 \/ r = 5 \/ r = 6 \/ r = 7 \/ r = 8 \/ r = 9 \/ r = 10 \/ r = 11) as Hc by lia.
  naive_solver.
Qed.

(** The entry of class [r / 2 + 1]; the default class is a fallback. *)
Definition root_entry (r : Z) : queue :=
  let qos := r / 2 + 1 in let oc := if Z.odd r then DISPATCH_PRIORITY_FLAG_OVERCOMMIT else 0 in
  root_queue_entry qos (if qos =? DISPATCH_QOS_DEFAULT then DISPATCH_PRIORITY_FLAG_FALLBACK .| oc else oc) (r + 4).

Lemma root_lookup r : 0 <= r < DISPATCH_ROOT_QUEUE_COUNT -> _dispatch_root_queues !! Z.to_nat r = Some (root_entry r).
Proof. revert r. apply in_roots. by vm_compute. Qed.

Lemma root_entry_reads r : 0 <= r < DISPATCH_ROOT_QUEUE_COUNT ->
  nz (q_priority (root_entry r) .& DISPATCH_PRIORITY_FLAG_OVERCOMMIT) = Z.odd r /\
  _dispatch_priority_qos (q_priority (root_entry r)) = (if r / 2 + 1 =? DISPATCH_QOS_DEFAULT then 0 else r / 2 + 1).
Proof. revert r. apply in_roots. by vm_compute. Qed.

Lemma roots_deref w r : roots_ok w -> 0 <= r < DISPATCH_ROOT_QUEUE_COUNT -> deref w r = Done (root_entry r).
Proof. intros Hw Hr. unfold deref. by rewrite Hw, root_lookup. Qed.

Lemma in_array_true r : 0 <= r < DISPATCH_ROOT_QUEUE_COUNT -> _dispatch_is_in_root_queues_array r = true.
Proof. intros []. unfold _dispatch_is_in_root_queues_array. by rewrite andb_true_iff, Z.leb_le, Z.ltb_lt. Qed.

Lemma root_of_range q b : 1 <= q <= DISPATCH_QOS_MAX -> 0 <= root_of q b < DISPATCH_ROOT_QUEUE_COUNT.
Proof. intros Hq. unfold root_of, DISPATCH_ROOT_QUEUE_COUNT. attr_consts. destruct b; lia. Qed.

Lemma get_root_queue_done q b : 1 <= q <= DISPATCH_QOS_MAX -> _dispatch_get_root_queue q b = Done (root_of q b).
Proof.
  intros Hq. unfold _dispatch_get_root_queue, DISPATCH_QOS_MIN, DISPATCH_QOS_MAINTENANCE.
  replace (q <? 1) with false by lia. by replace (DISPATCH_QOS_MAX <? q) with false by lia.
Qed.

Lemma lower_qos_range q : 0 <= q <= DISPATCH_QOS_MAX -> 0 <= lower_qos q <= DISPATCH_QOS_USER_INITIATED /\ lower_qos q <> 1.
Proof.
  unfold lower_qos, DISPATCH_QOS_USER_INITIATED, DISPATCH_QOS_MAINTENANCE, DISPATCH_QOS_BACKGROUND. attr_consts.
  intros Hq. destruct (Z.eqb_spec q 6), (Z.eqb_spec q 1); lia.
Qed.

(** ** The created queue *)

(** [d]: settings after step 1; [t]: the target. *)
Definition base_priority (d : dispatch_queue_attr_info_t) (overcommit : Z) : Z :=
  let p := _dispatch_priority_make (dqai_qos d) (dqai_relpri d) in
  if overcommit =? _dispatch_queue_attr_overcommit_enabled then p .| DISPATCH_PRIORITY_FLAG_OVERCOMMIT else p.

Definition is_root (t : queue) : bool := dx_hastypeflag (q_type t) _DISPATCH_QUEUE_ROOT_TYPEFLAG.

Definition width_of (d : dispatch_queue_attr_info_t) : Z := if dqai_concurrent d then DISPATCH_QUEUE_WIDTH_MAX else 1.

Definition created_priority (p tq : Z) (t : queue) : Z :=
  if _dispatch_queue_priority_manually_selected p then p
  else if _dispatch_is_in_root_queues_array tq then q_priority t .| DISPATCH_PRIORITY_FLAG_INHERITED else p.

Definition created (strdup : Z -> Z) (d : dispatch_queue_attr_info_t) (overcommit tq : Z) (t : queue) (label : option Z)
    (legacy : bool) (serial : Z) : queue :=
  let p := base_priority d overcommit in
  {| q_type := if dqai_concurrent d then QUEUE_CONCURRENT else QUEUE_SERIAL;
     q_targetq := Some tq;
     q_ref_cnt := if dqai_inactive d then 2 else 0;
     q_label := snd (create_flags strdup d label legacy);
     q_priority := if dqai_inactive d then p else created_priority p tq t;
     q_flags := fst (create_flags strdup d label legacy) .| DQF_WIDTH (width_of d);
     q_state := DISPATCH_QUEUE_STATE_INIT_VALUE (width_of d) .|
                (if dqai_inactive d then DISPATCH_QUEUE_INACTIVE + DISPATCH_QUEUE_NEEDS_ACTIVATION
                 else if is_root t then DISPATCH_QUEUE_ROLE_BASE_ANON else DISPATCH_QUEUE_ROLE_INNER);
     q_serialnum := serial |}.

(** What becoming a target does to a queue. *)
Definition targeted (t : queue) : queue :=
  if is_root t then t
  else set_flags t (clear32 (q_flags t .| DQF_TARGETED)
         (if decide (dx_metatype (q_type t) = _DISPATCH_WORKLOOP_TYPE) then DQF_MUTABLE else 0)).

Definition manual_or_ok (p : Z) : Prop := 0 <= _dispatch_priority_qos p <= DISPATCH_QOS_MAX.

Lemma set_priority_id q : set_priority q (q_priority q) = q.
Proof. by destruct q. Qed.

Lemma upd_id w a q : queues w !! a = Some q -> upd w a q = w.
Proof. intros Ha. unfold upd. rewrite insert_id by done. by destruct w. Qed.

Lemma inherit_spec w a tq d t : queues w !! a = Some d -> queues w !! tq = Some t -> manual_or_ok (q_priority d) ->
  nz (q_priority d .& DISPATCH_PRIORITY_FLAG_INHERITED) = false ->
  exists tq', _dispatch_queue_priority_inherit_from_target w a tq =
    Done (upd w a (set_priority d (created_priority (q_priority d) tq t)), tq') /\
    (tq' = tq \/ (_dispatch_is_in_root_queues_array tq = true /\ 0 <= tq' < DISPATCH_ROOT_QUEUE_COUNT)).
Proof.
  intros Hd Ht Hq Hi. unfold _dispatch_queue_priority_inherit_from_target, created_priority, deref. rewrite Hd, Ht.
  cbn [mbind outcome_bind mret outcome_ret].
  destruct (_dispatch_queue_priority_manually_selected (q_priority d)).
  - rewrite set_priority_id, upd_id by done. destruct (_dispatch_is_in_root_queues_array tq); [|by eauto].
    set (q := if _dispatch_priority_qos (q_priority d) =? 0 then _ else _).
    assert (1 <= q <= DISPATCH_QOS_MAX) as Hr.
    { unfold manual_or_ok, DISPATCH_QOS_MAX, DISPATCH_QOS_USER_INTERACTIVE in *. subst q.
      destruct (Z.eqb_spec (_dispatch_priority_qos (q_priority d)) 0); [done|lia]. }
    rewrite get_root_queue_done by done. simpl. eexists. split; [done|]. right. split; [done|]. by apply root_of_range.
  - destruct (_dispatch_is_in_root_queues_array tq); [by eauto|].
    rewrite Hi, set_priority_id, upd_id by done. eauto.
Qed.

Lemma modify_done w a q f : queues w !! a = Some q -> modify w a f = Done (upd w a (f q)).
Proof. intros H. unfold modify, deref. by rewrite H. Qed.

(** Lookups after updates. *)
Ltac lookups := repeat first [rewrite lookup_insert_eq | rewrite lookup_insert_ne by done].
Ltac store := cbn [queues upd]; lookups; done.

(** The role of a queue, and the flag of its target. *)
Definition with_role (d : queue) (t : queue) : queue :=
  set_state d (clear64 (q_state d) DISPATCH_QUEUE_ROLE_MASK .|
               (if is_root t then DISPATCH_QUEUE_ROLE_BASE_ANON else DISPATCH_QUEUE_ROLE_INNER)).

Lemma inherit_wlh_spec w a tq d t : queues w !! a = Some d -> queues w !! tq = Some t -> a <> tq ->
  _dispatch_lane_inherit_wlh_from_target w a tq = Done (upd (upd w a (with_role d t)) tq (targeted t)).
Proof.
  intros Hd Ht Hne. unfold _dispatch_lane_inherit_wlh_from_target, modify, deref. rewrite Ht. simpl. rewrite Hd. simpl.
  fold (is_root t). unfold targeted, with_role. destruct (is_root t).
  - rewrite (upd_id _ tq); [done|]. simpl. by rewrite lookup_insert_ne.
  - simpl. by rewrite lookup_insert_ne, Ht.
Qed.

(** A base priority has the class asked for, and is not inherited. *)
Lemma base_priority_reads d oc : 0 <= dqai_qos d <= DISPATCH_QOS_MAX -> QOS_MIN_RELATIVE_PRIORITY <= dqai_relpri d <= 0 ->
  base_priority d oc = priority_word (if dqai_qos d =? 0 then 0 else 255 + dqai_relpri d) (dqai_qos d) 0 0
                         (if oc =? _dispatch_queue_attr_overcommit_enabled then 0x80 else 0).
Proof.
  intros Hq Hr. attr_consts. unfold base_priority. rewrite make_word by (eval_pow2; lia).
  assert ((if dqai_qos d =? 0 then 0 else priority_word (255 + dqai_relpri d) (dqai_qos d) 0 0 0) =
          priority_word (if dqai_qos d =? 0 then 0 else 255 + dqai_relpri d) (dqai_qos d) 0 0 0) as ->.
  { destruct (Z.eqb_spec (dqai_qos d) 0) as [->|]; done. }
  destruct (oc =? _); [|done]. change DISPATCH_PRIORITY_FLAG_OVERCOMMIT with (priority_word 0 0 0 0 0x80).
  rewrite priority_lor; [by rewrite !Z.lor_0_r|..]; try done; eval_pow2; try lia.
  destruct (dqai_qos d =? 0); lia.
Qed.

(** Settings as step 1 leaves them. *)
Record settings_ok (d : dispatch_queue_attr_info_t) : Prop := {
  ok_qos : 0 <= dqai_qos d <= DISPATCH_QOS_USER_INITIATED /\ dqai_qos d <> 1;
  ok_relpri : QOS_MIN_RELATIVE_PRIORITY <= dqai_relpri d <= 0;
}.

Lemma base_priority_facts d oc : settings_ok d ->
  _dispatch_priority_qos (base_priority d oc) = dqai_qos d /\
  nz (base_priority d oc .& DISPATCH_PRIORITY_FLAG_INHERITED) = false /\
  _dispatch_priority_fallback_qos (base_priority d oc) = 0 /\
  nz (base_priority d oc .& DISPATCH_PRIORITY_FLAG_OVERCOMMIT) = (oc =? _dispatch_queue_attr_overcommit_enabled) /\
  _dispatch_queue_priority_manually_selected (base_priority d oc) = negb (dqai_qos d =? 0) /\
  clear32 (clear32 (base_priority d oc) DISPATCH_PRIORITY_FALLBACK_QOS_MASK) DISPATCH_PRIORITY_FLAG_FALLBACK = base_priority d oc.
Proof.
  intros [[Hq Hn] Hr]. unfold DISPATCH_QOS_USER_INITIATED in Hq. attr_consts.
  rewrite base_priority_reads by (attr_consts; lia). set (r := if dqai_qos d =? 0 then _ else _).
  set (g := if oc =? _ then _ else _). assert (0 <= r < 2 ^ 8) as Hr8 by (subst r; eval_pow2; destruct (dqai_qos d =? 0); lia).
  assert (0 <= dqai_qos d < 2 ^ 4) as Hq4 by (eval_pow2; lia).
  assert (forall r' q' g', 0 <= r' < 2 ^ 8 -> 0 <= q' < 2 ^ 4 -> priority_word r (dqai_qos d) 0 0 g .& priority_word r' q' 0 0 g' =
    priority_word (r .& r') (dqai_qos d .& q') 0 0 (g .& g')) as Hland by (intros; by rewrite priority_land).
  rewrite qos_word, fallback_word by done. split; [done|]. unfold _dispatch_queue_priority_manually_selected.
  change DISPATCH_PRIORITY_FLAG_INHERITED with (priority_word 0 0 0 0 0x20).
  change DISPATCH_PRIORITY_FLAG_OVERCOMMIT with (priority_word 0 0 0 0 0x80).
  change (DISPATCH_PRIORITY_FLAG_FALLBACK .| DISPATCH_PRIORITY_FLAG_FLOOR .| DISPATCH_PRIORITY_REQUESTED_MASK)
    with (priority_word 255 15 0 0 0x44).
  rewrite !Hland by done. rewrite !Z.land_0_r, land_byte, land_nibble by done.
  assert (g .& 0x20 = 0 /\ g .& 0x44 = 0 /\ nz (priority_word 0 0 0 0 (g .& 0x80)) = (oc =? _dispatch_queue_attr_overcommit_enabled))
    as (-> & -> & ->) by (subst g; by destruct (oc =? _)).
  do 3 (split; [done|]). split.
  - change (priority_word 0 0 0 0 0 =? 0) with true. simpl. subst r. destruct (Z.eqb_spec (dqai_qos d) 0) as [E|E]; [by rewrite E|].
    simpl. destruct (Z.eqb_spec (priority_word (255 + dqai_relpri d) (dqai_qos d) 0 0 0) 0) as [E'|]; [|done].
    exfalso. revert E'. unfold priority_word. eval_pow2. lia.
  - unfold clear32. rewrite <- Z.land_assoc.
    change (lnotw 32 DISPATCH_PRIORITY_FALLBACK_QOS_MASK .& lnotw 32 DISPATCH_PRIORITY_FLAG_FALLBACK)
      with (priority_word 255 15 0 255 0xfb). rewrite priority_land by done. rewrite land_byte, land_nibble by done.
    f_equal. subst g. by destruct (oc =? _).
Qed.

Lemma init_state d t : let st := DISPATCH_QUEUE_STATE_INIT_VALUE (width_of d) in
  forall extra, extra = 0 \/ extra = DISPATCH_QUEUE_INACTIVE + DISPATCH_QUEUE_NEEDS_ACTIVATION ->
  clear64 (st .| extra) DISPATCH_QUEUE_ROLE_MASK .| (if is_root t then DISPATCH_QUEUE_ROLE_BASE_ANON else DISPATCH_QUEUE_ROLE_INNER) =
  st .| extra .| (if is_root t then DISPATCH_QUEUE_ROLE_BASE_ANON else DISPATCH_QUEUE_ROLE_INNER).
Proof. intros st extra. subst st. unfold width_of. by destruct (dqai_concurrent d), (is_root t); intros [->| ->]; vm_compute. Qed.

Definition next_serial (w : world) : Z := u64 (_dispatch_queue_serial_numbers w + 1).

Lemma world_eq (w : world) qs n : qs = queues w -> n = _dispatch_queue_serial_numbers w ->
  {| queues := qs; _dispatch_queue_serial_numbers := n |} = w.
Proof. intros -> ->. by destruct w. Qed.

Section create_spec.
Context (same_as_first : Z -> bool) (strdup : Z -> Z).

(** Step 2 of the creation. *)
Lemma create_spec w a label dqa i tq0 d oc tq t legacy :
  _dispatch_queue_attr_to_info same_as_first dqa = Done i ->
  normalize_target w i tq0 = Done (d, oc, tq) -> settings_ok d ->
  queues w !! a = None -> queues w !! tq = Some t ->
  _dispatch_lane_create_with_target same_as_first strdup w a label dqa tq0 legacy =
  Done {| queues := <[a := created strdup d oc tq t label legacy (_dispatch_queue_serial_numbers w)]>
                      (<[tq := retain (if dqai_inactive d then t else targeted t)]> (queues w));
          _dispatch_queue_serial_numbers := next_serial w |}.
Proof.
  intros Hi Hn Hok Ha Ht. assert (a <> tq) as Hne by congruence.
  unfold _dispatch_lane_create_with_target. rewrite Hi. cbn [mbind outcome_bind]. rewrite Hn. cbn [mbind outcome_bind].
  unfold created. destruct (create_flags strdup d label legacy) as [dqf lbl] eqn:Ef. cbn [fst snd].
  fold (width_of d) (base_priority d oc). unfold _dispatch_queue_init.
  replace (nz (clear64 _ _)) with false by (by destruct (dqai_inactive d)).
  replace (nz ((DISPATCH_QUEUE_ROLE_INNER .| _) .& DISPATCH_QUEUE_INACTIVE)) with (dqai_inactive d) by (by destruct (dqai_inactive d)).
  replace (bool_decide (_ = 0x13)) with false by (by destruct (dqai_concurrent d)). rewrite andb_false_r.
  replace ((DISPATCH_QUEUE_ROLE_INNER .| _) .& DISPATCH_QUEUE_ROLE_MASK) with 0 by (by destruct (dqai_inactive d)).
  rewrite Z.lor_0_r. cbn [mbind outcome_bind mret outcome_ret].
  erewrite modify_done by store. cbn [mbind outcome_bind]. unfold upd. cbn [queues _dispatch_queue_serial_numbers].
  rewrite !insert_insert_eq. fold (next_serial w). set (d1 := set_priority _ _). set (w1 := {| queues := _ |}).
  destruct (base_priority_facts d oc Hok) as (Hq & Hinh & _).
  assert (queues w1 !! tq = Some t) as Ht1 by (subst w1; store). assert (queues w1 !! a = Some d1) as Ha1 by (subst w1; store).
  destruct (dqai_inactive d) eqn:Ein.
  - cbn [mbind outcome_bind mret outcome_ret]. erewrite modify_done by done. cbn [mbind outcome_bind].
    erewrite modify_done by store. unfold upd. cbn [queues _dispatch_queue_serial_numbers w1]. do 2 f_equal.
    apply map_eq. intros k. destruct (decide (k = a)) as [->|]; [|destruct (decide (k = tq)) as [->|]]; by lookups.
  - destruct (inherit_spec w1 a tq _ t Ha1 Ht1) as (tq' & -> & _).
    { unfold manual_or_ok. simpl. rewrite Hq. destruct Hok as [[]]. unfold DISPATCH_QOS_USER_INITIATED in *. attr_consts. lia. }
    { done. }
    cbn [mbind outcome_bind]. erewrite inherit_wlh_spec by (done || store).
    cbn [mbind outcome_bind]. erewrite modify_done by store. cbn [mbind outcome_bind]. erewrite modify_done by store.
    unfold upd. cbn [queues _dispatch_queue_serial_numbers w1]. do 2 f_equal.
    apply map_eq. intros k. destruct (decide (k = a)) as [->|]; [|destruct (decide (k = tq)) as [->|]; lookups; done].
    lookups. f_equal. unfold with_role, set_state, d1. simpl. f_equal.
    rewrite <- (Z.lor_0_r (DISPATCH_QUEUE_STATE_INIT_VALUE _)) at 1. rewrite init_state by by left. by rewrite Z.lor_0_r.
Qed.
End create_spec.

(** ** Lanes on root queues *)

Definition root_or_null (tq : option Z) : Prop :=
  match tq with None => True | Some r => 0 <= r < DISPATCH_ROOT_QUEUE_COUNT end.

(** The class that a lane runs at: the one of its attribute, else that of the root queue it
    is created on, else the default class. *)
Definition asked_class (i : dispatch_queue_attr_info_t) (tq : option Z) : Z :=
  let qos := lower_qos (dqai_qos i) in
  if qos =? 0 then match tq with Some r => r / 2 + 1 | None => DISPATCH_QOS_DEFAULT end else qos.

(** And whether its threads overcommit: serial lanes do, unless told otherwise. *)
Definition asked_overcommit (i : dispatch_queue_attr_info_t) (tq : option Z) : bool :=
  if dqai_overcommit i =? _dispatch_queue_attr_overcommit_unspecified
  then match tq with Some r => Z.odd r | None => negb (dqai_concurrent i) end
  else dqai_overcommit i =? _dispatch_queue_attr_overcommit_enabled.

Definition lowered (i : dispatch_queue_attr_info_t) : dispatch_queue_attr_info_t :=
  with_qos i (lower_qos (dqai_qos i)) (dqai_relpri i).

Lemma lowered_reads i : attr_info_wf i ->
  settings_ok (lowered i) /\ dqai_qos (lowered i) = lower_qos (dqai_qos i) /\ dqai_relpri (lowered i) = dqai_relpri i.
Proof.
  intros [Hq Hr _ _]. pose proof (lower_qos_range _ Hq) as [Hl Hn]. unfold DISPATCH_QOS_USER_INITIATED in *. attr_consts.
  assert (dqai_qos (lowered i) = lower_qos (dqai_qos i)) as E1 by (simpl; rewrite wrap_small by (eval_pow2; lia); done).
  assert (dqai_relpri (lowered i) = dqai_relpri i) as E2 by (simpl; rewrite swrap_small by (eval_pow2; lia); done).
  split; [|done]. split; [by rewrite E1|]. by rewrite E2.
Qed.

Lemma asked_class_range i tq : attr_info_wf i -> root_or_null tq -> 1 <= asked_class i tq <= DISPATCH_QOS_MAX.
Proof.
  intros [Hq _ _ _] Htq. pose proof (lower_qos_range _ Hq) as [Hl Hn]. unfold asked_class.
  unfold DISPATCH_QOS_USER_INITIATED in *. attr_consts. destruct (Z.eqb_spec (lower_qos (dqai_qos i)) 0); [|lia].
  destruct tq as [r|]; [|done]. simpl in Htq. unfold DISPATCH_ROOT_QUEUE_COUNT in *. Z.div_mod_to_equations. lia.
Qed.

Lemma normalize_root w i tq : roots_ok w -> attr_info_wf i -> root_or_null tq ->
  exists oc, normalize_target w i tq = Done (lowered i, oc, root_of (asked_class i tq) (asked_overcommit i tq)) /\
    (oc =? _dispatch_queue_attr_overcommit_enabled) = asked_overcommit i tq.
Proof.
  intros Hw Hi Htq. pose proof (asked_class_range i tq Hi Htq) as Hc.
  destruct (lowered_reads i Hi) as (_ & Hlq & Hlr). unfold normalize_target. fold (lowered i).
  change (dqai_overcommit (lowered i)) with (dqai_overcommit i). change (dqai_concurrent (lowered i)) with (dqai_concurrent i).
  assert (forall (q : Z) oc b, (oc =? _dispatch_queue_attr_overcommit_enabled) = asked_overcommit i tq ->
    (if q =? DISPATCH_QOS_UNSPECIFIED then DISPATCH_QOS_DEFAULT else q) = asked_class i tq -> b = (lowered i, oc, root_of (asked_class i tq) (asked_overcommit i tq)) ->
    (a ← _dispatch_get_root_queue (if q =? DISPATCH_QOS_UNSPECIFIED then DISPATCH_QOS_DEFAULT else q)
       (oc =? _dispatch_queue_attr_overcommit_enabled); mret (lowered i, oc, a)) = Done b) as Hget.
  { intros q oc b -> -> ->. by rewrite get_root_queue_done. }
  unfold asked_overcommit, asked_class in *. destruct tq as [r|].
  - rewrite roots_deref by done. cbn [mbind outcome_bind mret outcome_ret].
    change (q_targetq (root_entry r)) with (@None Z). rewrite bool_decide_eq_false_2 by (by intros []). rewrite andb_false_r.
    change (q_type (root_entry r)) with QUEUE_GLOBAL_ROOT. rewrite decide_True by done. cbn [mbind outcome_bind mret outcome_ret].
    destruct (root_entry_reads r Htq) as [-> ->]. eexists. split.
    + apply Hget; [|..|done].
      * destruct (dqai_overcommit i =? _); [by destruct (Z.odd r)|done].
      * unfold DISPATCH_QOS_UNSPECIFIED in *. destruct (Z.eqb_spec (lower_qos (dqai_qos i)) 0) as [E|E].
        -- destruct (Z.eqb_spec (r / 2 + 1) DISPATCH_QOS_DEFAULT) as [E'|]; [by rewrite E'|].
           destruct (Z.eqb_spec (r / 2 + 1) 0); [|done]. simpl in Htq. Z.div_mod_to_equations. lia.
        -- destruct (Z.eqb_spec (lower_qos (dqai_qos i)) 0); [lia|done].
    + destruct (dqai_overcommit i =? _); [by destruct (Z.odd r)|done].
  - cbn [mbind outcome_bind mret outcome_ret]. eexists. split.
    + apply Hget; [|..|done]; [by destruct (dqai_overcommit i =? _), (dqai_concurrent i)|done].
    + by destruct (dqai_overcommit i =? _), (dqai_concurrent i).
Qed.

(** Root queues are immortal, and being a target leaves no trace on them. *)
Lemma root_unchanged r : retain (targeted (root_entry r)) = root_entry r /\ retain (root_entry r) = root_entry r.
Proof. done. Qed.

Lemma inherited_root_reads r : 0 <= r < DISPATCH_ROOT_QUEUE_COUNT ->
  let p := q_priority (root_entry r) .| DISPATCH_PRIORITY_FLAG_INHERITED in
  _dispatch_priority_qos p = (if r / 2 + 1 =? DISPATCH_QOS_DEFAULT then 0 else r / 2 + 1) /\
  (_dispatch_priority_qos p <> 0 -> _dispatch_priority_relpri p = 0).
Proof. revert r. apply in_roots. vm_compute. repeat split; done. Qed.

Lemma root_of_class q b : root_of q b / 2 + 1 = q.
Proof. unfold root_of. destruct b; Z.div_mod_to_equations; lia. Qed.

Section created_reads.
Context (strdup : Z -> Z) (i : dispatch_queue_attr_info_t) (oc tq : Z) (t : queue) (label : option Z) (legacy : bool) (serial : Z).

Lemma created_state : let q := created strdup i oc tq t label legacy serial in
  _dq_state_is_inactive (q_state q) = dqai_inactive i /\ _dq_state_is_suspended (q_state q) = dqai_inactive i /\
  _dq_state_available_width (q_state q) = width_of i /\ q_flags q .& 0xffff = width_of i.
Proof.
  unfold created, create_flags, width_of. cbn [q_state q_flags].
  destruct (dqai_inactive i), (dqai_concurrent i), (is_root t); cbn [orb]; (split; [reflexivity|split; [reflexivity|split; [reflexivity|]]]);
    destruct (negb (dqai_autorelease_frequency i =? 0)), legacy, (dqai_autorelease_frequency i =? DISPATCH_AUTORELEASE_FREQUENCY_NEVER),
      (dqai_autorelease_frequency i =? DISPATCH_AUTORELEASE_FREQUENCY_WORK_ITEM), label as [l|];
    cbn [fst snd]; try destruct (strdup l =? l); reflexivity.
Qed.
End created_reads.

(** A lane that is created on no target or on a root queue, with any attribute, targets
    the root queue of the class and the overcommit of its attribute, and for those that the
    attribute leaves open, of the given root queue, else of the default class, with
    overcommit for a serial lane.  It is serial with width 1 or concurrent with the full
    width, inactive if asked, idle otherwise; its QoS class and relative priority read back
    as asked (without kernel support user-interactive becomes user-initiated and
    maintenance background), and as those of the root queue when the attribute has none
    and the lane is active.  No other queue changes. *)
Theorem queue_create_on_root (same_as_first : Z -> bool) (strdup : Z -> Z) (w : world) (a : Z) (label : option Z)
    (dqa : dispatch_queue_attr_t) (tq : option Z) :
  roots_ok w -> queues w !! a = None -> attr_valid dqa -> root_or_null tq ->
  exists i q w', _dispatch_queue_attr_to_info same_as_first dqa = Done i /\
    dispatch_queue_create_with_target same_as_first strdup w a label dqa tq = Done w' /\
    queues w' = <[a := q]> (queues w) /\
    q_targetq q = Some (root_of (asked_class i tq) (asked_overcommit i tq)) /\
    q_type q = (if dqai_concurrent i then QUEUE_CONCURRENT else QUEUE_SERIAL) /\
    q_flags q .& 0xffff = (if dqai_concurrent i then DISPATCH_QUEUE_WIDTH_MAX else 1) /\
    _dq_state_available_width (q_state q) = (if dqai_concurrent i then DISPATCH_QUEUE_WIDTH_MAX else 1) /\
    _dq_state_is_inactive (q_state q) = dqai_inactive i /\ _dq_state_is_suspended (q_state q) = dqai_inactive i /\
    q_serialnum q = _dispatch_queue_serial_numbers w /\
    dispatch_queue_get_qos_class w' a =
      Done (if lower_qos (dqai_qos i) =? 0
            then if dqai_inactive i || (asked_class i tq =? DISPATCH_QOS_DEFAULT) then (QOS_CLASS_UNSPECIFIED, 0)
                 else (_dispatch_qos_to_qos_class (asked_class i tq), 0)
            else (_dispatch_qos_to_qos_class (lower_qos (dqai_qos i)), dqai_relpri i)).
Proof.
  intros Hw Ha Hv Htq. destruct (to_info_total same_as_first dqa Hv) as (i & Hi & Hwf).
  destruct (normalize_root w i tq Hw Hwf Htq) as (oc & Hn & Hoc). destruct (lowered_reads i Hwf) as (Hok & Hlq & Hlr).
  pose proof (asked_class_range i tq Hwf Htq) as Hc. pose proof (root_of_range _ (asked_overcommit i tq) Hc) as Hroot.
  set (r := root_of _ _) in *.
  assert (queues w !! r = Some (root_entry r)) as Hr by (by rewrite Hw, root_lookup).
  pose proof (create_spec same_as_first strdup w a label dqa i tq _ oc r _ false Hi Hn Hok Ha Hr) as Hcr.
  destruct (created_state strdup (lowered i) oc r (root_entry r) label false (_dispatch_queue_serial_numbers w))
    as (Hs1 & Hs2 & Hs3 & Hs4).
  exists i, (created strdup (lowered i) oc r (root_entry r) label false (_dispatch_queue_serial_numbers w)). eexists.
  split; [done|]. split; [exact Hcr|]. cbn [queues]. destruct (root_unchanged r) as [E1 E2].
  split; [destruct (dqai_inactive (lowered i)); rewrite ?E1, ?E2; by rewrite (insert_id (queues w) r)|].
  do 7 (split; [done|]). unfold dispatch_queue_get_qos_class, deref. cbn [queues]. rewrite lookup_insert_eq.
  cbn [mbind outcome_bind mret outcome_ret created q_priority]. f_equal. change (dqai_inactive (lowered i)) with (dqai_inactive i).
  destruct (base_priority_facts (lowered i) oc Hok) as (Hq & _ & _ & _ & Hman & _). rewrite Hlq in Hq, Hman.
  assert (lower_qos (dqai_qos i) <> 0 -> _dispatch_priority_relpri (base_priority (lowered i) oc) = dqai_relpri i) as Hrel.
  { intros Hn0. destruct Hok as [[Hq1 _] Hq2]. unfold DISPATCH_QOS_USER_INITIATED in *. attr_consts. rewrite Hlq, Hlr in *.
    rewrite base_priority_reads by (rewrite ?Hlq, ?Hlr; attr_consts; lia). rewrite Hlq, Hlr. rewrite (proj2 (Z.eqb_neq _ _) Hn0).
    rewrite relpri_of_word by (eval_pow2; lia). unfold swrap. rewrite wrap_small by (eval_pow2; lia). case_decide; eval_pow2; lia. }
  unfold created_priority. rewrite Hman, (in_array_true r) by done.
  destruct (Z.eqb_spec (lower_qos (dqai_qos i)) 0) as [E|E]; cbn [negb].
  - destruct (dqai_inactive i); cbn [orb]; [by rewrite Hq, E|].
    destruct (inherited_root_reads r Hroot) as [Hq' Hr']. rewrite Hq' in *. subst r. rewrite root_of_class in *.
    destruct (asked_class i tq =? DISPATCH_QOS_DEFAULT); [done|]. destruct (Z.eqb_spec (asked_class i tq) 0) as [E'|E']; [by rewrite E'|].
    cbn [negb]. by rewrite Hr'.
  - destruct (dqai_inactive i); rewrite Hq, (proj2 (Z.eqb_neq _ _) E); cbn [negb]; by rewrite Hrel.
Qed.

(** ** Activation *)

(** Step 1 keeps the lowered settings and finds a target that exists. *)
Lemma normalize_target_inv w i tq0 d oc tq : roots_ok w -> normalize_target w i tq0 = Done (d, oc, tq) ->
  d = lowered i /\ exists t, queues w !! tq = Some t /\ (_dispatch_is_in_root_queues_array tq = true -> is_root t = true).
Proof.
  intros Hw Hn.
  assert (forall r t, queues w !! r = Some t -> _dispatch_is_in_root_queues_array r = true -> is_root t = true) as Hroot.
  { intros r t Ht Hr. unfold _dispatch_is_in_root_queues_array in Hr. apply andb_true_iff in Hr as [?%Z.leb_le ?%Z.ltb_lt].
    rewrite Hw, root_lookup in Ht by done. by injection Ht as <-. }
  assert (forall q b d' oc', (a ← _dispatch_get_root_queue q b; mret (d', oc', a)) = Done (d, oc, tq) ->
    d = d' /\ exists t, queues w !! tq = Some t /\ (_dispatch_is_in_root_queues_array tq = true -> is_root t = true)) as Hget.
  { intros q b d' oc' Hg. unfold _dispatch_get_root_queue, DISPATCH_QOS_MIN, DISPATCH_QOS_MAINTENANCE in Hg.
    destruct ((q <? 1) || (DISPATCH_QOS_MAX <? q)) eqn:E; [done|]. apply orb_false_iff in E as [?%Z.ltb_ge ?%Z.ltb_ge].
    injection Hg as <- <- <-. fold (root_of q b). pose proof (root_of_range q b ltac:(lia)).
    split; [done|]. exists (root_entry (root_of q b)). by rewrite Hw, root_lookup. }
  unfold normalize_target in Hn. fold (lowered i) in Hn. destruct tq0 as [r|].
  - unfold deref in Hn. destruct (queues w !! r) as [t|] eqn:Et; [|done]. cbn [mbind outcome_bind mret outcome_ret] in Hn.
    destruct (negb _ && _); [done|]. destruct (decide (q_type t = QUEUE_GLOBAL_ROOT)); cbn [mbind outcome_bind mret outcome_ret] in Hn; [by eauto|].
    destruct (bool_decide (q_targetq t = None)); [destruct (negb _); [done|]|]; cbn [mbind outcome_bind mret outcome_ret] in Hn;
      injection Hn as <- <- <-; eauto.
  - cbn [mbind outcome_bind mret outcome_ret] in Hn. eauto.
Qed.

Lemma normalize_inactive w i tq0 d oc tq :
  normalize_target w i tq0 = Done (d, oc, tq) -> normalize_target w (with_inactive i true) tq0 = Done (with_inactive d true, oc, tq).
Proof.
  unfold normalize_target. intros H.
  change (with_qos (with_inactive i true) ?q ?r) with (with_inactive (with_qos i q r) true).
  cbn [dqai_qos dqai_overcommit dqai_concurrent dqai_relpri with_inactive with_qos] in *.
  assert (forall q b d1 oc1, (a ← _dispatch_get_root_queue q b; mret (d1, oc1, a)) = Done (d, oc, tq) ->
    (a ← _dispatch_get_root_queue q b; mret (with_inactive d1 true, oc1, a)) = Done (with_inactive d true, oc, tq)) as Hget.
  { intros q b d1 oc1. by destruct (_dispatch_get_root_queue q b); intros [= <- <- <-]. }
  destruct tq0 as [r|]; [|exact (Hget _ _ _ _ H)].
  destruct (deref w r) as [t|]; [|done]. cbn [mbind outcome_bind mret outcome_ret] in *.
  destruct (negb _ && _); [done|]. destruct (decide (q_type t = QUEUE_GLOBAL_ROOT)); [exact (Hget _ _ _ _ H)|].
  destruct (bool_decide (q_targetq t = None)); [destruct (negb _); [done|]|]; cbn [mbind outcome_bind mret outcome_ret] in *;
    by injection H as <- <- <-.
Qed.

(** Suspended as an inactive lane is. *)
Definition as_inactive (q : queue) : queue :=
  set_state (set_ref_cnt q (q_ref_cnt q + 2)) (q_state q .| (DISPATCH_QUEUE_INACTIVE + DISPATCH_QUEUE_NEEDS_ACTIVATION)).

Lemma targeted_retain t : targeted (retain t) = retain (targeted t).
Proof. unfold targeted, is_root. simpl. by destruct (dx_hastypeflag _ _). Qed.

Lemma create_flags_inactive strdup d label :
  create_flags strdup (with_inactive d true) label false = create_flags strdup d label false.
Proof. unfold create_flags. by destruct (dqai_inactive (with_inactive d true) || _), (dqai_inactive d || _). Qed.

(** The activation of a lane as [create_spec] leaves it. *)
Lemma activate_created strdup (w : world) a d oc tq t label n s :
  settings_ok d -> dqai_inactive d = false -> roots_ok w -> queues w !! a = None -> queues w !! tq = Some t -> a <> tq ->
  (_dispatch_is_in_root_queues_array tq = true -> is_root t = true) ->
  let w2 := {| queues := <[a := created strdup (with_inactive d true) oc tq t label false s]> (<[tq := retain t]> (queues w));
               _dispatch_queue_serial_numbers := n |} in
  exists w3, _dispatch_lane_activate w2 a = Done w3 /\
    queues w3 = <[a := as_inactive (created strdup d oc tq t label false s)]> (<[a := created strdup d oc tq t label false s]>
                  (<[tq := retain (targeted t)]> (queues w))) /\
    _dispatch_queue_serial_numbers w3 = n.
Proof.
  intros Hok Hin Hw Ha Ht Hne Hroot w2. destruct (base_priority_facts d oc Hok) as (Hq & Hinh & Hfb & _ & Hman & Hclr).
  set (c := created strdup (with_inactive d true) oc tq t label false s) in *.
  assert (queues w2 !! a = Some c) as Ha2 by (subst w2; store).
  assert (queues w2 !! tq = Some (retain t)) as Ht2 by (subst w2; store).
  unfold _dispatch_lane_activate, deref. rewrite Ha2. cbn [mbind outcome_bind].
  change (q_targetq c) with (Some tq). cbv beta iota. change (q_priority c) with (base_priority d oc).
  rewrite Hfb, Hq, Hclr. replace (0 <=? dqai_qos d) with true by (destruct Hok; lia). cbn [orb].
  change (base_priority d oc) with (q_priority c). rewrite set_priority_id, upd_id by done.
  destruct (inherit_spec w2 a tq c (retain t)) as (tq' & -> & Htq'); [done|done| |done|].
  { unfold manual_or_ok. change (q_priority c) with (base_priority d oc). rewrite Hq. destruct Hok as [[]].
    unfold DISPATCH_QOS_USER_INITIATED in *. attr_consts. lia. }
  cbn [mbind outcome_bind].
  assert (exists t', queues w2 !! tq' = Some t' /\ a <> tq' /\ is_root t' = is_root t /\ (tq' = tq \/ targeted t' = t' /\ targeted t = t))
    as (t' & Ht' & Hne' & Hr' & Htgt).
  { destruct Htq' as [->|[Hin' Hrange]]; [exists (retain t); auto|]. destruct (decide (tq' = tq)) as [->|Hd]; [exists (retain t); auto|].
    assert (queues w !! tq' = Some (root_entry tq')) as Hl by (by rewrite Hw, root_lookup).
    assert (a <> tq') by congruence. exists (root_entry tq'). split; [subst w2; store|]. split; [done|].
    specialize (Hroot Hin'). rewrite Hroot. split; [done|]. right. split; [done|]. unfold targeted. by rewrite Hroot. }
  erewrite inherit_wlh_spec; [|store|cbn [queues upd]; by rewrite lookup_insert_ne|done].
  eexists. split; [done|]. split; [|done]. cbn [queues upd w2].
  assert (with_role (set_priority c (created_priority (q_priority c) tq (retain t))) t' =
          as_inactive (created strdup d oc tq t label false s)) as ->.
  { unfold with_role, as_inactive. rewrite Hr'. subst c. unfold created.
    cbn [q_type q_targetq q_ref_cnt q_label q_priority q_flags q_state q_serialnum set_state set_priority set_ref_cnt].
    rewrite Hin, create_flags_inactive. change (dqai_inactive (with_inactive d true)) with true.
    change (width_of (with_inactive d true)) with (width_of d). cbv beta iota.
    rewrite init_state, <- !Z.lor_assoc by by right. unfold set_state, set_ref_cnt, set_priority. cbn. do 2 f_equal. apply Z.lor_comm. }
  apply map_eq. intros k. destruct (decide (k = a)) as [->|]; [by lookups|].
  destruct (decide (k = tq')) as [->|]; [lookups|].
  - destruct (decide (tq' = tq)) as [->|]; [lookups|].
    + rewrite Ht2 in Ht'. injection Ht' as <-. by rewrite targeted_retain.
    + lookups. destruct Htgt as [|[-> _]]; [done|]. rewrite <- Ht'. subst w2. cbn [queues]. by lookups.
  - lookups. destruct (decide (k = tq)) as [->|]; [|by lookups]. lookups. destruct Htgt as [|[_ ->]]; done.
Qed.

(** A lane that is created inactive and then activated is the lane that the same call
    creates active: the same target, priority, role, flags, width and serial number, with
    the same effect on the target, up to the suspension, which [dispatch_activate] ends.
    This holds for every attribute and every target for which the creation succeeds. *)
Theorem create_inactive_then_activate (same_as_first : Z -> bool) (strdup : Z -> Z) (w w1 : world) (a : Z) (label : option Z)
    (dqa dqa' : dispatch_queue_attr_t) (i : dispatch_queue_attr_info_t) (tq : option Z) :
  roots_ok w -> queues w !! a = None -> attr_valid dqa ->
  _dispatch_queue_attr_to_info same_as_first dqa = Done i -> dqai_inactive i = false ->
  dispatch_queue_attr_make_initially_inactive same_as_first dqa = Done dqa' ->
  dispatch_queue_create_with_target same_as_first strdup w a label dqa tq = Done w1 ->
  exists q1 w2 w3, queues w1 !! a = Some q1 /\
    dispatch_queue_create_with_target same_as_first strdup w a label dqa' tq = Done w2 /\
    _dispatch_lane_activate w2 a = Done w3 /\
    queues w3 = <[a := as_inactive q1]> (queues w1) /\
    _dispatch_queue_serial_numbers w3 = _dispatch_queue_serial_numbers w1.
Proof.
  intros Hw Ha Hv Hi Hin Hmake Hcr. destruct (to_info_total same_as_first dqa Hv) as (i' & Hi' & Hwf).
  rewrite Hi in Hi'. injection Hi' as <-.
  destruct (attr_make_spec same_as_first dqa i MakeInactive Hv Hi Hwf I) as (dqa2 & Hm2 & _ & Hinfo').
  cbn [attr_make] in Hm2. rewrite Hmake in Hm2. injection Hm2 as <-. cbn [call_effect] in Hinfo'.
  unfold dispatch_queue_create_with_target in Hcr.
  destruct (normalize_target w i tq) as [[[d oc] tq']|] eqn:Hn;
    [|unfold _dispatch_lane_create_with_target in Hcr; rewrite Hi in Hcr; cbn [mbind outcome_bind] in Hcr; by rewrite Hn in Hcr].
  destruct (normalize_target_inv w i tq d oc tq' Hw Hn) as (-> & t & Ht & Hroot).
  destruct (lowered_reads i Hwf) as (Hok & Hlq & Hlr). assert (settings_ok (with_inactive (lowered i) true)) as Hok2 by (by destruct Hok).
  pose proof (create_spec same_as_first strdup w a label dqa i tq _ _ _ t false Hi Hn Hok Ha Ht) as Hc1.
  rewrite Hcr in Hc1. injection Hc1 as ->.
  pose proof (create_spec same_as_first strdup w a label dqa' _ tq _ _ _ t false Hinfo' (normalize_inactive _ _ _ _ _ _ Hn) Hok2 Ha Ht) as Hc2.
  change (dqai_inactive (lowered i)) with (dqai_inactive i) in *. rewrite Hin. assert (a <> tq') as Hne by congruence.
  destruct (activate_created strdup w a (lowered i) oc tq' t label (next_serial w) (_dispatch_queue_serial_numbers w))
    as (w3 & Hact & Hq3 & Hs3); [done..|].
  eexists _, _, w3. split; [simpl; by rewrite lookup_insert_eq|]. split; [exact Hc2|]. split; [exact Hact|].
  cbn [queues _dispatch_queue_serial_numbers]. by rewrite Hq3.
Qed.

(** ** Examples *)

Lemma boot_roots_ok : roots_ok boot.
Proof. intros r Hr. rewrite root_lookup by done. revert r Hr. apply in_roots. by vm_compute. Qed.

(** A concurrent attribute of class utility, relative priority -3. *)
Definition utility_attr : dispatch_queue_attr_t :=
  Some (attr_index {| dqai_qos := 3; dqai_relpri := -3; dqai_overcommit := 0; dqai_autorelease_frequency := 0;
                      dqai_concurrent := true; dqai_inactive := false |}).

Lemma queue_create_on_root_witness : exists q w',
  dispatch_queue_create_with_target (fun _ => false) (fun l => l + 1) boot 100 (Some 5) utility_attr (Some 9) = Done w' /\
  queues w' = <[100 := q]> (queues boot) /\ q_targetq q = Some 5 /\
  dispatch_queue_get_qos_class w' 100 = Done (QOS_CLASS_UTILITY, -3).
Proof.
  destruct (queue_create_on_root (fun _ => false) (fun l => l + 1) boot 100 (Some 5) utility_attr (Some 9))
    as (i & q & w' & Hi & Hc & Hq & Ht & _ & _ & _ & _ & _ & _ & Hg).
  - exact boot_roots_ok.
  - vm_compute. reflexivity.
  - vm_compute. split; [discriminate|reflexivity].
  - vm_compute. split; [discriminate|reflexivity].
  - vm_compute in Hi. injection Hi as <-. exists q, w'. by split.
Defined.

Lemma create_inactive_then_activate_witness : exists w1 w2 w3 dqa',
  dispatch_queue_attr_make_initially_inactive (fun _ => false) utility_attr = Done dqa' /\
  dispatch_queue_create_with_target (fun _ => false) (fun l => l) boot 100 None utility_attr (Some MAIN_Q) = Done w1 /\
  dispatch_queue_create_with_target (fun _ => false) (fun l => l) boot 100 None dqa' (Some MAIN_Q) = Done w2 /\
  _dispatch_lane_activate w2 100 = Done w3.
Proof.
  destruct (create_inactive_then_activate (fun _ => false) (fun l => l) boot
    (default boot (match dispatch_queue_create_with_target (fun _ => false) (fun l => l) boot 100 None utility_attr (Some MAIN_Q) with
                   | Done w => Some w | _ => None end)) 100 None utility_attr
    (default None (match dispatch_queue_attr_make_initially_inactive (fun _ => false) utility_attr with Done d => Some d | _ => None end))
    {| dqai_qos := 3; dqai_relpri := -3; dqai_overcommit := 0; dqai_autorelease_frequency := 0;
       dqai_concurrent := true; dqai_inactive := false |} (Some MAIN_Q)) as (q1 & w2 & w3 & H1 & H2 & H3 & _).
  - exact boot_roots_ok.
  - vm_compute. reflexivity.
  - vm_compute. split; [discriminate|reflexivity].
  - vm_compute. reflexivity.
  - reflexivity.
  - vm_compute. reflexivity.
  - vm_compute. reflexivity.
  - eexists _, w2, w3, _. split; [|split; [|split; [exact H2|exact H3]]]; vm_compute; reflexivity.
Defined.

(** A serial lane, created inactive, that the client then moves to the background class:
    the activation computes the root queue of that class, and does not store it; the lane
    keeps running on the root queue of the default class. *)
Lemma set_qos_class_keeps_root : exists w1 w2 w3 q,
  dispatch_queue_create_with_target (fun _ => false) (fun l => l) boot 100 None
    (Some (attr_index (with_inactive attr_info_zero true))) None = Done w1 /\
  dispatch_set_qos_class w1 100 QOS_CLASS_BACKGROUND 0 = Done w2 /\
  _dispatch_queue_priority_inherit_from_target w2 100 7 = Done (w2, root_of DISPATCH_QOS_BACKGROUND true) /\
  _dispatch_lane_activate w2 100 = Done w3 /\ queues w3 !! 100 = Some q /\
  q_targetq q = Some (root_of DISPATCH_QOS_DEFAULT true) /\
  dispatch_queue_get_qos_class w3 100 = Done (QOS_CLASS_BACKGROUND, 0).
Proof. eexists _, _, _, _. repeat split; vm_compute; reflexivity. Qed.
