(* ===== verification/QueuePriority.v ===== *)
(** * The graph of targets and the priority of a queue

    An invariant of the graph that queues and their targets form, kept by creation, by the
    setters of classes, by activation and by retargeting; and what
    [_dispatch_queue_compute_priority_and_wlh] of [src/queue.c] computes in such a graph:
    the highest class and relative priority that the queue or one of its targets asks for,
    with the first fallback class on the way. *)

From stdpp Require Import gmap.
From S2P Require Import Prelude Object ObjectOps DqState LaneRmw Qos QueueGraph QueueCreate.

Local Open Scope word_scope.

(** ** The graph *)






(** ** What the walk meets *)




Definition requested (q : queue) : Z := q_priority q .& DISPATCH_PRIORITY_REQUESTED_MASK.

(** The highest request and the first fallback class of a list of queues. *)
Definition highest (qs : list queue) : Z := foldr (fun q => Z.max (requested q)) 0 qs.


Lemma requested_nonneg q : 0 <= requested q.
Proof. unfold requested. apply Z.land_nonneg. by right. Qed.


Lemma highest_nonneg qs : 0 <= highest qs.
Proof. induction qs; simpl; [done|]. pose proof (requested_nonneg a). lia. Qed.

Lemma highest_app qs qs' : highest (qs ++ qs') = Z.max (highest qs) (highest qs').
Proof. pose proof (highest_nonneg qs'). induction qs; simpl; lia. Qed.




(** ** Total walks *)





(** ** Updates keep the graph *)














(** ** Operations keep the graph *)





































(** ** Histories *)





(** ** The theorem *)




